(* ===== verification/_CoqProject ===== *)
-Q . S2P
Prelude.v
ByteCursor.v
RlcConfig.v
RlcAmPdu.v
RlcUmPdu.v
RlcAmStatusPdu.v
RlcAmStatusFacts.v
RlcAmStatusNacks.v
ByteBufferChain.v
RlcSegments.v
SegmentedCircularMap.v
SduWindow.v
RlcRxBase.v
RlcRxUm.v
RlcRxUmFacts.v
RlcRxUmSteps.v
RlcRxUmCorrect.v
RlcRxAm.v
RlcRxAmFacts.v
RlcRxAmStatus.v
RlcRxAmSteps.v
RlcRxAmCorrect.v
BitCodec.v
PdcpSn.v
SduQueue.v
SduQueueConc.v
SduQueueSeq.v
RlcTxBase.v
RlcTxUm.v
RlcTxUmCorrect.v
RlcTxUmStream.v
RlcTm.v
RingBuffer.v
RlcRetxQueue.v
SduWindowCount.v
RlcTxAm.v
RlcTxAmStatus.v
RlcTxAmFacts.v
RlcTxAmPdus.v
RlcTxAmAcks.v
RlcTxAmNacks.v
RlcTxAmCorrect.v
RlcAmLink.v
CircularMap.v
PdcpBase.v
PdcpTxWindow.v
SecurityEngine.v
PdcpRx.v
PdcpRxFacts.v
PdcpRxSteps.v
PdcpRxCorrect.v
PdcpTx.v
PdcpTxFacts.v
PdcpTxOps.v
PdcpTxStatus.v
PdcpTxSteps.v
PdcpTxCorrect.v
PdcpLink.v
PdcpStatusLink.v
BitFields.v
BitIo.v
Nru.v
Psup.v
GtpuPdu.v
GtpuPduCorrect.v
GtpuTunnels.v
GtpuPsupRx.v
GtpuPsupRxFacts.v
GtpuPsupRxCorrect.v
GtpuTeidPool.v
GtpuPathMgmt.v
GtpuDemux.v
F1u.v
F1uCorrect.v
F1uUplink.v
Sdap.v
