(* ===== verification/Prelude.v ===== *)
(** * A verified model of the user plane above the MAC

    The repository is a 5G base station. This development models the path of user data between the MAC and the core network:
    radio link control ([lib/rlc], TS 38.322), the F1-U bearers between DU and CU-UP ([lib/f1u], [lib/nru], TS 38.425), packet
    data convergence ([lib/pdcp], TS 38.323), SDAP ([lib/sdap]) and the GTP-U tunnels ([lib/gtpu], [lib/psup], TS 29.281 and TS
    38.415), with the security engine and the containers and codecs these layers are built from. It follows the C++ sources
    definition by definition; the theorems are about these definitions.

    ** The parts of the program and how they interact

    A bearer is an RLC entity in one of three modes, with a transmitting and a receiving side. PDCP hands SDUs to the
    transmitting side ([handle_sdu], [discard_sdu]) from one executor; the MAC pulls PDUs from another one ([pull_pdu]) and
    is told how much is waiting ([get_buffer_state], [update_mac_buffer_state]). Between the two executors lies the
    lock-free SDU queue. The MAC of the peer hands PDUs to its receiving side ([handle_pdu]), which reassembles SDUs for its
    upper layer. In acknowledged mode the receiving side also builds status reports, which the transmitting side of the
    same entity sends, and passes received reports to it, which then retransmits; three timers drive polling, reassembly
    and the rate of reports.

    A PDCP entity numbers SDUs with COUNTs, of which the sequence number (SN) is transmitted, ciphers and protects them with the
    COUNT, and restores their order at the other end. Both of its sides hand each PDU to a pool of crypto workers and get it
    back on the executor of the UE, so PDUs overtake each other within the entity too. The transmitter keeps SDUs in a window
    until RLC notifies that they were sent or delivered, until the peer's status report acknowledges them or until the discard
    timer expires; the receiver keeps PDUs in a window until the ones before have come or t-Reordering expires. Both can
    buffer, be suspended, and be re-established with new keys.

    In a split base station RLC is in the DU and PDCP in the CU-UP. An F1-U bearer at each of them carries PDCP PDUs as NR-U
    messages: downwards with the SNs that PDCP discarded, collected in blocks until a timer expires, upwards with the delivery
    status that RLC stored. The messages travel in GTP-U tunnels. Above PDCP, SDAP maps the bearers of a PDU session to its QoS
    flows, and the NG-U tunnel of the session carries the packets, downwards with their QoS flow in a PDU session container and
    perhaps with a sequence number, by which the receiver puts them into order. One demultiplexer for each socket finds the
    tunnel of a PDU by the TEID that a pool gave to it, and answers unknown TEIDs with error indications. Xn-U tunnels carry
    PDCP SDUs with their SN between nodes, path management answers echo requests.

    ** Files

    - Foundations: [Prelude] (machine integers, bit operations as arithmetic, list lemmas), [ByteCursor] (readers of received
      octets and writers into a grant), [RlcConfig] ([rlc_config.h]).
    - Codecs: [RlcAmPdu] and [RlcUmPdu] (data PDU headers, [rlc_am_pdu.h], [rlc_um_pdu.h]); [RlcAmStatusPdu],
      [RlcAmStatusFacts], [RlcAmStatusNacks] (status PDUs, [rlc_am_pdu.cpp]); [BitCodec] ([bit_encoding.cpp]); [PdcpSn]
      ([pdcp_sn_util.h]).
    - Containers: [ByteBufferChain] ([byte_buffer_chain.h]); [SegmentedCircularMap] and [SduWindow]
      ([segmented_circular_map.h], [segmented_sdu_window.h]); [SduWindowCount] (its number of elements); [RingBuffer]
      ([ring_buffer.h]); [RlcRetxQueue] ([rlc_retx_queue.h]).
    - The SDU queue ([rlc_sdu_queue_lockfree.h]): [SduQueue] (its operations as programs of atomic accesses),
      [SduQueueConc] (two threads, every interleaving), [SduQueueSeq] (one operation at a time).
    - Receiving side: [RlcSegments] (segments of one SDU), [RlcRxBase] (what both modes share); [RlcRxUm],
      [RlcRxUmFacts], [RlcRxUmSteps], [RlcRxUmCorrect] ([rlc_rx_um_entity.cpp]); [RlcRxAm], [RlcRxAmFacts],
      [RlcRxAmStatus], [RlcRxAmSteps], [RlcRxAmCorrect] ([rlc_rx_am_entity.cpp]).
    - Transmitting side: [RlcTxBase] (what the modes share); [RlcTxUm], [RlcTxUmCorrect], [RlcTxUmStream]
      ([rlc_tx_um_entity.cpp]); [RlcTxAm] (building PDUs) and [RlcTxAmStatus] (status reports, buffer states, life cycle) of
      [rlc_tx_am_entity.cpp], with [RlcTxAmFacts], [RlcTxAmPdus], [RlcTxAmAcks], [RlcTxAmNacks], [RlcTxAmCorrect].
    - Both sides together: [RlcAmLink].
    - Transparent mode, both sides: [RlcTm] ([rlc_tx_tm_entity.cpp], [rlc_rx_tm_entity.cpp]).
    - PDCP, what both sides share: [CircularMap] ([circular_map.h], and windows as finite maps), [PdcpBase]
      ([pdcp_sn.h], [pdcp_pdu.h], [pdcp_entity_tx_rx_base.h]), [SecurityEngine] ([security_engine_impl.cpp],
      [integrity_engine_generic.cpp]).
    - PDCP receiver: [PdcpRx] ([pdcp_entity_rx.cpp]), [PdcpRxFacts], [PdcpRxSteps] (the entity with its tasks),
      [PdcpRxCorrect].
    - PDCP transmitter: [PdcpTxWindow] ([pdcp_tx_window.cpp]); [PdcpTx] ([pdcp_entity_tx.cpp]), [PdcpTxFacts], [PdcpTxOps] (SDUs
      and PDUs), [PdcpTxStatus] (status reports), [PdcpTxSteps] (the entity with its tasks), [PdcpTxCorrect].
    - PDCP, both ends together: [PdcpLink] (data), [PdcpStatusLink] (status reports). [PdcpTxCorrect] ends with runs that depart from the documentation.
    - Bit fields in sequence: [BitFields] (chains of [pack_ok &= ..]), [BitIo] (writers and readers that stop at a failure).
    - Containers of extension headers: [Nru] ([nru_packing.cpp], [extension_header]), [Psup] ([psup_packing.cpp]).
    - GTP-U: [GtpuPdu] ([gtpu_pdu.cpp]), [GtpuPduCorrect]; [GtpuTunnels] ([gtpu_tunnel_*]);
      the NG-U receiver [GtpuPsupRx] ([gtpu_tunnel_psup_rx_impl.h]), [GtpuPsupRxFacts], [GtpuPsupRxCorrect]; [GtpuTeidPool]
      ([gtpu_teid_pool_impl.h]); [GtpuPathMgmt] ([gtpu_echo_*_impl.h]); [GtpuDemux] ([gtpu_demux_impl.cpp]).
    - F1-U bearers: [F1u] ([f1u_bearer_impl.cpp] of CU-UP and DU), with [F1uCorrect] (downwards) and [F1uUplink] (upwards).
    - [Sdap] ([sdap_entity_impl.h]).

    In every group the file named after the component holds its data and operations under the names of the source (with a
    prefix [um_], [am_], [tm_], [rx_], [tx_], [cu_], [du_], [g_], [psup_], [demux_] where entities use the same name), the files after it its lemmas, and a file [...Correct],
    [...Stream] or [...Conc] the theorems. Interfaces are classes: [SduWindow] with [SduWindowLaws] and [SduWindowCount]
    (entities are proved against the laws, the circular map discharges them), [StatusProvider] with [StatusProviderLaws]
    (what the AM transmitter uses of the AM receiver), [IntegrityEngine] and [CipheringEngine] with their laws (the generic engine
    and [security_engine_impl] discharge [SecurityPair], what the two PDCP sides rely on), [RohcCompressor] and
    [RohcDecompressor] (header compression, a library the sources only call), [ContainerCodec] with [ContainerLaws] (the packers of
    extension headers, against which the tunnels are proved).

    ** Conventions

    - Unsigned integers are [Z] reduced by [u8], [u16], [u32], [u64] wherever the code may leave the range; octets are
      [list Z]; a buffer and its length are one list.
    - [None] is a failed assertion, undefined behaviour (an iterator past the end, an access outside of a container) or a loop
      out of fuel. Errors that the code reports are values. A theorem that an operation returns [Some] therefore says that it
      terminates without any of these.
    - An entity is a record of its fields; an operation returns the entity after it and the list of notifications it sends, in
      order.
    - What depends on the platform is an input: whether an executor accepts a task, whether a pool has a free block, when a
      timer expires (a timer is a flag that tells whether it runs, or its expiry), the time of arrival of an SDU. A task handed to an
      executor is an input of its own, so every order of tasks, and the loss of any of them, is covered by the theorems on
      runs.
    - Fuel: loops over sequence numbers have the SN modulus as fuel, decoders one more than the number of octets, loops over a
      queue its length (one more where it tests for emptiness first), the loop over PDCP SNs the size of the SN space, loops over
      COUNTs the distance they cover, loops over GTP-U sequence numbers and over the TEID pool the range of 16 bits, loops over
      extension headers their maximum and one more. The theorems on runs show that it never runs out, or that the loop does not
      end ([large_teid_pool_hangs]).

    ** What the theorems show

    - Wire formats: headers, status PDUs and bit fields survive the round trip; reading arbitrary octets is safe and ends
      ([status_roundtrip], [status_unpack_safe], [am_header_roundtrip], [um_header_roundtrip], [bit_fields_roundtrip],
      [bit_unpack_total]). Merging and trimming a report keep it exact ([push_nack_exact], [trim_fits]).
    - Containers refine lists and partial functions ([ring_buffer_refines_list], [retx_queue_exact],
      [tx_window_exact], [window_refines_partial_function], [chain_refines_bytes]) and lose no pool segment ([pool_conservation]).
    - The SDU queue is linearizable and its counters are exact between operations ([sdu_queue_linearizable],
      [sdu_queue_counters_exact]).
    - Every entity is robust: from its initial state, for every sequence of inputs, malformed octets and hostile status
      reports included, no assertion fails, no loop runs forever and the invariant holds ([am_rx_robust], [um_rx_robust],
      [am_tx_robust], [um_tx_robust], [pdcp_rx_robust], [pdcp_tx_robust]). Where the code needs more of its inputs, the theorem
      says so: segments end at byte 65535 at most (AM receiver); PDCP PDUs have room for header and MAC, headers find memory, a
      finite discard timer gets no bitmap reports, suspension and re-establishment wait for the tasks in flight, and the hard
      limit of the receiver stays a window below 2^32. Most of these conditions have a lemma that shows the run they exclude.
    - Receivers deliver exactly what was sent, whatever the order, loss and duplication of segments ([reassembly_correct],
      [am_delivery_correct], [um_delivery_correct]); reports and timer expiries are exact ([status_report_exact],
      [am_expiry_exact], [um_expiry_exact]).
    - From end to end, an AM receiver delivers what was handed to the AM transmitter, unchanged and at most once, whatever the
      radio link loses, reorders and duplicates, as long as no sequence number is used twice ([am_link_correct]).
    - Transmitters send exactly what was accepted, in order, in PDUs the reader accepts ([am_pdus_readable], [um_tx_lossless],
      [um_pull_exact], [tm_transparent]); a pull of the AM transmitter is one turn of an abstract one with a queue of
      retransmissions and a stream of new data ([am_pull_refines_stream], [am_turn]); a status report acknowledges and
      requests exactly what it says ([am_status_exact]).
    - PDCP: the COUNT of a received SN is inferred right within half of the SN space ([count_inference_exact]); headers and
      protection are inverse to their removal ([pdcp_header_roundtrip], [security_roundtrip], [generic_verify_exact]); the
      transmitter sends SDUs in order, each under a COUNT of its own ([pdcp_tx_stream]); the receiver delivers in order, at
      most once, and stands at the first COUNT that is missing ([pdcp_rx_delivery]); from end to end what is delivered is what was handed over
      ([pdcp_link_correct]); a status report does exactly what it says ([pdcp_status_report_exact]), and
      [pdcp_status_exchange] says which reports of an honest peer are accepted.
    - GTP-U: headers survive the round trip and any octets are read safely ([gtpu_header_roundtrip], [gtpu_dissect_safe],
      [tunnel_rx_safe]); tunnels deliver at the other end what was handed over ([f1u_link_correct], [xnu_link_correct],
      [psup_tx_exact], [echo_link_correct]); the NG-U receiver loses nothing it took and restores the order
      ([psup_rx_delivery], [psup_expiry_exact]); the demultiplexer routes by the TEID, first in, first out ([demux_routes]); the
      pool refines the set of TEIDs in use ([teid_pool_refines_set]).
    - F1-U from end to end: [f1u_downlink_correct], [f1u_uplink_correct]. SDAP refines a list of flows ([sdap_refines_flows]).
    - Where the code departs from its comments or from TS 38.322, a theorem exhibits it ([am_overtaken_stalls], [default_limit_stalls],
      [am_poll_byte_ignores_full_sdus], [am_segment_offset_wraps], [status_prohibit_never_expires],
      [um_discarded_sdu_is_sent], [large_teid_pool_hangs], [demux_foreign_teid_undefined], and lemmas next to the components).

    ** Not modelled

    Logging, tracing, PCAP and the latency metrics of RLC and PDCP (they do not feed back); the tokens that count crypto tasks in
    flight (that suspension and re-establishment wait for the tasks is a hypothesis on runs); the cryptographic algorithms and
    header compression (parameters with laws); memory of byte buffers below the level of
    octets and slices; weak memory orders (atomics are sequentially consistent; the SPSC ring of the queue is third-party
    code and is a bounded FIFO); the rounding of a ring's capacity to a power of two, done in floating point. Of F1-U,
    SDAP and GTP-U: metrics, addresses of peers (a tunnel is known by its TEID), the UDP gateways and the batched queues in front
    of the bearers (a queue's refusal is an input), assistance information of NR-U and uplink PDU session frames beyond what the
    code packs. Outside of these layers: the physical layer, MAC and scheduler, the control plane and its generated ASN.1,
    fronthaul and radio drivers, and the platform's executors, timers and sockets: they are other programs of the repository,
    each as large as what is modelled here. *)
From stdpp Require Export base option list numbers gmap.
From Stdlib Require Export ZArith Lia.
#[export] Set Default Goal Selector "!".
Global Open Scope Z_scope.

(** ** Machine integers *)

(** Unsigned C++ integers of width [w]: every operation that may leave the range is followed by a
    reduction modulo [2^w]. *)
Definition uint (w x : Z) : Z := x mod 2 ^ w.
Definition u8 (x : Z) : Z := uint 8 x.
Definition u16 (x : Z) : Z := uint 16 x.
Definition u32 (x : Z) : Z := uint 32 x.
Definition u64 (x : Z) : Z := uint 64 x.

(** [is_byte b]: [b] is the value of a [uint8_t]. *)
Definition is_byte (b : Z) : Prop := 0 <= b < 256.
Abbreviation bytes_ok := (Forall is_byte).

Ltac Zify.zify_post_hook ::= Z.to_euclidean_division_equations.

Lemma uint_range w x : 0 <= w -> 0 <= uint w x < 2 ^ w.
Proof. intros. apply Z.mod_pos_bound. apply Z.pow_pos_nonneg; lia. Qed.

Lemma uint_small w x : 0 <= x < 2 ^ w -> uint w x = x.
Proof. apply Z.mod_small. Qed.

Lemma u8_eq x : u8 x = x mod 256. Proof. reflexivity. Qed.
Lemma u16_eq x : u16 x = x mod 65536. Proof. reflexivity. Qed.
Lemma u32_eq x : u32 x = x mod 4294967296. Proof. reflexivity. Qed.
Lemma u64_eq x : u64 x = x mod 18446744073709551616. Proof. reflexivity. Qed.

(** ** From bit operations to arithmetic *)

Lemma land_field a b m x :
  0 <= a -> 0 <= b -> m = 2 ^ a * (2 ^ b - 1) -> Z.land x m = 2 ^ a * ((x / 2 ^ a) mod 2 ^ b).
Proof.
  intros Ha Hb ->.
  rewrite <- Z.land_ones, <- Z.shiftr_div_pow2, Z.ones_equiv by lia.
  rewrite Z.mul_comm, <- !Z.shiftl_mul_pow2, (Z.mul_comm (2^a)), <- Z.shiftl_mul_pow2 by lia.
  apply Z.bits_inj'. intros n Hn.
  rewrite Z.land_spec, !Z.shiftl_spec by lia.
  rewrite Z.land_spec.
  destruct (decide (n < a)).
  - rewrite !(Z.testbit_neg_r _ (n - a)) by lia. by rewrite andb_false_r.
  - rewrite Z.shiftr_spec by lia. by replace (n - a + a) with n by lia.
Qed.

Lemma land_low b m x : 0 <= b -> m = 2 ^ b - 1 -> Z.land x m = x mod 2 ^ b.
Proof. intros Hb ->. rewrite <- Z.land_ones, Z.ones_equiv by lia. f_equal; lia. Qed.

Lemma lor_disj k a b :
  0 <= k -> a mod 2 ^ k = 0 -> 0 <= b < 2 ^ k -> Z.lor a b = a + b.
Proof.
  intros Hk Ha Hb. rewrite <- Z.lxor_lor, <- Z.add_nocarry_lxor; [done| |];
    apply Z.bits_inj'; intros n Hn; rewrite Z.land_spec, Z.bits_0;
    (destruct (decide (n < k));
     [ replace a with (a / 2 ^ k * 2 ^ k) by (pose proof (Z.div_mod a (2^k)); lia);
       rewrite Z.mul_pow2_bits_low by lia; done
     | rewrite <- (Z.mod_small b (2 ^ k)) by lia; rewrite Z.mod_pow2_bits_high by lia;
       by rewrite andb_false_r ]).
Qed.

Fixpoint ctz_pos (p : positive) : Z :=
  match p with xO q => 1 + ctz_pos q | _ => 0 end.
Definition ctz (x : Z) : Z := match x with Zpos p => ctz_pos p | _ => 0 end.

(** [bit_arith] turns masks and shifts by literals into divisions and remainders, and disjoint
    unions into additions. *)
Ltac land_to_arith :=
  repeat match goal with
  | |- context [Z.land ?x ?m] =>
      let m' := eval vm_compute in m in
      lazymatch m' with Zpos _ => idtac end;
      let a := eval vm_compute in (ctz m') in
      let b := eval vm_compute in (Z.log2 (m' / 2 ^ a + 1)) in
      lazymatch a with
      | 0 => rewrite (land_low b m x) by (vm_compute; (reflexivity || discriminate))
      | _ => rewrite (land_field a b m x) by (vm_compute; (reflexivity || discriminate))
      end
  end.

Ltac shift_to_arith :=
  rewrite ?Z.shiftr_div_pow2, ?Z.shiftl_mul_pow2 by lia.

Ltac norm_pow :=
  repeat match goal with
  | |- context [2 ^ ?k] =>
      let k' := eval vm_compute in k in
      lazymatch k' with Z0 => idtac | Zpos _ => idtac end;
      let v := eval vm_compute in (2 ^ k') in
      change (2 ^ k) with v
  end.

Ltac lor_to_arith :=
  repeat match goal with
  | |- context [Z.lor ?a ?b] =>
      lazymatch a with context [Z.lor _ _] => fail | _ => idtac end;
      lazymatch b with context [Z.lor _ _] => fail | _ => idtac end;
      first [ rewrite (lor_disj 1 a b) by lia | rewrite (lor_disj 2 a b) by lia
            | rewrite (lor_disj 3 a b) by lia | rewrite (lor_disj 4 a b) by lia
            | rewrite (lor_disj 5 a b) by lia | rewrite (lor_disj 6 a b) by lia
            | rewrite (lor_disj 7 a b) by lia | rewrite (lor_disj 8 a b) by lia
            | rewrite (lor_disj 10 a b) by lia | rewrite (lor_disj 14 a b) by lia
            | rewrite (lor_disj 16 a b) by lia | rewrite (lor_disj 24 a b) by lia ]
  end.

Ltac bit_arith :=
  land_to_arith; shift_to_arith; norm_pow; rewrite ?u8_eq, ?u16_eq, ?u32_eq; lor_to_arith.

(** Equality of concrete structures of bytes, field by field. *)
Ltac solve_bytes :=
  repeat match goal with
  | |- @eq Z _ _ => lia
  | |- Some _ = Some _ => apply (f_equal Some)
  | |- (_, _) = (_, _) => apply f_equal2
  | |- _ :: _ = _ :: _ => apply f_equal2
  | |- _ = _ => reflexivity
  end.
