(* ===== verification/ByteCursor.v ===== *)
(** * Byte cursors

    The two ways in which the header code walks over memory: [byte_buffer_reader] (an iterator over a received
    buffer) and [span<uint8_t>::iterator] (an iterator over the buffer a PDU is written into).

    Undefined behaviour of the C++ code (dereferencing or incrementing an iterator that is at the end) and a failed
    [ocudu_assert] are both [None]; an operation that returns normally is [Some]. *)
From S2P Require Import Prelude.

(** ** Reading: a reader is the list of the bytes that are not consumed yet *)

(** [*reader] *)
Definition rd_get (r : list Z) : option Z := head r.

(** [++reader] *)
Definition rd_inc (r : list Z) : option (list Z) := match r with [] => None | _ :: t => Some t end.

(** [reader.length()] and [reader.empty()] *)
Definition rd_length (r : list Z) : Z := Z.of_nat (length r).
Definition rd_empty (r : list Z) : bool := match r with [] => true | _ => false end.

(** ** Writing: the bytes before the iterator, and the bytes from the iterator to the end of the span *)
Record cursor := Cursor { cur_done : list Z; cur_rest : list Z }.

Definition cur_begin (buf : list Z) : cursor := Cursor [] buf.

(** [*it = v] : the value is truncated to a [uint8_t] *)
Definition cur_put (v : Z) (c : cursor) : option cursor :=
  match cur_rest c with
  | [] => None
  | _ :: t => Some (Cursor (cur_done c) (u8 v :: t))
  end.

(** [*it |= v] *)
Definition cur_or (v : Z) (c : cursor) : option cursor :=
  match cur_rest c with
  | [] => None
  | b :: t => Some (Cursor (cur_done c) (u8 (Z.lor b v) :: t))
  end.

(** [++it] *)
Definition cur_inc (c : cursor) : option cursor :=
  match cur_rest c with
  | [] => None
  | b :: t => Some (Cursor (cur_done c ++ [b]) t)
  end.

(** [*it = v; ++it] *)
Definition cur_push (v : Z) (it : cursor) : option cursor := it ← cur_put v it; cur_inc it.

(** [if (b) { *it |= v; }] *)
Definition cur_or_if (b : bool) (v : Z) (it : cursor) : option cursor := if b then cur_or v it else Some it.

(** [std::distance(buf.begin(), it)] *)
Definition cur_dist (c : cursor) : Z := Z.of_nat (length (cur_done c)).

(** The contents of the whole span. *)
Definition cur_buf (c : cursor) : list Z := cur_done c ++ cur_rest c.

Arguments rd_length : simpl never.

(** ** Lemmas *)

Lemma cur_put_cons v d b t : cur_put v (Cursor d (b :: t)) = Some (Cursor d (u8 v :: t)).
Proof. reflexivity. Qed.
Lemma cur_or_cons v d b t : cur_or v (Cursor d (b :: t)) = Some (Cursor d (u8 (Z.lor b v) :: t)).
Proof. reflexivity. Qed.
Lemma cur_inc_cons d b t : cur_inc (Cursor d (b :: t)) = Some (Cursor (d ++ [b]) t).
Proof. reflexivity. Qed.
Lemma bind_Some {A B} (x : A) (f : A -> option B) : (Some x ≫= f) = f x. Proof. reflexivity. Qed.
Lemma rd_inc_cons b t : rd_inc (b :: t) = Some t. Proof. reflexivity. Qed.
Lemma rd_get_cons b t : rd_get (b :: t) = Some b. Proof. reflexivity. Qed.
Lemma rd_length_app a b : rd_length (a ++ b) = rd_length a + rd_length b.
Proof. unfold rd_length. rewrite length_app. lia. Qed.
Lemma rd_length_cons a b : rd_length (a :: b) = 1 + rd_length b.
Proof. unfold rd_length. simpl. lia. Qed.

Lemma rd_length_nil : rd_length [] = 0. Proof. reflexivity. Qed.
Lemma rd_length_nonneg a : 0 <= rd_length a. Proof. unfold rd_length. lia. Qed.

Create Rewrite HintDb cursor.
#[export] Hint Rewrite @bind_Some cur_put_cons cur_or_cons cur_inc_cons rd_inc_cons rd_get_cons rd_length_cons rd_length_nil : cursor.

(** Running straight-line cursor code on a buffer whose first bytes are explicit. *)
Ltac run_cursor := unfold cur_begin; repeat (progress autorewrite with cursor; cbv beta iota).

(** Exposes the first byte of a buffer that is known to be long enough. *)
Ltac uncons buf :=
  destruct buf as [|? buf];
  [exfalso; rewrite ?rd_length_cons, ?rd_length_nil in *; pose proof rd_length_nonneg; lia|].

(** Splits the conditionals of straight-line reader code down to its return statements. *)
Ltac split_reader :=
  repeat (progress run_cursor || (case_match; cbn [negb] in *)).

(** ** Code that appends a block of bytes *)

(** [appends f bs]: from any position with enough room, [f] writes exactly [bs] and advances past them. *)
Definition appends (f : cursor -> option cursor) (bs : list Z) : Prop :=
  forall d rest, (length bs <= length rest)%nat ->
    f (Cursor d rest) = Some (Cursor (d ++ bs) (drop (length bs) rest)).

Lemma appends_nil : appends Some [].
Proof. intros d rest _. by rewrite app_nil_r. Qed.

Lemma appends_bind f g bs1 bs2 :
  appends f bs1 -> appends g bs2 -> appends (fun it => it ← f it; g it) (bs1 ++ bs2).
Proof.
  intros Hf Hg d rest Hlen. rewrite length_app in Hlen.
  rewrite Hf by lia. cbn [mbind option_bind]. rewrite Hg by (rewrite length_drop; lia).
  by rewrite app_assoc, length_app, drop_drop.
Qed.

Lemma appends_push v : appends (cur_push v) [u8 v].
Proof. intros d [|b rest] Hlen; simpl in Hlen; [lia|done]. Qed.

Lemma appends_if (b : bool) f bs : appends f bs -> appends (fun it => if b then f it else Some it) (if b then bs else []).
Proof. destruct b; [done|intros; apply appends_nil]. Qed.

Lemma appends_run f bs buf :
  appends f bs -> (length bs <= length buf)%nat ->
  (it ← f (cur_begin buf); Some (cur_dist it, cur_buf it)) = Some (rd_length bs, bs ++ drop (length bs) buf).
Proof. intros Hf Hlen. unfold cur_begin. by rewrite Hf. Qed.
