(* ===== verification/RlcConfig.v ===== *)
(** * RLC configuration types ([include/ocudu/rlc/rlc_config.h]) *)
From S2P Require Import Prelude.

Inductive rlc_um_sn_size := um_size6bits | um_size12bits.
Inductive rlc_am_sn_size := size12bits | size18bits.
Inductive rlc_dc_field := dc_control | dc_data.
Inductive rlc_si_field := full_sdu | first_segment | last_segment | middle_segment.

#[export] Instance rlc_um_sn_size_eq_dec : EqDecision rlc_um_sn_size. Proof. solve_decision. Defined.
#[export] Instance rlc_am_sn_size_eq_dec : EqDecision rlc_am_sn_size. Proof. solve_decision. Defined.
#[export] Instance rlc_dc_field_eq_dec : EqDecision rlc_dc_field. Proof. solve_decision. Defined.
#[export] Instance rlc_si_field_eq_dec : EqDecision rlc_si_field. Proof. solve_decision. Defined.

(** [to_number] for each of the enumerations *)
Definition um_sn_to_number (s : rlc_um_sn_size) : Z := match s with um_size6bits => 6 | um_size12bits => 12 end.
Definition am_sn_to_number (s : rlc_am_sn_size) : Z := match s with size12bits => 12 | size18bits => 18 end.
Definition dc_to_number (d : rlc_dc_field) : Z := match d with dc_control => 0 | dc_data => 1 end.
Definition si_to_number (s : rlc_si_field) : Z :=
  match s with full_sdu => 0 | first_segment => 1 | last_segment => 2 | middle_segment => 3 end.

(** [from_number]: [false] leaves the argument unchanged *)
Definition um_sn_from_number (s : rlc_um_sn_size) (num : Z) : bool * rlc_um_sn_size :=
  if num =? 6 then (true, um_size6bits) else if num =? 12 then (true, um_size12bits) else (false, s).
Definition am_sn_from_number (s : rlc_am_sn_size) (num : Z) : bool * rlc_am_sn_size :=
  if num =? 12 then (true, size12bits) else if num =? 18 then (true, size18bits) else (false, s).

(** The casts [(rlc_dc_field)x] and [(rlc_si_field)x], for the one and two bit values the code casts. *)
Definition dc_of (x : Z) : rlc_dc_field := if x =? 0 then dc_control else dc_data.
Definition si_of (x : Z) : rlc_si_field :=
  if x =? 0 then full_sdu else if x =? 1 then first_segment else if x =? 2 then last_segment else middle_segment.

(** [cardinality(sn_size)]: [ocudu_assert(sn_size < 32)], then [1 << sn_size] *)
Definition cardinality (sn_size : Z) : Z := Z.shiftl 1 sn_size.

(** [window_size(sn_size)] *)
Definition window_size (sn_size : Z) : Z := cardinality (sn_size - 1).

Lemma si_of_to_number s : si_of (si_to_number s) = s. Proof. by destruct s. Qed.
Lemma dc_of_to_number d : dc_of (dc_to_number d) = d. Proof. by destruct d. Qed.
Lemma si_to_number_range s : 0 <= si_to_number s < 4. Proof. destruct s; simpl; lia. Qed.
Lemma dc_to_number_range d : 0 <= dc_to_number d < 2. Proof. destruct d; simpl; lia. Qed.
