(* ===== verification/RlcAmPdu.v ===== *)
(** * RLC AM data PDU headers ([lib/rlc/rlc_am_pdu.h])

    The header record, its size, and the functions that read and write it. *)
From S2P Require Import Prelude ByteCursor RlcConfig.

Definition INVALID_RLC_SN : Z := 0xffffffff.
Definition RETX_COUNT_NOT_STARTED : Z := 0xffffffff.

Definition rlc_am_pdu_header_so_size : Z := 2.
Definition rlc_am_pdu_header_min_size_12bit : Z := 2.
Definition rlc_am_pdu_header_min_size_18bit : Z := 3.

Definition rlc_am_pdu_header_min_size (sn_size : rlc_am_sn_size) : Z :=
  match sn_size with
  | size12bits => rlc_am_pdu_header_min_size_12bit
  | size18bits => rlc_am_pdu_header_min_size_18bit
  end.

Definition rlc_am_pdu_header_max_size (sn_size : rlc_am_sn_size) : Z :=
  rlc_am_pdu_header_min_size sn_size + rlc_am_pdu_header_so_size.

(** [struct rlc_am_pdu_header] *)
Record rlc_am_pdu_header := AmHdr {
  h_dc : rlc_dc_field;
  h_p : Z;                       (** [uint8_t] *)
  h_si : rlc_si_field;
  h_sn_size : rlc_am_sn_size;
  h_sn : Z;                      (** [uint32_t] *)
  h_so : Z                       (** [uint16_t] *)
}.

(** [rlc_am_pdu_header header = {}] *)
Definition rlc_am_pdu_header_init : rlc_am_pdu_header := AmHdr dc_control 0 full_sdu size12bits 0 0.

Definition si_has_so (si : rlc_si_field) : bool :=
  match si with last_segment | middle_segment => true | _ => false end.

(** [rlc_am_pdu_header::get_packed_size] *)
Definition get_packed_size (h : rlc_am_pdu_header) : Z :=
  if si_has_so (h_si h) then rlc_am_pdu_header_max_size (h_sn_size h)
  else rlc_am_pdu_header_min_size (h_sn_size h).

(** [rlc_am_read_data_pdu_header]. The result is the returned [bool] and the header as the function leaves it. *)
Definition rlc_am_read_data_pdu_header (pdu : list Z) (sn_size : rlc_am_sn_size) (h : rlc_am_pdu_header)
  : option (bool * rlc_am_pdu_header) :=
  let r := pdu in
  if rd_length r <=? rlc_am_pdu_header_min_size sn_size then Some (false, h) else
  b ← rd_get r;
  (* fixed part *)
  let dc := dc_of (Z.land (Z.shiftr b 7) 0x01) in
  let p := Z.land (Z.shiftr b 6) 0x01 in
  let si := si_of (Z.land (Z.shiftr b 4) 0x03) in
  let h := AmHdr dc p si sn_size (h_sn h) (h_so h) in
  '(ok, r, h) ←
    match sn_size with
    | size12bits =>
        let sn := Z.shiftl (Z.land b 0x0f) 8 in
        let h := AmHdr dc p si sn_size sn (h_so h) in
        r ← rd_inc r;
        if rd_empty r then Some (false, r, h) else
        b1 ← rd_get r;
        let h := AmHdr dc p si sn_size (Z.lor sn (Z.land b1 0xff)) (h_so h) in
        r ← rd_inc r;
        Some (true, r, h)
    | size18bits =>
        if negb (Z.land b 0x0c =? 0) then Some (false, r, h) else
        let sn := Z.shiftl (Z.land b 0x03) 16 in
        let h := AmHdr dc p si sn_size sn (h_so h) in
        r ← rd_inc r;
        if rd_empty r then Some (false, r, h) else
        b1 ← rd_get r;
        let sn := Z.lor sn (Z.shiftl (Z.land b1 0xff) 8) in
        let h := AmHdr dc p si sn_size sn (h_so h) in
        r ← rd_inc r;
        if rd_empty r then Some (false, r, h) else
        b2 ← rd_get r;
        let h := AmHdr dc p si sn_size (Z.lor sn (Z.land b2 0xff)) (h_so h) in
        r ← rd_inc r;
        Some (true, r, h)
    end;
  if negb ok then Some (false, h) else
  (* optional part *)
  if si_has_so (h_si h) then
    if rd_empty r then Some (false, h) else
    b ← rd_get r;
    let so := Z.shiftl (Z.land b 0xff) 8 in
    let h := AmHdr dc p si sn_size (h_sn h) so in
    r ← rd_inc r;
    if rd_empty r then Some (false, h) else
    b ← rd_get r;
    let h := AmHdr dc p si sn_size (h_sn h) (Z.lor so (Z.land b 0xff)) in
    r ← rd_inc r;
    Some (true, h)
  else Some (true, h).

(** [rlc_am_write_data_pdu_header]: the returned size, and the buffer after the call *)
Definition rlc_am_write_data_pdu_header (buf : list Z) (h : rlc_am_pdu_header) : option (Z * list Z) :=
  let it := cur_begin buf in
  it ← cur_put (Z.shiftl (Z.land (dc_to_number (h_dc h)) 0x01) 7) it;
  it ← cur_or (Z.shiftl (Z.land (h_p h) 0x01) 6) it;
  it ← cur_or (Z.shiftl (Z.land (si_to_number (h_si h)) 0x03) 4) it;
  it ← match h_sn_size h with
       | size12bits =>
           it ← cur_or (Z.land (Z.shiftr (h_sn h) 8) 0x0f) it;
           it ← cur_inc it;
           cur_put (Z.land (h_sn h) 0xff) it
       | size18bits =>
           it ← cur_or (Z.land (Z.shiftr (h_sn h) 16) 0x3) it;
           it ← cur_inc it;
           it ← cur_put (Z.shiftr (h_sn h) 8) it;
           it ← cur_inc it;
           cur_put (Z.land (h_sn h) 0xff) it
       end;
  it ← cur_inc it;
  it ← (if negb (h_so h =? 0) then
          it ← cur_put (Z.shiftr (h_so h) 8) it;
          it ← cur_inc it;
          it ← cur_put (Z.land (h_so h) 0xff) it;
          cur_inc it
        else Some it);
  Some (cur_dist it, cur_buf it).

(** ** Properties *)

(** A header the transmitter builds: every field fits its width, and the segment offset is present exactly for the
    segments that do not start the SDU. *)
Definition am_header_ok (h : rlc_am_pdu_header) : Prop :=
  0 <= h_p h < 2 /\ 0 <= h_sn h < 2 ^ am_sn_to_number (h_sn_size h) /\ 0 <= h_so h < 65536
  /\ (si_has_so (h_si h) = true <-> h_so h <> 0).

(** The octets of a header as TS 38.322 section 6.2.2.4 draws them, with arithmetic instead of bit operations. *)
Definition am_header_octets (h : rlc_am_pdu_header) : list Z :=
  let b0 := 128 * dc_to_number (h_dc h) + 64 * h_p h + 16 * si_to_number (h_si h) in
  (match h_sn_size h with
   | size12bits => [b0 + h_sn h / 256; h_sn h mod 256]
   | size18bits => [b0 + h_sn h / 65536; (h_sn h / 256) mod 256; h_sn h mod 256]
   end) ++
  (if si_has_so (h_si h) then [h_so h / 256; h_so h mod 256] else []).

Ltac unfold_am_sizes :=
  unfold rlc_am_pdu_header_max_size, rlc_am_pdu_header_min_size, rlc_am_pdu_header_min_size_12bit,
    rlc_am_pdu_header_min_size_18bit, rlc_am_pdu_header_so_size in *.

Lemma am_header_octets_length h : rd_length (am_header_octets h) = get_packed_size h.
Proof. destruct h as [? ? [] [] ? ?]; reflexivity. Qed.

Lemma am_header_ok_so h : am_header_ok h -> si_has_so (h_si h) = negb (h_so h =? 0).
Proof. intros (_ & _ & _ & ?). destruct (si_has_so _), (Z.eqb_spec (h_so h) 0) as [Hz|Hz]; naive_solver. Qed.

Lemma am_write_octets h buf :
  am_header_ok h -> get_packed_size h <= rd_length buf ->
  rlc_am_write_data_pdu_header buf h
  = Some (get_packed_size h, am_header_octets h ++ drop (length (am_header_octets h)) buf).
Proof.
  intros Hok Hlen. pose proof (am_header_ok_so _ Hok) as Hsi.
  destruct h as [dc p si sz sn so], Hok as (Hp & Hsn & Hso & _).
  unfold rlc_am_write_data_pdu_header, am_header_octets, get_packed_size in *.
  cbn [h_dc h_p h_si h_sn_size h_sn h_so] in *. rewrite Hsi in *.
  pose proof (dc_to_number_range dc). pose proof (si_to_number_range si).
  destruct sz; destruct (Z.eqb_spec so 0); unfold_am_sizes; cbn in Hsn, Hlen; cbn [negb] in *.
  1: do 2 uncons buf. 2: do 4 uncons buf. 3: do 3 uncons buf. 4: do 5 uncons buf.
  all: run_cursor; unfold cur_dist, cur_buf; cbn [cur_done cur_rest app length drop];
    bit_arith; solve_bytes.
Qed.

Lemma am_read_octets h h0 payload :
  am_header_ok h -> h_so h0 = 0 -> payload <> [] ->
  rlc_am_read_data_pdu_header (am_header_octets h ++ payload) (h_sn_size h) h0 = Some (true, h).
Proof.
  intros Hok Hh0 Hpay. pose proof (am_header_ok_so _ Hok) as Hsi.
  assert (Hlen : 0 < rd_length payload).
  { destruct payload; [done|]. rewrite rd_length_cons. pose proof (rd_length_nonneg payload). lia. }
  destruct h as [dc p si sz sn so], Hok as (Hp & Hsn & Hso & _).
  unfold rlc_am_read_data_pdu_header.
  rewrite rd_length_app, am_header_octets_length.
  unfold am_header_octets, get_packed_size in *.
  cbn [h_dc h_p h_si h_sn_size h_sn h_so] in *.
  pose proof (dc_to_number_range dc). pose proof (si_to_number_range si).
  unfold_am_sizes.
  rewrite (proj2 (Z.leb_gt _ _)) by (destruct sz, (si_has_so si); lia).
  destruct sz; cbn [app am_sn_to_number] in *;
    match goal with |- context [?b0 :: _] => set (b := b0) end;
    assert (Edc : Z.land (Z.shiftr b 7) 1 = dc_to_number dc) by (subst b; bit_arith; lia);
    assert (Ep : Z.land (Z.shiftr b 6) 1 = p) by (subst b; bit_arith; lia);
    assert (Esi : Z.land (Z.shiftr b 4) 3 = si_to_number si) by (subst b; bit_arith; lia);
    run_cursor; rewrite Edc, Ep, Esi, dc_of_to_number, si_of_to_number;
    [|replace (Z.land b 12) with 0 by (subst b; bit_arith; lia); cbn [Z.eqb negb]];
    cbn [rd_empty]; run_cursor; cbn [negb h_si]; rewrite Hsi;
    (destruct (Z.eqb_spec so 0); cbn [negb app rd_empty]; run_cursor; cbn [rd_empty h_sn h_so];
     unfold b; clear b Edc Ep Esi);
    bit_arith; rewrite ?Hh0; repeat f_equal; lia.
Qed.

(** What the reader guarantees on success: widths of the fields, and that the header fits into the PDU. *)
Definition am_header_read_ok (pdu : list Z) (sn_size : rlc_am_sn_size) (h : rlc_am_pdu_header) : Prop :=
  h_sn_size h = sn_size /\ 0 <= h_p h < 2 /\ 0 <= h_sn h < 2 ^ am_sn_to_number sn_size /\
  get_packed_size h <= rd_length pdu.

(** Closes a branch that returns [false], and a branch that returns [true]. *)
Ltac am_read_false := do 2 eexists; split; [reflexivity | intros; discriminate].
Ltac am_read_true Hsi :=
  let Hb := fresh "Hb" in
  do 2 eexists; split; [reflexivity|]; intros Hb _;
  rewrite !Forall_cons in Hb; unfold is_byte in Hb; rewrite ?rd_length_cons in *;
  cbn [h_sn_size h_p h_sn h_si h_so]; rewrite Hsi; unfold_am_sizes; cbn [am_sn_to_number];
  bit_arith; match goal with |- context [rd_length ?l] => pose proof (rd_length_nonneg l) end; split_and!; try reflexivity; lia.

Lemma am_read_cases pdu sn_size h0 :
  exists ok h, rlc_am_read_data_pdu_header pdu sn_size h0 = Some (ok, h) /\
    (bytes_ok pdu -> ok = true -> am_header_read_ok pdu sn_size h /\
       (if si_has_so (h_si h) then 0 <= h_so h < 65536 else h_so h = h_so h0)).
Proof.
  unfold rlc_am_read_data_pdu_header.
  destruct (Z.leb_spec (rd_length pdu) (rlc_am_pdu_header_min_size sn_size)) as [|Hlen]; [am_read_false|].
  assert (2 < rd_length pdu) by (destruct sn_size; unfold_am_sizes; lia).
  do 3 uncons pdu.
  destruct sn_size; [|assert (0 < rd_length pdu) by (unfold_am_sizes; rewrite !rd_length_cons in *; lia); uncons pdu];
    unfold am_header_read_ok, get_packed_size;
    run_cursor; cbn [rd_empty]; run_cursor.
  2: destruct (Z.land z 12 =? 0); cbn [negb]; run_cursor; [|am_read_false].
  all: destruct (si_has_so _) eqn:Hsi; cbn [negb h_si] in *; rewrite ?Hsi.
  all: try (destruct pdu as [|? ?]; cbn [rd_empty]; run_cursor; [am_read_false|]).
  all: cbn [rd_empty]; run_cursor; am_read_true Hsi.
Qed.

(** ** The theorems *)

(** The header of an AMD PDU survives the round trip: writing it into a large enough buffer fills exactly
    [get_packed_size] octets, and reading them back in front of a payload gives the same header. *)
Theorem am_header_roundtrip h buf payload :
  am_header_ok h -> get_packed_size h <= rd_length buf -> payload <> [] ->
  exists buf', rlc_am_write_data_pdu_header buf h = Some (get_packed_size h, buf') /\
    length buf' = length buf /\
    rlc_am_read_data_pdu_header (take (Z.to_nat (get_packed_size h)) buf' ++ payload) (h_sn_size h)
      rlc_am_pdu_header_init = Some (true, h).
Proof.
  intros Hok Hlen Hpay. eexists. split; [by apply am_write_octets|].
  pose proof (am_header_octets_length h) as Hl. unfold rd_length in *. split.
  - rewrite length_app, length_drop. lia.
  - rewrite <- Hl, Nat2Z.id, take_app_length. by apply am_read_octets.
Qed.

(** Reading the header of any received octets is free of out-of-bounds accesses; an accepted header has its fields in
    range and is not longer than the PDU. *)
Theorem am_header_read_safe pdu sn_size :
  exists ok h, rlc_am_read_data_pdu_header pdu sn_size rlc_am_pdu_header_init = Some (ok, h) /\
    (bytes_ok pdu -> ok = true -> am_header_read_ok pdu sn_size h /\
       (if si_has_so (h_si h) then 0 <= h_so h < 65536 else h_so h = 0)).
Proof. apply am_read_cases. Qed.

Lemma am_header_roundtrip_witness :
  exists buf', rlc_am_write_data_pdu_header [9; 9; 9; 9; 9; 9] (AmHdr dc_data 1 last_segment size18bits 200000 1000)
      = Some (5, buf') /\ length buf' = 6%nat /\
    rlc_am_read_data_pdu_header (take 5 buf' ++ [1; 2]) size18bits rlc_am_pdu_header_init
      = Some (true, AmHdr dc_data 1 last_segment size18bits 200000 1000).
Proof.
  apply (am_header_roundtrip (AmHdr dc_data 1 last_segment size18bits 200000 1000) [9; 9; 9; 9; 9; 9] [1; 2]);
    [|vm_compute; congruence|done].
  repeat split; try (vm_compute; congruence).
Defined.
