(* ===== verification/RlcUmPdu.v ===== *)
(** * RLC UM data PDU headers ([lib/rlc/rlc_um_pdu.h]) *)
From S2P Require Import Prelude ByteCursor RlcConfig.

Definition rlc_um_pdu_header_size_6bit_sn_no_so : Z := 1.
Definition rlc_um_pdu_header_size_12bit_sn_no_so : Z := 2.
Definition rlc_um_pdu_header_size_no_so (sn_size : rlc_um_sn_size) : Z :=
  match sn_size with
  | um_size6bits => rlc_um_pdu_header_size_6bit_sn_no_so
  | um_size12bits => rlc_um_pdu_header_size_12bit_sn_no_so
  end.

Definition rlc_um_pdu_header_size_6bit_sn_with_so : Z := 3.
Definition rlc_um_pdu_header_size_12bit_sn_with_so : Z := 4.
Definition rlc_um_pdu_header_size_with_so (sn_size : rlc_um_sn_size) : Z :=
  match sn_size with
  | um_size6bits => rlc_um_pdu_header_size_6bit_sn_with_so
  | um_size12bits => rlc_um_pdu_header_size_12bit_sn_with_so
  end.

(** [struct rlc_um_pdu_header] *)
Record rlc_um_pdu_header := UmHdr {
  um_si : rlc_si_field;
  um_sn_size : rlc_um_sn_size;
  um_sn : Z;                     (** [uint16_t] *)
  um_so : Z                      (** [uint16_t] *)
}.

(** [rlc_um_pdu_header header = {}] *)
Definition rlc_um_pdu_header_init : rlc_um_pdu_header := UmHdr full_sdu um_size6bits 0 0.

Definition um_si_has_so (si : rlc_si_field) : bool :=
  match si with last_segment | middle_segment => true | _ => false end.

Definition is_full_sdu (si : rlc_si_field) : bool := match si with full_sdu => true | _ => false end.

(** [rlc_um_read_data_pdu_header]: the returned [bool] and the header as the function leaves it. *)
Definition rlc_um_read_data_pdu_header (pdu : list Z) (sn_size : rlc_um_sn_size) (h : rlc_um_pdu_header)
  : option (bool * rlc_um_pdu_header) :=
  let r := pdu in
  if rd_empty r then Some (false, h) else
  let h := UmHdr (um_si h) sn_size (um_sn h) (um_so h) in
  b ← rd_get r;
  '(ok, r, h) ←
    match sn_size with
    | um_size6bits =>
        let si := si_of (Z.land (Z.shiftr b 6) 0x03) in
        let sn := Z.land b 0x3f in
        let h := UmHdr si sn_size sn (um_so h) in
        if is_full_sdu si && negb (sn =? 0) then Some (false, r, h) else
        r ← rd_inc r;
        Some (true, r, h)
    | um_size12bits =>
        let si := si_of (Z.land (Z.shiftr b 6) 0x03) in
        let sn := Z.shiftl (Z.land b 0x0f) 8 in
        let h := UmHdr si sn_size sn (um_so h) in
        if is_full_sdu si && negb (sn =? 0) then Some (false, r, h) else
        if bool_decide (si = first_segment) && negb (Z.land (Z.shiftr b 4) 0x03 =? 0) then Some (false, r, h) else
        if negb (is_full_sdu si) then
          r ← rd_inc r;
          if rd_empty r then Some (false, r, h) else
          b1 ← rd_get r;
          let h := UmHdr si sn_size (Z.lor sn (Z.land b1 0xff)) (um_so h) in
          r ← rd_inc r;
          Some (true, r, h)
        else
          r ← rd_inc r;
          Some (true, r, h)
    end;
  if negb ok then Some (false, h) else
  if um_si_has_so (um_si h) then
    if rd_empty r then Some (false, h) else
    b ← rd_get r;
    let so := Z.shiftl (Z.land b 0xff) 8 in
    let h := UmHdr (um_si h) (um_sn_size h) (um_sn h) so in
    r ← rd_inc r;
    if rd_empty r then Some (false, h) else
    b ← rd_get r;
    let h := UmHdr (um_si h) (um_sn_size h) (um_sn h) (Z.lor so (Z.land b 0xff)) in
    r ← rd_inc r;
    Some (true, h)
  else Some (true, h).

(** [rlc_um_nr_packed_length] *)
Definition rlc_um_nr_packed_length (h : rlc_um_pdu_header) : Z :=
  match um_si h with
  | full_sdu => 1
  | _ =>
      let len := match um_sn_size h with um_size6bits => 1 | um_size12bits => 2 end in
      if negb (um_so h =? 0) then len + 2 else len
  end.

(** [rlc_um_write_data_pdu_header]: the returned size, and the buffer after the call *)
Definition rlc_um_write_data_pdu_header (buf : list Z) (h : rlc_um_pdu_header) : option (Z * list Z) :=
  let it := cur_begin buf in
  it ← cur_put (Z.shiftl (Z.land (si_to_number (um_si h)) 0x03) 6) it;
  if is_full_sdu (um_si h) then Some (1, cur_buf it) else
  it ← match um_sn_size h with
       | um_size6bits =>
           it ← cur_or (Z.land (um_sn h) 0x3f) it;
           cur_inc it
       | um_size12bits =>
           it ← cur_or (Z.land (Z.shiftr (um_sn h) 8) 0xf) it;
           it ← cur_inc it;
           it ← cur_put (Z.land (um_sn h) 0xff) it;
           cur_inc it
       end;
  it ← (if negb (um_so h =? 0) then
          it ← cur_put (Z.shiftr (um_so h) 8) it;
          it ← cur_inc it;
          it ← cur_put (Z.land (um_so h) 0xff) it;
          cur_inc it
        else Some it);
  Some (cur_dist it, cur_buf it).

(** ** Properties *)

(** A header the transmitter builds. *)
Definition um_header_ok (h : rlc_um_pdu_header) : Prop :=
  0 <= um_sn h < 2 ^ um_sn_to_number (um_sn_size h) /\ 0 <= um_so h < 65536 /\
  (um_si_has_so (um_si h) = true <-> um_so h <> 0) /\ (um_si h = full_sdu -> um_sn h = 0).

Definition um_header_octets (h : rlc_um_pdu_header) : list Z :=
  if is_full_sdu (um_si h) then [0] else
  match um_sn_size h with
  | um_size6bits => [64 * si_to_number (um_si h) + um_sn h]
  | um_size12bits => [64 * si_to_number (um_si h) + um_sn h / 256; um_sn h mod 256]
  end ++ (if um_si_has_so (um_si h) then [um_so h / 256; um_so h mod 256] else []).

Lemma um_header_ok_so h : um_header_ok h -> um_si_has_so (um_si h) = negb (um_so h =? 0).
Proof. intros (_ & _ & ? & _). destruct (um_si_has_so _), (Z.eqb_spec (um_so h) 0) as [Hz|Hz]; naive_solver. Qed.

Lemma um_header_octets_length h : um_header_ok h -> rd_length (um_header_octets h) = rlc_um_nr_packed_length h.
Proof.
  intros Hok. pose proof (um_header_ok_so h Hok) as Hso. unfold rlc_um_nr_packed_length, um_header_octets.
  rewrite <- Hso. by destruct h as [[] [] ? ?].
Qed.

Lemma um_write_octets h buf :
  um_header_ok h -> rlc_um_nr_packed_length h <= rd_length buf ->
  rlc_um_write_data_pdu_header buf h
  = Some (rlc_um_nr_packed_length h, um_header_octets h ++ drop (length (um_header_octets h)) buf).
Proof.
  intros Hok Hlen. pose proof (um_header_ok_so _ Hok) as Hsi.
  destruct h as [si sz sn so], Hok as (Hsn & Hso & _ & Hfull).
  unfold rlc_um_write_data_pdu_header, um_header_octets, rlc_um_nr_packed_length in *.
  cbn [um_si um_sn_size um_sn um_so] in *. rewrite Hsi.
  destruct (is_full_sdu si) eqn:Hf.
  { destruct si; try done. uncons buf. by run_cursor. }
  assert (1 <= si_to_number si < 4) by (destruct si; simpl; try done; lia).
  assert (E : forall A (x y : A), match si with full_sdu => x | _ => y end = y) by (by destruct si).
  rewrite E in *. destruct sz; destruct (Z.eqb_spec so 0); cbn [negb um_sn_to_number] in *.
  1: uncons buf. 2: do 3 uncons buf. 3: do 2 uncons buf. 4: do 4 uncons buf.
  all: run_cursor; unfold cur_dist, cur_buf; cbn [cur_done cur_rest app length drop];
    bit_arith; solve_bytes.
Qed.

Lemma um_read_octets h h0 payload :
  um_header_ok h -> um_so h0 = 0 -> payload <> [] ->
  rlc_um_read_data_pdu_header (um_header_octets h ++ payload) (um_sn_size h) h0 = Some (true, h).
Proof.
  intros Hok Hh0 Hpay. pose proof (um_header_ok_so _ Hok) as Hsi.
  destruct h as [si sz sn so], Hok as (Hsn & Hso & _ & Hfull).
  unfold rlc_um_read_data_pdu_header, um_header_octets.
  cbn [um_si um_sn_size um_sn um_so] in *.
  destruct (is_full_sdu si) eqn:Hf.
  { destruct si; try done. cbn in Hsi. rewrite Hfull by done.
    destruct (Z.eqb_spec so 0) as [->|]; [|done]. destruct h0; cbn in Hh0; subst. by destruct sz. }
  assert (1 <= si_to_number si < 4) by (destruct si; simpl; try done; lia).
  destruct sz; cbn [app um_sn_to_number] in *;
    match goal with |- context [?b0 :: _] => set (b := b0) end;
    assert (Esi : Z.land (Z.shiftr b 6) 3 = si_to_number si) by (subst b; bit_arith; lia);
    cbn [rd_empty]; run_cursor; rewrite Esi, si_of_to_number, Hf; cbn [andb negb].
  - run_cursor. cbn [negb um_si]. rewrite Hsi. replace (Z.land b 63) with sn by (subst b; bit_arith; lia).
    destruct (Z.eqb_spec so 0); cbn [negb app rd_empty]; run_cursor; cbn [rd_empty um_sn_size um_sn um_so];
      [by rewrite Hh0; subst|]. run_cursor. bit_arith. repeat f_equal; lia.
  - replace (Z.land (Z.shiftr b 4) 3) with 0 by (subst b; bit_arith; lia).
    rewrite andb_false_r. run_cursor. cbn [rd_empty]. run_cursor. cbn [negb um_si]. rewrite Hsi.
    replace (Z.lor (Z.shiftl (Z.land b 15) 8) (Z.land (sn mod 256) 255)) with sn by (subst b; bit_arith; lia).
    destruct (Z.eqb_spec so 0); cbn [negb app rd_empty]; run_cursor; cbn [rd_empty um_sn_size um_sn um_so];
      [by rewrite Hh0; subst|]. run_cursor. bit_arith. repeat f_equal; lia.
Qed.

(** What the reader guarantees: it never runs off the buffer, and an accepted header has fields of their width, an SN
    of zero for a full SDU, and is no longer than the PDU. *)
Definition um_header_read_ok (pdu : list Z) (sn_size : rlc_um_sn_size) (h : rlc_um_pdu_header) : Prop :=
  um_sn_size h = sn_size /\ 0 <= um_sn h < 2 ^ um_sn_to_number sn_size /\
  (um_si h = full_sdu -> um_sn h = 0) /\ (um_si_has_so (um_si h) = true -> 0 <= um_so h < 65536) /\
  (if is_full_sdu (um_si h) then 1
   else if um_si_has_so (um_si h) then rlc_um_pdu_header_size_with_so sn_size
   else rlc_um_pdu_header_size_no_so sn_size) <= rd_length pdu.

Ltac um_read_false := do 2 eexists; split; [reflexivity | intros; discriminate].

(** Closes a branch that returns [true], from the value of the SI field. *)
Ltac um_read_true Hsi :=
  do 2 eexists; split; [reflexivity|]; intros _;
  unfold um_header_read_ok, is_full_sdu, um_si_has_so, rlc_um_pdu_header_size_with_so, rlc_um_pdu_header_size_no_so,
    rlc_um_pdu_header_size_6bit_sn_with_so, rlc_um_pdu_header_size_12bit_sn_with_so,
    rlc_um_pdu_header_size_6bit_sn_no_so, rlc_um_pdu_header_size_12bit_sn_no_so;
  cbn [um_sn_size um_sn um_si um_so um_sn_to_number]; rewrite ?Hsi;
  rewrite ?rd_length_cons; match goal with |- context [rd_length ?l] => pose proof (rd_length_nonneg l) end;
  split_and!; try done; intros; try assumption; bit_arith; lia.

Lemma um_read_cases pdu sn_size h0 :
  bytes_ok pdu ->
  exists ok h, rlc_um_read_data_pdu_header pdu sn_size h0 = Some (ok, h) /\
    (ok = true -> um_header_read_ok pdu sn_size h).
Proof.
  intros Hb. unfold rlc_um_read_data_pdu_header.
  destruct pdu as [|b pdu]; [um_read_false|]. cbn [rd_empty]. run_cursor.
  apply Forall_cons in Hb as [Hb0 Hb]; unfold is_byte in Hb0.
  destruct sn_size; destruct (si_of _) eqn:Hsi; cbn [is_full_sdu andb].
  all: try (rewrite bool_decide_false by done); try (rewrite bool_decide_true by done); cbn [andb].
  all: try (destruct (Z.eqb_spec (Z.land b 63) 0) as [E0|]; cbn [negb]; run_cursor; [|um_read_false]).
  all: try (destruct (Z.eqb_spec (Z.shiftl (Z.land b 15) 8) 0) as [E0|]; cbn [negb]; run_cursor; [|um_read_false]).
  all: try (destruct (Z.eqb_spec (Z.land (Z.shiftr b 4) 3) 0) as [E1|]; cbn [negb]; run_cursor; [|um_read_false]).
  all: destruct pdu as [|b1 [|b2 [|b3 pdu]]]; cbn [rd_empty negb]; run_cursor; cbn [rd_empty negb um_si um_si_has_so];
    run_cursor; cbn [rd_empty]; run_cursor; try um_read_false.
  all: rewrite ?Forall_cons in Hb; unfold is_byte in Hb; um_read_true Hsi.
Qed.

(** ** The theorems *)

(** The header of a UMD PDU survives the round trip: writing it into a large enough buffer fills exactly the number of
    octets [rlc_um_nr_packed_length] announces, and reading them back in front of a payload gives the same header. *)
Theorem um_header_roundtrip h buf payload :
  um_header_ok h -> rlc_um_nr_packed_length h <= rd_length buf -> payload <> [] ->
  exists buf', rlc_um_write_data_pdu_header buf h = Some (rlc_um_nr_packed_length h, buf') /\
    length buf' = length buf /\
    rlc_um_read_data_pdu_header (take (Z.to_nat (rlc_um_nr_packed_length h)) buf' ++ payload) (um_sn_size h)
      rlc_um_pdu_header_init = Some (true, h).
Proof.
  intros Hok Hlen Hpay. eexists. split; [by apply um_write_octets|].
  pose proof (um_header_octets_length h Hok) as Hl. unfold rd_length in *. split.
  - rewrite length_app, length_drop. lia.
  - rewrite <- Hl, Nat2Z.id, take_app_length. by apply um_read_octets.
Qed.

(** Reading the header of any received octets is free of out-of-bounds accesses, and an accepted header has an SN of the
    configured width and is not longer than the PDU. *)
Theorem um_header_read_safe pdu sn_size :
  bytes_ok pdu ->
  exists ok h, rlc_um_read_data_pdu_header pdu sn_size rlc_um_pdu_header_init = Some (ok, h) /\
    (ok = true -> um_header_read_ok pdu sn_size h).
Proof. apply um_read_cases. Qed.

(** The reader consumes a segment offset according to the SI field, but the packed length counts it only when it is not
    zero: for a middle segment with offset zero the two octets of the offset are left in front of the payload. *)
Theorem um_zero_offset_length sn b :
  0 <= sn < 64 -> is_byte b ->
  exists h, rlc_um_read_data_pdu_header [192 + sn; 0; 0; b] um_size6bits rlc_um_pdu_header_init = Some (true, h) /\
    um_si h = middle_segment /\ um_sn h = sn /\ rlc_um_nr_packed_length h = 1.
Proof.
  intros Hsn Hb. unfold is_byte in Hb. unfold rlc_um_read_data_pdu_header. cbn [rd_empty]. run_cursor.
  replace (Z.land (Z.shiftr (192 + sn) 6) 3) with 3 by (bit_arith; lia).
  replace (Z.land (192 + sn) 63) with sn by (bit_arith; lia). cbn [is_full_sdu si_of andb]. 
  eexists. split; [reflexivity|]. done.
Qed.

Lemma um_header_roundtrip_witness :
  exists buf', rlc_um_write_data_pdu_header [1; 2; 3; 4; 5] (UmHdr last_segment um_size12bits 4000 300) = Some (4, buf') /\
    length buf' = 5%nat /\
    rlc_um_read_data_pdu_header (take 4 buf' ++ [7]) um_size12bits rlc_um_pdu_header_init
      = Some (true, UmHdr last_segment um_size12bits 4000 300).
Proof.
  apply (um_header_roundtrip (UmHdr last_segment um_size12bits 4000 300) [1; 2; 3; 4; 5] [7]);
    [|vm_compute; congruence|done].
  repeat split; try (vm_compute; congruence); discriminate.
Defined.

Lemma um_header_read_safe_witness :
  exists ok h, rlc_um_read_data_pdu_header [0xa1; 0x02; 0x03; 0x04; 0x05] um_size12bits rlc_um_pdu_header_init = Some (ok, h) /\
    (ok = true -> um_header_read_ok [0xa1; 0x02; 0x03; 0x04; 0x05] um_size12bits h).
Proof. apply um_header_read_safe. repeat constructor; vm_compute; congruence. Defined.

Lemma um_zero_offset_length_witness :
  exists h, rlc_um_read_data_pdu_header [197; 0; 0; 9] um_size6bits rlc_um_pdu_header_init = Some (true, h) /\
    um_si h = middle_segment /\ um_sn h = 5 /\ rlc_um_nr_packed_length h = 1.
Proof. apply (um_zero_offset_length 5 9); vm_compute; split; congruence. Defined.
