(* ===== verification/RlcAmStatusPdu.v ===== *)
(** * RLC AM status PDUs ([class rlc_am_status_pdu], [lib/rlc/rlc_am_pdu.h] and [lib/rlc/rlc_am_pdu.cpp])

    The NACK list with its cached packed size, the merging of neighbouring NACKs, trimming to a grant, and the 12 bit
    and 18 bit wire formats. *)
From S2P Require Import Prelude ByteCursor RlcConfig RlcAmPdu.

Definition rlc_am_nr_status_pdu_sizeof_header_ack_sn : Z := 3.
Definition rlc_am_nr_status_pdu_sizeof_nack_sn_ext_12bit_sn : Z := 2.
Definition rlc_am_nr_status_pdu_sizeof_nack_sn_ext_18bit_sn : Z := 3.
Definition rlc_am_nr_status_pdu_sizeof_nack_so : Z := 4.
Definition rlc_am_nr_status_pdu_sizeof_nack_range : Z := 1.

Definition so_end_of_sdu : Z := 0xffff.

(** [struct rlc_am_status_nack] *)
Record rlc_am_status_nack := Nack {
  nack_sn : Z;
  has_so : bool;
  so_start : Z;
  so_end : Z;
  has_nack_range : bool;
  nack_range : Z
}.

#[export] Instance rlc_am_status_nack_eq_dec : EqDecision rlc_am_status_nack.
Proof. solve_decision. Defined.

(** The default constructor. *)
Definition nack_init : rlc_am_status_nack := Nack 0 false 0 so_end_of_sdu false 0.

(** [rlc_am_status_nack::equals] *)
Definition nack_equals (a b : rlc_am_status_nack) : bool :=
  (nack_sn a =? nack_sn b) && eqb (has_so a) (has_so b) && (so_start a =? so_start b) && (so_end a =? so_end b) &&
  eqb (has_nack_range a) (has_nack_range b) && (nack_range a =? nack_range b).

(** [class rlc_am_status_pdu] *)
Record rlc_am_status_pdu := StatusPdu {
  sn_size : rlc_am_sn_size;
  mod_nr : Z;
  nacks : list rlc_am_status_nack;
  packed_size : Z;
  cpt : Z;
  ack_sn : Z
}.

(** The constructor. *)
Definition status_pdu_new (sz : rlc_am_sn_size) : rlc_am_status_pdu :=
  StatusPdu sz (cardinality (am_sn_to_number sz)) [] rlc_am_nr_status_pdu_sizeof_header_ack_sn 0 INVALID_RLC_SN.

Definition reset (s : rlc_am_status_pdu) : rlc_am_status_pdu :=
  StatusPdu (sn_size s) (mod_nr s) [] rlc_am_nr_status_pdu_sizeof_header_ack_sn 0 INVALID_RLC_SN.

Definition set_nacks (l : list rlc_am_status_nack) (sz : Z) (s : rlc_am_status_pdu) : rlc_am_status_pdu :=
  StatusPdu (sn_size s) (mod_nr s) l sz (cpt s) (ack_sn s).
Definition set_ack_sn (a : Z) (s : rlc_am_status_pdu) : rlc_am_status_pdu :=
  StatusPdu (sn_size s) (mod_nr s) (nacks s) (packed_size s) (cpt s) a.
Definition set_cpt (c : Z) (s : rlc_am_status_pdu) : rlc_am_status_pdu :=
  StatusPdu (sn_size s) (mod_nr s) (nacks s) (packed_size s) c (ack_sn s).

Definition nack_size (sz : rlc_am_sn_size) (n : rlc_am_status_nack) : Z :=
  let result := match sz with
                | size12bits => rlc_am_nr_status_pdu_sizeof_nack_sn_ext_12bit_sn
                | size18bits => rlc_am_nr_status_pdu_sizeof_nack_sn_ext_18bit_sn
                end in
  let result := if has_so n then result + rlc_am_nr_status_pdu_sizeof_nack_so else result in
  if has_nack_range n then result + rlc_am_nr_status_pdu_sizeof_nack_range else result.

Definition refresh_packed_size (s : rlc_am_status_pdu) : rlc_am_status_pdu :=
  set_nacks (nacks s)
    (fold_left (fun acc n => u32 (acc + nack_size (sn_size s) n)) (nacks s)
       rlc_am_nr_status_pdu_sizeof_header_ack_sn) s.

Definition can_be_merged (mod_nr : Z) (left right : rlc_am_status_nack) : bool :=
  if negb (nack_sn right =?
           (if has_nack_range left then u32 (nack_sn left + nack_range left) else u32 (nack_sn left + 1)) mod mod_nr)
  then false
  else if has_so left && negb (so_end left =? so_end_of_sdu) then false
  else if has_so right && negb (so_start right =? 0) then false
  else
    let left_range := if has_nack_range left then nack_range left else 1 in
    let right_range := if has_nack_range right then nack_range right else 1 in
    left_range + right_range <=? 255.

(** The two updates of the previous NACK in [push_nack]: first its range, then its segment offsets. *)
Definition merge_range (prev nack : rlc_am_status_nack) : rlc_am_status_nack :=
  let r :=
    if has_nack_range nack then
      if has_nack_range prev then u8 (nack_range prev + nack_range nack) else u8 (nack_range nack + 1)
    else
      if has_nack_range prev then u8 (nack_range prev + 1) else 2 in
  Nack (nack_sn prev) (has_so prev) (so_start prev) (so_end prev) true r.

Definition merge_offsets (prev nack : rlc_am_status_nack) : rlc_am_status_nack :=
  if has_so nack then
    let start := if has_so prev then so_start prev else 0 in
    Nack (nack_sn prev) true start (so_end nack) (has_nack_range prev) (nack_range prev)
  else if has_so prev then
    Nack (nack_sn prev) (has_so prev) (so_start prev) so_end_of_sdu (has_nack_range prev) (nack_range prev)
  else prev.

Definition push_nack (nack : rlc_am_status_nack) (s : rlc_am_status_pdu) : rlc_am_status_pdu :=
  match last (nacks s) with
  | None => set_nacks (nacks s ++ [nack]) (u32 (packed_size s + nack_size (sn_size s) nack)) s
  | Some prev =>
      if negb (can_be_merged (mod_nr s) prev nack) then
        set_nacks (nacks s ++ [nack]) (u32 (packed_size s + nack_size (sn_size s) nack)) s
      else
        let size := u32 (packed_size s - nack_size (sn_size s) prev) in
        let prev := merge_offsets (merge_range prev nack) nack in
        set_nacks (removelast (nacks s) ++ [prev]) (u32 (size + nack_size (sn_size s) prev)) s
  end.

(** The loop of [trim] removes NACKs from the back; it runs on the reversed list. *)
Fixpoint trim_loop (sz : rlc_am_sn_size) (max_packed_size : Z) (rnacks : list rlc_am_status_nack) (size ack : Z)
  : list rlc_am_status_nack * Z * Z :=
  match rnacks with
  | [] => ([], size, ack)
  | n :: rest =>
      if (max_packed_size <? size) || (nack_sn n =? ack)
      then trim_loop sz max_packed_size rest (u32 (size - nack_size sz n)) (nack_sn n)
      else (rnacks, size, ack)
  end.

Definition trim (max_packed_size : Z) (s : rlc_am_status_pdu) : bool * rlc_am_status_pdu :=
  if packed_size s <=? max_packed_size then (true, s)
  else if max_packed_size <? rlc_am_nr_status_pdu_sizeof_header_ack_sn then (false, s)
  else
    let '(rn, size, ack) := trim_loop (sn_size s) max_packed_size (rev (nacks s)) (packed_size s) (ack_sn s) in
    (true, set_ack_sn ack (set_nacks (rev rn) size s)).

(** [is_control_pdu] dereferences the first byte. *)
Definition is_control_pdu (pdu : list Z) : option bool :=
  b ← rd_get pdu; Some (Z.land (Z.shiftr b 7) 0x01 =? dc_to_number dc_control).

(** ** Reading *)

(** The optional parts of a NACK: [e2] (segment offsets) and [e3] (range). The three outcomes are a [return false]
    ([Some None]), the NACK with the rest of the input, and undefined behaviour ([None]). *)
Definition unpack_nack_so (e2 : Z) (r : list Z) (n : rlc_am_status_nack)
  : option (option (list Z * rlc_am_status_nack)) :=
  if negb (e2 =? 0) then
    if rd_length r <? rlc_am_nr_status_pdu_sizeof_nack_so then Some None else
    b0 ← rd_get r; r ← rd_inc r;
    b1 ← rd_get r; r ← rd_inc r;
    b2 ← rd_get r; r ← rd_inc r;
    b3 ← rd_get r; r ← rd_inc r;
    Some (Some (r, Nack (nack_sn n) true (Z.lor (u16 (Z.shiftl b0 8)) b1) (Z.lor (u16 (Z.shiftl b2 8)) b3)
                     (has_nack_range n) (nack_range n)))
  else Some (Some (r, n)).

Definition unpack_nack_range (e3 : Z) (r : list Z) (n : rlc_am_status_nack)
  : option (option (list Z * rlc_am_status_nack)) :=
  if negb (e3 =? 0) then
    if rd_length r <? rlc_am_nr_status_pdu_sizeof_nack_range then Some None else
    b ← rd_get r; r ← rd_inc r;
    Some (Some (r, Nack (nack_sn n) (has_so n) (so_start n) (so_end n) true b))
  else Some (Some (r, n)).

(** The [while (e1 != 0)] loops. [fuel] bounds the number of iterations; running out of it is [None]. *)
Fixpoint unpack_12bit_loop (fuel : nat) (e1 : Z) (r : list Z) (s : rlc_am_status_pdu)
  : option (bool * rlc_am_status_pdu) :=
  if e1 =? 0 then Some (true, s) else
  match fuel with
  | O => None
  | S fuel =>
      if rd_length r <? rlc_am_nr_status_pdu_sizeof_nack_sn_ext_12bit_sn then Some (false, s) else
      b0 ← rd_get r;
      let sn := Z.shiftl (Z.land b0 0xff) 4 in
      r ← rd_inc r;
      b1 ← rd_get r;
      let e1 := Z.land b1 0x08 in
      let e2 := Z.land b1 0x04 in
      let e3 := Z.land b1 0x02 in
      if negb (Z.land b1 0x01 =? 0) then Some (false, s) else
      let sn := Z.lor sn (Z.shiftr (Z.land b1 0xf0) 4) in
      r ← rd_inc r;
      let nack := Nack sn (has_so nack_init) (so_start nack_init) (so_end nack_init) (has_nack_range nack_init)
                    (nack_range nack_init) in
      o ← unpack_nack_so e2 r nack;
      match o with None => Some (false, s) | Some (r, nack) =>
      o ← unpack_nack_range e3 r nack;
      match o with None => Some (false, s) | Some (r, nack) =>
      unpack_12bit_loop fuel e1 r (push_nack nack s) end end
  end.

Definition unpack_12bit (pdu : list Z) (s : rlc_am_status_pdu) : option (bool * rlc_am_status_pdu) :=
  let r := pdu in
  if rd_length r <? rlc_am_nr_status_pdu_sizeof_header_ack_sn then Some (false, s) else
  c ← is_control_pdu pdu;
  if negb c then Some (false, s) else
  let s := reset s in
  b0 ← rd_get r;
  let s := set_cpt (Z.land (Z.shiftr b0 4) 0x07) s in
  if negb (cpt s =? 0) then Some (false, s) else
  let s := set_ack_sn (Z.shiftl (Z.land b0 0x0f) 8) s in
  r ← rd_inc r;
  b1 ← rd_get r;
  let s := set_ack_sn (Z.lor (ack_sn s) (Z.land b1 0xff)) s in
  r ← rd_inc r;
  b2 ← rd_get r;
  let e1 := Z.land b2 0x80 in
  if negb (Z.land b2 0x7f =? 0) then Some (false, s) else
  r ← rd_inc r;
  unpack_12bit_loop (S (length r)) e1 r s.

Fixpoint unpack_18bit_loop (fuel : nat) (e1 : Z) (r : list Z) (s : rlc_am_status_pdu)
  : option (bool * rlc_am_status_pdu) :=
  if e1 =? 0 then Some (true, s) else
  match fuel with
  | O => None
  | S fuel =>
      if rd_length r <? rlc_am_nr_status_pdu_sizeof_nack_sn_ext_18bit_sn then Some (false, s) else
      b0 ← rd_get r;
      let sn := Z.shiftl (Z.land b0 0xff) 10 in
      r ← rd_inc r;
      b1 ← rd_get r;
      let sn := Z.lor sn (Z.shiftl (Z.land b1 0xff) 2) in
      r ← rd_inc r;
      b2 ← rd_get r;
      let sn := Z.lor sn (Z.shiftr (Z.land b2 0xc0) 6) in
      let e1 := Z.land b2 0x20 in
      let e2 := Z.land b2 0x10 in
      let e3 := Z.land b2 0x08 in
      if negb (Z.land b2 0x07 =? 0) then Some (false, s) else
      r ← rd_inc r;
      let nack := Nack sn (has_so nack_init) (so_start nack_init) (so_end nack_init) (has_nack_range nack_init)
                    (nack_range nack_init) in
      o ← unpack_nack_so e2 r nack;
      match o with None => Some (false, s) | Some (r, nack) =>
      o ← unpack_nack_range e3 r nack;
      match o with None => Some (false, s) | Some (r, nack) =>
      unpack_18bit_loop fuel e1 r (push_nack nack s) end end
  end.

Definition unpack_18bit (pdu : list Z) (s : rlc_am_status_pdu) : option (bool * rlc_am_status_pdu) :=
  let r := pdu in
  if rd_length r <? rlc_am_nr_status_pdu_sizeof_header_ack_sn then Some (false, s) else
  c ← is_control_pdu pdu;
  if negb c then Some (false, s) else
  let s := reset s in
  b0 ← rd_get r;
  let s := set_cpt (Z.land (Z.shiftr b0 4) 0x07) s in
  if negb (cpt s =? 0) then Some (false, s) else
  let s := set_ack_sn (Z.shiftl (Z.land b0 0x0f) 14) s in
  r ← rd_inc r;
  b1 ← rd_get r;
  let s := set_ack_sn (Z.lor (ack_sn s) (Z.shiftl (Z.land b1 0xff) 6)) s in
  r ← rd_inc r;
  b2 ← rd_get r;
  let s := set_ack_sn (Z.lor (ack_sn s) (Z.shiftr (Z.land b2 0xfc) 2)) s in
  let e1 := Z.land b2 0x02 in
  if negb (Z.land b2 0x01 =? 0) then Some (false, s) else
  r ← rd_inc r;
  unpack_18bit_loop (S (length r)) e1 r s.

Definition unpack (pdu : list Z) (s : rlc_am_status_pdu) : option (bool * rlc_am_status_pdu) :=
  match sn_size s with
  | size12bits => unpack_12bit pdu s
  | size18bits => unpack_18bit pdu s
  end.

(** ** Writing *)

(** The segment offsets and the range of a NACK. *)
Definition pack_nack_tail (n : rlc_am_status_nack) (it : cursor) : option cursor :=
  it ← (if has_so n then
          it ← cur_push (Z.shiftr (so_start n) 8) it;
          it ← cur_push (so_start n) it;
          it ← cur_push (Z.shiftr (so_end n) 8) it;
          cur_push (so_end n) it
        else Some it);
  if has_nack_range n then cur_push (nack_range n) it else Some it.

(** The [for] loops over the NACKs: [i] is the index of the first element of the remaining list, [n] the size. *)
Fixpoint pack_12bit_loop (i n : Z) (l : list rlc_am_status_nack) (it : cursor) : option cursor :=
  match l with
  | [] => Some it
  | nack :: rest =>
      it ← cur_push (Z.land (Z.shiftr (nack_sn nack) 4) 0xff) it;
      it ← cur_put (Z.shiftl (Z.land (nack_sn nack) 0x0f) 4) it;
      it ← cur_or_if (i <? n - 1) 0x08 it;
      it ← cur_or_if (has_so nack) 0x04 it;
      it ← cur_or_if (has_nack_range nack) 0x02 it;
      it ← cur_inc it;
      it ← pack_nack_tail nack it;
      pack_12bit_loop (i + 1) n rest it
  end.

Definition pack_12bit (s : rlc_am_status_pdu) (buf : list Z) : option (Z * list Z) :=
  let it := cur_begin buf in
  it ← cur_put 0 it;
  it ← cur_or (Z.land (Z.shiftr (ack_sn s) 8) 0x0f) it;
  it ← cur_inc it;
  it ← cur_push (Z.land (ack_sn s) 0xff) it;
  it ← cur_push (match nacks s with [] => 0x00 | _ => 0x80 end) it;
  it ← pack_12bit_loop 0 (Z.of_nat (length (nacks s))) (nacks s) it;
  Some (cur_dist it, cur_buf it).

Fixpoint pack_18bit_loop (i n : Z) (l : list rlc_am_status_nack) (it : cursor) : option cursor :=
  match l with
  | [] => Some it
  | nack :: rest =>
      it ← cur_push (Z.land (Z.shiftr (nack_sn nack) 10) 0xff) it;
      it ← cur_push (Z.land (Z.shiftr (nack_sn nack) 2) 0xff) it;
      it ← cur_put (Z.land (Z.shiftl (nack_sn nack) 6) 0xc0) it;
      it ← cur_or_if (i <? n - 1) 0x20 it;
      it ← cur_or_if (has_so nack) 0x10 it;
      it ← cur_or_if (has_nack_range nack) 0x08 it;
      it ← cur_inc it;
      it ← pack_nack_tail nack it;
      pack_18bit_loop (i + 1) n rest it
  end.

Definition pack_18bit (s : rlc_am_status_pdu) (buf : list Z) : option (Z * list Z) :=
  let it := cur_begin buf in
  it ← cur_put 0 it;
  it ← cur_or (Z.land (Z.shiftr (ack_sn s) 14) 0x0f) it;
  it ← cur_inc it;
  it ← cur_push (Z.land (Z.shiftr (ack_sn s) 6) 0xff) it;
  it ← cur_put (Z.land (Z.shiftl (ack_sn s) 2) 0xfc) it;
  it ← cur_or_if (match nacks s with [] => false | _ => true end) 0x02 it;
  it ← cur_inc it;
  it ← pack_18bit_loop 0 (Z.of_nat (length (nacks s))) (nacks s) it;
  Some (cur_dist it, cur_buf it).

Definition pack (s : rlc_am_status_pdu) (buf : list Z) : option (Z * list Z) :=
  match sn_size s with
  | size12bits => pack_12bit s buf
  | size18bits => pack_18bit s buf
  end.

(** ** Wire format

    The octets of a status PDU as TS 38.322 section 6.2.2.5 draws them, with arithmetic instead of bit operations. *)
Definition nack_tail_octets (n : rlc_am_status_nack) : list Z :=
  (if has_so n then [so_start n / 256; so_start n mod 256; so_end n / 256; so_end n mod 256] else []) ++
  (if has_nack_range n then [nack_range n] else []).

Definition nack_octets (sz : rlc_am_sn_size) (more : bool) (n : rlc_am_status_nack) : list Z :=
  match sz with
  | size12bits => [nack_sn n / 16; 16 * (nack_sn n mod 16) + 8 * Z.b2z more + 4 * Z.b2z (has_so n)
                                    + 2 * Z.b2z (has_nack_range n)]
  | size18bits => [nack_sn n / 1024; (nack_sn n / 4) mod 256;
                   64 * (nack_sn n mod 4) + 32 * Z.b2z more + 16 * Z.b2z (has_so n) + 8 * Z.b2z (has_nack_range n)]
  end ++ nack_tail_octets n.

Definition nonempty {A} (l : list A) : bool := match l with [] => false | _ => true end.

Fixpoint nacks_octets (sz : rlc_am_sn_size) (l : list rlc_am_status_nack) : list Z :=
  match l with
  | [] => []
  | n :: rest => nack_octets sz (nonempty rest) n ++ nacks_octets sz rest
  end.

Definition status_octets (s : rlc_am_status_pdu) : list Z :=
  match sn_size s with
  | size12bits => [ack_sn s / 256; ack_sn s mod 256; 128 * Z.b2z (nonempty (nacks s))]
  | size18bits => [ack_sn s / 16384; (ack_sn s / 64) mod 256; 4 * (ack_sn s mod 64) + 2 * Z.b2z (nonempty (nacks s))]
  end ++ nacks_octets (sn_size s) (nacks s).

(** A NACK whose fields fit their width and whose absent parts have their default values. *)
Definition nack_ok (m : Z) (n : rlc_am_status_nack) : Prop :=
  0 <= nack_sn n < m /\ 0 <= so_start n < 65536 /\ 0 <= so_end n < 65536 /\ 0 <= nack_range n < 256 /\
  (has_so n = false -> so_start n = 0 /\ so_end n = so_end_of_sdu) /\
  (has_nack_range n = false -> nack_range n = 0).

(** The packed size the class caches. *)
Definition nacks_size (sz : rlc_am_sn_size) (l : list rlc_am_status_nack) : Z :=
  fold_right (fun n acc => nack_size sz n + acc) 0 l.

Definition size_inv (s : rlc_am_status_pdu) : Prop :=
  packed_size s = u32 (rlc_am_nr_status_pdu_sizeof_header_ack_sn + nacks_size (sn_size s) (nacks s)).
