(* ===== verification/RlcAmStatusFacts.v ===== *)
(** * Theorems on RLC AM status PDUs *)
From S2P Require Import Prelude ByteCursor RlcConfig RlcAmPdu RlcAmStatusPdu.

Lemma nack_octets_length sz more n : rd_length (nack_octets sz more n) = nack_size sz n.
Proof. unfold nack_size, nack_octets, nack_tail_octets. by destruct sz, (has_so n), (has_nack_range n). Qed.

Lemma nacks_octets_length sz l : rd_length (nacks_octets sz l) = nacks_size sz l.
Proof.
  induction l as [|n l IH]; [done|]. cbn [nacks_octets nacks_size fold_right].
  by rewrite rd_length_app, nack_octets_length, IH.
Qed.

Lemma status_octets_length s :
  rd_length (status_octets s) = rlc_am_nr_status_pdu_sizeof_header_ack_sn + nacks_size (sn_size s) (nacks s).
Proof. unfold status_octets. by rewrite rd_length_app, nacks_octets_length; destruct (sn_size s). Qed.

(** ** Packing writes the octets *)

Lemma appends_ext f g bs : (forall it, f it = g it) -> appends f bs -> appends g bs.
Proof. intros E H d rest ?. rewrite <- E. auto. Qed.

Lemma nack_tail_appends n :
  nack_ok 0x40000 n \/ nack_ok 0x1000 n -> appends (pack_nack_tail n) (nack_tail_octets n).
Proof.
  intros Hn. assert (0 <= so_start n < 65536 /\ 0 <= so_end n < 65536 /\ 0 <= nack_range n < 256) as (?&?&?).
  { unfold nack_ok in Hn. lia. }
  unfold pack_nack_tail, nack_tail_octets. apply appends_bind; [apply appends_if|apply appends_if].
  - intros d rest Hlen. do 4 (destruct rest as [|? rest]; [simpl in Hlen; lia|]).
    unfold cur_push. run_cursor. rewrite <- !app_assoc. cbn [app length drop].
    bit_arith. do 3 f_equal. solve_bytes.
  - intros d rest Hlen. destruct rest as [|? rest]; [simpl in Hlen; lia|].
    unfold cur_push. run_cursor. cbn [length drop]. rewrite u8_eq. do 3 f_equal. solve_bytes.
Qed.

(** The modulus of the SN field bounds the SNs of a well-formed PDU. *)
Definition sn_mod (sz : rlc_am_sn_size) : Z := cardinality (am_sn_to_number sz).

Lemma sn_mod_bound sz : sn_mod sz = match sz with size12bits => 4096 | size18bits => 262144 end.
Proof. by destruct sz. Qed.

Definition nacks_ok (sz : rlc_am_sn_size) (l : list rlc_am_status_nack) : Prop := Forall (nack_ok (sn_mod sz)) l.

Lemma pack_12bit_loop_appends n l i :
  nacks_ok size12bits l -> n = i + Z.of_nat (length l) ->
  appends (pack_12bit_loop i n l) (nacks_octets size12bits l).
Proof.
  intros Hok Hn. revert i Hn. induction Hok as [|x l Hx Hok IH]; intros i Hn; [apply appends_nil|].
  cbn [pack_12bit_loop nacks_octets]. intros d rest Hlen.
  unfold nack_octets in *. rewrite <- app_assoc in Hlen |- *. cbn [app length] in Hlen.
  rewrite length_app in Hlen.
  do 2 (destruct rest as [|? rest]; [simpl in Hlen; lia|]). simpl in Hlen.
  assert (Hmore : (i <? n - 1) = nonempty l).
  { destruct l; simpl in *; [apply Z.ltb_ge|apply Z.ltb_lt]; lia. }
  pose proof Hx as (Hsn & _). rewrite sn_mod_bound in Hsn.
  unfold cur_push. run_cursor. rewrite Hmore.
  destruct (nonempty l), (has_so x) eqn:Hso, (has_nack_range x) eqn:Hr; cbn [cur_or_if]; run_cursor;
    (rewrite (nack_tail_appends x) by (rewrite sn_mod_bound in Hx; auto; lia); run_cursor;
     rewrite (IH (i + 1)) by (rewrite ?length_drop; simpl in Hn; lia);
     rewrite drop_drop, <- !app_assoc; cbn [app length drop]; rewrite length_app;
     cbn [Z.b2z]; bit_arith; do 3 f_equal; solve_bytes; lia).
Qed.

Lemma pack_18bit_loop_appends n l i :
  nacks_ok size18bits l -> n = i + Z.of_nat (length l) ->
  appends (pack_18bit_loop i n l) (nacks_octets size18bits l).
Proof.
  intros Hok Hn. revert i Hn. induction Hok as [|x l Hx Hok IH]; intros i Hn; [apply appends_nil|].
  cbn [pack_18bit_loop nacks_octets]. intros d rest Hlen.
  unfold nack_octets in *. rewrite <- app_assoc in Hlen |- *. cbn [app length] in Hlen.
  rewrite length_app in Hlen.
  do 3 (destruct rest as [|? rest]; [simpl in Hlen; lia|]). simpl in Hlen.
  assert (Hmore : (i <? n - 1) = nonempty l).
  { destruct l; simpl in *; [apply Z.ltb_ge|apply Z.ltb_lt]; lia. }
  pose proof Hx as (Hsn & _). rewrite sn_mod_bound in Hsn.
  unfold cur_push. run_cursor. rewrite Hmore.
  destruct (nonempty l), (has_so x) eqn:Hso, (has_nack_range x) eqn:Hr; cbn [cur_or_if]; run_cursor;
    (rewrite (nack_tail_appends x) by (rewrite sn_mod_bound in Hx; auto; lia); run_cursor;
     rewrite (IH (i + 1)) by (rewrite ?length_drop; simpl in Hn; lia);
     rewrite drop_drop, <- !app_assoc; cbn [app length drop]; rewrite length_app;
     cbn [Z.b2z]; bit_arith; do 3 f_equal; solve_bytes; lia).
Qed.

Definition status_ok (s : rlc_am_status_pdu) : Prop :=
  mod_nr s = sn_mod (sn_size s) /\ cpt s = 0 /\ 0 <= ack_sn s < sn_mod (sn_size s) /\ nacks_ok (sn_size s) (nacks s).

Lemma pack_octets s buf :
  status_ok s -> rd_length (status_octets s) <= rd_length buf ->
  pack s buf = Some (rd_length (status_octets s), status_octets s ++ drop (length (status_octets s)) buf).
Proof.
  intros (_ & _ & Hack & Hok) Hlen. rewrite sn_mod_bound in Hack.
  destruct s as [sz m l ps c ack]; unfold pack, status_octets in *; cbn [sn_size nacks ack_sn] in *.
  destruct sz; rewrite rd_length_app in Hlen; cbn [app] in *; rewrite ?rd_length_cons, ?rd_length_nil in Hlen;
    pose proof (rd_length_nonneg (nacks_octets size12bits l));
    pose proof (rd_length_nonneg (nacks_octets size18bits l));
    do 3 uncons buf; rewrite !rd_length_cons in Hlen;
    unfold pack_12bit, pack_18bit, cur_push, rd_length in *; cbn [nacks ack_sn] in *; run_cursor.
  - rewrite pack_12bit_loop_appends by (auto; lia). run_cursor.
    unfold cur_dist, cur_buf; cbn [cur_done cur_rest]. rewrite <- !app_assoc. cbn [app length drop].
    assert (E : match l with [] => 0 | _ => 128 end = 128 * Z.b2z (nonempty l)) by (by destruct l).
    rewrite E. bit_arith. apply (f_equal Some), f_equal2; [rewrite ?length_app; simpl; lia|]. destruct l; cbn [nonempty Z.b2z]; solve_bytes.
  - assert (E : match l with [] => false | _ => true end = nonempty l) by (by destruct l). rewrite E.
    destruct (nonempty l) eqn:Hl; cbn [cur_or_if]; run_cursor;
      rewrite pack_18bit_loop_appends by (auto; lia); run_cursor;
      unfold cur_dist, cur_buf; cbn [cur_done cur_rest]; rewrite <- !app_assoc; cbn [app length drop Z.b2z];
      bit_arith; (apply (f_equal Some), f_equal2; [rewrite ?length_app; simpl; lia|]); solve_bytes.
Qed.

(** ** Unpacking the octets *)

Definition push_all (l : list rlc_am_status_nack) (s : rlc_am_status_pdu) : rlc_am_status_pdu :=
  foldl (fun s n => push_nack n s) s l.

Lemma unpack_tail_octets m n e2 e3 r :
  nack_ok m n -> (e2 =? 0) = negb (has_so n) -> (e3 =? 0) = negb (has_nack_range n) ->
  exists n' r',
    unpack_nack_so e2 (nack_tail_octets n ++ r) (Nack (nack_sn n) false 0 so_end_of_sdu false 0) = Some (Some (r', n')) /\
    unpack_nack_range e3 r' n' = Some (Some (r, n)).
Proof.
  destruct n as [sn hso st en hr rg]. intros (Hsn & Hst & Hen & Hrg & Hdef & Hdef2) He2 He3.
  unfold unpack_nack_so, unpack_nack_range, nack_tail_octets.
  cbn [nack_sn has_so so_start so_end has_nack_range nack_range] in *.
  rewrite He2, He3, !negb_involutive.
  destruct hso.
  - rewrite <- app_assoc. cbn [app]. rewrite !rd_length_cons.
    rewrite (proj2 (Z.ltb_ge _ _))
      by (pose proof (rd_length_nonneg ((if hr then [rg] else []) ++ r));
          unfold rlc_am_nr_status_pdu_sizeof_nack_so; lia).
    run_cursor. do 2 eexists. split; [reflexivity|].
    destruct hr; cbn [app].
    + rewrite rd_length_cons, (proj2 (Z.ltb_ge _ _))
        by (pose proof (rd_length_nonneg r); unfold rlc_am_nr_status_pdu_sizeof_nack_range; lia).
      run_cursor. cbn [nack_sn has_so so_start so_end]. bit_arith. repeat f_equal; lia.
    + rewrite (Hdef2 eq_refl). bit_arith. repeat f_equal; lia.
  - destruct (Hdef eq_refl) as [-> ->]. do 2 eexists. split; [reflexivity|].
    destruct hr; cbn [app].
    + rewrite rd_length_cons, (proj2 (Z.ltb_ge _ _))
        by (pose proof (rd_length_nonneg r); unfold rlc_am_nr_status_pdu_sizeof_nack_range; lia).
      by run_cursor.
    + by rewrite (Hdef2 eq_refl).
Qed.

Lemma b2z_range b : 0 <= Z.b2z b < 2. Proof. destruct b; simpl; lia. Qed.

Lemma mul_b2z_eqb k b : 0 < k -> (k * Z.b2z b =? 0) = negb b.
Proof. intros. destruct b; [apply Z.eqb_neq|apply Z.eqb_eq]; simpl; lia. Qed.

Lemma unpack_12bit_loop_octets l fuel e1 r s :
  nacks_ok size12bits l -> (length l <= fuel)%nat -> (e1 =? 0) = negb (nonempty l) ->
  unpack_12bit_loop fuel e1 (nacks_octets size12bits l ++ r) s = Some (true, push_all l s).
Proof.
  intros Hok. revert fuel e1 s. induction Hok as [|n l Hn Hok IH]; intros fuel e1 s Hf He1.
  - destruct fuel; cbn [unpack_12bit_loop]; by rewrite He1.
  - destruct fuel as [|fuel]; [simpl in Hf; lia|]. cbn [unpack_12bit_loop]. rewrite He1. cbn [nonempty negb].
    cbn [nacks_octets]. unfold nack_octets. rewrite <- !app_assoc. cbn [app].
    set (tl := nack_tail_octets n ++ nacks_octets size12bits l ++ r).
    rewrite !rd_length_cons, (proj2 (Z.ltb_ge _ _))
      by (pose proof (rd_length_nonneg tl); unfold rlc_am_nr_status_pdu_sizeof_nack_sn_ext_12bit_sn; lia).
    run_cursor. pose proof Hn as (Hsn & _). rewrite sn_mod_bound in Hsn.
    pose proof (b2z_range (nonempty l)). pose proof (b2z_range (has_so n)). pose proof (b2z_range (has_nack_range n)).
    set (b := 16 * _ + _ + _ + _).
    assert (E1 : Z.land b 8 = 8 * Z.b2z (nonempty l)) by (subst b; bit_arith; lia).
    assert (E2 : Z.land b 4 = 4 * Z.b2z (has_so n)) by (subst b; bit_arith; lia).
    assert (E3 : Z.land b 2 = 2 * Z.b2z (has_nack_range n)) by (subst b; bit_arith; lia).
    assert (E4 : Z.land b 1 = 0) by (subst b; bit_arith; lia).
    assert (E5 : Z.lor (Z.shiftl (Z.land (nack_sn n / 16) 255) 4) (Z.shiftr (Z.land b 240) 4) = nack_sn n)
      by (subst b; bit_arith; lia).
    rewrite E1, E2, E3, E4, E5. cbn [Z.eqb negb]. clear E1 E2 E3 E4 E5. unfold nack_init.
    cbn [has_so so_start so_end has_nack_range nack_range].
    destruct (unpack_tail_octets _ n (4 * Z.b2z (has_so n)) (2 * Z.b2z (has_nack_range n))
                (nacks_octets size12bits l ++ r) Hn) as (n' & r' & Hso & Hrange);
      [apply mul_b2z_eqb; lia..|].
    fold tl in Hso. rewrite Hso. run_cursor. rewrite Hrange. run_cursor.
    apply IH; [simpl in Hf; lia|]. apply mul_b2z_eqb; lia.
Qed.

Lemma unpack_18bit_loop_octets l fuel e1 r s :
  nacks_ok size18bits l -> (length l <= fuel)%nat -> (e1 =? 0) = negb (nonempty l) ->
  unpack_18bit_loop fuel e1 (nacks_octets size18bits l ++ r) s = Some (true, push_all l s).
Proof.
  intros Hok. revert fuel e1 s. induction Hok as [|n l Hn Hok IH]; intros fuel e1 s Hf He1.
  - destruct fuel; cbn [unpack_18bit_loop]; by rewrite He1.
  - destruct fuel as [|fuel]; [simpl in Hf; lia|]. cbn [unpack_18bit_loop]. rewrite He1. cbn [nonempty negb].
    cbn [nacks_octets]. unfold nack_octets. rewrite <- !app_assoc. cbn [app].
    set (tl := nack_tail_octets n ++ nacks_octets size18bits l ++ r).
    rewrite !rd_length_cons, (proj2 (Z.ltb_ge _ _))
      by (pose proof (rd_length_nonneg tl); unfold rlc_am_nr_status_pdu_sizeof_nack_sn_ext_18bit_sn; lia).
    run_cursor. pose proof Hn as (Hsn & _). rewrite sn_mod_bound in Hsn.
    pose proof (b2z_range (nonempty l)). pose proof (b2z_range (has_so n)). pose proof (b2z_range (has_nack_range n)).
    set (b := 64 * _ + _ + _ + _).
    assert (E1 : Z.land b 32 = 32 * Z.b2z (nonempty l)) by (subst b; bit_arith; lia).
    assert (E2 : Z.land b 16 = 16 * Z.b2z (has_so n)) by (subst b; bit_arith; lia).
    assert (E3 : Z.land b 8 = 8 * Z.b2z (has_nack_range n)) by (subst b; bit_arith; lia).
    assert (E4 : Z.land b 7 = 0) by (subst b; bit_arith; lia).
    assert (E5 : Z.lor (Z.lor (Z.shiftl (Z.land (nack_sn n / 1024) 255) 10)
                          (Z.shiftl (Z.land ((nack_sn n / 4) mod 256) 255) 2)) (Z.shiftr (Z.land b 192) 6) = nack_sn n)
      by (subst b; bit_arith; lia).
    rewrite E1, E2, E3, E4, E5. cbn [Z.eqb negb]. clear E1 E2 E3 E4 E5. unfold nack_init.
    cbn [has_so so_start so_end has_nack_range nack_range].
    destruct (unpack_tail_octets _ n (16 * Z.b2z (has_so n)) (8 * Z.b2z (has_nack_range n))
                (nacks_octets size18bits l ++ r) Hn) as (n' & r' & Hso & Hrange);
      [apply mul_b2z_eqb; lia..|].
    fold tl in Hso. rewrite Hso. run_cursor. rewrite Hrange. run_cursor.
    apply IH; [simpl in Hf; lia|]. apply mul_b2z_eqb; lia.
Qed.

Lemma unpack_12bit_loop_all l fuel e1 s :
  nacks_ok size12bits l -> (length l <= fuel)%nat -> (e1 =? 0) = negb (nonempty l) ->
  unpack_12bit_loop fuel e1 (nacks_octets size12bits l) s = Some (true, push_all l s).
Proof. intros. rewrite <- (app_nil_r (nacks_octets _ _)). by apply unpack_12bit_loop_octets. Qed.

Lemma unpack_18bit_loop_all l fuel e1 s :
  nacks_ok size18bits l -> (length l <= fuel)%nat -> (e1 =? 0) = negb (nonempty l) ->
  unpack_18bit_loop fuel e1 (nacks_octets size18bits l) s = Some (true, push_all l s).
Proof. intros. rewrite <- (app_nil_r (nacks_octets _ _)). by apply unpack_18bit_loop_octets. Qed.

Lemma nack_octets_nonempty sz more n : (1 <= length (nack_octets sz more n))%nat.
Proof. destruct sz; simpl; lia. Qed.

Lemma nacks_octets_count sz l : (length l <= length (nacks_octets sz l))%nat.
Proof.
  induction l as [|n l IH]; [done|]. cbn [nacks_octets length]. rewrite length_app.
  pose proof (nack_octets_nonempty sz (nonempty l) n). lia.
Qed.

Lemma unpack_octets s s0 :
  status_ok s -> sn_size s0 = sn_size s ->
  unpack (status_octets s) s0 = Some (true, push_all (nacks s) (set_ack_sn (ack_sn s) (reset s0))).
Proof.
  intros (_ & _ & Hack & Hok) Hsz. rewrite sn_mod_bound in Hack. unfold unpack. rewrite Hsz.
  destruct s as [sz m l ps c ack]; cbn [sn_size nacks ack_sn] in *.
  pose proof (rd_length_nonneg (nacks_octets sz l)). pose proof (b2z_range (nonempty l)).
  pose proof (nacks_octets_count sz l).
  unfold status_octets; cbn [sn_size nacks ack_sn].
  destruct sz; cbn [app]; unfold unpack_12bit, unpack_18bit, is_control_pdu;
    rewrite !rd_length_cons, (proj2 (Z.ltb_ge _ _))
      by (unfold rlc_am_nr_status_pdu_sizeof_header_ack_sn; lia); run_cursor.
  - replace (Z.land (Z.shiftr (ack / 256) 7) 1) with 0 by (bit_arith; lia). cbn [dc_to_number Z.eqb negb].
    unfold set_cpt at 1; cbn [cpt]. replace (Z.land (Z.shiftr (ack / 256) 4) 7) with 0 by (bit_arith; lia).
    cbn [Z.eqb negb]. replace (Z.land (128 * _) 127) with 0 by (bit_arith; lia). cbn [Z.eqb negb].
    replace (Z.land (128 * _) 128) with (128 * Z.b2z (nonempty l)) by (bit_arith; lia).
    rewrite unpack_12bit_loop_all by (auto; first [lia | apply mul_b2z_eqb; lia]).
    do 3 f_equal. unfold set_ack_sn, set_cpt, reset; cbn [sn_size mod_nr nacks packed_size cpt ack_sn].
    f_equal. bit_arith. lia.
  - replace (Z.land (Z.shiftr (ack / 16384) 7) 1) with 0 by (bit_arith; lia). cbn [dc_to_number Z.eqb negb].
    unfold set_cpt at 1; cbn [cpt]. replace (Z.land (Z.shiftr (ack / 16384) 4) 7) with 0 by (bit_arith; lia).
    cbn [Z.eqb negb]. replace (Z.land (4 * _ + _) 1) with 0 by (bit_arith; lia). cbn [Z.eqb negb].
    replace (Z.land (4 * _ + _) 2) with (2 * Z.b2z (nonempty l)) by (bit_arith; lia).
    rewrite unpack_18bit_loop_all by (auto; first [lia | apply mul_b2z_eqb; lia]).
    do 3 f_equal. unfold set_ack_sn, set_cpt, reset; cbn [sn_size mod_nr nacks packed_size cpt ack_sn].
    f_equal. bit_arith. lia.
Qed.
