(* ===== verification/RlcAmStatusNacks.v ===== *)
(** * The NACK list of a status PDU: merging, size and trimming *)
From S2P Require Import Prelude ByteCursor RlcConfig RlcAmPdu RlcAmStatusPdu RlcAmStatusFacts.

(** ** Shape of [push_nack] *)

Definition merge_nacks (prev nack : rlc_am_status_nack) : rlc_am_status_nack :=
  merge_offsets (merge_range prev nack) nack.

Lemma push_nack_nacks n s :
  nacks (push_nack n s) =
  match last (nacks s) with
  | Some p => if can_be_merged (mod_nr s) p n then removelast (nacks s) ++ [merge_nacks p n] else nacks s ++ [n]
  | None => [n]
  end.
Proof.
  unfold push_nack. destruct (last (nacks s)) as [p|] eqn:E.
  - by destruct (can_be_merged _ _ _).
  - apply last_None in E. by rewrite E.
Qed.

Lemma push_nack_frame n s :
  sn_size (push_nack n s) = sn_size s /\ mod_nr (push_nack n s) = mod_nr s /\
  cpt (push_nack n s) = cpt s /\ ack_sn (push_nack n s) = ack_sn s.
Proof. unfold push_nack. destruct (last _) as [p|]; [destruct (can_be_merged _ _ _)|]; done. Qed.

(** Case analysis on [push_nack]: the NACK is appended, or merged into the last one. *)
Lemma push_nack_ind (P : list rlc_am_status_nack -> Prop) n s :
  ((forall l p, nacks s = l ++ [p] -> can_be_merged (mod_nr s) p n = false) -> P (nacks s ++ [n])) ->
  (forall l p, nacks s = l ++ [p] -> can_be_merged (mod_nr s) p n = true -> P (l ++ [merge_nacks p n])) ->
  P (nacks (push_nack n s)).
Proof.
  intros Happ Hmerge. rewrite push_nack_nacks. destruct (last (nacks s)) as [p|] eqn:E.
  - apply last_Some in E as [l E]. rewrite E, removelast_last.
    destruct (can_be_merged _ p n) eqn:Hc; [by eapply Hmerge|].
    rewrite <- E. apply Happ. intros l' p' E'. rewrite E in E'. by apply app_inj_tail in E' as [_ ->].
  - apply last_None in E. rewrite E in *. apply Happ. intros [|? ?] ? ?; discriminate.
Qed.

(** ** The cached packed size *)

Lemma nacks_size_app sz l1 l2 : nacks_size sz (l1 ++ l2) = nacks_size sz l1 + nacks_size sz l2.
Proof. induction l1 as [|x l1 IH]; [done|]. cbn [nacks_size fold_right app] in *. unfold nacks_size in *. lia. Qed.

Lemma nacks_size_one sz n : nacks_size sz [n] = nack_size sz n.
Proof. unfold nacks_size; simpl. lia. Qed.

Lemma nack_size_range sz n : 2 <= nack_size sz n <= 8.
Proof. unfold nack_size. destruct sz, (has_so n), (has_nack_range n); vm_compute; intuition discriminate. Qed.

Lemma size_inv_push n s : size_inv s -> size_inv (push_nack n s).
Proof.
  unfold size_inv. intros H. destruct (push_nack_frame n s) as (Hsz & _). rewrite Hsz.
  unfold push_nack. destruct (last (nacks s)) as [p|] eqn:E; [destruct (can_be_merged _ _ _) eqn:Hc|]; cbn [negb].
  - apply last_Some in E as [l E]. rewrite E, removelast_last in *. unfold set_nacks; cbn [packed_size nacks].
    rewrite H, !nacks_size_app, !nacks_size_one, !u32_eq. lia.
  - unfold set_nacks; cbn [packed_size nacks]. rewrite H, nacks_size_app, nacks_size_one, !u32_eq. lia.
  - unfold set_nacks; cbn [packed_size nacks]. rewrite H, nacks_size_app, nacks_size_one, !u32_eq. lia.
Qed.

Lemma size_inv_reset s : size_inv (reset s). Proof. reflexivity. Qed.
Lemma size_inv_new sz : size_inv (status_pdu_new sz). Proof. reflexivity. Qed.
Lemma size_inv_ack a s : size_inv s -> size_inv (set_ack_sn a s). Proof. done. Qed.

Lemma size_inv_push_all l s : size_inv s -> size_inv (push_all l s).
Proof. revert s. induction l as [|n l IH]; intros s H; [done|]. apply IH, size_inv_push, H. Qed.

Lemma refresh_packed_size_inv s : size_inv (refresh_packed_size s).
Proof.
  unfold size_inv, refresh_packed_size, set_nacks; cbn [packed_size nacks sn_size].
  assert (H : forall l acc, 0 <= acc < 2 ^ 32 -> fold_left (fun acc n => u32 (acc + nack_size (sn_size s) n)) l acc
            = u32 (acc + nacks_size (sn_size s) l)).
  { induction l as [|n l IH]; intros acc Hacc; cbn [fold_left nacks_size fold_right].
    - rewrite u32_eq. cbn in Hacc. lia.
    - rewrite IH by (apply uint_range; lia). rewrite !u32_eq. fold (nacks_size (sn_size s) l). lia. }
  apply H. by vm_compute.
Qed.

(** ** What a NACK list means

    A NACK stands for a list of missing byte ranges [(sn, first, last)], one for each SN it covers. *)
Definition range_len (n : rlc_am_status_nack) : Z := if has_nack_range n then nack_range n else 1.

Definition nack_missing (m : Z) (n : rlc_am_status_nack) : list (Z * Z * Z) :=
  (fun k => ((nack_sn n + k) mod m,
             if (k =? 0) && has_so n then so_start n else 0,
             if (k =? range_len n - 1) && has_so n then so_end n else so_end_of_sdu)) <$> seqZ 0 (range_len n).

Definition nacks_missing (m : Z) (l : list rlc_am_status_nack) : list (Z * Z * Z) := l ≫= nack_missing m.

(** A range covers at least one SDU. *)
Definition nack_range_ok (m : Z) (n : rlc_am_status_nack) : Prop := 0 <= nack_sn n < m /\ 1 <= range_len n <= 255.

Lemma can_be_merged_spec m p n :
  0 < m <= 2 ^ 18 -> nack_range_ok m p ->
  can_be_merged m p n = true <->
  nack_sn n = (nack_sn p + range_len p) mod m /\ (has_so p = true -> so_end p = so_end_of_sdu) /\
  (has_so n = true -> so_start n = 0) /\ range_len p + range_len n <= 255.
Proof.
  intros Hm (Hsn & Hr). unfold can_be_merged.
  assert (E : (if has_nack_range p then u32 (nack_sn p + nack_range p) else u32 (nack_sn p + 1))
            = nack_sn p + range_len p).
  { unfold range_len in *. destruct (has_nack_range p); rewrite u32_eq; lia. }
  rewrite E. fold (range_len p) (range_len n).
  destruct (Z.eqb_spec (nack_sn n) ((nack_sn p + range_len p) mod m)); cbn [negb]; [|split; [done|tauto]].
  destruct (has_so p), (Z.eqb_spec (so_end p) so_end_of_sdu); cbn [negb andb];
    try (split; [done|]; naive_solver);
    destruct (has_so n), (Z.eqb_spec (so_start n) 0); cbn [negb andb];
    try (split; [done|]; naive_solver); rewrite Z.leb_le; naive_solver.
Qed.

Lemma merge_nacks_fields p n :
  1 <= range_len p -> 1 <= range_len n -> range_len p + range_len n <= 255 ->
  nack_sn (merge_nacks p n) = nack_sn p /\ range_len (merge_nacks p n) = range_len p + range_len n /\
  has_nack_range (merge_nacks p n) = true /\
  has_so (merge_nacks p n) = has_so p || has_so n /\
  (has_so (merge_nacks p n) = true -> so_start (merge_nacks p n) = (if has_so p then so_start p else 0)) /\
  (has_so (merge_nacks p n) = true -> so_end (merge_nacks p n) = (if has_so n then so_end n else so_end_of_sdu)).
Proof.
  unfold merge_nacks, merge_offsets, merge_range, range_len. intros H1 H2 H3.
  destruct (has_nack_range p), (has_nack_range n), (has_so p) eqn:?, (has_so n) eqn:?;
    cbn [nack_sn has_so has_nack_range nack_range so_start so_end orb];
    rewrite ?u8_eq; split_and!; try done; lia.
Qed.

Lemma nack_missing_merge m p n :
  0 < m <= 2 ^ 18 -> nack_range_ok m p -> nack_range_ok m n -> can_be_merged m p n = true ->
  nack_missing m (merge_nacks p n) = nack_missing m p ++ nack_missing m n.
Proof.
  intros Hm Hp Hn Hc. apply can_be_merged_spec in Hc as (Esn & Eend & Estart & Hlen); [|done..].
  destruct Hp as (_ & Hp), Hn as (_ & Hn).
  destruct (merge_nacks_fields p n) as (Fsn & Flen & _ & Fso & Fst & Fen); [lia..|].
  unfold nack_missing. rewrite Flen, seqZ_app by lia. rewrite fmap_app. f_equal.
  - apply list_fmap_ext. intros i k Hk. apply lookup_seqZ in Hk as [-> ?].
    rewrite Fsn. f_equal; [f_equal|].
    + destruct (Z.eqb_spec (0 + Z.of_nat i) 0); [|done]. rewrite Fso in *. destruct (has_so p), (has_so n); simpl in *; auto.
    + rewrite (proj2 (Z.eqb_neq _ _)) by lia. cbn [andb].
      destruct (_ =? _); [|done]. destruct (has_so p); [|done]. cbn [andb]. by rewrite Eend.
  - rewrite Z.add_0_l, <- (Z.add_0_r (range_len p)) at 1. rewrite <- fmap_add_seqZ, <- list_fmap_compose.
    apply list_fmap_ext. intros i k Hk. apply lookup_seqZ in Hk as [-> ?]. unfold compose.
    rewrite Fsn, Esn. f_equal; [f_equal|].
    + rewrite Zplus_mod_idemp_l. f_equal; lia.
    + rewrite (proj2 (Z.eqb_neq (range_len p + _) 0)) by lia. cbn [andb].
      destruct (Z.eqb_spec (0 + Z.of_nat i) 0); [|done]. destruct (has_so n); [|done]. cbn [andb]. by rewrite Estart.
    + replace (range_len p + (0 + Z.of_nat i) =? range_len p + range_len n - 1)
        with (0 + Z.of_nat i =? range_len n - 1) by (apply eq_bool_prop_intro; rewrite !Is_true_true, !Z.eqb_eq; lia).
      destruct (_ =? _); [|done]. rewrite Fso in *. destruct (has_so p), (has_so n); simpl in *; auto.
Qed.

(** ** [push_nack] neither loses nor invents missing bytes *)

Lemma nacks_missing_snoc m l n : nacks_missing m (l ++ [n]) = nacks_missing m l ++ nack_missing m n.
Proof. unfold nacks_missing. rewrite bind_app. simpl. by rewrite app_nil_r. Qed.

Definition status_wf (s : rlc_am_status_pdu) : Prop :=
  mod_nr s = sn_mod (sn_size s) /\ Forall (nack_range_ok (mod_nr s)) (nacks s).

Lemma sn_mod_range sz : 0 < sn_mod sz <= 2 ^ 18.
Proof. rewrite sn_mod_bound. destruct sz; lia. Qed.

Lemma status_wf_push n s : status_wf s -> nack_range_ok (mod_nr s) n -> status_wf (push_nack n s).
Proof.
  intros (Hm & Hl) Hn. destruct (push_nack_frame n s) as (Hsz & Hmod & _). split; [by rewrite Hsz, Hmod|].
  rewrite Hmod. apply push_nack_ind.
  - intros _. apply Forall_app; auto.
  - intros l p E Hc. rewrite E, Forall_app, Forall_singleton in Hl. destruct Hl as [Hl Hp].
    rewrite Hm in *. pose proof (sn_mod_range (sn_size s)) as Hr. apply can_be_merged_spec in Hc as (_ & _ & _ & Hc); [|done..].
    apply Forall_app. split; [done|]. apply Forall_singleton. unfold nack_range_ok in *. destruct Hp, Hn.
    destruct (merge_nacks_fields p n) as (-> & -> & _); [lia..|]. lia.
Qed.

Lemma push_nack_missing n s :
  status_wf s -> nack_range_ok (mod_nr s) n ->
  nacks_missing (mod_nr s) (nacks (push_nack n s)) = nacks_missing (mod_nr s) (nacks s) ++ nack_missing (mod_nr s) n.
Proof.
  intros (Hm & Hl) Hn. apply push_nack_ind.
  - intros _. apply nacks_missing_snoc.
  - intros l p E Hc. rewrite E, Forall_app, Forall_singleton in Hl. destruct Hl as [Hl Hp].
    rewrite E, !nacks_missing_snoc, <- app_assoc. f_equal. apply nack_missing_merge; auto.
    rewrite Hm. apply sn_mod_range.
Qed.

(** ** Lists that [push_nack] cannot shorten any more *)

Fixpoint canonical (m : Z) (l : list rlc_am_status_nack) : Prop :=
  match l with
  | a :: (b :: _) as t => can_be_merged m a b = false /\ canonical m t
  | _ => True
  end.

Lemma canonical_snoc m l a n :
  canonical m (l ++ [a; n]) <-> canonical m (l ++ [a]) /\ can_be_merged m a n = false.
Proof.
  induction l as [|x l IH]; [simpl; tauto|].
  destruct l as [|y l]; [simpl; tauto|].
  cbn [app canonical] in *. rewrite IH. tauto.
Qed.

Lemma canonical_app_l m l1 l2 : canonical m (l1 ++ l2) -> canonical m l1.
Proof.
  induction l1 as [|x l1 IH]; [done|]. destruct l1 as [|y l1]; [done|].
  cbn [app canonical] in *. intros [? H]. split; [done|exact (IH H)].
Qed.

Lemma can_be_merged_merge m q p n :
  0 < m <= 2 ^ 18 -> nack_range_ok m q -> nack_range_ok m p -> nack_range_ok m n -> can_be_merged m p n = true ->
  can_be_merged m q p = false -> can_be_merged m q (merge_nacks p n) = false.
Proof.
  intros Hm Hq Hp Hn Hc Hqp. apply not_true_iff_false in Hqp. apply not_true_iff_false. contradict Hqp.
  apply can_be_merged_spec in Hc as (_ & _ & _ & Hc); [|done..].
  destruct Hp as [? Hp], Hn as [? Hn].
  destruct (merge_nacks_fields p n) as (Fsn & Flen & _ & Fso & Fst & _); [lia..|].
  apply can_be_merged_spec in Hqp as (E1 & E2 & E3 & E4); [|done..].
  apply can_be_merged_spec; [done..|]. split_and!; [congruence|done| |lia].
  intros Hso. rewrite <- E3; [|by rewrite Fso, Hso]. rewrite Fst by (by rewrite Fso, Hso). by rewrite Hso.
Qed.

Lemma canonical_push n s :
  status_wf s -> nack_range_ok (mod_nr s) n -> canonical (mod_nr s) (nacks s) ->
  canonical (mod_nr s) (nacks (push_nack n s)).
Proof.
  intros (Hm & Hl) Hn Hcan. apply push_nack_ind.
  - intros Hno. destruct (nacks s) as [|p l _] eqn:E using rev_ind; [done|].
    rewrite <- app_assoc. apply canonical_snoc. split; [done|]. by eapply Hno.
  - intros l p E Hc. rewrite E in *. destruct l as [|q l _] using rev_ind; [done|].
    rewrite <- app_assoc in *. cbn [app] in *. apply canonical_snoc in Hcan as [Hcan Hqp].
    apply canonical_snoc. split; [done|].
    rewrite Forall_app, !Forall_cons in Hl. destruct Hl as (_ & Hq & Hp & _).
    apply can_be_merged_merge; auto. rewrite Hm. apply sn_mod_range.
Qed.

(** Re-reading a canonical list rebuilds it. *)
Lemma push_all_canonical l s :
  canonical (mod_nr s) (nacks s ++ l) -> size_inv s ->
  push_all l s = set_nacks (nacks s ++ l) (u32 (packed_size s + nacks_size (sn_size s) l)) s.
Proof.
  revert s. induction l as [|n l IH]; intros s Hcan Hsz.
  - unfold size_inv in Hsz. rewrite app_nil_r. unfold push_all, set_nacks; simpl.
    replace (u32 (packed_size s + 0)) with (packed_size s) by (rewrite Hsz, !u32_eq; lia). by destruct s.
  - assert (Hpush : push_nack n s = set_nacks (nacks s ++ [n]) (u32 (packed_size s + nack_size (sn_size s) n)) s).
    { unfold push_nack. destruct (last (nacks s)) as [p|] eqn:E; [|done].
      apply last_Some in E as [l' E]. replace (can_be_merged (mod_nr s) p n) with false; [done|].
      rewrite E, <- app_assoc in Hcan. cbn [app] in Hcan.
      change (l' ++ p :: n :: l) with (l' ++ [p; n] ++ l) in Hcan. rewrite app_assoc in Hcan.
      apply canonical_app_l, canonical_snoc in Hcan. by destruct Hcan. }
    cbn [push_all foldl]. fold (push_all l (push_nack n s)). rewrite IH.
    + rewrite Hpush. unfold set_nacks; cbn [nacks packed_size sn_size mod_nr cpt ack_sn].
      rewrite <- app_assoc. cbn [app nacks_size fold_right]. fold (nacks_size (sn_size s) l).
      f_equal. rewrite !u32_eq. lia.
    + rewrite Hpush. cbn [nacks mod_nr set_nacks]. by rewrite <- app_assoc.
    + by apply size_inv_push.
Qed.

(** ** Trimming *)

Lemma trim_loop_spec sz max rl size ack :
  size = rlc_am_nr_status_pdu_sizeof_header_ack_sn + nacks_size sz (rev rl) -> size < 2 ^ 32 ->
  exists removed rl',
    trim_loop sz max rl size ack
      = (rl', rlc_am_nr_status_pdu_sizeof_header_ack_sn + nacks_size sz (rev rl'),
         match last removed with None => ack | Some n => nack_sn n end) /\
    rl = removed ++ rl' /\
    (forall n, head rl' = Some n ->
       rlc_am_nr_status_pdu_sizeof_header_ack_sn + nacks_size sz (rev rl') <= max /\
       nack_sn n <> match last removed with None => ack | Some n => nack_sn n end).
Proof.
  revert size ack. induction rl as [|n rl IH]; intros size ack Hsize Hlt.
  { exists [], []. subst. by split_and!. }
  cbn [trim_loop rev] in *. rewrite nacks_size_app, nacks_size_one in Hsize.
  pose proof (nack_size_range sz n).
  destruct (Z.ltb_spec max size), (Z.eqb_spec (nack_sn n) ack); cbn [orb].
  1-3: (assert (Hge : 0 <= nacks_size sz (rev rl))
          by (rewrite <- nacks_octets_length; apply rd_length_nonneg);
        unfold rlc_am_nr_status_pdu_sizeof_header_ack_sn in *;
        destruct (IH (u32 (size - nack_size sz n)) (nack_sn n)) as (removed & rl' & E & -> & Hstop);
          [rewrite u32_eq; lia..|];
        exists (n :: removed), rl'; rewrite E; split_and!; [|done|];
        destruct (last removed) eqn:El;
          [rewrite last_cons, El; auto..|rewrite last_cons, El; auto|rewrite last_cons, El; auto]).
  exists [], (n :: rl). cbn [rev last app head]. rewrite nacks_size_app, nacks_size_one. split_and!; [by subst|done|].
  intros ? [= <-]. lia.
Qed.

(** ** Unpacking arbitrary octets *)

Lemma nack_ok_merge m p n :
  nack_ok m p -> nack_ok m n -> nack_ok m (merge_nacks p n).
Proof.
  unfold nack_ok, merge_nacks, merge_offsets, merge_range. intros Hp Hn.
  destruct (has_so n) eqn:?, (has_so p) eqn:?, (has_nack_range n), (has_nack_range p);
    cbn [nack_sn has_so so_start so_end has_nack_range nack_range]; rewrite ?u8_eq;
    unfold so_end_of_sdu; split_and!; try done; intuition lia.
Qed.

Definition status_fields_ok (s : rlc_am_status_pdu) : Prop :=
  size_inv s /\ Forall (nack_ok (sn_mod (sn_size s))) (nacks s).

Lemma status_fields_ok_push n s :
  status_fields_ok s -> nack_ok (sn_mod (sn_size s)) n -> status_fields_ok (push_nack n s).
Proof.
  intros (Hsz & Hl) Hn. split; [by apply size_inv_push|].
  destruct (push_nack_frame n s) as (-> & _). apply push_nack_ind.
  - intros _. apply Forall_app; auto.
  - intros l p E _. rewrite E, Forall_app, Forall_singleton in Hl. destruct Hl as [Hl Hp].
    apply Forall_app. split; [done|]. apply Forall_singleton. by apply nack_ok_merge.
Qed.

(** The optional parts either run out of input, or return a NACK with well-formed fields and the shorter rest. *)
Lemma unpack_optional m e2 e3 r n :
  0 <= nack_sn n < m -> n = Nack (nack_sn n) false 0 so_end_of_sdu false 0 -> bytes_ok r ->
  unpack_nack_so e2 r n = Some None \/
  exists r1 n1, unpack_nack_so e2 r n = Some (Some (r1, n1)) /\
    (unpack_nack_range e3 r1 n1 = Some None \/
     exists r2 n2, unpack_nack_range e3 r1 n1 = Some (Some (r2, n2)) /\
       nack_ok m n2 /\ bytes_ok r2 /\ (length r2 <= length r)%nat).
Proof.
  intros Hsn -> Hb. cbn [nack_sn] in *. generalize dependent (nack_sn n). clear n. intros sn Hsn.
  unfold unpack_nack_so.
  destruct (e2 =? 0); cbn [negb];
    [|destruct (Z.ltb_spec (rd_length r) rlc_am_nr_status_pdu_sizeof_nack_so) as [|Hl]; [by left|];
      unfold rlc_am_nr_status_pdu_sizeof_nack_so in Hl; do 4 uncons r; run_cursor];
    right; do 2 eexists; (split; [reflexivity|]); unfold unpack_nack_range;
    (destruct (e3 =? 0); cbn [negb];
      [|destruct (Z.ltb_spec (rd_length r) rlc_am_nr_status_pdu_sizeof_nack_range) as [|Hl']; [by left|];
        unfold rlc_am_nr_status_pdu_sizeof_nack_range in Hl'; uncons r; run_cursor]);
    right; do 2 eexists; (split; [reflexivity|]);
    rewrite ?Forall_cons in Hb; unfold is_byte in Hb; unfold nack_ok, so_end_of_sdu;
    cbn [nack_sn has_so so_start so_end has_nack_range nack_range length];
    (split_and!; try done; try lia; try tauto); bit_arith; lia.
Qed.

(** The outcome of unpacking on top of [s]: a defined result, with well-formed fields. *)
Definition unpack_result (s : rlc_am_status_pdu) (o : option (bool * rlc_am_status_pdu)) : Prop :=
  exists ok s', o = Some (ok, s') /\ status_fields_ok s' /\
    sn_size s' = sn_size s /\ mod_nr s' = mod_nr s /\ ack_sn s' = ack_sn s /\ cpt s' = cpt s.

Lemma unpack_result_ret b s : status_fields_ok s -> unpack_result s (Some (b, s)).
Proof. intros. by exists b, s. Qed.

Lemma unpack_result_push n s o :
  unpack_result (push_nack n s) o -> unpack_result s o.
Proof.
  destruct (push_nack_frame n s) as (E1 & E2 & E3 & E4). intros (ok & s' & ? & ? & ? & ? & ? & ?).
  exists ok, s'. split_and!; congruence.
Qed.

(** One iteration after the NACK_SN has been read. *)
Lemma unpack_iteration_safe e2 e3 r n s (k : list Z -> rlc_am_status_pdu -> option (bool * rlc_am_status_pdu)) :
  0 <= nack_sn n < sn_mod (sn_size s) -> n = Nack (nack_sn n) false 0 so_end_of_sdu false 0 -> bytes_ok r ->
  status_fields_ok s ->
  (forall r' s', (length r' <= length r)%nat -> bytes_ok r' -> sn_size s' = sn_size s -> status_fields_ok s' ->
     unpack_result s' (k r' s')) ->
  unpack_result s
    (o ← unpack_nack_so e2 r n;
     match o with None => Some (false, s) | Some (r, n) =>
     o ← unpack_nack_range e3 r n;
     match o with None => Some (false, s) | Some (r, n) => k r (push_nack n s) end end).
Proof.
  intros Hsn Hn Hb Hok Hk.
  destruct (unpack_optional (sn_mod (sn_size s)) e2 e3 r n) as [->|(r1 & n1 & -> & [E|(r2 & n2 & E & ? & ? & ?)])];
    [done..|by apply unpack_result_ret| |]; run_cursor; rewrite E; run_cursor; [by apply unpack_result_ret|].
  eapply unpack_result_push, Hk; [done..| |by apply status_fields_ok_push].
  by destruct (push_nack_frame n2 s) as (-> & _).
Qed.

Lemma unpack_12bit_loop_safe fuel e1 r s :
  (length r < fuel)%nat -> bytes_ok r -> sn_size s = size12bits -> status_fields_ok s ->
  unpack_result s (unpack_12bit_loop fuel e1 r s).
Proof.
  revert e1 r s. induction fuel as [|fuel IH]; intros e1 r s Hf Hb Hsz Hok; [lia|]. cbn [unpack_12bit_loop].
  destruct (e1 =? 0); [by apply unpack_result_ret|].
  destruct (Z.ltb_spec (rd_length r) rlc_am_nr_status_pdu_sizeof_nack_sn_ext_12bit_sn) as [|Hl];
    [by apply unpack_result_ret|].
  unfold rlc_am_nr_status_pdu_sizeof_nack_sn_ext_12bit_sn in Hl. do 2 uncons r.
  run_cursor. rewrite !Forall_cons in Hb; unfold is_byte in Hb; simpl in Hf.
  destruct (negb _); [by apply unpack_result_ret|]. run_cursor.
  apply (unpack_iteration_safe _ _ r _ s (fun r s => unpack_12bit_loop fuel (Z.land z0 8) r s)); try tauto.
  - rewrite Hsz, sn_mod_bound; cbn [nack_sn]. bit_arith. lia.
  - intros r' s' Hr' Hb' Hsz' Hok'. apply IH; [lia|done|congruence|done].
Qed.

Lemma unpack_18bit_loop_safe fuel e1 r s :
  (length r < fuel)%nat -> bytes_ok r -> sn_size s = size18bits -> status_fields_ok s ->
  unpack_result s (unpack_18bit_loop fuel e1 r s).
Proof.
  revert e1 r s. induction fuel as [|fuel IH]; intros e1 r s Hf Hb Hsz Hok; [lia|]. cbn [unpack_18bit_loop].
  destruct (e1 =? 0); [by apply unpack_result_ret|].
  destruct (Z.ltb_spec (rd_length r) rlc_am_nr_status_pdu_sizeof_nack_sn_ext_18bit_sn) as [|Hl];
    [by apply unpack_result_ret|].
  unfold rlc_am_nr_status_pdu_sizeof_nack_sn_ext_18bit_sn in Hl. do 3 uncons r.
  run_cursor. rewrite !Forall_cons in Hb; unfold is_byte in Hb; simpl in Hf.
  destruct (negb _); [by apply unpack_result_ret|]. run_cursor.
  apply (unpack_iteration_safe _ _ r _ s (fun r s => unpack_18bit_loop fuel (Z.land z1 32) r s)); try tauto.
  - rewrite Hsz, sn_mod_bound; cbn [nack_sn]. bit_arith. lia.
  - intros r' s' Hr' Hb' Hsz' Hok'. apply IH; [lia|done|congruence|done].
Qed.

Lemma status_fields_ok_reset s : status_fields_ok (reset s).
Proof. split; [apply size_inv_reset|constructor]. Qed.

Lemma unpack_safe pdu s :
  bytes_ok pdu -> status_fields_ok s ->
  exists ok s', unpack pdu s = Some (ok, s') /\ status_fields_ok s' /\ sn_size s' = sn_size s /\
    (ok = true -> 0 <= ack_sn s' < sn_mod (sn_size s') /\ cpt s' = 0).
Proof.
  intros Hb Hok.
  assert (Hfalse : forall s', status_fields_ok s' -> sn_size s' = sn_size s ->
    exists ok s'', Some (false, s') = Some (ok, s'') /\ status_fields_ok s'' /\ sn_size s'' = sn_size s /\
      (ok = true -> 0 <= ack_sn s'' < sn_mod (sn_size s'') /\ cpt s'' = 0)).
  { intros s' ? ?. exists false, s'. split_and!; done. }
  unfold unpack, unpack_12bit, unpack_18bit, is_control_pdu.
  destruct (sn_size s) eqn:Hsz;
    (destruct (Z.ltb_spec (rd_length pdu) rlc_am_nr_status_pdu_sizeof_header_ack_sn) as [|Hl]; [by apply Hfalse|];
     unfold rlc_am_nr_status_pdu_sizeof_header_ack_sn in Hl; do 3 uncons pdu; run_cursor;
     rewrite !Forall_cons in Hb; unfold is_byte in Hb;
     destruct (Z.land _ 1 =? _); cbn [negb]; [|by apply Hfalse]; cbn [cpt set_cpt];
     destruct (Z.eqb_spec (Z.land (Z.shiftr z 4) 7) 0) as [->|]; cbn [negb];
       [|apply Hfalse; [apply status_fields_ok_reset|done]];
     destruct (negb _); [apply Hfalse; [apply status_fields_ok_reset|done]|]; run_cursor).
  - match goal with |- context [unpack_12bit_loop ?f ?e ?r ?s0] =>
      destruct (unpack_12bit_loop_safe f e r s0) as (ok & s' & -> & H1 & H2 & _ & H3 & H4) end;
      [lia|tauto|done|apply status_fields_ok_reset|].
    exists ok, s'. split_and!; [done..|rewrite H2; exact Hsz|]. intros _. rewrite H2, H3, H4.
    unfold set_ack_sn, set_cpt, reset; cbn [ack_sn cpt sn_size]. rewrite Hsz, sn_mod_bound.
    split; [bit_arith; lia|done].
  - match goal with |- context [unpack_18bit_loop ?f ?e ?r ?s0] =>
      destruct (unpack_18bit_loop_safe f e r s0) as (ok & s' & -> & H1 & H2 & _ & H3 & H4) end;
      [lia|tauto|done|apply status_fields_ok_reset|].
    exists ok, s'. split_and!; [done..|rewrite H2; exact Hsz|]. intros _. rewrite H2, H3, H4.
    unfold set_ack_sn, set_cpt, reset; cbn [ack_sn cpt sn_size]. rewrite Hsz, sn_mod_bound.
    split; [bit_arith; lia|done].
Qed.

(** ** The theorems *)

(** C31. Unpacking whatever octets arrive never dereferences past the end of the buffer and terminates; the cached
    packed size and the widths of all fields hold in every object it leaves behind, and an accepted PDU has an ACK_SN
    and NACK_SNs inside the sequence number space. *)
Theorem status_unpack_safe pdu s :
  bytes_ok pdu -> status_fields_ok s ->
  exists ok s', unpack pdu s = Some (ok, s') /\ status_fields_ok s' /\ sn_size s' = sn_size s /\
    (ok = true -> 0 <= ack_sn s' < sn_mod (sn_size s') /\ cpt s' = 0).
Proof. apply unpack_safe. Qed.

(** C19. A status PDU survives the wire: packing a well-formed PDU whose NACK list is fully merged writes exactly the
    cached packed size, and unpacking those octets restores every field. *)
Theorem status_roundtrip s s0 buf :
  status_ok s -> canonical (mod_nr s) (nacks s) -> size_inv s ->
  sn_size s0 = sn_size s -> mod_nr s0 = mod_nr s ->
  rd_length (status_octets s) <= rd_length buf < 2 ^ 32 ->
  exists buf', pack s buf = Some (packed_size s, buf') /\ length buf' = length buf /\
    unpack (take (Z.to_nat (packed_size s)) buf') s0 = Some (true, s).
Proof.
  intros Hok Hcan Hinv Hsz Hmod Hbuf.
  assert (E : packed_size s = rd_length (status_octets s)).
  { rewrite Hinv, status_octets_length, u32_eq. rewrite status_octets_length in Hbuf.
    assert (0 <= nacks_size (sn_size s) (nacks s)) by (rewrite <- nacks_octets_length; apply rd_length_nonneg).
    unfold rlc_am_nr_status_pdu_sizeof_header_ack_sn in *. lia. }
  eexists. split; [rewrite E; apply pack_octets; [done|lia]|]. unfold rd_length in *. split.
  - rewrite length_app, length_drop. lia.
  - rewrite E, Nat2Z.id, take_app_length, unpack_octets by done. do 2 f_equal.
    destruct Hok as (_ & Hcpt & _). rewrite push_all_canonical; [|simpl; by rewrite Hmod|apply size_inv_reset].
    unfold set_nacks, set_ack_sn, reset; cbn [sn_size mod_nr nacks packed_size cpt ack_sn]. rewrite Hsz, Hmod.
    unfold size_inv in Hinv. destruct s as [sz m l ps c a]; cbn [sn_size mod_nr nacks packed_size cpt ack_sn] in *.
    by rewrite Hinv, Hcpt.
Qed.

(** C20. Merging keeps the report exact: whatever the earlier NACKs, [push_nack] adds precisely the missing byte ranges of
    the new NACK, keeps the list as short as merging allows, and keeps the cached size and the range bound of 255. *)
Theorem push_nack_exact n s :
  status_wf s -> nack_range_ok (mod_nr s) n -> size_inv s -> canonical (mod_nr s) (nacks s) ->
  let s' := push_nack n s in
  nacks_missing (mod_nr s) (nacks s') = nacks_missing (mod_nr s) (nacks s) ++ nack_missing (mod_nr s) n /\
  status_wf s' /\ size_inv s' /\ canonical (mod_nr s') (nacks s').
Proof.
  intros Hwf Hn Hsz Hcan s'. split_and!; [by apply push_nack_missing|by apply status_wf_push|by apply size_inv_push|].
  destruct (push_nack_frame n s) as (_ & Hmod & _). unfold s'. rewrite Hmod. by apply canonical_push.
Qed.

Lemma trim_spec max s :
  size_inv s -> rlc_am_nr_status_pdu_sizeof_header_ack_sn + nacks_size (sn_size s) (nacks s) < 2 ^ 32 ->
  let '(ok, s') := trim max s in
  (ok = false <-> max < rlc_am_nr_status_pdu_sizeof_header_ack_sn) /\
  (sn_size s' = sn_size s /\ mod_nr s' = mod_nr s /\ cpt s' = cpt s) /\
  (ok = true -> packed_size s' <= max /\ size_inv s' /\
    exists removed, nacks s = nacks s' ++ removed /\
      ack_sn s' = match removed with [] => ack_sn s | n :: _ => nack_sn n end /\
      (removed <> [] -> forall n, last (nacks s') = Some n -> nack_sn n <> ack_sn s')).
Proof.
  intros Hinv Hlt.
  assert (Hge : 0 <= nacks_size (sn_size s) (nacks s)) by (rewrite <- nacks_octets_length; apply rd_length_nonneg).
  assert (E : packed_size s = rlc_am_nr_status_pdu_sizeof_header_ack_sn + nacks_size (sn_size s) (nacks s)).
  { rewrite Hinv, u32_eq. unfold rlc_am_nr_status_pdu_sizeof_header_ack_sn in *. lia. }
  unfold trim. destruct (Z.leb_spec (packed_size s) max) as [Hle|Hgt].
  { split; [split; [done|unfold rlc_am_nr_status_pdu_sizeof_header_ack_sn in *; lia]|]. split; [done|].
    intros _. split_and!; [done..|]. exists []. by rewrite app_nil_r. }
  destruct (Z.ltb_spec max rlc_am_nr_status_pdu_sizeof_header_ack_sn) as [Hs|Hs]; [done|].
  destruct (trim_loop_spec (sn_size s) max (rev (nacks s)) (packed_size s) (ack_sn s)) as (removed & rl' & -> & Erl & Hstop);
    [by rewrite rev_involutive|lia|].
  split; [split; [done|lia]|]. split; [done|]. intros _.
  unfold set_ack_sn, set_nacks, size_inv; cbn [packed_size nacks sn_size mod_nr ack_sn].
  apply (f_equal (@rev _)) in Erl. rewrite rev_involutive, rev_app_distr in Erl.
  assert (Hrl : rlc_am_nr_status_pdu_sizeof_header_ack_sn + nacks_size (sn_size s) (rev rl') <= max).
  { destruct rl' as [|n rl']; [cbn; unfold rlc_am_nr_status_pdu_sizeof_header_ack_sn in *; lia|].
    by apply (Hstop n). }
  assert (Hpos : 0 <= nacks_size (sn_size s) (rev rl')) by (rewrite <- nacks_octets_length; apply rd_length_nonneg).
  assert (Hle : nacks_size (sn_size s) (rev rl') <= nacks_size (sn_size s) (nacks s)).
  { rewrite Erl, nacks_size_app. rewrite <- (nacks_octets_length _ (rev removed)).
    pose proof (rd_length_nonneg (nacks_octets (sn_size s) (rev removed))). lia. }
  split_and!; [done| |].
  - rewrite u32_eq. unfold rlc_am_nr_status_pdu_sizeof_header_ack_sn in *. lia.
  - exists (rev removed). rewrite Erl. split_and!; [done| |].
    + destruct removed as [|x removed _] using rev_ind; [done|]. by rewrite last_snoc, rev_app_distr.
    + intros _ n Hn. destruct rl' as [|y rl']; [done|]. simpl in Hn. rewrite last_snoc in Hn. simplify_eq.
      by apply (Hstop n).
Qed.

(** [trim] makes the PDU fit: it fails only below the three header octets, otherwise the result fits the grant, keeps
    a prefix of the NACKs with a correct cached size, and ACK_SN becomes the SN of the first NACK that was removed and
    differs from the SN of the last one that is kept. *)
Theorem trim_fits max s :
  size_inv s -> rlc_am_nr_status_pdu_sizeof_header_ack_sn + nacks_size (sn_size s) (nacks s) < 2 ^ 32 ->
  let '(ok, s') := trim max s in
  (ok = false <-> max < rlc_am_nr_status_pdu_sizeof_header_ack_sn) /\
  (ok = true -> packed_size s' <= max /\ size_inv s' /\
    exists removed, nacks s = nacks s' ++ removed /\
      ack_sn s' = match removed with [] => ack_sn s | n :: _ => nack_sn n end /\
      (removed <> [] -> forall n, last (nacks s') = Some n -> nack_sn n <> ack_sn s')).
Proof. intros Hinv Hlt. pose proof (trim_spec max s Hinv Hlt) as Ht. destruct (trim max s). tauto. Qed.

(** A report that can be packed: its fields fit, and its size is what it says. *)
Definition report_sendable (sz : rlc_am_sn_size) (s : rlc_am_status_pdu) : Prop :=
  sn_size s = sz /\ status_ok s /\ size_inv s /\
  rlc_am_nr_status_pdu_sizeof_header_ack_sn + nacks_size (sn_size s) (nacks s) < 2 ^ 32.

Lemma report_sendable_size sz s : report_sendable sz s -> packed_size s = rd_length (status_octets s).
Proof.
  intros (_ & _ & Hs & Hlt). rewrite Hs, status_octets_length. apply uint_small. rewrite <- status_octets_length in *.
  pose proof (rd_length_nonneg (status_octets s)). lia.
Qed.

Lemma trim_sendable sz max s :
  report_sendable sz s -> rlc_am_nr_status_pdu_sizeof_header_ack_sn <= max ->
  exists s', trim max s = (true, s') /\ report_sendable sz s' /\ rd_length (status_octets s') <= max.
Proof.
  intros (Hsz & (Hm & Hc & Ha & Hn) & Hs & Hlt) Hmax. pose proof (trim_spec max s Hs Hlt) as Ht. destruct (trim max s) as [ok s'].
  destruct Ht as (Hok & (E1 & E2 & E3) & Hfit). destruct ok; [|exfalso; assert (max < rlc_am_nr_status_pdu_sizeof_header_ack_sn) by (by apply Hok); lia].
  destruct (Hfit eq_refl) as (Hle & Hs' & removed & El & Ea & _). exists s'. split; [done|].
  unfold nacks_ok in *. rewrite El in Hn. apply Forall_app in Hn as [Hn1 Hn2].
  assert (Hr : report_sendable sz s').
  { split; [congruence|]. split; [|split; [done|]].
    - split; [congruence|]. split; [congruence|]. rewrite E1. split; [|done]. rewrite Ea. destruct removed as [|n removed]; [done|].
      by apply Forall_cons in Hn2 as [[? _] _].
    - rewrite E1. rewrite El, nacks_size_app in Hlt. rewrite <- (nacks_octets_length _ removed) in Hlt.
      pose proof (rd_length_nonneg (nacks_octets (sn_size s) removed)). lia. }
  split; [done|]. rewrite <- (report_sendable_size _ _ Hr). lia.
Qed.

(** ** Witnesses *)

Definition witness_status : rlc_am_status_pdu :=
  set_ack_sn 300 (push_nack (Nack 256 true 0 99 false 0) (push_nack (Nack 255 false 0 so_end_of_sdu false 0)
    (push_nack (Nack 100 true 5 so_end_of_sdu true 3) (status_pdu_new size12bits)))).

Lemma status_unpack_safe_witness :
  exists ok s', unpack [0x01; 0x2c; 0x80; 0x06; 0x46; 0x00; 0x05; 0xff; 0xff; 0x03] (status_pdu_new size12bits) = Some (ok, s') /\
    status_fields_ok s' /\ sn_size s' = size12bits /\ (ok = true -> 0 <= ack_sn s' < sn_mod (sn_size s') /\ cpt s' = 0).
Proof.
  apply (status_unpack_safe _ (status_pdu_new size12bits));
    [repeat constructor; compute; congruence|split; [reflexivity|constructor]].
Defined.

Lemma witness_status_ok :
  status_ok witness_status /\ canonical (mod_nr witness_status) (nacks witness_status) /\ size_inv witness_status.
Proof.
  split_and!; [|vm_compute; split_and!; done|reflexivity].
  split_and!; [reflexivity..|compute; congruence|vm_compute; congruence|].
  vm_compute. repeat constructor; try (intros; discriminate).
Qed.

Lemma status_roundtrip_witness :
  exists buf', pack witness_status (replicate 20 0) = Some (packed_size witness_status, buf') /\
    length buf' = 20%nat /\
    unpack (take (Z.to_nat (packed_size witness_status)) buf') (status_pdu_new size12bits) = Some (true, witness_status).
Proof.
  destruct witness_status_ok as (H1 & H2 & H3).
  apply (status_roundtrip witness_status (status_pdu_new size12bits) (replicate 20 0) H1 H2 H3 eq_refl eq_refl).
  vm_compute. split; congruence.
Defined.

Lemma push_nack_exact_witness :
  let s := push_nack (Nack 4094 false 0 so_end_of_sdu true 2) (status_pdu_new size12bits) in
  nacks_missing 4096 (nacks (push_nack (Nack 0 true 0 99 false 0) s)) =
    [(4094, 0, 65535); (4095, 0, 65535); (0, 0, 99)].
Proof.
  set (s := push_nack _ _).
  pose proof (push_nack_exact (Nack 0 true 0 99 false 0) s) as H.
  assert (status_wf s) as Hwf by (split; [reflexivity|repeat constructor; vm_compute; congruence]).
  destruct H as (H & _); [done|repeat constructor; vm_compute; congruence|reflexivity|exact I|].
  etransitivity; [exact H|]. vm_compute. reflexivity.
Defined.

Lemma trim_fits_witness :
  let '(ok, s') := trim 10 witness_status in
  (ok = false <-> 10 < rlc_am_nr_status_pdu_sizeof_header_ack_sn) /\
  (ok = true -> packed_size s' <= 10 /\ size_inv s' /\
    exists removed, nacks witness_status = nacks s' ++ removed /\
      ack_sn s' = match removed with [] => ack_sn witness_status | n :: _ => nack_sn n end /\
      (removed <> [] -> forall n, last (nacks s') = Some n -> nack_sn n <> ack_sn s')).
Proof. apply (trim_fits 10 witness_status); vm_compute; reflexivity. Defined.

(** ** A NACK range that outlives trimming *)

(** SDU 3 is missing, SDU 4 has two gaps; the grant has no room for the second gap. *)
Definition trimmed_status : bool * rlc_am_status_pdu :=
  trim 10 (set_ack_sn 5 (push_nack (Nack 4 true 20 30 false 0) (push_nack (Nack 4 true 0 10 false 0)
    (push_nack (Nack 3 false 0 so_end_of_sdu false 0) (status_pdu_new size12bits))))).

(** The trimmed PDU can acknowledge and negatively acknowledge the same SN: after [trim] returned [true], ACK_SN is 4
    and a NACK range that is kept still covers SN 4. *)
Theorem trim_keeps_nack_of_ack_sn :
  trimmed_status.1 = true /\ ack_sn trimmed_status.2 = 4 /\
  (4, 0, 10) ∈ nacks_missing 4096 (nacks trimmed_status.2).
Proof. split_and!; [vm_compute; reflexivity..|]. vm_compute. apply list_elem_of_further, list_elem_of_here. Qed.
