(* ===== verification/ByteBufferChain.v ===== *)
(** * Chains of byte buffer slices ([include/ocudu/adt/byte_buffer_chain.h])

    A chain is an array of non-empty slices inside one block of the byte buffer segment pool. [create] needs such a
    block; whether the pool has one is an input ([block]), as other users of the shared pool take and return blocks at
    any time. The number of slices that fit is fixed by the size of the block. *)
From S2P Require Import Prelude ByteCursor.

Record byte_buffer_chain := Chain {
  slices : list (list Z);      (** [slices_ptr[0 .. slice_count)] *)
  byte_count : Z;
  max_slices : nat
}.

Definition nof_slices (c : byte_buffer_chain) : nat := length (slices c).
Definition chain_full (c : byte_buffer_chain) : bool := Nat.eqb (nof_slices c) (max_slices c).
Definition chain_empty (c : byte_buffer_chain) : bool := Nat.eqb (nof_slices c) 0.
Definition chain_length (c : byte_buffer_chain) : Z := byte_count c.

(** [create()]: [None] is the unexpected result of an exhausted pool. *)
Definition chain_create (block : bool) (max : nat) : option byte_buffer_chain :=
  if block then Some (Chain [] 0 max) else None.

(** [append(byte_buffer_slice)] *)
Definition chain_append (obj : list Z) (c : byte_buffer_chain) : bool * byte_buffer_chain :=
  if rd_empty obj then (true, c)
  else if chain_full c then (false, c)
  else (true, Chain (slices c ++ [obj]) (byte_count c + rd_length obj) (max_slices c)).

(** [create(byte_buffer_slice)] *)
Definition chain_create_from (block : bool) (max : nat) (obj : list Z) : option byte_buffer_chain :=
  match chain_create block max with
  | None => None
  | Some buf => let '(ok, buf) := chain_append obj buf in if ok then Some buf else None
  end.

(** [append(byte_buffer_chain)]: the result and both chains *)
Definition chain_append_chain (other c : byte_buffer_chain) : bool * byte_buffer_chain * byte_buffer_chain :=
  if Nat.ltb (max_slices c) (nof_slices c + nof_slices other) then (false, other, c)
  else (true, Chain [] 0 (max_slices other),
        Chain (slices c ++ slices other) (byte_count c + byte_count other) (max_slices c)).

(** [prepend(byte_buffer_slice)] *)
Definition chain_prepend (slice : list Z) (c : byte_buffer_chain) : bool * byte_buffer_chain :=
  if rd_empty slice then (true, c)
  else if chain_full c then (false, c)
  else if chain_empty c then chain_append slice c
  else (true, Chain (slice :: slices c) (byte_count c + rd_length slice) (max_slices c)).

Definition chain_clear (c : byte_buffer_chain) : byte_buffer_chain := Chain [] 0 (max_slices c).

(** [operator[]]: the loop over the slices; past the end the assertion fails *)
Fixpoint chain_get_loop (l : list (list Z)) (rem_pos : nat) : option Z :=
  match l with
  | [] => None
  | s :: l => if Nat.ltb rem_pos (length s) then s !! rem_pos else chain_get_loop l (rem_pos - length s)
  end.

Definition chain_get (c : byte_buffer_chain) (idx : nat) : option Z := chain_get_loop (slices c) idx.

(** [deep_copy]: the bytes of all slices in one buffer *)
Definition chain_bytes (c : byte_buffer_chain) : list Z := concat (slices c).

(** ** Invariant *)
Definition chain_inv (c : byte_buffer_chain) : Prop :=
  (nof_slices c <= max_slices c)%nat /\ byte_count c = rd_length (chain_bytes c) /\
  Forall (fun s => s <> []) (slices c).

Lemma chain_create_inv b max c : chain_create b max = Some c -> chain_inv c /\ chain_bytes c = [].
Proof. destruct b; [|done]. intros [= <-]. repeat split; [unfold nof_slices; simpl; lia|constructor]. Qed.

Lemma rd_empty_spec l : rd_empty l = true <-> l = []. Proof. by destruct l. Qed.

Lemma chain_full_spec c : chain_inv c -> chain_full c = false -> (nof_slices c < max_slices c)%nat.
Proof. intros [Hle _] Hf. apply Nat.eqb_neq in Hf. lia. Qed.

Lemma chain_append_spec obj c :
  chain_inv c ->
  let '(ok, c') := chain_append obj c in
  chain_inv c' /\ max_slices c' = max_slices c /\
  (if ok then chain_bytes c' = chain_bytes c ++ obj else c' = c /\ nof_slices c = max_slices c).
Proof.
  intros Hinv. unfold chain_append. destruct (rd_empty obj) eqn:He.
  { apply rd_empty_spec in He as ->. by rewrite app_nil_r. }
  destruct (chain_full c) eqn:Hf; [by apply Nat.eqb_eq in Hf|].
  pose proof (chain_full_spec c Hinv Hf). destruct Hinv as (H1 & H2 & H3).
  assert (E : chain_bytes (Chain (slices c ++ [obj]) (byte_count c + rd_length obj) (max_slices c))
            = chain_bytes c ++ obj) by (unfold chain_bytes; cbn [slices]; rewrite concat_app; simpl; by rewrite app_nil_r).
  split_and!; [|done|done]. unfold chain_inv. rewrite E. unfold nof_slices in *; cbn [slices byte_count max_slices].
  rewrite length_app, rd_length_app. cbn [length]. split_and!; [lia|lia|].
  apply Forall_app. split; [done|]. constructor; [|constructor]. by intros ->.
Qed.

Lemma chain_append_ok obj c :
  chain_inv c -> (nof_slices c < max_slices c)%nat -> (chain_append obj c).1 = true.
Proof.
  intros _ H. unfold chain_append. destruct (rd_empty obj); [done|].
  replace (chain_full c) with false; [done|]. symmetry. apply Nat.eqb_neq. lia.
Qed.

Lemma chain_prepend_spec obj c :
  chain_inv c ->
  let '(ok, c') := chain_prepend obj c in
  chain_inv c' /\ (if ok then chain_bytes c' = obj ++ chain_bytes c else c' = c /\ nof_slices c = max_slices c).
Proof.
  intros Hinv. unfold chain_prepend. destruct (rd_empty obj) eqn:He; [by apply rd_empty_spec in He as ->|].
  destruct (chain_full c) eqn:Hf; [by apply Nat.eqb_eq in Hf|].
  destruct (chain_empty c) eqn:Hc.
  - pose proof (chain_append_spec obj c Hinv) as H. unfold chain_append in *. rewrite He, Hf in *.
    destruct H as (H & _ & E). split; [done|]. rewrite E. apply Nat.eqb_eq in Hc. unfold nof_slices in Hc.
    unfold chain_bytes. destruct (slices c); [|done]. simpl. by rewrite app_nil_r.
  - pose proof (chain_full_spec c Hinv Hf). destruct Hinv as (H1 & H2 & H3).
    split; [|done]. unfold chain_inv, nof_slices, chain_bytes in *; cbn [slices byte_count max_slices concat length].
    rewrite rd_length_app. split_and!; [lia|lia|]. constructor; [|done]. by intros ->.
Qed.

Lemma chain_append_chain_spec other c :
  chain_inv c -> chain_inv other ->
  let '(ok, other', c') := chain_append_chain other c in
  chain_inv c' /\ chain_inv other' /\
  (if ok then chain_bytes c' = chain_bytes c ++ chain_bytes other /\ chain_bytes other' = []
   else c' = c /\ other' = other).
Proof.
  intros (H1 & H2 & H3) (G1 & G2 & G3). unfold chain_append_chain.
  destruct (Nat.ltb_spec (max_slices c) (nof_slices c + nof_slices other)); [done|].
  unfold chain_inv, nof_slices, chain_bytes in *; cbn [slices byte_count max_slices concat length].
  rewrite length_app, concat_app, rd_length_app. split_and!; try done; try lia. by apply Forall_app.
Qed.

Lemma chain_get_loop_spec l i : chain_get_loop l i = concat l !! i.
Proof.
  revert i. induction l as [|s l IH]; intros i; [done|]. cbn [chain_get_loop concat].
  destruct (Nat.ltb_spec i (length s)).
  - by rewrite lookup_app_l.
  - by rewrite lookup_app_r, IH by lia.
Qed.

(** Appending and prepending a slice is appending and prepending its bytes; the cached byte count, the slice limit and
    the absence of empty slices are kept, a full chain is left unchanged, and indexing reads the bytes in order. *)
Theorem chain_refines_bytes obj c i :
  chain_inv c ->
  (let '(ok, c') := chain_append obj c in chain_inv c' /\
     (if ok then chain_bytes c' = chain_bytes c ++ obj else c' = c /\ nof_slices c = max_slices c)) /\
  (let '(ok, c') := chain_prepend obj c in chain_inv c' /\
     (if ok then chain_bytes c' = obj ++ chain_bytes c else c' = c /\ nof_slices c = max_slices c)) /\
  chain_get c i = chain_bytes c !! i.
Proof.
  intros Hinv. split_and!.
  - pose proof (chain_append_spec obj c Hinv). destruct (chain_append obj c). tauto.
  - apply chain_prepend_spec, Hinv.
  - apply chain_get_loop_spec.
Qed.

Lemma chain_refines_bytes_witness :
  (let '(ok, c') := chain_append [4; 5] (Chain [[1; 2]; [3]] 3 4) in chain_inv c' /\
     (if ok then chain_bytes c' = [1; 2; 3; 4; 5] else c' = Chain [[1; 2]; [3]] 3 4 /\ 2%nat = 4%nat)) /\
  (let '(ok, c') := chain_prepend [4; 5] (Chain [[1; 2]; [3]] 3 4) in chain_inv c' /\
     (if ok then chain_bytes c' = [4; 5; 1; 2; 3] else c' = Chain [[1; 2]; [3]] 3 4 /\ 2%nat = 4%nat)) /\
  chain_get (Chain [[1; 2]; [3]] 3 4) 2 = Some 3.
Proof.
  apply (chain_refines_bytes [4; 5] (Chain [[1; 2]; [3]] 3 4) 2).
  split_and!; [unfold nof_slices; simpl; lia|reflexivity|repeat constructor; discriminate].
Defined.
