(* ===== verification/RlcSegments.v ===== *)
(** * SDU segments: storing, inventory and reassembly

    The set of received segments of one SDU, as the AM and UM receivers keep it
    ([std::set] ordered by segment offset), [store_segment], [update_segment_inventory] and the chaining of the
    payloads. Both entities contain the same code; [RlcRxAm] and [RlcRxUm] instantiate it. *)
From S2P Require Import Prelude ByteCursor RlcConfig ByteBufferChain.

(** [rlc_rx_am_sdu_segment] and [rlc_rx_um_sdu_segment] *)
Record segment := Seg { sg_si : rlc_si_field; sg_so : Z; sg_payload : list Z }.

Definition sg_len (s : segment) : Z := rd_length (sg_payload s).

(** [byte_buffer_slice::advance] *)
Definition advance (n : Z) (p : list Z) : list Z := drop (Z.to_nat n) p.

(** [std::set::insert] with the order [a.so < b.so]: an element with an equal key is kept. The position hint only affects
    the running time. *)
Fixpoint set_insert (x : segment) (l : list segment) : list segment :=
  match l with
  | [] => [x]
  | y :: l' =>
      if sg_so x <? sg_so y then x :: y :: l'
      else if sg_so x =? sg_so y then y :: l'
      else y :: set_insert x l'
  end.

(** The [while] loop of [store_segment]. [pre] holds the elements before the iterator, [l] those from it on. [None] is the
    [return false] of the function, [Some (l, new_segment)] the end of the loop. *)
Fixpoint store_loop (pre l : list segment) (new : segment) : option (list segment * segment) :=
  match l with
  | [] => Some (pre, new)
  | cur :: rest =>
      let cur_last_byte := u32 (sg_so cur + sg_len cur - 1) in
      let new_last_byte := u32 (sg_so new + sg_len new - 1) in
      if cur_last_byte <? sg_so new then store_loop (pre ++ [cur]) rest new
      else if sg_so cur <=? sg_so new then
        if new_last_byte <=? cur_last_byte then None
        else
          let payload := advance (u32 (cur_last_byte + 1 - sg_so new)) (sg_payload new) in
          store_loop (pre ++ [cur]) rest (Seg (sg_si new) (u16 (cur_last_byte + 1)) payload)
      else if new_last_byte <? sg_so cur then Some (pre ++ l, new)
      else if new_last_byte <? cur_last_byte then
        let cut_segment :=
          Seg (sg_si cur) (u16 (new_last_byte + 1)) (advance (u32 (new_last_byte + 1 - sg_so cur)) (sg_payload cur)) in
        Some (set_insert cut_segment (pre ++ rest), new)
      else store_loop pre rest new
  end.

Definition store_segment (segments : list segment) (new : segment) : bool * list segment :=
  match store_loop [] segments new with
  | None => (false, segments)
  | Some (l, new) => (true, set_insert new l)
  end.

(** [update_segment_inventory]: [(has_gap, fully_received)] *)
Fixpoint inventory_loop (next_byte : Z) (l : list segment) : bool * bool :=
  match l with
  | [] => (false, false)
  | segm :: rest =>
      if negb (sg_so segm =? next_byte) then (true, false)
      else match sg_si segm with
           | last_segment => (false, true)
           | _ => inventory_loop (u32 (next_byte + sg_len segm)) rest
           end
  end.

Definition segment_inventory (l : list segment) : bool * bool :=
  match l with [] => (false, false) | _ => inventory_loop 0 l end.

(** The chaining loop of [reassemble_sdu] *)
Fixpoint chain_segments (l : list segment) (sdu : byte_buffer_chain) : option byte_buffer_chain :=
  match l with
  | [] => Some sdu
  | segm :: rest =>
      let '(ok, sdu) := chain_append (sg_payload segm) sdu in
      if ok then chain_segments rest sdu else None
  end.

(** ** Specification

    A well-formed set is a sorted list of non-empty, disjoint byte ranges that start at or above [lo] and end at or below
    65536, the range of a 16 bit segment offset. *)
Definition sg_end (s : segment) : Z := sg_so s + sg_len s.

Fixpoint separated (lo : Z) (l : list segment) : Prop :=
  match l with
  | [] => True
  | s :: rest => lo <= sg_so s /\ 1 <= sg_len s /\ sg_end s <= 65536 /\ separated (sg_end s) rest
  end.

(** Byte [p] of the SDU is in the set. *)
Definition in_seg (s : segment) (p : Z) : Prop := sg_so s <= p < sg_end s.
Definition covered (l : list segment) (p : Z) : Prop := Exists (fun s => in_seg s p) l.

(** What [store_segment] computes on a well-formed set, as a structural recursion. *)
Fixpoint merge_segment (l : list segment) (new : segment) : option (list segment) :=
  match l with
  | [] => Some [new]
  | cur :: rest =>
      if sg_end cur <=? sg_so new then cons cur <$> merge_segment rest new
      else if sg_so cur <=? sg_so new then
        if sg_end new <=? sg_end cur then None
        else cons cur <$> merge_segment rest (Seg (sg_si new) (sg_end cur) (advance (sg_end cur - sg_so new) (sg_payload new)))
      else if sg_end new <=? sg_so cur then Some (new :: l)
      else if sg_end new <? sg_end cur then
        Some (new :: Seg (sg_si cur) (sg_end new) (advance (sg_end new - sg_so cur) (sg_payload cur)) :: rest)
      else merge_segment rest new
  end.

(** ** Lemmas *)

Lemma sg_len_nonneg s : 0 <= sg_len s. Proof. apply rd_length_nonneg. Qed.

Lemma rd_length_advance n p : 0 <= n <= rd_length p -> rd_length (advance n p) = rd_length p - n.
Proof. unfold rd_length, advance. intros. rewrite length_drop. lia. Qed.

Lemma set_insert_app x pre l :
  Forall (fun s => sg_so s < sg_so x) pre -> set_insert x (pre ++ l) = pre ++ set_insert x l.
Proof.
  induction 1 as [|y pre Hy _ IH]; [done|]. cbn [app set_insert].
  rewrite (proj2 (Z.ltb_ge _ _)), (proj2 (Z.eqb_neq _ _)), IH by lia. done.
Qed.

Lemma set_insert_front x lo l : separated lo l -> sg_so x < lo -> set_insert x l = x :: l.
Proof. destruct l as [|y l]; [done|]. intros (? & _) ?. cbn [set_insert]. by rewrite (proj2 (Z.ltb_lt _ _)) by lia. Qed.

Lemma separated_weaken lo lo' l : lo' <= lo -> separated lo l -> separated lo' l.
Proof. destruct l as [|s l]; [done|]. intros ? (? & ? & ? & ?). split_and!; [lia|done..]. Qed.

(** A segment that can be stored: non-empty and inside the range of the offset. *)
Definition seg_ok (s : segment) : Prop := 0 <= sg_so s /\ 1 <= sg_len s /\ sg_end s <= 65536.

Lemma store_loop_merge l : forall pre lo new,
  separated lo l -> 0 <= lo -> lo <= sg_so new -> seg_ok new -> Forall (fun s => sg_so s < lo) pre ->
  (let o := store_loop pre l new in
   match o with None => None | Some (l', new') => Some (set_insert new' l') end)
  = app pre <$> merge_segment l new.
Proof.
  induction l as [|cur rest IH]; intros pre lo new Hsep Hlo Hnew Hok Hpre; cbn [store_loop merge_segment].
  { cbn [fmap option_fmap option_map]. f_equal. rewrite <- (app_nil_r pre) at 1.
    apply set_insert_app. eapply Forall_impl; [done|]. intros; simpl in *; lia. }
  destruct Hsep as (H1 & H2 & H3 & Hsep), Hok as (K1 & K2 & K3). unfold sg_end in *.
  assert (Hpre' : Forall (fun s => sg_so s < sg_so cur + sg_len cur) (pre ++ [cur])).
  { apply Forall_app. split; [eapply Forall_impl; [done|]; simpl; intros; lia|]. constructor; [lia|constructor]. }
  rewrite (u32_eq (sg_so cur + _ - 1)), (u32_eq (sg_so new + _ - 1)), !Z.mod_small by lia.
  destruct (Z.ltb_spec (sg_so cur + sg_len cur - 1) (sg_so new)), (Z.leb_spec (sg_so cur + sg_len cur) (sg_so new)); try lia.
  { rewrite (IH _ (sg_so cur + sg_len cur)) by (unfold seg_ok, sg_end; auto with lia).
    destruct (merge_segment rest new); [|done]. cbn. by rewrite <- app_assoc. }
  destruct (Z.leb_spec (sg_so cur) (sg_so new)).
  { destruct (Z.leb_spec (sg_so new + sg_len new - 1) (sg_so cur + sg_len cur - 1)),
      (Z.leb_spec (sg_so new + sg_len new) (sg_so cur + sg_len cur)); try lia; [done|].
    rewrite (u32_eq (_ - _)), (u16_eq (_ + 1)), !Z.mod_small by lia.
    replace (sg_so cur + sg_len cur - 1 + 1) with (sg_so cur + sg_len cur) by lia.
    rewrite (IH _ (sg_so cur + sg_len cur)).
    - destruct (merge_segment rest _); [|done]. cbn. by rewrite <- app_assoc.
    - done.
    - lia.
    - simpl; lia.
    - unfold seg_ok, sg_end, sg_len in *; cbn [sg_so sg_payload]. rewrite rd_length_advance by lia. lia.
    - done. }
  destruct (Z.ltb_spec (sg_so new + sg_len new - 1) (sg_so cur)), (Z.leb_spec (sg_so new + sg_len new) (sg_so cur)); try lia.
  { cbn [fmap option_fmap option_map]. f_equal.
    rewrite set_insert_app by (eapply Forall_impl; [done|]; simpl; intros; lia). f_equal.
    apply (set_insert_front _ (sg_so cur)); [|lia]. repeat split; unfold sg_end; [lia..|done]. }
  destruct (Z.ltb_spec (sg_so new + sg_len new - 1) (sg_so cur + sg_len cur - 1)),
    (Z.ltb_spec (sg_so new + sg_len new) (sg_so cur + sg_len cur)); try lia.
  { rewrite (u32_eq (_ - _)), (u16_eq (_ + 1)), !Z.mod_small by lia.
    replace (sg_so new + sg_len new - 1 + 1) with (sg_so new + sg_len new) by lia.
    cbn [fmap option_fmap option_map]. f_equal.
    rewrite set_insert_app by (cbn [sg_so]; eapply Forall_impl; [done|]; simpl; intros; lia).
    rewrite (set_insert_front _ (sg_so cur + sg_len cur) rest) by (cbn [sg_so]; auto with lia).
    rewrite set_insert_app by (eapply Forall_impl; [done|]; simpl; intros; lia). f_equal.
    cbn [set_insert sg_so]. by rewrite (proj2 (Z.ltb_lt _ _)) by lia. }
  apply (IH _ lo); auto; [|repeat split; unfold sg_end; lia].
  eapply separated_weaken; [|done]. lia.
Qed.

Lemma store_segment_merge l new :
  separated 0 l -> seg_ok new ->
  store_segment l new = match merge_segment l new with None => (false, l) | Some l' => (true, l') end.
Proof.
  intros Hsep Hok. pose proof (store_loop_merge l [] 0 new Hsep) as H. unfold store_segment.
  cbv zeta in H. assert (E : app [] <$> merge_segment l new = merge_segment l new) by (by destruct (merge_segment l new)).
  rewrite E in H. rewrite <- H; [|lia|destruct Hok; lia|done|constructor].
  by destruct (store_loop [] l new) as [[? ?]|].
Qed.

(** ** Storing a segment *)

Lemma covered_nil p : ~ covered [] p.
Proof. intros H. by apply Exists_nil in H. Qed.

Lemma covered_cons s l p : covered (s :: l) p <-> in_seg s p \/ covered l p.
Proof. apply Exists_cons. Qed.

Lemma covered_separated lo l p : separated lo l -> covered l p -> lo <= p.
Proof.
  revert lo. induction l as [|s l IH]; intros lo Hsep H; [by apply Exists_nil in H|].
  destruct Hsep as (? & ? & ? & Hsep). apply covered_cons in H as [[? ?]|H]; [lia|].
  specialize (IH _ Hsep H). unfold sg_end in *. lia.
Qed.

Lemma seg_ok_advance si e new :
  seg_ok new -> sg_so new <= e < sg_end new -> seg_ok (Seg si e (advance (e - sg_so new) (sg_payload new))) /\
  sg_end (Seg si e (advance (e - sg_so new) (sg_payload new))) = sg_end new.
Proof.
  unfold seg_ok, sg_end, sg_len; cbn [sg_so sg_payload]. intros (? & ? & ?) ?.
  rewrite rd_length_advance by lia. lia.
Qed.

(** [merge_segment] keeps the set well-formed, adds exactly the positions of the new segment, and rejects it exactly when
    it brings nothing new. *)
Lemma merge_segment_spec l : forall lo new,
  separated lo l -> 0 <= lo -> lo <= sg_so new -> seg_ok new ->
  match merge_segment l new with
  | Some l' => separated lo l' /\ (forall p, covered l' p <-> covered l p \/ in_seg new p) /\
               (exists p, in_seg new p /\ ~ covered l p)
  | None => forall p, in_seg new p -> covered l p
  end.
Proof.
  induction l as [|cur rest IH]; intros lo new Hsep Hlo Hnew Hok.
  { cbn. destruct Hok as (? & ? & ?). split_and!; [lia..|done| |].
    - intros p. rewrite covered_cons. pose proof (covered_nil p). tauto.
    - exists (sg_so new). split; [unfold in_seg, sg_end; lia|apply covered_nil]. }
  destruct Hsep as (H1 & H2 & H3 & Hsep). pose proof (sg_len_nonneg cur). cbn [merge_segment].
  assert (Hend : sg_end cur = sg_so cur + sg_len cur) by done.
  assert (Kend : sg_end new = sg_so new + sg_len new) by done.
  pose proof Hok as (K1 & K2 & K3).
  assert (Hskip : forall n', merge_segment rest n' = merge_segment rest n' ->
     sg_end cur <= sg_so n' -> seg_ok n' ->
     (forall p, in_seg new p <-> in_seg n' p \/ (in_seg cur p /\ in_seg new p)) ->
     match cons cur <$> merge_segment rest n' with
     | Some l' => separated lo l' /\ (forall p, covered l' p <-> covered (cur :: rest) p \/ in_seg new p) /\
                  (exists p, in_seg new p /\ ~ covered (cur :: rest) p)
     | None => forall p, in_seg new p -> covered (cur :: rest) p
     end).
  { intros n' _ Hn' Hok' Hsplit. specialize (IH (sg_end cur) n' Hsep).
    destruct (merge_segment rest n') as [l'|]; cbn.
    - destruct IH as (S1 & S2 & p & S3 & S4); [lia..|done|]. split_and!; [done..| |].
      + intros q. rewrite !covered_cons, S2. specialize (Hsplit q). tauto.
      + exists p. split; [apply Hsplit; auto|]. rewrite covered_cons. intros [[? ?]|?]; [|done].
        destruct S3. lia.
    - intros p Hp. rewrite covered_cons. apply Hsplit in Hp as [Hp|[Hp _]]; [|auto]. right. apply IH; auto with lia. }
  destruct (Z.leb_spec (sg_end cur) (sg_so new)).
  { apply Hskip; auto. intros p. unfold in_seg. lia. }
  destruct (Z.leb_spec (sg_so cur) (sg_so new)).
  { destruct (Z.leb_spec (sg_end new) (sg_end cur)).
    - intros p [? ?]. apply covered_cons. left. split; lia.
    - destruct (seg_ok_advance (sg_si new) (sg_end cur) new) as [G1 G2]; [done|lia|].
      apply Hskip; auto; [simpl; lia|]. intros p. unfold in_seg. rewrite G2. cbn [sg_so]. lia. }
  destruct (Z.leb_spec (sg_end new) (sg_so cur)).
  { split_and!.
    - cbn [separated]. split_and!; (lia || done).
    - intros p. rewrite !covered_cons. tauto.
    - exists (sg_so new). split; [split; lia|]. rewrite covered_cons. intros [[? ?]|Hc]; [lia|].
      apply (covered_separated (sg_end cur)) in Hc; [lia|done]. }
  assert (Hfirst : ~ covered (cur :: rest) (sg_so new)).
  { rewrite covered_cons. intros [[? ?]|Hc]; [lia|]. apply (covered_separated (sg_end cur)) in Hc; [lia|done]. }
  destruct (Z.ltb_spec (sg_end new) (sg_end cur)).
  { destruct (seg_ok_advance (sg_si cur) (sg_end new) cur) as [G1 G2]; [split_and!; lia|lia|].
    split_and!.
    - cbn [separated]. rewrite G2. destruct G1 as (? & ? & ?). cbn [sg_so] in *. split_and!; (lia || done).
    - intros p. rewrite !covered_cons. unfold in_seg at 2. rewrite G2. cbn [sg_so]. unfold in_seg. intuition lia.
    - exists (sg_so new). split; [split; lia|done]. }
  specialize (IH lo new (separated_weaken (sg_end cur) lo _ ltac:(lia) Hsep) Hlo Hnew Hok).
  destruct (merge_segment rest new) as [l'|].
  - destruct IH as (S1 & S2 & _). split_and!; [done| |exists (sg_so new); split; [split; lia|done]].
    intros p. rewrite covered_cons, S2. unfold in_seg. split; [tauto|]. intros [[?|?]|?]; [right; lia|tauto..].
  - exfalso. apply Hfirst, covered_cons. right. apply IH. split; lia.
Qed.

(** ** Segments of one SDU *)

Definition slice_of (sdu : list Z) (s : segment) : Prop :=
  0 <= sg_so s /\ 1 <= sg_len s /\ sg_end s <= rd_length sdu /\
  sg_payload s = take (Z.to_nat (sg_len s)) (drop (Z.to_nat (sg_so s)) sdu) /\
  (sg_si s = last_segment <-> sg_end s = rd_length sdu).

Lemma slice_of_advance sdu e s :
  slice_of sdu s -> sg_so s <= e < sg_end s -> slice_of sdu (Seg (sg_si s) e (advance (e - sg_so s) (sg_payload s))).
Proof.
  intros (H1 & H2 & H3 & H4 & H5) He.
  assert (Hlen : rd_length (advance (e - sg_so s) (sg_payload s)) = sg_end s - e).
  { unfold sg_end, sg_len in *. rewrite rd_length_advance by lia. lia. }
  unfold slice_of, sg_end, sg_len in *; cbn [sg_so sg_payload sg_si]. rewrite Hlen. split_and!; [lia..| |].
  - rewrite H4 at 1. unfold advance. rewrite skipn_firstn_comm, drop_drop. f_equal; [lia|f_equal; lia].
  - rewrite H5. lia.
Qed.

Lemma merge_segment_slices sdu l : forall new l',
  Forall (slice_of sdu) l -> slice_of sdu new -> merge_segment l new = Some l' -> Forall (slice_of sdu) l'.
Proof.
  induction l as [|cur rest IH]; intros new l' Hl Hnew; cbn [merge_segment].
  { intros [= <-]. auto. }
  apply Forall_cons in Hl as [Hcur Hrest].
  destruct (Z.leb_spec (sg_end cur) (sg_so new)).
  { destruct (merge_segment rest new) eqn:E; [|done]. intros [= <-]. constructor; eauto. }
  destruct (Z.leb_spec (sg_so cur) (sg_so new)).
  { destruct (Z.leb_spec (sg_end new) (sg_end cur)); [done|].
    destruct (merge_segment rest _) eqn:E; [|done]. intros [= <-]. constructor; [done|].
    eapply IH; [done| |done]. apply slice_of_advance; [done|lia]. }
  destruct (Z.leb_spec (sg_end new) (sg_so cur)); [intros [= <-]; auto|].
  destruct (Z.ltb_spec (sg_end new) (sg_end cur)); [|eauto]. intros [= <-]. constructor; [done|]. constructor; [|done].
  apply slice_of_advance; [done|lia].
Qed.

Lemma slice_of_seg_ok sdu s : rd_length sdu <= 65536 -> slice_of sdu s -> seg_ok s.
Proof. intros ? (? & ? & ? & _). split_and!; lia. Qed.

(** ** Inventory *)

(** The bytes of the set from position [next] on, in order. *)
Definition payloads (l : list segment) : list Z := concat (sg_payload <$> l).

Lemma inventory_loop_spec sdu l : forall next,
  rd_length sdu <= 65536 -> separated next l -> Forall (slice_of sdu) l -> 0 <= next -> next < rd_length sdu ->
  let '(gap, full) := inventory_loop next l in
  (full = true -> payloads l = drop (Z.to_nat next) sdu) /\
  (full = true <-> forall p, next <= p < rd_length sdu -> covered l p) /\
  (gap = true <-> exists p q, next <= p < q /\ ~ covered l p /\ covered l q).
Proof.
  induction l as [|s l IH]; intros next Hlen Hsep Hl H0 Hlt; cbn [inventory_loop].
  { split_and!; [done| |].
    - split; [done|]. intros H. specialize (H next ltac:(lia)). by apply covered_nil in H.
    - split; [done|]. intros (p & q & _ & _ & H). by apply covered_nil in H. }
  destruct Hsep as (S1 & S2 & S3 & Hsep). apply Forall_cons in Hl as [Hs Hl].
  pose proof Hs as (P1 & P2 & P3 & P4 & P5).
  assert (Hend : sg_end s = sg_so s + sg_len s) by done.
  destruct (Z.eqb_spec (sg_so s) next) as [<-|Hne]; cbn [negb].
  2: { assert (~ covered (s :: l) next).
       { rewrite covered_cons. intros [[? ?]|Hc]; [lia|]. apply (covered_separated (sg_end s)) in Hc; [lia|done]. }
       split_and!; [done| |].
       - split; [done|]. intros H'. destruct H. apply H'. lia.
       - split; [|done]. intros _. exists next, (sg_so s). split_and!; [lia..|done|].
         apply covered_cons. left. split; lia. }
  assert (Hnext : forall r, payloads l = drop (Z.to_nat (sg_end s)) sdu -> r = payloads (s :: l) ->
            r = drop (Z.to_nat (sg_so s)) sdu).
  { intros r E ->. unfold payloads in *. cbn [fmap list_fmap concat]. rewrite E, P4.
    rewrite <- (take_drop (Z.to_nat (sg_len s)) (drop (Z.to_nat (sg_so s)) sdu)) at 2. rewrite drop_drop.
    f_equal. f_equal. lia. }
  destruct (decide (sg_end s = rd_length sdu)) as [Hlast|Hnl].
  - (* the last segment: nothing can follow *)
    rewrite (proj2 P5 Hlast).
    assert (l = []) as ->.
    { destruct l as [|s' l]; [done|]. destruct Hsep as (Q1 & Q2 & _). apply Forall_cons in Hl as [(_ & _ & Q3 & _) _].
      unfold sg_end in *. lia. }
    split_and!.
    + intros _. apply Hnext; [|done]. unfold payloads; simpl. rewrite Hlast. unfold rd_length.
      by rewrite Nat2Z.id, drop_all.
    + split; [|done]. intros _ p ?. apply covered_cons. left. split; lia.
    + split; [done|]. intros (p & q & ? & Hnp & Hq). rewrite covered_cons in *.
      destruct Hq as [[? ?]|Hq]; [|by apply covered_nil in Hq]. destruct Hnp. left. split; lia.
  - assert (Hif : forall A (a b : A), match sg_si s with last_segment => a | _ => b end = b).
    { intros A a b. destruct (sg_si s); [done..|by destruct (Hnl (proj1 P5 eq_refl))|done]. }
    rewrite Hif, u32_eq, Z.mod_small by lia.
    specialize (IH (sg_so s + sg_len s) Hlen Hsep Hl). destruct (inventory_loop _ l) as [gap full].
    destruct IH as (I1 & I2 & I3); [lia..|]. split_and!.
    + intros Hf. apply Hnext; [|done]. by apply I1.
    + rewrite I2. split.
      * intros H p Hp. apply covered_cons. destruct (decide (p < sg_end s)); [left; split; lia|right; apply H; lia].
      * intros H p Hp. specialize (H p ltac:(lia)). apply covered_cons in H as [[? ?]|?]; [lia|done].
    + rewrite I3. split; intros (p & q & ? & Hnp & Hq).
      * exists p, q. rewrite !covered_cons. split_and!; [lia..| |auto]. intros [[? ?]|?]; [lia|done].
      * exists p, q. rewrite covered_cons in *. assert (sg_end s <= p).
        { destruct (decide (sg_end s <= p)); [done|]. destruct Hnp. left. split; lia. }
        split_and!; [lia..|tauto|]. destruct Hq as [[? ?]|?]; [lia|done].
Qed.

Lemma merge_segment_length l : forall new l', merge_segment l new = Some l' -> (length l' <= S (length l))%nat.
Proof.
  induction l as [|cur rest IH]; intros new l'; cbn [merge_segment]; [intros [= <-]; done|].
  assert (Hskip : forall n', cons cur <$> merge_segment rest n' = Some l' -> (length l' <= S (length (cur :: rest)))%nat).
  { intros n' E. destruct (merge_segment rest n') as [l1|] eqn:E1; [|done]. injection E as <-.
    specialize (IH _ _ E1). simpl. lia. }
  destruct (sg_end cur <=? sg_so new); [apply Hskip|]. destruct (sg_so cur <=? sg_so new).
  { destruct (sg_end new <=? sg_end cur); [done|]. apply Hskip. }
  destruct (sg_end new <=? sg_so cur); [intros [= <-]; done|].
  destruct (sg_end new <? sg_end cur); [intros [= <-]; simpl; lia|]. intros E. specialize (IH _ _ E). simpl. lia.
Qed.

(** ** Any sequence of segments *)

Definition store_all (segs : list segment) : list segment := foldl (fun l s => (store_segment l s).2) [] segs.

Lemma store_segment_spec sdu l new :
  rd_length sdu <= 65536 -> separated 0 l -> Forall (slice_of sdu) l -> slice_of sdu new ->
  let '(stored, l') := store_segment l new in
  separated 0 l' /\ Forall (slice_of sdu) l' /\ (forall p, covered l' p <-> covered l p \/ in_seg new p) /\
  (stored = true <-> exists p, in_seg new p /\ ~ covered l p).
Proof.
  intros Hlen Hsep Hl Hnew. pose proof (slice_of_seg_ok sdu new Hlen Hnew) as Hok. pose proof Hok as (K1 & K2 & K3).
  rewrite store_segment_merge by done.
  pose proof (merge_segment_spec l 0 new Hsep ltac:(lia) ltac:(lia) Hok) as H.
  destruct (merge_segment l new) as [l'|] eqn:E.
  - destruct H as (S1 & S2 & S3). split_and!; [done|by eapply merge_segment_slices|done|done].
  - split_and!; [done..|naive_solver|]. split; [done|]. naive_solver.
Qed.

Lemma store_all_spec sdu segs :
  rd_length sdu <= 65536 -> Forall (slice_of sdu) segs ->
  separated 0 (store_all segs) /\ Forall (slice_of sdu) (store_all segs) /\
  (forall p, covered (store_all segs) p <-> covered segs p).
Proof.
  intros Hlen. induction segs as [|new segs IH] using rev_ind; intros Hsegs.
  { split_and!; [done|constructor|done]. }
  apply Forall_app in Hsegs as [Hsegs Hnew]. apply Forall_cons in Hnew as [Hnew _].
  destruct (IH Hsegs) as (S1 & S2 & S3). unfold store_all in *. rewrite foldl_snoc.
  pose proof (store_segment_spec sdu _ new Hlen S1 S2 Hnew) as H. destruct (store_segment _ new) as [stored l'].
  destruct H as (T1 & T2 & T3 & _). split_and!; [done..|]. intros p. cbn [snd]. rewrite T3, S3.
  unfold covered. rewrite Exists_app, Exists_cons, Exists_nil. tauto.
Qed.

Lemma segment_inventory_eq l : segment_inventory l = inventory_loop 0 l.
Proof. by destruct l. Qed.

Lemma chain_segments_spec l c :
  chain_inv c -> (nof_slices c + length l <= max_slices c)%nat ->
  exists c', chain_segments l c = Some c' /\ chain_inv c' /\ chain_bytes c' = chain_bytes c ++ payloads l.
Proof.
  revert c. induction l as [|s l IH]; intros c Hinv Hn.
  { exists c. split_and!; [done..|]. unfold payloads; simpl. by rewrite app_nil_r. }
  cbn [chain_segments length] in *.
  pose proof (chain_append_ok (sg_payload s) c Hinv ltac:(lia)) as Hok.
  pose proof (chain_append_spec (sg_payload s) c Hinv) as H.
  assert (Hslices : (nof_slices (chain_append (sg_payload s) c).2 <= nof_slices c + 1)%nat).
  { unfold chain_append, nof_slices in *. destruct (rd_empty _); simpl; [lia|].
    destruct (chain_full c); simpl; [lia|]. rewrite length_app. simpl. lia. }
  destruct (chain_append (sg_payload s) c) as [ok c']. cbn [fst snd] in *. subst ok. destruct H as (Hinv' & Hmax & Hb).
  destruct (IH c' Hinv') as (c'' & -> & ? & E); [lia|]. exists c''. split_and!; [done..|].
  rewrite E, Hb, <- app_assoc. done.
Qed.

(** What the receivers know about the set of segments of the SDU [sdu]. *)
Definition segments_ok (sdu : list Z) (l : list segment) : Prop := separated 0 l /\ Forall (slice_of sdu) l.

(** Storing one more segment of the same SDU. *)
Lemma store_segments_ok sdu l new :
  1 <= rd_length sdu <= 65536 -> segments_ok sdu l -> slice_of sdu new ->
  let '(stored, l') := store_segment l new in
  segments_ok sdu l' /\ (length l' <= S (length l))%nat /\ (stored = true -> l' <> []) /\
  (stored = false -> l' = l) /\
  (stored = true <-> exists p, in_seg new p /\ ~ covered l p) /\ (forall p, covered l' p <-> covered l p \/ in_seg new p).
Proof.
  intros Hlen [Hsep Hl] Hnew. pose proof (store_segment_spec sdu l new ltac:(lia) Hsep Hl Hnew) as H.
  pose proof (slice_of_seg_ok sdu new ltac:(lia) Hnew) as Hok. rewrite store_segment_merge in * by done.
  pose proof (merge_segment_length l new) as Hlen'.
  destruct (merge_segment l new) as [l'|] eqn:E; destruct H as (H1 & H2 & H3 & H4).
  - split_and!; [done|by apply Hlen'| |done|done|done]. intros _ ->.
    destruct (H3 (sg_so new)) as [_ H3']. apply (covered_nil (sg_so new)), H3'. right.
    destruct Hok as (? & ? & _). unfold in_seg, sg_end. lia.
  - split_and!; [done|lia|done|done|done|done].
Qed.

(** A complete set chains back to the SDU. *)
Lemma chain_complete sdu l max :
  1 <= rd_length sdu <= 65536 -> segments_ok sdu l -> (segment_inventory l).2 = true ->
  match chain_segments l (Chain [] 0 max) with
  | Some c => chain_bytes c = sdu
  | None => (max < length l)%nat
  end.
Proof.
  intros Hlen [Hsep Hl] Hf. rewrite segment_inventory_eq in Hf.
  pose proof (inventory_loop_spec sdu l 0 ltac:(lia) Hsep Hl ltac:(lia) ltac:(lia)) as H.
  destruct (inventory_loop 0 l) as [gap full]. cbn in Hf. subst full. destruct H as (Hp & _). specialize (Hp eq_refl).
  assert (Hb : forall l c c', chain_segments l c = Some c' -> chain_inv c -> chain_bytes c' = chain_bytes c ++ payloads l).
  { clear. induction l as [|s l IH]; intros c c'; cbn [chain_segments].
    - intros [= <-] _. unfold payloads. simpl. by rewrite app_nil_r.
    - pose proof (chain_append_spec (sg_payload s) c) as Ha. destruct (chain_append (sg_payload s) c) as [ok c1].
      intros E Hi. destruct ok; [|done]. destruct (Ha Hi) as (Hi1 & _ & Hb). rewrite (IH _ _ E Hi1), Hb.
      unfold payloads. simpl. by rewrite <- app_assoc. }
  assert (Hi : chain_inv (Chain [] 0 max)) by (split_and!; [unfold nof_slices; simpl; lia|done|constructor]).
  destruct (chain_segments l _) as [c|] eqn:E.
  - rewrite (Hb _ _ _ E Hi), Hp. done.
  - destruct (decide (max < length l)%nat); [done|].
    destruct (chain_segments_spec l (Chain [] 0 max) Hi) as (c & E' & _); [unfold nof_slices; simpl; lia|congruence].
Qed.

Lemma inventory_complete sdu l :
  1 <= rd_length sdu <= 65536 -> segments_ok sdu l ->
  (segment_inventory l).2 = true <-> forall p, 0 <= p < rd_length sdu -> covered l p.
Proof.
  intros Hlen [Hsep Hl]. rewrite segment_inventory_eq.
  pose proof (inventory_loop_spec sdu l 0 ltac:(lia) Hsep Hl ltac:(lia) ltac:(lia)) as H.
  destruct (inventory_loop 0 l) as [gap full]. by destruct H as (_ & H & _).
Qed.

Lemma segments_ok_nil sdu : segments_ok sdu []. Proof. by split. Qed.

(** ** The theorem *)

(** C21. Reassembly is correct for every order of arrival: after storing any sequence of (possibly duplicate or overlapping)
    segments of an SDU, the inventory reports the SDU as fully received exactly when every byte has arrived, and a gap
    exactly when a byte is missing below one that has arrived; once fully received, chaining the stored segments gives back
    the SDU. *)
Theorem reassembly_correct sdu segs max :
  1 <= rd_length sdu <= 65536 -> Forall (slice_of sdu) segs ->
  let l := store_all segs in
  let '(has_gap, fully_received) := segment_inventory l in
  (fully_received = true <-> forall p, 0 <= p < rd_length sdu -> covered segs p) /\
  (has_gap = true <-> exists p q, 0 <= p < q /\ ~ covered segs p /\ covered segs q) /\
  (fully_received = true -> (length l <= max)%nat ->
   exists c, chain_segments l (Chain [] 0 max) = Some c /\ chain_bytes c = sdu /\ chain_length c = rd_length sdu).
Proof.
  intros Hlen Hsegs l. destruct (store_all_spec sdu segs ltac:(lia) Hsegs) as (S1 & S2 & S3). fold l in S1, S2, S3.
  rewrite segment_inventory_eq. pose proof (inventory_loop_spec sdu l 0 ltac:(lia) S1 S2 ltac:(lia) ltac:(lia)) as H.
  destruct (inventory_loop 0 l) as [gap full]. destruct H as (I1 & I2 & I3). split_and!.
  - rewrite I2. by setoid_rewrite S3.
  - rewrite I3. by setoid_rewrite S3.
  - intros Hf Hmax. destruct (chain_segments_spec l (Chain [] 0 max)) as (c & E & Hinv & Hb).
    + split_and!; [unfold nof_slices; simpl; lia|done|constructor].
    + unfold nof_slices. simpl. lia.
    + exists c. specialize (I1 Hf). cbn in Hb. rewrite I1 in Hb. split_and!; [done..|].
      destruct Hinv as (_ & Hc & _). unfold chain_length. by rewrite Hc, Hb.
Qed.

Definition witness_sdu : list Z := [10; 11; 12; 13; 14; 15].
Definition witness_segments : list segment :=
  [Seg last_segment 4 [14; 15]; Seg middle_segment 1 [11; 12; 13; 14]; Seg first_segment 0 [10; 11; 12]].

Lemma reassembly_correct_witness :
  let l := store_all witness_segments in
  let '(has_gap, fully_received) := segment_inventory l in
  (fully_received = true <-> forall p, 0 <= p < rd_length witness_sdu -> covered witness_segments p) /\
  (has_gap = true <-> exists p q, 0 <= p < q /\ ~ covered witness_segments p /\ covered witness_segments q) /\
  (fully_received = true -> (length l <= 8)%nat ->
   exists c, chain_segments l (Chain [] 0 8) = Some c /\ chain_bytes c = witness_sdu /\ chain_length c = rd_length witness_sdu).
Proof.
  apply (reassembly_correct witness_sdu witness_segments 8); [vm_compute; split; congruence|].
  repeat constructor; try (vm_compute; congruence).
Defined.

Example witness_reassembled :
  segment_inventory (store_all witness_segments) = (false, true) /\
  payloads (store_all witness_segments) = witness_sdu.
Proof. split; vm_compute; reflexivity. Qed.
