(* ===== verification/SegmentedCircularMap.v ===== *)
(** * The segmented circular map ([include/ocudu/adt/segmented_circular_map.h])

    A direct-mapped table of [map_size] slots, split into segments that are taken from a shared pool when the first
    element of a segment is stored and returned when its last element goes. Keys are [uint32_t]; both sizes are powers of
    two, as the map and its pool assert. The pool is represented by the number of its free segments, which every operation
    that may take or return a segment threads through. *)
From S2P Require Import Prelude.

(** [std::optional<kv_obj<K, V>>] *)
Abbreviation slot V := (option (Z * V)).

Section map.
Context {V : Type}.

(** [detail::segment_entry]: [None] is the empty span of a segment that is not acquired. *)
Record segment_entry := Entry { en_segment : option (list (slot V)); en_count : Z }.

Record segmented_circular_map := Map {
  seg_size : Z;
  seg_shift : Z;
  map_size : Z;
  entries : list segment_entry;
  elem_count : Z
}.

(** [compute_seg_shift]: [__builtin_ctzll] *)
Definition compute_seg_shift (seg_sz : Z) : Z := ctz seg_sz.

(** The constructor. *)
Definition map_new (size segment_size : Z) : segmented_circular_map :=
  Map segment_size (compute_seg_shift segment_size) size
    (replicate (Z.to_nat ((size + segment_size - 1) / segment_size)) (Entry None 0)) 0.

Definition get_flat_idx (m : segmented_circular_map) (key : Z) : Z := Z.land key (map_size m - 1).
Definition get_primary_idx (m : segmented_circular_map) (flat : Z) : Z := Z.shiftr flat (seg_shift m).
Definition get_slot_idx (m : segmented_circular_map) (flat : Z) : Z := Z.land flat (seg_size m - 1).

(** [entries[p].segment[s]]: [None] when the segment is empty or the slot is not occupied. *)
Definition slot_at (m : segmented_circular_map) (p s : nat) : slot V :=
  en ← entries m !! p; seg ← en_segment en; mjoin (seg !! s).

Definition contains (m : segmented_circular_map) (key : Z) : bool :=
  let flat := get_flat_idx m key in
  let p := Z.to_nat (get_primary_idx m flat) in
  let s := Z.to_nat (get_slot_idx m flat) in
  match slot_at m p s with Some (k, _) => k =? key | None => false end.

(** [map_segment_pool_interface::get_segment]: a segment of empty slots *)
Definition get_segment (sz : Z) (pool : nat) : option (list (slot V)) * nat :=
  match pool with O => (None, O) | S pool => (Some (replicate (Z.to_nat sz) None), pool) end.

Definition set_entry (m : segmented_circular_map) (p : nat) (en : segment_entry) (d : Z) : segmented_circular_map :=
  Map (seg_size m) (seg_shift m) (map_size m) (<[p := en]> (entries m)) (elem_count m + d).

(** [insert(K key, V&& obj)]; [emplace] and the other overload have the same body. *)
Definition insert (m : segmented_circular_map) (pool : nat) (key : Z) (obj : V)
  : bool * segmented_circular_map * nat :=
  let flat := get_flat_idx m key in
  let p := Z.to_nat (get_primary_idx m flat) in
  let s := Z.to_nat (get_slot_idx m flat) in
  match entries m !! p with
  | None => (false, m, pool)
  | Some (Entry None c) =>
      match get_segment (seg_size m) pool with
      | (None, pool) => (false, m, pool)
      | (Some seg, pool) => (true, set_entry m p (Entry (Some (<[s := Some (key, obj)]> seg)) (c + 1)) 1, pool)
      end
  | Some (Entry (Some seg) c) =>
      match seg !! s with
      | Some None => (true, set_entry m p (Entry (Some (<[s := Some (key, obj)]> seg)) (c + 1)) 1, pool)
      | _ => (false, m, pool)
      end
  end.

(** [erase(K key)] with [maybe_return_segment] *)
Definition erase (m : segmented_circular_map) (pool : nat) (key : Z) : bool * segmented_circular_map * nat :=
  if negb (contains m key) then (false, m, pool) else
  let flat := get_flat_idx m key in
  let p := Z.to_nat (get_primary_idx m flat) in
  let s := Z.to_nat (get_slot_idx m flat) in
  match entries m !! p with
  | Some (Entry (Some seg) c) =>
      if c - 1 =? 0 then (true, set_entry m p (Entry None 0) (-1), S pool)
      else (true, set_entry m p (Entry (Some (<[s := None]> seg)) (c - 1)) (-1), pool)
  | _ => (false, m, pool)
  end.

(** [overwrite(K key, V&& obj)] *)
Definition overwrite (m : segmented_circular_map) (pool : nat) (key : Z) (obj : V)
  : bool * segmented_circular_map * nat :=
  let flat := get_flat_idx m key in
  let p := Z.to_nat (get_primary_idx m flat) in
  let s := Z.to_nat (get_slot_idx m flat) in
  let '(m, pool) :=
    match slot_at m p s with
    | Some (k, _) => let '(_, m, pool) := erase m pool k in (m, pool)
    | None => (m, pool)
    end in
  insert m pool key obj.

(** [operator[]]: the assertion fails for a key that is not contained. *)
Definition map_get (m : segmented_circular_map) (key : Z) : option V :=
  if contains m key then
    let flat := get_flat_idx m key in
    snd <$> slot_at m (Z.to_nat (get_primary_idx m flat)) (Z.to_nat (get_slot_idx m flat))
  else None.

(** Assignment through the reference [operator[]] returns. *)
Definition map_put (m : segmented_circular_map) (key : Z) (v : V) : option segmented_circular_map :=
  if contains m key then
    let flat := get_flat_idx m key in
    let p := Z.to_nat (get_primary_idx m flat) in
    let s := Z.to_nat (get_slot_idx m flat) in
    match entries m !! p with
    | Some (Entry (Some seg) c) => Some (set_entry m p (Entry (Some (<[s := Some (key, v)]> seg)) c) 0)
    | _ => None
    end
  else None.

(** [clear]: returns every segment *)
Definition allocated (m : segmented_circular_map) : nat :=
  length (filter (fun en => is_Some (en_segment en)) (entries m)).

Definition clear (m : segmented_circular_map) (pool : nat) : segmented_circular_map * nat :=
  (Map (seg_size m) (seg_shift m) (map_size m) ((fun _ => Entry None 0) <$> entries m) 0, (pool + allocated m)%nat).

Definition size (m : segmented_circular_map) : Z := elem_count m.
Definition empty (m : segmented_circular_map) : bool := elem_count m =? 0.
Definition full (m : segmented_circular_map) : bool := elem_count m =? map_size m.

Definition has_space (m : segmented_circular_map) (key : Z) : bool :=
  let flat := get_flat_idx m key in
  match slot_at m (Z.to_nat (get_primary_idx m flat)) (Z.to_nat (get_slot_idx m flat)) with
  | Some _ => false | None => true
  end.

End map.

Arguments segment_entry : clear implicits.
Arguments segmented_circular_map : clear implicits.

(** ** Invariant and abstraction *)
Section facts.
Context {V : Type}.
Implicit Types (m : segmented_circular_map V) (en : segment_entry V).

Definition slot_count (o : slot V) : nat := match o with Some _ => 1 | None => 0 end.
Definition occupied (seg : list (slot V)) : nat := sum_list_with slot_count seg.

Definition entry_inv (sz : Z) en : Prop :=
  match en_segment en with
  | None => en_count en = 0
  | Some seg => length seg = Z.to_nat sz /\ en_count en = Z.of_nat (occupied seg) /\ (0 < occupied seg)%nat
  end.

(** The position of a key: entry and slot. *)
Definition pos m (key : Z) : nat * nat :=
  (Z.to_nat (key mod map_size m / seg_size m), Z.to_nat (key mod map_size m mod seg_size m)).

Definition map_inv m : Prop :=
  (exists a b, 0 <= a /\ 0 <= b /\ map_size m = 2 ^ a /\ seg_size m = 2 ^ b /\ seg_shift m = b) /\
  length (entries m) = Z.to_nat ((map_size m + seg_size m - 1) / seg_size m) /\
  Forall (entry_inv (seg_size m)) (entries m) /\
  elem_count m = Z.of_nat (sum_list_with (fun en => Z.to_nat (en_count en)) (entries m)) /\
  (forall p s k v, slot_at m p s = Some (k, v) -> 0 <= k /\ pos m k = (p, s)).

(** The map as a partial function on keys. *)
Definition lookup_key m (key : Z) : option V :=
  match slot_at m (pos m key).1 (pos m key).2 with Some (k, v) => if k =? key then Some v else None | None => None end.

Lemma flat_idx m key : map_inv m -> 0 <= key ->
  get_flat_idx m key = key mod map_size m /\
  (Z.to_nat (get_primary_idx m (get_flat_idx m key)), Z.to_nat (get_slot_idx m (get_flat_idx m key))) = pos m key.
Proof.
  intros ((a & b & Ha & Hb & Ea & Eb & Es) & _) Hk.
  assert (E : get_flat_idx m key = key mod map_size m).
  { unfold get_flat_idx. rewrite Ea. by apply land_low. }
  split; [done|]. unfold get_primary_idx, get_slot_idx, pos. rewrite E, Es, Z.shiftr_div_pow2, Eb by done.
  by rewrite (land_low b) by done.
Qed.

Lemma pos_bounds m key : map_inv m -> 0 <= key ->
  ((pos m key).1 < length (entries m))%nat /\ ((pos m key).2 < Z.to_nat (seg_size m))%nat.
Proof.
  intros ((a & b & Ha & Hb & Ea & Eb & Es) & Hlen & _) Hk. rewrite Hlen. unfold pos; cbn [fst snd].
  assert (0 < map_size m) by (rewrite Ea; apply Z.pow_pos_nonneg; lia).
  assert (0 < seg_size m) by (rewrite Eb; apply Z.pow_pos_nonneg; lia).
  pose proof (Z.mod_pos_bound key (map_size m)). pose proof (Z.mod_pos_bound (key mod map_size m) (seg_size m)).
  split; [|lia]. apply Z2Nat.inj_lt; [apply Z.div_pos; lia|apply Z.div_pos; lia|].
  apply Z.div_lt_upper_bound; [lia|].
  pose proof (Z.mul_div_le (map_size m + seg_size m - 1) (seg_size m)).
  pose proof (Z.div_mod (map_size m + seg_size m - 1) (seg_size m)).
  pose proof (Z.mod_pos_bound (map_size m + seg_size m - 1) (seg_size m)). lia.
Qed.

Lemma contains_lookup m key : map_inv m -> 0 <= key -> contains m key = bool_decide (is_Some (lookup_key m key)).
Proof.
  intros Hinv Hk. destruct (flat_idx m key Hinv Hk) as (_ & E). unfold contains, lookup_key. cbv zeta.
  rewrite <- E; cbn [fst snd]. destruct (slot_at _ _ _) as [[k v]|]; [destruct (k =? key)|];
    symmetry; (apply bool_decide_eq_true || apply bool_decide_eq_false); [done|by intros []|by intros []].
Qed.

Lemma sum_list_with_insert {A} (f : A -> nat) l i x y :
  l !! i = Some x -> (sum_list_with f (<[i := y]> l) + f x = sum_list_with f l + f y)%nat.
Proof.
  revert i. induction l as [|z l IH]; intros [|i] H; simplify_eq/=; [lia|]. specialize (IH i H). lia.
Qed.

Lemma occupied_insert (seg : list (slot V)) s o x :
  seg !! s = Some o -> (occupied (<[s := x]> seg) + slot_count o = occupied seg + slot_count x)%nat.
Proof. apply sum_list_with_insert. Qed.

Lemma occupied_replicate n : occupied (replicate n None) = 0%nat.
Proof. unfold occupied. by induction n. Qed.

Lemma slot_at_set_entry m p q s en d :
  slot_at (set_entry m p en d) q s =
  if decide (p = q /\ (p < length (entries m))%nat) then seg ← en_segment en; mjoin (seg !! s) else slot_at m q s.
Proof.
  unfold slot_at, set_entry; cbn [entries]. destruct (decide (p = q)) as [<-|Hne].
  - destruct (decide (p < length (entries m))%nat).
    + rewrite decide_True by done. by rewrite list_lookup_insert_eq.
    + rewrite decide_False by tauto. by rewrite list_insert_ge by lia.
  - rewrite decide_False by tauto. by rewrite list_lookup_insert_ne.
Qed.

Lemma pos_set_entry m p en d key : pos (set_entry m p en d) key = pos m key. Proof. done. Qed.

(** Replacing an entry keeps the invariant when the new entry is well-formed, its elements are at their own position and the
    element count follows. *)
Lemma map_inv_set_entry m p old en d :
  map_inv m -> entries m !! p = Some old -> entry_inv (seg_size m) en -> d = en_count en - en_count old ->
  (forall seg s k v, en_segment en = Some seg -> seg !! s = Some (Some (k, v)) -> 0 <= k /\ pos m k = (p, s)) ->
  map_inv (set_entry m p en d).
Proof.
  intros (H1 & H2 & H3 & H4 & H5) Hp Hen -> Hkeys. split_and!; cbn [entries seg_size map_size set_entry elem_count].
  - done.
  - by rewrite length_insert.
  - by apply Forall_insert.
  - pose proof (sum_list_with_insert (fun en => Z.to_nat (en_count en)) (entries m) p old en Hp) as Hs. cbn in Hs.
    assert (0 <= en_count old /\ 0 <= en_count en) as [? ?].
    { pose proof (Forall_lookup_1 _ _ _ _ H3 Hp) as Ho. unfold entry_inv in *.
      split; [destruct (en_segment old)|destruct (en_segment en)]; lia. }
    lia.
  - intros q s k v. rewrite slot_at_set_entry, pos_set_entry. case_decide as Hq; [|apply H5].
    destruct Hq as [<- _]. destruct (en_segment en) as [seg|] eqn:E; [|done]. simpl.
    destruct (seg !! s) as [o|] eqn:Es; [|done]. simpl. intros ->. by eapply Hkeys.
Qed.

(** The number of segments in use. *)
Lemma allocated_set_entry m p old en d :
  entries m !! p = Some old ->
  (allocated (set_entry m p en d) + (if en_segment old then 1 else 0)
   = allocated m + (if en_segment en then 1 else 0))%nat.
Proof.
  unfold allocated, set_entry; cbn [entries]. revert p. induction (entries m) as [|e l IH]; intros [|p] Hp; simplify_eq/=.
  - rewrite !filter_cons. destruct (en_segment old) eqn:E1, (en_segment en) eqn:E2; repeat case_decide as Hd; simpl; try lia;
      exfalso; try (by apply Hd); by destruct Hd.
  - specialize (IH p Hp). rewrite !filter_cons. case_decide; simpl; lia.
Qed.
(** ** Operations *)

Lemma slot_at_in m p s o :
  map_inv m -> slot_at m p s = Some o ->
  exists seg c, entries m !! p = Some (Entry (Some seg) c) /\ seg !! s = Some (Some o).
Proof.
  intros _ H. unfold slot_at in H. destruct (entries m !! p) as [[[seg|] c]|]; simplify_eq/=.
  exists seg, c. split; [done|]. destruct (seg !! s) as [[?|]|]; by simplify_eq/=.
Qed.

Lemma slot_at_entry m p s seg c :
  entries m !! p = Some (Entry (Some seg) c) -> slot_at m p s = mjoin (M:=option) (seg !! s).
Proof. intros H. unfold slot_at. by rewrite H. Qed.

Lemma slot_at_free m p s c : entries m !! p = Some (Entry None c) -> slot_at m p s = None.
Proof. intros H. unfold slot_at. by rewrite H. Qed.

Lemma slot_keys m p s seg c k v :
  map_inv m -> entries m !! p = Some (Entry (Some seg) c) -> seg !! s = Some (Some (k, v)) -> 0 <= k /\ pos m k = (p, s).
Proof.
  intros (_ & _ & _ & _ & Hkeys) Hent Hs. apply (Hkeys p s k v). by rewrite (slot_at_entry _ _ _ _ _ Hent), Hs.
Qed.

(** Storing into a free slot. *)
Lemma insert_spec m pool key v :
  map_inv m -> 0 <= key -> slot_at m (pos m key).1 (pos m key).2 = None ->
  let '(ok, m', pool') := insert m pool key v in
  map_inv m' /\ map_size m' = map_size m /\ (pool' + allocated m' = pool + allocated m)%nat /\
  (if ok then elem_count m' = elem_count m + 1 /\ (forall q, pos m' q = pos m q) /\
     (forall p s, slot_at m' p s = if decide ((p, s) = pos m key) then Some (key, v) else slot_at m p s)
   else m' = m /\ pool' = pool /\ pool = O).
Proof.
  intros Hinv Hk Hfree. pose proof (flat_idx m key Hinv Hk) as [_ E]. pose proof (pos_bounds m key Hinv Hk) as [Hp Hs].
  unfold insert. cbv zeta. destruct (pos m key) as [p s] eqn:Hpos. injection E as -> ->. cbn [fst snd] in *.
  apply lookup_lt_is_Some_2 in Hp as [[[seg|] c] Hent]; rewrite Hent; cbn [en_segment].
  - pose proof Hinv as (_ & _ & Hall & _). pose proof (Forall_lookup_1 _ _ _ _ Hall Hent) as (Hlen & Hc & Hpos').
    cbn [en_segment en_count] in *.
    destruct (lookup_lt_is_Some_2 seg s) as [o Ho]; [lia|].
    assert (o = None) as ->. { by rewrite (slot_at_entry _ _ _ _ _ Hent), Ho in Hfree. }
    rewrite Ho. pose proof (occupied_insert seg s None (Some (key, v)) Ho) as Hocc; simpl in Hocc.
    split_and!.
    + eapply map_inv_set_entry; [done|done| |cbn; lia|].
      * unfold entry_inv; cbn [en_segment en_count]. rewrite length_insert. lia.
      * cbn [en_segment]. intros seg' s' k' v' [= <-]. rewrite list_lookup_insert. case_decide.
        -- intros [= <- <-]. destruct_and?; subst. by rewrite Hpos.
        -- intros Hs'. by eapply slot_keys.
    + done.
    + pose proof (allocated_set_entry m p _ (Entry (Some (<[s:=Some (key, v)]> seg)) (c + 1)) 1 Hent) as Hal.
      cbn [en_segment] in Hal. lia.
    + done.
    + done.
    + intros p' s'. rewrite slot_at_set_entry. cbn [en_segment].
      assert (p < length (entries m))%nat by (by eapply lookup_lt_Some).
      destruct (decide (p = p')) as [<-|].
      * rewrite decide_True by done. simpl. rewrite list_lookup_insert. destruct (decide (s = s')) as [<-|].
        -- rewrite decide_True by (split; [done|lia]). by rewrite decide_True.
        -- rewrite decide_False by tauto. rewrite decide_False by congruence. by rewrite (slot_at_entry _ _ _ _ _ Hent).
      * rewrite decide_False by tauto. by rewrite decide_False by congruence.
  - unfold get_segment. destruct pool as [|pool]; [done|].
    pose proof Hinv as (_ & _ & Hall & _). pose proof (Forall_lookup_1 _ _ _ _ Hall Hent) as Hc. cbn in Hc. subst c.
    set (seg := replicate (Z.to_nat (seg_size m)) None).
    assert (Ho : seg !! s = Some None) by (by apply lookup_replicate_2).
    pose proof (occupied_insert seg s None (Some (key, v)) Ho) as Hocc; simpl in Hocc.
    unfold seg in Hocc at 2. rewrite occupied_replicate in Hocc.
    split_and!.
    + eapply map_inv_set_entry; [done|done| |cbn; lia|].
      * unfold entry_inv; cbn [en_segment en_count]. rewrite length_insert. unfold seg at 1. rewrite length_replicate. lia.
      * cbn [en_segment]. intros seg' s' k' v' [= <-]. rewrite list_lookup_insert. case_decide.
        -- intros [= <- <-]. destruct_and?; subst. by rewrite Hpos.
        -- intros Hs'. by apply lookup_replicate_1 in Hs' as [? _].
    + done.
    + pose proof (allocated_set_entry m p _ (Entry (Some (<[s:=Some (key, v)]> seg)) (0 + 1)) 1 Hent) as Hal.
      cbn [en_segment] in Hal. lia.
    + done.
    + done.
    + intros p' s'. rewrite slot_at_set_entry. cbn [en_segment].
      assert (p < length (entries m))%nat by (by eapply lookup_lt_Some).
      destruct (decide (p = p')) as [<-|].
      * rewrite decide_True by done. simpl. rewrite list_lookup_insert. destruct (decide (s = s')) as [<-|].
        -- rewrite decide_True by (split; [done|by eapply lookup_lt_Some]). by rewrite decide_True.
        -- rewrite decide_False by tauto. rewrite decide_False by congruence. rewrite (slot_at_free _ _ _ _ Hent).
           destruct (seg !! s') as [o|] eqn:Hs'; [|done]. by apply lookup_replicate_1 in Hs' as [-> _].
      * rewrite decide_False by tauto. by rewrite decide_False by congruence.
Qed.

(** Erasing the element of an occupied slot. *)
Lemma erase_spec m pool key v :
  map_inv m -> 0 <= key -> slot_at m (pos m key).1 (pos m key).2 = Some (key, v) ->
  let '(ok, m', pool') := erase m pool key in
  ok = true /\ map_inv m' /\ map_size m' = map_size m /\ (pool' + allocated m' = pool + allocated m)%nat /\
  elem_count m' = elem_count m - 1 /\ (forall q, pos m' q = pos m q) /\
  (forall p s, slot_at m' p s = if decide ((p, s) = pos m key) then None else slot_at m p s) /\
  (pool' = S pool \/ exists seg c, entries m' !! (pos m key).1 = Some (Entry (Some seg) c)).
Proof.
  intros Hinv Hk Hslot. pose proof (flat_idx m key Hinv Hk) as [_ E].
  assert (Hcont : contains m key = true).
  { rewrite contains_lookup by done. apply bool_decide_true. unfold lookup_key. rewrite Hslot, Z.eqb_refl. by eexists. }
  unfold erase. rewrite Hcont. cbn [negb]. cbv zeta.
  destruct (pos m key) as [p s] eqn:Hpos. injection E as -> ->. cbn [fst snd] in *.
  destruct (slot_at_in m p s _ Hinv Hslot) as (seg & c & Hent & Ho). rewrite Hent.
  pose proof Hinv as (_ & _ & Hall & _ & Hkeys). pose proof (Forall_lookup_1 _ _ _ _ Hall Hent) as (Hlen & Hc & Hpos').
  cbn [en_segment en_count] in *.
  pose proof (occupied_insert seg s _ None Ho) as Hocc; simpl in Hocc.
  assert (Hpl : (p < length (entries m))%nat) by (by eapply lookup_lt_Some).
  assert (Hsl : (s < length seg)%nat) by (by eapply lookup_lt_Some).
  destruct (Z.eqb_spec (c - 1) 0) as [Hz|Hz].
  - assert (Hempty : forall s', s' <> s -> mjoin (seg !! s') = None).
    { intros s' Hs'. destruct (seg !! s') as [[x|]|] eqn:Hx; [|done..]. exfalso.
      assert (Hx' : <[s:=None]> seg !! s' = Some (Some x)) by (by rewrite list_lookup_insert_ne).
      pose proof (occupied_insert _ s' _ None Hx') as Hocc2. simpl in Hocc2. lia. }
    split_and!; [done| |done| |cbn; lia|done| |by left].
    + eapply map_inv_set_entry; [done|done|done|cbn; lia|done].
    + pose proof (allocated_set_entry m p _ (Entry None 0) (-1) Hent) as Hal. cbn [en_segment] in Hal. lia.
    + intros p' s'. rewrite slot_at_set_entry. cbn [en_segment]. destruct (decide (p = p')) as [<-|].
      * rewrite decide_True by done. simpl. destruct (decide (s = s')) as [<-|]; [by rewrite decide_True|].
        rewrite decide_False by congruence. rewrite (slot_at_entry _ _ _ _ _ Hent). by rewrite Hempty by done.
      * rewrite decide_False by tauto. by rewrite decide_False by congruence.
  - split_and!; [done| |done| |done|done| |].
    + eapply map_inv_set_entry; [done|done| |cbn; lia|].
      * unfold entry_inv; cbn [en_segment en_count]. rewrite length_insert. lia.
      * cbn [en_segment]. intros seg' s' k' v' [= <-]. rewrite list_lookup_insert. case_decide; [done|].
        intros Hs'. by eapply slot_keys.
    + pose proof (allocated_set_entry m p _ (Entry (Some (<[s:=None]> seg)) (c - 1)) (-1) Hent) as Hal.
      cbn [en_segment] in Hal. lia.
    + intros p' s'. rewrite slot_at_set_entry. cbn [en_segment]. destruct (decide (p = p')) as [<-|].
      * rewrite decide_True by done. simpl. rewrite list_lookup_insert. destruct (decide (s = s')) as [<-|].
        -- rewrite decide_True by done. by rewrite decide_True.
        -- rewrite decide_False by tauto. rewrite decide_False by congruence. by rewrite (slot_at_entry _ _ _ _ _ Hent).
      * rewrite decide_False by tauto. by rewrite decide_False by congruence.
    + right. eexists _, _. cbn [entries set_entry]. by rewrite list_lookup_insert_eq.
Qed.

(** ** The map as a partial function *)

Lemma lookup_key_Some m k v : lookup_key m k = Some v <-> slot_at m (pos m k).1 (pos m k).2 = Some (k, v).
Proof.
  unfold lookup_key. destruct (slot_at _ _ _) as [[k' v']|]; [|split; congruence].
  destruct (Z.eqb_spec k' k) as [->|]; split; congruence.
Qed.

Lemma lookup_key_slot m k o :
  slot_at m (pos m k).1 (pos m k).2 = o ->
  lookup_key m k = match o with Some (k', v) => if k' =? k then Some v else None | None => None end.
Proof. intros <-. done. Qed.

(** Two keys share a position iff they are congruent modulo the size of the map. *)
Lemma pos_eq m k q : map_inv m -> 0 <= k -> 0 <= q -> pos m k = pos m q <-> k mod map_size m = q mod map_size m.
Proof.
  intros ((a & b & Ha & Hb & Ea & Eb & Es) & _) Hk Hq. unfold pos.
  assert (0 < map_size m) by (rewrite Ea; apply Z.pow_pos_nonneg; lia).
  assert (Hs : 0 < seg_size m) by (rewrite Eb; apply Z.pow_pos_nonneg; lia).
  pose proof (Z.mod_pos_bound k (map_size m)). pose proof (Z.mod_pos_bound q (map_size m)).
  split; [|by intros ->]. generalize dependent (k mod map_size m). generalize dependent (q mod map_size m).
  intros x Hx y Hy [= E1 E2].
  apply Z2Nat.inj in E1; [|apply Z.div_pos; lia|apply Z.div_pos; lia].
  pose proof (Z.mod_pos_bound x (seg_size m)). pose proof (Z.mod_pos_bound y (seg_size m)).
  apply Z2Nat.inj in E2; [|lia|lia].
  rewrite (Z.div_mod x (seg_size m)), (Z.div_mod y (seg_size m)) by lia. by rewrite E1, E2.
Qed.

Lemma slot_at_pos m k : pos m k = ((pos m k).1, (pos m k).2).
Proof. by destruct (pos m k). Qed.

(** The lookup after one slot was set to [o]. *)
Lemma lookup_key_update m m' key (o : slot V) q :
  map_inv m -> 0 <= key -> 0 <= q -> (forall x, pos m' x = pos m x) ->
  (forall p s, slot_at m' p s = if decide ((p, s) = pos m key) then o else slot_at m p s) ->
  lookup_key m' q = if decide (q mod map_size m = key mod map_size m)
                    then match o with Some (k', v) => if k' =? q then Some v else None | None => None end
                    else lookup_key m q.
Proof.
  intros Hinv Hk Hq Hpos Hslot. unfold lookup_key. rewrite Hslot, !Hpos, <- slot_at_pos.
  destruct (decide (pos m q = pos m key)) as [E|E]; rewrite (pos_eq m q key) in E by done.
  - by rewrite decide_True.
  - by rewrite decide_False.
Qed.

(** [insert] into a slot that the previous step freed, or that was free. *)
Lemma insert_freed m pool m1 pool1 key v :
  map_inv m -> 0 <= key -> map_inv m1 -> map_size m1 = map_size m ->
  (forall x, pos m1 x = pos m x) ->
  (forall p' s', slot_at m1 p' s' = if decide ((p', s') = pos m key) then None else slot_at m p' s') ->
  (m1 = m /\ pool1 = pool \/ pool1 = S pool \/ exists seg c, entries m1 !! (pos m key).1 = Some (Entry (Some seg) c)) ->
  let '(ok, m', pool') := insert m1 pool1 key v in
  map_inv m' /\ map_size m' = map_size m /\ (pool' + allocated m' = pool1 + allocated m1)%nat /\
  (if ok then forall q, 0 <= q ->
       lookup_key m' q = if decide (q = key) then Some v
                         else if decide (q mod map_size m = key mod map_size m) then None else lookup_key m q
   else m' = m /\ pool' = pool /\ pool = O).
Proof.
  intros Hinv Hk Hi1 Hsz1 Hp1 Hs1 Hfree.
  assert (Hnone : slot_at m1 (pos m1 key).1 (pos m1 key).2 = None).
  { rewrite Hs1, Hp1, <- slot_at_pos. by rewrite decide_True. }
  pose proof (insert_spec m1 pool1 key v Hi1 Hk Hnone) as Hins.
  destruct (insert m1 pool1 key v) as [[ok m'] pool'] eqn:Eins.
  destruct Hins as (Hi2 & Hsz2 & Hal2 & Hok). split_and!; [done|congruence|lia|]. destruct ok.
  - destruct Hok as (_ & Hp2 & Hs2). intros q Hq. rewrite (lookup_key_update m m' key (Some (key, v)) q Hinv Hk Hq).
    + destruct (decide (q mod map_size m = key mod map_size m)) as [Em|Em].
      * destruct (decide (q = key)) as [->|]; [by rewrite Z.eqb_refl|]. by destruct (Z.eqb_spec key q).
      * by destruct (decide (q = key)) as [->|].
    + intros x. by rewrite Hp2, Hp1.
    + intros p' s'. rewrite Hs2, Hs1, Hp1. by destruct (decide _).
  - destruct Hok as (-> & -> & H0). destruct Hfree as [[-> ->]|[->|(seg & c & Hent)]]; [done|done|].
    exfalso. revert Eins. unfold insert. pose proof (flat_idx m1 key Hi1 Hk) as [_ E1].
    pose proof (pos_bounds m1 key Hi1 Hk) as [_ Hsb]. rewrite Hp1 in Hnone, E1, Hsb.
    destruct (pos m key) as [p s]. cbn [fst snd] in *. injection E1 as -> ->. rewrite Hent. cbn [en_segment].
    rewrite (slot_at_entry _ _ _ _ _ Hent) in Hnone.
    destruct Hi1 as (_ & _ & Hall & _). pose proof (Forall_lookup_1 _ _ _ _ Hall Hent) as (Hlen & _). cbn in Hlen.
    destruct (seg !! s) as [[x|]|] eqn:Es; [done|done|]. apply lookup_ge_None in Es. lia.
Qed.

Lemma overwrite_spec m pool key v :
  map_inv m -> 0 <= key ->
  let '(ok, m', pool') := overwrite m pool key v in
  map_inv m' /\ map_size m' = map_size m /\ (pool' + allocated m' = pool + allocated m)%nat /\
  (if ok then forall q, 0 <= q ->
       lookup_key m' q = if decide (q = key) then Some v
                         else if decide (q mod map_size m = key mod map_size m) then None else lookup_key m q
   else m' = m /\ pool' = pool /\ pool = O).
Proof.
  intros Hinv Hk. unfold overwrite. pose proof (flat_idx m key Hinv Hk) as [_ E].
  destruct (pos m key) as [p s] eqn:Hpos. injection E as -> ->.
  destruct (slot_at m p s) as [[k0 v0]|] eqn:Hslot.
  - pose proof Hinv as (_ & _ & _ & _ & Hkeys). destruct (Hkeys p s k0 v0 Hslot) as [Hk0 Hp0].
    pose proof (erase_spec m pool k0 v0 Hinv Hk0) as He. rewrite Hp0 in He. cbn [fst snd] in He. specialize (He Hslot).
    destruct (erase m pool k0) as [[ok1 m1] pool1]. destruct He as (_ & Hi & Hsz & Hal & _ & Hpp & Hss & Hor).
    rewrite <- Hal. eapply insert_freed; [done|done|done|done|done| |rewrite Hpos; by right].
    intros p' s'. by rewrite Hss, Hpos.
  - eapply insert_freed; [done|done|done|done|done| |by left].
    intros p' s'. rewrite Hpos. case_decide as Hd; [|done]. by injection Hd as -> ->.
Qed.

Lemma erase_key m pool key :
  map_inv m -> 0 <= key -> is_Some (lookup_key m key) ->
  let '(ok, m', pool') := erase m pool key in
  ok = true /\ map_inv m' /\ map_size m' = map_size m /\ (pool' + allocated m' = pool + allocated m)%nat /\
  (forall q, 0 <= q -> lookup_key m' q = if decide (q = key) then None else lookup_key m q).
Proof.
  intros Hinv Hk [v Hv]. apply lookup_key_Some in Hv as Hslot.
  pose proof (erase_spec m pool key v Hinv Hk Hslot) as He. destruct (erase m pool key) as [[ok m'] pool'].
  destruct He as (-> & Hi & Hsz & Hal & _ & Hpp & Hss & _). split_and!; [done|done|done|done|].
  intros q Hq. rewrite (lookup_key_update m m' key None q) by done. case_decide as Hm.
  - case_decide; [done|]. symmetry. apply (pos_eq m) in Hm; [|done..]. unfold lookup_key. rewrite Hm, Hslot.
    by destruct (Z.eqb_spec key q).
  - rewrite decide_False; [done|]. by intros ->.
Qed.

Lemma map_get_lookup m key : map_inv m -> 0 <= key -> map_get m key = lookup_key m key.
Proof.
  intros Hinv Hk. unfold map_get. rewrite contains_lookup by done. pose proof (flat_idx m key Hinv Hk) as [_ E].
  destruct (lookup_key m key) as [v|] eqn:El; [|done]. rewrite bool_decide_true by eauto.
  apply lookup_key_Some in El. rewrite <- E in El; cbn [fst snd] in El. by rewrite El.
Qed.

Lemma map_put_spec m key v :
  map_inv m -> 0 <= key -> is_Some (lookup_key m key) ->
  exists m', map_put m key v = Some m' /\ map_inv m' /\ map_size m' = map_size m /\ allocated m' = allocated m /\
    forall q, 0 <= q -> lookup_key m' q = if decide (q = key) then Some v else lookup_key m q.
Proof.
  intros Hinv Hk Hv. unfold map_put. rewrite contains_lookup, bool_decide_true by done.
  pose proof (flat_idx m key Hinv Hk) as [_ E]. destruct Hv as [v0 Hv]. apply lookup_key_Some in Hv as Hslot.
  destruct (pos m key) as [p s] eqn:Hpos. injection E as -> ->. cbn [fst snd] in *.
  destruct (slot_at_in m p s _ Hinv Hslot) as (seg & c & Hent & Ho). rewrite Hent.
  pose proof Hinv as (_ & _ & Hall & _). pose proof (Forall_lookup_1 _ _ _ _ Hall Hent) as (Hlen & Hc & Hpos').
  cbn [en_segment en_count] in *. pose proof (occupied_insert seg s _ (Some (key, v)) Ho) as Hocc; simpl in Hocc.
  pose proof (lookup_lt_Some _ _ _ Ho) as Hsl. pose proof (lookup_lt_Some _ _ _ Hent) as Hpl.
  eexists. split_and!; [done| |done| |].
  - eapply map_inv_set_entry; [done|done| |cbn; lia|].
    + unfold entry_inv; cbn [en_segment en_count]. rewrite length_insert. lia.
    + cbn [en_segment]. intros seg' s' k' v' [= <-]. rewrite list_lookup_insert. case_decide.
      * intros [= <- <-]. destruct_and?; subst. by rewrite Hpos.
      * intros Hs'. by eapply slot_keys.
  - pose proof (allocated_set_entry m p _ (Entry (Some (<[s:=Some (key, v)]> seg)) c) 0 Hent) as Hal. cbn [en_segment] in Hal. lia.
  - intros q Hq. rewrite (lookup_key_update m _ key (Some (key, v)) q Hinv Hk Hq); [|done|].
    + case_decide as Hm.
      * destruct (decide (q = key)) as [->|]; [by rewrite Z.eqb_refl|]. apply (pos_eq m) in Hm; [|done..].
        unfold lookup_key. rewrite Hm, Hpos. cbn [fst snd]. rewrite Hslot. by destruct (Z.eqb_spec key q).
      * rewrite decide_False; [done|]. by intros ->.
    + intros p' s'. rewrite slot_at_set_entry, Hpos. cbn [en_segment]. destruct (decide (p = p')) as [<-|].
      * rewrite decide_True by done. simpl. rewrite list_lookup_insert. destruct (decide (s = s')) as [<-|].
        -- by rewrite !decide_True.
        -- rewrite decide_False by tauto. rewrite decide_False by congruence. by rewrite (slot_at_entry _ _ _ _ _ Hent).
      * rewrite decide_False by tauto. by rewrite decide_False by congruence.
Qed.

(** A fresh map, and what [clear] leaves. *)
Lemma sum_list_zero {A} (f : A -> nat) l : Forall (fun x => f x = 0%nat) l -> sum_list_with f l = 0%nat.
Proof. induction 1; simpl; lia. Qed.

Lemma slot_at_all_free m p s : Forall (fun en => en_segment en = None) (entries m) -> slot_at m p s = None.
Proof.
  intros H. unfold slot_at. destruct (entries m !! p) as [en|] eqn:E; [|done]. simpl.
  by rewrite (Forall_lookup_1 _ _ _ _ H E).
Qed.

Lemma map_new_inv a b :
  0 <= a -> 0 <= b -> map_inv (map_new (V:=V) (2 ^ a) (2 ^ b)) /\
  allocated (map_new (V:=V) (2 ^ a) (2 ^ b)) = O /\ (forall k, lookup_key (map_new (V:=V) (2 ^ a) (2 ^ b)) k = None).
Proof.
  intros Ha Hb. assert (Hpos : 0 < 2 ^ b) by (apply Z.pow_pos_nonneg; lia).
  assert (Hctz : ctz (2 ^ b) = b).
  { clear Hpos. pattern b. apply natlike_ind; [done| |done]. intros x Hx IH. rewrite Z.pow_succ_r by done.
    assert (0 < 2 ^ x) by (apply Z.pow_pos_nonneg; lia). destruct (2 ^ x) as [|q|] eqn:Eq; [lia| |lia]. change (2 * Z.pos q) with (Z.pos q~0). unfold ctz in *. cbn [ctz_pos]. lia. }
  assert (Hfree : Forall (fun en => en_segment en = None) (entries (map_new (V:=V) (2 ^ a) (2 ^ b)))).
  { unfold map_new; cbn [entries]. by apply Forall_replicate. }
  split_and!.
  - unfold map_inv, map_new; cbn [map_size seg_size seg_shift entries elem_count]. split_and!.
    + exists a, b. by unfold compute_seg_shift.
    + by rewrite length_replicate.
    + by apply Forall_replicate.
    + rewrite sum_list_zero; [done|by apply Forall_replicate].
    + intros p s k v. by rewrite slot_at_all_free.
  - unfold allocated, map_new; cbn [entries]. generalize (Z.to_nat ((2 ^ a + 2 ^ b - 1) / 2 ^ b)) as n.
    induction n as [|n IH]; [done|]. simpl. rewrite filter_cons, decide_False; [done|]. by intros [].
  - intros k. unfold lookup_key. by rewrite slot_at_all_free.
Qed.
End facts.
