(* ===== verification/SduWindow.v ===== *)
(** * Windows of SDUs ([include/ocudu/support/segmented_sdu_window.h])

    [SduWindow] is what the receive and transmit entities use of a window of SDUs, [SduWindowLaws] what they rely on: a
    partial function from sequence numbers, in which adding a sequence number may evict the one of the same residue modulo
    the capacity. The entities are defined and proved against these classes; [segmented_window] is the implementation, the
    circular map with the pool it shares. An operation whose assertion fails is [None]. *)
From S2P Require Import Prelude SegmentedCircularMap.

(** ** Interface *)

Class SduWindow (T W : Type) := {
  has_sn : W -> Z -> bool;
  add_sn : W -> Z -> option (bool * W);
  remove_sn : W -> Z -> option W;
  win_get : W -> Z -> option T;
  win_put : W -> Z -> T -> option W
}.

Class SduWindowLaws (T W : Type) `{SduWindow T W} (init : T) := {
  win_inv : W -> Prop;
  win_cap : W -> Z;
  win_lookup : W -> Z -> option T;
  win_has : forall w k, win_inv w -> 0 <= k -> has_sn w k = bool_decide (is_Some (win_lookup w k));
  win_get_lookup : forall w k, win_inv w -> 0 <= k -> win_get w k = win_lookup w k;
  win_put_spec : forall w k v, win_inv w -> 0 <= k -> is_Some (win_lookup w k) ->
    exists w', win_put w k v = Some w' /\ win_inv w' /\ win_cap w' = win_cap w /\
      forall q, 0 <= q -> win_lookup w' q = if decide (q = k) then Some v else win_lookup w q;
  win_remove_spec : forall w k, win_inv w -> 0 <= k -> is_Some (win_lookup w k) ->
    exists w', remove_sn w k = Some w' /\ win_inv w' /\ win_cap w' = win_cap w /\
      forall q, 0 <= q -> win_lookup w' q = if decide (q = k) then None else win_lookup w q;
  win_add_spec : forall w k, win_inv w -> 0 <= k -> win_lookup w k = None ->
    exists ok w', add_sn w k = Some (ok, w') /\ win_inv w' /\ win_cap w' = win_cap w /\
      if ok then forall q, 0 <= q ->
        win_lookup w' q = if decide (q = k) then Some init
                          else if decide (q mod win_cap w = k mod win_cap w) then None else win_lookup w q
      else w' = w
}.

(** ** Implementation *)
Section segmented.
Context {T : Type} (init : T).

Record segmented_sdu_window := Window { window : segmented_circular_map T; pool : nat }.

Definition window_new (size segment_size : Z) (pool : nat) : segmented_sdu_window :=
  Window (map_new size segment_size) pool.

Definition window_has_sn (w : segmented_sdu_window) (sn : Z) : bool := contains (window w) sn.

Definition window_add_sn (w : segmented_sdu_window) (sn : Z) : option (bool * segmented_sdu_window) :=
  if window_has_sn w sn then None else
  let '(ret, m, p) := overwrite (window w) (pool w) sn init in
  Some (ret, Window m p).

Definition window_remove_sn (w : segmented_sdu_window) (sn : Z) : option segmented_sdu_window :=
  if negb (window_has_sn w sn) then None else
  let '(_, m, p) := erase (window w) (pool w) sn in
  Some (Window m p).

Definition window_get (w : segmented_sdu_window) (sn : Z) : option T := map_get (window w) sn.
Definition window_put (w : segmented_sdu_window) (sn : Z) (v : T) : option segmented_sdu_window :=
  m ← map_put (window w) sn v; Some (Window m (pool w)).
Definition window_full (w : segmented_sdu_window) : bool := full (window w).
Definition window_clear (w : segmented_sdu_window) : segmented_sdu_window :=
  let '(m, p) := clear (window w) (pool w) in Window m p.

#[export] Instance segmented_window : SduWindow T segmented_sdu_window := {
  has_sn := window_has_sn;
  add_sn := window_add_sn;
  remove_sn := window_remove_sn;
  win_get := window_get;
  win_put := window_put
}.

Lemma segmented_put_spec w k v :
  map_inv (window w) -> 0 <= k -> is_Some (lookup_key (window w) k) ->
  exists w', window_put w k v = Some w' /\ map_inv (window w') /\ map_size (window w') = map_size (window w) /\
    forall q, 0 <= q -> lookup_key (window w') q = if decide (q = k) then Some v else lookup_key (window w) q.
Proof.
  intros Hi Hk Hs. destruct (map_put_spec _ k v Hi Hk Hs) as (m' & E & Hi' & Hsz & _ & Hl).
  unfold window_put. rewrite E. by exists (Window m' (pool w)).
Qed.

Lemma segmented_remove_spec w k :
  map_inv (window w) -> 0 <= k -> is_Some (lookup_key (window w) k) ->
  exists w', window_remove_sn w k = Some w' /\ map_inv (window w') /\ map_size (window w') = map_size (window w) /\
    forall q, 0 <= q -> lookup_key (window w') q = if decide (q = k) then None else lookup_key (window w) q.
Proof.
  intros Hi Hk Hs. pose proof (erase_key _ (pool w) k Hi Hk Hs) as He.
  unfold window_remove_sn, window_has_sn. rewrite contains_lookup, bool_decide_true by done. cbn [negb].
  destruct (erase _ _ _) as [[ok m'] p']. destruct He as (_ & ? & ? & _ & ?). by exists (Window m' p').
Qed.

Lemma segmented_add_spec w k :
  map_inv (window w) -> 0 <= k -> lookup_key (window w) k = None ->
  exists ok w', window_add_sn w k = Some (ok, w') /\ map_inv (window w') /\ map_size (window w') = map_size (window w) /\
    if ok then forall q, 0 <= q ->
      lookup_key (window w') q = if decide (q = k) then Some init
        else if decide (q mod map_size (window w) = k mod map_size (window w)) then None else lookup_key (window w) q
    else w' = w.
Proof.
  intros Hi Hk Hn. pose proof (overwrite_spec (window w) (pool w) k init Hi Hk) as Ho.
  unfold window_add_sn, window_has_sn. rewrite contains_lookup, Hn, bool_decide_false by (done || by intros []).
  destruct (overwrite _ _ _ _) as [[ok m'] p']. destruct Ho as (? & ? & _ & Hok). exists ok, (Window m' p').
  split_and!; [done|done|done|]. destruct ok; [done|]. destruct Hok as (-> & -> & _). by destruct w.
Qed.

#[export] Instance segmented_window_laws : SduWindowLaws T segmented_sdu_window init := {
  win_inv w := map_inv (window w);
  win_cap w := map_size (window w);
  win_lookup w := lookup_key (window w);
  win_has w k := contains_lookup (window w) k;
  win_get_lookup w k := map_get_lookup (window w) k;
  win_put_spec := segmented_put_spec;
  win_remove_spec := segmented_remove_spec;
  win_add_spec := segmented_add_spec
}.

(** ** The shared pool *)

Inductive window_op := OpAdd (sn : Z) | OpRemove (sn : Z) | OpPut (sn : Z) (v : T).

(** One operation; one whose assertion would fail does not happen. *)
Definition window_step (w : segmented_sdu_window) (o : window_op) : segmented_sdu_window :=
  match o with
  | OpAdd sn => match window_add_sn w sn with Some (_, w') => w' | None => w end
  | OpRemove sn => default w (window_remove_sn w sn)
  | OpPut sn v => default w (window_put w sn v)
  end.

Definition op_sn (o : window_op) : Z := match o with OpAdd sn | OpRemove sn | OpPut sn _ => sn end.

Lemma window_step_inv w o :
  map_inv (window w) -> 0 <= op_sn o ->
  map_inv (window (window_step w o)) /\
  (pool (window_step w o) + allocated (window (window_step w o)) = pool w + allocated (window w))%nat.
Proof.
  intros Hi Ho. destruct o as [sn|sn|sn v]; cbn [window_step op_sn] in *.
  - unfold window_add_sn. destruct (window_has_sn w sn); [done|].
    pose proof (overwrite_spec (window w) (pool w) sn init Hi Ho) as Hs.
    destruct (overwrite _ _ _ _) as [[ok m'] p']. cbn. tauto.
  - unfold window_remove_sn, window_has_sn. rewrite contains_lookup by done.
    case_bool_decide as Hs; cbn [negb]; [|done]. pose proof (erase_key _ (pool w) sn Hi Ho Hs) as He.
    destruct (erase _ _ _) as [[ok m'] p']. cbn. tauto.
  - unfold window_put. destruct (lookup_key (window w) sn) as [x|] eqn:E.
    + destruct (map_put_spec (window w) sn v Hi Ho) as (m' & -> & ? & ? & Hal & _); [by eexists|]. cbn. by rewrite Hal.
    + unfold map_put. rewrite contains_lookup, E, bool_decide_false by (done || by intros []). done.
Qed.

Lemma window_steps_inv w ops :
  map_inv (window w) -> Forall (fun o => 0 <= op_sn o) ops ->
  map_inv (window (fold_left window_step ops w)) /\
  (pool (fold_left window_step ops w) + allocated (window (fold_left window_step ops w))
   = pool w + allocated (window w))%nat.
Proof.
  revert w. induction ops as [|o ops IH]; intros w Hi Ho; [done|]. apply Forall_cons in Ho as [Ho Hos]. cbn [fold_left].
  destruct (window_step_inv w o Hi Ho) as [Hi' Hp]. destruct (IH _ Hi' Hos) as [? ->]. done.
Qed.
End segmented.

Arguments segmented_sdu_window : clear implicits.

(** A window over power-of-two sizes starts well-formed and empty, and in every well-formed window the operations are
    those of a partial function on sequence numbers: [has_sn] is its domain; reading yields the stored element; writing
    through the reference replaces exactly that element; [remove_sn] deletes exactly that sequence number; [add_sn] of an
    absent one either leaves the window untouched (no segment left) or stores a fresh element there, evicting at most the
    sequence number that is congruent to it modulo the window size. No assertion fails. *)
Theorem window_refines_partial_function {T} (init v : T) (a b : Z) (n : nat) (w : segmented_sdu_window T) (k : Z) :
  0 <= a -> 0 <= b -> map_inv (window w) -> 0 <= k ->
  let L w := lookup_key (window w) in
  let M := map_size (window w) in
  (map_inv (window (window_new (T:=T) (2 ^ a) (2 ^ b) n)) /\ forall q, L (window_new (2 ^ a) (2 ^ b) n) q = None) /\
  window_has_sn w k = bool_decide (is_Some (L w k)) /\
  window_get w k = L w k /\
  match L w k with
  | Some _ =>
      (exists w', window_put w k v = Some w' /\ map_inv (window w') /\
         forall q, 0 <= q -> L w' q = if decide (q = k) then Some v else L w q) /\
      (exists w', window_remove_sn w k = Some w' /\ map_inv (window w') /\
         forall q, 0 <= q -> L w' q = if decide (q = k) then None else L w q)
  | None =>
      exists ok w', window_add_sn init w k = Some (ok, w') /\ map_inv (window w') /\
        if ok then forall q, 0 <= q ->
          L w' q = if decide (q = k) then Some init else if decide (q mod M = k mod M) then None else L w q
        else w' = w
  end.
Proof.
  intros Ha Hb Hi Hk L M. pose proof (map_new_inv (V:=T) a b Ha Hb) as (Hn & _ & Hl).
  split_and!; [done|done|by apply contains_lookup|by apply map_get_lookup|].
  destruct (L w k) as [x|] eqn:E.
  - assert (Hs : is_Some (lookup_key (window w) k)) by (by exists x).
    destruct (segmented_put_spec w k v Hi Hk Hs) as (w1 & ? & ? & _ & ?).
    destruct (segmented_remove_spec w k Hi Hk Hs) as (w2 & ? & ? & _ & ?). split; eauto.
  - destruct (segmented_add_spec init w k Hi Hk E) as (ok & w' & ? & ? & _ & ?). eauto.
Qed.

Definition example_window : segmented_sdu_window Z :=
  fold_left (window_step 0) [OpAdd 5; OpPut 5 42; OpAdd 6] (window_new 8 4 2).

Lemma window_refines_partial_function_witness :
  lookup_key (window example_window) 5 = Some 42 /\
  (exists w', window_put example_window 5 7 = Some w' /\ map_inv (window w') /\
         forall q, 0 <= q -> lookup_key (window w') q = if decide (q = 5) then Some 7 else lookup_key (window example_window) q).
Proof.
  assert (Hi : map_inv (window example_window)).
  { apply (window_steps_inv 0 (window_new 8 4 2) _); [apply (map_new_inv 3 2); lia|]. repeat constructor; cbn; lia. }
  split; [reflexivity|].
  destruct (window_refines_partial_function 0 7 3 2 2 example_window 5 ltac:(lia) ltac:(lia) Hi ltac:(lia)) as (_ & _ & _ & H).
  exact (proj1 H).
Defined.

(** Segments of the shared pool are neither lost nor duplicated: after any sequence of operations the free segments of
    the pool and those the window holds add up to what they were, and [clear] gives every segment back and empties the
    window. *)
Theorem pool_conservation {T} (init : T) (a b : Z) (n : nat) (ops : list window_op) :
  0 <= a -> 0 <= b -> Forall (fun o => 0 <= op_sn (T:=T) o) ops ->
  let w := fold_left (window_step init) ops (window_new (2 ^ a) (2 ^ b) n) in
  (pool w + allocated (window w) = n)%nat /\ pool (window_clear w) = n /\
  (forall k, lookup_key (window (window_clear w)) k = None).
Proof.
  intros Ha Hb Hops w. pose proof (map_new_inv (V:=T) a b Ha Hb) as (Hn & Hal & _).
  destruct (window_steps_inv init (window_new (2 ^ a) (2 ^ b) n) ops Hn Hops) as [Hi Hp]. fold w in Hi, Hp.
  cbn [window pool window_new] in Hp. rewrite Hal, Nat.add_0_r in Hp.
  split_and!; [done|done|]. intros k. unfold lookup_key, window_clear, clear; cbn [window]. rewrite slot_at_all_free; [done|].
  cbn [entries]. by apply Forall_fmap, Forall_true.
Qed.

Lemma pool_conservation_witness :
  let w := fold_left (window_step 0) [OpAdd 5; OpAdd 1; OpAdd 13; OpRemove 1] (window_new 8 4 2) in
  pool w = 1%nat /\ pool (window_clear w) = 2%nat.
Proof.
  destruct (pool_conservation 0 3 2 2 [OpAdd 5; OpAdd 1; OpAdd 13; OpRemove 1] ltac:(lia) ltac:(lia)
    ltac:(repeat constructor; cbn; lia)) as (_ & H & _).
  split; [reflexivity|exact H].
Defined.
