(* ===== verification/RlcRxBase.v ===== *)
(** * What the receive entities share ([lib/rlc/rlc_rx_entity.h])

    The outputs of a receive entity, and arithmetic relative to a modulus base. *)
From S2P Require Import Prelude ByteCursor RlcConfig ByteBufferChain RlcAmStatusPdu SduWindow.

(** What a receive entity does besides changing its state, in order: SDUs for the upper layer ([upper_dn.on_new_sdu]) and the
    metrics it counts; for AM also what it tells the transmitter ([status_handler->on_status_pdu] and
    [status_notifier->on_status_report_changed]). Times of arrival and latencies are not modelled. *)
Inductive rx_event :=
| NewSdu (sdu : list Z)
| AddPdus (n len : Z)
| AddMalformed (n : Z)
| AddLost (n : Z)
| AddSdus (n len : Z)
| AddCtrlPdus (n len : Z)
| OnStatusPdu (status : rlc_am_status_pdu)
| OnStatusReportChanged.

Definition delivered (ev : list rx_event) : list (list Z) :=
  omap (fun e => match e with NewSdu d => Some d | _ => None end) ev.

Definition lost (ev : list rx_event) : Z :=
  fold_right (fun e acc => match e with AddLost n => n + acc | _ => acc end) 0 ev.

Lemma delivered_app a b : delivered (a ++ b) = delivered a ++ delivered b.
Proof. apply omap_app. Qed.

Lemma lost_app a b : lost (a ++ b) = lost a + lost b.
Proof. unfold lost. induction a as [|[] a IH]; simpl; lia. Qed.

(** What delivering a reassembled SDU does; [None] is a reassembly that ran out of memory. *)
Definition deliver_events (o : option byte_buffer_chain) : list rx_event :=
  match o with
  | None => [AddLost 1]
  | Some sdu => [AddSdus 1 (chain_length sdu); NewSdu (chain_bytes sdu)]
  end.

(** ** Loops over the receive window

    Both receivers test a flag of the SDU of a SN ([rx_window.has_sn(sn) && rx_window[sn].f]) and walk over the window to
    the first SN whose SDU is not fully received. [mb] is the entity's [rx_mod_base], [limit] the rebased upper edge. *)
Section loops.
Context {T W : Type} `{SduWindow T W}.

Definition win_flag (f : T -> bool) (w : W) (sn : Z) : option bool :=
  if has_sn w sn then i ← win_get w sn; Some (f i) else Some false.

(** Moving over fully received SDUs and removing them. *)
Fixpoint advance_loop (full : T -> bool) (fuel : nat) (mb : Z -> Z) (limit md sn_upd : Z) (w : W) : option (Z * W) :=
  if mb sn_upd <? limit then
    match fuel with
    | O => None
    | S fuel =>
        full_sn ← win_flag full w sn_upd;
        if (full_sn : bool) then
          w ← remove_sn w sn_upd;
          advance_loop full fuel mb limit md ((sn_upd + 1) mod md) w
        else Some (sn_upd, w)
    end
  else Some (sn_upd, w).

(** Moving over fully received SDUs and keeping them. *)
Fixpoint search_loop (full : T -> bool) (fuel : nat) (mb : Z -> Z) (limit md sn_upd : Z) (w : W) : option Z :=
  if mb sn_upd <? limit then
    match fuel with
    | O => None
    | S fuel =>
        full_sn ← win_flag full w sn_upd;
        if (full_sn : bool) then search_loop full fuel mb limit md ((sn_upd + 1) mod md) w else Some sn_upd
    end
  else Some sn_upd.
End loops.

(** ** Modulus bases *)

Lemma mod_pow2_u32 k x : 0 <= k <= 32 -> u32 x mod 2 ^ k = x mod 2 ^ k.
Proof.
  intros Hk. unfold u32, uint. symmetry. apply Znumtheory.Zmod_div_mod.
  - apply Z.pow_pos_nonneg; lia.
  - lia.
  - exists (2 ^ (32 - k)). rewrite <- Z.pow_add_r by lia. f_equal. lia.
Qed.

(** [x] relative to [base] *)
Definition rel (md base x : Z) : Z := (x - base) mod md.

Lemma rel_range md base x : 0 < md -> 0 <= rel md base x < md.
Proof. intros. by apply Z.mod_pos_bound. Qed.

Lemma rel_self md base : 0 < md -> rel md base base = 0.
Proof. intros. unfold rel. rewrite Z.sub_diag. by apply Z.mod_0_l; lia. Qed.

Lemma rel_mod md base x : 0 < md -> rel md base (x mod md) = rel md base x.
Proof. intros. unfold rel. by rewrite Zminus_mod_idemp_l. Qed.

Lemma rel_add md base x d : 0 < md -> rel md base (x + d) = (rel md base x + d) mod md.
Proof. intros. unfold rel. rewrite Z.add_mod_idemp_l by lia. f_equal. lia. Qed.

Lemma rel_succ md base x : 0 < md -> rel md base x + 1 < md -> rel md base ((x + 1) mod md) = rel md base x + 1.
Proof.
  intros H Hlt. rewrite rel_mod, rel_add by done. pose proof (rel_range md base x H). apply Z.mod_small. lia.
Qed.

Lemma rel_inj md base x y : 0 < md -> 0 <= x < md -> 0 <= y < md -> rel md base x = rel md base y -> x = y.
Proof.
  intros H Hx Hy E. unfold rel in E.
  assert (E' : (x - base + base) mod md = (y - base + base) mod md).
  { rewrite <- (Z.add_mod_idemp_l (x - base)), <- (Z.add_mod_idemp_l (y - base)) by lia. by rewrite E. }
  replace (x - base + base) with x in E' by lia. replace (y - base + base) with y in E' by lia.
  by rewrite !Z.mod_small in E'.
Qed.

(** Changing the base. *)
Lemma rel_rebase md b1 b2 x : 0 < md -> rel md b2 x = (rel md b1 x - rel md b1 b2) mod md.
Proof. intros. unfold rel. rewrite <- Zminus_mod. f_equal. lia. Qed.

(** Moving the base up to a SN that is not above [x]. *)
Lemma rel_rebase_sub md b1 b2 x : 0 < md -> rel md b1 b2 <= rel md b1 x -> rel md b2 x = rel md b1 x - rel md b1 b2.
Proof.
  intros Hmd Hle. rewrite (rel_rebase md b1 b2 x Hmd). pose proof (rel_range md b1 x Hmd). pose proof (rel_range md b1 b2 Hmd).
  apply Z.mod_small. lia.
Qed.

(** Moving it past [x]. *)
Lemma rel_rebase_wrap md b1 b2 x : 0 < md -> rel md b1 x < rel md b1 b2 -> rel md b2 x = md - (rel md b1 b2 - rel md b1 x).
Proof.
  intros Hmd Hlt. rewrite (rel_rebase md b1 b2 x Hmd). pose proof (rel_range md b1 x Hmd). pose proof (rel_range md b1 b2 Hmd).
  replace (rel md b1 x - rel md b1 b2) with (md - (rel md b1 b2 - rel md b1 x) + (-1) * md) by lia.
  rewrite Z_mod_plus_full. apply Z.mod_small. lia.
Qed.

Lemma cardinality_pow k : 0 <= k -> cardinality k = 2 ^ k.
Proof. intros. unfold cardinality. by rewrite Z.shiftl_mul_pow2, Z.mul_1_l. Qed.

(** ** The loops over the receive window

    What the loops of [RlcRxBase] find and remove, for every window that satisfies the interface. *)
Section facts.
Context {T W : Type} {init : T} `{SduWindowLaws T W init}.
Implicit Types (w : W).

(** A flag of the SDU of a SN, [false] if there is none. *)
Definition lookup_flag (f : T -> bool) w (sn : Z) : bool := match win_lookup w sn with Some i => f i | None => false end.

Lemma win_flag_spec f w sn : win_inv w -> 0 <= sn -> win_flag f w sn = Some (lookup_flag f w sn).
Proof.
  intros Hw Hs. unfold win_flag, lookup_flag. rewrite win_has, win_get_lookup by done. by destruct (win_lookup w sn).
Qed.

(** The SNs from [a] to before [b], relative to [base]. *)
Definition between (md base a b q : Z) : Prop := rel md base a <= rel md base q < rel md base b.

(** What is left of the window when the SNs of a range were removed. *)
Definition removed (md base a : Z) (b : Z) w w' : Prop :=
  forall q, 0 <= q < md -> win_lookup w' q = if decide (a <= rel md base q < b) then None else win_lookup w q.

Lemma removed_nothing md base a w : removed md base a a w w.
Proof. intros q _. by rewrite decide_False by lia. Qed.

Lemma removed_step md base sn b w w1 w' :
  0 < md -> 0 <= sn < md -> rel md base sn < b ->
  (forall q, 0 <= q -> win_lookup w1 q = if decide (q = sn) then None else win_lookup w q) ->
  removed md base (rel md base sn + 1) b w1 w' -> removed md base (rel md base sn) b w w'.
Proof.
  intros Hmd Hsn Hb H1 H2 q Hq. rewrite H2 by done. rewrite H1 by lia. destruct (decide (q = sn)) as [->|Hne].
  - rewrite decide_False by lia. by rewrite decide_True by lia.
  - assert (rel md base q <> rel md base sn) by (intros E; by apply rel_inj in E).
    destruct (decide (rel md base sn + 1 <= rel md base q < b)).
    + by rewrite decide_True by lia.
    + by rewrite decide_False by lia.
Qed.

Context (full : T -> bool).

Lemma advance_loop_spec md base limit : 0 < md -> limit < md -> forall fuel sn w,
  0 <= sn < md -> win_inv w -> limit - rel md base sn <= Z.of_nat fuel ->
  exists sn' w', advance_loop full fuel (rel md base) limit md sn w = Some (sn', w') /\ 0 <= sn' < md /\
    win_inv w' /\ win_cap w' = win_cap w /\
    rel md base sn <= rel md base sn' /\ (rel md base sn <= limit -> rel md base sn' <= limit) /\
    (forall q, 0 <= q < md -> between md base sn sn' q -> lookup_flag full w q = true /\ win_lookup w' q = None) /\
    (forall q, 0 <= q < md -> ~ between md base sn sn' q -> win_lookup w' q = win_lookup w q) /\
    (rel md base sn' < limit -> lookup_flag full w sn' = false).
Proof.
  intros Hmd Hlim. induction fuel as [|fuel IH]; intros sn w Hsn Hw Hfuel; cbn [advance_loop].
  { destruct (Z.ltb_spec (rel md base sn) limit) as [Hlt|Hge]; [lia|].
    exists sn, w. split_and!; try done; unfold between; intros; lia. }
  destruct (Z.ltb_spec (rel md base sn) limit) as [Hlt|Hge].
  2: { exists sn, w. split_and!; try done; unfold between; intros; lia. }
  rewrite win_flag_spec by (done || lia). cbn [mbind option_bind].
  destruct (lookup_flag full w sn) eqn:Hf.
  2: { exists sn, w. split_and!; try done; unfold between; intros; lia. }
  destruct (win_remove_spec w sn Hw ltac:(lia)) as (w1 & -> & Hw1 & Hc1 & Hl1).
  { unfold lookup_flag in Hf. destruct (win_lookup w sn); [by eexists|done]. }
  pose proof (rel_range md base sn Hmd). pose proof (rel_succ md base sn Hmd ltac:(lia)) as Hs.
  destruct (IH ((sn + 1) mod md) w1) as (sn' & w' & E & Hsn' & Hw' & Hc' & I1 & I2 & I3 & I4 & I5);
    [by apply Z.mod_pos_bound|done|lia|].
  rewrite Hs in *. cbn [mbind option_bind]. exists sn', w'. split_and!; try done; try lia; try congruence.
  - intros q Hq Hb. destruct (decide (q = sn)) as [->|Hne].
    + split; [done|]. rewrite I4 by (unfold between in *; lia). rewrite Hl1 by lia. by rewrite decide_True.
    + assert (Hb' : between md base ((sn + 1) mod md) sn' q).
      { unfold between in *. rewrite Hs. destruct (decide (rel md base q = rel md base sn)) as [E'|]; [|lia].
        by apply rel_inj in E'. }
      destruct (I3 q Hq Hb') as [I3' ->]. split; [|done]. unfold lookup_flag in *. rewrite Hl1 in I3' by lia.
      by rewrite decide_False in I3'.
  - intros q Hq Hb. destruct (decide (q = sn)) as [->|Hne]; [unfold between in Hb; lia|].
    rewrite I4 by (unfold between in *; lia). rewrite Hl1 by lia. by rewrite decide_False.
  - intros Hlt'. specialize (I5 Hlt'). unfold lookup_flag in *. rewrite Hl1 in I5 by lia.
    destruct (decide (sn' = sn)) as [->|]; [lia|done].
Qed.

Lemma advance_loop_ext mb mb' limit md : (forall x, mb x = mb' x) -> forall fuel sn w,
  advance_loop full fuel mb limit md sn w = advance_loop full fuel mb' limit md sn w.
Proof.
  intros E. induction fuel as [|fuel IH]; intros sn w; cbn [advance_loop]; rewrite E; [done|].
  destruct (mb' sn <? limit); [|done]. destruct (win_flag _ w sn) as [[]|]; [|done..]. cbn [mbind option_bind].
  destruct (remove_sn w sn); [|done]. apply IH.
Qed.


Lemma search_loop_ext mb mb' limit md : (forall x, mb x = mb' x) -> forall fuel sn w,
  search_loop full fuel mb limit md sn w = search_loop full fuel mb' limit md sn w.
Proof.
  intros E. induction fuel as [|fuel IH]; intros sn w; cbn [search_loop]; rewrite E; [done|].
  destruct (mb' sn <? limit); [|done]. destruct (win_flag _ w sn) as [[]|]; [|done..]. apply IH.
Qed.

Lemma search_loop_spec md base limit w : 0 < md -> limit < md -> win_inv w -> forall fuel sn,
  0 <= sn < md -> limit - rel md base sn <= Z.of_nat fuel ->
  exists sn', search_loop full fuel (rel md base) limit md sn w = Some sn' /\ 0 <= sn' < md /\
    rel md base sn <= rel md base sn' /\ (rel md base sn <= limit -> rel md base sn' <= limit) /\
    (forall q, 0 <= q < md -> between md base sn sn' q -> lookup_flag full w q = true) /\
    (rel md base sn' < limit -> lookup_flag full w sn' = false).
Proof.
  intros Hmd Hlim Hw. induction fuel as [|fuel IH]; intros sn Hsn Hfuel; cbn [search_loop];
    (destruct (Z.ltb_spec (rel md base sn) limit) as [Hlt|Hge];
     [|exists sn; split_and!; try done; unfold between; intros; lia]); [lia|].
  rewrite win_flag_spec by (done || lia). cbn [mbind option_bind].
  destruct (lookup_flag full w sn) eqn:Hf.
  2: { exists sn. split_and!; try done; unfold between; intros; lia. }
  pose proof (rel_range md base sn Hmd). pose proof (rel_succ md base sn Hmd ltac:(lia)) as Hs.
  destruct (IH ((sn + 1) mod md)) as (sn' & E & Hsn' & I1 & I2 & I3 & I4); [by apply Z.mod_pos_bound|lia|].
  rewrite Hs in *. exists sn'. split_and!; try done; try lia.
  intros q Hq Hb. destruct (decide (q = sn)) as [->|Hne]; [done|]. apply I3; [done|].
  unfold between in *. rewrite Hs. destruct (decide (rel md base q = rel md base sn)) as [E'|]; [|lia]. by apply rel_inj in E'.
Qed.
End facts.
