(* ===== verification/RlcRxUm.v ===== *)
(** * The receiving side of an RLC UM entity ([lib/rlc/rlc_rx_um_entity.h] and [.cpp])

    The state variables of TS 38.322 section 7.1, the reception window and t-Reassembly; the handling of a received PDU and
    of the expiry of the timer. A failed assertion, undefined behaviour and a loop that exceeds its fuel are [None]. *)
From S2P Require Import Prelude ByteCursor RlcConfig ByteBufferChain RlcUmPdu RlcSegments SduWindow RlcRxBase.

(** [rlc_rx_um_sdu_info], without the time of arrival *)
Record rlc_rx_um_sdu_info := UmInfo {
  ui_fully_received : bool;
  ui_has_gap : bool;
  ui_segments : list segment
}.

Definition rlc_rx_um_sdu_info_init : rlc_rx_um_sdu_info := UmInfo false false [].

Section entity.
Context {W : Type} `{SduWindow rlc_rx_um_sdu_info W}.

(** [rlc_rx_um_entity] with its [rlc_rx_um_state]; [timer] tells whether t-Reassembly is running. *)
Record rlc_rx_um_entity := UmRx {
  ur_sn_size : rlc_um_sn_size;
  rx_next_reassembly : Z;
  rx_timer_trigger : Z;
  rx_next_highest : Z;
  rx_window : W;
  reassembly_timer : bool
}.

(** The constructor. *)
Definition um_rx_new (sn_size : rlc_um_sn_size) (w : W) : rlc_rx_um_entity := UmRx sn_size 0 0 0 w false.

Definition um_mod (e : rlc_rx_um_entity) : Z := cardinality (um_sn_to_number (ur_sn_size e)).
Definition um_window_size (e : rlc_rx_um_entity) : Z := window_size (um_sn_to_number (ur_sn_size e)).

Definition um_set_window (w : W) (e : rlc_rx_um_entity) : rlc_rx_um_entity :=
  UmRx (ur_sn_size e) (rx_next_reassembly e) (rx_timer_trigger e) (rx_next_highest e) w (reassembly_timer e).
Definition um_set_next_reassembly (sn : Z) (e : rlc_rx_um_entity) : rlc_rx_um_entity :=
  UmRx (ur_sn_size e) sn (rx_timer_trigger e) (rx_next_highest e) (rx_window e) (reassembly_timer e).
Definition um_set_next_highest (sn : Z) (e : rlc_rx_um_entity) : rlc_rx_um_entity :=
  UmRx (ur_sn_size e) (rx_next_reassembly e) (rx_timer_trigger e) sn (rx_window e) (reassembly_timer e).
Definition um_set_timer (trigger : Z) (running : bool) (e : rlc_rx_um_entity) : rlc_rx_um_entity :=
  UmRx (ur_sn_size e) (rx_next_reassembly e) trigger (rx_next_highest e) (rx_window e) running.

Definition um_rx_mod_base (e : rlc_rx_um_entity) (x : Z) : Z :=
  u32 (u32 (x - rx_next_highest e) - um_window_size e) mod um_mod e.

Definition sn_in_reassembly_window (e : rlc_rx_um_entity) (sn : Z) : bool :=
  (um_rx_mod_base e (u32 (rx_next_highest e - um_window_size e)) <=? um_rx_mod_base e sn) &&
  (um_rx_mod_base e sn <? um_rx_mod_base e (rx_next_highest e)).

Definition sn_invalid_for_rx_buffer (e : rlc_rx_um_entity) (sn : Z) : bool :=
  (um_rx_mod_base e (u32 (rx_next_highest e - um_window_size e)) <=? um_rx_mod_base e sn) &&
  (um_rx_mod_base e sn <? um_rx_mod_base e (rx_next_reassembly e)).

(** [update_segment_inventory] *)
Definition um_update_segment_inventory (rx_sdu : rlc_rx_um_sdu_info) : rlc_rx_um_sdu_info :=
  let '(gap, full) := segment_inventory (ui_segments rx_sdu) in UmInfo full gap (ui_segments rx_sdu).

(** [store_segment] *)
Definition um_store_segment (sdu_info : rlc_rx_um_sdu_info) (new_segment : segment) : bool * rlc_rx_um_sdu_info :=
  let '(stored, l) := store_segment (ui_segments sdu_info) new_segment in
  (stored, UmInfo (ui_fully_received sdu_info) (ui_has_gap sdu_info) l).

(** [reassemble_sdu]; [block] and [max] are what the byte buffer pool offers a chain. *)
Definition um_reassemble_sdu (block : bool) (max : nat) (sdu_info : rlc_rx_um_sdu_info) : option byte_buffer_chain :=
  if negb (ui_fully_received sdu_info) then None else
  sdu ← chain_create block max;
  chain_segments (ui_segments sdu_info) sdu.

(** [handle_segment_data_sdu] *)
Definition um_handle_segment_data_sdu (header : rlc_um_pdu_header) (payload : list Z) (e : rlc_rx_um_entity)
  : option (bool * rlc_rx_um_entity * list rx_event) :=
  if is_full_sdu (um_si header) then Some (false, e, []) else
  '(ok, w) ← (if has_sn (rx_window e) (um_sn header) then Some (true, rx_window e)
              else add_sn (rx_window e) (um_sn header));
  if negb ok then Some (false, um_set_window w e, [AddLost 1]) else
  rx_sdu ← win_get w (um_sn header);
  let '(stored, rx_sdu) := um_store_segment rx_sdu (Seg (um_si header) (um_so header) payload) in
  w ← win_put w (um_sn header) (um_update_segment_inventory rx_sdu);
  Some (stored, um_set_window w e, []).

(** Removing what a SN may hold, counting it as lost unless it was fully received. *)
Definition um_discard (sn_upd : Z) (w : W) : option (W * list rx_event) :=
  if has_sn w sn_upd then
    i ← win_get w sn_upd;
    w ← remove_sn w sn_upd;
    Some (w, if ui_fully_received i then [] else [AddLost 1])
  else Some (w, [AddLost 1]).

(** The loop that cleans what is outside of the reassembly window. *)
Fixpoint um_clean_loop (fuel : nat) (inside : Z -> bool) (md sn_upd : Z) (w : W) (ev : list rx_event)
  : option (Z * W * list rx_event) :=
  if inside sn_upd then Some (sn_upd, w, ev) else
  match fuel with
  | O => None
  | S fuel =>
      '(w, ev1) ← um_discard sn_upd w;
      um_clean_loop fuel inside md ((sn_upd + 1) mod md) w (ev ++ ev1)
  end.

(** The loop of [on_expired_reassembly_timer]. *)
Fixpoint um_expiry_loop (fuel : nat) (mb : Z -> Z) (limit trigger md sn_upd : Z) (w : W) (ev : list rx_event)
  : option (Z * W * list rx_event) :=
  if mb sn_upd <? limit then
    match fuel with
    | O => None
    | S fuel =>
        if mb sn_upd <? mb trigger then
          '(w, ev1) ← um_discard sn_upd w;
          um_expiry_loop fuel mb limit trigger md ((sn_upd + 1) mod md) w (ev ++ ev1)
        else
          full ← win_flag ui_fully_received w sn_upd;
          if (full : bool) then
            w ← remove_sn w sn_upd;
            um_expiry_loop fuel mb limit trigger md ((sn_upd + 1) mod md) w ev
          else Some (sn_upd, w, ev)
    end
  else Some (sn_upd, w, ev).

Definition um_fuel (e : rlc_rx_um_entity) : nat := Z.to_nat (um_mod e).

(** [handle_pdu], the actions when all segments with SN = x are received *)
Definition um_all_received (block : bool) (max : nat) (sn : Z) (e : rlc_rx_um_entity)
  : option (rlc_rx_um_entity * list rx_event) :=
  sdu_info ← win_get (rx_window e) sn;
  let ev := deliver_events (um_reassemble_sdu block max sdu_info) in
  w ← win_put (rx_window e) sn (UmInfo (ui_fully_received sdu_info) (ui_has_gap sdu_info) []);
  let e := um_set_window w e in
  if sn =? rx_next_reassembly e then
    '(sn_upd, w) ← advance_loop ui_fully_received (um_fuel e) (um_rx_mod_base e) (um_rx_mod_base e (rx_next_highest e)) (um_mod e)
                     (rx_next_reassembly e mod um_mod e) (rx_window e);
    Some (um_set_next_reassembly sn_upd (um_set_window w e), ev)
  else Some (e, ev).

(** [handle_pdu], the actions when x falls outside of the reassembly window *)
Definition um_outside_window (sn : Z) (e : rlc_rx_um_entity) : option (rlc_rx_um_entity * list rx_event) :=
  let e := um_set_next_highest ((sn + 1) mod um_mod e) e in
  '(sn_upd, w, ev) ← um_clean_loop (um_fuel e) (sn_in_reassembly_window e) (um_mod e)
                       (rx_next_reassembly e mod um_mod e) (rx_window e) [];
  '(sn_upd, w) ← advance_loop ui_fully_received (um_fuel e) (um_rx_mod_base e) (um_rx_mod_base e (rx_next_highest e)) (um_mod e) sn_upd w;
  Some (um_set_next_reassembly sn_upd (um_set_window w e), ev).

(** The condition to start t-Reassembly, in [handle_pdu] and in [on_expired_reassembly_timer] *)
Definition um_restart_reassembly_timer (e : rlc_rx_um_entity) : option rlc_rx_um_entity :=
  let restart := um_rx_mod_base e (u32 (rx_next_reassembly e + 1)) <? um_rx_mod_base e (rx_next_highest e) in
  restart ←
    (if um_rx_mod_base e (rx_next_highest e) =? um_rx_mod_base e (u32 (rx_next_reassembly e + 1)) then
       gap ← win_flag ui_has_gap (rx_window e) (rx_next_highest e); Some (restart || gap)
     else Some restart);
  if (restart : bool) then Some (um_set_timer (rx_next_highest e) true e) else Some e.

(** [handle_pdu], "if t-Reassembly is running" *)
Definition um_stop_reassembly_timer (e : rlc_rx_um_entity) : option rlc_rx_um_entity :=
  if reassembly_timer e then
    let stop := (rx_timer_trigger e <=? rx_next_reassembly e) ||
                (negb (sn_in_reassembly_window e (rx_timer_trigger e)) &&
                 negb (rx_timer_trigger e =? rx_next_highest e)) in
    stop ←
      (if rx_next_highest e =? u32 (rx_next_reassembly e + 1) then
         no_gap ← win_flag (fun i => negb (ui_has_gap i)) (rx_window e) (rx_next_highest e);
         Some (stop || no_gap)
       else Some stop);
    Some (um_set_timer (rx_timer_trigger e) (negb stop) e)
  else Some e.

(** [handle_pdu], from "if t-Reassembly is running" to the end *)
Definition um_update_timer (e : rlc_rx_um_entity) : option rlc_rx_um_entity :=
  e ← um_stop_reassembly_timer e;
  if negb (reassembly_timer e) then um_restart_reassembly_timer e else Some e.

(** [handle_pdu], the actions when a UMD PDU is placed in the reception buffer *)
Definition um_placed (block : bool) (max : nat) (sn : Z) (e : rlc_rx_um_entity)
  : option (rlc_rx_um_entity * list rx_event) :=
  full ← win_flag ui_fully_received (rx_window e) sn;
  '(e, ev) ← (if (full : bool) then um_all_received block max sn e
              else if negb (sn_in_reassembly_window e sn) then um_outside_window sn e
              else Some (e, []));
  e ← um_update_timer e;
  Some (e, ev).

(** [handle_pdu] *)
Definition um_handle_pdu (block : bool) (max : nat) (buf : list Z) (e : rlc_rx_um_entity)
  : option (rlc_rx_um_entity * list rx_event) :=
  let ev := [AddPdus 1 (rd_length buf)] in
  '(ok, header) ← rlc_um_read_data_pdu_header buf (ur_sn_size e) rlc_um_pdu_header_init;
  if negb ok then Some (e, ev ++ [AddMalformed 1]) else
  let header_len := rlc_um_nr_packed_length header in
  if rd_length buf <=? header_len then Some (e, ev) else
  let payload := advance header_len buf in
  if is_full_sdu (um_si header) then Some (e, ev ++ deliver_events (chain_create_from block max payload)) else
  if sn_invalid_for_rx_buffer e (um_sn header) then Some (e, ev) else
  '(stored, e, ev1) ← um_handle_segment_data_sdu header payload e;
  if negb stored then Some (e, ev ++ ev1) else
  '(e, ev2) ← um_placed block max (um_sn header) e;
  Some (e, ev ++ ev1 ++ ev2).

(** [on_expired_reassembly_timer]. The timer itself stops running when it expires. *)
Definition um_on_expired_reassembly_timer (e : rlc_rx_um_entity) : option (rlc_rx_um_entity * list rx_event) :=
  '(sn_upd, w, ev) ← um_expiry_loop (um_fuel e) (um_rx_mod_base e) (um_rx_mod_base e (rx_next_highest e))
                       (rx_timer_trigger e) (um_mod e) (rx_next_reassembly e) (rx_window e) [];
  e ← um_restart_reassembly_timer (um_set_next_reassembly sn_upd (um_set_window w e));
  Some (e, ev).

(** The inputs of the entity: a PDU from the lower layer, with what the byte buffer pool offers at that time, and the expiry
    of t-Reassembly, which happens only while it is running. *)
Inductive um_input := UmPdu (block : bool) (max : nat) (buf : list Z) | UmExpiry.

Definition um_step (e : rlc_rx_um_entity) (i : um_input) : option (rlc_rx_um_entity * list rx_event) :=
  match i with
  | UmPdu block max buf => um_handle_pdu block max buf e
  | UmExpiry =>
      if reassembly_timer e then um_on_expired_reassembly_timer (um_set_timer (rx_timer_trigger e) false e)
      else Some (e, [])
  end.

Fixpoint um_run (e : rlc_rx_um_entity) (l : list um_input) : option (rlc_rx_um_entity * list rx_event) :=
  match l with
  | [] => Some (e, [])
  | i :: l => '(e, ev) ← um_step e i; '(e, ev') ← um_run e l; Some (e, ev ++ ev')
  end.
End entity.

Arguments rlc_rx_um_entity : clear implicits.
