(* ===== verification/RlcRxUmFacts.v ===== *)
(** * Properties of the UM receiver

    The invariant of the state variables, the loops over the reception window, and the theorems about [um_handle_pdu] and
    [um_on_expired_reassembly_timer], for every window that satisfies the interface. *)
From S2P Require Import Prelude ByteCursor RlcConfig ByteBufferChain RlcUmPdu RlcSegments SduWindow RlcRxBase.
From S2P Require Import RlcRxUm.

(** Whether the SDU of a SN is fully received. *)
Abbreviation um_full := (lookup_flag ui_fully_received).

Section facts.
Context {W : Type} `{SduWindowLaws rlc_rx_um_sdu_info W rlc_rx_um_sdu_info_init}.
Notation entity := (rlc_rx_um_entity W).
Implicit Types (e : entity) (w : W).

(** ** Arithmetic *)

Lemma um_geometry e : um_mod e = 2 * um_window_size e /\ 32 <= um_window_size e <= 2048 /\
  exists k, 0 <= k <= 32 /\ um_mod e = 2 ^ k.
Proof.
  unfold um_mod, um_window_size. destruct (ur_sn_size e); (split_and!; [reflexivity|vm_compute; congruence..|]);
    [exists 6|exists 12]; split; (lia || reflexivity).
Qed.

(** The modulus base of the receiver is the lower edge of the reassembly window. *)
Notation um_rel e := (rel (um_mod e) (rx_next_highest e - um_window_size e)).

Lemma um_rx_mod_base_rel e x : um_rx_mod_base e x = um_rel e x.
Proof.
  destruct (um_geometry e) as (Hm & _ & k & Hk & E). unfold um_rx_mod_base, rel.
  replace (x - (rx_next_highest e - um_window_size e)) with (x - rx_next_highest e - um_window_size e + 1 * um_mod e) by lia.
  rewrite Z_mod_plus_full, E, mod_pow2_u32 by done.
  by rewrite <- Zminus_mod_idemp_l, mod_pow2_u32, Zminus_mod_idemp_l by done.
Qed.

Lemma um_rel_mod_pow e x y : x mod um_mod e = y mod um_mod e -> um_rel e x = um_rel e y.
Proof.
  intros E. destruct (um_geometry e) as (Hm & Hw & _). unfold rel. by rewrite <- Zminus_mod_idemp_l, E, Zminus_mod_idemp_l.
Qed.

Lemma um_rel_u32 e x : um_rel e (u32 x) = um_rel e x.
Proof. destruct (um_geometry e) as (_ & _ & k & Hk & E). apply um_rel_mod_pow. rewrite E. by apply mod_pow2_u32. Qed.

Lemma um_rel_highest e : um_rel e (rx_next_highest e) = um_window_size e.
Proof. destruct (um_geometry e) as (? & ? & _). unfold rel. rewrite Z.mod_small by lia. lia. Qed.

Lemma um_rel_low e : um_rel e (rx_next_highest e - um_window_size e) = 0.
Proof. destruct (um_geometry e) as (? & ? & _). apply rel_self. lia. Qed.

Lemma um_rel_range e x : 0 <= um_rel e x < um_mod e.
Proof. destruct (um_geometry e) as (? & ? & _). apply rel_range. lia. Qed.

Lemma in_window_rel e sn : sn_in_reassembly_window e sn = (um_rel e sn <? um_window_size e).
Proof.
  unfold sn_in_reassembly_window. rewrite !um_rx_mod_base_rel, um_rel_u32, um_rel_low, um_rel_highest.
  pose proof (um_rel_range e sn). by rewrite (proj2 (Z.leb_le _ _)) by lia.
Qed.

Lemma invalid_rel e sn : sn_invalid_for_rx_buffer e sn = (um_rel e sn <? um_rel e (rx_next_reassembly e)).
Proof.
  unfold sn_invalid_for_rx_buffer. rewrite !um_rx_mod_base_rel, um_rel_u32, um_rel_low.
  pose proof (um_rel_range e sn). by rewrite (proj2 (Z.leb_le _ _)) by lia.
Qed.

(** ** Loops *)

(** The number of SNs, among the [n] from [sn] on, whose SDU is not fully received. *)
Fixpoint count_lost (n : nat) (md sn : Z) w : Z :=
  match n with
  | O => 0
  | S n => (if um_full w sn then 0 else 1) + count_lost n md ((sn + 1) mod md) w
  end.

Lemma count_lost_ext md base w w' : 0 < md -> forall n sn,
  0 <= sn < md -> rel md base sn + Z.of_nat n <= md ->
  (forall q, 0 <= q < md -> rel md base sn <= rel md base q -> win_lookup w' q = win_lookup w q) ->
  count_lost n md sn w' = count_lost n md sn w.
Proof.
  intros Hmd. induction n as [|n IH]; intros sn Hsn Hle Hq; [done|]. cbn [count_lost]. unfold lookup_flag at 1 2.
  rewrite Hq by lia. f_equal. destruct n as [|n]; [done|].
  pose proof (rel_succ md base sn Hmd ltac:(lia)) as Hs.
  apply IH; [by apply Z.mod_pos_bound|lia|]. intros q ? ?. apply Hq; [done|lia].
Qed.

Lemma um_discard_spec sn w :
  win_inv w -> 0 <= sn ->
  exists w' ev, um_discard sn w = Some (w', ev) /\ win_inv w' /\ win_cap w' = win_cap w /\ delivered ev = [] /\
    lost ev = (if um_full w sn then 0 else 1) /\
    forall q, 0 <= q -> win_lookup w' q = if decide (q = sn) then None else win_lookup w q.
Proof.
  intros Hw Hs. unfold um_discard, um_full. rewrite win_has, win_get_lookup by done.
  destruct (win_lookup w sn) as [i|] eqn:E.
  - rewrite bool_decide_true by eauto. destruct (win_remove_spec w sn Hw Hs) as (w1 & E1 & ? & ? & ?); [by eexists|].
    cbn [mbind option_bind]. rewrite E1. cbn [mbind option_bind]. eexists _, _. split; [done|].
    split_and!; [done|done|by destruct (ui_fully_received i)|by destruct (ui_fully_received i)|done].
  - rewrite bool_decide_false by (by intros []). eexists _, _. split_and!; [done..|].
    intros q Hq. by case_decide; subst.
Qed.

(** The events of one discarded SN, added to those of the following ones. *)
Lemma lost_discard_step md base sn n w w1 :
  0 < md -> 0 <= sn < md -> rel md base sn + Z.of_nat (S n) <= md ->
  (forall q, 0 <= q -> win_lookup w1 q = if decide (q = sn) then None else win_lookup w q) ->
  (if um_full w sn then 0 else 1) + count_lost n md ((sn + 1) mod md) w1 = count_lost (S n) md sn w.
Proof.
  intros Hmd Hsn Hle Hq. cbn [count_lost]. f_equal. destruct n as [|n]; [done|].
  pose proof (rel_succ md base sn Hmd ltac:(lia)) as Hs.
  apply (count_lost_ext md base); [done|by apply Z.mod_pos_bound|lia|].
  intros q ? ?. rewrite Hq by lia. rewrite decide_False; [done|]. intros ->. lia.
Qed.

Lemma um_clean_loop_spec md base L : 0 < L < md -> forall fuel sn w ev,
  0 <= sn < md -> win_inv w -> (L <= rel md base sn -> md - rel md base sn <= Z.of_nat fuel) ->
  exists sn' w' ev', um_clean_loop fuel (fun q => rel md base q <? L) md sn w ev = Some (sn', w', ev ++ ev') /\
    0 <= sn' < md /\ win_inv w' /\ win_cap w' = win_cap w /\ delivered ev' = [] /\
    if decide (rel md base sn < L) then sn' = sn /\ w' = w /\ ev' = []
    else rel md base sn' = 0 /\ removed md base (rel md base sn) md w w' /\
      lost ev' = count_lost (Z.to_nat (md - rel md base sn)) md sn w.
Proof.
  intros HL. assert (Hmd : 0 < md) by lia. induction fuel as [|fuel IH]; intros sn w ev Hsn Hw Hfuel; cbn [um_clean_loop];
    pose proof (rel_range md base sn Hmd); (destruct (Z.ltb_spec (rel md base sn) L) as [Hin|Hout];
    [exists sn, w, []; rewrite app_nil_r; by rewrite decide_True by done|]); [lia|].
  destruct (um_discard_spec sn w Hw ltac:(lia)) as (w1 & ev1 & -> & Hw1 & Hc1 & Hd1 & Hl1 & Hq1). cbn [mbind option_bind].
  destruct (IH ((sn + 1) mod md) w1 (ev ++ ev1)) as (sn' & w' & ev' & -> & Hsn' & Hw' & Hc' & Hd' & Hrest);
    [by apply Z.mod_pos_bound|done| |].
  { destruct (decide (rel md base sn + 1 < md)); [rewrite rel_succ by lia; lia|].
    rewrite rel_mod, rel_add by done. replace (rel md base sn + 1) with md by lia. rewrite Z.mod_same by lia. lia. }
  exists sn', w', (ev1 ++ ev'). rewrite decide_False by lia. rewrite <- app_assoc, delivered_app, Hd1, Hd', lost_app.
  do 5 (split; [done || congruence|]).
  replace (Z.to_nat (md - rel md base sn)) with (S (Z.to_nat (md - (rel md base sn + 1)))) by lia.
  rewrite <- (lost_discard_step md base sn (Z.to_nat (md - (rel md base sn + 1))) w w1), Hl1 by (done || lia).
  destruct (decide (rel md base sn + 1 < md)).
  - rewrite rel_succ in Hrest by lia. rewrite decide_False in Hrest by lia. destruct Hrest as (R1 & R2 & R3).
    split_and!; [done| |by rewrite R3]. eapply removed_step; [done|done|lia|done|done].
  - assert (E0 : rel md base ((sn + 1) mod md) = 0).
    { rewrite rel_mod, rel_add by done. replace (rel md base sn + 1) with md by lia. rewrite Z.mod_same; lia. }
    rewrite E0, decide_True in Hrest by lia. destruct Hrest as (-> & -> & ->).
    split_and!; [done| |].
    + eapply removed_step; [done|done|lia|done|]. replace (rel md base sn + 1) with md by lia. apply removed_nothing.
    + replace (Z.to_nat _) with O by lia. done.
Qed.

Lemma um_expiry_loop_spec md base limit trigger : 0 < md -> limit < md -> forall fuel sn w ev,
  0 <= sn < md -> win_inv w -> limit - rel md base sn <= Z.of_nat fuel ->
  let T := rel md base trigger in
  exists sn' w' ev', um_expiry_loop fuel (rel md base) limit trigger md sn w ev = Some (sn', w', ev ++ ev') /\
    0 <= sn' < md /\ win_inv w' /\ win_cap w' = win_cap w /\ delivered ev' = [] /\
    lost ev' = count_lost (Z.to_nat (Z.min T limit - rel md base sn)) md sn w /\
    rel md base sn <= rel md base sn' /\ (rel md base sn <= limit -> rel md base sn' <= limit) /\
    removed md base (rel md base sn) (rel md base sn') w w' /\
    (forall q, 0 <= q < md -> between md base sn sn' q -> T <= rel md base q -> um_full w q = true) /\
    (rel md base sn' < limit -> T <= rel md base sn' /\ um_full w sn' = false).
Proof.
  intros Hmd Hlim fuel sn w ev Hsn Hw Hfuel T. revert sn w ev Hsn Hw Hfuel.
  induction fuel as [|fuel IH]; intros sn w ev Hsn Hw Hfuel; cbn [um_expiry_loop];
    pose proof (rel_range md base sn Hmd); (destruct (Z.ltb_spec (rel md base sn) limit) as [Hlt|Hge];
    [|exists sn, w, []; rewrite app_nil_r; replace (Z.to_nat _) with O by lia;
      split_and!; try done; try (unfold between; lia); apply removed_nothing]); [lia|].
  fold T. pose proof (rel_succ md base sn Hmd ltac:(lia)) as Hs.
  assert (Hnext : 0 <= (sn + 1) mod md < md) by (by apply Z.mod_pos_bound).
  assert (Hb : forall sn' q, q <> sn -> 0 <= q < md -> between md base sn sn' q -> between md base ((sn + 1) mod md) sn' q).
  { unfold between. intros sn' q Hne Hq Hb. rewrite Hs.
    destruct (decide (rel md base q = rel md base sn)) as [E'|]; [by apply rel_inj in E'|lia]. }
  destruct (Z.ltb_spec (rel md base sn) T) as [HT|HT].
  - destruct (um_discard_spec sn w Hw ltac:(lia)) as (w1 & ev1 & -> & Hw1 & Hc1 & Hd1 & Hl1 & Hq1). cbn [mbind option_bind].
    destruct (IH ((sn + 1) mod md) w1 (ev ++ ev1)) as (sn' & w' & ev' & -> & I1 & I2 & I3 & I4 & I5 & I6 & I7 & I8 & I9 & I10);
      [done|done|lia|]. rewrite Hs in *.
    exists sn', w', (ev1 ++ ev'). rewrite <- app_assoc, delivered_app, Hd1, I4, lost_app, I5, Hl1.
    split_and!; try done; try lia; try congruence.
    + replace (Z.to_nat (Z.min T limit - rel md base sn)) with (S (Z.to_nat (Z.min T limit - (rel md base sn + 1)))) by lia.
      apply (lost_discard_step md base); (done || lia).
    + eapply removed_step; [done|done|lia|done|done].
    + intros q Hq Hbq HTq. assert (Hne : q <> sn) by (intros ->; lia).
      specialize (I9 q Hq (Hb _ _ Hne Hq Hbq) HTq). unfold lookup_flag in *. rewrite Hq1 in I9 by lia.
      by rewrite decide_False in I9.
    + intros Hl. destruct (I10 Hl) as [? I10']. split; [done|]. unfold lookup_flag in *. rewrite Hq1 in I10' by lia.
      rewrite decide_False in I10'; [done|]. intros ->. lia.
  - rewrite win_flag_spec by (done || lia). cbn [mbind option_bind].
    destruct (um_full w sn) eqn:Hf.
    2: { exists sn, w, []. rewrite app_nil_r. replace (Z.to_nat _) with O by lia.
         split_and!; try done; try (unfold between; lia); apply removed_nothing. }
    destruct (win_remove_spec w sn Hw ltac:(lia)) as (w1 & -> & Hw1 & Hc1 & Hq1).
    { unfold lookup_flag in Hf. destruct (win_lookup w sn); [by eexists|done]. }
    cbn [mbind option_bind].
    destruct (IH ((sn + 1) mod md) w1 ev) as (sn' & w' & ev' & -> & I1 & I2 & I3 & I4 & I5 & I6 & I7 & I8 & I9 & I10);
      [done|done|lia|]. rewrite Hs in *.
    exists sn', w', ev'. split_and!; try done; try lia; try congruence.
    + rewrite I5. replace (Z.to_nat (Z.min T limit - (rel md base sn + 1))) with O by lia.
      by replace (Z.to_nat (Z.min T limit - rel md base sn)) with O by lia.
    + eapply removed_step; [done|done|lia|done|done].
    + intros q Hq Hbq HTq. destruct (decide (q = sn)) as [->|Hne]; [done|].
      specialize (I9 q Hq (Hb _ _ Hne Hq Hbq) HTq). unfold lookup_flag in *. rewrite Hq1 in I9 by lia.
      by rewrite decide_False in I9.
    + intros Hl. destruct (I10 Hl) as [? I10']. split; [done|]. unfold lookup_flag in *. rewrite Hq1 in I10' by lia.
      rewrite decide_False in I10'; [done|]. intros ->. lia.
Qed.

(** The loops depend on [rx_mod_base] only through its values. *)
Lemma um_clean_loop_ext f g md : (forall x, f x = g x) -> forall fuel sn w ev,
  um_clean_loop fuel f md sn w ev = um_clean_loop fuel g md sn w ev.
Proof.
  intros E. induction fuel as [|fuel IH]; intros sn w ev; cbn [um_clean_loop]; rewrite E; [done|].
  destruct (g sn); [done|]. destruct (um_discard sn w) as [[? ?]|]; [|done]. apply IH.
Qed.

Lemma um_expiry_loop_ext mb mb' limit trigger md : (forall x, mb x = mb' x) -> forall fuel sn w ev,
  um_expiry_loop fuel mb limit trigger md sn w ev = um_expiry_loop fuel mb' limit trigger md sn w ev.
Proof.
  intros E. induction fuel as [|fuel IH]; intros sn w ev; cbn [um_expiry_loop]; rewrite !E; [done|].
  destruct (mb' sn <? limit); [|done]. destruct (mb' sn <? mb' trigger).
  - destruct (um_discard sn w) as [[? ?]|]; [|done]. apply IH.
  - destruct (win_flag _ w sn) as [[]|]; [|done..]. cbn [mbind option_bind]. destruct (remove_sn w sn); [|done]. apply IH.
Qed.

(** Advancing the lower edge inside the window. *)
Lemma um_advance_spec e sn w :
  0 <= sn < um_mod e -> win_inv w ->
  exists sn' w', advance_loop ui_fully_received (um_fuel e) (um_rx_mod_base e) (um_rx_mod_base e (rx_next_highest e)) (um_mod e) sn w
      = Some (sn', w') /\ 0 <= sn' < um_mod e /\ win_inv w' /\ win_cap w' = win_cap w /\
    um_rel e sn <= um_rel e sn' /\ (um_rel e sn <= um_window_size e -> um_rel e sn' <= um_window_size e) /\
    (forall q, 0 <= q < um_mod e -> um_rel e sn <= um_rel e q < um_rel e sn' -> um_full w q = true) /\
    removed (um_mod e) (rx_next_highest e - um_window_size e) (um_rel e sn) (um_rel e sn') w w' /\
    (um_rel e sn' < um_window_size e -> um_full w sn' = false).
Proof.
  intros Hsn Hw. destruct (um_geometry e) as (Hm & Hws & _). rewrite um_rx_mod_base_rel, um_rel_highest.
  rewrite (advance_loop_ext _ _ (um_rel e)) by (intros; apply um_rx_mod_base_rel).
  destruct (advance_loop_spec ui_fully_received (um_mod e) (rx_next_highest e - um_window_size e) (um_window_size e)
    ltac:(lia) ltac:(lia) (um_fuel e) sn w Hsn Hw) as (sn' & w' & -> & I1 & I2 & I3 & I4 & I5 & I6 & I7 & I8).
  { pose proof (um_rel_range e sn). unfold um_fuel. lia. }
  exists sn', w'. split_and!; try done; try lia.
  - intros q Hq Hb. by apply (I6 q Hq Hb).
  - intros q Hq. case_decide as Hd; [by apply (I6 q Hq Hd)|by apply (I7 q Hq Hd)].
Qed.
End facts.
