(* ===== verification/RlcRxUmSteps.v ===== *)
(** * The handlers of the UM receiver

    What each part of [um_handle_pdu] and [um_on_expired_reassembly_timer] does to the state, and the theorems about whole
    runs: no assertion fails and every loop ends, what is delivered is what was sent, and what the expiry of t-Reassembly
    discards. *)
From S2P Require Import Prelude ByteCursor RlcConfig ByteBufferChain RlcUmPdu RlcSegments SegmentedCircularMap.
From S2P Require Import SduWindow RlcRxBase RlcRxUm RlcRxUmFacts.

Section steps.
Context {W : Type} `{SduWindowLaws rlc_rx_um_sdu_info W rlc_rx_um_sdu_info_init}.
Notation entity := (rlc_rx_um_entity W).
Implicit Types (e : entity) (w : W).
Notation um_rel e := (rel (um_mod e) (rx_next_highest e - um_window_size e)).

Definition um_inv e : Prop :=
  0 <= rx_next_reassembly e < um_mod e /\ 0 <= rx_timer_trigger e < um_mod e /\ 0 <= rx_next_highest e < um_mod e /\
  win_inv (rx_window e) /\ um_rel e (rx_next_reassembly e) <= um_window_size e.

Lemma um_inv_intro nr w nh e :
  0 <= nr < um_mod e -> 0 <= rx_timer_trigger e < um_mod e -> 0 <= nh < um_mod e -> win_inv w ->
  rel (um_mod e) (nh - um_window_size e) nr <= um_window_size e ->
  um_inv (um_set_next_reassembly nr (um_set_window w (um_set_next_highest nh e))).
Proof. intros ? ? ? ? ?. unfold um_inv. split; [done|]. split; [done|]. split; [done|]. by split. Qed.

(** A property of every SDU in the window. *)
Definition um_all (P : Z -> rlc_rx_um_sdu_info -> Prop) (md : Z) w : Prop :=
  forall q i, 0 <= q < md -> win_lookup w q = Some i -> P q i.

Definition cleared (i : rlc_rx_um_sdu_info) : rlc_rx_um_sdu_info := UmInfo (ui_fully_received i) (ui_has_gap i) [].

Lemma um_all_removed P md base a b w w' : um_all P md w -> removed md base a b w w' -> um_all P md w'.
Proof. intros HP Hr q i Hq. rewrite Hr by done. case_decide; [done|]. by apply HP. Qed.

Lemma um_fuel_enough e x : um_window_size e - um_rel e x <= Z.of_nat (um_fuel e).
Proof. destruct (um_geometry e) as (? & ? & _). pose proof (um_rel_range e x). unfold um_fuel. lia. Qed.

(** *** Storing a segment *)

(** The window has an entry for the SN, or memory for one. *)
Definition um_room (sn : Z) w : Prop := is_Some (win_lookup w sn) \/ exists w', add_sn w sn = Some (true, w').

Lemma um_handle_segment_spec header payload e :
  um_inv e -> 0 <= um_sn header < um_mod e -> um_si header <> full_sdu ->
  let sn := um_sn header in
  let seg := Seg (um_si header) (um_so header) payload in
  exists stored w ev, um_handle_segment_data_sdu header payload e = Some (stored, um_set_window w e, ev) /\
    win_inv w /\ win_cap w = win_cap (rx_window e) /\ delivered ev = [] /\
    (forall q i, 0 <= q -> q <> sn -> win_lookup w q = Some i -> win_lookup (rx_window e) q = Some i) /\
    ((stored = false /\ w = rx_window e /\ win_lookup w sn = None /\ lost ev = 1 /\ ~ um_room sn (rx_window e)) \/
     (let '(ok, i) := um_store_segment (default rlc_rx_um_sdu_info_init (win_lookup (rx_window e) sn)) seg in
      stored = ok /\ win_lookup w sn = Some (um_update_segment_inventory i) /\ ev = [])).
Proof.
  intros (_ & _ & _ & Hw & _) Hsn Hsi sn seg. assert (Hs0 : 0 <= sn) by (unfold sn; lia). unfold um_handle_segment_data_sdu.
  assert (is_full_sdu (um_si header) = false) as -> by (by destruct (um_si header)).
  rewrite win_has by (done || lia). fold sn seg.
  destruct (win_lookup (rx_window e) sn) as [i0|] eqn:E.
  - rewrite bool_decide_true by eauto. cbn [mbind option_bind negb]. rewrite win_get_lookup, E by (done || lia).
    cbn [mbind option_bind from_option id]. destruct (um_store_segment i0 seg) as [ok i1].
    destruct (win_put_spec (rx_window e) sn (um_update_segment_inventory i1) Hw) as (w & -> & Hw' & Hc & Hl); [lia|eauto|].
    eexists _, _, _. split; [reflexivity|]. split_and!; [done|done|done| |].
    + intros q i Hq Hne. rewrite Hl by done. by rewrite decide_False.
    + right. cbn iota. split_and!; [done| |done]. rewrite Hl by lia. by rewrite decide_True.
  - rewrite bool_decide_false by (by intros []).
    destruct (win_add_spec (rx_window e) sn Hw ltac:(lia) E) as (ok & w & Ea & Hw' & Hc & Hok). rewrite Ea. cbn [mbind option_bind].
    destruct ok; cbn [negb].
    + rewrite win_get_lookup, Hok, decide_True by (done || lia). cbn [mbind option_bind from_option id].
      destruct (um_store_segment _ seg) as [ok i1].
      destruct (win_put_spec w sn (um_update_segment_inventory i1) Hw') as (w1 & -> & Hw1 & Hc1 & Hl1); [lia| |].
      { rewrite Hok, decide_True by (done || lia). eauto. }
      eexists _, _, _. split; [reflexivity|]. split_and!; [done|congruence|done| |].
      * intros q i Hq Hne. rewrite Hl1, decide_False, Hok, decide_False by done. by case_decide.
      * right. cbn iota. split_and!; [done| |done]. rewrite Hl1 by lia. by rewrite decide_True.
    + subst w. eexists _, _, _. split; [reflexivity|]. split_and!; [done..|]. left. split_and!; [done..|].
      intros [[j Hj]|[w' Ew]]; congruence.
Qed.

(** *** All segments received *)
Lemma um_all_received_spec P block max sn e i :
  um_inv e -> 0 <= sn < um_mod e -> win_lookup (rx_window e) sn = Some i ->
  um_all P (um_mod e) (rx_window e) -> P sn (cleared i) ->
  exists nr w, um_all_received block max sn e
      = Some (um_set_next_reassembly nr (um_set_window w e), deliver_events (um_reassemble_sdu block max i)) /\
    um_inv (um_set_next_reassembly nr (um_set_window w e)) /\ um_all P (um_mod e) w /\
    (sn <> rx_next_reassembly e -> nr = rx_next_reassembly e).
Proof.
  intros Hinv Hsn Hi HP Hclear. pose proof Hinv as (Hnr & Ht & Hnh & Hw & Hrel). unfold um_all_received.
  rewrite win_get_lookup, Hi by (done || lia). cbn [mbind option_bind]. fold (cleared i).
  destruct (win_put_spec (rx_window e) sn (cleared i) Hw) as (w & -> & Hw' & Hc & Hl); [lia|eauto|].
  cbn [mbind option_bind]. set (e1 := um_set_window w e).
  assert (HP1 : um_all P (um_mod e) w).
  { intros q j Hq. rewrite Hl by lia. case_decide; [intros [= <-]; by subst|]. by apply HP. }
  destruct (Z.eqb_spec sn (rx_next_reassembly e1)) as [Heq|Hne].
  - destruct (um_geometry e) as (Hm & Hws & _).
    destruct (um_advance_spec e1 (rx_next_reassembly e1 mod um_mod e1) w) as (sn' & w' & E & I1 & I2 & I3 & I4 & I5 & I6 & I7 & _);
      [apply Z.mod_pos_bound; change (0 < um_mod e); lia|done|].
    change (rx_window e1) with w. rewrite E. cbn [mbind option_bind].
    exists sn', w'. split; [done|]. split; [|split; [by eapply um_all_removed|done]].
    apply (um_inv_intro sn' w' (rx_next_highest e)); [done..|]. apply I5. change (um_rel e (rx_next_reassembly e mod um_mod e) <= um_window_size e).
    by rewrite rel_mod by lia.
  - exists (rx_next_reassembly e), w. split; [by destruct e|]. split; [|done]. by apply (um_inv_intro _ w (rx_next_highest e)).
Qed.

(** *** A SN outside of the reassembly window *)
Lemma um_outside_window_spec P sn e :
  um_inv e -> 0 <= sn < um_mod e -> um_all P (um_mod e) (rx_window e) ->
  exists nr w ev, um_outside_window sn e
      = Some (um_set_next_reassembly nr (um_set_window w (um_set_next_highest ((sn + 1) mod um_mod e) e)), ev) /\
    let e' := um_set_next_reassembly nr (um_set_window w (um_set_next_highest ((sn + 1) mod um_mod e) e)) in
    um_inv e' /\ um_all P (um_mod e) w /\ delivered ev = [] /\ (um_full (rx_window e) sn = false -> win_lookup w sn = win_lookup (rx_window e) sn).
Proof.
  intros (Hnr & Ht & Hnh & Hw & Hrel) Hsn HP. unfold um_outside_window. cbv zeta.
  set (e1 := um_set_next_highest ((sn + 1) mod um_mod e) e).
  destruct (um_geometry e) as (Hm & Hws & _).
  rewrite (um_clean_loop_ext _ (fun q => um_rel e1 q <? um_window_size e1)) by (intros; apply in_window_rel).
  change (rx_next_reassembly e1) with (rx_next_reassembly e). rewrite (Z.mod_small (rx_next_reassembly e)) by done.
  destruct (um_clean_loop_spec (um_mod e1) (rx_next_highest e1 - um_window_size e1) (um_window_size e1)
    ltac:(change (0 < um_window_size e < um_mod e); lia) (um_fuel e1) (rx_next_reassembly e) (rx_window e1) [] Hnr Hw)
    as (sn1 & w1 & ev1 & -> & Hsn1 & Hw1 & _ & Hd1 & Hrest1).
  { intros _. pose proof (um_rel_range e1 (rx_next_reassembly e)). change (um_mod e1) with (um_mod e) in *.
    unfold um_fuel. change (um_mod e1) with (um_mod e). lia. }
  cbn [mbind option_bind].
  destruct (um_advance_spec e1 sn1 w1 Hsn1 Hw1) as (sn2 & w2 & -> & Hsn2 & Hw2 & _ & _ & Hle & Hpass & Hr2 & _).
  cbn [mbind option_bind]. exists sn2, w2, ev1. split; [done|]. cbv zeta.
  assert (HP1 : um_all P (um_mod e) w1).
  { destruct (decide _) as [Hd|Hd]; destruct_and?; subst; [done|]. by eapply um_all_removed. }
  assert (Hkeep1 : win_lookup w1 sn = win_lookup (rx_window e) sn).
  { assert (Es : um_rel e1 sn = um_window_size e - 1).
    { unfold rel. change (rx_next_highest e1) with ((sn + 1) mod um_mod e). change (um_mod e1) with (um_mod e). change (um_window_size e1) with (um_window_size e).
      rewrite <- Zminus_mod_idemp_r. replace ((sn + 1) mod um_mod e - um_window_size e) with ((sn + 1) mod um_mod e + (- um_window_size e)) by lia.
      rewrite Zplus_mod_idemp_l, Zminus_mod_idemp_r. replace (sn - (sn + 1 + - um_window_size e)) with (um_window_size e - 1) by lia. apply Z.mod_small. lia. }
    destruct (decide _) as [Hd|Hd]; destruct_and?; [by subst|]. match goal with H : removed _ _ _ _ _ _ |- _ => rewrite H by done end.
    rewrite decide_False; [done|]. change (um_window_size e1) with (um_window_size e) in *. lia. }
  split; [|split; [by eapply um_all_removed|split; [done|]]].
  2: { intros Hf. rewrite Hr2 by done. rewrite decide_False; [done|]. intros Hin. specialize (Hpass sn Hsn Hin). unfold lookup_flag in *. by rewrite Hkeep1, Hf in Hpass. }
  apply um_inv_intro; [done..|apply Z.mod_pos_bound; lia|done|]. apply Hle.
  destruct (decide _) as [Hd|Hd]; destruct_and?; subst; [lia|].
  assert (0 <= um_window_size e1) by (change (0 <= um_window_size e); lia). lia.
Qed.

(** *** The timer *)
Lemma um_restart_timer_spec e :
  um_inv e -> exists t b, um_restart_reassembly_timer e = Some (um_set_timer t b e) /\ 0 <= t < um_mod e.
Proof.
  intros (Hnr & Ht & Hnh & Hw & _). unfold um_restart_reassembly_timer. cbv zeta.
  rewrite win_flag_spec by (done || lia). cbn [mbind option_bind].
  destruct (um_rx_mod_base e (rx_next_highest e) =? _); cbn [mbind option_bind];
    match goal with |- context [if ?c then Some (um_set_timer _ _ _) else _] => destruct c end;
    solve [eexists _, _; split; [reflexivity|done] | exists (rx_timer_trigger e), (reassembly_timer e); split; [by destruct e|done]].
Qed.

Lemma um_inv_set_timer t b e : um_inv e -> 0 <= t < um_mod e -> um_inv (um_set_timer t b e).
Proof. intros (? & ? & ? & ? & ?) Ht. unfold um_inv. split; [done|]. split; [done|]. split; [done|]. by split. Qed.

Lemma um_set_timer_twice t b t' b' e : um_set_timer t b (um_set_timer t' b' e) = um_set_timer t b e.
Proof. done. Qed.

Lemma um_update_timer_spec e :
  um_inv e -> exists t b, um_update_timer e = Some (um_set_timer t b e) /\ 0 <= t < um_mod e.
Proof.
  intros Hinv. pose proof Hinv as (Hnr & Ht & Hnh & Hw & _). unfold um_update_timer.
  assert (E : exists b, um_stop_reassembly_timer e = Some (um_set_timer (rx_timer_trigger e) b e)).
  { unfold um_stop_reassembly_timer. destruct (reassembly_timer e) eqn:Er; [|exists false; rewrite <- Er; by destruct e].
    cbv zeta. rewrite win_flag_spec by (done || lia).
    cbn [mbind option_bind]. destruct (rx_next_highest e =? _); cbn [mbind option_bind]; by eexists. }
  destruct E as (b & ->). cbn [mbind option_bind]. destruct (negb _); [|by exists (rx_timer_trigger e), b].
  destruct (um_restart_timer_spec (um_set_timer (rx_timer_trigger e) b e)) as (t' & b' & -> & ?); [by apply um_inv_set_timer|].
  exists t', b'. split; [|done]. by rewrite um_set_timer_twice.
Qed.

(** *** A PDU in the reception buffer *)

(** The SDU of SN [sn] after the segment was stored. *)
Definition um_stored (i0 : rlc_rx_um_sdu_info) (seg : segment) : rlc_rx_um_sdu_info :=
  um_update_segment_inventory (um_store_segment i0 seg).2.

Lemma um_placed_spec P block max sn i e :
  um_inv e -> 0 <= sn < um_mod e -> win_lookup (rx_window e) sn = Some i ->
  um_all P (um_mod e) (rx_window e) -> P sn (cleared i) ->
  exists e' ev, um_placed block max sn e = Some (e', ev) /\ um_inv e' /\ um_all P (um_mod e) (rx_window e') /\
    ur_sn_size e' = ur_sn_size e /\
    delivered ev = (if ui_fully_received i then delivered (deliver_events (um_reassemble_sdu block max i)) else []) /\
    (ui_fully_received i = false -> win_lookup (rx_window e') sn = Some i).
Proof.
  intros Hinv Hsn Hi HP Hclear. unfold um_placed. rewrite win_flag_spec by (apply Hinv || lia). unfold lookup_flag. rewrite Hi.
  cbn [mbind option_bind].
  assert (Hmid : exists e1 ev, (if ui_fully_received i then um_all_received block max sn e
              else if negb (sn_in_reassembly_window e sn) then um_outside_window sn e
              else Some (e, [])) = Some (e1, ev) /\ um_inv e1 /\ um_all P (um_mod e) (rx_window e1) /\
              ur_sn_size e1 = ur_sn_size e /\
    delivered ev = (if ui_fully_received i then delivered (deliver_events (um_reassemble_sdu block max i)) else []) /\
    (ui_fully_received i = false -> win_lookup (rx_window e1) sn = Some i)).
  { destruct (ui_fully_received i) eqn:Hf.
    - destruct (um_all_received_spec P block max sn e i Hinv Hsn Hi HP Hclear) as (nr & w & -> & ? & ? & _).
      eexists _, _. split; [done|]. by split_and!.
    - destruct (negb _).
      + destruct (um_outside_window_spec P sn e Hinv Hsn HP) as (nr & w & ev & -> & ? & ? & ? & Hk).
        eexists _, _. split; [done|]. split_and!; try done. intros _. cbn [rx_window um_set_next_reassembly um_set_window um_set_next_highest]. rewrite Hk; [done|]. unfold lookup_flag. by rewrite Hi.
      + eexists _, _. split; [done|]. by split_and!. }
  destruct Hmid as (e1 & ev & -> & Hinv1 & HP1 & Hsz & Hd). cbn [mbind option_bind].
  destruct (um_update_timer_spec e1 Hinv1) as (t & b & -> & Ht). cbn [mbind option_bind].
  exists (um_set_timer t b e1), ev. split; [done|]. split; [by apply um_inv_set_timer|]. done.
Qed.

(** *** The whole handler *)

Definition um_payload (buf : list Z) (h : rlc_um_pdu_header) : list Z := advance (rlc_um_nr_packed_length h) buf.
Definition um_segment (buf : list Z) (h : rlc_um_pdu_header) : segment := Seg (um_si h) (um_so h) (um_payload buf h).

Lemma um_mod_sn_size e h buf :
  um_header_read_ok buf (ur_sn_size e) h -> 0 <= um_sn h < um_mod e.
Proof. intros (_ & Hsn & _). unfold um_mod. by rewrite cardinality_pow by (by destruct (ur_sn_size e)). Qed.

Lemma um_handle_pdu_spec P block max buf e :
  um_inv e -> bytes_ok buf -> um_all P (um_mod e) (rx_window e) -> (forall q i, P q i -> P q (cleared i)) ->
  (forall h i0, rlc_um_read_data_pdu_header buf (ur_sn_size e) rlc_um_pdu_header_init = Some (true, h) ->
     um_header_read_ok buf (ur_sn_size e) h -> rlc_um_nr_packed_length h < rd_length buf ->
     um_si h <> full_sdu -> (i0 = rlc_rx_um_sdu_info_init \/ P (um_sn h) i0) ->
     P (um_sn h) (um_stored i0 (um_segment buf h))) ->
  exists e' ev, um_handle_pdu block max buf e = Some (e', ev) /\ um_inv e' /\
    um_all P (um_mod e) (rx_window e') /\ ur_sn_size e' = ur_sn_size e /\
    (delivered ev = [] \/
     exists h, rlc_um_read_data_pdu_header buf (ur_sn_size e) rlc_um_pdu_header_init = Some (true, h) /\
       if is_full_sdu (um_si h) then e' = e /\
         delivered ev = delivered (deliver_events (chain_create_from block max (um_payload buf h)))
       else exists i0, (i0 = rlc_rx_um_sdu_info_init \/ P (um_sn h) i0) /\
         (um_store_segment i0 (um_segment buf h)).1 = true /\
         ui_fully_received (um_stored i0 (um_segment buf h)) = true /\
         delivered ev = delivered (deliver_events (um_reassemble_sdu block max (um_stored i0 (um_segment buf h))))).
Proof.
  intros Hinv Hb HP Hclear Hstore. pose proof Hinv as (_ & _ & _ & Hw & _). unfold um_handle_pdu. cbv zeta.
  assert (Hsame : forall ev, delivered ev = [] -> exists e' ev', Some (e, ev) = Some (e', ev') /\ um_inv e' /\
    um_all P (um_mod e) (rx_window e') /\ ur_sn_size e' = ur_sn_size e /\ delivered ev' = [])
    by (intros ev ?; exists e, ev; by split_and!).
  destruct (um_read_cases buf (ur_sn_size e) rlc_um_pdu_header_init Hb) as (ok & h & Eread & Hok). rewrite Eread.
  cbn [mbind option_bind]. destruct ok; cbn [negb].
  2: { destruct (Hsame ([AddPdus 1 (rd_length buf)] ++ [AddMalformed 1])) as (e' & ev & ? & ? & ? & ? & ?); [done|].
       exists e', ev. auto 10. }
  specialize (Hok eq_refl). destruct (Z.leb_spec (rd_length buf) (rlc_um_nr_packed_length h)) as [Hlen|Hlen].
  { destruct (Hsame [AddPdus 1 (rd_length buf)]) as (e' & ev & ? & ? & ? & ? & ?); [done|]. exists e', ev. auto 10. }
  destruct (is_full_sdu (um_si h)) eqn:Hfull.
  { eexists _, _. split; [reflexivity|]. split_and!; [done..|]. right. exists h. split; [done|]. rewrite Hfull.
    split; [done|]. by rewrite delivered_app. }
  assert (Hsi : um_si h <> full_sdu) by (intros E; by rewrite E in Hfull).
  destruct (sn_invalid_for_rx_buffer e (um_sn h)).
  { destruct (Hsame [AddPdus 1 (rd_length buf)]) as (e' & ev & ? & ? & ? & ? & ?); [done|]. exists e', ev. auto 10. }
  pose proof (um_mod_sn_size e h buf Hok) as Hsn.
  destruct (um_handle_segment_spec h (um_payload buf h) e Hinv Hsn Hsi) as (stored & w & ev1 & E & Hw1 & _ & Hd1 & Hq1 & Hcase).
  unfold um_payload in E. rewrite E. cbn [mbind option_bind]. fold (um_payload buf h) in *. fold (um_segment buf h) in Hcase.
  set (i0 := default rlc_rx_um_sdu_info_init (win_lookup (rx_window e) (um_sn h))) in *.
  assert (Hi0 : i0 = rlc_rx_um_sdu_info_init \/ P (um_sn h) i0).
  { unfold i0. destruct (win_lookup (rx_window e) (um_sn h)) eqn:E0; [right; by apply HP|by left]. }
  assert (Hi' : P (um_sn h) (um_stored i0 (um_segment buf h))) by (by apply Hstore).
  assert (HP1 : um_all P (um_mod e) w).
  { intros q i Hq Hl. destruct (decide (q = um_sn h)) as [->|Hne]; [|apply HP; [done|apply Hq1; (done || lia)]].
    destruct Hcase as [(_ & -> & Hn & _)|Hc]; [congruence|]. unfold um_stored in Hi'.
    destruct (um_store_segment i0 _) as [ok i1]. destruct Hc as (_ & Hc & _). rewrite Hc in Hl. by injection Hl as <-. }
  assert (Hinv1 : um_inv (um_set_window w e)).
  { destruct Hinv as (? & ? & ? & _ & ?). by apply (um_inv_intro _ w (rx_next_highest e)). }
  destruct stored; cbn [negb].
  2: { eexists _, _. split; [reflexivity|]. split; [done|]. split; [done|]. split; [done|]. left.
       by rewrite delivered_app, Hd1. }
  destruct Hcase as [(? & _)|Hc]; [done|].
  unfold um_stored in *. destruct (um_store_segment i0 (um_segment buf h)) as [ok i1] eqn:Est.
  destruct Hc as (<- & Hl & ->).
  destruct (um_placed_spec P block max (um_sn h) (um_update_segment_inventory i1) (um_set_window w e) Hinv1 Hsn Hl HP1)
    as (e' & ev2 & -> & Hinv' & HP' & Hsz' & Hd' & _); [by apply Hclear|].
  cbn [mbind option_bind]. exists e', ([AddPdus 1 (rd_length buf)] ++ [] ++ ev2). split; [done|]. split; [done|].
  split; [done|]. split; [done|]. rewrite !delivered_app. cbn [delivered app]. rewrite Hd'.
  destruct (ui_fully_received _) eqn:Hf; [right|by left].
  exists h. split; [done|]. rewrite Hfull. exists i0. rewrite Est. by split_and!.
Qed.

(** *** Expiry of t-Reassembly *)
Lemma um_expiry_spec P e :
  um_inv e -> um_all P (um_mod e) (rx_window e) ->
  let r := um_rel e in
  exists nr w ev t b, um_on_expired_reassembly_timer e
      = Some (um_set_timer t b (um_set_next_reassembly nr (um_set_window w e)), ev) /\
    um_inv (um_set_timer t b (um_set_next_reassembly nr (um_set_window w e))) /\ um_all P (um_mod e) w /\
    delivered ev = [] /\ r (rx_next_reassembly e) <= r nr <= um_window_size e /\
    lost ev = count_lost (Z.to_nat (Z.min (r (rx_timer_trigger e)) (um_window_size e) - r (rx_next_reassembly e)))
                (um_mod e) (rx_next_reassembly e) (rx_window e) /\
    removed (um_mod e) (rx_next_highest e - um_window_size e) (r (rx_next_reassembly e)) (r nr) (rx_window e) w /\
    (forall q, 0 <= q < um_mod e -> r (rx_next_reassembly e) <= r q < r nr -> r (rx_timer_trigger e) <= r q ->
       um_full (rx_window e) q = true) /\
    (r nr < um_window_size e -> r (rx_timer_trigger e) <= r nr /\ um_full (rx_window e) nr = false).
Proof.
  intros Hinv HP r. pose proof Hinv as (Hnr & Ht & Hnh & Hw & Hrel). destruct (um_geometry e) as (Hm & Hws & _).
  unfold um_on_expired_reassembly_timer.
  rewrite um_rx_mod_base_rel, um_rel_highest, (um_expiry_loop_ext _ (um_rel e)) by (intros; apply um_rx_mod_base_rel).
  destruct (um_expiry_loop_spec (um_mod e) (rx_next_highest e - um_window_size e) (um_window_size e) (rx_timer_trigger e)
    ltac:(lia) ltac:(lia) (um_fuel e) (rx_next_reassembly e) (rx_window e) [] Hnr Hw)
    as (sn & w & ev & -> & I1 & I2 & I3 & I4 & I5 & I6 & I7 & I8 & I9 & I10).
  { apply um_fuel_enough. }
  cbn [mbind option_bind app].
  assert (Hinv1 : um_inv (um_set_next_reassembly sn (um_set_window w e))).
  { apply (um_inv_intro sn w (rx_next_highest e)); [done..|]. by apply I7. }
  destruct (um_restart_timer_spec _ Hinv1) as (t & b & -> & Ht'). cbn [mbind option_bind].
  exists sn, w, ev, t, b. split; [done|]. split; [by apply um_inv_set_timer|]. split; [by eapply um_all_removed|].
  split; [done|]. split; [split; [done|by apply I7]|]. split; [done|]. split; [done|]. split; [|done].
  intros q Hq Hb HT. by apply I9.
Qed.
End steps.
