(* ===== verification/RlcRxUmCorrect.v ===== *)
(** * Correctness of the UM receiver

    The theorems about [RlcRxUm], proved against the window interface, and instances of them over the segmented circular
    map. *)
From S2P Require Import Prelude ByteCursor RlcConfig ByteBufferChain RlcUmPdu RlcSegments SegmentedCircularMap.
From S2P Require Import SduWindow RlcRxBase RlcRxUm RlcRxUmFacts RlcRxUmSteps.

Section correct.
Context {W : Type} `{SduWindowLaws rlc_rx_um_sdu_info W rlc_rx_um_sdu_info_init}.
Notation entity := (rlc_rx_um_entity W).
Implicit Types (e : entity) (w : W).
Notation um_rel e := (rel (um_mod e) (rx_next_highest e - um_window_size e)).

(** ** Runs *)
Definition um_input_ok (i : um_input) : Prop := match i with UmPdu _ _ buf => bytes_ok buf | UmExpiry => True end.

Lemma um_step_inv e i :
  um_inv e -> um_input_ok i -> exists e' ev, um_step e i = Some (e', ev) /\ um_inv e' /\ ur_sn_size e' = ur_sn_size e.
Proof.
  intros Hinv Hi. destruct i as [block max buf|]; cbn [um_step].
  - destruct (um_handle_pdu_spec (fun _ _ => True) block max buf e Hinv Hi) as (e' & ev & E & ? & _ & ? & _); try done.
    by exists e', ev.
  - destruct (reassembly_timer e); [|by exists e, []].
    destruct (um_expiry_spec (fun _ _ => True) (um_set_timer (rx_timer_trigger e) false e))
      as (nr & w & ev & t & b & -> & ? & _); [by apply um_inv_set_timer; [|apply Hinv]|done|].
    eexists _, _. by split_and!.
Qed.

Lemma um_run_inv l : forall e,
  um_inv e -> Forall um_input_ok l ->
  exists e' ev, um_run e l = Some (e', ev) /\ um_inv e' /\ ur_sn_size e' = ur_sn_size e.
Proof.
  induction l as [|i l IH]; intros e Hinv Hl; cbn [um_run]; [by exists e, []|].
  apply Forall_cons in Hl as [Hi Hl]. destruct (um_step_inv e i Hinv Hi) as (e1 & ev1 & -> & Hinv1 & Hs1).
  cbn [mbind option_bind]. destruct (IH e1 Hinv1 Hl) as (e2 & ev2 & -> & Hinv2 & Hs2). cbn [mbind option_bind].
  exists e2, (ev1 ++ ev2). by rewrite Hs2.
Qed.

Lemma um_new_inv sz w : win_inv w -> um_inv (um_rx_new sz w).
Proof. intros Hw. unfold um_inv. destruct sz; repeat split; solve [exact Hw | vm_compute; congruence]. Qed.

(** C32. The UM receiver is robust: from its initial state, for every sequence of received octet strings (malformed ones
    included), pool conditions and timer expiries, no assertion fails, nothing is read out of bounds, every loop over
    sequence numbers ends within one turn of the SN space, and the state stays well-formed: state variables in range and
    RX_Next_Reassembly between the lower edge of the reassembly window and RX_Next_Highest. *)
Theorem um_rx_robust sz w l :
  win_inv w -> Forall um_input_ok l ->
  exists e ev, um_run (um_rx_new sz w) l = Some (e, ev) /\ ur_sn_size e = sz /\
    0 <= rx_next_reassembly e < um_mod e /\ 0 <= rx_timer_trigger e < um_mod e /\ 0 <= rx_next_highest e < um_mod e /\
    um_rx_mod_base e (rx_next_reassembly e) <= um_rx_mod_base e (rx_next_highest e) /\ win_inv (rx_window e).
Proof.
  intros Hw Hl. destruct (um_run_inv l (um_rx_new sz w) (um_new_inv sz w Hw) Hl) as (e & ev & E & Hinv & Hs).
  exists e, ev. rewrite !um_rx_mod_base_rel, um_rel_highest. destruct Hinv as (? & ? & ? & ? & ?).
  repeat (split; [done|]). done.
Qed.

(** ** Delivery *)
Definition um_info_ok (sdus : Z -> list Z) (q : Z) (i : rlc_rx_um_sdu_info) : Prop := segments_ok (sdus q) (ui_segments i).

(** The SDU of a SN as the window has it, empty if it has no entry. *)
Definition um_entry e (sn : Z) : rlc_rx_um_sdu_info := default rlc_rx_um_sdu_info_init (win_lookup (rx_window e) sn).

(** A segment of which the window has an entry, or memory for one. *)
Lemma um_handle_segment_pdu block max buf h e :
  um_inv e -> bytes_ok buf ->
  rlc_um_read_data_pdu_header buf (ur_sn_size e) rlc_um_pdu_header_init = Some (true, h) -> um_si h <> full_sdu ->
  rlc_um_nr_packed_length h < rd_length buf -> sn_invalid_for_rx_buffer e (um_sn h) = false ->
  um_room (um_sn h) (rx_window e) ->
  exists e' ev, um_handle_pdu block max buf e = Some (e', ev) /\
    let i := um_stored (um_entry e (um_sn h)) (um_segment buf h) in
    let new := (um_store_segment (um_entry e (um_sn h)) (um_segment buf h)).1 in
    delivered ev = (if new && ui_fully_received i then delivered (deliver_events (um_reassemble_sdu block max i)) else []) /\
    (ui_fully_received i = false -> win_lookup (rx_window e') (um_sn h) = Some i).
Proof.
  intros Hinv Hb Eread Hsi Hlen Hinvalid Hroom. unfold um_handle_pdu. cbv zeta. rewrite Eread. cbn [mbind option_bind negb].
  rewrite (proj2 (Z.leb_gt _ _)) by lia. assert (is_full_sdu (um_si h) = false) as -> by (by destruct (um_si h)).
  rewrite Hinvalid.
  destruct (um_read_cases buf (ur_sn_size e) rlc_um_pdu_header_init Hb) as (ok & h' & Eread' & Hok).
  rewrite Eread in Eread'. injection Eread' as <- <-. pose proof (um_mod_sn_size e h buf (Hok eq_refl)) as Hsn.
  destruct (um_handle_segment_spec h (um_payload buf h) e Hinv Hsn Hsi) as (stored & w & ev1 & E & Hw1 & _ & Hd1 & _ & Hcase).
  unfold um_payload in E. rewrite E. cbn [mbind option_bind]. fold (um_payload buf h) in *. fold (um_segment buf h) in Hcase.
  fold (um_entry e (um_sn h)) in Hcase. unfold um_stored.
  destruct Hcase as [(_ & _ & _ & _ & Hn)|Hc]; [by destruct Hn|].
  destruct (um_store_segment (um_entry e (um_sn h)) (um_segment buf h)) as [ok1 i1]. destruct Hc as (-> & Hl & ->). cbn [fst snd].
  destruct ok1; cbn [negb andb].
  - assert (Hinv1 : um_inv (um_set_window w e)).
    { destruct Hinv as (? & ? & ? & _ & ?). by apply (um_inv_intro _ w (rx_next_highest e)). }
    destruct (um_placed_spec (fun _ _ => True) block max (um_sn h) (um_update_segment_inventory i1) (um_set_window w e)
      Hinv1 Hsn Hl) as (e' & ev2 & -> & _ & _ & _ & Hd2 & Hk2); [done..|].
    cbn [mbind option_bind]. eexists _, _. split; [reflexivity|]. rewrite !delivered_app. cbn [delivered app]. done.
  - eexists _, _. split; [reflexivity|]. done.
Qed.

Lemma um_stored_ok sdus q i0 seg :
  1 <= rd_length (sdus q) <= 65536 -> (i0 = rlc_rx_um_sdu_info_init \/ um_info_ok sdus q i0) -> slice_of (sdus q) seg ->
  um_info_ok sdus q (um_stored i0 seg) /\
  ui_segments (um_stored i0 seg) = (store_segment (ui_segments i0) seg).2 /\
  (um_store_segment i0 seg).1 = (store_segment (ui_segments i0) seg).1 /\
  ui_fully_received (um_stored i0 seg) = (segment_inventory (store_segment (ui_segments i0) seg).2).2.
Proof.
  intros Hlen Hi Hs. assert (Hok : segments_ok (sdus q) (ui_segments i0)).
  { destruct Hi as [->|Hi]; [apply segments_ok_nil|done]. }
  pose proof (store_segments_ok (sdus q) (ui_segments i0) seg Hlen Hok Hs) as Hst.
  unfold um_info_ok, um_stored, um_update_segment_inventory, um_store_segment.
  destruct (store_segment (ui_segments i0) seg) as [ok l]. cbn [snd fst ui_segments].
  destruct (segment_inventory l) as [gap full]. cbn [ui_segments ui_fully_received snd]. tauto.
Qed.

Lemma um_reassemble_ok sdus q i block max :
  1 <= rd_length (sdus q) <= 65536 -> um_info_ok sdus q i -> (segment_inventory (ui_segments i)).2 = true ->
  (forall d, d ∈ delivered (deliver_events (um_reassemble_sdu block max i)) -> d = sdus q) /\
  (ui_fully_received i = true -> block = true -> (length (ui_segments i) <= max)%nat ->
   delivered (deliver_events (um_reassemble_sdu block max i)) = [sdus q]).
Proof.
  intros Hlen Hok Hinv. pose proof (chain_complete (sdus q) (ui_segments i) max Hlen Hok Hinv) as Hc.
  unfold um_reassemble_sdu. destruct (ui_fully_received i); cbn [negb]; [|split; [cbn; by intros d ?%elem_of_nil|done]].
  destruct block; cbn [chain_create mbind option_bind]; [|split; [cbn; by intros d ?%elem_of_nil|done]].
  destruct (chain_segments _ _) as [c|]; cbn [deliver_events delivered omap list_omap].
  - subst. rewrite Hc. split; [by intros d ->%list_elem_of_singleton|done].
  - split; [by intros d ?%elem_of_nil|lia].
Qed.

Lemma chain_create_from_ok (payload : list Z) max : (0 < max)%nat -> delivered (deliver_events (chain_create_from true max payload)) = [payload].
Proof.
  intros Hmax. unfold chain_create_from. cbn [chain_create mbind option_bind].
  assert (Hi : chain_inv (Chain [] 0 max)) by (split_and!; [unfold nof_slices; simpl; lia|done|constructor]).
  pose proof (chain_append_ok payload (Chain [] 0 max) Hi Hmax) as Hok. pose proof (chain_append_spec payload (Chain [] 0 max) Hi) as Hs.
  destruct (chain_append _ _) as [ok c]. cbn in Hok. subst ok. destruct Hs as (_ & _ & Hc). cbn. by rewrite Hc.
Qed.

(** C22. The UM receiver delivers what was sent, as soon as it has it. Let every SN stand for one SDU of at most 65536 bytes, and
    let the segments in the window be parts of those SDUs. Then handling a PDU whose payload is a whole SDU, or a part of the
    SDU of its SN, in any order and with any duplication, keeps the window that way, and whatever reaches the upper layer is
    exactly that SDU. Conversely, a PDU with a whole SDU makes the receiver deliver it. And a segment whose SN is not below the
    window, for a SDU known before or not, while the window has an entry or memory for one: if its bytes and those known before
    are all there are, and it brings new ones, the SDU is delivered at once; if a byte is missing, nothing is delivered and the
    window has exactly the bytes known before and those of the segment. Delivery needs memory for the chain of segments. *)
Theorem um_delivery_correct sdus block max buf h e :
  um_inv e -> bytes_ok buf -> (forall q, 1 <= rd_length (sdus q) <= 65536) ->
  um_all (um_info_ok sdus) (um_mod e) (rx_window e) ->
  rlc_um_read_data_pdu_header buf (ur_sn_size e) rlc_um_pdu_header_init = Some (true, h) ->
  (um_si h <> full_sdu -> slice_of (sdus (um_sn h)) (um_segment buf h)) ->
  let known p := covered (ui_segments (um_entry e (um_sn h))) p in
  let now p := known p \/ in_seg (um_segment buf h) p in
  exists e' ev, um_handle_pdu block max buf e = Some (e', ev) /\ um_inv e' /\
    um_all (um_info_ok sdus) (um_mod e) (rx_window e') /\
    (forall d, d ∈ delivered ev -> d = if is_full_sdu (um_si h) then um_payload buf h else sdus (um_sn h)) /\
    (um_si h = full_sdu -> rlc_um_nr_packed_length h < rd_length buf -> block = true -> (0 < max)%nat -> delivered ev = [um_payload buf h]) /\
    (um_si h <> full_sdu -> rlc_um_nr_packed_length h < rd_length buf ->
       sn_invalid_for_rx_buffer e (um_sn h) = false -> um_room (um_sn h) (rx_window e) ->
       ((exists p, in_seg (um_segment buf h) p /\ ~ known p) -> (forall p, 0 <= p < rd_length (sdus (um_sn h)) -> now p) ->
          block = true -> (length (ui_segments (um_entry e (um_sn h))) < max)%nat -> delivered ev = [sdus (um_sn h)]) /\
       (forall p0, 0 <= p0 < rd_length (sdus (um_sn h)) -> ~ now p0 ->
          delivered ev = [] /\ exists i, win_lookup (rx_window e') (um_sn h) = Some i /\ forall p, covered (ui_segments i) p <-> now p)).
Proof.
  intros Hinv Hb Hlen Hall Eread Hslice known now.
  destruct (um_handle_pdu_spec (um_info_ok sdus) block max buf e Hinv Hb Hall) as (e' & ev & E & Hinv' & Hall' & _ & Hd).
  { intros q i _. apply segments_ok_nil. }
  { intros h' i0 Eread' _ _ Hsi Hi0. rewrite Eread in Eread'. injection Eread' as <-.
    by apply um_stored_ok; [|done|apply Hslice]. }
  exists e', ev. split; [done|]. split; [done|]. split; [done|]. split; [|split].
  - destruct Hd as [->|(h' & Eread' & Hd)]; [by intros d ?%elem_of_nil|]. rewrite Eread in Eread'. injection Eread' as <-.
    destruct (is_full_sdu (um_si h)) eqn:Hf.
    + destruct Hd as (_ & ->). unfold chain_create_from. destruct block; cbn; [|by intros d ?%elem_of_nil].
      pose proof (chain_append_spec (um_payload buf h) (Chain [] 0 max)) as Ha.
      destruct (chain_append _ _) as [[] c]; cbn; [|by intros d ?%elem_of_nil].
      intros d ->%list_elem_of_singleton. apply Ha. split_and!; [unfold nof_slices; simpl; lia|done|constructor].
    + assert (Hsi : um_si h <> full_sdu) by (intros Hx; by rewrite Hx in Hf).
      destruct Hd as (i0 & Hi0 & _ & Hfull & ->).
      destruct (um_stored_ok sdus (um_sn h) i0 (um_segment buf h) (Hlen _) Hi0 (Hslice Hsi)) as (Hok & Hsegs & _ & Hfe).
      apply (um_reassemble_ok sdus); [done..|]. by rewrite Hsegs, <- Hfe.
  - intros Hsi Hlt -> Hmax. unfold um_handle_pdu in E. cbv zeta in E. rewrite Eread in E. cbn [mbind option_bind negb] in E.
    rewrite (proj2 (Z.leb_gt _ _)) in E by lia. assert (Hf : is_full_sdu (um_si h) = true) by (by rewrite Hsi). rewrite Hf in E.
    injection E as _ <-. exact (chain_create_from_ok (um_payload buf h) max Hmax).
  - intros Hsi Hlt Hinvalid Hroom. set (i0 := um_entry e (um_sn h)) in *.
    destruct (um_read_cases buf (ur_sn_size e) rlc_um_pdu_header_init Hb) as (ok & h' & Eread' & Hok).
    rewrite Eread in Eread'. injection Eread' as <- <-. pose proof (um_mod_sn_size e h buf (Hok eq_refl)) as Hsn.
    assert (Hi0 : i0 = rlc_rx_um_sdu_info_init \/ um_info_ok sdus (um_sn h) i0).
    { unfold i0, um_entry. destruct (win_lookup (rx_window e) (um_sn h)) eqn:El; [right; by apply Hall|by left]. }
    assert (Hi0' : segments_ok (sdus (um_sn h)) (ui_segments i0)) by (destruct Hi0 as [->|?]; [apply segments_ok_nil|done]).
    destruct (um_stored_ok sdus (um_sn h) i0 (um_segment buf h) (Hlen _) Hi0 (Hslice Hsi)) as (Hok' & Hsegs & Hst & Hfe).
    pose proof (store_segments_ok _ _ _ (Hlen (um_sn h)) Hi0' (Hslice Hsi)) as Hs.
    destruct (um_handle_segment_pdu block max buf h e Hinv Hb Eread Hsi Hlt Hinvalid Hroom) as (e2 & ev2 & E2 & Hd2 & Hk2).
    rewrite E in E2. injection E2 as <- <-. fold i0 in Hd2, Hk2. rewrite Hd2, Hst. rewrite Hfe in *.
    destruct (store_segment (ui_segments i0) (um_segment buf h)) as [stored l].
    destruct Hs as (Hsok & Hsl & _ & _ & Hstored & Hcov'). cbn [fst snd] in *.
    pose proof (inventory_complete (sdus (um_sn h)) l (Hlen _) Hsok) as Hcomp. split.
    + intros Hnew Hcov -> Hmax.
      assert (Hcomplete : (segment_inventory l).2 = true) by (apply Hcomp; intros p Hp; apply Hcov'; by apply Hcov).
      rewrite (proj2 Hstored Hnew), Hcomplete. cbn [andb].
      apply (um_reassemble_ok sdus); [done..|by rewrite Hsegs|by rewrite Hfe|done|]. rewrite Hsegs. lia.
    + intros p0 Hp0 Hmiss. assert (Hinc : (segment_inventory l).2 = false).
      { destruct (segment_inventory l).2; [|done]. destruct Hmiss. apply Hcov'. by apply Hcomp. }
      rewrite Hinc, andb_false_r. split; [done|]. eexists. split; [by apply Hk2|]. rewrite Hsegs. exact Hcov'.
Qed.

(** The expiry of t-Reassembly gives up exactly the SDUs that TS 38.322 section 5.2.2.2.4 names: RX_Next_Reassembly moves
    to the first SN at or after RX_Timer_Trigger that is not fully received (to RX_Next_Highest if there is none), every SN
    below it is removed and every other one kept, nothing is delivered, and the SNs below RX_Timer_Trigger that were not
    fully received are counted as lost. All positions are relative to the modulus base. *)
Theorem um_expiry_exact e :
  um_inv e -> um_rx_mod_base e (rx_timer_trigger e) <= um_rx_mod_base e (rx_next_highest e) ->
  let r := um_rx_mod_base e in
  exists e' ev, um_on_expired_reassembly_timer e = Some (e', ev) /\ um_inv e' /\ delivered ev = [] /\
    rx_next_highest e' = rx_next_highest e /\
    r (rx_next_reassembly e) <= r (rx_next_reassembly e') <= r (rx_next_highest e) /\
    (r (rx_next_reassembly e') < r (rx_next_highest e) ->
       r (rx_timer_trigger e) <= r (rx_next_reassembly e') /\ um_full (rx_window e) (rx_next_reassembly e') = false) /\
    (forall q, 0 <= q < um_mod e -> Z.max (r (rx_timer_trigger e)) (r (rx_next_reassembly e)) <= r q ->
       r q < r (rx_next_reassembly e') -> um_full (rx_window e) q = true) /\
    (forall q, 0 <= q < um_mod e -> win_lookup (rx_window e') q =
       if decide (r (rx_next_reassembly e) <= r q < r (rx_next_reassembly e')) then None else win_lookup (rx_window e) q) /\
    lost ev = count_lost (Z.to_nat (r (rx_timer_trigger e) - r (rx_next_reassembly e))) (um_mod e) (rx_next_reassembly e)
                (rx_window e).
Proof.
  intros Hinv Htrig r.
  destruct (um_expiry_spec (fun _ _ => True) e Hinv) as (nr & w & ev & t & b & E & Hinv' & _ & Hd & Hle & Hlost & Hrem & Hfull & Hstop);
    [done|].
  eexists _, ev. split; [exact E|]. split; [done|]. split; [done|]. split; [done|].
  cbn [rx_next_reassembly um_set_timer um_set_next_reassembly rx_window um_set_window].
  assert (Hr : forall x, r x = um_rel e x) by (intros; apply um_rx_mod_base_rel).
  assert (Hh : r (rx_next_highest e) = um_window_size e) by (rewrite Hr; apply um_rel_highest).
  fold r in Htrig. rewrite Hh in *. split; [by rewrite !Hr|]. split; [by rewrite !Hr|]. split.
  { intros q Hq. rewrite !Hr. intros H1 H2. apply Hfull; (done || lia). }
  split.
  { intros q Hq. rewrite (Hrem q Hq). destruct (decide _) as [Ha|Ha], (decide _) as [Hb|Hb]; rewrite !Hr in Hb; (done || lia). }
  rewrite Hlost. rewrite !Hr in *. f_equal. lia.
Qed.
End correct.

(** ** Over the segmented circular map *)
Section concrete.
Notation win := (segmented_sdu_window rlc_rx_um_sdu_info).
#[local] Instance um_window : SduWindow rlc_rx_um_sdu_info win := segmented_window rlc_rx_um_sdu_info_init.
#[local] Instance um_window_laws : SduWindowLaws rlc_rx_um_sdu_info win rlc_rx_um_sdu_info_init :=
  segmented_window_laws rlc_rx_um_sdu_info_init.

Definition um_rx_6bit : rlc_rx_um_entity win := um_rx_new um_size6bits (window_new 32 16 4).

Lemma um_rx_6bit_window : win_inv (rx_window um_rx_6bit).
Proof. apply (map_new_inv 5 4); lia. Qed.

Lemma um_rx_robust_witness :
  exists e ev, um_run um_rx_6bit [UmPdu true 8 [0xc5; 0; 3; 7; 7]; UmPdu true 8 [0xff]; UmExpiry] = Some (e, ev) /\
    ur_sn_size e = um_size6bits /\
    0 <= rx_next_reassembly e < um_mod e /\ 0 <= rx_timer_trigger e < um_mod e /\ 0 <= rx_next_highest e < um_mod e /\
    um_rx_mod_base e (rx_next_reassembly e) <= um_rx_mod_base e (rx_next_highest e) /\ win_inv (rx_window e).
Proof.
  apply (um_rx_robust um_size6bits (window_new 32 16 4)); [apply um_rx_6bit_window|].
  repeat constructor; vm_compute; congruence.
Defined.

(** The state after the first segment [1; 2] of an SDU with SN 7. *)
Definition um_rx_one_segment : rlc_rx_um_entity win :=
  match um_handle_pdu true 8 [0x47; 1; 2] um_rx_6bit with Some (e, _) => e | None => um_rx_6bit end.

Definition um_example_sdu (q : Z) : list Z := if q =? 7 then [1; 2; 3; 4] else [0].

Lemma um_rx_one_segment_ok :
  um_inv um_rx_one_segment /\ um_all (um_info_ok um_example_sdu) (um_mod um_rx_one_segment) (rx_window um_rx_one_segment).
Proof.
  destruct (um_handle_pdu_spec (um_info_ok um_example_sdu) true 8 [0x47; 1; 2] um_rx_6bit) as (e' & ev & E & Hinv & Hall & Hs & _).
  - apply um_new_inv, um_rx_6bit_window.
  - repeat constructor; vm_compute; congruence.
  - intros q i _. assert (Hn : win_lookup (rx_window um_rx_6bit) q = None) by (apply (map_new_inv 5 4); lia). by rewrite Hn.
  - intros q i _. apply segments_ok_nil.
  - intros h i0 Eread _ _ _ Hi0. apply um_stored_ok; [|done|].
    + unfold um_example_sdu. destruct (_ =? 7); vm_compute; split; congruence.
    + vm_compute in Eread. injection Eread as <-. repeat split; vm_compute; congruence.
  - assert (Eq : um_rx_one_segment = e') by (unfold um_rx_one_segment; by rewrite E). rewrite Eq. split; [done|].
    unfold um_mod in *. by rewrite Hs.
Qed.

Lemma um_delivery_correct_witness :
  (exists e' ev, um_handle_pdu true 8 [0x87; 0; 2; 3; 4] um_rx_one_segment = Some (e', ev) /\ um_inv e' /\
    delivered ev = [[1; 2; 3; 4]]) /\
  (exists e' ev, um_handle_pdu true 8 [0; 9; 9] um_rx_one_segment = Some (e', ev) /\ um_inv e' /\ delivered ev = [[9; 9]]).
Proof.
  destruct um_rx_one_segment_ok as [Hinv Hall].
  assert (Hlen : forall q, 1 <= rd_length (um_example_sdu q) <= 65536).
  { intros q. unfold um_example_sdu. destruct (q =? 7); vm_compute; split; congruence. }
  split.
  - destruct (um_delivery_correct um_example_sdu true 8 [0x87; 0; 2; 3; 4] (UmHdr last_segment um_size6bits 7 2)
      um_rx_one_segment Hinv) as (e' & ev & E & Hinv' & _ & _ & _ & Hd).
    + repeat constructor; vm_compute; congruence.
    + exact Hlen.
    + done.
    + reflexivity.
    + intros _. repeat split; vm_compute; congruence.
    + exists e', ev. split; [exact E|]. split; [exact Hinv'|].
      refine (proj1 (Hd _ _ _ _) _ _ eq_refl _); [discriminate|reflexivity|reflexivity|left; eexists; vm_compute; reflexivity| | |vm_compute; lia].
      * exists 2. split; [unfold in_seg; vm_compute; split; congruence|]. change (~ covered [Seg first_segment 0 [1; 2]] 2).
        intros Hc. apply covered_cons in Hc as [[_ Hc]|Hc]; [by vm_compute in Hc|by apply covered_nil in Hc].
      * intros p Hp. change (rd_length _) with 4 in Hp. destruct (decide (p < 2)).
        -- left. change (covered [Seg first_segment 0 [1; 2]] p). apply covered_cons. left. unfold in_seg, sg_end. change (0 <= p < 2). lia.
        -- right. unfold in_seg. change (2 <= p < 4). lia.
  - destruct (um_delivery_correct um_example_sdu true 8 [0; 9; 9] (UmHdr full_sdu um_size6bits 0 0)
      um_rx_one_segment Hinv) as (e' & ev & E & Hinv' & _ & _ & Hd & _).
    + repeat constructor; vm_compute; congruence.
    + exact Hlen.
    + done.
    + reflexivity.
    + done.
    + exists e', ev. split; [exact E|]. split; [exact Hinv'|]. apply Hd; [done..|lia].
Defined.

Lemma um_expiry_exact_witness :
  exists e' ev, um_on_expired_reassembly_timer um_rx_one_segment = Some (e', ev) /\ um_inv e' /\
    rx_timer_trigger um_rx_one_segment = 8 /\ lost ev = 8.
Proof.
  destruct um_rx_one_segment_ok as [Hinv _].
  destruct (um_expiry_exact um_rx_one_segment Hinv) as (e' & ev & E & Hinv' & _ & _ & _ & _ & _ & _ & Hl);
    [vm_compute; congruence|].
  exists e', ev. split; [exact E|]. split; [exact Hinv'|]. split; [reflexivity|]. rewrite Hl. vm_compute. reflexivity.
Defined.

(** A missing segment inside the SDU of RX_Next_Reassembly does not start t-Reassembly. The comments of [handle_pdu] (and
    TS 38.322) want the timer to start when RX_Next_Highest = RX_Next_Reassembly + 1 and the SDU with SN =
    RX_Next_Reassembly has a gap, but the code looks at the SDU with SN = RX_Next_Highest, which the window does not hold:
    after the segment with offset 10 of SN 0 the SDU of SN 0 has a gap and no timer runs. *)
Theorem um_gap_does_not_start_timer :
  exists e ev, um_run um_rx_6bit [UmPdu true 8 [0xc0; 0; 10; 1; 2]] = Some (e, ev) /\
    rx_next_reassembly e = 0 /\ rx_next_highest e = 1 /\
    win_lookup (rx_window e) (rx_next_reassembly e) = Some (UmInfo false true [Seg middle_segment 10 [1; 2]]) /\
    reassembly_timer e = false.
Proof. eexists _, _. split; [vm_compute; reflexivity|]. repeat split; vm_compute; reflexivity. Qed.

(** The comparison RX_Timer_Trigger <= RX_Next_Reassembly is made on the SNs themselves, not relative to the modulus base.
    When the window spans the wrap of the SN space, a running t-Reassembly is therefore stopped and started again although
    RX_Timer_Trigger is still above RX_Next_Reassembly: with RX_Next_Reassembly 48 and RX_Timer_Trigger 11, of 64 SNs,
    a new PDU moves the trigger to RX_Next_Highest. *)
Theorem um_timer_restarted_at_wrap :
  exists e ev e' ev',
    um_run um_rx_6bit (UmPdu true 8 <$> [[0x54; 1]; [0x72; 1]; [0x4a; 1]]) = Some (e, ev) /\
    reassembly_timer e = true /\ rx_timer_trigger e = 11 /\
    um_run e [UmPdu true 8 [0x4f; 1]] = Some (e', ev') /\
    rx_next_reassembly e' = 48 /\ um_rx_mod_base e' (rx_next_reassembly e') < um_rx_mod_base e' 11 /\
    sn_in_reassembly_window e' 11 = true /\ reassembly_timer e' = true /\ rx_timer_trigger e' = 16.
Proof.
  eexists _, _, _, _. split; [vm_compute; reflexivity|]. split; [reflexivity|]. split; [reflexivity|].
  split; [vm_compute; reflexivity|]. repeat split; vm_compute; reflexivity.
Qed.
End concrete.
