(* ===== verification/RlcRxAm.v ===== *)
(** * The receiving side of an RLC AM entity ([lib/rlc/rlc_rx_am_entity.h] and [.cpp])

    The state variables of TS 38.322 section 7.1, the receiving window, t-Reassembly and t-StatusProhibit, the handling of
    received PDUs, and the status report that is built here and read by the transmitting side. A failed assertion, undefined
    behaviour and a loop that exceeds its fuel are [None]. *)
From S2P Require Import Prelude ByteCursor RlcConfig ByteBufferChain RlcAmPdu RlcAmStatusPdu RlcSegments SduWindow.
From S2P Require Import RlcRxBase.

(** [std::variant<byte_buffer_slice, segment_set_t>] *)
Inductive am_sdu_data := FullSdu (payload : list Z) | Segments (l : list segment).

(** [rlc_rx_am_sdu_info], without the time of arrival *)
Record rlc_rx_am_sdu_info := AmInfo {
  ai_fully_received : bool;
  ai_has_gap : bool;
  ai_sdu_data : am_sdu_data
}.

Definition rlc_rx_am_sdu_info_init : rlc_rx_am_sdu_info := AmInfo false false (FullSdu []).

(** [rlc_rx_am_state] *)
Record rlc_rx_am_state := AmSt {
  rx_next : Z;
  rx_next_status_trigger : Z;
  rx_highest_status : Z;
  rx_next_highest : Z
}.

(** The status report buffers and flags that the receiving and the transmitting side share. The three pointers into
    [status_buf] always differ; an exchange of pointers is an exchange of the reports. [prohibit_deferred] is the task that
    [get_status_pdu] hands to the executor to start t-StatusProhibit. *)
Record am_status_exchange := AmStatusExchange {
  do_status : bool;
  status_owned_by_writer : rlc_am_status_pdu;
  status_for_exchange : rlc_am_status_pdu;
  status_owned_by_reader : rlc_am_status_pdu;
  status_report_size : Z;
  status_prohibit_timer_is_running : bool;
  prohibit_deferred : bool;
  status_prohibit_timer : bool
}.

Section entity.
Context {W : Type} `{SduWindow rlc_rx_am_sdu_info W}.

(** [rlc_rx_am_entity]; [am_reassembly_timer] tells whether t-Reassembly is running. *)
Record rlc_rx_am_entity := AmRx {
  ar_sn_size : rlc_am_sn_size;
  t_status_prohibit : Z;
  max_nof_sn_per_status_report : Z;
  st : rlc_rx_am_state;
  am_rx_window : W;
  am_reassembly_timer : bool;
  status : am_status_exchange
}.

Definition am_mod (e : rlc_rx_am_entity) : Z := cardinality (am_sn_to_number (ar_sn_size e)).
Definition am_window_size (e : rlc_rx_am_entity) : Z := window_size (am_sn_to_number (ar_sn_size e)).

(** The constructor. The assertions on [cfg.max_sn_per_status] are [None]. *)
Definition am_rx_new (sn_size : rlc_am_sn_size) (t_prohibit : Z) (max_sn_per_status : option Z) (w : W)
  : option rlc_rx_am_entity :=
  let size := window_size (am_sn_to_number sn_size) in
  max_nof ← match max_sn_per_status with
            | Some n => if (n <=? size) && (0 <? n) then Some n else None
            | None => Some size
            end;
  let s := AmSt 0 0 0 0 in
  let init := set_ack_sn (rx_next_highest s) (status_pdu_new sn_size) in
  Some (AmRx sn_size t_prohibit max_nof s w false
          (AmStatusExchange false (status_pdu_new sn_size) init (status_pdu_new sn_size) (packed_size init) false false false)).

Definition am_set_st (s : rlc_rx_am_state) (e : rlc_rx_am_entity) : rlc_rx_am_entity :=
  AmRx (ar_sn_size e) (t_status_prohibit e) (max_nof_sn_per_status_report e) s (am_rx_window e) (am_reassembly_timer e) (status e).
Definition am_set_window (w : W) (e : rlc_rx_am_entity) : rlc_rx_am_entity :=
  AmRx (ar_sn_size e) (t_status_prohibit e) (max_nof_sn_per_status_report e) (st e) w (am_reassembly_timer e) (status e).
Definition am_set_timer (trigger : Z) (b : bool) (e : rlc_rx_am_entity) : rlc_rx_am_entity :=
  AmRx (ar_sn_size e) (t_status_prohibit e) (max_nof_sn_per_status_report e)
    (AmSt (rx_next (st e)) trigger (rx_highest_status (st e)) (rx_next_highest (st e))) (am_rx_window e) b (status e).
Definition am_set_status (s : am_status_exchange) (e : rlc_rx_am_entity) : rlc_rx_am_entity :=
  AmRx (ar_sn_size e) (t_status_prohibit e) (max_nof_sn_per_status_report e) (st e) (am_rx_window e) (am_reassembly_timer e) s.
Definition set_rx_next (sn : Z) (s : rlc_rx_am_state) : rlc_rx_am_state :=
  AmSt sn (rx_next_status_trigger s) (rx_highest_status s) (rx_next_highest s).
Definition set_rx_highest_status (sn : Z) (s : rlc_rx_am_state) : rlc_rx_am_state :=
  AmSt (rx_next s) (rx_next_status_trigger s) sn (rx_next_highest s).
Definition set_rx_next_highest (sn : Z) (s : rlc_rx_am_state) : rlc_rx_am_state :=
  AmSt (rx_next s) (rx_next_status_trigger s) (rx_highest_status s) sn.

Definition am_rx_mod_base (e : rlc_rx_am_entity) (sn : Z) : Z := u32 (sn - rx_next (st e)) mod am_mod e.
Definition inside_rx_window (e : rlc_rx_am_entity) (sn : Z) : bool := am_rx_mod_base e sn <? am_window_size e.
Definition valid_ack_sn (e : rlc_rx_am_entity) (sn : Z) : bool :=
  (0 <? am_rx_mod_base e sn) && (am_rx_mod_base e sn <=? am_window_size e).

(** ** Storing and reassembling *)

(** [update_segment_inventory] *)
Definition am_update_segment_inventory (rx_sdu : rlc_rx_am_sdu_info) : option rlc_rx_am_sdu_info :=
  match ai_sdu_data rx_sdu with
  | FullSdu _ => None
  | Segments l => let '(gap, full) := segment_inventory l in Some (AmInfo full gap (Segments l))
  end.

(** [store_segment] *)
Definition am_store_segment (sdu_info : rlc_rx_am_sdu_info) (new_segment : segment) : bool * rlc_rx_am_sdu_info :=
  let segments := match ai_sdu_data sdu_info with FullSdu _ => [] | Segments l => l end in
  let '(stored, l) := store_segment segments new_segment in
  (stored, AmInfo (ai_fully_received sdu_info) (ai_has_gap sdu_info) (Segments l)).

(** [reassemble_sdu] *)
Definition am_reassemble_sdu (block : bool) (max : nat) (sdu_info : rlc_rx_am_sdu_info) : option byte_buffer_chain :=
  if negb (ai_fully_received sdu_info) then None else
  sdu ← chain_create block max;
  match ai_sdu_data sdu_info with
  | FullSdu payload => let '(ok, sdu) := chain_append payload sdu in if ok then Some sdu else None
  | Segments l => chain_segments l sdu
  end.

(** The common start of [handle_full_data_sdu] and [handle_segment_data_sdu]: the SN is added unless it is present. *)
Definition am_get_or_add (sn : Z) (w : W) : option (bool * W) :=
  if has_sn w sn then Some (true, w) else add_sn w sn.

(** [handle_full_data_sdu] *)
Definition am_handle_full_data_sdu (header : rlc_am_pdu_header) (payload : list Z) (e : rlc_rx_am_entity)
  : option (bool * rlc_rx_am_entity * list rx_event) :=
  if negb (bool_decide (h_si header = full_sdu)) then Some (false, e, []) else
  '(ok, w) ← am_get_or_add (h_sn header) (am_rx_window e);
  if negb ok then Some (false, am_set_window w e, [AddLost 1]) else
  rx_sdu ← win_get w (h_sn header);
  w ← win_put w (h_sn header) (AmInfo true false (FullSdu payload));
  Some (true, am_set_window w e, []).

(** [handle_segment_data_sdu] *)
Definition am_handle_segment_data_sdu (header : rlc_am_pdu_header) (payload : list Z) (e : rlc_rx_am_entity)
  : option (bool * rlc_rx_am_entity * list rx_event) :=
  if bool_decide (h_si header = full_sdu) then Some (false, e, []) else
  '(ok, w) ← am_get_or_add (h_sn header) (am_rx_window e);
  if negb ok then Some (false, am_set_window w e, [AddLost 1]) else
  rx_sdu ← win_get w (h_sn header);
  let '(stored, rx_sdu) := am_store_segment rx_sdu (Seg (h_si header) (h_so header) payload) in
  rx_sdu ← am_update_segment_inventory rx_sdu;
  w ← win_put w (h_sn header) rx_sdu;
  Some (stored, am_set_window w e, []).

(** ** The status report *)

(** [push_nack] and the assertion that follows it *)
Definition push_checked_nack (nack : rlc_am_status_nack) (s : rlc_am_status_pdu) : option rlc_am_status_pdu :=
  let s := push_nack nack s in
  if so_end nack <? so_start nack then None else Some s.

(** A NACK with segment offsets; the other fields as the default constructor leaves them. *)
Definition so_nack (sn start last : Z) : rlc_am_status_nack :=
  Nack sn true start last (has_nack_range nack_init) (nack_range nack_init).

(** The [for] loop over the segments of an incomplete SDU: the report, [last_so] and [have_last_segment] *)
Fixpoint nack_segments (sn : Z) (l : list segment) (last_so : Z) (have_last : bool) (s : rlc_am_status_pdu)
  : option (rlc_am_status_pdu * Z * bool) :=
  match l with
  | [] => Some (s, last_so, have_last)
  | segm :: rest =>
      s ← (if negb (sg_so segm =? last_so) then push_checked_nack (so_nack sn (u16 last_so) (u16 (sg_so segm - 1))) s
           else Some s);
      let have_last := match sg_si segm with last_segment => true | _ => have_last end in
      nack_segments sn rest (u32 (sg_so segm + sg_len segm)) have_last s
  end.

(** The body of the NACK loop of [refresh_status_report] for one SN *)
Definition nack_sdu (w : W) (i : Z) (s : rlc_am_status_pdu) : option rlc_am_status_pdu :=
  full ← win_flag ai_fully_received w i;
  if (full : bool) then Some s
  else if negb (has_sn w i) then
    Some (push_nack (Nack i false (so_start nack_init) (so_end nack_init) (has_nack_range nack_init) (nack_range nack_init)) s)
  else
    rx_sdu ← win_get w i;
    match ai_sdu_data rx_sdu with
    | FullSdu _ => None
    | Segments l =>
        '(s, last_so, have_last) ← nack_segments i l 0 false s;
        if negb (have_last : bool) then push_checked_nack (so_nack i (u16 last_so) so_end_of_sdu) s else Some s
    end.

(** The NACK loop *)
Fixpoint nack_loop (fuel : nat) (mb : Z -> Z) (stop_sn md i : Z) (w : W) (s : rlc_am_status_pdu)
  : option rlc_am_status_pdu :=
  if mb i <? mb stop_sn then
    match fuel with
    | O => None
    | S fuel => s ← nack_sdu w i s; nack_loop fuel mb stop_sn md ((i + 1) mod md) w s
    end
  else Some s.

Definition am_fuel (e : rlc_rx_am_entity) : nat := Z.to_nat (am_mod e).

(** [store_status_report] *)
Definition store_status_report (x : am_status_exchange) : am_status_exchange :=
  AmStatusExchange (do_status x) (status_for_exchange x) (status_owned_by_writer x) (status_owned_by_reader x)
    (packed_size (status_owned_by_writer x)) (status_prohibit_timer_is_running x) (prohibit_deferred x) (status_prohibit_timer x).

Definition set_writer (s : rlc_am_status_pdu) (x : am_status_exchange) : am_status_exchange :=
  AmStatusExchange (do_status x) s (status_for_exchange x) (status_owned_by_reader x) (status_report_size x)
    (status_prohibit_timer_is_running x) (prohibit_deferred x) (status_prohibit_timer x).
Definition set_do_status (b : bool) (x : am_status_exchange) : am_status_exchange :=
  AmStatusExchange b (status_owned_by_writer x) (status_for_exchange x) (status_owned_by_reader x) (status_report_size x)
    (status_prohibit_timer_is_running x) (prohibit_deferred x) (status_prohibit_timer x).
Definition set_prohibit (flag deferred timer : bool) (x : am_status_exchange) : am_status_exchange :=
  AmStatusExchange (do_status x) (status_owned_by_writer x) (status_for_exchange x) (status_owned_by_reader x)
    (status_report_size x) flag deferred timer.

(** The SN up to which the report goes *)
Definition status_stop_sn (e : rlc_rx_am_entity) : Z :=
  let limit := u32 (rx_next (st e) + max_nof_sn_per_status_report e) mod am_mod e in
  if am_rx_mod_base e limit <? am_rx_mod_base e (rx_highest_status (st e)) then limit else rx_highest_status (st e).

(** [refresh_status_report] *)
Definition refresh_status_report (e : rlc_rx_am_entity) : option rlc_rx_am_entity :=
  let stop_sn := status_stop_sn e in
  s ← nack_loop (am_fuel e) (am_rx_mod_base e) stop_sn (am_mod e) (rx_next (st e)) (am_rx_window e)
        (reset (status_owned_by_writer (status e)));
  Some (am_set_status (store_status_report (set_writer (set_ack_sn stop_sn s) (status e))) e).

Definition status_report_required (e : rlc_rx_am_entity) : bool :=
  do_status (status e) && negb (status_prohibit_timer_is_running (status e)).

Definition notify_status_report_changed (e : rlc_rx_am_entity) : list rx_event :=
  if status_report_required e then [OnStatusReportChanged] else [].

Definition get_status_pdu_length (e : rlc_rx_am_entity) : Z := status_report_size (status e).

(** [get_status_pdu]; [deferred] tells whether the executor accepts the task that starts t-StatusProhibit. *)
Definition get_status_pdu (deferred : bool) (e : rlc_rx_am_entity) : rlc_am_status_pdu * rlc_rx_am_entity :=
  let x := set_do_status false (status e) in
  let x := if 0 <? t_status_prohibit e
           then set_prohibit true (deferred || prohibit_deferred x) (status_prohibit_timer x) x
           else x in
  (status_for_exchange x,
   am_set_status (AmStatusExchange (do_status x) (status_owned_by_writer x) (status_owned_by_reader x) (status_for_exchange x)
                    (status_report_size x) (status_prohibit_timer_is_running x) (prohibit_deferred x) (status_prohibit_timer x)) e).

(** [on_expired_status_prohibit_timer] *)
Definition am_on_expired_status_prohibit_timer (e : rlc_rx_am_entity) : rlc_rx_am_entity * list rx_event :=
  let e := am_set_status (set_prohibit false (prohibit_deferred (status e)) (status_prohibit_timer (status e)) (status e)) e in
  (e, notify_status_report_changed e).

(** ** Received PDUs *)

(** [handle_data_pdu], "if x = RX_Highest_Status" *)
Definition am_update_highest_status (sn : Z) (e : rlc_rx_am_entity) : option rlc_rx_am_entity :=
  let mb := am_rx_mod_base e in
  if mb sn =? mb (rx_highest_status (st e)) then
    sn_upd ← search_loop ai_fully_received (am_fuel e) mb (mb (rx_next_highest (st e))) (am_mod e)
               (u32 (rx_highest_status (st e) + 1) mod am_mod e) (am_rx_window e);
    Some (am_set_st (set_rx_highest_status sn_upd (st e)) e)
  else Some e.

(** [handle_data_pdu], "if x = RX_Next" *)
Definition am_update_next (sn : Z) (e : rlc_rx_am_entity) : option rlc_rx_am_entity :=
  let mb := am_rx_mod_base e in
  if mb sn =? mb (rx_next (st e)) then
    '(sn_upd, w) ← advance_loop ai_fully_received (am_fuel e) mb (mb (rx_next_highest (st e))) (am_mod e)
                     (rx_next (st e) mod am_mod e) (am_rx_window e);
    Some (am_set_st (set_rx_next sn_upd (st e)) (am_set_window w e))
  else Some e.

(** [handle_data_pdu], "if all bytes of the RLC SDU with SN = x are received" *)
Definition am_all_received (block : bool) (max : nat) (sn : Z) (e : rlc_rx_am_entity)
  : option (rlc_rx_am_entity * list rx_event) :=
  sdu_info ← win_get (am_rx_window e) sn;
  let ev := deliver_events (am_reassemble_sdu block max sdu_info) in
  w ← win_put (am_rx_window e) sn (AmInfo (ai_fully_received sdu_info) (ai_has_gap sdu_info) (FullSdu []));
  e ← am_update_highest_status sn (am_set_window w e);
  e ← am_update_next sn e;
  Some (e, ev).

(** "if t-Reassembly is running" *)
Definition am_stop_reassembly_timer (e : rlc_rx_am_entity) : option rlc_rx_am_entity :=
  if am_reassembly_timer e then
    let trigger := rx_next_status_trigger (st e) in
    let stop := trigger =? rx_next (st e) in
    stop ←
      (if am_rx_mod_base e trigger =? am_rx_mod_base e (u32 (rx_next (st e) + 1)) then
         no_gap ← win_flag (fun i => negb (ai_has_gap i)) (am_rx_window e) (rx_next (st e));
         Some (stop || no_gap)
       else Some stop);
    let stop := stop || negb (inside_rx_window e trigger) in
    Some (am_set_timer trigger (negb stop) e)
  else Some e.

(** The condition to start t-Reassembly: [base] is RX_Next in [handle_data_pdu] and RX_Highest_Status on expiry. *)
Definition am_restart_reassembly_timer (base : Z) (e : rlc_rx_am_entity) : option rlc_rx_am_entity :=
  let highest := am_rx_mod_base e (rx_next_highest (st e)) in
  let restart := am_rx_mod_base e (u32 (base + 1)) <? highest in
  restart ←
    (if highest =? am_rx_mod_base e (u32 (base + 1)) then
       gap ← win_flag ai_has_gap (am_rx_window e) base; Some (restart || gap)
     else Some restart);
  if (restart : bool) then Some (am_set_timer (rx_next_highest (st e)) true e) else Some e.

Definition am_update_timer (e : rlc_rx_am_entity) : option rlc_rx_am_entity :=
  e ← am_stop_reassembly_timer e;
  if negb (am_reassembly_timer e) then am_restart_reassembly_timer (rx_next (st e)) e else Some e.

(** [handle_data_pdu], the actions when an AMD PDU is placed in the reception buffer *)
Definition am_placed (block : bool) (max : nat) (sn : Z) (e : rlc_rx_am_entity)
  : option (rlc_rx_am_entity * list rx_event) :=
  let e := if am_rx_mod_base e (rx_next_highest (st e)) <=? am_rx_mod_base e sn
           then am_set_st (set_rx_next_highest (u32 (sn + 1) mod am_mod e) (st e)) e else e in
  full ← win_flag ai_fully_received (am_rx_window e) sn;
  '(e, ev) ← (if (full : bool) then am_all_received block max sn e else Some (e, []));
  e ← am_update_timer e;
  Some (e, ev).

(** The body of [handle_data_pdu]: [stored] and [status_requested] as they are when the function returns, the entity and
    the events *)
Definition am_data_pdu_body (block : bool) (max : nat) (buf : list Z) (e : rlc_rx_am_entity)
  : option (bool * bool * rlc_rx_am_entity * list rx_event) :=
  '(ok, header) ← rlc_am_read_data_pdu_header buf (ar_sn_size e) rlc_am_pdu_header_init;
  if negb ok then Some (false, false, e, [AddMalformed 1]) else
  let header_len := get_packed_size header in
  if rd_length buf <=? header_len then Some (false, false, e, []) else
  let payload := advance header_len buf in
  let status_requested := negb (h_p header =? 0) in
  if negb (inside_rx_window e (h_sn header)) then Some (false, status_requested, e, []) else
  duplicate ← win_flag ai_fully_received (am_rx_window e) (h_sn header);
  if (duplicate : bool) then Some (false, status_requested, e, []) else
  '(stored, e, ev1) ← (if bool_decide (h_si header = full_sdu) then am_handle_full_data_sdu header payload e
                       else am_handle_segment_data_sdu header payload e);
  if negb stored then Some (false, status_requested, e, ev1) else
  '(e, ev2) ← am_placed block max (h_sn header) e;
  Some (true, status_requested, e, ev1 ++ ev2).

(** [handle_data_pdu]: the body, and the scope guard that runs when it returns *)
Definition am_handle_data_pdu (block : bool) (max : nat) (buf : list Z) (e : rlc_rx_am_entity)
  : option (rlc_rx_am_entity * list rx_event) :=
  '(stored, status_requested, e, ev) ← am_data_pdu_body block max buf e;
  e ← (if stored || status_requested then refresh_status_report e else Some e);
  let e := if (status_requested : bool) then am_set_status (set_do_status true (status e)) e else e in
  Some (e, ev ++ (if stored || status_requested then notify_status_report_changed e else [])).

(** [handle_control_pdu] *)
Definition am_handle_control_pdu (buf : list Z) (e : rlc_rx_am_entity) : option (list rx_event) :=
  '(ok, status_pdu) ← unpack buf (status_pdu_new (ar_sn_size e));
  Some (if (ok : bool) then [OnStatusPdu status_pdu] else []).

(** [handle_pdu] *)
Definition am_handle_pdu (block : bool) (max : nat) (buf : list Z) (e : rlc_rx_am_entity)
  : option (rlc_rx_am_entity * list rx_event) :=
  let ev := [AddPdus 1 (rd_length buf)] in
  if rd_empty buf then Some (e, ev) else
  control ← is_control_pdu buf;
  if (control : bool) then
    ev' ← am_handle_control_pdu buf e;
    Some (e, ev ++ AddCtrlPdus 1 (rd_length buf) :: ev')
  else
    '(e, ev') ← am_handle_data_pdu block max buf e;
    Some (e, ev ++ ev').

(** [on_expired_reassembly_timer] *)
Definition am_on_expired_reassembly_timer (e : rlc_rx_am_entity) : option (rlc_rx_am_entity * list rx_event) :=
  if am_reassembly_timer e then Some (e, []) else
  if negb (valid_ack_sn e (rx_next_status_trigger (st e))) then Some (e, []) else
  sn_upd ← search_loop ai_fully_received (am_fuel e) (am_rx_mod_base e) (am_rx_mod_base e (rx_next_highest (st e))) (am_mod e)
             (rx_next_status_trigger (st e)) (am_rx_window e);
  if negb (valid_ack_sn e sn_upd) then None else
  e ← am_restart_reassembly_timer sn_upd (am_set_st (set_rx_highest_status sn_upd (st e)) e);
  e ← refresh_status_report e;
  let e := am_set_status (set_do_status true (status e)) e in
  Some (e, notify_status_report_changed e).

(** ** Inputs

    A PDU from the lower layer, the expiry of a running timer, a request of the transmitting side for the status PDU, and the
    deferred task that starts t-StatusProhibit. *)
Inductive am_input :=
| AmPdu (block : bool) (max : nat) (buf : list Z)
| AmReassemblyExpiry
| AmProhibitExpiry
| AmGetStatus (deferred : bool)
| AmProhibitTask.

Definition am_step (e : rlc_rx_am_entity) (i : am_input) : option (rlc_rx_am_entity * list rx_event) :=
  match i with
  | AmPdu block max buf => am_handle_pdu block max buf e
  | AmReassemblyExpiry =>
      if am_reassembly_timer e
      then am_on_expired_reassembly_timer (am_set_timer (rx_next_status_trigger (st e)) false e)
      else Some (e, [])
  | AmProhibitExpiry =>
      let x := status e in
      if status_prohibit_timer x
      then Some (am_on_expired_status_prohibit_timer
                   (am_set_status (set_prohibit (status_prohibit_timer_is_running x) (prohibit_deferred x) false x) e))
      else Some (e, [])
  | AmGetStatus deferred => let '(s, e) := get_status_pdu deferred e in Some (e, [])
  | AmProhibitTask =>
      let x := status e in
      if prohibit_deferred x
      then Some (am_set_status (set_prohibit (status_prohibit_timer_is_running x) false true x) e, [])
      else Some (e, [])
  end.

Fixpoint am_run (e : rlc_rx_am_entity) (l : list am_input) : option (rlc_rx_am_entity * list rx_event) :=
  match l with
  | [] => Some (e, [])
  | i :: l => '(e, ev) ← am_step e i; '(e, ev') ← am_run e l; Some (e, ev ++ ev')
  end.
End entity.

Arguments rlc_rx_am_entity : clear implicits.
