(* ===== verification/RlcRxAmFacts.v ===== *)
(** * Properties of the AM receiver: data path

    Arithmetic relative to RX_Next, the invariant of the state variables and of the window, and what storing, delivering and
    the timer conditions do to them. *)
From S2P Require Import Prelude ByteCursor RlcConfig ByteBufferChain RlcAmPdu RlcAmStatusPdu RlcAmStatusNacks.
From S2P Require Import RlcSegments SduWindow RlcRxBase RlcRxAm.

(** Whether the SDU of a SN is fully received. *)
Abbreviation am_full := (lookup_flag ai_fully_received).

(** A set of segments whose offsets do not leave 16 bits. *)
Definition segs_bounded (l : list segment) : Prop := separated 0 l /\ ~ covered l 65535.

(** An incomplete SDU: its flags agree with its segments. *)
Definition am_info_wf (i : rlc_rx_am_sdu_info) : Prop :=
  ai_fully_received i = false ->
  exists l, ai_sdu_data i = Segments l /\ segment_inventory l = (ai_has_gap i, false) /\ segs_bounded l.

Section facts.
Context {W : Type} `{SduWindowLaws rlc_rx_am_sdu_info W rlc_rx_am_sdu_info_init}.
Notation entity := (rlc_rx_am_entity W).
Implicit Types (e : entity) (w : W).

(** ** Arithmetic *)

Lemma am_geometry e : am_mod e = 2 * am_window_size e /\ 2048 <= am_window_size e <= 131072 /\
  exists k, 0 <= k <= 32 /\ am_mod e = 2 ^ k.
Proof.
  unfold am_mod, am_window_size. destruct (ar_sn_size e); (split_and!; [reflexivity|vm_compute; congruence..|]);
    [exists 12|exists 18]; split; (lia || reflexivity).
Qed.

Notation am_rel e := (rel (am_mod e) (rx_next (st e))).

Lemma am_rx_mod_base_rel e x : am_rx_mod_base e x = am_rel e x.
Proof. destruct (am_geometry e) as (_ & _ & k & Hk & E). unfold am_rx_mod_base, rel. by rewrite E, mod_pow2_u32. Qed.

Lemma am_u32_mod e x : u32 x mod am_mod e = x mod am_mod e.
Proof. destruct (am_geometry e) as (_ & _ & k & Hk & E). by rewrite E, mod_pow2_u32. Qed.

Lemma am_rel_mod e x y : x mod am_mod e = y mod am_mod e -> am_rel e x = am_rel e y.
Proof. intros E. unfold rel. by rewrite <- Zminus_mod_idemp_l, E, Zminus_mod_idemp_l. Qed.

Lemma am_rel_u32 e x : am_rel e (u32 x) = am_rel e x.
Proof. apply am_rel_mod, am_u32_mod. Qed.

Lemma am_rel_range e x : 0 <= am_rel e x < am_mod e.
Proof. destruct (am_geometry e) as (? & ? & _). apply rel_range. lia. Qed.

Lemma am_rel_next e : am_rel e (rx_next (st e)) = 0.
Proof. destruct (am_geometry e) as (? & ? & _). apply rel_self. lia. Qed.

Lemma am_rel_succ e x : am_rel e x <= am_window_size e -> am_rel e ((x + 1) mod am_mod e) = am_rel e x + 1.
Proof. intros Hx. destruct (am_geometry e) as (? & ? & _). apply rel_succ; lia. Qed.

Lemma am_rel_plus e d : 0 <= d <= am_window_size e -> am_rel e (rx_next (st e) + d) = d.
Proof.
  intros Hd. destruct (am_geometry e) as (? & ? & _). rewrite rel_add, rel_self by lia. apply Z.mod_small. lia.
Qed.

Lemma inside_rel e sn : inside_rx_window e sn = (am_rel e sn <? am_window_size e).
Proof. unfold inside_rx_window. by rewrite am_rx_mod_base_rel. Qed.

Lemma am_rel_inj e x y : 0 <= x < am_mod e -> 0 <= y < am_mod e -> am_rel e x = am_rel e y -> x = y.
Proof. destruct (am_geometry e) as (? & ? & _). apply rel_inj. lia. Qed.

(** ** Invariant *)

(** The state variables [s] and the window, with the modulus and the window size as parameters. *)
Definition am_vars (md ws : Z) (s : rlc_rx_am_state) w : Prop :=
  let r := rel md (rx_next s) in
  0 <= rx_next s < md /\ 0 <= rx_next_status_trigger s < md /\ 0 <= rx_highest_status s < md /\ 0 <= rx_next_highest s < md /\
  win_inv w /\ r (rx_highest_status s) <= r (rx_next_highest s) <= ws /\
  (forall q, 0 <= q < md -> is_Some (win_lookup w q) -> r q < r (rx_next_highest s)) /\
  am_full w (rx_next s) = false /\ am_full w (rx_highest_status s) = false.

(** A running t-Reassembly was triggered by a SN above RX_Next. *)
Definition am_timer_ok (md : Z) (s : rlc_rx_am_state) (running : bool) : Prop :=
  let r := rel md (rx_next s) in
  running = true -> 0 < r (rx_next_status_trigger s) <= r (rx_next_highest s).

Definition am_all (P : Z -> rlc_rx_am_sdu_info -> Prop) (md : Z) w : Prop :=
  forall q i, 0 <= q < md -> win_lookup w q = Some i -> P q i.

Definition am_inv e : Prop :=
  am_vars (am_mod e) (am_window_size e) (st e) (am_rx_window e) /\
  am_timer_ok (am_mod e) (st e) (am_reassembly_timer e) /\
  am_all (fun _ => am_info_wf) (am_mod e) (am_rx_window e).

Lemma am_fuel_enough e x d : d <= am_mod e -> d - am_rel e x <= Z.of_nat (am_fuel e).
Proof. intros. destruct (am_geometry e) as (? & ? & _). pose proof (am_rel_range e x). unfold am_fuel. lia. Qed.

(** ** Storing *)

(** Other SDUs are evicted only if they share a slot of the window. *)
Definition others_stay (sn : Z) w w' : Prop :=
  forall q i, 0 <= q -> q <> sn -> q mod win_cap w <> sn mod win_cap w -> win_lookup w q = Some i -> win_lookup w' q = Some i.

Lemma others_stay_put sn w w1 w2 :
  win_cap w1 = win_cap w -> others_stay sn w w1 -> (forall q, 0 <= q -> q <> sn -> win_lookup w2 q = win_lookup w1 q) ->
  others_stay sn w w2.
Proof. intros Hc Ho Hl q i Hq Hne Hr Hi. rewrite Hl by done. by apply Ho. Qed.

(** The window has an entry for the SN, or memory for one. *)
Definition am_room (sn : Z) w : Prop := exists w', am_get_or_add sn w = Some (true, w').

Lemma am_room_has sn w : win_inv w -> 0 <= sn -> is_Some (win_lookup w sn) -> am_room sn w.
Proof. intros Hw Hs Hl. exists w. unfold am_get_or_add. rewrite win_has by done. by rewrite bool_decide_true. Qed.

Lemma am_no_room sn w w' : am_get_or_add sn w = Some (false, w') -> ~ am_room sn w.
Proof. intros E [w2 E2]. congruence. Qed.

(** What is known about the SDU of a SN before a PDU for it is handled: it is not fully received. *)
Lemma am_get_or_add_spec sn w :
  win_inv w -> 0 <= sn ->
  exists ok w', am_get_or_add sn w = Some (ok, w') /\ win_inv w' /\ win_cap w' = win_cap w /\
    (forall q i, 0 <= q -> q <> sn -> win_lookup w' q = Some i -> win_lookup w q = Some i) /\
    (if ok then win_lookup w' sn = Some (default rlc_rx_am_sdu_info_init (win_lookup w sn)) /\
                (is_Some (win_lookup w sn) -> w' = w)
     else w' = w /\ win_lookup w sn = None) /\ others_stay sn w w'.
Proof.
  intros Hw Hs. unfold am_get_or_add. rewrite win_has by done.
  destruct (win_lookup w sn) as [i|] eqn:E.
  - rewrite bool_decide_true by eauto. exists true, w. do 4 (split; [done|]). split; [done|]. by intros q j.
  - rewrite bool_decide_false by (by intros []).
    destruct (win_add_spec w sn Hw Hs E) as (ok & w' & -> & Hw' & Hc & Hok). exists ok, w'. split; [done|].
    split; [done|]. split; [done|]. destruct ok.
    + split; [|split; [split; [|by intros []]|]].
      * intros q i Hq Hne. rewrite Hok by done. rewrite decide_False by done. by case_decide.
      * rewrite Hok by done. by rewrite decide_True.
      * intros q i Hq Hne Hr Hi. rewrite Hok by done. by rewrite !decide_False by done.
    + subst. split; [done|]. split; [done|]. by intros q j.
Qed.

(** The result of storing a segment into the SDU [i0]. *)
Definition am_segments (i : rlc_rx_am_sdu_info) : list segment :=
  match ai_sdu_data i with FullSdu _ => [] | Segments l => l end.
Definition am_stored (i0 : rlc_rx_am_sdu_info) (seg : segment) : bool * rlc_rx_am_sdu_info :=
  let '(ok, l) := store_segment (am_segments i0) seg in
  let '(gap, full) := segment_inventory l in
  (ok, AmInfo full gap (Segments l)).

Lemma am_handle_segment_spec header payload e :
  win_inv (am_rx_window e) -> 0 <= h_sn header -> h_si header <> full_sdu ->
  let w := am_rx_window e in
  let sn := h_sn header in
  exists stored w' ev, am_handle_segment_data_sdu header payload e = Some (stored, am_set_window w' e, ev) /\
    win_inv w' /\ delivered ev = [] /\
    (forall q i, 0 <= q -> q <> sn -> win_lookup w' q = Some i -> win_lookup w q = Some i) /\
    ((stored = false /\ w' = w /\ ~ am_room sn w) \/
     ((stored, win_lookup w' sn) =
      let '(ok, i) := am_stored (default rlc_rx_am_sdu_info_init (win_lookup w sn)) (Seg (h_si header) (h_so header) payload) in
      (ok, Some i))) /\
    win_cap w' = win_cap w /\ others_stay sn w w'.
Proof.
  intros Hw Hs Hsi w sn. unfold am_handle_segment_data_sdu. rewrite bool_decide_false by done. fold w sn.
  destruct (am_get_or_add_spec sn w Hw Hs) as (ok & w1 & Eg & Hw1 & Hc1 & Hq1 & Hok & Ho1). rewrite Eg. cbn [mbind option_bind].
  destruct ok; cbn [negb].
  2: { destruct Hok as [-> ?]. eexists _, _, _. split; [reflexivity|]. split; [done|]. split; [done|]. split; [done|]. split; [left; split_and!; [done..|by eapply am_no_room]|done]. }
  destruct Hok as [Hl1 _]. rewrite win_get_lookup, Hl1 by done. cbn [mbind option_bind]. unfold am_stored.
  set (i0 := from_option id rlc_rx_am_sdu_info_init (win_lookup w sn)) in *.
  unfold am_store_segment. fold (am_segments i0).
  destruct (store_segment (am_segments i0) _) as [stored l]. unfold am_update_segment_inventory; cbn [ai_sdu_data].
  destruct (segment_inventory l) as [gap full]. cbn [mbind option_bind].
  destruct (win_put_spec w1 sn (AmInfo full gap (Segments l)) Hw1 Hs) as (w2 & -> & Hw2 & Hc2 & Hl2); [rewrite Hl1; eauto|].
  cbn [mbind option_bind]. eexists _, _, _. split; [reflexivity|]. split; [done|]. split; [done|]. split; [|split; [|split]].
  - intros q i Hq Hne. rewrite Hl2 by done. rewrite decide_False by done. by apply Hq1.
  - right. rewrite Hl2 by done. by rewrite decide_True.
  - congruence.
  - eapply others_stay_put; [exact Hc1|done|]. intros q Hq Hne. rewrite Hl2 by done. by rewrite decide_False.
Qed.

Lemma am_handle_full_spec header payload e :
  win_inv (am_rx_window e) -> 0 <= h_sn header -> h_si header = full_sdu ->
  let w := am_rx_window e in
  let sn := h_sn header in
  exists stored w' ev, am_handle_full_data_sdu header payload e = Some (stored, am_set_window w' e, ev) /\
    win_inv w' /\ delivered ev = [] /\
    (forall q i, 0 <= q -> q <> sn -> win_lookup w' q = Some i -> win_lookup w q = Some i) /\
    ((stored = false /\ w' = w /\ ~ am_room sn w) \/
     (stored = true /\ win_lookup w' sn = Some (AmInfo true false (FullSdu payload)))) /\
    win_cap w' = win_cap w /\ others_stay sn w w'.
Proof.
  intros Hw Hs Hsi w sn. unfold am_handle_full_data_sdu. rewrite bool_decide_true by done. cbn [negb]. fold w sn.
  destruct (am_get_or_add_spec sn w Hw Hs) as (ok & w1 & Eg & Hw1 & Hc1 & Hq1 & Hok & Ho1). rewrite Eg. cbn [mbind option_bind].
  destruct ok; cbn [negb].
  2: { destruct Hok as [-> ?]. eexists _, _, _. split; [reflexivity|]. split; [done|]. split; [done|]. split; [done|]. split; [left; split_and!; [done..|by eapply am_no_room]|done]. }
  destruct Hok as [Hl1 _]. rewrite win_get_lookup, Hl1 by done. cbn [mbind option_bind].
  destruct (win_put_spec w1 sn (AmInfo true false (FullSdu payload)) Hw1 Hs) as (w2 & -> & Hw2 & Hc2 & Hl2); [rewrite Hl1; eauto|].
  cbn [mbind option_bind]. eexists _, _, _. split; [reflexivity|]. split; [done|]. split; [done|]. split; [|split; [|split]].
  - intros q i Hq Hne. rewrite Hl2 by done. rewrite decide_False by done. by apply Hq1.
  - right. rewrite Hl2 by done. by rewrite decide_True.
  - congruence.
  - eapply others_stay_put; [exact Hc1|done|]. intros q Hq Hne. rewrite Hl2 by done. by rewrite decide_False.
Qed.

(** ** Delivering and moving the window *)

(** The state while a PDU for [sn] is handled: as [am_vars], but the SDU of [sn] may be fully received. *)
Definition am_vars_placed (md ws sn : Z) (s : rlc_rx_am_state) w : Prop :=
  let r := rel md (rx_next s) in
  0 <= rx_next s < md /\ 0 <= rx_next_status_trigger s < md /\ 0 <= rx_highest_status s < md /\ 0 <= rx_next_highest s < md /\
  win_inv w /\ r (rx_highest_status s) <= r (rx_next_highest s) <= ws /\
  (forall q, 0 <= q < md -> is_Some (win_lookup w q) -> r q < r (rx_next_highest s)) /\
  (rx_next s <> sn -> am_full w (rx_next s) = false) /\ (rx_highest_status s <> sn -> am_full w (rx_highest_status s) = false).

Lemma am_full_lookup w w' q :
  win_lookup w' q = None \/ win_lookup w' q = win_lookup w q -> am_full w q = false -> am_full w' q = false.
Proof. unfold lookup_flag. intros [->| ->]; done. Qed.

(** RX_Next moves to [sn'], the first SN that is not fully received. *)
Lemma am_vars_advance md ws s w w' sn' :
  0 < md -> 0 <= sn' < md ->
  let r := rel md (rx_next s) in
  0 <= rx_next s < md -> 0 <= rx_next_status_trigger s < md -> 0 <= rx_highest_status s < md -> 0 <= rx_next_highest s < md ->
  win_inv w' -> r (rx_highest_status s) <= r (rx_next_highest s) <= ws ->
  (forall q, 0 <= q < md -> is_Some (win_lookup w q) -> r q < r (rx_next_highest s)) ->
  am_full w (rx_highest_status s) = false ->
  r sn' <= r (rx_next_highest s) ->
  (forall q, 0 <= q < md -> r q < r sn' -> am_full w q = true) ->
  removed md (rx_next s) 0 (r sn') w w' ->
  (r sn' < r (rx_next_highest s) -> am_full w sn' = false) ->
  am_vars md ws (set_rx_next sn' s) w'.
Proof.
  intros Hmd Hsn' r Hn Ht Hh Hnh Hw Hle Hkeys Hfh Hle' Hfull Hrem Hstop.
  assert (Hhs : r sn' <= r (rx_highest_status s)).
  { destruct (decide (r sn' <= r (rx_highest_status s))) as [|Hlt]; [done|].
    rewrite Hfull in Hfh; [done|done|lia]. }
  assert (Hreb : forall x, r sn' <= r x -> rel md sn' x = r x - r sn') by (intros; by apply rel_rebase_sub).
  unfold am_vars. cbn [set_rx_next rx_next rx_next_status_trigger rx_highest_status rx_next_highest].
  rewrite !Hreb by lia. repeat (split; [done || lia|]).
  assert (Hnosn : am_full w sn' = false).
  { destruct (decide (r sn' < r (rx_next_highest s))) as [|Hge]; [by apply Hstop|].
    unfold lookup_flag. destruct (win_lookup w sn') as [i|] eqn:E; [|done].
    specialize (Hkeys sn' Hsn'). rewrite E in Hkeys. specialize (Hkeys (mk_is_Some _ _ eq_refl)). lia. }
  assert (Hlook : forall q, 0 <= q < md -> win_lookup w' q = None \/ win_lookup w' q = win_lookup w q).
  { intros q Hq. rewrite (Hrem q Hq). case_decide; auto. }
  split.
  { pose proof (rel_range md (rx_next s) sn' Hmd). fold (r sn') in *. lia. }
  split.
  { intros q Hq Hs. rewrite (Hrem q Hq) in Hs. case_decide as Hd; [by destruct Hs|].
    pose proof (rel_range md (rx_next s) q Hmd). fold (r q) in *. rewrite Hreb by lia. specialize (Hkeys q Hq Hs). lia. }
  split; eapply am_full_lookup; eauto.
Qed.

Definition am_cleared (i : rlc_rx_am_sdu_info) : rlc_rx_am_sdu_info :=
  AmInfo (ai_fully_received i) (ai_has_gap i) (FullSdu []).

(** RX_Highest_Status moves past the SDU of [sn]. *)
Lemma am_update_highest_status_spec sn e :
  am_vars_placed (am_mod e) (am_window_size e) sn (st e) (am_rx_window e) ->
  0 <= sn < am_mod e -> is_Some (win_lookup (am_rx_window e) sn) ->
  exists hs, am_update_highest_status sn e = Some (am_set_st (set_rx_highest_status hs (st e)) e) /\
    0 <= hs < am_mod e /\ am_rel e hs <= am_rel e (rx_next_highest (st e)) /\ am_full (am_rx_window e) hs = false.
Proof.
  intros (Hn & Ht & Hh & Hnh & Hw & Hle & Hkeys & Hfn & Hfh) Hsn Hi.
  destruct (am_geometry e) as (Hm & Hws & _). assert (Hmd : 0 < am_mod e) by lia.
  unfold am_update_highest_status. cbv zeta. rewrite !am_rx_mod_base_rel.
  destruct (Z.eqb_spec (am_rel e sn) (am_rel e (rx_highest_status (st e)))) as [E|E].
  - rewrite (search_loop_ext _ _ (am_rel e)) by (intros; apply am_rx_mod_base_rel). rewrite am_u32_mod.
    pose proof (Hkeys sn Hsn Hi) as Hlt.
    pose proof (am_rel_succ e (rx_highest_status (st e)) ltac:(lia)) as Hsucc.
    destruct (search_loop_spec ai_fully_received (am_mod e) (rx_next (st e)) (am_rel e (rx_next_highest (st e)))
      (am_rx_window e) Hmd ltac:(lia) Hw (am_fuel e) ((rx_highest_status (st e) + 1) mod am_mod e))
      as (hs & -> & Hhs & H1 & H2 & _ & H3); [by apply Z.mod_pos_bound|apply am_fuel_enough; lia|].
    cbn [mbind option_bind]. exists hs. split; [done|]. split; [done|]. split; [lia|].
    destruct (decide (am_rel e hs < am_rel e (rx_next_highest (st e)))) as [|Hge]; [by apply H3|].
    unfold lookup_flag. destruct (win_lookup (am_rx_window e) hs) eqn:E'; [|done]. specialize (Hkeys hs Hhs).
    rewrite E' in Hkeys. specialize (Hkeys (mk_is_Some _ _ eq_refl)). lia.
  - exists (rx_highest_status (st e)). split; [by destruct e as [? ? ? [] ? ? ?]|]. split; [done|]. split; [lia|].
    apply Hfh. by intros <-.
Qed.

(** RX_Next moves past the SDU of [sn], once RX_Highest_Status is up to date. *)
Lemma am_update_next_spec P sn e :
  am_vars_placed (am_mod e) (am_window_size e) sn (st e) (am_rx_window e) ->
  0 <= sn < am_mod e -> am_full (am_rx_window e) (rx_highest_status (st e)) = false ->
  am_all P (am_mod e) (am_rx_window e) ->
  exists nr w, am_update_next sn e = Some (am_set_st (set_rx_next nr (st e)) (am_set_window w e)) /\
    am_vars (am_mod e) (am_window_size e) (set_rx_next nr (st e)) w /\ am_all P (am_mod e) w /\
    am_rel e nr <= am_rel e (rx_next_highest (st e)) /\
    (forall q, 0 <= q < am_mod e -> am_rel e q < am_rel e nr -> am_full (am_rx_window e) q = true) /\
    (am_rel e nr < am_rel e (rx_next_highest (st e)) -> am_full (am_rx_window e) nr = false) /\
    (forall q, 0 <= q < am_mod e -> am_full (am_rx_window e) q = true ->
       am_full w q = true \/ am_rel e q < am_rel e nr) /\ win_cap w = win_cap (am_rx_window e).
Proof.
  intros (Hn & Ht & Hh & Hnh & Hw & Hle & Hkeys & Hfn & _) Hsn Hfh HP.
  destruct (am_geometry e) as (Hm & Hws & _). assert (Hmd : 0 < am_mod e) by lia. pose proof (am_rel_next e) as Hr0.
  unfold am_update_next. cbv zeta. rewrite !am_rx_mod_base_rel.
  destruct (Z.eqb_spec (am_rel e sn) (am_rel e (rx_next (st e)))) as [E|E].
  - rewrite (Z.mod_small (rx_next (st e))) by done.
    rewrite (advance_loop_ext _ _ (am_rel e)) by (intros; apply am_rx_mod_base_rel).
    destruct (advance_loop_spec ai_fully_received (am_mod e) (rx_next (st e)) (am_rel e (rx_next_highest (st e))) Hmd ltac:(lia)
      (am_fuel e) (rx_next (st e)) (am_rx_window e) Hn Hw) as (nr & w' & -> & Hnr & Hw2 & Hcap & _ & G2 & G3 & G4 & G5).
    { apply am_fuel_enough. lia. }
    unfold between in *. rewrite Hr0 in *. cbn [mbind option_bind]. specialize (G2 ltac:(pose proof (am_rel_range e (rx_next_highest (st e))); lia)).
    assert (Hrem : removed (am_mod e) (rx_next (st e)) 0 (am_rel e nr) (am_rx_window e) w').
    { intros q Hq. case_decide as Hd; [by apply (G3 q Hq)|]. apply (G4 q Hq). lia. }
    assert (Hfull : forall q, 0 <= q < am_mod e -> am_rel e q < am_rel e nr -> am_full (am_rx_window e) q = true).
    { intros q Hq Hlt. apply (G3 q Hq). pose proof (am_rel_range e q). lia. }
    exists nr, w'. split; [done|]. split; [by apply (am_vars_advance _ _ (st e) (am_rx_window e) w' nr)|].
    split; [|split; [done|split; [done|split; [done|split; [|done]]]]].
    + intros q j Hq. rewrite (Hrem q Hq). case_decide; [done|]. by apply HP.
    + intros q Hq Hf. unfold lookup_flag. rewrite (Hrem q Hq). case_decide as Hd; [right; lia|by left].
  - exists (rx_next (st e)), (am_rx_window e). assert (Hne : rx_next (st e) <> sn) by (intros Heq; apply E; by rewrite Heq).
    split; [by destruct e as [? ? ? [] ? ? ?]|]. split.
    { unfold am_vars. cbn. repeat (split; [done || lia|]). split; [by apply Hfn|done]. }
    split; [done|]. rewrite Hr0. split; [pose proof (am_rel_range e (rx_next_highest (st e))); lia|]. split.
    + intros q Hq Hlt. pose proof (am_rel_range e q). lia.
    + split; [intros _; by apply Hfn|split; [by left|done]].
Qed.

(** What handling a fully received SDU changes: only RX_Next, RX_Highest_Status and the window. *)
Definition am_moved e nr hs w : entity :=
  am_set_st (set_rx_next nr (set_rx_highest_status hs (st e))) (am_set_window w e).

Lemma am_all_received_spec P block max sn e i :
  am_vars_placed (am_mod e) (am_window_size e) sn (st e) (am_rx_window e) ->
  0 <= sn < am_mod e -> win_lookup (am_rx_window e) sn = Some i ->
  am_all P (am_mod e) (am_rx_window e) -> P sn (am_cleared i) ->
  exists nr hs w, am_all_received block max sn e
      = Some (am_moved e nr hs w, deliver_events (am_reassemble_sdu block max i)) /\
    am_vars (am_mod e) (am_window_size e) (st (am_moved e nr hs w)) w /\ am_all P (am_mod e) w /\
    am_rel e nr <= am_rel e (rx_next_highest (st e)) /\
    (forall q, 0 <= q < am_mod e -> am_rel e q < am_rel e nr -> am_full (am_rx_window e) q = true) /\
    (am_rel e nr < am_rel e (rx_next_highest (st e)) -> am_full (am_rx_window e) nr = false) /\
    (forall q, 0 <= q < am_mod e -> am_full (am_rx_window e) q = true ->
       am_full w q = true \/ am_rel e q < am_rel e nr) /\ win_cap w = win_cap (am_rx_window e).
Proof.
  intros Hvars Hsn Hi HP Hclear. pose proof Hvars as (Hn & Ht & Hh & Hnh & Hw & Hle & Hkeys & Hfn & Hfh).
  unfold am_all_received. rewrite win_get_lookup, Hi by (done || lia). cbn [mbind option_bind]. fold (am_cleared i).
  destruct (win_put_spec (am_rx_window e) sn (am_cleared i) Hw) as (w & -> & Hw' & Hc & Hl); [lia|eauto|].
  cbn [mbind option_bind]. set (e1 := am_set_window w e).
  assert (HP1 : am_all P (am_mod e) w).
  { intros q j Hq. rewrite Hl by lia. case_decide; [intros [= <-]; by subst|]. by apply HP. }
  assert (Hfull1 : forall q, 0 <= q -> am_full w q = am_full (am_rx_window e) q).
  { intros q Hq. unfold lookup_flag. rewrite Hl by done. case_decide; [subst; by rewrite Hi|done]. }
  assert (Hvars1 : am_vars_placed (am_mod e1) (am_window_size e1) sn (st e1) (am_rx_window e1)).
  { split; [done|]. split; [done|]. split; [done|]. split; [done|]. split; [done|]. split; [done|]. split.
    - intros q Hq Hs. apply Hkeys; [done|]. change (am_rx_window e1) with w in Hs. rewrite Hl in Hs by lia.
      case_decide; [subst; by rewrite Hi|done].
    - change (am_rx_window e1) with w. change (st e1) with (st e). by rewrite !Hfull1 by lia. }
  destruct (am_update_highest_status_spec sn e1 Hvars1 Hsn) as (hs & -> & Hhs & Hhle & Hhf).
  { change (am_rx_window e1) with w. rewrite Hl by lia. rewrite decide_True by done. eauto. }
  cbn [mbind option_bind]. set (e2 := am_set_st (set_rx_highest_status hs (st e1)) e1).
  assert (Hvars2 : am_vars_placed (am_mod e2) (am_window_size e2) sn (st e2) (am_rx_window e2)).
  { destruct Hvars1 as (? & ? & _ & ? & ? & ? & ? & ? & _). split; [done|]. split; [done|]. split; [done|].
    split; [done|]. split; [done|]. split; [|by split].
    change (am_rel e hs <= am_rel e (rx_next_highest (st e)) <= am_window_size e).
    change (am_rel e hs <= am_rel e (rx_next_highest (st e))) in Hhle. lia. }
  destruct (am_update_next_spec P sn e2 Hvars2 Hsn Hhf HP1) as (nr & w' & -> & Hv & HP2 & H1 & H2 & H3 & H4 & H5).
  cbn [mbind option_bind]. exists nr, hs, w'. split; [done|]. split; [done|]. split; [done|]. split; [done|]. split.
  - intros q Hq Hlt. rewrite <- Hfull1 by lia. by apply (H2 q).
  - split; [|split; [intros q Hq Hf; apply (H4 q Hq); by rewrite <- Hfull1 in Hf by lia|by rewrite H5]].
    intros Hlt. rewrite <- Hfull1; [by apply H3|]. destruct Hv as ((? & _) & _). done.
Qed.

(** ** The reassembly timer *)

Lemma am_vars_timer md ws s w t :
  am_vars md ws s w -> 0 <= t < md -> am_vars md ws (AmSt (rx_next s) t (rx_highest_status s) (rx_next_highest s)) w.
Proof. intros (? & ? & ? & ? & ?) Ht. unfold am_vars. cbn. tauto. Qed.

Lemma am_restart_timer_spec base e :
  am_vars (am_mod e) (am_window_size e) (st e) (am_rx_window e) ->
  am_timer_ok (am_mod e) (st e) (am_reassembly_timer e) ->
  0 <= base < am_mod e -> am_rel e base <= am_window_size e ->
  exists t b, am_restart_reassembly_timer base e = Some (am_set_timer t b e) /\ 0 <= t < am_mod e /\
    am_timer_ok (am_mod e) (st (am_set_timer t b e)) b /\
    ((t = rx_next_status_trigger (st e) /\ b = am_reassembly_timer e) \/
     (t = rx_next_highest (st e) /\ b = true /\ am_rel e base < am_rel e (rx_next_highest (st e)))).
Proof.
  intros (Hn & Ht & Hh & Hnh & Hw & Hle & _) Htim Hb Hbw. unfold am_restart_reassembly_timer. cbv zeta.
  destruct (am_geometry e) as (Hm & Hws & _). rewrite win_flag_spec by (done || lia).
  rewrite !am_rx_mod_base_rel, am_rel_u32, <- (am_rel_mod e ((base + 1) mod am_mod e) (base + 1)) by (apply Z.mod_mod; lia).
  rewrite am_rel_succ by done. pose proof (am_rel_range e base). cbn [mbind option_bind].
  destruct (Z.eqb_spec (am_rel e (rx_next_highest (st e))) (am_rel e base + 1)) as [E|E]; cbn [mbind option_bind];
    match goal with |- context [if ?c then Some (am_set_timer _ _ _) else _] => destruct c eqn:Ec end;
    first
    [ exists (rx_next_highest (st e)), true; split; [done|]; split; [done|]; split;
      [intros _; cbn [st am_set_timer rx_next rx_next_status_trigger rx_next_highest]; lia|right; split_and!; [done|done|lia]]
    | exists (rx_next_status_trigger (st e)), (am_reassembly_timer e); split; [by destruct e as [? ? ? [] ? ? ?]|];
      split; [done|]; split; [|by left]; intros Hr; exact (Htim Hr) ].
Qed.

(** Before the timer is updated, its trigger may have left the window at the lower edge. *)
Definition am_timer_pre e : Prop :=
  am_reassembly_timer e = true ->
  am_rel e (rx_next_status_trigger (st e)) <= am_rel e (rx_next_highest (st e)) \/
  am_window_size e <= am_rel e (rx_next_status_trigger (st e)).

Lemma am_stop_timer_spec e :
  am_vars (am_mod e) (am_window_size e) (st e) (am_rx_window e) -> am_timer_pre e ->
  exists b, am_stop_reassembly_timer e = Some (am_set_timer (rx_next_status_trigger (st e)) b e) /\
    am_timer_ok (am_mod e) (st e) b /\ (am_reassembly_timer e = false -> b = false).
Proof.
  intros (Hn & Ht & Hh & Hnh & Hw & Hle & _) Hpre. unfold am_stop_reassembly_timer.
  destruct (am_reassembly_timer e) eqn:Er; cycle 1.
  { exists false. split; [rewrite <- Er; by destruct e as [? ? ? [] ? ? ?]|]. split; [by intros|done]. }
  cbv zeta. rewrite win_flag_spec by (done || lia). rewrite inside_rel. specialize (Hpre Er).
  cbn [mbind option_bind].
  destruct (am_rx_mod_base e (rx_next_status_trigger (st e)) =? _); cbn [mbind option_bind];
    (eexists; split; [reflexivity|]; split; [|done]; intros Hb;
     apply negb_true_iff, orb_false_iff in Hb as [Hb1 Hb2]; apply negb_false_iff, Z.ltb_lt in Hb2;
     try apply orb_false_iff in Hb1 as [Hb1 _]; apply Z.eqb_neq in Hb1;
     assert (am_rel e (rx_next_status_trigger (st e)) <> 0)
       by (rewrite <- (am_rel_next e); intros E; by apply am_rel_inj in E);
     pose proof (am_rel_range e (rx_next_status_trigger (st e))); lia).
Qed.

Lemma am_update_timer_spec e :
  am_vars (am_mod e) (am_window_size e) (st e) (am_rx_window e) -> am_timer_pre e ->
  exists t b, am_update_timer e = Some (am_set_timer t b e) /\ 0 <= t < am_mod e /\
    am_timer_ok (am_mod e) (st (am_set_timer t b e)) b.
Proof.
  intros Hv Hpre. destruct (am_geometry e) as (Hm & Hws & _). unfold am_update_timer.
  destruct (am_stop_timer_spec e Hv Hpre) as (b & -> & Hb & _). cbn [mbind option_bind].
  pose proof Hv as (? & Ht & _). destruct (negb _) eqn:En; [|by exists (rx_next_status_trigger (st e)), b].
  destruct (am_restart_timer_spec (rx_next (st (am_set_timer (rx_next_status_trigger (st e)) b e)))
    (am_set_timer (rx_next_status_trigger (st e)) b e))
    as (t & b' & -> & Ht' & Hok & _).
  - by apply am_vars_timer.
  - done.
  - done.
  - change (am_rel e (rx_next (st e)) <= am_window_size e). rewrite am_rel_next. lia.
  - by exists t, b'.
Qed.

(** ** A PDU in the reception buffer *)
Lemma am_placed_spec P block max sn i e w :
  am_inv e -> am_all P (am_mod e) w -> 0 <= sn < am_mod e -> am_rel e sn < am_window_size e ->
  win_inv w -> (forall q i, 0 <= q -> q <> sn -> win_lookup w q = Some i -> win_lookup (am_rx_window e) q = Some i) ->
  win_lookup w sn = Some i -> (ai_fully_received i = true -> P sn (am_cleared i)) -> (forall q j, P q j -> am_info_wf j) ->
  exists s w' t b ev, am_placed block max sn (am_set_window w e)
      = Some (am_set_timer t b (am_set_st s (am_set_window w' e)), ev) /\
    am_inv (am_set_timer t b (am_set_st s (am_set_window w' e))) /\ am_all P (am_mod e) w' /\
    ev = (if ai_fully_received i then deliver_events (am_reassemble_sdu block max i) else []) /\
    (ai_fully_received i = true -> am_full w' sn = true \/ am_window_size e <= rel (am_mod e) (rx_next s) sn) /\
    win_cap w' = win_cap w /\
    (forall q, 0 <= q < am_mod e -> am_full w q = true -> am_full w' q = true \/ am_rel e q < am_rel e (rx_next s)) /\
    (forall q, 0 <= q < am_mod e -> am_rel e q < am_rel e (rx_next s) -> exists j, P q j) /\
    (ai_fully_received i = false -> w' = w).
Proof.
  intros (Hv & Htim & Hwf) HP Hsn Hin Hw Hsub Hi Hclear HPwf. unfold am_placed.
  destruct (am_geometry e) as (Hm & Hws & _). pose proof Hv as (Hn & Ht & Hh & Hnh & _ & Hle & Hkeys & Hfn & Hfh).
  set (nh := if am_rel e (rx_next_highest (st e)) <=? am_rel e sn then (sn + 1) mod am_mod e else rx_next_highest (st e)).
  set (e1 := am_set_st (set_rx_next_highest nh (st e)) (am_set_window w e)).
  assert (E1 : (if am_rx_mod_base (am_set_window w e) (rx_next_highest (st (am_set_window w e))) <=? am_rx_mod_base (am_set_window w e) sn
           then am_set_st (set_rx_next_highest (u32 (sn + 1) mod am_mod (am_set_window w e)) (st (am_set_window w e))) (am_set_window w e)
           else am_set_window w e) = e1).
  { rewrite !am_rx_mod_base_rel, am_u32_mod. unfold e1, nh. cbn [st am_set_window].
    change (am_mod (am_set_window w e)) with (am_mod e). destruct (_ <=? _); [done|]. by destruct e as [? ? ? [] ? ? ?]. }
  rewrite E1. clear E1. assert (Hnh1 : 0 <= nh < am_mod e /\ am_rel e sn < am_rel e nh <= am_window_size e /\
    am_rel e (rx_next_highest (st e)) <= am_rel e nh).
  { unfold nh. destruct (Z.leb_spec (am_rel e (rx_next_highest (st e))) (am_rel e sn)).
    - rewrite am_rel_succ by lia. split; [apply Z.mod_pos_bound; lia|lia].
    - lia. }
  destruct Hnh1 as (Hnh1 & Hnh2 & Hnh3).
  assert (Hfull : forall q, 0 <= q -> q <> sn -> am_full (am_rx_window e) q = false -> am_full w q = false).
  { intros q Hq Hne Hf. unfold lookup_flag in *. destruct (win_lookup w q) eqn:E; [|done]. by rewrite (Hsub q _ Hq Hne E) in Hf. }
  assert (Hv1 : am_vars_placed (am_mod e1) (am_window_size e1) sn (st e1) (am_rx_window e1)).
  { split; [done|]. split; [done|]. split; [done|]. split; [done|]. split; [done|].
    split; [change (am_rel e (rx_highest_status (st e)) <= am_rel e nh <= am_window_size e); lia|]. split.
    - intros q Hq [j Hj]. change (am_rel e q < am_rel e nh). destruct (decide (q = sn)) as [->|Hne]; [lia|].
      pose proof (Hkeys q Hq (mk_is_Some _ _ (Hsub q j ltac:(lia) Hne Hj))). lia.
    - split; intros Hne; (apply Hfull; [change (am_mod e1) with (am_mod e) in *; cbn; lia|done|done]). }
  rewrite win_flag_spec by (done || lia). cbn [mbind option_bind].
  assert (Hmid : exists nr hs w' ev, (if am_full (am_rx_window e1) sn then am_all_received block max sn e1 else Some (e1, []))
      = Some (am_moved e1 nr hs w', ev) /\
    am_vars (am_mod e) (am_window_size e) (st (am_moved e1 nr hs w')) w' /\ am_all P (am_mod e) w' /\
    am_rel e nr <= am_rel e nh /\
    ev = (if ai_fully_received i then deliver_events (am_reassemble_sdu block max i) else []) /\
    (ai_fully_received i = true -> am_full w' sn = true \/ am_window_size e <= rel (am_mod e) nr sn) /\
    win_cap w' = win_cap w /\
    (forall q, 0 <= q < am_mod e -> am_full w q = true -> am_full w' q = true \/ am_rel e q < am_rel e nr) /\
    (forall q, 0 <= q < am_mod e -> am_rel e q < am_rel e nr -> exists j, P q j) /\
    (ai_fully_received i = false -> w' = w)).
  { assert (Ef : am_full (am_rx_window e1) sn = ai_fully_received i) by (unfold lookup_flag; change (am_rx_window e1) with w; by rewrite Hi).
    rewrite Ef. destruct (ai_fully_received i) eqn:Hf.
    - destruct (am_all_received_spec P block max sn e1 i Hv1 Hsn Hi HP (Hclear eq_refl)) as (nr & hs & w' & -> & ? & ? & ? & Hpass & _ & Hkeep & Hcap).
      exists nr, hs, w', (deliver_events (am_reassemble_sdu block max i)). repeat (split; [done|]).
      split; [|split; [done|split; [done|split; [|done]]]].
      + intros _. destruct (Hkeep sn Hsn Ef) as [?|Hlt]; [by left|right].
        change (am_rel e sn < am_rel e nr) in Hlt. pose proof (am_rel_range e sn).
        rewrite (rel_rebase_wrap (am_mod e) (rx_next (st e)) nr) by lia.
        change (am_rel e nr <= am_rel e nh) in H3. lia.
      + intros q Hq Hlt. specialize (Hpass q Hq Hlt). unfold lookup_flag in Hpass. change (am_rx_window e1) with w in Hpass.
        destruct (win_lookup w q) as [j|] eqn:Ej; [|done]. exists j. by apply HP.
    - exists (rx_next (st e)), (rx_highest_status (st e)), w, []. split; [by destruct e as [? ? ? [] ? ? ?]|].
      split; [|split; [done|split; [rewrite am_rel_next; pose proof (am_rel_range e nh); lia|split; [done|split; [done|split; [done|split; [by left|split; [|done]]]]]]]].
      2: { intros q Hq Hlt. rewrite am_rel_next in Hlt. pose proof (am_rel_range e q). lia. }
      destruct Hv1 as (? & ? & ? & ? & ? & ? & ? & Hf1 & Hf2). repeat (split; [done|]). cbn in Hf1, Hf2.
      split; [destruct (decide (rx_next (st e) = sn)) as [->|]|destruct (decide (rx_highest_status (st e) = sn)) as [->|]]; eauto. }
  destruct Hmid as (nr & hs & w' & ev & -> & Hv2 & HP2 & Hnr & Hev & Hkeep & Hcap & Hfwd & Hpass & Hsame). cbn [mbind option_bind].
  destruct (am_update_timer_spec (am_moved e1 nr hs w') Hv2) as (t & b & -> & Ht' & Hok).
  { intros Hr. destruct (Htim Hr) as [Ht1 Ht2]. pose proof Hv2 as (Hnr0 & _).
    change (rel (am_mod e) nr (rx_next_status_trigger (st e)) <= rel (am_mod e) nr nh \/
            am_window_size e <= rel (am_mod e) nr (rx_next_status_trigger (st e))).
    destruct (Z.le_gt_cases (am_rel e nr) (am_rel e (rx_next_status_trigger (st e)))) as [Hc|Hc].
    - left. rewrite !(rel_rebase_sub (am_mod e) (rx_next (st e)) nr) by lia. lia.
    - right. rewrite (rel_rebase_wrap (am_mod e) (rx_next (st e)) nr) by lia. lia. }
  cbn [mbind option_bind].
  exists (st (am_moved e1 nr hs w')), w', t, b, ev. split; [done|]. split; [|done].
  split; [|split; [done|]].
  - by apply (am_vars_timer (am_mod e) (am_window_size e) (st (am_moved e1 nr hs w'))).
  - intros q j Hq Hj. eapply HPwf. by apply (HP2 q j).
Qed.
End facts.
