(* ===== verification/RlcRxAmStatus.v ===== *)
(** * The status report of the AM receiver

    [refresh_status_report] reports exactly the bytes that are missing in the receiving window, and the exchange of the
    report with the transmitting side keeps the reports well-formed. *)
From S2P Require Import Prelude ByteCursor RlcConfig RlcAmPdu RlcAmStatusPdu RlcAmStatusFacts RlcAmStatusNacks.
From S2P Require Import RlcSegments SduWindow RlcRxBase RlcRxAm RlcRxAmFacts.

(** A report under construction: what the class invariants of [rlc_am_status_pdu] are. *)
Definition report_ok (sz : rlc_am_sn_size) (s : rlc_am_status_pdu) : Prop :=
  sn_size s = sz /\ status_wf s /\ size_inv s /\ canonical (mod_nr s) (nacks s).

Lemma report_ok_mod sz s : report_ok sz s -> mod_nr s = sn_mod sz.
Proof. intros (<- & (-> & _) & _). done. Qed.

Lemma report_ok_new sz : report_ok sz (status_pdu_new sz).
Proof. split; [done|]. split; [split; [by destruct sz|constructor]|]. done. Qed.

Lemma report_ok_reset sz s : report_ok sz s -> report_ok sz (reset s).
Proof. intros (H1 & (H2 & _) & _). split; [done|]. split; [split; [done|constructor]|]. done. Qed.

Lemma report_ok_ack sz a s : report_ok sz s -> report_ok sz (set_ack_sn a s). Proof. done. Qed.

Lemma report_ok_push sz n s :
  report_ok sz s -> nack_range_ok (sn_mod sz) n ->
  report_ok sz (push_nack n s) /\
  nacks_missing (sn_mod sz) (nacks (push_nack n s)) = nacks_missing (sn_mod sz) (nacks s) ++ nack_missing (sn_mod sz) n.
Proof.
  intros Hs Hn. rewrite <- (report_ok_mod sz s Hs) in *. destruct Hs as (Hsz & Hwf & Hsize & Hcan).
  destruct (push_nack_frame n s) as (Hsz' & Hmod' & _). split; [|by apply push_nack_missing].
  split; [congruence|]. split; [by apply status_wf_push|]. split; [by apply size_inv_push|].
  rewrite Hmod'. by apply canonical_push.
Qed.

(** A NACK for one SDU. *)
Definition one_nack (sn : Z) (so : bool) (a b : Z) : rlc_am_status_nack := Nack sn so a b false 0.

Lemma one_nack_ok m sn so a b : 0 <= sn < m -> nack_range_ok m (one_nack sn so a b).
Proof. intros. split; [done|]. unfold range_len; simpl. lia. Qed.

Lemma one_nack_missing m sn so a b :
  0 <= sn < m -> nack_missing m (one_nack sn so a b) = [(sn, if so then a else 0, if so then b else so_end_of_sdu)].
Proof. intros. unfold nack_missing. change (seqZ 0 (range_len _)) with [0]. cbn [fmap list_fmap nack_sn has_so so_start so_end one_nack].
  rewrite Z.add_0_r, Z.mod_small by done. by destruct so. Qed.

(** ** Missing bytes *)

(** Byte [p] of SDU [sn] is reported as missing. *)
Definition reported (missing : list (Z * Z * Z)) (sn p : Z) : Prop := exists a b, (sn, a, b) ∈ missing /\ a <= p <= b.

Lemma reported_app l1 l2 sn p : reported (l1 ++ l2) sn p <-> reported l1 sn p \/ reported l2 sn p.
Proof. unfold reported. setoid_rewrite elem_of_app. naive_solver. Qed.

Lemma reported_nil sn p : ~ reported [] sn p. Proof. intros (? & ? & ?%elem_of_nil & _). done. Qed.

Lemma reported_one x a b sn p : reported [(x, a, b)] sn p <-> sn = x /\ a <= p <= b.
Proof. unfold reported. setoid_rewrite list_elem_of_singleton. naive_solver. Qed.

Definition has_last (l : list segment) : bool := existsb (fun s => match sg_si s with last_segment => true | _ => false end) l.
Definition segs_end (lo : Z) (l : list segment) : Z := fold_left (fun _ s => sg_end s) l lo.

(** The ranges between the segments of a set. *)
Fixpoint seg_gaps (sn lo : Z) (l : list segment) : list (Z * Z * Z) :=
  match l with
  | [] => []
  | s :: rest => (if sg_so s =? lo then [] else [(sn, lo, sg_so s - 1)]) ++ seg_gaps sn (sg_end s) rest
  end.

Lemma seg_gaps_spec sn l : forall lo p,
  separated lo l ->
  reported (seg_gaps sn lo l) sn p <-> lo <= p /\ ~ covered l p /\ exists q, p < q /\ covered l q.
Proof.
  induction l as [|s l IH]; intros lo p Hsep; cbn [seg_gaps].
  { split; [by intros ?%reported_nil|]. by intros (_ & _ & q & _ & ?%covered_nil). }
  destruct Hsep as (S1 & S2 & S3 & Hsep). assert (Hend : sg_end s = sg_so s + sg_len s) by done.
  rewrite reported_app, (IH (sg_end s) p Hsep).
  assert (Hfirst : reported (if sg_so s =? lo then [] else [(sn, lo, sg_so s - 1)]) sn p <-> lo <= p < sg_so s).
  { destruct (Z.eqb_spec (sg_so s) lo); [split; [by intros ?%reported_nil|lia]|]. rewrite reported_one. lia. }
  rewrite Hfirst. clear Hfirst. setoid_rewrite covered_cons. unfold in_seg. split.
  - intros [Hp|(Hp & Hnc & q & Hq & Hc)].
    + split; [lia|]. split; [|exists (sg_so s); split; [lia|left; lia]].
      intros [?|Hc]; [lia|]. apply (covered_separated (sg_end s)) in Hc; [lia|done].
    + split; [lia|]. split; [|eauto]. intros [?|?]; [lia|done].
  - intros (Hp & Hnc & q & Hq & Hc). destruct (decide (p < sg_so s)); [left; lia|right].
    assert (sg_end s <= p) by (destruct (decide (sg_end s <= p)); [done|destruct Hnc; left; lia]).
    split; [done|]. split; [tauto|]. exists q. split; [done|]. destruct Hc; [lia|done].
Qed.

Lemma seg_gaps_sn sn lo l x p : reported (seg_gaps sn lo l) x p -> x = sn.
Proof.
  revert lo. induction l as [|s l IH]; intros lo; cbn [seg_gaps]; [by intros ?%reported_nil|].
  rewrite reported_app. intros [Hr|Hr]; [|by eapply IH]. destruct (_ =? _); [by apply reported_nil in Hr|].
  by apply reported_one in Hr as [-> _].
Qed.

Lemma segs_end_spec l : forall lo, separated lo l -> 0 <= lo ->
  lo <= segs_end lo l /\ (forall p, covered l p -> p < segs_end lo l) /\ (l <> [] -> covered l (segs_end lo l - 1)).
Proof.
  induction l as [|s l IH]; intros lo Hsep Hlo; cbn [segs_end fold_left].
  { split; [lia|]. split; [by intros p ?%covered_nil|done]. }
  destruct Hsep as (S1 & S2 & S3 & Hsep). assert (Hend : sg_end s = sg_so s + sg_len s) by done.
  destruct (IH (sg_end s) Hsep ltac:(lia)) as (I1 & I2 & I3). fold (segs_end (sg_end s) l). split; [lia|]. split.
  - intros p [[? ?]|Hc]%covered_cons; [lia|by apply I2].
  - intros _. apply covered_cons. destruct l as [|s' l]; [left; unfold in_seg; cbn; lia|]. right. by apply I3.
Qed.

(** What is missing of one SDU: bytes that were not received, below one that was or, while the last segment is not known,
    up to the largest offset. *)
Definition segments_missing (l : list segment) (p : Z) : Prop :=
  ~ covered l p /\ (has_last l = true -> exists q, p < q /\ covered l q).

Section report.
Context {W : Type} `{SduWindowLaws rlc_rx_am_sdu_info W rlc_rx_am_sdu_info_init}.
Notation entity := (rlc_rx_am_entity W).
Implicit Types (e : entity) (w : W).
Notation am_rel e := (rel (am_mod e) (rx_next (st e))).

Definition missing w (sn p : Z) : Prop :=
  match win_lookup w sn with
  | None => True
  | Some i => ai_fully_received i = false /\ segments_missing (am_segments i) p
  end.

Lemma nack_segments_spec sz sn l : forall lo hl s,
  0 <= sn < sn_mod sz -> separated lo l -> ~ covered l 65535 -> 0 <= lo <= 65535 -> report_ok sz s ->
  exists s', nack_segments sn l lo hl s = Some (s', segs_end lo l, hl || has_last l) /\ report_ok sz s' /\
    nacks_missing (sn_mod sz) (nacks s') = nacks_missing (sn_mod sz) (nacks s) ++ seg_gaps sn lo l.
Proof.
  induction l as [|g l IH]; intros lo hl s Hsn Hsep Hnc Hlo Hs; cbn [nack_segments seg_gaps segs_end fold_left has_last existsb].
  { exists s. by rewrite orb_false_r, app_nil_r. }
  destruct Hsep as (S1 & S2 & S3 & Hsep). assert (Hend : sg_end g = sg_so g + sg_len g) by done.
  assert (He : sg_end g <= 65535).
  { destruct (decide (sg_end g <= 65535)); [done|]. destruct Hnc. apply covered_cons. left. unfold in_seg. lia. }
  assert (Hstep : exists s1, (if negb (sg_so g =? lo) then push_checked_nack (so_nack sn (u16 lo) (u16 (sg_so g - 1))) s
           else Some s) = Some s1 /\ report_ok sz s1 /\
     nacks_missing (sn_mod sz) (nacks s1)
     = nacks_missing (sn_mod sz) (nacks s) ++ (if sg_so g =? lo then [] else [(sn, lo, sg_so g - 1)])).
  { destruct (Z.eqb_spec (sg_so g) lo); cbn [negb]; [exists s; by rewrite app_nil_r|]. unfold push_checked_nack. cbv zeta. cbn [so_end so_start so_nack].
    rewrite !u16_eq, !Z.mod_small by lia. rewrite (proj2 (Z.ltb_ge _ _)) by lia.
    destruct (report_ok_push sz (one_nack sn true lo (sg_so g - 1)) s Hs (one_nack_ok _ _ _ _ _ Hsn)) as [Hs' Hm].
    rewrite one_nack_missing in Hm by done. by exists (push_nack (one_nack sn true lo (sg_so g - 1)) s). }
  destruct Hstep as (s1 & -> & Hs1 & Hm1). cbn [mbind option_bind].
  rewrite u32_eq, Z.mod_small by lia. rewrite <- Hend. fold (segs_end (sg_end g) l). fold (has_last l).
  assert (Hhl : (match sg_si g with last_segment => true | _ => hl end)
                = hl || match sg_si g with last_segment => true | _ => false end) by (by destruct (sg_si g), hl).
  rewrite Hhl.
  destruct (IH (sg_end g) (hl || match sg_si g with last_segment => true | _ => false end) s1) as (s2 & -> & Hs2 & Hm2);
    [done|done| |lia|done|].
  { intros Hc. apply Hnc, covered_cons. by right. }
  exists s2. rewrite Hm2, Hm1, <- app_assoc, orb_assoc. done.
Qed.

(** One SN of the NACK loop. *)
Lemma nack_sdu_spec sz w i s :
  win_inv w -> 0 <= i < sn_mod sz -> report_ok sz s ->
  (forall j, win_lookup w i = Some j -> am_info_wf j) ->
  exists s', nack_sdu w i s = Some s' /\ report_ok sz s' /\
    forall sn p, 0 <= p <= 65535 ->
      reported (nacks_missing (sn_mod sz) (nacks s')) sn p <->
      reported (nacks_missing (sn_mod sz) (nacks s)) sn p \/ (sn = i /\ missing w i p).
Proof.
  intros Hw Hi Hs Hwf. unfold nack_sdu, missing. rewrite win_flag_spec by (done || lia). cbn [mbind option_bind].
  unfold lookup_flag. rewrite win_has by (done || lia). destruct (win_lookup w i) as [j|] eqn:E; cycle 1.
  { rewrite bool_decide_false by (by intros []). cbn [negb].
    destruct (report_ok_push sz (one_nack i false 0 so_end_of_sdu) s Hs (one_nack_ok _ _ _ _ _ Hi)) as [Hs' Hm].
    rewrite one_nack_missing in Hm by done. eexists. split; [reflexivity|]. split; [exact Hs'|]. intros sn p Hp.
    change (push_nack _ s) with (push_nack (one_nack i false 0 so_end_of_sdu) s). rewrite Hm, reported_app, reported_one.
    unfold so_end_of_sdu. split; [intros [?|[? ?]]; auto|intros [?|[? _]]; [by left|right; lia]]. }
  rewrite bool_decide_true by eauto. cbn [negb]. destruct (ai_fully_received j) eqn:Hf.
  { exists s. split; [done|]. split; [done|]. intros sn p _. split; [by left|]. intros [?|(_ & ? & _)]; done. }
  rewrite win_get_lookup, E by (done || lia). cbn [mbind option_bind].
  destruct (Hwf j eq_refl Hf) as (l & Hl & _ & Hsep & Hnc). unfold am_segments. rewrite Hl.
  destruct (nack_segments_spec sz i l 0 false s Hi Hsep Hnc ltac:(lia) Hs) as (s1 & -> & Hs1 & Hm1). cbn [mbind option_bind].
  destruct (segs_end_spec l 0 Hsep ltac:(lia)) as (Hse1 & Hse2 & Hse3).
  assert (Hse : segs_end 0 l <= 65535).
  { destruct l as [|g l]; [cbn; lia|]. specialize (Hse3 ltac:(done)). destruct (decide (segs_end 0 (g :: l) <= 65535)); [done|].
    destruct Hnc. pose proof (covered_separated _ _ _ Hsep Hse3).
    assert (Hub : forall l lo p, separated lo l -> covered l p -> p <= 65535).
    { clear. induction l as [|s l IH]; intros lo p Hsep Hc; [by apply covered_nil in Hc|].
      destruct Hsep as (? & ? & ? & Hsep). apply covered_cons in Hc as [[? ?]|Hc]; [lia|by eapply IH]. }
    pose proof (Hub _ _ _ Hsep Hse3). by replace 65535 with (segs_end 0 (g :: l) - 1) by lia. }
  assert (Hgaps : forall sn p, reported (seg_gaps i 0 l) sn p <-> sn = i /\ 0 <= p /\ ~ covered l p /\ exists q, p < q /\ covered l q).
  { intros sn p. split; [intros Hr; pose proof (seg_gaps_sn _ _ _ _ _ Hr) as ->|intros [-> Hr]].
    - split; [done|]. by apply (seg_gaps_spec i l 0 p Hsep).
    - by apply (seg_gaps_spec i l 0 p Hsep). }
  cbn [orb]. destruct (has_last l) eqn:Hlast; cbn [negb].
  - exists s1. split; [done|]. split; [done|]. intros sn p Hp. rewrite Hm1, reported_app, Hgaps. unfold segments_missing.
    rewrite Hlast. split; (intros [?|?]; [by left|right]); naive_solver.
  - unfold push_checked_nack. cbn [so_end so_start so_nack]. rewrite u16_eq, Z.mod_small by lia. unfold so_end_of_sdu at 1. rewrite (proj2 (Z.ltb_ge _ _)) by lia.
    destruct (report_ok_push sz (one_nack i true (segs_end 0 l) so_end_of_sdu) s1 Hs1 (one_nack_ok _ _ _ _ _ Hi)) as [Hs2 Hm2].
    rewrite one_nack_missing in Hm2 by done. eexists. split; [reflexivity|]. split; [exact Hs2|]. intros sn p Hp.
    change (push_nack _ s1) with (push_nack (one_nack i true (segs_end 0 l) so_end_of_sdu) s1).
    rewrite Hm2, Hm1, !reported_app, Hgaps, reported_one. unfold segments_missing, so_end_of_sdu. rewrite Hlast.
    assert (Hsplit : ~ covered l p <-> (~ covered l p /\ exists q, p < q /\ covered l q) \/ segs_end 0 l <= p).
    { split.
      - intros Hc. destruct (decide (segs_end 0 l <= p)); [by right|left]. split; [done|].
        destruct l as [|g l]; [cbn in *; lia|]. specialize (Hse3 ltac:(done)). exists (segs_end 0 (g :: l) - 1). split; [|done].
        destruct (decide (p = segs_end 0 (g :: l) - 1)) as [->|]; [done|lia].
      - intros [[? _]|Hge]; [done|]. intros Hc. apply Hse2 in Hc. lia. }
    rewrite Hsplit. intuition (try lia; try done).
Qed.

(** The NACK loop from SN [i] to before [stop]. *)
Lemma nack_loop_spec sz md base stop w : 0 < md -> md = sn_mod sz -> rel md base stop < md -> win_inv w ->
  (forall q j, 0 <= q < md -> win_lookup w q = Some j -> am_info_wf j) ->
  forall fuel i s, 0 <= i < md -> report_ok sz s -> rel md base stop - rel md base i <= Z.of_nat fuel ->
  exists s', nack_loop fuel (rel md base) stop md i w s = Some s' /\ report_ok sz s' /\
    forall sn p, 0 <= p <= 65535 ->
      reported (nacks_missing md (nacks s')) sn p <->
      reported (nacks_missing md (nacks s)) sn p \/
      (0 <= sn < md /\ rel md base i <= rel md base sn < rel md base stop /\ missing w sn p).
Proof.
  intros Hmd Hsz Hstop Hw Hwf. induction fuel as [|fuel IH]; intros i s Hi Hs Hfuel; cbn [nack_loop];
    (destruct (Z.ltb_spec (rel md base i) (rel md base stop)) as [Hlt|Hge];
     [|exists s; split; [done|]; split; [done|]; intros sn p _; split; [by left|]; intros [?|(_ & ? & _)]; [done|lia]]); [lia|].
  destruct (nack_sdu_spec sz w i s Hw ltac:(by rewrite <- Hsz) Hs (fun j => Hwf i j Hi)) as (s1 & -> & Hs1 & Hm1).
  cbn [mbind option_bind]. pose proof (rel_range md base i Hmd). pose proof (rel_succ md base i Hmd ltac:(lia)) as Hsucc.
  destruct (IH ((i + 1) mod md) s1) as (s2 & -> & Hs2 & Hm2); [by apply Z.mod_pos_bound|done|lia|].
  exists s2. split; [done|]. split; [done|]. intros sn p Hp. rewrite (Hm2 sn p Hp), Hsz, (Hm1 sn p Hp), <- Hsz, Hsucc.
  split.
  - intros [[?|[-> ?]]|(? & ? & ?)]; [by left|right; split_and!; (done || lia)|right; split_and!; (done || lia)].
  - intros [?|(? & ? & ?)]; [by left; left|]. destruct (decide (sn = i)) as [->|Hne]; [by left; right|].
    right. assert (rel md base sn <> rel md base i) by (intros E; by apply rel_inj in E). split_and!; (done || lia).
Qed.

(** The reports that the two sides own. *)
Definition am_status_ok e : Prop :=
  report_ok (ar_sn_size e) (status_owned_by_writer (status e)) /\ report_ok (ar_sn_size e) (status_for_exchange (status e)) /\
  report_ok (ar_sn_size e) (status_owned_by_reader (status e)) /\
  1 <= max_nof_sn_per_status_report e <= am_window_size e.

Lemma am_mod_sn_mod e : am_mod e = sn_mod (ar_sn_size e).
Proof. unfold am_mod. by destruct (ar_sn_size e). Qed.

Lemma status_stop_spec e :
  am_inv e -> am_status_ok e ->
  0 <= status_stop_sn e < am_mod e /\
  am_rel e (status_stop_sn e) = Z.min (am_rel e (rx_highest_status (st e))) (max_nof_sn_per_status_report e).
Proof.
  intros ((Hn & Ht & Hh & Hnh & Hw & Hle & _) & _ & _) (_ & _ & _ & Hmax). destruct (am_geometry e) as (Hm & Hws & _).
  unfold status_stop_sn. cbv zeta. rewrite !am_rx_mod_base_rel, am_u32_mod.
  assert (E : am_rel e ((rx_next (st e) + max_nof_sn_per_status_report e) mod am_mod e) = max_nof_sn_per_status_report e).
  { rewrite rel_mod by lia. apply am_rel_plus. lia. }
  rewrite E. destruct (Z.ltb_spec (max_nof_sn_per_status_report e) (am_rel e (rx_highest_status (st e)))).
  - rewrite E. split; [apply Z.mod_pos_bound; lia|lia].
  - split; [done|lia].
Qed.

Lemma refresh_spec e :
  am_inv e -> am_status_ok e ->
  exists s, refresh_status_report e = Some (am_set_status (store_status_report (set_writer s (status e))) e) /\
    report_ok (ar_sn_size e) s /\ ack_sn s = status_stop_sn e /\
    forall sn p, 0 <= p <= 65535 ->
      reported (nacks_missing (am_mod e) (nacks s)) sn p <->
      0 <= sn < am_mod e /\ am_rel e sn < am_rel e (status_stop_sn e) /\ missing (am_rx_window e) sn p.
Proof.
  intros Hinv Hst. pose proof (status_stop_spec e Hinv Hst) as (Hs1 & Hs2). destruct (am_geometry e) as (Hm & Hws & _).
  pose proof Hinv as ((Hn & _ & _ & _ & Hw & Hle & _) & _ & Hwf). pose proof Hst as (Hwr & _ & _ & Hmax).
  unfold refresh_status_report. cbv zeta.
  assert (Hext : forall mb mb' stop md w, (forall x, mb x = mb' x) -> forall fuel i s,
     nack_loop fuel mb stop md i w s = nack_loop (W:=W) fuel mb' stop md i w s).
  { intros mb mb' stop md w E. induction fuel as [|fuel IH]; intros i s; cbn [nack_loop]; rewrite !E; [done|].
    destruct (_ <? _); [|done]. destruct (nack_sdu w i s); [|done]. apply IH. }
  rewrite (Hext _ (am_rel e)) by (intros; apply am_rx_mod_base_rel).
  destruct (nack_loop_spec (ar_sn_size e) (am_mod e) (rx_next (st e)) (status_stop_sn e) (am_rx_window e)
    ltac:(lia) (am_mod_sn_mod e) ltac:(apply am_rel_range) Hw (fun q j Hq Hj => Hwf q j Hq Hj)
    (am_fuel e) (rx_next (st e)) (reset (status_owned_by_writer (status e))) Hn (report_ok_reset _ _ Hwr))
    as (s & -> & Hs & Hm').
  { pose proof (am_rel_range e (status_stop_sn e)). rewrite am_rel_next. unfold am_fuel. lia. }
  cbn [mbind option_bind]. exists (set_ack_sn (status_stop_sn e) s). split; [done|]. split; [by apply report_ok_ack|].
  split; [done|]. intros sn p Hp. change (nacks (set_ack_sn (status_stop_sn e) s)) with (nacks s).
  rewrite (Hm' sn p Hp), am_rel_next. cbn [nacks reset]. pose proof (am_rel_range e sn). split.
  - intros [?%reported_nil|(? & ? & ?)]; [done|]. split_and!; (done || lia).
  - intros (? & ? & ?). right. split_and!; (done || lia).
Qed.

Lemma refresh_inv e :
  am_inv e -> am_status_ok e ->
  exists x, refresh_status_report e = Some (am_set_status x e) /\ am_inv (am_set_status x e) /\ am_status_ok (am_set_status x e) /\
    (status_prohibit_timer_is_running x, prohibit_deferred x, status_prohibit_timer x)
    = (status_prohibit_timer_is_running (status e), prohibit_deferred (status e), status_prohibit_timer (status e)).
Proof.
  intros Hinv Hst. destruct (refresh_spec e Hinv Hst) as (s & -> & Hs & _). eexists. split; [reflexivity|]. split; [done|].
  split; [|done]. destruct Hst as (? & ? & ? & ?). by repeat (split; [done|]).
Qed.
End report.
