(* ===== verification/RlcRxAmSteps.v ===== *)
(** * The handlers of the AM receiver

    What [am_handle_pdu] and the timer handlers do to the state, for every window that satisfies the interface. *)
From S2P Require Import Prelude ByteCursor RlcConfig ByteBufferChain RlcAmPdu RlcAmStatusPdu RlcAmStatusFacts.
From S2P Require Import RlcAmStatusNacks RlcSegments SduWindow RlcRxBase RlcRxAm RlcRxAmFacts.
From S2P Require Import RlcRxAmStatus.

Lemma store_segment_false l new : (store_segment l new).1 = false -> (store_segment l new).2 = l.
Proof. unfold store_segment. by destruct (store_loop [] l new) as [[? ?]|]. Qed.

Definition am_payload (buf : list Z) (h : rlc_am_pdu_header) : list Z := advance (get_packed_size h) buf.
Definition am_segment (buf : list Z) (h : rlc_am_pdu_header) : segment := Seg (h_si h) (h_so h) (am_payload buf h).

Section steps.
Context {W : Type} `{SduWindowLaws rlc_rx_am_sdu_info W rlc_rx_am_sdu_info_init}.
Notation entity := (rlc_rx_am_entity W).
Implicit Types (e : entity) (w : W).
Notation am_rel e := (rel (am_mod e) (rx_next (st e))).

(** A window that holds part of what another one holds. *)
Lemma am_vars_subset md ws s w w' :
  am_vars md ws s w -> win_inv w' -> 0 <= rx_next s < md -> 0 <= rx_highest_status s < md ->
  (forall q i, 0 <= q < md -> win_lookup w' q = Some i -> win_lookup w q = Some i) -> am_vars md ws s w'.
Proof.
  intros (? & ? & ? & ? & ? & ? & Hkeys & Hf1 & Hf2) Hw' Hn Hh Hsub. unfold am_vars. do 6 (split; [done|]). split; [|split].
  - intros q Hq [i Hi]. apply Hkeys; [done|]. eauto.
  - unfold lookup_flag in *. destruct (win_lookup w' _) eqn:E; [|done]. by rewrite (Hsub _ _ Hn E) in Hf1.
  - unfold lookup_flag in *. destruct (win_lookup w' _) eqn:E; [|done]. by rewrite (Hsub _ _ Hh E) in Hf2.
Qed.

(** What the data path keeps: everything but the state variables, the window and the timer. *)
Definition same_frame e e' : Prop :=
  ar_sn_size e' = ar_sn_size e /\ t_status_prohibit e' = t_status_prohibit e /\
  max_nof_sn_per_status_report e' = max_nof_sn_per_status_report e /\ status e' = status e.

Lemma same_frame_mod e e' : same_frame e e' -> am_mod e' = am_mod e /\ am_window_size e' = am_window_size e.
Proof. intros (E & _). unfold am_mod, am_window_size. by rewrite E. Qed.

(** The closure conditions on a property of the SDUs in the window, for one PDU. *)
Definition am_closed (P : Z -> rlc_rx_am_sdu_info -> Prop) (buf : list Z) (sz : rlc_am_sn_size) : Prop :=
  (forall q i, P q i -> am_info_wf i) /\ (forall q i, P q i -> ai_fully_received i = true -> P q (am_cleared i)) /\
  (forall h, rlc_am_read_data_pdu_header buf sz rlc_am_pdu_header_init = Some (true, h) -> get_packed_size h < rd_length buf ->
     if bool_decide (h_si h = full_sdu) then P (h_sn h) (AmInfo true false (FullSdu (am_payload buf h)))
     else forall i0, (i0 = rlc_rx_am_sdu_info_init \/ P (h_sn h) i0 /\ ai_fully_received i0 = false) ->
          P (h_sn h) (am_stored i0 (am_segment buf h)).2).

(** The SDU of the SN of an accepted PDU after storing the payload, and whether that brings anything new. *)
Definition am_placed_sdu w (buf : list Z) (h : rlc_am_pdu_header) : bool * rlc_rx_am_sdu_info :=
  if bool_decide (h_si h = full_sdu) then (true, AmInfo true false (FullSdu (am_payload buf h)))
  else am_stored (default rlc_rx_am_sdu_info_init (win_lookup w (h_sn h))) (am_segment buf h).

(** The PDU is accepted: it is a data PDU, its header is well-formed, it has a payload, its SN is inside the window and its SDU is not fully
    received. *)
Definition am_accepted e (buf : list Z) (h : rlc_am_pdu_header) : Prop :=
  is_control_pdu buf = Some false /\
  rlc_am_read_data_pdu_header buf (ar_sn_size e) rlc_am_pdu_header_init = Some (true, h) /\
  get_packed_size h < rd_length buf /\ 0 <= h_sn h < am_mod e /\ inside_rx_window e (h_sn h) = true /\
  am_full (am_rx_window e) (h_sn h) = false.

(** What a data PDU delivers: the SDU that it completes, which then counts as received; nothing otherwise, and then the window
    keeps the PDU if there is room. *)
Definition am_delivers (block : bool) (max : nat) (buf : list Z) e e' (ev : list rx_event) : Prop :=
  (delivered ev = [] /\
   forall h, am_accepted e buf h -> am_room (h_sn h) (am_rx_window e) ->
     let '(new, i) := am_placed_sdu (am_rx_window e) buf h in
     win_lookup (am_rx_window e') (h_sn h) = Some i /\ (new = true -> ai_fully_received i = false)) \/
  exists h i, am_accepted e buf h /\ am_placed_sdu (am_rx_window e) buf h = (true, i) /\ ai_fully_received i = true /\
    delivered ev = delivered (deliver_events (am_reassemble_sdu block max i)) /\
    (am_full (am_rx_window e') (h_sn h) = true \/ inside_rx_window e' (h_sn h) = false).

(** How the window moves on: with a window of the right capacity, what is fully received stays so until RX_Next has passed
    it; and RX_Next passes only SNs that were received. *)
Definition am_forward (P : Z -> rlc_rx_am_sdu_info -> Prop) e e' : Prop :=
  win_cap (am_rx_window e') = win_cap (am_rx_window e) /\
  (win_cap (am_rx_window e) = am_window_size e ->
   forall q, 0 <= q < am_mod e -> am_full (am_rx_window e) q = true ->
     am_full (am_rx_window e') q = true \/ am_rel e q < am_rel e (rx_next (st e'))) /\
  (forall q, 0 <= q < am_mod e -> am_rel e q < am_rel e (rx_next (st e')) -> exists i, P q i).

Lemma am_forward_same P e e' :
  am_rx_window e' = am_rx_window e -> rx_next (st e') = rx_next (st e) -> am_forward P e e'.
Proof.
  intros Ew En. unfold am_forward. rewrite Ew, En. split; [done|]. split; [by left|].
  intros q Hq Hlt. rewrite am_rel_next in Hlt. pose proof (am_rel_range e q). lia.
Qed.

(** SDUs inside of the window do not share a slot. *)
Lemma am_slots_differ e q sn :
  0 <= q < am_mod e -> 0 <= sn < am_mod e -> q <> sn -> am_rel e q < am_window_size e -> am_rel e sn < am_window_size e ->
  q mod am_window_size e <> sn mod am_window_size e.
Proof.
  intros Hq Hsn Hne Hq' Hsn' E. destruct (am_geometry e) as (Hm & Hws & _). apply Hne, (am_rel_inj e); [done|done|].
  assert (Hrel : forall x, am_rel e x < am_window_size e -> am_rel e x = (x - rx_next (st e)) mod am_window_size e).
  { intros x Hx. pose proof (am_rel_range e x). rewrite <- (Z.mod_small (am_rel e x) (am_window_size e)) by lia.
    symmetry. apply Znumtheory.Zmod_div_mod; [lia|lia|]. exists 2. lia. }
  rewrite !Hrel by done. by rewrite <- Zminus_mod_idemp_l, E, Zminus_mod_idemp_l.
Qed.

Lemma am_stored_stay e sn w :
  am_inv e -> 0 <= sn < am_mod e -> am_rel e sn < am_window_size e -> am_full (am_rx_window e) sn = false ->
  others_stay sn (am_rx_window e) w -> win_cap (am_rx_window e) = am_window_size e ->
  forall q, 0 <= q < am_mod e -> am_full (am_rx_window e) q = true -> am_full w q = true.
Proof.
  intros ((_ & _ & _ & _ & _ & Hle & Hkeys & _) & _) Hsn Hin Hnf Ho Hcap q Hq Hf. unfold lookup_flag in *.
  destruct (win_lookup (am_rx_window e) q) as [i|] eqn:E; [|done]. destruct (decide (q = sn)) as [->|Hne]; [by rewrite E, Hf in Hnf|].
  rewrite (Ho q i (proj1 Hq) Hne); [done| |done]. rewrite Hcap. apply am_slots_differ; [done|done|done| |done].
  pose proof (Hkeys q Hq (mk_is_Some _ _ E)). lia.
Qed.

(** Storing the PDU in the window. *)
Lemma am_store_spec P buf h e :
  am_inv e -> am_all P (am_mod e) (am_rx_window e) -> am_closed P buf (ar_sn_size e) ->
  rlc_am_read_data_pdu_header buf (ar_sn_size e) rlc_am_pdu_header_init = Some (true, h) ->
  get_packed_size h < rd_length buf -> 0 <= h_sn h < am_mod e -> am_full (am_rx_window e) (h_sn h) = false ->
  exists stored w ev,
    (if bool_decide (h_si h = full_sdu) then am_handle_full_data_sdu h (am_payload buf h) e
     else am_handle_segment_data_sdu h (am_payload buf h) e) = Some (stored, am_set_window w e, ev) /\
    delivered ev = [] /\ win_inv w /\
    (forall q i, 0 <= q -> q <> h_sn h -> win_lookup w q = Some i -> win_lookup (am_rx_window e) q = Some i) /\
    (if stored then exists i, win_lookup w (h_sn h) = Some i /\ P (h_sn h) i /\ am_placed_sdu (am_rx_window e) buf h = (true, i)
     else (forall i, win_lookup w (h_sn h) = Some i -> win_lookup (am_rx_window e) (h_sn h) = Some i) /\
          (am_room (h_sn h) (am_rx_window e) ->
             exists i, am_placed_sdu (am_rx_window e) buf h = (false, i) /\ win_lookup w (h_sn h) = Some i)) /\
    win_cap w = win_cap (am_rx_window e) /\ others_stay (h_sn h) (am_rx_window e) w.
Proof.
  intros (Hv & _ & _) HP (Hwf & _ & Hnew) Eread Hlen Hsn Hnf. specialize (Hnew h Eread Hlen).
  pose proof Hv as (_ & _ & _ & _ & Hw & _). unfold am_placed_sdu. case_bool_decide as Hsi.
  - destruct (am_handle_full_spec h (am_payload buf h) e Hw ltac:(lia) Hsi) as (stored & w & ev & -> & Hw' & Hd & Hsub & Hcase & Hcap & Hstay).
    exists stored, w, ev. do 4 (split; [done|]). split; [|done]. destruct Hcase as [(-> & -> & Hn)|(-> & Hl)].
    + split; [done|]. by intros ?%Hn.
    + eexists. split; [exact Hl|]. done.
  - destruct (am_handle_segment_spec h (am_payload buf h) e Hw ltac:(lia) Hsi) as (stored & w & ev & -> & Hw' & Hd & Hsub & Hcase & Hcap & Hstay).
    exists stored, w, ev. do 4 (split; [done|]). split; [|done]. destruct Hcase as [(-> & -> & Hn)|Hcase]; [split; [done|by intros ?%Hn]|].
    fold (am_segment buf h) in Hcase.
    set (i0 := from_option id rlc_rx_am_sdu_info_init (win_lookup (am_rx_window e) (h_sn h))) in *.
    assert (Hi0 : i0 = rlc_rx_am_sdu_info_init \/ P (h_sn h) i0 /\ ai_fully_received i0 = false).
    { unfold i0. unfold lookup_flag in Hnf. destruct (win_lookup (am_rx_window e) (h_sn h)) eqn:E; [right|by left].
      split; [by apply HP|done]. }
    specialize (Hnew i0 Hi0). destruct (am_stored i0 (am_segment buf h)) as [ok i] eqn:Est. injection Hcase as -> Hl.
    destruct ok; [by exists i|].
    split; [|by intros _; exists i]. intros j Hj. rewrite Hl in Hj. injection Hj as <-.
    (* nothing was stored: the SDU is as before *)
    unfold am_stored in Est. pose proof (store_segment_false (am_segments i0) (am_segment buf h)) as Hsf.
    destruct (store_segment (am_segments i0) (am_segment buf h)) as [ok l] eqn:El.
    destruct (segment_inventory l) as [gap full] eqn:Einv. injection Est as -> <-. specialize (Hsf eq_refl). cbn in Hsf. subst l.
    destruct Hi0 as [Hi0|[HPi Hf]]; [by rewrite Hi0 in El|].
    destruct (Hwf _ _ HPi Hf) as (l & Hd0 & Hinv & _). unfold am_segments in *. rewrite Hd0 in *.
    rewrite Hinv in Einv. injection Einv as <- <-. unfold i0 in *.
    destruct (win_lookup (am_rx_window e) (h_sn h)) as [[full gap data]|]; cbn in *; [by rewrite Hd0, Hf|].
    done.
Qed.

Lemma am_data_pdu_body_spec P block max buf e :
  am_inv e -> bytes_ok buf -> is_control_pdu buf = Some false ->
  am_all P (am_mod e) (am_rx_window e) -> am_closed P buf (ar_sn_size e) ->
  exists stored requested e' ev, am_data_pdu_body block max buf e = Some (stored, requested, e', ev) /\
    am_inv e' /\ am_all P (am_mod e) (am_rx_window e') /\ same_frame e e' /\ am_delivers block max buf e e' ev /\ am_forward P e e'.
Proof.
  intros Hinv Hb Hdc HP Hclosed. pose proof Hclosed as (Hwf & Hclear & _). unfold am_data_pdu_body.
  destruct (am_read_cases buf (ar_sn_size e) rlc_am_pdu_header_init) as (ok & h & Eread & Hok). rewrite Eread.
  cbn [mbind option_bind].
  assert (Hsame : forall (st0 req : bool) ev, delivered ev = [] -> (forall h, ~ am_accepted e buf h) -> exists stored requested e' ev', Some (st0, req, e, ev) = Some (stored, requested, e', ev') /\
    am_inv e' /\ am_all P (am_mod e) (am_rx_window e') /\ same_frame e e' /\ am_delivers block max buf e e' ev' /\ am_forward P e e').
  { intros s req ev Hev Hno. exists s, req, e, ev. do 3 (split; [done|]). split; [done|]. split; [|by apply am_forward_same].
    left. split; [done|]. intros h' Ha. by destruct (Hno h'). }
  assert (Hacc : forall h', am_accepted e buf h' -> ok = true /\ h' = h /\ get_packed_size h < rd_length buf /\
    inside_rx_window e (h_sn h) = true /\ am_full (am_rx_window e) (h_sn h) = false).
  { intros h' (_ & Er & ? & ? & ? & ?). rewrite Eread in Er. by injection Er as -> ->. }
  destruct ok; cbn [negb]; [|by apply Hsame; [|intros h' (? & _)%Hacc]]. destruct (Hok Hb eq_refl) as ((_ & _ & Hsn & _) & _).
  assert (Hsn' : 0 <= h_sn h < am_mod e) by (unfold am_mod; by rewrite cardinality_pow by (by destruct (ar_sn_size e))).
  destruct (Z.leb_spec (rd_length buf) (get_packed_size h)) as [|Hlen]; [by apply Hsame; [|intros h' (_ & _ & ? & _)%Hacc; lia]|].
  destruct (inside_rx_window e (h_sn h)) eqn:Hin; cbn [negb]; [|by apply Hsame; [|intros h' (_ & _ & _ & ? & _)%Hacc]].
  pose proof Hinv as (Hv & Htim & Hwfall). pose proof Hv as (Hn & _ & Hh & _ & Hw & _).
  rewrite win_flag_spec by (done || lia). cbn [mbind option_bind].
  destruct (am_full (am_rx_window e) (h_sn h)) eqn:Hf; [by apply Hsame; [|intros h' (_ & _ & _ & _ & ?)%Hacc]|].
  fold (am_payload buf h).
  destruct (am_store_spec P buf h e Hinv HP Hclosed Eread Hlen Hsn' Hf) as (stored & w & ev1 & -> & Hd1 & Hw1 & Hsub & Hst & Hcap & Hstay).
  pose proof Hin as Hin'. rewrite inside_rel in Hin'. apply Z.ltb_lt in Hin'.
  pose proof (am_stored_stay e (h_sn h) w Hinv Hsn' Hin' Hf Hstay) as Hkept.
  cbn [mbind option_bind]. destruct stored; cbn [negb].
  - destruct Hst as (i & Hl & HPi & Hpl).
    assert (HP1 : am_all P (am_mod e) w).
    { intros q j Hq Hj. destruct (decide (q = h_sn h)) as [->|Hne]; [congruence|]. apply HP; [done|]. apply Hsub; (done || lia). }
    destruct (am_placed_spec P block max (h_sn h) i e w Hinv HP1 Hsn' Hin' Hw1 Hsub Hl (Hclear _ _ HPi) Hwf)
      as (s & w' & t & b & ev2 & -> & Hinv2 & HP2 & -> & Hkeep & Hcap' & Hfwd & Hpass & Hnf). cbn [mbind option_bind].
    eexists _, _, _, _. split; [reflexivity|]. split; [done|]. split; [done|]. split; [done|].
    split; [|split; [by rewrite <- Hcap|split; [intros Hc q Hq Hfq; apply (Hfwd q Hq); by apply Hkept|done]]].
    unfold am_delivers. rewrite delivered_app, Hd1. cbn [app]. destruct (ai_fully_received i) eqn:Hfi.
    2: { left. split; [done|]. intros h' (_ & -> & _)%Hacc _. rewrite Hpl. cbn [am_rx_window am_set_timer am_set_st am_set_window]. by rewrite (Hnf eq_refl). }
    right. exists h, i. do 4 (split; [done|]). destruct (Hkeep eq_refl) as [?|Hge]; [by left|right].
    rewrite inside_rel. apply Z.ltb_ge. exact Hge.
  - eexists _, _, _, _. split; [reflexivity|].
    assert (Hsub' : forall q i, 0 <= q < am_mod e -> win_lookup w q = Some i -> win_lookup (am_rx_window e) q = Some i).
    { intros q i Hq Hi. destruct (decide (q = h_sn h)) as [->|Hne]; [by apply Hst|]. apply Hsub; (done || lia). }
    split; [|split; [|split; [done|split; [left; split; [done|]; intros h' (_ & -> & _)%Hacc Hs|]]]].
    4: { split; [done|]. split; [intros Hc q Hq Hfq; left; by apply Hkept|]. intros q Hq Hlt.
         change (am_rel e q < am_rel e (rx_next (st e))) in Hlt. rewrite am_rel_next in Hlt. pose proof (am_rel_range e q). lia. }
    3: { destruct Hst as [_ Hst]. destruct (Hst Hs) as (i & -> & Hl). by split. }
    + split; [by apply (am_vars_subset _ _ _ (am_rx_window e))|]. split; [done|]. intros q i Hq Hi. by apply (Hwfall q), Hsub'.
    + intros q i Hq Hi. by apply HP, Hsub'.
Qed.

(** *** Data PDUs, with the status report *)

(** The state of t-StatusProhibit, which handling PDUs and the expiry of t-Reassembly leave alone. *)
Definition prohibit_state (x : am_status_exchange) : bool * bool * bool :=
  (status_prohibit_timer_is_running x, prohibit_deferred x, status_prohibit_timer x).

Lemma am_inv_status x e : am_inv e -> am_inv (am_set_status x e). Proof. done. Qed.

Lemma am_status_ok_frame e e' : same_frame e e' -> am_status_ok e -> am_status_ok e'.
Proof. intros Hf (H1 & H2 & H3 & H4). destruct (same_frame_mod e e' Hf) as [_ E]. destruct Hf as (E1 & _ & E3 & E4).
  unfold am_status_ok. rewrite E1, E3, E4, E. done. Qed.

Lemma am_status_ok_do b e : am_status_ok e -> am_status_ok (am_set_status (set_do_status b (status e)) e).
Proof. intros (? & ? & ? & ?). by repeat (split; [done|]). Qed.

Lemma am_handle_data_pdu_spec P block max buf e :
  am_inv e -> am_status_ok e -> bytes_ok buf -> is_control_pdu buf = Some false ->
  am_all P (am_mod e) (am_rx_window e) -> am_closed P buf (ar_sn_size e) ->
  exists e' ev, am_handle_data_pdu block max buf e = Some (e', ev) /\
    am_inv e' /\ am_status_ok e' /\ am_all P (am_mod e) (am_rx_window e') /\ ar_sn_size e' = ar_sn_size e /\
    am_delivers block max buf e e' ev /\ prohibit_state (status e') = prohibit_state (status e) /\ am_forward P e e'.
Proof.
  intros Hinv Hst Hb Hdc HP Hclosed. unfold am_handle_data_pdu.
  destruct (am_data_pdu_body_spec P block max buf e Hinv Hb Hdc HP Hclosed)
    as (stored & requested & e1 & ev & -> & Hinv1 & HP1 & Hframe & Hdel & Hfwd). cbn [mbind option_bind].
  pose proof (am_status_ok_frame e e1 Hframe Hst) as Hst1.
  assert (Hrefresh : exists x, (if stored || requested then refresh_status_report e1 else Some e1) = Some (am_set_status x e1) /\
    am_status_ok (am_set_status x e1) /\ prohibit_state x = prohibit_state (status e1)).
  { destruct (stored || requested); [|exists (status e1); split; [by destruct e1|split; [by destruct e1|done]]].
    destruct (refresh_inv e1 Hinv1 Hst1) as (x & -> & _ & ? & ?). by exists x. }
  destruct Hrefresh as (x & -> & Hst2 & Hpx). cbn [mbind option_bind].
  set (e2 := if requested then am_set_status (set_do_status true (status (am_set_status x e1))) (am_set_status x e1)
             else am_set_status x e1).
  exists e2. eexists. split; [reflexivity|].
  assert (Hx : exists y, e2 = am_set_status y e1 /\ am_status_ok e2 /\ prohibit_state y = prohibit_state (status e1)).
  { unfold e2. destruct requested; [|by exists x]. eexists. split; [reflexivity|]. split; [by apply am_status_ok_do|done]. }
  destruct Hx as (y & Ey & Hy & Hpy). rewrite Ey in *. split; [done|]. split; [done|]. split; [done|].
  split; [by destruct Hframe as (? & _)|].
  split; [|split; [cbn [status am_set_status]; rewrite Hpy; by destruct Hframe as (_ & _ & _ & ->)|done]].
  assert (Hn : forall e, delivered (notify_status_report_changed e) = []).
  { intros e0. unfold notify_status_report_changed. by destruct (status_report_required e0). }
  unfold am_delivers in *. rewrite delivered_app.
  assert (Htail : delivered (if stored || requested then notify_status_report_changed (am_set_status y e1) else []) = [])
    by (destruct (stored || requested); [apply Hn|done]).
  rewrite Htail, app_nil_r. done.
Qed.

(** *** The whole handler *)
Lemma am_handle_pdu_spec P block max buf e :
  am_inv e -> am_status_ok e -> bytes_ok buf -> am_all P (am_mod e) (am_rx_window e) -> am_closed P buf (ar_sn_size e) ->
  exists e' ev, am_handle_pdu block max buf e = Some (e', ev) /\
    am_inv e' /\ am_status_ok e' /\ am_all P (am_mod e) (am_rx_window e') /\ ar_sn_size e' = ar_sn_size e /\
    am_delivers block max buf e e' ev /\ prohibit_state (status e') = prohibit_state (status e) /\ am_forward P e e'.
Proof.
  intros Hinv Hst Hb HP Hclosed. unfold am_handle_pdu. cbv zeta. destruct (rd_empty buf) eqn:He.
  { eexists _, _. split; [reflexivity|]. do 4 (split; [done|]). split; [|split; [done|by apply am_forward_same]].
    left. split; [done|]. intros h (Hc & _). by destruct buf. }
  destruct (is_control_pdu buf) as [control|] eqn:Ec; [|by destruct buf]. cbn [mbind option_bind].
  destruct control.
  - unfold am_handle_control_pdu.
    destruct (unpack_safe buf (status_pdu_new (ar_sn_size e)) Hb) as (ok & s & -> & _).
    { split; [apply size_inv_new|constructor]. }
    cbn [mbind option_bind]. eexists _, _. split; [reflexivity|]. do 4 (split; [done|]). split; [|split; [done|by apply am_forward_same]].
    left. split; [by destruct ok|].
    intros h (Hc & _). congruence.
  - destruct (am_handle_data_pdu_spec P block max buf e Hinv Hst Hb Ec HP Hclosed) as (e' & ev & -> & ? & ? & ? & ? & Hd & ? & ?).
    cbn [mbind option_bind]. eexists _, _. split; [reflexivity|]. do 4 (split; [done|]). split; [|done].
    unfold am_delivers in *. by rewrite delivered_app.
Qed.

(** *** Expiry of t-Reassembly *)
Lemma am_expiry_spec P e :
  am_inv e -> am_status_ok e -> am_reassembly_timer e = false ->
  0 < am_rel e (rx_next_status_trigger (st e)) <= am_rel e (rx_next_highest (st e)) ->
  am_all P (am_mod e) (am_rx_window e) ->
  exists e' ev, am_on_expired_reassembly_timer e = Some (e', ev) /\ am_inv e' /\ am_status_ok e' /\
    am_rx_window e' = am_rx_window e /\ ar_sn_size e' = ar_sn_size e /\ delivered ev = [] /\
    rx_next (st e') = rx_next (st e) /\ rx_next_highest (st e') = rx_next_highest (st e) /\
    do_status (status e') = true /\ prohibit_state (status e') = prohibit_state (status e) /\
    (let hs := rx_highest_status (st e') in
     am_rel e (rx_next_status_trigger (st e)) <= am_rel e hs <= am_rel e (rx_next_highest (st e)) /\
     (forall q, 0 <= q < am_mod e -> am_rel e (rx_next_status_trigger (st e)) <= am_rel e q < am_rel e hs ->
        am_full (am_rx_window e) q = true) /\
     am_full (am_rx_window e) hs = false).
Proof.
  intros (Hv & _ & Hwf) Hst Hr Htrig HP. pose proof Hv as (Hn & Ht & Hh & Hnh & Hw & Hle & Hkeys & Hfn & Hfh).
  destruct (am_geometry e) as (Hm & Hws & _). assert (Hmd : 0 < am_mod e) by lia.
  unfold am_on_expired_reassembly_timer. rewrite Hr.
  assert (Hvalid : forall sn, valid_ack_sn e sn = (0 <? am_rel e sn) && (am_rel e sn <=? am_window_size e)).
  { intros sn. unfold valid_ack_sn. by rewrite !am_rx_mod_base_rel. }
  rewrite !Hvalid. rewrite (proj2 (Z.ltb_lt 0 _)), (proj2 (Z.leb_le _ _)) by lia. cbn [andb negb].
  rewrite am_rx_mod_base_rel, (search_loop_ext _ _ (am_rel e)) by (intros; apply am_rx_mod_base_rel).
  destruct (search_loop_spec ai_fully_received (am_mod e) (rx_next (st e)) (am_rel e (rx_next_highest (st e))) (am_rx_window e)
    Hmd ltac:(lia) Hw (am_fuel e) (rx_next_status_trigger (st e)) Ht) as (hs & -> & Hhs & H1 & H2 & H3 & H4).
  { apply am_fuel_enough. lia. }
  cbn [mbind option_bind]. specialize (H2 ltac:(lia)). rewrite Hvalid.
  rewrite (proj2 (Z.ltb_lt 0 _)), (proj2 (Z.leb_le _ _)) by lia. cbn [andb negb].
  assert (Hhf : am_full (am_rx_window e) hs = false).
  { destruct (decide (am_rel e hs < am_rel e (rx_next_highest (st e)))) as [|Hge]; [by apply H4|].
    unfold lookup_flag. destruct (win_lookup (am_rx_window e) hs) eqn:E; [|done]. specialize (Hkeys hs Hhs).
    rewrite E in Hkeys. specialize (Hkeys (mk_is_Some _ _ eq_refl)). lia. }
  set (e1 := am_set_st (set_rx_highest_status hs (st e)) e).
  assert (Hv1 : am_vars (am_mod e1) (am_window_size e1) (st e1) (am_rx_window e1)).
  { unfold am_vars. do 5 (split; [done|]).
    split; [change (am_rel e hs <= am_rel e (rx_next_highest (st e)) <= am_window_size e); lia|]. done. }
  destruct (am_restart_timer_spec hs e1 Hv1) as (t & b & -> & Ht' & Hok & _).
  { intros Hr'. change (am_reassembly_timer e = true) in Hr'. by rewrite Hr in Hr'. }
  { done. } { change (am_rel e hs <= am_window_size e). lia. }
  cbn [mbind option_bind]. set (e2 := am_set_timer t b e1).
  assert (Hinv2 : am_inv e2).
  { split; [by apply (am_vars_timer _ _ (st e1))|]. done. }
  assert (Hst2 : am_status_ok e2) by (by apply (am_status_ok_frame e)).
  destruct (refresh_inv e2 Hinv2 Hst2) as (x & -> & Hinv3 & Hst3 & Hpx). cbn [mbind option_bind].
  eexists _, _. split; [reflexivity|]. split; [done|]. split; [by apply am_status_ok_do|].
  split; [done|]. split; [done|].
  split; [unfold notify_status_report_changed; by destruct (status_report_required _)|]. do 4 (split; [done|]).
  cbn zeta. change (rx_highest_status (st _)) with hs. split; [lia|]. split; [|done].
  intros q Hq Hb. by apply H3.
Qed.
End steps.
