(* ===== verification/RlcRxAmCorrect.v ===== *)
(** * Correctness of the AM receiver

    The theorems about [RlcRxAm], proved against the window interface, and instances of them over the segmented circular
    map. *)
From S2P Require Import Prelude ByteCursor RlcConfig ByteBufferChain RlcAmPdu RlcAmStatusPdu RlcAmStatusFacts.
From S2P Require Import RlcAmStatusNacks RlcSegments SegmentedCircularMap SduWindow RlcRxBase RlcRxAm.
From S2P Require Import RlcRxAmFacts RlcRxAmStatus RlcRxAmSteps.

(** ** Segments that stay inside the 16 bit offset *)

Lemma merge_separated l new :
  separated 0 l -> seg_ok new ->
  let '(ok, l') := store_segment l new in
  separated 0 l' /\ forall p, covered l' p <-> covered l p \/ (ok = true /\ in_seg new p).
Proof.
  intros Hsep Hok. rewrite store_segment_merge by done. pose proof Hok as (H0 & _).
  pose proof (merge_segment_spec l 0 new Hsep ltac:(lia) ltac:(lia) Hok) as Hm.
  destruct (merge_segment l new) as [l'|].
  - destruct Hm as (? & Hc & _). split; [done|]. intros p. rewrite Hc. tauto.
  - split; [done|]. intros p. split; [by left|]. by intros [?|[? _]].
Qed.

Lemma am_stored_wf i0 seg :
  (i0 = rlc_rx_am_sdu_info_init \/ am_info_wf i0 /\ ai_fully_received i0 = false) -> seg_ok seg -> sg_end seg <= 65535 ->
  am_info_wf (am_stored i0 seg).2.
Proof.
  intros Hi0 Hok Hend. unfold am_stored.
  assert (Hb : segs_bounded (am_segments i0)).
  { destruct Hi0 as [->|[Hwf Hf]]; [split; [done|apply covered_nil]|].
    destruct (Hwf Hf) as (l & Hd & _ & Hb). unfold am_segments. by rewrite Hd. }
  destruct Hb as [Hsep Hnc]. pose proof (merge_separated (am_segments i0) seg Hsep Hok) as Hm.
  destruct (store_segment (am_segments i0) seg) as [ok l]. destruct Hm as [Hsep' Hc].
  destruct (segment_inventory l) as [gap full] eqn:Einv. cbn [snd]. intros Hf. cbn in Hf. subst full.
  exists l. split; [done|]. split; [done|]. split; [done|]. rewrite Hc. intros [?|[_ [_ ?]]]; [done|lia].
Qed.

Section correct.
Context {W : Type} `{SduWindowLaws rlc_rx_am_sdu_info W rlc_rx_am_sdu_info_init}.
Notation entity := (rlc_rx_am_entity W).
Implicit Types (e : entity) (w : W).
Notation am_rel e := (rel (am_mod e) (rx_next (st e))).

(** A received PDU whose segment, if it is one, ends below offset 65535. *)
Definition am_pdu_ok (sz : rlc_am_sn_size) (buf : list Z) : Prop :=
  bytes_ok buf /\
  forall h, rlc_am_read_data_pdu_header buf sz rlc_am_pdu_header_init = Some (true, h) -> h_si h <> full_sdu ->
    h_so h + (rd_length buf - get_packed_size h) <= 65535.

Definition am_input_ok (sz : rlc_am_sn_size) (i : am_input) : Prop :=
  match i with AmPdu _ _ buf => am_pdu_ok sz buf | _ => True end.

Lemma am_segment_ok sz buf h :
  am_pdu_ok sz buf -> rlc_am_read_data_pdu_header buf sz rlc_am_pdu_header_init = Some (true, h) ->
  get_packed_size h < rd_length buf -> h_si h <> full_sdu ->
  seg_ok (am_segment buf h) /\ sg_end (am_segment buf h) <= 65535.
Proof.
  intros (Hb & Hbound) Eread Hlen Hsi. specialize (Hbound h Eread Hsi).
  destruct (am_read_cases buf sz rlc_am_pdu_header_init) as (ok & h' & Eread' & Hok). rewrite Eread in Eread'.
  injection Eread' as <- <-. destruct (Hok Hb eq_refl) as (_ & Hso).
  assert (0 <= h_so h) by (destruct (si_has_so (h_si h)); [lia|cbn in Hso; lia]).
  assert (Hpk : 0 <= get_packed_size h).
  { unfold get_packed_size, rlc_am_pdu_header_max_size, rlc_am_pdu_header_min_size.
    destruct (si_has_so _), (h_sn_size h); by vm_compute. }
  assert (Hl : sg_len (am_segment buf h) = rd_length buf - get_packed_size h).
  { unfold sg_len, am_segment, am_payload; cbn [sg_payload]. apply rd_length_advance. lia. }
  unfold seg_ok, sg_end. rewrite Hl. cbn [am_segment sg_so]. lia.
Qed.

Lemma am_closed_wf sz buf : am_pdu_ok sz buf -> am_closed (fun _ => am_info_wf) buf sz.
Proof.
  intros Hok. split; [done|]. split; [intros q i Hwf Hf Hf'; cbn in Hf'; congruence|].
  intros h Eread Hlen. case_bool_decide as Hsi; [done|]. intros i0 Hi0.
  destruct (am_segment_ok sz buf h Hok Eread Hlen Hsi). by apply am_stored_wf.
Qed.

(** ** Runs *)
Lemma am_step_inv e i :
  am_inv e -> am_status_ok e -> am_input_ok (ar_sn_size e) i ->
  exists e' ev, am_step e i = Some (e', ev) /\ am_inv e' /\ am_status_ok e' /\ ar_sn_size e' = ar_sn_size e.
Proof.
  intros Hinv Hst Hi. destruct i as [block max buf| | |deferred|]; cbn [am_step].
  - pose proof Hi as [Hb _]. destruct (am_handle_pdu_spec (fun _ => am_info_wf) block max buf e Hinv Hst Hb)
      as (e' & ev & -> & ? & ? & _ & ? & _); [apply Hinv|by apply am_closed_wf|]. by exists e', ev.
  - destruct (am_reassembly_timer e) eqn:Hr; [|by exists e, []].
    pose proof Hinv as (Hv & Htim & Hwf). specialize (Htim Hr).
    set (e1 := am_set_timer (rx_next_status_trigger (st e)) false e).
    destruct (am_expiry_spec (fun _ => am_info_wf) e1) as (e' & ev & -> & ? & ? & _ & ? & _).
    + split; [apply (am_vars_timer _ _ (st e)); [done|apply Hv]|]. split; [by intros Hx|done].
    + by apply (am_status_ok_frame e).
    + done.
    + exact Htim.
    + exact Hwf.
    + by exists e', ev.
  - destruct (status_prohibit_timer (status e)); [|by exists e, []].
    unfold am_on_expired_status_prohibit_timer. eexists _, _. split; [reflexivity|]. split; [done|]. split; [|done].
    destruct Hst as (? & ? & ? & ?). by repeat (split; [done|]).
  - unfold get_status_pdu. eexists _, _. split; [reflexivity|]. split; [done|]. split; [|done].
    destruct Hst as (? & ? & ? & ?). by destruct (0 <? t_status_prohibit e); repeat (split; [done|]).
  - destruct (prohibit_deferred (status e)); [|by exists e, []]. eexists _, _. split; [reflexivity|]. split; [done|].
    split; [|done]. destruct Hst as (? & ? & ? & ?). by repeat (split; [done|]).
Qed.

Lemma am_run_inv l : forall e,
  am_inv e -> am_status_ok e -> Forall (am_input_ok (ar_sn_size e)) l ->
  exists e' ev, am_run e l = Some (e', ev) /\ am_inv e' /\ am_status_ok e' /\ ar_sn_size e' = ar_sn_size e.
Proof.
  induction l as [|i l IH]; intros e Hinv Hst Hl; cbn [am_run]; [by exists e, []|].
  apply Forall_cons in Hl as [Hi Hl]. destruct (am_step_inv e i Hinv Hst Hi) as (e1 & ev1 & -> & Hinv1 & Hst1 & Hs1).
  cbn [mbind option_bind]. rewrite <- Hs1 in Hl. destruct (IH e1 Hinv1 Hst1 Hl) as (e2 & ev2 & -> & Hinv2 & Hst2 & Hs2).
  cbn [mbind option_bind]. exists e2, (ev1 ++ ev2). by rewrite Hs2.
Qed.

Lemma am_new_inv sz t max w e :
  am_rx_new sz t max w = Some e -> win_inv w -> (forall q, win_lookup w q = None) ->
  am_inv e /\ am_status_ok e /\ ar_sn_size e = sz.
Proof.
  intros He Hw Hempty. unfold am_rx_new in He.
  set (size := window_size (am_sn_to_number sz)) in *.
  destruct (match max with Some n => _ | None => _ end) as [n|] eqn:En; [|done]. cbn [mbind option_bind] in He.
  injection He as <-. destruct (am_geometry (W:=W) (AmRx sz t n (AmSt 0 0 0 0) w false (AmStatusExchange false (status_pdu_new sz)
    (set_ack_sn 0 (status_pdu_new sz)) (status_pdu_new sz) 3 false false false))) as (Hm & Hws & _).
  unfold am_mod, am_window_size in Hm, Hws; cbn [ar_sn_size] in Hm, Hws. fold size in Hm, Hws.
  assert (Hn : 1 <= n <= size).
  { destruct max as [m|]; [|injection En as <-; lia]. destruct ((m <=? size) && (0 <? m)) eqn:E; [|done].
    injection En as <-. apply andb_true_iff in E as [E1%Z.leb_le E2%Z.ltb_lt]. lia. }
  split; [|split; [|done]].
  - assert (Hf : am_full w 0 = false) by (unfold lookup_flag; by rewrite Hempty).
    split; [|split; [by intros Hr|]].
    + unfold am_vars, am_mod, am_window_size; cbn [ar_sn_size st am_rx_window rx_next rx_next_status_trigger rx_highest_status rx_next_highest].
      fold size. rewrite rel_self by lia. do 4 (split; [lia|]). split; [done|]. split; [lia|]. split; [|done].
      intros q _ [i Hi]. by rewrite Hempty in Hi.
    + intros q i _ Hi. cbn in Hi. by rewrite Hempty in Hi.
  - split; [apply report_ok_new|]. split; [apply report_ok_ack, report_ok_new|]. split; [apply report_ok_new|]. done.
Qed.

(** C15. The AM receiver is robust: from its initial state, for every sequence of received octet strings (malformed ones and
    control PDUs included, segments being inside the 16 bit offset), pool conditions, timer expiries and status requests, no
    assertion fails, nothing is read out of bounds, every loop over sequence numbers ends, and the state stays well-formed:
    RX_Next <= RX_Highest_Status <= RX_Next_Highest <= RX_Next + AM_Window_Size, every buffered SDU lies between RX_Next and
    RX_Next_Highest, the SDUs at RX_Next and RX_Highest_Status are not fully received, and while t-Reassembly runs its trigger
    is a SN above RX_Next. *)
Theorem am_rx_robust sz t max w e0 l :
  am_rx_new sz t max w = Some e0 -> win_inv w -> (forall q, win_lookup w q = None) -> Forall (am_input_ok sz) l ->
  exists e ev, am_run e0 l = Some (e, ev) /\
    let r := am_rx_mod_base e in
    r (rx_highest_status (st e)) <= r (rx_next_highest (st e)) <= am_window_size e /\
    (forall q, 0 <= q < am_mod e -> is_Some (win_lookup (am_rx_window e) q) -> r q < r (rx_next_highest (st e))) /\
    am_full (am_rx_window e) (rx_next (st e)) = false /\ am_full (am_rx_window e) (rx_highest_status (st e)) = false /\
    (am_reassembly_timer e = true -> valid_ack_sn e (rx_next_status_trigger (st e)) = true).
Proof.
  intros He Hw Hempty Hl. destruct (am_new_inv sz t max w e0 He Hw Hempty) as (Hinv0 & Hst0 & <-).
  destruct (am_run_inv l e0 Hinv0 Hst0 Hl) as (e & ev & E & Hinv & _). exists e, ev. split; [done|].
  destruct Hinv as ((_ & _ & _ & _ & _ & Hle & Hkeys & Hf1 & Hf2) & Htim & _). cbv zeta.
  rewrite !am_rx_mod_base_rel. split; [done|]. split; [intros q; rewrite am_rx_mod_base_rel; apply Hkeys|].
  split; [done|]. split; [done|]. intros Hr. specialize (Htim Hr). unfold valid_ack_sn. rewrite !am_rx_mod_base_rel.
  cbv zeta in Htim. by rewrite (proj2 (Z.ltb_lt 0 _)), (proj2 (Z.leb_le _ _)) by lia.
Qed.

(** ** Delivery *)

Definition am_info_ok (sdus : Z -> list Z) (q : Z) (i : rlc_rx_am_sdu_info) : Prop :=
  am_info_wf i /\ (ai_fully_received i = false -> segments_ok (sdus q) (am_segments i)).

(** The payload of a PDU belongs to the SDU of its SN. *)
Definition am_pdu_of (sdus : Z -> list Z) (buf : list Z) (h : rlc_am_pdu_header) : Prop :=
  if bool_decide (h_si h = full_sdu) then am_payload buf h = sdus (h_sn h) else slice_of (sdus (h_sn h)) (am_segment buf h).

Lemma am_segments_ok sdus q i0 :
  i0 = rlc_rx_am_sdu_info_init \/ am_info_ok sdus q i0 /\ ai_fully_received i0 = false -> segments_ok (sdus q) (am_segments i0).
Proof. intros [->|[[_ Hok] Hf]]; [apply segments_ok_nil|by apply Hok]. Qed.

Lemma am_info_ok_wf sdus q i0 :
  i0 = rlc_rx_am_sdu_info_init \/ am_info_ok sdus q i0 /\ ai_fully_received i0 = false ->
  i0 = rlc_rx_am_sdu_info_init \/ am_info_wf i0 /\ ai_fully_received i0 = false.
Proof. intros [?|[[? _] ?]]; auto. Qed.

Lemma am_stored_ok sdus q i0 seg :
  1 <= rd_length (sdus q) <= 65535 -> (i0 = rlc_rx_am_sdu_info_init \/ am_info_ok sdus q i0 /\ ai_fully_received i0 = false) ->
  slice_of (sdus q) seg ->
  let '(ok, i) := am_stored i0 seg in
  am_info_ok sdus q i /\ segments_ok (sdus q) (am_segments i) /\ ai_sdu_data i = Segments (am_segments i) /\
  (ai_fully_received i = true <-> (segment_inventory (am_segments i)).2 = true) /\
  (ok = true <-> exists p, in_seg seg p /\ ~ covered (am_segments i0) p) /\
  (forall p, covered (am_segments i) p <-> covered (am_segments i0) p \/ in_seg seg p) /\
  (length (am_segments i) <= S (length (am_segments i0)))%nat.
Proof.
  intros Hlen Hi0 Hs. pose proof (slice_of_seg_ok (sdus q) seg ltac:(lia) Hs) as Hok.
  assert (Hend : sg_end seg <= 65535) by (destruct Hs as (_ & _ & ? & _); lia).
  pose proof (am_stored_wf i0 seg (am_info_ok_wf _ _ _ Hi0) Hok Hend) as Hwf.
  pose proof (store_segments_ok (sdus q) (am_segments i0) seg ltac:(lia) (am_segments_ok _ _ _ Hi0) Hs) as Hst.
  unfold am_stored in *. destruct (store_segment (am_segments i0) seg) as [ok l]. destruct Hst as (? & ? & _ & _ & ? & ?).
  destruct (segment_inventory l) as [gap full] eqn:Einv. cbn [snd] in Hwf. unfold am_segments at 1 2 3 4 5 7.
  cbn [ai_sdu_data ai_fully_received]. rewrite Einv. by repeat (split; [done|]).
Qed.

Lemma am_closed_ok sdus sz buf :
  (forall q, 1 <= rd_length (sdus q) <= 65535) -> bytes_ok buf ->
  (forall h, rlc_am_read_data_pdu_header buf sz rlc_am_pdu_header_init = Some (true, h) -> am_pdu_of sdus buf h) ->
  am_closed (am_info_ok sdus) buf sz.
Proof.
  intros Hlen Hb Hof. split; [by intros q i []|]. split.
  { intros q i _ Hf. split; intros Hf'; cbn in Hf'; congruence. }
  intros h Eread Hpl. specialize (Hof h Eread). unfold am_pdu_of in Hof. case_bool_decide as Hsi; [by split|].
  intros i0 Hi0. pose proof (am_stored_ok sdus (h_sn h) i0 (am_segment buf h) (Hlen _) Hi0 Hof) as Hs.
  destruct (am_stored i0 (am_segment buf h)) as [ok i]. apply Hs.
Qed.

(** What a complete SDU reassembles to. *)
Lemma am_reassemble_ok (sdu : list Z) i block max :
  1 <= rd_length sdu <= 65535 -> ai_fully_received i = true ->
  (ai_sdu_data i = FullSdu sdu \/
   exists l, ai_sdu_data i = Segments l /\ segments_ok sdu l /\ (segment_inventory l).2 = true) ->
  (forall d, d ∈ delivered (deliver_events (am_reassemble_sdu block max i)) -> d = sdu) /\
  (length (delivered (deliver_events (am_reassemble_sdu block max i))) <= 1)%nat /\
  (block = true -> (length (am_segments i) <= max)%nat -> (0 < max)%nat ->
   delivered (deliver_events (am_reassemble_sdu block max i)) = [sdu]).
Proof.
  intros Hlen Hf Hdata. unfold am_reassemble_sdu, am_segments. rewrite Hf. cbn [negb].
  assert (Hnone : (forall d, d ∈ delivered (deliver_events None) -> d = sdu) /\ (length (delivered (deliver_events None)) <= 1)%nat).
  { split; [by intros d ?%elem_of_nil|cbn; lia]. }
  destruct block; cbn [chain_create mbind option_bind]; [|by destruct Hnone].
  assert (Hone : forall c, chain_bytes c = sdu ->
    (forall d, d ∈ delivered (deliver_events (Some c)) -> d = sdu) /\ (length (delivered (deliver_events (Some c))) <= 1)%nat /\
    delivered (deliver_events (Some c)) = [sdu]).
  { intros c Hc. cbn. rewrite Hc. split; [by intros d ->%list_elem_of_singleton|]. split; [lia|done]. }
  assert (Hi : chain_inv (Chain [] 0 max)) by (split_and!; [unfold nof_slices; simpl; lia|done|constructor]).
  destruct Hdata as [->|(l & -> & Hok & Hinv)].
  - pose proof (chain_append_spec sdu (Chain [] 0 max) Hi) as Ha.
    pose proof (chain_append_ok sdu (Chain [] 0 max) Hi) as Hb. destruct (chain_append _ _) as [[] c].
    + destruct Ha as (_ & _ & Ha). destruct (Hone c Ha) as (? & ? & ?). done.
    + destruct Hnone. split; [done|]. split; [done|]. intros _ _ Hmax. specialize (Hb Hmax). done.
  - pose proof (chain_complete sdu l max ltac:(lia) Hok Hinv) as Hc. destruct (chain_segments l _) as [c|];
      [destruct (Hone c Hc) as (? & ? & ?); done|destruct Hnone; split; [done|]; split; [done|]; intros; lia].
Qed.

(** The SDU a PDU completes. *)
Lemma am_placed_complete sdus e buf h i :
  (forall q, 1 <= rd_length (sdus q) <= 65535) -> am_all (am_info_ok sdus) (am_mod e) (am_rx_window e) ->
  am_pdu_of sdus buf h -> am_accepted e buf h -> am_placed_sdu (am_rx_window e) buf h = (true, i) ->
  ai_fully_received i = true ->
  ai_sdu_data i = FullSdu (sdus (h_sn h)) \/
  exists l, ai_sdu_data i = Segments l /\ segments_ok (sdus (h_sn h)) l /\ (segment_inventory l).2 = true.
Proof.
  intros Hlen Hall Hof (_ & _ & _ & Hsn & _ & Hnf) Hpl Hf. unfold am_pdu_of, am_placed_sdu in *. case_bool_decide as Hsi.
  - injection Hpl as <-. left. by rewrite <- Hof.
  - right. set (i0 := from_option id rlc_rx_am_sdu_info_init (win_lookup (am_rx_window e) (h_sn h))) in *.
    assert (Hi0 : i0 = rlc_rx_am_sdu_info_init \/ am_info_ok sdus (h_sn h) i0 /\ ai_fully_received i0 = false).
    { unfold i0, lookup_flag in *. destruct (win_lookup (am_rx_window e) (h_sn h)) eqn:E; [right|by left].
      split; [by apply Hall|done]. }
    pose proof (am_stored_ok sdus (h_sn h) i0 (am_segment buf h) (Hlen _) Hi0 Hof) as Hs. rewrite Hpl in Hs.
    destruct Hs as (_ & Hok & Hd & Hfi & _). exists (am_segments i). split; [done|]. split; [done|]. by apply Hfi.
Qed.

(** What the window knows about the SDU of a SN: nothing, if it has no entry. *)
Definition am_known e (sn : Z) : list segment := am_segments (default rlc_rx_am_sdu_info_init (win_lookup (am_rx_window e) sn)).

(** Byte [p] of the SDU is known, or comes with the PDU. *)
Definition am_now e (buf : list Z) (h : rlc_am_pdu_header) (p : Z) : Prop :=
  covered (am_known e (h_sn h)) p \/ in_seg (am_segment buf h) p.

(** What storing a segment makes of the SDU: it becomes complete exactly if no byte is missing, and then it was not before. *)
Lemma am_placed_segment sdus e buf h :
  (forall q, 1 <= rd_length (sdus q) <= 65535) -> am_all (am_info_ok sdus) (am_mod e) (am_rx_window e) ->
  am_pdu_of sdus buf h -> am_accepted e buf h -> h_si h <> full_sdu ->
  let '(new, i) := am_placed_sdu (am_rx_window e) buf h in
  (forall p, covered (am_segments i) p <-> am_now e buf h p) /\ (length (am_segments i) <= S (length (am_known e (h_sn h))))%nat /\
  (ai_fully_received i = true <-> forall p, 0 <= p < rd_length (sdus (h_sn h)) -> am_now e buf h p) /\
  (ai_fully_received i = true -> new = true).
Proof.
  intros Hlen Hall Hof (_ & _ & _ & Hsn & _ & Hnf) Hsi. unfold am_pdu_of, am_placed_sdu, am_now, am_known in *. rewrite bool_decide_false in * by done.
  set (i0 := from_option id rlc_rx_am_sdu_info_init (win_lookup (am_rx_window e) (h_sn h))) in *.
  assert (Hi0 : i0 = rlc_rx_am_sdu_info_init \/ am_info_ok sdus (h_sn h) i0 /\ ai_fully_received i0 = false).
  { unfold i0, lookup_flag in *. destruct (win_lookup (am_rx_window e) (h_sn h)) eqn:E; [right|by left]. split; [by apply Hall|done]. }
  pose proof (am_stored_ok sdus (h_sn h) i0 (am_segment buf h) (Hlen _) Hi0 Hof) as Hs.
  pose proof (am_segments_ok sdus (h_sn h) i0 Hi0) as Hok0. pose proof (Hlen (h_sn h)) as Hl.
  unfold am_stored in *. pose proof (store_segment_false (am_segments i0) (am_segment buf h)) as Hsf.
  destruct (store_segment (am_segments i0) (am_segment buf h)) as [ok l] eqn:Est. destruct (segment_inventory l) as [gap full] eqn:Einv.
  destruct Hs as (_ & Hok & _ & Hfi & _ & Hc & Hle). change (am_segments (AmInfo full gap (Segments l))) with l in *. cbn [ai_fully_received] in *.
  pose proof (inventory_complete (sdus (h_sn h)) l ltac:(lia) Hok) as Hcomp. rewrite Einv in Hcomp, Hfi. cbn [snd] in Hcomp.
  split; [done|]. split; [done|]. split.
  { rewrite Hcomp. split; intros Hp p Hr; apply Hc; by apply Hp. }
  (* a PDU that brings nothing new does not complete the SDU *)
  intros Hfull. destruct ok; [done|exfalso]. specialize (Hsf eq_refl). cbn in Hsf. subst l full.
  destruct Hi0 as [Hi0|[[Hwf _] Hf]]; [rewrite Hi0 in Einv; cbn in Einv; by injection Einv|].
  destruct (Hwf Hf) as (l & Hd0 & Hinv & _). unfold am_segments in Einv. rewrite Hd0, Hinv in Einv. by injection Einv.
Qed.

(** C3. The AM receiver delivers what was sent, once, and as soon as it has it. Let every SN stand for one SDU of at most 65535
    bytes, and let the SDUs in the window be made of parts of those. Then handling a PDU whose payload is the SDU of its SN or a
    part of it, in any order and with any duplication, keeps the window that way; at most one SDU is delivered, it is exactly
    the SDU of the SN of the PDU, the SN was inside the window and not fully received before, and afterwards it is fully
    received or has left the window, so that a retransmission is not delivered again. Conversely, take a PDU inside of the
    window for a SDU that is not fully received, known or not, while the window has an entry or memory for one. If it is a
    full SDU, or its bytes and those known before are all there are, the SDU is delivered, provided there is memory for the
    chain of its segments. If a byte is missing, nothing is delivered and the window has exactly the bytes known before and
    those of the PDU. *)
Theorem am_delivery_correct sdus block max buf e :
  am_inv e -> am_status_ok e -> bytes_ok buf -> (forall q, 1 <= rd_length (sdus q) <= 65535) ->
  am_all (am_info_ok sdus) (am_mod e) (am_rx_window e) ->
  (forall h, rlc_am_read_data_pdu_header buf (ar_sn_size e) rlc_am_pdu_header_init = Some (true, h) -> am_pdu_of sdus buf h) ->
  exists e' ev, am_handle_pdu block max buf e = Some (e', ev) /\ am_inv e' /\ am_status_ok e' /\
    am_all (am_info_ok sdus) (am_mod e) (am_rx_window e') /\
    (length (delivered ev) <= 1)%nat /\
    (forall d, d ∈ delivered ev -> exists h, am_accepted e buf h /\ d = sdus (h_sn h) /\
       (am_full (am_rx_window e') (h_sn h) = true \/ inside_rx_window e' (h_sn h) = false)) /\
    (forall h, am_accepted e buf h -> am_room (h_sn h) (am_rx_window e) ->
       (h_si h = full_sdu \/ (forall p, 0 <= p < rd_length (sdus (h_sn h)) -> am_now e buf h p) ->
          block = true -> (length (am_known e (h_sn h)) < max)%nat -> delivered ev = [sdus (h_sn h)]) /\
       (h_si h <> full_sdu -> forall p0, 0 <= p0 < rd_length (sdus (h_sn h)) -> ~ am_now e buf h p0 ->
          delivered ev = [] /\ exists i, win_lookup (am_rx_window e') (h_sn h) = Some i /\
            forall p, covered (am_segments i) p <-> am_now e buf h p)).
Proof.
  intros Hinv Hst Hb Hlen Hall Hof.
  destruct (am_handle_pdu_spec (am_info_ok sdus) block max buf e Hinv Hst Hb Hall) as (e' & ev & E & Hinv' & Hst' & Hall' & _ & Hdel & _);
    [by apply am_closed_ok|].
  exists e', ev. do 4 (split; [done|]).
  assert (Hone : forall h h', am_accepted e buf h -> am_accepted e buf h' -> h' = h).
  { intros h h' (_ & E1 & _) (_ & E2 & _). congruence. }
  destruct Hdel as [(Hd & Hno)|(h & i & Hacc & Hpl & Hf & Hd & Honce)].
  - rewrite Hd. split; [cbn; lia|]. split; [by intros d ?%elem_of_nil|]. intros h Hacc Hroom. specialize (Hno h Hacc Hroom).
    pose proof Hacc as (_ & Eread & _). specialize (Hof h Eread). destruct (decide (h_si h = full_sdu)) as [Hsi|Hsi].
    { exfalso. unfold am_placed_sdu in Hno. rewrite bool_decide_true in Hno by done. by destruct Hno as [_ Hno]; specialize (Hno eq_refl). }
    pose proof (am_placed_segment sdus e buf h Hlen Hall Hof Hacc Hsi) as Hs. destruct (am_placed_sdu _ _ _) as [new i].
    destruct Hno as [Hl Hno]. destruct Hs as (Hc & _ & Hfull & Hnew). split; [|by eauto].
    intros [?|Hcov]; [done|]. apply Hfull in Hcov. by rewrite (Hno (Hnew Hcov)) in Hcov.
  - pose proof Hacc as (_ & Eread & _). specialize (Hof h Eread).
    pose proof (am_placed_complete sdus e buf h i Hlen Hall Hof Hacc Hpl Hf) as Hdata.
    destruct (am_reassemble_ok (sdus (h_sn h)) i block max (Hlen _) Hf Hdata) as (Hr1 & Hr2 & Hr3).
    rewrite Hd. split; [done|]. split; [intros d Hdd; exists h; split; [done|]; split; [by apply Hr1|done]|].
    intros h' Hacc' _. rewrite (Hone h h' Hacc Hacc'). destruct (decide (h_si h = full_sdu)) as [Hsi|Hsi].
    { split; [|done]. intros _ Hbl Hmax. unfold am_placed_sdu in Hpl. rewrite bool_decide_true in Hpl by done. injection Hpl as <-.
      apply Hr3; [done|cbn; lia|lia]. }
    pose proof (am_placed_segment sdus e buf h Hlen Hall Hof Hacc Hsi) as Hs. rewrite Hpl in Hs. destruct Hs as (_ & Hle & Hfull & _).
    split; [intros _ Hbl Hmax; apply Hr3; [done|lia|lia]|]. intros _ p0 Hp0 Hmiss. destruct Hmiss. by apply Hfull.
Qed.

(** C5. The status report is exact: [refresh_status_report] hands over a report whose ACK_SN is RX_Highest_Status, or the SN
    after the configured number of SNs if that is less, and whose NACKs name exactly the missing bytes of the SDUs from
    RX_Next to before ACK_SN: the whole of an SDU of which nothing was received, and of an incomplete SDU the bytes that were
    not received and lie below a received one or, while its last segment is not known, anywhere above. The cached size is
    the size of the report, and its NACK list cannot be merged further. *)
Theorem status_report_exact e :
  am_inv e -> am_status_ok e ->
  exists e', refresh_status_report e = Some e' /\ st e' = st e /\ am_rx_window e' = am_rx_window e /\
    let s := status_for_exchange (status e') in
    ack_sn s = status_stop_sn e /\
    am_rx_mod_base e (ack_sn s) = Z.min (am_rx_mod_base e (rx_highest_status (st e))) (max_nof_sn_per_status_report e) /\
    (forall sn p, 0 <= p <= 65535 ->
       reported (nacks_missing (am_mod e) (nacks s)) sn p <->
       0 <= sn < am_mod e /\ am_rx_mod_base e sn < am_rx_mod_base e (ack_sn s) /\ missing (am_rx_window e) sn p) /\
    status_report_size (status e') = packed_size s /\ size_inv s /\ canonical (mod_nr s) (nacks s).
Proof.
  intros Hinv Hst. destruct (refresh_spec e Hinv Hst) as (s & -> & Hok & Hack & Hrep).
  eexists. split; [reflexivity|]. do 2 (split; [done|]). cbv zeta. cbn [status am_set_status store_status_report set_writer
    status_for_exchange status_owned_by_writer status_report_size]. rewrite Hack.
  split; [done|]. destruct (status_stop_spec e Hinv Hst) as (_ & Hstop). rewrite !am_rx_mod_base_rel.
  split; [done|]. split; [intros sn p Hp; rewrite am_rx_mod_base_rel; by apply Hrep|]. destruct Hok as (_ & _ & ? & ?). done.
Qed.

(** The expiry of t-Reassembly sets RX_Highest_Status to the first SN at or after RX_Next_Status_Trigger whose SDU is not
    fully received, keeps the window and what it holds, and triggers a status report. *)
Theorem am_expiry_exact e :
  am_inv e -> am_status_ok e -> am_reassembly_timer e = true ->
  exists e' ev, am_step e AmReassemblyExpiry = Some (e', ev) /\ am_inv e' /\ delivered ev = [] /\
    am_rx_window e' = am_rx_window e /\ rx_next (st e') = rx_next (st e) /\
    rx_next_highest (st e') = rx_next_highest (st e) /\ do_status (status e') = true /\
    let r := am_rx_mod_base e in
    let hs := rx_highest_status (st e') in
    r (rx_next_status_trigger (st e)) <= r hs <= r (rx_next_highest (st e)) /\
    (forall q, 0 <= q < am_mod e -> r (rx_next_status_trigger (st e)) <= r q < r hs -> am_full (am_rx_window e) q = true) /\
    am_full (am_rx_window e) hs = false.
Proof.
  intros Hinv Hst Hr. cbn [am_step]. rewrite Hr. pose proof Hinv as (Hv & Htim & Hwf). specialize (Htim Hr).
  set (e1 := am_set_timer (rx_next_status_trigger (st e)) false e).
  destruct (am_expiry_spec (fun _ => am_info_wf) e1) as (e' & ev & -> & Hinv' & _ & Hwin & _ & Hd & Hn & Hnh & Hdo & _ & H1 & H2 & H3).
  - split; [apply (am_vars_timer _ _ (st e)); [done|apply Hv]|]. split; [by intros Hx|done].
  - by apply (am_status_ok_frame e).
  - done.
  - exact Htim.
  - exact Hwf.
  - exists e', ev. do 7 (split; [done|]). cbv zeta. rewrite !am_rx_mod_base_rel. split; [done|].
    split; [|done]. intros q Hq. rewrite am_rx_mod_base_rel. by apply H2.
Qed.

(** ** t-StatusProhibit *)

Definition not_a_status_request (i : am_input) : Prop := match i with AmGetStatus _ => False | _ => True end.

Lemma am_prohibited_step e i :
  am_inv e -> am_status_ok e -> am_input_ok (ar_sn_size e) i -> not_a_status_request i ->
  prohibit_state (status e) = (true, false, false) ->
  exists e' ev, am_step e i = Some (e', ev) /\ am_inv e' /\ am_status_ok e' /\ ar_sn_size e' = ar_sn_size e /\
    prohibit_state (status e') = (true, false, false).
Proof.
  intros Hinv Hst Hi Hng Hp. pose proof Hp as [= Hp1 Hp2 Hp3].
  destruct (am_step_inv e i Hinv Hst Hi) as (e' & ev & E & Hinv' & Hst' & Hs'). exists e', ev. do 4 (split; [done|]).
  destruct i as [block max buf| | |deferred|]; cbn [am_step] in E; [..|done|].
  - destruct (am_handle_pdu_spec (fun _ => am_info_wf) block max buf e Hinv Hst (proj1 Hi))
      as (e1 & ev1 & E1 & _ & _ & _ & _ & _ & Hp' & _); [apply Hinv|by apply am_closed_wf|].
    rewrite E in E1. injection E1 as <- <-. by rewrite Hp'.
  - destruct (am_reassembly_timer e) eqn:Hr; [|by injection E as <- <-].
    pose proof Hinv as (Hv & Htim & Hwf). specialize (Htim Hr).
    destruct (am_expiry_spec (fun _ => am_info_wf) (am_set_timer (rx_next_status_trigger (st e)) false e))
      as (e1 & ev1 & E1 & _ & _ & _ & _ & _ & _ & _ & _ & Hp' & _).
    + split; [apply (am_vars_timer _ _ (st e)); [done|apply Hv]|]. split; [by intros Hx|done].
    + by apply (am_status_ok_frame e).
    + done.
    + exact Htim.
    + exact Hwf.
    + rewrite E in E1. injection E1 as <- <-. by rewrite Hp'.
  - rewrite Hp3 in E. by injection E as <- <-.
  - rewrite Hp2 in E. by injection E as <- <-.
Qed.

(** If the executor rejects the task that starts t-StatusProhibit, status reporting stops: [get_status_pdu] marks the timer
    as running without starting it, so that no expiry will ever clear the mark, and whatever is received and whichever
    timers expire afterwards, [status_report_required] stays false. *)
Theorem status_prohibit_never_expires e l s e1 :
  am_inv e -> am_status_ok e -> 0 < t_status_prohibit e ->
  prohibit_deferred (status e) = false -> status_prohibit_timer (status e) = false ->
  get_status_pdu false e = (s, e1) ->
  Forall (am_input_ok (ar_sn_size e)) l -> Forall not_a_status_request l ->
  exists e2 ev, am_run e1 l = Some (e2, ev) /\ status_report_required e2 = false.
Proof.
  intros Hinv Hst Hcfg Hdef Htimer Hget Hl Hng.
  destruct (am_step_inv e (AmGetStatus false) Hinv Hst I) as (e1' & ev1 & E & Hinv1 & Hst1 & Hs1).
  cbn [am_step] in E. rewrite Hget in E. injection E as <- <-.
  assert (Hp1 : prohibit_state (status e1) = (true, false, false)).
  { unfold get_status_pdu in Hget. rewrite (proj2 (Z.ltb_lt 0 _)) in Hget by done. injection Hget as _ <-.
    unfold prohibit_state. cbn. by rewrite Hdef, Htimer. }
  rewrite <- Hs1 in Hl. clear -Hinv1 Hst1 Hp1 Hl Hng. revert e1 Hinv1 Hst1 Hp1 Hl.
  induction l as [|i l IH]; intros e1 Hinv1 Hst1 Hp1 Hl; cbn [am_run].
  - exists e1, []. split; [done|]. unfold status_report_required. injection Hp1 as -> _ _. by rewrite andb_false_r.
  - apply Forall_cons in Hl as [Hi Hl]. apply Forall_cons in Hng as [Hn Hng].
    destruct (am_prohibited_step e1 i Hinv1 Hst1 Hi Hn Hp1) as (e2 & ev2 & -> & Hinv2 & Hst2 & Hs2 & Hp2).
    cbn [mbind option_bind]. rewrite <- Hs2 in Hl. destruct (IH Hng e2 Hinv2 Hst2 Hp2 Hl) as (e3 & ev3 & -> & ?).
    cbn [mbind option_bind]. eauto.
Qed.
End correct.

(** ** Over the segmented circular map *)
Section concrete.
Notation win := (segmented_sdu_window rlc_rx_am_sdu_info).
#[local] Instance am_window : SduWindow rlc_rx_am_sdu_info win := segmented_window rlc_rx_am_sdu_info_init.
#[local] Instance am_window_laws : SduWindowLaws rlc_rx_am_sdu_info win rlc_rx_am_sdu_info_init :=
  segmented_window_laws rlc_rx_am_sdu_info_init.

Definition am_rx_12bit : rlc_rx_am_entity win :=
  match am_rx_new size12bits 10 None (window_new 2048 64 4) with
  | Some e => e
  | None => AmRx size12bits 0 0 (AmSt 0 0 0 0) (window_new 2048 64 4) false
              (AmStatusExchange false (status_pdu_new size12bits) (status_pdu_new size12bits) (status_pdu_new size12bits) 0 false false false)
  end.

Lemma am_rx_12bit_new : am_rx_new size12bits 10 None (window_new 2048 64 4) = Some am_rx_12bit.
Proof. reflexivity. Qed.

Lemma am_window_empty : win_inv (window_new (T:=rlc_rx_am_sdu_info) 2048 64 4) /\
  forall q, win_lookup (window_new (T:=rlc_rx_am_sdu_info) 2048 64 4) q = None.
Proof. destruct (map_new_inv (V:=rlc_rx_am_sdu_info) 11 6) as (? & _ & ?); [lia|lia|]. by split. Qed.

(** PDUs of the 12 bit format: a full SDU, a first segment and the other segments. *)
Definition pdu_full (p sn : Z) (sdu : list Z) : list Z := [128 + 64 * p + sn / 256; sn mod 256] ++ sdu.
Definition pdu_first (p sn : Z) (sdu : list Z) : list Z := [144 + 64 * p + sn / 256; sn mod 256] ++ sdu.
Definition pdu_other (si p sn so : Z) (sdu : list Z) : list Z :=
  [128 + 16 * si + 64 * p + sn / 256; sn mod 256; so / 256; so mod 256] ++ sdu.

Lemma pdu_ok_closed buf h :
  bytes_ok buf -> rlc_am_read_data_pdu_header buf size12bits rlc_am_pdu_header_init = Some (true, h) ->
  h_so h + (rd_length buf - get_packed_size h) <= 65535 -> am_pdu_ok size12bits buf.
Proof. intros Hb Hr Hl. split; [done|]. intros h' Hr' _. rewrite Hr in Hr'. by injection Hr' as <-. Qed.

Definition am_example_inputs : list am_input :=
  [AmPdu true 8 (pdu_other 3 0 0 1 [5; 6]); AmPdu true 8 (pdu_full 1 3 [1; 2]); AmReassemblyExpiry; AmGetStatus true;
   AmProhibitTask; AmProhibitExpiry].

Lemma am_example_inputs_ok : Forall (am_input_ok size12bits) am_example_inputs.
Proof.
  assert (Hb : forall b, 0 <= b < 256 -> is_byte b) by done.
  repeat constructor; try done; try (vm_compute; congruence).
  - intros h Hr. vm_compute in Hr. injection Hr as <-. vm_compute. congruence.
  - intros h Hr. vm_compute in Hr. by injection Hr as <-.
Qed.

Lemma am_rx_robust_witness :
  exists e ev, am_run am_rx_12bit am_example_inputs = Some (e, ev) /\
    am_rx_mod_base e (rx_highest_status (st e)) <= am_rx_mod_base e (rx_next_highest (st e)) <= am_window_size e.
Proof.
  destruct (am_rx_robust size12bits 10 None (window_new 2048 64 4) am_rx_12bit am_example_inputs am_rx_12bit_new
    (proj1 am_window_empty) (proj2 am_window_empty) am_example_inputs_ok) as (e & ev & E & H1 & _).
  exists e, ev. split; [exact E|exact H1].
Defined.

Definition am_after (l : list am_input) : rlc_rx_am_entity win :=
  match am_run am_rx_12bit l with Some (e, _) => e | None => am_rx_12bit end.

Lemma am_after_ok l : Forall (am_input_ok size12bits) l ->
  am_inv (am_after l) /\ am_status_ok (am_after l) /\ ar_sn_size (am_after l) = size12bits.
Proof.
  intros Hl. destruct (am_new_inv size12bits 10 None (window_new 2048 64 4) am_rx_12bit am_rx_12bit_new (proj1 am_window_empty)
    (proj2 am_window_empty)) as (Hinv & Hst & Hs).
  destruct (am_run_inv l am_rx_12bit Hinv Hst) as (e & ev & E & Hinv' & Hst' & Hs'); [by rewrite Hs|].
  unfold am_after. rewrite E. split; [done|]. split; [done|]. by rewrite Hs'.
Qed.

(** Byte 0 of SDU 0 is missing, and t-Reassembly is running. *)
Definition am_rx_gap : rlc_rx_am_entity win := am_after (take 1 am_example_inputs).
Lemma am_rx_gap_ok : am_inv am_rx_gap /\ am_status_ok am_rx_gap.
Proof.
  destruct (am_after_ok (take 1 am_example_inputs)) as (? & ? & _); [|by split]. apply Forall_take, am_example_inputs_ok.
Qed.

Lemma am_expiry_exact_witness :
  exists e' ev, am_step am_rx_gap AmReassemblyExpiry = Some (e', ev) /\ am_inv e' /\ do_status (status e') = true.
Proof.
  destruct (am_expiry_exact am_rx_gap (proj1 am_rx_gap_ok) (proj2 am_rx_gap_ok)) as (e' & ev & E & Hinv & _ & _ & _ & _ & Hd & _);
    [vm_compute; reflexivity|].
  exists e', ev. split; [exact E|]. split; [exact Hinv|exact Hd].
Defined.

Definition am_rx_expired : rlc_rx_am_entity win := am_after (take 3 am_example_inputs).

Lemma status_report_exact_witness :
  exists e', refresh_status_report am_rx_expired = Some e' /\
    ack_sn (status_for_exchange (status e')) = 1 /\
    forall sn p, 0 <= p <= 65535 ->
       reported (nacks_missing 4096 (nacks (status_for_exchange (status e')))) sn p <->
       0 <= sn < 4096 /\ am_rx_mod_base am_rx_expired sn < am_rx_mod_base am_rx_expired 1 /\
       missing (am_rx_window am_rx_expired) sn p.
Proof.
  assert (Hok : am_inv am_rx_expired /\ am_status_ok am_rx_expired).
  { destruct (am_after_ok (take 3 am_example_inputs)) as (? & ? & _); [|by split]. apply Forall_take, am_example_inputs_ok. }
  destruct (status_report_exact am_rx_expired (proj1 Hok) (proj2 Hok)) as (e' & E & _ & _ & Ha & _ & Hr & _).
  assert (Es : status_stop_sn am_rx_expired = 1) by (vm_compute; reflexivity).
  rewrite Es in Ha. exists e'. split; [exact E|]. split; [exact Ha|]. rewrite Ha in Hr. exact Hr.
Defined.

(** The first two bytes of SDU 0 have arrived. *)
Definition am_example_sdu (q : Z) : list Z := if q =? 0 then [4; 5; 6] else [1; 2].
Definition am_rx_first : rlc_rx_am_entity win := am_after [AmPdu true 8 (pdu_first 0 0 [4; 5])].

Lemma am_example_sdu_length q : 1 <= rd_length (am_example_sdu q) <= 65535.
Proof. unfold am_example_sdu. destruct (q =? 0); vm_compute; split; congruence. Qed.

Lemma am_rx_first_ok : am_inv am_rx_first /\ am_status_ok am_rx_first /\
  am_all (am_info_ok am_example_sdu) (am_mod am_rx_first) (am_rx_window am_rx_first).
Proof.
  destruct (am_new_inv size12bits 10 None (window_new 2048 64 4) am_rx_12bit am_rx_12bit_new (proj1 am_window_empty)
    (proj2 am_window_empty)) as (Hinv & Hst & Hs).
  assert (Hb : bytes_ok (pdu_first 0 0 [4; 5])) by (repeat constructor; vm_compute; congruence).
  destruct (am_handle_pdu_spec (am_info_ok am_example_sdu) true 8 (pdu_first 0 0 [4; 5]) am_rx_12bit Hinv Hst Hb)
    as (e' & ev & E & Hinv' & Hst' & Hall & Hs' & _).
  - intros q i _ Hi. by rewrite (proj2 am_window_empty) in Hi.
  - apply am_closed_ok; [apply am_example_sdu_length|done|]. intros h Hr. vm_compute in Hr. injection Hr as <-.
    repeat split; vm_compute; congruence.
  - assert (Ee : am_rx_first = e') by (unfold am_rx_first, am_after; cbn [am_run am_step]; by rewrite E).
    rewrite Ee. split; [done|]. split; [done|]. unfold am_mod in *. by rewrite Hs'.
Qed.

Lemma am_delivery_correct_witness :
  (exists e' ev, am_handle_pdu true 8 (pdu_other 2 0 0 2 [6]) am_rx_first = Some (e', ev) /\ am_inv e' /\ delivered ev = [[4; 5; 6]]) /\
  (exists e' ev, am_handle_pdu true 8 (pdu_full 0 1 [1; 2]) am_rx_first = Some (e', ev) /\ am_inv e' /\ delivered ev = [[1; 2]]).
Proof.
  destruct am_rx_first_ok as (Hinv & Hst & Hall). split.
  - destruct (am_delivery_correct am_example_sdu true 8 (pdu_other 2 0 0 2 [6]) am_rx_first Hinv Hst)
      as (e' & ev & E & Hinv' & _ & _ & _ & _ & Hd).
    + repeat constructor; vm_compute; congruence.
    + exact am_example_sdu_length.
    + exact Hall.
    + intros h Hr. vm_compute in Hr. injection Hr as <-. repeat split; vm_compute; congruence.
    + exists e', ev. split; [exact E|]. split; [exact Hinv'|].
      refine (proj1 (Hd (AmHdr dc_data 0 last_segment size12bits 0 2) _ _) _ eq_refl _).
      * repeat split; vm_compute; congruence.
      * eexists. vm_compute; reflexivity.
      * right. intros p Hp. change (rd_length _) with 3 in Hp. destruct (decide (p < 2)).
        -- left. change (covered [Seg first_segment 0 [4; 5]] p). apply covered_cons. left. unfold in_seg, sg_end. change (0 <= p < 2). lia.
        -- right. unfold in_seg. change (2 <= p < 3). lia.
      * vm_compute. lia.
  - destruct (am_delivery_correct am_example_sdu true 8 (pdu_full 0 1 [1; 2]) am_rx_first Hinv Hst)
      as (e' & ev & E & Hinv' & _ & _ & _ & _ & Hd).
    + repeat constructor; vm_compute; congruence.
    + exact am_example_sdu_length.
    + exact Hall.
    + intros h Hr. vm_compute in Hr. injection Hr as <-. repeat split; vm_compute; congruence.
    + exists e', ev. split; [exact E|]. split; [exact Hinv'|].
      refine (proj1 (Hd (AmHdr dc_data 0 full_sdu size12bits 1 0) _ _) (or_introl eq_refl) eq_refl _).
      * repeat split; vm_compute; congruence.
      * eexists. vm_compute; reflexivity.
      * vm_compute. lia.
Defined.

Lemma status_prohibit_never_expires_witness :
  exists e2 ev, am_run (get_status_pdu false am_rx_gap).2 (drop 1 (take 3 am_example_inputs)) = Some (e2, ev) /\
    status_report_required e2 = false.
Proof.
  refine (status_prohibit_never_expires am_rx_gap _ (get_status_pdu false am_rx_gap).1 (get_status_pdu false am_rx_gap).2
    (proj1 am_rx_gap_ok) (proj2 am_rx_gap_ok) _ _ _ _ _ _);
    [vm_compute; reflexivity|vm_compute; reflexivity|vm_compute; reflexivity|by destruct (get_status_pdu _ _)| |].
  - apply Forall_drop, Forall_take, am_example_inputs_ok.
  - repeat constructor.
Defined.

(** A peer can make an assertion of the receiver fail. When a new segment overlaps a stored one that reaches beyond offset
    65535, [store_segment] stores the remainder at an offset that wrapped to 16 bits, in the midst of other segments and
    unchecked against them; the next status report then finds a segment that starts below the end of the previous one, and
    its assertion [nack.so_start <= nack.so_end] fails. Three segments of SN 0, an SDU with SN 1 and the expiry of
    t-Reassembly are enough. *)
Theorem am_segment_offset_wraps :
  let z n := repeat 0 n in
  let l := AmPdu true 8 <$> [pdu_first 0 0 (z 100%nat); pdu_other 3 0 0 65530 (z 10%nat); pdu_other 3 0 0 65535 (z 10%nat); pdu_full 0 1 (z 3%nat)] in
  (exists e ev, am_run am_rx_12bit l = Some (e, ev) /\ am_reassembly_timer e = true /\
     (am_segments <$> win_lookup (am_rx_window e) 0) =
       Some [Seg first_segment 0 (z 100%nat); Seg middle_segment 4 (z 5%nat); Seg middle_segment 65530 (z 10%nat)]) /\
  am_run am_rx_12bit (l ++ [AmReassemblyExpiry]) = None.
Proof. split; [eexists _, _; split; [vm_compute; reflexivity|split; vm_compute; reflexivity]|vm_compute; reflexivity]. Qed.
End concrete.
