(* ===== verification/BitCodec.v ===== *)
(** * Bit-wise encoding ([support/bit_encoding.h] and [.cpp])

    [bit_encoder] appends bit fields, most significant bit first, to a byte buffer, [bit_decoder] reads them back. The
    encoder's buffer may run out of memory: [enc_room] is the number of bytes that can still be appended. *)
From S2P Require Import Prelude.

(** ** The encoder *)
Record bit_encoder := Enc { enc_bytes : list Z; enc_offset : Z; enc_room : nat }.

Definition bit_encoder_new (room : nat) : bit_encoder := Enc [] 0 room.

(** [writer.append(0U)] *)
Definition enc_append_byte (b : Z) (e : bit_encoder) : bool * bit_encoder :=
  match enc_room e with
  | O => (false, e)
  | S room => (true, Enc (enc_bytes e ++ [b]) (enc_offset e) room)
  end.

(** [writer.append(bytes)]: all or as many as there is room for *)
Fixpoint enc_append_bytes (bs : list Z) (e : bit_encoder) : bool * bit_encoder :=
  match bs with
  | [] => (true, e)
  | b :: bs => let '(ok, e) := enc_append_byte b e in if ok then enc_append_bytes bs e else (false, e)
  end.

(** [writer.back() += v] *)
Definition enc_back_add (v : Z) (e : bit_encoder) : bit_encoder :=
  Enc (removelast (enc_bytes e) ++ [u8 (List.last (enc_bytes e) 0 + u8 v)]) (enc_offset e) (enc_room e).

Definition enc_set_offset (o : Z) (e : bit_encoder) : bit_encoder := Enc (enc_bytes e) o (enc_room e).

(** The loop of [pack] *)
Fixpoint pack_loop (fuel : nat) (val n_bits : Z) (e : bit_encoder) : option (bool * bit_encoder) :=
  if 0 <? n_bits then
    match fuel with
    | O => None
    | S fuel =>
        let '(ok, e) := if enc_offset e =? 0 then enc_append_byte 0 e else (true, e) in
        if negb ok then Some (false, e) else
        let val := if n_bits <? 64 then Z.land val (Z.shiftl 1 n_bits - 1) else val in
        if n_bits <? 8 - enc_offset e then
          let e := enc_back_add (Z.shiftl val (8 - enc_offset e - n_bits)) e in
          pack_loop fuel val 0 (enc_set_offset (enc_offset e + n_bits) e)
        else
          let e := enc_back_add (Z.shiftr val (n_bits - 8 + enc_offset e)) e in
          pack_loop fuel val (n_bits - (8 - enc_offset e)) (enc_set_offset 0 e)
    end
  else Some (true, e).

(** [bit_encoder::pack]; every round consumes at least a bit *)
Definition bit_pack (val n_bits : Z) (e : bit_encoder) : option (bool * bit_encoder) :=
  if 64 <? n_bits then None else pack_loop (Z.to_nat n_bits) val n_bits e.

(** [std::all_of] with [pack(byte, 8U)] *)
Fixpoint pack_each (bs : list Z) (e : bit_encoder) : option (bool * bit_encoder) :=
  match bs with
  | [] => Some (true, e)
  | b :: bs => '(ok, e) ← bit_pack b 8 e; if (ok : bool) then pack_each bs e else Some (false, e)
  end.

(** [bit_encoder::pack_bytes] *)
Definition pack_bytes (bs : list Z) (e : bit_encoder) : option (bool * bit_encoder) :=
  match bs with
  | [] => Some (true, e)
  | _ => if enc_offset e =? 0 then Some (enc_append_bytes bs e) else pack_each bs e
  end.

(** [align_bytes_zero], [nof_bytes] and [nof_bits] *)
Definition align_bytes_zero (e : bit_encoder) : bit_encoder := enc_set_offset 0 e.
Definition enc_nof_bytes (e : bit_encoder) : Z := Z.of_nat (length (enc_bytes e)).
Definition enc_nof_bits (e : bit_encoder) : Z :=
  8 * (enc_nof_bytes e - (if enc_offset e =? 0 then 0 else 1)) + enc_offset e.

(** ** The decoder: the bytes from the iterator on, and the offset into the first of them *)
Record bit_decoder := Dec { dec_rest : list Z; dec_offset : Z }.

Definition bit_decoder_new (buf : list Z) : bit_decoder := Dec buf 0.

(** The loop of [unpack], with its accumulator *)
Fixpoint unpack_loop (fuel : nat) (acc n_bits : Z) (d : bit_decoder) : option (bool * Z * bit_decoder) :=
  if 0 <? n_bits then
    match fuel with
    | O => None
    | S fuel =>
        match dec_rest d with
        | [] => Some (false, acc, d)
        | b :: rest =>
            let o := dec_offset d in
            if n_bits <? 8 - o then
              let mask := u8 (u8 (Z.shiftl 1 (8 - o)) - u8 (Z.shiftl 1 (8 - o - n_bits))) in
              unpack_loop fuel (u64 (acc + Z.shiftr (Z.land b mask) (8 - o - n_bits))) 0 (Dec (b :: rest) (o + n_bits))
            else
              let mask := u8 (Z.shiftl 1 (8 - o) - 1) in
              unpack_loop fuel (u64 (acc + u64 (Z.shiftl (Z.land b mask) (n_bits - 8 + o)))) (n_bits - (8 - o)) (Dec rest 0)
        end
    end
  else Some (true, acc, d).

(** [bit_decoder::unpack] into an integer of [width] bits: the flag, the value and the decoder *)
Definition bit_unpack (width n_bits : Z) (d : bit_decoder) : option (bool * Z * bit_decoder) :=
  if width <? n_bits then None else
  '(ok, acc, d) ← unpack_loop (Z.to_nat n_bits) 0 n_bits d;
  Some (ok, uint width acc, d).

(** [advance_bits] *)
Definition advance_bits (n_bits : Z) (d : bit_decoder) : bool * bit_decoder :=
  let total := dec_offset d + n_bits in
  if Z.of_nat (length (dec_rest d)) <? (total + 7) / 8 then (false, d)
  else (true, Dec (drop (Z.to_nat (total / 8)) (dec_rest d)) (total mod 8)).

(** [align_bytes]: skipping a partly read byte at the end of the buffer is the failed sanity check *)
Definition align_bytes (d : bit_decoder) : option bit_decoder :=
  if negb (dec_offset d =? 0) then
    match dec_rest d with [] => None | _ :: rest => Some (Dec rest 0) end
  else Some d.

(** [unpack_aligned_bytes] *)
Definition unpack_aligned_bytes (n_bytes : Z) (d : bit_decoder) : option (list Z * bit_decoder) :=
  d ← align_bytes d;
  if n_bytes =? 0 then Some ([], d) else
  if Z.of_nat (length (dec_rest d)) <? n_bytes then Some ([], d) else
  Some (take (Z.to_nat n_bytes) (dec_rest d), Dec (drop (Z.to_nat n_bytes) (dec_rest d)) (dec_offset d)).

Fixpoint unpack_each (n : nat) (d : bit_decoder) : option (bool * list Z * bit_decoder) :=
  match n with
  | O => Some (true, [], d)
  | S n =>
      '(ok, b, d) ← bit_unpack 8 8 d;
      if negb (ok : bool) then Some (false, [b], d) else
      '(ok, bs, d) ← unpack_each n d;
      Some (ok, b :: bs, d)
  end.

(** [unpack_bytes] for a span of [n] bytes: the flag and the bytes that were written *)
Definition unpack_bytes (n : nat) (d : bit_decoder) : option (bool * list Z * bit_decoder) :=
  if (n =? 0)%nat then Some (true, [], d) else
  if (length (dec_rest d) <? n)%nat then Some (false, [], d) else
  if dec_offset d =? 0 then Some (true, take n (dec_rest d), Dec (drop n (dec_rest d)) 0)
  else unpack_each n d.

(** ** The value of a buffer *)

(** Big-endian value of a list of bytes. *)
Definition be_val (bs : list Z) : Z := foldl (fun a b => 256 * a + b) 0 bs.

Lemma foldl_be a bs : foldl (fun a b => 256 * a + b) a bs = a * 2 ^ (8 * Z.of_nat (length bs)) + be_val bs.
Proof.
  unfold be_val. revert a. induction bs as [|b bs IH]; intros a; cbn [foldl length]; [lia|].
  rewrite IH, (IH (256 * 0 + b)). rewrite Nat2Z.inj_succ, Z.mul_succ_r, Z.pow_add_r by lia. lia.
Qed.

Lemma be_val_snoc bs b : be_val (bs ++ [b]) = 256 * be_val bs + b.
Proof. unfold be_val. by rewrite foldl_app. Qed.

Lemma be_val_cons b bs : be_val (b :: bs) = b * 2 ^ (8 * Z.of_nat (length bs)) + be_val bs.
Proof. unfold be_val at 1. cbn [foldl]. by rewrite foldl_be. Qed.

Lemma be_val_range bs : bytes_ok bs -> 0 <= be_val bs < 2 ^ (8 * Z.of_nat (length bs)).
Proof.
  intros Hb. induction bs as [|b bs IH]; [done|]. apply Forall_cons in Hb as [Hb0 Hb]. specialize (IH Hb).
  rewrite be_val_cons. unfold is_byte in Hb0. cbn [length]. rewrite Nat2Z.inj_succ, Z.mul_succ_r, Z.pow_add_r by lia.
  change (2 ^ 8) with 256. nia.
Qed.

(** What the encoder holds: whole bytes, and in the last one the bits below the offset are still zero. *)
Definition enc_pad (e : bit_encoder) : Z := (8 - enc_offset e) mod 8.
Definition enc_ok (e : bit_encoder) : Prop :=
  bytes_ok (enc_bytes e) /\ 0 <= enc_offset e < 8 /\ be_val (enc_bytes e) mod 2 ^ enc_pad e = 0 /\
  (enc_offset e <> 0 -> enc_bytes e <> []).

(** The packed bits as a number. *)
Definition enc_val (e : bit_encoder) : Z := be_val (enc_bytes e) / 2 ^ enc_pad e.

(** The bytes [pack] needs. *)
Definition bytes_needed (e : bit_encoder) (n : Z) : Z := (enc_nof_bits e + n + 7) / 8 - enc_nof_bytes e.

(** The bits that are left in the decoder, and how many. *)
Definition dec_bits (d : bit_decoder) : Z := 8 * Z.of_nat (length (dec_rest d)) - dec_offset d.
Definition dec_val (d : bit_decoder) : Z := be_val (dec_rest d) mod 2 ^ dec_bits d.
Definition dec_ok (d : bit_decoder) : Prop :=
  bytes_ok (dec_rest d) /\ 0 <= dec_offset d < 8 /\ (dec_offset d <> 0 -> dec_rest d <> []).

(** ** Packing *)
Ltac cases_1_8 f :=
  let H := fresh in assert (H : f = 1 \/ f = 2 \/ f = 3 \/ f = 4 \/ f = 5 \/ f = 6 \/ f = 7 \/ f = 8) by lia;
  destruct H as [H|[H|[H|[H|[H|[H|[H|H]]]]]]]; rewrite ?H in *; clear H.

(** A byte with [f] free low bits takes a value below [2^f]. *)
Lemma fill_byte f b x :
  1 <= f <= 8 -> is_byte b -> b mod 2 ^ f = 0 -> 0 <= x < 2 ^ f -> u8 (b + u8 x) = b + x /\ is_byte (b + x).
Proof. intros Hf Hb Hm Hx. unfold is_byte in *. rewrite !u8_eq. cases_1_8 f; norm_pow; cbn in Hm, Hx; lia. Qed.

Lemma mask_val val n : 0 <= n <= 64 -> 0 <= val < 2 ^ 64 ->
  (if n <? 64 then Z.land val (Z.shiftl 1 n - 1) else val) = val mod 2 ^ n.
Proof.
  intros Hn Hv. destruct (Z.ltb_spec n 64).
  - rewrite Z.shiftl_mul_pow2, Z.mul_1_l by lia. apply land_low; lia.
  - replace n with 64 by lia. by rewrite Z.mod_small.
Qed.

(** The byte the next bits go to: a new one, or the partly filled last one. *)
Lemma enc_open e :
  enc_ok e -> (enc_offset e = 0 -> (0 < enc_room e)%nat) ->
  exists e1 bs b, (if enc_offset e =? 0 then enc_append_byte 0 e else (true, e)) = (true, e1) /\
    enc_bytes e1 = bs ++ [b] /\ enc_offset e1 = enc_offset e /\ bytes_ok bs /\ is_byte b /\
    b mod 2 ^ (8 - enc_offset e) = 0 /\ 256 * be_val bs + b = enc_val e * 2 ^ (8 - enc_offset e) /\
    Z.of_nat (length bs) = (enc_nof_bits e - enc_offset e) / 8 /\
    Z.of_nat (enc_room e1) = Z.of_nat (enc_room e) - (if enc_offset e =? 0 then 1 else 0).
Proof.
  intros (Hb & Ho & Hm & Hne) Hroom. unfold enc_append_byte, enc_val, enc_pad, enc_nof_bits, enc_nof_bytes in *.
  destruct (Z.eqb_spec (enc_offset e) 0) as [E0|E0].
  - destruct (enc_room e) as [|room] eqn:Er; [specialize (Hroom E0); lia|].
    eexists _, (enc_bytes e), 0. split; [reflexivity|]. cbn. rewrite E0. cbn.
    split_and!; try done; try lia. rewrite Z.div_1_r. change (Z.pow_pos 2 8) with 256. lia.
  - destruct (exists_last (Hne E0)) as (bs & b & Eb). exists e, bs, b. split; [done|]. rewrite Eb in *.
    apply Forall_app in Hb as [Hb1 Hb2]. apply Forall_cons in Hb2 as [Hb2 _]. rewrite be_val_snoc in *.
    assert (Ep : (8 - enc_offset e) mod 8 = 8 - enc_offset e) by lia. rewrite Ep in *.
    rewrite length_app. cbn [length]. repeat (split; [done|]).
    assert (1 <= 8 - enc_offset e <= 8) by lia. set (f := 8 - enc_offset e) in *.
    assert (Hp : 0 < 2 ^ f) by (apply Z.pow_pos_nonneg; lia).
    split; [|split; [|split; [lia|]]].
    + assert (E256 : 256 = 2 ^ (8 - f) * 2 ^ f) by (rewrite <- Z.pow_add_r by lia; by replace (8 - f + f) with 8 by lia).
      rewrite <- Hm. replace (256 * be_val bs + b) with (b + (2 ^ (8 - f) * be_val bs) * 2 ^ f) by (rewrite E256; ring).
      by rewrite Z_mod_plus_full.
    + pose proof (Z.div_mod (256 * be_val bs + b) (2 ^ f)). lia.
    + lia.
Qed.

Lemma removelast_snoc {A} (l : list A) x : removelast (l ++ [x]) = l.
Proof. apply removelast_last. Qed.

Lemma pack_loop_spec fuel : forall val n e,
  enc_ok e -> 0 <= n <= 64 -> 0 <= val < 2 ^ 64 -> n <= Z.of_nat fuel -> bytes_needed e n <= Z.of_nat (enc_room e) ->
  exists e', pack_loop fuel val n e = Some (true, e') /\ enc_ok e' /\ enc_val e' = enc_val e * 2 ^ n + val mod 2 ^ n /\
    enc_nof_bits e' = enc_nof_bits e + n /\
    Z.of_nat (enc_room e') = Z.of_nat (enc_room e) - bytes_needed e n.
Proof.
  assert (Hdone : forall fuel val e, enc_ok e -> exists e', pack_loop fuel val 0 e = Some (true, e') /\ enc_ok e' /\
    enc_val e' = enc_val e * 2 ^ 0 + val mod 2 ^ 0 /\ enc_nof_bits e' = enc_nof_bits e + 0 /\
    Z.of_nat (enc_room e') = Z.of_nat (enc_room e) - bytes_needed e 0).
  { intros fuel' val e He. exists e. split; [by destruct fuel'|]. split; [done|]. rewrite Z.mod_1_r.
    destruct He as (_ & ? & _ & _). unfold bytes_needed, enc_nof_bits. split; [lia|]. split; [lia|].
    destruct (Z.eqb_spec (enc_offset e) 0); lia. }
  induction fuel as [|fuel IH]; intros val n e He Hn Hval Hfuel Hroom.
  { replace n with 0 by lia. by apply Hdone. }
  destruct (Z.eqb_spec n 0) as [->|Hn0]; [by apply Hdone|].
  cbn [pack_loop]. rewrite (proj2 (Z.ltb_lt 0 n)) by lia.
  pose proof He as (Hb & Ho & Hm & Hne).
  assert (Hneed : bytes_needed e n = if enc_offset e =? 0 then (n + 7) / 8 else (enc_offset e + n + 7) / 8 - 1).
  { unfold bytes_needed, enc_nof_bits. destruct (Z.eqb_spec (enc_offset e) 0) as [->|]; lia. }
  destruct (enc_open e He) as (e1 & bs & b & -> & Eb & Eo & Hbs & Hbyte & Hbm & Hval1 & Hlen & Hr).
  { intros E0. rewrite E0 in *. cbn in Hneed. lia. }
  cbn [negb]. rewrite mask_val by done. rewrite Eo. set (o := enc_offset e) in *.
  assert (Hmod : 0 <= val mod 2 ^ n < 2 ^ n) by (apply Z.mod_pos_bound; lia).
  destruct (Z.ltb_spec n (8 - o)) as [Hlt|Hge].
  - set (x := Z.shiftl (val mod 2 ^ n) (8 - o - n)). change (enc_offset (enc_back_add x e1)) with (enc_offset e1). rewrite Eo.
    assert (Ex : x = (val mod 2 ^ n) * 2 ^ (8 - o - n)) by (unfold x; rewrite Z.shiftl_mul_pow2 by lia; done).
    assert (Epow : 2 ^ (8 - o) = 2 ^ n * 2 ^ (8 - o - n)) by (rewrite <- Z.pow_add_r by lia; f_equal; lia).
    assert (0 < 2 ^ (8 - o - n)) by lia.
    destruct (fill_byte (8 - o) b x) as [Ef Hf]; [lia|done|done|nia|].
    set (e2 := enc_set_offset (o + n) (enc_back_add x e1)).
    assert (Eb2 : enc_bytes e2 = bs ++ [b + x]).
    { unfold e2, enc_back_add. cbn. by rewrite Eb, removelast_snoc, last_last, Ef. }
    assert (Epad : enc_pad e2 = 8 - o - n) by (unfold enc_pad, e2; cbn; lia).
    assert (Hbe : be_val (enc_bytes e2) = (enc_val e * 2 ^ n + val mod 2 ^ n) * 2 ^ (8 - o - n)).
    { rewrite Eb2, be_val_snoc. rewrite Ex. nia. }
    assert (He2 : enc_ok e2).
    { unfold enc_ok. rewrite Hbe, Epad, Eb2. split; [apply Forall_app_2; [done|constructor; [done|constructor]]|].
      split; [unfold e2; cbn; lia|]. split; [apply Z.mod_mul; lia|by destruct bs]. }
    exists e2. split; [by destruct fuel|]. split; [done|].
    assert (Hbits : enc_nof_bits e2 = enc_nof_bits e + n).
    { unfold enc_nof_bits at 1, enc_nof_bytes. rewrite Eb2, length_app. cbn [length e2 enc_set_offset enc_offset].
      rewrite (proj2 (Z.eqb_neq (o + n) 0)) by lia. unfold enc_nof_bits, enc_nof_bytes in *. fold o. fold o in Hlen.
      destruct (Z.eqb_spec o 0); lia. }
    split; [unfold enc_val at 1; rewrite Hbe, Epad; apply Z.div_mul; lia|]. split; [done|].
    rewrite Hneed. change (enc_room e2) with (enc_room e1). rewrite Hr. destruct (Z.eqb_spec o 0); lia.
  - set (m := n - (8 - o)). set (x := Z.shiftr (val mod 2 ^ n) (n - 8 + o)).
    change (enc_offset (enc_back_add x e1)) with (enc_offset e1). rewrite Eo. fold m.
    assert (Ex : x = (val mod 2 ^ n) / 2 ^ m) by (unfold x, m; rewrite Z.shiftr_div_pow2 by lia; f_equal; f_equal; lia).
    assert (Epow : 2 ^ n = 2 ^ (8 - o) * 2 ^ m) by (rewrite <- Z.pow_add_r by lia; f_equal; lia).
    assert (Hm2 : 0 < 2 ^ m) by (apply Z.pow_pos_nonneg; lia).
    assert (Hx : 0 <= x < 2 ^ (8 - o)).
    { rewrite Ex. split; [apply Z.div_pos; lia|]. apply Z.div_lt_upper_bound; [lia|]. rewrite Z.mul_comm, <- Epow. lia. }
    destruct (fill_byte (8 - o) b x) as [Ef Hf]; [lia|done|done|done|].
    set (e2 := enc_set_offset 0 (enc_back_add x e1)).
    assert (Eb2 : enc_bytes e2 = bs ++ [b + x]).
    { unfold e2, enc_back_add. cbn. by rewrite Eb, removelast_snoc, last_last, Ef. }
    assert (Hbe : be_val (enc_bytes e2) = enc_val e * 2 ^ (8 - o) + x) by (rewrite Eb2, be_val_snoc; lia).
    assert (He2 : enc_ok e2).
    { unfold enc_ok. change (enc_pad e2) with 0. rewrite Eb2. split; [apply Forall_app_2; [done|constructor; [done|constructor]]|].
      split; [cbn; lia|]. split; [apply Z.mod_1_r|done]. }
    assert (Hv2 : enc_val e2 = enc_val e * 2 ^ (8 - o) + x).
    { unfold enc_val at 1. change (enc_pad e2) with 0. rewrite Z.div_1_r. done. }
    assert (Hbits : enc_nof_bits e2 = enc_nof_bits e + (8 - o)).
    { unfold enc_nof_bits at 1, enc_nof_bytes. rewrite Eb2, length_app. cbn [length e2 enc_set_offset enc_offset Z.eqb].
      unfold enc_nof_bits, enc_nof_bytes in *. fold o. fold o in Hlen. destruct (Z.eqb_spec o 0); lia. }
    assert (Hneed2 : bytes_needed e2 m = (m + 7) / 8).
    { unfold bytes_needed, enc_nof_bits. cbn [e2 enc_set_offset enc_offset Z.eqb]. lia. }
    change (enc_room e2) with (enc_room e1) in *.
    destruct (IH (val mod 2 ^ n) m e2) as (e' & -> & He' & Hv' & Hb' & Hr'); [done|lia|split; [lia|]|lia| |].
    + apply Z.lt_le_trans with (2 ^ n); [lia|]. apply Z.pow_le_mono_r; lia.
    + rewrite Hneed2. change (enc_room e2) with (enc_room e1). rewrite Hneed in Hroom. unfold m. destruct (Z.eqb_spec o 0); lia.
    + exists e'. split; [done|]. split; [done|]. split; [|split].
      * rewrite Hv', Hv2, Epow, Z.mul_add_distr_r, Z.mul_assoc, <- Z.add_assoc. f_equal.
        rewrite Ex, Epow. rewrite (Z.mul_comm _ (2 ^ m)). symmetry. apply Z.div_mod. lia.
      * lia.
      * rewrite Hr', Hneed2. change (enc_room e2) with (enc_room e1). rewrite Hneed. unfold m. destruct (Z.eqb_spec o 0); lia.
Qed.

(** ** Unpacking *)

Lemma pow2_pos k : 0 <= k -> 0 < 2 ^ k.
Proof. intros. apply Z.pow_pos_nonneg; lia. Qed.

(** The bits of [b] from an offset on, and among them the first [n]. *)
Lemma mask_low b o : 0 <= o < 8 -> Z.land b (u8 (Z.shiftl 1 (8 - o) - 1)) = b mod 2 ^ (8 - o).
Proof.
  intros Ho. apply land_low; [lia|]. rewrite Z.shiftl_mul_pow2, Z.mul_1_l by lia. rewrite u8_eq.
  apply Z.mod_small. pose proof (pow2_pos (8 - o) ltac:(lia)). pose proof (Z.pow_le_mono_r 2 (8 - o) 8). lia.
Qed.

Lemma mask_high b o n :
  0 <= o < 8 -> 0 < n < 8 - o ->
  Z.shiftr (Z.land b (u8 (u8 (Z.shiftl 1 (8 - o)) - u8 (Z.shiftl 1 (8 - o - n))))) (8 - o - n)
  = b mod 2 ^ (8 - o) / 2 ^ (8 - o - n).
Proof.
  intros Ho Hn. set (k := 8 - o - n). assert (Hk : 0 < k) by lia.
  assert (Epow : 2 ^ (8 - o) = 2 ^ k * 2 ^ n) by (rewrite <- Z.pow_add_r by lia; f_equal; lia).
  pose proof (pow2_pos k ltac:(lia)) as Hpk. pose proof (pow2_pos n ltac:(lia)) as Hpn.
  rewrite (land_field k n); [|lia|lia|].
  - rewrite Z.shiftr_div_pow2, Z.mul_comm, Z.div_mul, Epow, Z.rem_mul_r by lia.
    rewrite Z.add_comm, Z.mul_comm, Z.div_add_l by lia. rewrite (Z.div_small (b mod 2 ^ k)); [lia|]. by apply Z.mod_pos_bound.
  - rewrite !Z.shiftl_mul_pow2, !Z.mul_1_l by lia. rewrite !u8_eq.
    assert (2 ^ (8 - o) <= 2 ^ 8) by (apply Z.pow_le_mono_r; lia). change (2 ^ 8) with 256 in *.
    assert (2 * 1 <= 2 ^ n) by (replace n with (1 + (n - 1)) by lia; rewrite Z.pow_add_r by lia; pose proof (pow2_pos (n - 1)); lia).
    assert (2 ^ k < 2 ^ (8 - o)) by nia. rewrite (Z.mod_small (2 ^ k)) by lia.
    replace (2 ^ k * (2 ^ n - 1)) with (2 ^ (8 - o) - 2 ^ k) by lia.
    destruct (Z.eqb_spec (2 ^ (8 - o)) 256) as [->|]; [|rewrite (Z.mod_small (2 ^ (8 - o))) by lia; apply Z.mod_small; lia].
    rewrite Z.mod_same by done. lia.
Qed.

Lemma split_low h l v k :
  0 <= k -> 0 <= l -> 0 <= v < 2 ^ l -> (h * 2 ^ l + v) / 2 ^ (l + k) = h / 2 ^ k /\
  (h * 2 ^ l + v) mod 2 ^ (l + k) = (h mod 2 ^ k) * 2 ^ l + v.
Proof.
  intros Hk Hl Hv. rewrite Z.pow_add_r by lia. pose proof (pow2_pos l Hl). pose proof (pow2_pos k Hk).
  rewrite <- Z.div_div, Z.rem_mul_r by lia. rewrite !(Z.add_comm (h * 2 ^ l) v), Z.mod_add, Z.div_add by lia.
  rewrite (Z.div_small v), (Z.mod_small v), !Z.add_0_l by lia. split; [done|lia].
Qed.

(** The value of a decoder that is inside a byte. *)
Lemma dec_val_cons b rest o :
  bytes_ok rest -> 0 <= o < 8 ->
  dec_val (Dec (b :: rest) o) = (b mod 2 ^ (8 - o)) * 2 ^ (8 * Z.of_nat (length rest)) + be_val rest.
Proof.
  intros Hb Ho. unfold dec_val, dec_bits. cbn [dec_rest dec_offset length]. rewrite be_val_cons.
  set (l := 8 * Z.of_nat (length rest)). pose proof (be_val_range rest Hb) as Hr. fold l in Hr.
  replace (8 * Z.of_nat (S (length rest)) - o) with (l + (8 - o)) by lia.
  by apply split_low; lia.
Qed.

Lemma split_high h l v m :
  0 <= m <= l -> 0 <= v -> (h * 2 ^ l + v) / 2 ^ (l - m) = h * 2 ^ m + v / 2 ^ (l - m) /\
  (h * 2 ^ l + v) mod 2 ^ (l - m) = v mod 2 ^ (l - m).
Proof.
  intros Hm Hv. pose proof (pow2_pos (l - m) ltac:(lia)).
  replace (h * 2 ^ l) with (h * 2 ^ m * 2 ^ (l - m)) by (rewrite <- Z.mul_assoc, <- Z.pow_add_r by lia; f_equal; f_equal; lia).
  rewrite Z.div_add_l by lia. split; [done|]. rewrite Z.add_comm. by rewrite Z.mod_add by lia.
Qed.

Lemma unpack_loop_spec fuel : forall acc n d,
  dec_ok d -> 0 <= n <= 64 -> n <= Z.of_nat fuel -> n <= dec_bits d -> 0 <= acc <= 2 ^ 64 - 2 ^ n ->
  exists d', unpack_loop fuel acc n d = Some (true, acc + dec_val d / 2 ^ (dec_bits d - n), d') /\ dec_ok d' /\
    dec_bits d' = dec_bits d - n /\ dec_val d' = dec_val d mod 2 ^ (dec_bits d - n).
Proof.
  assert (Hdone : forall fuel acc d, dec_ok d -> exists d',
    unpack_loop fuel acc 0 d = Some (true, acc + dec_val d / 2 ^ (dec_bits d - 0), d') /\ dec_ok d' /\
    dec_bits d' = dec_bits d - 0 /\ dec_val d' = dec_val d mod 2 ^ (dec_bits d - 0)).
  { intros fuel' acc d Hd. exists d. rewrite Z.sub_0_r.
    assert (0 <= dec_bits d).
    { destruct Hd as (_ & ? & Hne). unfold dec_bits. destruct (dec_rest d); cbn [length]; [|lia].
      destruct (Z.eqb_spec (dec_offset d) 0); [lia|]. by destruct Hne. }
    assert (0 <= dec_val d < 2 ^ dec_bits d) by (apply Z.mod_pos_bound, pow2_pos; lia).
    rewrite Z.div_small, Z.mod_small, Z.add_0_r by lia. by destruct fuel'. }
  induction fuel as [|fuel IH]; intros acc n d Hd Hn Hfuel Hbits Hacc.
  { replace n with 0 by lia. by apply Hdone. }
  destruct (Z.eqb_spec n 0) as [->|Hn0]; [by apply Hdone|].
  cbn [unpack_loop]. rewrite (proj2 (Z.ltb_lt 0 n)) by lia.
  destruct d as [bytes o]. destruct Hd as (Hb & Ho & Hne). cbn [dec_rest dec_offset] in *.
  destruct bytes as [|b rest]; [unfold dec_bits in Hbits; cbn in Hbits; lia|].
  apply Forall_cons in Hb as [Hb0 Hb]. set (l := 8 * Z.of_nat (length rest)).
  assert (Ebits : dec_bits (Dec (b :: rest) o) = l + (8 - o)) by (unfold dec_bits; cbn [dec_rest dec_offset length]; lia).
  rewrite Ebits in *. rewrite dec_val_cons by done. fold l. set (h := b mod 2 ^ (8 - o)).
  pose proof (be_val_range rest Hb) as Hv. fold l in Hv.
  assert (Hh : 0 <= h < 2 ^ (8 - o)) by (apply Z.mod_pos_bound, pow2_pos; lia).
  assert (Hpn : 0 < 2 ^ n) by (apply pow2_pos; lia).
  destruct (Z.ltb_spec n (8 - o)) as [Hlt|Hge].
  - rewrite mask_high by lia. fold h. set (k := 8 - o - n).
    replace (l + (8 - o) - n) with (l + k) by lia.
    destruct (split_low h l (be_val rest) k) as [-> ->]; [lia|lia|lia|].
    assert (Hpiece : 0 <= h / 2 ^ k < 2 ^ n).
    { assert (0 < 2 ^ k) by (apply pow2_pos; lia). split; [apply Z.div_pos; lia|]. apply Z.div_lt_upper_bound; [lia|].
      rewrite <- Z.pow_add_r by lia. replace (k + n) with (8 - o) by lia. lia. }
    unfold u64. rewrite uint_small by lia.
    exists (Dec (b :: rest) (o + n)). split; [by destruct fuel|]. split; [split; [by constructor|split; [cbn; lia|done]]|].
    split; [unfold dec_bits; cbn [dec_rest dec_offset length]; lia|].
    rewrite dec_val_cons by (done || lia). fold l. f_equal. f_equal. unfold h, k.
    rewrite (Z.mod_mod_divide b (2 ^ (8 - o)) (2 ^ (8 - o - n))); [f_equal; f_equal; lia|].
    exists (2 ^ n). rewrite <- Z.pow_add_r by lia. f_equal. lia.
  - set (m := n - (8 - o)). rewrite mask_low by done. fold h. replace (n - 8 + o) with m by lia.
    replace (l + (8 - o) - n) with (l - m) by lia.
    destruct (split_high h l (be_val rest) m) as [-> ->]; [lia|lia|].
    assert (Epow : 2 ^ n = 2 ^ (8 - o) * 2 ^ m) by (rewrite <- Z.pow_add_r by lia; f_equal; lia).
    assert (Hpm : 0 < 2 ^ m) by (apply pow2_pos; lia).
    assert (0 <= h * 2 ^ m <= 2 ^ n - 2 ^ m) by nia.
    rewrite Z.shiftl_mul_pow2 by lia. unfold u64. rewrite (uint_small 64 (h * 2 ^ m)), uint_small by lia.
    assert (Ed : dec_val (Dec rest 0) = be_val rest /\ dec_bits (Dec rest 0) = l).
    { unfold dec_val, dec_bits. cbn [dec_rest dec_offset]. rewrite Z.sub_0_r. fold l. by rewrite Z.mod_small. }
    destruct Ed as [Ed1 Ed2].
    destruct (IH (acc + h * 2 ^ m) m (Dec rest 0)) as (d' & -> & Hd' & Hb' & Hv'); [|lia|lia|lia|lia|].
    { split; [done|]. split; [cbn; lia|done]. }
    exists d'. rewrite Ed1, Ed2 in *. rewrite Z.add_assoc. done.
Qed.

Lemma bit_unpack_spec width n d :
  dec_ok d -> 0 <= n <= 64 -> n <= width -> n <= dec_bits d ->
  exists d', bit_unpack width n d = Some (true, dec_val d / 2 ^ (dec_bits d - n), d') /\ dec_ok d' /\
    dec_bits d' = dec_bits d - n /\ dec_val d' = dec_val d mod 2 ^ (dec_bits d - n).
Proof.
  intros Hd Hn Hw Hb. unfold bit_unpack. rewrite (proj2 (Z.ltb_ge _ _)) by done.
  destruct (unpack_loop_spec (Z.to_nat n) 0 n d) as (d' & -> & Hd' & Hb' & Hv'); [done|done|lia|done| |].
  { assert (2 ^ n <= 2 ^ 64) by (apply Z.pow_le_mono_r; lia). pose proof (pow2_pos n). lia. }
  exists d'. cbn [mbind option_bind]. split; [|done]. rewrite Z.add_0_l. repeat f_equal. apply uint_small.
  assert (0 <= dec_bits d - n) by lia. pose proof (pow2_pos _ H) as Hp.
  assert (0 <= dec_val d < 2 ^ dec_bits d) by (apply Z.mod_pos_bound, pow2_pos; lia).
  split; [apply Z.div_pos; lia|]. apply Z.div_lt_upper_bound; [lia|]. rewrite <- Z.pow_add_r by lia.
  apply Z.lt_le_trans with (2 ^ dec_bits d); [lia|]. apply Z.pow_le_mono_r; lia.
Qed.

Lemma unpack_loop_short fuel : forall acc n d,
  dec_ok d -> n <= Z.of_nat fuel -> dec_bits d < n ->
  exists acc' d', unpack_loop fuel acc n d = Some (false, acc', d') /\ dec_rest d' = [].
Proof.
  induction fuel as [|fuel IH]; intros acc n [bytes o] (Hb & Ho & Hne) Hfuel Hbits; cbn [dec_rest dec_offset] in *;
    (destruct bytes as [|b rest]; [destruct (Z.eqb_spec o 0); [|by destruct Hne]|]);
    unfold dec_bits in *; cbn [dec_rest dec_offset length] in *; try lia.
  - cbn [unpack_loop]. rewrite (proj2 (Z.ltb_lt 0 n)) by lia. cbn. eauto.
  - cbn [unpack_loop dec_rest dec_offset]. rewrite (proj2 (Z.ltb_lt 0 n)), (proj2 (Z.ltb_ge n (8 - o))) by lia.
    apply Forall_cons in Hb as [_ Hb].
    apply IH; [split; [done|split; [cbn; lia|done]]|lia|unfold dec_bits; cbn [dec_rest dec_offset]; lia].
Qed.

(** ** The theorems *)

(** Packing and unpacking a list of fields [(value, width)]. *)
Fixpoint pack_fields (fs : list (Z * Z)) (e : bit_encoder) : option (bool * bit_encoder) :=
  match fs with
  | [] => Some (true, e)
  | (v, n) :: fs => '(ok, e) ← bit_pack v n e; if (ok : bool) then pack_fields fs e else Some (false, e)
  end.

Fixpoint unpack_fields (ns : list Z) (d : bit_decoder) : option (list Z * bit_decoder) :=
  match ns with
  | [] => Some ([], d)
  | n :: ns =>
      '(ok, v, d) ← bit_unpack 64 n d;
      if negb (ok : bool) then None else
      '(vs, d) ← unpack_fields ns d;
      Some (v :: vs, d)
  end.

Definition field_ok (f : Z * Z) : Prop := 0 <= f.2 <= 64 /\ 0 <= f.1 < 2 ^ f.2.
Definition fields_bits (fs : list (Z * Z)) : Z := foldr (fun f n => f.2 + n) 0 fs.
Definition fields_val (fs : list (Z * Z)) : Z := foldl (fun a f => a * 2 ^ f.2 + f.1) 0 fs.

Lemma fields_bits_nonneg fs : Forall field_ok fs -> 0 <= fields_bits fs.
Proof.
  induction fs as [|[v n] fs IH]; intros Hf; [done|]. apply Forall_cons in Hf as [[Hn _] Hf]. specialize (IH Hf).
  unfold fields_bits in *. cbn in *. lia.
Qed.

Lemma foldl_fields a fs :
  Forall field_ok fs ->
  foldl (fun a f => a * 2 ^ f.2 + f.1) a fs = a * 2 ^ fields_bits fs + fields_val fs /\ 0 <= fields_val fs < 2 ^ fields_bits fs.
Proof.
  intros Hf. revert a. unfold fields_val. induction fs as [|[v n] fs IH]; intros a; [cbn; lia|].
  apply Forall_cons in Hf as [[Hn Hv] Hf]. pose proof (fields_bits_nonneg fs Hf) as Hb. cbn [fst snd] in *.
  cbn [foldl fst snd]. change (fields_bits ((v, n) :: fs)) with (n + fields_bits fs).
  destruct (IH Hf (a * 2 ^ n + v)) as [-> Hr]. destruct (IH Hf (0 * 2 ^ n + v)) as [-> _].
  rewrite Z.pow_add_r by lia. pose proof (pow2_pos n ltac:(lia)). split; [lia|nia].
Qed.

Lemma pack_fields_spec fs : forall e,
  Forall field_ok fs -> enc_ok e -> (enc_nof_bits e + fields_bits fs + 7) / 8 - enc_nof_bytes e <= Z.of_nat (enc_room e) ->
  exists e', pack_fields fs e = Some (true, e') /\ enc_ok e' /\
    enc_val e' = enc_val e * 2 ^ fields_bits fs + fields_val fs /\ enc_nof_bits e' = enc_nof_bits e + fields_bits fs.
Proof.
  induction fs as [|[v n] fs IH]; intros e Hf He Hroom.
  { exists e. cbn. split; [done|]. split; [done|]. split; [unfold fields_val; cbn; lia|lia]. }
  apply Forall_cons in Hf as [[Hn Hv] Hf]. cbn [fst snd] in *. pose proof (fields_bits_nonneg fs Hf) as Hb.
  change (fields_bits ((v, n) :: fs)) with (n + fields_bits fs) in *.
  assert (2 ^ n <= 2 ^ 64) by (apply Z.pow_le_mono_r; lia).
  cbn [pack_fields]. unfold bit_pack. rewrite (proj2 (Z.ltb_ge _ _)) by lia.
  destruct (pack_loop_spec (Z.to_nat n) v n e) as (e1 & -> & He1 & Hv1 & Hb1 & Hr1); [done|lia|lia|lia| |].
  { unfold bytes_needed. lia. }
  assert (Ebytes : forall e, enc_ok e -> enc_nof_bytes e = (enc_nof_bits e + 7) / 8).
  { intros x (_ & ? & _ & _). unfold enc_nof_bits. destruct (Z.eqb_spec (enc_offset x) 0); lia. }
  cbn [mbind option_bind]. destruct (IH e1 Hf He1) as (e' & -> & He' & Hv' & Hb').
  { unfold bytes_needed in Hr1. rewrite (Ebytes e1), Hb1 by done. rewrite (Ebytes e) in * by done. lia. }
  exists e'. split; [done|]. split; [done|]. split; [|lia].
  rewrite Hv', Hv1, (Z.mod_small v), Z.pow_add_r by lia. unfold fields_val at 2. cbn [foldl fst snd].
  destruct (foldl_fields (0 * 2 ^ n + v) fs Hf) as [-> _]. lia.
Qed.

(** The next bits of the decoder are the fields [fs], and [tail] more bits follow. *)
Definition reads (d : bit_decoder) (fs : list (Z * Z)) (tail : Z) : Prop :=
  dec_ok d /\ Forall field_ok fs /\ 0 <= tail /\ dec_bits d = fields_bits fs + tail /\ dec_val d / 2 ^ tail = fields_val fs.

Lemma unpack_reads width v n fs d tail :
  reads d ((v, n) :: fs) tail -> n <= width ->
  exists d', bit_unpack width n d = Some (true, v, d') /\ reads d' fs tail.
Proof.
  intros (Hd & Hf & Ht & Hb & Hv) Hw.
  apply Forall_cons in Hf as [[Hn Hvn] Hf]. cbn [fst snd] in *. pose proof (fields_bits_nonneg fs Hf) as Hnn.
  change (fields_bits ((v, n) :: fs)) with (n + fields_bits fs) in *.
  destruct (bit_unpack_spec width n d) as (d1 & E1 & Hd1 & Hb1 & Hv1); [done|lia|lia|lia|].
  unfold fields_val in Hv. cbn [foldl fst snd] in Hv.
  destruct (foldl_fields (0 * 2 ^ n + v) fs Hf) as [Ef Hfr]. rewrite Ef in Hv. clear Ef.
  replace (dec_bits d - n) with (fields_bits fs + tail) in * by lia.
  pose proof (pow2_pos tail Ht) as Hpt. pose proof (pow2_pos (fields_bits fs) Hnn) as Hpf.
  assert (Ev : dec_val d / 2 ^ (fields_bits fs + tail) = v).
  { rewrite Z.add_comm, Z.pow_add_r, <- Z.div_div by lia. rewrite Hv, Z.div_add_l, Z.div_small by lia. lia. }
  rewrite Ev in E1. exists d1. split; [done|]. split; [done|]. split; [done|]. split; [done|]. split; [done|].
  rewrite Hv1, Z.add_comm, Z.pow_add_r, Z.rem_mul_r by lia.
  rewrite (Z.add_comm (dec_val d mod _)), (Z.mul_comm (2 ^ tail)), Z.div_add_l by lia.
  rewrite (Z.div_small (dec_val d mod _)) by (apply Z.mod_pos_bound; lia).
  rewrite Hv, Z.add_0_r, Z.add_comm, Z.mod_add by lia. by apply Z.mod_small.
Qed.

Lemma unpack_fields_spec fs : forall d tail,
  reads d fs tail -> exists d', unpack_fields (map snd fs) d = Some (map fst fs, d').
Proof.
  induction fs as [|[v n] fs IH]; intros d tail Hr; [by exists d|].
  assert (Hn : n <= 64) by (destruct Hr as (_ & Hf & _); apply Forall_cons in Hf as [[? _] _]; cbn in *; lia).
  destruct (unpack_reads 64 v n fs d tail Hr Hn) as (d1 & E1 & Hr1).
  cbn [map unpack_fields fst snd]. rewrite E1. cbn [mbind option_bind negb].
  destruct (IH d1 tail Hr1) as (d' & ->). by exists d'.
Qed.

(** What was packed can be read. *)
Lemma packed_reads e fs more :
  enc_ok e -> Forall field_ok fs -> enc_val e = fields_val fs -> enc_nof_bits e = fields_bits fs -> bytes_ok more ->
  reads (bit_decoder_new (enc_bytes e ++ more)) fs (enc_pad e + 8 * Z.of_nat (length more)).
Proof.
  intros (Hbytes & Ho & Hm & Hne) Hf Hv Hb Hmore. set (l := 8 * Z.of_nat (length more)).
  assert (Hpad : 0 <= enc_pad e < 8) by (unfold enc_pad; lia).
  pose proof (be_val_range more Hmore) as Hr. fold l in Hr.
  assert (Hall : bytes_ok (enc_bytes e ++ more)) by by apply Forall_app_2.
  split; [split; [done|split; [cbn; lia|done]]|]. split; [done|]. split; [lia|]. split.
  - unfold dec_bits, enc_pad, enc_nof_bits, enc_nof_bytes in *. cbn [bit_decoder_new dec_rest dec_offset].
    rewrite length_app. destruct (Z.eqb_spec (enc_offset e) 0); lia.
  - unfold dec_val, dec_bits. cbn [bit_decoder_new dec_rest dec_offset]. rewrite Z.sub_0_r.
    rewrite Z.mod_small by (by apply be_val_range). unfold be_val at 1. rewrite foldl_app, foldl_be. fold (be_val (enc_bytes e)). fold l.
    assert (0 < 2 ^ l) by (apply pow2_pos; lia). assert (0 < 2 ^ enc_pad e) by (apply pow2_pos; lia).
    rewrite (Z.add_comm (enc_pad e)), Z.pow_add_r, <- Z.div_div by lia.
    rewrite Z.div_add_l, (Z.div_small (be_val more)), Z.add_0_r by lia. by rewrite <- Hv.
Qed.

(** Bit fields survive the round trip: packing any list of fields of up to 64 bits, each value fitting its width, into an
    encoder with enough room succeeds and takes exactly the sum of the widths (rounded up to whole bytes), and unpacking the
    bytes with the same widths gives back the values. *)
Theorem bit_fields_roundtrip fs room :
  Forall field_ok fs -> (fields_bits fs + 7) / 8 <= Z.of_nat room ->
  exists e, pack_fields fs (bit_encoder_new room) = Some (true, e) /\ enc_nof_bits e = fields_bits fs /\
    Z.of_nat (length (enc_bytes e)) = (fields_bits fs + 7) / 8 /\
    exists d, unpack_fields (map snd fs) (bit_decoder_new (enc_bytes e)) = Some (map fst fs, d).
Proof.
  intros Hf Hroom. pose proof (fields_bits_nonneg fs Hf) as Hnn.
  assert (He0 : enc_ok (bit_encoder_new room)) by (split; [constructor|]; split; [cbn; lia|]; done).
  destruct (pack_fields_spec fs (bit_encoder_new room) Hf He0) as (e & E & He & Hv & Hb).
  { change (enc_nof_bits (bit_encoder_new room)) with 0. change (enc_nof_bytes (bit_encoder_new room)) with 0. cbn [enc_room bit_encoder_new]. rewrite Z.add_0_l, Z.sub_0_r. done. }
  change (enc_val (bit_encoder_new room)) with 0 in Hv. change (enc_nof_bits (bit_encoder_new room)) with 0 in Hb.
  exists e. split; [done|]. split; [lia|]. destruct He as (Hbytes & Ho & Hm & Hne).
  assert (Hlen : Z.of_nat (length (enc_bytes e)) = (fields_bits fs + 7) / 8).
  { unfold enc_nof_bits, enc_nof_bytes in Hb. destruct (Z.eqb_spec (enc_offset e) 0); lia. }
  split; [done|]. apply (unpack_fields_spec fs _ (enc_pad e)). rewrite <- (app_nil_r (enc_bytes e)), <- (Z.add_0_r (enc_pad e)).
  apply (packed_reads e fs []); [done..|change (enc_val (bit_encoder_new room)) with 0 in Hv; lia|lia|constructor].
Qed.

(** C37. Unpacking any number of bits up to the width of the target from any decoder is safe: it reads the bits when they are
    there, and otherwise returns [false] after consuming the rest of the buffer. *)
Theorem bit_unpack_total width n d :
  dec_ok d -> 0 <= n <= width -> width <= 64 ->
  exists ok v d', bit_unpack width n d = Some (ok, v, d') /\
    (ok = true <-> n <= dec_bits d) /\ (ok = true -> v = dec_val d / 2 ^ (dec_bits d - n)) /\ (ok = false -> dec_rest d' = []).
Proof.
  intros Hd Hn Hw. destruct (Z.leb_spec n (dec_bits d)).
  - destruct (bit_unpack_spec width n d) as (d' & -> & _); [done|lia|lia|done|].
    eexists _, _, _. split; [reflexivity|]. done.
  - unfold bit_unpack. rewrite (proj2 (Z.ltb_ge _ _)) by lia.
    destruct (unpack_loop_short (Z.to_nat n) 0 n d) as (acc & d' & -> & Hr); [done|lia|lia|].
    eexists _, _, _. split; [reflexivity|]. split; [split; [done|lia]|done].
Qed.

Lemma bit_fields_roundtrip_witness :
  exists e, pack_fields [(1, 1); (5, 3); (200000, 18); (0, 0); (255, 8)] (bit_encoder_new 9) = Some (true, e) /\
    enc_nof_bits e = 30 /\ Z.of_nat (length (enc_bytes e)) = 4 /\
    exists d, unpack_fields [1; 3; 18; 0; 8] (bit_decoder_new (enc_bytes e)) = Some ([1; 5; 200000; 0; 255], d).
Proof.
  apply (bit_fields_roundtrip [(1, 1); (5, 3); (200000, 18); (0, 0); (255, 8)] 9); [|vm_compute; congruence].
  repeat constructor; vm_compute; congruence.
Defined.

Lemma bit_unpack_total_witness :
  exists ok v d', bit_unpack 32 12 (Dec [0x8a; 0xbc] 4) = Some (ok, v, d') /\
    (ok = true <-> 12 <= dec_bits (Dec [0x8a; 0xbc] 4)) /\
    (ok = true -> v = dec_val (Dec [0x8a; 0xbc] 4) / 2 ^ (dec_bits (Dec [0x8a; 0xbc] 4) - 12)) /\ (ok = false -> dec_rest d' = []).
Proof.
  apply (bit_unpack_total 32 12 (Dec [0x8a; 0xbc] 4)); [|lia|lia].
  split; [repeat constructor; vm_compute; congruence|]. split; [cbn; lia|done].
Defined.
