(* ===== verification/PdcpSn.v ===== *)
(** * The PDCP sequence number of an RLC SDU ([ran/pdcp/pdcp_sn_util.h] and [pdcp_sn_size.h])

    The transmitting RLC entities read the SN from the PDCP header of the SDUs they queue, so that PDCP can discard them. *)
From S2P Require Import Prelude BitCodec.

Inductive pdcp_sn_size := pdcp_size12bits | pdcp_size18bits | pdcp_size_invalid.
#[export] Instance pdcp_sn_size_eq_dec : EqDecision pdcp_sn_size. Proof. solve_decision. Defined.

(** [pdcp_sn_size_to_uint]: the assertion fails for [invalid] *)
Definition pdcp_sn_size_to_uint (s : pdcp_sn_size) : option Z :=
  match s with pdcp_size12bits => Some 12 | pdcp_size18bits => Some 18 | pdcp_size_invalid => None end.

(** [pdcp_compute_sn_mask] *)
Definition pdcp_compute_sn_mask (s : pdcp_sn_size) : option Z :=
  n ← pdcp_sn_size_to_uint s;
  Some (Z.shiftr 0xffffffff (32 - n)).

(** The reserved bits and the SN, and the checks that follow the switch over the SN length *)
Definition pdcp_sn_fields (reserved_bits sn_bits : Z) (read_ok : bool) (decoder : bit_decoder) : option (option Z) :=
  '(ok1, reserved, decoder) ← bit_unpack 8 reserved_bits decoder;
  '(ok2, pdcp_sn, decoder) ← bit_unpack 32 sn_bits decoder;
  if negb (read_ok && (ok1 : bool) && (ok2 : bool)) then Some None else
  if negb (reserved =? 0) then Some None else
  Some (Some pdcp_sn).

(** [get_pdcp_sn]: [None] is a failed assertion, [Some None] the empty optional. *)
Definition get_pdcp_sn (pdcp_pdu : list Z) (pdcp_sn_len : pdcp_sn_size) (is_srb : bool) : option (option Z) :=
  match pdcp_pdu with
  | [] => Some None
  | _ =>
      if is_srb && negb (bool_decide (pdcp_sn_len = pdcp_size12bits)) then Some None else
      '(read_ok, dc_field, decoder) ← bit_unpack 8 1 (bit_decoder_new pdcp_pdu);
      if negb (read_ok : bool) then Some None else
      if negb is_srb && (dc_field =? 0) then Some None else
      if is_srb && (dc_field =? 1) then Some None else
      match pdcp_sn_len with
      | pdcp_size12bits => pdcp_sn_fields 3 12 read_ok decoder
      | pdcp_size18bits => pdcp_sn_fields 5 18 read_ok decoder
      | pdcp_size_invalid => Some None
      end
  end.

(** ** Properties *)
Definition pdcp_sn_bits (s : pdcp_sn_size) : Z := match s with pdcp_size12bits => 12 | _ => 18 end.

(** The PDCP data PDU header of TS 38.323 section 6.2.2. *)
Definition pdcp_header_octets (s : pdcp_sn_size) (is_srb : bool) (sn : Z) : list Z :=
  let dc := if is_srb then 0 else 128 in
  match s with
  | pdcp_size12bits => [dc + sn / 256; sn mod 256]
  | _ => [dc + sn / 65536; (sn / 256) mod 256; sn mod 256]
  end.

Ltac eval_unpack := unfold bit_unpack, bit_decoder_new; cbn -[Z.land Z.shiftl Z.shiftr u8 u64 uint Z.add Z.sub].

(** The three unpacked fields of a header of [n] octets. *)
Lemma unpack_one b rest : bit_unpack 8 1 (Dec (b :: rest) 0) = Some (true, uint 8 (u64 (0 + Z.shiftr (Z.land b 128) 7)), Dec (b :: rest) 1).
Proof. reflexivity. Qed.

Lemma unpack_3_12 b0 b1 rest :
  bit_unpack 8 3 (Dec (b0 :: b1 :: rest) 1) = Some (true, uint 8 (u64 (0 + Z.shiftr (Z.land b0 112) 4)), Dec (b0 :: b1 :: rest) 4) /\
  bit_unpack 32 12 (Dec (b0 :: b1 :: rest) 4)
  = Some (true, uint 32 (u64 (u64 (0 + u64 (Z.shiftl (Z.land b0 15) 8)) + u64 (Z.shiftl (Z.land b1 255) 0))), Dec rest 0).
Proof. split; reflexivity. Qed.

Lemma unpack_5_18 b0 b1 b2 rest :
  bit_unpack 8 5 (Dec (b0 :: b1 :: b2 :: rest) 1)
  = Some (true, uint 8 (u64 (0 + Z.shiftr (Z.land b0 124) 2)), Dec (b0 :: b1 :: b2 :: rest) 6) /\
  bit_unpack 32 18 (Dec (b0 :: b1 :: b2 :: rest) 6)
  = Some (true, uint 32 (u64 (u64 (u64 (0 + u64 (Z.shiftl (Z.land b0 3) 16)) + u64 (Z.shiftl (Z.land b1 255) 8))
                         + u64 (Z.shiftl (Z.land b2 255) 0))), Dec rest 0).
Proof. split; reflexivity. Qed.

Lemma short_12 b0 : exists v d, bit_unpack 8 3 (Dec [b0] 1) = Some (true, uint 8 (u64 (0 + Z.shiftr (Z.land b0 112) 4)), Dec [b0] 4) /\
  bit_unpack 32 12 (Dec [b0] 4) = Some (false, v, d).
Proof. eexists _, _. split; reflexivity. Qed.

Lemma short_18 b0 t : (length t <= 1)%nat -> exists v d,
  bit_unpack 8 5 (Dec (b0 :: t) 1) = Some (true, uint 8 (u64 (0 + Z.shiftr (Z.land b0 124) 2)), Dec (b0 :: t) 6) /\
  bit_unpack 32 18 (Dec (b0 :: t) 6) = Some (false, v, d).
Proof. intros Ht. destruct t as [|b1 [|]]; cbn in Ht; [| |lia]; eexists _, _; split; reflexivity. Qed.

Ltac unpack_arith := unfold u64, uint; bit_arith; change (2 ^ 8) with 256; change (2 ^ 32) with 4294967296; change (2 ^ 64) with 18446744073709551616.

(** The two layouts, behind a D/C bit of value [dc]. *)
Lemma pdcp_sn_fields_12 dc b0 t :
  is_byte b0 -> bytes_ok t -> b0 / 128 = dc ->
  exists r, pdcp_sn_fields 3 12 true (Dec (b0 :: t) 1) = Some r /\
    forall sn, (r = Some sn <-> 0 <= sn < 4096 /\ exists payload, b0 :: t = [128 * dc + sn / 256; sn mod 256] ++ payload).
Proof.
  intros Hb0 Hb Hdc. unfold is_byte in Hb0. unfold pdcp_sn_fields. destruct t as [|b1 rest].
  { destruct (short_12 b0) as (v & d & -> & E). cbn [mbind option_bind]. rewrite E. cbn.
    exists None. split; [done|]. intros sn. split; [done|]. by intros (_ & payload & [=]). }
  destruct (unpack_3_12 b0 b1 rest) as [-> E]. cbn [mbind option_bind]. rewrite E. cbn [mbind option_bind negb andb].
  apply Forall_cons in Hb as [Hb1 Hb]. unfold is_byte in Hb1.
  assert (uint 8 (u64 (0 + Z.shiftr (Z.land b0 112) 4)) = b0 / 16 mod 8) as -> by (unpack_arith; lia).
  destruct (Z.eqb_spec (b0 / 16 mod 8) 0); cbn [negb].
  - eexists. split; [reflexivity|].
    assert (uint 32 (u64 (u64 (0 + u64 (Z.shiftl (Z.land b0 15) 8)) + u64 (Z.shiftl (Z.land b1 255) 0)))
            = 256 * (b0 - 128 * dc) + b1) as -> by (unpack_arith; lia).
    intros sn. split; [intros [= <-]; split; [lia|]; exists rest; cbn; repeat f_equal; lia|].
    intros (? & payload & Ep). cbn in Ep. injection Ep as -> -> ->. f_equal. lia.
  - exists None. split; [done|]. intros sn. split; [done|]. intros (Hsn & payload & Ep). cbn in Ep. injection Ep as -> -> ->. lia.
Qed.

Lemma pdcp_sn_fields_18 dc b0 t :
  is_byte b0 -> bytes_ok t -> b0 / 128 = dc ->
  exists r, pdcp_sn_fields 5 18 true (Dec (b0 :: t) 1) = Some r /\
    forall sn, (r = Some sn <-> 0 <= sn < 262144 /\
       exists payload, b0 :: t = [128 * dc + sn / 65536; (sn / 256) mod 256; sn mod 256] ++ payload).
Proof.
  intros Hb0 Hb Hdc. unfold is_byte in Hb0. unfold pdcp_sn_fields. destruct (decide (length t <= 1)%nat) as [Hl|Hl].
  { destruct (short_18 b0 t Hl) as (v & d & -> & E). cbn [mbind option_bind]. rewrite E. cbn.
    exists None. split; [done|]. intros sn. split; [done|]. intros (_ & payload & [= _ ->]). cbn in Hl. lia. }
  destruct t as [|b1 [|b2 rest]]; [cbn in Hl; lia|cbn in Hl; lia|].
  destruct (unpack_5_18 b0 b1 b2 rest) as [-> E]. cbn [mbind option_bind]. rewrite E. cbn [mbind option_bind negb andb].
  apply Forall_cons in Hb as [Hb1 Hb]. apply Forall_cons in Hb as [Hb2 Hb]. unfold is_byte in Hb1, Hb2.
  assert (uint 8 (u64 (0 + Z.shiftr (Z.land b0 124) 2)) = b0 / 4 mod 32) as -> by (unpack_arith; lia).
  destruct (Z.eqb_spec (b0 / 4 mod 32) 0); cbn [negb].
  - eexists. split; [reflexivity|].
    assert (uint 32 (u64 (u64 (u64 (0 + u64 (Z.shiftl (Z.land b0 3) 16)) + u64 (Z.shiftl (Z.land b1 255) 8))
                     + u64 (Z.shiftl (Z.land b2 255) 0))) = 65536 * (b0 - 128 * dc) + 256 * b1 + b2) as -> by (unpack_arith; lia).
    intros sn. split; [intros [= <-]; split; [lia|]; exists rest; cbn; repeat f_equal; lia|].
    intros (? & payload & Ep). cbn in Ep. injection Ep as -> -> -> ->. f_equal. lia.
  - exists None. split; [done|]. intros sn. split; [done|]. intros (Hsn & payload & Ep). cbn in Ep. injection Ep as -> -> -> ->. lia.
Qed.

Lemma get_pdcp_sn_spec pdu s is_srb :
  bytes_ok pdu -> s <> pdcp_size_invalid -> (is_srb = true -> s = pdcp_size12bits) ->
  exists r, get_pdcp_sn pdu s is_srb = Some r /\
    forall sn, (r = Some sn <-> 0 <= sn < 2 ^ pdcp_sn_bits s /\ exists payload, pdu = pdcp_header_octets s is_srb sn ++ payload).
Proof.
  intros Hb Hs Hsrb. unfold get_pdcp_sn.
  destruct pdu as [|b0 t].
  { exists None. split; [done|]. intros sn. split; [done|]. intros (_ & payload & E). by destruct s. }
  apply Forall_cons in Hb as [Hb0 Hb]. pose proof Hb0 as Hr. unfold is_byte in Hr.
  assert (is_srb && negb (bool_decide (s = pdcp_size12bits)) = false) as ->.
  { destruct is_srb; [|done]. by rewrite bool_decide_true by auto. }
  unfold bit_decoder_new. rewrite unpack_one. cbn [mbind option_bind negb].
  assert (uint 8 (u64 (0 + Z.shiftr (Z.land b0 128) 7)) = b0 / 128) as -> by (unpack_arith; lia).
  assert (Hno : forall sn, (b0 / 128 = if is_srb then 1 else 0) ->
    ~ (0 <= sn < 2 ^ pdcp_sn_bits s /\ exists payload, b0 :: t = pdcp_header_octets s is_srb sn ++ payload)).
  { intros sn E (Hsn & payload & Ep). destruct is_srb; [rewrite Hsrb in * by done|]; destruct s; try done;
      cbn in Ep, Hsn; injection Ep; intros; lia. }
  destruct is_srb; cbn [negb andb].
  - destruct (Z.eqb_spec (b0 / 128) 1); [exists None; split; [done|]; intros sn; split; [done|by intros []%Hno]|].
    rewrite (Hsrb eq_refl). apply (pdcp_sn_fields_12 0); [done..|lia].
  - destruct (Z.eqb_spec (b0 / 128) 0); [exists None; split; [done|]; intros sn; split; [done|by intros []%Hno]|].
    destruct s; [| |done]; [apply (pdcp_sn_fields_12 1)|apply (pdcp_sn_fields_18 1)]; (done || lia).
Qed.

(** What the queue relies on. *)
Lemma get_pdcp_sn_range pdu s is_srb :
  bytes_ok pdu -> s <> pdcp_size_invalid -> (is_srb = true -> s = pdcp_size12bits) ->
  exists r, get_pdcp_sn pdu s is_srb = Some r /\ forall sn, r = Some sn -> 0 <= sn < 2 ^ pdcp_sn_bits s.
Proof.
  intros Hb Hs Hsrb. destruct (get_pdcp_sn_spec pdu s is_srb Hb Hs Hsrb) as (r & E & Hr).
  exists r. split; [done|]. intros sn Hsn. by apply Hr.
Qed.

(** The PDCP SN of an SDU is recognised exactly when the SDU starts with the header of a PDCP data PDU: D/C bit set for a
    DRB and clear for an SRB, reserved bits zero, then the SN in 12 or 18 bits. Every other SDU, of any length, has none,
    and no octet sequence makes the decoder read out of bounds. *)
Theorem get_pdcp_sn_exact pdu s is_srb sn :
  bytes_ok pdu -> s <> pdcp_size_invalid -> (is_srb = true -> s = pdcp_size12bits) ->
  exists r, get_pdcp_sn pdu s is_srb = Some r /\
    (r = Some sn <-> 0 <= sn < 2 ^ pdcp_sn_bits s /\ exists payload, pdu = pdcp_header_octets s is_srb sn ++ payload).
Proof. intros Hb Hs Hsrb. destruct (get_pdcp_sn_spec pdu s is_srb Hb Hs Hsrb) as (r & E & Hr). by exists r. Qed.

Lemma get_pdcp_sn_exact_witness :
  exists r, get_pdcp_sn [0x82; 0x01; 0x02; 0x03] pdcp_size18bits false = Some r /\
    (r = Some 131330 <-> 0 <= 131330 < 262144 /\ exists payload, [0x82; 0x01; 0x02; 0x03] = pdcp_header_octets pdcp_size18bits false 131330 ++ payload).
Proof.
  apply (get_pdcp_sn_exact [0x82; 0x01; 0x02; 0x03] pdcp_size18bits false 131330); [|done|done].
  repeat constructor; vm_compute; congruence.
Defined.

