(* ===== verification/SduQueue.v ===== *)
(** * The lock-free SDU queue of the transmitting RLC entities ([lib/rlc/rlc_sdu_queue_lockfree.h])

    The operations are programs of atomic accesses to the shared memory of the queue, so that the same definitions run
    alone ([exec]) and interleaved ([SduQueueConc]). Every access is sequentially consistent. The SPSC ring buffer
    underneath is third-party code: a bounded FIFO list. *)
From S2P Require Import Prelude.

(** ** Programs of atomic accesses *)
Inductive prog (S A : Type) : Type :=
| Ret (a : A)
| Atomic {B : Type} (f : S -> B * S) (k : B -> prog S A).
Arguments Ret {_ _} _.
Arguments Atomic {_ _ _} _ _.

Definition atomic {S B : Type} (f : S -> B * S) : prog S B := Atomic f Ret.

#[export] Instance prog_ret S : MRet (prog S) := fun A a => Ret a.
#[export] Instance prog_bind S : MBind (prog S) := fun A B f =>
  fix bind p := match p with Ret a => f a | Atomic g k => Atomic g (fun b => bind (k b)) end.

(** Running a program without interference. *)
Fixpoint exec {S A : Type} (p : prog S A) (s : S) : A * S :=
  match p with
  | Ret a => (a, s)
  | Atomic f k => let '(b, s) := f s in exec (k b) s
  end.

(** One access. *)
Definition step1 {S A : Type} (p : prog S A) (s : S) : prog S A * S :=
  match p with
  | Ret a => (Ret a, s)
  | Atomic f k => let '(b, s) := f s in (k b, s)
  end.

(** A loop over a variable [x], whose body returns [inl x] to go around again. *)
Fixpoint exec_loop {S X A : Type} (fuel : nat) (body : X -> prog S (X + A)) (x : X) (s : S) : option (A * S) :=
  match fuel with
  | O => None
  | Datatypes.S fuel =>
      match exec (body x) s with
      | (inr a, s) => Some (a, s)
      | (inl x, s) => exec_loop fuel body x s
      end
  end.

(** ** Arrays of atomics *)
Definition arr_get (a : list Z) (i : Z) : Z := a !!! Z.to_nat i.
Definition arr_set (a : list Z) (i v : Z) : list Z := <[Z.to_nat i := v]> a.

Lemma arr_get_set a i j v :
  0 <= i < Z.of_nat (length a) -> 0 <= j -> arr_get (arr_set a i v) j = if decide (j = i) then v else arr_get a j.
Proof.
  intros Hi Hj. unfold arr_get, arr_set. rewrite list_lookup_total_insert.
  repeat case_decide; (done || lia).
Qed.

Lemma arr_set_length a i v : length (arr_set a i v) = length a.
Proof. apply length_insert. Qed.

(** ** The queue *)

(** [rlc_sdu]; time points are numbers *)
Record rlc_sdu := Sdu {
  sdu_buf : list Z;
  sdu_is_retx : bool;
  sdu_pdcp_sn : option Z;
  sdu_toa : Z
}.

(** [byte_buffer::length] *)
Definition buf_length (b : list Z) : Z := Z.of_nat (length b).
Definition sdu_length (s : rlc_sdu) : Z := buf_length (sdu_buf s).

Definition STATE_FREE : Z := 0xffffffff.
Definition STATE_DISCARDED : Z := 0xfffffffe.

(** The shared memory of [rlc_sdu_queue_lockfree]: the packed atomic state, the SPSC queue and the slots. *)
Record rlc_sdu_queue_lockfree := SduQueue {
  capacity : Z;                  (** [uint32_t] *)
  byte_limit : Z;                (** [uint32_t] *)
  packed_state : Z;              (** [uint64_t] *)
  spsc : list rlc_sdu;
  sdu_states : list Z;           (** [uint32_t[capacity]] *)
  sdu_sizes : list Z             (** [size_t[capacity]] *)
}.

Definition sdu_queue_new (capacity byte_limit : Z) : rlc_sdu_queue_lockfree :=
  SduQueue capacity byte_limit 0 [] (replicate (Z.to_nat capacity) STATE_FREE) (replicate (Z.to_nat capacity) 0).

Implicit Types q : rlc_sdu_queue_lockfree.

Definition set_packed (x : Z) q := SduQueue (capacity q) (byte_limit q) x (spsc q) (sdu_states q) (sdu_sizes q).
Definition set_spsc (l : list rlc_sdu) q :=
  SduQueue (capacity q) (byte_limit q) (packed_state q) l (sdu_states q) (sdu_sizes q).
Definition set_states (l : list Z) q := SduQueue (capacity q) (byte_limit q) (packed_state q) (spsc q) l (sdu_sizes q).
Definition set_sizes (l : list Z) q := SduQueue (capacity q) (byte_limit q) (packed_state q) (spsc q) (sdu_states q) l.

(** *** The atomic accesses *)

(** [state.load] *)
Definition load_packed q := (packed_state q, q).
(** [static_cast<uint64_t>(1U) << 32U | sdu_size], for a [uint32_t] parameter *)
Definition state_change (sdu_size : Z) : Z := Z.lor (Z.shiftl 1 32) (u32 sdu_size).
(** [state_add] and [state_sub]: one [fetch_add] or [fetch_sub] *)
Definition state_add (sdu_size : Z) q := (tt, set_packed (u64 (packed_state q + state_change sdu_size)) q).
Definition state_sub (sdu_size : Z) q := (tt, set_packed (u64 (packed_state q - state_change sdu_size)) q).
(** [sdu_states[pdcp_sn % capacity]] and [sdu_sizes[pdcp_sn % capacity]] *)
Definition slot q (pdcp_sn : Z) : Z := pdcp_sn mod capacity q.
Definition load_slot (sn : Z) q := (arr_get (sdu_states q) (slot q sn), q).
Definition store_slot (sn v : Z) q := (tt, set_states (arr_set (sdu_states q) (slot q sn) v) q).
Definition load_size (sn : Z) q := (arr_get (sdu_sizes q) (slot q sn), q).
Definition store_size (sn v : Z) q := (tt, set_sizes (arr_set (sdu_sizes q) (slot q sn) v) q).
Definition exchange_slot (sn v : Z) q :=
  (arr_get (sdu_states q) (slot q sn), set_states (arr_set (sdu_states q) (slot q sn) v) q).
(** [compare_exchange_strong] with [expected = sn]: the success flag and the old value *)
Definition cas_slot (sn desired : Z) q :=
  let old := arr_get (sdu_states q) (slot q sn) in
  if old =? sn then ((true, old), set_states (arr_set (sdu_states q) (slot q sn) desired) q) else ((false, old), q).
(** The SPSC queue: [try_push], [try_pop], [front], [empty] *)
Definition try_push (sdu : rlc_sdu) q :=
  if Z.of_nat (length (spsc q)) <? Z.max 1 (capacity q) then (true, set_spsc (spsc q ++ [sdu]) q) else (false, q).
Definition try_pop q : option rlc_sdu * rlc_sdu_queue_lockfree :=
  match spsc q with [] => (None, q) | sdu :: l => (Some sdu, set_spsc l q) end.
Definition spsc_front q : option rlc_sdu * rlc_sdu_queue_lockfree := (head (spsc q), q).
Definition is_empty q : bool := match spsc q with [] => true | _ => false end.
(** [is_full] *)
Definition is_full q : bool := capacity q <=? Z.of_nat (length (spsc q)).

(** [get_state]: [n_sdus] and [n_bytes] *)
Definition unpack_state (packed : Z) : Z * Z := (Z.shiftr packed 32, Z.land packed 0xffffffff).
Definition get_state : prog rlc_sdu_queue_lockfree (Z * Z) :=
  packed ← atomic load_packed;
  mret (unpack_state packed).

(** *** The operations *)

(** [write], from the push on *)
Definition write_push (sdu : rlc_sdu) : prog rlc_sdu_queue_lockfree bool :=
  pushed ← atomic (try_push sdu);
  if negb (pushed : bool) then
    match sdu_pdcp_sn sdu with
    | Some sn => _ ← atomic (store_slot sn STATE_FREE); mret false
    | None => mret false
    end
  else
    _ ← atomic (state_add (sdu_length sdu));
    mret true.

(** [write], for an SDU with a PDCP SN, from the stores to the slot on *)
Definition write_store (sn : Z) (sdu : rlc_sdu) : prog rlc_sdu_queue_lockfree bool :=
  _ ← atomic (store_size sn (sdu_length sdu));
  _ ← atomic (store_slot sn sn);
  write_push sdu.

(** [write], after the check of the byte limit *)
Definition write_slot (sdu : rlc_sdu) : prog rlc_sdu_queue_lockfree bool :=
  match sdu_pdcp_sn sdu with
  | Some sn =>
      slot_state ← atomic (load_slot sn);
      if negb (slot_state =? STATE_FREE) then mret false else write_store sn sdu
  | None => write_push sdu
  end.

(** [write] *)
Definition write (limit : Z) (sdu : rlc_sdu) : prog rlc_sdu_queue_lockfree bool :=
  st ← get_state;
  if limit <? sdu_length sdu + st.2 then mret false else write_slot sdu.

(** [try_discard], after the exchange: the size is loaded whether or not it has succeeded. *)
Definition discard_exchanged (sn : Z) (success : bool) : prog rlc_sdu_queue_lockfree bool :=
  sdu_size ← atomic (load_size sn);
  if negb success then mret false
  else
    _ ← atomic (state_sub (u32 sdu_size));
    mret true.

(** [try_discard] *)
Definition try_discard (sn : Z) : prog rlc_sdu_queue_lockfree bool :=
  r ← atomic (cas_slot sn STATE_DISCARDED);
  discard_exchanged sn r.1.

(** [check_and_release], after the load of the size *)
Definition release (sn sdu_size : Z) : prog rlc_sdu_queue_lockfree bool :=
  old_state ← atomic (exchange_slot sn STATE_FREE);
  let sdu_is_valid := old_state =? sn in
  if negb sdu_is_valid && (old_state =? STATE_DISCARDED) then mret false
  else
    _ ← atomic (state_sub (u32 sdu_size));
    mret sdu_is_valid.

(** [check_and_release] *)
Definition check_and_release (sn : Z) : prog rlc_sdu_queue_lockfree bool :=
  sdu_size ← atomic (load_size sn);
  release sn sdu_size.

(** [check] *)
Definition check (sn : Z) : prog rlc_sdu_queue_lockfree bool :=
  sdu_state ← atomic (load_slot sn);
  mret (sdu_state =? sn).

(** What follows the pop of an SDU in the body of [read]'s loop. The result is the returned flag and the SDU that the
    reference parameter then holds; [inl] goes around again. *)
Definition read_popped (sdu : rlc_sdu) : prog rlc_sdu_queue_lockfree (rlc_sdu + bool * rlc_sdu) :=
  match sdu_pdcp_sn sdu with
  | Some sn =>
      sdu_is_valid ← check_and_release sn;
      mret (if (sdu_is_valid : bool) then inr (true, sdu) else inl sdu)
  | None => _ ← atomic (state_sub (sdu_length sdu)); mret (inr (true, sdu))
  end.

(** The body of the loop of [read], for the present value of the reference parameter. *)
Definition read_body (sdu : rlc_sdu) : prog rlc_sdu_queue_lockfree (rlc_sdu + bool * rlc_sdu) :=
  popped ← atomic try_pop;
  match popped with
  | None => mret (inr (false, sdu))
  | Some sdu => read_popped sdu
  end.

(** What follows the pop of a front that was seen discarded in the body of [front]'s loop. *)
Definition front_popped (sn : Z) (pop_sdu : option rlc_sdu) : prog rlc_sdu_queue_lockfree (unit + option rlc_sdu) :=
  match pop_sdu with
  | None => mret (inr None)
  | Some pop_sdu =>
      if negb (bool_decide (sdu_pdcp_sn pop_sdu = Some sn)) then mret (inr None)
      else
        sdu_is_valid ← check_and_release sn;
        mret (if (sdu_is_valid : bool) then inr None else inl tt)
  end.

(** What follows the check of a front with a PDCP SN. *)
Definition front_checked (sdu : rlc_sdu) (sn : Z) (sdu_is_valid : bool)
  : prog rlc_sdu_queue_lockfree (unit + option rlc_sdu) :=
  if negb sdu_is_valid then
    pop_sdu ← atomic try_pop;
    front_popped sn pop_sdu
  else mret (inr (Some sdu)).

(** The body of the loop of [front]; [None] is the null pointer. *)
Definition front_body (_ : unit) : prog rlc_sdu_queue_lockfree (unit + option rlc_sdu) :=
  front_sdu ← atomic spsc_front;
  match front_sdu with
  | None => mret (inr None)
  | Some sdu =>
      match sdu_pdcp_sn sdu with
      | Some sn =>
          sdu_is_valid ← check sn;
          front_checked sdu sn sdu_is_valid
      | None => mret (inr (Some sdu))
      end
  end.

(** ** The operations without interference, as the transmitting entities call them

    The loops go around once per queued SDU at most. *)
Definition sdu_queue_write (sdu : rlc_sdu) q : bool * rlc_sdu_queue_lockfree := exec (write (byte_limit q) sdu) q.
Definition sdu_queue_try_discard (sn : Z) q : bool * rlc_sdu_queue_lockfree := exec (try_discard sn) q.
Definition sdu_queue_read (sdu : rlc_sdu) q : option (bool * rlc_sdu * rlc_sdu_queue_lockfree) :=
  exec_loop (S (length (spsc q))) read_body sdu q.
Definition sdu_queue_front q : option (option rlc_sdu * rlc_sdu_queue_lockfree) :=
  exec_loop (S (length (spsc q))) front_body tt q.
Definition sdu_queue_state q : Z * Z := unpack_state (packed_state q).

(** ** Occupancy *)

(** What an SDU adds to the packed state. *)
Definition weight (s : rlc_sdu) : Z := 4294967296 + sdu_length s.

Definition residue q (s : rlc_sdu) : option Z := slot q <$> sdu_pdcp_sn s.

(** A queued SDU is valid unless its slot is marked as discarded. *)
Definition valid q (s : rlc_sdu) : bool :=
  match sdu_pdcp_sn s with None => true | Some sn => arr_get (sdu_states q) (slot q sn) =? sn end.

Definition total (w : rlc_sdu -> Z) q (l : list rlc_sdu) : Z :=
  foldr (fun s n => (if valid q s then w s else 0) + n) 0 l.

(** The slots hold the SDUs [m]: at most one per residue, valid or discarded, with its size; the other slots are free. *)
Record slots_inv q (m : list rlc_sdu) : Prop := {
  si_cap : 0 < capacity q;
  si_states : Z.of_nat (length (sdu_states q)) = capacity q;
  si_sizes : Z.of_nat (length (sdu_sizes q)) = capacity q;
  si_nodup : NoDup (omap (residue q) m);
  si_used : forall s sn, s ∈ m -> sdu_pdcp_sn s = Some sn ->
    0 <= sn < STATE_DISCARDED /\ arr_get (sdu_sizes q) (slot q sn) = sdu_length s /\
    (arr_get (sdu_states q) (slot q sn) = sn \/ arr_get (sdu_states q) (slot q sn) = STATE_DISCARDED);
  si_free : forall i, 0 <= i < capacity q -> i ∉ omap (residue q) m -> arr_get (sdu_states q) i = STATE_FREE
}.

(** The input of [write]: PDCP SNs do not reach the two sentinels. *)
Definition sdu_ok (s : rlc_sdu) : Prop := forall sn, sdu_pdcp_sn s = Some sn -> 0 <= sn < STATE_DISCARDED.

Lemma slot_range q sn : 0 < capacity q -> 0 <= slot q sn < capacity q.
Proof. intros. by apply Z.mod_pos_bound. Qed.

Lemma sdu_length_nonneg s : 0 <= sdu_length s.
Proof. unfold sdu_length, buf_length. lia. Qed.

Lemma state_change_eq n : 0 <= n < 4294967296 -> state_change n = 4294967296 + n.
Proof.
  intros Hn. unfold state_change. rewrite u32_eq, Z.mod_small by lia.
  rewrite (lor_disj 32) by (done || lia). reflexivity.
Qed.

Lemma valid_ext q q' s :
  capacity q' = capacity q ->
  (forall i, residue q s = Some i -> arr_get (sdu_states q') i = arr_get (sdu_states q) i) -> valid q' s = valid q s.
Proof.
  unfold residue, valid, slot. intros -> Hs. destruct (sdu_pdcp_sn s) as [sn|]; [|done]. by rewrite (Hs _ eq_refl).
Qed.

Lemma total_cons w q s l : total w q (s :: l) = (if valid q s then w s else 0) + total w q l.
Proof. done. Qed.

Lemma total_ext w q q' l : (forall s, s ∈ l -> valid q' s = valid q s) -> total w q' l = total w q l.
Proof.
  induction l as [|s l IH]; intros Hs; [done|]. cbn. rewrite (Hs s) by (by left). f_equal. apply IH. intros. apply Hs. by right.
Qed.

Lemma total_app w q l1 l2 : total w q (l1 ++ l2) = total w q l1 + total w q l2.
Proof. induction l1 as [|s l IH]; [done|]. rewrite <- app_comm_cons, !total_cons, IH. lia. Qed.

Lemma total_nonneg w q l : (forall s, 0 <= w s) -> 0 <= total w q l.
Proof. intros Hw. induction l as [|s l IH]; [done|]. rewrite total_cons. specialize (Hw s). destruct (valid q s); lia. Qed.

Lemma total_weight q l : total weight q l = 4294967296 * total (fun _ => 1) q l + total sdu_length q l.
Proof. induction l as [|s l IH]; [done|]. rewrite !total_cons, IH. unfold weight. destruct (valid q s); lia. Qed.

Lemma total_count q l : total (fun _ => 1) q l <= Z.of_nat (length l).
Proof. induction l as [|s l IH]; [done|]. rewrite total_cons. cbn [length]. rewrite Nat2Z.inj_succ. destruct (valid q s); lia. Qed.

Lemma residue_states q l s : residue (set_states l q) s = residue q s.
Proof. done. Qed.

Lemma elem_of_residues q (m : list rlc_sdu) s i : s ∈ m -> residue q s = Some i -> i ∈ omap (residue q) m.
Proof. intros. apply list_elem_of_omap. by exists s. Qed.

Lemma residue_unique q m1 s m2 i :
  NoDup (omap (residue q) (m1 ++ s :: m2)) -> residue q s = Some i -> i ∉ omap (residue q) (m1 ++ m2).
Proof.
  intros Hn Hs. rewrite omap_app in *. cbn in Hn. rewrite Hs in Hn. apply NoDup_app in Hn as (_ & H1 & H2%NoDup_cons).
  rewrite elem_of_app. intros [?|?]; [|tauto]. eapply H1; [done|]. by left.
Qed.

(** Marking a slot: only the SDU of its residue is affected. *)
Lemma valid_store q i v s :
  0 <= i < Z.of_nat (length (sdu_states q)) -> 0 < capacity q -> residue q s <> Some i ->
  valid (set_states (arr_set (sdu_states q) i v) q) s = valid q s.
Proof.
  intros Hi Hc Hr. apply valid_ext; [done|]. intros j Hj. cbn. unfold residue in Hj.
  destruct (sdu_pdcp_sn s) as [sn|] eqn:Es; [|done]. injection Hj as <-. pose proof (slot_range q sn Hc).
  rewrite arr_get_set by lia. case_decide; [|done]. unfold residue in Hr. rewrite Es in Hr. by subst.
Qed.

Lemma slots_inv_perm q m m' : m ≡ₚ m' -> slots_inv q m -> slots_inv q m'.
Proof.
  intros Hp [? ? ? Hn Hu Hf]. split; [done..| | |].
  - by rewrite <- Hp.
  - intros s sn Hs. apply Hu. by rewrite Hp.
  - intros i Hi Hni. apply Hf; [done|]. by rewrite Hp.
Qed.

(** Changes that the slots do not see. *)
Lemma slots_inv_frame q q' m :
  capacity q' = capacity q -> sdu_states q' = sdu_states q -> sdu_sizes q' = sdu_sizes q ->
  slots_inv q m -> slots_inv q' m.
Proof.
  intros Hc Hs Hz Hi. assert (Hsl : slot q' = slot q) by (unfold slot; by rewrite Hc).
  assert (Hr : residue q' = residue q) by (unfold residue; by rewrite Hsl).
  destruct Hi as [? ? ? ? Hu Hf]. split; rewrite ?Hc, ?Hs, ?Hz, ?Hr, ?Hsl; done.
Qed.

(** Reserving a free slot. *)
Lemma slots_inv_store q m s sn :
  slots_inv q m -> sdu_pdcp_sn s = Some sn -> 0 <= sn < STATE_DISCARDED ->
  arr_get (sdu_states q) (slot q sn) = STATE_FREE -> arr_get (sdu_sizes q) (slot q sn) = sdu_length s ->
  slots_inv (set_states (arr_set (sdu_states q) (slot q sn) sn) q) (m ++ [s]) /\
  (forall x, x ∈ m -> valid (set_states (arr_set (sdu_states q) (slot q sn) sn) q) x = valid q x).
Proof.
  intros [Hc Hl Hz Hn Hu Hf] Es Hsn Hfree Hsize. pose proof (slot_range q sn Hc) as Hr.
  assert (Hnew : slot q sn ∉ omap (residue q) m).
  { intros (x & Hx & Ex)%list_elem_of_omap. unfold residue in Ex. destruct (sdu_pdcp_sn x) as [sx|] eqn:Esx; [|done].
    injection Ex as Ex. destruct (Hu x sx Hx Esx) as (? & _ & Ho). rewrite Ex, Hfree in Ho. unfold STATE_FREE, STATE_DISCARDED in *. lia. }
  split; [split|].
  - done.
  - cbn. by rewrite arr_set_length.
  - done.
  - change (residue (set_states (arr_set (sdu_states q) (slot q sn) sn) q)) with (residue q).
    rewrite omap_app. cbn. unfold residue at 2. rewrite Es. cbn. apply NoDup_app. repeat split; [done| |apply NoDup_singleton].
    by intros x Hx ->%list_elem_of_singleton.
  - intros x sx Hx Ex. cbn. change (slot (set_states _ q)) with (slot q). pose proof (slot_range q sx Hc).
    rewrite arr_get_set by lia. apply elem_of_app in Hx as [Hx| ->%list_elem_of_singleton].
    + destruct (Hu x sx Hx Ex) as (? & ? & ?). rewrite decide_False; [done|]. intros Heq. apply Hnew. rewrite <- Heq.
      eapply elem_of_residues; [done|]. unfold residue. by rewrite Ex.
    + rewrite Es in Ex. injection Ex as <-. rewrite decide_True by done. auto.
  - intros i Hi. cbn in *. rewrite arr_get_set by lia. rewrite omap_app, elem_of_app. cbn. unfold residue at 2. rewrite Es. cbn.
    change (residue (set_states _ q)) with (residue q).
    intros Hni. rewrite decide_False; [apply Hf; [done|tauto]|]. intros ->. apply Hni. right. by left.
  - intros x Hx. apply valid_store; [lia|done|]. intros Ex. apply Hnew. by eapply elem_of_residues.
Qed.

(** Releasing the slot of an SDU. *)
Lemma slots_inv_release q m1 s m2 sn :
  slots_inv q (m1 ++ s :: m2) -> sdu_pdcp_sn s = Some sn ->
  slots_inv (set_states (arr_set (sdu_states q) (slot q sn) STATE_FREE) q) (m1 ++ m2) /\
  (forall x, x ∈ m1 ++ m2 -> valid (set_states (arr_set (sdu_states q) (slot q sn) STATE_FREE) q) x = valid q x).
Proof.
  intros [Hc Hl Hz Hn Hu Hf] Es. pose proof (slot_range q sn Hc) as Hr.
  assert (Ers : residue q s = Some (slot q sn)) by (unfold residue; by rewrite Es).
  pose proof (residue_unique q m1 s m2 _ Hn Ers) as Hnew.
  split; [split|].
  - done.
  - cbn. by rewrite arr_set_length.
  - done.
  - change (residue (set_states _ q)) with (residue q). rewrite omap_app in *. cbn in Hn. rewrite Ers in Hn.
    apply NoDup_app in Hn as (H1 & H2 & H3%NoDup_cons). apply NoDup_app. split; [done|]. split; [|tauto].
    intros x Hx Hx2. apply (H2 x Hx). by right.
  - intros x sx Hx Ex. cbn. change (slot (set_states _ q)) with (slot q). pose proof (slot_range q sx Hc).
    rewrite arr_get_set by lia. destruct (Hu x sx) as (? & ? & ?); [|done|].
    { apply elem_of_app. apply elem_of_app in Hx as [?|?]; [by left|right; by right]. }
    rewrite decide_False; [done|]. intros Heq. apply Hnew. rewrite <- Heq.
    eapply elem_of_residues; [done|]. unfold residue. by rewrite Ex.
  - intros i Hi Hni. cbn in *. rewrite arr_get_set by lia. case_decide as Hd; [done|]. apply Hf; [done|].
    rewrite omap_app, elem_of_app in *. cbn. rewrite Ers, elem_of_cons. intros [?|[?|?]]; [tauto|done|tauto].
  - intros x Hx. apply valid_store; [lia|done|]. intros Ex. apply Hnew. by eapply elem_of_residues.
Qed.

(** Marking an SDU as discarded. *)
Lemma slots_inv_discard q m sn :
  slots_inv q m -> arr_get (sdu_states q) (slot q sn) = sn -> sn < STATE_DISCARDED ->
  exists m1 s m2, m = m1 ++ s :: m2 /\ sdu_pdcp_sn s = Some sn /\ valid q s = true /\
  let q' := set_states (arr_set (sdu_states q) (slot q sn) STATE_DISCARDED) q in
  slots_inv q' m /\ valid q' s = false /\ (forall x, x ∈ m1 ++ m2 -> valid q' x = valid q x) /\
  (forall x, x ∈ m1 ++ m2 -> sdu_pdcp_sn x <> Some sn).
Proof.
  intros [Hc Hl Hz Hn Hu Hf] Hsn Hlt. pose proof (slot_range q sn Hc) as Hr.
  destruct (decide (slot q sn ∈ omap (residue q) m)) as [Hin|Hni].
  2: { rewrite (Hf _ Hr Hni) in Hsn. unfold STATE_FREE, STATE_DISCARDED in *. lia. }
  apply list_elem_of_omap in Hin as (s & Hs & Es). unfold residue in Es. destruct (sdu_pdcp_sn s) as [sx|] eqn:Ex; [|done].
  injection Es as Es. destruct (Hu s sx Hs Ex) as (Hsx & Hsz & Hst). rewrite Es, Hsn in Hst.
  assert (sx = sn) as -> by (destruct Hst as [?|?]; lia). clear Es Hst.
  assert (Ers : residue q s = Some (slot q sn)) by (unfold residue; by rewrite Ex).
  apply list_elem_of_split in Hs as (m1 & m2 & ->). exists m1, s, m2. split; [done|]. split; [done|].
  pose proof (residue_unique q m1 s m2 _ Hn Ers) as Hnew. split.
  { unfold valid. rewrite Ex, Hsn. lia. }
  cbv zeta. split; [split|split; [|split]].
  - done.
  - cbn. by rewrite arr_set_length.
  - done.
  - exact Hn.
  - intros x sx Hx Ex'. cbn. change (slot (set_states _ q)) with (slot q). pose proof (slot_range q sx Hc).
    rewrite arr_get_set by lia. destruct (Hu x sx Hx Ex') as (? & ? & ?). case_decide; auto.
  - intros i Hi Hni. cbn in *. rewrite arr_get_set by lia. rewrite decide_False; [by apply Hf|]. intros ->. apply Hni.
    eapply elem_of_residues; [|exact Ers]. apply elem_of_app. right. by left.
  - unfold valid. rewrite Ex. cbn. change (slot (set_states _ q)) with (slot q). rewrite arr_get_set by lia.
    rewrite decide_True by done. unfold STATE_DISCARDED in *. lia.
  - intros x Hx. apply valid_store; [lia|done|]. intros Ex'. apply Hnew. by eapply elem_of_residues.
  - intros x Hx Ex'. apply Hnew. eapply elem_of_residues; [done|]. unfold residue. by rewrite Ex'.
Qed.
