(* ===== verification/SduQueueConc.v ===== *)
(** * The SDU queue under concurrency

    One upper-layer thread ([write], [try_discard]) and one lower-layer thread ([read], [front], [get_state]) run the
    programs of [SduQueue] on the shared memory; their atomic accesses interleave in any order. The specification is a queue
    whose operations take effect at once. Every run of the threads is a run of the specification, and while both threads are
    idle the packed counters are exact. *)
From S2P Require Import Prelude SduQueue.

(** ** The threads *)
Inductive producer_op := OpWrite (sdu : rlc_sdu) | OpDiscard (sn : Z).
Inductive consumer_op := OpRead (sdu : rlc_sdu) | OpFront | OpState.
Inductive consumer_result := RRead (ok : bool) (sdu : rlc_sdu) | RFront (sdu : option rlc_sdu) | RState (st : Z * Z).
Inductive label :=
| CallP (op : producer_op) | RetP (b : bool)
| CallC (op : consumer_op) | RetC (r : consumer_result).

Notation program := (prog rlc_sdu_queue_lockfree).
Definition producer := option (program bool).
Inductive consumer :=
| CIdle
| CReading (p : program (rlc_sdu + bool * rlc_sdu))
| CFronting (p : program (unit + option rlc_sdu))
| CLoading (p : program (Z * Z)).

Record conf := Conf { mem : rlc_sdu_queue_lockfree; upper : producer; lower : consumer }.

Definition producer_start (limit : Z) (op : producer_op) : program bool :=
  match op with OpWrite sdu => write limit sdu | OpDiscard sn => try_discard sn end.
Definition consumer_start (op : consumer_op) : consumer :=
  match op with
  | OpRead sdu => CReading (read_body sdu)
  | OpFront => CFronting (front_body tt)
  | OpState => CLoading get_state
  end.

(** The calls the upper layer makes: PDCP SNs do not reach the sentinels. *)
Definition op_ok (op : producer_op) : Prop :=
  match op with OpWrite sdu => sdu_ok sdu | OpDiscard sn => 0 <= sn < STATE_DISCARDED end.

Inductive cstep : conf -> option label -> conf -> Prop :=
| step_call_p q op l : op_ok op ->
    cstep (Conf q None l) (Some (CallP op)) (Conf q (Some (producer_start (byte_limit q) op)) l)
| step_p q q' p p' l : step1 p q = (p', q') -> cstep (Conf q (Some p) l) None (Conf q' (Some p') l)
| step_ret_p q b l : cstep (Conf q (Some (Ret b)) l) (Some (RetP b)) (Conf q None l)
| step_call_c q u op : cstep (Conf q u CIdle) (Some (CallC op)) (Conf q u (consumer_start op))
| step_read q q' u p p' : step1 p q = (p', q') -> cstep (Conf q u (CReading p)) None (Conf q' u (CReading p'))
| step_read_again q u sdu : cstep (Conf q u (CReading (Ret (inl sdu)))) None (Conf q u (CReading (read_body sdu)))
| step_read_ret q u ok sdu :
    cstep (Conf q u (CReading (Ret (inr (ok, sdu))))) (Some (RetC (RRead ok sdu))) (Conf q u CIdle)
| step_front q q' u p p' : step1 p q = (p', q') -> cstep (Conf q u (CFronting p)) None (Conf q' u (CFronting p'))
| step_front_again q u : cstep (Conf q u (CFronting (Ret (inl tt)))) None (Conf q u (CFronting (front_body tt)))
| step_front_ret q u r : cstep (Conf q u (CFronting (Ret (inr r)))) (Some (RetC (RFront r))) (Conf q u CIdle)
| step_load q q' u p p' : step1 p q = (p', q') -> cstep (Conf q u (CLoading p)) None (Conf q' u (CLoading p'))
| step_load_ret q u st : cstep (Conf q u (CLoading (Ret st))) (Some (RetC (RState st))) (Conf q u CIdle).

Inductive csteps : conf -> list label -> conf -> Prop :=
| csteps_nil c : csteps c [] c
| csteps_tau c1 c2 c3 tr : csteps c1 tr c2 -> cstep c2 None c3 -> csteps c1 tr c3
| csteps_label c1 c2 c3 tr a : csteps c1 tr c2 -> cstep c2 (Some a) c3 -> csteps c1 (tr ++ [a]) c3.

(** ** The specification *)

(** The queued SDUs in order, each with the mark of a discarded one, and what the threads are waiting for. *)
Inductive pstatus := PIdle | PPending (op : producer_op) | PDone (b : bool).
Inductive cstatus := SIdle | SPending (op : consumer_op) | SDone (r : consumer_result).
Record spec := Spec { entries : list (rlc_sdu * bool); pst : pstatus; cst : cstatus }.

Definition has_pdcp_sn (sn : Z) (s : rlc_sdu) : bool := bool_decide (sdu_pdcp_sn s = Some sn).
(** Marking the SDUs with a PDCP SN, and whether one was there that was not marked. *)
Definition mark_discarded (sn : Z) (l : list (rlc_sdu * bool)) : list (rlc_sdu * bool) :=
  map (fun x => (x.1, x.2 || has_pdcp_sn sn x.1)) l.
Definition discardable (sn : Z) (l : list (rlc_sdu * bool)) : bool :=
  existsb (fun x => negb x.2 && has_pdcp_sn sn x.1) l.

Inductive sstep : spec -> option label -> spec -> Prop :=
| s_call_p l op c : sstep (Spec l PIdle c) (Some (CallP op)) (Spec l (PPending op) c)
| s_ret_p l b c : sstep (Spec l (PDone b) c) (Some (RetP b)) (Spec l PIdle c)
| s_call_c l p op : sstep (Spec l p SIdle) (Some (CallC op)) (Spec l p (SPending op))
| s_ret_c l p r : sstep (Spec l p (SDone r)) (Some (RetC r)) (Spec l p SIdle)
(** an SDU is appended at the end, or refused *)
| s_write l sdu c : sstep (Spec l (PPending (OpWrite sdu)) c) None (Spec (l ++ [(sdu, false)]) (PDone true) c)
| s_refuse l sdu c : sstep (Spec l (PPending (OpWrite sdu)) c) None (Spec l (PDone false) c)
(** a discard succeeds exactly when the SDU is queued and not discarded yet *)
| s_discard l sn c : sstep (Spec l (PPending (OpDiscard sn)) c) None (Spec (mark_discarded sn l) (PDone (discardable sn l)) c)
(** [read] and [front] drop discarded SDUs from the head, return the first that is not, and fail on an empty queue only *)
| s_read_drop l s p out : sstep (Spec ((s, true) :: l) p (SPending (OpRead out))) None (Spec l p (SPending (OpRead out)))
| s_read_ok l s p out : sstep (Spec ((s, false) :: l) p (SPending (OpRead out))) None (Spec l p (SDone (RRead true s)))
| s_read_empty p out s : sstep (Spec [] p (SPending (OpRead out))) None (Spec [] p (SDone (RRead false s)))
| s_front_drop l s p : sstep (Spec ((s, true) :: l) p (SPending OpFront)) None (Spec l p (SPending OpFront))
| s_front_ok l s p : sstep (Spec ((s, false) :: l) p (SPending OpFront)) None (Spec ((s, false) :: l) p (SDone (RFront (Some s))))
| s_front_empty p : sstep (Spec [] p (SPending OpFront)) None (Spec [] p (SDone (RFront None)))
(** the counters are not part of the specification while an operation is in progress *)
| s_state l p st : sstep (Spec l p (SPending OpState)) None (Spec l p (SDone (RState st))).

Inductive ssteps : spec -> list label -> spec -> Prop :=
| ssteps_nil c : ssteps c [] c
| ssteps_tau c1 c2 c3 tr : ssteps c1 tr c2 -> sstep c2 None c3 -> ssteps c1 tr c3
| ssteps_label c1 c2 c3 tr a : ssteps c1 tr c2 -> sstep c2 (Some a) c3 -> ssteps c1 (tr ++ [a]) c3.

(** What the counters should say: the SDUs that are not discarded, and their bytes. *)
Definition live (l : list (rlc_sdu * bool)) : list rlc_sdu := map fst (filter (fun x => x.2 = false) l).
Definition sum_lengths (l : list rlc_sdu) : Z := foldr (fun s n => sdu_length s + n) 0 l.

(** ** The simulation relation *)
Implicit Types q : rlc_sdu_queue_lockfree.

(** The upper thread between two accesses: what the specification knows of it, the SDU whose slot it holds before the push,
    what it still has to change in the packed state, and the bytes the limit check has granted. *)
Inductive prel q : producer -> pstatus -> list rlc_sdu -> Z -> Z -> Prop :=
| p_idle : prel q None PIdle [] 0 0
| p_done b : prel q (Some (Ret b)) (PDone b) [] 0 0
| p_write0 s : sdu_ok s -> prel q (Some (write (byte_limit q) s)) (PPending (OpWrite s)) [] 0 0
| p_slot s sn : sdu_ok s -> sdu_pdcp_sn s = Some sn -> prel q (Some (write_slot s)) (PPending (OpWrite s)) [] 0 (sdu_length s)
| p_store0 s sn : sdu_ok s -> sdu_pdcp_sn s = Some sn -> arr_get (sdu_states q) (slot q sn) = STATE_FREE ->
    prel q (Some (write_store sn s)) (PPending (OpWrite s)) [] 0 (sdu_length s)
| p_store1 s sn : sdu_ok s -> sdu_pdcp_sn s = Some sn -> arr_get (sdu_states q) (slot q sn) = STATE_FREE ->
    arr_get (sdu_sizes q) (slot q sn) = sdu_length s ->
    prel q (Some (_ ← atomic (store_slot sn sn); write_push s)) (PPending (OpWrite s)) [] 0 (sdu_length s)
| p_push s : sdu_ok s -> valid q s = true -> prel q (Some (write_push s)) (PPending (OpWrite s)) [s] 0 (sdu_length s)
| p_undo s sn : sdu_pdcp_sn s = Some sn -> valid q s = true ->
    prel q (Some (_ ← atomic (store_slot sn STATE_FREE); mret false)) (PDone false) [s] 0 0
| p_add s : sdu_length s < 4294967296 -> prel q (Some (_ ← atomic (state_add (sdu_length s)); mret true)) (PDone true) [] (- weight s) 0
| p_disc0 sn : 0 <= sn < STATE_DISCARDED -> prel q (Some (try_discard sn)) (PPending (OpDiscard sn)) [] 0 0
| p_disc_ok sn s : arr_get (sdu_sizes q) (slot q sn) = sdu_length s -> sdu_length s < 4294967296 -> 0 < capacity q ->
    prel q (Some (discard_exchanged sn true)) (PDone true) [] (weight s) 0
| p_disc_fail sn : prel q (Some (discard_exchanged sn false)) (PDone false) [] 0 0
| p_sub s : sdu_length s < 4294967296 ->
    prel q (Some (_ ← atomic (state_sub (u32 (sdu_length s))); mret true)) (PDone true) [] (weight s) 0.

(** What follows a pop whose SDU has a PDCP SN, in [read] and in [front]. *)
Definition read_release (s : rlc_sdu) (valid : bool) : program (rlc_sdu + bool * rlc_sdu) :=
  mret (if valid then inr (true, s) else inl s).
Definition front_release (valid : bool) : program (unit + option rlc_sdu) := mret (if valid then inr None else inl tt).

(** The lower thread: the SDU it has popped and not released, and the SDU it still has to subtract. *)
Inductive crel q : consumer -> cstatus -> list rlc_sdu -> list rlc_sdu -> Prop :=
| c_idle : crel q CIdle SIdle [] []
| c_read0 out s : crel q (CReading (read_body s)) (SPending (OpRead out)) [] []
| c_read_again out s : crel q (CReading (Ret (inl s))) (SPending (OpRead out)) [] []
| c_popped out s sn : sdu_pdcp_sn s = Some sn ->
    crel q (CReading (v ← check_and_release sn; read_release s v)) (SPending (OpRead out)) [s] []
| c_sized out s sn : sdu_pdcp_sn s = Some sn ->
    crel q (CReading (v ← release sn (sdu_length s); read_release s v)) (SPending (OpRead out)) [s] []
| c_sub s n ok : ok = true -> u32 n = sdu_length s ->
    crel q (CReading (_ ← atomic (state_sub n); v ← mret ok; read_release s v)) (SDone (RRead true s)) [] [s]
| c_read_done ok s : crel q (CReading (Ret (inr (ok, s)))) (SDone (RRead ok s)) [] []
| c_front0 : crel q (CFronting (front_body tt)) (SPending OpFront) [] []
| c_front_again : crel q (CFronting (Ret (inl tt))) (SPending OpFront) [] []
| c_front_check s sn : sdu_pdcp_sn s = Some sn -> head (spsc q) = Some s ->
    crel q (CFronting (v ← check sn; front_checked s sn v)) (SPending OpFront) [] []
| c_front_pop s sn : sdu_pdcp_sn s = Some sn -> head (spsc q) = Some s ->
    arr_get (sdu_states q) (slot q sn) = STATE_DISCARDED ->
    crel q (CFronting (pop_sdu ← atomic try_pop; front_popped sn pop_sdu)) (SPending OpFront) [] []
| c_front_popped s sn : sdu_pdcp_sn s = Some sn -> arr_get (sdu_states q) (slot q sn) = STATE_DISCARDED ->
    crel q (CFronting (v ← check_and_release sn; front_release v)) (SPending OpFront) [s] []
| c_front_sized s sn n : sdu_pdcp_sn s = Some sn -> arr_get (sdu_states q) (slot q sn) = STATE_DISCARDED ->
    crel q (CFronting (v ← release sn n; front_release v)) (SPending OpFront) [s] []
| c_front_done r : crel q (CFronting (Ret (inr r))) (SDone (RFront r)) [] []
| c_load : crel q (CLoading get_state) (SPending OpState) [] []
| c_load_done st : crel q (CLoading (Ret st)) (SDone (RState st)) [] [].

Definition flagged q (l : list rlc_sdu) : list (rlc_sdu * bool) := map (fun s => (s, negb (valid q s))) l.
Definition weights (l : list rlc_sdu) : Z := foldr (fun s n => weight s + n) 0 l.

Record related (c : conf) (sp : spec) (hand res pend : list rlc_sdu) (dp granted : Z) : Prop := {
  r_upper : prel (mem c) (upper c) (pst sp) res dp granted;
  r_lower : crel (mem c) (lower c) (cst sp) hand pend;
  r_slots : slots_inv (mem c) (hand ++ spsc (mem c) ++ res);
  r_entries : entries sp = flagged (mem c) (hand ++ spsc (mem c));
  r_packed : packed_state (mem c) = u64 (total weight (mem c) (hand ++ spsc (mem c)) + weights pend + dp);
  r_bytes : total sdu_length (mem c) (hand ++ spsc (mem c)) + sum_lengths pend + granted <= byte_limit (mem c);
  r_limit : 0 <= byte_limit (mem c) < 4294967296;
  r_count : Z.of_nat (length (spsc (mem c))) <= capacity (mem c);
  r_capacity : capacity (mem c) < 4294967294;
  r_hand : (length hand + length pend <= 1)%nat
}.

(** *** Stability: what each thread knows survives the steps of the other *)
Lemma prel_mono q q' u p res dp g :
  0 < capacity q -> capacity q' = capacity q -> byte_limit q' = byte_limit q -> sdu_sizes q' = sdu_sizes q ->
  (forall i, 0 <= i < capacity q -> arr_get (sdu_states q) i = STATE_FREE -> arr_get (sdu_states q') i = STATE_FREE) ->
  (forall s, s ∈ res -> valid q' s = valid q s) ->
  prel q u p res dp g -> prel q' u p res dp g.
Proof.
  intros Hc Ec El Es Hf Hv H. assert (Esl : slot q' = slot q) by (unfold slot; by rewrite Ec).
  destruct H; rewrite <- ?El; econstructor; try done; rewrite ?Hv by (by left); rewrite ?Esl, ?Es, ?Ec; try done; apply Hf; (done || by apply slot_range).
Qed.

Lemma crel_mono q q' l c hand pend :
  0 < capacity q -> capacity q' = capacity q ->
  (forall s, head (spsc q) = Some s -> head (spsc q') = Some s) ->
  (forall i, 0 <= i < capacity q -> arr_get (sdu_states q) i = STATE_DISCARDED ->
     arr_get (sdu_states q') i = STATE_DISCARDED) ->
  crel q l c hand pend -> crel q' l c hand pend.
Proof.
  intros Hc Ec Hh Hf H. assert (Esl : slot q' = slot q) by (unfold slot; by rewrite Ec).
  destruct H; econstructor; try done; rewrite ?Esl; eauto using slot_range.
Qed.

Lemma u64_add x y : u64 (u64 x + y) = u64 (x + y).
Proof. apply Z.add_mod_idemp_l. done. Qed.

Lemma u64_sub x y : u64 (u64 x - y) = u64 (x - y).
Proof. apply Zminus_mod_idemp_l. Qed.

Lemma state_change_weight n s : u32 n = sdu_length s -> state_change n = weight s.
Proof.
  intros Hn. unfold state_change, weight. rewrite Hn. pose proof (uint_range 32 n ltac:(lia)) as Hr.
  change (uint 32 n) with (u32 n) in Hr. rewrite Hn in Hr.
  rewrite (lor_disj 32) by (done || lia). reflexivity.
Qed.

Lemma flagged_ext q q' l : (forall s, s ∈ l -> valid q' s = valid q s) -> flagged q' l = flagged q l.
Proof. intros Hv. apply map_ext_in. intros s Hs. rewrite (Hv s); [done|]. by apply list_elem_of_In. Qed.

Lemma flagged_app q l1 l2 : flagged q (l1 ++ l2) = flagged q l1 ++ flagged q l2.
Proof. apply map_app. Qed.

Lemma total_elem w q l s : (forall s, 0 <= w s) -> s ∈ l -> valid q s = true -> w s <= total w q l.
Proof.
  intros Hw (l1 & l2 & ->)%list_elem_of_split Hv. rewrite total_app, total_cons, Hv.
  pose proof (total_nonneg w q l1 Hw). pose proof (total_nonneg w q l2 Hw). lia.
Qed.

Lemma unpack_packed n b : 0 <= n < 4294967296 -> 0 <= b < 4294967296 -> unpack_state (u64 (4294967296 * n + b)) = (n, b).
Proof. intros. unfold unpack_state, u64, uint. bit_arith. f_equal; lia. Qed.

Lemma sum_lengths_nonneg l : 0 <= sum_lengths l.
Proof. induction l as [|s l IH]; cbn; [done|]. pose proof (sdu_length_nonneg s). unfold sum_lengths in IH. lia. Qed.

Lemma weights_eq l : weights l = 4294967296 * Z.of_nat (length l) + sum_lengths l.
Proof. induction l as [|s l IH]; [done|]. cbn -[Z.mul Z.of_nat]. unfold weights, sum_lengths in *. unfold weight at 1. lia. Qed.

(** The counters while the upper thread owes them nothing. *)
Lemma related_state c sp hand res pend granted :
  related c sp hand res pend 0 granted -> 0 <= granted ->
  unpack_state (packed_state (mem c)) =
    (total (fun _ => 1) (mem c) (hand ++ spsc (mem c)) + Z.of_nat (length pend),
     total sdu_length (mem c) (hand ++ spsc (mem c)) + sum_lengths pend).
Proof.
  intros [_ _ Hs _ Hp Hb Hl Hn Hc Hh] Hg. rewrite Hp, total_weight, weights_eq, Z.add_0_r.
  set (n := total (fun _ => 1) _ _). set (b := total sdu_length _ _).
  replace (4294967296 * n + b + (4294967296 * Z.of_nat (length pend) + sum_lengths pend))
    with (4294967296 * (n + Z.of_nat (length pend)) + (b + sum_lengths pend)) by lia.
  pose proof (total_count (mem c) (hand ++ spsc (mem c))) as Hcount. rewrite length_app in Hcount.
  assert (0 <= n) by (by apply total_nonneg).
  assert (0 <= b) by (apply total_nonneg, sdu_length_nonneg). pose proof (sum_lengths_nonneg pend).
  unfold n, b in *. apply unpack_packed; lia.
Qed.

(** *** The steps of the upper thread *)
Definition matched (sp : spec) (o : option label) (sp' : spec) : Prop := (sp' = sp /\ o = None) \/ sstep sp o sp'.

(** A step that changes nothing but the thread itself, and what the specification knows of it. *)
Lemma upper_only q u u' l sp st' hand res res' pend dp g g' :
  related (Conf q u l) sp hand res pend dp g ->
  prel q u' st' res' dp g' -> slots_inv q (hand ++ spsc q ++ res') ->
  total sdu_length q (hand ++ spsc q) + sum_lengths pend + g' <= byte_limit q ->
  related (Conf q u' l) (Spec (entries sp) st' (cst sp)) hand res' pend dp g'.
Proof. intros [] ? ? ?. by constructor. Qed.

Lemma slots_drop_res q m s : slots_inv q (m ++ [s]) -> sdu_pdcp_sn s = None -> slots_inv q m.
Proof.
  intros [? ? ? Hn Hu Hf] Es. assert (E : omap (residue q) (m ++ [s]) = omap (residue q) m).
  { rewrite omap_app. cbn. unfold residue at 2. rewrite Es. cbn. by rewrite app_nil_r. }
  rewrite E in *. split; try done. intros x sn Hx. apply Hu. apply elem_of_app. by left.
Qed.

Lemma slots_add_res q m s : slots_inv q m -> sdu_pdcp_sn s = None -> slots_inv q (m ++ [s]).
Proof.
  intros [? ? ? Hn Hu Hf] Es. assert (E : omap (residue q) (m ++ [s]) = omap (residue q) m).
  { rewrite omap_app. cbn. unfold residue at 2. rewrite Es. cbn. by rewrite app_nil_r. }
  split; rewrite ?E; try done. intros x sn [Hx| ->%list_elem_of_singleton]%elem_of_app Ex; [by apply Hu|congruence].
Qed.

Lemma related_write0 q l sp hand pend s :
  related (Conf q (Some (write (byte_limit q) s)) l) sp hand [] pend 0 0 -> pst sp = PPending (OpWrite s) -> sdu_ok s ->
  exists sp' res' g', matched sp None sp' /\
    related (Conf q (Some (let st := unpack_state (packed_state q) in
                           if byte_limit q <? sdu_length s + st.2 then mret false else write_slot s)) l)
      sp' hand res' pend 0 g'.
Proof.
  intros HR Ep Hok. pose proof (related_state _ _ _ _ _ _ HR ltac:(done)) as Est. cbn [mem] in Est. rewrite Est. cbv zeta.
  pose proof (r_slots _ _ _ _ _ _ _ HR) as Hs. pose proof (r_bytes _ _ _ _ _ _ _ HR) as Hb. cbn [mem] in Hs, Hb. cbn [snd].
  destruct sp as [es ps cs]. cbn in Ep. subst ps.
  destruct (Z.ltb_spec (byte_limit q) (sdu_length s + (total sdu_length q (hand ++ spsc q) + sum_lengths pend))).
  { eexists _, [], 0. split; [right; apply s_refuse|]. eapply (upper_only _ _ _ _ (Spec _ _ _)); [exact HR|constructor|done|done]. }
  destruct (sdu_pdcp_sn s) as [sn|] eqn:Es.
  - eexists _, [], (sdu_length s). split; [by left|].
    eapply (upper_only _ _ _ _ (Spec _ _ _)); [exact HR|by econstructor|done|lia].
  - eexists _, [s], (sdu_length s). split; [by left|]. unfold write_slot. rewrite Es.
    eapply (upper_only _ _ _ _ (Spec _ _ _)); [exact HR|constructor; [done|by unfold valid; rewrite Es]| |lia].
    rewrite app_assoc in *. rewrite app_nil_r in Hs. by apply slots_add_res.
Qed.

(** Storing the PDCP SN into the free slot. *)
Lemma related_reserve q l sp hand pend s sn :
  related (Conf q (Some (_ ← atomic (store_slot sn sn); write_push s)) l) sp hand [] pend 0 (sdu_length s) ->
  pst sp = PPending (OpWrite s) -> sdu_ok s -> sdu_pdcp_sn s = Some sn ->
  arr_get (sdu_states q) (slot q sn) = STATE_FREE -> arr_get (sdu_sizes q) (slot q sn) = sdu_length s ->
  related (Conf (set_states (arr_set (sdu_states q) (slot q sn) sn) q) (Some (write_push s)) l) sp hand [s] pend 0 (sdu_length s).
Proof.
  intros HR Ep Hok Es Hfree Hsize. destruct HR as [_ Hl Hs He Hp Hb Hlim Hn Hc Hh]. cbn [mem upper lower] in *.
  rewrite app_assoc, app_nil_r in Hs.
  destruct (slots_inv_store q _ s sn Hs Es (Hok _ Es) Hfree Hsize) as [Hs' Hv].
  pose proof (slot_range q sn (si_cap _ _ Hs)) as Hr. pose proof (si_states _ _ Hs) as Hlen.
  constructor; cbn [mem upper lower spsc set_states capacity byte_limit packed_state]; try done.
  - rewrite Ep. constructor; [done|]. unfold valid. rewrite Es. cbn. change (slot (set_states _ q)) with (slot q).
    rewrite arr_get_set, decide_True by (done || lia). lia.
  - eapply crel_mono; [..|exact Hl]; [by eapply si_cap|done|done|].
    intros i Hi Hd. cbn. rewrite arr_get_set by lia. case_decide as Hx; [|done]. subst. rewrite Hfree in Hd. done.
  - by rewrite app_assoc.
  - by rewrite (flagged_ext q).
  - by rewrite (total_ext weight q).
  - by rewrite (total_ext sdu_length q).
Qed.

(** The push. *)
Lemma related_push q l sp hand pend s :
  related (Conf q (Some (write_push s)) l) sp hand [s] pend 0 (sdu_length s) -> pst sp = PPending (OpWrite s) ->
  valid q s = true ->
  forall p' q', step1 (write_push s) q = (p', q') ->
  exists sp' res' dp' g', matched sp None sp' /\ related (Conf q' (Some p') l) sp' hand res' pend dp' g'.
Proof.
  intros HR Ep Hval p' q' E. pose proof HR as [_ Hl Hs He Hp Hb Hlim Hn Hc Hh]. cbn [mem upper lower] in *.
  destruct sp as [es ps cs]. cbn in Ep, Hl, He. subst ps.
  pose proof (si_cap _ _ Hs) as Hcap. cbn in E. unfold try_push in E.
  destruct (Z.ltb_spec (Z.of_nat (length (spsc q))) (Z.max 1 (capacity q))); cbn in E; injection E as <- <-.
  - eexists _, [], (- weight s), 0. split; [right; constructor|].
    assert (Hlen : sdu_length s < 4294967296).
    { pose proof (total_nonneg sdu_length q (hand ++ spsc q) sdu_length_nonneg). pose proof (sum_lengths_nonneg pend). lia. }
    assert (Etot : forall w, total w (set_spsc (spsc q ++ [s]) q) (hand ++ spsc q ++ [s]) = total w q (hand ++ spsc q) + w s).
    { intros w. rewrite (total_ext w q) by done. rewrite app_assoc, total_app, total_cons, Hval. cbn. lia. }
    constructor; cbn [mem upper lower spsc set_spsc capacity byte_limit packed_state pst cst entries].
    + by constructor.
    + eapply crel_mono; [..|exact Hl]; [done..| |done]. cbn. by destruct (spsc q).
    + rewrite app_nil_r. by eapply (slots_inv_frame q).
    + rewrite He, (app_assoc hand), (flagged_app _ (hand ++ spsc q)), (flagged_ext q (set_spsc _ q)) by done. cbn.
      change (valid (set_spsc _ q) s) with (valid q s). by rewrite Hval.
    + rewrite Etot, Hp. f_equal. lia.
    + rewrite Etot. lia.
    + done.
    + rewrite length_app. cbn. lia.
    + done.
    + done.
  - destruct (sdu_pdcp_sn s) as [sn|] eqn:Es; cbn.
    + eexists _, [s], 0, 0. split; [right; apply s_refuse|].
      eapply (upper_only _ _ _ _ (Spec _ _ _)); [exact HR|by constructor|done|].
      pose proof (sdu_length_nonneg s). cbn [entries]. lia.
    + eexists _, [], 0, 0. split; [right; apply s_refuse|]. 
      eapply (upper_only _ _ _ _ (Spec _ _ _)); [exact HR|by constructor| |].
      * rewrite (app_assoc hand), app_nil_r. eapply slots_drop_res; [by rewrite <- app_assoc|done].
      * pose proof (sdu_length_nonneg s). lia.
Qed.

Lemma live_bytes_bound c sp hand res pend dp g s :
  related c sp hand res pend dp g -> 0 <= g -> s ∈ hand ++ spsc (mem c) -> valid (mem c) s = true -> sdu_length s < 4294967296.
Proof.
  intros HR Hg Hs Hv. pose proof (r_bytes _ _ _ _ _ _ _ HR). pose proof (r_limit _ _ _ _ _ _ _ HR).
  pose proof (total_elem sdu_length _ _ _ sdu_length_nonneg Hs Hv). pose proof (sum_lengths_nonneg pend). lia.
Qed.

(** Releasing the slot after a push that failed. *)
Lemma related_undo q u l sp hand pend s sn u' st' :
  related (Conf q u l) sp hand [s] pend 0 0 -> sdu_pdcp_sn s = Some sn -> valid q s = true ->
  (forall q, prel q u' st' [] 0 0) ->
  related (Conf (set_states (arr_set (sdu_states q) (slot q sn) STATE_FREE) q) u' l) (Spec (entries sp) st' (cst sp)) hand [] pend 0 0.
Proof.
  intros HR Es Hval Hu. unfold valid in Hval. rewrite Es in Hval. destruct HR as [_ Hl Hs He Hp Hb Hlim Hn Hc Hh]. cbn [mem upper lower] in *.
  rewrite app_assoc in Hs. destruct (slots_inv_release q _ s [] sn Hs Es) as [Hs' Hv]. rewrite app_nil_r in Hs', Hv.
  pose proof (slot_range q sn (si_cap _ _ Hs)) as Hr. pose proof (si_states _ _ Hs) as Hlen.
  constructor; cbn [mem upper lower spsc set_states capacity byte_limit packed_state entries cst pst]; try done.
  - eapply crel_mono; [..|exact Hl]; [by eapply si_cap|done|done|].
    intros i Hi Hd. cbn. rewrite arr_get_set by lia. case_decide as Hx; [|done]. subst.
    destruct (si_used _ _ Hs s sn) as (Hsn & _ & _); [|done|lia]. apply elem_of_app. right. by left.
  - by rewrite app_nil_r.
  - by rewrite (flagged_ext q).
  - by rewrite (total_ext weight q).
  - by rewrite (total_ext sdu_length q).
Qed.

(** The exchange of [try_discard]. *)
Lemma flagged_discardable q l sn :
  discardable sn (flagged q l) = true <-> exists s, s ∈ l /\ sdu_pdcp_sn s = Some sn /\ valid q s = true.
Proof.
  unfold discardable, flagged. rewrite existsb_exists. split.
  - intros ((s & d) & Hin & Hd). apply in_map_iff in Hin as (x & [= <- <-] & Hx%list_elem_of_In). cbn in Hd.
    apply andb_true_iff in Hd as [Hv Hsn]. unfold has_pdcp_sn in Hsn. apply bool_decide_eq_true in Hsn.
    exists x. rewrite negb_involutive in Hv. done.
  - intros (s & Hs & Es & Hv). exists (s, negb (valid q s)). split; [apply in_map_iff; exists s; by rewrite <- list_elem_of_In|].
    cbn. unfold has_pdcp_sn. by rewrite Hv, bool_decide_true.
Qed.

Lemma mark_discarded_none q l sn :
  (forall s, s ∈ l -> sdu_pdcp_sn s = Some sn -> valid q s = false) -> mark_discarded sn (flagged q l) = flagged q l.
Proof.
  intros Hno. unfold mark_discarded, flagged. rewrite map_map. apply map_ext_in. intros s Hs%list_elem_of_In. cbn. f_equal.
  unfold has_pdcp_sn. case_bool_decide as Es; [|by rewrite orb_false_r]. by rewrite (Hno s Hs Es).
Qed.

Lemma mark_discarded_app sn l1 l2 : mark_discarded sn (l1 ++ l2) = mark_discarded sn l1 ++ mark_discarded sn l2.
Proof. apply map_app. Qed.

Lemma mark_discarded_other q l sn :
  (forall s, s ∈ l -> sdu_pdcp_sn s <> Some sn) -> mark_discarded sn (flagged q l) = flagged q l.
Proof. intros Hno. apply mark_discarded_none. intros s Hs Es. by destruct (Hno s Hs). Qed.

Lemma related_discard q l sp hand pend sn :
  related (Conf q (Some (try_discard sn)) l) sp hand [] pend 0 0 -> pst sp = PPending (OpDiscard sn) ->
  0 <= sn < STATE_DISCARDED ->
  forall p' q', step1 (try_discard sn) q = (p', q') ->
  exists sp' dp', matched sp None sp' /\ related (Conf q' (Some p') l) sp' hand [] pend dp' 0.
Proof.
  intros HR Ep Hsn p' q' E. pose proof HR as [_ Hl Hs He Hp Hb Hlim Hn Hc Hh]. cbn [mem upper lower] in *.
  rewrite app_nil_r in Hs. destruct sp as [es ps cs]. cbn in Ep, Hl, He. subst ps es.
  cbn in E. unfold cas_slot in E. destruct (Z.eqb_spec (arr_get (sdu_states q) (slot q sn)) sn) as [Est|Est];
    cbn in E; injection E as <- <-.
  - destruct (slots_inv_discard q _ sn Hs Est) as (m1 & s & m2 & Em & Es & Hv & Hs' & Hv' & Hother & Hnot); [lia|].
    set (q' := set_states (arr_set (sdu_states q) (slot q sn) STATE_DISCARDED) q) in *.
    assert (Hin : s ∈ hand ++ spsc q) by (rewrite Em; apply elem_of_app; right; by left).
    pose proof (live_bytes_bound _ _ _ _ _ _ _ _ HR ltac:(lia) Hin Hv) as Hlen.
    assert (Hm1 : forall x, x ∈ m1 -> valid q' x = valid q x) by (intros; apply Hother, elem_of_app; by left).
    assert (Hm2 : forall x, x ∈ m2 -> valid q' x = valid q x) by (intros; apply Hother, elem_of_app; by right).
    assert (Hd : discardable sn (flagged q (hand ++ spsc q)) = true) by (apply flagged_discardable; eauto).
    assert (Etot : forall w, total w q' (hand ++ spsc q) + w s = total w q (hand ++ spsc q)).
    { intros w. rewrite Em, !total_app, !total_cons, Hv, Hv', (total_ext w q q' m1), (total_ext w q q' m2) by done. lia. }
    assert (Efl : mark_discarded sn (flagged q (hand ++ spsc q)) = flagged q' (hand ++ spsc q)).
    { rewrite Em, !flagged_app, mark_discarded_app, mark_discarded_other, (flagged_ext q q' m1); [|done|].
      2: { intros x Hx. apply Hnot, elem_of_app. by left. }
      f_equal. change (s :: m2) with ([s] ++ m2). rewrite !flagged_app, mark_discarded_app, (mark_discarded_other q m2), (flagged_ext q q' m2); [|done|].
      2: { intros x Hx. apply Hnot, elem_of_app. by right. }
      f_equal. cbn. unfold has_pdcp_sn. by rewrite Hv, Hv', bool_decide_true. }
    eexists _, (weight s). split; [right; apply s_discard|]. rewrite Hd, Efl.
    pose proof (slot_range q sn (si_cap _ _ Hs)) as Hr. pose proof (si_states _ _ Hs) as Hst.
    constructor; cbn [mem upper lower spsc capacity byte_limit packed_state entries cst pst]; try done.
    + apply p_disc_ok; [|done|by eapply si_cap]. by destruct (si_used _ _ Hs s sn Hin Es) as (_ & ? & _).
    + eapply crel_mono; [..|exact Hl]; [by eapply si_cap|done|done|].
      intros i Hi Hdi. cbn. rewrite arr_get_set by lia. by case_decide.
    + by rewrite app_nil_r.
    + cbn. rewrite Hp. f_equal. change (spsc q') with (spsc q). pose proof (Etot weight). lia.
    + change (spsc q') with (spsc q). pose proof (Etot sdu_length). pose proof (sdu_length_nonneg s). cbn. lia.
  - assert (Hno : forall s, s ∈ hand ++ spsc q -> sdu_pdcp_sn s = Some sn -> valid q s = false).
    { intros s _ Es. unfold valid. rewrite Es. lia. }
    eexists _, 0. split; [right; apply s_discard|]. rewrite mark_discarded_none by done.
    destruct (discardable sn _) eqn:Hd.
    { apply flagged_discardable in Hd as (s & Hs1 & Es & Hv). by rewrite (Hno s) in Hv. }
    eapply (upper_only _ _ _ _ (Spec _ _ _)); [exact HR|apply p_disc_fail|by rewrite app_nil_r|done].
Qed.

(** A change of the packed state by the upper thread. *)
Lemma related_packed q u u' l sp hand pend dp x :
  related (Conf q u l) sp hand [] pend dp 0 -> prel (set_packed x q) u' (pst sp) [] 0 0 ->
  x = u64 (packed_state q - dp) ->
  related (Conf (set_packed x q) u' l) sp hand [] pend 0 0.
Proof.
  intros [_ Hl Hs He Hp Hb Hlim Hn Hc Hh] Hu ->. cbn [mem upper lower] in *.
  constructor; cbn [mem upper lower spsc set_packed capacity byte_limit packed_state]; try done.
  - eapply crel_mono; [..|exact Hl]; try done. by eapply si_cap.
  - by eapply (slots_inv_frame q).
  - rewrite Hp, u64_sub, (total_ext weight q (set_packed _ q)) by done. f_equal. lia.
Qed.

(** Storing the size of the SDU next to the free slot. *)
Lemma related_size q l sp hand pend s sn :
  related (Conf q (Some (write_store sn s)) l) sp hand [] pend 0 (sdu_length s) -> pst sp = PPending (OpWrite s) ->
  sdu_ok s -> sdu_pdcp_sn s = Some sn -> arr_get (sdu_states q) (slot q sn) = STATE_FREE ->
  related (Conf (set_sizes (arr_set (sdu_sizes q) (slot q sn) (sdu_length s)) q)
             (Some (_ ← atomic (store_slot sn sn); write_push s)) l) sp hand [] pend 0 (sdu_length s).
Proof.
  intros [_ Hl Hs He Hp Hb Hlim Hn Hc Hh] Ep Hok Es Hfree. cbn [mem upper lower] in *. rewrite app_nil_r in Hs.
  pose proof (slot_range q sn (si_cap _ _ Hs)) as Hr. pose proof (si_sizes _ _ Hs) as Hlen.
  constructor; cbn [mem upper lower spsc set_sizes capacity byte_limit packed_state]; try done.
  - rewrite Ep. eapply p_store1; try done. cbn. change (slot (set_sizes _ q)) with (slot q).
    rewrite arr_get_set, decide_True by (done || lia). done.
  - eapply crel_mono; [..|exact Hl]; try done. by eapply si_cap.
  - rewrite app_nil_r. destruct Hs as [Hcap ? ? Hnd Hu Hf]. split; try done; [cbn; by rewrite arr_set_length|].
    intros x sx Hx Ex. cbn. change (slot (set_sizes _ q)) with (slot q). destruct (Hu x sx Hx Ex) as (? & ? & Ho).
    pose proof (slot_range q sx Hcap). rewrite arr_get_set by lia. case_decide as Hd; [|done].
    rewrite Hd, Hfree in Ho. unfold STATE_FREE, STATE_DISCARDED in *. lia.
Qed.

Lemma producer_step q q' p p' l sp hand res pend dp g :
  related (Conf q (Some p) l) sp hand res pend dp g -> step1 p q = (p', q') ->
  exists sp' res' dp' g', matched sp None sp' /\ related (Conf q' (Some p') l) sp' hand res' pend dp' g'.
Proof.
  intros HR E. destruct sp as [es ps cs]. pose proof (r_upper _ _ _ _ _ _ _ HR) as Hu. pose proof (r_slots _ _ _ _ _ _ _ HR) as Hs. cbn [mem upper pst] in Hu, Hs.
  inversion Hu as [|b Hp Est|s Hok Hp Est|s sn Hok Es Hp Est|s sn Hok Es Hf Hp Est|s sn Hok Es Hf Hz Hp Est|s Hok Hv Hp Est
    |s sn Es Hv Hp Est|s Hlen Hp Est|sn Hsn Hp Est|sn s Hz Hlen Hc Hp Est|sn Hp Est|s Hlen Hp Est]; subst.
  - injection E as <- <-. eexists _, [], 0, 0. split; [by left|done].
  - injection E as <- <-. destruct (related_write0 _ _ _ _ _ _ HR eq_refl Hok) as (sp' & res' & g' & ? & ?).
    by exists sp', res', 0, g'.
  - unfold write_slot in E, HR. rewrite Es in E, HR. cbn in E. injection E as <- <-.
    destruct (Z.eqb_spec (arr_get (sdu_states q) (slot q sn)) STATE_FREE) as [Hf|]; cbn [negb].
    + eexists _, [], 0, (sdu_length s). split; [by left|].
      eapply (upper_only _ _ _ _ (Spec _ _ _)); [exact HR|by eapply p_store0|done|by apply HR].
    + eexists _, [], 0, 0. split; [right; apply s_refuse|].
      pose proof (r_bytes _ _ _ _ _ _ _ HR). pose proof (sdu_length_nonneg s). cbn [mem] in *.
      eapply (upper_only _ _ _ _ (Spec _ _ _)); [exact HR|apply p_done|done|lia].
  - injection E as <- <-. eexists _, [], 0, (sdu_length s). split; [by left|]. by apply related_size.
  - injection E as <- <-. eexists _, [s], 0, (sdu_length s). split; [by left|]. by apply related_reserve.
  - destruct (related_push _ _ _ _ _ _ HR eq_refl Hv p' q' E) as (sp' & res' & dp' & g' & ? & ?). eauto 8.
  - injection E as <- <-. eexists _, [], 0, 0. split; [by left|].
    eapply (related_undo q _ l (Spec _ _ _)); [exact HR|done|done|]. intros; apply p_done.
  - injection E as <- <-. eexists _, [], 0, 0. split; [by left|].
    eapply related_packed; [exact HR|apply p_done|]. f_equal.
    rewrite (state_change_weight _ s); [lia|]. apply uint_small. pose proof (sdu_length_nonneg s). lia.
  - destruct (related_discard _ _ _ _ _ _ HR eq_refl Hsn p' q' E) as (sp' & dp' & ? & ?). eauto 8.
  - injection E as <- <-. eexists _, [], (weight s), 0. split; [by left|]. rewrite Hz.
    eapply (upper_only _ _ _ _ (Spec _ _ _)); [exact HR|by apply p_sub|done|by apply HR].
  - injection E as <- <-. eexists _, [], 0, 0. split; [by left|].
    eapply (upper_only _ _ _ _ (Spec _ _ _)); [exact HR|apply p_done|done|by apply HR].
  - injection E as <- <-. eexists _, [], 0, 0. split; [by left|].
    eapply related_packed; [exact HR|apply p_done|]. f_equal.
    rewrite (state_change_weight _ s); [done|]. pose proof (sdu_length_nonneg s). unfold u32. by rewrite !uint_small by (rewrite ?uint_small; lia).
Qed.

(** *** The steps of the lower thread *)
Lemma lower_only q u l l' sp hand res pend dp g cs :
  related (Conf q u l) sp hand res pend dp g -> crel q l' cs hand pend ->
  related (Conf q u l') (Spec (entries sp) (pst sp) cs) hand res pend dp g.
Proof. intros [] ?. by constructor. Qed.

Lemma related_pop q u l l' sp res dp g s t cs :
  related (Conf q u l) sp [] res [] dp g -> spsc q = s :: t -> crel (set_spsc t q) l' cs [s] [] ->
  related (Conf (set_spsc t q) u l') (Spec (entries sp) (pst sp) cs) [s] res [] dp g.
Proof.
  intros [Hu Hl Hs He Hp Hb Hlim Hn Hc Hh] Et Hl'. cbn [mem upper lower app] in *. rewrite Et in *.
  constructor; cbn [mem upper lower spsc set_spsc capacity byte_limit packed_state app entries pst cst]; try done.
  - eapply prel_mono; [..|exact Hu]; try done. by eapply si_cap.
  - by eapply (slots_inv_frame q).
  - cbn [length] in Hn. lia.
Qed.

Lemma prel_res_ok q u p res dp g s : prel q u p res dp g -> s ∈ res -> valid q s = true.
Proof. intros H Hs. destruct H; try (by apply elem_of_nil in Hs); by apply list_elem_of_singleton in Hs as ->. Qed.

Lemma slots_inv_skip q s m : slots_inv q (s :: m) -> sdu_pdcp_sn s = None -> slots_inv q m.
Proof.
  intros Hs Es. apply (slots_drop_res q m s); [|done]. eapply slots_inv_perm; [|exact Hs]. by rewrite Permutation_app_comm.
Qed.

(** Popping an SDU without a PDCP SN delivers it. *)
Lemma related_pop_plain q u l l' sp res dp g s t cs :
  related (Conf q u l) sp [] res [] dp g -> spsc q = s :: t -> sdu_pdcp_sn s = None -> crel (set_spsc t q) l' cs [] [s] ->
  exists es, entries sp = (s, false) :: es /\ related (Conf (set_spsc t q) u l') (Spec es (pst sp) cs) [] res [s] dp g.
Proof.
  intros [Hu Hl Hs He Hp Hb Hlim Hn Hc Hh] Et Es Hl'. cbn [mem upper lower app] in *. rewrite Et in *.
  assert (Hv : valid q s = true) by (unfold valid; by rewrite Es). cbn [app length] in *.
  exists (flagged q t). split; [cbn in He; by rewrite Hv in He|].
  rewrite total_cons, Hv in Hp, Hb.
  constructor; cbn [mem upper lower spsc set_spsc capacity byte_limit packed_state app entries pst cst]; try done.
  - eapply prel_mono; [..|exact Hu]; try done. by eapply si_cap.
  - eapply (slots_inv_frame q); [done..|]. by eapply slots_inv_skip.
  - rewrite Hp, (total_ext weight q (set_spsc t q)) by done. f_equal. cbn. lia.
  - rewrite (total_ext sdu_length q (set_spsc t q)) by done. cbn in *. lia.
  - lia.
Qed.

(** The exchange that releases the slot of a popped SDU. *)
Lemma related_release q u l sp res dp g s sn :
  related (Conf q u l) sp [s] res [] dp g -> sdu_pdcp_sn s = Some sn ->
  let q' := set_states (arr_set (sdu_states q) (slot q sn) STATE_FREE) q in
  let pend := if valid q s then [s] else [] in
  exists es, entries sp = (s, negb (valid q s)) :: es /\
    forall l' cs, crel q' l' cs [] pend -> related (Conf q' u l') (Spec es (pst sp) cs) [] res pend dp g.
Proof.
  intros [Hu Hl Hs He Hp Hb Hlim Hn Hc Hh] Es q' pend. cbn [mem upper lower app] in *.
  destruct (slots_inv_release q [] s (spsc q ++ res) sn Hs Es) as [Hs' Hv]. cbn [app] in Hs', Hv.
  assert (Hvs : forall x, x ∈ spsc q -> valid q' x = valid q x) by (intros; apply Hv, elem_of_app; by left).
  assert (Hvr : forall x, x ∈ res -> valid q' x = valid q x) by (intros; apply Hv, elem_of_app; by right).
  pose proof (slot_range q sn (si_cap _ _ Hs)) as Hr. pose proof (si_states _ _ Hs) as Hlen.
  exists (flagged q (spsc q)). split; [done|]. intros l' cs Hl'.
  rewrite total_cons in Hp, Hb. cbn [sum_lengths foldr weights] in Hp, Hb.
  constructor; cbn [mem upper lower spsc capacity byte_limit packed_state app entries pst cst]; try done.
  - eapply prel_mono; [..|exact Hu]; try done; [by eapply si_cap|]. intros i Hi Hf. cbn. rewrite arr_get_set by lia. by case_decide.
  - by rewrite (flagged_ext q q').
  - change (packed_state q = u64 (total weight q' (spsc q) + weights pend + dp)).
    rewrite Hp, (total_ext weight q q') by done. f_equal. unfold pend. destruct (valid q s); cbn; lia.
  - change (total sdu_length q' (spsc q) + sum_lengths pend + g <= byte_limit q).
    rewrite (total_ext sdu_length q q') by done. unfold pend. destruct (valid q s); cbn in *; lia.
  - unfold pend. cbn. destruct (valid q s); cbn; lia.
Qed.

(** The subtraction after the release. *)
Lemma related_subtract q u l l' sp res dp g s cs x :
  related (Conf q u l) sp [] res [s] dp g -> x = u64 (packed_state q - weight s) ->
  crel (set_packed x q) l' cs [] [] -> related (Conf (set_packed x q) u l') (Spec (entries sp) (pst sp) cs) [] res [] dp g.
Proof.
  intros [Hu Hl Hs He Hp Hb Hlim Hn Hc Hh] -> Hl'. cbn [mem upper lower app] in *. cbn [weights sum_lengths foldr] in Hp, Hb.
  constructor; cbn [mem upper lower spsc set_packed capacity byte_limit packed_state app entries pst cst]; try done.
  - eapply prel_mono; [..|exact Hu]; try done. by eapply si_cap.
  - by eapply (slots_inv_frame q).
  - rewrite Hp, u64_sub, (total_ext weight q (set_packed _ q)) by done. f_equal. cbn. lia.
  - rewrite (total_ext sdu_length q (set_packed _ q)) by done. cbn. pose proof (sdu_length_nonneg s). lia.
  - cbn. lia.
Qed.

Lemma related_granted c sp hand res pend dp g : related c sp hand res pend dp g -> 0 <= g.
Proof. intros HR. destruct (r_upper _ _ _ _ _ _ _ HR); try apply sdu_length_nonneg; done. Qed.

Lemma popped_slot q u l sp res pend dp g s sn :
  related (Conf q u l) sp [s] res pend dp g -> sdu_pdcp_sn s = Some sn ->
  0 <= sn < STATE_DISCARDED /\ arr_get (sdu_sizes q) (slot q sn) = sdu_length s /\
  arr_get (sdu_states q) (slot q sn) = (if valid q s then sn else STATE_DISCARDED).
Proof.
  intros HR Es. destruct (si_used _ _ (r_slots _ _ _ _ _ _ _ HR) s sn) as (H1 & H2 & H3); [by left|done|]. cbn [mem] in *.
  split; [done|]. split; [done|]. unfold valid. rewrite Es. destruct H3 as [-> | ->].
  - by rewrite Z.eqb_refl.
  - destruct (Z.eqb_spec STATE_DISCARDED sn); [lia|done].
Qed.

(** After the exchange of [release], for [read]. *)
Lemma read_release_step q u es p0 out res dp g s sn :
  related (Conf q u (CReading (v ← release sn (sdu_length s); read_release s v)))
    (Spec es p0 (SPending (OpRead out))) [s] res [] dp g -> sdu_pdcp_sn s = Some sn ->
  forall p' q', step1 (v ← release sn (sdu_length s); read_release s v) q = (p', q') ->
  exists sp' pend', matched (Spec es p0 (SPending (OpRead out))) None sp' /\
    related (Conf q' u (CReading p')) sp' [] res pend' dp g.
Proof.
  intros HR Es p' q' E. destruct (popped_slot _ _ _ _ _ _ _ _ _ _ HR Es) as (Hsn & _ & Hst).
  destruct (related_release _ _ _ _ _ _ _ _ _ HR Es) as (es' & Hes & HR'). cbn [entries pst] in Hes, HR'. subst es.
  pose proof (related_granted _ _ _ _ _ _ _ HR) as Hg.
  pose proof (live_bytes_bound _ _ _ _ _ _ _ s HR Hg ltac:(by left)) as Hlen. cbn [mem] in Hlen.
  cbn in E. unfold exchange_slot in E. injection E as <- <-. rewrite Hst.
  destruct (valid q s) eqn:Hv; cbn [negb andb].
  - rewrite Z.eqb_refl. cbn [negb andb]. eexists _, _. split; [right; apply s_read_ok|]. apply HR'.
    apply (c_sub _ _ (u32 (sdu_length s)) true); [done|]. pose proof (sdu_length_nonneg s). unfold u32. rewrite !uint_small; (done || rewrite ?uint_small; lia).
  - rewrite (proj2 (Z.eqb_neq _ _)) by lia. rewrite Z.eqb_refl. cbn. eexists _, _. split; [right; apply s_read_drop|].
    apply HR'. apply c_read_again.
Qed.

Lemma reader_step q q' p p' u sp hand res pend dp g :
  related (Conf q u (CReading p)) sp hand res pend dp g -> step1 p q = (p', q') ->
  exists sp' hand' pend', matched sp None sp' /\ related (Conf q' u (CReading p')) sp' hand' res pend' dp g.
Proof.
  intros HR E. destruct sp as [es p0 cs]. pose proof (r_lower _ _ _ _ _ _ _ HR) as Hl. cbn [mem lower cst] in Hl.
  inversion Hl as [|out s Hp| |out s sn Es Hp|out s sn Es Hp|s n ok Hok Hn Hp|ok s Hp| | | | | | | | |]; subst.
  - cbn in E. unfold try_pop in E. destruct (spsc q) as [|s0 t] eqn:Et; injection E as <- <-.
    + exists (Spec es p0 (SDone (RRead false s))), [], []. split; [|eapply (lower_only _ _ _ _ (Spec _ _ _)); [exact HR|apply c_read_done]].
      pose proof (r_entries _ _ _ _ _ _ _ HR) as He. cbn in He. rewrite Et in He. cbn in He. subst es. right. apply s_read_empty.
    + unfold read_popped. destruct (sdu_pdcp_sn s0) as [sn|] eqn:Es.
      * eexists _, [s0], []. split; [by left|]. eapply (related_pop _ _ _ _ (Spec _ _ _)); [exact HR|done|].
        by apply (c_popped _ out s0 sn).
      * destruct (related_pop_plain _ _ _ (CReading (_ ← atomic (state_sub (sdu_length s0)); v ← mret true; read_release s0 v)) _ _ _ _ s0 t (SDone (RRead true s0)) HR Et Es)
          as (es' & Hes & HR').
        { apply c_sub; [done|]. apply uint_small. pose proof (sdu_length_nonneg s0).
          pose proof (live_bytes_bound _ _ _ _ _ _ _ s0 HR (related_granted _ _ _ _ _ _ _ HR)) as Hb. cbn [mem] in Hb. rewrite Et in Hb.
          split; [done|]. apply Hb; [by left|]. unfold valid. by rewrite Es. }
        cbn in Hes. subst es. eexists _, [], [s0]. split; [right; apply s_read_ok|exact HR'].
  - injection E as <- <-. eexists _, [], []. split; [by left|exact HR].
  - destruct (popped_slot _ _ _ _ _ _ _ _ _ _ HR Es) as (_ & Hsz & _). cbn in E. rewrite Hsz in E. injection E as <- <-.
    eexists _, [s], []. split; [by left|]. eapply (lower_only _ _ _ _ (Spec _ _ _)); [exact HR|by apply (c_sized _ out s sn)].
  - destruct (read_release_step _ _ _ _ _ _ _ _ _ _ HR Es _ _ E) as (sp' & pend' & ? & ?). eauto.
  - injection E as <- <-. eexists _, [], []. split; [by left|].
    eapply (related_subtract _ _ _ _ (Spec _ _ _)); [exact HR| |apply c_read_done].
    by rewrite (state_change_weight _ s).
  - injection E as <- <-. eexists _, [], []. split; [by left|exact HR].
Qed.

Lemma fronter_step q q' p p' u sp hand res pend dp g :
  related (Conf q u (CFronting p)) sp hand res pend dp g -> step1 p q = (p', q') ->
  exists sp' hand' pend', matched sp None sp' /\ related (Conf q' u (CFronting p')) sp' hand' res pend' dp g.
Proof.
  intros HR E. destruct sp as [es p0 cs]. pose proof (r_lower _ _ _ _ _ _ _ HR) as Hl. cbn [mem lower cst] in Hl.
  pose proof (r_entries _ _ _ _ _ _ _ HR) as He. cbn [mem entries] in He.
  inversion Hl as [| | | | | | | | |s sn Es Hh Hp|s sn Es Hh Hd Hp|s sn Es Hd Hp|s sn n Es Hd Hp|r Hp| |]; subst.
  - cbn in E. unfold spsc_front in E. destruct (spsc q) as [|s t] eqn:Et; injection E as <- <-; cbn [head].
    + cbn. exists (Spec [] p0 (SDone (RFront None))), [], []. split; [right; apply s_front_empty|].
      eapply (lower_only _ _ _ _ (Spec _ _ _)); [exact HR|apply c_front_done].
    + destruct (sdu_pdcp_sn s) as [sn|] eqn:Es.
      * eexists _, [], []. split; [by left|]. eapply (lower_only _ _ _ _ (Spec _ _ _)); [exact HR|].
        apply c_front_check; [done|by rewrite Et].
      * eexists _, [], []. split; [right|eapply (lower_only _ _ _ _ (Spec _ _ _)); [exact HR|apply c_front_done]].
        cbn. unfold valid. rewrite Es. apply s_front_ok.
  - injection E as <- <-. eexists _, [], []. split; [by left|exact HR].
  - destruct (spsc q) as [|s0 t] eqn:Et; [done|]. injection Hh as ->. cbn in E. injection E as <- <-.
    assert (Hv : valid q s = (arr_get (sdu_states q) (slot q sn) =? sn)) by (unfold valid; by rewrite Es).
    unfold front_checked. destruct (Z.eqb_spec (arr_get (sdu_states q) (slot q sn)) sn) as [Hx|Hx]; cbn [negb].
    + eexists _, [], []. split; [right|eapply (lower_only _ _ _ _ (Spec _ _ _)); [exact HR|apply c_front_done]].
      cbn. rewrite Hv. apply s_front_ok.
    + eexists _, [], []. split; [by left|]. eapply (lower_only _ _ _ _ (Spec _ _ _)); [exact HR|].
      apply (c_front_pop _ s); [done|by rewrite Et|].
      destruct (si_used _ _ (r_slots _ _ _ _ _ _ _ HR) s sn) as (_ & _ & [?|?]); [cbn; rewrite Et; by left|done..].
  - destruct (spsc q) as [|s0 t] eqn:Et; [done|]. injection Hh as ->. cbn in E. unfold try_pop in E. rewrite Et in E.
    injection E as <- <-. unfold front_popped. rewrite bool_decide_true by done. cbn [negb].
    eexists _, [s], []. split; [by left|]. eapply (related_pop _ _ _ _ (Spec _ _ _)); [exact HR|done|by apply (c_front_popped _ s)].
  - cbn in E. injection E as <- <-. eexists _, [s], []. split; [by left|].
    eapply (lower_only _ _ _ _ (Spec _ _ _)); [exact HR|by apply (c_front_sized _ s)].
  - destruct (popped_slot _ _ _ _ _ _ _ _ _ _ HR Es) as (Hsn & _ & _).
    destruct (related_release _ _ _ _ _ _ _ _ _ HR Es) as (es' & Hes & HR'). cbn [entries pst] in Hes, HR'.
    assert (Hv : valid q s = false) by (unfold valid; rewrite Es, Hd; lia). rewrite Hv in *.
    cbn in E. unfold exchange_slot in E. injection E as <- <-. rewrite Hd, Hes.
    rewrite (proj2 (Z.eqb_neq _ _)) by lia. rewrite Z.eqb_refl. cbn [negb andb].
    eexists _, [], []. split; [right; apply s_front_drop|]. apply HR'. apply c_front_again.
  - injection E as <- <-. eexists _, [], []. split; [by left|exact HR].
Qed.

Lemma loader_step q q' p p' u sp hand res pend dp g :
  related (Conf q u (CLoading p)) sp hand res pend dp g -> step1 p q = (p', q') ->
  exists sp', matched sp None sp' /\ related (Conf q' u (CLoading p')) sp' hand res pend dp g.
Proof.
  intros HR E. destruct sp as [es p0 cs]. pose proof (r_lower _ _ _ _ _ _ _ HR) as Hl. cbn [mem lower cst] in Hl.
  inversion Hl; subst; injection E as <- <-.
  - eexists. split; [right; apply s_state|]. eapply (lower_only _ _ _ _ (Spec _ _ _)); [exact HR|apply c_load_done].
  - eexists. split; [by left|exact HR].
Qed.

(** *** Every step is matched *)
Definition simulated (c : conf) (sp : spec) : Prop :=
  exists hand res pend dp g, related c sp hand res pend dp g.

Lemma upper_call q l sp hand res pend dp g op :
  related (Conf q None l) sp hand res pend dp g -> op_ok op ->
  matched sp (Some (CallP op)) (Spec (entries sp) (PPending op) (cst sp)) /\
  simulated (Conf q (Some (producer_start (byte_limit q) op)) l) (Spec (entries sp) (PPending op) (cst sp)).
Proof.
  intros HR Hop. destruct sp as [es p0 cs]. pose proof (r_upper _ _ _ _ _ _ _ HR) as Hu. cbn [mem upper pst] in Hu.
  inversion Hu; subst. split; [right; apply s_call_p|]. exists hand, [], pend, 0, 0.
  eapply (upper_only _ _ _ _ (Spec _ _ _)); [exact HR| |by apply HR|by apply HR].
  destruct op; [by apply p_write0|by apply p_disc0].
Qed.

Lemma lower_call q u sp hand res pend dp g op :
  related (Conf q u CIdle) sp hand res pend dp g ->
  matched sp (Some (CallC op)) (Spec (entries sp) (pst sp) (SPending op)) /\
  simulated (Conf q u (consumer_start op)) (Spec (entries sp) (pst sp) (SPending op)).
Proof.
  intros HR. destruct sp as [es p0 cs]. pose proof (r_lower _ _ _ _ _ _ _ HR) as Hl. cbn [mem lower cst] in Hl.
  inversion Hl; subst. split; [right; apply s_call_c|]. exists [], res, [], dp, g.
  eapply (lower_only _ _ _ _ (Spec _ _ _)); [exact HR|]. destruct op; constructor.
Qed.

Lemma lower_return q u l sp hand res pend dp g r :
  related (Conf q u l) sp hand res pend dp g -> cst sp = SDone r -> hand = [] -> pend = [] ->
  matched sp (Some (RetC r)) (Spec (entries sp) (pst sp) SIdle) /\
  simulated (Conf q u CIdle) (Spec (entries sp) (pst sp) SIdle).
Proof.
  intros HR Ec -> ->. destruct sp as [es p0 cs]. cbn in Ec. subst cs. split; [right; apply s_ret_c|].
  exists [], res, [], dp, g. eapply (lower_only _ _ _ _ (Spec _ _ _)); [exact HR|constructor].
Qed.

Lemma simulation c sp o c' :
  simulated c sp -> cstep c o c' -> exists sp', matched sp o sp' /\ simulated c' sp'.
Proof.
  intros (hand & res & pend & dp & g & HR) Hs.
  destruct Hs as [q op l Hop|q q' p p' l E|q b l|q u op|q q' u p p' E|q u s|q u ok s|q q' u p p' E|q u|q u r|q q' u p p' E|q u st].
  - eexists. eapply upper_call; [exact HR|done].
  - destruct (producer_step _ _ _ _ _ _ _ _ _ _ _ HR E) as (sp' & ? & ? & ? & ? & ?). exists sp'. split; [done|]. unfold simulated. eauto 8.
  - destruct sp as [es p0 cs]. pose proof (r_upper _ _ _ _ _ _ _ HR) as Hu. cbn [mem upper pst] in Hu. 
    inversion Hu; subst; try (unfold write_slot in *; simplify_option_eq).
    eexists. split; [right; apply s_ret_p|]. exists hand, [], pend, 0, 0.
    eapply (upper_only _ _ _ _ (Spec _ _ _)); [exact HR|constructor|by apply HR|by apply HR].
  - eexists. eapply lower_call. exact HR.
  - destruct (reader_step _ _ _ _ _ _ _ _ _ _ _ HR E) as (sp' & ? & ? & ? & ?). exists sp'. split; [done|]. unfold simulated. eauto 8.
  - destruct sp as [es p0 cs]. pose proof (r_lower _ _ _ _ _ _ _ HR) as Hl. cbn [mem lower cst] in Hl. inversion Hl; subst.
    eexists. split; [by left|]. exists [], res, [], dp, g. eapply (lower_only _ _ _ _ (Spec _ _ _)); [exact HR|constructor].
  - destruct sp as [es p0 cs]. pose proof (r_lower _ _ _ _ _ _ _ HR) as Hl. cbn [mem lower cst] in Hl. inversion Hl; subst.
    eexists. eapply (lower_return _ _ _ (Spec _ _ _)); [exact HR|done..].
  - destruct (fronter_step _ _ _ _ _ _ _ _ _ _ _ HR E) as (sp' & ? & ? & ? & ?). exists sp'. split; [done|]. unfold simulated. eauto 8.
  - destruct sp as [es p0 cs]. pose proof (r_lower _ _ _ _ _ _ _ HR) as Hl. cbn [mem lower cst] in Hl. inversion Hl; subst.
    eexists. split; [by left|]. exists [], res, [], dp, g. eapply (lower_only _ _ _ _ (Spec _ _ _)); [exact HR|constructor].
  - destruct sp as [es p0 cs]. pose proof (r_lower _ _ _ _ _ _ _ HR) as Hl. cbn [mem lower cst] in Hl. inversion Hl; subst.
    eexists. eapply (lower_return _ _ _ (Spec _ _ _)); [exact HR|done..].
  - destruct (loader_step _ _ _ _ _ _ _ _ _ _ _ HR E) as (sp' & ? & ?). exists sp'. split; [done|]. unfold simulated. eauto 8.
  - destruct sp as [es p0 cs]. pose proof (r_lower _ _ _ _ _ _ _ HR) as Hl. cbn [mem lower cst] in Hl. inversion Hl; subst.
    eexists. eapply (lower_return _ _ _ (Spec _ _ _)); [exact HR|done..].
Qed.

Lemma arr_get_replicate n v i : 0 <= i < Z.of_nat n -> arr_get (replicate n v) i = v.
Proof. intros. unfold arr_get. apply lookup_total_replicate_2. lia. Qed.

Lemma slots_inv_new cap limit : 0 < cap -> slots_inv (sdu_queue_new cap limit) [].
Proof.
  intros Hc. split; cbn; try done; try (rewrite length_replicate; lia); [apply NoDup_nil_2|by intros s sn ?%elem_of_nil|].
  intros i Hi _. apply arr_get_replicate. lia.
Qed.

Definition sdu_queue_conf (cap limit : Z) : conf := Conf (sdu_queue_new cap limit) None CIdle.
Definition spec_init : spec := Spec [] PIdle SIdle.

Lemma simulated_init cap limit :
  0 < cap < 4294967294 -> 0 <= limit < 4294967296 -> simulated (sdu_queue_conf cap limit) spec_init.
Proof.
  intros Hc Hl. exists [], [], [], 0, 0.
  constructor; [apply p_idle|apply c_idle|apply slots_inv_new; lia|..]; cbn; (done || lia).
Qed.

Lemma simulation_run cap limit tr c :
  0 < cap < 4294967294 -> 0 <= limit < 4294967296 -> csteps (sdu_queue_conf cap limit) tr c ->
  exists sp, ssteps spec_init tr sp /\ simulated c sp.
Proof.
  intros Hc Hl Hs. remember (sdu_queue_conf cap limit) as c0 eqn:E0.
  induction Hs as [c|c1 c2 c3 tr Hs IH Hstep|c1 c2 c3 tr a Hs IH Hstep]; subst.
  - exists spec_init. split; [constructor|by apply simulated_init].
  - destruct (IH eq_refl) as (sp & Hsp & Hsim). destruct (simulation _ _ _ _ Hsim Hstep) as (sp' & [[-> _]|Hm] & Hsim').
    + eauto.
    + exists sp'. split; [by eapply ssteps_tau|done].
  - destruct (IH eq_refl) as (sp & Hsp & Hsim). destruct (simulation _ _ _ _ Hsim Hstep) as (sp' & [[_ ?]|Hm] & Hsim'); [done|].
    exists sp'. split; [by eapply ssteps_label|done].
Qed.

(** ** The theorems *)

(** C24. The lock-free queue is linearizable: whatever the interleaving of the atomic accesses of the upper-layer and the
    lower-layer thread, the calls and returns that the two threads see are those of a queue whose operations take effect at
    once: SDUs are read in the order in which they were written, [try_discard] succeeds exactly when its SDU is queued and
    not discarded, a discarded SDU is never returned by [read] or [front], and an SDU that is not discarded is never lost. *)
Theorem sdu_queue_linearizable cap limit tr c :
  0 < cap < 4294967294 -> 0 <= limit < 4294967296 -> csteps (sdu_queue_conf cap limit) tr c ->
  exists sp, ssteps spec_init tr sp.
Proof. intros Hc Hl Hs. destruct (simulation_run cap limit tr c Hc Hl Hs) as (sp & ? & _). by exists sp. Qed.

(** The queued SDUs that are not discarded. *)
Definition live_sdus q : list rlc_sdu := filter (fun s => valid q s = true) (spsc q).

Lemma total_live q l : total (fun _ => 1) q l = Z.of_nat (length (filter (fun s => valid q s = true) l)) /\
  total sdu_length q l = sum_lengths (filter (fun s => valid q s = true) l).
Proof.
  induction l as [|s l [IH1 IH2]]; [done|]. rewrite !total_cons, IH1, IH2, filter_cons.
  destruct (valid q s) eqn:Hv.
  - rewrite decide_True by done. cbn [length sum_lengths foldr]. unfold sum_lengths. split; lia.
  - rewrite decide_False by done. split; lia.
Qed.

(** The counters of the queue: after any interleaving, whenever no operation is in progress, the packed state holds
    exactly the number and the total length of the queued SDUs that are not discarded, the total does not exceed the byte
    limit, and the queue holds at most [capacity] SDUs. *)
Theorem sdu_queue_counters_exact cap limit tr q :
  0 < cap < 4294967294 -> 0 <= limit < 4294967296 -> csteps (sdu_queue_conf cap limit) tr (Conf q None CIdle) ->
  sdu_queue_state q = (Z.of_nat (length (live_sdus q)), sum_lengths (live_sdus q)) /\
  sum_lengths (live_sdus q) <= byte_limit q /\ Z.of_nat (length (spsc q)) <= capacity q.
Proof.
  intros Hc Hl Hs. destruct (simulation_run cap limit tr _ Hc Hl Hs) as (sp & _ & hand & res & pend & dp & g & HR).
  pose proof (r_upper _ _ _ _ _ _ _ HR) as Hu. pose proof (r_lower _ _ _ _ _ _ _ HR) as Hlow. cbn [mem upper lower] in *.
  inversion Hu; inversion Hlow; subst. pose proof (related_state _ _ _ _ _ _ HR ltac:(lia)) as Est.
  pose proof (r_bytes _ _ _ _ _ _ _ HR) as Hb. pose proof (r_count _ _ _ _ _ _ _ HR) as Hn. cbn [mem app sum_lengths foldr length] in *.
  destruct (total_live q (spsc q)) as [E1 E2]. unfold sdu_queue_state, live_sdus. rewrite Est, E1, E2 in *.
  split; [f_equal; lia|]. split; [lia|done].
Qed.

(** Building runs: the trace is known, the configurations are computed. *)
Lemma upper_access q p l : cstep (Conf q (Some p) l) None (Conf (step1 p q).2 (Some (step1 p q).1) l).
Proof. apply step_p. by destruct (step1 p q). Qed.
Lemma read_access q u p : cstep (Conf q u (CReading p)) None (Conf (step1 p q).2 u (CReading (step1 p q).1)).
Proof. apply step_read. by destruct (step1 p q). Qed.
Lemma load_access q u p : cstep (Conf q u (CLoading p)) None (Conf (step1 p q).2 u (CLoading (step1 p q).1)).
Proof. apply step_load. by destruct (step1 p q). Qed.

Tactic Notation "take_tau" hyp(H) uconstr(r) := let H' := fresh in pose proof (csteps_tau _ _ _ _ H r) as H'; clear H; rename H' into H; cbn in H.
Tactic Notation "take_label" hyp(H) uconstr(r) := let H' := fresh in pose proof (csteps_label _ _ _ _ _ H r) as H'; clear H; rename H' into H; cbn in H.

(** While a write is between its push and the update of the packed state, the lower layer can read the SDU and subtract
    it first: [get_state] then returns wrapped counters, here 4294967294 SDUs and 4294967293 bytes for an empty queue. *)
Theorem sdu_queue_transient_underflow :
  let s := Sdu [128; 7; 9] false None 0 in
  exists c, csteps (sdu_queue_conf 4 1000)
    [CallP (OpWrite s); CallC (OpRead s); RetC (RRead true s); CallC OpState; RetC (RState (4294967294, 4294967293))] c /\
    spsc (mem c) = [].
Proof.
  intros s. pose proof (csteps_nil (sdu_queue_conf 4 1000)) as H.
  take_label H (step_call_p (sdu_queue_new 4 1000) (OpWrite s) CIdle ltac:(by intros sn [=])).
  take_tau H (upper_access _ _ CIdle). take_tau H (upper_access _ _ CIdle).
  take_label H (step_call_c _ _ (OpRead s)). take_tau H (read_access _ _ _).
  take_tau H (read_access _ _ _). take_label H (step_read_ret _ _ _ _).
  take_label H (step_call_c _ _ OpState). take_tau H (load_access _ _ _). take_label H (step_load_ret _ _ _).
  eexists. split; [exact H|reflexivity].
Qed.

(** ** Witnesses *)
Definition example_sdu : rlc_sdu := Sdu [128; 7; 9] false (Some 7) 0.

(** An SDU is written and discarded while the lower layer looks at the front. *)
Lemma example_run :
  exists q, csteps (sdu_queue_conf 4 1000) [CallP (OpWrite example_sdu); RetP true] (Conf q None CIdle) /\ spsc q = [example_sdu].
Proof.
  pose proof (csteps_nil (sdu_queue_conf 4 1000)) as H.
  take_label H (step_call_p (sdu_queue_new 4 1000) (OpWrite example_sdu) CIdle ltac:(by intros sn [= <-])).
  do 6 take_tau H (upper_access _ _ CIdle). take_label H (step_ret_p _ _ CIdle).
  eexists. split; [exact H|reflexivity].
Qed.

Lemma sdu_queue_linearizable_witness : exists sp, ssteps spec_init [CallP (OpWrite example_sdu); RetP true] sp.
Proof.
  destruct example_run as (q & Hq & _). apply (sdu_queue_linearizable 4 1000 _ (Conf q None CIdle)); [lia|lia|exact Hq].
Defined.

Lemma sdu_queue_counters_exact_witness :
  exists q, spsc q = [example_sdu] /\
    sdu_queue_state q = (Z.of_nat (length (live_sdus q)), sum_lengths (live_sdus q)) /\
    sum_lengths (live_sdus q) <= byte_limit q /\ Z.of_nat (length (spsc q)) <= capacity q.
Proof.
  destruct example_run as (q & Hq & Es). exists q. split; [exact Es|].
  apply (sdu_queue_counters_exact 4 1000 _ q ltac:(lia) ltac:(lia) Hq).
Defined.
