(* ===== verification/SduQueueSeq.v ===== *)
(** * The SDU queue without interference

    What the operations of [SduQueue] do when they run alone, as the transmitting entities of this development call them.
    They are single threads of [SduQueueConc], so their effect is read off the specification there. *)
From S2P Require Import Prelude SduQueue SduQueueConc.

Implicit Types q : rlc_sdu_queue_lockfree.

(** The queue between operations. *)
Definition queue_ok q : Prop := related (Conf q None CIdle) (Spec (flagged q (spsc q)) PIdle SIdle) [] [] [] 0 0.

Lemma queue_ok_new cap limit : 0 < cap < 4294967294 -> 0 <= limit < 4294967296 -> queue_ok (sdu_queue_new cap limit).
Proof.
  intros Hc Hl. constructor; [apply p_idle|apply c_idle|apply slots_inv_new; lia|..]; cbn; (done || lia).
Qed.

Lemma queue_ok_intro q es hand res pend dp g :
  related (Conf q None CIdle) (Spec es PIdle SIdle) hand res pend dp g -> queue_ok q /\ es = flagged q (spsc q).
Proof.
  intros HR. pose proof (r_upper _ _ _ _ _ _ _ HR) as Hu. pose proof (r_lower _ _ _ _ _ _ _ HR) as Hl.
  cbn [mem upper lower pst cst] in *. inversion Hu; inversion Hl; subst.
  pose proof (r_entries _ _ _ _ _ _ _ HR) as He. cbn in He. subst. done.
Qed.

(** ** Running a thread alone *)
Lemma matched_upper es ps sp' :
  matched (Spec es ps SIdle) None sp' -> exists es' ps', sp' = Spec es' ps' SIdle /\
    ((es' = es /\ ps' = ps) \/
     (exists s, ps = PPending (OpWrite s) /\ ((es' = es ++ [(s, false)] /\ ps' = PDone true) \/ (es' = es /\ ps' = PDone false))) \/
     (exists sn, ps = PPending (OpDiscard sn) /\ es' = mark_discarded sn es /\ ps' = PDone (discardable sn es))).
Proof.
  intros [[-> _]|Hs]; [eexists _, _; split; [done|]; by left|]. inversion Hs; subst; eexists _, _; (split; [done|]); right; eauto 10.
Qed.

Definition upper_effect (op : producer_op) (es : list (rlc_sdu * bool)) (b : bool) (es' : list (rlc_sdu * bool)) : Prop :=
  match op with
  | OpWrite s => if b then es' = es ++ [(s, false)] else es' = es
  | OpDiscard sn => es' = mark_discarded sn es /\ b = discardable sn es
  end.

Lemma exec_upper_done p : forall q es b0 res dp g,
  related (Conf q (Some p) CIdle) (Spec es (PDone b0) SIdle) [] res [] dp g ->
  (exec p q).1 = b0 /\ es = flagged (exec p q).2 (spsc (exec p q).2) /\ queue_ok (exec p q).2.
Proof.
  induction p as [a|B f k IH]; intros q es b0 res dp g HR.
  - pose proof (r_upper _ _ _ _ _ _ _ HR) as Hu. cbn [mem upper pst] in Hu.
    inversion Hu; subst; try (unfold write_slot in *; simplify_option_eq).
    cbn. destruct (queue_ok_intro q es [] [] [] 0 0) as [? ?]; [|done].
    eapply (upper_only _ _ _ _ (Spec _ _ _)); [exact HR|constructor|by apply HR|by apply HR].
  - cbn. destruct (f q) as [x q'] eqn:Ef.
    destruct (producer_step q q' _ (k x) _ _ _ _ _ _ _ HR) as (sp' & res' & dp' & g' & Hm & HR'); [cbn; by rewrite Ef|].
    apply matched_upper in Hm as (es' & ps' & -> & [[-> ->]|[(s & [=] & _)|(sn & [=] & _)]]).
    by eapply IH.
Qed.

Lemma exec_upper_pending op p : forall q es res dp g,
  related (Conf q (Some p) CIdle) (Spec es (PPending op) SIdle) [] res [] dp g ->
  queue_ok (exec p q).2 /\ upper_effect op es (exec p q).1 (flagged (exec p q).2 (spsc (exec p q).2)).
Proof.
  induction p as [a|B f k IH]; intros q es res dp g HR.
  - pose proof (r_upper _ _ _ _ _ _ _ HR) as Hu. cbn [mem upper pst] in Hu.
    inversion Hu; subst; unfold write_slot in *; simplify_option_eq.
  - cbn. destruct (f q) as [x q'] eqn:Ef.
    destruct (producer_step q q' _ (k x) _ _ _ _ _ _ _ HR) as (sp' & res' & dp' & g' & Hm & HR'); [cbn; by rewrite Ef|].
    apply matched_upper in Hm as (es' & ps' & -> & [[-> ->]|[(s & [= ->] & [[-> ->]|[-> ->]])|(sn & [= ->] & -> & ->)]]).
    + by eapply IH.
    + destruct (exec_upper_done _ _ _ _ _ _ _ HR') as (-> & <- & ?). done.
    + destruct (exec_upper_done _ _ _ _ _ _ _ HR') as (-> & <- & ?). done.
    + destruct (exec_upper_done _ _ _ _ _ _ _ HR') as (-> & <- & ?). done.
Qed.

Lemma exec_upper op q :
  queue_ok q -> op_ok op ->
  let r := exec (producer_start (byte_limit q) op) q in
  queue_ok r.2 /\ upper_effect op (flagged q (spsc q)) r.1 (flagged r.2 (spsc r.2)).
Proof.
  intros Hq Hop. destruct (upper_call _ _ _ _ _ _ _ _ op Hq Hop) as [_ (hand & res & pend & dp & g & HR)].
  pose proof (r_lower _ _ _ _ _ _ _ HR) as Hl. cbn in Hl. inversion Hl; subst. by eapply exec_upper_pending.
Qed.

(** *** The lower thread *)
Lemma live_flagged q l : live (flagged q l) = filter (fun s => valid q s = true) l.
Proof.
  unfold live, flagged. induction l as [|s l IH]; [done|]. cbn [map]. rewrite !filter_cons. cbn [snd].
  destruct (valid q s); cbn [negb]; repeat case_decide; try done; cbn; by rewrite IH.
Qed.

Lemma live_cons s d l : live ((s, d) :: l) = (if d then [] else [s]) ++ live l.
Proof. unfold live. rewrite filter_cons. cbn [snd]. destruct d; case_decide; done. Qed.

Lemma matched_reader es out sp' :
  matched (Spec es PIdle (SPending (OpRead out))) None sp' -> exists es' cs', sp' = Spec es' PIdle cs' /\
    ((cs' = SPending (OpRead out) /\ live es' = live es) \/
     (exists s, cs' = SDone (RRead true s) /\ live es = s :: live es') \/
     (exists s, cs' = SDone (RRead false s) /\ es' = [] /\ es = [])).
Proof.
  intros [[-> _]|Hs]; [eexists _, _; split; [done|]; by left|].
  inversion Hs; subst; eexists _, _; (split; [done|]); rewrite ?live_cons; eauto 10.
Qed.

Lemma exec_reader_done p : forall q es ok s hand pend,
  related (Conf q None (CReading p)) (Spec es PIdle (SDone (RRead ok s))) hand [] pend 0 0 ->
  (exec p q).1 = inr (ok, s) /\ es = flagged (exec p q).2 (spsc (exec p q).2) /\ queue_ok (exec p q).2.
Proof.
  induction p as [a|B f k IH]; intros q es ok s hand pend HR.
  - pose proof (r_lower _ _ _ _ _ _ _ HR) as Hl. cbn [mem lower cst] in Hl. inversion Hl; subst.
    cbn. destruct (queue_ok_intro q es [] [] [] 0 0) as [? ?]; [|done].
    eapply (lower_only _ _ _ _ (Spec _ _ _)); [exact HR|constructor].
  - cbn. destruct (f q) as [x q'] eqn:Ef.
    destruct (reader_step q q' _ (k x) _ _ _ _ _ _ _ HR) as (sp' & hand' & pend' & Hm & HR'); [cbn; by rewrite Ef|].
    destruct Hm as [[-> _]|Hs]; [|inversion Hs]. by eapply IH.
Qed.

Lemma exec_reader p : forall q es out hand pend,
  related (Conf q None (CReading p)) (Spec es PIdle (SPending (OpRead out))) hand [] pend 0 0 ->
  match (exec p q).1 with
  | inl s => exists es', live es' = live es /\
      related (Conf (exec p q).2 None (CReading (Ret (inl s)))) (Spec es' PIdle (SPending (OpRead out))) [] [] [] 0 0
  | inr (ok, s) => queue_ok (exec p q).2 /\
      live es = (if (ok : bool) then [s] else []) ++ live_sdus (exec p q).2 /\ (ok = false -> spsc (exec p q).2 = [])
  end.
Proof.
  induction p as [a|B f k IH]; intros q es out hand pend HR.
  - pose proof (r_lower _ _ _ _ _ _ _ HR) as Hl. cbn [mem lower cst] in Hl. inversion Hl; subst. cbn. eauto.
  - cbn. destruct (f q) as [x q'] eqn:Ef.
    destruct (reader_step q q' _ (k x) _ _ _ _ _ _ _ HR) as (sp' & hand' & pend' & Hm & HR'); [cbn; by rewrite Ef|].
    apply matched_reader in Hm as (es' & cs' & -> & [[-> Hlive]|[(s & -> & Hlive)|(s & -> & -> & ->)]]).
    + specialize (IH x _ _ _ _ _ HR'). rewrite Hlive in IH. exact IH.
    + destruct (exec_reader_done _ _ _ _ _ _ _ HR') as (-> & He & ?). split; [done|]. split; [|done].
      rewrite Hlive, He, live_flagged. done.
    + destruct (exec_reader_done _ _ _ _ _ _ _ HR') as (-> & He & ?). split; [done|].
      destruct (spsc (exec (k x) q').2) eqn:Esp; [|done]. unfold live_sdus. by rewrite Esp.
Qed.

Lemma exec_fronter_done p : forall q es r hand pend,
  related (Conf q None (CFronting p)) (Spec es PIdle (SDone (RFront r))) hand [] pend 0 0 ->
  (exec p q).1 = inr r /\ es = flagged (exec p q).2 (spsc (exec p q).2) /\ queue_ok (exec p q).2.
Proof.
  induction p as [a|B f k IH]; intros q es r hand pend HR.
  - pose proof (r_lower _ _ _ _ _ _ _ HR) as Hl. cbn [mem lower cst] in Hl. inversion Hl; subst.
    cbn. destruct (queue_ok_intro q es [] [] [] 0 0) as [? ?]; [|done].
    eapply (lower_only _ _ _ _ (Spec _ _ _)); [exact HR|constructor].
  - cbn. destruct (f q) as [x q'] eqn:Ef.
    destruct (fronter_step q q' _ (k x) _ _ _ _ _ _ _ HR) as (sp' & hand' & pend' & Hm & HR'); [cbn; by rewrite Ef|].
    destruct Hm as [[-> _]|Hs]; [|inversion Hs]. by eapply IH.
Qed.

Lemma matched_fronter es sp' :
  matched (Spec es PIdle (SPending OpFront)) None sp' -> exists es' cs', sp' = Spec es' PIdle cs' /\ live es' = live es /\
    (cs' = SPending OpFront \/ (exists r, cs' = SDone (RFront r) /\ r = head (live es') /\ head es' = (fun s => (s, false)) <$> r)).
Proof.
  intros [[-> _]|Hs]; [eexists _, _; split; [done|]; split; [done|]; by left|].
  inversion Hs; subst; eexists _, _; (split; [done|]); rewrite ?live_cons; cbn; eauto 10.
Qed.

Lemma exec_fronter p : forall q es hand pend,
  related (Conf q None (CFronting p)) (Spec es PIdle (SPending OpFront)) hand [] pend 0 0 ->
  match (exec p q).1 with
  | inl _ => exists es', live es' = live es /\
      related (Conf (exec p q).2 None (CFronting (Ret (inl tt)))) (Spec es' PIdle (SPending OpFront)) [] [] [] 0 0
  | inr r => queue_ok (exec p q).2 /\ live es = live_sdus (exec p q).2 /\ r = head (live es) /\ head (spsc (exec p q).2) = r
  end.
Proof.
  induction p as [a|B f k IH]; intros q es hand pend HR.
  - pose proof (r_lower _ _ _ _ _ _ _ HR) as Hl. cbn [mem lower cst] in Hl. inversion Hl; subst. cbn. eauto.
  - cbn. destruct (f q) as [x q'] eqn:Ef.
    destruct (fronter_step q q' _ (k x) _ _ _ _ _ _ _ HR) as (sp' & hand' & pend' & Hm & HR'); [cbn; by rewrite Ef|].
    apply matched_fronter in Hm as (es' & cs' & -> & Hlive & [->|(r & -> & Hr & Hh)]).
    + specialize (IH x _ _ _ _ HR'). rewrite Hlive in IH. exact IH.
    + destruct (exec_fronter_done _ _ _ _ _ _ HR') as (-> & He & ?). split; [done|]. rewrite <- Hlive, <- Hr.
      split; [rewrite He, live_flagged; done|]. split; [done|]. rewrite He in Hh. unfold flagged in Hh.
      destruct (spsc _) as [|s0 t]; cbn in *; [by destruct r|]. destruct r as [s|]; [|done]. by injection Hh as -> _.
Qed.

(** ** The number of rounds *)
Lemma exec_bind {S A B} (p : prog S A) (k : A -> prog S B) s :
  exec (p ≫= k) s = exec (k (exec p s).1) (exec p s).2.
Proof. revert s. induction p as [a|C f k' IH]; intros s; [done|]. cbn. destruct (f s). apply IH. Qed.

Lemma exec_release_spsc sn n q : spsc (exec (release sn n) q).2 = spsc q.
Proof. unfold release. cbn. by destruct (negb _ && _). Qed.

Lemma exec_car_spsc sn q : spsc (exec (check_and_release sn) q).2 = spsc q.
Proof. apply (exec_release_spsc sn). Qed.

Lemma read_body_round s q :
  match (exec (read_body s) q).1 with
  | inl _ => exists x t, spsc q = x :: t /\ spsc (exec (read_body s) q).2 = t
  | inr _ => True
  end.
Proof.
  unfold read_body. rewrite exec_bind. cbn [atomic exec]. unfold try_pop. destruct (spsc q) as [|x t]; [done|]. cbn [fst snd].
  unfold read_popped. destruct (sdu_pdcp_sn x) as [sn|]; [|done]. rewrite exec_bind.
  destruct (exec (check_and_release sn) _).1 eqn:E; cbn; [done|]. exists x, t. split; [done|]. exact (exec_car_spsc sn (set_spsc t q)).
Qed.

Lemma front_body_round q :
  match (exec (front_body tt) q).1 with
  | inl _ => exists x t, spsc q = x :: t /\ spsc (exec (front_body tt) q).2 = t
  | inr _ => True
  end.
Proof.
  unfold front_body. rewrite exec_bind. cbn [atomic exec fst snd]. unfold spsc_front. destruct (spsc q) as [|x t] eqn:Et; [done|]. cbn [fst snd head].
  destruct (sdu_pdcp_sn x) as [sn|]; [|done]. rewrite exec_bind. unfold check. rewrite exec_bind. cbn [atomic exec fst snd load_slot].
  unfold front_checked. destruct (negb _); [|done]. rewrite exec_bind. cbn [atomic exec fst snd]. unfold try_pop. cbn [mret prog_ret exec fst snd]. rewrite Et. cbn [fst snd].
  unfold front_popped. destruct (negb _); [done|]. rewrite exec_bind.
  destruct (exec (check_and_release sn) _).1 eqn:E; cbn; [done|]. exists x, t. split; [done|]. exact (exec_car_spsc sn (set_spsc t q)).
Qed.

Lemma read_loop fuel : forall s q es out,
  related (Conf q None (CReading (read_body s))) (Spec es PIdle (SPending (OpRead out))) [] [] [] 0 0 ->
  (length (spsc q) < fuel)%nat ->
  exists ok s' q', exec_loop fuel read_body s q = Some (ok, s', q') /\ queue_ok q' /\
    live es = (if (ok : bool) then [s'] else []) ++ live_sdus q' /\ (ok = false -> spsc q' = []).
Proof.
  induction fuel as [|fuel IH]; intros s q es out HR Hlen; [lia|]. cbn [exec_loop].
  pose proof (exec_reader _ _ _ _ _ _ HR) as H. pose proof (read_body_round s q) as Hr.
  destruct (exec (read_body s) q) as [[s'|[ok s']] q'] eqn:E; cbn [fst snd] in *.
  - destruct H as (es' & Hlive & HR'). destruct Hr as (x & t & Et & Et'). rewrite <- Hlive. apply (IH s' q' es' out).
    + eapply (lower_only _ _ _ _ (Spec _ _ _)); [exact HR'|constructor].
    + rewrite Et in Hlen. rewrite Et'. cbn in Hlen. lia.
  - exists ok, s', q'. destruct H as (? & ? & ?). done.
Qed.

Lemma front_loop fuel : forall q es,
  related (Conf q None (CFronting (front_body tt))) (Spec es PIdle (SPending OpFront)) [] [] [] 0 0 ->
  (length (spsc q) < fuel)%nat ->
  exists r q', exec_loop fuel front_body tt q = Some (r, q') /\ queue_ok q' /\ live es = live_sdus q' /\ r = head (live es) /\
    head (spsc q') = r.
Proof.
  induction fuel as [|fuel IH]; intros q es HR Hlen; [lia|]. cbn [exec_loop].
  pose proof (exec_fronter _ _ _ _ _ HR) as H. pose proof (front_body_round q) as Hr.
  destruct (exec (front_body tt) q) as [[[]|r] q'] eqn:E; cbn [fst snd] in *.
  - destruct H as (es' & Hlive & HR'). destruct Hr as (x & t & Et & Et'). rewrite <- Hlive. apply (IH q' es').
    + eapply (lower_only _ _ _ _ (Spec _ _ _)); [exact HR'|constructor].
    + rewrite Et in Hlen. rewrite Et'. cbn in Hlen. lia.
  - exists r, q'. destruct H as (? & ? & ? & ?). done.
Qed.

(** ** The operations *)
Definition same_limits q q' : Prop := capacity q' = capacity q /\ byte_limit q' = byte_limit q.

Lemma live_app l1 l2 : live (l1 ++ l2) = live l1 ++ live l2.
Proof. unfold live. by rewrite filter_app, map_app. Qed.

Lemma live_sdus_flagged q : live (flagged q (spsc q)) = live_sdus q.
Proof. apply live_flagged. Qed.


Lemma sdu_queue_write_spec s q :
  queue_ok q -> sdu_ok s ->
  queue_ok (sdu_queue_write s q).2 /\
  live_sdus (sdu_queue_write s q).2 = live_sdus q ++ (if (sdu_queue_write s q).1 then [s] else []) /\
  spsc (sdu_queue_write s q).2 = spsc q ++ (if (sdu_queue_write s q).1 then [s] else []) /\
  same_limits q (sdu_queue_write s q).2.
Proof.
  intros Hq Hs. destruct (exec_upper (OpWrite s) q Hq Hs) as [Hq' He]. cbn [producer_start] in *.
  change (exec (write (byte_limit q) s) q) with (sdu_queue_write s q) in *. split; [done|].
  assert (Hm : forall q, map fst (flagged q (spsc q)) = spsc q) by (intros; unfold flagged; rewrite map_map; apply map_id).
  cbn [upper_effect] in He. split; [|split].
  - rewrite <- !live_sdus_flagged. destruct (sdu_queue_write s q).1 in He |- *; rewrite He; [by rewrite live_app|by rewrite app_nil_r].
  - rewrite <- (Hm q), <- (Hm (sdu_queue_write s q).2). destruct (sdu_queue_write s q).1 in He |- *; rewrite He; [by rewrite map_app|by rewrite app_nil_r].
  - unfold sdu_queue_write, write, write_slot, write_store, write_push, get_state, same_limits. cbn.
    repeat (case_match; cbn; try done); unfold try_push in *; cbn in *; repeat case_match; simplify_eq; done.
Qed.

Lemma live_mark sn l :
  live (mark_discarded sn l) = filter (fun s => has_pdcp_sn sn s = false) (live l).
Proof.
  induction l as [|[s d] l IH]; [done|]. change (mark_discarded sn ((s, d) :: l)) with ((s, d || has_pdcp_sn sn s) :: mark_discarded sn l).
  rewrite !live_cons, IH, filter_app. f_equal. destruct d; [done|]. cbn [orb]. rewrite filter_cons.
  destruct (has_pdcp_sn sn s); case_decide; done.
Qed.

Lemma sdu_queue_try_discard_spec sn q :
  queue_ok q -> 0 <= sn < STATE_DISCARDED ->
  queue_ok (sdu_queue_try_discard sn q).2 /\
  (sdu_queue_try_discard sn q).1 = existsb (has_pdcp_sn sn) (live_sdus q) /\
  live_sdus (sdu_queue_try_discard sn q).2 = filter (fun s => has_pdcp_sn sn s = false) (live_sdus q) /\
  same_limits q (sdu_queue_try_discard sn q).2.
Proof.
  intros Hq Hs. destruct (exec_upper (OpDiscard sn) q Hq Hs) as [Hq' He]. cbn [producer_start] in *.
  change (exec (try_discard sn) q) with (sdu_queue_try_discard sn q) in *. destruct He as [He Hb]. split; [done|]. split; [|split].
  - rewrite Hb, <- live_sdus_flagged. clear. induction (flagged q (spsc q)) as [|[s d] l IH]; [done|].
    rewrite live_cons, existsb_app, <- IH. destruct d; cbn; [done|]. by rewrite orb_false_r.
  - by rewrite <- live_sdus_flagged, He, live_mark, live_sdus_flagged.
  - unfold sdu_queue_try_discard, try_discard. cbn. unfold cas_slot. by destruct (_ =? _).
Qed.

Lemma sdu_queue_read_spec s q :
  queue_ok q ->
  exists ok s' q', sdu_queue_read s q = Some (ok, s', q') /\ queue_ok q' /\
    live_sdus q = (if (ok : bool) then [s'] else []) ++ live_sdus q' /\ (ok = false -> spsc q' = []).
Proof.
  intros Hq. rewrite <- live_sdus_flagged. eapply (read_loop _ s q _ s); [|lia].
  eapply (lower_only _ _ _ _ (Spec _ _ _)); [exact Hq|constructor].
Qed.

Lemma sdu_queue_front_spec q :
  queue_ok q ->
  exists r q', sdu_queue_front q = Some (r, q') /\ queue_ok q' /\ live_sdus q' = live_sdus q /\ r = head (live_sdus q) /\
    head (spsc q') = r.
Proof.
  intros Hq. rewrite <- live_sdus_flagged.
  destruct (front_loop (S (length (spsc q))) q (flagged q (spsc q))) as (r & q' & ? & ? & ? & ? & ?); [|lia|eauto 10].
  eapply (lower_only _ _ _ _ (Spec _ _ _)); [exact Hq|constructor].
Qed.

Lemma sdu_queue_state_spec q :
  queue_ok q -> sdu_queue_state q = (Z.of_nat (length (live_sdus q)), sum_lengths (live_sdus q)).
Proof.
  intros Hq. pose proof (related_state _ _ _ _ _ _ Hq ltac:(lia)) as E. cbn [mem app sum_lengths foldr length] in E.
  destruct (total_live q (spsc q)) as [E1 E2]. unfold sdu_queue_state, live_sdus. rewrite E, E1, E2. f_equal; lia.
Qed.

Lemma queue_ok_bounds q :
  queue_ok q -> sum_lengths (live_sdus q) <= byte_limit q < 4294967296 /\ Z.of_nat (length (spsc q)) <= capacity q < 4294967294.
Proof.
  intros HR. pose proof (r_bytes _ _ _ _ _ _ _ HR) as Hb. pose proof (r_limit _ _ _ _ _ _ _ HR). pose proof (r_count _ _ _ _ _ _ _ HR).
  pose proof (r_capacity _ _ _ _ _ _ _ HR). cbn [mem app sum_lengths foldr] in *. destruct (total_live q (spsc q)) as [_ E].
  unfold live_sdus. rewrite <- E. lia.
Qed.

Lemma exec_loop_limits {X A} (body : X -> prog rlc_sdu_queue_lockfree (X + A)) :
  (forall x q, same_limits q (exec (body x) q).2) ->
  forall fuel x q r q', exec_loop fuel body x q = Some (r, q') -> same_limits q q'.
Proof.
  intros Hb fuel. induction fuel as [|fuel IH]; intros x q r q' E; [done|]. cbn [exec_loop] in E.
  specialize (Hb x q). destruct (exec (body x) q) as [[x'|a] q1]; cbn in Hb.
  - apply IH in E. destruct Hb, E. split; congruence.
  - by injection E as <- <-.
Qed.

Lemma car_limits sn q : same_limits q (exec (check_and_release sn) q).2.
Proof. unfold check_and_release, release. cbn. by destruct (negb _ && _). Qed.

Lemma read_body_limits s q : same_limits q (exec (read_body s) q).2.
Proof.
  unfold read_body. rewrite exec_bind. cbn [atomic exec]. unfold try_pop. destruct (spsc q) as [|x t]; [done|]. cbn [fst snd].
  unfold read_popped. destruct (sdu_pdcp_sn x) as [sn|]; [|done]. rewrite exec_bind. apply (car_limits sn (set_spsc t q)).
Qed.

Lemma front_body_limits u q : same_limits q (exec (front_body u) q).2.
Proof.
  unfold front_body. rewrite exec_bind. cbn [atomic exec fst snd]. unfold spsc_front. destruct (spsc q) as [|x t] eqn:Et; [done|]. cbn [fst snd head].
  destruct (sdu_pdcp_sn x) as [sn|]; [|done]. rewrite exec_bind. unfold check. rewrite exec_bind. cbn [atomic exec fst snd load_slot].
  unfold front_checked. destruct (negb _); [|done]. rewrite exec_bind. cbn [atomic exec fst snd]. unfold try_pop. cbn [mret prog_ret exec fst snd]. rewrite Et. cbn [fst snd].
  unfold front_popped. destruct (negb _); [done|]. rewrite exec_bind. apply (car_limits sn (set_spsc t q)).
Qed.

Lemma sdu_queue_read_limits s q r q' : sdu_queue_read s q = Some (r, q') -> same_limits q q'.
Proof. apply exec_loop_limits, read_body_limits. Qed.

Lemma sdu_queue_front_limits q r q' : sdu_queue_front q = Some (r, q') -> same_limits q q'.
Proof. apply exec_loop_limits, front_body_limits. Qed.

(** ** Where the SDUs come from *)
Lemma read_body_out s q :
  spsc (exec (read_body s) q).2 ⊆+ spsc q /\
  match (exec (read_body s) q).1 with inl x => x ∈ s :: spsc q | inr (_, x) => x ∈ s :: spsc q end.
Proof.
  unfold read_body. rewrite exec_bind. cbn [atomic exec]. unfold try_pop. destruct (spsc q) as [|x t] eqn:Et; cbn [fst snd].
  { cbn. rewrite Et. split; [done|by left]. }
  assert (Ht : t ⊆+ x :: t) by by apply submseteq_cons.
  unfold read_popped. destruct (sdu_pdcp_sn x) as [sn|]; [|cbn; split; [done|right; by left]].
  rewrite exec_bind. pose proof (exec_car_spsc sn (set_spsc t q)) as Hs.
  destruct (exec (check_and_release sn) (set_spsc t q)) as [[] q']; cbn in *; rewrite Hs; split; (done || (right; by left)).
Qed.

Lemma sdu_queue_read_out s q ok s' q' :
  sdu_queue_read s q = Some (ok, s', q') -> s' ∈ s :: spsc q /\ spsc q' ⊆+ spsc q.
Proof.
  unfold sdu_queue_read. generalize (S (length (spsc q))) as fuel. intros fuel. revert s q.
  induction fuel as [|fuel IH]; intros s q E; [done|]. cbn [exec_loop] in E.
  destruct (read_body_out s q) as [Hsub Hx]. destruct (exec (read_body s) q) as [[x|[b x]] q1]; cbn in Hsub, Hx.
  - destruct (IH x q1 E) as [Hin Hsub']. split; [|by etransitivity].
    apply elem_of_cons in Hin as [->|Hin]; [done|]. right. by eapply elem_of_submseteq.
  - injection E as <- <- <-. done.
Qed.

Lemma front_body_out u q : spsc (exec (front_body u) q).2 ⊆+ spsc q.
Proof.
  pose proof (front_body_round q) as Hr. destruct u.
  unfold front_body in *. rewrite exec_bind in *. cbn [atomic exec fst snd] in *. unfold spsc_front in *.
  destruct (spsc q) as [|x t] eqn:Et; [by cbn; rewrite Et|]. cbn [fst snd head] in *.
  destruct (sdu_pdcp_sn x) as [sn|]; [|by cbn; rewrite Et]. rewrite exec_bind in *. unfold check in *. rewrite exec_bind in *. cbn [atomic exec fst snd load_slot] in *.
  unfold front_checked in *. destruct (negb _); [|by cbn; rewrite Et]. clear Hr. rewrite exec_bind. cbn [atomic exec fst snd]. unfold try_pop.
  cbn [mret prog_ret exec fst snd]. rewrite Et. cbn [fst snd]. assert (Ht : t ⊆+ x :: t) by by apply submseteq_cons.
  unfold front_popped. destruct (negb _); [done|]. rewrite exec_bind. pose proof (exec_car_spsc sn (set_spsc t q)) as Hs.
  destruct (exec (check_and_release sn) (set_spsc t q)) as [[] q']; cbn in *; by rewrite Hs.
Qed.

Lemma sdu_queue_front_out q r q' : sdu_queue_front q = Some (r, q') -> spsc q' ⊆+ spsc q.
Proof.
  unfold sdu_queue_front. generalize (S (length (spsc q))) as fuel. intros fuel. revert q.
  generalize tt as u. induction fuel as [|fuel IH]; intros u q E; [done|]. cbn [exec_loop] in E.
  pose proof (front_body_out u q) as Hsub. destruct (exec (front_body u) q) as [[x|x] q1]; cbn in Hsub.
  - specialize (IH _ _ E). by etransitivity.
  - by injection E as <- <-.
Qed.

Lemma sdu_queue_try_discard_out sn q : spsc (sdu_queue_try_discard sn q).2 = spsc q.
Proof. unfold sdu_queue_try_discard, try_discard. cbn. unfold cas_slot. by destruct (_ =? _). Qed.

(** ** When nothing was discarded *)
Definition no_discards q : Prop := live_sdus q = spsc q.

Lemma filter_length_full {A} (P : A -> Prop) `{!forall x, Decision (P x)} (l : list A) :
  (length l <= length (filter P l))%nat -> filter P l = l.
Proof.
  induction l as [|x l IH]; [done|]. rewrite filter_cons. cbn [length]. pose proof (length_filter P l).
  destruct (decide (P x)); cbn [length]; intros Hl; [f_equal; apply IH; lia|lia].
Qed.

Lemma no_discards_shorter q : (length (spsc q) <= length (live_sdus q))%nat -> no_discards q.
Proof. apply filter_length_full. Qed.

Lemma sdu_queue_read_pops s q s' q' :
  sdu_queue_read s q = Some (true, s', q') -> (length (spsc q') < length (spsc q))%nat.
Proof.
  unfold sdu_queue_read. generalize (S (length (spsc q))) as fuel. intros fuel. revert s q.
  induction fuel as [|fuel IH]; intros s q E; [done|]. cbn [exec_loop] in E.
  pose proof (read_body_out s q) as [Hsub _]. apply submseteq_length in Hsub.
  destruct (exec (read_body s) q) as [[x|[b x]] q1] eqn:Eb; cbn [fst snd] in Hsub.
  - specialize (IH _ _ E). lia.
  - injection E as -> -> ->. clear Hsub. revert Eb. unfold read_body. rewrite exec_bind. cbn [atomic exec]. unfold try_pop.
    destruct (spsc q) as [|y t]; cbn [fst snd]; [done|]. unfold read_popped.
    destruct (sdu_pdcp_sn y) as [sn|]; [rewrite exec_bind; pose proof (exec_car_spsc sn (set_spsc t q)) as Hs|].
    2: { cbn. intros [= <- <-]. cbn. lia. }
    destruct (exec (check_and_release sn) (set_spsc t q)) as [[] q2]; cbn in Hs |- *; intros [= <- <-]; rewrite Hs; lia.
Qed.

Lemma read_no_discards s q ok s' q' :
  queue_ok q -> no_discards q -> sdu_queue_read s q = Some (ok, s', q') ->
  no_discards q' /\ spsc q = (if (ok : bool) then [s'] else []) ++ spsc q'.
Proof.
  intros Hq Hn E. destruct (sdu_queue_read_spec s q Hq) as (ok1 & s1 & q1 & E1 & _ & Hlive & Hemp).
  rewrite E in E1. injection E1 as <- <- <-. rewrite Hn in Hlive. destruct ok.
  - apply sdu_queue_read_pops in E. pose proof (f_equal length Hlive) as Hl. rewrite length_app in Hl. cbn [length] in Hl.
    assert (Hn' : no_discards q') by (apply no_discards_shorter; lia). split; [done|]. by rewrite Hlive, Hn'.
  - specialize (Hemp eq_refl). cbn [app] in *. split; [unfold no_discards, live_sdus; by rewrite Hemp|].
    rewrite Hlive, Hemp. unfold live_sdus. by rewrite Hemp.
Qed.

Lemma front_no_discards q q' r : queue_ok q -> no_discards q -> sdu_queue_front q = Some (r, q') -> no_discards q'.
Proof.
  intros Hq Hn E. destruct (sdu_queue_front_spec q Hq) as (r1 & q1 & E1 & _ & Hlive & _).
  rewrite E in E1. injection E1 as <- <-. apply sdu_queue_front_out, submseteq_length in E.
  apply no_discards_shorter. by rewrite Hlive, Hn.
Qed.

Lemma write_no_discards s q :
  queue_ok q -> sdu_ok s -> no_discards q -> no_discards (sdu_queue_write s q).2.
Proof. intros Hq Hs Hn. destruct (sdu_queue_write_spec s q Hq Hs) as (_ & E1 & E2 & _). unfold no_discards. by rewrite E1, E2, Hn. Qed.
