(* ===== verification/RlcTxBase.v ===== *)
(** * What the transmitting RLC entities share

    The notifications they send, the buffer state, the copy of payload into the MAC buffer, and the two loops over PDCP
    sequence numbers. Executors and the clock are inputs: whether a task is accepted, and the time of arrival. *)
From S2P Require Import Prelude ByteCursor PdcpSn SduQueue BitCodec SduQueueConc SduQueueSeq RlcRxBase.

(** [rlc_buffer_state] *)
Record rlc_buffer_state := BufferState { pending_bytes : Z; hol_toa : option Z }.
Definition rlc_buffer_state_init : rlc_buffer_state := BufferState 0 None.

(** [MAX_DL_PDU_LENGTH] and the PDSCH constants it is computed from *)
Definition MAX_NRE_PER_RB : Z := 156.
Definition MAX_NOF_PRBS : Z := 275.
Definition MAX_NOF_LAYERS_PER_CODEWORD : Z := 4.
Definition MAX_MODULATION_ORDER : Z := 8.
Definition CODEWORD_MAX_SIZE : Z := MAX_NRE_PER_RB * MAX_NOF_PRBS * MAX_NOF_LAYERS_PER_CODEWORD * MAX_MODULATION_ORDER.
Definition MAX_DL_PDU_LENGTH : Z := (CODEWORD_MAX_SIZE + 7) / 8.

(** What leaves an entity: calls of the upper and lower layers, and the metrics of SDUs and PDUs. [DeferProtocolFailure] is
    the notification handed to an executor, which may reject it. *)
Inductive tx_event :=
| OnTransmittedSdu (pdcp_sn desired_buf_size : Z)
| OnRetransmittedSdu (pdcp_sn : Z)
| OnDeliveredSdu (pdcp_sn : Z)
| OnDeliveredRetransmittedSdu (pdcp_sn : Z)
| OnProtocolFailure
| DeferProtocolFailure
| OnMaxRetx
| OnBufferStateUpdate (bs : rlc_buffer_state)
| AddTxSdus (n bytes : Z)
| AddTxLostSdus (n : Z)
| AddDiscard (n : Z)
| AddDiscardFailure (n : Z)
| AddTxPdus (segmented : bool) (n bytes : Z)
| AddCtrlPdus (n bytes : Z)
| AddRetxPdus (n bytes : Z)
| AddSmallAlloc (n : Z).

(** An SDU that has just been default-constructed. *)
Definition rlc_sdu_init : rlc_sdu := Sdu [] false None 0.

Definition buf_empty (b : list Z) : bool := match b with [] => true | _ => false end.

(** [byte_buffer_view{buf, start, sz}]: running past the end of the buffer is [None]. *)
Definition buffer_view (buf : list Z) (start sz : Z) : option (list Z) :=
  if buf_length buf <? start + sz then None else Some (take (Z.to_nat sz) (drop (Z.to_nat start) buf)).

(** [copy_segments(src, dst.subspan(off, dst.size() - off))]: the number of bytes copied, and [dst] afterwards *)
Definition copy_segments (src dst : list Z) (off : Z) : Z * list Z :=
  let n := Z.min (buf_length src) (buf_length dst - off) in
  (n, take (Z.to_nat off) dst ++ take (Z.to_nat n) src ++ drop (Z.to_nat (off + n)) dst).

(** The loop of [discard_sdu]: the queue, [nof_ok] and [nof_fail] *)
Fixpoint discard_loop (fuel : nat) (mask pdcp_sn pdcp_sn_end : Z) (q : rlc_sdu_queue_lockfree) (nof_ok nof_fail : Z)
  : option (rlc_sdu_queue_lockfree * Z * Z) :=
  if pdcp_sn =? pdcp_sn_end then Some (q, nof_ok, nof_fail) else
  match fuel with
  | O => None
  | S fuel =>
      let '(ok, q) := sdu_queue_try_discard pdcp_sn q in
      discard_loop fuel mask (Z.land (u32 (pdcp_sn + 1)) mask) pdcp_sn_end q
        (if (ok : bool) then u32 (nof_ok + 1) else nof_ok) (if (ok : bool) then nof_fail else u32 (nof_fail + 1))
  end.

(** The body of [discard_sdu] up to the notification: the queue, whether an SDU was discarded, and the metrics. *)
Definition discard_block (mask pdcp_sn_start block_size : Z) (q : rlc_sdu_queue_lockfree)
  : option (rlc_sdu_queue_lockfree * bool * list tx_event) :=
  if block_size =? 0 then Some (q, false, [AddDiscardFailure 1]) else
  if mask <? pdcp_sn_start then Some (q, false, [AddDiscardFailure 1]) else
  let pdcp_sn_end := Z.land (u32 (pdcp_sn_start + block_size)) mask in
  '(q, nof_ok, nof_fail) ← discard_loop (Z.to_nat (mask + 1)) mask pdcp_sn_start pdcp_sn_end q 0 0;
  Some (q, 0 <? nof_ok, [AddDiscard nof_ok; AddDiscardFailure nof_fail]).

(** ** Lemmas *)
Lemma u32_small x : 0 <= x < 4294967296 -> u32 x = x.
Proof. apply (uint_small 32). Qed.

Lemma buf_empty_spec b : buf_empty b = true <-> b = [].
Proof. by destruct b. Qed.

Lemma buf_length_app a b : buf_length (a ++ b) = buf_length a + buf_length b.
Proof. unfold buf_length. rewrite length_app. lia. Qed.

Lemma buf_length_nonneg b : 0 <= buf_length b.
Proof. unfold buf_length. lia. Qed.

Lemma buffer_view_ok buf start sz :
  0 <= start -> 0 <= sz -> start + sz <= buf_length buf ->
  exists v, buffer_view buf start sz = Some v /\ v = take (Z.to_nat sz) (drop (Z.to_nat start) buf) /\ buf_length v = sz.
Proof.
  intros Hs Hz Hl. unfold buffer_view. rewrite (proj2 (Z.ltb_ge _ _)) by done. eexists. split; [done|]. split; [done|].
  unfold buf_length in *. rewrite length_take, length_drop. lia.
Qed.

(** Copying a payload that fits behind a header. *)
Lemma copy_segments_fits src hdr rest :
  buf_length src <= buf_length rest ->
  copy_segments src (hdr ++ rest) (buf_length hdr) = (buf_length src, hdr ++ src ++ drop (length src) rest).
Proof.
  intros Hl. unfold copy_segments. rewrite buf_length_app.
  replace (Z.min (buf_length src) (buf_length hdr + buf_length rest - buf_length hdr)) with (buf_length src) by lia.
  f_equal. unfold buf_length in *. rewrite !Nat2Z.id. rewrite take_app_length.
  replace (Z.to_nat (Z.of_nat (length hdr) + Z.of_nat (length src))) with (length hdr + length src)%nat by lia.
  f_equal. rewrite firstn_all. f_equal. rewrite drop_app_ge by lia. f_equal. lia.
Qed.

(** ** Facts shared by the transmitting entities: discarding a block of SDUs *)
Implicit Types q : rlc_sdu_queue_lockfree.

Lemma pdcp_mask s :
  s <> pdcp_size_invalid -> pdcp_compute_sn_mask s = Some (2 ^ pdcp_sn_bits s - 1).
Proof. by destruct s. Qed.

(** The PDCP SN of an SDU is one of the [k] SNs from [start] on, modulo [md]. *)
Definition in_block (md start k : Z) (s : rlc_sdu) : bool :=
  match sdu_pdcp_sn s with Some sn => (sn - start) mod md <? k | None => false end.

Lemma filter_filter_bool {A} (P Q R : A -> bool) (l : list A) :
  (forall x, x ∈ l -> R x = P x || Q x) ->
  filter (fun x => Q x = false) (filter (fun x => P x = false) l) = filter (fun x => R x = false) l.
Proof.
  induction l as [|x l IH]; intros HR; [done|]. rewrite !filter_cons. specialize (HR x ltac:(by left)) as HRx.
  assert (IH' := IH (fun y Hy => HR y (list_elem_of_further y x l Hy))). rewrite HRx.
  destruct (P x); cbn [orb]; repeat case_decide; try done; rewrite ?filter_cons; repeat case_decide; try done; by f_equal.
Qed.

Lemma filter_existsb_false {A} (P : A -> bool) (l : list A) : existsb P l = false -> filter (fun x => P x = false) l = l.
Proof.
  induction l as [|x l IH]; [done|]. cbn [existsb]. rewrite filter_cons. destruct (P x); [done|]. intros H.
  rewrite decide_True by done. by rewrite IH.
Qed.

Lemma filter_existsb_true {A} (P : A -> bool) (l : list A) :
  existsb P l = true -> (length (filter (fun x => P x = false) l) < length l)%nat.
Proof.
  induction l as [|x l IH]; [done|]. cbn [existsb length]. rewrite filter_cons.
  pose proof (length_filter (fun x => P x = false) l) as Hle. destruct (P x); intros H.
  - rewrite decide_False by done. lia.
  - rewrite decide_True by done. cbn [length]. specialize (IH H). lia.
Qed.

Section discard.
Context (bits md : Z) (Hbits : 0 < bits <= 18) (Emd : md = 2 ^ bits).

(** The queued SDUs have SNs of [bits] bits. *)
Definition sns_ok (l : list rlc_sdu) : Prop := Forall (fun s => forall sn, sdu_pdcp_sn s = Some sn -> 0 <= sn < md) l.

Lemma md_bounds : 2 <= md <= 262144.
Proof.
  assert (2 ^ 1 <= 2 ^ bits) by (apply Z.pow_le_mono_r; lia). assert (2 ^ bits <= 2 ^ 18) by (apply Z.pow_le_mono_r; lia). lia.
Qed.

Lemma next_sn sn : 0 <= sn < md -> Z.land (u32 (sn + 1)) (md - 1) = (sn + 1) mod md.
Proof.
  intros Hs. pose proof md_bounds. rewrite (land_low bits) by lia. rewrite u32_eq, (Z.mod_small (sn + 1)), Emd by lia. done.
Qed.

Lemma sns_ok_filter l (P : rlc_sdu -> bool) : sns_ok l -> sns_ok (filter (fun s => P s = false) l).
Proof. intros H. apply Forall_forall. intros s [_ Hs]%list_elem_of_filter. unfold sns_ok in H. rewrite Forall_forall in H. by apply H. Qed.

Lemma in_block_step sn k s :
  0 <= sn < md -> 0 <= k -> k + 1 < md -> (forall x, sdu_pdcp_sn s = Some x -> 0 <= x < md) ->
  in_block md sn (k + 1) s = has_pdcp_sn sn s || in_block md ((sn + 1) mod md) k s.
Proof.
  intros Hsn Hk Hk1 Hs. pose proof md_bounds as Hmd. unfold in_block, has_pdcp_sn. destruct (sdu_pdcp_sn s) as [x|]; [|done].
  specialize (Hs x eq_refl). change ((x - sn) mod md) with (rel md sn x). change ((x - (sn + 1) mod md) mod md) with (rel md ((sn + 1) mod md) x).
  case_bool_decide as Hx; cbn [orb].
  - injection Hx as ->. rewrite rel_self by lia. lia.
  - assert (Hne : rel md sn x <> 0).
    { intros E. apply Hx. f_equal. apply (rel_inj md sn); [lia|done|done|]. rewrite rel_self by lia. done. }
    assert (E1 : rel md sn ((sn + 1) mod md) = 1) by (rewrite rel_succ; rewrite ?rel_self by lia; lia).
    pose proof (rel_range md sn x). rewrite (rel_rebase_sub md sn ((sn + 1) mod md) x) by lia. rewrite E1.
    destruct (Z.ltb_spec (rel md sn x) (k + 1)), (Z.ltb_spec (rel md sn x - 1) k); (done || lia).
Qed.

Lemma block_end sn k : 0 <= sn < md -> 0 <= k < md -> (sn =? (sn + k) mod md) = (k =? 0).
Proof.
  intros Hs Hk. pose proof md_bounds. destruct (Z.eqb_spec k 0) as [->|Hk0].
  - rewrite Z.add_0_r, Z.mod_small by done. apply Z.eqb_refl.
  - apply Z.eqb_neq. intros E. assert (Hr : rel md sn ((sn + k) mod md) = 0) by (rewrite <- E; apply rel_self; lia).
    rewrite rel_mod, rel_add, rel_self, Z.mod_small in Hr; lia.
Qed.

Lemma discard_loop_spec fuel : forall sn k q nof_ok nof_fail,
  queue_ok q -> sns_ok (live_sdus q) -> 0 <= sn < md -> 0 <= k < md -> k <= Z.of_nat fuel ->
  0 <= nof_ok -> 0 <= nof_fail -> nof_ok + nof_fail + k < 4294967296 ->
  exists q' ok' fail', discard_loop fuel (md - 1) sn ((sn + k) mod md) q nof_ok nof_fail = Some (q', ok', fail') /\ queue_ok q' /\
    live_sdus q' = filter (fun s => in_block md sn k s = false) (live_sdus q) /\ spsc q' = spsc q /\ same_limits q q' /\
    ok' + fail' = nof_ok + nof_fail + k /\ nof_ok <= ok' /\
    (ok' = nof_ok <-> live_sdus q' = live_sdus q).
Proof.
  induction fuel as [|fuel IH]; intros sn k q nof_ok nof_fail Hq Hl Hsn Hk Hfuel Hok Hfail Hsum; pose proof md_bounds as Hmd;
    cbn [discard_loop]; rewrite block_end by done; (destruct (Z.eqb_spec k 0) as [->|Hk0]; [|try lia]).
  1, 2: exists q, nof_ok, nof_fail; split; [done|]; split; [done|]; split; [|split; [done|split; [done|lia || (split; [lia|done])]]];
    symmetry; apply filter_existsb_false; apply not_true_iff_false; intros (s & _ & Hs)%existsb_exists;
    unfold in_block in Hs; destruct (sdu_pdcp_sn s); [|done]; match goal with H : context [?a mod md <? 0] |- _ => pose proof (Z.mod_pos_bound a md); lia end.
  destruct (sdu_queue_try_discard_spec sn q Hq) as (Hq1 & Hb & Hl1 & Hlim1); [unfold STATE_DISCARDED; lia|].
  pose proof (sdu_queue_try_discard_out sn q) as Hsp1.
  destruct (sdu_queue_try_discard sn q) as [b q1]. cbn [fst snd] in *. rewrite next_sn by done.
  replace ((sn + k) mod md) with (((sn + 1) mod md + (k - 1)) mod md) by (rewrite Zplus_mod_idemp_l; f_equal; lia).
  destruct (IH ((sn + 1) mod md) (k - 1) q1 (if b then u32 (nof_ok + 1) else nof_ok) (if b then nof_fail else u32 (nof_fail + 1)))
    as (q' & ok' & fail' & E & Hq' & Hl' & Hsp' & Hlim' & Hs' & Hle' & Heq'); try done; try lia.
  { rewrite Hl1. by apply sns_ok_filter. }
  all: try (destruct b; rewrite ?u32_eq; lia).
  exists q', ok', fail'. split; [done|]. split; [done|]. split; [|split; [congruence|split; [destruct Hlim1, Hlim'; split; congruence|]]].
  - rewrite Hl', Hl1. apply filter_filter_bool. intros s Hs. unfold sns_ok in Hl. rewrite Forall_forall in Hl.
    replace k with (k - 1 + 1) at 1 by lia. apply in_block_step; [done|lia|lia|]. by apply Hl.
  - assert (Hcnt : (if b then u32 (nof_ok + 1) else nof_ok) = nof_ok + (if b then 1 else 0) /\
                   (if b then nof_fail else u32 (nof_fail + 1)) = nof_fail + (if b then 0 else 1)).
    { destruct b; rewrite u32_eq, Z.mod_small; lia. }
    destruct Hcnt as [E1 E2]. rewrite E1, E2 in *. split; [destruct b; lia|]. split; [destruct b; lia|].
    destruct b; symmetry in Hb.
    + pose proof (filter_existsb_true _ _ Hb) as Hlt. split; [lia|]. intros El. exfalso.
      pose proof (length_filter (fun s => in_block md ((sn + 1) mod md) (k - 1) s = false) (live_sdus q1)) as Hle2.
      rewrite <- Hl', El, Hl1 in Hle2. lia.
    + apply filter_existsb_false in Hb. rewrite Hb in Hl1. rewrite Z.add_0_r, Hl1 in Heq'. exact Heq'.
Qed.
End discard.

Lemma pdcp_bits_range s : 0 < pdcp_sn_bits s <= 18.
Proof. by destruct s. Qed.

Lemma sns_ok_live md q : sns_ok md (spsc q) -> sns_ok md (live_sdus q).
Proof.
  intros H. apply Forall_forall. intros s [_ Hs]%list_elem_of_filter. unfold sns_ok in H. rewrite Forall_forall in H. by apply H.
Qed.

Lemma filter_in_block_zero md start (l : list rlc_sdu) : 0 < md -> filter (fun s => in_block md start 0 s = false) l = l.
Proof.
  intros Hmd. apply filter_existsb_false, not_true_iff_false. intros (s & _ & Hs)%existsb_exists.
  unfold in_block in Hs. destruct (sdu_pdcp_sn s) as [x|]; [|done]. pose proof (Z.mod_pos_bound (x - start) md). lia.
Qed.

(** [discard_sdu] discards the queued SDUs of the block, whose size counts modulo the SN space; nothing if the first SN is
    invalid. *)
Lemma discard_block_spec s start block q :
  let md := 2 ^ pdcp_sn_bits s in
  queue_ok q -> sns_ok md (spsc q) -> 0 <= start < 4294967296 -> 0 <= block < 4294967296 ->
  exists q' any ev, discard_block (md - 1) start block q = Some (q', any, ev) /\ queue_ok q' /\ spsc q' = spsc q /\ same_limits q q' /\
    live_sdus q' = (if start <? md then filter (fun s => in_block md start (block mod md) s = false) (live_sdus q) else live_sdus q) /\
    (any = true <-> live_sdus q' <> live_sdus q).
Proof.
  intros md Hq Hs Hstart Hblock. pose proof (md_bounds _ md (pdcp_bits_range s) eq_refl) as Hmd.
  unfold discard_block. destruct (Z.eqb_spec block 0) as [->|Hb0].
  { exists q, false, [AddDiscardFailure 1]. rewrite Z.mod_0_l, filter_in_block_zero by lia. destruct (start <? md); done. }
  destruct (Z.ltb_spec start md) as [Hlt|Hge].
  2: { rewrite (proj2 (Z.ltb_lt (md - 1) start)) by lia. by exists q, false, [AddDiscardFailure 1]. }
  rewrite (proj2 (Z.ltb_ge (md - 1) start)) by lia.
  assert (Ee : Z.land (u32 (start + block)) (md - 1) = (start + block mod md) mod md).
  { rewrite (land_low (pdcp_sn_bits s)); [|pose proof (pdcp_bits_range s); lia|done].
    rewrite mod_pow2_u32 by (pose proof (pdcp_bits_range s); lia). fold md. by rewrite Zplus_mod_idemp_r. }
  rewrite Ee. pose proof (Z.mod_pos_bound block md ltac:(lia)) as Hk.
  destruct (discard_loop_spec (pdcp_sn_bits s) md (pdcp_bits_range s) eq_refl (Z.to_nat (md - 1 + 1)) start (block mod md) q 0 0)
    as (q' & ok & fail & -> & Hq' & Hl' & Hsp' & Hlim' & _ & Hle & Hiff); try done; try lia; [by apply sns_ok_live|].
  cbn [mbind option_bind]. exists q', (0 <? ok), [AddDiscard ok; AddDiscardFailure fail]. repeat (split; [done|]).
  rewrite Z.ltb_lt. split; [intros H E; apply Hiff in E; lia|]. intros Hne. assert (ok <> 0) by (by intros ?%Hiff). lia.
Qed.

(** *** The queue of a transmitting entity *)

(** SDUs as PDCP hands them over: not empty, and with offsets that fit the 16 bits of the header field. *)
Definition sdu_wf (s : rlc_sdu) : Prop := bytes_ok (sdu_buf s) /\ 1 <= sdu_length s <= 65536.

(** The queue of an entity with a PDCP SN space of size [md]. *)
Definition tx_queue_ok (md : Z) q : Prop := queue_ok q /\ Forall sdu_wf (spsc q) /\ sns_ok md (spsc q).

Lemma tx_queue_sub md q q' : tx_queue_ok md q -> queue_ok q' -> spsc q' ⊆+ spsc q -> tx_queue_ok md q'.
Proof.
  intros (_ & Hw & Hs) Hq Hsub. unfold tx_queue_ok, sns_ok in *. rewrite !Forall_forall in *.
  split; [done|]. split; intros x Hx; [apply Hw|apply Hs]; by eapply elem_of_submseteq.
Qed.

Lemma tx_queue_same md q q' : tx_queue_ok md q -> queue_ok q' -> spsc q' = spsc q -> tx_queue_ok md q'.
Proof. intros Hq Hq' E. eapply tx_queue_sub; [exact Hq|exact Hq'|]. by rewrite E. Qed.

Lemma tx_queue_write md s q :
  tx_queue_ok md q -> md <= 262144 -> sdu_wf s -> (forall x, sdu_pdcp_sn s = Some x -> 0 <= x < md) ->
  exists b q', sdu_queue_write s q = (b, q') /\ tx_queue_ok md q' /\ live_sdus q' = live_sdus q ++ (if (b : bool) then [s] else []) /\
    spsc q' = spsc q ++ (if b then [s] else []).
Proof.
  intros (Hq & Hw & Hs) Hmd Hwf Hsn.
  assert (Hok : sdu_ok s) by (intros x Ex; specialize (Hsn x Ex); unfold STATE_DISCARDED; lia).
  destruct (sdu_queue_write_spec s q Hq Hok) as (Hq' & Hl & Hsp & _). destruct (sdu_queue_write s q) as [b q']. cbn [fst snd] in *.
  exists b, q'. split; [done|]. split; [|done]. split; [done|]. unfold sns_ok in *. rewrite Hsp.
  split; apply Forall_app_2; try done; destruct b; repeat apply Forall_cons_2; done || apply Forall_nil_2.
Qed.

Lemma tx_queue_read md s q :
  tx_queue_ok md q ->
  exists ok s' q', sdu_queue_read s q = Some (ok, s', q') /\ tx_queue_ok md q' /\
    live_sdus q = (if (ok : bool) then [s'] else []) ++ live_sdus q' /\ (ok = true -> sdu_wf s' /\ s' ∈ spsc q) /\
    (ok = false -> spsc q' = []).
Proof.
  intros Hq. pose proof Hq as (Hq0 & Hw & Hs). destruct (sdu_queue_read_spec s q Hq0) as (ok & s' & q' & E & Hq' & Hl & He).
  destruct (sdu_queue_read_out _ _ _ _ _ E) as [_ Hsub]. exists ok, s', q'. split; [done|]. split; [by eapply tx_queue_sub|].
  split; [done|]. split; [|done]. intros ->. assert (Hin : s' ∈ live_sdus q) by (rewrite Hl; by left).
  apply list_elem_of_filter in Hin as [_ Hin]. rewrite Forall_forall in Hw. split; [by apply Hw|done].
Qed.

(** *** Distances between sequence numbers *)
Lemma rel_cases md base x : 0 <= base < md -> 0 <= x < md -> rel md base x = if decide (base <= x) then x - base else x - base + md.
Proof.
  intros Hb Hx. unfold rel. case_decide; [apply Z.mod_small; lia|]. rewrite <- (Z_mod_plus_full _ 1), Z.mul_1_l. apply Z.mod_small. lia.
Qed.

Lemma succ_cases md x : 0 <= x < md -> (x + 1) mod md = if decide (x + 1 = md) then 0 else x + 1.
Proof. intros Hx. case_decide as E; [rewrite E; by apply Z_mod_same_full|apply Z.mod_small; lia]. Qed.
