(* ===== verification/RlcTxUm.v ===== *)
(** * The transmitting side of an RLC UM entity ([lib/rlc/rlc_tx_um_entity.h] and [.cpp])

    A failed assertion and a loop that exceeds its fuel are [None]. [sanity] tells whether the sanity checks
    ([ocudu_sanity_check]) are compiled in. *)
From S2P Require Import Prelude ByteCursor RlcConfig RlcUmPdu PdcpSn SduQueue RlcTxBase.

(** [rlc_tx_um_entity]; [rlc_tx_um_state::tx_next] is a field of it. *)
Record rlc_tx_um_entity := UmTx {
  ut_sn_size : rlc_um_sn_size;
  ut_pdcp_sn_len : pdcp_sn_size;
  ut_queue_size_bytes : Z;
  ut_tx_next : Z;
  ut_queue : rlc_sdu_queue_lockfree;
  ut_sdu : rlc_sdu;
  ut_next_so : Z;
  ut_prev_bs : rlc_buffer_state;
  ut_suspend_bs_notif_barring : bool;
  ut_pending_buffer_state : bool
}.

Implicit Types e : rlc_tx_um_entity.

(** The constructor, with its assertion on the PDCP SN length *)
Definition um_tx_new (sn_size : rlc_um_sn_size) (pdcp_len : pdcp_sn_size) (queue_size queue_size_bytes : Z)
  : option rlc_tx_um_entity :=
  match pdcp_len with
  | pdcp_size_invalid => None
  | _ => Some (UmTx sn_size pdcp_len queue_size_bytes 0 (sdu_queue_new queue_size queue_size_bytes) rlc_sdu_init 0
                rlc_buffer_state_init true false)
  end.

Definition ut_mod e : Z := cardinality (um_sn_to_number (ut_sn_size e)).
Definition head_len_full : Z := 1.
Definition head_len_first e : Z := rlc_um_pdu_header_size_no_so (ut_sn_size e).
Definition head_len_not_first e : Z := rlc_um_pdu_header_size_with_so (ut_sn_size e).

Definition ut_set_queue (q : rlc_sdu_queue_lockfree) e : rlc_tx_um_entity :=
  UmTx (ut_sn_size e) (ut_pdcp_sn_len e) (ut_queue_size_bytes e) (ut_tx_next e) q (ut_sdu e) (ut_next_so e)
    (ut_prev_bs e) (ut_suspend_bs_notif_barring e) (ut_pending_buffer_state e).
Definition ut_set_sdu (s : rlc_sdu) (next_so : Z) e : rlc_tx_um_entity :=
  UmTx (ut_sn_size e) (ut_pdcp_sn_len e) (ut_queue_size_bytes e) (ut_tx_next e) (ut_queue e) s next_so
    (ut_prev_bs e) (ut_suspend_bs_notif_barring e) (ut_pending_buffer_state e).
Definition ut_set_tx_next (n : Z) e : rlc_tx_um_entity :=
  UmTx (ut_sn_size e) (ut_pdcp_sn_len e) (ut_queue_size_bytes e) n (ut_queue e) (ut_sdu e) (ut_next_so e)
    (ut_prev_bs e) (ut_suspend_bs_notif_barring e) (ut_pending_buffer_state e).
Definition ut_set_bs (bs : rlc_buffer_state) (suspend : bool) e : rlc_tx_um_entity :=
  UmTx (ut_sn_size e) (ut_pdcp_sn_len e) (ut_queue_size_bytes e) (ut_tx_next e) (ut_queue e) (ut_sdu e) (ut_next_so e)
    bs suspend (ut_pending_buffer_state e).
Definition ut_set_pending (b : bool) e : rlc_tx_um_entity :=
  UmTx (ut_sn_size e) (ut_pdcp_sn_len e) (ut_queue_size_bytes e) (ut_tx_next e) (ut_queue e) (ut_sdu e) (ut_next_so e)
    (ut_prev_bs e) (ut_suspend_bs_notif_barring e) b.

(** [handle_changed_buffer_state]; [deferred] tells whether [pcell_executor] accepts the task. *)
Definition um_handle_changed_buffer_state (deferred : bool) e : rlc_tx_um_entity :=
  if negb (ut_pending_buffer_state e) then ut_set_pending deferred e else e.

(** [handle_sdu] for an SDU that arrives at time [toa] *)
Definition um_handle_sdu (sdu_buf : list Z) (toa : Z) (deferred : bool) e : option (rlc_tx_um_entity * list tx_event) :=
  pdcp_sn ← get_pdcp_sn sdu_buf (ut_pdcp_sn_len e) false;
  let '(written, q) := sdu_queue_write (Sdu sdu_buf false pdcp_sn toa) (ut_queue e) in
  let e := ut_set_queue q e in
  if (written : bool) then Some (um_handle_changed_buffer_state deferred e, [AddTxSdus 1 (buf_length sdu_buf)])
  else Some (e, [AddTxLostSdus 1]).

(** [discard_sdu] *)
Definition um_discard_sdu (pdcp_sn_start block_size : Z) (deferred : bool) e : option (rlc_tx_um_entity * list tx_event) :=
  mask ← pdcp_compute_sn_mask (ut_pdcp_sn_len e);
  '(q, any, ev) ← discard_block mask pdcp_sn_start block_size (ut_queue e);
  let e := ut_set_queue q e in
  Some ((if (any : bool) then um_handle_changed_buffer_state deferred e else e), ev).

(** [get_si_and_expected_header_size]: the returned flag, [si] and [head_len]; the arguments that are not assigned keep the
    caller's values. *)
Definition get_si_and_expected_header_size (so sdu_len grant_len : Z) (si : rlc_si_field) (head_len : Z) e
  : bool * rlc_si_field * Z :=
  if so =? 0 then
    if sdu_len <=? u32 (grant_len - head_len_full) then (true, full_sdu, head_len_full)
    else (negb (grant_len <=? head_len_first e), first_segment, head_len_first e)
  else
    if grant_len <=? head_len_not_first e then (false, si, head_len)
    else if u32 (sdu_len - ut_next_so e) <=? u32 (grant_len - head_len_not_first e)
    then (true, last_segment, head_len_not_first e)
    else (true, middle_segment, head_len_not_first e).

(** Fetching a new SDU when none is in transmission: [false] ends the pull. *)
Definition um_fetch_sdu (sanity : bool) e : option (bool * rlc_tx_um_entity * list tx_event) :=
  if negb (buf_empty (sdu_buf (ut_sdu e))) then Some (true, e, []) else
  if sanity && negb (ut_next_so e =? 0) then None else
  '(ok, sdu, q) ← sdu_queue_read (ut_sdu e) (ut_queue e);
  let e := ut_set_sdu sdu (ut_next_so e) (ut_set_queue q e) in
  if negb (ok : bool) then Some (false, e, []) else
  Some (true, e, match sdu_pdcp_sn sdu with Some sn => [OnTransmittedSdu sn (ut_queue_size_bytes e)] | None => [] end).

(** The state after a PDU with [payload_len] bytes was assembled: the SDU is released, the offset or the SN advanced. The
    released buffer goes to an executor; the moved-from SDU keeps its PDCP SN. *)
Definition um_after_pdu (si : rlc_si_field) (payload_len : Z) e : rlc_tx_um_entity :=
  let s := ut_sdu e in
  let e := match si with
           | full_sdu | last_segment => ut_set_sdu (Sdu [] (sdu_is_retx s) (sdu_pdcp_sn s) (sdu_toa s)) 0 e
           | _ => ut_set_sdu s (u32 (ut_next_so e + payload_len)) e
           end in
  match si with last_segment => ut_set_tx_next (u32 (ut_tx_next e + 1) mod ut_mod e) e | _ => e end.

(** [pull_pdu] once an SDU is in transmission. With sanity checks compiled in, the condition of the check assigns
    [expected_hdr_len] to [header_len]. *)
Definition um_build_pdu (sanity : bool) (buf : list Z) e : option (Z * list Z * rlc_tx_um_entity * list tx_event) :=
  let grant_len := u32 (buf_length buf) in
  let sdu_len := sdu_length (ut_sdu e) in
  let '(ok, si, expected_hdr_len) :=
    get_si_and_expected_header_size (ut_next_so e) (u32 sdu_len) grant_len full_sdu 0 e in
  if negb ok then Some (0, buf, e, []) else
  let header := UmHdr si (ut_sn_size e) (u16 (ut_tx_next e)) (u16 (ut_next_so e)) in
  '(header_len, buf) ← rlc_um_write_data_pdu_header buf header;
  header_len ← (if sanity then if expected_hdr_len =? 0 then None else Some expected_hdr_len else Some header_len);
  let space := u32 (grant_len - header_len) in
  let rest := u64 (sdu_len - ut_next_so e) in
  let payload_len := u32 (if rest <=? space then rest else space) in
  payload ← buffer_view (sdu_buf (ut_sdu e)) (ut_next_so e) payload_len;
  let '(nwritten, buf) := copy_segments payload buf header_len in
  if (nwritten =? 0) || negb (nwritten =? payload_len) then Some (0, buf, e, []) else
  let pdu_size := header_len + nwritten in
  Some (pdu_size, buf, um_after_pdu si payload_len e,
        [AddTxPdus (negb (bool_decide (si = full_sdu))) 1 pdu_size]).

(** [pull_pdu]: the returned size, the MAC buffer afterwards, the entity and the events *)
Definition um_pull_pdu (sanity : bool) (buf : list Z) e : option (Z * list Z * rlc_tx_um_entity * list tx_event) :=
  if u32 (buf_length buf) <=? head_len_full then Some (0, buf, e, []) else
  '(ok, e, ev1) ← um_fetch_sdu sanity e;
  if negb (ok : bool) then Some (0, buf, e, ev1) else
  '(n, buf, e, ev2) ← um_build_pdu sanity buf e;
  Some (n, buf, e, ev1 ++ ev2).

(** [get_buffer_state] *)
Definition um_get_buffer_state e : option (rlc_buffer_state * rlc_tx_um_entity) :=
  let '(n_sdus, n_bytes) := sdu_queue_state (ut_queue e) in
  let queue_bytes := u32 (n_bytes + u32 (n_sdus * head_len_full)) in
  '(segment_bytes, toa, e) ←
    (if negb (buf_empty (sdu_buf (ut_sdu e))) then
       @Some (Z * option Z * rlc_tx_um_entity) (u32 (sdu_length (ut_sdu e) - ut_next_so e + head_len_not_first e), Some (sdu_toa (ut_sdu e)), e)
     else
       '(next_sdu, q) ← sdu_queue_front (ut_queue e);
       Some (0, option_map sdu_toa next_sdu, ut_set_queue q e));
  let bs := BufferState (u32 (queue_bytes + segment_bytes)) toa in
  let suspend := if pending_bytes bs <=? MAX_DL_PDU_LENGTH then true else ut_suspend_bs_notif_barring e in
  Some (bs, ut_set_bs (ut_prev_bs e) suspend e).

(** [update_mac_buffer_state] *)
Definition um_update_mac_buffer_state e : option (rlc_tx_um_entity * list tx_event) :=
  let e := ut_set_pending false e in
  '(bs, e) ← um_get_buffer_state e;
  if (pending_bytes bs <=? MAX_DL_PDU_LENGTH) || (pending_bytes (ut_prev_bs e) <=? MAX_DL_PDU_LENGTH)
     || ut_suspend_bs_notif_barring e
  then Some (ut_set_bs bs false e, [OnBufferStateUpdate bs])
  else Some (ut_set_bs bs (ut_suspend_bs_notif_barring e) e, []).
