(* ===== verification/RlcTxUmCorrect.v ===== *)
(** * Correctness of the UM transmitter *)
From S2P Require Import Prelude ByteCursor RlcConfig RlcUmPdu BitCodec PdcpSn SduQueue SduQueueConc SduQueueSeq.
From S2P Require Import RlcTxBase RlcTxUm.

Implicit Types e : rlc_tx_um_entity.

Definition cur_empty e : Prop := sdu_buf (ut_sdu e) = [].

Record um_tx_inv e : Prop := {
  ui_queue : queue_ok (ut_queue e);
  ui_sdus : Forall sdu_wf (spsc (ut_queue e));
  ui_sns : sns_ok (2 ^ pdcp_sn_bits (ut_pdcp_sn_len e)) (spsc (ut_queue e));
  ui_pdcp : ut_pdcp_sn_len e <> pdcp_size_invalid;
  ui_next : 0 <= ut_tx_next e < ut_mod e;
  ui_cur : if buf_empty (sdu_buf (ut_sdu e)) then ut_next_so e = 0
           else sdu_wf (ut_sdu e) /\ 0 <= ut_next_so e < sdu_length (ut_sdu e)
}.

(** ** What a PDU should be: the SI and the number of payload bytes for a grant *)
Definition um_choice e (grant : Z) : option (rlc_si_field * Z) :=
  let len := sdu_length (ut_sdu e) in
  let so := ut_next_so e in
  if so =? 0 then
    if len <=? grant - 1 then Some (full_sdu, len)
    else if grant <=? head_len_first e then None else Some (first_segment, grant - head_len_first e)
  else if grant <=? head_len_not_first e then None
  else if len - so <=? grant - head_len_not_first e then Some (last_segment, len - so)
  else Some (middle_segment, grant - head_len_not_first e).

(** The header that announces it. A full SDU has no SN. *)
Definition um_chosen_header e (si : rlc_si_field) : rlc_um_pdu_header :=
  UmHdr si (ut_sn_size e) (if is_full_sdu si then 0 else ut_tx_next e) (ut_next_so e).

Lemma um_sizes e : 1 <= head_len_first e <= 2 /\ 3 <= head_len_not_first e <= 4 /\
  head_len_not_first e = head_len_first e + 2.
Proof. unfold head_len_first, head_len_not_first. destruct (ut_sn_size e); cbv; repeat split; congruence. Qed.

Lemma ut_mod_pow e : ut_mod e = 2 ^ um_sn_to_number (ut_sn_size e) /\ ut_mod e <= 4096.
Proof. unfold ut_mod. destruct (ut_sn_size e); vm_compute; split; congruence. Qed.

(** The offset that is announced is the one of the data, and there is data. *)
Lemma um_choice_bounds e grant si n :
  0 <= ut_next_so e < sdu_length (ut_sdu e) -> um_choice e grant = Some (si, n) ->
  0 < n <= sdu_length (ut_sdu e) - ut_next_so e /\
  (ut_next_so e = 0 <-> um_si_has_so si = false) /\
  (n = sdu_length (ut_sdu e) - ut_next_so e <-> si = full_sdu \/ si = last_segment) /\
  rlc_um_nr_packed_length (um_chosen_header e si) + n <= grant /\
  n = Z.min (sdu_length (ut_sdu e) - ut_next_so e) (grant - rlc_um_nr_packed_length (um_chosen_header e si)).
Proof.
  intros Hso. pose proof (um_sizes e) as (H1 & H2 & H3). unfold um_choice, rlc_um_nr_packed_length, um_chosen_header.
  cbn [um_si um_so um_sn_size].
  assert (Hf : match ut_sn_size e with um_size6bits => 1 | um_size12bits => 2 end = head_len_first e)
    by (unfold head_len_first; by destruct (ut_sn_size e)).
  rewrite Hf. destruct (Z.eqb_spec (ut_next_so e) 0) as [E0|E0].
  - destruct (Z.leb_spec (sdu_length (ut_sdu e)) (grant - 1)); [|destruct (Z.leb_spec grant (head_len_first e)); [done|]];
      intros [= <- <-]; cbn [negb um_si_has_so]; (split; [lia|split; [done|split; [|split; lia]]]); split; intros Hx; try lia; [by left|].
    by destruct Hx.
  - destruct (Z.leb_spec grant (head_len_not_first e)); [done|].
    destruct (Z.leb_spec (sdu_length (ut_sdu e) - ut_next_so e) (grant - head_len_not_first e));
      intros [= <- <-]; cbn [negb um_si_has_so]; (split; [lia|split; [done|split; [|split; lia]]]); split; intros Hx; try lia; [by right|].
    by destruct Hx.
Qed.

Lemma um_chosen_header_ok e grant si n :
  um_tx_inv e -> buf_empty (sdu_buf (ut_sdu e)) = false -> um_choice e grant = Some (si, n) -> um_header_ok (um_chosen_header e si).
Proof.
  intros Hinv Hne Hc. pose proof (ui_cur _ Hinv) as Hcur. rewrite Hne in Hcur. destruct Hcur as [[_ Hl] Hso].
  destruct (um_choice_bounds e grant si n Hso Hc) as (_ & Hsi & _).
  pose proof (ui_next _ Hinv) as Hn. destruct (ut_mod_pow e) as [Em _]. rewrite Em in Hn.
  unfold um_header_ok, um_chosen_header. cbn [um_sn um_so um_si um_sn_size].
  split; [destruct (is_full_sdu si); [split; [done|]; destruct (ut_sn_size e); done|done]|].
  split; [lia|]. split; [destruct (um_si_has_so si); split; intros; naive_solver|]. by intros ->.
Qed.

(** The writer ignores the SN of a full SDU. *)
Lemma um_write_full_sn buf sz sn so :
  rlc_um_write_data_pdu_header buf (UmHdr full_sdu sz sn so) = rlc_um_write_data_pdu_header buf (UmHdr full_sdu sz 0 so).
Proof. reflexivity. Qed.

Lemma um_get_si_spec e grant :
  0 <= ut_next_so e < sdu_length (ut_sdu e) -> sdu_length (ut_sdu e) <= 65536 -> 1 < grant < 4294967296 ->
  match um_choice e grant with
  | None => exists si n, get_si_and_expected_header_size (ut_next_so e) (u32 (sdu_length (ut_sdu e))) grant full_sdu 0 e = (false, si, n)
  | Some (si, _) => get_si_and_expected_header_size (ut_next_so e) (u32 (sdu_length (ut_sdu e))) grant full_sdu 0 e
                    = (true, si, rlc_um_nr_packed_length (um_chosen_header e si))
  end.
Proof.
  intros Hso Hlen Hg. pose proof (um_sizes e) as (H1 & H2 & H3).
  unfold um_choice, get_si_and_expected_header_size, rlc_um_nr_packed_length, um_chosen_header, head_len_full.
  cbn [um_si um_so um_sn_size].
  assert (Hf : match ut_sn_size e with um_size6bits => 1 | um_size12bits => 2 end = head_len_first e)
    by (unfold head_len_first; by destruct (ut_sn_size e)).
  rewrite (u32_small (sdu_length _)), (u32_small (grant - 1)) by lia. destruct (Z.eqb_spec (ut_next_so e) 0) as [E0|E0].
  - destruct (Z.leb_spec (sdu_length (ut_sdu e)) (grant - 1)); [done|].
    destruct (Z.leb_spec grant (head_len_first e)); cbn [negb]; [by eexists _, _|]. by rewrite Hf.
  - destruct (Z.leb_spec grant (head_len_not_first e)); [by eexists _, _|].
    rewrite !u32_small by lia.
    destruct (Z.leb_spec (sdu_length (ut_sdu e) - ut_next_so e) (grant - head_len_not_first e)); cbn [negb]; rewrite Hf;
      repeat f_equal; lia.
Qed.

(** The PDU that carries the next bytes of the SDU. *)
Definition um_chosen_pdu e (si : rlc_si_field) (n : Z) : list Z :=
  um_header_octets (um_chosen_header e si) ++ take (Z.to_nat n) (drop (Z.to_nat (ut_next_so e)) (sdu_buf (ut_sdu e))).

Lemma um_write_chosen e si buf :
  um_header_ok (um_chosen_header e si) -> 0 <= ut_tx_next e < 65536 -> 0 <= ut_next_so e < 65536 ->
  rlc_um_nr_packed_length (um_chosen_header e si) <= rd_length buf ->
  rlc_um_write_data_pdu_header buf (UmHdr si (ut_sn_size e) (u16 (ut_tx_next e)) (u16 (ut_next_so e)))
  = Some (rlc_um_nr_packed_length (um_chosen_header e si),
          um_header_octets (um_chosen_header e si) ++ drop (length (um_header_octets (um_chosen_header e si))) buf).
Proof.
  intros Hok Hn Hso Hl. unfold u16. rewrite !uint_small by done. rewrite <- um_write_octets by done.
  unfold um_chosen_header. by destruct si.
Qed.

Lemma um_build_spec sanity buf e :
  um_tx_inv e -> buf_empty (sdu_buf (ut_sdu e)) = false -> 1 < buf_length buf < 4294967296 ->
  match um_choice e (buf_length buf) with
  | None => um_build_pdu sanity buf e = Some (0, buf, e, [])
  | Some (si, n) =>
      let pdu := um_chosen_pdu e si n in
      um_build_pdu sanity buf e
      = Some (buf_length pdu, pdu ++ drop (length pdu) buf, um_after_pdu si n e,
              [AddTxPdus (negb (bool_decide (si = full_sdu))) 1 (buf_length pdu)]) /\
      buf_length pdu <= buf_length buf
  end.
Proof.
  intros Hinv Hne Hg. pose proof (ui_cur _ Hinv) as Hcur. rewrite Hne in Hcur. destruct Hcur as [[Hbytes Hl] Hso].
  pose proof (um_get_si_spec e (buf_length buf) Hso (proj2 Hl) Hg) as Hsi.
  unfold um_build_pdu. rewrite (u32_small (buf_length buf)) by lia.
  destruct (um_choice e (buf_length buf)) as [[si n]|] eqn:Hc.
  2: { destruct Hsi as (si & n & ->). done. }
  rewrite Hsi. cbn [negb].
  destruct (um_choice_bounds e _ si n Hso Hc) as (Hn & _ & _ & Hfit & Hmin).
  pose proof (um_chosen_header_ok e _ si n Hinv Hne Hc) as Hok.
  set (h := um_chosen_header e si) in *. set (hl := rlc_um_nr_packed_length h) in *.
  pose proof (um_header_octets_length h Hok) as Hhl. fold hl in Hhl.
  assert (Hhl' : buf_length (um_header_octets h) = hl) by exact Hhl.
  pose proof (ui_next _ Hinv) as Hnext. destruct (ut_mod_pow e) as [_ Hm].
  assert (Hhlpos : 1 <= hl <= 4).
  { unfold hl, rlc_um_nr_packed_length, h, um_chosen_header. cbn [um_si um_so um_sn_size].
    destruct si, (ut_sn_size e), (ut_next_so e =? 0); cbn; lia. }
  assert (Hrd : rd_length buf = buf_length buf) by done.
  rewrite (um_write_chosen e si buf) by (done || (fold h hl; lia)). cbn [mbind option_bind]. fold h hl.
  assert (Es : (if sanity then if hl =? 0 then None else Some hl else Some hl) = Some hl).
  { destruct sanity; [|done]. by rewrite (proj2 (Z.eqb_neq hl 0)) by lia. }
  rewrite Es. cbn [mbind option_bind].
  rewrite (u32_small (buf_length buf - hl)) by lia. unfold u64. rewrite uint_small by lia.
  assert (Ep : u32 (if sdu_length (ut_sdu e) - ut_next_so e <=? buf_length buf - hl then sdu_length (ut_sdu e) - ut_next_so e
                    else buf_length buf - hl) = n).
  { fold h hl in Hmin. destruct (Z.leb_spec (sdu_length (ut_sdu e) - ut_next_so e) (buf_length buf - hl)); rewrite u32_small by lia; lia. }
  rewrite Ep.
  destruct (buffer_view_ok (sdu_buf (ut_sdu e)) (ut_next_so e) n) as (v & -> & Ev & Hv); [lia|lia|unfold sdu_length in *; lia|].
  cbn [mbind option_bind].
  assert (Hrest : buf_length (drop (length (um_header_octets h)) buf) = buf_length buf - hl).
  { unfold buf_length in *. rewrite length_drop. lia. }
  rewrite <- Hhl', copy_segments_fits by lia. rewrite Hv.
  rewrite (proj2 (Z.eqb_neq n 0)), Z.eqb_refl by lia. cbn [negb orb].
  assert (Epdu : um_chosen_pdu e si n = um_header_octets h ++ v) by (unfold um_chosen_pdu; by rewrite Ev).
  cbv zeta. rewrite Epdu, buf_length_app, Hv, Hhl'. split; [|lia].
  rewrite drop_drop, <- app_assoc, length_app. done.
Qed.

(** ** Preservation of the invariant *)
Lemma um_after_fields si n e :
  ut_sn_size (um_after_pdu si n e) = ut_sn_size e /\ ut_pdcp_sn_len (um_after_pdu si n e) = ut_pdcp_sn_len e /\
  ut_queue (um_after_pdu si n e) = ut_queue e.
Proof. by destruct si. Qed.

Lemma um_after_inv e grant si n :
  um_tx_inv e -> buf_empty (sdu_buf (ut_sdu e)) = false -> um_choice e grant = Some (si, n) ->
  um_tx_inv (um_after_pdu si n e) /\
  (match si with
   | full_sdu | last_segment => sdu_buf (ut_sdu (um_after_pdu si n e)) = [] /\ n = sdu_length (ut_sdu e) - ut_next_so e
   | _ => ut_sdu (um_after_pdu si n e) = ut_sdu e /\ ut_next_so (um_after_pdu si n e) = ut_next_so e + n /\
          ut_tx_next (um_after_pdu si n e) = ut_tx_next e
   end).
Proof.
  intros Hinv Hne Hc. pose proof (ui_cur _ Hinv) as Hcur. rewrite Hne in Hcur. destruct Hcur as [Hwf Hso].
  destruct (um_choice_bounds e grant si n Hso Hc) as (Hn & _ & Hlast & _).
  pose proof (ui_next _ Hinv) as Hnext. destruct (ut_mod_pow e) as [Em Hm].
  assert (Hlen : sdu_length (ut_sdu e) <= 65536) by apply Hwf.
  assert (Hmodpos : 0 < ut_mod e) by lia.
  destruct si; (split; [split|]); cbn; try apply Hinv; try done.
  all: try (change (ut_mod _) with (ut_mod e)); try lia.
  - by destruct Hlast as [_ ->]; auto.
  - rewrite Hne, u32_small by lia. split; [done|]. assert (n <> sdu_length (ut_sdu e) - ut_next_so e); [|lia].
    intros E. apply Hlast in E as [?|?]; done.
  - rewrite u32_small by lia. done.
  - by destruct Hlast as [_ ->]; auto.
  - rewrite Hne, u32_small by lia. split; [done|]. assert (n <> sdu_length (ut_sdu e) - ut_next_so e); [|lia].
    intros E. apply Hlast in E as [?|?]; done.
  - rewrite u32_small by lia. done.
Qed.

(** Fetching the next SDU. *)
Lemma um_fetch_spec sanity e :
  um_tx_inv e ->
  exists ok e' ev, um_fetch_sdu sanity e = Some (ok, e', ev) /\ um_tx_inv e' /\
    ut_sn_size e' = ut_sn_size e /\ ut_tx_next e' = ut_tx_next e /\ ut_next_so e' = ut_next_so e /\
    if buf_empty (sdu_buf (ut_sdu e)) then
      live_sdus (ut_queue e) = (if (ok : bool) then [ut_sdu e'] else []) ++ live_sdus (ut_queue e') /\
      ut_sdu e' ∈ ut_sdu e :: spsc (ut_queue e) /\ spsc (ut_queue e') ⊆+ spsc (ut_queue e) /\
      (ok = true -> buf_empty (sdu_buf (ut_sdu e')) = false) /\ (ok = false -> spsc (ut_queue e') = [])
    else ok = true /\ e' = e /\ ev = [].
Proof.
  intros Hinv. pose proof (ui_cur _ Hinv) as Hcur. unfold um_fetch_sdu.
  destruct (buf_empty (sdu_buf (ut_sdu e))) eqn:Hem; cbn [negb]; [|by exists true, e, []].
  assert (sanity && negb (ut_next_so e =? 0) = false) as -> by by rewrite Hcur, andb_false_r.
  destruct (sdu_queue_read_spec (ut_sdu e) (ut_queue e) (ui_queue _ Hinv)) as (ok & s & q & E & Hq & Hlive & Hemp).
  rewrite E. cbn [mbind option_bind]. destruct (sdu_queue_read_out _ _ _ _ _ E) as [Hin Hsub].
  assert (Hwfs : Forall sdu_wf (spsc q)).
  { apply Forall_forall. intros x Hx. pose proof (ui_sdus _ Hinv) as Hs. rewrite Forall_forall in Hs. apply Hs. by eapply elem_of_submseteq. }
  assert (Hnewcur : if buf_empty (sdu_buf s) then ut_next_so e = 0 else sdu_wf s /\ 0 <= ut_next_so e < sdu_length s).
  { destruct (buf_empty (sdu_buf s)) eqn:Hs; [done|].
    apply elem_of_cons in Hin as [->|Hin]; [by rewrite Hs in Hem|].
    pose proof (ui_sdus _ Hinv) as Hall. rewrite Forall_forall in Hall. specialize (Hall s Hin). split; [done|]. destruct Hall as [_ ?]. lia. }
  assert (Hinv' : um_tx_inv (ut_set_sdu s (ut_next_so e) (ut_set_queue q e))).
  { split; cbn; try done; try apply Hinv. apply Forall_forall. intros x Hx. pose proof (ui_sns _ Hinv) as Hs.
    unfold sns_ok in Hs. rewrite Forall_forall in Hs. apply Hs. by eapply elem_of_submseteq. }
  assert (Hne : ok = true -> buf_empty (sdu_buf s) = false).
  { intros ->. assert (Hs : s ∈ live_sdus (ut_queue e)) by (rewrite Hlive; by left).
    unfold live_sdus in Hs. apply list_elem_of_filter in Hs as [_ Hs].
    pose proof (ui_sdus _ Hinv) as Hall. rewrite Forall_forall in Hall. destruct (Hall s Hs) as [_ Hl].
    unfold sdu_length, buf_length in Hl. destruct (sdu_buf s); [cbn in Hl; lia|done]. }
  destruct ok; cbn [negb]; (eexists _, _, _; split; [reflexivity|]; cbn [ut_sn_size ut_tx_next ut_next_so ut_sdu ut_queue ut_set_sdu ut_set_queue]);
    repeat (split; [done|]); first [exact Hemp|split; [exact Hne|done]].
Qed.

(** ** Pulling a PDU *)
Lemma um_inv_buf_bound e : um_tx_inv e -> buf_empty (sdu_buf (ut_sdu e)) = false -> sdu_wf (ut_sdu e) /\ 0 <= ut_next_so e < sdu_length (ut_sdu e).
Proof. intros Hinv Hne. pose proof (ui_cur _ Hinv) as H. by rewrite Hne in H. Qed.

(** After the fetch ([e1]), either nothing is written, or the PDU of [um_choice]. *)
Lemma um_pull_spec sanity buf e :
  um_tx_inv e -> buf_length buf < 4294967296 ->
  exists n buf' e1 e' ev, um_pull_pdu sanity buf e = Some (n, buf', e', ev) /\ um_tx_inv e' /\ length buf' = length buf /\
    ut_sn_size e' = ut_sn_size e /\
    (buf_length buf <= 1 /\ e1 = e \/
     1 < buf_length buf /\ exists ok ev1, um_fetch_sdu sanity e = Some (ok, e1, ev1) /\ (n <> 0 -> ok = true)) /\
    ((n = 0 /\ buf' = buf /\ e' = e1 /\ (buf_length buf <= 1 \/ buf_empty (sdu_buf (ut_sdu e1)) = true \/ um_choice e1 (buf_length buf) = None
       \/ exists ev1, um_fetch_sdu sanity e = Some (false, e1, ev1))) \/
     (exists si k, buf_empty (sdu_buf (ut_sdu e1)) = false /\ um_tx_inv e1 /\ um_choice e1 (buf_length buf) = Some (si, k) /\
        n = buf_length (um_chosen_pdu e1 si k) /\ 0 < n <= buf_length buf /\
        take (Z.to_nat n) buf' = um_chosen_pdu e1 si k /\ e' = um_after_pdu si k e1)).
Proof.
  intros Hinv Hb. unfold um_pull_pdu, head_len_full. pose proof (buf_length_nonneg buf) as Hnn. rewrite u32_small by lia.
  destruct (Z.leb_spec (buf_length buf) 1) as [Hle|Hgt].
  { exists 0, buf, e, e, []. split; [done|]. split; [done|]. split; [done|]. split; [done|]. split; [by left|]. left. auto. }
  destruct (um_fetch_spec sanity e Hinv) as (ok & e1 & ev1 & Ef & Hinv1 & Hs1 & Hn1 & Hso1 & Hcase).
  rewrite Ef. cbn [mbind option_bind]. destruct ok; cbn [negb].
  2: { exists 0, buf, e1, e1, ev1. split; [done|]. split; [done|]. split; [done|]. split; [done|].
       split; [right; split; [done|]; by exists false, ev1|]. left. repeat (split; [done|]). right; right; right. by exists ev1. }
  assert (Hne : buf_empty (sdu_buf (ut_sdu e1)) = false).
  { destruct (buf_empty (sdu_buf (ut_sdu e))) eqn:Hem; [by apply Hcase|]. by destruct Hcase as (_ & -> & _). }
  pose proof (um_build_spec sanity buf e1 Hinv1 Hne ltac:(lia)) as Hbuild.
  destruct (um_choice e1 (buf_length buf)) as [[si k]|] eqn:Hc.
  - destruct Hbuild as [-> Hfit]. cbn [mbind option_bind].
    destruct (um_after_inv e1 _ si k Hinv1 Hne Hc) as [Hinv' _]. destruct (um_after_fields si k e1) as (Hsz & _ & _).
    assert (Hpos : 0 < buf_length (um_chosen_pdu e1 si k)).
    { destruct (um_inv_buf_bound e1 Hinv1 Hne) as [[_ Hl] Hso]. destruct (um_choice_bounds e1 _ si k Hso Hc) as (Hk & _).
      unfold um_chosen_pdu. rewrite buf_length_app. pose proof (buf_length_nonneg (um_header_octets (um_chosen_header e1 si))).
      unfold buf_length at 2. rewrite length_take, length_drop. unfold sdu_length, buf_length in Hk. lia. }
    eexists _, _, e1, _, _. split; [reflexivity|]. split; [done|].
    split; [unfold buf_length in Hfit; rewrite length_app, length_drop; lia|]. split; [congruence|].
    split; [right; split; [done|]; by exists true, ev1|]. right. exists si, k. repeat (split; [done || lia|]). split; [|done].
    unfold buf_length. by rewrite Nat2Z.id, take_app_length.
  - rewrite Hbuild. cbn [mbind option_bind]. eexists 0, buf, e1, e1, _. split; [reflexivity|]. repeat (split; [done|]).
    split; [right; split; [done|]; by exists true, ev1|]. left. repeat (split; [done|]). auto.
Qed.

(** ** Runs *)
Inductive um_tx_input :=
| TxSdu (buf : list Z) (toa : Z) (deferred : bool)
| TxDiscard (pdcp_sn_start block_size : Z) (deferred : bool)
| TxPull (mac_sdu_buf : list Z)
| TxUpdate.

Definition um_tx_input_ok (i : um_tx_input) : Prop :=
  match i with
  | TxSdu buf _ _ => bytes_ok buf /\ 1 <= buf_length buf <= 65536
  | TxDiscard start block _ => 0 <= start < 4294967296 /\ 0 <= block < 4294967296
  | TxPull buf => buf_length buf < 4294967296
  | TxUpdate => True
  end.

(** The SDUs that [handle_sdu] accepts. *)
Definition accepted (buf : list Z) (ev : list tx_event) : list (list Z) :=
  match ev with AddTxSdus _ _ :: _ => [buf] | _ => [] end.

(** One input: the entity, the accepted SDUs, the PDUs and the events. *)
Definition um_tx_step (sanity : bool) (i : um_tx_input) e
  : option (rlc_tx_um_entity * list (list Z) * list (list Z) * list tx_event) :=
  match i with
  | TxSdu buf toa deferred => '(e, ev) ← um_handle_sdu buf toa deferred e; Some (e, accepted buf ev, [], ev)
  | TxDiscard start block deferred => '(e, ev) ← um_discard_sdu start block deferred e; Some (e, [], [], ev)
  | TxPull buf =>
      '(n, buf, e, ev) ← um_pull_pdu sanity buf e;
      Some (e, [], if n =? 0 then [] else [take (Z.to_nat n) buf], ev)
  | TxUpdate => '(e, ev) ← um_update_mac_buffer_state e; Some (e, [], [], ev)
  end.

Fixpoint um_tx_run (sanity : bool) (l : list um_tx_input) e
  : option (rlc_tx_um_entity * list (list Z) * list (list Z) * list tx_event) :=
  match l with
  | [] => Some (e, [], [], [])
  | i :: l =>
      '(e, acc1, pdus1, ev1) ← um_tx_step sanity i e;
      '(e, acc2, pdus2, ev2) ← um_tx_run sanity l e;
      Some (e, acc1 ++ acc2, pdus1 ++ pdus2, ev1 ++ ev2)
  end.

(** *** The steps other than a pull *)
Lemma um_inv_queue e q :
  um_tx_inv e -> queue_ok q -> Forall sdu_wf (spsc q) -> sns_ok (2 ^ pdcp_sn_bits (ut_pdcp_sn_len e)) (spsc q) ->
  um_tx_inv (ut_set_queue q e).
Proof. intros [] ? ? ?. by split. Qed.

Lemma um_inv_changed deferred e : um_tx_inv e -> um_tx_inv (um_handle_changed_buffer_state deferred e).
Proof. intros Hinv. unfold um_handle_changed_buffer_state. destruct (negb _); [|done]. by destruct Hinv. Qed.

Lemma um_handle_sdu_spec buf toa deferred e :
  um_tx_inv e -> bytes_ok buf -> 1 <= buf_length buf <= 65536 ->
  exists e' ev s, um_handle_sdu buf toa deferred e = Some (e', ev) /\ um_tx_inv e' /\ sdu_buf s = buf /\
    ut_sn_size e' = ut_sn_size e /\ ut_tx_next e' = ut_tx_next e /\ ut_sdu e' = ut_sdu e /\ ut_next_so e' = ut_next_so e /\
    exists b : bool, accepted buf ev = (if b then [buf] else []) /\
      live_sdus (ut_queue e') = live_sdus (ut_queue e) ++ (if b then [s] else []) /\
      spsc (ut_queue e') = spsc (ut_queue e) ++ (if b then [s] else []).
Proof.
  intros Hinv Hb Hl. unfold um_handle_sdu.
  destruct (get_pdcp_sn_range buf (ut_pdcp_sn_len e) false Hb (ui_pdcp _ Hinv)) as (sn & -> & Hsn); [done|].
  cbn [mbind option_bind]. set (s := Sdu buf false sn toa).
  assert (Hmd : 2 ^ pdcp_sn_bits (ut_pdcp_sn_len e) <= 262144).
  { pose proof (md_bounds _ _ (pdcp_bits_range (ut_pdcp_sn_len e)) eq_refl). lia. }
  assert (Hok : sdu_ok s).
  { intros x Ex. cbn in Ex. specialize (Hsn x Ex). unfold STATE_DISCARDED. lia. }
  destruct (sdu_queue_write_spec s (ut_queue e) (ui_queue _ Hinv) Hok) as (Hq & Hlive & Hspsc & _).
  destruct (sdu_queue_write s (ut_queue e)) as [b q]. cbn [fst snd] in *.
  assert (Hinv' : um_tx_inv (ut_set_queue q e)).
  { apply um_inv_queue; [done|done| |].
    - rewrite Hspsc. apply Forall_app_2; [apply Hinv|]. destruct b; [|done]. constructor; [done|constructor].
    - unfold sns_ok. rewrite Hspsc. apply Forall_app_2; [apply Hinv|]. destruct b; [|done]. constructor; [|constructor].
      intros x Ex. by apply Hsn. }
  destruct b; eexists _, _, s; (split; [reflexivity|]).
  - split; [by apply um_inv_changed|]. split; [done|]. unfold um_handle_changed_buffer_state.
    repeat (split; [by destruct (negb _)|]). exists true. split; [done|]. by destruct (negb _).
  - split; [done|]. repeat (split; [done|]). by exists false.
Qed.

Lemma um_tx_discard_spec start block deferred e :
  um_tx_inv e -> 0 <= start < 4294967296 -> 0 <= block < 4294967296 ->
  let md := 2 ^ pdcp_sn_bits (ut_pdcp_sn_len e) in
  exists e' ev, um_discard_sdu start block deferred e = Some (e', ev) /\ um_tx_inv e' /\
    ut_sn_size e' = ut_sn_size e /\ ut_sdu e' = ut_sdu e /\ ut_next_so e' = ut_next_so e /\ ut_tx_next e' = ut_tx_next e /\
    live_sdus (ut_queue e') =
      (if start <? md then filter (fun s => in_block md start (block mod md) s = false) (live_sdus (ut_queue e))
       else live_sdus (ut_queue e)).
Proof.
  intros Hinv Hs Hb md. unfold um_discard_sdu. rewrite pdcp_mask by apply Hinv. cbn [mbind option_bind].
  destruct (discard_block_spec (ut_pdcp_sn_len e) start block (ut_queue e) (ui_queue _ Hinv) (ui_sns _ Hinv) Hs Hb)
    as (q & any & ev & -> & Hq & Hsp & _ & Hl & _). cbn [mbind option_bind].
  assert (Hinv' : um_tx_inv (ut_set_queue q e)) by (apply um_inv_queue; rewrite ?Hsp; by try apply Hinv).
  eexists _, ev. split; [reflexivity|]. unfold um_handle_changed_buffer_state. cbn [ut_pending_buffer_state ut_set_queue].
  destruct any; [destruct (negb _)|]; (split; [by destruct Hinv'|]); by repeat (split; [done|]).
Qed.

Lemma um_update_spec e :
  um_tx_inv e ->
  exists e' ev, um_update_mac_buffer_state e = Some (e', ev) /\ um_tx_inv e' /\
    ut_sn_size e' = ut_sn_size e /\ ut_sdu e' = ut_sdu e /\ ut_next_so e' = ut_next_so e /\ ut_tx_next e' = ut_tx_next e /\
    live_sdus (ut_queue e') = live_sdus (ut_queue e) /\ spsc (ut_queue e') ⊆+ spsc (ut_queue e).
Proof.
  intros Hinv. unfold um_update_mac_buffer_state, um_get_buffer_state. cbn [ut_set_pending ut_queue ut_sdu].
  destruct (sdu_queue_state (ut_queue e)) as [n_sdus n_bytes]. destruct (buf_empty (sdu_buf (ut_sdu e))) eqn:Hem; cbn [negb].
  - destruct (sdu_queue_front_spec (ut_queue e) (ui_queue _ Hinv)) as (r & q & E & Hq & Hlive & _). rewrite E.
    pose proof (sdu_queue_front_out _ _ _ E) as Hsub. cbn [mbind option_bind].
    assert (Hinv' : um_tx_inv (ut_set_queue q e)).
    { apply um_inv_queue; [done|done| |].
      - apply Forall_forall. intros x Hx. pose proof (ui_sdus _ Hinv) as Hs. rewrite Forall_forall in Hs. apply Hs. by eapply elem_of_submseteq.
      - apply Forall_forall. intros x Hx. pose proof (ui_sns _ Hinv) as Hs. unfold sns_ok in Hs. rewrite Forall_forall in Hs.
        apply Hs. by eapply elem_of_submseteq. }
    case_match; (eexists _, _; split; [reflexivity|]); (split; [by destruct Hinv'|]); by repeat (split; [done|]).
  - cbn [mbind option_bind]. case_match; (eexists _, _; split; [reflexivity|]); (split; [by destruct Hinv|]); by repeat (split; [done|]).
Qed.
