(* ===== verification/RlcTxUmStream.v ===== *)
(** * The PDUs of the UM transmitter carry the accepted SDUs

    Theorems about runs of [RlcTxUm]: every input is handled, and without discards the sequence of PDUs, read with the
    header reader and put together again, is the sequence of accepted SDUs. *)
From S2P Require Import Prelude ByteCursor RlcConfig RlcUmPdu BitCodec PdcpSn SduQueue SduQueueConc SduQueueSeq.
From S2P Require Import RlcTxBase RlcTxUm RlcTxUmCorrect.

Implicit Types e : rlc_tx_um_entity.

(** ** What an ideal receiver does with a stream of PDUs

    It holds the SN and the bytes of the SDU whose first segment has arrived, and accepts only the next segment of it. *)
Definition um_assemble_pdu (sn_size : rlc_um_sn_size) (pdu : list Z) (held : option (Z * list Z))
  : option (option (Z * list Z) * list (list Z)) :=
  '(ok, h) ← rlc_um_read_data_pdu_header pdu sn_size rlc_um_pdu_header_init;
  if negb (ok : bool) then None else
  let payload := drop (Z.to_nat (rlc_um_nr_packed_length h)) pdu in
  match um_si h, held with
  | full_sdu, None => Some (None, [payload])
  | first_segment, None => Some (Some (um_sn h, payload), [])
  | middle_segment, Some (sn, data) =>
      if (um_sn h =? sn) && (um_so h =? buf_length data) then Some (Some (sn, data ++ payload), []) else None
  | last_segment, Some (sn, data) =>
      if (um_sn h =? sn) && (um_so h =? buf_length data) then Some (None, [data ++ payload]) else None
  | _, _ => None
  end.

Fixpoint um_assemble (sn_size : rlc_um_sn_size) (pdus : list (list Z)) (held : option (Z * list Z))
  : option (option (Z * list Z) * list (list Z)) :=
  match pdus with
  | [] => Some (held, [])
  | pdu :: pdus =>
      '(held, out1) ← um_assemble_pdu sn_size pdu held;
      '(held, out2) ← um_assemble sn_size pdus held;
      Some (held, out1 ++ out2)
  end.

(** The part of the current SDU that has been sent, and everything that has not been sent completely. *)
Definition um_sent_part e : option (Z * list Z) :=
  if ut_next_so e =? 0 then None
  else Some (ut_tx_next e, take (Z.to_nat (ut_next_so e)) (sdu_buf (ut_sdu e))).
Definition um_unsent e : list (list Z) :=
  (if buf_empty (sdu_buf (ut_sdu e)) then [] else [sdu_buf (ut_sdu e)]) ++ map sdu_buf (live_sdus (ut_queue e)).

Lemma um_assemble_app sn_size pdus1 pdus2 held held1 out1 held2 out2 :
  um_assemble sn_size pdus1 held = Some (held1, out1) -> um_assemble sn_size pdus2 held1 = Some (held2, out2) ->
  um_assemble sn_size (pdus1 ++ pdus2) held = Some (held2, out1 ++ out2).
Proof.
  revert held out1. induction pdus1 as [|pdu pdus1 IH]; intros held out1 E1 E2; cbn [um_assemble app] in *.
  { by injection E1 as <- <-. }
  destruct (um_assemble_pdu sn_size pdu held) as [[h o]|]; [|done]. cbn [mbind option_bind] in *.
  destruct (um_assemble sn_size pdus1 h) as [[h' o']|] eqn:E; [|done]. cbn [mbind option_bind] in *. injection E1 as <- <-.
  rewrite (IH h o' E E2). cbn [mbind option_bind]. by rewrite <- app_assoc.
Qed.

(** ** One PDU *)
Lemma um_assemble_chosen e grant si n held :
  um_tx_inv e -> buf_empty (sdu_buf (ut_sdu e)) = false -> um_choice e grant = Some (si, n) ->
  let h := um_chosen_header e si in
  let payload := take (Z.to_nat n) (drop (Z.to_nat (ut_next_so e)) (sdu_buf (ut_sdu e))) in
  um_assemble_pdu (ut_sn_size e) (um_chosen_pdu e si n) held =
  match si, held with
  | full_sdu, None => Some (None, [payload])
  | first_segment, None => Some (Some (um_sn h, payload), [])
  | middle_segment, Some (sn, data) =>
      if (um_sn h =? sn) && (um_so h =? buf_length data) then Some (Some (sn, data ++ payload), []) else None
  | last_segment, Some (sn, data) =>
      if (um_sn h =? sn) && (um_so h =? buf_length data) then Some (None, [data ++ payload]) else None
  | _, _ => None
  end.
Proof.
  intros Hinv Hne Hc h payload. destruct (um_inv_buf_bound e Hinv Hne) as [_ Hso].
  destruct (um_choice_bounds e _ si n Hso Hc) as (Hn & _). pose proof (um_chosen_header_ok e _ si n Hinv Hne Hc) as Hok.
  assert (Hp : payload <> []).
  { intros E. apply (f_equal length) in E. unfold payload in E. rewrite length_take, length_drop in E.
    unfold sdu_length, buf_length in *. cbn [length] in E. lia. }
  unfold um_assemble_pdu, um_chosen_pdu. fold h payload.
  change (ut_sn_size e) with (um_sn_size h) at 1. rewrite um_read_octets by done. cbn [mbind option_bind negb].
  pose proof (um_header_octets_length h Hok) as Hl. unfold rd_length in Hl. rewrite <- Hl, Nat2Z.id, drop_app_length. done.
Qed.

(** The receiver that holds the sent part continues with the next PDU. *)
Lemma um_pdu_continues e grant si n :
  um_tx_inv e -> buf_empty (sdu_buf (ut_sdu e)) = false -> um_choice e grant = Some (si, n) ->
  exists out, um_assemble_pdu (ut_sn_size e) (um_chosen_pdu e si n) (um_sent_part e)
              = Some (um_sent_part (um_after_pdu si n e), out) /\
    um_unsent e = out ++ um_unsent (um_after_pdu si n e).
Proof.
  intros Hinv Hne Hc. destruct (um_inv_buf_bound e Hinv Hne) as [_ Hso].
  rewrite (um_assemble_chosen e grant si n) by done.
  destruct (um_choice_bounds e _ si n Hso Hc) as (Hn & Hz & Hlast & _).
  destruct (um_after_inv e grant si n Hinv Hne Hc) as [_ Hafter].
  destruct (um_after_fields si n e) as (_ & _ & Hq).
  assert (Hdata : 0 < ut_next_so e -> buf_length (take (Z.to_nat (ut_next_so e)) (sdu_buf (ut_sdu e))) = ut_next_so e).
  { intros _. unfold buf_length. rewrite length_take. unfold sdu_length, buf_length in Hso. lia. }
  assert (Hjoin : take (Z.to_nat (ut_next_so e)) (sdu_buf (ut_sdu e)) ++
                  take (Z.to_nat n) (drop (Z.to_nat (ut_next_so e)) (sdu_buf (ut_sdu e)))
                  = take (Z.to_nat (ut_next_so e + n)) (sdu_buf (ut_sdu e))).
  { rewrite take_take_drop. f_equal. lia. }
  assert (Hall : n = sdu_length (ut_sdu e) - ut_next_so e ->
                 take (Z.to_nat (ut_next_so e + n)) (sdu_buf (ut_sdu e)) = sdu_buf (ut_sdu e)).
  { intros ->. apply take_ge. unfold sdu_length, buf_length. lia. }
  unfold um_sent_part, um_unsent in *. rewrite Hne, Hq.
  destruct (Z.eqb_spec (ut_next_so e) 0) as [E0|E0].
  - assert (Hpay : take (Z.to_nat n) (drop (Z.to_nat (ut_next_so e)) (sdu_buf (ut_sdu e)))
                   = take (Z.to_nat (ut_next_so e + n)) (sdu_buf (ut_sdu e))) by (rewrite <- Hjoin, E0; done).
    destruct si; try discriminate (proj1 Hz E0).
    + destruct Hafter as [Hb Hall']. rewrite Hb. cbn [buf_empty um_after_pdu ut_next_so ut_set_sdu Z.eqb].
      eexists. split; [reflexivity|]. by rewrite Hpay, Hall.
    + destruct Hafter as (Hs & Hso' & Ht). rewrite Hs, Hso', Ht, (proj2 (Z.eqb_neq _ 0)), Hne by lia.
      exists []. split; [by rewrite Hpay|done].
  - destruct si; try (destruct E0; by apply Hz).
    + destruct Hafter as [Hb Hall']. cbn [um_chosen_header um_sn um_so is_full_sdu]. rewrite Hdata, !Z.eqb_refl by lia.
      rewrite Hb. cbn [andb buf_empty um_after_pdu ut_next_so ut_set_tx_next ut_set_sdu Z.eqb].
      eexists. split; [reflexivity|]. by rewrite Hjoin, Hall.
    + destruct Hafter as (Hs & Hso' & Ht). cbn [um_chosen_header um_sn um_so is_full_sdu].
      rewrite Hdata, !Z.eqb_refl, Hs, Hso', Ht, (proj2 (Z.eqb_neq _ 0)), Hne by lia. cbn [andb].
      exists []. split; [by rewrite Hjoin|done].
Qed.

(** ** One input *)
Lemma um_fetch_no_discards sanity e ok e1 ev :
  um_tx_inv e -> no_discards (ut_queue e) -> um_fetch_sdu sanity e = Some (ok, e1, ev) ->
  no_discards (ut_queue e1) /\ um_sent_part e1 = um_sent_part e /\ um_unsent e1 = um_unsent e.
Proof.
  intros Hinv Hnd E. destruct (um_fetch_spec sanity e Hinv) as (ok' & e1' & ev' & E' & _ & _ & Ht & Hso & Hcase).
  rewrite E in E'. injection E' as <- <- <-. unfold um_sent_part, um_unsent. pose proof (ui_cur _ Hinv) as Hcur.
  destruct (buf_empty (sdu_buf (ut_sdu e))) eqn:Hem; [|by destruct Hcase as (_ & -> & _); rewrite Hem].
  destruct Hcase as (Hlive & Hin & Hsub & Hok & Hfail). rewrite Hso, Hcur. cbn [Z.eqb].
  assert (Hcarry : no_discards (ut_queue e1)).
  { revert E. unfold um_fetch_sdu. rewrite Hem. cbn [negb]. destruct (sanity && _); [done|].
    destruct (sdu_queue_read (ut_sdu e) (ut_queue e)) as [[[b s] q]|] eqn:Er; [|done]. cbn [mbind option_bind].
    destruct (read_no_discards _ _ _ _ _ (ui_queue _ Hinv) Hnd Er) as [Hq _]. by destruct b; intros [= _ <- _]. }
  split; [done|]. split; [done|]. destruct ok.
  - rewrite Hok by done. by rewrite Hlive, map_app.
  - unfold no_discards in *. rewrite Hfail in Hcarry by done. rewrite Hcarry in *. rewrite Hlive in Hnd. rewrite <- Hnd in Hin. rewrite Hlive.
    apply list_elem_of_singleton in Hin as ->. by rewrite Hem.
Qed.

Lemma um_pull_stream sanity buf e :
  um_tx_inv e -> no_discards (ut_queue e) -> buf_length buf < 4294967296 ->
  exists n buf' e' ev out, um_pull_pdu sanity buf e = Some (n, buf', e', ev) /\ um_tx_inv e' /\ no_discards (ut_queue e') /\
    ut_sn_size e' = ut_sn_size e /\
    um_assemble (ut_sn_size e) (if n =? 0 then [] else [take (Z.to_nat n) buf']) (um_sent_part e) = Some (um_sent_part e', out) /\
    um_unsent e = out ++ um_unsent e'.
Proof.
  intros Hinv Hnd Hb. destruct (um_pull_spec sanity buf e Hinv Hb) as (n & buf' & e1 & e' & ev & E & Hinv' & _ & Hsz & Hfetch & Hcase).
  assert (H1 : no_discards (ut_queue e1) /\ um_sent_part e1 = um_sent_part e /\ um_unsent e1 = um_unsent e /\ ut_sn_size e1 = ut_sn_size e).
  { destruct Hfetch as [[_ ->]|(_ & ok & ev1 & Ef & _)]; [done|].
    destruct (um_fetch_no_discards sanity e ok e1 ev1 Hinv Hnd Ef) as (? & ? & ?). repeat (split; [done|]).
    destruct (um_fetch_spec sanity e Hinv) as (? & ? & ? & Ef' & _ & Hs & _). rewrite Ef in Ef'. by injection Ef' as <- <- <-. }
  destruct H1 as (Hnd1 & Hsent & Hunsent & Hsz1).
  destruct Hcase as [(-> & -> & -> & _)|(si & k & Hne & Hinv1 & Hc & -> & Hpos & Htake & ->)].
  - exists 0, buf, e1, ev, []. repeat (split; [done|]). cbn. by rewrite Hsent, Hunsent.
  - destruct (um_pdu_continues e1 _ si k Hinv1 Hne Hc) as (out & Easm & Hout).
    eexists _, buf', _, ev, out. split; [exact E|]. split; [done|]. split; [by destruct (um_after_fields si k e1) as (_ & _ & ->)|].
    split; [done|]. rewrite (proj2 (Z.eqb_neq _ 0)) by lia. rewrite Htake. cbn [um_assemble].
    rewrite <- Hsz1, <- Hsent, Easm. cbn [mbind option_bind]. rewrite app_nil_r. split; [done|]. by rewrite <- Hunsent.
Qed.

Definition is_discard (i : um_tx_input) : bool := match i with TxDiscard _ _ _ => true | _ => false end.

Lemma um_step_stream sanity i e :
  um_tx_inv e -> no_discards (ut_queue e) -> um_tx_input_ok i -> is_discard i = false ->
  exists e' acc pdus ev out, um_tx_step sanity i e = Some (e', acc, pdus, ev) /\ um_tx_inv e' /\ no_discards (ut_queue e') /\
    ut_sn_size e' = ut_sn_size e /\
    um_assemble (ut_sn_size e) pdus (um_sent_part e) = Some (um_sent_part e', out) /\
    um_unsent e ++ acc = out ++ um_unsent e'.
Proof.
  intros Hinv Hnd Hi Hd. destruct i as [buf toa deferred|start block deferred|buf|]; cbn [um_tx_step um_tx_input_ok] in *; [|done| |].
  - destruct Hi as [Hb Hl]. destruct (um_handle_sdu_spec buf toa deferred e Hinv Hb Hl)
      as (e' & ev & s & -> & Hinv' & Hs & Hsz & Ht & Hsdu & Hso & b & Hacc & Hlive & Hspsc). cbn [mbind option_bind].
    exists e', (accepted buf ev), [], ev, []. split; [done|]. split; [done|].
    split; [unfold no_discards in *; by rewrite Hlive, Hspsc, Hnd|]. split; [done|].
    unfold um_sent_part, um_unsent. rewrite Hsdu, Hso, Ht. split; [done|].
    rewrite Hlive, map_app, Hacc, <- !app_assoc. cbn [app]. do 2 f_equal. destruct b; cbn; by rewrite ?Hs.
  - destruct (um_pull_stream sanity buf e Hinv Hnd Hi) as (n & buf' & e' & ev & out & -> & ?). cbn [mbind option_bind].
    eexists e', [], _, ev, out. split; [reflexivity|]. by rewrite app_nil_r.
  - destruct (um_update_spec e Hinv) as (e' & ev & -> & Hinv' & Hsz & Hsdu & Hso & Ht & Hlive & Hsub). cbn [mbind option_bind].
    exists e', [], [], ev, []. split; [done|]. split; [done|].
    split; [apply no_discards_shorter; rewrite Hlive, Hnd; by apply submseteq_length|]. split; [done|].
    unfold um_sent_part, um_unsent. rewrite Hsdu, Hso, Ht, Hlive. by rewrite app_nil_r.
Qed.

Lemma um_run_stream sanity l : forall e,
  um_tx_inv e -> no_discards (ut_queue e) -> Forall (fun i => um_tx_input_ok i /\ is_discard i = false) l ->
  exists e' acc pdus ev out, um_tx_run sanity l e = Some (e', acc, pdus, ev) /\ um_tx_inv e' /\ no_discards (ut_queue e') /\
    um_assemble (ut_sn_size e) pdus (um_sent_part e) = Some (um_sent_part e', out) /\
    um_unsent e ++ acc = out ++ um_unsent e'.
Proof.
  induction l as [|i l IH]; intros e Hinv Hnd Hl; cbn [um_tx_run].
  { exists e, [], [], [], []. by rewrite app_nil_r. }
  apply Forall_cons in Hl as [[Hi Hd] Hl].
  destruct (um_step_stream sanity i e Hinv Hnd Hi Hd) as (e1 & acc1 & pdus1 & ev1 & out1 & -> & Hinv1 & Hnd1 & Hsz & Ea1 & Hu1).
  destruct (IH e1 Hinv1 Hnd1 Hl) as (e2 & acc2 & pdus2 & ev2 & out2 & E2 & Hinv2 & Hnd2 & Ea2 & Hu2).
  cbn [mbind option_bind]. rewrite E2. cbn [mbind option_bind]. rewrite Hsz in Ea2.
  exists e2, (acc1 ++ acc2), (pdus1 ++ pdus2), (ev1 ++ ev2), (out1 ++ out2). repeat (split; [done|]).
  split; [by eapply um_assemble_app|]. by rewrite app_assoc, Hu1, <- !app_assoc, Hu2.
Qed.

(** ** Theorems *)
Lemma um_tx_new_inv sn_size pdcp_len queue_size queue_bytes :
  pdcp_len <> pdcp_size_invalid -> 0 < queue_size < 4294967294 -> 0 <= queue_bytes < 4294967296 ->
  exists e, um_tx_new sn_size pdcp_len queue_size queue_bytes = Some e /\ um_tx_inv e /\ no_discards (ut_queue e) /\
    ut_sn_size e = sn_size /\ um_sent_part e = None /\ um_unsent e = [].
Proof.
  intros Hp Hs Hb. assert (Hmod : 0 < cardinality (um_sn_to_number sn_size)) by (by destruct sn_size).
  exists (UmTx sn_size pdcp_len queue_bytes 0 (sdu_queue_new queue_size queue_bytes) rlc_sdu_init 0 rlc_buffer_state_init true false).
  split; [by destruct pdcp_len|]. split; [|done].
  split; cbn; [by apply queue_ok_new|constructor|constructor|done| |done].
  unfold ut_mod. cbn. lia.
Qed.

Lemma um_tx_step_inv sanity i e :
  um_tx_inv e -> um_tx_input_ok i ->
  exists e' acc pdus ev, um_tx_step sanity i e = Some (e', acc, pdus, ev) /\ um_tx_inv e' /\
    (forall buf, i = TxPull buf -> Forall (fun pdu => 0 < buf_length pdu <= buf_length buf) pdus).
Proof.
  intros Hinv Hi. destruct i as [buf toa deferred|start block deferred|buf|]; cbn [um_tx_step um_tx_input_ok] in *.
  - destruct (um_handle_sdu_spec buf toa deferred e Hinv (proj1 Hi) (proj2 Hi)) as (e' & ev & _ & -> & Hinv' & _).
    eexists _, _, _, _. split; [reflexivity|]. by split.
  - destruct (um_tx_discard_spec start block deferred e Hinv (proj1 Hi) (proj2 Hi)) as (e' & ev & -> & Hinv' & _).
    eexists _, _, _, _. split; [reflexivity|]. by split.
  - destruct (um_pull_spec sanity buf e Hinv Hi) as (n & buf' & e1 & e' & ev & -> & Hinv' & Hlen & _ & _ & Hcase).
    eexists _, _, _, _. split; [reflexivity|]. split; [done|]. intros b [= <-].
    destruct (Z.eqb_spec n 0) as [E|E]; [done|]. apply Forall_singleton.
    destruct Hcase as [(-> & _)|(? & ? & _ & _ & _ & _ & Hpos & _)]; [done|].
    unfold buf_length in *. rewrite length_take. lia.
  - destruct (um_update_spec e Hinv) as (e' & ev & -> & Hinv' & _). eexists _, _, _, _. split; [reflexivity|]. by split.
Qed.

(** The UM transmitter handles every sequence of SDUs, discards, pulls and buffer state updates: no assertion fails, no
    loop runs out of its bound, nothing is read outside a buffer, and afterwards the state is well-formed: TX_Next is an SN,
    and the offset lies inside the current SDU, or is 0 when there is none. SDUs have 1 to 65536 bytes; the discard
    indications may have any 32 bit arguments. *)
Theorem um_tx_robust sanity sn_size pdcp_len queue_size queue_bytes l :
  pdcp_len <> pdcp_size_invalid -> 0 < queue_size < 4294967294 -> 0 <= queue_bytes < 4294967296 ->
  Forall um_tx_input_ok l ->
  exists e0 e acc pdus ev, um_tx_new sn_size pdcp_len queue_size queue_bytes = Some e0 /\
    um_tx_run sanity l e0 = Some (e, acc, pdus, ev) /\ um_tx_inv e.
Proof.
  intros Hp Hs Hb Hl. destruct (um_tx_new_inv sn_size pdcp_len queue_size queue_bytes Hp Hs Hb) as (e0 & E0 & Hinv & _).
  exists e0. enough (exists e acc pdus ev, um_tx_run sanity l e0 = Some (e, acc, pdus, ev) /\ um_tx_inv e)
    as (e & acc & pdus & ev & ? & ?) by (by exists e, acc, pdus, ev).
  clear E0. revert e0 Hinv. induction Hl as [|i l Hi Hl IH]; intros e0 Hinv; cbn [um_tx_run]; [by exists e0, [], [], []|].
  destruct (um_tx_step_inv sanity i e0 Hinv Hi) as (e1 & acc1 & pdus1 & ev1 & -> & Hinv1 & _). cbn [mbind option_bind].
  destruct (IH e1 Hinv1) as (e2 & acc2 & pdus2 & ev2 & -> & Hinv2). cbn [mbind option_bind]. by eexists _, _, _, _.
Qed.

(** C23. Without discards the UM transmitter is lossless and in order. Whatever SDUs are handed over and whatever grants are
    used to pull, a receiver that parses the PDUs with the header reader and concatenates the segments (accepting a segment
    only if its SN and its offset are those of the bytes it holds) accepts every PDU, and the SDUs it has put together
    followed by the SDU in transmission and the queued ones are exactly the accepted SDUs. What it holds of an incomplete
    SDU is the part of the current SDU below the offset. *)
Theorem um_tx_lossless sanity sn_size pdcp_len queue_size queue_bytes l :
  pdcp_len <> pdcp_size_invalid -> 0 < queue_size < 4294967294 -> 0 <= queue_bytes < 4294967296 ->
  Forall (fun i => um_tx_input_ok i /\ is_discard i = false) l ->
  exists e0 e acc pdus ev out, um_tx_new sn_size pdcp_len queue_size queue_bytes = Some e0 /\
    um_tx_run sanity l e0 = Some (e, acc, pdus, ev) /\
    um_assemble sn_size pdus None = Some (um_sent_part e, out) /\
    acc = out ++ um_unsent e.
Proof.
  intros Hp Hs Hb Hl. destruct (um_tx_new_inv sn_size pdcp_len queue_size queue_bytes Hp Hs Hb) as (e0 & E0 & Hinv & Hnd & Hsz & Hsent & Hun).
  destruct (um_run_stream sanity l e0 Hinv Hnd Hl) as (e & acc & pdus & ev & out & E & _ & _ & Ea & Hu).
  exists e0, e, acc, pdus, ev, out. rewrite Hsent, Hsz in Ea. rewrite Hun in Hu. done.
Qed.

(** What one pull writes while an SDU is in transmission: nothing if the grant does not hold the header and one byte;
    otherwise a header that announces the offset, followed by the bytes of the SDU from that offset on, as many as fit, and
    the SI says whether these are the first and the last ones. A whole SDU is sent with a one-byte header. *)
Theorem um_pull_exact sanity buf e :
  um_tx_inv e -> buf_empty (sdu_buf (ut_sdu e)) = false -> 1 < buf_length buf < 4294967296 ->
  let rest := sdu_length (ut_sdu e) - ut_next_so e in
  exists n buf' e' ev, um_pull_pdu sanity buf e = Some (n, buf', e', ev) /\ length buf' = length buf /\
    if decide (n = 0) then
      buf' = buf /\ e' = e /\ buf_length buf <= (if ut_next_so e =? 0 then head_len_first e else head_len_not_first e)
    else exists si, let h := um_chosen_header e si in
      n = rlc_um_nr_packed_length h + Z.min rest (buf_length buf - rlc_um_nr_packed_length h) /\
      rlc_um_nr_packed_length h < n <= buf_length buf /\
      take (Z.to_nat n) buf' = um_header_octets h ++ take (Z.to_nat (n - rlc_um_nr_packed_length h))
                                                       (drop (Z.to_nat (ut_next_so e)) (sdu_buf (ut_sdu e))) /\
      drop (Z.to_nat n) buf' = drop (Z.to_nat n) buf /\
      (um_si_has_so si = false <-> ut_next_so e = 0) /\
      (n - rlc_um_nr_packed_length h = rest <-> si = full_sdu \/ si = last_segment) /\
      e' = um_after_pdu si (n - rlc_um_nr_packed_length h) e.
Proof.
  intros Hinv Hne Hb rest. destruct (um_inv_buf_bound e Hinv Hne) as [[_ Hl] Hso].
  pose proof (um_build_spec sanity buf e Hinv Hne Hb) as Hbuild.
  unfold um_pull_pdu, head_len_full. rewrite u32_small, (proj2 (Z.leb_gt _ _)) by lia.
  unfold um_fetch_sdu. rewrite Hne. cbn [negb mbind option_bind].
  destruct (um_choice e (buf_length buf)) as [[si k]|] eqn:Hc.
  - destruct Hbuild as [-> Hfit]. cbn [mbind option_bind]. eexists _, _, _, _. split; [reflexivity|].
    split; [unfold buf_length in Hfit; rewrite length_app, length_drop; lia|].
    destruct (um_choice_bounds e _ si k Hso Hc) as (Hk & Hsi & Hlast & Hfit' & Hmin).
    pose proof (um_header_octets_length _ (um_chosen_header_ok e _ si k Hinv Hne Hc)) as Hhl.
    assert (Hn : buf_length (um_chosen_pdu e si k) = rlc_um_nr_packed_length (um_chosen_header e si) + k).
    { unfold um_chosen_pdu. rewrite buf_length_app. change (buf_length (um_header_octets _)) with (rd_length (um_header_octets (um_chosen_header e si))).
      rewrite Hhl. f_equal. unfold buf_length. rewrite length_take, length_drop. unfold sdu_length, buf_length in Hk. lia. }
    assert (0 <= rlc_um_nr_packed_length (um_chosen_header e si)) by (rewrite <- Hhl; unfold rd_length; lia).
    rewrite decide_False by lia. exists si. cbv zeta. rewrite Hn.
    replace (rlc_um_nr_packed_length (um_chosen_header e si) + k - rlc_um_nr_packed_length (um_chosen_header e si)) with k by lia.
    split; [unfold rest; lia|]. split; [lia|].
    assert (En : Z.to_nat (rlc_um_nr_packed_length (um_chosen_header e si) + k) = length (um_chosen_pdu e si k)).
    { rewrite <- Hn. unfold buf_length. lia. }
    rewrite En, take_app_length, drop_app_length. split; [done|]. split; [done|]. split; [by rewrite Hsi|done].
  - rewrite Hbuild. cbn [mbind option_bind]. eexists 0, buf, e, _. split; [reflexivity|]. split; [done|]. cbn.
    split; [done|]. split; [done|]. unfold um_choice in Hc. repeat case_match; (done || lia).
Qed.

(** ** A concrete entity *)
Definition um_tx_example : rlc_tx_um_entity :=
  UmTx um_size12bits pdcp_size12bits 65536 0 (sdu_queue_new 16 65536) rlc_sdu_init 0 rlc_buffer_state_init true false.

(** PDCP PDUs with SN 5 and SN 6. *)
Definition um_sdu_5 : list Z := [0x80; 5; 1; 2; 3; 4].
Definition um_sdu_6 : list Z := [0x80; 6; 7; 8].

Lemma um_example_inputs_ok : Forall (fun i => um_tx_input_ok i /\ is_discard i = false)
  [TxSdu um_sdu_5 10 true; TxSdu um_sdu_6 20 true; TxPull (replicate 6 0); TxUpdate; TxPull (replicate 9 0)].
Proof. repeat constructor; vm_compute; congruence. Qed.

(** An SDU that the upper layer has discarded is sent all the same. When only discarded SDUs are queued, [sdu_queue.read]
    returns false but has already written the last of them to the member [sdu], and the next pull finds that member
    non-empty and transmits it: here the SDU with PDCP SN 5 is handed over, discarded, not sent by the first pull, and sent
    by the second. *)
Theorem um_discarded_sdu_is_sent :
  exists e0 e1 e2 ev0 ev1 ev2,
    um_tx_run true [TxSdu um_sdu_5 10 true; TxDiscard 5 1 true] um_tx_example
      = Some (e0, [um_sdu_5], [], ev0) /\ live_sdus (ut_queue e0) = [] /\ In (AddDiscard 1) ev0 /\
    um_tx_run true [TxPull (replicate 20 0)] e0 = Some (e1, [], [], ev1) /\
    um_tx_run true [TxPull (replicate 20 0)] e1 = Some (e2, [], [0 :: um_sdu_5], ev2).
Proof.
  eexists _, _, _, _, _, _. split; [vm_compute; reflexivity|]. split; [vm_compute; reflexivity|].
  split; [right; by left|]. split; [vm_compute; reflexivity|]. vm_compute; reflexivity.
Qed.

Lemma um_tx_robust_witness :
  exists e0 e acc pdus ev, um_tx_new um_size6bits pdcp_size12bits 16 65536 = Some e0 /\
    um_tx_run true [TxSdu um_sdu_5 10 true; TxDiscard 5 1 true; TxPull (replicate 20 0); TxUpdate] e0 = Some (e, acc, pdus, ev) /\
    um_tx_inv e.
Proof.
  apply um_tx_robust; [discriminate|lia|lia|]. repeat constructor; vm_compute; congruence.
Defined.

Lemma um_tx_lossless_witness :
  exists e pdus ev, um_tx_run true [TxSdu um_sdu_5 10 true; TxSdu um_sdu_6 20 true; TxPull (replicate 6 0); TxUpdate; TxPull (replicate 9 0)]
      um_tx_example = Some (e, [um_sdu_5; um_sdu_6], pdus, ev) /\
    um_assemble um_size12bits pdus None = Some (None, [um_sdu_5]) /\ [um_sdu_5; um_sdu_6] = [um_sdu_5] ++ um_unsent e.
Proof.
  destruct (um_tx_lossless true um_size12bits pdcp_size12bits 16 65536 _ ltac:(discriminate) ltac:(lia) ltac:(lia) um_example_inputs_ok)
    as (e0 & e & acc & pdus & ev & out & E0 & E & Ea & Hu).
  injection E0 as <-. vm_compute in E. injection E as <- <- <- <-. vm_compute in Ea. injection Ea as <-.
  eexists _, _, _. split; [vm_compute; reflexivity|]. split; [reflexivity|exact Hu].
Defined.

Lemma um_pull_exact_witness :
  exists n buf' e' ev, um_pull_pdu true (replicate 6 0) (ut_set_sdu (Sdu um_sdu_5 false (Some 5) 10) 0 um_tx_example)
      = Some (n, buf', e', ev) /\ length buf' = 6%nat /\ n = 6 /\ buf' = [0x40; 0; 0x80; 5; 1; 2].
Proof.
  destruct (um_pull_exact true (replicate 6 0) (ut_set_sdu (Sdu um_sdu_5 false (Some 5) 10) 0 um_tx_example))
    as (n & buf' & e' & ev & E & Hl & _).
  - split; [apply queue_ok_new; lia|constructor|constructor|discriminate|vm_compute; split; congruence|].
    cbn. split; [|done]. split; [repeat constructor; vm_compute; congruence|vm_compute; split; congruence].
  - reflexivity.
  - split; reflexivity.
  - exists n, buf', e', ev. split; [exact E|]. split; [exact Hl|]. vm_compute in E. by injection E as <- <- _ _.
Defined.
