(* ===== verification/RlcTm.v ===== *)
(** * RLC TM entities ([lib/rlc/rlc_tx_tm_entity.h] and [.cpp], [lib/rlc/rlc_rx_tm_entity.h] and [.cpp])

    Transparent mode has no header and no segmentation: an SDU is transmitted when the grant holds it. SDUs of a TM bearer
    carry no PDCP SN. *)
From S2P Require Import Prelude ByteCursor ByteBufferChain SduQueue SduQueueConc SduQueueSeq RlcRxBase RlcTxBase.

(** [rlc_tx_tm_entity] *)
Record rlc_tx_tm_entity := TmTx {
  tt_queue_size_bytes : Z;
  tt_queue : rlc_sdu_queue_lockfree;
  tt_sdu : rlc_sdu;
  tt_pending_buffer_state : bool
}.

Implicit Types e : rlc_tx_tm_entity.

Definition tm_tx_new (queue_size queue_size_bytes : Z) : rlc_tx_tm_entity :=
  TmTx queue_size_bytes (sdu_queue_new queue_size queue_size_bytes) rlc_sdu_init false.

Definition tt_set_queue (q : rlc_sdu_queue_lockfree) e : rlc_tx_tm_entity :=
  TmTx (tt_queue_size_bytes e) q (tt_sdu e) (tt_pending_buffer_state e).
Definition tt_set_sdu (s : rlc_sdu) e : rlc_tx_tm_entity :=
  TmTx (tt_queue_size_bytes e) (tt_queue e) s (tt_pending_buffer_state e).
Definition tt_set_pending (b : bool) e : rlc_tx_tm_entity :=
  TmTx (tt_queue_size_bytes e) (tt_queue e) (tt_sdu e) b.

(** [handle_changed_buffer_state]; [deferred] tells whether [pcell_executor] accepts the task. *)
Definition tm_handle_changed_buffer_state (deferred : bool) e : rlc_tx_tm_entity :=
  if negb (tt_pending_buffer_state e) then tt_set_pending deferred e else e.

(** [handle_sdu] *)
Definition tm_handle_sdu (sdu_buf : list Z) (toa : Z) (deferred : bool) e : rlc_tx_tm_entity * list tx_event :=
  let '(written, q) := sdu_queue_write (Sdu sdu_buf false None toa) (tt_queue e) in
  let e := tt_set_queue q e in
  if (written : bool) then (tm_handle_changed_buffer_state deferred e, [AddTxSdus 1 (buf_length sdu_buf)])
  else (e, [AddTxLostSdus 1]).

(** [discard_sdu] *)
Definition tm_discard_sdu (pdcp_sn_start block_size : Z) e : rlc_tx_tm_entity * list tx_event := (e, [AddDiscardFailure 1]).

(** Fetching a new SDU when none is in transmission: [false] ends the pull. *)
Definition tm_fetch_sdu e : option (bool * rlc_tx_tm_entity) :=
  if negb (buf_empty (sdu_buf (tt_sdu e))) then Some (true, e) else
  '(ok, sdu, q) ← sdu_queue_read (tt_sdu e) (tt_queue e);
  Some (ok, tt_set_sdu sdu (tt_set_queue q e)).

(** [pull_pdu]: the returned size, the MAC buffer afterwards, the entity and the events *)
Definition tm_pull_pdu (buf : list Z) e : option (Z * list Z * rlc_tx_tm_entity * list tx_event) :=
  '(ok, e) ← tm_fetch_sdu e;
  if negb (ok : bool) then Some (0, buf, e, []) else
  let s := tt_sdu e in
  let sdu_len := sdu_length s in
  if buf_length buf <? sdu_len then Some (0, buf, e, [AddSmallAlloc 1]) else
  let ev := match sdu_pdcp_sn s with Some sn => [OnTransmittedSdu sn (tt_queue_size_bytes e)] | None => [] end in
  Some (sdu_len, sdu_buf s ++ drop (length (sdu_buf s)) buf,
        tt_set_sdu (Sdu [] (sdu_is_retx s) (sdu_pdcp_sn s) (sdu_toa s)) e, ev ++ [AddTxPdus false 1 sdu_len]).

(** [get_buffer_state] *)
Definition tm_get_buffer_state e : option (rlc_buffer_state * rlc_tx_tm_entity) :=
  '(toa, e) ←
    (if negb (buf_empty (sdu_buf (tt_sdu e))) then @Some (option Z * rlc_tx_tm_entity) (Some (sdu_toa (tt_sdu e)), e)
     else '(next_sdu, q) ← sdu_queue_front (tt_queue e); Some (option_map sdu_toa next_sdu, tt_set_queue q e));
  let '(_, n_bytes) := sdu_queue_state (tt_queue e) in
  Some (BufferState (u32 (n_bytes + sdu_length (tt_sdu e))) toa, e).

(** [update_mac_buffer_state] *)
Definition tm_update_mac_buffer_state e : option (rlc_tx_tm_entity * list tx_event) :=
  let e := tt_set_pending false e in
  '(bs, e) ← tm_get_buffer_state e;
  Some (e, [OnBufferStateUpdate bs]).

(** [rlc_rx_tm_entity::handle_pdu], with the pool's answer as in [byte_buffer_chain::create] *)
Definition tm_rx_handle_pdu (block : bool) (max : nat) (buf : list Z) : list rx_event :=
  let pdu_len := rd_length buf in
  AddPdus 1 pdu_len ::
  if pdu_len =? 0 then [] else
  match chain_create_from block max buf with
  | None => [AddLost 1]
  | Some sdu => [AddSdus 1 (chain_length sdu); NewSdu (chain_bytes sdu)]
  end.

(** ** Runs *)
Inductive tm_tx_input :=
| TmSdu (buf : list Z) (toa : Z) (deferred : bool)
| TmDiscard (pdcp_sn_start block_size : Z)
| TmPull (mac_sdu_buf : list Z)
| TmUpdate.

(** One input: the entity, the accepted SDUs, the PDUs and the events. *)
Definition tm_tx_step (i : tm_tx_input) e : option (rlc_tx_tm_entity * list (list Z) * list (list Z) * list tx_event) :=
  match i with
  | TmSdu buf toa deferred =>
      let '(e, ev) := tm_handle_sdu buf toa deferred e in
      Some (e, match ev with AddTxSdus _ _ :: _ => [buf] | _ => [] end, [], ev)
  | TmDiscard start block => let '(e, ev) := tm_discard_sdu start block e in Some (e, [], [], ev)
  | TmPull buf =>
      '(n, buf, e, ev) ← tm_pull_pdu buf e; Some (e, [], if n =? 0 then [] else [take (Z.to_nat n) buf], ev)
  | TmUpdate => '(e, ev) ← tm_update_mac_buffer_state e; Some (e, [], [], ev)
  end.

Fixpoint tm_tx_run (l : list tm_tx_input) e : option (rlc_tx_tm_entity * list (list Z) * list (list Z) * list tx_event) :=
  match l with
  | [] => Some (e, [], [], [])
  | i :: l =>
      '(e, acc1, pdus1, ev1) ← tm_tx_step i e;
      '(e, acc2, pdus2, ev2) ← tm_tx_run l e;
      Some (e, acc1 ++ acc2, pdus1 ++ pdus2, ev1 ++ ev2)
  end.

Definition tm_input_ok (i : tm_tx_input) : Prop :=
  match i with TmSdu buf _ _ => bytes_ok buf /\ buf <> [] | _ => True end.

(** ** The stream of SDUs *)
Definition tm_unsent e : list (list Z) :=
  (if buf_empty (sdu_buf (tt_sdu e)) then [] else [sdu_buf (tt_sdu e)]) ++ map sdu_buf (live_sdus (tt_queue e)).

Record tm_inv e : Prop := {
  ti_queue : queue_ok (tt_queue e);
  ti_live : no_discards (tt_queue e);
  ti_sdus : Forall (fun s => sdu_buf s <> []) (spsc (tt_queue e))
}.

Lemma tm_inv_queue e e' : tm_inv e -> tt_queue e' = tt_queue e -> tm_inv e'.
Proof. intros [] E. split; by rewrite E. Qed.

Lemma tm_inv_set_queue e q : tm_inv e -> queue_ok q -> no_discards q -> spsc q ⊆+ spsc (tt_queue e) -> tm_inv (tt_set_queue q e).
Proof.
  intros [] Hq Hn Hs. split; [done|done|]. apply Forall_forall. intros s Hin. rewrite Forall_forall in ti_sdus0.
  apply ti_sdus0. by eapply elem_of_submseteq.
Qed.

Lemma tm_fetch_spec e :
  tm_inv e -> exists ok e', tm_fetch_sdu e = Some (ok, e') /\ tm_inv e' /\ tm_unsent e' = tm_unsent e /\
    ((ok : bool) = negb (buf_empty (sdu_buf (tt_sdu e')))).
Proof.
  intros Hinv. unfold tm_fetch_sdu. destruct (buf_empty (sdu_buf (tt_sdu e))) eqn:Hem; cbn [negb]; [|exists true, e; by rewrite Hem].
  destruct (sdu_queue_read_spec (tt_sdu e) (tt_queue e) (ti_queue _ Hinv)) as (ok & s & q & E & Hq & Hlive & Hemp). rewrite E.
  cbn [mbind option_bind]. destruct (sdu_queue_read_out _ _ _ _ _ E) as [Hin Hsub].
  destruct (read_no_discards _ _ _ _ _ (ti_queue _ Hinv) (ti_live _ Hinv) E) as [Hnd Hsp].
  exists ok, (tt_set_sdu s (tt_set_queue q e)). split; [done|].
  split; [apply (tm_inv_queue (tt_set_queue q e)); [by apply tm_inv_set_queue|done]|].
  unfold tm_unsent. cbn [tt_sdu tt_set_sdu tt_queue tt_set_queue]. rewrite Hem, Hlive, map_app. destruct ok.
  - assert (Hne : sdu_buf s <> []).
    { pose proof (ti_sdus _ Hinv) as Hall. rewrite Hsp in Hall. by apply Forall_cons in Hall as [? _]. }
    destruct (sdu_buf s) eqn:Es; [done|]. cbn. by rewrite Es.
  - rewrite Hsp, (Hemp eq_refl) in Hin. apply list_elem_of_singleton in Hin as ->. by rewrite Hem.
Qed.

Lemma tm_step_spec i e :
  tm_inv e -> tm_input_ok i ->
  exists e' acc pdus ev, tm_tx_step i e = Some (e', acc, pdus, ev) /\ tm_inv e' /\ tm_unsent e ++ acc = pdus ++ tm_unsent e'.
Proof.
  intros Hinv Hi. destruct i as [buf toa deferred|start block|buf|]; cbn [tm_tx_step tm_input_ok] in *.
  - set (s := Sdu buf false None toa). unfold tm_handle_sdu. fold s.
    destruct (sdu_queue_write_spec s (tt_queue e) (ti_queue _ Hinv)) as (Hq & Hlive & Hsp & _); [done|].
    pose proof (write_no_discards s (tt_queue e) (ti_queue _ Hinv)) as Hnd. specialize (Hnd ltac:(done) (ti_live _ Hinv)).
    destruct (sdu_queue_write s (tt_queue e)) as [b q]. cbn [fst snd] in *.
    assert (Hinv' : tm_inv (tt_set_queue q e)).
    { split; [done|done|]. cbn. rewrite Hsp. apply Forall_app_2; [apply Hinv|]. destruct b; [|done]. constructor; [by apply Hi|done]. }
    assert (Hun : tm_unsent (tt_set_queue q e) = tm_unsent e ++ (if b then [buf] else [])).
    { unfold tm_unsent. cbn [tt_queue tt_set_queue tt_sdu]. rewrite Hlive, map_app, app_assoc. f_equal. by destruct b. }
    assert (Hch : forall d, tm_inv (tm_handle_changed_buffer_state d (tt_set_queue q e)) /\
      tm_unsent (tm_handle_changed_buffer_state d (tt_set_queue q e)) = tm_unsent (tt_set_queue q e)).
    { intros d. unfold tm_handle_changed_buffer_state. destruct (negb _); [|done]. split; [by apply (tm_inv_queue (tt_set_queue q e))|done]. }
    destruct (Hch deferred) as [H1 H2]. destruct b; eexists _, _, _, _; (split; [reflexivity|]); (split; [done|]);
      [by rewrite H2, Hun|by rewrite Hun].
  - eexists _, _, _, _. split; [reflexivity|]. split; [done|]. by rewrite app_nil_r.
  - unfold tm_pull_pdu. destruct (tm_fetch_spec e Hinv) as (ok & e1 & -> & Hinv1 & Hun & Hok). cbn [mbind option_bind].
    destruct (buf_empty (sdu_buf (tt_sdu e1))) eqn:Hem; cbn [negb] in Hok; subst ok; cbn [negb mbind option_bind].
    { eexists _, _, _, _. split; [reflexivity|]. split; [done|]. by rewrite Hun, app_nil_r. }
    destruct (buf_length buf <? sdu_length (tt_sdu e1)); cbn [mbind option_bind]; [eexists _, _, _, _; split; [reflexivity|]; split; [done|]; by rewrite Hun, app_nil_r|].
    eexists _, _, _, _. split; [reflexivity|]. split; [by apply (tm_inv_queue e1)|].
    assert (Hpos : sdu_length (tt_sdu e1) <> 0) by (unfold sdu_length, buf_length; destruct (sdu_buf (tt_sdu e1)); [done|cbn; lia]).
    rewrite (proj2 (Z.eqb_neq _ _)) by done. unfold sdu_length, buf_length. rewrite Nat2Z.id, take_app_length.
    rewrite app_nil_r, <- Hun. unfold tm_unsent at 1. by rewrite Hem.
  - unfold tm_update_mac_buffer_state, tm_get_buffer_state. cbn [tt_sdu tt_set_pending tt_queue].
    destruct (buf_empty (sdu_buf (tt_sdu e))) eqn:Hem; cbn [negb].
    + destruct (sdu_queue_front_spec (tt_queue e) (ti_queue _ Hinv)) as (r & q & E & Hq & Hlive & _). rewrite E. cbn [mbind option_bind].
      pose proof (sdu_queue_front_out _ _ _ E) as Hsub.
      pose proof (front_no_discards _ _ _ (ti_queue _ Hinv) (ti_live _ Hinv) E) as Hnd. case_match. cbn [mbind option_bind].
      eexists _, _, _, _. split; [reflexivity|]. split; [by apply (tm_inv_queue (tt_set_queue q e)); [apply tm_inv_set_queue|]|].
      unfold tm_unsent. cbn. by rewrite Hem, Hlive, app_nil_r.
    + cbn [mbind option_bind]. case_match. cbn [mbind option_bind]. eexists _, _, _, _. split; [reflexivity|].
      split; [by apply (tm_inv_queue e)|]. by rewrite app_nil_r.
Qed.

(** Transparent mode is transparent. Whatever the inputs, no assertion fails, and the PDUs are exactly the accepted SDUs,
    whole, unchanged and in order, followed by the ones that still wait; a discard changes nothing; and the receiver turns
    each of these PDUs into that SDU. SDUs are not empty, the pool of the receiver has a block and chains hold one slice. *)
Theorem tm_transparent queue_size queue_bytes l :
  0 < queue_size < 4294967294 -> 0 <= queue_bytes < 4294967296 -> Forall tm_input_ok l ->
  exists e acc pdus ev, tm_tx_run l (tm_tx_new queue_size queue_bytes) = Some (e, acc, pdus, ev) /\
    acc = pdus ++ tm_unsent e /\
    forall max pdu, (0 < max)%nat -> pdu ∈ pdus -> pdu <> [] -> delivered (tm_rx_handle_pdu true max pdu) = [pdu].
Proof.
  intros Hs Hb Hl. assert (Hinv : tm_inv (tm_tx_new queue_size queue_bytes)) by (split; [by apply queue_ok_new|done|constructor]).
  assert (Hun : tm_unsent (tm_tx_new queue_size queue_bytes) = []) by done. revert Hinv Hun.
  generalize (tm_tx_new queue_size queue_bytes) as e0. intros e0 Hinv Hun.
  enough (exists e acc pdus ev, tm_tx_run l e0 = Some (e, acc, pdus, ev) /\ tm_unsent e0 ++ acc = pdus ++ tm_unsent e)
    as (e & acc & pdus & ev & E & Hu).
  { exists e, acc, pdus, ev. rewrite Hun in Hu. split; [done|]. split; [done|]. intros max pdu Hmax _ Hne. unfold tm_rx_handle_pdu.
    rewrite (proj2 (Z.eqb_neq _ _)) by (unfold rd_length; destruct pdu; [done|cbn; lia]).
    unfold chain_create_from, chain_create, chain_append. cbn [chain_full nof_slices slices length max_slices].
    destruct max; [lia|]. destruct pdu; [done|]. cbn. unfold chain_bytes. cbn. by rewrite app_nil_r. }
  clear Hun. revert e0 Hinv. induction Hl as [|i l Hi Hl IH]; intros e0 Hinv; cbn [tm_tx_run].
  { exists e0, [], [], []. by rewrite app_nil_r. }
  destruct (tm_step_spec i e0 Hinv Hi) as (e1 & acc1 & pdus1 & ev1 & -> & Hinv1 & Hu1). cbn [mbind option_bind].
  destruct (IH e1 Hinv1) as (e2 & acc2 & pdus2 & ev2 & -> & Hu2). cbn [mbind option_bind].
  exists e2, (acc1 ++ acc2), (pdus1 ++ pdus2), (ev1 ++ ev2). split; [done|]. by rewrite app_assoc, Hu1, <- !app_assoc, Hu2.
Qed.

Lemma tm_transparent_witness :
  exists e ev, tm_tx_run [TmSdu [1; 2; 3] 5 true; TmSdu [4] 6 true; TmPull [0; 0]; TmDiscard 1 1; TmPull [0; 0; 0; 0]; TmUpdate] (tm_tx_new 8 100)
    = Some (e, [[1; 2; 3]; [4]], [[1; 2; 3]], ev) /\ [[1; 2; 3]; [4]] = [[1; 2; 3]] ++ tm_unsent e.
Proof.
  destruct (tm_transparent 8 100 [TmSdu [1; 2; 3] 5 true; TmSdu [4] 6 true; TmPull [0; 0]; TmDiscard 1 1; TmPull [0; 0; 0; 0]; TmUpdate])
    as (e & acc & pdus & ev & E & Hu & _).
  - lia.
  - lia.
  - repeat constructor; (discriminate || (vm_compute; congruence)).
  - vm_compute in E. injection E as <- <- <- <-. eexists _, _. split; [vm_compute; reflexivity|exact Hu].
Defined.
