(* ===== verification/RingBuffer.v ===== *)
(** * Ring buffers ([include/ocudu/adt/ring_buffer.h], [ring_buffer_impl] over [std::vector])

    A slot that holds no object ([type_storage] whose object was destroyed) is [None]; an operation whose assertion fails is
    [None]. The capacity is the one the storage has; rounding it up to a power of two is done in floating point by the code
    and is not modelled: [rb_pow2] tells which of the two storages is used, and a capacity that is a power of two is what the
    rounding gives back. *)
From S2P Require Import Prelude.

Section ring_buffer.
Context {T : Type}.

(** [ring_buffer_storage] *)
Record ring_buffer := Ring {
  rb_pow2 : bool;
  rb_rpos : Z;
  rb_count : Z;
  rb_data : list (option T)
}.

Implicit Types b : ring_buffer.

Definition rb_new (pow2 : bool) (sz : Z) : ring_buffer := Ring pow2 0 0 (replicate (Z.to_nat sz) None).
Definition rb_max_size b : Z := Z.of_nat (length (rb_data b)).
Definition rb_size b : Z := rb_count b.
Definition rb_full b : bool := rb_size b =? rb_max_size b.
Definition rb_empty b : bool := rb_count b =? 0.

(** [advance_pos]: the storage for powers of two masks, the other one takes the remainder. *)
Definition advance_pos b (pos n : Z) : Z :=
  if rb_pow2 b then Z.land (u32 (pos + n)) (rb_max_size b - 1) else u32 (pos + n) mod rb_max_size b.

Definition get_wpos b : Z := advance_pos b (rb_rpos b) (rb_count b).

Definition rb_slot b (p : Z) : option T := mjoin (rb_data b !! Z.to_nat p).
Definition rb_write b (p : Z) (v : option T) : ring_buffer :=
  Ring (rb_pow2 b) (rb_rpos b) (rb_count b) (<[Z.to_nat p := v]> (rb_data b)).

Definition rb_push (u : T) b : option ring_buffer :=
  if rb_full b then None else
  let b := rb_write b (get_wpos b) (Some u) in
  Some (Ring (rb_pow2 b) (rb_rpos b) (u32 (rb_count b + 1)) (rb_data b)).

Definition rb_try_push (u : T) b : option (bool * ring_buffer) :=
  if rb_full b then Some (false, b) else b ← rb_push u b; Some (true, b).

(** [try_push] of a range: the number of elements pushed *)
Fixpoint rb_try_push_range (us : list T) b (count : Z) : option (Z * ring_buffer) :=
  match us with
  | [] => Some (count, b)
  | u :: us =>
      '(ok, b) ← rb_try_push u b;
      if negb (ok : bool) then Some (count, b) else rb_try_push_range us b (u32 (count + 1))
  end.

Definition rb_pop b : option ring_buffer :=
  if rb_empty b then None else
  let b := rb_write b (rb_rpos b) None in
  Some (Ring (rb_pow2 b) (advance_pos b (rb_rpos b) 1) (u32 (rb_count b - 1)) (rb_data b)).

(** [top], and writing through the reference it returns *)
Definition rb_top b : option T := if rb_empty b then None else rb_slot b (rb_rpos b).
Definition rb_set_top (v : T) b : option ring_buffer :=
  if rb_empty b then None else Some (rb_write b (rb_rpos b) (Some v)).

(** [operator[]], and writing through the reference *)
Definition rb_get b (i : Z) : option T :=
  if i <? rb_size b then rb_slot b (advance_pos b (rb_rpos b) i) else None.
Definition rb_set (i : Z) (v : T) b : option ring_buffer :=
  if i <? rb_size b then Some (rb_write b (advance_pos b (rb_rpos b) i) (Some v)) else None.

(** [pop_into] a range of [n] elements: the elements popped *)
Fixpoint rb_pop_into (n : nat) b : option (list T * ring_buffer) :=
  match n with
  | O => Some ([], b)
  | S n =>
      if rb_empty b then Some ([], b) else
      x ← rb_slot b (rb_rpos b);
      b ← rb_pop b;
      '(xs, b) ← rb_pop_into n b;
      Some (x :: xs, b)
  end.

(** The loop of [clear]: destroying the objects of the first [n] positions *)
Fixpoint rb_destroy_loop (n : nat) (i : Z) b : ring_buffer :=
  match n with
  | O => b
  | S n => rb_destroy_loop n (i + 1) (rb_write b (advance_pos b (rb_rpos b) i) None)
  end.
Definition rb_clear b : ring_buffer :=
  let b := rb_destroy_loop (Z.to_nat (rb_count b)) 0 b in
  Ring (rb_pow2 b) 0 0 (rb_data b).

(** Iteration from [begin()] to [end()] *)
Fixpoint rb_iter (n : nat) (i : Z) b : option (list T) :=
  match n with
  | O => Some []
  | S n => x ← rb_get b i; xs ← rb_iter n (i + 1) b; Some (x :: xs)
  end.
Definition rb_elements b : option (list T) := rb_iter (Z.to_nat (rb_count b)) 0 b.

(** [apply_first] *)
Definition rb_apply_first (func : T -> bool) b : option bool := xs ← rb_elements b; Some (existsb func xs).

(** ** The elements a buffer holds *)
Definition rb_geometry b : Prop :=
  0 < rb_max_size b < 2 ^ 31 /\ (rb_pow2 b = true -> exists a, 0 <= a /\ rb_max_size b = 2 ^ a) /\
  0 <= rb_rpos b < rb_max_size b.

(** Slot [rpos + i] holds element [i], and nothing beyond the last one. *)
Definition rb_repr b (l : list T) : Prop :=
  rb_geometry b /\ rb_count b = Z.of_nat (length l) /\ rb_count b <= rb_max_size b /\
  forall i : nat, Z.of_nat i < rb_max_size b ->
    rb_data b !! Z.to_nat ((rb_rpos b + Z.of_nat i) mod rb_max_size b) = Some (l !! i).

Lemma advance_pos_mod b p n :
  rb_geometry b -> 0 <= p -> 0 <= n -> p + n < 2 ^ 32 -> advance_pos b p n = (p + n) mod rb_max_size b.
Proof.
  intros (Hm & Hp2 & _) Hp Hn Hs. unfold advance_pos. rewrite u32_eq, (Z.mod_small (p + n)) by lia.
  destruct (rb_pow2 b) eqn:E; [|done]. destruct (Hp2 eq_refl) as (a & Ha & ->). apply (land_low a); lia.
Qed.

Lemma rb_wrap_inj m p i j :
  0 < m -> 0 <= i < m -> 0 <= j < m -> (p + i) mod m = (p + j) mod m -> i = j.
Proof.
  intros Hm Hi Hj E. assert (Hd : (i - j) mod m = 0).
  { replace (i - j) with ((p + i) - (p + j)) by lia. rewrite Zminus_mod, E, Z.sub_diag. apply Z.mod_0_l. lia. }
  apply Z.mod_divide in Hd as [k Hk]; [|lia]. assert (k = 0) by nia. lia.
Qed.

(** Writing a slot changes the element of that position only. *)
Lemma rb_write_lookup b (j i : nat) v :
  rb_geometry b -> Z.of_nat j < rb_max_size b -> Z.of_nat i < rb_max_size b ->
  rb_data (rb_write b ((rb_rpos b + Z.of_nat j) mod rb_max_size b) v)
    !! Z.to_nat ((rb_rpos b + Z.of_nat i) mod rb_max_size b)
  = if decide (i = j) then Some v else rb_data b !! Z.to_nat ((rb_rpos b + Z.of_nat i) mod rb_max_size b).
Proof.
  intros ((Hm & _) & _ & _) Hj Hi. cbn [rb_write rb_data].
  pose proof (Z.mod_pos_bound (rb_rpos b + Z.of_nat j) (rb_max_size b) Hm) as Bj.
  pose proof (Z.mod_pos_bound (rb_rpos b + Z.of_nat i) (rb_max_size b) Hm) as Bi.
  case_decide as E.
  - subst. rewrite list_lookup_insert_eq; [done|]. unfold rb_max_size in *. lia.
  - rewrite list_lookup_insert_ne; [done|]. intros E'. apply Z2Nat.inj in E'; [|lia|lia].
    apply E. apply rb_wrap_inj in E'; lia.
Qed.

Lemma rb_write_geometry b p v : rb_geometry b -> rb_geometry (rb_write b p v) /\ rb_max_size (rb_write b p v) = rb_max_size b.
Proof. intros H. unfold rb_geometry, rb_max_size in *. cbn. by rewrite length_insert. Qed.

Lemma rb_repr_new pow2 sz :
  0 < sz < 2 ^ 31 -> (pow2 = true -> exists a, 0 <= a /\ sz = 2 ^ a) ->
  rb_repr (rb_new pow2 sz) [] /\ rb_max_size (rb_new pow2 sz) = sz.
Proof.
  intros Hs Hp. assert (E : rb_max_size (rb_new pow2 sz) = sz).
  { unfold rb_max_size, rb_new. cbn [rb_data]. rewrite length_replicate. lia. }
  split; [|done]. split; [split; [lia|split; [by rewrite E|rewrite E; cbn; lia]]|].
  split; [done|]. split; [rewrite E; cbn; lia|]. intros i Hi. cbn. apply lookup_replicate_2.
  rewrite E in *. pose proof (Z.mod_pos_bound (Z.of_nat i) sz). lia.
Qed.

Lemma rb_repr_empty b l : rb_repr b l -> rb_empty b = match l with [] => true | _ => false end.
Proof. intros (_ & Hc & _). unfold rb_empty. rewrite Hc. by destruct l. Qed.

Lemma rb_repr_full b l : rb_repr b l -> rb_full b = (Z.of_nat (length l) =? rb_max_size b).
Proof. intros (_ & Hc & _). unfold rb_full, rb_size. by rewrite Hc. Qed.

Lemma rb_repr_size b l : rb_repr b l -> rb_size b = Z.of_nat (length l) /\ Z.of_nat (length l) <= rb_max_size b.
Proof. intros (_ & Hc & Hle & _). unfold rb_size. lia. Qed.

(** Element [i] through its slot. *)
Lemma rb_repr_unique b l1 l2 : rb_repr b l1 -> rb_repr b l2 -> l1 = l2.
Proof.
  intros (_ & Hc1 & Hm1 & Hl1) (_ & Hc2 & Hm2 & Hl2). apply list_eq. intros i.
  destruct (decide (Z.of_nat i < rb_max_size b)) as [Hi|Hi].
  - specialize (Hl1 i Hi). rewrite (Hl2 i Hi) in Hl1. congruence.
  - rewrite !lookup_ge_None_2 by lia. done.
Qed.

Lemma rb_repr_slot b l i :
  rb_repr b l -> 0 <= i < rb_max_size b -> rb_slot b (advance_pos b (rb_rpos b) i) = l !! Z.to_nat i.
Proof.
  intros (Hg & Hc & Hle & Hs) Hi. pose proof Hg as (Hm & _ & Hr). rewrite advance_pos_mod by (done || lia).
  unfold rb_slot. specialize (Hs (Z.to_nat i)). rewrite Z2Nat.id in Hs by lia. by rewrite Hs by lia.
Qed.

(** Writing the slot of position [j] of the buffer. *)
Lemma rb_repr_write b l (j : nat) v l' count' :
  rb_repr b l -> Z.of_nat j < rb_max_size b -> count' = Z.of_nat (length l') -> count' <= rb_max_size b ->
  (forall i : nat, Z.of_nat i < rb_max_size b -> l' !! i = if decide (i = j) then v else l !! i) ->
  let b' := rb_write b ((rb_rpos b + Z.of_nat j) mod rb_max_size b) v in
  rb_repr (Ring (rb_pow2 b') (rb_rpos b') count' (rb_data b')) l'.
Proof.
  intros (Hg & Hc & Hle & Hs) Hj Hc' Hle' Hl b'. destruct (rb_write_geometry b ((rb_rpos b + Z.of_nat j) mod rb_max_size b) v Hg) as [Hg' Hm'].
  fold b' in Hg', Hm'. assert (Em : rb_max_size (Ring (rb_pow2 b') (rb_rpos b') count' (rb_data b')) = rb_max_size b) by exact Hm'.
  split; [exact Hg'|]. split; [done|]. split; [by rewrite Em|]. rewrite Em. intros i Hi.
  change (rb_data b' !! Z.to_nat ((rb_rpos b + Z.of_nat i) mod rb_max_size b) = Some (l' !! i)).
  unfold b'. rewrite rb_write_lookup, Hl, Hs by done. by case_decide.
Qed.

Lemma rb_push_spec u b l :
  rb_repr b l -> Z.of_nat (length l) < rb_max_size b ->
  exists b', rb_push u b = Some b' /\ rb_repr b' (l ++ [u]) /\ rb_max_size b' = rb_max_size b.
Proof.
  intros Hr Hl. pose proof Hr as (Hg & Hc & Hle & Hs). pose proof Hg as (Hm & _ & Hrp).
  unfold rb_push. rewrite (rb_repr_full _ _ Hr), (proj2 (Z.eqb_neq _ _)) by lia.
  unfold get_wpos. rewrite advance_pos_mod, Hc by (done || lia). eexists. split; [reflexivity|]. split.
  - change (rb_count (rb_write b _ _)) with (rb_count b). rewrite u32_eq, (Z.mod_small (rb_count b + 1)) by lia. eapply (rb_repr_write _ _ (length l)); [done|done|rewrite length_app; cbn; lia|lia|].
    intros i Hi. case_decide as E; [subst; by rewrite list_lookup_middle|].
    destruct (decide (i < length l)%nat); [by rewrite lookup_app_l|]. rewrite lookup_app_r by lia. rewrite (lookup_ge_None_2 l) by lia.
    destruct (i - length l)%nat eqn:E'; [lia|done].
  - unfold rb_max_size. cbn. by rewrite length_insert.
Qed.

Lemma rb_try_push_spec u b l :
  rb_repr b l ->
  exists b', rb_try_push u b = Some (Z.of_nat (length l) <? rb_max_size b, b') /\
    rb_repr b' (if Z.of_nat (length l) <? rb_max_size b then l ++ [u] else l) /\ rb_max_size b' = rb_max_size b.
Proof.
  intros Hr. pose proof (rb_repr_size _ _ Hr) as [Hsz Hle]. unfold rb_try_push. rewrite (rb_repr_full _ _ Hr).
  destruct (Z.eqb_spec (Z.of_nat (length l)) (rb_max_size b)) as [E|E].
  - rewrite (proj2 (Z.ltb_ge _ _)) by lia. by exists b.
  - rewrite (proj2 (Z.ltb_lt _ _)) by lia. destruct (rb_push_spec u b l Hr) as (b' & -> & ? & ?); [lia|]. by exists b'.
Qed.

Lemma rb_pop_spec b x l :
  rb_repr b (x :: l) -> exists b', rb_pop b = Some b' /\ rb_repr b' l /\ rb_max_size b' = rb_max_size b.
Proof.
  intros Hr. pose proof Hr as (Hg & Hc & Hle & Hs). pose proof Hg as (Hm & Hp2 & Hrp). cbn [length] in Hc.
  unfold rb_pop. rewrite (rb_repr_empty _ _ Hr).
  destruct (rb_write_geometry b (rb_rpos b) None Hg) as [Hg' Hm'].
  eexists. split; [reflexivity|]. rewrite advance_pos_mod by (done || cbn; lia). cbn [rb_write rb_rpos rb_pow2 rb_count] in *.
  rewrite Hm', u32_eq, (Z.mod_small (rb_count b - 1)) by lia. assert (Em : forall p r c, rb_max_size (Ring p r c (rb_data (rb_write b (rb_rpos b) None))) = rb_max_size b)
    by (intros; exact Hm'). split; [|apply Em].
  pose proof (Z.mod_pos_bound (rb_rpos b + 1) (rb_max_size b)) as Hb.
  split; [split; [rewrite Em; lia|split; [rewrite Em; exact Hp2|rewrite Em; cbn; lia]]|].
  split; [cbn; lia|]. split; [rewrite Em; cbn; lia|]. intros i Hi. rewrite Em in *. cbn [rb_rpos rb_data rb_write].
  rewrite Zplus_mod_idemp_l. replace (rb_rpos b + 1 + Z.of_nat i) with (rb_rpos b + Z.of_nat (S i)) by lia.
  destruct (decide (Z.of_nat (S i) < rb_max_size b)) as [Hi'|Hi'].
  - rewrite list_lookup_insert_ne; [by rewrite Hs|]. pose proof (Z.mod_pos_bound (rb_rpos b + Z.of_nat (S i)) (rb_max_size b) ltac:(lia)).
    intros E. apply Z2Nat.inj in E; [|lia|lia].
    assert (0 = Z.of_nat (S i)); [|lia]. apply (rb_wrap_inj (rb_max_size b) (rb_rpos b)); [lia|lia|lia|].
    by rewrite Z.add_0_r, (Z.mod_small (rb_rpos b)).
  - assert (Ei : rb_rpos b + Z.of_nat (S i) = rb_rpos b + 1 * rb_max_size b) by lia.
    rewrite Ei, Z_mod_plus_full, Z.mod_small by lia. rewrite list_lookup_insert_eq.
    + f_equal. symmetry. apply lookup_ge_None_2. lia.
    + unfold rb_max_size in *. lia.
Qed.

Lemma rb_top_spec b l : rb_repr b l -> rb_top b = head l.
Proof.
  intros Hr. pose proof Hr as (Hg & _ & _ & Hs). pose proof Hg as (Hm & _ & Hrp). unfold rb_top. rewrite (rb_repr_empty _ _ Hr).
  destruct l as [|x l]; [done|]. unfold rb_slot. specialize (Hs 0%nat ltac:(lia)).
  rewrite Z.add_0_r, Z.mod_small in Hs by lia. by rewrite Hs.
Qed.

Lemma rb_set_spec i v b l :
  rb_repr b l -> 0 <= i < Z.of_nat (length l) ->
  exists b', rb_set i v b = Some b' /\ rb_repr b' (<[Z.to_nat i := v]> l) /\ rb_max_size b' = rb_max_size b.
Proof.
  intros Hr Hi. pose proof Hr as (Hg & Hc & Hle & Hs). pose proof Hg as (Hm & _ & Hrp). unfold rb_set, rb_size. rewrite Hc, (proj2 (Z.ltb_lt _ _)) by lia.
  rewrite advance_pos_mod by (done || lia). eexists. split; [reflexivity|].
  split; [|by destruct (rb_write_geometry b ((rb_rpos b + i) mod rb_max_size b) (Some v) Hg)].
  replace i with (Z.of_nat (Z.to_nat i)) at 1 by lia.
  pose proof (rb_repr_write b l (Z.to_nat i) (Some v) (<[Z.to_nat i := v]> l) (rb_count b) Hr) as Hw. cbn in Hw. apply Hw; [lia|by rewrite length_insert|done|].
  intros k Hk. case_decide as E; [subst; rewrite list_lookup_insert_eq; [done|lia]|by rewrite list_lookup_insert_ne].
Qed.

Lemma rb_set_top_spec v b x l :
  rb_repr b (x :: l) -> exists b', rb_set_top v b = Some b' /\ rb_repr b' (v :: l) /\ rb_max_size b' = rb_max_size b.
Proof.
  intros Hr. pose proof Hr as (Hg & Hc & Hle & _). pose proof Hg as (Hm & _ & Hrp). destruct (rb_set_spec 0 v b (x :: l) Hr) as (b' & E & Hr' & Hm'); [cbn; lia|].
  exists b'. split; [|done]. rewrite <- E. unfold rb_set_top, rb_set, rb_size. cbn [length] in Hc.
  rewrite (rb_repr_empty _ _ Hr), (proj2 (Z.ltb_lt _ _)), advance_pos_mod by (done || lia). by rewrite Z.add_0_r, Z.mod_small.
Qed.

Lemma rb_get_spec i b l : rb_repr b l -> 0 <= i -> rb_get b i = l !! Z.to_nat i.
Proof.
  intros Hr Hi. pose proof (rb_repr_size _ _ Hr) as [Hsz Hle]. unfold rb_get. rewrite Hsz.
  destruct (Z.ltb_spec i (Z.of_nat (length l))); [apply rb_repr_slot; [done|lia]|]. symmetry. apply lookup_ge_None_2. lia.
Qed.

Lemma rb_iter_spec b l n : forall i : nat,
  rb_repr b l -> (i + n = length l)%nat -> rb_iter n (Z.of_nat i) b = Some (drop i l).
Proof.
  induction n as [|n IH]; intros i Hr Hn; cbn [rb_iter]; [by rewrite drop_ge by lia|].
  rewrite (rb_get_spec (Z.of_nat i) b l) by (done || lia). rewrite Nat2Z.id.
  destruct (lookup_lt_is_Some_2 l i) as [x Hx]; [lia|]. rewrite Hx. cbn [mbind option_bind].
  replace (Z.of_nat i + 1) with (Z.of_nat (S i)) by lia. rewrite IH by (done || lia). cbn [mbind option_bind].
  by rewrite (drop_S l x i).
Qed.

Lemma rb_elements_spec b l : rb_repr b l -> rb_elements b = Some l.
Proof.
  intros Hr. pose proof Hr as (_ & Hc & _). unfold rb_elements. rewrite Hc, Nat2Z.id.
  apply (rb_iter_spec b l (length l) 0%nat Hr). done.
Qed.

Lemma rb_try_push_range_spec us : forall b l c,
  rb_repr b l -> 0 <= c -> c + Z.of_nat (length us) < 2 ^ 32 ->
  let n := Z.min (Z.of_nat (length us)) (rb_max_size b - Z.of_nat (length l)) in
  exists b', rb_try_push_range us b c = Some (c + n, b') /\ rb_repr b' (l ++ take (Z.to_nat n) us) /\
    rb_max_size b' = rb_max_size b.
Proof.
  induction us as [|u us IH]; intros b l c Hr Hc Hlt n; pose proof (rb_repr_size _ _ Hr) as [_ Hle]; cbn [rb_try_push_range length] in *.
  { exists b. unfold n. rewrite Z.min_l, Z.add_0_r, take_nil, app_nil_r by lia. done. }
  destruct (rb_try_push_spec u b l Hr) as (b1 & -> & Hr1 & Hm1). cbn [mbind option_bind].
  destruct (Z.ltb_spec (Z.of_nat (length l)) (rb_max_size b)); cbn [negb].
  - rewrite u32_eq, Z.mod_small by lia.
    destruct (IH b1 (l ++ [u]) (c + 1) Hr1) as (b' & -> & Hr' & Hm'); [lia|lia|]. rewrite length_app in *. cbn [length] in *.
    rewrite Hm1 in *. exists b'. split; [f_equal; f_equal; lia|]. split; [|done]. unfold n.
    rewrite <- app_assoc in Hr'. cbn [app] in Hr'. destruct (Z.to_nat (Z.min (Z.of_nat (S (length us))) _)) eqn:E; [lia|].
    cbn [take]. by replace n0 with (Z.to_nat (Z.min (Z.of_nat (length us)) (rb_max_size b - Z.of_nat (length l + 1)))) by lia.
  - exists b1. unfold n. replace (Z.min _ _) with 0 by lia. cbn [Z.to_nat take]. rewrite Z.add_0_r, app_nil_r. done.
Qed.

Lemma rb_pop_into_spec n : forall b l, rb_repr b l ->
  exists b', rb_pop_into n b = Some (take n l, b') /\ rb_repr b' (drop n l) /\ rb_max_size b' = rb_max_size b.
Proof.
  induction n as [|n IH]; intros b l Hr; cbn [rb_pop_into]; [by exists b|]. rewrite (rb_repr_empty _ _ Hr).
  destruct l as [|x l]; [by exists b|]. pose proof (rb_top_spec _ _ Hr) as Ht. unfold rb_top in Ht.
  rewrite (rb_repr_empty _ _ Hr) in Ht. rewrite Ht. cbn [head mbind option_bind].
  destruct (rb_pop_spec _ _ _ Hr) as (b1 & -> & Hr1 & Hm1). cbn [mbind option_bind].
  destruct (IH b1 l Hr1) as (b2 & -> & Hr2 & Hm2). cbn [mbind option_bind]. exists b2. by rewrite Hm2.
Qed.

Lemma rb_destroy_loop_spec n : forall (i : nat) b,
  rb_geometry b -> Z.of_nat (i + n) <= rb_max_size b ->
  let b' := rb_destroy_loop n (Z.of_nat i) b in
  rb_pow2 b' = rb_pow2 b /\ rb_rpos b' = rb_rpos b /\ rb_max_size b' = rb_max_size b /\
  forall j : nat, Z.of_nat j < rb_max_size b ->
    rb_data b' !! Z.to_nat ((rb_rpos b + Z.of_nat j) mod rb_max_size b)
    = if decide (i <= j < i + n)%nat then Some None else rb_data b !! Z.to_nat ((rb_rpos b + Z.of_nat j) mod rb_max_size b).
Proof.
  induction n as [|n IH]; intros i b Hg Hn; cbn [rb_destroy_loop].
  { repeat (split; [done|]). intros j Hj. rewrite decide_False by lia. done. }
  pose proof Hg as (Hm & _ & Hrp). rewrite advance_pos_mod by (done || lia).
  set (b1 := rb_write b _ None). destruct (rb_write_geometry b ((rb_rpos b + Z.of_nat i) mod rb_max_size b) None Hg) as [Hg1 Hm1].
  fold b1 in Hg1, Hm1. replace (Z.of_nat i + 1) with (Z.of_nat (S i)) by lia.
  destruct (IH (S i) b1 Hg1) as (E1 & E2 & E3 & E4); [lia|]. split; [by rewrite E1|]. split; [by rewrite E2|]. split; [by rewrite E3|].
  intros j Hj. rewrite Hm1 in E4. change (rb_rpos b1) with (rb_rpos b) in E4. rewrite E4 by done.
  unfold b1. rewrite rb_write_lookup by (done || lia). repeat case_decide; (done || lia).
Qed.

Lemma rb_clear_spec b l : rb_repr b l -> rb_repr (rb_clear b) [] /\ rb_max_size (rb_clear b) = rb_max_size b.
Proof.
  intros (Hg & Hc & Hle & Hs). pose proof Hg as (Hm & Hp2 & Hrp).
  destruct (rb_destroy_loop_spec (Z.to_nat (rb_count b)) 0 b Hg) as (E1 & E2 & E3 & E4); [lia|].
  unfold rb_clear. set (b1 := rb_destroy_loop _ _ b) in *.
  assert (Em : rb_max_size (Ring (rb_pow2 b1) 0 0 (rb_data b1)) = rb_max_size b) by exact E3.
  split; [|done]. split; [split; [by rewrite Em|split; [rewrite Em; cbn [rb_pow2]; by rewrite E1|rewrite Em; cbn; lia]]|].
  split; [done|]. split; [rewrite Em; cbn; lia|]. rewrite Em. intros i Hi. cbn [rb_rpos rb_data]. rewrite lookup_nil.
  set (j := Z.to_nat ((Z.of_nat i - rb_rpos b) mod rb_max_size b)).
  pose proof (Z.mod_pos_bound (Z.of_nat i - rb_rpos b) (rb_max_size b) ltac:(lia)) as Hj.
  assert (Ej : (0 + Z.of_nat i) mod rb_max_size b = (rb_rpos b + Z.of_nat j) mod rb_max_size b).
  { unfold j. rewrite Z2Nat.id, Zplus_mod_idemp_r by lia. f_equal. lia. }
  rewrite Ej, E4 by lia. case_decide as Hd; [done|]. rewrite Hs by lia. f_equal. apply lookup_ge_None_2. lia.
Qed.

(** ** Programs over a ring buffer *)
Inductive rb_op :=
| RbPush (u : T) | RbTryPush (u : T) | RbTryPushRange (us : list T) | RbPop | RbTop | RbSetTop (v : T)
| RbGet (i : Z) | RbSet (i : Z) (v : T) | RbPopInto (n : nat) | RbClear | RbElements | RbSize | RbEmpty | RbFull.
Inductive rb_out := RbUnit | RbBool (o : bool) | RbNum (n : Z) | RbVal (v : T) | RbVals (vs : list T).

Definition rb_step (op : rb_op) b : option (rb_out * ring_buffer) :=
  match op with
  | RbPush u => b ← rb_push u b; Some (RbUnit, b)
  | RbTryPush u => '(ok, b) ← rb_try_push u b; Some (RbBool ok, b)
  | RbTryPushRange us => '(n, b) ← rb_try_push_range us b 0; Some (RbNum n, b)
  | RbPop => b ← rb_pop b; Some (RbUnit, b)
  | RbTop => v ← rb_top b; Some (RbVal v, b)
  | RbSetTop v => b ← rb_set_top v b; Some (RbUnit, b)
  | RbGet i => v ← rb_get b i; Some (RbVal v, b)
  | RbSet i v => b ← rb_set i v b; Some (RbUnit, b)
  | RbPopInto n => '(vs, b) ← rb_pop_into n b; Some (RbVals vs, b)
  | RbClear => Some (RbUnit, rb_clear b)
  | RbElements => vs ← rb_elements b; Some (RbVals vs, b)
  | RbSize => Some (RbNum (rb_size b), b)
  | RbEmpty => Some (RbBool (rb_empty b), b)
  | RbFull => Some (RbBool (rb_full b), b)
  end.

(** The same on a list of at most [cap] elements. *)
Definition list_step (cap : Z) (op : rb_op) (l : list T) : option (rb_out * list T) :=
  let room := Z.of_nat (length l) <? cap in
  match op with
  | RbPush u => if room then Some (RbUnit, l ++ [u]) else None
  | RbTryPush u => Some (RbBool room, if room then l ++ [u] else l)
  | RbTryPushRange us =>
      let n := Z.min (Z.of_nat (length us)) (cap - Z.of_nat (length l)) in Some (RbNum n, l ++ take (Z.to_nat n) us)
  | RbPop => match l with [] => None | _ :: l => Some (RbUnit, l) end
  | RbTop => match l with [] => None | x :: _ => Some (RbVal x, l) end
  | RbSetTop v => match l with [] => None | _ :: l => Some (RbUnit, v :: l) end
  | RbGet i => x ← l !! Z.to_nat i; Some (RbVal x, l)
  | RbSet i v => if i <? Z.of_nat (length l) then Some (RbUnit, <[Z.to_nat i := v]> l) else None
  | RbPopInto n => Some (RbVals (take n l), drop n l)
  | RbClear => Some (RbUnit, [])
  | RbElements => Some (RbVals l, l)
  | RbSize => Some (RbNum (Z.of_nat (length l)), l)
  | RbEmpty => Some (RbBool (match l with [] => true | _ => false end), l)
  | RbFull => Some (RbBool (Z.of_nat (length l) =? cap), l)
  end.

Fixpoint rb_run (ops : list rb_op) b : option (list rb_out * ring_buffer) :=
  match ops with
  | [] => Some ([], b)
  | op :: ops => '(o, b) ← rb_step op b; '(os, b) ← rb_run ops b; Some (o :: os, b)
  end.
Fixpoint list_run (cap : Z) (ops : list rb_op) (l : list T) : option (list rb_out * list T) :=
  match ops with
  | [] => Some ([], l)
  | op :: ops => '(o, l) ← list_step cap op l; '(os, l) ← list_run cap ops l; Some (o :: os, l)
  end.

(** Indices are unsigned, ranges shorter than 2^32. *)
Definition rb_op_ok (op : rb_op) : Prop :=
  match op with
  | RbGet i | RbSet i _ => 0 <= i
  | RbTryPushRange us => Z.of_nat (length us) < 2 ^ 32
  | _ => True
  end.

Definition rb_simulates (cap : Z) (r : option (rb_out * ring_buffer)) (s : option (rb_out * list T)) : Prop :=
  match s with
  | None => r = None
  | Some (o, l) => exists b, r = Some (o, b) /\ rb_repr b l /\ rb_max_size b = cap
  end.

Lemma rb_step_refines op b l :
  rb_repr b l -> rb_op_ok op -> rb_simulates (rb_max_size b) (rb_step op b) (list_step (rb_max_size b) op l).
Proof.
  intros Hr Hop. pose proof (rb_repr_size _ _ Hr) as [Hsz Hle].
  destruct op as [u|u|us| | |v|i|i v|n| | | | |]; cbn [rb_step list_step rb_op_ok rb_simulates] in *.
  - destruct (Z.ltb_spec (Z.of_nat (length l)) (rb_max_size b)) as [H|H].
    + destruct (rb_push_spec u b l Hr H) as (b' & -> & ?). by exists b'.
    + cbn. unfold rb_push. by rewrite (rb_repr_full _ _ Hr), (proj2 (Z.eqb_eq _ _)) by lia.
  - destruct (rb_try_push_spec u b l Hr) as (b' & -> & ?). by exists b'.
  - destruct (rb_try_push_range_spec us b l 0 Hr) as (b' & -> & ?); [lia|lia|]. by exists b'.
  - destruct l as [|x l]; cbn; [unfold rb_pop; by rewrite (rb_repr_empty _ _ Hr)|].
    destruct (rb_pop_spec _ _ _ Hr) as (b' & -> & ?). by exists b'.
  - rewrite (rb_top_spec _ _ Hr). destruct l as [|x l]; [done|]. by exists b.
  - destruct l as [|x l]; cbn; [unfold rb_set_top; by rewrite (rb_repr_empty _ _ Hr)|].
    destruct (rb_set_top_spec v _ _ _ Hr) as (b' & -> & ?). by exists b'.
  - rewrite (rb_get_spec _ _ _ Hr Hop). destruct (l !! Z.to_nat i); [by exists b|done].
  - destruct (Z.ltb_spec i (Z.of_nat (length l))) as [H|H].
    + destruct (rb_set_spec i v b l Hr) as (b' & -> & ?); [done|]. by exists b'.
    + cbn. unfold rb_set. by rewrite Hsz, (proj2 (Z.ltb_ge _ _)) by lia.
  - destruct (rb_pop_into_spec n b l Hr) as (b' & -> & ?). by exists b'.
  - exists (rb_clear b). by destruct (rb_clear_spec b l Hr).
  - rewrite (rb_elements_spec _ _ Hr). by exists b.
  - rewrite Hsz. by exists b.
  - rewrite (rb_repr_empty _ _ Hr). by exists b.
  - rewrite (rb_repr_full _ _ Hr). by exists b.
Qed.
End ring_buffer.
Arguments ring_buffer : clear implicits.
Arguments rb_op : clear implicits.

(** C33. A ring buffer is a bounded list: whatever operations are performed on a new buffer with [sz] slots (a power of two for
    the masking storage), every result is the one of the same operations on a list of at most [sz] elements, and an assertion
    fails exactly where the list has no such element or no room. *)
Theorem ring_buffer_refines_list {T} (pow2 : bool) (sz : Z) (ops : list (rb_op T)) :
  0 < sz < 2 ^ 31 -> (pow2 = true -> exists a, 0 <= a /\ sz = 2 ^ a) -> Forall rb_op_ok ops ->
  fst <$> rb_run ops (rb_new pow2 sz) = fst <$> list_run sz ops [].
Proof.
  intros Hs Hp Hops. destruct (rb_repr_new (T := T) pow2 sz Hs Hp) as [Hr Hm]. revert Hr Hm.
  generalize (rb_new (T := T) pow2 sz) as b. generalize (@nil T) as l. induction Hops as [|op ops Hop Hops IH]; intros l b Hr Hm; [done|].
  cbn [rb_run list_run]. pose proof (rb_step_refines op b l Hr Hop) as Hsim. rewrite Hm in Hsim.
  destruct (list_step sz op l) as [[o l']|]; [|by rewrite Hsim]. destruct Hsim as (b' & -> & Hr' & Hm'). cbn [mbind option_bind].
  specialize (IH l' b' Hr' Hm'). destruct (rb_run ops b') as [[os b2]|], (list_run sz ops l') as [[os' l2]|]; cbn in *; congruence.
Qed.

Lemma ring_buffer_refines_list_witness :
  fst <$> rb_run [RbPush 1; RbPush 2; RbPop; RbTryPushRange [3; 4; 5; 6]; RbGet 1; RbElements] (rb_new true 4)
  = Some [RbUnit; RbUnit; RbUnit; RbNum 3; RbVal 3; RbVals [2; 3; 4; 5]].
Proof.
  rewrite (ring_buffer_refines_list true 4); [reflexivity|lia|intros _; exists 2; lia|].
  repeat constructor; cbn; lia.
Defined.
