(* ===== verification/RlcRetxQueue.v ===== *)
(** * The retransmission queue of the AM transmitter ([lib/rlc/rlc_retx_queue.h])

    Elements that are removed from the middle stay in the ring buffer as invalid ones and are skipped when the front is
    popped. The queue keeps the number of bytes and the number of small and large headers its valid elements need. *)
From S2P Require Import Prelude RlcAmPdu RingBuffer.

(** [rlc_tx_amd_retx] *)
Record rlc_tx_amd_retx := Retx { r_sn : Z; r_so : Z; r_length : Z }.
Definition rlc_tx_amd_retx_init : rlc_tx_amd_retx := Retx INVALID_RLC_SN 0 0.

(** [rlc_tx_amd_retx::includes] *)
Definition includes (r : rlc_tx_amd_retx) (segment_offset segment_length : Z) : bool :=
  (r_so r <=? segment_offset) && (u32 (segment_offset + segment_length) <=? u32 (r_so r + r_length r)).

(** [rlc_retx_queue_state] *)
Record rlc_retx_queue_state := RetxState { retx_bytes : Z; n_retx_so_zero : Z; n_retx_so_nonzero : Z }.
Definition rlc_retx_queue_state_init : rlc_retx_queue_state := RetxState 0 0 0.

Definition retx_state_add (elem : rlc_tx_amd_retx) (st : rlc_retx_queue_state) : rlc_retx_queue_state :=
  let bytes := u32 (retx_bytes st + r_length elem) in
  if r_so elem =? 0 then RetxState bytes (u32 (n_retx_so_zero st + 1)) (n_retx_so_nonzero st)
  else RetxState bytes (n_retx_so_zero st) (u32 (n_retx_so_nonzero st + 1)).

Definition retx_state_subtract (elem : rlc_tx_amd_retx) (st : rlc_retx_queue_state) : rlc_retx_queue_state :=
  let bytes := if r_length elem <=? retx_bytes st then retx_bytes st - r_length elem else 0 in
  if r_so elem =? 0
  then RetxState bytes (if 0 <? n_retx_so_zero st then n_retx_so_zero st - 1 else n_retx_so_zero st) (n_retx_so_nonzero st)
  else RetxState bytes (n_retx_so_zero st) (if 0 <? n_retx_so_nonzero st then n_retx_so_nonzero st - 1 else n_retx_so_nonzero st).

(** [rlc_retx_queue_item] and [rlc_retx_queue] *)
Record rlc_retx_queue_item := RetxItem { it_invalid : bool; it_retx : rlc_tx_amd_retx }.
Record rlc_retx_queue := RetxQueue { rq_queue : ring_buffer rlc_retx_queue_item; rq_st : rlc_retx_queue_state }.

Implicit Types q : rlc_retx_queue.

Definition retx_queue_new (capacity : Z) : rlc_retx_queue := RetxQueue (rb_new true capacity) rlc_retx_queue_state_init.

Definition retx_try_push (retx : rlc_tx_amd_retx) q : option (bool * rlc_retx_queue) :=
  '(success, rb) ← rb_try_push (RetxItem false retx) (rq_queue q);
  Some (success, RetxQueue rb (if (success : bool) then retx_state_add retx (rq_st q) else rq_st q)).

(** [clean_invalid_front]; the loop pops one element per round. *)
Fixpoint clean_loop (fuel : nat) (rb : ring_buffer rlc_retx_queue_item) : option (ring_buffer rlc_retx_queue_item) :=
  if rb_empty rb then Some rb else
  elem ← rb_top rb;
  if it_invalid elem then
    match fuel with O => None | S fuel => rb ← rb_pop rb; clean_loop fuel rb end
  else Some rb.
Definition clean_invalid_front q : option rlc_retx_queue :=
  rb ← clean_loop (Z.to_nat (rb_size (rq_queue q))) (rq_queue q); Some (RetxQueue rb (rq_st q)).

Definition retx_pop q : option rlc_retx_queue :=
  if rb_empty (rq_queue q) then Some q else
  elem ← rb_top (rq_queue q);
  rb ← rb_pop (rq_queue q);
  clean_invalid_front (RetxQueue rb (retx_state_subtract (it_retx elem) (rq_st q))).

Definition retx_front q : option rlc_tx_amd_retx :=
  if rb_empty (rq_queue q) then None else
  elem ← rb_top (rq_queue q);
  if it_invalid elem then None else Some (it_retx elem).

Definition retx_replace_front (retx : rlc_tx_amd_retx) q : option rlc_retx_queue :=
  if rb_empty (rq_queue q) then None else
  elem ← rb_top (rq_queue q);
  if it_invalid elem then None else
  let st := retx_state_add retx (retx_state_subtract (it_retx elem) (rq_st q)) in
  rb ← rb_set_top (RetxItem false retx) (rq_queue q);
  Some (RetxQueue rb st).

Definition retx_clear q : rlc_retx_queue := RetxQueue (rb_clear (rq_queue q)) rlc_retx_queue_state_init.
Definition retx_size q : Z := rb_size (rq_queue q).
Definition retx_empty q : bool := rb_empty (rq_queue q).

(** [has_sn], with the SN only and with a segment *)
Definition retx_has_sn (sn : Z) q : option bool :=
  if rb_empty (rq_queue q) then Some false else
  rb_apply_first (fun elem => negb (it_invalid elem) && (r_sn (it_retx elem) =? sn)) (rq_queue q).
Definition retx_has_segment (sn so length : Z) q : option bool :=
  if rb_empty (rq_queue q) then Some false else
  rb_apply_first (fun elem => negb (it_invalid elem) && (r_sn (it_retx elem) =? sn) && includes (it_retx elem) so length)
    (rq_queue q).

(** The loop of [remove_sn]: an element that is marked is looked at once more before the iterator moves on. *)
Fixpoint remove_sn_loop (fuel : nat) (sn iter : Z) (result : bool) q : option (bool * rlc_retx_queue) :=
  if iter =? rb_size (rq_queue q) then Some (result, q) else
  match fuel with
  | O => None
  | S fuel =>
      elem ← rb_get (rq_queue q) iter;
      if negb (it_invalid elem) && (r_sn (it_retx elem) =? sn) then
        rb ← rb_set iter (RetxItem true (it_retx elem)) (rq_queue q);
        remove_sn_loop fuel sn iter true (RetxQueue rb (retx_state_subtract (it_retx elem) (rq_st q)))
      else remove_sn_loop fuel sn (iter + 1) result q
  end.
Definition retx_remove_sn (sn : Z) q : option (bool * rlc_retx_queue) :=
  if rb_empty (rq_queue q) then Some (false, q) else
  '(result, q) ← remove_sn_loop (2 * Z.to_nat (rb_size (rq_queue q))) sn 0 false q;
  q ← clean_invalid_front q;
  Some (result, q).

(** ** What the queue holds *)

(** The valid elements. *)
Definition valid_retx (l : list rlc_retx_queue_item) : list rlc_tx_amd_retx := it_retx <$> filter (fun x => it_invalid x = false) l.

(** No invalid element is at the front. *)
Definition front_valid (l : list rlc_retx_queue_item) : Prop :=
  match l with [] => True | x :: _ => it_invalid x = false end.

Definition retx_sum (l : list rlc_tx_amd_retx) : Z := foldr (fun r acc => r_length r + acc) 0 l.
Definition retx_count (zero : bool) (l : list rlc_tx_amd_retx) : Z :=
  Z.of_nat (length (filter (fun r => Bool.eqb (r_so r =? 0) zero = true) l)).
Definition retx_totals (l : list rlc_tx_amd_retx) : rlc_retx_queue_state :=
  RetxState (retx_sum l) (retx_count true l) (retx_count false l).

Definition retx_repr q (l : list rlc_retx_queue_item) : Prop := rb_repr (rq_queue q) l /\ front_valid l.
Definition retx_cap q : Z := rb_max_size (rq_queue q).

Lemma retx_repr_new capacity :
  0 < capacity < 2 ^ 31 -> (exists a, 0 <= a /\ capacity = 2 ^ a) ->
  retx_repr (retx_queue_new capacity) [] /\ retx_cap (retx_queue_new capacity) = capacity.
Proof. intros Hc Ha. destruct (rb_repr_new (T := rlc_retx_queue_item) true capacity) as [? ?]; [done|done|]. split; [split; [done|exact I]|done]. Qed.

Lemma retx_repr_empty q l : retx_repr q l -> retx_empty q = match l with [] => true | _ => false end.
Proof. intros [Hr _]. apply (rb_repr_empty _ _ Hr). Qed.

Lemma front_valid_head l : front_valid l -> match l with [] => valid_retx l = [] | x :: _ => exists t, valid_retx l = it_retx x :: t end.
Proof. destruct l as [|x l]; [done|]. intros H. unfold valid_retx. rewrite filter_cons, decide_True by exact H. by eexists. Qed.

Lemma front_valid_nil l : front_valid l -> valid_retx l = [] -> l = [].
Proof. intros H E. destruct l as [|x l]; [done|]. apply (front_valid_head (x :: l)) in H as [t H]. by rewrite H in E. Qed.

Lemma retx_empty_valid q l : retx_repr q l -> retx_empty q = match valid_retx l with [] => true | _ => false end.
Proof.
  intros Hr. rewrite (retx_repr_empty _ _ Hr). destruct Hr as [_ Hf]. destruct l as [|x l]; [done|].
  by destruct (front_valid_head _ Hf) as [t ->].
Qed.

Lemma retx_try_push_spec r q l :
  retx_repr q l ->
  let room := Z.of_nat (length l) <? retx_cap q in
  exists q', retx_try_push r q = Some (room, q') /\ retx_repr q' (if room then l ++ [RetxItem false r] else l) /\
    retx_cap q' = retx_cap q /\ rq_st q' = if room then retx_state_add r (rq_st q) else rq_st q.
Proof.
  intros [Hr Hf] room. unfold retx_try_push. destruct (rb_try_push_spec (RetxItem false r) _ _ Hr) as (rb & -> & Hr' & Hm).
  cbn [mbind option_bind]. eexists. split; [reflexivity|]. split; [|done]. split; [done|]. unfold retx_cap in room. fold room.
  destruct room; [|done]. by destruct l.
Qed.

Lemma retx_front_spec q l : retx_repr q l -> retx_front q = head (valid_retx l).
Proof.
  intros [Hr Hf]. unfold retx_front. rewrite (rb_repr_empty _ _ Hr), (rb_top_spec _ _ Hr).
  destruct l as [|x l]; [done|]. cbn [head mbind option_bind]. destruct (front_valid_head _ Hf) as [t Ht]. cbn in Hf. rewrite Hf, Ht. done.
Qed.

Lemma clean_loop_spec l : forall fuel rb,
  rb_repr rb l -> (length l <= fuel)%nat ->
  exists rb' l', clean_loop fuel rb = Some rb' /\ rb_repr rb' l' /\ front_valid l' /\ valid_retx l' = valid_retx l /\
    rb_max_size rb' = rb_max_size rb /\ l' `suffix_of` l.
Proof.
  induction l as [|x l IH]; intros fuel rb Hr Hf; destruct fuel as [|fuel]; cbn [clean_loop length] in *; try lia;
    rewrite (rb_repr_empty _ _ Hr); try by exists rb, [].
  rewrite (rb_top_spec _ _ Hr). cbn [head mbind option_bind]. destruct (it_invalid x) eqn:Hx.
  - destruct (rb_pop_spec _ _ _ Hr) as (rb1 & -> & Hr1 & Hm1). cbn [mbind option_bind].
    destruct (IH fuel rb1 Hr1) as (rb' & l' & -> & Hr' & Hf' & Hv & Hm' & Hs); [lia|]. exists rb', l'. split; [done|]. split; [done|].
    split; [done|]. split; [|split; [congruence|by apply suffix_cons_r]]. rewrite Hv. unfold valid_retx at 2.
    by rewrite filter_cons, decide_False by congruence.
  - by exists rb, (x :: l).
Qed.

Lemma retx_pop_spec q l :
  retx_repr q l ->
  exists q' l', retx_pop q = Some q' /\ retx_repr q' l' /\ valid_retx l' = tail (valid_retx l) /\ retx_cap q' = retx_cap q /\
    (l <> [] -> (length l' < length l)%nat) /\
    rq_st q' = match valid_retx l with [] => rq_st q | r :: _ => retx_state_subtract r (rq_st q) end.
Proof.
  intros [Hr Hf]. unfold retx_pop. rewrite (rb_repr_empty _ _ Hr). destruct l as [|x l]; [by exists q, []|].
  rewrite (rb_top_spec _ _ Hr). cbn [head mbind option_bind]. destruct (rb_pop_spec _ _ _ Hr) as (rb1 & -> & Hr1 & Hm1).
  cbn [mbind option_bind]. unfold clean_invalid_front. cbn [rq_queue rq_st]. destruct (rb_repr_size _ _ Hr1) as [Hsz _].
  destruct (clean_loop_spec l (Z.to_nat (rb_size rb1)) rb1 Hr1) as (rb2 & l2 & -> & Hr2 & Hf2 & Hv & Hm2 & Hs); [lia|].
  cbn [mbind option_bind]. eexists _, l2. split; [reflexivity|]. split; [done|].
  destruct (front_valid_head _ Hf) as [t Ht]. rewrite Ht.
  assert (Et : t = valid_retx l).
  { unfold valid_retx in *. rewrite filter_cons, decide_True in Ht by exact Hf. cbn in Ht. congruence. }
  split; [by rewrite Hv, Et|]. split; [unfold retx_cap; cbn; congruence|]. split; [|done]. intros _. apply suffix_length in Hs. cbn. lia.
Qed.

Lemma retx_replace_front_spec r q x l :
  retx_repr q (x :: l) ->
  exists q', retx_replace_front r q = Some q' /\ retx_repr q' (RetxItem false r :: l) /\ retx_cap q' = retx_cap q /\
    rq_st q' = retx_state_add r (retx_state_subtract (it_retx x) (rq_st q)).
Proof.
  intros [Hr Hf]. unfold retx_replace_front. rewrite (rb_repr_empty _ _ Hr), (rb_top_spec _ _ Hr). cbn [head mbind option_bind].
  cbn in Hf. rewrite Hf. destruct (rb_set_top_spec (RetxItem false r) _ _ _ Hr) as (rb & -> & Hr' & Hm). cbn [mbind option_bind].
  by eexists.
Qed.

Lemma retx_apply_first q l (P : rlc_tx_amd_retx -> bool) :
  rb_repr (rq_queue q) l ->
  rb_apply_first (fun elem => negb (it_invalid elem) && P (it_retx elem)) (rq_queue q) = Some (existsb P (valid_retx l)).
Proof.
  intros Hr. unfold rb_apply_first. rewrite (rb_elements_spec _ _ Hr). cbn [mbind option_bind]. f_equal. clear Hr. unfold valid_retx.
  induction l as [|x l IH]; [done|]. cbn [existsb]. rewrite filter_cons, IH. destruct (it_invalid x); case_decide; done.
Qed.

Lemma retx_has_sn_spec sn q l : retx_repr q l -> retx_has_sn sn q = Some (existsb (fun r => r_sn r =? sn) (valid_retx l)).
Proof.
  intros [Hr Hf]. unfold retx_has_sn. rewrite (rb_repr_empty _ _ Hr).
  destruct l as [|x l]; [done|]. by apply (retx_apply_first q _ (fun r => r_sn r =? sn)).
Qed.

Lemma retx_has_segment_spec sn so len q l :
  retx_repr q l ->
  retx_has_segment sn so len q = Some (existsb (fun r => (r_sn r =? sn) && includes r so len) (valid_retx l)).
Proof.
  intros [Hr Hf]. unfold retx_has_segment. rewrite (rb_repr_empty _ _ Hr). destruct l as [|x l]; [done|].
  rewrite <- (retx_apply_first q _ _ Hr). unfold rb_apply_first. rewrite (rb_elements_spec _ _ Hr). cbn [mbind option_bind].
  f_equal. generalize (x :: l). clear. induction l as [|y l IH]; [done|]. cbn [existsb]. rewrite IH. by rewrite andb_assoc.
Qed.

(** Marking the elements of a SN. *)
Definition mark_sn (sn : Z) (x : rlc_retx_queue_item) : rlc_retx_queue_item :=
  if negb (it_invalid x) && (r_sn (it_retx x) =? sn) then RetxItem true (it_retx x) else x.

Lemma mark_sn_twice sn x : negb (it_invalid (mark_sn sn x)) && (r_sn (it_retx (mark_sn sn x)) =? sn) = false.
Proof. unfold mark_sn. destruct (negb (it_invalid x) && (r_sn (it_retx x) =? sn)) eqn:E; [done|exact E]. Qed.

Lemma valid_retx_cons x l : valid_retx (x :: l) = (if it_invalid x then [] else [it_retx x]) ++ valid_retx l.
Proof. unfold valid_retx. rewrite filter_cons. by destruct (it_invalid x); case_decide. Qed.

Lemma valid_mark sn l : valid_retx (mark_sn sn <$> l) = filter (fun r => r_sn r <> sn) (valid_retx l).
Proof.
  induction l as [|x l IH]; [done|]. rewrite fmap_cons, !valid_retx_cons, filter_app, IH. f_equal.
  destruct x as [[] r]; [done|]. unfold mark_sn. cbn [it_invalid it_retx negb andb].
  destruct (Z.eqb_spec (r_sn r) sn); cbn [it_invalid it_retx]; rewrite filter_cons; case_decide; done || tauto.
Qed.

Definition subtract_all (l : list rlc_tx_amd_retx) (st : rlc_retx_queue_state) : rlc_retx_queue_state :=
  foldl (fun st r => retx_state_subtract r st) st l.
Definition of_sn (sn : Z) (l : list rlc_tx_amd_retx) : list rlc_tx_amd_retx := filter (fun r => r_sn r = sn) l.

Lemma of_sn_cons sn x l :
  of_sn sn (valid_retx (x :: l)) =
  (if negb (it_invalid x) && (r_sn (it_retx x) =? sn) then [it_retx x] else []) ++ of_sn sn (valid_retx l).
Proof.
  rewrite valid_retx_cons. unfold of_sn. rewrite filter_app. f_equal. destruct (it_invalid x); [done|]. cbn [negb andb].
  rewrite filter_cons. destruct (Z.eqb_spec (r_sn (it_retx x)) sn); case_decide; done.
Qed.

Lemma remove_sn_loop_step fuel sn iter result q :
  remove_sn_loop (S fuel) sn iter result q =
  if iter =? rb_size (rq_queue q) then Some (result, q) else
  elem ← rb_get (rq_queue q) iter;
  if negb (it_invalid elem) && (r_sn (it_retx elem) =? sn) then
    rb ← rb_set iter (RetxItem true (it_retx elem)) (rq_queue q);
    remove_sn_loop fuel sn iter true (RetxQueue rb (retx_state_subtract (it_retx elem) (rq_st q)))
  else remove_sn_loop fuel sn (iter + 1) result q.
Proof. reflexivity. Qed.

Lemma remove_sn_loop_spec sn k : forall fuel (i : nat) q l result,
  rb_repr (rq_queue q) l -> (i + k = length l)%nat -> (2 * k <= fuel)%nat ->
  exists q', remove_sn_loop fuel sn (Z.of_nat i) result q = Some (result || negb (bool_decide (of_sn sn (valid_retx (drop i l)) = [])), q') /\
    rb_repr (rq_queue q') (take i l ++ (mark_sn sn <$> drop i l)) /\ retx_cap q' = retx_cap q /\
    rq_st q' = subtract_all (of_sn sn (valid_retx (drop i l))) (rq_st q).
Proof.
  induction k as [|k IH]; intros fuel i q l result Hr Hi Hfuel; destruct (rb_repr_size _ _ Hr) as [Hsz _].
  { exists q. rewrite drop_ge, take_ge by lia. cbn. rewrite orb_false_r, app_nil_r.
    destruct fuel; cbn [remove_sn_loop]; by rewrite Hsz, (proj2 (Z.eqb_eq _ _)) by lia. }
  destruct (lookup_lt_is_Some_2 l i) as [x Hx]; [lia|]. rewrite (drop_S l x i Hx), of_sn_cons.
  assert (Hget : forall q1 l1 y, rb_repr (rq_queue q1) l1 -> l1 !! i = Some y -> rb_get (rq_queue q1) (Z.of_nat i) = Some y).
  { intros q1 l1 y Hr1 Hy. by rewrite (rb_get_spec _ _ _ Hr1), Nat2Z.id by lia. }
  assert (Hround : forall f q1 l1 y res, rb_repr (rq_queue q1) l1 -> length l1 = length l -> l1 !! i = Some y ->
    negb (it_invalid y) && (r_sn (it_retx y) =? sn) = false ->
    remove_sn_loop (S f) sn (Z.of_nat i) res q1 = remove_sn_loop f sn (Z.of_nat (S i)) res q1).
  { intros f q1 l1 y res Hr1 Hl1 Hy Hno. rewrite remove_sn_loop_step. destruct (rb_repr_size _ _ Hr1) as [-> _].
    rewrite (proj2 (Z.eqb_neq _ _)) by lia. rewrite (Hget _ _ _ Hr1 Hy). cbn [mbind option_bind]. rewrite Hno. f_equal. lia. }
  destruct (negb (it_invalid x) && (r_sn (it_retx x) =? sn)) eqn:Hm.
  - destruct fuel as [|[|fuel]]; [lia|lia|]. rewrite remove_sn_loop_step, Hsz, (proj2 (Z.eqb_neq _ _)) by lia.
    rewrite (Hget _ _ _ Hr Hx). cbn [mbind option_bind]. rewrite Hm.
    destruct (rb_set_spec (Z.of_nat i) (RetxItem true (it_retx x)) _ _ Hr) as (rb & -> & Hr1 & Hm1); [lia|]. cbn [mbind option_bind].
    rewrite Nat2Z.id in Hr1. set (q1 := RetxQueue rb _). set (l1 := <[i:=_]> l) in *.
    assert (Hl1 : length l1 = length l) by apply length_insert.
    assert (Hy : l1 !! i = Some (RetxItem true (it_retx x))) by (apply list_lookup_insert_eq; lia).
    rewrite (Hround fuel q1 l1 _ true Hr1 Hl1 Hy) by done.
    destruct (IH fuel (S i) q1 l1 true Hr1) as (q' & -> & Hr' & Hc' & Hst'); [lia|lia|].
    assert (Edrop : drop (S i) l1 = drop (S i) l) by (unfold l1; by rewrite drop_insert_lt by lia).
    rewrite Edrop in *. exists q'. split; [by rewrite orb_true_r|]. split; [|split; [rewrite Hc'; exact Hm1|exact Hst']].
    rewrite fmap_cons. unfold mark_sn at 1. rewrite Hm. rewrite (take_S_r l1 i _ Hy), <- app_assoc in Hr'. cbn [app] in Hr'.
    unfold l1 in Hr' at 1. rewrite take_insert_ge in Hr' by lia. exact Hr'.
  - destruct fuel as [|fuel]; [lia|]. rewrite (Hround fuel q l x result Hr eq_refl Hx Hm).
    destruct (IH fuel (S i) q l result Hr) as (q' & -> & Hr' & Hc' & Hst'); [lia|lia|].
    exists q'. split; [done|]. split; [|done]. rewrite fmap_cons. unfold mark_sn at 1. rewrite Hm.
    by rewrite (take_S_r l i _ Hx), <- app_assoc in Hr'.
Qed.

Lemma retx_remove_sn_spec sn q l :
  retx_repr q l ->
  exists q' l', retx_remove_sn sn q = Some (negb (bool_decide (of_sn sn (valid_retx l) = [])), q') /\ retx_repr q' l' /\
    valid_retx l' = filter (fun r => r_sn r <> sn) (valid_retx l) /\ retx_cap q' = retx_cap q /\
    rq_st q' = subtract_all (of_sn sn (valid_retx l)) (rq_st q).
Proof.
  intros [Hr Hf]. unfold retx_remove_sn. rewrite (rb_repr_empty _ _ Hr). destruct (rb_repr_size _ _ Hr) as [Hsz _].
  destruct l as [|x l]; [by exists q, []|]. set (l0 := x :: l) in *.
  destruct (remove_sn_loop_spec sn (length l0) (2 * Z.to_nat (rb_size (rq_queue q))) 0 q l0 false Hr) as (q1 & E1 & Hr1 & Hc1 & Hst1); [lia|lia|].
  change (Z.of_nat 0) with 0 in E1. cbn [drop take app orb] in *. rewrite E1. cbn [mbind option_bind]. unfold clean_invalid_front.
  destruct (rb_repr_size _ _ Hr1) as [Hsz1 _].
  destruct (clean_loop_spec _ (Z.to_nat (rb_size (rq_queue q1))) _ Hr1) as (rb2 & l2 & -> & Hr2 & Hf2 & Hv & Hm2 & _); [lia|].
  cbn [mbind option_bind]. eexists _, l2. split; [reflexivity|]. split; [done|].
  split; [rewrite Hv; apply valid_mark|]. split; [unfold retx_cap in *; cbn; congruence|done].
Qed.

(** ** The counters *)
Lemma retx_sum_app l1 l2 : retx_sum (l1 ++ l2) = retx_sum l1 + retx_sum l2.
Proof. induction l1 as [|r l1 IH]; [done|]. cbn. unfold retx_sum in *. lia. Qed.

Lemma retx_count_app z l1 l2 : retx_count z (l1 ++ l2) = retx_count z l1 + retx_count z l2.
Proof. unfold retx_count. rewrite filter_app, length_app. lia. Qed.

Lemma retx_count_cons z r l : retx_count z (r :: l) = (if Bool.eqb (r_so r =? 0) z then 1 else 0) + retx_count z l.
Proof. unfold retx_count. rewrite filter_cons. destruct (Bool.eqb (r_so r =? 0) z); case_decide; (done || cbn [length]; lia). Qed.

Lemma retx_totals_perm l1 l2 : l1 ≡ₚ l2 -> retx_totals l1 = retx_totals l2.
Proof.
  intros H. unfold retx_totals. assert (Hs : retx_sum l1 = retx_sum l2) by (induction H; cbn; unfold retx_sum in *; lia).
  assert (Hc : forall z, retx_count z l1 = retx_count z l2) by (intros z; unfold retx_count; by rewrite H).
  by rewrite Hs, !Hc.
Qed.

Lemma retx_count_bounds z l : 0 <= retx_count z l <= Z.of_nat (length l).
Proof. unfold retx_count. pose proof (length_filter (fun r => Bool.eqb (r_so r =? 0) z = true) l). lia. Qed.

Lemma retx_totals_add r l :
  0 <= retx_sum l -> 0 <= r_length r -> retx_sum l + r_length r < 2 ^ 32 -> Z.of_nat (length l) + 1 < 2 ^ 32 ->
  retx_state_add r (retx_totals l) = retx_totals (l ++ [r]).
Proof.
  intros H0 Hr Hs Hl. pose proof (retx_count_bounds true l). pose proof (retx_count_bounds false l).
  unfold retx_state_add, retx_totals. cbn [retx_bytes n_retx_so_zero n_retx_so_nonzero].
  rewrite retx_sum_app, !retx_count_app, !retx_count_cons, !u32_eq. cbn [retx_sum foldr].
  change (retx_count true []) with 0. change (retx_count false []) with 0.
  destruct (r_so r =? 0); cbn [Bool.eqb]; f_equal; lia.
Qed.

Lemma retx_totals_subtract r l :
  0 <= r_length r -> 0 <= retx_sum l -> retx_state_subtract r (retx_totals (r :: l)) = retx_totals l.
Proof.
  intros Hr Hs. pose proof (retx_count_bounds true l). pose proof (retx_count_bounds false l).
  unfold retx_state_subtract, retx_totals. cbn [retx_bytes n_retx_so_zero n_retx_so_nonzero].
  rewrite !retx_count_cons. change (retx_sum (r :: l)) with (r_length r + retx_sum l).
  rewrite (proj2 (Z.leb_le _ _)) by lia. destruct (r_so r =? 0); cbn [Bool.eqb];
    rewrite (proj2 (Z.ltb_lt _ _)) by lia; f_equal; lia.
Qed.

Definition lengths_ok (l : list rlc_tx_amd_retx) : Prop := Forall (fun r => 0 <= r_length r) l.

Lemma retx_sum_nonneg l : lengths_ok l -> 0 <= retx_sum l.
Proof. intros H. induction H as [|r l Hr _ IH]; cbn; [lia|]. unfold retx_sum in *. lia. Qed.

Lemma retx_totals_subtract_all l1 : forall l2,
  lengths_ok (l1 ++ l2) -> subtract_all l1 (retx_totals (l1 ++ l2)) = retx_totals l2.
Proof.
  induction l1 as [|r l1 IH]; intros l2 Hl; [done|]. apply Forall_cons in Hl as [Hr Hl]. cbn [subtract_all foldl app].
  rewrite retx_totals_subtract by (done || by apply retx_sum_nonneg). by apply IH.
Qed.

Lemma retx_totals_remove sn l :
  lengths_ok l -> subtract_all (of_sn sn l) (retx_totals l) = retx_totals (filter (fun r => r_sn r <> sn) l).
Proof.
  intros Hl. assert (Hp : l ≡ₚ of_sn sn l ++ filter (fun r => r_sn r <> sn) l).
  { unfold of_sn. clear Hl. induction l as [|r l IH]; [done|]. rewrite !filter_cons. destruct (decide (r_sn r = sn)).
    - rewrite decide_False by tauto. cbn [app]. by constructor.
    - rewrite decide_True by done. rewrite <- Permutation_middle. by constructor. }
  rewrite (retx_totals_perm _ _ Hp). apply retx_totals_subtract_all. unfold lengths_ok. by rewrite <- Hp.
Qed.

(** ** Programs over the queue

    As its callers do, they look at the front only when the queue is not empty. *)
Inductive retx_op :=
| RqPush (r : rlc_tx_amd_retx) | RqPop | RqFront | RqReplace (r : rlc_tx_amd_retx) | RqClear | RqEmpty | RqState
| RqHas (sn : Z) | RqHasSegment (sn so length : Z) | RqRemove (sn : Z).
Inductive retx_out := RqUnit | RqBool (b : bool) | RqRetx (r : rlc_tx_amd_retx) | RqTotals (st : rlc_retx_queue_state).

Definition retx_step (op : retx_op) q : option (retx_out * rlc_retx_queue) :=
  match op with
  | RqPush r => '(ok, q) ← retx_try_push r q; Some (RqBool ok, q)
  | RqPop => q ← retx_pop q; Some (RqUnit, q)
  | RqFront => if retx_empty q then Some (RqUnit, q) else r ← retx_front q; Some (RqRetx r, q)
  | RqReplace r => if retx_empty q then Some (RqUnit, q) else q ← retx_replace_front r q; Some (RqUnit, q)
  | RqClear => Some (RqUnit, retx_clear q)
  | RqEmpty => Some (RqBool (retx_empty q), q)
  | RqState => Some (RqTotals (rq_st q), q)
  | RqHas sn => b ← retx_has_sn sn q; Some (RqBool b, q)
  | RqHasSegment sn so len => b ← retx_has_segment sn so len q; Some (RqBool b, q)
  | RqRemove sn => '(b, q) ← retx_remove_sn sn q; Some (RqBool b, q)
  end.

Fixpoint retx_run (ops : list retx_op) q : option (list retx_out * rlc_retx_queue) :=
  match ops with
  | [] => Some ([], q)
  | op :: ops => '(o, q) ← retx_step op q; '(os, q) ← retx_run ops q; Some (o :: os, q)
  end.

(** What an operation may answer when the valid elements are [l], and the valid elements afterwards. A push fails only when
    the ring buffer is full, which it may be with fewer than [cap] valid elements. *)
Definition retx_allowed (cap : Z) (op : retx_op) (l : list rlc_tx_amd_retx) (o : retx_out) (l' : list rlc_tx_amd_retx) : Prop :=
  match op with
  | RqPush r => (o = RqBool true /\ l' = l ++ [r] /\ Z.of_nat (length l) < cap) \/ (o = RqBool false /\ l' = l)
  | RqPop => o = RqUnit /\ l' = tail l
  | RqFront => o = match l with [] => RqUnit | r :: _ => RqRetx r end /\ l' = l
  | RqReplace r => o = RqUnit /\ l' = match l with [] => [] | _ :: l => r :: l end
  | RqClear => o = RqUnit /\ l' = []
  | RqEmpty => o = RqBool (match l with [] => true | _ => false end) /\ l' = l
  | RqState => o = RqTotals (retx_totals l) /\ l' = l
  | RqHas sn => o = RqBool (existsb (fun r => r_sn r =? sn) l) /\ l' = l
  | RqHasSegment sn so len => o = RqBool (existsb (fun r => (r_sn r =? sn) && includes r so len) l) /\ l' = l
  | RqRemove sn => o = RqBool (existsb (fun r => r_sn r =? sn) l) /\ l' = filter (fun r => r_sn r <> sn) l
  end.

Inductive retx_allowed_run (cap : Z) : list retx_op -> list rlc_tx_amd_retx -> list retx_out -> Prop :=
| retx_allowed_nil l : retx_allowed_run cap [] l []
| retx_allowed_cons op ops l o l' os :
    retx_allowed cap op l o l' -> retx_allowed_run cap ops l' os -> retx_allowed_run cap (op :: ops) l (o :: os).

Definition pushed (op : retx_op) : list rlc_tx_amd_retx := match op with RqPush r | RqReplace r => [r] | _ => [] end.

Definition retx_exact q (l : list rlc_retx_queue_item) : Prop :=
  retx_repr q l /\ rq_st q = retx_totals (valid_retx l) /\ lengths_ok (valid_retx l).

Lemma existsb_of_sn sn l : existsb (fun r => r_sn r =? sn) l = negb (bool_decide (of_sn sn l = [])).
Proof.
  unfold of_sn. induction l as [|r l IH]; [done|]. cbn [existsb]. rewrite filter_cons, IH.
  destruct (Z.eqb_spec (r_sn r) sn); case_decide; done.
Qed.

Lemma retx_step_exact op q l bound :
  retx_exact q l -> lengths_ok (pushed op) -> retx_sum (valid_retx l) + retx_sum (pushed op) <= bound < 2 ^ 32 ->
  retx_cap q < 2 ^ 31 ->
  exists o q' l', retx_step op q = Some (o, q') /\ retx_exact q' l' /\ retx_cap q' = retx_cap q /\
    retx_allowed (retx_cap q) op (valid_retx l) o (valid_retx l') /\
    retx_sum (valid_retx l') <= retx_sum (valid_retx l) + retx_sum (pushed op).
Proof.
  intros (Hr & Hst & Hl) Hp Hb Hcap. pose proof (retx_sum_nonneg _ Hl) as Hnn.
  assert (Hlen : Z.of_nat (length (valid_retx l)) <= Z.of_nat (length l) <= retx_cap q).
  { unfold valid_retx. rewrite length_fmap. pose proof (length_filter (fun x => it_invalid x = false) l).
    destruct (rb_repr_size _ _ (proj1 Hr)) as [_ H1]. unfold retx_cap. lia. }
  destruct op as [r| | |r| | | |sn|sn so len|sn]; cbn [retx_step pushed] in *.
  - destruct (retx_try_push_spec r q l Hr) as (q' & -> & Hr' & Hc' & Hst'). cbn [mbind option_bind]. apply Forall_cons in Hp as [Hpr _].
    cbn [retx_sum foldr] in Hb. destruct (Z.ltb_spec (Z.of_nat (length l)) (retx_cap q)).
    + assert (Ev : valid_retx (l ++ [RetxItem false r]) = valid_retx l ++ [r]) by (unfold valid_retx; by rewrite filter_app, fmap_app).
      eexists _, q', _. split; [reflexivity|]. split; [split; [exact Hr'|]|].
      * rewrite Ev, Hst', Hst. split; [apply retx_totals_add; (done || lia)|]. apply Forall_app_2; [done|by constructor].
      * split; [done|]. rewrite Ev. split; [left; split; [done|]; split; [done|lia]|]. rewrite retx_sum_app. done.
    + eexists _, q', l. split; [reflexivity|]. split; [split; [done|by rewrite Hst']|]. split; [done|]. split; [by right|]. cbn. lia.
  - destruct (retx_pop_spec q l Hr) as (q' & l' & -> & Hr' & Hv & Hc' & _ & Hst'). cbn [mbind option_bind].
    eexists _, q', l'. split; [reflexivity|]. rewrite Hst in Hst'. unfold retx_exact. rewrite Hv.
    destruct (valid_retx l) as [|r t]; cbn [tail]; [repeat (split; [done|]); cbn; lia|]. apply Forall_cons in Hl as [Hlr Hlt].
    rewrite retx_totals_subtract in Hst' by (done || by apply retx_sum_nonneg). repeat (split; [done|]).
    change (retx_sum (r :: t)) with (r_length r + retx_sum t). cbn. lia.
  - rewrite (retx_front_spec _ _ Hr), (retx_empty_valid _ _ Hr). unfold retx_exact.
    destruct (valid_retx l) as [|r t] eqn:Ev; eexists _, q, l; (split; [reflexivity|]); rewrite Ev; repeat (split; [done|]); cbn; lia.
  - rewrite (retx_repr_empty _ _ Hr). apply Forall_cons in Hp as [Hpr _].
    destruct l as [|x l]; [eexists _, q, []; repeat (split; [done|]); cbn in *; lia|]. destruct (retx_replace_front_spec r q x l Hr) as (q' & -> & Hr' & Hc' & Hst'). cbn [mbind option_bind].
    destruct (front_valid_head _ (proj2 Hr)) as [t Ht].
    assert (Et : t = valid_retx l) by (rewrite valid_retx_cons in Ht; destruct Hr as [_ Hf]; cbn in Hf; rewrite Hf in Ht; cbn in Ht; congruence).
    rewrite Ht, Et in *. apply Forall_cons in Hl as [Hlx Hlt]. cbn [retx_sum foldr] in Hb, Hnn. fold (retx_sum (valid_retx l)) in *.
    eexists _, q', _. split; [reflexivity|].
    assert (Ev : valid_retx (RetxItem false r :: l) = r :: valid_retx l) by by rewrite valid_retx_cons.
    split; [|rewrite Ev; split; [done|]; split; [done|]; cbn [retx_sum foldr]; fold (retx_sum (valid_retx l)); lia].
    split; [done|]. rewrite Ev. split; [|by constructor]. rewrite Hst', Hst, retx_totals_subtract by (done || by apply retx_sum_nonneg).
    rewrite retx_totals_add; [|by apply retx_sum_nonneg|done|lia|cbn [length] in Hlen; lia].
    apply retx_totals_perm. by rewrite Permutation_app_comm.
  - eexists _, (retx_clear q), []. split; [reflexivity|]. destruct (rb_clear_spec _ _ (proj1 Hr)) as [Hr' Hc'].
    split; [split; [done|by split; [|constructor]]|]. split; [done|]. split; [done|]. cbn. lia.
  - eexists _, q, l. split; [reflexivity|]. split; [done|]. split; [done|]. split; [by rewrite (retx_empty_valid _ _ Hr)|]. cbn. lia.
  - eexists _, q, l. split; [reflexivity|]. split; [done|]. split; [done|]. split; [by rewrite Hst|]. cbn. lia.
  - rewrite (retx_has_sn_spec _ _ _ Hr). eexists _, q, l. split; [reflexivity|]. repeat (split; [done|]). cbn. lia.
  - rewrite (retx_has_segment_spec _ _ _ _ _ Hr). eexists _, q, l. split; [reflexivity|]. repeat (split; [done|]). cbn. lia.
  - destruct (retx_remove_sn_spec sn q l Hr) as (q' & l' & -> & Hr' & Hv & Hc' & Hst'). cbn [mbind option_bind].
    eexists _, q', l'. split; [reflexivity|]. rewrite Hst, retx_totals_remove in Hst' by done.
    unfold retx_exact. rewrite Hv. split; [split; [done|]; split; [done|]|].
    + apply Forall_forall. intros r [_ Hin]%list_elem_of_filter. unfold lengths_ok in Hl. rewrite Forall_forall in Hl. by apply Hl.
    + split; [done|]. split; [cbn [retx_allowed]; by rewrite existsb_of_sn|]. cbn [retx_sum foldr]. clear -Hl. induction Hl as [|r l0 Hr _ IH]; [done|].
      rewrite filter_cons. case_decide; cbn [retx_sum foldr] in *; unfold retx_sum in *; lia.
Qed.

(** The retransmission queue is a list: on a new queue every sequence of operations runs without a failed assertion and
    answers as the list of the valid elements does, also after elements were removed from the middle, and its state is
    always the exact number of bytes and of small and large headers of that list, as long as the lengths pushed stay below
    2^32 in total. *)
Theorem retx_queue_exact capacity ops :
  0 < capacity < 2 ^ 31 -> (exists a, 0 <= a /\ capacity = 2 ^ a) ->
  Forall (fun op => lengths_ok (pushed op)) ops -> retx_sum (ops ≫= pushed) < 2 ^ 32 ->
  exists os q', retx_run ops (retx_queue_new capacity) = Some (os, q') /\ retx_allowed_run capacity ops [] os.
Proof.
  intros Hc Ha Hops Hsum. destruct (retx_repr_new capacity Hc Ha) as [Hr Hcap].
  assert (Hex : retx_exact (retx_queue_new capacity) []) by (split; [done|by split; [|constructor]]).
  revert Hex Hcap. assert (Hb : retx_sum (valid_retx []) + retx_sum (ops ≫= pushed) < 2 ^ 32) by exact Hsum. revert Hb.
  change (@nil rlc_tx_amd_retx) with (valid_retx []) at 1. generalize (@nil rlc_retx_queue_item) as l.
  generalize (retx_queue_new capacity) as q. clear Hr Hsum.
  induction Hops as [|op ops Hop Hops IH]; intros q l Hb Hex Hcap; [exists [], q; split; [done|constructor]|].
  rewrite bind_cons, retx_sum_app in Hb. assert (Hps : 0 <= retx_sum (ops ≫= pushed)).
  { apply retx_sum_nonneg. clear -Hops. induction Hops as [|op ops Hop _ IH]; [constructor|]. rewrite bind_cons. by apply Forall_app_2. }
  destruct (retx_step_exact op q l (2 ^ 32 - 1) Hex Hop) as (o & q1 & l1 & E1 & Hex1 & Hc1 & Hal & Hs1); [lia|lia|].
  destruct (IH q1 l1) as (os & q' & E & Hrun); [lia|done|congruence|].
  exists (o :: os), q'. cbn [retx_run]. rewrite E1. cbn [mbind option_bind]. rewrite E. split; [done|].
  rewrite Hcap in Hal. by eapply retx_allowed_cons.
Qed.

Definition retx_example : list retx_op :=
  [RqPush (Retx 1 0 10); RqPush (Retx 2 5 7); RqPush (Retx 2 20 4); RqPush (Retx 3 0 9); RqRemove 2; RqState; RqPop; RqFront;
   RqReplace (Retx 3 4 5); RqState].

Lemma retx_queue_exact_witness :
  exists os q', retx_run retx_example (retx_queue_new 4) = Some (os, q') /\ retx_allowed_run 4 retx_example [] os /\
    os !! 5%nat = Some (RqTotals (RetxState 19 2 0)) /\ os !! 9%nat = Some (RqTotals (RetxState 5 0 1)).
Proof.
  destruct (retx_queue_exact 4 retx_example) as (os & q' & E & Hrun).
  - lia.
  - exists 2. lia.
  - repeat constructor; vm_compute; congruence.
  - reflexivity.
  - exists os, q'. split; [exact E|]. split; [exact Hrun|]. vm_compute in E. by injection E as <- <-.
Defined.
