(* ===== verification/SduWindowCount.v ===== *)
(** * How many SDUs a window holds ([full], [empty], [size] of [include/ocudu/support/segmented_sdu_window.h])

    A second interface, for the transmitting side: a window that is not full has a residue modulo its capacity that no
    sequence number uses, so that a run of consecutive sequence numbers can be extended without evicting one of them. *)
From S2P Require Import Prelude SegmentedCircularMap SduWindow.

Class SduWindowCount (T W : Type) := {
  win_full : W -> bool;
  win_empty : W -> bool
}.

Class SduWindowCountLaws (T W : Type) `{SduWindowLaws T W} `{!SduWindowCount T W} := {
  win_cap_pos : forall w, win_inv w -> 0 < win_cap w;
  win_full_spec : forall w, win_inv w ->
    win_full w = true <-> forall r, 0 <= r < win_cap w -> exists k, 0 <= k /\ k mod win_cap w = r /\ is_Some (win_lookup w k);
  win_empty_spec : forall w, win_inv w -> win_empty w = true <-> forall k, 0 <= k -> win_lookup w k = None
}.

(** A window that is not full has a free residue. *)
Lemma win_free_residue `{SduWindowCountLaws T W} w :
  win_inv w -> win_full w = false ->
  ~ (forall r, 0 <= r < win_cap w -> exists k, 0 <= k /\ k mod win_cap w = r /\ is_Some (win_lookup w k)).
Proof. intros Hw Hf Hall. apply (win_full_spec w Hw) in Hall. congruence. Qed.

Section map_count.
Context {V : Type}.
Implicit Types (m : segmented_circular_map V) (en : segment_entry V).

(** The slots of a map in one list. *)
Definition entry_slots (sz : Z) en : list (slot V) := default (replicate (Z.to_nat sz) None) (en_segment en).
Definition all_slots m : list (slot V) := entries m ≫= entry_slots (seg_size m).

Lemma entry_slots_length sz en : entry_inv sz en -> length (entry_slots sz en) = Z.to_nat sz.
Proof. unfold entry_inv, entry_slots. destruct (en_segment en); cbn; [by intros [? _]|by rewrite length_replicate]. Qed.

Lemma occupied_fresh n : occupied (replicate n (@None (Z * V))) = O.
Proof. induction n as [|n IH]; [done|exact IH]. Qed.

Lemma occupied_app (l1 l2 : list (slot V)) : occupied (l1 ++ l2) = (occupied l1 + occupied l2)%nat.
Proof. apply sum_list_with_app. Qed.

Lemma entry_slots_count sz en : entry_inv sz en -> occupied (entry_slots sz en) = Z.to_nat (en_count en).
Proof.
  unfold entry_inv, entry_slots. destruct (en_segment en); cbn [default]; [intros (_ & -> & _); by rewrite Nat2Z.id|].
  intros ->. apply occupied_fresh.
Qed.

Lemma slots_lookup sz (l : list (segment_entry V)) (p s : nat) :
  Forall (entry_inv sz) l -> 0 < sz -> (s < Z.to_nat sz)%nat ->
  mjoin ((l ≫= entry_slots sz) !! (p * Z.to_nat sz + s)%nat) = (en ← l !! p; seg ← en_segment en; mjoin (seg !! s)).
Proof.
  intros Hl Hsz Hs. revert p. induction Hl as [|en l Hen Hl IH]; intros p; [done|]. rewrite bind_cons.
  pose proof (entry_slots_length sz en Hen) as Hlen. destruct p as [|p].
  - rewrite Nat.mul_0_l, Nat.add_0_l, lookup_app_l by lia. cbn. unfold entry_slots. destruct (en_segment en); [done|]. cbn.
    by rewrite lookup_replicate_2 by lia.
  - rewrite lookup_app_r by lia. cbn [lookup list_lookup].
    replace (S p * Z.to_nat sz + s - length (entry_slots sz en))%nat with (p * Z.to_nat sz + s)%nat by (rewrite Hlen; cbn; lia). apply IH.
Qed.

Lemma slots_occupied sz (l : list (segment_entry V)) :
  Forall (entry_inv sz) l -> occupied (l ≫= entry_slots sz) = sum_list_with (fun en => Z.to_nat (en_count en)) l.
Proof.
  intros Hl. induction Hl as [|en l Hen Hl IH]; [done|]. rewrite bind_cons, occupied_app. cbn [sum_list_with].
  by rewrite IH, (entry_slots_count sz).
Qed.

Lemma slots_length sz (l : list (segment_entry V)) :
  Forall (entry_inv sz) l -> length (l ≫= entry_slots sz) = (length l * Z.to_nat sz)%nat.
Proof.
  intros Hl. induction Hl as [|en l Hen Hl IH]; [done|]. rewrite bind_cons, length_app, IH, (entry_slots_length sz) by done. cbn. lia.
Qed.

(** Slot [i] holds the key with residue [i], and the slots from [map_size] on are never used. *)
Lemma all_slots_spec m : map_inv m ->
  map_size m <= Z.of_nat (length (all_slots m)) /\ elem_count m = Z.of_nat (occupied (all_slots m)) /\
  (forall i : nat, Z.of_nat i < map_size m ->
    mjoin (all_slots m !! i) = slot_at m (Z.to_nat (Z.of_nat i / seg_size m)) (Z.to_nat (Z.of_nat i mod seg_size m))) /\
  (forall i : nat, map_size m <= Z.of_nat i -> mjoin (all_slots m !! i) = None).
Proof.
  intros ((a & b & Ha & Hb & Ea & Eb & _) & Hlen & Hall & Hcnt & Hkeys).
  assert (0 < map_size m) by (rewrite Ea; apply Z.pow_pos_nonneg; lia).
  assert (0 < seg_size m) by (rewrite Eb; apply Z.pow_pos_nonneg; lia).
  assert (Hslot : forall i : nat, mjoin (all_slots m !! i) = slot_at m (Z.to_nat (Z.of_nat i / seg_size m)) (Z.to_nat (Z.of_nat i mod seg_size m))).
  { intros i. pose proof (Z.mod_pos_bound (Z.of_nat i) (seg_size m)). pose proof (Z.div_pos (Z.of_nat i) (seg_size m)).
    unfold slot_at. rewrite <- (slots_lookup (seg_size m)) by (done || lia). unfold all_slots. do 2 f_equal.
    pose proof (Z.div_mod (Z.of_nat i) (seg_size m)). rewrite <- Z2Nat.inj_mul, <- Z2Nat.inj_add by lia. lia. }
  split; [|split; [|split]].
  - unfold all_slots. rewrite slots_length, Hlen by done. rewrite Nat2Z.inj_mul, !Z2Nat.id by (try apply Z.div_pos; lia).
    pose proof (Z.div_mod (map_size m + seg_size m - 1) (seg_size m)).
    pose proof (Z.mod_pos_bound (map_size m + seg_size m - 1) (seg_size m)). lia.
  - unfold all_slots. by rewrite slots_occupied.
  - intros i _. apply Hslot.
  - intros i Hi. rewrite Hslot. destruct (slot_at _ _ _) as [[k v]|] eqn:E; [|done]. exfalso. apply Hkeys in E as [Hk E].
    unfold pos in E. injection E as E1 E2. pose proof (Z.mod_pos_bound k (map_size m)) as Hb1.
    pose proof (Z.div_pos (k mod map_size m) (seg_size m)). pose proof (Z.mod_pos_bound (k mod map_size m) (seg_size m)).
    pose proof (Z.mod_pos_bound (Z.of_nat i) (seg_size m)). pose proof (Z.div_pos (Z.of_nat i) (seg_size m)).
    apply Z2Nat.inj in E1; [|lia|lia]. apply Z2Nat.inj in E2; [|lia|lia].
    pose proof (Z.div_mod (k mod map_size m) (seg_size m)). pose proof (Z.div_mod (Z.of_nat i) (seg_size m)). rewrite E1, E2 in *. lia.
Qed.

(** The slot of a residue is occupied when a key with this residue is stored. *)
Lemma slot_residue m (i : nat) : map_inv m -> Z.of_nat i < map_size m ->
  is_Some (mjoin (all_slots m !! i)) <-> exists k, 0 <= k /\ k mod map_size m = Z.of_nat i /\ is_Some (lookup_key m k).
Proof.
  intros Hm Hi. pose proof Hm as ((a & b & Ha & Hb & Ea & Eb & _) & _ & _ & _ & Hkeys).
  destruct (all_slots_spec m Hm) as (_ & _ & Hslot & _). rewrite (Hslot i Hi).
  assert (0 < map_size m) by (rewrite Ea; apply Z.pow_pos_nonneg; lia).
  assert (0 < seg_size m) by (rewrite Eb; apply Z.pow_pos_nonneg; lia). split.
  - intros [[k v] E]. pose proof E as E0. apply Hkeys in E as [Hk E]. exists k. split; [done|]. split.
    + unfold pos in E. injection E as E1 E2. pose proof (Z.mod_pos_bound k (map_size m)).
      pose proof (Z.div_pos (k mod map_size m) (seg_size m)). pose proof (Z.mod_pos_bound (k mod map_size m) (seg_size m)).
      pose proof (Z.mod_pos_bound (Z.of_nat i) (seg_size m)). pose proof (Z.div_pos (Z.of_nat i) (seg_size m)).
      apply Z2Nat.inj in E1; [|lia|lia]. apply Z2Nat.inj in E2; [|lia|lia].
      pose proof (Z.div_mod (k mod map_size m) (seg_size m)). pose proof (Z.div_mod (Z.of_nat i) (seg_size m)). rewrite E1, E2 in *. lia.
    + unfold lookup_key. rewrite E. cbn [fst snd]. rewrite E0, Z.eqb_refl. by eexists.
  - intros (k & Hk & Er & Hl). unfold lookup_key, pos in Hl. cbn [fst snd] in Hl. rewrite Er in Hl.
    destruct (slot_at _ _ _) as [[k' v]|]; [by eexists|by destruct Hl].
Qed.

Lemma occupied_zero (l : list (slot V)) : occupied l = O <-> forall i, mjoin (l !! i) = None.
Proof.
  induction l as [|x l IH]; [done|]. unfold occupied in *. cbn [sum_list_with]. split.
  - intros E [|i]; [cbn; destruct x; [cbn in E; lia|done]|]. apply IH. lia.
  - intros Hl. assert (sum_list_with slot_count l = 0)%nat as -> by (apply IH; intros i; apply (Hl (S i))).
    specialize (Hl O). cbn in Hl. by rewrite Hl.
Qed.

Lemma occupied_le (l : list (slot V)) : (occupied l <= length l)%nat.
Proof. unfold occupied. induction l as [|x l IH]; cbn [sum_list_with length]; [lia|]. destruct x; cbn [slot_count]; lia. Qed.

Lemma occupied_full (l : list (slot V)) : occupied l = length l <-> forall i, (i < length l)%nat -> is_Some (mjoin (l !! i)).
Proof.
  induction l as [|x l IH]; [split; [intros _ i Hi; cbn in Hi; lia|done]|]. pose proof (occupied_le l) as Hle.
  unfold occupied in *. cbn [sum_list_with length]. split.
  - intros E. destruct x as [x|]; cbn [slot_count] in E; [|lia]. intros [|i] Hi; [by eexists|]. apply IH; lia.
  - intros Hl. assert (sum_list_with slot_count l = length l) as -> by (apply IH; intros i Hi; apply (Hl (S i)); lia).
    destruct (Hl O ltac:(lia)) as [y Hy]. cbn in Hy. subst. done.
Qed.

Lemma map_full_spec m : map_inv m ->
  full m = true <-> forall r, 0 <= r < map_size m -> exists k, 0 <= k /\ k mod map_size m = r /\ is_Some (lookup_key m k).
Proof.
  intros Hm. destruct (all_slots_spec m Hm) as (Hlen & Hcnt & Hslot & Hrest). pose proof Hm as ((a & b & Ha & Hb & Ea & _) & _).
  assert (0 < map_size m) by (rewrite Ea; apply Z.pow_pos_nonneg; lia).
  set (n := Z.to_nat (map_size m)). assert (Hn : Z.of_nat n = map_size m) by (unfold n; lia).
  assert (Htake : forall i, (i < n)%nat -> take n (all_slots m) !! i = all_slots m !! i) by (intros; by apply lookup_take_lt).
  assert (Ht : length (take n (all_slots m)) = n) by (rewrite length_take; lia).
  assert (Ec : elem_count m = Z.of_nat (occupied (take n (all_slots m)))).
  { rewrite Hcnt. rewrite <- (take_drop n (all_slots m)) at 1. rewrite occupied_app.
    assert (occupied (drop n (all_slots m)) = 0%nat) as ->; [|lia]. apply occupied_zero. intros i. rewrite lookup_drop. apply Hrest. lia. }
  pose proof (occupied_full (take n (all_slots m))) as Hfull. rewrite Ht in Hfull.
  unfold full. rewrite Z.eqb_eq, Ec, <- Hn, Nat2Z.inj_iff, Hfull. rewrite Hn. split.
  - intros Hall r Hr. specialize (Hall (Z.to_nat r) ltac:(lia)). rewrite Htake in Hall by lia.
    apply slot_residue in Hall; [|done|lia]. by rewrite Z2Nat.id in Hall by lia.
  - intros Hall i Hi. rewrite Htake by done. apply slot_residue; [done|lia|]. apply Hall. lia.
Qed.

Lemma map_empty_spec m : map_inv m -> empty m = true <-> forall k, 0 <= k -> lookup_key m k = None.
Proof.
  intros Hm. destruct (all_slots_spec m Hm) as (Hlen & Hcnt & Hslot & Hrest). pose proof Hm as ((a & b & Ha & Hb & Ea & _) & _).
  assert (0 < map_size m) by (rewrite Ea; apply Z.pow_pos_nonneg; lia).
  unfold empty. rewrite Z.eqb_eq, Hcnt. rewrite (Nat2Z.inj_iff _ 0), occupied_zero. split.
  - intros Hall k Hk. destruct (lookup_key m k) eqn:E; [|done]. exfalso. pose proof (Z.mod_pos_bound k (map_size m)).
    assert (Hs : is_Some (mjoin (all_slots m !! Z.to_nat (k mod map_size m)))).
    { apply slot_residue; [done|lia|]. exists k. rewrite E, Z2Nat.id by lia. by repeat split. }
    rewrite Hall in Hs. by destruct Hs.
  - intros Hall i. destruct (decide (Z.of_nat i < map_size m)) as [Hi|Hi]; [|apply Hrest; lia].
    destruct (mjoin (all_slots m !! i)) eqn:E; [|done]. exfalso. destruct (proj1 (slot_residue m i Hm Hi)) as (k & Hk & _ & Hl); [by rewrite E|].
    rewrite Hall in Hl by done. by destruct Hl.
Qed.
End map_count.

#[export] Instance segmented_count {T} : SduWindowCount T (segmented_sdu_window T) := {
  win_full := window_full;
  win_empty w := empty (window w)
}.

Lemma segmented_cap_pos {T} (w : segmented_sdu_window T) : map_inv (window w) -> 0 < map_size (window w).
Proof. intros ((a & b & Ha & _ & -> & _) & _). by apply Z.pow_pos_nonneg. Qed.

#[export] Instance segmented_count_laws {T} (init : T) :
  @SduWindowCountLaws T (segmented_sdu_window T) (segmented_window init) init (segmented_window_laws init) segmented_count.
Proof.
  split; cbn [win_inv win_cap win_lookup segmented_window_laws win_full win_empty segmented_count].
  - apply segmented_cap_pos.
  - intros w Hw. by apply map_full_spec.
  - intros w Hw. by apply map_empty_spec.
Qed.
