(* ===== verification/RlcTxAm.v ===== *)
(** * The transmitting side of an RLC AM entity ([lib/rlc/rlc_tx_am_entity.h] and [.cpp], [lib/rlc/rlc_pdu_recycler.h])

    The window of transmitted SDUs and the receiving side's status report are used through their interfaces ([SduWindow],
    [StatusProvider]). A failed assertion, an access to an SDU that is not in the window and a loop that exceeds its fuel
    are [None]. Timers are flags that tell whether they run. *)
From S2P Require Import Prelude ByteCursor RlcConfig RlcAmPdu RlcAmStatusPdu PdcpSn SduQueue SduWindow SduWindowCount.
From S2P Require Import RlcRetxQueue RlcTxBase.

(** [rlc_rx_am_status_provider] ([lib/rlc/rlc_am_interconnect.h]): [get_status_pdu] returns a reference, through which the
    transmitter trims the report ([sp_write]); [timer] tells whether the provider's executor accepts the task that starts
    t-StatusProhibit. *)
Class StatusProvider (P : Type) := {
  sp_get : bool -> P -> rlc_am_status_pdu * P;
  sp_write : rlc_am_status_pdu -> P -> P;
  sp_length : P -> Z;
  sp_required : P -> bool
}.

(** [rlc_tx_am_config], and the bearer's [rb_id.is_srb()] *)
Record rlc_tx_am_config := AmTxCfg {
  ac_sn_size : rlc_am_sn_size;
  ac_pdcp_sn_len : pdcp_sn_size;
  ac_t_poll_retx : Z;
  ac_max_retx_thresh : Z;
  ac_poll_pdu : Z;
  ac_poll_byte : Z;
  ac_queue_size_bytes : Z;
  ac_max_window : Z;
  ac_is_srb : bool
}.

(** [rlc_tx_am_sdu_info], without the times that only the metrics use *)
Record rlc_tx_am_sdu_info := TxInfo {
  xi_sdu : list Z;
  xi_is_retx : bool;
  xi_pdcp_sn : option Z;
  xi_toa : Z;
  xi_next_so : Z;
  xi_retx_count : Z
}.
Definition rlc_tx_am_sdu_info_init : rlc_tx_am_sdu_info := TxInfo [] false None 0 0 RETX_COUNT_NOT_STARTED.
Definition xi_length (i : rlc_tx_am_sdu_info) : Z := buf_length (xi_sdu i).
Definition xi_set_next_so (n : Z) (i : rlc_tx_am_sdu_info) : rlc_tx_am_sdu_info :=
  TxInfo (xi_sdu i) (xi_is_retx i) (xi_pdcp_sn i) (xi_toa i) n (xi_retx_count i).
Definition xi_set_retx_count (n : Z) (i : rlc_tx_am_sdu_info) : rlc_tx_am_sdu_info :=
  TxInfo (xi_sdu i) (xi_is_retx i) (xi_pdcp_sn i) (xi_toa i) (xi_next_so i) n.

(** [rlc_tx_am_state] *)
Record rlc_tx_am_state := AmTxSt {
  tx_next_ack : Z;
  tx_next : Z;
  poll_sn : Z;
  pdu_without_poll : Z;
  byte_without_poll : Z
}.
Definition st_set_tx_next (n : Z) (s : rlc_tx_am_state) : rlc_tx_am_state :=
  AmTxSt (tx_next_ack s) n (poll_sn s) (pdu_without_poll s) (byte_without_poll s).
Definition st_set_tx_next_ack (n : Z) (s : rlc_tx_am_state) : rlc_tx_am_state :=
  AmTxSt n (tx_next s) (poll_sn s) (pdu_without_poll s) (byte_without_poll s).
Definition st_set_poll (sn pdus bytes : Z) (s : rlc_tx_am_state) : rlc_tx_am_state :=
  AmTxSt (tx_next_ack s) (tx_next s) sn pdus bytes.

Section entity.
Context {W : Type} `{SduWindow rlc_tx_am_sdu_info W} `{!SduWindowCount rlc_tx_am_sdu_info W}.
Context {P : Type} `{StatusProvider P}.

(** [rlc_tx_am_entity] *)
Record rlc_tx_am_entity := AmTx {
  at_cfg : rlc_tx_am_config;
  at_st : rlc_tx_am_state;
  at_queue : rlc_sdu_queue_lockfree;
  at_sn_under_segmentation : Z;
  at_retx_queue : rlc_retx_queue;
  at_retx_sn : Z;
  at_window : W;
  at_recycle_bin : list (list Z);
  at_poll_timer : bool;
  at_prev_bs : rlc_buffer_state;
  at_suspend_bs_notif_barring : bool;
  at_pending_buffer_state : bool;
  at_stopped_upper : bool;
  at_stopped_lower : bool;
  at_max_retx_reached : bool
}.

Implicit Types (e : rlc_tx_am_entity) (p : P).

Definition at_set_st (s : rlc_tx_am_state) e : rlc_tx_am_entity :=
  AmTx (at_cfg e) s (at_queue e) (at_sn_under_segmentation e) (at_retx_queue e) (at_retx_sn e) (at_window e)
    (at_recycle_bin e) (at_poll_timer e) (at_prev_bs e) (at_suspend_bs_notif_barring e) (at_pending_buffer_state e)
    (at_stopped_upper e) (at_stopped_lower e) (at_max_retx_reached e).
Definition at_set_queue (q : rlc_sdu_queue_lockfree) e : rlc_tx_am_entity :=
  AmTx (at_cfg e) (at_st e) q (at_sn_under_segmentation e) (at_retx_queue e) (at_retx_sn e) (at_window e)
    (at_recycle_bin e) (at_poll_timer e) (at_prev_bs e) (at_suspend_bs_notif_barring e) (at_pending_buffer_state e)
    (at_stopped_upper e) (at_stopped_lower e) (at_max_retx_reached e).
Definition at_set_under_segmentation (sn : Z) e : rlc_tx_am_entity :=
  AmTx (at_cfg e) (at_st e) (at_queue e) sn (at_retx_queue e) (at_retx_sn e) (at_window e)
    (at_recycle_bin e) (at_poll_timer e) (at_prev_bs e) (at_suspend_bs_notif_barring e) (at_pending_buffer_state e)
    (at_stopped_upper e) (at_stopped_lower e) (at_max_retx_reached e).
Definition at_set_retx (q : rlc_retx_queue) (sn : Z) e : rlc_tx_am_entity :=
  AmTx (at_cfg e) (at_st e) (at_queue e) (at_sn_under_segmentation e) q sn (at_window e)
    (at_recycle_bin e) (at_poll_timer e) (at_prev_bs e) (at_suspend_bs_notif_barring e) (at_pending_buffer_state e)
    (at_stopped_upper e) (at_stopped_lower e) (at_max_retx_reached e).
Definition at_set_window (w : W) e : rlc_tx_am_entity :=
  AmTx (at_cfg e) (at_st e) (at_queue e) (at_sn_under_segmentation e) (at_retx_queue e) (at_retx_sn e) w
    (at_recycle_bin e) (at_poll_timer e) (at_prev_bs e) (at_suspend_bs_notif_barring e) (at_pending_buffer_state e)
    (at_stopped_upper e) (at_stopped_lower e) (at_max_retx_reached e).
Definition at_set_bin (b : list (list Z)) e : rlc_tx_am_entity :=
  AmTx (at_cfg e) (at_st e) (at_queue e) (at_sn_under_segmentation e) (at_retx_queue e) (at_retx_sn e) (at_window e)
    b (at_poll_timer e) (at_prev_bs e) (at_suspend_bs_notif_barring e) (at_pending_buffer_state e)
    (at_stopped_upper e) (at_stopped_lower e) (at_max_retx_reached e).
Definition at_set_timer (b : bool) e : rlc_tx_am_entity :=
  AmTx (at_cfg e) (at_st e) (at_queue e) (at_sn_under_segmentation e) (at_retx_queue e) (at_retx_sn e) (at_window e)
    (at_recycle_bin e) b (at_prev_bs e) (at_suspend_bs_notif_barring e) (at_pending_buffer_state e)
    (at_stopped_upper e) (at_stopped_lower e) (at_max_retx_reached e).
Definition at_set_bs (bs : rlc_buffer_state) (suspend pending : bool) e : rlc_tx_am_entity :=
  AmTx (at_cfg e) (at_st e) (at_queue e) (at_sn_under_segmentation e) (at_retx_queue e) (at_retx_sn e) (at_window e)
    (at_recycle_bin e) (at_poll_timer e) bs suspend pending (at_stopped_upper e) (at_stopped_lower e)
    (at_max_retx_reached e).
Definition at_set_stopped (upper lower : bool) e : rlc_tx_am_entity :=
  AmTx (at_cfg e) (at_st e) (at_queue e) (at_sn_under_segmentation e) (at_retx_queue e) (at_retx_sn e) (at_window e)
    (at_recycle_bin e) (at_poll_timer e) (at_prev_bs e) (at_suspend_bs_notif_barring e) (at_pending_buffer_state e)
    upper lower (at_max_retx_reached e).
Definition at_set_max_retx (b : bool) e : rlc_tx_am_entity :=
  AmTx (at_cfg e) (at_st e) (at_queue e) (at_sn_under_segmentation e) (at_retx_queue e) (at_retx_sn e) (at_window e)
    (at_recycle_bin e) (at_poll_timer e) (at_prev_bs e) (at_suspend_bs_notif_barring e) (at_pending_buffer_state e)
    (at_stopped_upper e) (at_stopped_lower e) b.

(** The constructor, with its assertion on the PDCP SN length; the window is created by the caller's pool. *)
Definition am_tx_new (cfg : rlc_tx_am_config) (queue_size : Z) (w : W) : option rlc_tx_am_entity :=
  match ac_pdcp_sn_len cfg with
  | pdcp_size_invalid => None
  | _ => Some (AmTx cfg (AmTxSt 0 0 0 0 0) (sdu_queue_new queue_size (ac_queue_size_bytes cfg)) INVALID_RLC_SN
                 (retx_queue_new (window_size (am_sn_to_number (ac_sn_size cfg)))) INVALID_RLC_SN w [] false
                 rlc_buffer_state_init true false false false false)
  end.

Definition at_mod e : Z := cardinality (am_sn_to_number (ac_sn_size (at_cfg e))).
Definition at_window_size e : Z := window_size (am_sn_to_number (ac_sn_size (at_cfg e))).
Definition at_fuel e : nat := Z.to_nat (at_mod e).
Definition tx_mod_base e (x : Z) : Z := u32 (x - tx_next_ack (at_st e)) mod at_mod e.
Definition head_min_size e : Z := rlc_am_pdu_header_min_size (ac_sn_size (at_cfg e)).
Definition head_max_size e : Z := rlc_am_pdu_header_max_size (ac_sn_size (at_cfg e)).

(** [inside_tx_window], [is_tx_window_full], [valid_ack_sn] *)
Definition inside_tx_window e (sn : Z) : bool := tx_mod_base e sn <? at_window_size e.
Definition is_tx_window_full e : bool :=
  win_full (at_window e) ||
  (negb (ac_max_window (at_cfg e) =? 0) && (ac_max_window (at_cfg e) <? tx_mod_base e (tx_next (at_st e)))).
Definition tx_valid_ack_sn e (sn : Z) : bool := (0 <? tx_mod_base e sn) && (tx_mod_base e sn <=? at_window_size e).

(** [valid_nack], with the protocol failures it reports *)
Definition valid_nack e (ack_sn : Z) (nack : rlc_am_status_nack) : bool * list tx_event :=
  let last_sn := u32 (nack_sn nack + nack_range nack - 1) in
  if tx_mod_base e ack_sn <=? tx_mod_base e (nack_sn nack) then (false, []) else
  if has_nack_range nack && (tx_mod_base e ack_sn <=? tx_mod_base e last_sn) then (false, []) else
  if negb (inside_tx_window e (nack_sn nack)) then (false, []) else
  if has_nack_range nack && negb (inside_tx_window e last_sn) then (false, []) else
  if tx_mod_base e (tx_next (at_st e)) <? tx_mod_base e (nack_sn nack) then (false, [DeferProtocolFailure]) else
  if has_nack_range nack && (tx_mod_base e (tx_next (at_st e)) <? tx_mod_base e last_sn)
  then (false, [DeferProtocolFailure]) else (true, []).

(** Nothing left to send, except what awaits an acknowledgement. *)
Definition buffers_empty e : bool :=
  is_empty (at_queue e) && retx_empty (at_retx_queue e) && (at_sn_under_segmentation e =? INVALID_RLC_SN).

(** [get_polling_bit] *)
Definition get_polling_bit (sn : Z) (is_retx : bool) (payload_size : Z) e : Z * rlc_tx_am_entity :=
  let cfg := at_cfg e in
  let s := at_st e in
  let pdus := if is_retx then pdu_without_poll s else u32 (pdu_without_poll s + 1) in
  let bytes := if is_retx then byte_without_poll s else u32 (byte_without_poll s + payload_size) in
  let e := at_set_st (st_set_poll (poll_sn s) pdus bytes s) e in
  let due := negb is_retx && ((0 <? ac_poll_pdu cfg) && (u32 (ac_poll_pdu cfg) <=? pdus)
                              || (0 <? ac_poll_byte cfg) && (u32 (ac_poll_byte cfg) <=? bytes)) in
  if due || buffers_empty e || is_tx_window_full e then
    let e := at_set_st (st_set_poll (if is_retx then poll_sn s else sn) 0 0 (at_st e)) e in
    (1, if (0 <? ac_t_poll_retx cfg) && negb (at_stopped_lower e) then at_set_timer true e else e)
  else (0, e).

(** ** Building PDUs

    What remains of a grant is the second component: the MAC buffer after the call. *)
Definition data_header e (poll : Z) (si : rlc_si_field) (sn so : Z) : rlc_am_pdu_header :=
  AmHdr dc_data poll si (ac_sn_size (at_cfg e)) sn (u16 so).

(** [build_first_sdu_segment], for the SDU [i] at TX_Next *)
Definition build_first_sdu_segment (buf : list Z) (i : rlc_tx_am_sdu_info) e
  : option (Z * list Z * rlc_tx_am_entity * list tx_event) :=
  let grant_len := buf_length buf in
  if xi_length i + head_min_size e <=? grant_len then Some (0, buf, e, []) else
  if grant_len <=? head_min_size e then Some (0, buf, e, []) else
  let segment_payload_len := u32 (grant_len - head_min_size e) in
  let sn := tx_next (at_st e) in
  let e := at_set_under_segmentation sn e in
  let '(poll, e) := get_polling_bit sn false segment_payload_len e in
  '(header_len, buf) ← rlc_am_write_data_pdu_header buf (data_header e poll first_segment sn (xi_next_so i));
  if header_len =? 0 then Some (0, buf, e, []) else
  payload ← buffer_view (xi_sdu i) (u16 (xi_next_so i)) segment_payload_len;
  let '(payload_len, buf) := copy_segments payload buf header_len in
  if (payload_len =? 0) || negb (payload_len =? segment_payload_len) then Some (0, buf, e, []) else
  w ← win_put (at_window e) sn (xi_set_next_so (u32 (xi_next_so i + segment_payload_len)) i);
  let pdu_len := header_len + payload_len in
  Some (pdu_len, buf, at_set_window w e, [AddTxPdus true 1 pdu_len]).

(** [build_continued_sdu_segment], for the SDU [i] at the SN under segmentation *)
Definition build_continued_sdu_segment (buf : list Z) (i : rlc_tx_am_sdu_info) e
  : option (Z * list Z * rlc_tx_am_entity * list tx_event) :=
  let grant_len := buf_length buf in
  let sn := at_sn_under_segmentation e in
  if xi_next_so i =? 0 then Some (0, buf, at_set_under_segmentation INVALID_RLC_SN e, []) else
  if xi_length i <=? xi_next_so i then Some (0, buf, at_set_under_segmentation INVALID_RLC_SN e, []) else
  if grant_len <=? head_max_size e then Some (0, buf, e, []) else
  let rest := u32 (xi_length i - xi_next_so i) in
  let last := rest + head_max_size e <=? grant_len in
  let segment_payload_len := if last then rest else u32 (grant_len - head_max_size e) in
  let si := if last then last_segment else middle_segment in
  let e := if last then at_set_under_segmentation INVALID_RLC_SN e else e in
  let '(poll, e) := get_polling_bit (tx_next (at_st e)) false segment_payload_len e in
  '(header_len, buf) ← rlc_am_write_data_pdu_header buf (data_header e poll si (tx_next (at_st e)) (xi_next_so i));
  if header_len =? 0 then Some (0, buf, e, []) else
  payload ← buffer_view (xi_sdu i) (u16 (xi_next_so i)) segment_payload_len;
  let '(payload_len, buf) := copy_segments payload buf header_len in
  if (payload_len =? 0) || negb (payload_len =? segment_payload_len) then Some (0, buf, e, []) else
  w ← win_put (at_window e) sn (xi_set_next_so (u32 (xi_next_so i + segment_payload_len)) i);
  let e := at_set_window w e in
  let e := if last then at_set_st (st_set_tx_next (u32 (tx_next (at_st e) + 1) mod at_mod e) (at_st e)) e else e in
  let pdu_len := header_len + payload_len in
  Some (pdu_len, buf, e, [AddTxPdus true 1 pdu_len]).

(** A PDU with the whole SDU [i] at TX_Next. [payload_size] is what is counted for the poll bit. *)
Definition build_full_sdu (buf : list Z) (payload_size : Z) (i : rlc_tx_am_sdu_info) e
  : option (Z * list Z * rlc_tx_am_entity * list tx_event) :=
  let sn := tx_next (at_st e) in
  let '(poll, e) := get_polling_bit sn false payload_size e in
  '(header_len, buf) ← rlc_am_write_data_pdu_header buf (data_header e poll full_sdu sn 0);
  if header_len =? 0 then Some (0, buf, e, []) else
  let '(payload_len, buf) := copy_segments (xi_sdu i) buf header_len in
  if payload_len =? 0 then Some (0, buf, e, []) else
  let pdu_len := header_len + payload_len in
  let e := at_set_st (st_set_tx_next (u32 (tx_next (at_st e) + 1) mod at_mod e) (at_st e)) e in
  Some (pdu_len, buf, e, [AddTxPdus false 1 pdu_len]).

(** [build_new_pdu]. When the poll bit of a full SDU is computed, the buffer of [sdu] has been moved into the window, so the
    payload size that is counted is the length of a moved-from buffer, 0. *)
Definition build_new_pdu (buf : list Z) e : option (Z * list Z * rlc_tx_am_entity * list tx_event) :=
  let grant_len := buf_length buf in
  let sn := tx_next (at_st e) in
  if grant_len <=? head_min_size e then Some (0, buf, e, []) else
  if is_tx_window_full e then Some (0, buf, e, []) else
  '(added, w) ← add_sn (at_window e) sn;
  let e := at_set_window w e in
  if negb (added : bool) then Some (0, buf, e, []) else
  '(ok, sdu, q) ← sdu_queue_read rlc_sdu_init (at_queue e);
  let e := at_set_queue q e in
  if negb (ok : bool) then w ← remove_sn (at_window e) sn; Some (0, buf, at_set_window w e, []) else
  i ← win_get (at_window e) sn;
  let i := TxInfo (sdu_buf sdu) (sdu_is_retx sdu) (sdu_pdcp_sn sdu) (sdu_toa sdu) (xi_next_so i) (xi_retx_count i) in
  w ← win_put (at_window e) sn i;
  let e := at_set_window w e in
  let ev := match sdu_pdcp_sn sdu with
            | Some pdcp_sn => if sdu_is_retx sdu then [OnRetransmittedSdu pdcp_sn]
                              else [OnTransmittedSdu pdcp_sn (ac_queue_size_bytes (at_cfg e))]
            | None => []
            end in
  '(n, buf, e, ev') ← (if grant_len <? xi_length i + head_min_size e then build_first_sdu_segment buf i e
                       else build_full_sdu buf 0 i e);
  Some (n, buf, e, ev ++ ev').

(** Dropping the retransmissions at the front of the queue whose SN is not in the window *)
Fixpoint drop_stale_retx (fuel : nat) (w : W) (q : rlc_retx_queue) : option rlc_retx_queue :=
  if retx_empty q then Some q else
  retx ← retx_front q;
  if has_sn w (r_sn retx) then Some q else
  match fuel with O => None | S fuel => q ← retx_pop q; drop_stale_retx fuel w q end.

Definition get_retx_expected_hdr_len (retx : rlc_tx_amd_retx) e : Z :=
  if r_so retx =? 0 then head_min_size e else head_max_size e.

(** The part of [build_retx_pdu] that writes the PDU *)
Definition write_retx_pdu (buf : list Z) (retx : rlc_tx_amd_retx) (i : rlc_tx_am_sdu_info) (retx_payload_len : Z) e
  : option (Z * list Z * rlc_tx_am_entity * list tx_event) :=
  let sdu_complete := xi_length i <=? r_so retx + retx_payload_len in
  let si := if r_so retx =? 0 then if sdu_complete then full_sdu else first_segment
            else if sdu_complete then last_segment else middle_segment in
  let expected_hdr_len := get_retx_expected_hdr_len retx e in
  let '(poll, e) := get_polling_bit (r_sn retx) true 0 e in
  '(header_len, buf) ← rlc_am_write_data_pdu_header buf (data_header e poll si (r_sn retx) (r_so retx));
  if header_len =? 0 then Some (0, buf, e, []) else
  if negb (header_len =? expected_hdr_len) then None else
  payload ← buffer_view (xi_sdu i) (u16 (r_so retx)) retx_payload_len;
  let '(payload_len, buf) := copy_segments payload buf header_len in
  if (payload_len =? 0) || negb (payload_len =? retx_payload_len) then Some (0, buf, e, []) else
  let pdu_len := header_len + payload_len in
  Some (pdu_len, buf, e, [AddRetxPdus 1 pdu_len]).

(** [build_retx_pdu] *)
Definition build_retx_pdu (buf : list Z) e : option (Z * list Z * rlc_tx_am_entity * list tx_event) :=
  let grant_len := buf_length buf in
  q ← drop_stale_retx (Z.to_nat (retx_size (at_retx_queue e))) (at_window e) (at_retx_queue e);
  if retx_empty q then Some (0, buf, at_set_retx q (at_retx_sn e) e, []) else
  retx ← retx_front q;
  let e := at_set_retx q (r_sn retx) e in
  i ← win_get (at_window e) (r_sn retx);
  if xi_length i <? u32 (r_so retx + r_length retx) then
    q ← retx_pop q; Some (0, buf, at_set_retx q (r_sn retx) e, [])
  else if grant_len <=? get_retx_expected_hdr_len retx e then Some (0, buf, e, []) else
  let retx_payload_len := Z.min (r_length retx) (grant_len - get_retx_expected_hdr_len retx e) in
  e ← (if retx_payload_len =? r_length retx then
         let e := if xi_retx_count i =? ac_max_retx_thresh (at_cfg e) then at_set_max_retx true e else e in
         q ← retx_pop q; Some (at_set_retx q (r_sn retx) e)
       else
         q ← retx_replace_front (Retx (r_sn retx) (u32 (r_so retx + retx_payload_len)) (u32 (r_length retx - retx_payload_len))) q;
         Some (at_set_retx q (r_sn retx) e));
  write_retx_pdu buf retx i retx_payload_len e.

(** The status PDU of [pull_pdu] *)
Definition build_status_pdu (buf : list Z) (timer : bool) p e
  : option (Z * list Z * P * rlc_tx_am_entity * list tx_event) :=
  let grant_len := buf_length buf in
  if grant_len <? rlc_am_nr_status_pdu_sizeof_header_ack_sn then Some (0, buf, p, e, []) else
  let '(status_pdu, p) := sp_get timer p in
  let '(fits, status_pdu) := (if grant_len <? packed_size status_pdu then trim (u32 grant_len) status_pdu else (true, status_pdu)) in
  let p := sp_write status_pdu p in
  if negb (fits : bool) then Some (0, buf, p, e, []) else
  '(pdu_len, buf) ← pack status_pdu buf;
  if pdu_len =? 0 then Some (0, buf, p, e, []) else
  Some (pdu_len, buf, p, e, [AddCtrlPdus 1 pdu_len]).

(** [pull_pdu] once no status PDU is to be sent *)
Definition pull_data_pdu (buf : list Z) e : option (Z * list Z * rlc_tx_am_entity * list tx_event) :=
  if negb (retx_empty (at_retx_queue e)) then build_retx_pdu buf e else
  let sn := at_sn_under_segmentation e in
  if negb (sn =? INVALID_RLC_SN) && has_sn (at_window e) sn then
    i ← win_get (at_window e) sn;
    build_continued_sdu_segment buf i e
  else
    let e := at_set_under_segmentation INVALID_RLC_SN e in
    if is_empty (at_queue e) then Some (0, buf, e, []) else build_new_pdu buf e.

(** [pull_pdu]: the returned size, the MAC buffer afterwards, the provider, the entity and the events *)
Definition am_pull_pdu (buf : list Z) (timer : bool) p e
  : option (Z * list Z * P * rlc_tx_am_entity * list tx_event) :=
  if at_max_retx_reached e then Some (0, buf, p, e, []) else
  if sp_required p then build_status_pdu buf timer p e else
  '(n, buf, e, ev) ← pull_data_pdu buf e;
  Some (n, buf, p, e, ev).
End entity.

Arguments rlc_tx_am_entity W : clear implicits.
