(* ===== verification/RlcTxAmStatus.v ===== *)
(** * Status reports, buffer states and SDUs at the AM transmitter (the rest of [lib/rlc/rlc_tx_am_entity.cpp])

    The handler of status reports, with its loops: acknowledged SDUs leave the window, the retransmission queue is rebuilt
    from the NACKs. The buffer state reported to the MAC, the expiry of t-PollRetransmit, [handle_sdu] and [discard_sdu], and
    the inputs of an entity. Every loop over sequence numbers has the SN modulus as its fuel. *)
From S2P Require Import Prelude ByteCursor RlcConfig RlcAmPdu RlcAmStatusPdu PdcpSn SduQueue SduWindow SduWindowCount.
From S2P Require Import RlcRetxQueue RlcTxBase RlcTxAm.

Section entity.
Context {W : Type} `{SduWindow rlc_tx_am_sdu_info W} `{!SduWindowCount rlc_tx_am_sdu_info W}.
Context {P : Type} `{StatusProvider P}.
Implicit Types (e : rlc_tx_am_entity W) (p : P).

(** ** Retransmission counters *)

(** [increment_retx_count], [check_sn_reached_max_retx], [decrement_retx_count] *)
Definition check_sn_reached_max_retx (sn : Z) e : option (list tx_event) :=
  i ← win_get (at_window e) sn;
  Some (if xi_retx_count i =? ac_max_retx_thresh (at_cfg e) then [OnMaxRetx] else []).

Definition increment_retx_count (sn : Z) e : option (rlc_tx_am_entity W * list tx_event) :=
  i ← win_get (at_window e) sn;
  let count := if xi_retx_count i =? RETX_COUNT_NOT_STARTED then 0 else u32 (xi_retx_count i + 1) in
  w ← win_put (at_window e) sn (xi_set_retx_count count i);
  let e := at_set_window w e in
  ev ← check_sn_reached_max_retx sn e;
  Some (e, ev).

Definition decrement_retx_count (sn : Z) e : option (rlc_tx_am_entity W) :=
  i ← win_get (at_window e) sn;
  if xi_retx_count i =? RETX_COUNT_NOT_STARTED then Some e else
  let count := if xi_retx_count i =? 0 then RETX_COUNT_NOT_STARTED else xi_retx_count i - 1 in
  w ← win_put (at_window e) sn (xi_set_retx_count count i);
  Some (at_set_window w e).

(** ** NACKs *)

(** The end of a NACK for the SDU [i], once a NACK without offsets covers the whole SDU: [None] when the NACK is ignored *)
Definition nack_end (i : rlc_tx_am_sdu_info) (sn so_start so_end : Z) e : option Z :=
  if so_end =? so_end_of_sdu then
    if negb (sn =? at_sn_under_segmentation e) then Some (u16 (xi_length i - 1)) else
    if xi_next_so i =? 0 then None else
    if xi_next_so i <? so_start then None else
    if so_start =? xi_next_so i then None else
    Some (u16 (xi_next_so i - 1))
  else Some so_end.

(** The sanity checks: the adjusted segment, and the protocol failures. A reported failure is handed to an executor once
    more for the same NACK in the last check. *)
Definition nack_sanity (sdu_length so_start so_end : Z) : Z * Z * list tx_event :=
  let '(so_start, ev1) := if so_end <? so_start then (0, [DeferProtocolFailure]) else (so_start, []) in
  let '(so_start, ev2) := if sdu_length <=? so_start then (0, [DeferProtocolFailure]) else (so_start, []) in
  let '(so_end, ev3) :=
    if sdu_length <=? so_end then (u16 (sdu_length - 1), [OnProtocolFailure; DeferProtocolFailure]) else (so_end, []) in
  (so_start, so_end, ev1 ++ ev2 ++ ev3).

(** [handle_nack] *)
Definition handle_nack (nack : rlc_am_status_nack) e : option (bool * rlc_tx_am_entity W * list tx_event) :=
  let sn := nack_sn nack in
  if has_nack_range nack then Some (false, e, []) else
  if (tx_mod_base e sn <? tx_mod_base e (tx_next_ack (at_st e)))
     || ((tx_mod_base e (tx_next (at_st e)) <=? tx_mod_base e sn) && negb (sn =? at_sn_under_segmentation e))
  then Some (false, e, []) else
  i ← win_get (at_window e) sn;
  let so_start := if has_so nack then so_start nack else 0 in
  let so_end := if has_so nack then so_end nack else u16 (xi_length i - 1) in
  match nack_end i sn so_start so_end e with
  | None => Some (false, e, [])
  | Some so_end =>
      let '(so_start, so_end, ev) := nack_sanity (xi_length i) so_start so_end in
      '(pushed, q) ← retx_try_push (Retx sn so_start (u32 (so_end - so_start + 1))) (at_retx_queue e);
      Some (pushed, at_set_retx q (at_retx_sn e) e, ev)
  end.

(** A NACK that was queued counts as a retransmission, once per SN. *)
Definition nack_sdu_tx (nack : rlc_am_status_nack) (prev_retx_sn : Z) e
  : option (Z * rlc_tx_am_entity W * list tx_event) :=
  '(handled, e, ev) ← handle_nack nack e;
  if (handled : bool) && negb (prev_retx_sn =? nack_sn nack) then
    '(e, ev') ← increment_retx_count (nack_sn nack) e;
    Some (nack_sn nack, e, ev ++ ev')
  else Some (prev_retx_sn, e, ev).

(** The NACK of [range_sn] in a NACK with a range: the first SN has its start offset, the last one its end offset. *)
Definition range_item e (nack : rlc_am_status_nack) (range_sn : Z) : rlc_am_status_nack :=
  if has_so nack then
    let s := if range_sn =? nack_sn nack then so_start nack else so_start nack_init in
    let t := if range_sn =? u32 (nack_sn nack + nack_range nack - 1) mod at_mod e then so_end nack else so_end nack_init in
    Nack range_sn (negb (s =? 0) || negb (t =? so_end_of_sdu)) s t false 0
  else Nack range_sn false (so_start nack_init) (so_end nack_init) false 0.

(** The loop over a NACK range *)
Fixpoint nack_range_loop (fuel : nat) (ack_sn : Z) (nack : rlc_am_status_nack) (range_sn prev_retx_sn : Z) e
  : option (Z * rlc_tx_am_entity W * list tx_event) :=
  if range_sn =? u32 (nack_sn nack + nack_range nack) mod at_mod e then Some (prev_retx_sn, e, []) else
  if range_sn =? ack_sn then Some (prev_retx_sn, e, []) else
  match fuel with
  | O => None
  | S fuel =>
      '(prev_retx_sn, e, ev) ← nack_sdu_tx (range_item e nack range_sn) prev_retx_sn e;
      '(prev_retx_sn, e, ev') ← nack_range_loop fuel ack_sn nack (u32 (range_sn + 1) mod at_mod e) prev_retx_sn e;
      Some (prev_retx_sn, e, ev ++ ev')
  end.

(** The loop over the NACKs *)
Fixpoint nacks_loop (ack_sn : Z) (l : list rlc_am_status_nack) (prev_retx_sn : Z) e
  : option (rlc_tx_am_entity W * list tx_event) :=
  match l with
  | [] => Some (e, [])
  | nack :: l =>
      '(prev_retx_sn, e, ev) ← (if has_nack_range nack
                                then nack_range_loop (at_fuel e) ack_sn nack (nack_sn nack) prev_retx_sn e
                                else nack_sdu_tx nack prev_retx_sn e);
      '(e, ev') ← nacks_loop ack_sn l prev_retx_sn e;
      Some (e, ev ++ ev')
  end.

(** ** ACKs *)

(** [pdu_recycler.add_discarded_pdu]: a buffer that does not fit is freed on the spot. *)
Definition add_discarded_pdu (pdu : list Z) e : rlc_tx_am_entity W :=
  if Z.of_nat (length (at_recycle_bin e)) <? at_window_size e then at_set_bin (at_recycle_bin e ++ [pdu]) e else e.

(** [rlc_pdu_recycler::clear], run by an executor *)
Definition recycler_clear e : rlc_tx_am_entity W := at_set_bin [] e.

(** The loop over the acknowledged SNs, which moves TX_Next_Ack, on which [tx_mod_base] depends *)
Fixpoint ack_loop (fuel : nat) (sn stop_sn : Z) (max_deliv max_deliv_retx : option Z) e
  : option (option Z * option Z * rlc_tx_am_entity W) :=
  if tx_mod_base e stop_sn <=? tx_mod_base e sn then Some (max_deliv, max_deliv_retx, e) else
  match fuel with
  | O => None
  | S fuel =>
      if has_sn (at_window e) sn then
        i ← win_get (at_window e) sn;
        let retx := match xi_pdcp_sn i with Some _ => xi_is_retx i | None => false end in
        let first := match xi_pdcp_sn i with Some _ => negb (xi_is_retx i) | None => false end in
        w ← remove_sn (at_window e) sn;
        let next := u32 (sn + 1) mod at_mod e in
        let e := at_set_window w (add_discarded_pdu (xi_sdu i) e) in
        ack_loop fuel next stop_sn (if first then xi_pdcp_sn i else max_deliv)
          (if retx then xi_pdcp_sn i else max_deliv_retx) (at_set_st (st_set_tx_next_ack next (at_st e)) e)
      else Some (max_deliv, max_deliv_retx, e)
  end.

(** Clearing the retransmission queue: the counter of an SN is taken back once, unless a retransmission of it started. *)
Fixpoint clear_retx_loop (fuel : nat) e : option (rlc_tx_am_entity W) :=
  if retx_empty (at_retx_queue e) then Some e else
  match fuel with
  | O => None
  | S fuel =>
      retx ← retx_front (at_retx_queue e);
      e ← (if negb (at_retx_sn e =? r_sn retx) then
             e ← (if has_sn (at_window e) (r_sn retx) then decrement_retx_count (r_sn retx) e else Some e);
             Some (at_set_retx (at_retx_queue e) (r_sn retx) e)
           else Some e);
      q ← retx_pop (at_retx_queue e);
      clear_retx_loop fuel (at_set_retx q (at_retx_sn e) e)
  end.

(** ** Buffer state *)

(** [std::optional]'s [operator<] *)
Definition toa_lt (a b : option Z) : bool :=
  match a, b with None, Some _ => true | Some x, Some y => x <? y | _, None => false end.

(** [get_buffer_state]: the size of the retransmissions is taken before the stale ones are dropped. *)
Definition am_get_buffer_state p e : option (rlc_buffer_state * rlc_tx_am_entity W) :=
  let '(n_sdus, n_bytes) := sdu_queue_state (at_queue e) in
  let queue_bytes := u32 (n_bytes + u32 (n_sdus * head_min_size e)) in
  let sn := at_sn_under_segmentation e in
  '(segment_bytes, toa, e) ←
    (if negb (sn =? INVALID_RLC_SN) then
       if has_sn (at_window e) sn then
         i ← win_get (at_window e) sn;
         @Some (Z * option Z * rlc_tx_am_entity W) (u32 (xi_length i - xi_next_so i + head_max_size e), Some (xi_toa i), e)
       else Some (0, None, e)
     else
       '(next_sdu, q) ← sdu_queue_front (at_queue e);
       Some (0, option_map sdu_toa next_sdu, at_set_queue q e));
  let retx_state := rq_st (at_retx_queue e) in
  let retx_sz := u32 (u32 (retx_bytes retx_state + u32 (n_retx_so_zero retx_state * head_min_size e))
                      + u32 (n_retx_so_nonzero retx_state * head_max_size e)) in
  rq ← drop_stale_retx (Z.to_nat (retx_size (at_retx_queue e))) (at_window e) (at_retx_queue e);
  let e := at_set_retx rq (at_retx_sn e) e in
  toa ← (if retx_empty rq then @Some (option Z) toa else
           retx ← retx_front rq; i ← win_get (at_window e) (r_sn retx); Some (Some (xi_toa i)));
  let status_bytes := if sp_required p then sp_length p else 0 in
  let bs := BufferState (u32 (queue_bytes + segment_bytes + retx_sz + status_bytes)) toa in
  let suspend := if pending_bytes bs <=? MAX_DL_PDU_LENGTH then true else at_suspend_bs_notif_barring e in
  Some (bs, at_set_bs (at_prev_bs e) suspend (at_pending_buffer_state e) e).

(** [update_mac_buffer_state] *)
Definition am_update_mac_buffer_state (force_notify : bool) p e : option (rlc_tx_am_entity W * list tx_event) :=
  let e := at_set_bs (at_prev_bs e) (at_suspend_bs_notif_barring e) false e in
  '(bs, e) ← am_get_buffer_state p e;
  if force_notify || (pending_bytes bs <=? MAX_DL_PDU_LENGTH) || (pending_bytes (at_prev_bs e) <=? MAX_DL_PDU_LENGTH)
     || at_suspend_bs_notif_barring e || toa_lt (hol_toa bs) (hol_toa (at_prev_bs e))
  then Some (at_set_bs bs false (at_pending_buffer_state e) e, [OnBufferStateUpdate bs])
  else Some (at_set_bs bs (at_suspend_bs_notif_barring e) (at_pending_buffer_state e) e, []).

(** [handle_changed_buffer_state], which is also [on_status_report_changed]; [deferred] tells whether the executor accepts
    the task. *)
Definition am_handle_changed_buffer_state (deferred : bool) e : rlc_tx_am_entity W :=
  if negb (at_pending_buffer_state e) then at_set_bs (at_prev_bs e) (at_suspend_bs_notif_barring e) deferred e else e.

(** ** Status reports *)

(** The checks of [handle_status_pdu]: whether the report is handled, and the protocol failures *)
Definition check_status (status : rlc_am_status_pdu) e : bool * list tx_event :=
  if negb (tx_valid_ack_sn e (ack_sn status)) then (false, []) else
  if tx_mod_base e (u32 (tx_next (at_st e) + 1)) <? tx_mod_base e (ack_sn status) then (false, [DeferProtocolFailure]) else
  (fix go l := match l with
               | [] => (true, [])
               | nack :: l => let '(ok, ev) := valid_nack e (ack_sn status) nack in if (ok : bool) then go l else (false, ev)
               end) (nacks status).

Definition deliver_events (max_deliv max_deliv_retx : option Z) : list tx_event :=
  match max_deliv with Some sn => [OnDeliveredSdu sn] | None => [] end
  ++ match max_deliv_retx with Some sn => [OnDeliveredRetransmittedSdu sn] | None => [] end.

(** A status report that passed the checks, up to the buffer state update *)
Definition process_status (status : rlc_am_status_pdu) e : option (rlc_tx_am_entity W * list tx_event) :=
  let e := if tx_mod_base e (poll_sn (at_st e)) <? tx_mod_base e (ack_sn status) then at_set_timer false e else e in
  let stop_sn := match nacks status with [] => ack_sn status | nack :: _ => nack_sn nack end in
  '(max_deliv, max_deliv_retx, e) ← ack_loop (at_fuel e) (tx_next_ack (at_st e)) stop_sn None None e;
  e ← clear_retx_loop (Z.to_nat (retx_size (at_retx_queue e))) e;
  let e := at_set_retx (at_retx_queue e) INVALID_RLC_SN e in
  '(e, ev) ← nacks_loop (ack_sn status) (nacks status) INVALID_RLC_SN e;
  Some (e, deliver_events max_deliv max_deliv_retx ++ ev).

(** [handle_status_pdu] *)
Definition am_handle_status_pdu (status : rlc_am_status_pdu) p e : option (rlc_tx_am_entity W * list tx_event) :=
  let '(ok, ev) := check_status status e in
  if negb ok then Some (e, ev) else
  '(e, ev) ← process_status status e;
  '(e, ev') ← am_update_mac_buffer_state true p e;
  Some (e, ev ++ ev').

(** [on_expired_poll_retransmit_timer] *)
Definition on_expired_poll_retransmit_timer p e : option (rlc_tx_am_entity W * list tx_event) :=
  if negb (buffers_empty e || is_tx_window_full e) then Some (e, []) else
  if win_empty (at_window e) then Some (e, []) else
  let sn := tx_next_ack (at_st e) in
  if negb (has_sn (at_window e) sn) then Some (e, []) else
  i ← win_get (at_window e) sn;
  '(pushed, q) ← retx_try_push (Retx sn 0 (u32 (xi_length i))) (at_retx_queue e);
  let e := at_set_retx q (at_retx_sn e) e in
  '(e, ev) ← (if (pushed : bool) then increment_retx_count sn e else Some (e, []));
  '(e, ev') ← am_update_mac_buffer_state true p e;
  Some (e, ev ++ ev').

(** ** SDUs and the life cycle *)

(** [handle_sdu] *)
Definition am_handle_sdu (sdu_buf : list Z) (is_retx : bool) (toa : Z) (deferred : bool) e
  : option (rlc_tx_am_entity W * list tx_event) :=
  pdcp_sn ← get_pdcp_sn sdu_buf (ac_pdcp_sn_len (at_cfg e)) (ac_is_srb (at_cfg e));
  let is_retx := if ac_is_srb (at_cfg e) && is_retx then false else is_retx in
  let '(written, q) := sdu_queue_write (Sdu sdu_buf is_retx pdcp_sn toa) (at_queue e) in
  let e := at_set_queue q e in
  if (written : bool) then Some (am_handle_changed_buffer_state deferred e, [AddTxSdus 1 (buf_length sdu_buf)])
  else Some (e, [AddTxLostSdus 1]).

(** [discard_sdu] *)
Definition am_discard_sdu (pdcp_sn_start block_size : Z) (deferred : bool) e : option (rlc_tx_am_entity W * list tx_event) :=
  mask ← pdcp_compute_sn_mask (ac_pdcp_sn_len (at_cfg e));
  '(q, any, ev) ← discard_block mask pdcp_sn_start block_size (at_queue e);
  let e := at_set_queue q e in
  Some ((if (any : bool) then am_handle_changed_buffer_state deferred e else e), ev).

(** [stop]: the part of the caller, and the task it hands to the executor of the cell *)
Definition am_stop e : rlc_tx_am_entity W := at_set_stopped true (at_stopped_lower e) e.
Definition am_stop_lower e : rlc_tx_am_entity W := at_set_timer false (at_set_stopped (at_stopped_upper e) true e).

(** ** Inputs of the transmitter *)
Inductive am_tx_input :=
| AmTxSdu (buf : list Z) (is_retx : bool) (toa : Z) (deferred : bool)
| AmTxDiscard (pdcp_sn_start block_size : Z) (deferred : bool)
| AmTxPull (mac_sdu_buf : list Z) (timer : bool)
| AmTxStatus (status : rlc_am_status_pdu)
| AmTxPollExpiry
| AmTxUpdate
| AmTxReportChanged (deferred : bool)
| AmTxStop
| AmTxStopLower
| AmTxRecycle.

(** One input: the entity, the provider, the PDU that was written and the events. t-PollRetransmit expires only while it
    runs. *)
Definition am_tx_step (i : am_tx_input) p e : option (rlc_tx_am_entity W * P * list (list Z) * list tx_event) :=
  match i with
  | AmTxSdu buf is_retx toa deferred => '(e, ev) ← am_handle_sdu buf is_retx toa deferred e; Some (e, p, [], ev)
  | AmTxDiscard start block deferred => '(e, ev) ← am_discard_sdu start block deferred e; Some (e, p, [], ev)
  | AmTxPull buf timer =>
      '(n, buf, p, e, ev) ← am_pull_pdu buf timer p e;
      Some (e, p, if n =? 0 then [] else [take (Z.to_nat n) buf], ev)
  | AmTxStatus status => '(e, ev) ← am_handle_status_pdu status p e; Some (e, p, [], ev)
  | AmTxPollExpiry =>
      if at_poll_timer e then
        '(e, ev) ← on_expired_poll_retransmit_timer p (at_set_timer false e); Some (e, p, [], ev)
      else Some (e, p, [], [])
  | AmTxUpdate => '(e, ev) ← am_update_mac_buffer_state false p e; Some (e, p, [], ev)
  | AmTxReportChanged deferred => Some (am_handle_changed_buffer_state deferred e, p, [], [])
  | AmTxStop => Some (am_stop e, p, [], [])
  | AmTxStopLower => Some (am_stop_lower e, p, [], [])
  | AmTxRecycle => Some (recycler_clear e, p, [], [])
  end.

Fixpoint am_tx_run (l : list am_tx_input) p e : option (rlc_tx_am_entity W * P * list (list Z) * list tx_event) :=
  match l with
  | [] => Some (e, p, [], [])
  | i :: l =>
      '(e, p, pdus1, ev1) ← am_tx_step i p e;
      '(e, p, pdus2, ev2) ← am_tx_run l p e;
      Some (e, p, pdus1 ++ pdus2, ev1 ++ ev2)
  end.
End entity.
