(* ===== verification/RlcTxAmFacts.v ===== *)
(** * Properties of the AM transmitter: the invariant

    The window holds consecutive SNs from TX_Next_Ack on, or TX_Next_Ack has passed TX_Next and every status report is
    rejected; the invariant is true of an entity whatever status reports it receives. *)
From S2P Require Import Prelude ByteCursor RlcConfig RlcAmPdu BitCodec PdcpSn SduQueue SduQueueConc SduQueueSeq.
From S2P Require Import SduWindow SduWindowCount RingBuffer RlcRetxQueue RlcRxBase RlcTxBase RlcTxAm.

(** An SDU in the window. *)
Definition tx_info_ok (i : rlc_tx_am_sdu_info) : Prop :=
  bytes_ok (xi_sdu i) /\ 1 <= xi_length i <= 65536 /\ 0 <= xi_next_so i <= 65536.

(** A queued retransmission. *)
Definition retx_ok (md : Z) (r : rlc_tx_amd_retx) : Prop :=
  0 <= r_sn r < md /\ 0 <= r_so r /\ 1 <= r_length r /\ r_so r + r_length r <= 65536.

(** The segmentation info of the [k] bytes from [so] on of an SDU with [len] bytes. *)
Definition si_of_slice (so k len : Z) : rlc_si_field :=
  if so =? 0 then if k =? len then full_sdu else first_segment
  else if so + k =? len then last_segment else middle_segment.

Definition slice (sdu : list Z) (so k : Z) : list Z := take (Z.to_nat k) (drop (Z.to_nat so) sdu).

Lemma slice_length sdu so k : 0 <= so -> 0 <= k -> so + k <= buf_length sdu -> buf_length (slice sdu so k) = k.
Proof. intros. unfold slice, buf_length in *. rewrite length_take, length_drop. lia. Qed.

(** A PDU with these bytes. *)
Definition am_data_pdu (sz : rlc_am_sn_size) (poll sn so k : Z) (sdu : list Z) : list Z :=
  am_header_octets (AmHdr dc_data poll (si_of_slice so k (buf_length sdu)) sz sn so) ++ slice sdu so k.

Lemma si_of_slice_so so k len : 0 <= so -> si_has_so (si_of_slice so k len) = negb (so =? 0).
Proof. intros. unfold si_of_slice. destruct (Z.eqb_spec so 0); by case_match. Qed.

Lemma u16_small x : 0 <= x < 65536 -> u16 x = x.
Proof. apply (uint_small 16). Qed.

(** Arithmetic on distances: splits on the order of the sequence numbers. *)
Ltac rel_lia :=
  repeat match goal with
  | H : context [rel ?m ?b ?x] |- _ => rewrite (rel_cases m b x) in H by lia
  | |- context [rel ?m ?b ?x] => rewrite (rel_cases m b x) by lia
  end;
  repeat case_decide; lia.

Section facts.
Context {W : Type} `{SduWindowCountLaws rlc_tx_am_sdu_info W}.
Implicit Types (e : rlc_tx_am_entity W) (w : W).

Notation lk e k := (win_lookup (at_window e) k).
Notation sn_under e := (at_sn_under_segmentation e).

(** ** Arithmetic *)
Lemma at_geometry e : at_mod e = 2 * at_window_size e /\ 2048 <= at_window_size e <= 131072 /\
  exists k, 0 <= k <= 32 /\ at_mod e = 2 ^ k.
Proof.
  unfold at_mod, at_window_size. destruct (ac_sn_size (at_cfg e)); (split_and!; [reflexivity|vm_compute; congruence..|]);
    [exists 12|exists 18]; split; (lia || reflexivity).
Qed.

Lemma tx_mod_base_rel e x : tx_mod_base e x = rel (at_mod e) (tx_next_ack (at_st e)) x.
Proof. destruct (at_geometry e) as (_ & _ & k & Hk & E). unfold tx_mod_base, rel. by rewrite E, mod_pow2_u32. Qed.

Lemma at_u32_mod e x : u32 x mod at_mod e = x mod at_mod e.
Proof. destruct (at_geometry e) as (_ & _ & k & Hk & E). by rewrite E, mod_pow2_u32. Qed.

Lemma head_sizes e : 2 <= head_min_size e <= 3 /\ head_max_size e = head_min_size e + 2.
Proof. unfold head_min_size, head_max_size. destruct (ac_sn_size (at_cfg e)); vm_compute; by repeat split. Qed.

Lemma at_mod_pow e : at_mod e = 2 ^ am_sn_to_number (ac_sn_size (at_cfg e)).
Proof. unfold at_mod. by destruct (ac_sn_size (at_cfg e)). Qed.

(** How far [k] is behind TX_Next. *)
Definition behind e (k : Z) : Z := rel (at_mod e) k (tx_next (at_st e)).
Notation ahead e := (rel (at_mod e) (tx_next_ack (at_st e))).

(** ** The invariant *)

(** The SNs from TX_Next_Ack up to TX_Next are in the window. *)
Definition tx_normal e : Prop :=
  ahead e (tx_next (at_st e)) <= at_window_size e /\
  forall k, 0 <= k < at_mod e -> ahead e k < ahead e (tx_next (at_st e)) -> is_Some (lk e k).

(** TX_Next_Ack is the SN after TX_Next. *)
Definition tx_overtaken e : Prop := tx_next_ack (at_st e) = (tx_next (at_st e) + 1) mod at_mod e.

Definition tx_retx_ok e : Prop :=
  exists l, retx_repr (at_retx_queue e) l /\ Forall (retx_ok (at_mod e)) (valid_retx l) /\ retx_cap (at_retx_queue e) = at_window_size e.

Record am_tx_base e : Prop := {
  ai_window : win_inv (at_window e);
  ai_cap : win_cap (at_window e) = at_window_size e;
  ai_queue : tx_queue_ok (2 ^ pdcp_sn_bits (ac_pdcp_sn_len (at_cfg e))) (at_queue e);
  ai_pdcp : ac_pdcp_sn_len (at_cfg e) <> pdcp_size_invalid /\
    (ac_is_srb (at_cfg e) = true -> ac_pdcp_sn_len (at_cfg e) = pdcp_size12bits);
  ai_next : 0 <= tx_next (at_st e) < at_mod e;
  ai_next_ack : 0 <= tx_next_ack (at_st e) < at_mod e;
  ai_infos : forall k i, 0 <= k -> lk e k = Some i -> tx_info_ok i /\ k < at_mod e /\ behind e k <= at_window_size e;
  ai_phase : tx_normal e \/ tx_overtaken e;
  ai_retx : tx_retx_ok e
}.

(** No SDU of the window is a whole window behind TX_Next. *)
Definition tx_fresh e : Prop := forall k j, 0 <= k -> lk e k = Some j -> behind e k < at_window_size e.

(** An SDU at TX_Next is under segmentation: it is partly sent. *)
Definition tx_current_ok e : Prop :=
  forall i, lk e (tx_next (at_st e)) = Some i ->
    sn_under e = tx_next (at_st e) /\ 0 < xi_next_so i < xi_length i /\ tx_fresh e.

Record am_tx_inv e : Prop := {
  ai_base : am_tx_base e;
  ai_under : sn_under e = INVALID_RLC_SN \/ sn_under e = tx_next (at_st e);
  ai_current : tx_current_ok e;
  ai_present : sn_under e = tx_next (at_st e) -> tx_overtaken e \/ is_Some (lk e (tx_next (at_st e)))
}.

(** The invariant does not depend on the poll variables, timers, flags and buffer states. *)
Definition same_core e e' : Prop :=
  at_cfg e' = at_cfg e /\ at_window e' = at_window e /\ at_queue e' = at_queue e /\ at_retx_queue e' = at_retx_queue e /\
  sn_under e' = sn_under e /\ tx_next (at_st e') = tx_next (at_st e) /\ tx_next_ack (at_st e') = tx_next_ack (at_st e).

Lemma same_core_refl e : same_core e e. Proof. done. Qed.
Lemma same_core_trans e1 e2 e3 : same_core e1 e2 -> same_core e2 e3 -> same_core e1 e3.
Proof. intros (? & ? & ? & ? & ? & ? & ?) (? & ? & ? & ? & ? & ? & ?). repeat split; congruence. Qed.

Lemma same_core_base e e' : same_core e e' -> am_tx_base e -> am_tx_base e'.
Proof.
  intros (E1 & E2 & E3 & E4 & E5 & E6 & E7) []. split; try (first [rewrite E2|rewrite E3, E1|rewrite E1]; assumption);
    unfold tx_normal, tx_overtaken, tx_retx_ok, behind, at_mod, at_window_size in *; rewrite ?E1, ?E2, ?E4, ?E6, ?E7; done.
Qed.

Lemma same_core_fresh e e' : same_core e e' -> tx_fresh e -> tx_fresh e'.
Proof.
  intros (E1 & E2 & E3 & E4 & E5 & E6 & E7). unfold tx_fresh, behind, at_mod, at_window_size. by rewrite E1, E2, E6.
Qed.

Lemma same_core_inv e e' : same_core e e' -> am_tx_inv e -> am_tx_inv e'.
Proof.
  intros HE [Hb Hu Hc Hp]. pose proof (same_core_base _ _ HE Hb). pose proof (same_core_fresh _ _ HE).
  destruct HE as (E1 & E2 & E3 & E4 & E5 & E6 & E7).
  split; unfold tx_current_ok, tx_overtaken, at_mod in *; rewrite ?E1, ?E2, ?E5, ?E6, ?E7; [done|done| |done].
  intros i Hi. destruct (Hc i Hi) as (? & ? & ?). auto.
Qed.

Lemma get_polling_bit_core sn r n e :
  exists poll e', get_polling_bit sn r n e = (poll, e') /\ (poll = 0 \/ poll = 1) /\ same_core e e' /\
    at_recycle_bin e' = at_recycle_bin e /\ at_max_retx_reached e' = at_max_retx_reached e /\ at_retx_sn e' = at_retx_sn e.
Proof.
  unfold get_polling_bit. destruct (_ || _ || _); [destruct (_ && _)|]; eexists _, _; (split; [reflexivity|]);
    (split; [by (left + right)|]); by repeat split.
Qed.

(** ** Writing a PDU *)
Definition hdr_size e (so : Z) : Z := if so =? 0 then head_min_size e else head_max_size e.

Lemma hdr_size_pos e so : 2 <= hdr_size e so <= 5.
Proof. pose proof (head_sizes e). unfold hdr_size. destruct (so =? 0); lia. Qed.

Notation pdu_of e := (am_data_pdu (ac_sn_size (at_cfg e))).

(** The bytes a PDU may carry. *)
Definition slice_ok e (buf : list Z) (sn so k : Z) (sdu : list Z) : Prop :=
  0 <= sn < at_mod e /\ 0 <= so /\ 1 <= k /\ so + k <= buf_length sdu /\ buf_length sdu <= 65536 /\
  hdr_size e so + k <= buf_length buf.

Lemma write_pdu_steps e buf poll sn so k sdu :
  poll = 0 \/ poll = 1 -> slice_ok e buf sn so k sdu ->
  exists buf1, rlc_am_write_data_pdu_header buf (data_header e poll (si_of_slice so k (buf_length sdu)) sn so)
      = Some (hdr_size e so, buf1) /\
    buffer_view sdu (u16 so) k = Some (slice sdu so k) /\
    copy_segments (slice sdu so k) buf1 (hdr_size e so)
      = (k, pdu_of e poll sn so k sdu ++ drop (length (pdu_of e poll sn so k sdu)) buf) /\
    buf_length (pdu_of e poll sn so k sdu) = hdr_size e so + k.
Proof.
  intros Hpoll (Hsn & Hso & Hk & Hlen & Hmax & Hfit). pose proof (hdr_size_pos e so) as Hhs.
  assert (Hu : u16 so = so) by (apply u16_small; lia).
  set (h := data_header e poll (si_of_slice so k (buf_length sdu)) sn so).
  assert (Eh : h = AmHdr dc_data poll (si_of_slice so k (buf_length sdu)) (ac_sn_size (at_cfg e)) sn so)
    by (unfold h, data_header; by rewrite Hu).
  assert (Hok : am_header_ok h).
  { rewrite Eh. unfold am_header_ok. cbn [h_p h_sn h_so h_si h_sn_size]. rewrite <- at_mod_pow, si_of_slice_so by lia.
    split; [lia|]. split; [done|]. split; [lia|]. destruct (Z.eqb_spec so 0); cbn; split; congruence. }
  assert (Hsz : get_packed_size h = hdr_size e so).
  { rewrite Eh. unfold get_packed_size, hdr_size, head_min_size, head_max_size. cbn [h_si h_sn_size]. rewrite si_of_slice_so by lia.
    by destruct (so =? 0), (ac_sn_size (at_cfg e)). }
  rewrite (am_write_octets h buf Hok) by (rewrite Hsz; unfold rd_length, buf_length in *; lia).
  rewrite Hsz. eexists. split; [reflexivity|].
  destruct (buffer_view_ok sdu (u16 so) k) as (v & -> & -> & Hv); [lia..|]. rewrite Hu in *. fold (slice sdu so k) in *.
  split; [done|]. pose proof (am_header_octets_length h) as Hl. rewrite Hsz in Hl. unfold am_data_pdu. rewrite <- Eh.
  change (hdr_size e so) with (hdr_size e so) in *. unfold rd_length in Hl. fold (buf_length (am_header_octets h)) in Hl.
  rewrite buf_length_app, <- Hl, Hv. split; [|done]. rewrite copy_segments_fits.
  - rewrite Hv. f_equal. rewrite <- app_assoc. do 2 f_equal. rewrite drop_drop, length_app. done.
  - rewrite Hv. unfold buf_length in *. rewrite length_drop. lia.
Qed.

(** A call wrote the PDU with the [k] bytes from [so] on of [sdu] under [sn]. *)
Definition sends e (buf : list Z) (n : Z) (buf' : list Z) (sn so k : Z) (sdu : list Z) : Prop :=
  exists poll, (poll = 0 \/ poll = 1) /\ slice_ok e buf sn so k sdu /\ n = hdr_size e so + k /\
    buf' = pdu_of e poll sn so k sdu ++ drop (length (pdu_of e poll sn so k sdu)) buf.

(** ** Changing the window *)

(** Replacing what the window holds of an SDU. *)
Lemma put_base e k i i' :
  am_tx_base e -> 0 <= k -> lk e k = Some i -> tx_info_ok i' ->
  exists w, win_put (at_window e) k i' = Some w /\ am_tx_base (at_set_window w e) /\
    (tx_fresh e -> tx_fresh (at_set_window w e)) /\
    forall q, 0 <= q -> win_lookup w q = if decide (q = k) then Some i' else lk e q.
Proof.
  intros Hb Hk Hi Hi'. destruct (win_put_spec (at_window e) k i' (ai_window _ Hb) Hk (mk_is_Some _ _ Hi)) as (w & E & Hw & Hcap & Hl).
  exists w. split; [done|].
  assert (Hex : forall q, 0 <= q -> is_Some (win_lookup w q) <-> is_Some (lk e q)).
  { intros q Hq. rewrite Hl by done. case_decide as Eq; [|done]. rewrite Eq, Hi. by split. }
  split; [|split; [|done]].
  - destruct Hb as [Hw0 Hc0 Hq Hp Hn Hna Hin Hph Hr]. split; try assumption; cbn [at_window at_set_window].
    + by rewrite Hcap.
    + intros q j Hq0 Hj. rewrite Hl in Hj by done. case_decide as Eq; [|by apply Hin]. injection Hj as <-. subst q.
      split; [done|]. by destruct (Hin k i Hq0 Hi) as (_ & ? & ?).
    + destruct Hph as [[Hle Hall]|Hov]; [left|by right]. split; [done|]. intros q Hq0 Hlt. apply Hex; [lia|]. by apply Hall.
  - intros Hf q j Hq Hj. cbn [at_window at_set_window] in Hj. destruct (proj1 (Hex q Hq) (mk_is_Some _ _ Hj)) as [j' Hj'].
    exact (Hf q j' Hq Hj').
Qed.

(** TX_Next moves on: what was at TX_Next has been sent completely. *)
Lemma advance_inv e :
  am_tx_base e -> tx_fresh e -> sn_under e = INVALID_RLC_SN -> is_Some (lk e (tx_next (at_st e))) ->
  am_tx_inv (at_set_st (st_set_tx_next (u32 (tx_next (at_st e) + 1) mod at_mod e) (at_st e)) e).
Proof.
  intros Hb Hf Hu Hs. pose proof Hb as [Hw Hc Hq Hp Hn Hna Hin Hph Hr]. destruct (at_geometry e) as (Hg1 & Hg2 & _).
  rewrite at_u32_mod, succ_cases by done. set (n' := if decide _ then _ else _).
  assert (Hn' : 0 <= n' < at_mod e) by (unfold n'; case_decide; lia).
  assert (Hbeh : forall k, 0 <= k < at_mod e -> rel (at_mod e) k n' = if decide (k = n') then 0 else behind e k + 1).
  { intros k Hk. unfold behind. rewrite !rel_cases by done. unfold n' in *. repeat case_decide; lia. }
  set (e' := at_set_st _ e).
  assert (Hnone : lk e' (tx_next (at_st e')) = None).
  { destruct (lk e' _) as [j|] eqn:Ej; [|done]. cbn in Ej. destruct (Hin n' j) as (_ & _ & Hlt); [lia|done|].
    unfold behind in Hlt. rewrite rel_cases in Hlt by done. unfold n' in *. repeat case_decide; lia. }
  assert (Hahead : ahead e' (tx_next (at_st e')) = if decide (n' = tx_next_ack (at_st e)) then 0 else ahead e (tx_next (at_st e)) + 1).
  { change (ahead e n' = if decide (n' = tx_next_ack (at_st e)) then 0 else ahead e (tx_next (at_st e)) + 1).
    rewrite !rel_cases by done. unfold n' in *. repeat case_decide; lia. }
  split; [split; try assumption| | |].
  - intros k j Hk Hj. destruct (Hin k j Hk Hj) as (? & ? & ?). split; [done|]. split; [done|].
    change (rel (at_mod e) k n' <= at_window_size e). rewrite Hbeh by lia. specialize (Hf k j Hk Hj). destruct (decide (k = n')); lia.
  - left. unfold tx_normal. rewrite Hahead. change (at_window_size e') with (at_window_size e). change (at_mod e') with (at_mod e).
    destruct Hph as [[Hle Hall]|Hov].
    + assert (Hlt : ahead e (tx_next (at_st e)) < at_window_size e).
      { destruct (decide (ahead e (tx_next (at_st e)) = at_window_size e)) as [E|]; [|lia].
        destruct (Hall (tx_next_ack (at_st e)) Hna) as [j Hj]; [rewrite rel_self by lia; lia|].
        specialize (Hf (tx_next_ack (at_st e)) j ltac:(lia) Hj). unfold behind in Hf. lia. }
      split; [destruct (decide (n' = tx_next_ack (at_st e))); lia|]. intros k Hk Hkl. change (is_Some (lk e k)).
      change (ahead e k < (if decide (n' = tx_next_ack (at_st e)) then 0 else ahead e (tx_next (at_st e)) + 1)) in Hkl.
      destruct (decide (k = tx_next (at_st e))) as [->|Hne]; [done|]. apply Hall; [done|].
      assert (ahead e k <> ahead e (tx_next (at_st e))) by (intros E; apply rel_inj in E; [done|lia..]).
      pose proof (rel_range (at_mod e) (tx_next_ack (at_st e)) k ltac:(lia)). destruct (decide (n' = tx_next_ack (at_st e))) in Hkl; lia.
    + unfold tx_overtaken in Hov. rewrite succ_cases in Hov by done. fold n' in Hov. rewrite decide_True by done.
      split; [lia|]. intros k Hk. pose proof (rel_range (at_mod e) (tx_next_ack (at_st e)) k ltac:(lia)).
      intros Hlt. change (ahead e k < 0) in Hlt. lia.
  - left. exact Hu.
  - intros i Hi. by rewrite Hnone in Hi.
  - intros E. exfalso. change (sn_under e = n') in E. rewrite Hu in E. unfold INVALID_RLC_SN in E. lia.
Qed.
End facts.
