(* ===== verification/RlcTxAmPdus.v ===== *)
(** * Properties of the AM transmitter: the PDUs it builds

    Each of the ways [pull_pdu] fills a grant, from a state of the invariant: the whole SDU or its first segment, the rest of
    the SDU under segmentation, and retransmissions. *)
From S2P Require Import Prelude ByteCursor RlcConfig RlcAmPdu BitCodec PdcpSn SduQueue SduQueueConc SduQueueSeq.
From S2P Require Import SduWindow SduWindowCount RingBuffer RlcRetxQueue RlcRxBase RlcTxBase RlcTxAm RlcTxAmFacts.

Section pdus.
Context {W : Type} `{SduWindowCountLaws rlc_tx_am_sdu_info W}.
Implicit Types (e : rlc_tx_am_entity W) (w : W).

Notation lk e k := (win_lookup (at_window e) k).
Notation sn_under e := (at_sn_under_segmentation e).
Notation ahead e := (rel (at_mod e) (tx_next_ack (at_st e))).

(** ** New SDUs *)

(** The SDU [i] was put at TX_Next, and nothing of it has been sent. *)
Record tx_opened e i : Prop := {
  op_base : am_tx_base e;
  op_fresh : tx_fresh e;
  op_under : sn_under e = INVALID_RLC_SN;
  op_lookup : lk e (tx_next (at_st e)) = Some i;
  op_next_so : xi_next_so i = 0
}.

Lemma opened_info e i : tx_opened e i -> tx_info_ok i.
Proof. intros []. by destruct (ai_infos _ op_base0 (tx_next (at_st e)) i); [apply op_base0|..]. Qed.

(** Executors, timers and metrics aside, what a transmission leaves alone. *)
Definition same_sources e e' : Prop :=
  at_cfg e' = at_cfg e /\ at_queue e' = at_queue e /\ at_retx_queue e' = at_retx_queue e /\
  tx_next_ack (at_st e') = tx_next_ack (at_st e) /\ at_max_retx_reached e' = at_max_retx_reached e.

Lemma build_first_spec buf i e :
  tx_opened e i -> head_min_size e < buf_length buf < xi_length i + head_min_size e ->
  let k := buf_length buf - head_min_size e in
  exists n buf' e' ev, build_first_sdu_segment buf i e = Some (n, buf', e', ev) /\ am_tx_inv e' /\ same_sources e e' /\
    sends e buf n buf' (tx_next (at_st e)) 0 k (xi_sdu i) /\
    tx_next (at_st e') = tx_next (at_st e) /\
    (forall q, 0 <= q -> lk e' q = if decide (q = tx_next (at_st e)) then Some (xi_set_next_so k i) else lk e q).
Proof.
  intros Ho Hg k. destruct (opened_info e i Ho) as (Hbytes & Hlen & _). destruct Ho as [Hb Hf Hu Hi Hso].
  pose proof (head_sizes e) as [Hmin Hmax]. assert (Hn := ai_next _ Hb).
  unfold build_first_sdu_segment. rewrite (proj2 (Z.leb_gt _ _)), (proj2 (Z.leb_gt _ _)), u32_small by lia. fold k.
  destruct (get_polling_bit_core (tx_next (at_st e)) false k (at_set_under_segmentation (tx_next (at_st e)) e))
    as (poll & e1 & -> & Hpoll & Hcore & _ & Hmr & _).
  assert (Ecfg : at_cfg e1 = at_cfg e) by (by destruct Hcore). assert (Ew : at_window e1 = at_window e) by (by destruct Hcore as (_ & ? & _)).
  assert (Hslice : slice_ok e buf (tx_next (at_st e)) 0 k (xi_sdu i)).
  { unfold slice_ok, hdr_size. unfold xi_length in *. split; [done|]. repeat split; try lia. cbn. lia. }
  assert (Esi : si_of_slice 0 k (buf_length (xi_sdu i)) = first_segment).
  { unfold si_of_slice. cbn. rewrite (proj2 (Z.eqb_neq _ _)); [done|]. unfold xi_length in *. lia. }
  destruct (write_pdu_steps e buf poll (tx_next (at_st e)) 0 k (xi_sdu i) Hpoll Hslice) as (buf1 & Ewr & Evw & Ecp & Elen).
  rewrite Esi in Ewr. rewrite Hso. change (hdr_size e 0) with (head_min_size e) in *.
  replace (data_header e1 poll first_segment (tx_next (at_st e)) 0) with (data_header e poll first_segment (tx_next (at_st e)) 0)
    by (unfold data_header; by rewrite Ecfg).
  rewrite Ewr. cbn [mbind option_bind]. rewrite (proj2 (Z.eqb_neq _ _)), Evw by lia. cbn [mbind option_bind]. rewrite Ecp.
  rewrite (proj2 (Z.eqb_neq _ _)), Z.eqb_refl by lia. cbn [orb negb]. rewrite u32_small, Z.add_0_l by lia.
  assert (Hb1 : am_tx_base e1) by (eapply same_core_base; [exact Hcore|]; by destruct Hb; split).
  assert (Hi1 : lk e1 (tx_next (at_st e)) = Some i) by (by rewrite Ew).
  assert (Hio : tx_info_ok (xi_set_next_so k i)) by (split; [done|]; split; [done|cbn; lia]).
  destruct (put_base e1 (tx_next (at_st e)) i _ Hb1 ltac:(lia) Hi1 Hio) as (w & -> & Hb2 & Hf2 & Hl).
  cbn [mbind option_bind]. eexists _, _, _, _. split; [reflexivity|].
  destruct Hcore as (_ & _ & Eq & Er & Esu & En & Ena).
  assert (Hfw : tx_fresh (at_set_window w e1)).
  { apply Hf2. unfold tx_fresh, behind, at_mod, at_window_size in *. by rewrite Ecfg, Ew, En. }
  split; [|split; [by repeat split|split; [by exists poll|split; [exact En|by rewrite <- Ew]]]].
  split; [done|right; cbn; by rewrite Esu, En| |].
  - intros i' Hi'. cbn [at_window at_set_window at_st] in Hi'. rewrite En in Hi'. rewrite Hl, decide_True in Hi' by (done || (cbn; lia)).
    injection Hi' as <-. split; [cbn; by rewrite Esu, En|]. split; [|done]. unfold xi_length in *. cbn. lia.
  - intros _. right. cbn [at_window at_set_window at_st]. rewrite En, Hl, decide_True by (done || (cbn; lia)). by eexists.
Qed.

Lemma build_full_spec buf m i e :
  tx_opened e i -> xi_length i + head_min_size e <= buf_length buf ->
  exists n buf' e' ev, build_full_sdu buf m i e = Some (n, buf', e', ev) /\ am_tx_inv e' /\ same_sources e e' /\
    sends e buf n buf' (tx_next (at_st e)) 0 (xi_length i) (xi_sdu i) /\
    tx_next (at_st e') = (tx_next (at_st e) + 1) mod at_mod e /\ at_window e' = at_window e.
Proof.
  intros Ho Hg. destruct (opened_info e i Ho) as (Hbytes & Hlen & _). destruct Ho as [Hb Hf Hu Hi Hso].
  pose proof (head_sizes e) as [Hmin Hmax]. assert (Hn := ai_next _ Hb). unfold build_full_sdu.
  destruct (get_polling_bit_core (tx_next (at_st e)) false m e) as (poll & e1 & -> & Hpoll & Hcore & _ & Hmr & _).
  assert (Ecfg : at_cfg e1 = at_cfg e) by (by destruct Hcore). assert (Ew : at_window e1 = at_window e) by (by destruct Hcore as (_ & ? & _)).
  assert (Hslice : slice_ok e buf (tx_next (at_st e)) 0 (xi_length i) (xi_sdu i)).
  { unfold slice_ok, hdr_size. unfold xi_length in *. split; [done|]. repeat split; try lia. cbn. lia. }
  assert (Esi : si_of_slice 0 (xi_length i) (buf_length (xi_sdu i)) = full_sdu).
  { unfold si_of_slice, xi_length. cbn. by rewrite Z.eqb_refl. }
  destruct (write_pdu_steps e buf poll (tx_next (at_st e)) 0 (xi_length i) (xi_sdu i) Hpoll Hslice) as (buf1 & Ewr & Evw & Ecp & Elen).
  rewrite Esi in Ewr. change (hdr_size e 0) with (head_min_size e) in *.
  replace (data_header e1 poll full_sdu (tx_next (at_st e)) 0) with (data_header e poll full_sdu (tx_next (at_st e)) 0)
    by (unfold data_header; by rewrite Ecfg).
  assert (Hsl : slice (xi_sdu i) 0 (xi_length i) = xi_sdu i).
  { unfold slice, xi_length, buf_length. rewrite Nat2Z.id. cbn. by rewrite firstn_all. }
  rewrite Hsl in Ecp. rewrite Ewr. cbn [mbind option_bind]. rewrite (proj2 (Z.eqb_neq _ _)) by lia. rewrite Ecp.
  rewrite (proj2 (Z.eqb_neq _ _)) by lia. eexists _, _, _, _. split; [reflexivity|].
  assert (Hb1 : am_tx_base e1) by (by eapply same_core_base). assert (Hf1 : tx_fresh e1) by (by eapply same_core_fresh).
  destruct Hcore as (_ & _ & Eq & Er & Esu & En & Ena).
  split; [apply advance_inv; [done|done|congruence|rewrite Ew, En; by eexists]|].
  split; [by repeat split|]. split; [by exists poll|]. split; [|done].
  cbn [at_set_st at_st tx_next st_set_tx_next]. rewrite at_u32_mod, En. unfold at_mod. by rewrite Ecfg.
Qed.

(** ** The SDU under segmentation *)

(** How many bytes the next segment carries. *)
Definition continued_size e (buf : list Z) i : Z := Z.min (xi_length i - xi_next_so i) (buf_length buf - head_max_size e).

Lemma build_continued_spec buf i e :
  am_tx_inv e -> sn_under e <> INVALID_RLC_SN -> lk e (sn_under e) = Some i -> buf_length buf < 4294967296 ->
  let k := continued_size e buf i in
  if buf_length buf <=? head_max_size e then build_continued_sdu_segment buf i e = Some (0, buf, e, []) else
  exists n buf' e' ev, build_continued_sdu_segment buf i e = Some (n, buf', e', ev) /\ am_tx_inv e' /\ same_sources e e' /\
    sends e buf n buf' (tx_next (at_st e)) (xi_next_so i) k (xi_sdu i) /\
    (forall q, 0 <= q -> lk e' q = if decide (q = tx_next (at_st e)) then Some (xi_set_next_so (xi_next_so i + k) i) else lk e q) /\
    tx_next (at_st e') = if xi_next_so i + k =? xi_length i then (tx_next (at_st e) + 1) mod at_mod e else tx_next (at_st e).
Proof.
  intros [Hb Hund Hcur Hpr] Hne Hi Hbuf k. assert (Esn : sn_under e = tx_next (at_st e)) by (by destruct Hund).
  rewrite Esn in Hi. destruct (Hcur i Hi) as (_ & Hso & Hf). pose proof (head_sizes e) as [Hmin Hmax]. assert (Hn := ai_next _ Hb).
  destruct (ai_infos _ Hb _ i (proj1 Hn) Hi) as ((Hbytes & Hlen & _) & _ & _).
  unfold build_continued_sdu_segment. rewrite Esn, (proj2 (Z.eqb_neq _ 0)), (proj2 (Z.leb_gt _ (xi_next_so i))) by lia.
  destruct (Z.leb_spec (buf_length buf) (head_max_size e)) as [Hle|Hgt]; [done|].
  rewrite (u32_small (_ - xi_next_so i)), (u32_small (buf_length buf - _)) by lia.
  set (lst := xi_length i - xi_next_so i + head_max_size e <=? buf_length buf).
  assert (Ek : (if lst then xi_length i - xi_next_so i else buf_length buf - head_max_size e) = k).
  { unfold k, continued_size, lst. destruct (Z.leb_spec (xi_length i - xi_next_so i + head_max_size e) (buf_length buf)); lia. }
  assert (Elst : (xi_next_so i + k =? xi_length i) = lst).
  { unfold k, continued_size, lst. destruct (Z.leb_spec (xi_length i - xi_next_so i + head_max_size e) (buf_length buf));
      [apply Z.eqb_eq|apply Z.eqb_neq]; lia. }
  rewrite Ek, Elst. assert (Hk : 1 <= k /\ xi_next_so i + k <= xi_length i /\ k + head_max_size e <= buf_length buf)
    by (unfold k, continued_size; lia).
  set (e0 := if lst then at_set_under_segmentation INVALID_RLC_SN e else e).
  assert (Ecfg0 : at_cfg e0 = at_cfg e) by (unfold e0; by destruct lst). assert (Est0 : at_st e0 = at_st e) by (unfold e0; by destruct lst).
  assert (Ew0 : at_window e0 = at_window e) by (unfold e0; by destruct lst).
  rewrite Est0.
  destruct (get_polling_bit_core (tx_next (at_st e)) false k e0) as (poll & e1 & -> & Hpoll & Hcore & _ & Hmr & _).
  assert (Ecfg : at_cfg e1 = at_cfg e) by (destruct Hcore; congruence).
  assert (Ew : at_window e1 = at_window e) by (destruct Hcore as (_ & ? & _); congruence).
  assert (En : tx_next (at_st e1) = tx_next (at_st e)) by (destruct Hcore as (_ & _ & _ & _ & _ & ? & _); congruence).
  assert (Hhdr : hdr_size e (xi_next_so i) = head_max_size e) by (unfold hdr_size; by rewrite (proj2 (Z.eqb_neq _ 0)) by lia).
  assert (Hslice : slice_ok e buf (tx_next (at_st e)) (xi_next_so i) k (xi_sdu i)).
  { unfold slice_ok. rewrite Hhdr. unfold xi_length in *. split; [done|]. repeat split; lia. }
  assert (Esi : si_of_slice (xi_next_so i) k (buf_length (xi_sdu i)) = if lst then last_segment else middle_segment).
  { unfold si_of_slice. rewrite (proj2 (Z.eqb_neq _ 0)) by lia. unfold xi_length in Elst. by rewrite Elst. }
  destruct (write_pdu_steps e buf poll _ _ k (xi_sdu i) Hpoll Hslice) as (buf1 & Ewr & Evw & Ecp & Elen).
  rewrite Esi in Ewr. rewrite En. rewrite Hhdr in *.
  replace (data_header e1 poll) with (data_header e poll) by (unfold data_header; by rewrite Ecfg).
  rewrite Ewr. cbn [mbind option_bind]. rewrite (proj2 (Z.eqb_neq _ _)), Evw by lia. cbn [mbind option_bind]. rewrite Ecp.
  rewrite (proj2 (Z.eqb_neq _ _)), Z.eqb_refl by lia. cbn [orb negb]. rewrite u32_small by lia.
  assert (Hb1 : am_tx_base e1).
  { eapply same_core_base; [exact Hcore|]. unfold e0. destruct lst; [|done]. by destruct Hb; split. }
  assert (Hi1 : lk e1 (tx_next (at_st e)) = Some i) by (by rewrite Ew).
  assert (Hio : tx_info_ok (xi_set_next_so (xi_next_so i + k) i)) by (split; [done|]; split; [done|cbn; lia]).
  destruct (put_base e1 (tx_next (at_st e)) i _ Hb1 ltac:(lia) Hi1 Hio) as (w & -> & Hb2 & Hf2 & Hl).
  cbn [mbind option_bind].
  assert (Hfw : tx_fresh (at_set_window w e1)).
  { apply Hf2. unfold tx_fresh, behind, at_mod, at_window_size in *. by rewrite Ecfg, Ew, En. }
  assert (Hlk : is_Some (lk (at_set_window w e1) (tx_next (at_st e)))).
  { cbn [at_window at_set_window]. rewrite Hl, decide_True by (done || lia). by eexists. }
  destruct Hcore as (_ & _ & Eq & Er & Esu & _ & Ena).
  assert (Hsrc : same_sources e (at_set_window w e1)).
  { unfold same_sources. cbn. rewrite Eq, Er, Ena, Hmr, Ecfg. unfold e0. by destruct lst. }
  assert (Hl' : forall q, 0 <= q -> win_lookup w q = if decide (q = tx_next (at_st e)) then Some (xi_set_next_so (xi_next_so i + k) i) else lk e q)
    by (by rewrite <- Ew).
  clearbody lst. destruct lst; eexists _, _, _, _; (split; [reflexivity|]).
  - split; [|split; [done|split; [exists poll; by rewrite Hhdr|split; [done|]]]].
    + apply advance_inv; [done|done|exact Esu|]. change (at_st (at_set_window w e1)) with (at_st e1). by rewrite En.
    + change (u32 (tx_next (at_st e1) + 1) mod at_mod e1 = (tx_next (at_st e) + 1) mod at_mod e).
      rewrite at_u32_mod, En. unfold at_mod. by rewrite Ecfg.
  - split; [|split; [done|split; [exists poll; by rewrite Hhdr|split; [done|exact En]]]].
    assert (Eu : sn_under (at_set_window w e1) = tx_next (at_st (at_set_window w e1))) by (change (sn_under e0) with (sn_under e) in Esu; cbn; congruence).
    split; [done|by right| |].
    + intros i' Hi'. cbn [at_window at_set_window at_st] in Hi'. rewrite En, Hl', decide_True in Hi' by (done || lia).
      injection Hi' as <-. split; [done|]. split; [|done]. apply Z.eqb_neq in Elst. unfold xi_length in *. cbn. lia.
    + intros _. right. change (at_st (at_set_window w e1)) with (at_st e1). by rewrite En.
Qed.

(** ** Opening an SDU at TX_Next *)
Lemma half_mod ws x : 0 <= x < 2 * ws -> x mod ws = if decide (x < ws) then x else x - ws.
Proof.
  intros Hx. case_decide; [apply Z.mod_small; lia|]. rewrite <- (Z_mod_plus_full x (-1)). rewrite Z.mod_small; lia.
Qed.

(** A window that holds a whole window of consecutive SNs is full. *)
Lemma normal_not_full e :
  am_tx_base e -> tx_normal e -> win_full (at_window e) = false -> ahead e (tx_next (at_st e)) < at_window_size e.
Proof.
  intros Hb [Hle Hall] Hnf. destruct (decide (ahead e (tx_next (at_st e)) = at_window_size e)) as [E|]; [exfalso|lia].
  destruct (at_geometry e) as (Hg1 & Hg2 & _). assert (Hna := ai_next_ack _ Hb).
  eapply win_free_residue; [apply (ai_window _ Hb)|exact Hnf|]. rewrite (ai_cap _ Hb). intros r Hr.
  assert (Hone : ahead e r < at_window_size e \/ ahead e (r + at_window_size e) < at_window_size e).
  { rewrite !rel_cases by lia. repeat case_decide; lia. }
  destruct Hone as [Hr1|Hr1]; [exists r|exists (r + at_window_size e)]; (split; [lia|]); (split; [rewrite half_mod by lia; case_decide; lia|]);
    apply Hall; lia.
Qed.

(** [w] is the window of [e] after the SDU at TX_Next was added and perhaps removed. *)
Definition window_opened e w (o : option rlc_tx_am_sdu_info) : Prop :=
  win_inv w /\ win_cap w = at_window_size e /\
  forall q, 0 <= q -> win_lookup w q = if decide (q = tx_next (at_st e)) then o
    else if decide (q mod at_window_size e = tx_next (at_st e) mod at_window_size e) then None else lk e q.

Lemma opened_base e w o :
  am_tx_base e -> win_full (at_window e) = false -> window_opened e w o -> (forall i, o = Some i -> tx_info_ok i) ->
  am_tx_base (at_set_window w e) /\ tx_fresh (at_set_window w e).
Proof.
  intros Hb Hnf (Hw & Hcap & Hl) Ho. destruct (at_geometry e) as (Hg1 & Hg2 & _). assert (Hn := ai_next _ Hb).
  assert (Hin : forall k i, 0 <= k -> win_lookup w k = Some i -> tx_info_ok i /\ k < at_mod e /\ behind e k < at_window_size e).
  { intros k i Hk Hi. rewrite Hl in Hi by done. destruct (decide (k = tx_next (at_st e))) as [->|Hne].
    - split; [by apply Ho|]. split; [lia|]. unfold behind. rewrite rel_self; lia.
    - case_decide as Hres; [done|]. destruct (ai_infos _ Hb k i Hk Hi) as (? & ? & Hbe). split; [done|]. split; [done|].
      unfold behind in *. rewrite rel_cases in * by lia. rewrite !half_mod in Hres by lia. repeat case_decide; lia. }
  split; [|intros k i Hk Hi; by apply (Hin k i)]. destruct Hb as [Hw0 Hc0 Hq Hp Hn' Hna Hin0 Hph Hr]. split; try assumption.
  - intros k i Hk Hi. destruct (Hin k i Hk Hi) as (? & ? & ?). split; [done|]. split; [done|]. change (behind e k <= at_window_size e). lia.
  - destruct Hph as [Hnorm|Hov]; [left|by right].
    pose proof (normal_not_full e ltac:(by split; auto) Hnorm Hnf) as Hlt. destruct Hnorm as [Hle Hall]. split; [done|].
    intros k Hk Hk'. change (0 <= k < at_mod e) in Hk. change (ahead e k < ahead e (tx_next (at_st e))) in Hk'. cbn [at_window at_set_window]. rewrite Hl by lia.
    rewrite !decide_False; [by apply Hall|..].
    + intros Hres. clear Hl. rewrite !half_mod in Hres by lia. rel_lia.
    + intros ->. lia.
Qed.

Lemma next_not_in_window e : am_tx_inv e -> sn_under e = INVALID_RLC_SN -> lk e (tx_next (at_st e)) = None.
Proof.
  intros [Hb Hu Hc _] E. destruct (lk e (tx_next (at_st e))) as [i|] eqn:Ei; [|done]. destruct (Hc i Ei) as (E' & _).
  pose proof (ai_next _ Hb). destruct (at_geometry e) as (Hg1 & Hg2 & _). rewrite E in E'. unfold INVALID_RLC_SN in E'. lia.
Qed.

Lemma add_opened e :
  am_tx_inv e -> sn_under e = INVALID_RLC_SN -> exists ok w, add_sn (at_window e) (tx_next (at_st e)) = Some (ok, w) /\
    if (ok : bool) then window_opened e w (Some init) else w = at_window e.
Proof.
  intros Hi E. assert (Hb := ai_base _ Hi).
  destruct (win_add_spec (at_window e) (tx_next (at_st e)) (ai_window _ Hb) (proj1 (ai_next _ Hb)) (next_not_in_window e Hi E))
    as (ok & w & -> & Hw & Hc & Hl). exists ok, w. split; [done|]. destruct ok; [|done]. rewrite (ai_cap _ Hb) in *. done.
Qed.

(** Without the SDU at TX_Next, the state satisfies the invariant again. *)
Lemma unopened_inv e : am_tx_base e -> sn_under e = INVALID_RLC_SN -> lk e (tx_next (at_st e)) = None -> am_tx_inv e.
Proof.
  intros Hb Hu Hn. split; [done|by left|intros i Hi; congruence|]. intros E. exfalso. rewrite Hu in E. pose proof (ai_next _ Hb).
  destruct (at_geometry e) as (Hg1 & Hg2 & _). unfold INVALID_RLC_SN in E. lia.
Qed.

Lemma base_queue e q :
  am_tx_base e -> tx_queue_ok (2 ^ pdcp_sn_bits (ac_pdcp_sn_len (at_cfg e))) q -> am_tx_base (at_set_queue q e).
Proof. intros [] ?. by split. Qed.

(** [build_new_pdu]: nothing is sent and nothing leaves the queue, or the first SDU of the queue moves to TX_Next. *)
Definition keeps e e' : Prop :=
  live_sdus (at_queue e') = live_sdus (at_queue e) /\ tx_next (at_st e') = tx_next (at_st e) /\ sn_under e' = sn_under e /\
  forall k i, 0 <= k -> lk e' k = Some i -> lk e k = Some i.

(** The window has no memory for an SDU at TX_Next. *)
Definition window_refuses e : bool := match add_sn (at_window e) (tx_next (at_st e)) with Some (false, _) => true | _ => false end.

(** Why no SDU is started. *)
Definition start_blocked e (buf : list Z) : Prop :=
  live_sdus (at_queue e) = [] \/ buf_length buf <= head_min_size e \/ is_tx_window_full e = true \/ window_refuses e = true.

Definition new_size e (buf : list Z) (s : rlc_sdu) : Z := Z.min (sdu_length s) (buf_length buf - head_min_size e).

Definition starts e e' (buf : list Z) (n : Z) (buf' : list Z) : Prop :=
  exists s i, let k := new_size e buf s in
    live_sdus (at_queue e) = s :: live_sdus (at_queue e') /\ sends e buf n buf' (tx_next (at_st e)) 0 k (sdu_buf s) /\
    lk e' (tx_next (at_st e)) = Some i /\ xi_sdu i = sdu_buf s /\ (k <> sdu_length s -> xi_next_so i = k) /\
    (forall q j, 0 <= q -> q <> tx_next (at_st e) -> lk e' q = Some j -> lk e q = Some j) /\
    tx_next (at_st e') = if k =? sdu_length s then (tx_next (at_st e) + 1) mod at_mod e else tx_next (at_st e).

Definition same_links e e' : Prop :=
  at_cfg e' = at_cfg e /\ at_retx_queue e' = at_retx_queue e /\ tx_next_ack (at_st e') = tx_next_ack (at_st e) /\
  at_max_retx_reached e' = at_max_retx_reached e.

(** The state in which [build_new_pdu] chooses between a segment and the whole SDU. *)
Lemma open_sdu e s q w1 :
  am_tx_inv e -> sn_under e = INVALID_RLC_SN -> win_full (at_window e) = false -> window_opened e w1 (Some init) -> xi_next_so init = 0 ->
  tx_queue_ok (2 ^ pdcp_sn_bits (ac_pdcp_sn_len (at_cfg e))) q -> sdu_wf s ->
  exists w2, let i := TxInfo (sdu_buf s) (sdu_is_retx s) (sdu_pdcp_sn s) (sdu_toa s) (xi_next_so init) (xi_retx_count init) in
    win_get w1 (tx_next (at_st e)) = Some init /\ win_put w1 (tx_next (at_st e)) i = Some w2 /\
    tx_opened (at_set_window w2 (at_set_queue q (at_set_window w1 e))) i /\ window_opened e w2 (Some i).
Proof.
  intros Hi Hu Hnf (Hw1 & Hc1 & Hl1) Hso Hq (Hby & Hlen). assert (Hb := ai_base _ Hi). assert (Hn := proj1 (ai_next _ Hb)).
  set (i := TxInfo _ _ _ _ _ _).
  assert (Hg : win_lookup w1 (tx_next (at_st e)) = Some init) by (by rewrite Hl1, decide_True).
  destruct (win_put_spec w1 (tx_next (at_st e)) i Hw1 Hn (mk_is_Some _ _ Hg)) as (w2 & E & Hw2 & Hc2 & Hl2). exists w2. cbv zeta.
  split; [by rewrite win_get_lookup|]. split; [done|].
  assert (Hop : window_opened e w2 (Some i)).
  { split; [done|]. split; [congruence|]. intros k Hk. rewrite Hl2, Hl1 by done. by case_decide. }
  split; [|done]. destruct (opened_base e w2 (Some i) Hb Hnf Hop) as [Hb2 Hf2].
  { intros j [= <-]. split; [done|]. split; [done|]. unfold i. cbn. lia. }
  split; [exact (base_queue _ q Hb2 Hq)|exact Hf2|exact Hu| |exact Hso].
  destruct Hop as (_ & _ & Hop). change (win_lookup w2 (tx_next (at_st e)) = Some i). by rewrite Hop, decide_True.
Qed.

Lemma opened_others e w o q j :
  window_opened e w o -> 0 <= q -> q <> tx_next (at_st e) -> win_lookup w q = Some j -> lk e q = Some j.
Proof. intros (_ & _ & Hl) Hq Hne Hj. rewrite Hl, decide_False in Hj by done. by case_decide. Qed.

Lemma build_new_spec buf e :
  xi_next_so init = 0 -> am_tx_inv e -> sn_under e = INVALID_RLC_SN -> buf_length buf < 4294967296 ->
  exists n buf' e' ev, build_new_pdu buf e = Some (n, buf', e', ev) /\ am_tx_inv e' /\ same_links e e' /\
    (n = 0 /\ buf' = buf /\ keeps e e' /\ start_blocked e buf \/
     is_tx_window_full e = false /\ window_refuses e = false /\ starts e e' buf n buf').
Proof.
  intros Hso Hi Hu Hbuf. pose proof (head_sizes e) as [Hmin _]. assert (Hb := ai_base _ Hi). assert (Hn := ai_next _ Hb). unfold build_new_pdu.
  assert (Hnone : start_blocked e buf -> 0 = 0 /\ buf = buf /\ keeps e e /\ start_blocked e buf) by (intros; by repeat split).
  destruct (Z.leb_spec (buf_length buf) (head_min_size e)) as [|Hgt].
  { eexists _, _, _, _. split; [reflexivity|]. split; [done|]. split; [done|]. left. apply Hnone. by right; left. }
  destruct (is_tx_window_full e) eqn:Hfull.
  { eexists _, _, _, _. split; [reflexivity|]. split; [done|]. split; [done|]. left. apply Hnone. by right; right; left. }
  assert (Hnf : win_full (at_window e) = false) by (unfold is_tx_window_full in Hfull; by apply orb_false_iff in Hfull as [? _]).
  destruct (add_opened e Hi Hu) as (ok & w1 & Eadd & Hop).
  assert (Href : window_refuses e = negb ok) by (unfold window_refuses; rewrite Eadd; by destruct ok).
  rewrite Eadd. cbn [mbind option_bind]. destruct ok; cbn [negb] in *.
  2: { rewrite Hop. eexists _, _, _, _. split; [reflexivity|]. replace (at_set_window (at_window e) e) with e by (by destruct e).
       split; [done|]. split; [done|]. left. apply Hnone. by right; right; right. }
  cbn [at_queue at_set_window].
  destruct (tx_queue_read _ rlc_sdu_init (at_queue e) (ai_queue _ Hb)) as (ok & s & q & Er & Hq & Hlive & Hwf & Hempty).
  rewrite Er. cbn [mbind option_bind]. destruct ok; cbn [negb app] in *.
  - specialize (Hwf eq_refl) as [Hwf _]. destruct (open_sdu e s q w1 Hi Hu Hnf Hop Hso Hq Hwf) as (w2 & Eg & Ep & Ho & Hop2).
    cbn [at_window at_set_queue at_set_window at_st]. rewrite Eg. cbn [mbind option_bind]. rewrite Ep. cbn [mbind option_bind].
    set (e2 := at_set_window w2 _) in *. set (i := TxInfo _ _ _ _ _ _) in *.
    change (head_min_size e2) with (head_min_size e). change (xi_length i) with (sdu_length s).
    assert (Hnl : 0 <= sdu_length s) by (unfold sdu_length, buf_length; lia).
    destruct (Z.ltb_spec (buf_length buf) (sdu_length s + head_min_size e)) as [Hseg|Hfit].
    + destruct (build_first_spec buf i e2 Ho) as (n & buf' & e' & ev' & -> & Hi' & (S1 & S2 & S3 & S4 & S5) & Hs & Hn' & Hlk); [done|].
      cbn [mbind option_bind]. eexists _, _, _, _. split; [reflexivity|]. split; [done|]. split; [by repeat split|]. right. do 2 (split; [done|]).
      exists s, (xi_set_next_so (buf_length buf - head_min_size e) i). unfold new_size. rewrite Z.min_r by lia. cbv zeta.
      split; [by rewrite S2|]. split; [done|]. change (tx_next (at_st e2)) with (tx_next (at_st e)) in *. split; [by rewrite Hlk, decide_True by lia|].
      split; [done|]. split; [done|]. split.
      * intros k j Hk Hne Hj. rewrite Hlk, decide_False in Hj by done. by eapply opened_others.
      * rewrite (proj2 (Z.eqb_neq _ _)) by lia. done.
    + destruct (build_full_spec buf 0 i e2 Ho) as (n & buf' & e' & ev' & -> & Hi' & (S1 & S2 & S3 & S4 & S5) & Hs & Hn' & Hw'); [done|].
      cbn [mbind option_bind]. eexists _, _, _, _. split; [reflexivity|]. split; [done|]. split; [by repeat split|]. right. do 2 (split; [done|]).
      exists s, i. unfold new_size. rewrite Z.min_l by lia. cbv zeta. rewrite Z.eqb_refl, Hw'. destruct Hop2 as (Hw2 & Hc2 & Hl2).
      split; [by rewrite S2|]. split; [done|]. split; [apply (op_lookup _ _ Ho)|]. split; [done|]. split; [done|]. split; [|done].
      intros k j Hk Hne Hj. eapply opened_others; [by split|done|done|exact Hj].
  - cbn [at_window at_set_queue at_set_window at_st]. pose proof Hop as (Hw1 & Hc1 & Hl1).
    assert (Hg : win_lookup w1 (tx_next (at_st e)) = Some init) by (by rewrite Hl1, decide_True by lia).
    destruct (win_remove_spec w1 _ Hw1 (proj1 Hn) (mk_is_Some _ _ Hg)) as (w2 & -> & Hw2 & Hc2 & Hl2). cbn [mbind option_bind].
    assert (Hop2 : window_opened e w2 None).
    { split; [done|]. split; [congruence|]. intros k Hk. rewrite Hl2, Hl1 by done. by case_decide. }
    destruct (opened_base e w2 None Hb Hnf Hop2) as [Hb2 _]; [done|].
    assert (Hn2 : win_lookup w2 (tx_next (at_st e)) = None) by (by rewrite Hl2, decide_True by lia).
    eexists _, _, _, _. split; [reflexivity|]. split; [apply unopened_inv; [exact (base_queue _ q Hb2 Hq)|exact Hu|exact Hn2]|].
    split; [done|]. left. split; [done|]. split; [done|]. split; [|left; rewrite Hlive; cbn [app]].
    + repeat split; [done|]. intros k j Hk Hj. eapply opened_others; [exact Hop2|done| |exact Hj]. intros ->. cbn in Hj. congruence.
    + unfold live_sdus. by rewrite (Hempty eq_refl).
Qed.

(** ** Retransmissions *)

(** The requests from the first one on whose SDU is still in the window. *)
Fixpoint live_retx w (rs : list rlc_tx_amd_retx) : list rlc_tx_amd_retx :=
  match rs with [] => [] | r :: t => if has_sn w (r_sn r) then rs else live_retx w t end.

Lemma live_retx_suffix w rs : live_retx w rs `suffix_of` rs.
Proof. induction rs as [|r t IH]; [done|]. cbn. case_match; [done|]. by apply suffix_cons_r. Qed.

Lemma live_retx_head w rs r : head (live_retx w rs) = Some r -> has_sn w (r_sn r) = true.
Proof. induction rs as [|r' t IH]; [done|]. cbn. destruct (has_sn w (r_sn r')) eqn:E; [|done]. by intros [= <-]. Qed.

(** Dropping the stale front leaves exactly these. *)
Lemma drop_stale_spec w fuel : forall q l,
  retx_repr q l -> (length l <= fuel)%nat ->
  exists q' l', drop_stale_retx fuel w q = Some q' /\ retx_repr q' l' /\ retx_cap q' = retx_cap q /\
    valid_retx l' = live_retx w (valid_retx l).
Proof.
  induction fuel as [|fuel IH]; intros q l Hr Hlen; cbn [drop_stale_retx]; rewrite (retx_empty_valid _ _ Hr), (retx_front_spec _ _ Hr);
    destruct (valid_retx l) as [|r t] eqn:Ev; cbn [head mbind option_bind live_retx].
  all: try (exists q, l; rewrite Ev; by repeat (split; [done|])).
  { exfalso. destruct l; [done|cbn in Hlen; lia]. }
  destruct (has_sn w (r_sn r)) eqn:Hs.
  { exists q, l. by rewrite Ev. }
  destruct (retx_pop_spec _ _ Hr) as (q1 & l1 & -> & Hr1 & Hv1 & Hc1 & Hl1 & _). cbn [mbind option_bind].
  assert (Hne : l <> []) by (by intros ->). specialize (Hl1 Hne). destruct (IH q1 l1 Hr1) as (q' & l' & -> & Hr' & Hc' & Hv'); [lia|].
  exists q', l'. split; [done|]. split; [done|]. split; [congruence|]. by rewrite Hv', Hv1, Ev.
Qed.

Lemma retx_size_length q l : retx_repr q l -> Z.to_nat (retx_size q) = length l.
Proof. intros [Hr _]. unfold retx_size. destruct (rb_repr_size _ _ Hr) as [-> _]. by rewrite Nat2Z.id. Qed.

Lemma Forall_suffix {A} (P : A -> Prop) l1 l2 : l1 `suffix_of` l2 -> Forall P l2 -> Forall P l1.
Proof. intros [k ->] H'. by apply Forall_app in H' as [_ ?]. Qed.

(** The invariant only asks of the retransmission queue that it is well-formed. *)
Lemma inv_set_retx e q sn l :
  am_tx_inv e -> retx_repr q l -> Forall (retx_ok (at_mod e)) (valid_retx l) -> retx_cap q = at_window_size e ->
  am_tx_inv (at_set_retx q sn e).
Proof. intros [[] ? ? ?] ? ? ?. split; try done. split; try done. by exists l. Qed.

Lemma drop_stale_inv e sn :
  am_tx_inv e -> exists q l, drop_stale_retx (Z.to_nat (retx_size (at_retx_queue e))) (at_window e) (at_retx_queue e) = Some q /\
    retx_repr q l /\ Forall (retx_ok (at_mod e)) (valid_retx l) /\ retx_cap q = at_window_size e /\ am_tx_inv (at_set_retx q sn e) /\
    (forall r, head (valid_retx l) = Some r -> exists i, lk e (r_sn r) = Some i) /\
    (forall l0, retx_repr (at_retx_queue e) l0 -> valid_retx l = live_retx (at_window e) (valid_retx l0)).
Proof.
  intros Hi. destruct (ai_retx _ (ai_base _ Hi)) as (l0 & Hr0 & Hok0 & Hc0).
  destruct (drop_stale_spec (at_window e) (Z.to_nat (retx_size (at_retx_queue e))) _ _ Hr0) as (q & l & E & Hr & Hc & Hv);
    [by rewrite (retx_size_length _ _ Hr0)|]. exists q, l.
  assert (Hok : Forall (retx_ok (at_mod e)) (valid_retx l)) by (rewrite Hv; eapply Forall_suffix; [apply live_retx_suffix|done]).
  split; [done|]. split; [done|]. split; [done|]. split; [congruence|]. split; [eapply inv_set_retx; (done || congruence)|].
  split; [|intros l1 Hl1; assert (l1 = l0) as -> by (destruct Hl1, Hr0; by eapply rb_repr_unique); done].
  intros r Er. assert (Hh : has_sn (at_window e) (r_sn r) = true) by (rewrite Hv in Er; by eapply live_retx_head). assert (Hsn : 0 <= r_sn r).
  { destruct (valid_retx l) as [|r' t]; [done|]. injection Er as ->. by apply Forall_cons in Hok as [[[? _] _] _]. }
  rewrite (win_has _ _ (ai_window _ (ai_base _ Hi)) Hsn) in Hh. by apply bool_decide_eq_true in Hh.
Qed.

Lemma write_retx_spec buf r i k e :
  retx_ok (at_mod e) r -> 1 <= k <= r_length r -> r_so r + r_length r <= xi_length i -> xi_length i <= 65536 ->
  hdr_size e (r_so r) + k <= buf_length buf ->
  exists n buf' e' ev, write_retx_pdu buf r i k e = Some (n, buf', e', ev) /\ same_core e e' /\
    at_max_retx_reached e' = at_max_retx_reached e /\ sends e buf n buf' (r_sn r) (r_so r) k (xi_sdu i).
Proof.
  intros (Hsn & Hso & Hl & Hmax) Hk Hlen Hmax' Hfit. pose proof (hdr_size_pos e (r_so r)) as Hhp.
  assert (Hslice : slice_ok e buf (r_sn r) (r_so r) k (xi_sdu i)) by (unfold slice_ok, xi_length in *; repeat split; lia).
  unfold write_retx_pdu. change (get_retx_expected_hdr_len r e) with (hdr_size e (r_so r)).
  set (si := if r_so r =? 0 then _ else _).
  assert (Esi : si = si_of_slice (r_so r) k (buf_length (xi_sdu i))).
  { unfold si, si_of_slice. unfold xi_length in *. destruct (Z.eqb_spec (r_so r) 0) as [E0|];
    destruct (Z.leb_spec (buf_length (xi_sdu i)) (r_so r + k)).
    all: repeat match goal with |- context [?a =? ?b] => destruct (Z.eqb_spec a b) end; try done; lia. }
  destruct (get_polling_bit_core (r_sn r) true 0 e) as (poll & e1 & -> & Hpoll & Hcore & _ & Hmr & _).
  assert (Ecfg : at_cfg e1 = at_cfg e) by (by destruct Hcore).
  destruct (write_pdu_steps e buf poll _ _ k (xi_sdu i) Hpoll Hslice) as (buf1 & Ewr & Evw & Ecp & Elen).
  replace (data_header e1 poll) with (data_header e poll) by (unfold data_header; by rewrite Ecfg).
  rewrite Esi, Ewr. cbn [mbind option_bind]. rewrite (proj2 (Z.eqb_neq _ _)), Z.eqb_refl, Evw by lia. cbn [mbind option_bind negb]. rewrite Ecp.
  rewrite (proj2 (Z.eqb_neq _ _)), Z.eqb_refl by lia. cbn [orb negb]. eexists _, _, _, _. split; [reflexivity|].
  split; [done|]. split; [done|]. by exists poll.
Qed.

(** What stays when a retransmission is built. *)
Definition same_window e e' : Prop :=
  at_cfg e' = at_cfg e /\ at_window e' = at_window e /\ at_queue e' = at_queue e /\ sn_under e' = sn_under e /\
  tx_next (at_st e') = tx_next (at_st e) /\ tx_next_ack (at_st e') = tx_next_ack (at_st e).

(** One turn of the retransmission queue with a grant: what is sent (the SN, the offset, the number of bytes and the SDU), the
    requests that remain, and whether the limit of retransmissions is reached. Requests for SDUs that are gone are dropped; a
    request that does not fit its SDU is dropped without sending; of the others the first is served as far as the grant has
    room behind the header, and stays with the rest of its bytes. *)
Definition serve_retx e (buf : list Z) (rs : list rlc_tx_amd_retx)
  : option (Z * Z * Z * list Z) * list rlc_tx_amd_retx * bool :=
  match live_retx (at_window e) rs with
  | [] => (None, [], false)
  | r :: t =>
    match lk e (r_sn r) with
    | None => (None, r :: t, false)
    | Some i =>
      if xi_length i <? r_so r + r_length r then (None, t, false) else
      if buf_length buf <=? hdr_size e (r_so r) then (None, r :: t, false) else
      let k := Z.min (r_length r) (buf_length buf - hdr_size e (r_so r)) in
      (Some (r_sn r, r_so r, k, xi_sdu i),
       if k =? r_length r then t else Retx (r_sn r) (r_so r + k) (r_length r - k) :: t,
       (k =? r_length r) && (xi_retx_count i =? ac_max_retx_thresh (at_cfg e)))
    end
  end.

(** The grant is used for [o]. *)
Definition written e (buf : list Z) (n : Z) (buf' : list Z) (o : option (Z * Z * Z * list Z)) : Prop :=
  match o with
  | None => n = 0 /\ buf' = buf
  | Some (sn, so, k, sdu) => sends e buf n buf' sn so k sdu
  end.

Lemma serve_retx_sdu e buf rs rs' hit sn so k sdu :
  serve_retx e buf rs = (Some (sn, so, k, sdu), rs', hit) -> exists i, lk e sn = Some i /\ xi_sdu i = sdu.
Proof.
  unfold serve_retx. destruct (live_retx _ _) as [|r t]; [done|]. destruct (lk e (r_sn r)) as [i|] eqn:E; [|done].
  destruct (_ <? _); [done|]. destruct (_ <=? _); [done|]. intros [= <- <- <- <- _ _]. by exists i.
Qed.

Definition retx_of e (rs : list rlc_tx_amd_retx) : Prop := exists l, retx_repr (at_retx_queue e) l /\ valid_retx l = rs.

Lemma retx_of_unique e rs rs' : retx_of e rs -> retx_of e rs' -> rs = rs'.
Proof. intros (l & [Hl _] & <-) (l' & [Hl' _] & <-). by rewrite (rb_repr_unique _ _ _ Hl Hl'). Qed.

(** The retransmission queue was served. *)
Definition retx_turn e e' (buf : list Z) (n : Z) (buf' : list Z) : Prop :=
  exists rs rs' o hit, retx_of e rs /\ retx_of e' rs' /\ serve_retx e buf rs = (o, rs', hit) /\ written e buf n buf' o /\
    at_max_retx_reached e' = at_max_retx_reached e || hit.

(** The front request is popped, or stays with the rest of its bytes. *)
Lemma retx_front_served e q l r t i k q1 l1 :
  am_tx_inv e -> retx_repr q l -> valid_retx l = r :: t -> Forall (retx_ok (at_mod e)) (r :: t) -> retx_cap q = at_window_size e ->
  retx_pop q = Some q1 -> retx_repr q1 l1 -> valid_retx l1 = t -> (forall sn, am_tx_inv (at_set_retx q1 sn e)) -> 1 <= k <= r_length r ->
  exists e2 l2,
    (if k =? r_length r then
       let e := if xi_retx_count i =? ac_max_retx_thresh (at_cfg e) then at_set_max_retx true (at_set_retx q (r_sn r) e) else at_set_retx q (r_sn r) e in
       Some (at_set_retx q1 (r_sn r) e)
     else q ← retx_replace_front (Retx (r_sn r) (u32 (r_so r + k)) (u32 (r_length r - k))) q; Some (at_set_retx q (r_sn r) (at_set_retx q (r_sn r) e))) = Some e2 /\
    am_tx_inv e2 /\ same_window e e2 /\ retx_repr (at_retx_queue e2) l2 /\
    valid_retx l2 = (if k =? r_length r then t else Retx (r_sn r) (r_so r + k) (r_length r - k) :: t) /\
    at_max_retx_reached e2 = at_max_retx_reached e || (k =? r_length r) && (xi_retx_count i =? ac_max_retx_thresh (at_cfg e)).
Proof.
  intros Hi Hr Ev Hok Hc Epop Hr1 Hv1 Hipop Hk. apply Forall_cons in Hok as [(Hsn & Hso & Hl & Hmax) Htok].
  destruct (Z.eqb_spec k (r_length r)) as [|Hne]; cbn [andb].
  - eexists _, l1. split; [reflexivity|]. case_match; cbn [andb]; (split; [|split; [done|split; [done|split; [done|]]]]).
    + eapply (same_core_inv (at_set_retx q1 (r_sn r) e)); [by repeat split|apply Hipop].
    + by rewrite orb_true_r.
    + apply Hipop.
    + by rewrite orb_false_r.
  - destruct l as [|x l]; [done|]. destruct Hr as [Hrb Hfr]. cbn in Hfr.
    destruct (retx_replace_front_spec (Retx (r_sn r) (u32 (r_so r + k)) (u32 (r_length r - k))) q x l (conj Hrb Hfr)) as (q2 & -> & Hr2 & Hc2 & _).
    cbn [mbind option_bind]. eexists _, _. split; [reflexivity|].
    rewrite valid_retx_cons in Ev. rewrite Hfr in Ev. cbn [app] in Ev. injection Ev as _ Ev.
    assert (E2 : valid_retx (RetxItem false (Retx (r_sn r) (u32 (r_so r + k)) (u32 (r_length r - k))) :: l) = Retx (r_sn r) (r_so r + k) (r_length r - k) :: t).
    { rewrite valid_retx_cons, Ev. cbn. by rewrite !u32_small by lia. }
    split; [|split; [done|split; [exact Hr2|split; [exact E2|by rewrite orb_false_r]]]].
    apply (inv_set_retx e q2 (r_sn r) _ Hi Hr2); [|congruence]. rewrite E2. constructor; [|done]. unfold retx_ok. cbn. lia.
Qed.

Lemma build_retx_spec buf e :
  am_tx_inv e -> buf_length buf < 4294967296 ->
  exists n buf' e' ev, build_retx_pdu buf e = Some (n, buf', e', ev) /\ am_tx_inv e' /\ same_window e e' /\ retx_turn e e' buf n buf'.
Proof.
  intros Hi Hbuf. unfold build_retx_pdu. destruct (drop_stale_inv e (at_retx_sn e) Hi) as (q & l & -> & Hr & Hok & Hc & Hi1 & Hh & Hlive).
  destruct (ai_retx _ (ai_base _ Hi)) as (l0 & Hr0 & _). specialize (Hlive l0 Hr0).
  assert (Hturn : forall n buf' e' o hit l', retx_repr (at_retx_queue e') l' -> serve_retx e buf (valid_retx l0) = (o, valid_retx l', hit) ->
    written e buf n buf' o -> at_max_retx_reached e' = at_max_retx_reached e || hit -> retx_turn e e' buf n buf').
  { intros n buf' e' o hit l' Hl' Hs Hw Hm. exists (valid_retx l0), (valid_retx l'), o, hit. split; [by exists l0|]. by split; [exists l'|]. }
  unfold serve_retx in Hturn. rewrite <- Hlive in Hturn.
  cbn [mbind option_bind]. rewrite (retx_empty_valid _ _ Hr), (retx_front_spec _ _ Hr).
  destruct (valid_retx l) as [|r t] eqn:Ev; cbn [head mbind option_bind].
  { eexists _, _, _, _. split; [reflexivity|]. split; [done|split; [done|]]. eapply Hturn; [exact Hr|by rewrite Ev|done|by rewrite orb_false_r]. }
  destruct (Hh r eq_refl) as [i Hlk]. assert (Hok' := Hok). apply Forall_cons in Hok' as [Hrok Htok]. pose proof Hrok as (Hsn & Hso & Hl & Hmax).
  assert (Hb := ai_base _ Hi). cbn [at_window at_set_retx]. rewrite (win_get_lookup _ _ (ai_window _ Hb) (proj1 Hsn)), Hlk. cbn [mbind option_bind].
  rewrite Hlk in Hturn.
  destruct (ai_infos _ Hb _ i (proj1 Hsn) Hlk) as ((_ & Hlen & _) & _ & _). rewrite u32_small by lia.
  destruct (retx_pop_spec _ _ Hr) as (q1 & l1 & Epop & Hr1 & Hv1 & Hc1 & _). rewrite Epop. cbn [mbind option_bind].
  rewrite Ev in Hv1. cbn [tail] in Hv1.
  assert (Hipop : forall sn, am_tx_inv (at_set_retx q1 sn e)) by (intros sn; eapply inv_set_retx; [done|exact Hr1|by rewrite Hv1|congruence]).
  destruct (Z.ltb_spec (xi_length i) (r_so r + r_length r)) as [|Hin].
  { eexists _, _, _, _. split; [reflexivity|]. split; [apply Hipop|]. split; [done|].
    eapply Hturn; [exact Hr1|by rewrite Hv1|done|by rewrite orb_false_r]. }
  change (get_retx_expected_hdr_len r (at_set_retx q (r_sn r) e)) with (hdr_size e (r_so r)).
  destruct (Z.leb_spec (buf_length buf) (hdr_size e (r_so r))) as [|Hgt].
  { eexists _, _, _, _. split; [reflexivity|]. split; [by eapply inv_set_retx; [|exact Hr|rewrite Ev|]|]. split; [done|].
    eapply Hturn; [exact Hr|by rewrite Ev|done|by rewrite orb_false_r]. }
  set (k := Z.min (r_length r) (buf_length buf - hdr_size e (r_so r))) in *.
  set (e2 := if k =? r_length r then _ else _).
  assert (He2 : exists e2' l2, e2 = Some e2' /\ am_tx_inv e2' /\ same_window e e2' /\ retx_repr (at_retx_queue e2') l2 /\
    valid_retx l2 = (if k =? r_length r then t else Retx (r_sn r) (r_so r + k) (r_length r - k) :: t) /\
    at_max_retx_reached e2' = at_max_retx_reached e || (k =? r_length r) && (xi_retx_count i =? ac_max_retx_thresh (at_cfg e))).
  { apply (retx_front_served e q l r t i k q1 l1); try done. unfold k. lia. }
  destruct He2 as (e2' & l2 & -> & Hi2 & Hsame & Hr2 & Hv2 & Hm2). cbn [mbind option_bind].
  assert (Hmod : forall x, hdr_size e2' x = hdr_size e x).
  { intros x. unfold hdr_size, head_min_size, head_max_size. by destruct Hsame as (-> & _). }
  destruct (write_retx_spec buf r i k e2') as (n & buf' & e' & ev & -> & Hcore & Hm & Hs).
  - unfold at_mod in *. by destruct Hsame as (-> & _).
  - unfold k. lia.
  - done.
  - lia.
  - rewrite Hmod. unfold k. lia.
  - eexists _, _, _, _. split; [reflexivity|]. split; [by eapply same_core_inv|].
    destruct Hsame as (S1 & S2 & S3 & S4 & S5 & S6), Hcore as (C1 & C2 & C3 & C4 & C5 & C6 & C7). split; [repeat split; congruence|].
    eapply Hturn; [rewrite C4; exact Hr2|by rewrite Hv2| |congruence]. cbn [written].
    unfold sends, slice_ok, hdr_size, head_min_size, head_max_size, at_mod in *. by rewrite S1 in Hs.
Qed.

(** ** [pull_pdu] without a status report *)

(** Nothing awaits a retransmission, and the next bytes of new data cannot be sent. *)
Definition nothing_due e e' (buf : list Z) : Prop :=
  retx_empty (at_retx_queue e) = true /\ at_retx_queue e' = at_retx_queue e /\ at_max_retx_reached e' = at_max_retx_reached e /\
  match lk e (tx_next (at_st e)) with Some i => buf_length buf <= head_max_size e | None => start_blocked e buf end.

Definition new_data e e' : Prop :=
  at_retx_queue e' = at_retx_queue e /\ at_max_retx_reached e' = at_max_retx_reached e.

Inductive data_pull e e' (buf : list Z) (n : Z) (buf' : list Z) : Prop :=
| PullNothing :
    n = 0 -> buf' = buf -> live_sdus (at_queue e') = live_sdus (at_queue e) -> tx_next (at_st e') = tx_next (at_st e) ->
    lk e' (tx_next (at_st e)) = lk e (tx_next (at_st e)) -> (forall k i, 0 <= k -> lk e' k = Some i -> lk e k = Some i) ->
    nothing_due e e' buf -> data_pull e e' buf n buf'
| PullRetx :
    retx_empty (at_retx_queue e) = false -> retx_turn e e' buf n buf' -> same_window e e' -> data_pull e e' buf n buf'
| PullContinue i :
    retx_empty (at_retx_queue e) = true -> sn_under e = tx_next (at_st e) -> lk e (tx_next (at_st e)) = Some i ->
    let k := continued_size e buf i in
    sends e buf n buf' (tx_next (at_st e)) (xi_next_so i) k (xi_sdu i) -> at_queue e' = at_queue e ->
    (forall q, 0 <= q -> lk e' q = if decide (q = tx_next (at_st e)) then Some (xi_set_next_so (xi_next_so i + k) i) else lk e q) ->
    tx_next (at_st e') = (if xi_next_so i + k =? xi_length i then (tx_next (at_st e) + 1) mod at_mod e else tx_next (at_st e)) ->
    new_data e e' -> data_pull e e' buf n buf'
| PullStart :
    retx_empty (at_retx_queue e) = true -> lk e (tx_next (at_st e)) = None -> is_tx_window_full e = false ->
    window_refuses e = false -> starts e e' buf n buf' -> new_data e e' -> data_pull e e' buf n buf'.

Lemma retx_turn_sends e e' buf n buf' :
  retx_turn e e' buf n buf' -> n = 0 /\ buf' = buf \/ exists sn so k i, lk e sn = Some i /\ sends e buf n buf' sn so k (xi_sdu i).
Proof.
  intros (rs & rs' & [[[[sn so] k] sdu]|] & hit & _ & _ & Hs & Hw & _); [|by left]. right.
  apply serve_retx_sdu in Hs as (i & Hi & <-). by exists sn, so, k, i.
Qed.

Lemma is_empty_live q : is_empty q = true -> live_sdus q = [].
Proof. unfold is_empty, live_sdus. by destruct (spsc q). Qed.

Lemma retx_repr_inv e : am_tx_inv e -> exists l, retx_repr (at_retx_queue e) l.
Proof. intros Hi. destruct (ai_retx _ (ai_base _ Hi)) as (l & ? & _). by exists l. Qed.

Lemma pull_data_spec buf e :
  xi_next_so init = 0 -> am_tx_inv e -> buf_length buf < 4294967296 ->
  exists n buf' e' ev, pull_data_pdu buf e = Some (n, buf', e', ev) /\ am_tx_inv e' /\ at_cfg e' = at_cfg e /\
    tx_next_ack (at_st e') = tx_next_ack (at_st e) /\ data_pull e e' buf n buf'.
Proof.
  intros Hso Hi Hbuf. assert (Hb := ai_base _ Hi). assert (Hn := ai_next _ Hb). unfold pull_data_pdu.
  destruct (retx_empty (at_retx_queue e)) eqn:Hre; cbn [negb].
  2: { destruct (build_retx_spec buf e Hi Hbuf) as (n & buf' & e' & ev & -> & Hi' & Hs & Hturn).
       eexists _, _, _, _. split; [reflexivity|]. split; [done|]. pose proof Hs as (S1 & S2 & S3 & S4 & S5 & S6). split; [done|]. split; [done|].
       by apply PullRetx. }
  assert (Hunder : negb (sn_under e =? INVALID_RLC_SN) && has_sn (at_window e) (sn_under e) = true \/
    negb (sn_under e =? INVALID_RLC_SN) && has_sn (at_window e) (sn_under e) = false /\ lk e (tx_next (at_st e)) = None).
  { destruct (Z.eqb_spec (sn_under e) INVALID_RLC_SN) as [E|Hne]; cbn [negb andb].
    - right. split; [done|by apply next_not_in_window].
    - destruct (ai_under _ Hi) as [|E]; [done|]. rewrite E, (win_has _ _ (ai_window _ Hb) (proj1 Hn)).
      destruct (lk e (tx_next (at_st e))) eqn:El; [left; by apply bool_decide_eq_true|right]. split; [apply bool_decide_eq_false; by intros []|done]. }
  destruct Hunder as [Hu|[Hu Hnone]]; rewrite Hu.
  - apply andb_true_iff in Hu as [Hne Hhas]. apply negb_true_iff, Z.eqb_neq in Hne. destruct (ai_under _ Hi) as [|E]; [done|].
    rewrite E, (win_has _ _ (ai_window _ Hb) (proj1 Hn)) in Hhas. apply bool_decide_eq_true in Hhas as [i Hlk].
    rewrite E, (win_get_lookup _ _ (ai_window _ Hb) (proj1 Hn)), Hlk. cbn [mbind option_bind]. rewrite <- E in Hlk.
    pose proof (build_continued_spec buf i e Hi Hne Hlk Hbuf) as Hc. cbv zeta in Hc. rewrite E in Hlk.
    destruct (Z.leb_spec (buf_length buf) (head_max_size e)) as [Hle|_].
    { rewrite Hc. eexists _, _, _, _. split; [reflexivity|]. do 3 (split; [done|]). apply PullNothing; try done.
      unfold nothing_due. rewrite Hlk. do 3 (split; [done|]). exact Hle. }
    destruct Hc as (n & buf' & e' & ev & -> & Hi' & (S1 & S2 & S3 & S4 & S5) & Hs & Hl & Hn').
    eexists _, _, _, _. split; [reflexivity|]. split; [done|]. split; [done|]. split; [done|]. by eapply PullContinue.
  - set (e0 := at_set_under_segmentation INVALID_RLC_SN e).
    assert (Hb0 : am_tx_base e0) by (by destruct Hb; split).
    assert (Hi0 : am_tx_inv e0) by (by apply unopened_inv).
    destruct (is_empty (at_queue e0)) eqn:Hqe.
    { eexists _, _, _, _. split; [reflexivity|]. do 3 (split; [done|]). apply PullNothing; try done.
      unfold nothing_due. rewrite Hnone. do 3 (split; [done|]). left. by apply is_empty_live. }
    destruct (build_new_spec buf e0 Hso Hi0 eq_refl Hbuf) as (n & buf' & e' & ev & -> & Hi' & (S1 & S2 & S3 & S4) & Hcase).
    eexists _, _, _, _. split; [reflexivity|]. split; [done|]. split; [done|]. split; [done|].
    destruct Hcase as [(-> & -> & (K1 & K2 & _ & K4) & Hblk)|(Hfull & Href & Hst)]; [|by apply PullStart].
    apply PullNothing; try done; change (at_window e0) with (at_window e) in *.
    + destruct (lk e' (tx_next (at_st e))) as [j|] eqn:Ej; [|done]. apply K4 in Ej; [congruence|lia].
    + unfold nothing_due. rewrite Hnone. by do 3 (split; [done|]).
Qed.

(** A PDU is as long as the call says, fits the grant, and carries its slice behind a readable header. *)
Lemma sends_readable e buf n buf' sn so k sdu :
  sends e buf n buf' sn so k sdu ->
  0 < n <= buf_length buf /\ length buf' = length buf /\
  exists h, rlc_am_read_data_pdu_header (take (Z.to_nat n) buf') (ac_sn_size (at_cfg e)) rlc_am_pdu_header_init = Some (true, h) /\
    h_dc h = dc_data /\ h_sn h = sn /\ h_so h = so /\ h_si h = si_of_slice so k (buf_length sdu) /\
    drop (Z.to_nat (get_packed_size h)) (take (Z.to_nat n) buf') = slice sdu so k.
Proof.
  intros (poll & Hpoll & Hsl & -> & ->). pose proof (write_pdu_steps e buf poll sn so k sdu Hpoll Hsl) as (buf1 & _ & _ & _ & Elen).
  destruct Hsl as (Hsn & Hso & Hk & Hlen & Hmax & Hfit). pose proof (hdr_size_pos e so).
  set (pdu := am_data_pdu _ poll sn so k sdu) in *. rewrite <- Elen.
  assert (Et : forall rest, take (Z.to_nat (buf_length pdu)) (pdu ++ rest) = pdu)
    by (intros; unfold buf_length; by rewrite Nat2Z.id, take_app_length).
  rewrite Et.
  split; [lia|]. split; [unfold buf_length in *; rewrite length_app, length_drop; lia|].
  set (h := AmHdr dc_data poll (si_of_slice so k (buf_length sdu)) (ac_sn_size (at_cfg e)) sn so).
  assert (Hok : am_header_ok h).
  { unfold am_header_ok, h. cbn [h_p h_sn h_so h_si h_sn_size]. rewrite <- at_mod_pow, si_of_slice_so by lia.
    split; [lia|]. split; [done|]. split; [lia|]. destruct (Z.eqb_spec so 0); cbn; split; congruence. }
  exists h. unfold pdu, am_data_pdu. fold h. split; [|split; [done|split; [done|split; [done|split; [done|]]]]].
  - change (ac_sn_size (at_cfg e)) with (h_sn_size h). apply am_read_octets; [done|done|]. intros E.
    apply (f_equal buf_length) in E. rewrite slice_length in E by lia. unfold buf_length in E. cbn in E. lia.
  - rewrite <- (am_header_octets_length h). unfold rd_length. by rewrite Nat2Z.id, drop_app_length.
Qed.
End pdus.
