(* ===== verification/RlcTxAmAcks.v ===== *)
(** * Properties of the AM transmitter: acknowledgements and retransmission counters

    The loop over acknowledged SNs removes exactly the acknowledged SDUs of the window, in order, and moves TX_Next_Ack
    behind them; clearing the retransmission queue changes nothing but counters. *)
From S2P Require Import Prelude ByteCursor RlcConfig RlcAmPdu RlcAmStatusPdu PdcpSn SduQueue.
From S2P Require Import SduWindow SduWindowCount RingBuffer RlcRetxQueue RlcRxBase RlcTxBase RlcTxAm RlcTxAmStatus.
From S2P Require Import RlcTxAmFacts RlcTxAmPdus.

(** An SDU of the window without its counter. *)
Definition uncounted (i : rlc_tx_am_sdu_info) : rlc_tx_am_sdu_info := xi_set_retx_count 0 i.

Lemma uncounted_ok i j : uncounted i = uncounted j -> tx_info_ok i -> tx_info_ok j.
Proof. destruct i, j. unfold uncounted, xi_set_retx_count. cbn. intros [= -> -> -> -> ->]. done. Qed.

Section acks.
Context {W : Type} `{SduWindowCountLaws rlc_tx_am_sdu_info W}.
Implicit Types (e : rlc_tx_am_entity W) (w : W).

Notation lk e k := (win_lookup (at_window e) k).
Notation sn_under e := (at_sn_under_segmentation e).
Notation ahead e := (rel (at_mod e) (tx_next_ack (at_st e))).

(** Windows that differ in the counters only. *)
Definition same_sdus w w' : Prop := forall q, 0 <= q -> uncounted <$> win_lookup w' q = uncounted <$> win_lookup w q.

Lemma same_sdus_refl w : same_sdus w w. Proof. done. Qed.
Lemma same_sdus_trans w1 w2 w3 : same_sdus w1 w2 -> same_sdus w2 w3 -> same_sdus w1 w3.
Proof. intros H12 H23 q Hq. by rewrite H23, H12. Qed.

Lemma same_sdus_some w w' q j : same_sdus w w' -> 0 <= q -> win_lookup w' q = Some j ->
  exists i, win_lookup w q = Some i /\ uncounted i = uncounted j.
Proof. intros Hs Hq Hj. specialize (Hs q Hq). rewrite Hj in Hs. destruct (win_lookup w q) as [i|]; [|done]. exists i. split; [done|]. cbn in Hs. congruence. Qed.

Lemma same_sdus_is_some w w' q : same_sdus w w' -> 0 <= q -> is_Some (win_lookup w q) -> is_Some (win_lookup w' q).
Proof. intros Hs Hq [i Hi]. specialize (Hs q Hq). rewrite Hi in Hs. destruct (win_lookup w' q) as [j|]; [by eexists|done]. Qed.

(** The invariant does not depend on the counters. *)
Lemma same_sdus_inv e w :
  am_tx_inv e -> win_inv w -> win_cap w = at_window_size e -> same_sdus (at_window e) w -> am_tx_inv (at_set_window w e).
Proof.
  intros [Hb Hu Hc Hp] Hw Hcap Hs. assert (Hn := ai_next _ Hb).
  assert (Hfr : tx_fresh e -> tx_fresh (at_set_window w e)).
  { intros Hf k j Hk Hj. destruct (same_sdus_some _ _ k j Hs Hk Hj) as (i & Hi & _). exact (Hf k i Hk Hi). }
  split; [|done| |].
  - destruct Hb as [Hw0 Hc0 Hq Hpd Hn' Hna Hin Hph Hr]. split; try assumption.
    + intros k j Hk Hj. destruct (same_sdus_some _ _ k j Hs Hk Hj) as (i & Hi & E). destruct (Hin k i Hk Hi) as (? & ? & ?).
      split; [by eapply uncounted_ok|done].
    + destruct Hph as [[Hle Hall]|Hov]; [left|by right]. split; [done|]. intros k Hk Hlt. eapply same_sdus_is_some; [done|lia|by apply Hall].
  - intros j Hj. destruct (same_sdus_some _ _ _ j Hs (proj1 Hn) Hj) as (i & Hi & E). destruct (Hc i Hi) as (? & ? & ?).
    split; [done|]. split; [|auto]. destruct i, j. unfold uncounted, xi_set_retx_count in E. cbn in E. injection E as -> -> -> -> ->. done.
  - intros E. destruct (Hp E) as [|Hs']; [by left|right]. eapply same_sdus_is_some; [done|apply Hn|done].
Qed.

Lemma set_count_spec e sn i c :
  am_tx_inv e -> 0 <= sn -> lk e sn = Some i ->
  exists w, win_put (at_window e) sn (xi_set_retx_count c i) = Some w /\ am_tx_inv (at_set_window w e) /\ same_sdus (at_window e) w /\
    win_lookup w sn = Some (xi_set_retx_count c i).
Proof.
  intros Hi Hsn Hlk. assert (Hb := ai_base _ Hi).
  destruct (win_put_spec (at_window e) sn (xi_set_retx_count c i) (ai_window _ Hb) Hsn (mk_is_Some _ _ Hlk)) as (w & E & Hw & Hc & Hl).
  exists w. split; [done|].
  assert (Hs : same_sdus (at_window e) w) by (intros q Hq; rewrite Hl by done; case_decide as Eq; [|done]; by rewrite Eq, Hlk).
  split; [|split; [done|by rewrite Hl, decide_True]]. apply same_sdus_inv; [done|done| |done]. rewrite Hc. apply (ai_cap _ Hb).
Qed.

(** What the counters leave alone. *)
Definition only_counts e e' : Prop :=
  same_sdus (at_window e) (at_window e') /\ at_cfg e' = at_cfg e /\ at_st e' = at_st e /\ at_queue e' = at_queue e /\
  sn_under e' = sn_under e.

Lemma only_counts_trans e1 e2 e3 : only_counts e1 e2 -> only_counts e2 e3 -> only_counts e1 e3.
Proof.
  intros (? & ? & ? & ? & ?) (? & ? & ? & ? & ?). split; [by eapply same_sdus_trans|]. repeat split; congruence.
Qed.

Lemma increment_spec e sn :
  am_tx_inv e -> 0 <= sn -> is_Some (lk e sn) ->
  exists e' ev, increment_retx_count sn e = Some (e', ev) /\ am_tx_inv e' /\ only_counts e e' /\ at_retx_queue e' = at_retx_queue e.
Proof.
  intros Hi Hsn [i Hlk]. assert (Hb := ai_base _ Hi). unfold increment_retx_count, check_sn_reached_max_retx.
  rewrite (win_get_lookup _ _ (ai_window _ Hb) Hsn), Hlk. cbn [mbind option_bind].
  set (c := if _ =? _ then 0 else _). destruct (set_count_spec e sn i c Hi Hsn Hlk) as (w & -> & Hi' & Hs & Hl). cbn [mbind option_bind].
  cbn [at_window at_set_window]. rewrite (win_get_lookup w sn (ai_window _ (ai_base _ Hi')) Hsn), Hl.
  cbn [mbind option_bind]. eexists _, _. by split.
Qed.

Lemma decrement_spec e sn :
  am_tx_inv e -> 0 <= sn -> is_Some (lk e sn) ->
  exists e', decrement_retx_count sn e = Some e' /\ am_tx_inv e' /\ only_counts e e' /\ at_retx_queue e' = at_retx_queue e.
Proof.
  intros Hi Hsn [i Hlk]. assert (Hb := ai_base _ Hi). unfold decrement_retx_count.
  rewrite (win_get_lookup _ _ (ai_window _ Hb) Hsn), Hlk. cbn [mbind option_bind]. case_match; [by exists e|].
  set (c := if _ =? 0 then _ else _). destruct (set_count_spec e sn i c Hi Hsn Hlk) as (w & -> & Hi' & Hs & Hl). cbn [mbind option_bind].
  eexists. by split.
Qed.

(** ** Clearing the retransmission queue *)
Lemma clear_retx_spec fuel : forall e l,
  am_tx_inv e -> retx_repr (at_retx_queue e) l -> (length l <= fuel)%nat ->
  exists e', clear_retx_loop fuel e = Some e' /\ am_tx_inv e' /\ only_counts e e' /\ retx_repr (at_retx_queue e') [].
Proof.
  induction fuel as [|fuel IH]; intros e l Hi Hr Hlen; cbn [clear_retx_loop]; rewrite (retx_empty_valid _ _ Hr).
  { destruct l; [|cbn in Hlen; lia]. by exists e. }
  destruct (valid_retx l) as [|r t] eqn:Ev.
  { assert (l = []) as -> by (apply front_valid_nil; [by destruct Hr|done]). by exists e. }
  rewrite (retx_front_spec _ _ Hr), Ev. cbn [head mbind option_bind].
  destruct (ai_retx _ (ai_base _ Hi)) as (l0 & Hr0 & Hok & Hc). destruct Hr as [Hrb Hf], Hr0 as [Hrb0 Hf0].
  assert (l0 = l) as -> by (by eapply rb_repr_unique). rewrite Ev in Hok. apply Forall_cons in Hok as [[Hsn _] Ht].
  set (o := if negb (_ =? _) then _ else _).
  assert (Ho : exists e1, o = Some e1 /\ am_tx_inv e1 /\ only_counts e e1 /\ at_retx_queue e1 = at_retx_queue e).
  { unfold o. destruct (negb _); [|by exists e]. destruct (has_sn (at_window e) (r_sn r)) eqn:Hs; cbn [mbind option_bind].
    - rewrite (win_has _ _ (ai_window _ (ai_base _ Hi)) (proj1 Hsn)) in Hs. apply bool_decide_eq_true in Hs.
      destruct (decrement_spec e (r_sn r) Hi (proj1 Hsn) Hs) as (e1 & -> & Hi1 & Ho1 & Hq1). cbn [mbind option_bind].
      eexists. split; [reflexivity|]. split; [|done]. eapply (same_core_inv e1); [by repeat split|done].
    - eexists. split; [reflexivity|]. split; [|done]. eapply (same_core_inv e); [by repeat split|done]. }
  destruct Ho as (e1 & -> & Hi1 & Ho1 & Hq1). cbn [mbind option_bind]. rewrite Hq1.
  destruct (retx_pop_spec _ _ (conj Hrb Hf)) as (q' & l' & -> & Hr' & Hv' & Hc' & Hl' & _). cbn [mbind option_bind].
  assert (Hne : l <> []) by (by intros ->). specialize (Hl' Hne). pose proof Ho1 as (_ & Ec & _ & _ & _).
  destruct (IH (at_set_retx q' (at_retx_sn e1) e1) l') as (e' & -> & Hi' & Ho' & Hr2); [|exact Hr'|lia|].
  - eapply inv_set_retx; [done|exact Hr'| |].
    + rewrite Hv', Ev. cbn [tail]. unfold at_mod in *. by rewrite Ec.
    + rewrite Hc', Hc. unfold at_window_size. by rewrite Ec.
  - exists e'. split; [done|]. split; [done|]. split; [|done]. by eapply only_counts_trans.
Qed.

(** ** The loop over acknowledged SNs *)

(** The SDUs of [n] consecutive SNs. *)
Fixpoint sdus_from (md : Z) w (sn : Z) (n : nat) : list rlc_tx_am_sdu_info :=
  match n with
  | O => []
  | S n => match win_lookup w sn with Some i => [i] | None => [] end ++ sdus_from md w ((sn + 1) mod md) n
  end.

(** The last PDCP SN among the acknowledged SDUs that are, or are not, PDCP retransmissions. *)
Definition last_delivered (retx : bool) (l : list rlc_tx_am_sdu_info) (o : option Z) : option Z :=
  fold_left (fun acc i => if bool_decide (is_Some (xi_pdcp_sn i)) && Bool.eqb (xi_is_retx i) retx then xi_pdcp_sn i else acc) l o.

(** The window without the SNs [0 .. m - 1] ahead of TX_Next_Ack. *)
Definition removed_below e w (m : Z) : Prop :=
  forall q, 0 <= q -> win_lookup w q = if decide (q < at_mod e /\ ahead e q < m) then None else lk e q.

(** What the loop leaves alone. *)
Definition ack_frame e e' : Prop :=
  at_cfg e' = at_cfg e /\ at_queue e' = at_queue e /\ at_retx_queue e' = at_retx_queue e /\ sn_under e' = sn_under e /\
  tx_next (at_st e') = tx_next (at_st e).

Lemma sdus_from_ext md w w' n : 0 < md -> forall sn, 0 <= sn < md ->
  (forall j, 0 <= j < Z.of_nat n -> win_lookup w' ((sn + j) mod md) = win_lookup w ((sn + j) mod md)) ->
  sdus_from md w' sn n = sdus_from md w sn n.
Proof.
  intros Hmd. induction n as [|n IH]; intros sn Hsn Hl; [done|]. cbn [sdus_from].
  pose proof (Hl 0 ltac:(lia)) as H0'. rewrite Z.add_0_r, Z.mod_small in H0' by done. rewrite H0'. f_equal.
  apply IH; [by apply Z.mod_pos_bound|]. intros j Hj. specialize (Hl (j + 1) ltac:(lia)).
  rewrite Z.add_mod_idemp_l by lia. by replace (sn + 1 + j) with (sn + (j + 1)) by lia.
Qed.

(** The state after one acknowledged SDU was removed. *)
Definition acked_one e w i : rlc_tx_am_entity W :=
  let e1 := at_set_window w (add_discarded_pdu (xi_sdu i) e) in
  at_set_st (st_set_tx_next_ack ((tx_next_ack (at_st e) + 1) mod at_mod e) (at_st e1)) e1.

Lemma discard_core x e : same_core e (add_discarded_pdu x e).
Proof. unfold add_discarded_pdu. by case_match. Qed.

(** Everything of [acked_one] that matters. *)
Lemma acked_one_core e w i :
  same_core (at_set_st (st_set_tx_next_ack ((tx_next_ack (at_st e) + 1) mod at_mod e) (at_st e)) (at_set_window w e)) (acked_one e w i).
Proof. unfold acked_one, add_discarded_pdu. by case_match. Qed.

Lemma remove_ack_inv e w i :
  am_tx_inv e -> tx_normal e -> lk e (tx_next_ack (at_st e)) = Some i ->
  win_inv w -> win_cap w = at_window_size e ->
  (forall q, 0 <= q -> win_lookup w q = if decide (q = tx_next_ack (at_st e)) then None else lk e q) ->
  am_tx_inv (acked_one e w i) /\ (0 < ahead e (tx_next (at_st e)) -> tx_normal (acked_one e w i)).
Proof.
  intros Hi Hnorm Hlk Hw Hcap Hl. pose proof (acked_one_core e w i) as Hcore. set (e1 := at_set_st _ (at_set_window w e)) in Hcore.
  destruct (at_geometry e) as (Hg1 & Hg2 & _). assert (Hb := ai_base _ Hi). assert (Hn := ai_next _ Hb). assert (Hna := ai_next_ack _ Hb).
  assert (Hsub : forall q j, 0 <= q -> win_lookup w q = Some j -> lk e q = Some j) by (intros q j Hq Hj; rewrite Hl in Hj by done; by case_decide).
  pose proof (succ_cases _ _ Hna) as Ena. set (na' := (tx_next_ack (at_st e) + 1) mod at_mod e) in *.
  assert (Hna' : 0 <= na' < at_mod e) by (rewrite Ena; case_decide; lia).
  assert (Hphase : if decide (0 < ahead e (tx_next (at_st e))) then tx_normal e1 else tx_overtaken e1).
  { destruct (decide (0 < ahead e (tx_next (at_st e)))) as [Hpos|Hz].
    - destruct Hnorm as [Hle Hall]. unfold tx_normal. change (at_window e1) with w. change (at_mod e1) with (at_mod e).
      change (at_window_size e1) with (at_window_size e). change (tx_next_ack (at_st e1)) with na'. change (at_st e1) with (st_set_tx_next_ack na' (at_st e)).
      cbn [tx_next st_set_tx_next_ack]. clear Hcore. clearbody na'. subst na'.
      split; [rel_lia|]. intros k Hk Hlt. rewrite Hl, decide_False by (try lia; intros ->; rel_lia). apply Hall; [done|rel_lia].
    - unfold tx_overtaken. change (na' = (tx_next (at_st e) + 1) mod at_mod e). unfold na'. do 2 f_equal. rel_lia. }
  assert (Hi1 : am_tx_inv e1).
  { destruct Hi as [_ Hu Hc Hp]. split; [|exact Hu| |].
    - destruct Hb as [Hw0 Hc0 Hq Hpd Hn' Hna0 Hin Hph Hr]. split; try assumption.
      + intros k j Hk Hj. exact (Hin k j Hk (Hsub k j Hk Hj)).
      + case_decide; auto.
    - intros j Hj. destruct (Hc j (Hsub _ j (proj1 Hn) Hj)) as (? & ? & Hf). split; [done|]. split; [done|].
      intros k j' Hk Hj'. exact (Hf k j' Hk (Hsub _ j' Hk Hj')).
    - intros E. destruct (decide (0 < ahead e (tx_next (at_st e)))) as [Hpos|]; [right|by left].
      destruct (Hp E) as [Hov|Hs].
      + exfalso. destruct Hnorm as [Hle _]. unfold tx_overtaken in Hov. rewrite succ_cases in Hov by done. rewrite Hov in Hle.
        pose proof Hna. rewrite Hov in *. rel_lia.
      + change (is_Some (win_lookup w (tx_next (at_st e)))). rewrite Hl, decide_False; [done| |lia].
        intros E'. rewrite E', rel_self in Hpos by lia. lia. }
  split; [by eapply same_core_inv|]. intros Hpos. rewrite decide_True in Hphase by done.
  destruct Hcore as (C1 & C2 & C3 & C4 & C5 & C6 & C7). unfold tx_normal, at_mod, at_window_size in *. by rewrite C1, C2, C6, C7.
Qed.

(** How many SDUs a report that acknowledges everything below [stop] removes. *)
Definition nof_acked e (stop : Z) : Z :=
  if ahead e stop <=? ahead e (tx_next (at_st e)) then ahead e stop
  else match lk e (tx_next (at_st e)) with Some _ => ahead e stop | None => ahead e (tx_next (at_st e)) end.

Lemma last_delivered_step retx i l o :
  last_delivered retx (i :: l) o =
  last_delivered retx l (if match xi_pdcp_sn i with Some _ => Bool.eqb (xi_is_retx i) retx | None => false end then xi_pdcp_sn i else o).
Proof. unfold last_delivered. cbn [fold_left]. by destruct (xi_pdcp_sn i). Qed.

Lemma removed_below_zero e w : (forall q, win_lookup w q = lk e q) -> removed_below e w 0.
Proof.
  intros Hl q Hq. rewrite Hl, decide_False; [done|]. intros [_ Hlt]. destruct (at_geometry e) as (Hg1 & Hg2 & _).
  pose proof (rel_range (at_mod e) (tx_next_ack (at_st e)) q ltac:(lia)). lia.
Qed.

(** One more SN, in front. *)
Lemma removed_below_step e w1 e1 w m :
  0 <= tx_next_ack (at_st e) < at_mod e -> at_mod e1 = at_mod e -> tx_next_ack (at_st e1) = (tx_next_ack (at_st e) + 1) mod at_mod e ->
  at_window e1 = w1 -> (forall q, 0 <= q -> win_lookup w1 q = if decide (q = tx_next_ack (at_st e)) then None else lk e q) ->
  0 <= m < at_mod e -> removed_below e1 w m -> removed_below e w (m + 1).
Proof.
  intros Hna Hmod Ena Ew Hl Hm Hr q Hq. rewrite Hr, Hmod, Ena, Ew, Hl by done. rewrite succ_cases by done. clear Hr Hl Ena.
  destruct (decide (q < at_mod e)) as [Hlt|Hge]; [|by rewrite !decide_False by lia].
  assert (Hone : 0 <= (if decide (tx_next_ack (at_st e) + 1 = at_mod e) then 0 else tx_next_ack (at_st e) + 1) < at_mod e) by (case_decide; lia).
  rewrite !rel_cases by lia. clear Hone. destruct (decide (q = tx_next_ack (at_st e))) as [->|Hne].
  - rewrite (decide_True (P := _ /\ _ < m + 1)) by (split; [lia|]; rewrite decide_True by lia; lia). by case_decide.
  - repeat case_decide; try done; exfalso; lia.
Qed.

Lemma ack_frame_trans e1 e2 e3 : ack_frame e1 e2 -> ack_frame e2 e3 -> ack_frame e1 e3.
Proof. intros (? & ? & ? & ? & ?) (? & ? & ? & ? & ?). repeat split; congruence. Qed.

Lemma ack_loop_step fuel sn stop o1 o2 e :
  ack_loop (S fuel) sn stop o1 o2 e =
  if tx_mod_base e stop <=? tx_mod_base e sn then Some (o1, o2, e) else
  if has_sn (at_window e) sn then
    i ← win_get (at_window e) sn;
    let retx := match xi_pdcp_sn i with Some _ => xi_is_retx i | None => false end in
    let first := match xi_pdcp_sn i with Some _ => negb (xi_is_retx i) | None => false end in
    w ← remove_sn (at_window e) sn;
    let next := u32 (sn + 1) mod at_mod e in
    let e := at_set_window w (add_discarded_pdu (xi_sdu i) e) in
    ack_loop fuel next stop (if first then xi_pdcp_sn i else o1)
      (if retx then xi_pdcp_sn i else o2) (at_set_st (st_set_tx_next_ack next (at_st e)) e)
  else Some (o1, o2, e).
Proof. reflexivity. Qed.

(** The loop has nothing to do in front of its end. *)
Lemma ack_loop_end fuel sn stop o1 o2 e :
  tx_mod_base e stop <= tx_mod_base e sn -> ack_loop fuel sn stop o1 o2 e = Some (o1, o2, e).
Proof. intros Hle. destruct fuel; cbn [ack_loop]; by rewrite (proj2 (Z.leb_le _ _)). Qed.

Lemma acked_one_frame e w i : ack_frame e (acked_one e w i) /\ at_mod (acked_one e w i) = at_mod e /\
  tx_next_ack (at_st (acked_one e w i)) = (tx_next_ack (at_st e) + 1) mod at_mod e /\ at_window (acked_one e w i) = w.
Proof. unfold acked_one, add_discarded_pdu. by case_match. Qed.

(** What the loop returns when it removes [m] SDUs; if [c], TX_Next_Ack has not passed TX_Next. *)
Definition ack_result e (m : Z) (c : Prop) (o1 o2 : option Z) (r : option (option Z * option Z * rlc_tx_am_entity W)) : Prop :=
  let l := sdus_from (at_mod e) (at_window e) (tx_next_ack (at_st e)) (Z.to_nat m) in
  exists e', r = Some (last_delivered false l o1, last_delivered true l o2, e') /\
    am_tx_inv e' /\ removed_below e (at_window e') m /\ ack_frame e e' /\
    tx_next_ack (at_st e') = (tx_next_ack (at_st e) + m) mod at_mod e /\ (c -> tx_normal e').

Lemma ack_result_zero e (c : Prop) o1 o2 :
  am_tx_inv e -> (c -> tx_normal e) -> ack_result e 0 c o1 o2 (Some (o1, o2, e)).
Proof.
  intros Hi Hno. exists e. split; [done|]. split; [done|]. split; [by apply removed_below_zero|]. split; [done|]. split; [|done].
  rewrite Z.add_0_r, Z.mod_small; [done|]. apply (ai_next_ack _ (ai_base _ Hi)).
Qed.

(** An SDU that is acknowledged: what is removed of its window, and the state after it. *)
Definition removes_ack e w : Prop :=
  win_inv w /\ win_cap w = at_window_size e /\
  forall q, 0 <= q -> win_lookup w q = if decide (q = tx_next_ack (at_st e)) then None else lk e q.

Lemma ack_result_step e w i m (c c' : Prop) o1 o2 r :
  0 <= tx_next_ack (at_st e) < at_mod e -> lk e (tx_next_ack (at_st e)) = Some i -> removes_ack e w -> 0 <= m < at_mod e - 1 ->
  (c -> c') ->
  ack_result (acked_one e w i) m c'
    (if match xi_pdcp_sn i with Some _ => negb (xi_is_retx i) | None => false end then xi_pdcp_sn i else o1)
    (if match xi_pdcp_sn i with Some _ => xi_is_retx i | None => false end then xi_pdcp_sn i else o2) r ->
  ack_result e (m + 1) c o1 o2 r.
Proof.
  intros Hna Elk (_ & _ & Hl) Hm Hmle (e' & -> & Hi' & Hrb & Hfr' & Hna' & Hno'). destruct (at_geometry e) as (Hg1 & Hg2 & _).
  destruct (acked_one_frame e w i) as (Hfr & Emod & Ena & Ew). set (e1 := acked_one e w i) in *. rewrite Emod, Ew in *.
  assert (Hl1 : sdus_from (at_mod e) (at_window e) (tx_next_ack (at_st e)) (Z.to_nat (m + 1))
      = i :: sdus_from (at_mod e) w (tx_next_ack (at_st e1)) (Z.to_nat m)).
  { replace (Z.to_nat (m + 1)) with (S (Z.to_nat m)) by lia. cbn [sdus_from]. rewrite Elk, Ena. cbn [app]. f_equal.
    symmetry. apply sdus_from_ext; [lia|by apply Z.mod_pos_bound; lia|]. intros j Hj. rewrite Hl by (apply Z.mod_pos_bound; lia).
    rewrite decide_False; [done|]. intros E. apply (f_equal (ahead e)) in E. rewrite rel_mod, rel_add, rel_mod, rel_add, rel_self in E by lia.
    rewrite Z.add_mod_idemp_l, Z.add_0_l, Z.mod_small in E by lia. lia. }
  exists e'. rewrite Hl1, !last_delivered_step. split; [do 3 f_equal; destruct (xi_pdcp_sn i); [by destruct (xi_is_retx i)|done]|].
  split; [done|]. split; [apply (removed_below_step e w e1); (done || lia)|]. split; [by eapply ack_frame_trans|].
  split; [rewrite Hna', Ena, Z.add_mod_idemp_l by lia; f_equal; lia|]. auto.
Qed.

Lemma nof_acked_bounds e stop :
  am_tx_inv e -> 0 <= stop < at_mod e -> ahead e stop <= ahead e (tx_next (at_st e)) + 1 ->
  nof_acked e stop <= ahead e stop /\ (ahead e stop <> 0 -> is_Some (lk e (tx_next_ack (at_st e))) -> 1 <= nof_acked e stop).
Proof.
  intros Hi Hs Hle. assert (Hna := ai_next_ack _ (ai_base _ Hi)). assert (Hn := ai_next _ (ai_base _ Hi)). destruct (at_geometry e) as (Hg1 & Hg2 & _).
  pose proof (rel_range (at_mod e) (tx_next_ack (at_st e)) stop ltac:(lia)). pose proof (rel_range (at_mod e) (tx_next_ack (at_st e)) (tx_next (at_st e)) ltac:(lia)).
  unfold nof_acked. destruct (Z.leb_spec (ahead e stop) (ahead e (tx_next (at_st e)))); [lia|].
  destruct (lk e (tx_next (at_st e))) eqn:E; [lia|]. split; [lia|]. intros _ Hsome.
  destruct (decide (ahead e (tx_next (at_st e)) = 0)) as [E0|]; [|lia].
  exfalso. assert (E1 : tx_next_ack (at_st e) = tx_next (at_st e)) by rel_lia. rewrite E1, E in Hsome. by destruct Hsome.
Qed.

Lemma ahead_shift e w i x :
  am_tx_inv e -> 0 <= x < at_mod e -> x <> tx_next_ack (at_st e) -> ahead (acked_one e w i) x = ahead e x - 1.
Proof.
  intros Hi Hx Hne. assert (Hna := ai_next_ack _ (ai_base _ Hi)). destruct (at_geometry e) as (Hg1 & Hg2 & _).
  destruct (acked_one_frame e w i) as (_ & -> & -> & _). rewrite succ_cases by done. clear -Hx Hne Hna Hg1. repeat case_decide; rel_lia.
Qed.

(** The first SN to acknowledge is missing only at TX_Next. *)
Lemma nof_acked_none e stop :
  am_tx_inv e -> tx_normal e -> ahead e stop <> 0 -> 0 <= stop < at_mod e -> lk e (tx_next_ack (at_st e)) = None -> nof_acked e stop = 0.
Proof.
  intros Hi [_ Hall] Hnz Hs Elk. assert (Hna := ai_next_ack _ (ai_base _ Hi)). assert (Hn := ai_next _ (ai_base _ Hi)).
  destruct (at_geometry e) as (Hg1 & Hg2 & _). unfold nof_acked. destruct (decide (ahead e (tx_next (at_st e)) = 0)) as [E0|].
  - assert (E1 : tx_next_ack (at_st e) = tx_next (at_st e)) by rel_lia. rewrite E1 in Elk. rewrite Elk, E0.
    rewrite (proj2 (Z.leb_gt _ _)); [done|rel_lia].
  - exfalso. destruct (Hall _ Hna) as [j Hj]; [rewrite rel_self by lia; rel_lia|congruence].
Qed.

Lemma nof_acked_step e w i stop :
  am_tx_inv e -> removes_ack e w -> 0 <= stop < at_mod e -> ahead e stop <> 0 -> 0 < ahead e (tx_next (at_st e)) ->
  nof_acked (acked_one e w i) stop = nof_acked e stop - 1.
Proof.
  intros Hi (_ & _ & Hl) Hs Hnz Hpos. assert (Hn := ai_next _ (ai_base _ Hi)). destruct (at_geometry e) as (Hg1 & Hg2 & _).
  destruct (acked_one_frame e w i) as ((_ & _ & _ & _ & En) & _ & _ & Ew). unfold nof_acked. rewrite En, Ew, Hl by lia.
  rewrite !ahead_shift by (try done; intros E; rewrite E, rel_self in *; lia). rewrite decide_False by (intros E; rewrite E, rel_self in Hpos; lia).
  destruct (Z.leb_spec (ahead e stop - 1) (ahead e (tx_next (at_st e)) - 1)), (Z.leb_spec (ahead e stop) (ahead e (tx_next (at_st e)))); try lia.
  by case_match.
Qed.

Lemma ack_loop_spec fuel : forall stop o1 o2 e,
  am_tx_inv e -> tx_normal e -> 0 <= stop < at_mod e -> ahead e stop <= ahead e (tx_next (at_st e)) + 1 ->
  ahead e stop < Z.of_nat fuel ->
  ack_result e (nof_acked e stop) (nof_acked e stop <= ahead e (tx_next (at_st e))) o1 o2 (ack_loop fuel (tx_next_ack (at_st e)) stop o1 o2 e).
Proof.
  induction fuel as [|fuel IH]; intros stop o1 o2 e Hi Hnorm Hstop Hle Hfuel;
    destruct (at_geometry e) as (Hg1 & Hg2 & _); pose proof (rel_range (at_mod e) (tx_next_ack (at_st e)) stop ltac:(lia)) as Hr; [lia|].
  assert (Hb := ai_base _ Hi). assert (Hna := ai_next_ack _ Hb). assert (Hn := ai_next _ Hb).
  pose proof (rel_range (at_mod e) (tx_next_ack (at_st e)) (tx_next (at_st e)) ltac:(lia)) as Hrn.
  destruct (decide (ahead e stop = 0)) as [Ez|Hnz].
  { replace (nof_acked e stop) with 0 by (unfold nof_acked; rewrite Ez, (proj2 (Z.leb_le _ _)); [done|lia]).
    rewrite ack_loop_end by (rewrite !tx_mod_base_rel, rel_self; lia). by apply ack_result_zero. }
  rewrite ack_loop_step, !tx_mod_base_rel, (rel_self _ (tx_next_ack _)), (proj2 (Z.leb_gt _ _)) by lia.
  rewrite (win_has _ _ (ai_window _ Hb) (proj1 Hna)). destruct (lk e (tx_next_ack (at_st e))) as [i|] eqn:Elk.
  2: { rewrite bool_decide_false by (by intros []). rewrite nof_acked_none by done. by apply ack_result_zero. }
  rewrite bool_decide_true by (by eexists). rewrite (win_get_lookup _ _ (ai_window _ Hb) (proj1 Hna)), Elk. cbn [mbind option_bind].
  destruct (win_remove_spec (at_window e) _ (ai_window _ Hb) (proj1 Hna) (mk_is_Some _ _ Elk)) as (w & -> & Hrm).
  rewrite (ai_cap _ Hb) in Hrm. fold (removes_ack e w) in Hrm. cbn [mbind option_bind]. rewrite at_u32_mod. fold (acked_one e w i).
  destruct (nof_acked_bounds e stop Hi Hstop Hle) as [Hmle Hmpos]. specialize (Hmpos Hnz (mk_is_Some _ _ Elk)).
  pose proof Hrm as (Hw & Hc & Hl). destruct (remove_ack_inv e w i Hi Hnorm Elk Hw Hc Hl) as [Hi1 Hnorm1].
  destruct (acked_one_frame e w i) as ((_ & _ & _ & _ & En) & Emod & Ena & _).
  destruct (decide (0 < ahead e (tx_next (at_st e)))) as [Hpos|Hz].
  - assert (Hne : forall x, ahead e x <> 0 -> x <> tx_next_ack (at_st e)) by (intros x Hx ->; rewrite rel_self in Hx; lia).
    pose proof (ahead_shift e w i stop Hi Hstop (Hne _ Hnz)) as Es. assert (Hne2 : ahead e (tx_next (at_st e)) <> 0) by lia. pose proof (ahead_shift e w i _ Hi Hn (Hne _ Hne2)) as Et.
    pose proof (nof_acked_step e w i stop Hi Hrm Hstop Hnz Hpos) as Em.
    replace (nof_acked e stop) with (nof_acked (acked_one e w i) stop + 1) at 1 by lia.
    eapply (ack_result_step e w i); [done|done|done|destruct Hnorm; lia| |rewrite <- Ena; apply IH; try done].
    + rewrite En, Et, Em. lia.
    + by apply Hnorm1.
    + by rewrite Emod.
    + rewrite En. lia.
    + lia.
  - assert (E : tx_next (at_st e) = tx_next_ack (at_st e)) by rel_lia. replace (nof_acked e stop) with (0 + 1) at 1 by lia.
    apply (ack_result_step e w i _ _ (nof_acked e stop <= ahead e (tx_next (at_st e)))); [done|done|done|lia|done|].
    rewrite ack_loop_end; [apply ack_result_zero; [done|lia]|]. rewrite <- Ena, !tx_mod_base_rel, (rel_self _ (tx_next_ack _)) by lia.
    rewrite Emod, Ena, succ_cases by done. clear -Hle Hz Hnz Hna Hn Hstop Hg1 Hg2. repeat case_decide; rel_lia.
Qed.
End acks.
