(* ===== verification/RlcTxAmNacks.v ===== *)
(** * Properties of the AM transmitter: negative acknowledgements

    Every NACK asks for a segment of an SDU of the window ([nack_request]); the loops over the NACKs queue exactly these
    segments, in order, as long as the retransmission queue has room. *)
From S2P Require Import Prelude ByteCursor RlcConfig RlcAmPdu RlcAmStatusPdu RlcAmStatusFacts PdcpSn SduQueue.
From S2P Require Import SduWindow SduWindowCount RingBuffer RlcRetxQueue RlcRxBase RlcTxBase RlcTxAm RlcTxAmStatus.
From S2P Require Import RlcTxAmFacts RlcTxAmPdus RlcTxAmAcks.

Section nacks.
Context {W : Type} `{SduWindowCountLaws rlc_tx_am_sdu_info W}.
Implicit Types (e : rlc_tx_am_entity W) (w : W).

Notation lk e k := (win_lookup (at_window e) k).
Notation sn_under e := (at_sn_under_segmentation e).
Notation ahead e := (rel (at_mod e) (tx_next_ack (at_st e))).

(** The segment a NACK without a range asks for. *)
Definition nack_request e (nack : rlc_am_status_nack) : option rlc_tx_amd_retx :=
  let sn := nack_sn nack in
  if (ahead e (tx_next (at_st e)) <=? ahead e sn) && negb (sn =? sn_under e) then None else
  i ← lk e sn;
  let s := if has_so nack then so_start nack else 0 in
  let t := if has_so nack then so_end nack else u16 (xi_length i - 1) in
  t ← nack_end i sn s t e;
  let '(s, t, _) := nack_sanity (xi_length i) s t in
  Some (Retx sn s (t - s + 1)).

(** Queueing while there is room. *)
Definition push_retx (cap : Z) (l : list rlc_retx_queue_item) (o : option rlc_tx_amd_retx) : list rlc_retx_queue_item :=
  match o with Some r => if Z.of_nat (length l) <? cap then l ++ [RetxItem false r] else l | None => l end.

Lemma nack_end_range i sn s t t' e :
  1 <= xi_length i <= 65536 -> 0 <= xi_next_so i <= 65536 -> 0 <= t < 65536 -> nack_end i sn s t e = Some t' -> 0 <= t' < 65536.
Proof.
  intros Hl Hn Ht. unfold nack_end. repeat case_match; intros [= <-]; try done; unfold u16, uint; apply Z.mod_pos_bound; lia.
Qed.

Lemma nack_sanity_spec len s t :
  1 <= len <= 65536 -> 0 <= s < 65536 -> 0 <= t < 65536 ->
  let '(s', t', _) := nack_sanity len s t in 0 <= s' <= t' /\ t' < len /\ (s <= t < len -> s' = s /\ t' = t).
Proof.
  intros Hl Hs Ht. unfold nack_sanity. destruct (Z.ltb_spec t s), (Z.leb_spec len s), (Z.leb_spec len 0), (Z.leb_spec len t);
    try rewrite u16_small by lia; split_and?; lia.
Qed.

(** A request lies within the SDU it is for. *)
Lemma nack_request_ok e nack r :
  am_tx_inv e -> nack_ok (at_mod e) nack -> nack_request e nack = Some r ->
  r_sn r = nack_sn nack /\ retx_ok (at_mod e) r /\ exists i, lk e (r_sn r) = Some i /\ r_so r + r_length r <= xi_length i.
Proof.
  intros Hi (Hsn & Hs & Ht & _) Hr. unfold nack_request in Hr. case_match; [done|].
  destruct (lk e (nack_sn nack)) as [i|] eqn:Elk; [|done]. cbn [mbind option_bind] in Hr.
  destruct (ai_infos _ (ai_base _ Hi) _ i (proj1 Hsn) Elk) as ((_ & Hl & Hn) & _ & _).
  set (s := if has_so nack then so_start nack else 0) in *. set (t := if has_so nack then so_end nack else _) in *.
  assert (Hs' : 0 <= s < 65536) by (unfold s; case_match; lia).
  assert (Ht' : 0 <= t < 65536) by (unfold t; case_match; [done|]; unfold u16, uint; apply Z.mod_pos_bound; lia).
  destruct (nack_end i (nack_sn nack) s t e) as [t1|] eqn:Ee; [|done]. cbn [mbind option_bind] in Hr.
  pose proof (nack_end_range _ _ _ _ _ _ Hl Hn Ht' Ee) as Ht1. pose proof (nack_sanity_spec _ s t1 Hl Hs' Ht1) as Hsan.
  destruct (nack_sanity (xi_length i) s t1) as [[s2 t2] ev]. destruct Hsan as (? & ? & _). injection Hr as <-. cbn [r_sn r_so r_length].
  split; [done|]. split; [unfold retx_ok; cbn [r_sn r_so r_length]; lia|]. exists i. split; [done|lia].
Qed.

(** The SNs that [handle_nack] accepts are in the window. *)
Lemma nack_in_window e sn :
  am_tx_inv e -> tx_normal e -> 0 <= sn < at_mod e ->
  (ahead e (tx_next (at_st e)) <=? ahead e sn) && negb (sn =? sn_under e) = false -> is_Some (lk e sn).
Proof.
  intros Hi Hnorm Hsn Hc. apply andb_false_iff in Hc as [Hc|Hc].
  - apply Z.leb_gt in Hc. by apply Hnorm.
  - apply negb_false_iff, Z.eqb_eq in Hc. destruct (ai_under _ Hi) as [E|E]; destruct (at_geometry e) as (Hg1 & Hg2 & _).
    + rewrite E in Hc. unfold INVALID_RLC_SN in Hc. lia.
    + destruct (ai_present _ Hi E) as [Hov|Hs]; [|by rewrite Hc, E].
      exfalso. destruct Hnorm as [Hle _]. assert (Hn := ai_next _ (ai_base _ Hi)). unfold tx_overtaken in Hov.
      rewrite succ_cases in Hov by done. assert (Hna := ai_next_ack _ (ai_base _ Hi)). rewrite Hov in Hle, Hna. clear Hov. repeat case_decide; rel_lia.
Qed.

Lemma handle_nack_spec e nack l :
  am_tx_inv e -> tx_normal e -> nack_ok (at_mod e) nack -> has_nack_range nack = false -> retx_repr (at_retx_queue e) l ->
  exists b e' ev, handle_nack nack e = Some (b, e', ev) /\ am_tx_inv e' /\ only_counts e e' /\ at_window e' = at_window e /\
    ((b : bool) = true -> is_Some (lk e (nack_sn nack))) /\
    retx_repr (at_retx_queue e') (push_retx (at_window_size e) l (nack_request e nack)).
Proof.
  intros Hi Hnorm Hok Hrange Hr. pose proof Hok as (Hsn & _). assert (Hb := ai_base _ Hi). destruct (at_geometry e) as (Hg1 & Hg2 & _).
  pose proof (nack_request_ok e nack) as Hreq. unfold handle_nack, nack_request in *. rewrite Hrange, !tx_mod_base_rel, rel_self by lia.
  pose proof (rel_range (at_mod e) (tx_next_ack (at_st e)) (nack_sn nack) ltac:(lia)) as Hrng.
  rewrite (proj2 (Z.ltb_ge _ 0)) by lia. cbn [orb].
  destruct ((ahead e (tx_next (at_st e)) <=? ahead e (nack_sn nack)) && negb (nack_sn nack =? sn_under e)) eqn:Hc.
  { exists false, e, []. by repeat (split; [done|]). }
  destruct (nack_in_window e _ Hi Hnorm Hsn Hc) as [i Elk]. rewrite (win_get_lookup _ _ (ai_window _ Hb) (proj1 Hsn)), Elk in *.
  cbn [mbind option_bind] in *. set (s := if has_so nack then so_start nack else 0) in *. set (t := if has_so nack then so_end nack else _) in *.
  destruct (nack_end i (nack_sn nack) s t e) as [t1|] eqn:Ee; cbn [mbind option_bind] in *; [|exists false, e, []; by repeat (split; [done|])].
  destruct (nack_sanity (xi_length i) s t1) as [[s2 t2] ev] eqn:Es. specialize (Hreq _ Hi Hok eq_refl) as (_ & Hrok & _).
  pose proof Hrok as (_ & Hso & Hlen & Hmax). cbn [r_sn r_so r_length] in *. rewrite u32_small by lia.
  destruct (retx_try_push_spec (Retx (nack_sn nack) s2 (t2 - s2 + 1)) _ _ Hr) as (q' & -> & Hr' & Hc' & _). cbn [mbind option_bind].
  destruct (ai_retx _ Hb) as (l0 & Hr0 & Hall & Hcap). assert (l0 = l) as -> by (destruct Hr0, Hr; by eapply rb_repr_unique).
  rewrite Hcap in Hr', Hc'. eexists _, _, _. split; [reflexivity|]. split; [|split; [by repeat split|split; [done|split; [by eexists|done]]]].
  eapply inv_set_retx; [done|exact Hr'| |done]. case_match; [|done]. unfold valid_retx. rewrite filter_app, fmap_app. apply Forall_app.
  split; [done|]. rewrite filter_cons, decide_True by done. apply Forall_cons_2; [exact Hrok|apply Forall_nil_2].
Qed.

(** Requests depend on the window up to counters. *)
Lemma nack_request_ext e e' nack : only_counts e e' -> 0 <= nack_sn nack -> nack_request e' nack = nack_request e nack.
Proof.
  intros (Hs & Ec & Est & _ & Eu) Hsn. unfold nack_request, at_mod. rewrite Ec, Est, Eu. case_match; [done|].
  specialize (Hs _ Hsn). destruct (win_lookup (at_window e') _) as [j|], (win_lookup (at_window e) _) as [i|]; try done. cbn [mbind option_bind].
  assert (E : uncounted j = uncounted i) by (cbn in Hs; congruence).
  assert (Ex : xi_sdu j = xi_sdu i /\ xi_next_so j = xi_next_so i).
  { destruct i, j. unfold uncounted, xi_set_retx_count in E. cbn in E. by injection E as -> -> -> -> ->. }
  destruct Ex as [E1 E2]. unfold nack_end, xi_length. by rewrite E1, E2, Eu.
Qed.

Lemma only_counts_normal e e' : only_counts e e' -> tx_normal e -> tx_normal e'.
Proof.
  intros (Hs & Ec & Est & _ & _) [Hle Hall]. unfold tx_normal, at_mod, at_window_size in *. rewrite Ec, Est.
  split; [done|]. intros k Hk Hlt. eapply same_sdus_is_some; [done|lia|by apply Hall].
Qed.

(** ** The loops *)
Definition push_all_retx (cap : Z) (l : list rlc_retx_queue_item) (os : list (option rlc_tx_amd_retx)) : list rlc_retx_queue_item :=
  fold_left (push_retx cap) os l.

(** A loop over NACKs queues the requests of [ns]. *)
Definition nacks_done e e' (l : list rlc_retx_queue_item) (ns : list rlc_am_status_nack) : Prop :=
  am_tx_inv e' /\ tx_normal e' /\ only_counts e e' /\
  retx_repr (at_retx_queue e') (push_all_retx (at_window_size e) l (nack_request e <$> ns)).

Lemma nacks_done_app e e1 e2 l ns1 ns2 :
  Forall (fun n => 0 <= nack_sn n) ns2 -> nacks_done e e1 l ns1 ->
  nacks_done e1 e2 (push_all_retx (at_window_size e) l (nack_request e <$> ns1)) ns2 -> nacks_done e e2 l (ns1 ++ ns2).
Proof.
  intros Hns (Hi1 & Hn1 & Ho1 & Hr1) (Hi2 & Hn2 & Ho2 & Hr2). split; [done|]. split; [done|]. split; [by eapply only_counts_trans|].
  pose proof Ho1 as (_ & Ec & _ & _ & _). rewrite fmap_app. unfold push_all_retx in *. rewrite fold_left_app.
  replace (nack_request e <$> ns2) with (nack_request e1 <$> ns2).
  - by replace (at_window_size e) with (at_window_size e1) at 1 by (unfold at_window_size; by rewrite Ec).
  - apply list_fmap_ext. intros j n Hj. rewrite Forall_forall in Hns. apply nack_request_ext; [done|]. apply Hns. by eapply list_elem_of_lookup_2.
Qed.

Lemma nack_sdu_tx_spec e nack prev l :
  am_tx_inv e -> tx_normal e -> nack_ok (at_mod e) nack -> has_nack_range nack = false -> retx_repr (at_retx_queue e) l ->
  exists prev' e' ev, nack_sdu_tx nack prev e = Some (prev', e', ev) /\ nacks_done e e' l [nack].
Proof.
  intros Hi Hnorm Hok Hrange Hr. pose proof Hok as (Hsn & _). unfold nack_sdu_tx.
  destruct (handle_nack_spec e nack l Hi Hnorm Hok Hrange Hr) as (b & e1 & ev1 & -> & Hi1 & Ho1 & Ew1 & Hin & Hr1). cbn [mbind option_bind].
  assert (Hdone : nacks_done e e1 l [nack]) by (split; [done|]; split; [by eapply only_counts_normal|]; done).
  destruct b; cbn [andb]; [|eexists _, _, _; by split]. destruct (negb _); [|eexists _, _, _; by split].
  destruct (increment_spec e1 (nack_sn nack) Hi1 (proj1 Hsn)) as (e2 & ev2 & -> & Hi2 & Ho2 & Hq2); [rewrite Ew1; by apply Hin|].
  cbn [mbind option_bind]. eexists _, _, _. split; [reflexivity|]. assert (Ho := only_counts_trans _ _ _ Ho1 Ho2).
  split; [done|]. split; [by eapply only_counts_normal|]. split; [done|]. by rewrite Hq2.
Qed.

(** The NACKs without ranges that a NACK stands for. *)
Definition expand_nack e (nack : rlc_am_status_nack) : list rlc_am_status_nack :=
  if has_nack_range nack then (fun j => range_item e nack ((nack_sn nack + j) mod at_mod e)) <$> seqZ 0 (nack_range nack) else [nack].

Lemma only_counts_mod e e' : only_counts e e' -> at_mod e' = at_mod e.
Proof. intros (_ & Ec & _). unfold at_mod. by rewrite Ec. Qed.

Lemma range_item_ok e nack sn : nack_ok (at_mod e) nack -> 0 <= sn < at_mod e ->
  nack_ok (at_mod e) (range_item e nack sn) /\ has_nack_range (range_item e nack sn) = false /\ nack_sn (range_item e nack sn) = sn.
Proof.
  intros (_ & Hs & Ht & _) Hsn. unfold range_item. destruct (has_so nack).
  2: { split; [|done]. unfold nack_ok. cbn. unfold so_end_of_sdu. repeat (split; [done || lia|]). done. }
  set (s := if sn =? nack_sn nack then _ else _). set (t := if _ =? _ mod _ then _ else _).
  assert (0 <= s < 65536) by (unfold s; case_match; cbn; lia). assert (0 <= t < 65536) by (unfold t, so_end_of_sdu in *; case_match; cbn; unfold so_end_of_sdu; lia).
  split; [|done]. unfold nack_ok. cbn [nack_sn so_start so_end nack_range has_so has_nack_range]. split; [done|]. split; [done|]. split; [done|].
  split; [lia|]. split; [|done]. intros E. apply orb_false_iff in E as [E1 E2]. apply negb_false_iff, Z.eqb_eq in E1, E2. done.
Qed.

Lemma nacks_done_nil e l : am_tx_inv e -> tx_normal e -> retx_repr (at_retx_queue e) l -> nacks_done e e l [].
Proof. intros Hi Hn Hr. by repeat (split; [done|]). Qed.

Lemma nacks_done_prior e e1 l : nacks_done e e1 l [] -> am_tx_inv e1 /\ tx_normal e1 /\ retx_repr (at_retx_queue e1) l.
Proof. by intros (? & ? & _ & ?). Qed.

Lemma nack_range_loop_spec nack ack : forall (k : nat) fuel prev e l,
  am_tx_inv e -> tx_normal e -> nack_ok (at_mod e) nack -> Z.of_nat k <= nack_range nack -> (k <= fuel)%nat -> retx_repr (at_retx_queue e) l ->
  (forall j, nack_range nack - Z.of_nat k <= j < nack_range nack -> (nack_sn nack + j) mod at_mod e <> ack) ->
  exists prev' e' ev,
    nack_range_loop fuel ack nack ((nack_sn nack + (nack_range nack - Z.of_nat k)) mod at_mod e) prev e = Some (prev', e', ev) /\
    nacks_done e e' l ((fun j => range_item e nack ((nack_sn nack + j) mod at_mod e)) <$> seqZ (nack_range nack - Z.of_nat k) (Z.of_nat k)).
Proof.
  induction k as [|k IH]; intros fuel prev e l Hi Hnorm Hok Hk Hfuel Hr Hack; pose proof Hok as (Hsn & _ & _ & Hrg & _);
    destruct (at_geometry e) as (Hg1 & Hg2 & _).
  { exists prev, e, []. split; [|by apply nacks_done_nil]. replace (nack_range nack - Z.of_nat 0) with (nack_range nack) by lia.
    destruct fuel; cbn [nack_range_loop]; by rewrite at_u32_mod, Z.eqb_refl. }
  destruct fuel as [|fuel]; [lia|]. cbn [nack_range_loop]. set (i := nack_range nack - Z.of_nat (S k)) in *.
  set (sn := (nack_sn nack + i) mod at_mod e). assert (Hsn' : 0 <= sn < at_mod e) by (apply Z.mod_pos_bound; lia).
  rewrite at_u32_mod. rewrite (proj2 (Z.eqb_neq sn _)).
  2: { intros E. assert (Er : rel (at_mod e) (nack_sn nack + i) (nack_sn nack + i) = rel (at_mod e) (nack_sn nack + i) (nack_sn nack + nack_range nack)).
       { rewrite <- (rel_mod _ _ (nack_sn nack + i)), <- (rel_mod _ _ (nack_sn nack + nack_range nack)) by lia. by rewrite <- E. }
       rewrite rel_self in Er by lia. unfold rel in Er. rewrite Z.mod_small in Er by lia. lia. }
  rewrite (proj2 (Z.eqb_neq sn ack)) by (apply Hack; lia).
  destruct (range_item_ok e nack sn Hok Hsn') as (Hok1 & Hrg1 & Esn1).
  destruct (nack_sdu_tx_spec e _ prev l Hi Hnorm Hok1 Hrg1 Hr) as (prev1 & e1 & ev1 & -> & Hd1). cbn [mbind option_bind].
  pose proof Hd1 as (Hi1 & Hn1 & Ho1 & Hr1). pose proof (only_counts_mod _ _ Ho1) as Em.
  assert (Enext : u32 (sn + 1) mod at_mod e1 = (nack_sn nack + (nack_range nack - Z.of_nat k)) mod at_mod e1).
  { rewrite at_u32_mod, Em. unfold sn. rewrite Z.add_mod_idemp_l by lia. f_equal. lia. }
  rewrite Enext. destruct (IH fuel prev1 e1 _ Hi1 Hn1 ltac:(by rewrite Em) ltac:(lia) ltac:(lia) Hr1) as (prev2 & e2 & ev2 & -> & Hd2).
  { intros j Hj. rewrite Em. apply Hack. lia. }
  cbn [mbind option_bind]. eexists _, _, _. split; [reflexivity|]. rewrite seqZ_cons by lia. cbn [fmap list_fmap].
  replace (Z.succ i) with (nack_range nack - Z.of_nat k) by lia. replace (Z.pred (Z.of_nat (S k))) with (Z.of_nat k) by lia.
  assert (Eri : forall x, range_item e1 nack x = range_item e nack x) by (intros; unfold range_item; by rewrite Em).
  rewrite Em in Hd2. eapply (nacks_done_app e e1 e2 l [_]); [|exact Hd1|].
  - apply Forall_fmap, Forall_forall. intros j _. cbn. apply (range_item_ok e nack _ Hok). apply Z.mod_pos_bound. lia.
  - rewrite (list_fmap_ext (fun j => range_item e nack _) (fun j => range_item e1 nack ((nack_sn nack + j) mod at_mod e))); [exact Hd2|].
    intros ? j _. by rewrite Eri.
Qed.

(** The SNs of a NACK do not reach ACK_SN. *)
Definition nack_before e (ack : Z) (nack : rlc_am_status_nack) : Prop :=
  has_nack_range nack = true -> forall j, 0 <= j < nack_range nack -> (nack_sn nack + j) mod at_mod e <> ack.

Lemma expand_nack_sns e nack : nack_ok (at_mod e) nack -> Forall (fun n => 0 <= nack_sn n) (expand_nack e nack).
Proof.
  intros Hok. destruct (at_geometry e) as (Hg1 & Hg2 & _). unfold expand_nack. case_match.
  - apply Forall_fmap, Forall_forall. intros j _. cbn.
    destruct (range_item_ok e nack ((nack_sn nack + j) mod at_mod e) Hok) as (_ & _ & ->); [apply Z.mod_pos_bound; lia|].
    apply Z.mod_pos_bound. lia.
  - apply Forall_cons_2; [apply Hok|apply Forall_nil_2].
Qed.

Lemma nacks_loop_spec ack ns : forall prev e l,
  am_tx_inv e -> tx_normal e -> Forall (nack_ok (at_mod e)) ns -> Forall (nack_before e ack) ns -> retx_repr (at_retx_queue e) l ->
  exists e' ev, nacks_loop ack ns prev e = Some (e', ev) /\ nacks_done e e' l (ns ≫= expand_nack e).
Proof.
  induction ns as [|nack ns IH]; intros prev e l Hi Hnorm Hok Hbef Hr; [exists e, []; split; [done|by apply nacks_done_nil]|].
  apply Forall_cons in Hok as [Hok Hoks]. apply Forall_cons in Hbef as [Hbef Hbefs]. destruct (at_geometry e) as (Hg1 & Hg2 & _).
  cbn [nacks_loop]. set (o := if has_nack_range nack then _ else _).
  assert (Ho : exists prev' e1 ev1, o = Some (prev', e1, ev1) /\ nacks_done e e1 l (expand_nack e nack)).
  { unfold o, expand_nack. destruct (has_nack_range nack) eqn:Hrange; [|by apply nack_sdu_tx_spec].
    pose proof Hok as (Hsn & _ & _ & Hrg & _).
    destruct (nack_range_loop_spec nack ack (Z.to_nat (nack_range nack)) (at_fuel e) prev e l) as (p' & e1 & ev1 & E & Hd); try done.
    - lia.
    - unfold at_fuel. lia.
    - intros j Hj. apply Hbef; [done|lia].
    - rewrite Z2Nat.id, Z.sub_diag in E, Hd by lia. rewrite Z.add_0_r, Z.mod_small in E by lia. eauto 10. }
  destruct Ho as (prev' & e1 & ev1 & -> & Hd1). cbn [mbind option_bind]. pose proof Hd1 as (Hi1 & Hn1 & Ho1 & Hr1).
  pose proof (only_counts_mod _ _ Ho1) as Em.
  destruct (IH prev' e1 _ Hi1 Hn1 ltac:(by rewrite Em) ltac:(unfold nack_before in *; by rewrite Em) Hr1) as (e2 & ev2 & -> & Hd2).
  cbn [mbind option_bind]. eexists _, _. split; [reflexivity|]. rewrite bind_cons. eapply nacks_done_app; [|exact Hd1|].
  - clear -Hoks. induction Hoks as [|n ns Hn _ IH]; [by apply Forall_nil_2|]. rewrite bind_cons. apply Forall_app. split; [by apply expand_nack_sns|done].
  - assert (Ee : forall n, expand_nack e n = expand_nack e1 n) by (intros n; unfold expand_nack, range_item; by rewrite Em).
    replace (ns ≫= expand_nack e) with (ns ≫= expand_nack e1); [exact Hd2|].
    clear -Ee. induction ns as [|n ns IH]; [done|]. rewrite !bind_cons, IH, Ee. done.
Qed.

(** ** The checks *)
Definition status_in (md : Z) (s : rlc_am_status_pdu) : Prop := 0 <= ack_sn s < md /\ Forall (nack_ok md) (nacks s).

(** What the checks establish. *)
Record status_checked e (s : rlc_am_status_pdu) : Prop := {
  sc_ack : 0 < ahead e (ack_sn s) <= at_window_size e;
  sc_sent : ahead e (ack_sn s) <= ahead e (tx_next (at_st e)) + 1;
  sc_normal : tx_normal e;
  sc_nacks : Forall (fun n => ahead e (nack_sn n) < ahead e (ack_sn s)) (nacks s);
  sc_before : Forall (nack_before e (ack_sn s)) (nacks s)
}.

Lemma valid_nack_spec e ack nack ev :
  nack_ok (at_mod e) nack -> 0 <= tx_next_ack (at_st e) < at_mod e -> 0 <= ack < at_mod e -> valid_nack e ack nack = (true, ev) ->
  ahead e (nack_sn nack) < ahead e ack /\ nack_before e ack nack.
Proof.
  intros (Hsn & _ & _ & Hrg & _) Hna Hack. destruct (at_geometry e) as (Hg1 & Hg2 & _). unfold valid_nack, inside_tx_window. rewrite !tx_mod_base_rel.
  set (last_sn := u32 _). assert (El : ahead e last_sn = ahead e (nack_sn nack + nack_range nack - 1)).
  { rewrite <- (rel_mod _ _ last_sn), <- (rel_mod _ _ (_ - 1)) by lia. unfold last_sn. by rewrite at_u32_mod. }
  rewrite El. destruct (Z.leb_spec (ahead e ack) (ahead e (nack_sn nack))) as [|Hlt]; [done|].
  destruct (Z.ltb_spec (ahead e (nack_sn nack)) (at_window_size e)) as [Hin|]; [|by destruct (_ && _)]. cbn [negb].
  destruct (has_nack_range nack) eqn:Hr; cbn [andb]; [|intros _; split; [done|]; intros E; congruence].
  destruct (Z.leb_spec (ahead e ack) (ahead e (nack_sn nack + nack_range nack - 1))) as [|Hlast]; [done|].
  intros _. split; [done|]. intros _ j Hj E. apply (f_equal (ahead e)) in E. rewrite rel_mod, rel_add in E by lia.
  pose proof (rel_range (at_mod e) (tx_next_ack (at_st e)) (nack_sn nack) ltac:(lia)).
  rewrite Z.mod_small in E by lia. replace (nack_sn nack + nack_range nack - 1) with (nack_sn nack + (nack_range nack - 1)) in Hlast by lia.
  rewrite rel_add, Z.mod_small in Hlast by lia. lia.
Qed.

Lemma check_status_spec e s ev :
  am_tx_inv e -> status_in (at_mod e) s -> check_status s e = (true, ev) -> status_checked e s /\ ev = [].
Proof.
  intros Hi (Hack & Hns) Hc. assert (Hb := ai_base _ Hi). assert (Hn := ai_next _ Hb). assert (Hna := ai_next_ack _ Hb).
  destruct (at_geometry e) as (Hg1 & Hg2 & _). unfold check_status, tx_valid_ack_sn in Hc. rewrite !tx_mod_base_rel in Hc.
  destruct (Z.ltb_spec 0 (ahead e (ack_sn s))) as [Hpos|]; [|done]. destruct (Z.leb_spec (ahead e (ack_sn s)) (at_window_size e)) as [Hle|]; [|done].
  cbn [andb negb] in Hc. rewrite u32_small in Hc by lia.
  destruct (Z.ltb_spec (ahead e (tx_next (at_st e) + 1)) (ahead e (ack_sn s))) as [|Hsent]; [done|].
  assert (Hnorm : tx_normal e).
  { destruct (ai_phase _ Hb) as [|Hov]; [done|]. unfold tx_overtaken in Hov. exfalso. rewrite <- (rel_mod _ _ (tx_next (at_st e) + 1)), <- Hov, rel_self in Hsent; lia. }
  assert (Hsent' : ahead e (ack_sn s) <= ahead e (tx_next (at_st e)) + 1).
  { destruct Hnorm as [Hlen _]. pose proof (rel_range (at_mod e) (tx_next_ack (at_st e)) (tx_next (at_st e)) ltac:(lia)).
    rewrite rel_add, Z.mod_small in Hsent by lia. done. }
  assert (Hall : Forall (fun n => ahead e (nack_sn n) < ahead e (ack_sn s) /\ nack_before e (ack_sn s) n) (nacks s) /\ ev = []).
  { revert Hc Hns. generalize (nacks s) as l. induction l as [|n l IH]; intros Hc Hns; [injection Hc as <-; split; [by apply Forall_nil_2|done]|].
    apply Forall_cons in Hns as [Hn0 Hns]. destruct (valid_nack e (ack_sn s) n) as [[] ev'] eqn:Ev; [|done].
    destruct (IH Hc Hns) as [? ->]. split; [|done]. apply Forall_cons_2; [|done]. by eapply valid_nack_spec. }
  destruct Hall as [Hall ->]. split; [|done]. split; try done; apply (Forall_impl _ _ _ Hall); tauto.
Qed.

(** ** A whole report *)
Definition stop_sn (s : rlc_am_status_pdu) : Z := match nacks s with [] => ack_sn s | nack :: _ => nack_sn nack end.

(** The SDUs a report acknowledges: those below the first NACK. *)
Definition acked_sdus e (s : rlc_am_status_pdu) : list rlc_tx_am_sdu_info :=
  sdus_from (at_mod e) (at_window e) (tx_next_ack (at_st e)) (Z.to_nat (nof_acked e (stop_sn s))).

Record status_done e (s : rlc_am_status_pdu) e' (ev : list tx_event) : Prop := {
  sd_inv : am_tx_inv e';
  sd_window : exists w, removed_below e w (nof_acked e (stop_sn s)) /\ same_sdus w (at_window e');
  sd_next_ack : tx_next_ack (at_st e') = (tx_next_ack (at_st e) + nof_acked e (stop_sn s)) mod at_mod e;
  sd_frame : at_cfg e' = at_cfg e /\ at_queue e' = at_queue e /\ sn_under e' = sn_under e /\ tx_next (at_st e') = tx_next (at_st e);
  sd_retx : retx_repr (at_retx_queue e') (push_all_retx (at_window_size e') [] (nack_request e' <$> (nacks s ≫= expand_nack e')));
  sd_events : exists ev', ev = deliver_events (last_delivered false (acked_sdus e s) None) (last_delivered true (acked_sdus e s) None) ++ ev'
}.

Lemma stop_sn_spec e s :
  status_in (at_mod e) s -> status_checked e s ->
  0 <= stop_sn s < at_mod e /\ ahead e (stop_sn s) <= ahead e (tx_next (at_st e)) + 1 /\
  (nacks s <> [] -> nof_acked e (stop_sn s) <= ahead e (tx_next (at_st e))).
Proof.
  intros (Hack & Hns) [? Hsent _ Hlt _]. unfold stop_sn. destruct (nacks s) as [|n ns]; [done|].
  apply Forall_cons in Hns as [[Hn _] _]. apply Forall_cons in Hlt as [Hlt _]. split; [done|]. split; [lia|]. intros _.
  unfold nof_acked. rewrite (proj2 (Z.leb_le _ _)) by lia. lia.
Qed.

Lemma process_rest_spec s e :
  am_tx_inv e -> status_in (at_mod e) s -> status_checked e s ->
  exists e' ev, ('(max_deliv, max_deliv_retx, e) ← ack_loop (at_fuel e) (tx_next_ack (at_st e)) (stop_sn s) None None e;
    e ← clear_retx_loop (Z.to_nat (retx_size (at_retx_queue e))) e;
    let e := at_set_retx (at_retx_queue e) INVALID_RLC_SN e in
    '(e, ev) ← nacks_loop (ack_sn s) (nacks s) INVALID_RLC_SN e;
    Some (e, deliver_events max_deliv max_deliv_retx ++ ev)) = Some (e', ev) /\ status_done e s e' ev.
Proof.
  intros Hi Hin Hck. destruct (stop_sn_spec e s Hin Hck) as (Hstop & Hle & Hnz). destruct Hin as (Hack & Hns). destruct (at_geometry e) as (Hg1 & Hg2 & _).
  destruct (ack_loop_spec (at_fuel e) (stop_sn s) None None e Hi (sc_normal _ _ Hck) Hstop Hle) as (e1 & -> & Hi1 & Hrm & Hfr & Hna1 & Hno1).
  { unfold at_fuel. pose proof (rel_range (at_mod e) (tx_next_ack (at_st e)) (stop_sn s) ltac:(lia)). lia. }
  cbn [mbind option_bind]. fold (acked_sdus e s). destruct (retx_repr_inv e1 Hi1) as [l1 Hr1].
  destruct (clear_retx_spec (Z.to_nat (retx_size (at_retx_queue e1))) e1 l1 Hi1 Hr1) as (e2 & -> & Hi2 & Ho2 & Hr2); [by rewrite (retx_size_length _ _ Hr1)|].
  cbn [mbind option_bind]. set (e3 := at_set_retx _ _ e2).
  assert (Hi3 : am_tx_inv e3) by (eapply (same_core_inv e2); [by repeat split|done]).
  assert (Ho3 : only_counts e1 e3) by done. assert (Hr3 : retx_repr (at_retx_queue e3) []) by done.
  destruct Hfr as (F1 & F2 & F3 & F4 & F5). assert (Em : at_mod e3 = at_mod e) by (rewrite (only_counts_mod _ _ Ho3); unfold at_mod; by rewrite F1).
  assert (Hfin : forall e4 ev4, am_tx_inv e4 -> only_counts e3 e4 ->
    retx_repr (at_retx_queue e4) (push_all_retx (at_window_size e3) [] (nack_request e3 <$> (nacks s ≫= expand_nack e3))) ->
    status_done e s e4 (deliver_events (last_delivered false (acked_sdus e s) None) (last_delivered true (acked_sdus e s) None) ++ ev4)).
  { intros e4 ev4 Hi4 Ho34 Hr4. pose proof (only_counts_trans _ _ _ Ho3 Ho34) as (Hs & C1 & C2 & C3 & C4). pose proof (only_counts_mod _ _ Ho34) as Em4. split.
    - done.
    - exists (at_window e1). by split.
    - by rewrite C2.
    - rewrite C1, C2, C3, C4. by repeat split.
    - assert (Ew : at_window_size e4 = at_window_size e3) by (unfold at_window_size; by destruct Ho34 as (_ & -> & _)). rewrite Ew.
      assert (Ee : forall n, expand_nack e3 n = expand_nack e4 n) by (intros n; unfold expand_nack, range_item; by rewrite Em4).
      assert (El : nacks s ≫= expand_nack e3 = nacks s ≫= expand_nack e4).
      { clear -Ee. induction (nacks s) as [|n ns IH]; [done|]. rewrite !bind_cons, IH, Ee. done. }
      rewrite <- El. replace (nack_request e4 <$> _) with (nack_request e3 <$> (nacks s ≫= expand_nack e3)); [done|].
      symmetry. apply Forall_fmap_ext_1. rewrite <- Em in Hns. clear -Hns Ho34. induction Hns as [|n ns Hn _ IH]; [by apply Forall_nil_2|].
      rewrite bind_cons. apply Forall_app. split; [|done]. eapply Forall_impl; [by apply expand_nack_sns|]. intros x Hx. by apply nack_request_ext.
    - by eexists. }
  destruct (nacks s) as [|n ns] eqn:En.
  { cbn [nacks_loop mbind option_bind]. eexists _, _. split; [reflexivity|]. by apply Hfin. }
  rewrite <- En in *. assert (Hne : nacks s <> []) by congruence. specialize (Hno1 (Hnz Hne)).
  destruct (nacks_loop_spec (ack_sn s) (nacks s) INVALID_RLC_SN e3 [] Hi3) as (e4 & ev4 & -> & Hi4 & Hn4 & Ho4 & Hr4).
  - by eapply (only_counts_normal e1).
  - by rewrite Em.
  - unfold nack_before in *. rewrite Em. apply Hck.
  - done.
  - cbn [mbind option_bind]. eexists _, _. split; [reflexivity|]. by apply Hfin.
Qed.

Lemma process_status_spec s e :
  am_tx_inv e -> status_in (at_mod e) s -> status_checked e s ->
  exists e' ev, process_status s e = Some (e', ev) /\ status_done e s e' ev.
Proof.
  intros Hi Hin Hck. unfold process_status. fold (stop_sn s). case_match; [|by apply process_rest_spec].
  assert (Hi0 : am_tx_inv (at_set_timer false e)) by (eapply (same_core_inv e); [by repeat split|done]).
  destruct (process_rest_spec s (at_set_timer false e) Hi0 Hin) as (e' & ev & E & Hd); [by destruct Hck; split|].
  exists e', ev. split; [exact E|]. by destruct Hd; split.
Qed.
End nacks.
