(* ===== verification/RlcTxAmCorrect.v ===== *)
(** * Theorems on the AM transmitter

    The invariant is kept by every input, whatever status reports the peer sends; PDUs carry slices of the SDUs of the
    window; status reports are handled exactly. *)
From S2P Require Import Prelude ByteCursor RlcConfig RlcAmPdu RlcAmStatusPdu RlcAmStatusFacts RlcAmStatusNacks BitCodec PdcpSn.
From S2P Require Import SduQueue SduQueueConc SduQueueSeq SegmentedCircularMap SduWindow SduWindowCount RingBuffer RlcRetxQueue RlcRxBase.
From S2P Require Import RlcTxBase RlcTxAm RlcTxAmStatus RlcTxAmFacts RlcTxAmPdus RlcTxAmAcks RlcTxAmNacks.

(** What the transmitter relies on of the receiving side: its reports can be packed, also after they were trimmed. *)
Class StatusProviderLaws (P : Type) `{StatusProvider P} := {
  sp_inv : rlc_am_sn_size -> P -> Prop;
  sp_get_ok : forall sz timer p, sp_inv sz p ->
    report_sendable sz (sp_get timer p).1 /\
    forall s, report_sendable sz s -> sp_inv sz (sp_write s (sp_get timer p).2)
}.

Section correct.
Context {W : Type} `{SduWindowCountLaws rlc_tx_am_sdu_info W}.
Context {P : Type} `{StatusProviderLaws P}.
Implicit Types (e : rlc_tx_am_entity W) (w : W) (p : P).

Notation lk e k := (win_lookup (at_window e) k).
Notation sn_under e := (at_sn_under_segmentation e).
Notation ahead e := (rel (at_mod e) (tx_next_ack (at_st e))).
Notation sz e := (ac_sn_size (at_cfg e)).

(** ** Status reports that are sent *)
Lemma build_status_spec buf timer p e :
  sp_inv (sz e) p -> buf_length buf < 4294967296 ->
  exists n buf' p' ev, build_status_pdu buf timer p e = Some (n, buf', p', e, ev) /\ sp_inv (sz e) p' /\
    (n = 0 /\ buf' = buf \/ exists s, report_sendable (sz e) s /\ n = rd_length (status_octets s) /\ 0 < n <= buf_length buf /\
       buf' = status_octets s ++ drop (length (status_octets s)) buf /\
       (packed_size (sp_get timer p).1 <= buf_length buf -> s = (sp_get timer p).1)).
Proof.
  intros Hp Hbuf. unfold build_status_pdu.
  destruct (Z.ltb_spec (buf_length buf) rlc_am_nr_status_pdu_sizeof_header_ack_sn) as [Hlt|Hge].
  { eexists _, _, _, _. split; [reflexivity|]. split; [done|by left]. }
  destruct (sp_get_ok (sz e) timer p Hp) as [Hok Hwr]. destruct (sp_get timer p) as [s0 p0]. cbn [fst snd] in *.
  set (o := if _ <? packed_size s0 then _ else _).
  assert (Ho : exists s, o = (true, s) /\ report_sendable (sz e) s /\ rd_length (status_octets s) <= buf_length buf /\
    (packed_size s0 <= buf_length buf -> s = s0)).
  { unfold o. destruct (Z.ltb_spec (buf_length buf) (packed_size s0)) as [Hlt|Hle].
    - rewrite u32_small by (unfold rlc_am_nr_status_pdu_sizeof_header_ack_sn in *; lia).
      destruct (trim_sendable (sz e) (buf_length buf) s0 Hok Hge) as (s & -> & Hs & Hl). exists s. split; [done|]. split; [done|]. split; [done|lia].
    - exists s0. split; [done|]. split; [done|]. split; [by rewrite <- (report_sendable_size _ _ Hok)|done]. }
  destruct Ho as (s & -> & Hs & Hl & Hsame). cbn [negb]. pose proof Hs as (_ & Hsok & _).
  rewrite (pack_octets s buf Hsok) by exact Hl. cbn [mbind option_bind].
  assert (Hpos : 0 < rd_length (status_octets s)).
  { rewrite status_octets_length, <- nacks_octets_length. unfold rlc_am_nr_status_pdu_sizeof_header_ack_sn.
    pose proof (rd_length_nonneg (nacks_octets (sn_size s) (nacks s))). lia. }
  rewrite (proj2 (Z.eqb_neq _ 0)) by lia. eexists _, _, _, _. split; [reflexivity|]. split; [by apply Hwr|].
  right. exists s. split; [done|]. split; [done|]. split; [lia|]. by split.
Qed.

(** ** The buffer state *)

(** What reporting the buffer state leaves alone. Retransmissions of SDUs that are gone leave the queue. *)
Definition reported_frame e e' : Prop :=
  drop_stale_retx (Z.to_nat (retx_size (at_retx_queue e))) (at_window e) (at_retx_queue e) = Some (at_retx_queue e') /\
  at_cfg e' = at_cfg e /\ at_window e' = at_window e /\ at_st e' = at_st e /\ sn_under e' = sn_under e /\
  live_sdus (at_queue e') = live_sdus (at_queue e).

Lemma get_buffer_state_spec p e :
  am_tx_inv e -> exists bs e', am_get_buffer_state p e = Some (bs, e') /\ am_tx_inv e' /\ reported_frame e e'.
Proof.
  intros Hi. assert (Hb := ai_base _ Hi). assert (Hn := ai_next _ Hb). unfold am_get_buffer_state.
  destruct (sdu_queue_state (at_queue e)) as [n_sdus n_bytes]. set (o := if negb _ then _ else _).
  assert (Ho : exists seg toa e1, o = Some (seg, toa, e1) /\ am_tx_inv e1 /\ (at_cfg e1 = at_cfg e /\ at_window e1 = at_window e /\
    at_st e1 = at_st e /\ sn_under e1 = sn_under e /\ live_sdus (at_queue e1) = live_sdus (at_queue e)) /\ at_retx_queue e1 = at_retx_queue e).
  { unfold o. destruct (Z.eqb_spec (sn_under e) INVALID_RLC_SN) as [|Hne]; cbn [negb].
    - pose proof (ai_queue _ Hb) as Hq. destruct (sdu_queue_front_spec (at_queue e) (proj1 Hq)) as (r & q & E & Hq' & Hl & _).
      rewrite E. cbn [mbind option_bind]. eexists _, _, _. split; [reflexivity|]. split; [|by repeat split].
      destruct Hi as [Hb' Hu Hc Hp]. split; try done. apply base_queue; [done|]. eapply tx_queue_sub; [exact Hq|done|].
      by eapply sdu_queue_front_out.
    - destruct (ai_under _ Hi) as [|Eu]; [done|]. rewrite Eu, (win_has _ _ (ai_window _ Hb) (proj1 Hn)).
      destruct (lk e (tx_next (at_st e))) as [i|] eqn:El.
      + rewrite bool_decide_true by (by eexists). rewrite (win_get_lookup _ _ (ai_window _ Hb) (proj1 Hn)), El. by eexists _, _, e.
      + rewrite bool_decide_false by (by intros []). by eexists _, _, e. }
  destruct Ho as (seg & toa & e1 & -> & Hi1 & (F1 & F2 & F3 & F4 & F5) & Hq1). cbn [mbind option_bind].
  destruct (drop_stale_inv e1 (at_retx_sn e1) Hi1) as (q & l & Ed & Hr & _ & _ & Hi2 & Hh & _).
  rewrite Ed. cbn [mbind option_bind]. rewrite (retx_empty_valid _ _ Hr), (retx_front_spec _ _ Hr).
  assert (Ht : exists t, (match valid_retx l with [] => true | _ => false end = true /\ t = toa) \/
    match valid_retx l with [] => true | _ => false end = false /\
    (retx ← head (valid_retx l); i ← win_get (at_window (at_set_retx q (at_retx_sn e1) e1)) (r_sn retx); Some (Some (xi_toa i))) = Some t).
  { destruct (valid_retx l) as [|r t] eqn:Ev; [exists toa; by left|]. destruct (Hh r eq_refl) as [i Hi'].
    exists (Some (xi_toa i)). right. split; [done|]. cbn [head mbind option_bind at_window at_set_retx].
    assert (Hrn : 0 <= r_sn r). { destruct (ai_retx _ (ai_base _ Hi2)) as (l' & Hr' & Hall & _).
      assert (l' = l) as -> by (destruct Hr, Hr'; by eapply rb_repr_unique). rewrite Ev in Hall. by apply Forall_cons in Hall as [[[? _] _] _]. }
    by rewrite (win_get_lookup _ _ (ai_window _ (ai_base _ Hi1)) Hrn), Hi'. }
  destruct Ht as (t & [[-> ->]|[-> ->]]); cbn [mbind option_bind]; eexists _, _; (split; [reflexivity|]);
    (split; [eapply (same_core_inv (at_set_retx q (at_retx_sn e1) e1)); [by repeat split|done]|]); rewrite F2, Hq1 in Ed; by split.
Qed.

Lemma update_spec force p e :
  am_tx_inv e -> exists e' ev, am_update_mac_buffer_state force p e = Some (e', ev) /\ am_tx_inv e' /\ reported_frame e e'.
Proof.
  intros Hi. unfold am_update_mac_buffer_state. set (e0 := at_set_bs _ _ false e).
  assert (Hi0 : am_tx_inv e0) by (eapply (same_core_inv e); [by repeat split|done]).
  destruct (get_buffer_state_spec p e0 Hi0) as (bs & e1 & -> & Hi1 & Hf1). cbn [mbind option_bind].
  case_match; eexists _, _; (split; [reflexivity|]); (split; [eapply (same_core_inv e1); [by repeat split|done]|done]).
Qed.

(** ** The other inputs *)
Lemma am_handle_status_spec s p e :
  am_tx_inv e -> status_in (at_mod e) s ->
  exists e' ev, am_handle_status_pdu s p e = Some (e', ev) /\ am_tx_inv e' /\ at_cfg e' = at_cfg e /\
    (check_status s e = (false, ev) /\ e' = e \/
     exists e1 ev1 ev2, (check_status s e).1 = true /\ status_done e s e1 ev1 /\ reported_frame e1 e' /\ ev = ev1 ++ ev2).
Proof.
  intros Hi Hin. unfold am_handle_status_pdu. destruct (check_status s e) as [[] ev0] eqn:Ec; cbn [negb]; [|exists e, ev0; do 3 (split; [done|]); by left].
  destruct (check_status_spec e s ev0 Hi Hin Ec) as [Hck ->].
  destruct (process_status_spec s e Hi Hin Hck) as (e1 & ev1 & -> & Hd). cbn [mbind option_bind].
  destruct (update_spec true p e1 (sd_inv _ _ _ _ Hd)) as (e2 & ev2 & -> & Hi2 & Hf2). cbn [mbind option_bind].
  eexists _, _. split; [reflexivity|]. split; [done|]. split; [destruct Hf2 as (_ & -> & _); apply Hd|]. right. by exists e1, ev1, ev2.
Qed.

Lemma poll_expiry_spec p e :
  am_tx_inv e -> exists e' ev, on_expired_poll_retransmit_timer p e = Some (e', ev) /\ am_tx_inv e' /\ at_cfg e' = at_cfg e /\
    same_sdus (at_window e) (at_window e') /\ at_st e' = at_st e /\ live_sdus (at_queue e') = live_sdus (at_queue e).
Proof.
  intros Hi. assert (Hb := ai_base _ Hi). assert (Hna := ai_next_ack _ Hb). unfold on_expired_poll_retransmit_timer.
  destruct (negb (_ || _)); [by exists e, []; split_and!|]. destruct (win_empty (at_window e)); [by exists e, []; split_and!|].
  rewrite (win_has _ _ (ai_window _ Hb) (proj1 Hna)). destruct (lk e (tx_next_ack (at_st e))) as [i|] eqn:El.
  2: { rewrite bool_decide_false by (by intros []). by exists e, []; split_and!. }
  rewrite bool_decide_true by (by eexists). cbn [negb]. rewrite (win_get_lookup _ _ (ai_window _ Hb) (proj1 Hna)), El. cbn [mbind option_bind].
  destruct (ai_infos _ Hb _ i (proj1 Hna) El) as ((_ & Hl & _) & _ & _). rewrite u32_small by lia.
  destruct (ai_retx _ Hb) as (l & Hr & Hall & Hcap).
  destruct (retx_try_push_spec (Retx (tx_next_ack (at_st e)) 0 (xi_length i)) _ _ Hr) as (q & -> & Hr' & Hc' & _). cbn [mbind option_bind].
  set (b := _ <? _) in *. assert (Hi1 : am_tx_inv (at_set_retx q (at_retx_sn e) e)).
  { eapply inv_set_retx; [done|exact Hr'| |congruence]. destruct b; [|done]. unfold valid_retx. rewrite filter_app, fmap_app.
    apply Forall_app. split; [done|]. rewrite filter_cons, decide_True by done. apply Forall_cons_2; [|apply Forall_nil_2].
    unfold retx_ok. cbn [it_retx r_sn r_so r_length]. lia. }
  set (o := if b then _ else _).
  assert (Ho : exists e1 ev1, o = Some (e1, ev1) /\ am_tx_inv e1 /\ only_counts e e1).
  { unfold o. destruct b; [|eexists _, _; split; [reflexivity|]; by split_and!].
    destruct (increment_spec (at_set_retx q (at_retx_sn e) e) (tx_next_ack (at_st e)) Hi1 (proj1 Hna)) as (e1 & ev1 & E & Hi2 & Ho2 & _); [by eexists|].
    exists e1, ev1. split; [exact E|]. split; [done|]. exact Ho2. }
  destruct Ho as (e1 & ev1 & -> & Hi2 & (Hss & Ec & Est & Eq & _)). cbn [mbind option_bind].
  destruct (update_spec true p e1 Hi2) as (e2 & ev2 & -> & Hi3 & Hf). cbn [mbind option_bind].
  eexists _, _. split; [reflexivity|]. split; [done|]. destruct Hf as (_ & -> & -> & -> & _ & ->). split; [done|]. split; [done|]. split; [done|congruence].
Qed.

Lemma changed_core deferred e : same_core e (am_handle_changed_buffer_state deferred e).
Proof. unfold am_handle_changed_buffer_state. by case_match. Qed.

Lemma inv_set_queue e q :
  am_tx_inv e -> tx_queue_ok (2 ^ pdcp_sn_bits (ac_pdcp_sn_len (at_cfg e))) q -> am_tx_inv (at_set_queue q e).
Proof. intros [Hb Hu Hc Hp] Hq. split; try done. by apply base_queue. Qed.

Lemma am_handle_sdu_spec buf is_retx toa deferred e :
  am_tx_inv e -> bytes_ok buf -> 1 <= buf_length buf <= 65536 ->
  exists e' ev s (b : bool), am_handle_sdu buf is_retx toa deferred e = Some (e', ev) /\ am_tx_inv e' /\ sdu_buf s = buf /\
    ev = (if b then [AddTxSdus 1 (buf_length buf)] else [AddTxLostSdus 1]) /\
    live_sdus (at_queue e') = live_sdus (at_queue e) ++ (if b then [s] else []) /\
    at_cfg e' = at_cfg e /\ at_window e' = at_window e /\ at_st e' = at_st e /\ at_retx_queue e' = at_retx_queue e.
Proof.
  intros Hi Hb Hl. assert (Hbase := ai_base _ Hi). unfold am_handle_sdu.
  destruct (get_pdcp_sn_range buf (ac_pdcp_sn_len (at_cfg e)) (ac_is_srb (at_cfg e)) Hb) as (sn & -> & Hsn); [apply Hbase..|].
  cbn [mbind option_bind]. set (s := Sdu _ _ _ _). pose proof (md_bounds _ _ (pdcp_bits_range (ac_pdcp_sn_len (at_cfg e))) eq_refl) as Hmd.
  destruct (tx_queue_write _ s (at_queue e) (ai_queue _ Hbase)) as (b & q & -> & Hq & Hlive & _); [lia|done|done|].
  assert (Hi' := inv_set_queue e q Hi Hq).
  exists (if b then am_handle_changed_buffer_state deferred (at_set_queue q e) else at_set_queue q e), (if b then [AddTxSdus 1 (buf_length buf)] else [AddTxLostSdus 1]), s, b.
  split; [by destruct b|]. split; [destruct b; [by eapply same_core_inv; [apply changed_core|]|done]|]. split; [done|]. split; [done|].
  unfold am_handle_changed_buffer_state. destruct b; [case_match|]; by repeat split.
Qed.

Lemma am_discard_spec start block deferred e :
  am_tx_inv e -> 0 <= start < 4294967296 -> 0 <= block < 4294967296 ->
  exists e' ev, am_discard_sdu start block deferred e = Some (e', ev) /\ am_tx_inv e' /\
    at_cfg e' = at_cfg e /\ at_window e' = at_window e /\ at_st e' = at_st e /\ at_retx_queue e' = at_retx_queue e /\
    sublist (live_sdus (at_queue e')) (live_sdus (at_queue e)).
Proof.
  intros Hi Hs Hb. pose proof (ai_queue _ (ai_base _ Hi)) as (Hq & Hw & Hsn). unfold am_discard_sdu. rewrite pdcp_mask by apply (ai_base _ Hi).
  cbn [mbind option_bind].
  destruct (discard_block_spec (ac_pdcp_sn_len (at_cfg e)) start block (at_queue e) Hq Hsn Hs Hb) as (q & any & ev & -> & Hq' & Hsp & _ & Hlive & _).
  assert (Hsub : sublist (live_sdus q) (live_sdus (at_queue e))) by (rewrite Hlive; case_match; [apply sublist_filter|done]). clear Hlive.
  cbn [mbind option_bind]. assert (Hi' : am_tx_inv (at_set_queue q e)).
  { apply inv_set_queue; [done|]. eapply tx_queue_same; [apply (ai_base _ Hi)|done|done]. }
  eexists _, ev. split; [reflexivity|]. split; [destruct any; [by eapply same_core_inv; [apply changed_core|]|done]|].
  unfold am_handle_changed_buffer_state. destruct any; [case_match|]; by split_and!.
Qed.

(** Inputs as the layers around the entity produce them; the fields of status reports are as [unpack] leaves them. *)
Definition am_tx_input_ok (md : Z) (i : am_tx_input) : Prop :=
  match i with
  | AmTxSdu buf _ _ _ => bytes_ok buf /\ 1 <= buf_length buf <= 65536
  | AmTxDiscard start block _ => 0 <= start < 4294967296 /\ 0 <= block < 4294967296
  | AmTxPull buf _ => buf_length buf < 4294967296
  | AmTxStatus s => status_in md s
  | _ => True
  end.

Lemma am_pull_spec buf timer p e :
  xi_next_so init = 0 -> am_tx_inv e -> sp_inv (sz e) p -> buf_length buf < 4294967296 ->
  exists n buf' p' e' ev, am_pull_pdu buf timer p e = Some (n, buf', p', e', ev) /\ am_tx_inv e' /\ sp_inv (sz e) p' /\ at_cfg e' = at_cfg e.
Proof.
  intros Hso Hi Hp Hbuf. unfold am_pull_pdu. destruct (at_max_retx_reached e); [by eexists _, _, _, _, _|].
  destruct (sp_required p).
  - destruct (build_status_spec buf timer p e Hp Hbuf) as (n & buf' & p' & ev & -> & Hp' & _). by eexists _, _, _, _, _.
  - destruct (pull_data_spec buf e Hso Hi Hbuf) as (n & buf' & e' & ev & -> & Hi' & Ec & _). cbn [mbind option_bind]. by eexists _, _, _, _, _.
Qed.

Lemma am_tx_step_inv i p e :
  xi_next_so init = 0 -> am_tx_inv e -> sp_inv (sz e) p -> am_tx_input_ok (at_mod e) i ->
  exists e' p' pdus ev, am_tx_step i p e = Some (e', p', pdus, ev) /\ am_tx_inv e' /\ sp_inv (sz e) p' /\ at_cfg e' = at_cfg e.
Proof.
  intros Hso Hi Hp Hok. destruct i as [buf is_retx toa deferred|start block deferred|buf timer|s| | |deferred| | |]; cbn [am_tx_step am_tx_input_ok] in *.
  - destruct (am_handle_sdu_spec buf is_retx toa deferred e Hi) as (e' & ev & s & b & -> & Hi' & _ & _ & _ & Ec & _); [tauto..|].
    cbn [mbind option_bind]. by eexists _, _, _, _.
  - destruct (am_discard_spec start block deferred e Hi) as (e' & ev & -> & Hi' & Ec & _); [tauto..|]. cbn [mbind option_bind]. by eexists _, _, _, _.
  - destruct (am_pull_spec buf timer p e Hso Hi Hp Hok) as (n & buf' & p' & e' & ev & -> & Hi' & Hp' & Ec). cbn [mbind option_bind].
    by eexists _, _, _, _.
  - destruct (am_handle_status_spec s p e Hi Hok) as (e' & ev & -> & Hi' & Ec & _). cbn [mbind option_bind]. by eexists _, _, _, _.
  - destruct (at_poll_timer e); [|by eexists _, _, _, _].
    destruct (poll_expiry_spec p (at_set_timer false e)) as (e' & ev & -> & Hi' & Ec & _); [by eapply (same_core_inv e); [repeat split|]|].
    cbn [mbind option_bind]. by eexists _, _, _, _.
  - destruct (update_spec false p e Hi) as (e' & ev & -> & Hi' & Hf). cbn [mbind option_bind]. destruct Hf as (_ & Ec & _). by eexists _, _, _, _.
  - eexists _, _, _, _. split; [reflexivity|]. pose proof (changed_core deferred e) as Hc. split; [by eapply same_core_inv|]. split; [done|apply Hc].
  - eexists _, _, _, _. split; [reflexivity|]. by split; [eapply (same_core_inv e); [repeat split|]|].
  - eexists _, _, _, _. split; [reflexivity|]. by split; [eapply (same_core_inv e); [repeat split|]|].
  - eexists _, _, _, _. split; [reflexivity|]. by split; [eapply (same_core_inv e); [repeat split|]|].
Qed.

Lemma am_tx_run_inv l : forall p e,
  xi_next_so init = 0 -> am_tx_inv e -> sp_inv (sz e) p -> Forall (am_tx_input_ok (at_mod e)) l ->
  exists e' p' pdus ev, am_tx_run l p e = Some (e', p', pdus, ev) /\ am_tx_inv e' /\ sp_inv (sz e) p' /\ at_cfg e' = at_cfg e.
Proof.
  induction l as [|i l IH]; intros p e Hso Hi Hp Hok; cbn [am_tx_run]; [by eexists _, _, _, _|].
  apply Forall_cons in Hok as [Hok1 Hok]. destruct (am_tx_step_inv i p e Hso Hi Hp Hok1) as (e1 & p1 & pd1 & ev1 & -> & Hi1 & Hp1 & Ec1).
  cbn [mbind option_bind]. destruct (IH p1 e1 Hso Hi1 ltac:(by rewrite Ec1)) as (e2 & p2 & pd2 & ev2 & -> & Hi2 & Hp2 & Ec2).
  - unfold at_mod. rewrite Ec1. exact Hok.
  - cbn [mbind option_bind]. eexists _, _, _, _. split; [reflexivity|]. rewrite Ec1 in Hp2. split; [done|]. split; [done|congruence].
Qed.

(** A new entity. *)
Lemma am_tx_new_inv cfg queue_size w e :
  am_tx_new cfg queue_size w = Some e -> (ac_is_srb cfg = true -> ac_pdcp_sn_len cfg = pdcp_size12bits) -> 0 < queue_size < 4294967294 -> 0 <= ac_queue_size_bytes cfg < 4294967296 ->
  win_inv w -> win_cap w = window_size (am_sn_to_number (ac_sn_size cfg)) -> (forall k, 0 <= k -> win_lookup w k = None) ->
  am_tx_inv e /\ at_cfg e = cfg.
Proof.
  intros E Hsrb Hq Hbytes Hw Hcap Hemp. unfold am_tx_new in E.
  assert (Hne : ac_pdcp_sn_len cfg <> pdcp_size_invalid) by (intros E'; by rewrite E' in E).
  assert (E' : e = AmTx cfg (AmTxSt 0 0 0 0 0) (sdu_queue_new queue_size (ac_queue_size_bytes cfg)) INVALID_RLC_SN
    (retx_queue_new (window_size (am_sn_to_number (ac_sn_size cfg)))) INVALID_RLC_SN w [] false rlc_buffer_state_init true false false false false).
  { clear Hsrb. destruct (ac_pdcp_sn_len cfg); try done; by injection E as <-. }
  clear E. subst e. split; [|done]. destruct (at_geometry (W := W) (AmTx cfg (AmTxSt 0 0 0 0 0) (sdu_queue_new queue_size (ac_queue_size_bytes cfg)) INVALID_RLC_SN
    (retx_queue_new (window_size (am_sn_to_number (ac_sn_size cfg)))) INVALID_RLC_SN w [] false rlc_buffer_state_init true false false false false)) as (Hg1 & Hg2 & Hg3).
  set (e := AmTx _ _ _ _ _ _ _ _ _ _ _ _ _ _ _) in *.
  assert (Hws : at_window_size e = window_size (am_sn_to_number (ac_sn_size cfg))) by done.
  assert (Hself : ahead e (tx_next (at_st e)) = 0) by (apply rel_self; lia).
  split; [split| | |].
  - done.
  - done.
  - split; [by apply queue_ok_new|split; apply Forall_nil_2].
  - by split.
  - change (0 <= 0 < at_mod e). lia.
  - change (0 <= 0 < at_mod e). lia.
  - intros k i Hk Hi. change (win_lookup w k = Some i) in Hi. by rewrite Hemp in Hi.
  - left. unfold tx_normal. rewrite Hself. split; [lia|]. intros k Hk. pose proof (rel_range (at_mod e) (tx_next_ack (at_st e)) k ltac:(lia)). lia.
  - exists []. destruct (retx_repr_new (at_window_size e)) as [Hr Hc]; [lia| |split; [done|split; [apply Forall_nil_2|done]]].
    destruct Hg3 as (k & Hk & Ek). exists (k - 1). assert (k <> 0) by (intros ->; lia). split; [lia|].
    assert (2 ^ k = 2 * 2 ^ (k - 1)) by (rewrite <- Z.pow_succ_r by lia; f_equal; lia). lia.
  - by left.
  - intros i Hi. change (win_lookup w 0 = Some i) in Hi. by rewrite Hemp in Hi.
  - intros E. change (INVALID_RLC_SN = 0) in E. done.
Qed.

(** ** The stream of new data *)

(** What is still to be sent for the first time: the next SN, the offset in the first SDU, and the SDUs. *)
Definition am_view e : Z * Z * list (list Z) :=
  let q := sdu_buf <$> live_sdus (at_queue e) in
  match lk e (tx_next (at_st e)) with
  | Some i => (tx_next (at_st e), xi_next_so i, xi_sdu i :: q)
  | None => (tx_next (at_st e), 0, q)
  end.

(** The abstract transmitter: [k] bytes of the first SDU are sent. *)
Definition advance_view (md k : Z) (v : Z * Z * list (list Z)) : Z * Z * list (list Z) :=
  match v with
  | (sn, so, sdu :: q) => if so + k =? buf_length sdu then ((sn + 1) mod md, 0, q) else (sn, so + k, sdu :: q)
  | v => v
  end.

Lemma next_free e : am_tx_inv e -> lk e ((tx_next (at_st e) + 1) mod at_mod e) = None.
Proof.
  intros Hi. assert (Hb := ai_base _ Hi). assert (Hn := ai_next _ Hb). destruct (at_geometry e) as (Hg1 & Hg2 & _).
  pose proof (Z.mod_pos_bound (tx_next (at_st e) + 1) (at_mod e) ltac:(lia)) as Hr.
  destruct (lk e ((tx_next (at_st e) + 1) mod at_mod e)) as [i|] eqn:El; [|done].
  destruct (ai_infos _ Hb _ i (proj1 Hr) El) as (_ & _ & Hbe). unfold behind in Hbe. rewrite succ_cases in Hbe by done.
  clear Hr El. exfalso. repeat case_decide; rel_lia.
Qed.

Lemma next_differs e : am_tx_inv e -> (tx_next (at_st e) + 1) mod at_mod e <> tx_next (at_st e).
Proof.
  intros Hi. assert (Hn := ai_next _ (ai_base _ Hi)). destruct (at_geometry e) as (Hg1 & Hg2 & _). rewrite succ_cases by done. case_decide; lia.
Qed.

(** What the transmitter does with a grant that is not used for a status report, when the requests [rs] await a retransmission:
    what is sent, the requests and the stream afterwards, and whether the limit of retransmissions is reached. Once that limit
    was reached nothing is sent any more. Retransmissions go first, and the stream then waits. Without requests the next bytes
    of the first SDU are sent, as many as there is room for behind the header; an SDU is started when there is room for more
    than the header, the window is not full and it has memory for one more SDU. *)
Definition am_turn e (buf : list Z) (rs : list rlc_tx_amd_retx)
  : option (Z * Z * Z * list Z) * list rlc_tx_amd_retx * (Z * Z * list (list Z)) * bool :=
  if at_max_retx_reached e then (None, rs, am_view e, true) else
  match rs with
  | _ :: _ => let '(o, rs', hit) := serve_retx e buf rs in (o, rs', am_view e, hit)
  | [] =>
    match am_view e with
    | (_, _, []) => (None, [], am_view e, false)
    | (sn, so, sdu :: _) =>
      if (buf_length buf <=? hdr_size e so) || (so =? 0) && (is_tx_window_full e || window_refuses e) then (None, [], am_view e, false) else
      let k := Z.min (buf_length sdu - so) (buf_length buf - hdr_size e so) in
      (Some (sn, so, k, sdu), [], advance_view (at_mod e) k (am_view e), false)
    end
  end.

Lemma am_turn_new e buf :
  at_max_retx_reached e = false ->
  am_turn e buf [] =
    match lk e (tx_next (at_st e)), sdu_buf <$> live_sdus (at_queue e) with
    | None, [] => (None, [], am_view e, false)
    | Some i, _ =>
      if (buf_length buf <=? hdr_size e (xi_next_so i)) || (xi_next_so i =? 0) && (is_tx_window_full e || window_refuses e) then (None, [], am_view e, false) else
      (Some (tx_next (at_st e), xi_next_so i, Z.min (xi_length i - xi_next_so i) (buf_length buf - hdr_size e (xi_next_so i)), xi_sdu i), [],
       advance_view (at_mod e) (Z.min (xi_length i - xi_next_so i) (buf_length buf - hdr_size e (xi_next_so i))) (am_view e), false)
    | None, sdu :: _ =>
      if (buf_length buf <=? head_min_size e) || (is_tx_window_full e || window_refuses e) then (None, [], am_view e, false) else
      (Some (tx_next (at_st e), 0, Z.min (buf_length sdu) (buf_length buf - head_min_size e), sdu), [],
       advance_view (at_mod e) (Z.min (buf_length sdu) (buf_length buf - head_min_size e)) (am_view e), false)
    end.
Proof.
  intros E. unfold am_turn. rewrite E. destruct (am_view e) as [[sn so] l] eqn:Ev. unfold am_view in Ev.
  destruct (lk e _) as [i|]; injection Ev as <- <- <-; [done|]. destruct (sdu_buf <$> _); [done|]. by rewrite Z.sub_0_r.
Qed.

(** C4. The transmitter refines the FIFO byte stream with its retransmission queue: a pull that is not used for a status report
    writes exactly what [am_turn] says, nothing or the PDU with the named bytes, and leaves the requests, the stream and the
    flag for the limit of retransmissions as [am_turn] says. *)
Theorem am_pull_refines_stream buf timer p e :
  xi_next_so init = 0 -> am_tx_inv e -> sp_required p = false -> buf_length buf < 4294967296 ->
  exists n buf' e' ev rs rs' o v hit, am_pull_pdu buf timer p e = Some (n, buf', p, e', ev) /\
    retx_of e rs /\ am_turn e buf rs = (o, rs', v, hit) /\
    written e buf n buf' o /\ retx_of e' rs' /\ am_view e' = v /\ at_max_retx_reached e' = at_max_retx_reached e || hit.
Proof.
  intros Hso Hi Hreq Hbuf. unfold am_pull_pdu. rewrite Hreq. destruct (retx_repr_inv e Hi) as (l & Hl).
  destruct (at_max_retx_reached e) eqn:Hmax.
  { eexists _, _, e, _, (valid_retx l), (valid_retx l), None, (am_view e), true. split; [reflexivity|]. split; [by exists l|].
    unfold am_turn. rewrite Hmax. split; [done|]. split; [done|]. split; [by exists l|].
    done. }
  destruct (pull_data_spec buf e Hso Hi Hbuf) as (n & buf' & e' & ev & -> & Hi' & Ec & _ & Hd). cbn [mbind option_bind].
  assert (Hn := ai_next _ (ai_base _ Hi)). pose proof (next_differs e Hi) as Hdiff. pose proof (next_free e Hi) as Hfree.
  destruct (at_geometry e) as (Hg1 & Hg2 & _). pose proof (Z.mod_pos_bound (tx_next (at_st e) + 1) (at_mod e) ltac:(lia)) as Hnn.
  assert (Hnew : forall o v, retx_empty (at_retx_queue e) = true -> new_data e e' -> am_turn e buf [] = (o, [], v, false) ->
    written e buf n buf' o -> am_view e' = v ->
    exists n0 buf0 e0 ev0 rs rs' o v hit, Some (n, buf', p, e', ev) = Some (n0, buf0, p, e0, ev0) /\ retx_of e rs /\
      am_turn e buf rs = (o, rs', v, hit) /\ written e buf n0 buf0 o /\ retx_of e0 rs' /\ am_view e0 = v /\ at_max_retx_reached e0 = false || hit).
  { intros o v Hre [Hq Hm] Ht Hw Hv. rewrite (retx_empty_valid _ _ Hl) in Hre. destruct (valid_retx l) as [|] eqn:Ev; [|done].
    exists n, buf', e', ev, [], [], o, v, false. split; [done|]. split; [by exists l|]. do 2 (split; [done|]).
    split; [exists l; by rewrite Hq|]. split; [done|by rewrite Hm]. }
  rewrite am_turn_new in Hnew by done.
  destruct Hd as [-> -> Hlv Hnx Hlk _ (Hre & Hq & Hm & Hdue)|Hre (rs & rs' & o & hit & Hrs & Hrs' & Hs & Hw & Hm) (S1 & S2 & S3 & S4 & S5 & S6)
    |i Hre Eu Elk k Hs Hq Hlk Hnx Hnd|Hre Hnone Hfull Href (s & i & Hlv & Hs & Hi1 & Hsdu & Hnso & Hoth & Hnx) Hnd].
  - apply (Hnew None (am_view e)); [done|done| |done|unfold am_view; by rewrite Hnx, Hlk, Hlv].
    destruct (lk e (tx_next (at_st e))) as [i|] eqn:El.
    + destruct (ai_current _ Hi i El) as (_ & Hr & _). unfold hdr_size. rewrite (proj2 (Z.eqb_neq _ _)), (proj2 (Z.leb_le _ _)) by lia. done.
    + destruct (live_sdus (at_queue e)) as [|s q] eqn:Els; [done|]. cbn [fmap list_fmap].
      destruct Hdue as [E|[E|[E|E]]]; [congruence|apply Z.leb_le in E|..]; rewrite E; by rewrite ?orb_true_r, ?orb_true_l.
  - exists n, buf', e', ev, rs, rs', o, (am_view e), hit. split; [done|]. split; [done|]. split.
    + unfold am_turn. rewrite Hmax. destruct Hrs as (l' & Hl' & <-). rewrite (retx_empty_valid _ _ Hl') in Hre.
      destruct (valid_retx l'); [done|]. by rewrite Hs.
    + split; [done|]. split; [done|]. split; [unfold am_view; by rewrite S2, S3, S5|congruence].
  - destruct (ai_current _ Hi i Elk) as (_ & Hr & _). pose proof Hs as (_ & _ & (_ & _ & Hk & _ & _ & Hfit) & _).
    rewrite Elk in Hnew. assert (Ehs : hdr_size e (xi_next_so i) = head_max_size e) by (unfold hdr_size; by rewrite (proj2 (Z.eqb_neq _ _)) by lia).
    rewrite Ehs in *. rewrite (proj2 (Z.leb_gt _ _)), (proj2 (Z.eqb_neq (xi_next_so i) 0)) in Hnew by lia.
    eapply Hnew; [done|done|reflexivity|exact Hs|]. fold (continued_size e buf i). fold k.
    unfold am_view, advance_view. rewrite Elk, Hq, Hnx. fold (xi_length i).
    destruct (_ =? _); rewrite Hlk by lia; [rewrite decide_False by done; by rewrite Hfree|by rewrite decide_True].
  - set (k := new_size e buf s) in *. pose proof Hs as (_ & _ & (_ & _ & Hk & _ & _ & Hfit) & _). change (hdr_size e 0) with (head_min_size e) in Hfit.
    rewrite Hnone, Hlv, Hfull, Href in Hnew. cbn [fmap list_fmap orb] in Hnew. rewrite (proj2 (Z.leb_gt _ _)) in Hnew by lia.
    eapply Hnew; [done|done|reflexivity|exact Hs|]. change (Z.min (buf_length (sdu_buf s)) (buf_length buf - head_min_size e)) with k.
    unfold am_view, advance_view. rewrite Hnone, Hlv. cbn [fmap list_fmap]. rewrite Z.add_0_l, Hnx. change (buf_length (sdu_buf s)) with (sdu_length s).
    destruct (Z.eqb_spec k (sdu_length s)) as [Ek|Ek].
    + destruct (lk e' ((tx_next (at_st e) + 1) mod at_mod e)) as [j|] eqn:Ej; [|done]. apply Hoth in Ej; [congruence|lia|done].
    + rewrite Hi1, Hsdu. by rewrite Hnso.
Qed.

(** C7. Every data PDU the transmitter writes can be read by a receiver with the same SN size: it fits the grant, its header
    is accepted with the SN of an SDU that is in the window after the call, and behind the header are [k] bytes of that SDU, at
    least one and none past its end, from the segment offset of the header on; the segmentation info says whether they begin
    and whether they end the SDU. *)
Theorem am_pdus_readable buf timer p e :
  xi_next_so init = 0 -> am_tx_inv e -> sp_required p = false -> buf_length buf < 4294967296 ->
  exists n buf' e' ev, am_pull_pdu buf timer p e = Some (n, buf', p, e', ev) /\ length buf' = length buf /\
    (n = 0 \/ 0 < n <= buf_length buf /\
     exists h i k, rlc_am_read_data_pdu_header (take (Z.to_nat n) buf') (sz e) rlc_am_pdu_header_init = Some (true, h) /\
       h_dc h = dc_data /\ lk e' (h_sn h) = Some i /\ 0 <= h_so h /\ 0 < k /\ h_so h + k <= xi_length i /\
       h_si h = si_of_slice (h_so h) k (xi_length i) /\
       drop (Z.to_nat (get_packed_size h)) (take (Z.to_nat n) buf') = slice (xi_sdu i) (h_so h) k).
Proof.
  intros Hso Hi Hreq Hbuf. unfold am_pull_pdu. rewrite Hreq. destruct (at_max_retx_reached e); [eexists _, _, _, _; split; [reflexivity|]; auto|].
  destruct (pull_data_spec buf e Hso Hi Hbuf) as (n & buf' & e' & ev & -> & Hi' & Ec & _ & Hd). cbn [mbind option_bind].
  eexists _, _, _, _. split; [reflexivity|]. assert (Hn := ai_next _ (ai_base _ Hi)).
  assert (Hfin : forall sn so k i, lk e' sn = Some i -> sends e buf n buf' sn so k (xi_sdu i) -> length buf' = length buf /\
    (n = 0 \/ 0 < n <= buf_length buf /\
     exists h i k, rlc_am_read_data_pdu_header (take (Z.to_nat n) buf') (sz e) rlc_am_pdu_header_init = Some (true, h) /\
       h_dc h = dc_data /\ lk e' (h_sn h) = Some i /\ 0 <= h_so h /\ 0 < k /\ h_so h + k <= xi_length i /\
       h_si h = si_of_slice (h_so h) k (xi_length i) /\
       drop (Z.to_nat (get_packed_size h)) (take (Z.to_nat n) buf') = slice (xi_sdu i) (h_so h) k)).
  { intros sn so k i Hlk Hs. destruct (sends_readable e buf n buf' sn so k (xi_sdu i) Hs) as (Hle & Hlen & h & Hr & Hdc & Hsn & Hso' & Hsi & Hpay).
    split; [done|]. right. split; [done|]. destruct Hs as (_ & _ & (_ & ? & ? & ? & _) & _). exists h, i, k. rewrite Hsn, Hso'.
    unfold xi_length. by repeat (split; [done || lia|]). }
  destruct Hd as [-> -> _ _ _ _ _|_ Ht (S1 & S2 & _)|i _ Eu Elk k Hs Hq Hlk Hnx _|_ Hnone _ _ (s & i & Hl & Hs & Hi1 & Hsdu & _) _].
  - auto.
  - apply retx_turn_sends in Ht as [[-> ->]|(sn & so & k & i & Hlk & Hs)]; [auto|]. eapply Hfin; [by rewrite S2|exact Hs].
  - eapply (Hfin (tx_next (at_st e))); [rewrite Hlk, decide_True by (done || lia); reflexivity|exact Hs].
  - eapply Hfin; [exact Hi1|]. rewrite Hsdu. exact Hs.
Qed.

(** ** Status reports that are received *)
Lemma push_all_requests cap os : forall l,
  0 <= cap -> Z.of_nat (length l) <= cap ->
  push_all_retx cap l os = l ++ (RetxItem false <$> take (Z.to_nat cap - length l) (omap id os)).
Proof.
  induction os as [|o os IH]; intros l Hc Hl; [cbn; by rewrite take_nil, app_nil_r|]. unfold push_all_retx in *. cbn [fold_left].
  destruct o as [r|]; cbn [push_retx]; [|by apply IH]. change (omap id (Some r :: os)) with (r :: omap id os).
  destruct (Z.ltb_spec (Z.of_nat (length l)) cap) as [Hlt|Hge].
  - rewrite IH by (rewrite ?length_app; cbn; lia). rewrite length_app, <- app_assoc. cbn [length app].
    replace (Z.to_nat cap - length l)%nat with (S (Z.to_nat cap - (length l + 1))) by lia. done.
  - rewrite IH by lia. by replace (Z.to_nat cap - length l)%nat with O by lia.
Qed.

Lemma valid_retx_items rs : valid_retx (RetxItem false <$> rs) = rs.
Proof. induction rs as [|r rs IH]; [done|]. unfold valid_retx in *. cbn [fmap list_fmap]. rewrite filter_cons, decide_True by done. cbn. by rewrite IH. Qed.

Lemma omap_id_fmap {A B} (f : A -> option B) (l : list A) : omap id (f <$> l) = omap f l.
Proof.
  induction l as [|x l IH]; [done|]. change (omap id (f <$> x :: l)) with (match f x with Some y => y :: omap id (f <$> l) | None => omap id (f <$> l) end).
  rewrite IH. done.
Qed.

Lemma omap_ext {A B} (f g : A -> option B) (l : list A) : (forall x, f x = g x) -> omap f l = omap g l.
Proof. intros E. induction l as [|x l IH]; [done|]. change (match f x with Some y => y :: omap f l | None => omap f l end = omap g (x :: l)). rewrite E, IH. done. Qed.

Lemma drop_stale_keep w q l fuel :
  retx_repr q l -> (forall r, head (valid_retx l) = Some r -> has_sn w (r_sn r) = true) -> drop_stale_retx fuel w q = Some q.
Proof.
  intros Hr Hh. destruct fuel; cbn [drop_stale_retx]; rewrite (retx_empty_valid _ _ Hr), (retx_front_spec _ _ Hr);
    (destruct (valid_retx l) as [|r t]; [done|]); cbn [head mbind option_bind]; by rewrite (Hh r).
Qed.

Lemma nack_request_frame e e' nack :
  at_cfg e' = at_cfg e -> at_window e' = at_window e -> at_st e' = at_st e -> sn_under e' = sn_under e ->
  nack_request e' nack = nack_request e nack.
Proof. intros E1 E2 E3 E4. unfold nack_request, nack_end, at_mod. by rewrite E1, E2, E3, E4. Qed.

(** The queue of a handled report survives the buffer state update. *)
Lemma status_retx e s e1 ev1 e' :
  status_in (at_mod e) s -> status_done e s e1 ev1 -> reported_frame e1 e' ->
  exists l, retx_repr (at_retx_queue e') l /\
    valid_retx l = take (Z.to_nat (at_window_size e)) (omap (nack_request e') (nacks s ≫= expand_nack e')).
Proof.
  intros (_ & Hns) [Hi1 _ _ (C1 & _) Hr _] (Ed & F1 & F2 & F3 & F4 & F5). destruct (at_geometry e) as (Hg1 & Hg2 & _).
  assert (Ews : at_window_size e1 = at_window_size e) by (unfold at_window_size; by rewrite C1).
  assert (Em1 : at_mod e1 = at_mod e) by (unfold at_mod; by rewrite C1). rewrite Ews, push_all_requests in Hr by (cbn; lia). cbn [length app] in Hr.
  rewrite Nat.sub_0_r, omap_id_fmap in Hr.
  assert (Eq : omap (nack_request e') (nacks s ≫= expand_nack e') = omap (nack_request e1) (nacks s ≫= expand_nack e1)).
  { assert (E1 : forall n, nack_request e' n = nack_request e1 n) by (intros n; by apply nack_request_frame).
    assert (E2 : forall n, expand_nack e' n = expand_nack e1 n) by (intros n; unfold expand_nack, range_item, at_mod; by rewrite F1).
    assert (E3 : nacks s ≫= expand_nack e' = nacks s ≫= expand_nack e1).
    { clear -E2. induction (nacks s) as [|n ns IH]; [done|]. by rewrite !bind_cons, IH, E2. }
    rewrite E3. clear -E1. by apply omap_ext. }
  set (rs := take _ (omap (nack_request e1) _)) in *. exists (RetxItem false <$> rs). rewrite valid_retx_items. split; [|unfold rs; by rewrite Eq].
  assert (Hh : forall r, head (valid_retx (RetxItem false <$> rs)) = Some r -> has_sn (at_window e1) (r_sn r) = true).
  { rewrite valid_retx_items. intros r Hr'. assert (Hin : r ∈ omap (nack_request e1) (nacks s ≫= expand_nack e1)).
    { rewrite <- (take_drop (Z.to_nat (at_window_size e)) (omap _ _)). fold rs. apply elem_of_app. left. destruct rs; [done|].
      injection Hr' as ->. by left. }
    apply list_elem_of_omap in Hin as (n & Hn & Er). assert (Hok : nack_ok (at_mod e1) n).
    { apply list_elem_of_bind in Hn as (n0 & Hn & Hn0). rewrite Forall_forall in Hns. specialize (Hns n0 Hn0). rewrite <- Em1 in Hns.
      unfold expand_nack in Hn. case_match; [|apply list_elem_of_singleton in Hn as ->; done]. apply list_elem_of_fmap in Hn as (j & -> & _).
      apply range_item_ok; [done|]. apply Z.mod_pos_bound. lia. }
    destruct (nack_request_ok e1 n r Hi1 Hok Er) as (Esn & Hrok & i & Hlk & _).
    rewrite (win_has _ _ (ai_window _ (ai_base _ Hi1))) by apply Hrok. apply bool_decide_eq_true. by eexists. }
  rewrite (drop_stale_keep _ _ _ _ Hr Hh) in Ed. by injection Ed as <-.
Qed.

(** C6. A status report is handled exactly. If a check fails, nothing changes except that a protocol failure may be reported.
    Otherwise: precisely the SDUs below the first NACK (or ACK_SN) leave the window, and TX_Next_Ack moves behind them; all
    other SDUs stay as they are; the queue of new SDUs and TX_Next are untouched; what is retransmitted is exactly what the
    NACKs ask for, in order, as long as the queue has room; and the last delivered PDCP SNs are notified. *)
Theorem am_status_exact s p e :
  am_tx_inv e -> status_in (at_mod e) s ->
  exists e' ev, am_handle_status_pdu s p e = Some (e', ev) /\
    if (check_status s e).1 then
      let m := nof_acked e (stop_sn s) in
      tx_next_ack (at_st e') = (tx_next_ack (at_st e) + m) mod at_mod e /\
      (forall k, 0 <= k < at_mod e -> uncounted <$> lk e' k = if decide (ahead e k < m) then None else uncounted <$> lk e k) /\
      live_sdus (at_queue e') = live_sdus (at_queue e) /\ tx_next (at_st e') = tx_next (at_st e) /\
      (exists l, retx_repr (at_retx_queue e') l /\
         valid_retx l = take (Z.to_nat (at_window_size e)) (omap (nack_request e') (nacks s ≫= expand_nack e'))) /\
      (exists ev', ev = deliver_events (last_delivered false (acked_sdus e s) None) (last_delivered true (acked_sdus e s) None) ++ ev')
    else e' = e /\ ev = (check_status s e).2.
Proof.
  intros Hi Hin. destruct (am_handle_status_spec s p e Hi Hin) as (e' & ev & E & _ & _ & Hcase). exists e', ev. split; [done|].
  destruct Hcase as [[-> ->]|(e1 & ev1 & ev2 & Hc & Hd & Hf & ->)]; [done|].
  rewrite Hc. cbv zeta. pose proof (status_retx e s e1 ev1 e' Hin Hd Hf) as Hr.
  destruct Hd as [_ (w & Hrm & Hs) Hna (C1 & C2 & C3 & C4) _ (ev' & ->)], Hf as (_ & F1 & F2 & F3 & F4 & F5).
  split; [by rewrite F3|]. split.
  { intros k Hk. rewrite F2, (Hs k (proj1 Hk)), Hrm by lia. destruct (decide (ahead e k < _)) as [Hlt|Hge].
    - by rewrite decide_True by (split; [lia|done]).
    - by rewrite decide_False by tauto. }
  split; [by rewrite F5, C2|]. split; [by rewrite F3|]. split; [done|]. exists (ev' ++ ev2). by rewrite app_assoc.
Qed.

(** C14. Whatever its peer and the layers around it do, a new AM transmitter keeps going: every input is handled, no assertion
    fails, no loop runs past its bound, and the state satisfies the invariant afterwards. The status reports may be any that
    fit the format; SDUs have between 1 and 65536 bytes. *)
Theorem am_tx_robust cfg queue_size w p l e0 :
  xi_next_so init = 0 -> am_tx_new cfg queue_size w = Some e0 -> (ac_is_srb cfg = true -> ac_pdcp_sn_len cfg = pdcp_size12bits) ->
  0 < queue_size < 4294967294 -> 0 <= ac_queue_size_bytes cfg < 4294967296 ->
  win_inv w -> win_cap w = window_size (am_sn_to_number (ac_sn_size cfg)) -> (forall k, 0 <= k -> win_lookup w k = None) ->
  sp_inv (ac_sn_size cfg) p -> Forall (am_tx_input_ok (at_mod e0)) l ->
  exists e p' pdus ev, am_tx_run l p e0 = Some (e, p', pdus, ev) /\ am_tx_inv e /\ at_cfg e = cfg.
Proof.
  intros Hso Hnew Hsrb Hq Hby Hw Hcap Hemp Hp Hok. destruct (am_tx_new_inv cfg queue_size w e0) as [Hi Ec]; try done.
  destruct (am_tx_run_inv l p e0 Hso Hi) as (e & p' & pdus & ev & E & Hi' & _ & Ec'); [by rewrite Ec|done|].
  exists e, p', pdus, ev. split; [done|]. split; [done|congruence].
Qed.

(** ** When TX_Next_Ack has passed TX_Next *)

(** TX_Next_Ack has passed TX_Next, the SDU at TX_Next is gone, and nothing is asked for again. *)
Definition am_tx_stalled e : Prop :=
  tx_overtaken e /\ (lk e (tx_next (at_st e)) = None /\ retx_empty (at_retx_queue e) = true) /\ 0 < ac_max_window (at_cfg e) < at_mod e - 1.

Lemma overtaken_not_normal e : am_tx_inv e -> tx_overtaken e -> ~ tx_normal e.
Proof.
  intros Hi Hov [Hle _]. assert (Hn := ai_next _ (ai_base _ Hi)). assert (Hna := ai_next_ack _ (ai_base _ Hi)). destruct (at_geometry e) as (Hg1 & Hg2 & _).
  unfold tx_overtaken in Hov. rewrite succ_cases in Hov by done. rewrite Hov in Hle, Hna. clear Hov. repeat case_decide; rel_lia.
Qed.

Lemma overtaken_ahead e : am_tx_inv e -> tx_overtaken e -> ahead e (tx_next (at_st e)) = at_mod e - 1.
Proof.
  intros Hi Hov. assert (Hn := ai_next _ (ai_base _ Hi)). assert (Hna := ai_next_ack _ (ai_base _ Hi)). destruct (at_geometry e) as (Hg1 & Hg2 & _).
  unfold tx_overtaken in Hov. rewrite succ_cases in Hov by done. rewrite Hov in Hna |- *. clear Hov. repeat case_decide; rel_lia.
Qed.

Lemma stalled_same e e' :
  am_tx_stalled e -> at_cfg e' = at_cfg e -> tx_next (at_st e') = tx_next (at_st e) -> tx_next_ack (at_st e') = tx_next_ack (at_st e) ->
  lk e' (tx_next (at_st e)) = lk e (tx_next (at_st e)) -> at_retx_queue e' = at_retx_queue e -> am_tx_stalled e'.
Proof.
  intros (Hov & [Hnone Hre] & Hmax) Ec En Ea Hl Hq. unfold am_tx_stalled, tx_overtaken, at_mod in *. by rewrite Ec, En, Ea, Hl, Hq.
Qed.

Lemma drop_stale_empty fuel w q : retx_empty q = true -> drop_stale_retx fuel w q = Some q.
Proof. intros E. destruct fuel; cbn [drop_stale_retx]; by rewrite E. Qed.

Lemma status_octets_control s : status_ok s -> is_control_pdu (status_octets s) = Some true.
Proof.
  intros (_ & _ & Hack & _). rewrite sn_mod_bound in Hack. unfold is_control_pdu, status_octets.
  destruct (sn_size s); cbn [app]; run_cursor; apply (f_equal Some), Z.eqb_eq; change (dc_to_number dc_control) with 0; bit_arith; lia.
Qed.

Lemma stalled_pull buf timer p e :
  xi_next_so init = 0 -> am_tx_inv e -> sp_inv (sz e) p -> am_tx_stalled e -> buf_length buf < 4294967296 ->
  exists n buf' p' e' ev, am_pull_pdu buf timer p e = Some (n, buf', p', e', ev) /\ am_tx_stalled e' /\ tx_next (at_st e') = tx_next (at_st e) /\
    (n <> 0 -> is_control_pdu (take (Z.to_nat n) buf') = Some true).
Proof.
  intros Hso Hi Hp Hst Hbuf. pose proof Hst as (Hov & [Hnone Hre] & Hmax). unfold am_pull_pdu. destruct (at_max_retx_reached e); [by eexists _, _, _, _, _|].
  destruct (sp_required p).
  - destruct (build_status_spec buf timer p e Hp Hbuf) as (n & buf' & p' & ev & -> & _ & Hcase). eexists _, _, _, _, _. split; [reflexivity|].
    split; [done|]. split; [done|]. intros Hn. destruct Hcase as [[-> _]|(s & (_ & Hs & _) & -> & _ & -> & _)]; [done|].
    unfold rd_length. rewrite Nat2Z.id, take_app_length. by apply status_octets_control.
  - destruct (pull_data_spec buf e Hso Hi Hbuf) as (n & buf' & e' & ev & -> & Hi' & Ec & Ea & Hd). cbn [mbind option_bind].
    eexists _, _, _, _, _. split; [reflexivity|]. assert (Hn := ai_next _ (ai_base _ Hi)). destruct (at_geometry e) as (Hg1 & Hg2 & _).
    destruct Hd as [-> -> _ Hnx Hl _ (_ & Hq & _)|Hre' _ _|i _ _ Elk|_ _ Hfull _ _ _].
    + split; [by eapply stalled_same|]. by split.
    + congruence.
    + congruence.
    + exfalso. unfold is_tx_window_full in Hfull. rewrite tx_mod_base_rel, (overtaken_ahead e Hi Hov) in Hfull.
      rewrite (proj2 (Z.eqb_neq _ 0)), (proj2 (Z.ltb_lt _ _)), orb_true_r in Hfull by lia. done.
Qed.

Lemma stalled_expiry p e e' ev :
  am_tx_inv e -> am_tx_stalled e -> on_expired_poll_retransmit_timer p e = Some (e', ev) -> e' = e.
Proof.
  intros Hi (Hov & _) E. assert (Hb := ai_base _ Hi). unfold on_expired_poll_retransmit_timer in E. unfold tx_overtaken in Hov.
  rewrite (win_has _ _ (ai_window _ Hb) (proj1 (ai_next_ack _ Hb))), Hov, (next_free e Hi), bool_decide_false in E by (by intros []).
  cbn [negb] in E. repeat case_match; congruence.
Qed.

Lemma stalled_step i p e :
  xi_next_so init = 0 -> am_tx_inv e -> sp_inv (sz e) p -> am_tx_stalled e -> am_tx_input_ok (at_mod e) i ->
  exists e' p' pdus ev, am_tx_step i p e = Some (e', p', pdus, ev) /\ am_tx_stalled e' /\ tx_next (at_st e') = tx_next (at_st e) /\
    Forall (fun pdu => is_control_pdu pdu = Some true) pdus.
Proof.
  intros Hso Hi Hp Hst Hok. destruct (am_tx_step_inv i p e Hso Hi Hp Hok) as (e' & p' & pdus & ev & E & _ & _ & Ec).
  assert (Hsame : forall e1, at_cfg e1 = at_cfg e -> at_window e1 = at_window e -> at_st e1 = at_st e -> at_retx_queue e1 = at_retx_queue e -> e1 = e' -> pdus = [] ->
    am_tx_stalled e' /\ tx_next (at_st e') = tx_next (at_st e) /\ Forall (fun pdu => is_control_pdu pdu = Some true) pdus).
  { intros e1 E1 E2 E3 E4 <- ->. split; [|split; [by rewrite E3|apply Forall_nil_2]]. eapply stalled_same; [done|done|by rewrite ?E3, ?E2..|done]. }
  exists e', p', pdus, ev. split; [done|]. destruct i as [buf is_retx toa deferred|start block deferred|buf timer|s| | |deferred| | |]; cbn [am_tx_step am_tx_input_ok] in *.
  - destruct (am_handle_sdu_spec buf is_retx toa deferred e Hi) as (e1 & ev1 & s & b & E1 & _ & _ & _ & _ & F1 & F2 & F3 & F4); [tauto..|].
    rewrite E1 in E. cbn [mbind option_bind] in E. injection E as <- <- <- <-. by apply (Hsame e1).
  - destruct (am_discard_spec start block deferred e Hi) as (e1 & ev1 & E1 & _ & F1 & F2 & F3 & F4 & _); [tauto..|].
    rewrite E1 in E. cbn [mbind option_bind] in E. injection E as <- <- <- <-. by apply (Hsame e1).
  - destruct (stalled_pull buf timer p e Hso Hi Hp Hst Hok) as (n & buf' & p1 & e1 & ev1 & E1 & Hst1 & Hn1 & Hctl).
    rewrite E1 in E. cbn [mbind option_bind] in E. injection E as <- <- <- <-. split; [done|]. split; [done|].
    destruct (Z.eqb_spec n 0) as [|Hne]; [apply Forall_nil_2|]. apply Forall_cons_2; [by apply Hctl|apply Forall_nil_2].
  - destruct (am_handle_status_spec s p e Hi Hok) as (e1 & ev1 & E1 & _ & _ & Hcase). rewrite E1 in E. cbn [mbind option_bind] in E. injection E as <- <- <- <-.
    destruct Hcase as [[_ ->]|(e2 & ev2 & ev3 & Hc & _)]; [by apply (Hsame e)|]. exfalso. destruct (check_status s e) as [b ev0] eqn:Ec0. cbn in Hc. subst b.
    destruct (check_status_spec e s ev0 Hi Hok Ec0) as [Hck _]. apply (overtaken_not_normal e Hi); [apply Hst|apply Hck].
  - destruct (at_poll_timer e); [|injection E as <- <- <- <-; by apply (Hsame e)].
    destruct (on_expired_poll_retransmit_timer p (at_set_timer false e)) as [[e1 ev1]|] eqn:E1; [|done]. cbn [mbind option_bind] in E.
    injection E as <- <- <- <-. apply stalled_expiry in E1 as ->; [by apply (Hsame (at_set_timer false e))|by eapply (same_core_inv e); [repeat split|]|done].
  - destruct (update_spec false p e Hi) as (e1 & ev1 & E1 & _ & (F0 & F1 & F2 & F3 & _)). rewrite E1 in E. cbn [mbind option_bind] in E.
    injection E as <- <- <- <-. rewrite drop_stale_empty in F0 by apply Hst. injection F0 as F0. by apply (Hsame e1).
  - injection E as <- <- <- <-. apply (Hsame (am_handle_changed_buffer_state deferred e)); try done;
      unfold am_handle_changed_buffer_state; by case_match.
  - injection E as <- <- <- <-. by apply (Hsame (am_stop e)).
  - injection E as <- <- <- <-. by apply (Hsame (am_stop_lower e)).
  - injection E as <- <- <- <-. by apply (Hsame (recycler_clear e)).
Qed.

Lemma stalled_run l : forall p e,
  xi_next_so init = 0 -> am_tx_inv e -> sp_inv (sz e) p -> am_tx_stalled e -> Forall (am_tx_input_ok (at_mod e)) l ->
  exists e' p' pdus ev, am_tx_run l p e = Some (e', p', pdus, ev) /\ am_tx_stalled e' /\ tx_next (at_st e') = tx_next (at_st e) /\
    Forall (fun pdu => is_control_pdu pdu = Some true) pdus.
Proof.
  induction l as [|i l IH]; intros p e Hso Hi Hp Hst Hok; [by exists e, p, [], []|].
  apply Forall_cons in Hok as [Hok1 Hok]. destruct (stalled_step i p e Hso Hi Hp Hst Hok1) as (e1 & p1 & pd1 & ev1 & E1 & Hst1 & Hn1 & Hc1).
  destruct (am_tx_step_inv i p e Hso Hi Hp Hok1) as (e1' & p1' & pd1' & ev1' & E1' & Hi1 & Hp1 & Ec1). rewrite E1 in E1'. injection E1' as <- <- <- <-.
  destruct (IH p1 e1 Hso Hi1) as (e2 & p2 & pd2 & ev2 & E2 & Hst2 & Hn2 & Hc2); [by rewrite Ec1|done|unfold at_mod in *; by rewrite Ec1|].
  exists e2, p2, (pd1 ++ pd2), (ev1 ++ ev2). cbn [am_tx_run]. rewrite E1. cbn [mbind option_bind]. rewrite E2. cbn [mbind option_bind].
  split; [done|]. split; [done|]. split; [congruence|]. by apply Forall_app.
Qed.

(** The checks accept ACK_SN = TX_Next + 1 while the SDU at TX_Next is only partly sent. *)
Lemma overtaking_check s e i :
  am_tx_inv e -> ~ tx_overtaken e -> lk e (tx_next (at_st e)) = Some i -> ack_sn s = (tx_next (at_st e) + 1) mod at_mod e -> nacks s = [] ->
  check_status s e = (true, []) /\ nof_acked e (stop_sn s) = ahead e (tx_next (at_st e)) + 1.
Proof.
  intros Hi Hnov Hlk Hack Hns. assert (Hb := ai_base _ Hi). assert (Hn := ai_next _ Hb). assert (Hna := ai_next_ack _ Hb).
  destruct (at_geometry e) as (Hg1 & Hg2 & _). destruct (ai_phase _ Hb) as [[Hle Hall]|]; [|done]. destruct (ai_current _ Hi i Hlk) as (_ & _ & Hf).
  assert (Hlt : ahead e (tx_next (at_st e)) < at_window_size e).
  { destruct (decide (ahead e (tx_next (at_st e)) = at_window_size e)) as [E|]; [exfalso|lia].
    destruct (Hall (tx_next_ack (at_st e)) Hna) as [j Hj]; [rewrite rel_self; lia|]. apply Hf in Hj; [|lia].
    clear Hall. unfold behind in Hj. rel_lia. }
  assert (Ea : ahead e (ack_sn s) = ahead e (tx_next (at_st e)) + 1).
  { clear Hall. rewrite Hack, succ_cases by done. repeat case_decide; rel_lia. }
  split.
  - unfold check_status, tx_valid_ack_sn. rewrite !tx_mod_base_rel. pose proof (rel_range (at_mod e) (tx_next_ack (at_st e)) (tx_next (at_st e)) ltac:(lia)).
    rewrite u32_small, Ea, (proj2 (Z.ltb_lt _ _)), (proj2 (Z.leb_le _ _)) by lia. cbn [andb negb].
    rewrite <- (rel_mod (at_mod e) _ (tx_next (at_st e) + 1)), <- Hack, Ea, Z.ltb_irrefl by lia. by rewrite Hns.
  - unfold stop_sn, nof_acked. rewrite Hns, Ea, Hlk. by destruct (Z.leb_spec (ahead e (tx_next (at_st e)) + 1) (ahead e (tx_next (at_st e)))); [lia|].
Qed.

Lemma overtaking_report s p e i :
  am_tx_inv e -> ~ tx_overtaken e -> lk e (tx_next (at_st e)) = Some i -> 0 < ac_max_window (at_cfg e) < at_mod e - 1 ->
  ack_sn s = (tx_next (at_st e) + 1) mod at_mod e -> nacks s = [] ->
  exists e1 ev1, am_handle_status_pdu s p e = Some (e1, ev1) /\ am_tx_inv e1 /\ at_cfg e1 = at_cfg e /\
    tx_next (at_st e1) = tx_next (at_st e) /\ am_tx_stalled e1.
Proof.
  intros Hi Hnov Hlk Hlim Hack Hns. assert (Hn := ai_next _ (ai_base _ Hi)). assert (Hna := ai_next_ack _ (ai_base _ Hi)). destruct (at_geometry e) as (Hg1 & Hg2 & _).
  assert (Hin : status_in (at_mod e) s) by (split; [rewrite Hack; apply Z.mod_pos_bound; lia|rewrite Hns; apply Forall_nil_2]).
  destruct (overtaking_check s e i Hi Hnov Hlk Hack Hns) as [Hc Hm].
  destruct (am_handle_status_spec s p e Hi Hin) as (e1 & ev1 & E & Hi1 & Ec & Hcase). exists e1, ev1. do 3 (split; [done|]).
  destruct Hcase as [[Hc' _]|(e2 & ev2 & ev3 & _ & Hd & Hf & _)]; [congruence|].
  destruct (status_retx e s e2 ev2 e1 Hin Hd Hf) as (l & Hl & Hv). rewrite Hns in Hv.
  assert (Hv0 : valid_retx l = []) by (rewrite Hv; by destruct (Z.to_nat _)).
  destruct Hd as [_ (w & Hrm & Hs) Hna1 (_ & _ & _ & Hn1) _ _], Hf as (_ & F1 & F2 & F3 & _). rewrite Hm in *.
  split; [congruence|]. unfold am_tx_stalled, tx_overtaken. rewrite F3, Hn1, (retx_empty_valid _ _ Hl), Hv0. unfold at_mod. rewrite Ec. fold (at_mod e).
  split; [|split; [split; [|done]|done]].
  - rewrite Hna1. unfold rel. rewrite Z.add_assoc, <- Z.add_mod_idemp_l by lia. rewrite Z.add_mod_idemp_r, Z.add_mod_idemp_l by lia. f_equal. lia.
  - destruct (lk e1 (tx_next (at_st e))) as [j|] eqn:Ej; [|done]. rewrite F2 in Ej.
    destruct (same_sdus_some _ _ _ j Hs (proj1 Hn) Ej) as (j' & Hj & _). rewrite (Hrm _ (proj1 Hn)), decide_True in Hj by lia. done.
Qed.

(** C38. An acknowledgement of the SDU under segmentation stalls the bearer for good, when a window limit is configured: with the
    SDU at TX_Next partly sent and TX_Next_Ack not past TX_Next, a status report with ACK_SN = TX_Next + 1 and no NACK passes the
    checks, the SDU is removed although its rest was never sent, and TX_Next_Ack passes TX_Next. From there on no input makes
    the transmitter write a data PDU again or changes TX_Next: the window counts as full, and every status report is rejected. *)
Theorem am_overtaken_stalls s l p e i :
  xi_next_so init = 0 -> am_tx_inv e -> sp_inv (sz e) p -> 0 < ac_max_window (at_cfg e) < at_mod e - 1 ->
  ~ tx_overtaken e -> lk e (tx_next (at_st e)) = Some i ->
  ack_sn s = (tx_next (at_st e) + 1) mod at_mod e -> nacks s = [] -> Forall (am_tx_input_ok (at_mod e)) l ->
  0 < xi_next_so i < xi_length i /\
  exists e1 ev1 e' p' pdus ev,
    am_handle_status_pdu s p e = Some (e1, ev1) /\ lk e1 (tx_next (at_st e)) = None /\ tx_overtaken e1 /\
    am_tx_run l p e1 = Some (e', p', pdus, ev) /\ tx_next (at_st e') = tx_next (at_st e) /\
    Forall (fun pdu => is_control_pdu pdu = Some true) pdus.
Proof.
  intros Hso Hi Hp Hlim Hnov Hlk Hack Hns Hok. destruct (ai_current _ Hi i Hlk) as (_ & Hr & _). split; [done|].
  destruct (overtaking_report s p e i Hi Hnov Hlk Hlim Hack Hns) as (e1 & ev1 & E1 & Hi1 & Ec & Hn1 & Hst).
  destruct (stalled_run l p e1 Hso Hi1) as (e' & p' & pdus & ev & E & _ & Hn' & Hc); [by rewrite Ec|done|unfold at_mod in *; by rewrite Ec|].
  exists e1, ev1, e', p', pdus, ev. pose proof Hst as (Hov & [Hnone _] & _). rewrite Hn1 in Hnone.
  do 4 (split; [done|]). split; [congruence|done].
Qed.

(** ** What does not count, and what is not clipped *)
Lemma poll_counts_nothing sn e :
  0 <= byte_without_poll (at_st e) < 4294967296 ->
  let e' := (get_polling_bit sn false 0 e).2 in
  (byte_without_poll (at_st e') = byte_without_poll (at_st e) \/ byte_without_poll (at_st e') = 0) /\ tx_next (at_st e') = tx_next (at_st e).
Proof.
  intros Hb. unfold get_polling_bit. rewrite Z.add_0_r, (u32_small (byte_without_poll _)) by done. destruct (_ || _ || _); cbn [snd]; [|auto].
  destruct (_ && _); auto.
Qed.

Lemma build_full_counts buf i e n buf' e' ev :
  0 <= byte_without_poll (at_st e) < 4294967296 -> build_full_sdu buf 0 i e = Some (n, buf', e', ev) ->
  byte_without_poll (at_st e') = byte_without_poll (at_st e) \/ byte_without_poll (at_st e') = 0.
Proof.
  intros Hb E. unfold build_full_sdu in E. pose proof (poll_counts_nothing (tx_next (at_st e)) e Hb) as Hp.
  destruct (get_polling_bit _ false 0 e) as [poll e1]. cbn [snd] in Hp. destruct Hp as [Hp _].
  destruct (rlc_am_write_data_pdu_header _ _) as [[hl b1]|]; [|done]. cbn [mbind option_bind] in E.
  destruct (hl =? 0); [injection E as <- <- <- <-; exact Hp|]. destruct (copy_segments _ _ _) as [pl b2].
  destruct (pl =? 0); injection E as <- <- <- <-; exact Hp.
Qed.

(** BYTE_WITHOUT_POLL does not count SDUs that are sent whole: when the poll bit of such a PDU is computed, the payload
    size is read from a buffer that has already been moved into the window. A pull that sends a whole SDU leaves the counter
    where it was or resets it, so pollByte never triggers a poll for a bearer whose grants fit its SDUs. *)
Theorem am_poll_byte_ignores_full_sdus buf e n buf' e' ev :
  xi_next_so init = 0 -> am_tx_inv e -> sn_under e = INVALID_RLC_SN -> 0 <= byte_without_poll (at_st e) < 4294967296 ->
  buf_length buf < 4294967296 -> build_new_pdu buf e = Some (n, buf', e', ev) -> tx_next (at_st e') <> tx_next (at_st e) ->
  byte_without_poll (at_st e') = byte_without_poll (at_st e) \/ byte_without_poll (at_st e') = 0.
Proof.
  intros Hso Hi Hu Hb Hbuf E Hne. unfold build_new_pdu in E. destruct (_ <=? _); [by injection E as <- <- <- <-|].
  destruct (is_tx_window_full e) eqn:Hfull; [by injection E as <- <- <- <-|].
  assert (Hnf : win_full (at_window e) = false) by (unfold is_tx_window_full in Hfull; by apply orb_false_iff in Hfull as [? _]).
  destruct (add_opened e Hi Hu) as (ok & w1 & Eadd & Hop). rewrite Eadd in E. cbn [mbind option_bind] in E.
  destruct ok; cbn [negb] in E; [|by injection E as <- <- <- <-]. cbn [at_queue at_set_window] in E.
  destruct (tx_queue_read _ rlc_sdu_init (at_queue e) (ai_queue _ (ai_base _ Hi))) as (ok & s & q & Er & Hq & _ & Hwf & _).
  rewrite Er in E. cbn [mbind option_bind] in E. destruct ok; cbn [negb] in E.
  2: { destruct (remove_sn _ _); [|done]. cbn [mbind option_bind] in E. by injection E as <- <- <- <-. }
  specialize (Hwf eq_refl) as [Hwf _]. destruct (open_sdu e s q w1 Hi Hu Hnf Hop Hso Hq Hwf) as (w2 & Eg & Ep & Ho & _).
  cbn [at_window at_set_queue at_set_window at_st] in E. rewrite Eg in E. cbn [mbind option_bind] in E. rewrite Ep in E. cbn [mbind option_bind] in E.
  set (e2 := at_set_window w2 _) in *. set (i := TxInfo _ _ _ _ _ _) in *. set (ev0 := match sdu_pdcp_sn s with Some _ => _ | None => _ end) in E. clearbody ev0.
  destruct (Z.ltb_spec (buf_length buf) (xi_length i + head_min_size e2)) as [Hseg|Hfit].
  - exfalso. destruct (Z.leb_spec (buf_length buf) (head_min_size e)) as [Hle|Hgt].
    + unfold build_first_sdu_segment in E. rewrite (proj2 (Z.leb_gt _ _)), (proj2 (Z.leb_le _ (head_min_size e2))) in E by done.
      cbn [mbind option_bind] in E. injection E as <- <- <- <-. by apply Hne.
    + destruct (build_first_spec buf i e2 Ho) as (n1 & b1 & e3 & ev1 & E1 & _ & _ & _ & Hn1 & _); [done|].
      rewrite E1 in E. cbn [mbind option_bind] in E. injection E as <- <- <- <-. by apply Hne.
  - destruct (build_full_sdu buf 0 i e2) as [[[[n1 b1] e3] ev1]|] eqn:E1; [|done]. cbn [mbind option_bind] in E. injection E as <- <- <- <-.
    exact (build_full_counts buf i e2 _ _ _ _ Hb E1).
Qed.

(** A NACK without segment offsets for the SDU under segmentation asks for the whole SDU, including the bytes that have
    not been sent yet; only a NACK whose end offset is the end mark is clipped to what was sent. *)
Theorem am_nack_of_partly_sent_sdu e i nack :
  am_tx_inv e -> sn_under e = tx_next (at_st e) -> lk e (tx_next (at_st e)) = Some i -> xi_length i < 65536 ->
  nack_sn nack = tx_next (at_st e) -> has_so nack = false ->
  nack_request e nack = Some (Retx (tx_next (at_st e)) 0 (xi_length i)) /\ 0 < xi_next_so i < xi_length i.
Proof.
  intros Hi Hu Hlk Hlen Hsn Hso. destruct (ai_current _ Hi i Hlk) as (_ & Hr & _). split; [|done].
  unfold nack_request. rewrite Hsn, Hu, Z.eqb_refl, andb_false_r, Hlk, Hso. cbn [mbind option_bind].
  rewrite u16_small by lia. unfold nack_end, so_end_of_sdu. rewrite (proj2 (Z.eqb_neq _ _)) by lia. cbn [mbind option_bind].
  unfold nack_sanity. rewrite (proj2 (Z.ltb_ge _ 0)), (proj2 (Z.leb_gt _ 0)), (proj2 (Z.leb_gt _ (_ - 1))) by lia. repeat f_equal. lia.
Qed.
End correct.

(** ** Witnesses

    A 12 bit bearer with a window limit of 16 and the window implementation, and a receiving side whose report is fixed. *)
Notation win := (segmented_sdu_window rlc_tx_am_sdu_info).
#[local] Instance tx_window : SduWindow rlc_tx_am_sdu_info win := segmented_window rlc_tx_am_sdu_info_init.
#[local] Instance tx_window_laws : SduWindowLaws rlc_tx_am_sdu_info win rlc_tx_am_sdu_info_init := segmented_window_laws rlc_tx_am_sdu_info_init.
#[local] Instance tx_window_count_laws : SduWindowCountLaws rlc_tx_am_sdu_info win := segmented_count_laws rlc_tx_am_sdu_info_init.

(** Whether a report is required, and the report. *)
#[local] Instance fixed_provider : StatusProvider (bool * rlc_am_status_pdu) := {
  sp_get _ p := (p.2, p);
  sp_write s p := (p.1, s);
  sp_length p := packed_size p.2;
  sp_required p := p.1
}.
#[local] Instance fixed_provider_laws : StatusProviderLaws (bool * rlc_am_status_pdu) := {
  sp_inv sz p := report_sendable sz p.2;
  sp_get_ok sz _ p Hp := conj Hp (fun s Hs => Hs)
}.

Definition am_tx_cfg : rlc_tx_am_config := AmTxCfg size12bits pdcp_size12bits 45 4 4 1000 65536 16 false.
Definition am_tx_empty : win := window_new 2048 64 40.
Definition am_tx_12bit : rlc_tx_am_entity win :=
  match am_tx_new am_tx_cfg 64 am_tx_empty with
  | Some e => e
  | None => AmTx am_tx_cfg (AmTxSt 0 0 0 0 0) (sdu_queue_new 64 65536) INVALID_RLC_SN (retx_queue_new 2048) INVALID_RLC_SN am_tx_empty []
              false rlc_buffer_state_init true false false false false
  end.
Definition no_report : bool * rlc_am_status_pdu := (false, set_ack_sn 0 (status_pdu_new size12bits)).

Lemma no_report_idle : sp_required no_report = false. Proof. reflexivity. Qed.
Lemma init_next_so : xi_next_so rlc_tx_am_sdu_info_init = 0. Proof. reflexivity. Qed.

Lemma am_tx_12bit_new : am_tx_new am_tx_cfg 64 am_tx_empty = Some am_tx_12bit.
Proof. reflexivity. Qed.

Lemma am_tx_empty_ok : win_inv am_tx_empty /\ win_cap am_tx_empty = window_size 12 /\ forall k, win_lookup am_tx_empty k = None.
Proof. destruct (map_new_inv (V:=rlc_tx_am_sdu_info) 11 6) as (? & _ & ?); [lia|lia|]. by split. Qed.

Lemma no_report_ok : sp_inv size12bits no_report.
Proof.
  split; [done|]. split; [|split; [reflexivity|vm_compute; reflexivity]]. split; [vm_compute; reflexivity|]. split; [done|].
  split; [vm_compute; split; congruence|apply Forall_nil_2].
Qed.

(** Two SDUs; the first is sent whole, of the second only a part. *)
Definition am_tx_sdu (n : Z) : list Z := [128; n; 1; 2; 3].
Definition am_tx_status (ack : Z) (l : list rlc_am_status_nack) : rlc_am_status_pdu := set_ack_sn ack (set_nacks l 3 (status_pdu_new size12bits)).
Definition am_tx_inputs : list am_tx_input :=
  [AmTxSdu (am_tx_sdu 5) false 10 true; AmTxSdu (am_tx_sdu 6) false 20 true; AmTxPull (replicate 9 0) true; AmTxPull (replicate 4 0) true].

Lemma am_tx_inputs_ok : Forall (am_tx_input_ok (at_mod am_tx_12bit)) am_tx_inputs.
Proof. repeat constructor; vm_compute; congruence. Qed.

Lemma am_tx_robust_witness :
  exists e p pdus ev, am_tx_run (am_tx_inputs ++ [AmTxStatus (am_tx_status 1 []); AmTxPollExpiry; AmTxUpdate]) no_report am_tx_12bit
      = Some (e, p, pdus, ev) /\ am_tx_inv e /\ at_cfg e = am_tx_cfg.
Proof.
  apply (am_tx_robust am_tx_cfg 64 am_tx_empty no_report _ am_tx_12bit);
    [reflexivity|apply am_tx_12bit_new|done|lia|vm_compute; split; congruence|apply am_tx_empty_ok|apply am_tx_empty_ok|intros; apply am_tx_empty_ok|apply no_report_ok|].
  apply Forall_app. split; [apply am_tx_inputs_ok|]. repeat constructor; vm_compute; congruence.
Defined.

Definition am_tx_after (l : list am_tx_input) : rlc_tx_am_entity win :=
  match am_tx_run l no_report am_tx_12bit with Some (e, _, _, _) => e | None => am_tx_12bit end.

Lemma am_tx_after_ok l : Forall (am_tx_input_ok (at_mod am_tx_12bit)) l -> am_tx_inv (am_tx_after l) /\ at_cfg (am_tx_after l) = am_tx_cfg.
Proof.
  intros Hl. destruct (am_tx_new_inv am_tx_cfg 64 am_tx_empty am_tx_12bit am_tx_12bit_new) as [Hi Ec];
    [done|lia|vm_compute; split; congruence|apply am_tx_empty_ok|apply am_tx_empty_ok|intros; apply am_tx_empty_ok|].
  destruct (am_tx_run_inv l no_report am_tx_12bit init_next_so Hi no_report_ok Hl) as (e & p' & pdus & ev & E & Hi' & _ & Ec').
  unfold am_tx_after. rewrite E. by split.
Qed.

(** Before and after the first PDU, and when a part of the second SDU was sent. *)
Definition am_tx_queued : rlc_tx_am_entity win := am_tx_after (take 2 am_tx_inputs).
Definition am_tx_partly : rlc_tx_am_entity win := am_tx_after am_tx_inputs.

Lemma am_tx_queued_ok : am_tx_inv am_tx_queued.
Proof. apply am_tx_after_ok, Forall_take, am_tx_inputs_ok. Qed.
Lemma am_tx_partly_ok : am_tx_inv am_tx_partly.
Proof. apply am_tx_after_ok, am_tx_inputs_ok. Qed.

(** The peer misses the first SDU, all of it, and has not heard of the second one. *)
Definition am_tx_nacked : rlc_tx_am_entity win := am_tx_after (am_tx_inputs ++ [AmTxStatus (am_tx_status 1 [Nack 0 false 0 so_end_of_sdu false 0])]).

Lemma am_tx_nacked_ok : am_tx_inv am_tx_nacked.
Proof. apply am_tx_after_ok, Forall_app. split; [apply am_tx_inputs_ok|]. repeat constructor; vm_compute; congruence. Qed.

Lemma retx_none (e : rlc_tx_am_entity win) rs : retx_empty (at_retx_queue e) = true -> retx_of e rs -> rs = [].
Proof. intros He (l & Hl & <-). rewrite (retx_empty_valid _ _ Hl) in He. by destruct (valid_retx l). Qed.

Lemma retx_single (e : rlc_tx_am_entity win) r rs :
  retx_size (at_retx_queue e) = 1 -> retx_front (at_retx_queue e) = Some r -> retx_of e rs -> rs = [r].
Proof.
  intros Hs Hf (l & Hr & <-). rewrite (retx_front_spec _ _ Hr) in Hf. pose proof (retx_size_length _ _ Hr) as Hl. rewrite Hs in Hl.
  destruct l as [|x [|y l]]; [done| |done]. rewrite valid_retx_cons in Hf |- *. destruct (it_invalid x); [done|]. cbn in Hf |- *. congruence.
Qed.

(** With a grant of 9 bytes the first SDU is sent whole; a grant of 5 bytes is used for three bytes of the missing SDU, of which
    two then remain to be retransmitted, and the new data waits. *)
Lemma am_pull_refines_stream_witness :
  (exists n buf' e' ev, am_pull_pdu (replicate 9 0) true no_report am_tx_queued = Some (n, buf', no_report, e', ev) /\
     sends am_tx_queued (replicate 9 0) n buf' 0 0 5 (am_tx_sdu 5) /\ am_view e' = (1, 0, [am_tx_sdu 6])) /\
  (exists n buf' e' ev, am_pull_pdu (replicate 5 0) true no_report am_tx_nacked = Some (n, buf', no_report, e', ev) /\
     sends am_tx_nacked (replicate 5 0) n buf' 0 0 3 (am_tx_sdu 5) /\ retx_of e' [Retx 0 3 2] /\ am_view e' = (1, 2, [am_tx_sdu 6])).
Proof.
  split.
  - destruct (am_pull_refines_stream (replicate 9 0) true no_report am_tx_queued init_next_so am_tx_queued_ok no_report_idle ltac:(vm_compute; reflexivity))
      as (n & buf' & e' & ev & rs & rs' & o & v & hit & E & Hrs & Ht & Hw & _ & Hv & _). exists n, buf', e', ev. split; [exact E|].
    assert (rs = []) as -> by (apply (retx_none am_tx_queued); [vm_compute; reflexivity|exact Hrs]).
    assert (Et : am_turn am_tx_queued (replicate 9 0) [] = (Some (0, 0, 5, am_tx_sdu 5), [], (1, 0, [am_tx_sdu 6]), false)) by (vm_compute; reflexivity).
    rewrite Et in Ht. injection Ht as <- <- <- <-. split; [exact Hw|exact Hv].
  - destruct (am_pull_refines_stream (replicate 5 0) true no_report am_tx_nacked init_next_so am_tx_nacked_ok no_report_idle ltac:(vm_compute; reflexivity))
      as (n & buf' & e' & ev & rs & rs' & o & v & hit & E & Hrs & Ht & Hw & Hrs' & Hv & _). exists n, buf', e', ev. split; [exact E|].
    assert (rs = [Retx 0 0 5]) as -> by (apply (retx_single am_tx_nacked); [vm_compute; reflexivity|vm_compute; reflexivity|exact Hrs]).
    assert (Et : am_turn am_tx_nacked (replicate 5 0) [Retx 0 0 5] = (Some (0, 0, 3, am_tx_sdu 5), [Retx 0 3 2], (1, 2, [am_tx_sdu 6]), false))
      by (vm_compute; reflexivity).
    rewrite Et in Ht. injection Ht as <- <- <- <-. split; [exact Hw|]. split; [exact Hrs'|exact Hv].
Defined.

Lemma am_pdus_readable_witness :
  exists buf' e' ev h i k, am_pull_pdu (replicate 9 0) true no_report am_tx_queued = Some (7, buf', no_report, e', ev) /\
    rlc_am_read_data_pdu_header (take 7 buf') size12bits rlc_am_pdu_header_init = Some (true, h) /\
    drop (Z.to_nat (get_packed_size h)) (take 7 buf') = slice (xi_sdu i) (h_so h) k /\ win_lookup (at_window e') (h_sn h) = Some i /\
    0 < k /\ h_so h + k <= xi_length i /\ h_si h = si_of_slice (h_so h) k (xi_length i).
Proof.
  destruct (am_pdus_readable (replicate 9 0) true no_report am_tx_queued init_next_so am_tx_queued_ok no_report_idle ltac:(vm_compute; reflexivity))
    as (n & buf' & e' & ev & E & _ & Hcase). assert (En : n = 7) by (vm_compute in E; by injection E as <- _ _ _). subst n.
  destruct Hcase as [E0|(_ & h & i & k & Hr & _ & Hlk & _ & Hk & Hle & Hsi & Hp)]; [discriminate E0|]. exists buf', e', ev, h, i, k.
  split; [exact E|]. split; [exact Hr|]. split; [exact Hp|]. split; [exact Hlk|]. split; [exact Hk|]. split; [exact Hle|exact Hsi].
Defined.

Lemma am_status_exact_witness :
  exists e' ev, am_handle_status_pdu (am_tx_status 1 []) no_report am_tx_partly = Some (e', ev) /\
    tx_next_ack (at_st e') = 1 /\ win_lookup (at_window e') 0 = None /\ ev = [OnDeliveredSdu 5; OnBufferStateUpdate (BufferState 7 (Some 20))].
Proof.
  destruct (am_status_exact (am_tx_status 1 []) no_report am_tx_partly am_tx_partly_ok) as (e' & ev & E & _).
  - split; [vm_compute; split; congruence|apply Forall_nil_2].
  - exists e', ev. split; [exact E|]. vm_compute in E. injection E as <- <-. split; [reflexivity|]. split; reflexivity.
Defined.

(** SN 1 is acknowledged, of which only two bytes were sent. *)
Lemma am_overtaken_stalls_witness :
  exists e1 ev1 e' p' pdus ev,
    am_handle_status_pdu (am_tx_status 2 []) no_report am_tx_partly = Some (e1, ev1) /\ win_lookup (at_window e1) 1 = None /\
    am_tx_run [AmTxSdu (am_tx_sdu 7) false 30 true; AmTxStatus (am_tx_status 2 []); AmTxPull (replicate 20 0) true] no_report e1
      = Some (e', p', pdus, ev) /\ tx_next (at_st e') = 1 /\ Forall (fun pdu => is_control_pdu pdu = Some true) pdus.
Proof.
  destruct (win_lookup (at_window am_tx_partly) 1) as [i|] eqn:El; [|exfalso; vm_compute in El; discriminate].
  destruct (am_overtaken_stalls (am_tx_status 2 []) [AmTxSdu (am_tx_sdu 7) false 30 true; AmTxStatus (am_tx_status 2 []); AmTxPull (replicate 20 0) true]
    no_report am_tx_partly i init_next_so am_tx_partly_ok no_report_ok) as (_ & e1 & ev1 & e' & p' & pdus & ev & E1 & Hnone & _ & E & Hn & Hc).
  - vm_compute. split; congruence.
  - vm_compute. discriminate.
  - exact El.
  - vm_compute. reflexivity.
  - reflexivity.
  - repeat constructor; vm_compute; congruence.
  - exists e1, ev1, e', p', pdus, ev. split; [exact E1|]. split; [exact Hnone|]. split; [exact E|]. split; [exact Hn|exact Hc].
Defined.

Lemma am_poll_byte_ignores_full_sdus_witness :
  exists n buf' e' ev, build_new_pdu (replicate 9 0) am_tx_queued = Some (n, buf', e', ev) /\ byte_without_poll (at_st e') = 0 /\
    pdu_without_poll (at_st e') = 1.
Proof.
  destruct (build_new_pdu (replicate 9 0) am_tx_queued) as [[[[n buf'] e'] ev]|] eqn:E; [|exfalso; vm_compute in E; discriminate].
  exists n, buf', e', ev. split; [reflexivity|].
  destruct (am_poll_byte_ignores_full_sdus (replicate 9 0) am_tx_queued n buf' e' ev init_next_so am_tx_queued_ok eq_refl) as [Hb|Hb];
    [vm_compute; split; congruence|reflexivity|exact E|vm_compute in E; injection E as <- <- <- <-; discriminate|..].
  - rewrite Hb. split; [vm_compute; reflexivity|]. vm_compute in E. by injection E as <- <- <- <-.
  - rewrite Hb. split; [reflexivity|]. vm_compute in E. by injection E as <- <- <- <-.
Defined.

Lemma am_nack_of_partly_sent_sdu_witness :
  exists i, win_lookup (at_window am_tx_partly) 1 = Some i /\ xi_next_so i = 2 /\
    nack_request am_tx_partly (Nack 1 false 0 so_end_of_sdu false 0) = Some (Retx 1 0 5).
Proof.
  destruct (win_lookup (at_window am_tx_partly) 1) as [i|] eqn:El; [|exfalso; vm_compute in El; discriminate]. exists i.
  assert (E : xi_length i = 5 /\ xi_next_so i = 2) by (vm_compute in El; injection El as <-; by split).
  split; [reflexivity|]. split; [apply E|].
  destruct (am_nack_of_partly_sent_sdu am_tx_partly i (Nack 1 false 0 so_end_of_sdu false 0) am_tx_partly_ok) as [Hr _];
    [reflexivity|exact El|rewrite (proj1 E); lia|reflexivity|reflexivity|]. rewrite Hr, (proj1 E). reflexivity.
Defined.
