(* ===== verification/RlcAmLink.v ===== *)
(** * An AM transmitter and an AM receiver

    The PDUs a transmitter writes reach a receiver in any order, any number of times or not at all. As long as the
    transmitter is given no more SDUs than half of the sequence numbers, every SN stands for one SDU; the receiver then
    delivers SDUs that were handed to the transmitter, each at most once. *)
From S2P Require Import Prelude ByteCursor RlcConfig ByteBufferChain RlcAmPdu RlcAmStatusPdu RlcAmStatusFacts RlcAmStatusNacks BitCodec PdcpSn.
From S2P Require Import SduQueue SduQueueConc SduQueueSeq SegmentedCircularMap SduWindow SduWindowCount RingBuffer RlcRetxQueue RlcRxBase.
From S2P Require Import RlcSegments RlcRxAm RlcRxAmFacts RlcRxAmStatus RlcRxAmSteps RlcRxAmCorrect.
From S2P Require Import RlcTxBase RlcTxAm RlcTxAmStatus RlcTxAmFacts RlcTxAmPdus RlcTxAmAcks RlcTxAmNacks RlcTxAmCorrect.

(** ** What is on the air *)

(** A data PDU with bytes of an SDU of the history [h], whose position is its SN. *)
Definition carries (sz : rlc_am_sn_size) (h : list (list Z)) (pdu : list Z) : Prop :=
  exists hdr sdu k, rlc_am_read_data_pdu_header pdu sz rlc_am_pdu_header_init = Some (true, hdr) /\ h !! Z.to_nat (h_sn hdr) = Some sdu /\
    h_si hdr = si_of_slice (h_so hdr) k (buf_length sdu) /\ 0 <= h_so hdr /\ 1 <= k /\ h_so hdr + k <= buf_length sdu /\
    drop (Z.to_nat (get_packed_size hdr)) pdu = slice sdu (h_so hdr) k.

Definition on_air (sz : rlc_am_sn_size) (h : list (list Z)) (pdu : list Z) : Prop :=
  is_control_pdu pdu = Some true \/ carries sz h pdu.

Lemma on_air_more sz h h' pdu : on_air sz h pdu -> on_air sz (h ++ h') pdu.
Proof.
  intros [|(hdr & sdu & k & Hr & Hh & Hrest)]; [by left|right]. exists hdr, sdu, k. split; [done|]. split; [|done].
  by apply lookup_app_l_Some.
Qed.

(** The SDUs that were handed to a transmitter. *)
Definition handed (l : list am_tx_input) : list (list Z) :=
  omap (fun i => match i with AmTxSdu buf _ _ _ => Some buf | _ => None end) l.

Section transmitter.
Context {W : Type} `{SduWindowCountLaws rlc_tx_am_sdu_info W}.
Context {P : Type} `{StatusProviderLaws P}.
Implicit Types (e : rlc_tx_am_entity W) (p : P).

Notation lk e k := (win_lookup (at_window e) k).
Notation ahead e := (rel (at_mod e) (tx_next_ack (at_st e))).
Notation sz e := (ac_sn_size (at_cfg e)).

(** The SDUs [h] have been given SNs, in the order in which they were handed over; the last one may still be partly sent. When
    TX_Next_Ack has passed TX_Next the SDU at TX_Next is gone. *)
Record tx_history e (h acc : list (list Z)) : Prop := {
  th_inv : am_tx_inv e;
  th_limit : 0 < ac_max_window (at_cfg e) < at_mod e - 1;
  th_window : forall k i, 0 <= k -> lk e k = Some i -> h !! Z.to_nat k = Some (xi_sdu i);
  th_next : tx_overtaken e /\ lk e (tx_next (at_st e)) = None \/
            Z.of_nat (length h) = tx_next (at_st e) + match lk e (tx_next (at_st e)) with Some _ => 1 | None => 0 end;
  th_order : sublist (h ++ (sdu_buf <$> live_sdus (at_queue e))) acc
}.

(** A step that starts no SDU. *)
Lemma history_keep e e' h acc acc' :
  tx_history e h acc -> am_tx_inv e' -> at_cfg e' = at_cfg e -> tx_next (at_st e') = tx_next (at_st e) ->
  (forall k i, 0 <= k -> lk e' k = Some i -> exists j, lk e k = Some j /\ xi_sdu j = xi_sdu i) ->
  (tx_overtaken e -> tx_overtaken e') ->
  (is_Some (lk e (tx_next (at_st e))) -> is_Some (lk e' (tx_next (at_st e))) \/ tx_overtaken e' /\ lk e' (tx_next (at_st e)) = None) ->
  sublist (h ++ (sdu_buf <$> live_sdus (at_queue e'))) acc' ->
  tx_history e' h acc'.
Proof.
  intros [Hi Hl Hw Hn Ho] Hi' Ec En Hlk Hov Hcur Hsub. split; [done|unfold at_mod in *; by rewrite Ec| | |done].
  - intros k i Hk Hi1. destruct (Hlk k i Hk Hi1) as (j & Hj & <-). by apply Hw.
  - rewrite En. assert (Hn0 := ai_next _ (ai_base _ Hi)). destruct Hn as [[Ho1 Hnone]|Hlen].
    + left. split; [by apply Hov|]. destruct (lk e' _) as [i|] eqn:E; [|done]. destruct (Hlk _ _ (proj1 Hn0) E) as (j & Hj & _). congruence.
    + destruct (lk e (tx_next (at_st e))) as [i|] eqn:E.
      * destruct (Hcur (mk_is_Some _ _ eq_refl)) as [[j ->]|?]; [by right|by left].
      * right. destruct (lk e' _) as [i|] eqn:E'; [|done]. destruct (Hlk _ _ (proj1 Hn0) E') as (j & Hj & _). congruence.
Qed.

Lemma history_same e e' h acc :
  tx_history e h acc -> am_tx_inv e' -> at_cfg e' = at_cfg e -> tx_next (at_st e') = tx_next (at_st e) ->
  tx_next_ack (at_st e') = tx_next_ack (at_st e) -> same_sdus (at_window e) (at_window e') ->
  sublist (live_sdus (at_queue e')) (live_sdus (at_queue e)) -> tx_history e' h acc.
Proof.
  intros Hh Hi' Ec En Ea Hs Hsub. assert (Hn0 := ai_next _ (ai_base _ (th_inv _ _ _ Hh))).
  eapply history_keep; [exact Hh|done|done|done| | | |].
  - intros k i Hk Hi1. destruct (same_sdus_some _ _ k i Hs Hk Hi1) as (j & Hj & E). exists j. split; [done|].
    destruct i, j. unfold uncounted, xi_set_retx_count in E. cbn in *. congruence.
  - unfold tx_overtaken, at_mod. by rewrite Ec, En, Ea.
  - intros Hsome. left. eapply same_sdus_is_some; [done|lia|done].
  - etrans; [|apply (th_order _ _ _ Hh)]. apply sublist_app; [done|]. by apply fmap_sublist.
Qed.

(** Acknowledgements up to TX_Next keep what is partly sent; one SN more, and TX_Next_Ack has passed TX_Next. *)
Lemma history_status s e e1 ev1 h acc :
  tx_history e h acc -> status_in (at_mod e) s -> status_checked e s -> status_done e s e1 ev1 -> tx_history e1 h acc.
Proof.
  intros Hh Hin Hck [Hi1 (w & Hrm & Hs) Hna (C1 & C2 & C3 & C4) _ _].
  assert (Hi := th_inv _ _ _ Hh). assert (Hn := ai_next _ (ai_base _ Hi)). assert (Hna0 := ai_next_ack _ (ai_base _ Hi)).
  destruct (at_geometry e) as (Hg1 & Hg2 & _). destruct (stop_sn_spec e s Hin Hck) as (Hstop & Hle & _).
  destruct (nof_acked_bounds e (stop_sn s) Hi Hstop Hle) as [Hm _]. set (m := nof_acked e (stop_sn s)) in *.
  destruct (sc_normal _ _ Hck) as [Hnorm _].
  eapply history_keep; [exact Hh|done|done|done| | | |].
  - intros k i Hk Hi'. destruct (same_sdus_some _ _ k i Hs Hk Hi') as (j & Hj & E). rewrite (Hrm k Hk) in Hj. case_decide; [done|].
    exists j. split; [done|]. destruct i, j. unfold uncounted, xi_set_retx_count in E. cbn in *. congruence.
  - intros Hov. exfalso. apply (overtaken_not_normal e Hi Hov). apply Hck.
  - intros Hsome. destruct (decide (ahead e (tx_next (at_st e)) < m)) as [Hlt|Hge].
    + right. split.
      * unfold tx_overtaken. rewrite Hna, C4. unfold at_mod. rewrite C1. fold (at_mod e).
        replace m with (ahead e (tx_next (at_st e)) + 1) by lia. unfold rel. rewrite Z.add_assoc, <- Z.add_mod_idemp_l by lia.
        rewrite Z.add_mod_idemp_r by lia. rewrite Z.add_mod_idemp_l by lia. f_equal. lia.
      * destruct (lk e1 (tx_next (at_st e))) as [i|] eqn:E; [|done].
        destruct (same_sdus_some _ _ _ i Hs (proj1 Hn) E) as (j & Hj & _). rewrite (Hrm _ (proj1 Hn)), decide_True in Hj by lia. done.
    + left. eapply same_sdus_is_some; [exact Hs|lia|]. rewrite (Hrm _ (proj1 Hn)), decide_False by lia. done.
  - rewrite C2. apply Hh.
Qed.

Lemma sends_carries e buf n buf' sn so k sdu h :
  sends e buf n buf' sn so k sdu -> h !! Z.to_nat sn = Some sdu -> carries (sz e) h (take (Z.to_nat n) buf').
Proof.
  intros Hs Hh. destruct (sends_readable e buf n buf' sn so k sdu Hs) as (_ & _ & hdr & Hr & _ & Hsn & Hso & Hsi & Hpay).
  destruct Hs as (_ & _ & (_ & ? & ? & ? & _) & _). exists hdr, sdu, k. rewrite Hsn, Hso. by repeat (split; [done|]).
Qed.

(** What is left of the history when TX_Next moves on. *)
Lemma history_next e' h acc :
  am_tx_inv e' -> 0 < ac_max_window (at_cfg e') < at_mod e' - 1 ->
  (forall k i, 0 <= k -> lk e' k = Some i -> h !! Z.to_nat k = Some (xi_sdu i)) ->
  tx_next (at_st e') = Z.of_nat (length h) \/ (is_Some (lk e' (tx_next (at_st e'))) /\ Z.of_nat (length h) = tx_next (at_st e') + 1) ->
  sublist (h ++ (sdu_buf <$> live_sdus (at_queue e'))) acc -> tx_history e' h acc.
Proof.
  intros Hi Hl Hw Hn Ho. split; try done. right. assert (Hn0 := ai_next _ (ai_base _ Hi)).
  destruct Hn as [E|[[i ->] E]]; [|lia]. rewrite E. destruct (lk e' _) as [i|] eqn:El; [|lia]. exfalso.
  apply Hw in El; [|lia]. rewrite Nat2Z.id, lookup_ge_None_2 in El by done. done.
Qed.

Lemma history_pull buf timer p e h acc :
  xi_next_so init = 0 -> tx_history e h acc -> sp_inv (sz e) p -> buf_length buf < 4294967296 -> Z.of_nat (length acc) < at_mod e ->
  exists n buf' p' e' ev h', am_pull_pdu buf timer p e = Some (n, buf', p', e', ev) /\ tx_history e' (h ++ h') acc /\
    sp_inv (sz e) p' /\ at_cfg e' = at_cfg e /\ (n = 0 \/ on_air (sz e) (h ++ h') (take (Z.to_nat n) buf')).
Proof.
  intros Hso Hh Hp Hbuf Hacc. assert (Hi := th_inv _ _ _ Hh). assert (Hn := ai_next _ (ai_base _ Hi)). destruct (at_geometry e) as (Hg1 & Hg2 & _).
  assert (Hsame : forall n buf' p' (ev : list tx_event), sp_inv (sz e) p' -> n = 0 \/ on_air (sz e) h (take (Z.to_nat n) buf') ->
    exists n0 buf0 p0 e' ev0 h', Some (n, buf', p', e, ev) = Some (n0, buf0, p0, e', ev0) /\ tx_history e' (h ++ h') acc /\
      sp_inv (sz e) p0 /\ at_cfg e' = at_cfg e /\ (n0 = 0 \/ on_air (sz e) (h ++ h') (take (Z.to_nat n0) buf0))).
  { intros n buf' p' ev Hp' Ha. exists n, buf', p', e, ev, []. by rewrite app_nil_r. }
  unfold am_pull_pdu. destruct (at_max_retx_reached e); [apply Hsame; [done|by left]|]. destruct (sp_required p).
  { destruct (build_status_spec buf timer p e Hp Hbuf) as (n & buf' & p' & ev & -> & Hp' & Hcase). apply Hsame; [done|].
    destruct Hcase as [[-> _]|(s & (_ & Hs & _) & -> & _ & -> & _)]; [by left|right; left].
    unfold rd_length. rewrite Nat2Z.id, take_app_length. by apply status_octets_control. }
  destruct (pull_data_spec buf e Hso Hi Hbuf) as (n & buf' & e' & ev & -> & Hi' & Ec & Ea & Hd). cbn [mbind option_bind].
  assert (Hmod : at_mod e' = at_mod e) by (unfold at_mod; by rewrite Ec).
  assert (Hov : tx_next (at_st e') = tx_next (at_st e) -> tx_overtaken e -> tx_overtaken e') by (intros En; unfold tx_overtaken; by rewrite Ea, En, Hmod).
  assert (Hlen : (length h <= length acc)%nat).
  { pose proof (sublist_length _ _ (th_order _ _ _ Hh)) as Hl. rewrite length_app in Hl. lia. }
  pose proof (th_limit _ _ _ Hh) as Hlim. pose proof (th_window _ _ _ Hh) as Hwin. pose proof (th_order _ _ _ Hh) as Hord.
  exists n, buf', p, e', ev. rewrite <- Ec in Hlim. rewrite <- Hmod in Hlim.
  destruct Hd as [-> -> Hl Hnx Hlk Hsub _|_ Ht (S1 & S2 & S3 & S4 & S5 & S6)|i _ Eu Elk k Hs Hq Hlk Hnx _|_ Hnone Hfull _ (s & i & Hl & Hs & Hi1 & Hsdu & _ & Hoth & Hnx) _].
  - exists []. rewrite app_nil_r. split; [done|]. split; [|by auto]. eapply history_keep; [exact Hh|done|done|done| |by apply Hov| |by rewrite Hl].
    + intros k i Hk Hi1. exists i. split; [by apply Hsub|done].
    + intros Hsome. left. by rewrite Hlk.
  - exists []. rewrite app_nil_r. split; [done|]. split; [|split; [done|split; [done|]]].
    + eapply history_same; [exact Hh|done|done|done|done|by rewrite S2|by rewrite S3].
    + apply retx_turn_sends in Ht as [[-> _]|(sn & so & k & i & Hlk & Hs)]; [by left|right; right]. eapply sends_carries; [exact Hs|]. apply Hwin; [|done]. destruct Hs as (_ & _ & (? & _) & _). lia.
  - exists []. rewrite app_nil_r. split; [done|]. assert (Hcar := Hwin _ _ (proj1 Hn) Elk).
    split; [|split; [done|split; [done|right; right; eapply sends_carries; [exact Hs|done]]]].
    destruct (th_next _ _ _ Hh) as [[_ E]|E]; [by rewrite E in Elk|]. rewrite Elk in E. apply history_next; [done|done| | |by rewrite Hq].
    + intros q j Hq0 Hj. rewrite Hlk in Hj by done. case_decide as Eq; [|by apply Hwin]. subst q. injection Hj as <-. exact Hcar.
    + rewrite Hnx. destruct (_ =? _).
      * left. rewrite Z.mod_small by lia. lia.
      * right. split; [|lia]. rewrite Hlk, decide_True by lia || done. by eexists.
  - exists [sdu_buf s]. split; [done|]. rewrite Hl, fmap_cons in Hord.
    destruct (th_next _ _ _ Hh) as [[Hov1 _]|E].
    { exfalso. unfold is_tx_window_full in Hfull. rewrite tx_mod_base_rel, (overtaken_ahead e Hi Hov1) in Hfull. rewrite Ec, Hmod in Hlim.
      rewrite (proj2 (Z.eqb_neq _ 0)), (proj2 (Z.ltb_lt _ _)), orb_true_r in Hfull by lia. done. }
    rewrite Hnone, Z.add_0_r in E. pose proof (sublist_length _ _ Hord) as Hlacc. rewrite length_app in Hlacc. cbn [length] in Hlacc.
    assert (Hnew : (h ++ [sdu_buf s]) !! Z.to_nat (tx_next (at_st e)) = Some (sdu_buf s)) by (rewrite <- E, Nat2Z.id; by apply list_lookup_middle).
    split; [|split; [done|split; [done|right; right; eapply sends_carries; [exact Hs|done]]]].
    apply history_next; [done|done| | |by rewrite <- app_assoc].
    + intros q j Hq0 Hj. destruct (decide (q = tx_next (at_st e))) as [->|Hne]; [rewrite Hi1 in Hj; injection Hj as <-; by rewrite Hsdu|].
      apply lookup_app_l_Some, Hwin; [done|]. by apply Hoth.
    + rewrite Hnx, length_app. cbn [length]. destruct (_ =? _).
      * left. rewrite Z.mod_small by lia. lia.
      * right. split; [by eexists|lia].
Qed.

Lemma history_step i p e h acc :
  xi_next_so init = 0 -> tx_history e h acc -> sp_inv (sz e) p -> am_tx_input_ok (at_mod e) i ->
  Z.of_nat (length (acc ++ handed [i])) < at_mod e ->
  exists e' p' pdus ev h', am_tx_step i p e = Some (e', p', pdus, ev) /\ tx_history e' (h ++ h') (acc ++ handed [i]) /\
    sp_inv (sz e) p' /\ at_cfg e' = at_cfg e /\ Forall (on_air (sz e) (h ++ h')) pdus.
Proof.
  intros Hso Hh Hp Hok Hacc. assert (Hi := th_inv _ _ _ Hh).
  assert (Hkeep : forall e' ev, tx_history e' h (acc ++ handed [i]) -> at_cfg e' = at_cfg e ->
    exists e1 p1 pdus ev1 h', Some (e', p, [], ev) = Some (e1, p1, pdus, ev1 : list tx_event) /\ tx_history e1 (h ++ h') (acc ++ handed [i]) /\
      sp_inv (sz e) p1 /\ at_cfg e1 = at_cfg e /\ Forall (on_air (sz e) (h ++ h')) pdus).
  { intros e' ev Hh' Ec. exists e', p, [], ev, []. rewrite app_nil_r. do 4 (split; [done|]). apply Forall_nil_2. }
  assert (Hcore : forall e', handed [i] = [] -> same_core e e' -> tx_history e' h (acc ++ handed [i])).
  { intros e' -> Hc. rewrite app_nil_r. destruct Hc as (C1 & C2 & C3 & C4 & C5 & C6 & C7) eqn:E. clear E.
    eapply history_same; [exact Hh|by eapply same_core_inv; [|exact Hi]|done|done|done|by rewrite C2|by rewrite C3]. }
  destruct i as [buf is_retx toa deferred|start block deferred|buf timer|s| | |deferred| | |]; cbn [am_tx_step am_tx_input_ok] in *.
  - destruct (am_handle_sdu_spec buf is_retx toa deferred e Hi) as (e' & ev & s & b & -> & Hi' & Hs & _ & Hl & Ec & Ew & Est & _); [tauto..|].
    cbn [mbind option_bind]. apply Hkeep; [|done]. eapply history_keep; [exact Hh|done|done|by rewrite Est| | | |].
    + intros k j _ Hj. exists j. by rewrite <- Ew.
    + unfold tx_overtaken, at_mod. by rewrite Est, Ec.
    + intros Hsome. left. by rewrite Ew.
    + rewrite Hl, fmap_app, app_assoc. apply sublist_app; [apply Hh|]. cbn. destruct b; [by rewrite <- Hs|apply sublist_nil_l].
  - destruct (am_discard_spec start block deferred e Hi) as (e' & ev & -> & Hi' & Ec & Ew & Est & _ & Hl); [tauto..|].
    cbn [mbind option_bind]. apply Hkeep; [|done]. cbn. rewrite app_nil_r.
    eapply history_same; [exact Hh|done|done|by rewrite Est|by rewrite Est|by rewrite Ew|done].
  - destruct (history_pull buf timer p e h (acc ++ handed [AmTxPull buf timer]) Hso) as (n & buf' & p' & e' & ev & h' & -> & Hh' & Hp' & Ec & Hair);
      [cbn; by rewrite app_nil_r|done|done|done|].
    cbn [mbind option_bind]. exists e', p', (if n =? 0 then [] else [take (Z.to_nat n) buf']), ev, h'. do 4 (split; [done|]).
    destruct (Z.eqb_spec n 0) as [|Hne]; [apply Forall_nil_2|]. destruct Hair as [|Hair]; [done|]. apply Forall_cons_2; [done|apply Forall_nil_2].
  - destruct (am_handle_status_spec s p e Hi Hok) as (e' & ev & -> & Hi' & Ec & Hcase). cbn [mbind option_bind]. apply Hkeep; [|done].
    cbn. rewrite app_nil_r. destruct Hcase as [[_ ->]|(e1 & ev1 & ev2 & Hc & Hd & (_ & F1 & F2 & F3 & _ & F5) & _)]; [done|].
    destruct (check_status s e) as [b ev0] eqn:Ec0. cbn in Hc. subst b. destruct (check_status_spec e s ev0 Hi Hok Ec0) as [Hck _].
    eapply history_same; [by eapply history_status|done|done|by rewrite F3|by rewrite F3|by rewrite F2|by rewrite F5].
  - destruct (at_poll_timer e); [|apply Hkeep; [by apply Hcore|done]].
    destruct (poll_expiry_spec p (at_set_timer false e)) as (e' & ev & -> & Hi' & Ec & Hs & Est & Hl); [by eapply (same_core_inv e); [repeat split|]|].
    cbn [mbind option_bind]. apply Hkeep; [|done]. cbn. rewrite app_nil_r.
    eapply history_same; [exact Hh|done|done|by rewrite Est|by rewrite Est|done|by rewrite Hl].
  - destruct (update_spec false p e Hi) as (e' & ev & -> & Hi' & (_ & F1 & F2 & F3 & _ & F5)). cbn [mbind option_bind]. apply Hkeep; [|done].
    cbn. rewrite app_nil_r. eapply history_same; [exact Hh|done|done|by rewrite F3|by rewrite F3|by rewrite F2|by rewrite F5].
  - apply Hkeep; [apply Hcore; [done|apply changed_core]|]. unfold am_handle_changed_buffer_state. by case_match.
  - apply Hkeep; [by apply Hcore|done].
  - apply Hkeep; [by apply Hcore|done].
  - apply Hkeep; [by apply Hcore|done].
Qed.

Lemma history_run l : forall p e h acc,
  xi_next_so init = 0 -> tx_history e h acc -> sp_inv (sz e) p -> Forall (am_tx_input_ok (at_mod e)) l ->
  Z.of_nat (length (acc ++ handed l)) < at_mod e ->
  exists e' p' pdus ev h', am_tx_run l p e = Some (e', p', pdus, ev) /\ tx_history e' (h ++ h') (acc ++ handed l) /\
    Forall (on_air (sz e) (h ++ h')) pdus.
Proof.
  induction l as [|i l IH]; intros p e h acc Hso Hh Hp Hok Hacc; cbn [am_tx_run].
  { exists e, p, [], [], []. cbn. rewrite !app_nil_r. split; [done|]. split; [done|apply Forall_nil_2]. }
  apply Forall_cons in Hok as [Hok1 Hok].
  assert (Eh : acc ++ handed (i :: l) = (acc ++ handed [i]) ++ handed l).
  { rewrite <- app_assoc. f_equal. unfold handed. by rewrite <- omap_app. }
  rewrite Eh in *. assert (Hacc1 : Z.of_nat (length (acc ++ handed [i])) < at_mod e) by (rewrite length_app in Hacc; lia).
  destruct (history_step i p e h acc Hso Hh Hp Hok1 Hacc1) as (e1 & p1 & pd1 & ev1 & h1 & -> & Hh1 & Hp1 & Ec1 & Ha1). cbn [mbind option_bind].
  destruct (IH p1 e1 (h ++ h1) (acc ++ handed [i]) Hso Hh1) as (e2 & p2 & pd2 & ev2 & h2 & -> & Hh2 & Ha2).
  - by rewrite Ec1.
  - unfold at_mod in *. by rewrite Ec1.
  - unfold at_mod in *. by rewrite Ec1.
  - cbn [mbind option_bind]. eexists _, _, _, _, (h1 ++ h2). rewrite app_assoc. split; [reflexivity|]. split; [done|].
    apply Forall_app. split; [|by rewrite <- Ec1]. eapply Forall_impl; [exact Ha1|]. intros pdu. apply on_air_more.
Qed.
End transmitter.

(** ** The receiver *)
Definition sdu_at (h : list (list Z)) (q : Z) : list Z := default [0] (h !! Z.to_nat q).

Definition sdu_sizes_ok (h : list (list Z)) : Prop := Forall (fun sdu => 1 <= buf_length sdu <= 65535) h.

Lemma sdu_at_length h q : sdu_sizes_ok h -> 1 <= rd_length (sdu_at h q) <= 65535.
Proof.
  intros Hh. unfold sdu_at. destruct (h !! Z.to_nat q) as [sdu|] eqn:E; [|done].
  by apply (proj1 (Forall_lookup _ _) Hh _ _) in E.
Qed.

Lemma carries_pdu_of sz h pdu hdr :
  carries sz h pdu -> bytes_ok pdu -> rlc_am_read_data_pdu_header pdu sz rlc_am_pdu_header_init = Some (true, hdr) ->
  am_pdu_of (sdu_at h) pdu hdr /\ 0 <= h_sn hdr < Z.of_nat (length h).
Proof.
  intros (hdr' & sdu & k & Hr & Hh & Hsi & Hso & Hk & Hle & Hpay) Hb Hr'. rewrite Hr in Hr'. injection Hr' as <-.
  destruct (am_read_cases pdu sz rlc_am_pdu_header_init) as (ok & hdr & Hr' & Hok). rewrite Hr in Hr'. injection Hr' as <- <-.
  destruct (Hok Hb eq_refl) as ((_ & _ & Hsn & _) & _).
  assert (Hlt : (Z.to_nat (h_sn hdr') < length h)%nat) by (by eapply lookup_lt_Some). split; [|lia].
  assert (Hsl : rd_length (slice sdu (h_so hdr') k) = k) by (apply slice_length; lia).
  unfold am_pdu_of, sdu_at. rewrite Hh. cbn [default from_option id]. change (am_payload pdu hdr') with (drop (Z.to_nat (get_packed_size hdr')) pdu).
  case_bool_decide as Hf.
  - rewrite Hpay. rewrite Hsi in Hf. unfold si_of_slice in Hf. destruct (Z.eqb_spec (h_so hdr') 0) as [->|]; [|by case_match].
    destruct (Z.eqb_spec k (buf_length sdu)) as [->|]; [|done]. unfold slice, buf_length. rewrite Nat2Z.id. apply firstn_all.
  - unfold slice_of, sg_end, sg_len, am_segment; cbn [sg_so sg_payload sg_si].
    change (am_payload pdu hdr') with (drop (Z.to_nat (get_packed_size hdr')) pdu). rewrite Hpay, Hsl.
    change (rd_length sdu) with (buf_length sdu). do 4 (split; [done || lia|]).
    rewrite Hsi in Hf |- *. unfold si_of_slice in Hf |- *. destruct (Z.eqb_spec (h_so hdr') 0) as [E0|].
    + destruct (Z.eqb_spec k (buf_length sdu)); [done|]. split; [done|lia].
    + destruct (Z.eqb_spec (h_so hdr' + k) (buf_length sdu)); [by split|]. split; [done|lia].
Qed.

Section receiver.
Context {W : Type} `{SduWindowLaws rlc_rx_am_sdu_info W rlc_rx_am_sdu_info_init}.
Notation entity := (rlc_rx_am_entity W).
Implicit Types (e : entity).
Notation am_rel e := (rel (am_mod e) (rx_next (st e))).

(** The SDUs in the window belong to the history [h]; [ds] are the SNs whose SDUs were delivered. *)
Definition of_history (h : list (list Z)) (q : Z) (i : rlc_rx_am_sdu_info) : Prop :=
  am_info_ok (sdu_at h) q i /\ q < Z.of_nat (length h).

Record rx_history (h : list (list Z)) e (ds : list nat) : Prop := {
  rh_inv : am_inv e;
  rh_status : am_status_ok e;
  rh_cap : win_cap (am_rx_window e) = am_window_size e;
  rh_window : am_all (of_history h) (am_mod e) (am_rx_window e);
  rh_next : rx_next (st e) <= Z.of_nat (length h);
  rh_nodup : NoDup ds;
  rh_once : Forall (fun q => Z.of_nat q < Z.of_nat (length h) /\ (am_full (am_rx_window e) (Z.of_nat q) = true \/ Z.of_nat q < rx_next (st e))) ds
}.

Lemma closed_of_history sz h pdu :
  sdu_sizes_ok h -> bytes_ok pdu -> carries sz h pdu -> am_closed (of_history h) pdu sz.
Proof.
  intros Hh Hb Hc. pose proof (carries_pdu_of sz h pdu) as Hof.
  destruct (am_closed_ok (sdu_at h) sz pdu) as (H1 & H2 & H3); [intros q; by apply sdu_at_length|done|by intros hdr Hr; eapply Hof|].
  split; [by intros q i [[? _] _]|]. split; [intros q i [Hi ?] Hf; split; [by apply H2|done]|].
  intros hdr Hr Hlen. destruct (Hof hdr Hc Hb Hr) as [_ Hsn]. specialize (H3 hdr Hr Hlen). case_bool_decide; [by split; [|lia]|].
  intros i0 Hi0. split; [|lia]. apply H3. destruct Hi0 as [?|[[? _] ?]]; [by left|by right].
Qed.

(** RX_Next moves over SNs of the history only, without wrapping. *)
Lemma next_moves h e e' :
  am_inv e -> am_inv e' -> ar_sn_size e' = ar_sn_size e -> rx_next (st e) <= Z.of_nat (length h) <= am_window_size e ->
  am_forward (of_history h) e e' -> rx_next (st e) <= rx_next (st e') <= Z.of_nat (length h).
Proof.
  intros ((Hn & _) & _) ((Hn' & _) & _) Es Hle (_ & _ & Hp). destruct (am_geometry e) as (Hm & Hws & _).
  unfold am_mod at 1 in Hn'. rewrite Es in Hn'. fold (am_mod e) in Hn'.
  destruct (Z.le_gt_cases (rx_next (st e)) (rx_next (st e'))) as [Hge|Hlt].
  - split; [done|]. destruct (decide (rx_next (st e') = rx_next (st e))) as [->|Hne]; [lia|].
    destruct (Hp (rx_next (st e') - 1)) as (i & _ & Hi); [lia| |lia]. rewrite !rel_cases by lia. repeat case_decide; lia.
  - exfalso. destruct (Hp (am_mod e - 1)) as (i & _ & Hi); [lia| |lia]. rewrite !rel_cases by lia. repeat case_decide; lia.
Qed.

Lemma history_rx_moves h e e' ds :
  rx_history h e ds -> Z.of_nat (length h) <= am_window_size e -> am_inv e' -> am_status_ok e' -> ar_sn_size e' = ar_sn_size e ->
  am_all (of_history h) (am_mod e) (am_rx_window e') -> am_forward (of_history h) e e' -> rx_history h e' ds.
Proof.
  intros [Hi Hst Hc Hw Hn Hnd Ho] Hlen Hi' Hst' Es Hall Hf. assert (Hmod : am_mod e' = am_mod e) by (unfold am_mod; by rewrite Es).
  assert (Hws : am_window_size e' = am_window_size e) by (unfold am_window_size; by rewrite Es).
  destruct (next_moves h e e' Hi Hi' Es (conj Hn Hlen) Hf) as [Hn1 Hn2]. destruct Hf as (Hfc & Hff & _). destruct (am_geometry e) as (Hm & Hwb & _).
  pose proof Hi as ((Hrn & _) & _).
  split; [done|done|congruence|by rewrite Hmod|done|done|]. eapply Forall_impl; [exact Ho|]. intros q [Hq Hcase]. split; [done|].
  destruct Hcase as [Hfull|]; [|right; lia]. destruct (Hff Hc (Z.of_nat q) ltac:(lia) Hfull) as [?|Hlt]; [by left|right].
  rewrite !rel_cases in Hlt by lia. repeat case_decide; lia.
Qed.

(** One PDU: at most one SDU more, of a SN that had not been delivered. *)
Lemma history_rx_data h e ds block max pdu :
  rx_history h e ds -> Z.of_nat (length h) <= am_window_size e -> sdu_sizes_ok h -> bytes_ok pdu -> on_air (ar_sn_size e) h pdu ->
  exists e' ev ds', am_handle_pdu block max pdu e = Some (e', ev) /\ rx_history h e' (ds ++ ds') /\ ar_sn_size e' = ar_sn_size e /\
    delivered ev = omap (fun q => h !! q) ds'.
Proof.
  intros Hh Hlen Hsz Hb Hair. destruct Hair as [Hctl|Hc].
  { unfold am_handle_pdu, am_handle_control_pdu. rewrite Hctl. destruct (rd_empty pdu); [by eexists e, _, []; rewrite app_nil_r|]. cbn [mbind option_bind].
    destruct (unpack_safe pdu (status_pdu_new (ar_sn_size e)) Hb) as (ok & s & -> & _); [split; [apply size_inv_new|constructor]|].
    cbn [mbind option_bind]. eexists e, _, []. rewrite app_nil_r. split; [reflexivity|]. by destruct ok. }
  pose proof Hh as [Hi Hst Hcap Hw Hn Hnd Ho].
  destruct (am_handle_pdu_spec (of_history h) block max pdu e Hi Hst Hb Hw) as (e' & ev & E & Hi' & Hst' & Hall & Es & Hdel & _ & Hfwd);
    [by apply closed_of_history|].
  pose proof (history_rx_moves h e e' ds Hh Hlen Hi' Hst' Es Hall Hfwd) as Hh'. exists e', ev.
  destruct Hdel as [(Hd & _)|(hdr & i & Hacc & Hpl & Hf & Hd & Honce)]; [exists []; by rewrite app_nil_r|].
  pose proof Hacc as (_ & Eread & _ & Hsn & Hin & Hnf). destruct (carries_pdu_of _ h pdu hdr Hc Hb Eread) as [Hof Hsnh].
  assert (Hsdu : h !! Z.to_nat (h_sn hdr) = Some (sdu_at h (h_sn hdr))).
  { unfold sdu_at. destruct (lookup_lt_is_Some_2 h (Z.to_nat (h_sn hdr))) as [sdu ->]; [lia|done]. }
  assert (Hall0 : am_all (am_info_ok (sdu_at h)) (am_mod e) (am_rx_window e)) by (intros q j Hq Hj; by apply (Hw q j)).
  pose proof (am_placed_complete (sdu_at h) e pdu hdr i (fun q => sdu_at_length h q Hsz) Hall0 Hof Hacc Hpl Hf) as Hdata.
  destruct (am_reassemble_ok (sdu_at h (h_sn hdr)) i block max (sdu_at_length h _ Hsz) Hf Hdata) as (Hr1 & Hr2 & _). rewrite <- Hd in Hr1, Hr2.
  destruct (delivered ev) as [|d [|]]; [exists []; by rewrite app_nil_r| |cbn in Hr2; lia].
  exists [Z.to_nat (h_sn hdr)]. split; [done|]. rewrite (Hr1 d) by (by apply list_elem_of_singleton).
  split; [|split; [done|change (omap (fun q => h !! q) [Z.to_nat (h_sn hdr)]) with (match h !! Z.to_nat (h_sn hdr) with Some y => [y] | None => [] end); by rewrite Hsdu]].
  destruct Hh' as [G1 G2 G3 G4 G5 G6 G7]. destruct (am_geometry e) as (Hm & Hwb & _). pose proof Hi as ((Hrn & _) & _). pose proof Hi' as ((Hrn' & _) & _).
  rewrite inside_rel in Hin. apply Z.ltb_lt in Hin. split; [done..| |].
  - apply NoDup_app. split; [done|]. split; [|apply NoDup_singleton]. intros q Hq ->%list_elem_of_singleton.
    rewrite Forall_forall in Ho. destruct (Ho _ Hq) as [_ Hcase]. rewrite Z2Nat.id in Hcase by lia. destruct Hcase as [Hfull|Hlt]; [congruence|].
    rewrite rel_cases in Hin by lia. case_decide; lia.
  - apply Forall_app. split; [done|]. apply Forall_cons_2; [|apply Forall_nil_2]. rewrite Z2Nat.id by lia. split; [lia|].
    destruct Honce as [|Hout]; [by left|right]. rewrite inside_rel in Hout. apply Z.ltb_ge in Hout.
    unfold am_mod in Hrn', Hout. unfold am_window_size in Hout. rewrite Es in Hrn', Hout. fold (am_mod e) in Hrn', Hout. fold (am_window_size e) in Hout.
    rewrite rel_cases in Hout by lia. case_decide; lia.
Qed.

(** The other inputs move neither the window nor RX_Next. *)
Lemma history_rx_idle h e ds i :
  rx_history h e ds -> (forall block max buf, i <> AmPdu block max buf) ->
  exists e' ev, am_step e i = Some (e', ev) /\ rx_history h e' ds /\ ar_sn_size e' = ar_sn_size e /\ delivered ev = [].
Proof.
  intros [Hi Hst Hc Hw Hn Hnd Ho] Hno. pose proof Hi as (Hv & Htim & Hwf).
  destruct (am_step_inv e i Hi Hst) as (e' & ev & E & Hi' & Hst' & Es); [by destruct i; [edestruct Hno|..]|].
  enough (am_rx_window e' = am_rx_window e /\ rx_next (st e') = rx_next (st e) /\ delivered ev = []) as (Ew & En & Hd).
  { exists e', ev. split; [done|]. split; [|done]. assert (Hmod : am_mod e' = am_mod e) by (unfold am_mod; by rewrite Es).
    assert (Hws : am_window_size e' = am_window_size e) by (unfold am_window_size; by rewrite Es).
    split; try done; [by rewrite Ew, Hws|by rewrite Ew, Hmod|by rewrite En|by rewrite Ew, En]. }
  destruct i as [block max buf| | |deferred|]; [by edestruct Hno|..]; cbn [am_step] in E.
  - destruct (am_reassembly_timer e) eqn:Hr; [|by injection E as <- <-]. specialize (Htim eq_refl).
    destruct (am_expiry_spec (fun _ => am_info_wf) (am_set_timer (rx_next_status_trigger (st e)) false e))
      as (e1 & ev1 & E1 & _ & _ & Hw1 & _ & Hd1 & Hn1 & _).
    + split; [apply (am_vars_timer _ _ (st e)); [done|apply Hv]|]. split; [by intros Hx|done].
    + by apply (am_status_ok_frame e).
    + done.
    + exact Htim.
    + exact Hwf.
    + rewrite E in E1. by injection E1 as <- <-.
  - destruct (status_prohibit_timer (status e)); [|by injection E as <- <-]. unfold am_on_expired_status_prohibit_timer in E.
    injection E as <- <-. split; [done|]. split; [done|]. unfold notify_status_report_changed. by case_match.
  - unfold get_status_pdu in E. injection E as <- <-. by destruct (0 <? t_status_prohibit e).
  - destruct (prohibit_deferred (status e)); by injection E as <- <-.
Qed.

(** Inputs whose PDUs are on the air *)
Definition am_hears (pdus : list (list Z)) (i : am_input) : Prop :=
  match i with AmPdu _ _ buf => bytes_ok buf /\ buf ∈ pdus | _ => True end.

Lemma history_rx_run h pdus l : forall e ds,
  rx_history h e ds -> Z.of_nat (length h) <= am_window_size e -> sdu_sizes_ok h -> Forall (on_air (ar_sn_size e) h) pdus ->
  Forall (am_hears pdus) l ->
  exists e' ev ds', am_run e l = Some (e', ev) /\ rx_history h e' (ds ++ ds') /\ delivered ev = omap (fun q => h !! q) ds'.
Proof.
  induction l as [|i l IH]; intros e ds Hh Hlen Hsz Hair Hl; cbn [am_run]; [by exists e, [], []; rewrite app_nil_r|].
  apply Forall_cons in Hl as [Hi Hl].
  assert (Hstep : exists e1 ev1 ds1, am_step e i = Some (e1, ev1) /\ rx_history h e1 (ds ++ ds1) /\ ar_sn_size e1 = ar_sn_size e /\
    delivered ev1 = omap (fun q => h !! q) ds1).
  { destruct i as [block max buf| | |deferred|].
    - destruct Hi as [Hb Hin]. rewrite Forall_forall in Hair. by apply history_rx_data; [..|apply Hair].
    - destruct (history_rx_idle h e ds AmReassemblyExpiry Hh) as (e1 & ev1 & ? & ? & ? & ?); [done|]. exists e1, ev1, []. by rewrite app_nil_r.
    - destruct (history_rx_idle h e ds AmProhibitExpiry Hh) as (e1 & ev1 & ? & ? & ? & ?); [done|]. exists e1, ev1, []. by rewrite app_nil_r.
    - destruct (history_rx_idle h e ds (AmGetStatus deferred) Hh) as (e1 & ev1 & ? & ? & ? & ?); [done|]. exists e1, ev1, []. by rewrite app_nil_r.
    - destruct (history_rx_idle h e ds AmProhibitTask Hh) as (e1 & ev1 & ? & ? & ? & ?); [done|]. exists e1, ev1, []. by rewrite app_nil_r. }
  destruct Hstep as (e1 & ev1 & ds1 & -> & Hh1 & Es & Hd1). cbn [mbind option_bind].
  destruct (IH e1 (ds ++ ds1) Hh1) as (e2 & ev2 & ds2 & -> & Hh2 & Hd2); [unfold am_window_size in *; by rewrite Es|done|by rewrite Es|done|].
  cbn [mbind option_bind]. exists e2, (ev1 ++ ev2), (ds1 ++ ds2). rewrite app_assoc, delivered_app, Hd1, Hd2, omap_app. done.
Qed.
End receiver.

(** ** The link *)
Section link.
Context {Wt : Type} `{SduWindowCountLaws rlc_tx_am_sdu_info Wt}.
Context {P : Type} `{StatusProviderLaws P}.
Context {Wr : Type} `{SduWindowLaws rlc_rx_am_sdu_info Wr rlc_rx_am_sdu_info_init}.
Implicit Types (e : rlc_tx_am_entity Wt) (p : P) (r : rlc_rx_am_entity Wr).

Lemma history_new cfg queue_size w e :
  am_tx_inv e -> am_tx_new cfg queue_size w = Some e -> 0 < ac_max_window cfg < at_mod e - 1 -> (forall k, 0 <= k -> win_lookup w k = None) ->
  tx_history e [] [].
Proof.
  intros Hi E Hmax Hemp. unfold am_tx_new in E.
  assert (E' : at_cfg e = cfg /\ at_window e = w /\ tx_next (at_st e) = 0 /\ live_sdus (at_queue e) = [])
    by (destruct (ac_pdcp_sn_len cfg); [injection E as <-; by split_and!..|done]).
  destruct E' as (E1 & E2 & E3 & E4). split; [done|by rewrite E1| | |by rewrite E4].
  - intros k i Hk. by rewrite E2, Hemp.
  - right. by rewrite E3, E2, Hemp.
Qed.

Lemma rx_history_new h sz t max w r :
  am_rx_new sz t max w = Some r -> win_inv w -> (forall q, win_lookup w q = None) -> win_cap w = window_size (am_sn_to_number sz) ->
  rx_history h r [].
Proof.
  intros Hr Hw Hemp Hcap. destruct (am_new_inv sz t max w r Hr Hw Hemp) as (Hi & Hst & Es).
  assert (E : am_rx_window r = w /\ rx_next (st r) = 0).
  { unfold am_rx_new in Hr. destruct (match max with Some n => _ | None => _ end) as [n|]; [|done]. cbn [mbind option_bind] in Hr.
    by injection Hr as <-. }
  destruct E as [Ew En]. split; [done|done|unfold am_window_size; by rewrite Ew, Es| |rewrite En; lia|apply NoDup_nil_2|apply Forall_nil_2].
  intros q i _. by rewrite Ew, Hemp.
Qed.

(** C1. From end to end an AM link delivers what was handed over, at most once. Take a new transmitter and a new receiver with
    the same SN size and run the transmitter on any inputs: SDUs, discards, grants, status reports that may be arbitrary,
    timers. Let the receiver get the PDUs it wrote, status PDUs included, in any order, any number of times or not at all,
    with its own timers and status requests in between. If the transmitter has a window limit and no more SDUs were handed over
    than half of the sequence numbers, neither side fails, some of the SDUs handed over were given SNs in order, and what the
    receiver delivers are these SDUs, byte for byte, none of them twice. *)
Theorem am_link_correct cfg queue_size wt p et lt tsp max wr er :
  xi_next_so init = 0 -> am_tx_new cfg queue_size wt = Some et -> (ac_is_srb cfg = true -> ac_pdcp_sn_len cfg = pdcp_size12bits) ->
  0 < queue_size < 4294967294 -> 0 <= ac_queue_size_bytes cfg < 4294967296 -> 0 < ac_max_window cfg < at_mod et - 1 ->
  win_inv wt -> win_cap wt = window_size (am_sn_to_number (ac_sn_size cfg)) -> (forall k, 0 <= k -> win_lookup wt k = None) ->
  sp_inv (ac_sn_size cfg) p -> Forall (am_tx_input_ok (at_mod et)) lt ->
  sdu_sizes_ok (handed lt) -> Z.of_nat (length (handed lt)) <= at_window_size et ->
  am_rx_new (ac_sn_size cfg) tsp max wr = Some er -> win_inv wr -> (forall q, win_lookup wr q = None) ->
  win_cap wr = window_size (am_sn_to_number (ac_sn_size cfg)) ->
  exists e' p' pdus evt h, am_tx_run lt p et = Some (e', p', pdus, evt) /\ sublist h (handed lt) /\
    forall lr, Forall (am_hears pdus) lr ->
    exists r' evr ds, am_run er lr = Some (r', evr) /\ NoDup ds /\ delivered evr = omap (fun q => h !! q) ds /\
      Forall (fun q => q < length h)%nat ds.
Proof.
  intros Hso Hnew Hsrb Hq Hby Hmax Hw Hcap Hemp Hp Hok Hsz Hn Hr Hwr Hempr Hcapr.
  destruct (am_tx_new_inv cfg queue_size wt et) as [Hi Ec]; try done. destruct (at_geometry et) as (Hg1 & Hg2 & _).
  destruct (history_run lt p et [] [] Hso) as (e' & p' & pdus & evt & h & E & Hh & Hair);
    [by eapply history_new|by rewrite Ec|done|cbn [app]; lia|]. cbn [app] in *.
  assert (Hsub : sublist h (handed lt)) by (etrans; [apply (sublist_inserts_r (sdu_buf <$> live_sdus (at_queue e'))); reflexivity|apply Hh]).
  exists e', p', pdus, evt, h. split; [done|]. split; [done|]. intros lr Hlr. pose proof (sublist_length _ _ Hsub) as Hlen.
  destruct (am_new_inv (ac_sn_size cfg) tsp max wr er Hr Hwr Hempr) as (_ & _ & Es).
  assert (Hws : am_window_size er = at_window_size et) by (unfold am_window_size, at_window_size; by rewrite Es, Ec).
  destruct (history_rx_run h pdus lr er []) as (r' & evr & ds & Er & Hhr & Hd); [by eapply rx_history_new|lia| |by rewrite Es, <- Ec|done|].
  - unfold sdu_sizes_ok in *. rewrite Forall_forall in *. intros sdu Hin. apply Hsz. by eapply elem_of_sublist.
  - exists r', evr, ds. split; [done|]. split; [apply Hhr|]. split; [done|]. eapply Forall_impl; [apply Hhr|]. cbn. intros q [? _]. lia.
Qed.
End link.

(** ** Witness

    Two SDUs, the second in two segments; the segments arrive in the wrong order and the first PDU arrives twice. *)
#[local] Existing Instances tx_window tx_window_laws tx_window_count_laws fixed_provider fixed_provider_laws am_window am_window_laws.

Definition am_link_inputs : list am_tx_input :=
  [AmTxSdu (am_tx_sdu 5) false 10 true; AmTxSdu (am_tx_sdu 6) false 20 true; AmTxPull (replicate 9 0) true; AmTxPull (replicate 4 0) true;
   AmTxPull (replicate 20 0) true].
Definition am_link_pdus : list (list Z) :=
  match am_tx_run am_link_inputs no_report am_tx_12bit with Some (_, _, pdus, _) => pdus | None => [] end.
Definition am_link_hears : list am_input := (fun n : nat => AmPdu true 8 (nth n am_link_pdus [])) <$> [2; 0; 1; 0]%nat.

Definition am_link_octets : list (list Z) := [[128; 0; 128; 5; 1; 2; 3]; [144; 1; 128; 6]; [224; 1; 0; 2; 1; 2; 3]].
Lemma am_link_pdus_eq : am_link_pdus = am_link_octets. Proof. vm_compute. reflexivity. Qed.
Lemma am_link_octets_ok : Forall bytes_ok am_link_octets. Proof. repeat constructor; vm_compute; congruence. Qed.
Lemma am_link_octets_nof : length am_link_octets = 3%nat. Proof. reflexivity. Qed.

Lemma link_hears_pdus : Forall (am_hears am_link_pdus) am_link_hears.
Proof.
  unfold am_link_hears. rewrite am_link_pdus_eq. generalize am_link_octets_ok. generalize am_link_octets_nof. generalize am_link_octets. intros pdus Hlen Hb.
  apply Forall_fmap, Forall_forall. intros n Hn. assert (Hlt : (n < length pdus)%nat) by (rewrite Hlen; rewrite !elem_of_cons, elem_of_nil in Hn; lia).
  assert (Hin : nth n pdus [] ∈ pdus) by (by apply list_elem_of_In, nth_In).
  split; [|done]. by apply (proj1 (Forall_forall _ _) Hb).
Qed.

Lemma am_link_correct_witness :
  exists r evr (ds : list nat), am_run am_rx_12bit am_link_hears = Some (r, evr) /\ NoDup ds /\ delivered evr = [am_tx_sdu 5; am_tx_sdu 6].
Proof.
  destruct (am_link_correct am_tx_cfg 64 am_tx_empty no_report am_tx_12bit am_link_inputs 10 None (window_new 2048 64 4) am_rx_12bit)
    as (e' & p' & pdus & evt & h & E & _ & Hr).
  - exact init_next_so.
  - exact am_tx_12bit_new.
  - discriminate.
  - lia.
  - vm_compute. split; congruence.
  - vm_compute. split; congruence.
  - apply am_tx_empty_ok.
  - apply am_tx_empty_ok.
  - intros k _. apply am_tx_empty_ok.
  - exact no_report_ok.
  - repeat constructor; vm_compute; congruence.
  - repeat constructor; vm_compute; congruence.
  - vm_compute. congruence.
  - exact am_rx_12bit_new.
  - apply (map_new_inv (V:=rlc_rx_am_sdu_info) 11 6); lia.
  - intros q. apply (map_new_inv (V:=rlc_rx_am_sdu_info) 11 6); lia.
  - reflexivity.
  - assert (Ep : pdus = am_link_pdus) by (unfold am_link_pdus; by rewrite E). subst pdus.
    destruct (Hr am_link_hears) as (r & evr & ds & Er & Hnd & Hd & _).
    + apply link_hears_pdus.
    + exists r, evr, ds. split; [exact Er|]. split; [exact Hnd|]. vm_compute in Er. injection Er as _ <-. reflexivity.
Defined.
