(* ===== verification/CircularMap.v ===== *)
(** * The circular map and the window of SDUs over it ([include/ocudu/adt/circular_map.h], [include/ocudu/support/sdu_window.h])

    A direct-mapped table: a key has one slot, its residue modulo the size, which is a power of two
    ([circular_map<uint32_t, T, true>]). [sdu_window] wraps it for PDCP; it is a second implementation of the interface
    [SduWindow], with two more operations that PDCP uses. An operation whose assertion fails is [None]. *)
From S2P Require Import Prelude SegmentedCircularMap SduWindow.

(** ** Interface *)

Class SduWindowClear (T W : Type) := {
  win_clear : W -> W;
  win_size : W -> Z
}.

Class SduWindowClearLaws (T W : Type) `{SduWindowLaws T W} `{!SduWindowClear T W} := {
  win_clear_spec : forall w, win_inv w ->
    win_inv (win_clear w) /\ win_cap (win_clear w) = win_cap w /\ forall k, 0 <= k -> win_lookup (win_clear w) k = None;
  win_add_ok : forall w k ok w', win_inv w -> 0 <= k -> add_sn w k = Some (ok, w') -> ok = true
}.

(** ** The map *)
Section map.
Context {V : Type}.

(** [circular_map_storage<std::vector<T>, true>]: [data] and [count] *)
Record circular_map := CMap { cm_data : list (slot V); cm_count : Z }.
Implicit Types m : circular_map.

Definition cm_max_size m : Z := Z.of_nat (length (cm_data m)).

(** The constructor with [set_size]: a size that is not a power of two is a fatal error. *)
Definition cm_new (size : Z) : option circular_map :=
  if negb (Z.land size (size - 1) =? 0) then None else Some (CMap (replicate (Z.to_nat size) None) 0).

Definition get_circular_idx m (idx : Z) : nat := Z.to_nat (Z.land idx (cm_max_size m - 1)).
Definition cm_slot m (key : Z) : slot V := mjoin (cm_data m !! get_circular_idx m key).

Definition cm_contains m (key : Z) : bool :=
  match cm_slot m key with Some (k, _) => k =? key | None => false end.

(** [insert(K key, V&& obj)]; [emplace] and the other overload have the same effect. *)
Definition cm_insert m (key : Z) (obj : V) : bool * circular_map :=
  match cm_slot m key with
  | Some _ => (false, m)
  | None => (true, CMap (<[get_circular_idx m key := Some (key, obj)]> (cm_data m)) (cm_count m + 1))
  end.

(** [erase(K key)] *)
Definition cm_erase m (key : Z) : bool * circular_map :=
  if negb (cm_contains m key) then (false, m)
  else (true, CMap (<[get_circular_idx m key := None]> (cm_data m)) (cm_count m - 1)).

(** [overwrite] *)
Definition cm_overwrite m (key : Z) (obj : V) : circular_map :=
  let m := match cm_slot m key with Some (k, _) => (cm_erase m k).2 | None => m end in
  (cm_insert m key obj).2.

(** [operator[]], and assignment through the reference it returns *)
Definition cm_get m (key : Z) : option V := if cm_contains m key then snd <$> cm_slot m key else None.
Definition cm_put m (key : Z) (v : V) : option circular_map :=
  if cm_contains m key then Some (CMap (<[get_circular_idx m key := Some (key, v)]> (cm_data m)) (cm_count m)) else None.

Definition cm_clear m : circular_map := CMap ((fun _ => None) <$> cm_data m) 0.
Definition cm_size m : Z := cm_count m.
Definition cm_empty m : bool := cm_size m =? 0.
Definition cm_full m : bool := cm_size m =? cm_max_size m.
Definition cm_has_space m (key : Z) : bool := match cm_slot m key with Some _ => false | None => true end.

(** *** Invariant and abstraction *)
Definition cm_inv m : Prop :=
  (exists a, 0 <= a /\ cm_max_size m = 2 ^ a) /\ cm_count m = Z.of_nat (occupied (cm_data m)) /\
  forall i k v, cm_data m !! i = Some (Some (k, v)) -> 0 <= k /\ Z.of_nat i = k mod cm_max_size m.

Definition cm_pos m (key : Z) : nat := Z.to_nat (key mod cm_max_size m).
Definition cm_lookup m (key : Z) : option V :=
  match cm_slot m key with Some (k, v) => if k =? key then Some v else None | None => None end.

Lemma cm_idx m key : cm_inv m -> get_circular_idx m key = cm_pos m key /\ 0 < cm_max_size m.
Proof.
  intros ((a & Ha & E) & _). unfold get_circular_idx, cm_pos. rewrite E. rewrite (land_low a) by (done || lia).
  split; [done|]. apply Z.pow_pos_nonneg; lia.
Qed.

Lemma cm_pos_lt m key : cm_inv m -> (cm_pos m key < length (cm_data m))%nat.
Proof.
  intros Hm. destruct (cm_idx m key Hm) as [_ Hp]. unfold cm_pos, cm_max_size in *.
  pose proof (Z.mod_pos_bound key (Z.of_nat (length (cm_data m))) Hp). lia.
Qed.

Lemma cm_pos_eq m k1 k2 : cm_inv m -> cm_pos m k1 = cm_pos m k2 <-> k1 mod cm_max_size m = k2 mod cm_max_size m.
Proof.
  intros Hm. destruct (cm_idx m k1 Hm) as [_ Hp]. unfold cm_pos.
  pose proof (Z.mod_pos_bound k1 _ Hp). pose proof (Z.mod_pos_bound k2 _ Hp). split; [lia|by intros ->].
Qed.

Lemma cm_slot_key m key k v : cm_inv m -> cm_slot m key = Some (k, v) -> 0 <= k /\ cm_pos m k = cm_pos m key.
Proof.
  intros Hm. pose proof Hm as (_ & _ & Hk). unfold cm_slot. destruct (cm_idx m key Hm) as [-> Hp].
  destruct (cm_data m !! cm_pos m key) as [o|] eqn:E; [|done]. cbn. intros ->.
  destruct (Hk _ _ _ E) as [? Hi]. split; [done|]. unfold cm_pos at 1. rewrite <- Hi. lia.
Qed.

(** Writing to the slot of a key. *)
Definition cm_write m (key : Z) (o : slot V) (d : Z) : circular_map :=
  CMap (<[cm_pos m key := o]> (cm_data m)) (cm_count m + d).

Lemma cm_write_slot m key o d q :
  cm_inv m -> cm_slot (cm_write m key o d) q = if decide (q mod cm_max_size m = key mod cm_max_size m) then o else cm_slot m q.
Proof.
  intros Hm. pose proof (cm_pos_lt m key Hm) as Hlt. unfold cm_slot, cm_write; cbn [cm_data].
  assert (Ei : get_circular_idx (CMap (<[cm_pos m key := o]> (cm_data m)) (cm_count m + d)) q = cm_pos m q).
  { destruct (cm_idx m q Hm) as [<- _]. unfold get_circular_idx, cm_max_size. cbn [cm_data]. by rewrite length_insert. }
  rewrite Ei. destruct (cm_idx m q Hm) as [-> _]. case_decide as Hd; rewrite <- cm_pos_eq in Hd by done.
  - rewrite Hd, list_lookup_insert_eq by done. done.
  - by rewrite list_lookup_insert_ne by done.
Qed.

Lemma cm_write_inv m key o d :
  cm_inv m -> (forall k v, o = Some (k, v) -> k = key /\ 0 <= k) ->
  Z.of_nat (slot_count o) = Z.of_nat (slot_count (cm_slot m key)) + d ->
  cm_inv (cm_write m key o d) /\ cm_max_size (cm_write m key o d) = cm_max_size m.
Proof.
  intros Hm Ho Hd. pose proof (cm_pos_lt m key Hm) as Hlt. pose proof Hm as (Hsz & Hc & Hk).
  assert (Es : cm_max_size (cm_write m key o d) = cm_max_size m) by (unfold cm_max_size, cm_write; cbn; by rewrite length_insert).
  split; [|done]. unfold cm_inv. rewrite Es. split; [done|]. destruct (lookup_lt_is_Some_2 _ _ Hlt) as [old Eo].
  assert (Ec : cm_slot m key = old) by (unfold cm_slot; destruct (cm_idx m key Hm) as [-> _]; by rewrite Eo).
  split.
  - unfold cm_write; cbn [cm_data cm_count]. pose proof (occupied_insert (cm_data m) (cm_pos m key) old o Eo). rewrite Ec in Hd. lia.
  - intros i k v. unfold cm_write; cbn [cm_data]. intros [(<- & -> & _)|(Hne & Hi)]%list_lookup_insert_Some; [|by apply (Hk i k v)].
    destruct (Ho k v eq_refl) as [-> ?]. split; [done|]. unfold cm_pos. destruct (cm_idx m key Hm) as [_ Hp].
    pose proof (Z.mod_pos_bound key _ Hp). lia.
Qed.

Lemma cm_contains_lookup m key : cm_contains m key = bool_decide (is_Some (cm_lookup m key)).
Proof.
  unfold cm_contains, cm_lookup. destruct (cm_slot m key) as [[k v]|]; [destruct (k =? key)|]; symmetry;
    [apply bool_decide_eq_true; by eexists|apply bool_decide_eq_false; by intros []..].
Qed.

Lemma cm_lookup_slot m key v : cm_lookup m key = Some v <-> cm_slot m key = Some (key, v).
Proof.
  unfold cm_lookup. destruct (cm_slot m key) as [[k x]|]; [|done].
  destruct (Z.eqb_spec k key) as [->|Hne]; split; intros [=]; subst; done.
Qed.

Lemma cm_get_lookup m key : cm_get m key = cm_lookup m key.
Proof. unfold cm_get, cm_contains, cm_lookup. destruct (cm_slot m key) as [[k v]|]; [by destruct (k =? key)|done]. Qed.
End map.
Arguments circular_map : clear implicits.

(** ** The window *)
Section window.
Context {T : Type} (init : T).
Notation sdu_window := (circular_map T).
Implicit Types w : sdu_window.

(** [add_sn]: a SN that is present fails an assertion *)
Definition sdu_add_sn w (sn : Z) : option (bool * sdu_window) :=
  if cm_contains w sn then None else Some (true, cm_overwrite w sn init).

(** [remove_sn]: a SN that is absent fails an assertion *)
Definition sdu_remove_sn w (sn : Z) : option sdu_window :=
  if negb (cm_contains w sn) then None else Some (cm_erase w sn).2.

#[export] Instance circular_window : SduWindow T sdu_window := {
  has_sn := cm_contains;
  add_sn := sdu_add_sn;
  remove_sn := sdu_remove_sn;
  win_get := cm_get;
  win_put := cm_put
}.

#[export] Instance circular_window_clear : SduWindowClear T sdu_window := {
  win_clear := cm_clear;
  win_size := cm_size
}.

(** The operations as writes of a slot. *)
Lemma cm_lookup_write w key o d q :
  cm_inv w -> 0 <= q -> (forall k v, o = Some (k, v) -> k = key) ->
  cm_lookup (cm_write w key o d) q =
  if decide (q = key) then snd <$> o
  else if decide (q mod cm_max_size w = key mod cm_max_size w) then None else cm_lookup w q.
Proof.
  intros Hw Hq Ho. unfold cm_lookup at 1. rewrite cm_write_slot by done. destruct (decide (q = key)) as [->|Hne].
  - rewrite decide_True by done. destruct o as [[k v]|]; [|done]. rewrite (Ho k v eq_refl). by rewrite Z.eqb_refl.
  - case_decide; [|done]. destruct o as [[k v]|]; [|done]. rewrite (Ho k v eq_refl). by rewrite (proj2 (Z.eqb_neq key q)) by congruence.
Qed.

Lemma cm_idx_write w key o d : cm_inv w -> CMap (<[get_circular_idx w key := o]> (cm_data w)) (cm_count w + d) = cm_write w key o d.
Proof. intros Hw. unfold cm_write. by destruct (cm_idx w key Hw) as [-> _]. Qed.

Lemma same_slot_other w k q :
  cm_inv w -> is_Some (cm_lookup w k) -> q <> k -> q mod cm_max_size w = k mod cm_max_size w -> cm_lookup w q = None.
Proof.
  intros Hw [v Hv%cm_lookup_slot] Hne Em. unfold cm_lookup.
  assert (cm_slot w q = cm_slot w k) as ->.
  { unfold cm_slot. destruct (cm_idx w q Hw) as [-> _]. destruct (cm_idx w k Hw) as [-> _]. by rewrite (proj2 (cm_pos_eq w q k Hw) Em). }
  rewrite Hv. by rewrite (proj2 (Z.eqb_neq k q)) by congruence.
Qed.

Lemma circular_put_spec w k v :
  cm_inv w -> 0 <= k -> is_Some (cm_lookup w k) ->
  exists w', cm_put w k v = Some w' /\ cm_inv w' /\ cm_max_size w' = cm_max_size w /\
    forall q, 0 <= q -> cm_lookup w' q = if decide (q = k) then Some v else cm_lookup w q.
Proof.
  intros Hw Hk Hs. unfold cm_put. rewrite cm_contains_lookup, bool_decide_true by done.
  rewrite <- (Z.add_0_r (cm_count w)), cm_idx_write by done. pose proof Hs as [x Hx%cm_lookup_slot].
  destruct (cm_write_inv w k (Some (k, v)) 0 Hw) as [Hi Em]; [by intros ? ? [= <- <-]|rewrite Hx; cbn; lia|].
  eexists. split_and!; [done..|]. intros q Hq. rewrite cm_lookup_write by (done || by intros ? ? [= <- <-]).
  case_decide; [done|]. case_decide as Em'; [|done]. by rewrite (same_slot_other w k q).
Qed.

Lemma circular_remove_spec w k :
  cm_inv w -> 0 <= k -> is_Some (cm_lookup w k) ->
  exists w', sdu_remove_sn w k = Some w' /\ cm_inv w' /\ cm_max_size w' = cm_max_size w /\
    forall q, 0 <= q -> cm_lookup w' q = if decide (q = k) then None else cm_lookup w q.
Proof.
  intros Hw Hk Hs. unfold sdu_remove_sn, cm_erase. rewrite cm_contains_lookup, bool_decide_true by done. cbn [negb snd].
  unfold Z.sub. rewrite cm_idx_write by done. pose proof Hs as [x Hx%cm_lookup_slot].
  destruct (cm_write_inv w k None (-(1)) Hw) as [Hi Em]; [done|rewrite Hx; cbn; lia|].
  eexists. split_and!; [done..|]. intros q Hq. rewrite cm_lookup_write by done.
  case_decide; [done|]. case_decide as Em'; [|done]. by rewrite (same_slot_other w k q).
Qed.

Lemma cm_overwrite_write w k v :
  cm_inv w -> 0 <= k -> exists d, cm_overwrite w k v = cm_write w k (Some (k, v)) d /\ 1 = Z.of_nat (slot_count (cm_slot w k)) + d.
Proof.
  intros Hw Hk. unfold cm_overwrite, cm_erase, cm_insert. destruct (cm_slot w k) as [[k0 v0]|] eqn:E.
  - destruct (cm_slot_key w k k0 v0 Hw E) as [Hk0 Ep]. unfold cm_contains.
    assert (E0 : cm_slot w k0 = Some (k0, v0)).
    { rewrite <- E. unfold cm_slot. destruct (cm_idx w k0 Hw) as [-> _]. destruct (cm_idx w k Hw) as [-> _]. by rewrite Ep. }
    rewrite E0, Z.eqb_refl. cbn [negb snd]. unfold Z.sub. rewrite cm_idx_write by done.
    rewrite cm_write_slot, decide_True by (done || by apply cm_pos_eq). cbn [snd]. exists 0. split; [|done].
    unfold cm_write, get_circular_idx, cm_max_size. cbn [cm_data cm_count]. rewrite length_insert.
    change (Z.to_nat (Z.land k (Z.of_nat (length (cm_data w)) - 1))) with (get_circular_idx w k).
    destruct (cm_idx w k Hw) as [-> _]. rewrite Ep, list_insert_insert_eq. f_equal. lia.
  - rewrite E. cbn [snd]. exists 1. by rewrite cm_idx_write.
Qed.

Lemma circular_add_spec w k :
  cm_inv w -> 0 <= k -> cm_lookup w k = None ->
  exists ok w', sdu_add_sn w k = Some (ok, w') /\ cm_inv w' /\ cm_max_size w' = cm_max_size w /\
    if ok then forall q, 0 <= q ->
      cm_lookup w' q = if decide (q = k) then Some init
        else if decide (q mod cm_max_size w = k mod cm_max_size w) then None else cm_lookup w q
    else w' = w.
Proof.
  intros Hw Hk Hn. unfold sdu_add_sn. rewrite cm_contains_lookup, Hn, bool_decide_false by by intros [].
  destruct (cm_overwrite_write w k init Hw Hk) as (d & -> & Hd). exists true. eexists. split; [done|].
  destruct (cm_write_inv w k (Some (k, init)) d Hw) as [Hi Em]; [by intros ? ? [= <- <-]|cbn; lia|].
  split_and!; [done..|]. intros q Hq. by rewrite cm_lookup_write by (done || by intros ? ? [= <- <-]).
Qed.

#[export] Instance circular_window_laws : SduWindowLaws T sdu_window init := {
  win_inv w := cm_inv w;
  win_cap w := cm_max_size w;
  win_lookup w := cm_lookup w;
  win_has w k _ _ := cm_contains_lookup w k;
  win_get_lookup w k _ _ := cm_get_lookup w k;
  win_put_spec := circular_put_spec;
  win_remove_spec := circular_remove_spec;
  win_add_spec := circular_add_spec
}.

Lemma circular_add_ok w k ok w' : sdu_add_sn w k = Some (ok, w') -> ok = true.
Proof. unfold sdu_add_sn. destruct (cm_contains w k); [done|]. by intros [= <- _]. Qed.

Lemma circular_empty_inv (l : list (slot T)) a :
  0 <= a -> Z.of_nat (length l) = 2 ^ a -> (forall i k v, l !! i = Some (Some (k, v)) -> False) -> occupied l = O ->
  cm_inv (CMap l 0) /\ forall k, cm_lookup (CMap l 0) k = None.
Proof.
  intros Ha Hl Hn Ho. split.
  - split; [by exists a|]. split; [cbn [cm_data cm_count]; by rewrite Ho|]. intros i k v Hi. by destruct (Hn i k v).
  - intros k. unfold cm_lookup, cm_slot. destruct (cm_data (CMap l 0) !! _) as [[[k0 v0]|]|] eqn:E; [|done..].
    by destruct (Hn _ _ _ E).
Qed.

Lemma circular_clear_spec w :
  cm_inv w -> cm_inv (cm_clear w) /\ cm_max_size (cm_clear w) = cm_max_size w /\ forall k, 0 <= k -> cm_lookup (cm_clear w) k = None.
Proof.
  intros ((a & Ha & Es) & _). destruct (circular_empty_inv ((fun _ => None) <$> cm_data w) a Ha) as [H1 H2].
  - by rewrite length_fmap.
  - intros i k v. rewrite list_lookup_fmap. by destruct (cm_data w !! i).
  - by induction (cm_data w).
  - split; [done|]. split; [unfold cm_max_size, cm_clear; cbn; by rewrite length_fmap|]. intros k _. apply H2.
Qed.

#[export] Instance circular_window_clear_laws : SduWindowClearLaws T sdu_window := {
  win_clear_spec := circular_clear_spec;
  win_add_ok w k ok w' _ _ := circular_add_ok w k ok w'
}.

(** A new window. *)
Lemma circular_new_spec size a :
  0 <= a -> size = 2 ^ a ->
  exists w, @cm_new T size = Some w /\ cm_inv w /\ cm_max_size w = size /\ forall k, cm_lookup w k = None.
Proof.
  intros Ha ->. pose proof (Z.pow_pos_nonneg 2 a ltac:(lia) Ha). unfold cm_new.
  rewrite (land_low a), Z.mod_same by (done || lia). cbn [negb Z.eqb]. eexists. split; [done|].
  destruct (circular_empty_inv (replicate (Z.to_nat (2 ^ a)) (@None (Z * T))) a Ha) as [H1 H2].
  - rewrite length_replicate. lia.
  - by intros i k v [? _]%lookup_replicate.
  - apply occupied_replicate.
  - split_and!; [done| |done]. unfold cm_max_size; cbn. rewrite length_replicate. lia.
Qed.
End window.

(** The window at the start. *)
Lemma circular_fresh {T} (init : T) a :
  0 <= a -> let w := CMap (replicate (Z.to_nat (2 ^ a)) None) 0 in
  @win_inv _ _ _ _ (circular_window_laws init) w /\ forall k, 0 <= k -> @win_lookup _ _ _ _ (circular_window_laws init) w k = None.
Proof.
  intros Ha w. pose proof (Z.pow_pos_nonneg 2 a ltac:(lia) Ha).
  destruct (circular_empty_inv (replicate (Z.to_nat (2 ^ a)) (@None (Z * T))) a Ha) as [Hi Hn].
  - rewrite length_replicate. lia.
  - by intros j k v [? _]%lookup_replicate.
  - apply occupied_replicate.
  - split; [exact Hi|]. intros k _. apply Hn.
Qed.

(** ** A window of SDUs as a finite map

    What the laws of [SduWindow] say about the keys that are present, in terms of a [gmap]: the PDCP entities are proved
    with these lemmas. *)
Section window_map.
Context {T W : Type} {init : T} `{SduWindowLaws T W init} `{!SduWindowClear T W} `{!SduWindowClearLaws T W}.
Implicit Types (w : W) (M : gmap Z T).

(** The window holds the elements of [M]; its keys are not negative. *)
Definition win_holds w M : Prop :=
  win_inv w /\ (forall k, 0 <= k -> win_lookup w k = M !! k) /\ (forall k, is_Some (M !! k) -> 0 <= k).

(** No key of the residue of [k] is present. *)
Definition residue_free w M (k : Z) : Prop := forall q, is_Some (M !! q) -> q mod win_cap w <> k mod win_cap w.

Lemma holds_has w M k : win_holds w M -> 0 <= k -> has_sn w k = bool_decide (is_Some (M !! k)).
Proof. intros (Hw & Hl & _) Hk. by rewrite win_has, Hl. Qed.

Lemma holds_get w M k : win_holds w M -> 0 <= k -> win_get w k = M !! k.
Proof. intros (Hw & Hl & _) Hk. by rewrite win_get_lookup, Hl. Qed.

Lemma holds_put w M k v :
  win_holds w M -> is_Some (M !! k) ->
  exists w', win_put w k v = Some w' /\ win_holds w' (<[k := v]> M) /\ win_cap w' = win_cap w.
Proof.
  intros (Hw & Hl & Hp) Hk. assert (0 <= k) by by apply Hp.
  destruct (win_put_spec w k v) as (w' & E & Hw' & Hc & Hl'); [done..|by rewrite Hl|].
  exists w'. split; [done|]. split; [|done]. split; [done|]. split.
  - intros q Hq. rewrite Hl', lookup_insert by done. by repeat case_decide; [|congruence|congruence|apply Hl].
  - intros q. rewrite lookup_insert. case_decide; [by subst|apply Hp].
Qed.

Lemma holds_remove w M k :
  win_holds w M -> is_Some (M !! k) ->
  exists w', remove_sn w k = Some w' /\ win_holds w' (delete k M) /\ win_cap w' = win_cap w.
Proof.
  intros (Hw & Hl & Hp) Hk. assert (0 <= k) by by apply Hp.
  destruct (win_remove_spec w k) as (w' & E & Hw' & Hc & Hl'); [done..|by rewrite Hl|].
  exists w'. split; [done|]. split; [|done]. split; [done|]. split.
  - intros q Hq. rewrite Hl', lookup_delete by done. by repeat case_decide; [|congruence|congruence|apply Hl].
  - intros q. rewrite lookup_delete. case_decide; [by intros []|apply Hp].
Qed.

Lemma holds_add w M k :
  win_holds w M -> 0 <= k -> residue_free w M k ->
  exists w', add_sn w k = Some (true, w') /\ win_holds w' (<[k := init]> M) /\ win_cap w' = win_cap w.
Proof.
  intros (Hw & Hl & Hp) Hk Hfree. assert (Hn : M !! k = None) by (destruct (M !! k) eqn:E; [by destruct (Hfree k)|done]).
  destruct (win_add_spec w k) as (ok & w' & E & Hw' & Hc & Hl'); [done..|by rewrite Hl|].
  pose proof (win_add_ok _ _ _ _ Hw Hk E) as ->. exists w'. split; [done|]. split; [|done]. split; [done|]. split.
  - intros q Hq. rewrite Hl', lookup_insert by done. destruct (decide (q = k)) as [->|Hne]; [by rewrite decide_True|].
    rewrite (decide_False (P := k = q)) by congruence. case_decide as Em; [|by apply Hl].
    destruct (M !! q) as [x|] eqn:Eq; [|done]. by destruct (Hfree q).
  - intros q. rewrite lookup_insert. case_decide; [by subst|apply Hp].
Qed.

(** Adding a key and assigning its element. *)
Lemma holds_add_put w M k v :
  win_holds w M -> 0 <= k -> residue_free w M k ->
  exists w1 w2, add_sn w k = Some (true, w1) /\ win_put w1 k v = Some w2 /\ win_holds w2 (<[k := v]> M) /\ win_cap w2 = win_cap w.
Proof.
  intros Hw Hk Hf. destruct (holds_add w M k Hw Hk Hf) as (w1 & E1 & Hw1 & Hc1).
  destruct (holds_put w1 _ k v Hw1) as (w2 & E2 & Hw2 & Hc2); [rewrite lookup_insert_eq; by eexists|].
  exists w1, w2. rewrite insert_insert_eq in Hw2. split_and!; [done..|congruence].
Qed.

Lemma holds_clear w M : win_holds w M -> win_holds (win_clear w) ∅ /\ win_cap (win_clear w) = win_cap w.
Proof.
  intros (Hw & _). destruct (win_clear_spec w Hw) as (Hi & Hc & Hl).
  split; [|done]. split; [done|]. split; [|by intros k [? ?%lookup_empty_Some]].
  intros k Hk. rewrite lookup_empty. by apply Hl.
Qed.

Lemma holds_empty w : win_inv w -> (forall k, 0 <= k -> win_lookup w k = None) -> win_holds w ∅.
Proof. intros Hw Hl. split; [done|]. split; [|by intros k [? ?%lookup_empty_Some]]. intros k Hk. rewrite lookup_empty. by apply Hl. Qed.

Lemma residue_free_empty w k : residue_free w ∅ k.
Proof. intros q [? Hq]. by rewrite lookup_empty in Hq. Qed.

(** Keys within one turn of the window have their own residue. *)
Lemma residue_free_interval w M lo k :
  (forall q, is_Some (M !! q) -> lo <= q < lo + win_cap w) -> lo <= k < lo + win_cap w -> M !! k = None -> residue_free w M k.
Proof.
  intros Hq Hk Hn q Hs E. specialize (Hq q Hs). assert (Hne : q <> k) by (intros ->; rewrite Hn in Hs; by destruct Hs).
  assert (Hd : (q - k) mod win_cap w = 0) by (rewrite Zminus_mod, E, Z.sub_diag; by apply Z.mod_0_l; lia).
  apply Z.mod_divide in Hd as [d Hd]; [|lia]. assert (d = 0) by nia. lia.
Qed.
End window_map.
