(* ===== verification/PdcpBase.v ===== *)
(** * What the PDCP entities share ([lib/pdcp/pdcp_sn.h], [pdcp_pdu.h], [pdcp_entity_tx_rx_base.h], [pdcp_config.h])

    A COUNT is a 32-bit number, the hyper frame number (HFN) above a sequence number (SN) of 12 or 18 bits; only the SN is
    transmitted. [count_from_sn] is the rule both entities use to find the COUNT that belongs to a received SN; its theorem
    says when the COUNT it finds is the right one. The second theorem is about the header of a data PDU: what PDCP writes,
    PDCP and RLC read. *)
From S2P Require Import Prelude PdcpSn.

Inductive pdcp_rb_type := rb_srb | rb_drb.
Inductive pdcp_rlc_mode := mode_um | mode_am.
#[export] Instance pdcp_rb_type_eq_dec : EqDecision pdcp_rb_type. Proof. solve_decision. Defined.
#[export] Instance pdcp_rlc_mode_eq_dec : EqDecision pdcp_rlc_mode. Proof. solve_decision. Defined.

(** The value of the enumerator; the entities never hold [invalid] (see [pdcp_base_new]), so that the assertion of
    [pdcp_sn_size_to_uint] does not fail in them. *)
Definition pdcp_sn_size_value (s : pdcp_sn_size) : Z :=
  match s with pdcp_size12bits => 12 | pdcp_size18bits => 18 | pdcp_size_invalid => 19 end.

(** ** [pdcp_sn.h] *)
Definition pdcp_compute_sn (count : Z) (s : pdcp_sn_size) : Z := Z.land count (Z.shiftr 0xffffffff (32 - pdcp_sn_size_value s)).
Definition pdcp_compute_hfn (count : Z) (s : pdcp_sn_size) : Z := Z.shiftr count (pdcp_sn_size_value s).
Definition pdcp_compute_count (hfn sn : Z) (s : pdcp_sn_size) : Z := Z.lor (u32 (Z.shiftl hfn (pdcp_sn_size_value s))) sn.
Definition pdcp_sn_cardinality (s : pdcp_sn_size) : Z := Z.shiftl 1 (pdcp_sn_size_value s).

(** ** [pdcp_config.h] *)
Definition pcdp_sn_cardinality (sn_size : Z) : Z := Z.shiftl 1 sn_size.
Definition pdcp_window_size_of_bits (sn_size : Z) : Z := pcdp_sn_cardinality (sn_size - 1).
Definition pdcp_data_header_size (s : pdcp_sn_size) : Z := if decide (s = pdcp_size12bits) then 2 else 3.
Definition pdcp_data_trailer_size (rb : pdcp_rb_type) (integrity_enabled : bool) : Z :=
  if decide (rb = rb_srb) then 4 else if integrity_enabled then 4 else 0.

(** [pdcp_max_count]: the COUNT from which on the upper layer is notified, and the one that is never used *)
Record pdcp_max_count := MaxCount { max_notify : Z; max_hard : Z }.
Definition pdcp_tx_default_max_count : pdcp_max_count := MaxCount 0xc0000000 (0xffffffff - 1).
Definition pdcp_rx_default_max_count : pdcp_max_count := MaxCount 0xc0000000 0xd0000000.

(** [pdcp_count_info] *)
Record pdcp_count_info := CountInfo { ci_sn : Z; ci_hfn : Z }.

(** ** [pdcp_entity_tx_rx_base.h] *)
Definition pdcp_data_pdu_header_size (s : pdcp_sn_size) : option Z :=
  match s with pdcp_size12bits => Some 2 | pdcp_size18bits => Some 3 | pdcp_size_invalid => None end.
Definition pdcp_window_size (s : pdcp_sn_size) : option Z :=
  match s with pdcp_size12bits => Some 2048 | pdcp_size18bits => Some 131072 | pdcp_size_invalid => None end.

(** The constants of [pdcp_entity_tx_rx_base]; the flags [max_count_notified] and [max_count_overflow] are fields of the
    entities. *)
Record pdcp_base := Base {
  pb_rb_type : pdcp_rb_type;
  pb_rlc_mode : pdcp_rlc_mode;
  pb_hdr_len_bytes : Z;
  pb_window_size : Z;
  pb_sn_size : pdcp_sn_size
}.
Implicit Types b : pdcp_base.

Definition pdcp_base_new (rb : pdcp_rb_type) (mode : pdcp_rlc_mode) (s : pdcp_sn_size) : option pdcp_base :=
  h ← pdcp_data_pdu_header_size s;
  w ← pdcp_window_size s;
  Some (Base rb mode h w s).

Definition is_srb b : bool := bool_decide (pb_rb_type b = rb_srb).
Definition is_um b : bool := bool_decide (pb_rlc_mode b = mode_um).
Definition is_am b : bool := bool_decide (pb_rlc_mode b = mode_am).

Definition SN b (count : Z) : Z := pdcp_compute_sn count (pb_sn_size b).
Definition HFN b (count : Z) : Z := pdcp_compute_hfn count (pb_sn_size b).
Definition COUNT b (hfn sn : Z) : Z := pdcp_compute_count hfn sn (pb_sn_size b).

(** The COUNT that belongs to a SN, given the COUNT [lower] at the lower edge of the window; the comparison with
    [SN(lower) - window_size] is made in 64 bits, the one with the sum in 32 *)
Definition count_from_sn b (lower sn : Z) : Z :=
  let hfn :=
    if sn <? SN b lower - pb_window_size b then u32 (HFN b lower + 1)
    else if u32 (SN b lower + pb_window_size b) <=? sn then u32 (HFN b lower - 1)
    else HFN b lower in
  COUNT b hfn sn.

(** ** [pdcp_pdu.h] *)
Inductive pdcp_dc_field := dc_control | dc_data.
#[export] Instance pdcp_dc_field_eq_dec : EqDecision pdcp_dc_field. Proof. solve_decision. Defined.
Definition pdcp_dc_to_number (dc : pdcp_dc_field) : Z := match dc with dc_control => 0 | dc_data => 1 end.
Definition pdcp_pdu_get_dc (first_byte : Z) : pdcp_dc_field :=
  if Z.land (Z.shiftr first_byte 7) 1 =? 0 then dc_control else dc_data.

(** [cpt_reserved]: a value of three bits that has no enumerator *)
Inductive pdcp_control_pdu_type :=
| status_report | interspersed_rohc_feedback | ehc_feedback | udc_feedback | cpt_reserved (n : Z).
#[export] Instance pdcp_control_pdu_type_eq_dec : EqDecision pdcp_control_pdu_type. Proof. solve_decision. Defined.
Definition cpt_to_number (cpt : pdcp_control_pdu_type) : Z :=
  match cpt with
  | status_report => 0 | interspersed_rohc_feedback => 1 | ehc_feedback => 2 | udc_feedback => 3 | cpt_reserved n => n
  end.
Definition pdcp_control_pdu_get_cpt (first_byte : Z) : pdcp_control_pdu_type :=
  let n := Z.land (Z.shiftr first_byte 4) 7 in
  if n =? 0 then status_report else if n =? 1 then interspersed_rohc_feedback
  else if n =? 2 then ehc_feedback else if n =? 3 then udc_feedback else cpt_reserved n.

Definition pdcp_control_pdu_max_size : Z := 9000.

(** ** Headers *)

(** [prepend_data_pdu_header]; [room] tells whether [reserve_prepend] found the memory. An SRB with 18 bits fails an
    assertion. *)
Definition prepend_data_pdu_header b (room : bool) (sn : Z) (buf : list Z) : option (bool * list Z) :=
  if is_srb b && bool_decide (pb_sn_size b = pdcp_size18bits) then None else
  if negb room then Some (false, buf) else
  let dc := if is_srb b then 0 else 0x80 in
  match pb_sn_size b with
  | pdcp_size12bits =>
      Some (true, u8 (Z.lor dc (Z.shiftr (Z.land sn 0xf00) 8)) :: u8 (Z.land sn 0xff) :: buf)
  | pdcp_size18bits =>
      Some (true, u8 (Z.lor dc (Z.shiftr (Z.land sn 0x30000) 16)) :: u8 (Z.shiftr (Z.land sn 0xff00) 8)
                  :: u8 (Z.land sn 0xff) :: buf)
  | pdcp_size_invalid => Some (false, u8 dc :: 0 :: 0 :: buf)
  end.

(** [prepend_control_pdu_header] *)
Definition prepend_control_pdu_header (room : bool) (cpt : pdcp_control_pdu_type) (buf : list Z) : bool * list Z :=
  if negb room then (false, buf) else
  let first := u8 (Z.shiftl (Z.land (pdcp_dc_to_number dc_control) 1) 7) in
  (true, u8 (Z.lor first (Z.shiftl (Z.land (cpt_to_number cpt) 3) 4)) :: buf).

(** [read_data_pdu_header]: [None] is the value [false]; every octet that is read is there, since the PDU is longer than the
    header. *)
Definition read_data_pdu_header b (buf : list Z) : option Z :=
  if Z.of_nat (length buf) <=? pb_hdr_len_bytes b then None else
  let at_ i := nth i buf 0 in
  match pb_sn_size b with
  | pdcp_size12bits => Some (Z.lor (Z.shiftl (Z.land (at_ 0%nat) 0x0f) 8) (Z.land (at_ 1%nat) 0xff))
  | pdcp_size18bits =>
      Some (Z.lor (Z.lor (Z.shiftl (Z.land (at_ 0%nat) 0x03) 16) (Z.shiftl (Z.land (at_ 1%nat) 0xff) 8)) (Z.land (at_ 2%nat) 0xff))
  | pdcp_size_invalid => None
  end.

(** ** Facts *)
Definition pdcp_base_ok b : Prop := pdcp_base_new (pb_rb_type b) (pb_rlc_mode b) (pb_sn_size b) = Some b.

(** Half of the SN space, in each of the places where the code computes it. *)
Definition half b : Z := 2 ^ (pdcp_sn_size_value (pb_sn_size b) - 1).

Lemma pdcp_base_fields b :
  pdcp_base_ok b ->
  pb_window_size b = half b /\ pdcp_window_size_of_bits (pdcp_sn_size_value (pb_sn_size b)) = half b /\
  pdcp_sn_cardinality (pb_sn_size b) = 2 * half b /\ pb_hdr_len_bytes b = pdcp_data_header_size (pb_sn_size b) /\
  (half b = 2048 /\ pb_sn_size b = pdcp_size12bits \/ half b = 131072 /\ pb_sn_size b = pdcp_size18bits).
Proof.
  unfold pdcp_base_ok, pdcp_base_new, half. destruct b as [rb mode h w s]; cbn [pb_rb_type pb_rlc_mode pb_sn_size pb_hdr_len_bytes pb_window_size].
  destruct s; [intros [= <- <-]..|done]; split_and!; try reflexivity; auto.
Qed.

Lemma pdcp_fields b count :
  pdcp_base_ok b -> 0 <= count < 2 ^ 32 ->
  SN b count = count mod (2 * half b) /\ HFN b count = count / (2 * half b) /\
  forall hfn, COUNT b hfn (SN b count) = u32 (hfn * (2 * half b)) + count mod (2 * half b).
Proof.
  intros Hb Hc. destruct (pdcp_base_fields b Hb) as (_ & _ & _ & _ & [[-> E]|[-> E]]);
    unfold SN, HFN, COUNT, pdcp_compute_sn, pdcp_compute_hfn, pdcp_compute_count; rewrite E; cbn [pdcp_sn_size_value].
  - change (Z.shiftr 4294967295 (32 - 12)) with 4095. rewrite (land_low 12) by lia. rewrite Z.shiftr_div_pow2 by lia.
    split_and!; [done..|]. intros hfn. rewrite Z.shiftl_mul_pow2, u32_eq by lia. norm_pow. by rewrite (lor_disj 12) by lia.
  - change (Z.shiftr 4294967295 (32 - 18)) with 262143. rewrite (land_low 18) by lia. rewrite Z.shiftr_div_pow2 by lia.
    split_and!; [done..|]. intros hfn. rewrite Z.shiftl_mul_pow2, u32_eq by lia. norm_pow. by rewrite (lor_disj 18) by lia.
Qed.

Lemma SN_range b count : pdcp_base_ok b -> 0 <= count < 2 ^ 32 -> 0 <= SN b count < 2 * half b.
Proof.
  intros Hb Hc. destruct (pdcp_fields b count Hb Hc) as (-> & _). apply Z.mod_pos_bound.
  destruct (pdcp_base_fields b Hb) as (_ & _ & _ & _ & [[-> _]|[-> _]]); lia.
Qed.

(** The integer with SN [sn] in the window of [2 * W] numbers around [lower]. *)
Definition in_window (w lower c : Z) : Prop := lower - w <= c < lower + w.

Lemma count_from_sn_spec b lower sn :
  pdcp_base_ok b -> 0 <= lower < 2 ^ 32 -> 0 <= sn < 2 * half b ->
  exists c, in_window (half b) lower c /\ c mod (2 * half b) = sn /\ count_from_sn b lower sn = u32 c.
Proof.
  intros Hb Hl Hsn. destruct (pdcp_base_fields b Hb) as (Ew & _ & _ & _ & Ehalf).
  assert (Hs32 : 0 <= sn < 2 ^ 32) by (destruct Ehalf as [[E _]|[E _]]; rewrite E in Hsn; lia).
  unfold count_from_sn. rewrite Ew. destruct (pdcp_fields b lower Hb Hl) as (-> & -> & _).
  destruct (pdcp_fields b sn Hb Hs32) as (Es & _ & Ec). rewrite Es, (Z.mod_small sn) in Ec by lia.
  rewrite Ec. clear Ec Es. set (l := lower mod (2 * half b)). set (h := lower / (2 * half b)).
  assert (Elower : lower = h * (2 * half b) + l) by (unfold h, l; rewrite Z.mul_comm; apply Z.div_mod; lia).
  assert (Hlr : 0 <= l < 2 * half b) by (apply Z.mod_pos_bound; lia).
  rewrite (u32_eq (l + half b)), (Z.mod_small (l + half b)) by (destruct Ehalf as [[E _]|[E _]]; rewrite E in *; lia).
  assert (Hmul : forall x, u32 (u32 x * (2 * half b)) = u32 (x * (2 * half b))).
  { intros x. unfold u32, uint. by rewrite Z.mul_mod_idemp_l. }
  assert (Hadd : forall x, u32 (x * (2 * half b)) + sn = u32 (x * (2 * half b) + sn)).
  { intros x. rewrite !u32_eq. destruct Ehalf as [[E _]|[E _]]; rewrite E in *; lia. }
  assert (Hmod : forall x, (x * (2 * half b) + sn) mod (2 * half b) = sn).
  { intros x. rewrite Z.add_comm, Z.mod_add by lia. by apply Z.mod_small. }
  unfold in_window. destruct (Z.ltb_spec sn (l - half b)).
  - exists ((h + 1) * (2 * half b) + sn). rewrite Hmul, Hadd, Hmod. split_and!; try done; lia.
  - destruct (Z.leb_spec (l + half b) sn).
    + exists ((h - 1) * (2 * half b) + sn). rewrite Hmul, Hadd, Hmod. split_and!; try done; lia.
    + exists (h * (2 * half b) + sn). rewrite Hadd, Hmod. split_and!; try done; lia.
Qed.

Lemma in_window_unique w lower c1 c2 :
  0 < w -> in_window w lower c1 -> in_window w lower c2 -> c1 mod (2 * w) = c2 mod (2 * w) -> c1 = c2.
Proof.
  unfold in_window. intros Hw H1 H2 E. pose proof (Z.div_mod c1 (2 * w)). pose proof (Z.div_mod c2 (2 * w)).
  set (k := c1 / (2 * w) - c2 / (2 * w)). assert (Ek : c1 - c2 = 2 * w * k) by (unfold k; rewrite Z.mul_sub_distr_l; lia).
  clearbody k. assert (k = 0) as -> by nia. lia.
Qed.

Lemma count_from_sn_range b lower sn :
  pdcp_base_ok b -> 0 <= lower < 2 ^ 32 -> 0 <= sn < 2 * half b -> 0 <= count_from_sn b lower sn < 2 ^ 32.
Proof. intros Hb Hl Hs. destruct (count_from_sn_spec b lower sn Hb Hl Hs) as (c & _ & _ & ->). by apply uint_range. Qed.

(** C34. The COUNT that an entity finds for a SN is right whenever the true COUNT lies in the window of SN-space size around the
    lower edge it uses, so across any number of SN wraps; and it is wrong for no other reason: for every SN the result is, in
    32 bits, the one integer in that window with this SN. *)
Theorem count_inference_exact b lower sn :
  pdcp_base_ok b -> 0 <= lower < 2 ^ 32 -> 0 <= sn < pdcp_sn_cardinality (pb_sn_size b) ->
  (exists c, lower - pb_window_size b <= c < lower + pb_window_size b /\
     c mod pdcp_sn_cardinality (pb_sn_size b) = sn /\ count_from_sn b lower sn = u32 c) /\
  forall count, 0 <= count < 2 ^ 32 -> lower - pb_window_size b <= count < lower + pb_window_size b -> SN b count = sn ->
    count_from_sn b lower sn = count.
Proof.
  intros Hb Hl. destruct (pdcp_base_fields b Hb) as (-> & _ & -> & _ & Eh). intros Hsn.
  destruct (count_from_sn_spec b lower sn Hb Hl Hsn) as (c & Hc & Em & E). split; [by exists c|].
  intros count Hr Hw Hs. rewrite (proj1 (pdcp_fields b count Hb Hr)) in Hs.
  rewrite E, (in_window_unique (half b) lower c count); [by apply uint_small|lia|done..|congruence].
Qed.

Lemma count_inference_exact_witness :
  let b := Base rb_drb mode_am 2 2048 pdcp_size12bits in
  (exists c, 4095 - 2048 <= c < 4095 + 2048 /\ c mod 4096 = 5 /\ count_from_sn b 4095 5 = u32 c) /\
  forall count, 0 <= count < 2 ^ 32 -> 4095 - 2048 <= count < 4095 + 2048 -> SN b count = 5 -> count_from_sn b 4095 5 = count.
Proof. apply (count_inference_exact (Base rb_drb mode_am 2 2048 pdcp_size12bits) 4095 5); [reflexivity|lia|done]. Defined.

(** *** Headers *)
Lemma prepend_octets b sn buf :
  pdcp_base_ok b -> (is_srb b = true -> pb_sn_size b = pdcp_size12bits) -> 0 <= sn < 2 * half b ->
  prepend_data_pdu_header b true sn buf = Some (true, pdcp_header_octets (pb_sn_size b) (is_srb b) sn ++ buf) /\
  bytes_ok (pdcp_header_octets (pb_sn_size b) (is_srb b) sn) /\
  Z.of_nat (length (pdcp_header_octets (pb_sn_size b) (is_srb b) sn)) = pb_hdr_len_bytes b.
Proof.
  intros Hb Hsrb Hsn. destruct (pdcp_base_fields b Hb) as (_ & _ & _ & Eh & Ehalf). unfold prepend_data_pdu_header.
  rewrite Eh. destruct Ehalf as [[E Es]|[E Es]]; rewrite Es, E in *.
  - rewrite (bool_decide_false (_ = _)) by done. rewrite andb_false_r. cbn [negb pdcp_header_octets app].
    destruct (is_srb b); (split; [|split; [repeat constructor; unfold is_byte; lia|done]]); do 2 f_equal;
      repeat (apply f_equal2; [rewrite u8_eq; bit_arith; rewrite ?Z.lor_0_l; try lia|]); try done; lor_to_arith; lia.
  - destruct (is_srb b) eqn:Eb; [by specialize (Hsrb eq_refl)|]. cbn [negb pdcp_header_octets app andb].
    split; [|split; [repeat constructor; unfold is_byte; lia|done]]. do 2 f_equal.
    repeat (apply f_equal2; [rewrite u8_eq; bit_arith; try lia|]); try done; lor_to_arith; lia.
Qed.

Lemma read_octets b sn payload :
  pdcp_base_ok b -> (is_srb b = true -> pb_sn_size b = pdcp_size12bits) -> 0 <= sn < 2 * half b -> payload <> [] ->
  read_data_pdu_header b (pdcp_header_octets (pb_sn_size b) (is_srb b) sn ++ payload) = Some sn.
Proof.
  intros Hb Hsrb Hsn Hp. unfold read_data_pdu_header. rewrite length_app, Nat2Z.inj_add.
  destruct (prepend_octets b sn payload Hb Hsrb Hsn) as (_ & _ & ->).
  assert (0 < Z.of_nat (length payload)) by (destruct payload; cbn; [done|lia]).
  rewrite (proj2 (Z.leb_gt _ _)) by lia.
  destruct (pdcp_base_fields b Hb) as (_ & _ & _ & _ & [[E Es]|[E Es]]); rewrite Es, E in *.
  - f_equal. destruct (is_srb b); cbn [nth app pdcp_header_octets]; bit_arith; lia.
  - destruct (is_srb b) eqn:Eb; [by specialize (Hsrb eq_refl)|]. f_equal. cbn [nth app pdcp_header_octets]. bit_arith; lia.
Qed.

Lemma read_range b buf sn : pdcp_base_ok b -> read_data_pdu_header b buf = Some sn -> 0 <= sn < 2 * half b.
Proof.
  intros Hb. unfold read_data_pdu_header. destruct (_ <=? _); [done|].
  destruct (pdcp_base_fields b Hb) as (_ & _ & _ & _ & [[-> ->]|[-> ->]]); intros [= <-]; bit_arith; lia.
Qed.

Lemma read_some b buf :
  pdcp_base_ok b -> pb_hdr_len_bytes b < Z.of_nat (length buf) -> exists sn, read_data_pdu_header b buf = Some sn.
Proof.
  intros Hb Hl. unfold read_data_pdu_header. rewrite (proj2 (Z.leb_gt _ _)) by done.
  destruct (pdcp_base_fields b Hb) as (_ & _ & _ & _ & [[_ ->]|[_ ->]]); by eexists.
Qed.

(** The header of a PDCP data PDU means the same to everyone: for every SN and every non-empty payload, the octets that
    [prepend_data_pdu_header] puts in front are read back as this SN by the PDCP receiver and by the RLC transmitter (which
    discards SDUs by it), the D/C bit tells a data PDU on a DRB, and removing the header leaves the payload. *)
Theorem pdcp_header_roundtrip b sn payload :
  pdcp_base_ok b -> (is_srb b = true -> pb_sn_size b = pdcp_size12bits) -> 0 <= sn < pdcp_sn_cardinality (pb_sn_size b) ->
  bytes_ok payload -> payload <> [] ->
  exists pdu, prepend_data_pdu_header b true sn payload = Some (true, pdu) /\ bytes_ok pdu /\
    read_data_pdu_header b pdu = Some sn /\ get_pdcp_sn pdu (pb_sn_size b) (is_srb b) = Some (Some sn) /\
    pdcp_pdu_get_dc (nth 0 pdu 0) = (if is_srb b then dc_control else dc_data) /\
    drop (Z.to_nat (pdcp_data_header_size (pb_sn_size b))) pdu = payload.
Proof.
  intros Hb Hsrb. destruct (pdcp_base_fields b Hb) as (_ & _ & -> & Eh & Ehalf). intros Hsn Hp Hne.
  destruct (prepend_octets b sn payload Hb Hsrb Hsn) as (-> & Ho & Hlen). eexists. split; [done|].
  assert (Hok : bytes_ok (pdcp_header_octets (pb_sn_size b) (is_srb b) sn ++ payload)) by (apply Forall_app; done).
  split; [done|]. split; [by apply read_octets|].
  assert (Hnv : pb_sn_size b <> pdcp_size_invalid) by (destruct Ehalf as [[_ ->]|[_ ->]]; done). split.
  { destruct (get_pdcp_sn_spec _ (pb_sn_size b) (is_srb b) Hok Hnv Hsrb) as (r & -> & Hr). f_equal. apply Hr.
    split; [|by exists payload]. destruct Ehalf as [[E Es]|[E Es]]; rewrite Es, E in *; exact Hsn. }
  split; [|rewrite <- Eh, <- Hlen, Nat2Z.id; apply drop_app_length].
  unfold pdcp_pdu_get_dc. destruct Ehalf as [[E Es]|[E Es]]; rewrite Es, E in *.
  - destruct (is_srb b); cbn [nth app pdcp_header_octets]; bit_arith;
      [rewrite (proj2 (Z.eqb_eq _ _)) by lia|rewrite (proj2 (Z.eqb_neq _ _)) by lia]; done.
  - destruct (is_srb b) eqn:Eb; [by specialize (Hsrb eq_refl)|]. cbn [nth app pdcp_header_octets]. bit_arith.
    by rewrite (proj2 (Z.eqb_neq _ _)) by lia.
Qed.

Lemma pdcp_header_roundtrip_witness :
  let b := Base rb_drb mode_um 3 131072 pdcp_size18bits in
  exists pdu, prepend_data_pdu_header b true 200000 [1; 2] = Some (true, pdu) /\ bytes_ok pdu /\
    read_data_pdu_header b pdu = Some 200000 /\ get_pdcp_sn pdu pdcp_size18bits false = Some (Some 200000) /\
    pdcp_pdu_get_dc (nth 0 pdu 0) = dc_data /\ drop 3 pdu = [1; 2].
Proof.
  apply (pdcp_header_roundtrip (Base rb_drb mode_um 3 131072 pdcp_size18bits) 200000 [1; 2]);
    [reflexivity|done|vm_compute; split; congruence|repeat constructor; vm_compute; congruence|done].
Defined.

(** The mask of [prepend_control_pdu_header] has two bits, the field has three: a type above 3 is written as another one. *)
Lemma control_header_truncates_cpt :
  prepend_control_pdu_header true (cpt_reserved 5) [7] = (true, [0x10; 7]) /\
  pdcp_control_pdu_get_cpt 0x10 = interspersed_rohc_feedback.
Proof. done. Qed.
