(* ===== verification/PdcpTxWindow.v ===== *)
(** * The PDCP transmit window ([lib/pdcp/pdcp_tx_window.h] and [.cpp])

    The SDUs between TX_NEXT_ACK and TX_NEXT, by COUNT, over any window of SDUs ([SduWindow]), with two counters from which
    the entity computes how many bytes the layers below hold. The theorem: as long as no COUNT of the same residue is
    evicted, the window is a finite map and the counters are exact. *)
From S2P Require Import Prelude SduWindow CircularMap PdcpSn PdcpBase.

(** [pdcp_tx_window_sdu_info]; [time_of_arrival] feeds a latency metric only and is not modelled. *)
Record pdcp_tx_window_sdu_info := TxSduInfo {
  wi_sdu : list Z;
  wi_count : Z;
  wi_tick_point_of_arrival : option Z
}.

Record pdcp_tx_window_element := TxElem {
  we_sdu_info : pdcp_tx_window_sdu_info;
  we_pdu : list Z;
  we_sdu_length : Z
}.
Definition pdcp_tx_window_element_init : pdcp_tx_window_element := TxElem (TxSduInfo [] 0 None) [] 0.

Definition set_pdu (pdu : list Z) (x : pdcp_tx_window_element) : pdcp_tx_window_element :=
  TxElem (we_sdu_info x) pdu (we_sdu_length x).

Section tx_window.
Context {W : Type} `{SduWindow pdcp_tx_window_element W} `{!SduWindowClear pdcp_tx_window_element W}.

Record pdcp_tx_window := TxWindow {
  xw_window : W;
  xw_rb_type : pdcp_rb_type;
  xw_sn_size : pdcp_sn_size;
  xw_sdu_bytes : Z;
  xw_nof_sdus : Z
}.
Implicit Types w : pdcp_tx_window.

Definition pdcp_tx_window_new (win : W) (rb : pdcp_rb_type) (s : pdcp_sn_size) : pdcp_tx_window := TxWindow win rb s 0 0.

Definition xw_has_sn w (count : Z) : bool := has_sn (xw_window w) count.

(** [operator[]], and assignment through the reference it returns *)
Definition xw_get w (count : Z) : option pdcp_tx_window_element := win_get (xw_window w) count.
Definition xw_put w (count : Z) (x : pdcp_tx_window_element) : option pdcp_tx_window :=
  win ← win_put (xw_window w) count x;
  Some (TxWindow win (xw_rb_type w) (xw_sn_size w) (xw_sdu_bytes w) (xw_nof_sdus w)).

(** [add_sdu]; the element is assigned through the reference that [add_sn] returns. *)
Definition xw_add_sdu w (sdu_info : pdcp_tx_window_sdu_info) (sdu_length : Z) : option pdcp_tx_window :=
  '(_, win) ← add_sn (xw_window w) (wi_count sdu_info);
  win ← win_put win (wi_count sdu_info) (TxElem sdu_info (we_pdu pdcp_tx_window_element_init) sdu_length);
  Some (TxWindow win (xw_rb_type w) (xw_sn_size w) (u32 (xw_sdu_bytes w + sdu_length)) (u32 (xw_nof_sdus w + 1))).

(** [remove_sdu] *)
Definition xw_remove_sdu w (count : Z) : option pdcp_tx_window :=
  if xw_has_sn w count then
    x ← win_get (xw_window w) count;
    win ← remove_sn (xw_window w) count;
    Some (TxWindow win (xw_rb_type w) (xw_sn_size w) (u32 (xw_sdu_bytes w - we_sdu_length x)) (u32 (xw_nof_sdus w - 1)))
  else Some w.

Definition xw_clear w : pdcp_tx_window := TxWindow (win_clear (xw_window w)) (xw_rb_type w) (xw_sn_size w) 0 0.

(** [get_pdu_bytes] *)
Definition xw_get_pdu_bytes w (integrity_enabled : bool) : Z :=
  u32 (xw_sdu_bytes w +
       u32 (xw_nof_sdus w * u32 (pdcp_data_header_size (xw_sn_size w) + pdcp_data_trailer_size (xw_rb_type w) integrity_enabled))).
End tx_window.
Arguments pdcp_tx_window : clear implicits.

(** ** The window as a finite map *)
Section facts.
Context {W : Type} `{SduWindowLaws pdcp_tx_window_element W pdcp_tx_window_element_init}
  `{!SduWindowClear pdcp_tx_window_element W} `{!SduWindowClearLaws pdcp_tx_window_element W}.
Implicit Types (w : pdcp_tx_window W) (M : gmap Z pdcp_tx_window_element).

Definition map_bytes M : Z := map_fold (fun _ x acc => we_sdu_length x + acc) 0 M.

(** The window holds the elements of [M], whose keys are COUNTs. *)
Notation xw_holds w M := (win_holds (xw_window w) M).

(** And the counters are exact. *)
Definition xw_counted w M : Prop := xw_nof_sdus w = u32 (Z.of_nat (size M)) /\ xw_sdu_bytes w = u32 (map_bytes M).

Lemma map_bytes_insert M k x : M !! k = None -> map_bytes (<[k := x]> M) = we_sdu_length x + map_bytes M.
Proof. intros Hk. unfold map_bytes. rewrite map_fold_insert_L; [done| |done]. intros. lia. Qed.

Lemma map_bytes_delete M k x : M !! k = Some x -> map_bytes M = we_sdu_length x + map_bytes (delete k M).
Proof. intros Hk. unfold map_bytes. rewrite (map_fold_delete_L _ _ k x M); [done| |done]. intros. lia. Qed.

Lemma map_bytes_put M k x y : M !! k = Some x -> we_sdu_length y = we_sdu_length x -> map_bytes (<[k := y]> M) = map_bytes M.
Proof.
  intros Hk E. rewrite <- insert_delete_eq, map_bytes_insert by apply lookup_delete_eq.
  rewrite (map_bytes_delete M k x Hk). lia.
Qed.

Lemma u32_sub_u32 a b : u32 (u32 a - b) = u32 (a - b).
Proof. unfold u32, uint. by rewrite Zminus_mod_idemp_l. Qed.
Lemma u32_add_u32 a b : u32 (u32 a + b) = u32 (a + b).
Proof. unfold u32, uint. by rewrite Z.add_mod_idemp_l. Qed.

Lemma u32_mul_u32 a b : u32 (u32 a * u32 b) = u32 (a * b).
Proof. unfold u32, uint. symmetry. apply Zmult_mod. Qed.

(** What does not change. *)
Definition xw_same w w' : Prop :=
  win_cap (xw_window w') = win_cap (xw_window w) /\ xw_rb_type w' = xw_rb_type w /\ xw_sn_size w' = xw_sn_size w.

Lemma xw_put_spec w M k x y :
  xw_holds w M -> M !! k = Some x ->
  exists w', xw_put w k y = Some w' /\ xw_holds w' (<[k := y]> M) /\ xw_same w w' /\
    (we_sdu_length y = we_sdu_length x -> xw_counted w M -> xw_counted w' (<[k := y]> M)).
Proof.
  intros Hw Hk. destruct (holds_put (xw_window w) M k y Hw) as (win & E & Hw' & Hc); [by eexists|].
  unfold xw_put. rewrite E. eexists. split; [done|]. split; [done|]. split; [done|].
  intros E' [En Eb]. split; cbn [xw_nof_sdus xw_sdu_bytes]; [|by rewrite (map_bytes_put M k x)].
  by rewrite map_size_insert_Some by by eexists.
Qed.

Lemma xw_add_spec w M i len :
  xw_holds w M -> 0 <= wi_count i -> residue_free (xw_window w) M (wi_count i) ->
  exists w', xw_add_sdu w i len = Some w' /\ xw_holds w' (<[wi_count i := TxElem i [] len]> M) /\ xw_same w w' /\
    (xw_counted w M -> xw_counted w' (<[wi_count i := TxElem i [] len]> M)).
Proof.
  intros Hw Hk Hfree. set (k := wi_count i) in *.
  destruct (holds_add_put (xw_window w) M k (TxElem i [] len) Hw Hk Hfree) as (w1 & w2 & E1 & E2 & Hw2 & Hc2).
  assert (Hn : M !! k = None) by (destruct (M !! k) eqn:E; [by destruct (Hfree k)|done]).
  unfold xw_add_sdu. fold k. rewrite E1. cbn [mbind option_bind]. cbn [we_pdu pdcp_tx_window_element_init]. rewrite E2.
  eexists. split; [done|]. split; [done|]. split; [done|]. intros [En Eb]. split; cbn [xw_nof_sdus xw_sdu_bytes].
  - rewrite map_size_insert_None, En, u32_add_u32 by done. f_equal. lia.
  - rewrite map_bytes_insert, Eb, u32_add_u32 by done. f_equal. cbn. lia.
Qed.

Lemma xw_remove_spec w M k :
  xw_holds w M -> 0 <= k ->
  exists w', xw_remove_sdu w k = Some w' /\ xw_holds w' (delete k M) /\ xw_same w w' /\
    (xw_counted w M -> xw_counted w' (delete k M)).
Proof.
  intros Hw Hk. unfold xw_remove_sdu, xw_has_sn. rewrite (holds_has _ M k), (holds_get _ M k) by done.
  destruct (M !! k) as [x|] eqn:E.
  - rewrite bool_decide_true by by eexists. cbn [mbind option_bind].
    destruct (holds_remove (xw_window w) M k Hw) as (w1 & E1 & Hw1 & Hc1); [by rewrite E|].
    rewrite E1. eexists. split; [done|]. split; [done|]. split; [done|]. intros [En Eb]. split; cbn [xw_nof_sdus xw_sdu_bytes].
    + assert (E0 : size M = S (size (delete k M))).
      { rewrite map_size_delete_Some by by eexists. assert (size M <> O) by (apply (map_size_ne_0_lookup_2 M k); by eexists). lia. }
      rewrite En, u32_sub_u32, E0. f_equal. lia.
    + rewrite Eb, u32_sub_u32, (map_bytes_delete M k x E). f_equal. lia.
  - rewrite bool_decide_false by by intros []. exists w. rewrite delete_id by done. done.
Qed.

Lemma xw_clear_spec w M : xw_holds w M -> xw_holds (xw_clear w) ∅ /\ xw_same w (xw_clear w) /\ xw_counted (xw_clear w) ∅.
Proof. intros Hw. by destruct (holds_clear (xw_window w) M Hw). Qed.

(** C36. The PDCP transmit window is a finite map from COUNTs to SDUs with exact totals. Let it hold [M] and its counters be the
    number and the total length of the SDUs of [M] (in 32 bits). Then adding an SDU whose residue is free, removing any
    COUNT, present or not, clearing, and replacing an element by one of the same length do not fail, have the same effect on
    the map, and keep the counters exact; the number of bytes reported to the entity counts a header and a trailer per SDU. *)
Theorem tx_window_exact w M :
  xw_holds w M -> xw_counted w M ->
  (forall k, 0 <= k -> xw_has_sn w k = bool_decide (is_Some (M !! k)) /\ xw_get w k = M !! k) /\
  (forall i len, 0 <= wi_count i -> residue_free (xw_window w) M (wi_count i) ->
     exists w', xw_add_sdu w i len = Some w' /\ xw_holds w' (<[wi_count i := TxElem i [] len]> M) /\
       xw_counted w' (<[wi_count i := TxElem i [] len]> M)) /\
  (forall k, 0 <= k -> exists w', xw_remove_sdu w k = Some w' /\ xw_holds w' (delete k M) /\ xw_counted w' (delete k M)) /\
  (forall k x pdu, M !! k = Some x -> exists w', xw_put w k (set_pdu pdu x) = Some w' /\
     xw_holds w' (<[k := set_pdu pdu x]> M) /\ xw_counted w' (<[k := set_pdu pdu x]> M)) /\
  xw_holds (xw_clear w) ∅ /\ xw_counted (xw_clear w) ∅ /\
  forall integrity, xw_get_pdu_bytes w integrity =
    u32 (map_bytes M + Z.of_nat (size M) * (pdcp_data_header_size (xw_sn_size w) + pdcp_data_trailer_size (xw_rb_type w) integrity)).
Proof.
  intros Hh Hc. split_and!.
  - intros k Hk. unfold xw_has_sn, xw_get. by rewrite (holds_has _ M), (holds_get _ M).
  - intros i len Hi Hf. destruct (xw_add_spec w M i len Hh Hi Hf) as (w' & ? & ? & _ & ?). exists w'. auto.
  - intros k Hk. destruct (xw_remove_spec w M k Hh Hk) as (w' & ? & ? & _ & ?). exists w'. auto.
  - intros k x pdu Hk. destruct (xw_put_spec w M k x (set_pdu pdu x) Hh Hk) as (w' & ? & ? & _ & Hcount). exists w'. auto.
  - by eapply xw_clear_spec.
  - by eapply xw_clear_spec.
  - intros integrity. unfold xw_get_pdu_bytes. destruct Hc as [-> ->].
    rewrite u32_mul_u32, u32_add_u32, Z.add_comm, u32_add_u32. f_equal. lia.
Qed.
End facts.

(** The window that [sdu_window] gives *)
#[export] Instance tx_circular_window : SduWindow pdcp_tx_window_element (circular_map pdcp_tx_window_element) :=
  circular_window pdcp_tx_window_element_init.
#[export] Instance tx_circular_laws : SduWindowLaws pdcp_tx_window_element (circular_map pdcp_tx_window_element) pdcp_tx_window_element_init :=
  circular_window_laws pdcp_tx_window_element_init.
#[export] Instance tx_circular_clear_laws : SduWindowClearLaws pdcp_tx_window_element (circular_map pdcp_tx_window_element) :=
  circular_window_clear_laws pdcp_tx_window_element_init.

Lemma tx_window_exact_witness :
  let w := pdcp_tx_window_new (CMap (replicate 4 None) 0 : circular_map pdcp_tx_window_element) rb_drb pdcp_size12bits in
  let i := TxSduInfo [1; 2; 3] 5 None in
  let M := <[5 := TxElem i [] 3]> ∅ : gmap Z pdcp_tx_window_element in
  exists w', xw_add_sdu w i 3 = Some w' /\ win_holds (xw_window w') M /\ xw_counted w' M.
Proof.
  intros w i M. destruct (circular_fresh pdcp_tx_window_element_init 2) as [Hi Hn]; [done|].
  assert (Hw : win_holds (xw_window w) ∅) by by apply holds_empty.
  apply (proj1 (proj2 (tx_window_exact w ∅ Hw (conj eq_refl eq_refl))) i 3); [done|].
  by intros q [x Hx%lookup_empty_Some].
Defined.
