(* ===== verification/SecurityEngine.v ===== *)
(** * Security engines ([include/ocudu/security/security_engine.h], [lib/security/security_engine_impl.cpp],
      [lib/security/integrity_engine_generic.cpp])

    PDCP protects every PDU with an engine made of an integrity engine, which appends a message authentication code of four
    octets, and a ciphering engine. The engines are interfaces in the code and classes here; [security_engine_impl] composes
    them. The algorithms themselves (SNOW 3G, AES, ZUC) are parameters, and the laws say what is used of them: ciphering with
    the same key, COUNT and offset undoes itself and keeps what is before the offset. *)
From S2P Require Import Prelude.

Inductive security_status :=
| sec_success | sec_success_unprotected | buffer_failure | engine_failure | integrity_failure | ciphering_failure.
#[export] Instance security_status_eq_dec : EqDecision security_status. Proof. solve_decision. Defined.
Definition is_success (s : security_status) : bool :=
  match s with sec_success | sec_success_unprotected => true | _ => false end.

Inductive integrity_algorithm := nia0 | nia1 | nia2 | nia3.
Inductive ciphering_algorithm := nea0 | nea1 | nea2 | nea3.
Inductive integrity_enabled := integrity_off | integrity_on | integrity_smc_transition.
Inductive ciphering_enabled := ciphering_off | ciphering_on.
Inductive security_direction := dir_uplink | dir_downlink.
Inductive sec_domain := domain_rrc | domain_up.
#[export] Instance integrity_algorithm_eq_dec : EqDecision integrity_algorithm. Proof. solve_decision. Defined.
#[export] Instance ciphering_algorithm_eq_dec : EqDecision ciphering_algorithm. Proof. solve_decision. Defined.
#[export] Instance integrity_enabled_eq_dec : EqDecision integrity_enabled. Proof. solve_decision. Defined.
#[export] Instance sec_domain_eq_dec : EqDecision sec_domain. Proof. solve_decision. Defined.

Definition sec_mac_len : Z := 4.
Definition zero_mac : list Z := [0; 0; 0; 0].

Record sec_128_as_config := SecCfg {
  sc_domain : sec_domain;
  sc_k_128_int : option (list Z);
  sc_k_128_enc : list Z;
  sc_integ_algo : option integrity_algorithm;
  sc_cipher_algo : ciphering_algorithm
}.

(** [create_security_engine_tx] and [create_security_engine_rx] *)
Abbreviation engine_maker E := (sec_128_as_config -> Z -> security_direction -> integrity_enabled -> ciphering_enabled -> option E).

(** ** Interfaces

    [room] tells whether the buffer can be extended; an operation returns the status and the buffer afterwards. *)
Class IntegrityEngine (I : Type) := {
  protect_integrity : bool -> I -> list Z -> Z -> security_status * list Z;
  verify_integrity : I -> list Z -> Z -> security_status * list Z
}.
Class CipheringEngine (C : Type) := {
  apply_ciphering : C -> list Z -> Z -> Z -> security_status * list Z
}.
Class SecurityEngineTx (E : Type) := {
  encrypt_and_protect_integrity : bool -> E -> list Z -> Z -> Z -> security_status * list Z
}.
Class SecurityEngineRx (E : Type) := {
  decrypt_and_verify_integrity : E -> list Z -> Z -> Z -> security_status * list Z
}.

(** ** [integrity_engine_generic] *)
Section generic.

(** [security_nia1], [security_nia2], [security_nia3]: the code of a message, for a key, COUNT, bearer and direction *)
Context (security_nia : integrity_algorithm -> list Z -> Z -> Z -> security_direction -> list Z -> list Z).

Record integrity_engine_generic := IntegGeneric {
  ig_k_128_int : list Z;
  ig_bearer_id : Z;
  ig_direction : security_direction;
  ig_integ_algo : integrity_algorithm;
  ig_allow_unprotected : bool
}.
Implicit Types g : integrity_engine_generic.

(** The switch over the algorithm *)
Definition generic_mac g (count : Z) (v : list Z) : list Z :=
  match ig_integ_algo g with
  | nia0 => zero_mac
  | a => security_nia a (ig_k_128_int g) count (ig_bearer_id g) (ig_direction g) v
  end.

Definition generic_protect_integrity (room : bool) g (buf : list Z) (count : Z) : security_status * list Z :=
  let mac := generic_mac g count buf in
  if negb room then (buffer_failure, buf) else (sec_success, buf ++ mac).

Definition generic_verify_integrity g (buf : list Z) (count : Z) : security_status * list Z :=
  if Z.of_nat (length buf) <=? sec_mac_len then (integrity_failure, buf) else
  let n := (length buf - Z.to_nat sec_mac_len)%nat in
  let v := take n buf in
  let m := drop n buf in
  if negb (bool_decide (generic_mac g count v = m)) then
    if ig_allow_unprotected g && bool_decide (zero_mac = m) then (sec_success_unprotected, v)
    else (integrity_failure, buf)
  else (sec_success, v).

#[export] Instance generic_integrity : IntegrityEngine integrity_engine_generic := {
  protect_integrity := generic_protect_integrity;
  verify_integrity := generic_verify_integrity
}.
End generic.

(** ** [security_engine_impl] *)
Section impl.
Context {I C : Type} `{IntegrityEngine I, CipheringEngine C}.

Record security_engine_impl := SecEngine { integ_eng : option I; cipher_eng : option C }.
Implicit Types e : security_engine_impl.

(** The constructor; [make_integ] and [make_cipher] are the constructors of the engines of the chosen algorithm. *)
Definition security_engine_new (make_integ : integrity_algorithm -> list Z -> Z -> security_direction -> bool -> I)
    (make_cipher : ciphering_algorithm -> list Z -> Z -> security_direction -> C)
    (cfg : sec_128_as_config) (bearer_id : Z) (dir : security_direction) (integ : integrity_enabled) (ciph : ciphering_enabled)
  : option security_engine_impl :=
  let allow_unprotected := bool_decide (integ = integrity_smc_transition) in
  integ_eng ←
    (if decide (integ = integrity_off) then Some None else
     algo ← sc_integ_algo cfg;
     key ← sc_k_128_int cfg;
     Some (Some (make_integ algo key bearer_id dir allow_unprotected)));
  let cipher_eng :=
    match ciph with
    | ciphering_on =>
        if decide (sc_cipher_algo cfg = nea0) then None
        else Some (make_cipher (sc_cipher_algo cfg) (sc_k_128_enc cfg) bearer_id dir)
    | ciphering_off => None
    end in
  Some (SecEngine integ_eng cipher_eng).

Definition impl_encrypt_and_protect (room : bool) e (buf : list Z) (offset count : Z) : security_status * list Z :=
  let '(integ_status, buf) :=
    match integ_eng e with Some i => protect_integrity room i buf count | None => (sec_success_unprotected, buf) end in
  if negb (is_success integ_status) then (integ_status, buf) else
  match cipher_eng e with
  | None => (integ_status, buf)
  | Some c =>
      let '(cipher_status, buf) := apply_ciphering c buf offset count in
      if negb (is_success cipher_status) then (cipher_status, buf) else (integ_status, buf)
  end.

Definition impl_decrypt_and_verify e (buf : list Z) (offset count : Z) : security_status * list Z :=
  let '(cipher_status, buf) :=
    match cipher_eng e with Some c => apply_ciphering c buf offset count | None => (sec_success, buf) end in
  if negb (is_success cipher_status) then (cipher_status, buf) else
  match integ_eng e with Some i => verify_integrity i buf count | None => (sec_success_unprotected, buf) end.

#[export] Instance impl_security_tx : SecurityEngineTx security_engine_impl := {
  encrypt_and_protect_integrity := impl_encrypt_and_protect
}.
#[export] Instance impl_security_rx : SecurityEngineRx security_engine_impl := {
  decrypt_and_verify_integrity := impl_decrypt_and_verify
}.
End impl.
Arguments security_engine_impl : clear implicits.

(** ** Laws *)

(** A ciphering engine adds a key stream: applying it again with the same COUNT and offset gives the buffer back. *)
Class CipheringLaws (C : Type) `{CipheringEngine C} := {
  cipher_success : forall c buf offset count, 0 <= offset <= Z.of_nat (length buf) ->
    (apply_ciphering c buf offset count).1 = sec_success;
  cipher_length : forall c buf offset count, length (apply_ciphering c buf offset count).2 = length buf;
  cipher_prefix : forall c buf offset count, 0 <= offset <= Z.of_nat (length buf) ->
    take (Z.to_nat offset) (apply_ciphering c buf offset count).2 = take (Z.to_nat offset) buf;
  cipher_involutive : forall c buf offset count, 0 <= offset <= Z.of_nat (length buf) ->
    (apply_ciphering c (apply_ciphering c buf offset count).2 offset count).2 = buf
}.

(** What an integrity engine appends, it verifies and removes. *)
Class IntegrityLaws (I : Type) `{IntegrityEngine I} := {
  protect_length : forall i buf count, length (protect_integrity true i buf count).2 = (length buf + 4)%nat;
  protect_prefix : forall i buf count, take (length buf) (protect_integrity true i buf count).2 = buf;
  protect_success : forall i buf count, (protect_integrity true i buf count).1 = sec_success;
  protect_no_room : forall i buf count, is_success (protect_integrity false i buf count).1 = false;
  verify_protect : forall i buf count, buf <> [] ->
    verify_integrity i (protect_integrity true i buf count).2 count = (sec_success, buf);
  verify_length : forall i buf count, is_success (verify_integrity i buf count).1 = true ->
    length buf = (length (verify_integrity i buf count).2 + 4)%nat
}.

(** What a transmitting engine protects, the receiving engine with the same keys recovers; the octets before the offset,
    where the SN is, stay readable. *)
Class SecurityPair (Tx Rx : Type) `{SecurityEngineTx Tx, SecurityEngineRx Rx} (tx : Tx) (rx : Rx) := {
  protect_ok : forall buf offset count, buf <> [] -> 0 <= offset <= Z.of_nat (length buf) ->
    is_success (encrypt_and_protect_integrity true tx buf offset count).1 = true;
  protect_header : forall buf offset count, buf <> [] -> 0 <= offset <= Z.of_nat (length buf) ->
    take (Z.to_nat offset) (encrypt_and_protect_integrity true tx buf offset count).2 = take (Z.to_nat offset) buf;
  protect_grows : forall buf offset count, buf <> [] -> 0 <= offset <= Z.of_nat (length buf) ->
    (length buf <= length (encrypt_and_protect_integrity true tx buf offset count).2)%nat;
  unprotect : forall buf offset count, buf <> [] -> 0 <= offset <= Z.of_nat (length buf) ->
    decrypt_and_verify_integrity rx (encrypt_and_protect_integrity true tx buf offset count).2 offset count =
    ((encrypt_and_protect_integrity true tx buf offset count).1, buf)
}.

(** What a transmitting engine produces does not depend on the memory it finds. *)
Class SecurityTxLaws (Tx : Type) `{SecurityEngineTx Tx} := {
  protect_any_room : forall room (tx : Tx) buf offset count,
    is_success (encrypt_and_protect_integrity room tx buf offset count).1 = true ->
    encrypt_and_protect_integrity room tx buf offset count = encrypt_and_protect_integrity true tx buf offset count
}.

(** ** The generic integrity engine obeys the laws *)
Section generic_laws.
Context (security_nia : integrity_algorithm -> list Z -> Z -> Z -> security_direction -> list Z -> list Z).
Context (nia_length : forall a k c b d v, length (security_nia a k c b d v) = 4%nat).
Notation generic_protect_integrity := (generic_protect_integrity security_nia).
Notation generic_verify_integrity := (generic_verify_integrity security_nia).
Notation generic_mac := (generic_mac security_nia).

Lemma generic_mac_length g count v : length (generic_mac g count v) = 4%nat.
Proof. unfold SecurityEngine.generic_mac. destruct (ig_integ_algo g); [done|apply nia_length..]. Qed.

Lemma generic_verify_protect g buf count :
  buf <> [] -> generic_verify_integrity g (generic_protect_integrity true g buf count).2 count = (sec_success, buf).
Proof.
  intros Hne. unfold SecurityEngine.generic_protect_integrity, SecurityEngine.generic_verify_integrity. cbn [negb snd].
  rewrite length_app, generic_mac_length. assert (0 < length buf)%nat by (destruct buf; [done|cbn; lia]).
  rewrite (proj2 (Z.leb_gt _ _)) by (unfold sec_mac_len; lia).
  replace (length buf + 4 - Z.to_nat sec_mac_len)%nat with (length buf) by (unfold sec_mac_len; lia).
  rewrite take_app_length, drop_app_length. by rewrite bool_decide_true.
Qed.

Definition generic_integrity_laws : @IntegrityLaws _ (generic_integrity security_nia).
Proof.
  split.
  - intros g buf count. cbn. unfold SecurityEngine.generic_protect_integrity. cbn [negb snd]. by rewrite length_app, generic_mac_length.
  - intros g buf count. cbn. unfold SecurityEngine.generic_protect_integrity. cbn [negb snd]. apply take_app_length.
  - done.
  - done.
  - intros g buf count Hne. by apply generic_verify_protect.
  - intros g buf count. cbn. unfold SecurityEngine.generic_verify_integrity.
    destruct (Z.leb_spec (Z.of_nat (length buf)) sec_mac_len) as [|Hs]; [done|]. unfold sec_mac_len in *.
    destruct (negb _); [destruct (_ && _)|]; cbn [fst snd]; intros; try done; rewrite length_take; lia.
Defined.
End generic_laws.

(** ** The composed engine *)
Section impl_laws.
Context {I C : Type} `{IntegrityLaws I, CipheringLaws C}.
Implicit Types e : security_engine_impl I C.

Lemma impl_protect e buf offset count :
  buf <> [] -> 0 <= offset <= Z.of_nat (length buf) ->
  exists st out mid, impl_encrypt_and_protect true e buf offset count = (st, out) /\ is_success st = true /\
    (integ_eng e = None -> st = sec_success_unprotected /\ mid = buf) /\
    (forall i, integ_eng e = Some i -> st = sec_success /\ verify_integrity i mid count = (sec_success, buf)) /\
    take (length buf) mid = buf /\ length out = length mid /\ (length buf <= length mid)%nat /\
    take (Z.to_nat offset) out = take (Z.to_nat offset) mid /\
    match cipher_eng e with Some c => apply_ciphering c out offset count = (sec_success, mid) | None => out = mid end.
Proof.
  intros Hne Ho. unfold impl_encrypt_and_protect.
  assert (Hmid : exists st mid, match integ_eng e with Some i => protect_integrity true i buf count | None => (sec_success_unprotected, buf) end
      = (st, mid) /\ is_success st = true /\ take (length buf) mid = buf /\ (length buf <= length mid)%nat /\
      (integ_eng e = None -> st = sec_success_unprotected /\ mid = buf) /\
      (forall i, integ_eng e = Some i -> st = sec_success /\ verify_integrity i mid count = (sec_success, buf))).
  { destruct (integ_eng e) as [i|].
    - exists (protect_integrity true i buf count).1, (protect_integrity true i buf count).2. rewrite protect_success, protect_prefix, protect_length.
      split; [rewrite <- (protect_success i buf count); by destruct (protect_integrity true i buf count)|].
      split_and!; [done|done|lia|done|]. intros j [= <-]. split; [done|by apply verify_protect].
    - exists sec_success_unprotected, buf. split_and!; try done. apply take_ge. lia. }
  destruct Hmid as (st & mid & -> & Hst & Hpre & Hlen & Hnone & Hsome). rewrite Hst. cbn [negb].
  destruct (cipher_eng e) as [c|].
  - pose proof (cipher_success c mid offset count ltac:(lia)) as Hs. pose proof (cipher_length c mid offset count) as Hl.
    pose proof (cipher_prefix c mid offset count ltac:(lia)) as Hp. pose proof (cipher_involutive c mid offset count ltac:(lia)) as Hi.
    destruct (apply_ciphering c mid offset count) as [cs out] eqn:E. cbn [fst snd] in *. subst cs. cbn [is_success negb].
    exists st, out, mid. split_and!; try done; try (by apply Hsome); try (by apply Hnone).
    pose proof (cipher_success c out offset count ltac:(lia)) as Hs2.
    destruct (apply_ciphering c out offset count) as [s1 b1]. cbn in *. by subst.
  - exists st, mid, mid. split_and!; try done; try (by apply Hsome); try (by apply Hnone).
Qed.

(** A verified PDU is shorter by the code, if there is one. *)
Lemma impl_verify_length e buf offset count st out :
  impl_decrypt_and_verify e buf offset count = (st, out) -> is_success st = true ->
  length buf = (length out + (if integ_eng e then 4 else 0))%nat.
Proof.
  unfold impl_decrypt_and_verify.
  assert (Hmid : exists cs mid, match cipher_eng e with Some c => apply_ciphering c buf offset count | None => (sec_success, buf) end = (cs, mid) /\ length mid = length buf).
  { destruct (cipher_eng e) as [c|]; [|by eexists _, _]. pose proof (cipher_length c buf offset count) as Hl.
    destruct (apply_ciphering c buf offset count) as [cs mid]. by exists cs, mid. }
  destruct Hmid as (cs & mid & -> & <-). destruct (negb (is_success cs)) eqn:Ecs; [intros [= <- <-] Hst; by rewrite Hst in Ecs|].
  destruct (integ_eng e) as [i|]; intros E Hst.
  - pose proof (verify_length i mid count) as Hv. rewrite E in Hv. by apply Hv.
  - injection E as <- <-. lia.
Qed.

#[export] Instance impl_tx_laws : SecurityTxLaws (security_engine_impl I C).
Proof.
  split. intros room e buf offset count. cbn [encrypt_and_protect_integrity impl_security_tx]. unfold impl_encrypt_and_protect.
  destruct room; [done|]. destruct (integ_eng e) as [i|]; [|done]. pose proof (protect_no_room i buf count) as Hn.
  destruct (protect_integrity false i buf count) as [st out]. cbn [fst] in Hn. rewrite Hn. cbn [negb fst]. congruence.
Qed.

#[export] Instance impl_security_pair e : SecurityPair (security_engine_impl I C) (security_engine_impl I C) e e.
Proof.
  split; intros buf offset count Hne Ho;
    destruct (impl_protect e buf offset count Hne Ho) as (st & out & mid & E & Hst & Hnone & Hsome & Hpre & Hlen & Hle & Htake & Hc);
    cbn [encrypt_and_protect_integrity decrypt_and_verify_integrity impl_security_tx impl_security_rx]; rewrite E; cbn [fst snd].
  - done.
  - rewrite Htake. rewrite <- Hpre at 1. rewrite take_take. f_equal. lia.
  - lia.
  - unfold impl_decrypt_and_verify. assert (Hmid : match cipher_eng e with Some c => apply_ciphering c out offset count | None => (sec_success, out) end = (sec_success, mid)).
    { destruct (cipher_eng e); [done|by subst]. }
    rewrite Hmid. cbn [is_success negb]. destruct (integ_eng e) as [i|].
    + by destruct (Hsome i eq_refl) as [-> ->].
    + by destruct (Hnone eq_refl) as [-> ->].
Qed.
End impl_laws.

(** ** A concrete pair of engines, on which the laws and the theorems are instantiated *)

(** An additive stream cipher whose key stream is one octet. *)
Record xor_cipher := XorCipher { xc_key : Z }.
Definition xor_apply (c : xor_cipher) (buf : list Z) (offset count : Z) : security_status * list Z :=
  (sec_success, take (Z.to_nat offset) buf ++ ((fun b => Z.lxor b (u8 (xc_key c + count))) <$> drop (Z.to_nat offset) buf)).
#[export] Instance xor_ciphering : CipheringEngine xor_cipher := { apply_ciphering := xor_apply }.

#[export] Instance xor_ciphering_laws : CipheringLaws xor_cipher.
Proof.
  split; intros c buf offset count; cbn [apply_ciphering xor_ciphering]; unfold xor_apply; cbn [fst snd].
  - done.
  - rewrite length_app, length_fmap, length_take, length_drop. lia.
  - intros Ho. rewrite take_app_le by (rewrite length_take; lia). rewrite take_take. f_equal. lia.
  - intros Ho. rewrite take_app_le by (rewrite length_take; lia). rewrite take_take, Nat.min_id.
    rewrite drop_app_ge by (rewrite length_take; lia). rewrite length_take, Nat.min_l, Nat.sub_diag by lia.
    rewrite drop_0, <- list_fmap_compose. transitivity (take (Z.to_nat offset) buf ++ drop (Z.to_nat offset) buf); [|apply take_drop].
    f_equal. transitivity (id <$> drop (Z.to_nat offset) buf); [|apply list_fmap_id]. apply list_fmap_ext. intros i b _. unfold compose, id.
    by rewrite Z.lxor_assoc, Z.lxor_nilpotent, Z.lxor_0_r.
Qed.

(** A code of four octets made of the COUNT and the sum of the message. *)
Definition sum_nia (a : integrity_algorithm) (k : list Z) (count bearer : Z) (d : security_direction) (v : list Z) : list Z :=
  [u8 count; u8 bearer; u8 (foldr Z.add 0 v); u8 (foldr Z.add 0 k)].
Lemma sum_nia_length a k c b d v : length (sum_nia a k c b d v) = 4%nat.
Proof. done. Qed.
#[export] Instance sum_integrity : IntegrityEngine integrity_engine_generic := generic_integrity sum_nia.
#[export] Instance sum_integrity_laws : IntegrityLaws integrity_engine_generic := generic_integrity_laws sum_nia sum_nia_length.

Definition sample_engine : security_engine_impl integrity_engine_generic xor_cipher :=
  SecEngine (Some (IntegGeneric [1; 2; 3] 0 dir_downlink nia2 false)) (Some (XorCipher 77)).

(** The factories of the two sides, over these engines *)
Definition sample_maker : engine_maker (security_engine_impl integrity_engine_generic xor_cipher) :=
  security_engine_new (fun a k id d allow => IntegGeneric k id d a allow) (fun _ k _ _ => XorCipher (nth 0 k 0)).

(** ** Theorems *)

(** C35. Protection and its removal are inverse. For every combination of integrity and ciphering engines that obey their laws,
    every non-empty buffer, offset and COUNT: protecting succeeds, leaves the octets before the offset as they are (they
    carry the SN that the receiver needs to find the COUNT), never shortens the buffer, and the receiving engine with the
    same keys and the same COUNT gives back exactly the buffer, with the status [success] if and only if integrity
    protection is configured. *)
Theorem security_roundtrip {I C} `{IntegrityLaws I, CipheringLaws C} (e : security_engine_impl I C) buf offset count :
  buf <> [] -> 0 <= offset <= Z.of_nat (length buf) ->
  exists st out, impl_encrypt_and_protect true e buf offset count = (st, out) /\ is_success st = true /\
    (st = sec_success <-> is_Some (integ_eng e)) /\
    take (Z.to_nat offset) out = take (Z.to_nat offset) buf /\ (length buf <= length out)%nat /\
    impl_decrypt_and_verify e out offset count = (st, buf).
Proof.
  intros Hne Ho. pose proof (protect_header (tx := e) (rx := e) buf offset count Hne Ho) as Hh.
  pose proof (unprotect (tx := e) (rx := e) buf offset count Hne Ho) as Hu.
  destruct (impl_protect e buf offset count Hne Ho) as (st & out & mid & E & Hst & Hnone & Hsome & _ & Hl & Hle & _).
  cbn [encrypt_and_protect_integrity decrypt_and_verify_integrity impl_security_tx impl_security_rx] in Hh, Hu.
  rewrite E in Hh, Hu. exists st, out. split_and!; try done; [|lia].
  destruct (integ_eng e) as [i|]; [destruct (Hsome i eq_refl) as [-> _]; split; [by eexists|done]|].
  destruct (Hnone eq_refl) as [-> _]. split; [done|by intros []].
Qed.

Lemma security_roundtrip_witness :
  exists st out, impl_encrypt_and_protect true sample_engine [0x80; 5; 1; 2; 3] 2 5 = (st, out) /\ is_success st = true /\
    (st = sec_success <-> is_Some (integ_eng sample_engine)) /\
    take 2 out = [0x80; 5] /\ (5 <= length out)%nat /\
    impl_decrypt_and_verify sample_engine out 2 5 = (st, [0x80; 5; 1; 2; 3]).
Proof. apply (security_roundtrip sample_engine [0x80; 5; 1; 2; 3] 2 5); [done|vm_compute; split; congruence]. Defined.

(** Integrity verification accepts exactly what carries the right code. The generic integrity engine returns [success] with a
    message if and only if the buffer is that non-empty message followed by the code computed for it and the COUNT; during
    the security mode procedure it returns [success_unprotected] if and only if the code is zero and is not the right one;
    every other buffer, too short ones included, is an integrity failure and is returned unchanged. *)
Theorem generic_verify_exact
  (security_nia : integrity_algorithm -> list Z -> Z -> Z -> security_direction -> list Z -> list Z) g buf count :
  (forall a k c b d v, length (security_nia a k c b d v) = 4%nat) ->
  let mac := generic_mac security_nia g count in
  (forall v, generic_verify_integrity security_nia g buf count = (sec_success, v) <-> v <> [] /\ buf = v ++ mac v) /\
  (forall v, generic_verify_integrity security_nia g buf count = (sec_success_unprotected, v) <->
     ig_allow_unprotected g = true /\ v <> [] /\ buf = v ++ zero_mac /\ mac v <> zero_mac) /\
  (forall st v, generic_verify_integrity security_nia g buf count = (st, v) -> is_success st = false ->
     st = integrity_failure /\ v = buf).
Proof.
  intros Hlen mac. unfold generic_verify_integrity. pose proof (generic_mac_length security_nia Hlen g count) as Hmac.
  fold mac in Hmac |- *. destruct (Z.leb_spec (Z.of_nat (length buf)) sec_mac_len) as [Hs|Hs]; unfold sec_mac_len in *.
  { assert (Hno : forall v m, v <> [] -> length m = 4%nat -> buf <> v ++ m).
    { intros v m Hv Hm ->. rewrite length_app in Hs. destruct v; [done|]. cbn in Hs. lia. }
    split; [|split; [|by intros st v [= <- <-]]]; intros v; split; try done.
    - intros [Hv E]. by destruct (Hno v (mac v)).
    - intros (_ & Hv & E & _). by destruct (Hno v zero_mac). }
  set (n := (length buf - Z.to_nat 4)%nat). pose proof (take_drop n buf) as Ebuf.
  assert (Hd : length (drop n buf) = 4%nat) by (rewrite length_drop; lia).
  assert (Ht : take n buf <> []) by (intros E0; apply (f_equal length) in E0; rewrite length_take in E0; cbn in E0; lia).
  assert (Hsplit : forall v m, length m = 4%nat -> buf = v ++ m -> v = take n buf /\ m = drop n buf).
  { intros v m Hm E. rewrite <- Ebuf in E at 1. symmetry in E. apply app_inj_2 in E as [-> ->]; [done|lia]. }
  destruct (decide (mac (take n buf) = drop n buf)) as [Em|Em].
  - rewrite bool_decide_true by done. cbn [negb]. split_and!.
    + intros v. split; [intros [= <-]; split; [done|by rewrite Em]|]. intros [_ E].
      by destruct (Hsplit v (mac v) (Hmac v) E) as [-> _].
    + intros v. split; [done|]. intros (_ & _ & E & Hz). destruct (Hsplit v zero_mac eq_refl E) as [-> Ez]. congruence.
    + by intros st v [= <- <-].
  - rewrite bool_decide_false by done. cbn [negb]. split_and!.
    + intros v. split; [by destruct (_ && _)|]. intros [_ E]. destruct (Hsplit v (mac v) (Hmac v) E) as [-> E2]. congruence.
    + intros v. destruct (decide (zero_mac = drop n buf)) as [Ez|Ez].
      * rewrite (bool_decide_true (zero_mac = _)), andb_true_r by done. split.
        -- destruct (ig_allow_unprotected g); [|done]. intros [= <-]. split_and!; [done|done|by rewrite Ez|congruence].
        -- intros (-> & _ & E & _). by destruct (Hsplit v zero_mac eq_refl E) as [-> _].
      * rewrite (bool_decide_false (zero_mac = _)), andb_false_r by done. split; [done|].
        intros (_ & _ & E & _). destruct (Hsplit v zero_mac eq_refl E) as [_ ?]. congruence.
    + intros st v. destruct (_ && _); intros [= <- <-]; done.
Qed.

Lemma generic_verify_exact_witness :
  let g := IntegGeneric [1; 2; 3] 0 dir_uplink nia1 true in
  generic_verify_integrity sum_nia g ([0; 1; 9] ++ sum_nia nia1 [1; 2; 3] 7 0 dir_uplink [0; 1; 9]) 7 = (sec_success, [0; 1; 9]) /\
  generic_verify_integrity sum_nia g [0; 1; 9; 0; 0; 0; 0] 7 = (sec_success_unprotected, [0; 1; 9]).
Proof.
  split.
  - apply (proj1 (generic_verify_exact sum_nia (IntegGeneric [1; 2; 3] 0 dir_uplink nia1 true) _ 7 sum_nia_length)). done.
  - apply (proj1 (proj2 (generic_verify_exact sum_nia (IntegGeneric [1; 2; 3] 0 dir_uplink nia1 true) _ 7 sum_nia_length))). done.
Defined.
