(* ===== verification/PdcpRx.v ===== *)
(** * The receiving side of a PDCP entity ([lib/pdcp/pdcp_entity_rx.h] and [.cpp])

    A PDU passes three stages, on three executors: [rx_handle_pdu] finds its COUNT and hands it to the crypto executor,
    [rx_apply_security] deciphers and verifies it there and hands it to the UE executor, [rx_apply_reordering] puts it into
    the receive window and delivers SDUs in the order of their COUNTs. A task is an event that carries its data; an executor
    that rejects a task drops it, which is a task that is never run. [None] is a failed assertion or a loop out of fuel.

    The window, the security engines and the decompressor are interfaces; tokens, times of arrival and latency metrics are
    not modelled. *)
From S2P Require Import Prelude SduWindow CircularMap RingBuffer BitCodec PdcpSn SecurityEngine PdcpBase.

(** [pdcp_rx_config] *)
Record pdcp_rx_config := RxConfig {
  rc_base : pdcp_base;
  rc_bearer_id : Z;
  rc_direction : security_direction;
  rc_header_compression : bool;
  rc_out_of_order_delivery : bool;
  rc_t_reordering : Z;
  rc_max_count : pdcp_max_count;
  rc_max_nof_crypto_workers : Z
}.

(** The enumerators of [pdcp_t_reordering] are durations in milliseconds, but for this one *)
Definition t_reordering_infinity : Z := -1.

Record pdcp_rx_state := RxState { rx_next : Z; rx_deliv : Z; rx_reord : Z }.
Definition pdcp_rx_state_init : pdcp_rx_state := RxState 0 0 0.

Record pdcp_rx_pdu_info := RxPduInfo { pi_buf : list Z; pi_count : Z; pi_integrity_verified : bool }.
Record pdcp_rx_sdu_info := RxSduInfo { si_buf : list Z; si_count : Z; si_integrity_verified : bool }.
Definition pdcp_rx_sdu_info_init : pdcp_rx_sdu_info := RxSduInfo [] 0 false.

(** The tasks for the UE executor *)
Inductive pdcp_rx_task :=
| RxReorder (i : pdcp_rx_pdu_info)
| RxSecurityFailure (status : security_status) (count : Z).

(** What leaves the entity, in order: calls of the upper layers and of the transmitting side, tasks, and metrics *)
Inductive pdcp_rx_event :=
| RxNewSdu (sdu : list Z) (integrity_verified : bool)
| RxProtocolFailure
| RxIntegrityFailure
| RxMaxCountReached
| RxResumeRequired
| RxStatusReport (pdu : list Z)
| RxRohcFeedbackReceived (pdu : list Z)
| RxRohcFeedbackProduced (packet : list Z)
| RxExecCrypto (i : pdcp_rx_pdu_info)
| RxExecUl (t : pdcp_rx_task)
| RxAddPdus (n len : Z)
| RxAddDataPdus (n len : Z)
| RxAddDroppedPdus (n : Z)
| RxAddLostPdus (n : Z)
| RxAddSdus (n len : Z)
| RxAddIntegrityVerified (n : Z)
| RxAddIntegrityUnverified (n : Z)
| RxAddIntegrityFailed (n : Z)
| RxAddReorderingTimeouts (n : Z).

(** [rohc_decompressor::decompress]: the packet, the feedback, and the decompressor afterwards *)
Class RohcDecompressor (R : Type) := { decompress : R -> list Z -> list Z * list Z * R }.

Definition is_nil (l : list Z) : bool := match l with [] => true | _ => false end.
Definition buf_len (l : list Z) : Z := Z.of_nat (length l).

Section entity.
Context {E R W : Type} `{SecurityEngineRx E, RohcDecompressor R, SduWindow pdcp_rx_sdu_info W, !SduWindowClear pdcp_rx_sdu_info W}.

(** The security engines, one per crypto worker ([None] is the null engine before security is configured) *)
Record pdcp_rx_security := RxSec {
  rs_pool : list (option E);
  rs_integrity : integrity_enabled;
  rs_ciphering : ciphering_enabled
}.

(** Stopping, buffering and suspension, and the COUNT notifications of [pdcp_entity_tx_rx_base] *)
Record pdcp_rx_control := RxCtl {
  rk_stopped : bool;
  rk_buffering : bool;
  rk_suspended : bool;
  rk_resume_requested : bool;
  rk_pdu_buffer : ring_buffer (list Z);
  rk_max_count_notified : bool;
  rk_max_count_overflow : bool
}.

Record pdcp_entity_rx := PdcpRx {
  pr_cfg : pdcp_rx_config;
  pr_sec : pdcp_rx_security;
  pr_rohc : option R;
  pr_st : pdcp_rx_state;
  pr_window : W;
  pr_timer : bool;
  pr_ctl : pdcp_rx_control
}.
Implicit Types (e : pdcp_entity_rx) (i : pdcp_rx_pdu_info).

Definition pr_base e : pdcp_base := rc_base (pr_cfg e).

Definition pr_set_sec (s : pdcp_rx_security) e := PdcpRx (pr_cfg e) s (pr_rohc e) (pr_st e) (pr_window e) (pr_timer e) (pr_ctl e).
Definition pr_set_rohc (r : option R) e := PdcpRx (pr_cfg e) (pr_sec e) r (pr_st e) (pr_window e) (pr_timer e) (pr_ctl e).
Definition pr_set_st (s : pdcp_rx_state) e := PdcpRx (pr_cfg e) (pr_sec e) (pr_rohc e) s (pr_window e) (pr_timer e) (pr_ctl e).
Definition pr_set_window (w : W) e := PdcpRx (pr_cfg e) (pr_sec e) (pr_rohc e) (pr_st e) w (pr_timer e) (pr_ctl e).
Definition pr_set_timer (t : bool) e := PdcpRx (pr_cfg e) (pr_sec e) (pr_rohc e) (pr_st e) (pr_window e) t (pr_ctl e).
Definition pr_set_ctl (c : pdcp_rx_control) e := PdcpRx (pr_cfg e) (pr_sec e) (pr_rohc e) (pr_st e) (pr_window e) (pr_timer e) c.

Definition pr_set_rx_next (n : Z) e := pr_set_st (RxState n (rx_deliv (pr_st e)) (rx_reord (pr_st e))) e.
Definition pr_set_rx_deliv (n : Z) e := pr_set_st (RxState (rx_next (pr_st e)) n (rx_reord (pr_st e))) e.
Definition pr_set_rx_reord (n : Z) e := pr_set_st (RxState (rx_next (pr_st e)) (rx_deliv (pr_st e)) n) e.

Definition pr_set_stopped (b : bool) e :=
  let c := pr_ctl e in
  pr_set_ctl (RxCtl b (rk_buffering c) (rk_suspended c) (rk_resume_requested c) (rk_pdu_buffer c) (rk_max_count_notified c) (rk_max_count_overflow c)) e.
Definition pr_set_buffering (b : bool) e :=
  let c := pr_ctl e in
  pr_set_ctl (RxCtl (rk_stopped c) b (rk_suspended c) (rk_resume_requested c) (rk_pdu_buffer c) (rk_max_count_notified c) (rk_max_count_overflow c)) e.
Definition pr_set_suspended (s r : bool) e :=
  let c := pr_ctl e in
  pr_set_ctl (RxCtl (rk_stopped c) (rk_buffering c) s r (rk_pdu_buffer c) (rk_max_count_notified c) (rk_max_count_overflow c)) e.
Definition pr_set_pdu_buffer (q : ring_buffer (list Z)) e :=
  let c := pr_ctl e in
  pr_set_ctl (RxCtl (rk_stopped c) (rk_buffering c) (rk_suspended c) (rk_resume_requested c) q (rk_max_count_notified c) (rk_max_count_overflow c)) e.
Definition pr_set_max_count (notified overflow : bool) e :=
  let c := pr_ctl e in
  pr_set_ctl (RxCtl (rk_stopped c) (rk_buffering c) (rk_suspended c) (rk_resume_requested c) (rk_pdu_buffer c) notified overflow) e.

(** *** Construction *)

(** [init_header_decompression]; [rohc] is what the factory returns. *)
Definition rx_init_header_decompression (rohc : option R) e : pdcp_entity_rx :=
  if rc_header_compression (pr_cfg e) then pr_set_rohc rohc e else e.

(** The constructor: null engines, an empty window, and a buffer of 2048 PDUs *)
Definition pdcp_rx_new (cfg : pdcp_rx_config) (win : W) (rohc : option R) : pdcp_entity_rx :=
  rx_init_header_decompression rohc
    (PdcpRx cfg (RxSec (replicate (Z.to_nat (rc_max_nof_crypto_workers cfg)) None) integrity_off ciphering_off) None
       pdcp_rx_state_init win false (RxCtl false false false false (rb_new true 2048) false false)).

(** *** Delivery *)

(** [apply_header_decompression]: the flag and the buffer afterwards, which is empty when it was moved into the decompressor *)
Definition rx_apply_header_decompression (buf : list Z) e : bool * list Z * pdcp_entity_rx * list pdcp_rx_event :=
  match pr_rohc e with
  | None => (true, buf, e, [])
  | Some r =>
      let '(packet, feedback, r) := decompress r buf in
      let e := pr_set_rohc (Some r) e in
      if is_nil packet && is_nil feedback then (false, [], e, [RxAddDroppedPdus 1]) else
      let ev := if negb (is_nil feedback) then [RxRohcFeedbackProduced feedback] else [] in
      if is_nil packet then (false, [], e, ev) else (true, packet, e, ev)
  end.

(** [deliver_sdu]; the buffer of the SDU is moved away in every case. *)
Definition rx_deliver_sdu (s : pdcp_rx_sdu_info) e : pdcp_entity_rx * list pdcp_rx_event :=
  let '(ok, buf, e, ev) := rx_apply_header_decompression (si_buf s) e in
  if (ok : bool) then (e, ev ++ [RxAddSdus 1 (buf_len buf); RxNewSdu buf (si_integrity_verified s)]) else (e, ev).

(** The loop of [advance_rx_window] *)
Fixpoint rx_advance_loop (fuel : nat) (stop_count : Z) (stop_on_gap : bool) e : option (pdcp_entity_rx * list pdcp_rx_event) :=
  let deliv := rx_deliv (pr_st e) in
  if deliv <? stop_count then
    match fuel with
    | O => None
    | S fuel =>
        if has_sn (pr_window e) deliv then
          s ← win_get (pr_window e) deliv;
          let '(e, ev1) := if negb (is_nil (si_buf s)) then rx_deliver_sdu s e else (e, []) in
          w ← remove_sn (pr_window e) deliv;
          '(e, ev2) ← rx_advance_loop fuel stop_count stop_on_gap (pr_set_rx_deliv (u32 (deliv + 1)) (pr_set_window w e));
          Some (e, ev1 ++ ev2)
        else if stop_on_gap then Some (e, [])
        else rx_advance_loop fuel stop_count stop_on_gap (pr_set_rx_deliv (u32 (deliv + 1)) e)
    end
  else Some (e, []).

(** [advance_rx_window] *)
Definition rx_advance_rx_window (stop_count : Z) (stop_on_gap : bool) e : option (pdcp_entity_rx * list pdcp_rx_event) :=
  if rx_next (pr_st e) <? stop_count then None else
  rx_advance_loop (Z.to_nat (stop_count - rx_deliv (pr_st e))) stop_count stop_on_gap e.

(** [discard_rx_window] *)
Fixpoint rx_discard_loop (fuel : nat) e : option pdcp_entity_rx :=
  let deliv := rx_deliv (pr_st e) in
  if deliv <? rx_next (pr_st e) then
    match fuel with
    | O => None
    | S fuel =>
        e ← (if has_sn (pr_window e) deliv then w ← remove_sn (pr_window e) deliv; Some (pr_set_window w e) else Some e);
        rx_discard_loop fuel (pr_set_rx_deliv (u32 (deliv + 1)) e)
    end
  else Some e.
Definition rx_discard_rx_window e : option pdcp_entity_rx :=
  rx_discard_loop (Z.to_nat (rx_next (pr_st e) - rx_deliv (pr_st e))) e.

(** *** Reordering *)

(** [handle_t_reordering_expire] *)
Definition rx_handle_t_reordering_expire e : option (pdcp_entity_rx * list pdcp_rx_event) :=
  '(e, ev1) ← rx_advance_rx_window (rx_reord (pr_st e)) false e;
  '(e, ev2) ← rx_advance_rx_window (rx_next (pr_st e)) true e;
  let e :=
    if (rx_deliv (pr_st e) <? rx_next (pr_st e)) && negb (rc_t_reordering (pr_cfg e) =? 0)
    then pr_set_timer true (pr_set_rx_reord (rx_next (pr_st e)) e) else e in
  Some (e, RxAddReorderingTimeouts 1 :: ev1 ++ ev2).

(** [reordering_callback]: the timer has expired and does not run any more *)
Definition rx_reordering_callback e : option (pdcp_entity_rx * list pdcp_rx_event) :=
  let e := pr_set_timer false e in
  if rk_stopped (pr_ctl e) then Some (e, []) else rx_handle_t_reordering_expire e.

(** The end of [apply_reordering]: the timers *)
Definition rx_handle_timers e : option (pdcp_entity_rx * list pdcp_rx_event) :=
  let e := if pr_timer e && (rx_reord (pr_st e) <=? rx_deliv (pr_st e)) then pr_set_timer false e else e in
  if negb (rc_t_reordering (pr_cfg e) =? t_reordering_infinity) then
    if rc_t_reordering (pr_cfg e) =? 0 then
      rx_handle_t_reordering_expire (pr_set_rx_reord (rx_next (pr_st e)) e)
    else if negb (pr_timer e) && (rx_deliv (pr_st e) <? rx_next (pr_st e)) then
      Some (pr_set_timer true (pr_set_rx_reord (rx_next (pr_st e)) e), [])
    else Some (e, [])
  else Some (e, []).

(** The entry that is stored; with out-of-order delivery the SDU is delivered at once and an empty buffer stays *)
Definition rx_store (s : pdcp_rx_sdu_info) e : option (pdcp_entity_rx * list pdcp_rx_event) :=
  let count := si_count s in
  '(_, w) ← add_sn (pr_window e) count;
  w ← win_put w count s;
  let e := pr_set_window w e in
  let e := if rx_next (pr_st e) <=? count then pr_set_rx_next (u32 (count + 1)) e else e in
  if rc_out_of_order_delivery (pr_cfg e) then
    let '(e, ev) := rx_deliver_sdu s e in
    w ← win_put (pr_window e) count (RxSduInfo [] count (si_integrity_verified s));
    Some (pr_set_window w e, ev)
  else Some (e, []).

(** [apply_reordering] *)
Definition rx_apply_reordering i e : option (pdcp_entity_rx * list pdcp_rx_event) :=
  let rcvd_count := pi_count i in
  if rcvd_count <? rx_deliv (pr_st e) then Some (e, [RxAddDroppedPdus 1]) else
  '(duplicate, w) ←
    (if has_sn (pr_window e) rcvd_count then
       s ← win_get (pr_window e) rcvd_count;
       if si_count s =? rcvd_count then Some (true, pr_window e)
       else w ← remove_sn (pr_window e) rcvd_count; Some (false, w)
     else Some (false, pr_window e));
  if (duplicate : bool) then Some (e, [RxAddDroppedPdus 1]) else
  '(e, ev1) ← rx_store (RxSduInfo (pi_buf i) rcvd_count (pi_integrity_verified i)) (pr_set_window w e);
  '(e, ev2) ← (if rcvd_count =? rx_deliv (pr_st e) then rx_advance_rx_window (rx_next (pr_st e)) true e else Some (e, []));
  '(e, ev3) ← rx_handle_timers e;
  Some (e, ev1 ++ ev2 ++ ev3).

(** *** Security *)

(** [apply_deciphering_and_integrity_check] on the worker [worker_idx] *)
Definition rx_apply_deciphering_and_integrity_check (worker_idx : Z) (buf : list Z) (count : Z) e
  : option (security_status * list Z) :=
  if rc_max_nof_crypto_workers (pr_cfg e) <=? worker_idx then None else
  sec_engine ← rs_pool (pr_sec e) !! Z.to_nat worker_idx;
  match sec_engine with
  | None =>
      if is_srb (pr_base e) then
        if buf_len buf <=? sec_mac_len then Some (buffer_failure, buf) else
        let n := (length buf - Z.to_nat sec_mac_len)%nat in
        if negb (bool_decide (drop n buf = zero_mac)) then Some (integrity_failure, buf)
        else Some (sec_success_unprotected, take n buf)
      else Some (sec_success_unprotected, buf)
  | Some eng => Some (decrypt_and_verify_integrity eng buf (pdcp_data_header_size (pb_sn_size (pr_base e))) count)
  end.

(** [apply_security]: [trim_head] of a buffer that is shorter than the header fails an assertion. *)
Definition rx_apply_security (worker_idx : Z) i e : option (list pdcp_rx_event) :=
  '(status, buf) ← rx_apply_deciphering_and_integrity_check worker_idx (pi_buf i) (pi_count i) e;
  if negb (is_success status) then Some [RxExecUl (RxSecurityFailure status (pi_count i))] else
  let verified := bool_decide (status = sec_success) in
  let hdr_size := pdcp_data_header_size (pb_sn_size (pr_base e)) in
  if buf_len buf <? hdr_size then None else
  Some [RxExecUl (RxReorder (RxPduInfo (drop (Z.to_nat hdr_size) buf) (pi_count i) verified))].

(** A task of the UE executor: [handle_failure], or the metrics and [apply_reordering] *)
Definition rx_run_task (t : pdcp_rx_task) e : option (pdcp_entity_rx * list pdcp_rx_event) :=
  match t with
  | RxSecurityFailure status _ =>
      Some (e, match status with
               | integrity_failure => [RxAddIntegrityFailed 1; RxIntegrityFailure]
               | _ => [RxAddLostPdus 1; RxProtocolFailure]
               end)
  | RxReorder i =>
      '(e, ev) ← rx_apply_reordering i e;
      Some (e, (if pi_integrity_verified i then RxAddIntegrityVerified 1 else RxAddIntegrityUnverified 1) :: ev)
  end.

(** [configure_security]; [make_engine] is [create_security_engine_rx]. *)
Definition rx_configure_security (make_engine : engine_maker E)
    (sec_cfg : sec_128_as_config) (integ : integrity_enabled) (ciph : ciphering_enabled) e : option pdcp_entity_rx :=
  if negb (bool_decide (sc_domain sec_cfg = if is_srb (pr_base e) then domain_rrc else domain_up)) then None else
  if negb (is_srb (pr_base e)) && bool_decide (integ = integrity_smc_transition) then None else
  if bool_decide (integ = integrity_off) && is_srb (pr_base e) then None else
  if negb (bool_decide (integ = integrity_off)) && negb (bool_decide (is_Some (sc_k_128_int sec_cfg))) then Some e else
  if negb (bool_decide (integ = integrity_off)) && negb (bool_decide (is_Some (sc_integ_algo sec_cfg))) then Some e else
  eng ← make_engine sec_cfg (rc_bearer_id (pr_cfg e)) (rc_direction (pr_cfg e)) integ ciph;
  Some (pr_set_sec (RxSec (replicate (Z.to_nat (rc_max_nof_crypto_workers (pr_cfg e))) (Some eng)) integ ciph) e).

(** *** Receiving PDUs *)

(** RCVD_COUNT *)
Definition rx_rcvd_count (sn : Z) e : Z := count_from_sn (pr_base e) (rx_deliv (pr_st e)) sn.

(** [handle_data_pdu] *)
Definition rx_handle_data_pdu (pdu : list Z) e : pdcp_entity_rx * list pdcp_rx_event :=
  let ev0 := [RxAddDataPdus 1 (buf_len pdu)] in
  if buf_len pdu <=? pb_hdr_len_bytes (pr_base e) then (e, ev0 ++ [RxAddDroppedPdus 1]) else
  match read_data_pdu_header (pr_base e) pdu with
  | None => (e, ev0 ++ [RxAddDroppedPdus 1])
  | Some sn =>
      let rcvd_count := rx_rcvd_count sn e in
      let max := rc_max_count (pr_cfg e) in
      let '(e, ev1) :=
        if (max_notify max <? rcvd_count) && negb (rk_max_count_notified (pr_ctl e))
        then (pr_set_max_count true (rk_max_count_overflow (pr_ctl e)) e, [RxMaxCountReached]) else (e, []) in
      if max_hard max <=? rcvd_count then
        if negb (rk_max_count_overflow (pr_ctl e))
        then (pr_set_max_count (rk_max_count_notified (pr_ctl e)) true e, ev0 ++ ev1 ++ [RxProtocolFailure])
        else (e, ev0 ++ ev1)
      else (e, ev0 ++ ev1 ++ [RxExecCrypto (RxPduInfo pdu rcvd_count false)])
  end.

(** [handle_control_pdu] for a non-empty PDU; the assertion that the D/C field says so *)
Definition rx_handle_control_pdu (pdu : list Z) e : option (pdcp_entity_rx * list pdcp_rx_event) :=
  let hdr_byte := nth 0 pdu 0 in
  if bool_decide (pdcp_pdu_get_dc hdr_byte = dc_data) then None else
  Some (e, match pdcp_control_pdu_get_cpt hdr_byte with
           | status_report => [RxStatusReport pdu]
           | interspersed_rohc_feedback => [RxRohcFeedbackReceived pdu]
           | _ => [RxAddDroppedPdus 1]
           end).

(** [handle_pdu]; [copy_ok] tells whether the deep copy of the PDU succeeds. *)
Definition rx_handle_pdu (copy_ok : bool) (buf : list Z) e : option (pdcp_entity_rx * list pdcp_rx_event) :=
  if rk_stopped (pr_ctl e) then Some (e, [RxAddDroppedPdus 1]) else
  let '(e, ev0) :=
    if rk_suspended (pr_ctl e) && negb (rk_resume_requested (pr_ctl e))
    then (pr_set_suspended true true e, [RxResumeRequired]) else (e, []) in
  if rk_buffering (pr_ctl e) then
    '(pushed, q) ← rb_try_push buf (rk_pdu_buffer (pr_ctl e));
    let e := pr_set_pdu_buffer q e in
    Some (e, ev0 ++ if (pushed : bool) then [] else [RxAddDroppedPdus 1])
  else
    let ev0 := ev0 ++ [RxAddPdus 1 (buf_len buf)] in
    if is_nil buf then Some (e, ev0 ++ [RxAddDroppedPdus 1]) else
    if negb copy_ok then Some (e, ev0 ++ [RxAddDroppedPdus 1]) else
    if is_srb (pr_base e) || bool_decide (pdcp_pdu_get_dc (nth 0 buf 0) = dc_data) then
      let '(e, ev1) := rx_handle_data_pdu buf e in Some (e, ev0 ++ ev1)
    else '(e, ev1) ← rx_handle_control_pdu buf e; Some (e, ev0 ++ ev1).

(** *** Life cycle *)

(** [stop] *)
Definition rx_stop e : pdcp_entity_rx := if rk_stopped (pr_ctl e) then e else pr_set_timer false (pr_set_stopped true e).

Definition rx_begin_buffering e : pdcp_entity_rx := pr_set_buffering true e.

(** [end_buffering] *)
Fixpoint rx_flush_loop (fuel : nat) (copy_ok : bool) e : option (pdcp_entity_rx * list pdcp_rx_event) :=
  if rb_empty (rk_pdu_buffer (pr_ctl e)) then Some (e, []) else
  match fuel with
  | O => None
  | S fuel =>
      buf ← rb_top (rk_pdu_buffer (pr_ctl e));
      q ← rb_pop (rk_pdu_buffer (pr_ctl e));
      '(e, ev1) ← rx_handle_pdu copy_ok buf (pr_set_pdu_buffer q e);
      '(e, ev2) ← rx_flush_loop fuel copy_ok e;
      Some (e, ev1 ++ ev2)
  end.
Definition rx_end_buffering (copy_ok : bool) e : option (pdcp_entity_rx * list pdcp_rx_event) :=
  let e := pr_set_buffering false e in
  rx_flush_loop (Z.to_nat (rb_size (rk_pdu_buffer (pr_ctl e)))) copy_ok e.

(** [suspend] *)
Definition rx_suspend e : option (bool * pdcp_entity_rx * list pdcp_rx_event) :=
  if rk_suspended (pr_ctl e) || negb (rk_buffering (pr_ctl e)) then Some (false, e, []) else
  '(e, ev) ← rx_advance_rx_window (rx_next (pr_st e)) false (pr_set_timer false e);
  Some (true, pr_set_suspended true (rk_resume_requested (pr_ctl e)) (pr_set_st pdcp_rx_state_init e), ev).

(** [resume] *)
Definition rx_resume e : bool * pdcp_entity_rx :=
  if negb (rk_suspended (pr_ctl e)) || negb (rk_buffering (pr_ctl e)) then (false, e)
  else (true, pr_set_suspended false false e).

(** [reestablish] *)
Definition rx_reestablish (make_engine : engine_maker E)
    (rohc : option R) (sec_cfg : sec_128_as_config) e : option (pdcp_entity_rx * list pdcp_rx_event) :=
  let b := pr_base e in
  e ← (if is_srb b then rx_discard_rx_window e else Some e);
  '(e, ev) ←
    (if is_srb b || is_um b then
       let e := pr_set_timer false e in
       if is_um b then rx_advance_rx_window (rx_next (pr_st e)) false e else Some (e, [])
     else Some (e, []));
  let e := rx_init_header_decompression rohc e in
  let e := if is_srb b || is_um b then pr_set_st pdcp_rx_state_init e else e in
  e ← rx_configure_security make_engine sec_cfg (rs_integrity (pr_sec e)) (rs_ciphering (pr_sec e)) e;
  Some (e, ev).

(** [get_count] and [set_count] *)
Definition rx_get_count e : pdcp_count_info :=
  CountInfo (SN (pr_base e) (rx_deliv (pr_st e))) (HFN (pr_base e) (rx_deliv (pr_st e))).
Definition rx_set_count (c : pdcp_count_info) e : pdcp_entity_rx :=
  let count := COUNT (pr_base e) (ci_hfn c) (ci_sn c) in
  pr_set_st (RxState count count count) e.

(** *** Status reports *)

(** The result of [enc.pack] is not looked at *)
Definition pack_ignore (val n_bits : Z) (enc : bit_encoder) : option bit_encoder :=
  '(_, enc) ← bit_pack val n_bits enc; Some enc.

(** The loop over the bitmap *)
Fixpoint rx_bitmap_loop (fuel : nat) (c bitmap_end : Z) (w : W) (enc : bit_encoder) : option bit_encoder :=
  if c <? bitmap_end then
    match fuel with
    | O => None
    | S fuel =>
        enc ← pack_ignore (if has_sn w c then 1 else 0) 1 enc;
        rx_bitmap_loop fuel (u32 (c + 1)) bitmap_end w enc
    end
  else Some enc.

(** [compile_status_report]; [room] is how many octets the buffer can take. *)
Definition rx_compile_status_report (room : nat) e : option (list Z) :=
  enc ← pack_ignore (pdcp_dc_to_number dc_control) 1 (bit_encoder_new room);
  enc ← pack_ignore (cpt_to_number status_report) 3 enc;
  enc ← pack_ignore 0 4 enc;
  enc ← pack_ignore (rx_deliv (pr_st e)) 32 enc;
  let max_bits := (pdcp_control_pdu_max_size - 5) * 8 in
  let bitmap_begin := u32 (rx_deliv (pr_st e) + 1) in
  let bitmap_end := rx_next (pr_st e) in
  let bitmap_end :=
    if (bitmap_begin <? bitmap_end) && (max_bits <? u32 (bitmap_end - bitmap_begin)) then u32 (bitmap_begin + max_bits) else bitmap_end in
  enc ← rx_bitmap_loop (Z.to_nat (bitmap_end - bitmap_begin)) bitmap_begin bitmap_end (pr_window e) enc;
  Some (enc_bytes enc).
End entity.
Arguments pdcp_rx_security : clear implicits.
Arguments pdcp_entity_rx : clear implicits.
