(* ===== verification/PdcpRxFacts.v ===== *)
(** * Facts about the operations of the PDCP receiver

    Each operation as a function of the finite map the window holds: which SDUs it delivers, and where RX_DELIV ends up. *)
From S2P Require Import Prelude SduWindow CircularMap RingBuffer PdcpSn SecurityEngine PdcpBase PdcpRx.

(** The SDUs that a list of events delivers, and the tasks it hands to the executors. *)
Definition rx_sdus (ev : list pdcp_rx_event) : list (list Z * bool) :=
  omap (fun x => match x with RxNewSdu d v => Some (d, v) | _ => None end) ev.
Definition rx_crypto_tasks (ev : list pdcp_rx_event) : list pdcp_rx_pdu_info :=
  omap (fun x => match x with RxExecCrypto i => Some i | _ => None end) ev.
Definition rx_ul_tasks (ev : list pdcp_rx_event) : list pdcp_rx_task :=
  omap (fun x => match x with RxExecUl t => Some t | _ => None end) ev.
Definition no_tasks (ev : list pdcp_rx_event) : Prop := rx_crypto_tasks ev = [] /\ rx_ul_tasks ev = [].

Lemma rx_sdus_app a b : rx_sdus (a ++ b) = rx_sdus a ++ rx_sdus b.
Proof. apply omap_app. Qed.
Lemma no_tasks_app a b : no_tasks a -> no_tasks b -> no_tasks (a ++ b).
Proof. intros [H1 H2] [H3 H4]. unfold no_tasks, rx_crypto_tasks, rx_ul_tasks in *. by rewrite !omap_app, H1, H2, H3, H4. Qed.
Lemma no_tasks_nil : no_tasks []. Proof. done. Qed.
#[export] Hint Resolve no_tasks_app no_tasks_nil : pdcp.

Notation rx_map := (gmap Z pdcp_rx_sdu_info).
Implicit Types M : rx_map.

(** The elements from a COUNT on. *)
Definition keys_from (d : Z) M : rx_map := filter (fun x => d <= x.1) M.

Lemma keys_from_lookup d M k : keys_from d M !! k = if decide (d <= k) then M !! k else None.
Proof.
  unfold keys_from. case_decide as Hd.
  - destruct (M !! k) as [x|] eqn:E; [by apply map_lookup_filter_Some|apply map_lookup_filter_None; by left].
  - apply map_lookup_filter_None. right. intros x _. cbn. lia.
Qed.

Lemma keys_from_all d M : (forall k, is_Some (M !! k) -> d <= k) -> keys_from d M = M.
Proof.
  intros Hk. apply map_eq. intros k. rewrite keys_from_lookup. case_decide; [done|].
  destruct (M !! k) eqn:E; [|done]. assert (d <= k) by (apply Hk; by rewrite E). done.
Qed.

Lemma keys_from_from a b M : a <= b -> keys_from b (keys_from a M) = keys_from b M.
Proof. intros Hab. apply map_eq. intros k. rewrite !keys_from_lookup. repeat case_decide; try done; lia. Qed.

(** The SDUs of [M] in the order of their COUNTs, from [a] to [b]; an empty buffer was delivered before. *)
Definition pending_sdu (s : pdcp_rx_sdu_info) : option (list Z * bool) :=
  if is_nil (si_buf s) then None else Some (si_buf s, si_integrity_verified s).
Definition sdus_between M (a b : Z) : list (list Z * bool) := omap (fun k => M !! k ≫= pending_sdu) (seqZ a (b - a)).

Lemma sdus_between_nil M a b : b <= a -> sdus_between M a b = [].
Proof. intros Hab. unfold sdus_between. by rewrite seqZ_nil by lia. Qed.

Lemma sdus_between_cons M a b :
  a < b -> sdus_between M a b = option_list (M !! a ≫= pending_sdu) ++ sdus_between M (a + 1) b.
Proof.
  intros Hab. unfold sdus_between. rewrite (seqZ_cons a) by lia. cbn [omap list_omap].
  replace (Z.succ a) with (a + 1) by lia. replace (Z.pred (b - a)) with (b - (a + 1)) by lia. by destruct (M !! a ≫= pending_sdu).
Qed.

Lemma sdus_between_app M a b c : a <= b <= c -> sdus_between M a c = sdus_between M a b ++ sdus_between M b c.
Proof.
  intros Habc. unfold sdus_between. rewrite <- omap_app. f_equal.
  replace (c - a) with (b - a + (c - b)) by lia. rewrite seqZ_app by lia. f_equal. f_equal. lia.
Qed.

Lemma sdus_between_ext M1 M2 a b : (forall k, a <= k < b -> M1 !! k = M2 !! k) -> sdus_between M1 a b = sdus_between M2 a b.
Proof.
  intros Hk. unfold sdus_between. apply list_omap_ext, Forall2_same_length_lookup_2; [done|]. intros i x y Hx Hy.
  rewrite Hx in Hy. injection Hy as <-. apply lookup_seqZ in Hx as [-> Hi]. by rewrite Hk by lia.
Qed.

Section facts.
Context {E R W : Type} `{SecurityEngineRx E, RohcDecompressor R}.
Context `{SduWindowLaws pdcp_rx_sdu_info W pdcp_rx_sdu_info_init}
  `{!SduWindowClear pdcp_rx_sdu_info W} `{!SduWindowClearLaws pdcp_rx_sdu_info W}.
Notation entity := (pdcp_entity_rx E R W).
Implicit Types e : entity.
Notation deliv e := (rx_deliv (pr_st e)).
Notation next e := (rx_next (pr_st e)).
Notation reord e := (rx_reord (pr_st e)).

(** What delivering does not touch; an entity without a decompressor never gets one. *)
Definition rx_frame e e' : Prop :=
  pr_cfg e' = pr_cfg e /\ pr_sec e' = pr_sec e /\ pr_ctl e' = pr_ctl e /\ (pr_rohc e = None -> pr_rohc e' = None).

Lemma rx_frame_refl e : rx_frame e e. Proof. done. Qed.
Lemma rx_frame_trans e1 e2 e3 : rx_frame e1 e2 -> rx_frame e2 e3 -> rx_frame e1 e3.
Proof. intros (? & ? & ? & ?) (? & ? & ? & ?). split_and!; [congruence..|auto]. Qed.

Lemma rx_deliver_spec s e :
  exists e' ev, rx_deliver_sdu s e = (e', ev) /\ rx_frame e e' /\ pr_st e' = pr_st e /\ pr_window e' = pr_window e /\
    pr_timer e' = pr_timer e /\ no_tasks ev /\ (pr_rohc e = None -> rx_sdus ev = [(si_buf s, si_integrity_verified s)]).
Proof.
  unfold rx_deliver_sdu, rx_apply_header_decompression, rx_frame. destruct (pr_rohc e) as [r|] eqn:Er.
  - destruct (decompress r (si_buf s)) as [[packet feedback] r']. destruct (is_nil packet), (is_nil feedback); cbn [andb negb];
      eexists _, _; (split; [reflexivity|]); split_and!; try done; try congruence; cbn; intros; congruence.
  - exists e, [RxAddSdus 1 (buf_len (si_buf s)); RxNewSdu (si_buf s) (si_integrity_verified s)]. split_and!; try done; cbn; congruence.
Qed.

(** Delivering from RX_DELIV on. *)
Lemma rx_advance_loop_spec fuel : forall stop gap e M,
  win_holds (pr_window e) M -> (forall k, is_Some (M !! k) -> deliv e <= k) -> 0 <= deliv e -> stop < 2 ^ 32 ->
  stop - deliv e <= Z.of_nat fuel ->
  exists e' ev d, rx_advance_loop fuel stop gap e = Some (e', ev) /\ rx_frame e e' /\ pr_timer e' = pr_timer e /\ no_tasks ev /\
    pr_st e' = RxState (next e) d (reord e) /\ win_cap (pr_window e') = win_cap (pr_window e) /\
    win_holds (pr_window e') (keys_from d M) /\
    deliv e <= d <= Z.max (deliv e) stop /\
    (gap = false -> d = Z.max (deliv e) stop) /\
    (gap = true -> (forall k, deliv e <= k < d -> is_Some (M !! k)) /\ (d < stop -> M !! d = None)) /\
    (pr_rohc e = None -> rx_sdus ev = sdus_between M (deliv e) d).
Proof.
  induction fuel as [|fuel IH]; intros stop gap e M Hw Hk Hd Hstop Hfuel; cbn [rx_advance_loop].
  { rewrite (proj2 (Z.ltb_ge _ _)) by lia. exists e, [], (deliv e). rewrite Z.max_l, keys_from_all, sdus_between_nil by (done || lia).
    split_and!; try done; try lia; try (by destruct (pr_st e)). intros _. split; lia. }
  destruct (Z.ltb_spec (deliv e) stop) as [Hlt|Hge].
  2: { exists e, [], (deliv e). rewrite Z.max_l, keys_from_all, sdus_between_nil by (done || lia).
       split_and!; try done; try lia; try (by destruct (pr_st e)). intros _. split; lia. }
  assert (Eu : u32 (deliv e + 1) = deliv e + 1) by (rewrite u32_eq; lia).
  rewrite (holds_has _ M), (holds_get _ M) by done. destruct (M !! deliv e) as [s|] eqn:Es.
  - rewrite bool_decide_true by by eexists. cbn [mbind option_bind].
    assert (Hdel : exists e1 ev1, (if negb (is_nil (si_buf s)) then rx_deliver_sdu s e else (e, [])) = (e1, ev1) /\ rx_frame e e1 /\
      pr_st e1 = pr_st e /\ pr_window e1 = pr_window e /\ pr_timer e1 = pr_timer e /\ no_tasks ev1 /\
      (pr_rohc e = None -> rx_sdus ev1 = option_list (pending_sdu s))).
    { unfold pending_sdu. destruct (is_nil (si_buf s)); cbn [negb]; [by exists e, []|].
      destruct (rx_deliver_spec s e) as (e1 & ev1 & ? & ? & ? & ? & ? & ? & ?). by exists e1, ev1. }
    destruct Hdel as (e1 & ev1 & -> & Hf1 & Hst1 & Hw1 & Ht1 & Hn1 & Hs1). rewrite Hw1.
    destruct (holds_remove (pr_window e) M (deliv e) Hw) as (w & -> & Hw' & Hc'); [by rewrite Es|]. cbn [mbind option_bind].
    set (e2 := pr_set_rx_deliv (u32 (deliv e + 1)) (pr_set_window w e1)).
    assert (Hst2 : pr_st e2 = RxState (next e) (deliv e + 1) (reord e)) by (unfold e2, pr_set_rx_deliv; cbn; by rewrite Hst1, Eu).
    destruct (IH stop gap e2 (delete (deliv e) M)) as (e3 & ev3 & d & -> & Hf3 & Ht3 & Hn3 & Hst3 & Hc3 & Hw3 & Hd3 & Hnogap & Hgap & Hs3);
      rewrite ?Hst2; cbn [rx_deliv rx_next rx_reord] in *.
    + done.
    + intros k [x Hx]. rewrite lookup_delete in Hx. case_decide; [done|]. assert (deliv e <= k) by (apply Hk; by eexists). lia.
    + lia.
    + lia.
    + lia.
    + rewrite Hst2 in *. cbn [rx_deliv rx_next rx_reord] in *. cbn [mbind option_bind].
      eexists _, _, d. split; [reflexivity|]. split; [eapply rx_frame_trans; [exact Hf1|]; eapply rx_frame_trans; [|exact Hf3]; done|].
      split; [rewrite Ht3; exact Ht1|]. split; [by apply no_tasks_app|]. split; [done|]. split; [rewrite Hc3; cbn; congruence|].
      split; [replace (keys_from d M) with (keys_from d (delete (deliv e) M)); [done|]|].
      { apply map_eq. intros k. rewrite !keys_from_lookup, lookup_delete. repeat case_decide; try done; lia. }
      split; [lia|]. split; [intros ->; rewrite Hnogap by done; lia|]. split.
      * intros ->. destruct (Hgap eq_refl) as [Hg1 Hg2]. split.
        -- intros k Hkr. destruct (decide (k = deliv e)) as [->|]; [by eexists|]. specialize (Hg1 k ltac:(lia)).
           rewrite lookup_delete_ne in Hg1 by lia. done.
        -- intros Hds. specialize (Hg2 Hds). rewrite lookup_delete_ne in Hg2 by lia. done.
      * intros Hr. rewrite rx_sdus_app, Hs1 by done. destruct Hf1 as (_ & _ & _ & Hr1). rewrite Hs3 by (cbn; auto).
        rewrite (sdus_between_cons M (deliv e) d), Es by lia. cbn [mbind option_bind]. f_equal.
        apply sdus_between_ext. intros k Hkr. by rewrite lookup_delete_ne by lia.
  - rewrite bool_decide_false by by intros []. destruct gap.
    + exists e, [], (deliv e). rewrite keys_from_all, sdus_between_nil by (done || lia).
      split_and!; try done; try lia; try (by destruct (pr_st e)). intros _. split; [lia|done].
    + set (e2 := pr_set_rx_deliv (u32 (deliv e + 1)) e).
      assert (Hst2 : pr_st e2 = RxState (next e) (deliv e + 1) (reord e)) by (unfold e2, pr_set_rx_deliv; cbn; by rewrite Eu).
      destruct (IH stop false e2 M) as (e3 & ev3 & d & -> & Hf3 & Ht3 & Hn3 & Hst3 & Hc3 & Hw3 & Hd3 & Hnogap & Hgap & Hs3);
        rewrite ?Hst2; cbn [rx_deliv rx_next rx_reord] in *.
      * done.
      * intros k Hs. assert (deliv e <= k) by by apply Hk. assert (k <> deliv e) by (intros ->; rewrite Es in Hs; by destruct Hs). lia.
      * lia.
      * lia.
      * lia.
      * rewrite Hst2 in *. cbn [rx_deliv rx_next rx_reord] in *. exists e3, ev3, d. split_and!; try done; try lia.
        -- intros Hr. rewrite Hs3 by done. by rewrite (sdus_between_cons M (deliv e) d), Es by lia.
Qed.

(** ** Invariant *)
Definition rx_core e M : Prop :=
  pdcp_base_ok (pr_base e) /\ 0 <= deliv e <= next e /\ next e < 2 ^ 32 /\ 0 <= reord e <= next e /\
  win_holds (pr_window e) M /\ win_cap (pr_window e) = half (pr_base e) /\
  forall k s, M !! k = Some s -> deliv e <= k < next e /\ k < deliv e + half (pr_base e) /\ si_count s = k.

(** Between two operations: the first SDU that is waited for is not in the window, and the timer waits for an SDU. *)
Definition rx_inv e M : Prop :=
  rx_core e M /\ M !! deliv e = None /\ (pr_timer e = true -> 0 < rc_t_reordering (pr_cfg e) /\ deliv e < reord e).

(** With a finite t-Reordering the timer runs exactly while an SDU is missing. *)
Definition rx_live e : Prop :=
  0 < rc_t_reordering (pr_cfg e) -> pr_timer e = bool_decide (deliv e < next e).

Lemma rx_core_frame e e' M M' d n r :
  rx_core e M -> rx_frame e e' -> pr_st e' = RxState n d r -> win_cap (pr_window e') = win_cap (pr_window e) ->
  win_holds (pr_window e') M' -> 0 <= d <= n -> n < 2 ^ 32 -> 0 <= r <= n ->
  (forall k s, M' !! k = Some s -> d <= k < n /\ k < d + half (pr_base e) /\ si_count s = k) -> rx_core e' M'.
Proof.
  intros (Hb & _ & _ & _ & _ & Hc & _) (Ecfg & _) Est Ecap Hw Hd Hn Hr HM.
  assert (Eb : pr_base e' = pr_base e) by (unfold pr_base; by rewrite Ecfg).
  unfold rx_core. rewrite Eb, Est, Ecap. cbn [rx_deliv rx_next rx_reord]. done.
Qed.

Lemma rx_core_keys e M k : rx_core e M -> is_Some (M !! k) -> deliv e <= k.
Proof. intros (_ & _ & _ & _ & _ & _ & HM) [s Hs]. by apply (HM k s). Qed.

Lemma half_pos e M : rx_core e M -> 0 < half (pr_base e).
Proof. intros (Hb & _). destruct (pdcp_base_fields _ Hb) as (_ & _ & _ & _ & [[-> _]|[-> _]]); lia. Qed.

Lemma rx_advance_spec stop gap e M :
  rx_core e M -> stop <= next e ->
  exists e' ev d, rx_advance_rx_window stop gap e = Some (e', ev) /\ rx_frame e e' /\ pr_timer e' = pr_timer e /\ no_tasks ev /\
    pr_st e' = RxState (next e) d (reord e) /\ rx_core e' (keys_from d M) /\
    deliv e <= d <= Z.max (deliv e) stop /\
    (gap = false -> d = Z.max (deliv e) stop) /\
    (gap = true -> (forall k, deliv e <= k < d -> is_Some (M !! k)) /\ (d < stop -> M !! d = None)) /\
    (pr_rohc e = None -> rx_sdus ev = sdus_between M (deliv e) d).
Proof.
  intros Hinv Hstop. pose proof Hinv as (Hb & Hd & Hn & Hr & Hw & Hc & HM). unfold rx_advance_rx_window.
  rewrite (proj2 (Z.ltb_ge _ _)) by lia.
  destruct (rx_advance_loop_spec (Z.to_nat (stop - deliv e)) stop gap e M Hw) as
    (e' & ev & d & -> & Hf & Ht & Hnt & Hst & Hcap & Hw' & Hd' & Hno & Hgap & Hs); [by intros k; apply rx_core_keys|lia|lia|lia|].
  exists e', ev, d. split_and!; try done; try lia.
  apply (rx_core_frame e e' M _ d (next e) (reord e)); try done; try lia.
  intros k s. rewrite keys_from_lookup. case_decide; [|done]. intros Hs'. destruct (HM k s Hs') as (? & ? & ?). lia.
Qed.

(** ** The expiry of t-Reordering *)
Lemma rx_expire_spec e M :
  rx_core e M ->
  exists e' ev d, rx_handle_t_reordering_expire e = Some (e', RxAddReorderingTimeouts 1 :: ev) /\ rx_frame e e' /\ no_tasks ev /\
    next e' = next e /\ deliv e' = d /\ rx_core e' (keys_from d M) /\ M !! d = None /\
    Z.max (deliv e) (reord e) <= d <= next e /\ (forall k, Z.max (deliv e) (reord e) <= k < d -> is_Some (M !! k)) /\
    (d < next e -> rc_t_reordering (pr_cfg e) <> 0 -> reord e' = next e /\ pr_timer e' = true) /\
    ((next e <= d \/ rc_t_reordering (pr_cfg e) = 0) -> reord e' = reord e /\ pr_timer e' = pr_timer e) /\
    (pr_rohc e = None -> rx_sdus ev = sdus_between M (deliv e) d).
Proof.
  intros Hinv. pose proof Hinv as (Hb & Hd & Hn & Hr & Hw & Hc & HM). unfold rx_handle_t_reordering_expire.
  destruct (rx_advance_spec (reord e) false e M Hinv) as (e1 & ev1 & d1 & -> & Hf1 & Ht1 & Hn1 & Hst1 & Hi1 & Hd1 & Hno & _ & Hs1); [lia|].
  specialize (Hno eq_refl). cbn [mbind option_bind].
  destruct (rx_advance_spec (next e1) true e1 (keys_from d1 M) Hi1) as (e2 & ev2 & d & -> & Hf2 & Ht2 & Hn2 & Hst2 & Hi2 & Hd2 & _ & Hgap & Hs2);
    [by lia|]. destruct (Hgap eq_refl) as [Hg1 Hg2]. cbn [mbind option_bind].
  assert (Hf : rx_frame e e2) by by eapply rx_frame_trans.
  rewrite Hst1 in *. cbn [rx_next rx_deliv rx_reord] in *. rewrite keys_from_from in Hi2 by lia. rewrite Hst2. cbn [rx_next rx_deliv rx_reord].
  assert (Ecfg : pr_cfg e2 = pr_cfg e) by apply Hf. rewrite Ecfg.
  assert (Hsd : pr_rohc e = None -> rx_sdus (ev1 ++ ev2) = sdus_between M (deliv e) d).
  { intros Hrn. rewrite rx_sdus_app, Hs1, Hs2 by (done || apply Hf1, Hrn). rewrite (sdus_between_app M (deliv e) d1 d) by lia. f_equal.
    apply sdus_between_ext. intros k Hk. rewrite keys_from_lookup. by rewrite decide_True by lia. }
  assert (HMd : M !! d = None).
  { destruct (decide (d < next e)) as [Hlt|].
    - specialize (Hg2 Hlt). rewrite keys_from_lookup in Hg2. by rewrite decide_True in Hg2 by lia.
    - destruct (M !! d) as [s|] eqn:Es; [|done]. destruct (HM d s Es). lia. }
  assert (Hpres : forall k, Z.max (deliv e) (reord e) <= k < d -> is_Some (M !! k)).
  { intros k Hk. specialize (Hg1 k ltac:(lia)). rewrite keys_from_lookup in Hg1. by rewrite decide_True in Hg1 by lia. }
  destruct (Z.ltb_spec d (next e)) as [Hlt|Hge]; cbn [andb]; [destruct (Z.eqb_spec (rc_t_reordering (pr_cfg e)) 0) as [E0|E0]; cbn [negb]|].
  - exists e2, (ev1 ++ ev2), d. rewrite Hst2. cbn [rx_next rx_deliv rx_reord].
    split_and!; try done; try lia; [by apply no_tasks_app|]. intros _. split; [done|congruence].
  - eexists _, (ev1 ++ ev2), d. split; [reflexivity|]. cbn [pr_set_timer pr_set_rx_reord pr_set_st pr_st pr_timer rx_next rx_deliv rx_reord].
    rewrite Hst2. cbn [rx_next rx_deliv rx_reord]. split_and!; try done; try lia; [by apply no_tasks_app|].
    apply (rx_core_frame e2 _ (keys_from d M) _ d (next e) (next e)); try done; try lia;
      [unfold pr_set_rx_reord; cbn; by rewrite Hst2|by apply Hi2|].
    destruct Hi2 as (_ & _ & _ & _ & _ & _ & HM2). rewrite Hst2 in HM2. done.
  - exists e2, (ev1 ++ ev2), d. rewrite Hst2. cbn [rx_next rx_deliv rx_reord].
    split_and!; try done; try lia; [by apply no_tasks_app|]. intros _. split; [done|congruence].
Qed.
(** ** Reordering *)

(** What is stored for a PDU: with out-of-order delivery only its trace. *)
Definition rx_stored e i : pdcp_rx_sdu_info :=
  RxSduInfo (if rc_out_of_order_delivery (pr_cfg e) then [] else pi_buf i) (pi_count i) (pi_integrity_verified i).

(** PDUs that are dropped: delivered or given up before, or in the window. *)
Definition rx_drops e M (count : Z) : Prop := count < deliv e \/ is_Some (M !! count).
#[export] Instance rx_drops_dec e M count : Decision (rx_drops e M count) := _.

Lemma rx_store_spec i e M :
  rx_core e M -> ~ rx_drops e M (pi_count i) -> pi_count i < deliv e + half (pr_base e) -> pi_count i + 1 < 2 ^ 32 ->
  exists e' ev, rx_store (RxSduInfo (pi_buf i) (pi_count i) (pi_integrity_verified i)) e = Some (e', ev) /\ rx_frame e e' /\
    no_tasks ev /\ pr_timer e' = pr_timer e /\ pr_st e' = RxState (Z.max (next e) (pi_count i + 1)) (deliv e) (reord e) /\
    rx_core e' (<[pi_count i := rx_stored e i]> M) /\
    (pr_rohc e = None -> rx_sdus ev = if rc_out_of_order_delivery (pr_cfg e) then [(pi_buf i, pi_integrity_verified i)] else []).
Proof.
  intros Hinv Hdrop Hc Hmax. pose proof Hinv as (Hb & Hd & Hn & Hr & Hw & Hcap & HM). unfold rx_drops in Hdrop.
  set (c := pi_count i) in *. assert (Hcd : deliv e <= c) by lia.
  assert (Hnone : M !! c = None) by (destruct (M !! c) eqn:EM; [destruct Hdrop; right; by eexists|done]).
  assert (Hfree : residue_free (pr_window e) M c).
  { apply (residue_free_interval _ _ (deliv e)); [|lia|done]. intros q [s Hs]. destruct (HM q s Hs) as (? & ? & _). lia. }
  unfold rx_store. cbn [si_count].
  destruct (holds_add_put (pr_window e) M c (RxSduInfo (pi_buf i) c (pi_integrity_verified i)) Hw) as (w1 & w2 & -> & E2 & Hw2 & Hc2);
    [lia|done|]. cbn [mbind option_bind]. rewrite E2. cbn [mbind option_bind].
  set (e1 := pr_set_window w2 e).
  set (e2 := if next e1 <=? c then pr_set_rx_next (u32 (c + 1)) e1 else e1).
  assert (He2 : rx_frame e e2 /\ pr_timer e2 = pr_timer e /\ pr_window e2 = w2 /\
    pr_st e2 = RxState (Z.max (next e) (c + 1)) (deliv e) (reord e)).
  { unfold e2, e1. cbn [pr_set_window pr_st]. destruct (Z.leb_spec (next e) c).
    - rewrite Z.max_r by lia. assert (u32 (c + 1) = c + 1) as -> by (rewrite u32_eq; lia). done.
    - rewrite Z.max_l by lia. by destruct (pr_st e) eqn:Est; cbn; rewrite Est. }
  destruct He2 as (Hf2 & Ht2 & Hwin2 & Hst2). clearbody e2.
  assert (Hkeys : forall s k x, (<[c := s]> M) !! k = Some x -> si_count s = c ->
    deliv e <= k < Z.max (next e) (c + 1) /\ k < deliv e + half (pr_base e) /\ si_count x = k).
  { intros s k x. rewrite lookup_insert. case_decide; [intros [= <-]; lia|]. intros Hx. destruct (HM k x Hx) as (? & ? & ?). lia. }
  assert (Ecfg : pr_cfg e2 = pr_cfg e) by apply Hf2. rewrite Ecfg. unfold rx_stored. destruct (rc_out_of_order_delivery (pr_cfg e)).
  - destruct (rx_deliver_spec (RxSduInfo (pi_buf i) c (pi_integrity_verified i)) e2) as (e3 & ev & -> & Hf3 & Hst3 & Hw3 & Ht3 & Hn3 & Hs3).
    rewrite Hw3, Hwin2. cbn [si_integrity_verified]. destruct (holds_put w2 _ c (RxSduInfo [] c (pi_integrity_verified i)) Hw2) as (w4 & -> & Hw4 & Hc4);
      [rewrite lookup_insert_eq; by eexists|]. cbn [mbind option_bind]. rewrite insert_insert_eq in Hw4.
    eexists _, ev. split; [reflexivity|]. assert (Hf : rx_frame e (pr_set_window w4 e3)) by by eapply rx_frame_trans; [|exact Hf3].
    split; [done|]. split; [done|]. split; [cbn; congruence|]. split; [cbn; congruence|]. split.
    + eapply (rx_core_frame e _ M _ (deliv e) (Z.max (next e) (c + 1)) (reord e)); try done; try lia; [cbn; congruence|cbn; congruence|]. intros k s Hs. by apply (Hkeys _ k s Hs).
    + intros Hrn. apply Hs3, Hf2, Hrn.
  - eexists _, []. split; [reflexivity|]. split_and!; try done.
    eapply (rx_core_frame e _ M _ (deliv e) (Z.max (next e) (c + 1)) (reord e)); try done; try lia; [congruence|by rewrite Hwin2|]. intros k s Hs. by apply (Hkeys _ k s Hs).
Qed.

(** The first COUNT from [a] on that [M] lacks, or [n]. *)
Definition first_gap M (a n d : Z) : Prop := a <= d <= n /\ (forall k, a <= k < d -> is_Some (M !! k)) /\ (d < n -> M !! d = None).

Lemma first_gap_unique M a n d1 d2 : first_gap M a n d1 -> first_gap M a n d2 -> d1 = d2.
Proof.
  intros (? & P1 & N1) (? & P2 & N2). destruct (Z.lt_trichotomy d1 d2) as [Hlt|[->|Hlt]]; [|done|]; exfalso.
  - destruct (P2 d1 ltac:(lia)) as [x Hx]. by rewrite N1 in Hx by lia.
  - destruct (P1 d2 ltac:(lia)) as [x Hx]. by rewrite N2 in Hx by lia.
Qed.

Lemma rx_timers_spec e M :
  rx_core e M -> M !! deliv e = None \/ rc_t_reordering (pr_cfg e) = 0 ->
  -1 <= rc_t_reordering (pr_cfg e) -> (pr_timer e = true -> 0 < rc_t_reordering (pr_cfg e)) ->
  exists e' ev d, rx_handle_timers e = Some (e', ev) /\ rx_frame e e' /\ no_tasks ev /\
    next e' = next e /\ deliv e' = d /\ rx_inv e' (keys_from d M) /\ deliv e <= d /\
    d = (if rc_t_reordering (pr_cfg e) =? 0 then next e else deliv e) /\ rx_live e' /\
    (pr_rohc e = None -> rx_sdus ev = sdus_between M (deliv e) d).
Proof.
  intros Hinv Hgap Ht Htimer. unfold rx_handle_timers, t_reordering_infinity.
  set (e1 := if pr_timer e && _ then _ else _).
  assert (He1 : rx_frame e e1 /\ pr_st e1 = pr_st e /\ pr_window e1 = pr_window e /\
    (pr_timer e1 = true -> 0 < rc_t_reordering (pr_cfg e) /\ deliv e < reord e)).
  { unfold e1. destruct (pr_timer e) eqn:Et, (Z.leb_spec (reord e) (deliv e)); cbn [andb]; split_and!; try done;
      solve [congruence | intros _; split; [by auto|lia]]. }
  destruct He1 as (Hf1 & Hst1 & Hw1 & Ht1). clearbody e1.
  pose proof Hinv as (Hb & Hd & Hn & Hr & Hw & Hcap & HM).
  assert (Hcore1 : forall r b, 0 <= r <= next e -> rx_core (pr_set_timer b (pr_set_rx_reord r e1)) M).
  { intros r b Hrr. eapply (rx_core_frame e _ M _ (deliv e) (next e) r); try done; cbn; [by rewrite Hst1|by rewrite Hw1|by rewrite Hw1]. }
  assert (Hcore0 : rx_core e1 M) by (unfold rx_core in *; rewrite Hst1, Hw1; unfold pr_base in *; by rewrite (proj1 Hf1)).
  assert (Ecfg : pr_cfg e1 = pr_cfg e) by apply Hf1. rewrite Ecfg.
  assert (Hkeep : M !! deliv e = None -> rc_t_reordering (pr_cfg e) <> 0 -> pr_timer e1 = true \/ next e <= deliv e \/ rc_t_reordering (pr_cfg e) = -1 ->
    exists e' ev d, Some (e1, []) = Some (e', ev) /\ rx_frame e e' /\ no_tasks ev /\ next e' = next e /\ deliv e' = d /\
      rx_inv e' (keys_from d M) /\ deliv e <= d /\ d = (if rc_t_reordering (pr_cfg e) =? 0 then next e else deliv e) /\ rx_live e' /\
      (pr_rohc e = None -> rx_sdus ev = sdus_between M (deliv e) d)).
  { intros HMd Hz Hwhy. exists e1, [], (deliv e). rewrite (proj2 (Z.eqb_neq _ _)) by done. rewrite Hst1.
    rewrite keys_from_all by (intros k; by apply rx_core_keys). rewrite sdus_between_nil by lia. split_and!; try done; try lia.
    - unfold rx_inv. rewrite Hst1, Ecfg. by split_and!.
    - intros Hpos. rewrite Ecfg in Hpos. rewrite Hst1. destruct (pr_timer e1).
      + symmetry. apply bool_decide_eq_true. destruct (Ht1 eq_refl). lia.
      + symmetry. apply bool_decide_eq_false. destruct Hwhy as [?|[?|?]]; [done|lia|lia]. }
  destruct (Z.eqb_spec (rc_t_reordering (pr_cfg e)) (-1)) as [Einf|Einf]; cbn [negb].
  { destruct Hgap as [Hgap|]; [|lia]. apply Hkeep; [done|lia|auto]. }
  destruct (Z.eqb_spec (rc_t_reordering (pr_cfg e)) 0) as [E0|E0].
  - assert (Hcoree : rx_core (pr_set_rx_reord (next e1) e1) M).
    { rewrite Hst1. exact (Hcore1 (next e) (pr_timer e1) ltac:(lia)). }
    destruct (rx_expire_spec _ M Hcoree) as (e2 & ev & d & -> & Hf2 & Hn2 & Hnx & Hdl & Hc2 & HMd & Hdr & _ & _ & Hsame & Hs).
    unfold pr_set_rx_reord in *. cbn [pr_set_st pr_st rx_next rx_deliv rx_reord] in *. rewrite Hst1 in *.
    assert (d = next e) as -> by lia. destruct (Hsame (or_introl (Z.le_refl _))) as [_ Htm].
    assert (Htf : pr_timer e1 = false) by (destruct (pr_timer e1); [destruct (Ht1 eq_refl); lia|done]).
    eexists e2, _, (next e). split; [reflexivity|].
    assert (Hfr : rx_frame e e2) by by eapply rx_frame_trans; [exact Hf1|].
    split_and!; try done; try lia.
    + split; [done|]. rewrite keys_from_lookup, Hdl, Htm. cbn. rewrite decide_True by lia. split; [done|]. congruence.
    + intros Hpos. rewrite (proj1 Hfr) in Hpos. lia.
    + intros Hrn. cbn. apply Hs. apply Hf1, Hrn.
  - rewrite Hst1. destruct Hgap as [Hgap|]; [|done]. destruct (pr_timer e1) eqn:Etm; cbn [negb andb]; [apply Hkeep; auto|].
    destruct (Z.ltb_spec (deliv e) (next e)); [|apply Hkeep; auto].
    eexists _, [], (deliv e). split; [reflexivity|]. unfold rx_live, rx_inv. cbn [pr_set_timer pr_set_rx_reord pr_set_st pr_st pr_cfg pr_timer].
    cbn [rx_next rx_deliv rx_reord]. rewrite Hst1, keys_from_all, sdus_between_nil by (lia || (intros k; by apply rx_core_keys)).
    split_and!; try done; try lia; [apply (Hcore1 (next e) true); lia|intros _; rewrite Ecfg; lia|].
    intros _. symmetry. apply bool_decide_eq_true. lia.
Qed.
(** A PDU that is dropped leaves no trace. *)
Lemma rx_reordering_drop i e M :
  rx_core e M -> 0 <= pi_count i -> rx_drops e M (pi_count i) ->
  rx_apply_reordering i e = Some (e, [RxAddDroppedPdus 1]).
Proof.
  intros Hinv Hc Hdrop. pose proof Hinv as (_ & _ & _ & _ & Hw & _ & HM). unfold rx_apply_reordering, rx_drops in *.
  destruct (Z.ltb_spec (pi_count i) (deliv e)); [done|]. destruct Hdrop as [?|[s Hs]]; [lia|].
  rewrite (holds_has _ M), (holds_get _ M), Hs, bool_decide_true by (done || by eexists). cbn [mbind option_bind].
  destruct (HM _ _ Hs) as (_ & _ & ->). by rewrite Z.eqb_refl.
Qed.

(** A PDU that is accepted: the window gets its SDU, and everything up to the first missing COUNT is delivered. *)
Lemma rx_reordering_accept i e M :
  rx_inv e M -> -1 <= rc_t_reordering (pr_cfg e) -> ~ rx_drops e M (pi_count i) ->
  pi_count i < deliv e + half (pr_base e) -> pi_count i + 1 < 2 ^ 32 ->
  let M1 := <[pi_count i := rx_stored e i]> M in
  let n := Z.max (next e) (pi_count i + 1) in
  exists e' ev d, rx_apply_reordering i e = Some (e', ev) /\ rx_frame e e' /\ no_tasks ev /\
    next e' = n /\ deliv e' = d /\ rx_inv e' (keys_from d M1) /\ deliv e <= d <= n /\
    (if rc_t_reordering (pr_cfg e) =? 0 then d = n else first_gap M1 (deliv e) n d) /\ rx_live e' /\
    (pr_rohc e = None -> rx_sdus ev =
       (if rc_out_of_order_delivery (pr_cfg e) then [(pi_buf i, pi_integrity_verified i)] else []) ++ sdus_between M1 (deliv e) d).
Proof.
  intros (Hinv & HMd & Htm) Ht Hdrop Hc Hmax M1 n. pose proof Hinv as (Hb & Hd & Hn & Hr & Hw & Hcap & HM).
  assert (Hcd : deliv e <= pi_count i) by (unfold rx_drops in Hdrop; lia).
  assert (Hnone : M !! pi_count i = None).
  { unfold rx_drops in Hdrop. destruct (M !! pi_count i) eqn:EM; [destruct Hdrop; right; by eexists|done]. }
  unfold rx_apply_reordering. rewrite (proj2 (Z.ltb_ge _ _)) by lia.
  rewrite (holds_has _ M), Hnone, bool_decide_false by (lia || done || by intros []). cbn [mbind option_bind].
  replace (pr_set_window (pr_window e) e) with e by by destruct e.
  destruct (rx_store_spec i e M Hinv Hdrop Hc Hmax) as (e1 & ev1 & -> & Hf1 & Hn1 & Ht1 & Hst1 & Hc1 & Hs1).
  cbn [mbind option_bind]. fold M1 in Hc1. rewrite Hst1. cbn [rx_deliv rx_next]. fold n in Hst1 |- *.
  assert (Hadv : exists e2 ev2 d1, (if pi_count i =? deliv e then rx_advance_rx_window n true e1 else Some (e1, [])) = Some (e2, ev2) /\
    rx_frame e1 e2 /\ no_tasks ev2 /\ pr_timer e2 = pr_timer e1 /\ pr_st e2 = RxState n d1 (reord e) /\ rx_core e2 (keys_from d1 M1) /\
    first_gap M1 (deliv e) n d1 /\ (pr_rohc e1 = None -> rx_sdus ev2 = sdus_between M1 (deliv e) d1)).
  { destruct (Z.eqb_spec (pi_count i) (deliv e)) as [Ec|Ec].
    - destruct (rx_advance_spec n true e1 M1 Hc1) as (e2 & ev2 & d1 & E2 & Hf2 & Ht2 & Hn2 & Hst2 & Hi2 & Hd2 & _ & Hg & Hs2); [rewrite Hst1; cbn; lia|].
      rewrite Hst1 in *. cbn [rx_next rx_deliv rx_reord] in *. destruct (Hg eq_refl) as [Hg1 Hg2].
      exists e2, ev2, d1. split_and!; try done. split_and!; try done; lia.
    - exists e1, [], (deliv e). rewrite Hst1, sdus_between_nil, keys_from_all by (lia || (intros k Hk; pose proof (rx_core_keys e1 M1 k Hc1 Hk) as Hq; by rewrite Hst1 in Hq)).
      split_and!; try done. split_and!; try lia. intros _. unfold M1. rewrite lookup_insert_ne by lia. exact HMd. }
  destruct Hadv as (e2 & ev2 & d1 & -> & Hf2 & Hn2 & Ht2 & Hst2 & Hc2 & Hg & Hs2). cbn [mbind option_bind].
  assert (Hf12 : rx_frame e e2) by by eapply rx_frame_trans. assert (Ecfg : pr_cfg e2 = pr_cfg e) by apply Hf12.
  destruct (rx_timers_spec e2 (keys_from d1 M1)) as (e3 & ev3 & d & -> & Hf3 & Hn3 & Hnx & Hdl & Hi3 & Hd3 & Ed & Hlive & Hs3); rewrite ?Ecfg.
  - done.
  - rewrite Hst2. cbn [rx_deliv]. rewrite keys_from_lookup, decide_True by lia. destruct Hg as (Hd1 & _ & Hgap).
    destruct (decide (d1 < n)); [left; auto|]. left. destruct (M1 !! d1) as [s|] eqn:Es; [|done].
    destruct Hc1 as (_ & _ & _ & _ & _ & _ & HM1). destruct (HM1 d1 s Es) as (? & _ & _). rewrite Hst1 in *. cbn in *. lia.
  - done.
  - rewrite Ht2, Ht1. intros H'. by apply Htm.
  - rewrite Hst2 in *. cbn [rx_deliv rx_next rx_reord] in *. rewrite Ecfg in Ed. pose proof Hg as (Hd1 & Hp & Hgap).
    rewrite keys_from_from in Hi3 by lia. cbn [mbind option_bind].
    eexists e3, _, d. split; [reflexivity|]. split; [by eapply rx_frame_trans|]. split; [auto with pdcp|].
    split; [done|]. split; [done|]. split; [done|]. split; [destruct (_ =? 0); lia|]. split; [destruct (_ =? 0); [done|by rewrite Ed]|]. split; [done|].
    intros Hrn. assert (Hr1 : pr_rohc e1 = None) by by apply Hf1. assert (Hr2 : pr_rohc e2 = None) by by apply Hf2.
    rewrite !rx_sdus_app, Hs1, Hs2, Hs3 by done. f_equal. rewrite (sdus_between_app M1 (deliv e) d1 d) by lia. f_equal.
    apply sdus_between_ext. intros k Hk. rewrite keys_from_lookup. by rewrite decide_True by lia.
Qed.
End facts.
