(* ===== verification/PdcpRxSteps.v ===== *)
(** * The PDCP receiver with its tasks: steps and invariant

    The entity together with the tasks it has handed to its executors. Tasks run in any order, and any of them may be dropped,
    so every schedule of the crypto workers is covered. Each input keeps the invariant; what it delivers is stated against the
    map of SDUs that the window holds. *)
From S2P Require Import Prelude SduWindow CircularMap RingBuffer PdcpSn SecurityEngine PdcpBase PdcpRx PdcpRxFacts.

Section steps.
Context {E R W : Type} `{SecurityEngineRx E, RohcDecompressor R}.
Context `{SduWindowLaws pdcp_rx_sdu_info W pdcp_rx_sdu_info_init}
  `{!SduWindowClear pdcp_rx_sdu_info W} `{!SduWindowClearLaws pdcp_rx_sdu_info W}.
Context (make_engine : engine_maker E) (may_protect : bool).
Notation entity := (pdcp_entity_rx E R W).
Implicit Types (e : entity) (M : rx_map).
Notation deliv e := (rx_deliv (pr_st e)).
Notation next e := (rx_next (pr_st e)).
Notation reord e := (rx_reord (pr_st e)).

(** ** The entity and its tasks *)
Record rx_system := RxSys { sy_entity : entity; sy_crypto : list pdcp_rx_pdu_info; sy_tasks : list pdcp_rx_task }.
Implicit Types s : rx_system.

Inductive rx_input :=
| RiPdu (copy_ok : bool) (buf : list Z)
| RiCrypto (worker_idx : Z) (n : nat)
| RiDropCrypto (n : nat)
| RiTask (n : nat)
| RiDropTask (n : nat)
| RiExpiry
| RiBeginBuffering
| RiEndBuffering (copy_ok : bool)
| RiSuspend
| RiResume
| RiReestablish (rohc : option R) (cfg : sec_128_as_config)
| RiConfigure (cfg : sec_128_as_config) (integ : integrity_enabled) (ciph : ciphering_enabled)
| RiStop.

(** The entity after an operation, and the tasks it has handed over *)
Definition sy_after s (r : entity * list pdcp_rx_event) : rx_system * list pdcp_rx_event :=
  (RxSys r.1 (sy_crypto s ++ rx_crypto_tasks r.2) (sy_tasks s ++ rx_ul_tasks r.2), r.2).

Definition rx_step s (i : rx_input) : option (rx_system * list pdcp_rx_event) :=
  let e := sy_entity s in
  match i with
  | RiPdu copy_ok buf => sy_after s <$> rx_handle_pdu copy_ok buf e
  | RiCrypto worker_idx n =>
      match sy_crypto s !! n with
      | None => Some (s, [])
      | Some i => ev ← rx_apply_security worker_idx i e; Some (sy_after (RxSys e (delete n (sy_crypto s)) (sy_tasks s)) (e, ev))
      end
  | RiDropCrypto n => Some (RxSys e (delete n (sy_crypto s)) (sy_tasks s), [])
  | RiTask n =>
      match sy_tasks s !! n with
      | None => Some (s, [])
      | Some t => sy_after (RxSys e (sy_crypto s) (delete n (sy_tasks s))) <$> rx_run_task t e
      end
  | RiDropTask n => Some (RxSys e (sy_crypto s) (delete n (sy_tasks s)), [])
  | RiExpiry => if pr_timer e then sy_after s <$> rx_reordering_callback e else Some (s, [])
  | RiBeginBuffering => Some (sy_after s (rx_begin_buffering e, []))
  | RiEndBuffering copy_ok => sy_after s <$> rx_end_buffering copy_ok e
  | RiSuspend => '(_, e, ev) ← rx_suspend e; Some (sy_after s (e, ev))
  | RiResume => Some (sy_after s ((rx_resume e).2, []))
  | RiReestablish rohc cfg => sy_after s <$> rx_reestablish make_engine rohc cfg e
  | RiConfigure cfg integ ciph => e ← rx_configure_security make_engine cfg integ ciph e; Some (sy_after s (e, []))
  | RiStop => Some (sy_after s (rx_stop e, []))
  end.

(** The PDU that a step puts through [apply_reordering] *)
Definition rx_ran s (i : rx_input) : list pdcp_rx_pdu_info :=
  match i with
  | RiTask n => match sy_tasks s !! n with Some (RxReorder x) => [x] | _ => [] end
  | _ => []
  end.

Fixpoint rx_run s (l : list rx_input) : option (rx_system * list pdcp_rx_event * list pdcp_rx_pdu_info) :=
  match l with
  | [] => Some (s, [], [])
  | i :: l =>
      '(s1, ev1) ← rx_step s i;
      '(s2, ev2, ran) ← rx_run s1 l;
      Some (s2, ev1 ++ ev2, rx_ran s i ++ ran)
  end.

(** ** What the environment guarantees *)

(** The octets that security may take off the end of a PDU *)
Definition trailer (b : pdcp_base) : Z := pdcp_data_trailer_size (pb_rb_type b) may_protect.

(** A PDU that is longer than its header has room for the trailer. *)
Definition pdu_ok (b : pdcp_base) (buf : list Z) : Prop :=
  buf_len buf <= pb_hdr_len_bytes b \/ pb_hdr_len_bytes b + trailer b <= buf_len buf.

Definition sec_ok (b : pdcp_base) (cfg : sec_128_as_config) (integ : integrity_enabled) : Prop :=
  sc_domain cfg = (if is_srb b then domain_rrc else domain_up) /\
  (if is_srb b then integ <> integrity_off else integ <> integrity_smc_transition /\ (may_protect = false -> integ = integrity_off)).

(** The workers have their indices; the entity is suspended and re-established only when its tasks have finished, and with a
    security configuration of its kind. *)
Definition rx_allowed s (i : rx_input) : Prop :=
  let e := sy_entity s in
  match i with
  | RiPdu _ buf => pdu_ok (pr_base e) buf
  | RiCrypto worker_idx _ => 0 <= worker_idx < rc_max_nof_crypto_workers (pr_cfg e)
  | RiSuspend => sy_crypto s = [] /\ sy_tasks s = []
  | RiReestablish _ cfg => sy_crypto s = [] /\ sy_tasks s = [] /\ sec_ok (pr_base e) cfg (rs_integrity (pr_sec e))
  | RiConfigure cfg integ _ => sec_ok (pr_base e) cfg integ
  | _ => True
  end.

Fixpoint rx_allowed_run s (l : list rx_input) : Prop :=
  match l with
  | [] => True
  | i :: l => rx_allowed s i /\ forall s' ev, rx_step s i = Some (s', ev) -> rx_allowed_run s' l
  end.

(** The hard limit keeps away from the end of the COUNT space. *)
Definition rx_cfg_ok (cfg : pdcp_rx_config) : Prop :=
  pdcp_base_ok (rc_base cfg) /\ -1 <= rc_t_reordering cfg /\ 0 < rc_max_nof_crypto_workers cfg /\
  max_hard (rc_max_count cfg) <= 2 ^ 32 - pb_window_size (rc_base cfg).

(** What is used of the security engines: one can be made for a complete configuration, and removing the protection takes at
    most [n] octets off a PDU. *)
Definition engine_shrinks (n : Z) (eng : E) : Prop := forall buf offset count st out,
  decrypt_and_verify_integrity eng buf offset count = (st, out) -> is_success st = true -> buf_len buf - n <= buf_len out.

Class EngineMakerLaws := {
  make_total : forall cfg id dir integ ciph,
    integ = integrity_off \/ is_Some (sc_k_128_int cfg) /\ is_Some (sc_integ_algo cfg) -> is_Some (make_engine cfg id dir integ ciph);
  make_shrinks : forall cfg id dir integ ciph eng,
    make_engine cfg id dir integ ciph = Some eng -> engine_shrinks (if decide (integ = integrity_off) then 0 else sec_mac_len) eng
}.

(** ** Invariant *)
Definition count_ok e (count : Z) : Prop :=
  0 <= count < max_hard (rc_max_count (pr_cfg e)) /\ count < deliv e + half (pr_base e).
Definition crypto_ok e (i : pdcp_rx_pdu_info) : Prop :=
  count_ok e (pi_count i) /\ pb_hdr_len_bytes (pr_base e) + trailer (pr_base e) <= buf_len (pi_buf i).
Definition task_ok e (t : pdcp_rx_task) : Prop := match t with RxReorder i => count_ok e (pi_count i) | _ => True end.

Definition buffer_ok (b : pdcp_base) (c : pdcp_rx_control) : Prop :=
  exists l, rb_repr (rk_pdu_buffer c) l /\ rb_max_size (rk_pdu_buffer c) = 2048 /\ Forall (pdu_ok b) l.

Definition pool_ok e : Prop :=
  length (rs_pool (pr_sec e)) = Z.to_nat (rc_max_nof_crypto_workers (pr_cfg e)) /\
  Forall (fun o => forall eng, o = Some eng -> engine_shrinks (trailer (pr_base e)) eng) (rs_pool (pr_sec e)).

(** What holds of the entity between two operations, without the window and the counters. *)
Definition rx_static e : Prop := rx_cfg_ok (pr_cfg e) /\ pool_ok e /\ buffer_ok (pr_base e) (pr_ctl e).

Definition sy_inv s M : Prop :=
  let e := sy_entity s in
  rx_static e /\ rx_inv e M /\ (rk_stopped (pr_ctl e) = false -> rx_live e) /\
  Forall (crypto_ok e) (sy_crypto s) /\ Forall (task_ok e) (sy_tasks s).

(** ** Operations *)

(** Only stopping, buffering, suspension and the notifications change. *)
Definition rx_quiet e e' : Prop := exists c, e' = pr_set_ctl c e /\ rk_stopped c = rk_stopped (pr_ctl e).

Lemma rx_quiet_refl e : rx_quiet e e.
Proof. exists (pr_ctl e). by destruct e. Qed.
Lemma rx_quiet_trans e1 e2 e3 : rx_quiet e1 e2 -> rx_quiet e2 e3 -> rx_quiet e1 e3.
Proof. intros (c1 & -> & E1) (c2 & -> & E2). exists c2. split; [done|]. by rewrite E2. Qed.
Hint Resolve rx_quiet_refl rx_quiet_trans : pdcp.

Lemma trailer_pos b : 0 <= trailer b <= 4.
Proof. unfold trailer, pdcp_data_trailer_size. destruct (decide _); [lia|]. destruct may_protect; lia. Qed.

Lemma hdr_len b : pdcp_base_ok b -> pb_hdr_len_bytes b = pdcp_data_header_size (pb_sn_size b) /\ 2 <= pb_hdr_len_bytes b <= 3.
Proof.
  intros Hb. destruct (pdcp_base_fields b Hb) as (_ & _ & _ & -> & Hs). split; [done|].
  unfold pdcp_data_header_size. by destruct Hs as [[_ ->]|[_ ->]].
Qed.

(** The COUNT of a received PDU is inside of the window or, after a wrap, above the hard limit. *)
Lemma rcvd_count_ok e M sn :
  rx_cfg_ok (pr_cfg e) -> rx_core e M -> 0 <= sn < 2 * half (pr_base e) ->
  let count := rx_rcvd_count sn e in count < max_hard (rc_max_count (pr_cfg e)) -> count_ok e count.
Proof.
  intros (_ & _ & _ & Hmax) (Hb & Hd & Hn & _) Hsn count Hc. unfold count, rx_rcvd_count in *.
  destruct (pdcp_base_fields _ Hb) as (Ew & _ & _ & _ & Eh). unfold pr_base in Ew. rewrite Ew in Hmax.
  destruct (count_from_sn_spec (pr_base e) (deliv e) sn Hb) as (c & Hw & _ & Ec); [lia|done|]. rewrite Ec in *.
  pose proof (uint_range 32 c ltac:(lia)) as Hu. fold (u32 c) in Hu. split; [lia|]. unfold in_window in Hw. unfold pr_base in *.
  rewrite u32_eq in *. destruct Eh as [[Eh _]|[Eh _]]; rewrite Eh in *; lia.
Qed.

Lemma rx_data_pdu_spec e M pdu :
  rx_cfg_ok (pr_cfg e) -> rx_core e M -> pdu_ok (pr_base e) pdu ->
  exists e' ev, rx_handle_data_pdu pdu e = (e', ev) /\ rx_quiet e e' /\ rk_pdu_buffer (pr_ctl e') = rk_pdu_buffer (pr_ctl e) /\
    rk_buffering (pr_ctl e') = rk_buffering (pr_ctl e) /\ rx_sdus ev = [] /\ rx_ul_tasks ev = [] /\ Forall (crypto_ok e) (rx_crypto_tasks ev) /\
    forall i, i ∈ rx_crypto_tasks ev -> exists sn, read_data_pdu_header (pr_base e) pdu = Some sn /\ i = RxPduInfo pdu (rx_rcvd_count sn e) false.
Proof.
  intros Hcfg Hcore Hp. pose proof Hcore as (Hb & _). unfold rx_handle_data_pdu.
  assert (Hnone : forall ev, rx_crypto_tasks ev = [] -> Forall (crypto_ok e) (rx_crypto_tasks ev) /\ forall i, i ∈ rx_crypto_tasks ev ->
    exists sn, read_data_pdu_header (pr_base e) pdu = Some sn /\ i = RxPduInfo pdu (rx_rcvd_count sn e) false).
  { intros ev ->. split; [done|]. by intros i ?%elem_of_nil. }
  destruct (Z.leb_spec (buf_len pdu) (pb_hdr_len_bytes (pr_base e))) as [Hl|Hl].
  { eexists _, _. split; [reflexivity|]. split_and!; auto with pdcp; by apply Hnone. }
  destruct (read_data_pdu_header (pr_base e) pdu) as [sn|] eqn:Er.
  2: { eexists _, _. split; [reflexivity|]. split_and!; auto with pdcp; by apply Hnone. }
  assert (Hsn : 0 <= sn < 2 * half (pr_base e)) by by eapply read_range.
  set (count := rx_rcvd_count sn e). set (notify := _ && negb (rk_max_count_notified (pr_ctl e))).
  assert (Hnot : exists e1 ev1, (if notify then (pr_set_max_count true (rk_max_count_overflow (pr_ctl e)) e, [RxMaxCountReached]) else (e, [])) = (e1, ev1) /\
    rx_quiet e e1 /\ rk_pdu_buffer (pr_ctl e1) = rk_pdu_buffer (pr_ctl e) /\ rk_buffering (pr_ctl e1) = rk_buffering (pr_ctl e) /\ rx_sdus ev1 = [] /\ rx_ul_tasks ev1 = [] /\ rx_crypto_tasks ev1 = []).
  { destruct notify; eexists _, _; (split; [reflexivity|]); split_and!; auto with pdcp. by eexists. }
  destruct Hnot as (e1 & ev1 & -> & Hq & Hbuf & Hbuff & Hs1 & Hu1 & Hc1). cbn [app].
  unfold rx_sdus, rx_ul_tasks, rx_crypto_tasks in *.
  destruct (Z.leb_spec (max_hard (rc_max_count (pr_cfg e))) count) as [Hm|Hm].
  - destruct (negb (rk_max_count_overflow (pr_ctl e1))); eexists _, _; (split; [reflexivity|]); cbn [omap list_omap]; rewrite ?omap_app, ?Hs1, ?Hu1, ?Hc1;
      split_and!; try done; try (by apply Hnone); [|by intros i ?%elem_of_nil..].
    eapply rx_quiet_trans; [exact Hq|]. by eexists.
  - eexists _, _. split; [reflexivity|]. cbn [omap list_omap]. rewrite !omap_app, Hs1, Hu1, Hc1. split_and!; try done.
    + repeat constructor. 1-3: by eapply rcvd_count_ok. destruct Hp; cbn; lia.
    + intros i ->%list_elem_of_singleton. by exists sn.
Qed.

(** What an operation that only receives PDUs does: no SDU is delivered, and the tasks for the crypto executor are in order. *)
Definition rx_receives e (r : entity * list pdcp_rx_event) : Prop :=
  rx_quiet e r.1 /\ buffer_ok (pr_base e) (pr_ctl r.1) /\ rx_sdus r.2 = [] /\ rx_ul_tasks r.2 = [] /\
  Forall (crypto_ok e) (rx_crypto_tasks r.2).

Lemma rx_crypto_tasks_app a b : rx_crypto_tasks (a ++ b) = rx_crypto_tasks a ++ rx_crypto_tasks b.
Proof. apply omap_app. Qed.
Lemma rx_ul_tasks_app a b : rx_ul_tasks (a ++ b) = rx_ul_tasks a ++ rx_ul_tasks b.
Proof. apply omap_app. Qed.

Lemma crypto_ok_quiet e e' i : rx_quiet e e' -> crypto_ok e' i <-> crypto_ok e i.
Proof. by intros (c & -> & _). Qed.
Lemma rx_core_quiet e e' M : rx_quiet e e' -> rx_core e' M <-> rx_core e M.
Proof. by intros (c & -> & _). Qed.
Lemma rx_quiet_base e e' : rx_quiet e e' -> pr_base e' = pr_base e /\ pr_cfg e' = pr_cfg e.
Proof. by intros (c & -> & _). Qed.

Lemma rx_receives_app e e1 ev1 r : rx_receives e (e1, ev1) -> rx_receives e1 r -> rx_receives e (r.1, ev1 ++ r.2).
Proof.
  intros (Hq1 & _ & Hs1 & Hu1 & Hc1) (Hq2 & Hb2 & Hs2 & Hu2 & Hc2). cbn [fst snd] in *. split_and!; cbn [fst snd].
  - by eapply rx_quiet_trans.
  - destruct (rx_quiet_base _ _ Hq1) as [<- _]. done.
  - by rewrite rx_sdus_app, Hs1, Hs2.
  - by rewrite rx_ul_tasks_app, Hu1, Hu2.
  - rewrite rx_crypto_tasks_app. apply Forall_app. split; [done|]. eapply Forall_impl; [exact Hc2|]. intros i. apply (crypto_ok_quiet e e1 i Hq1).
Qed.

(** Events that hand over no task and deliver nothing. *)
Lemma rx_receives_plain e e' ev :
  rx_quiet e e' -> buffer_ok (pr_base e) (pr_ctl e') -> rx_sdus ev = [] -> rx_ul_tasks ev = [] -> rx_crypto_tasks ev = [] ->
  rx_receives e (e', ev).
Proof. intros ? ? ? ? Hc. unfold rx_receives. cbn [fst snd]. rewrite Hc. auto. Qed.

Lemma rx_handle_pdu_spec copy_ok e M buf :
  rx_cfg_ok (pr_cfg e) -> rx_core e M -> buffer_ok (pr_base e) (pr_ctl e) -> pdu_ok (pr_base e) buf ->
  exists r, rx_handle_pdu copy_ok buf e = Some r /\ rx_receives e r /\
    (rk_buffering (pr_ctl e) = false -> rk_pdu_buffer (pr_ctl r.1) = rk_pdu_buffer (pr_ctl e) /\ rk_buffering (pr_ctl r.1) = false).
Proof.
  intros Hcfg Hcore Hbuf Hp. unfold rx_handle_pdu. destruct (rk_stopped (pr_ctl e)) eqn:Estop.
  { eexists. split; [reflexivity|]. split; [|done]. apply rx_receives_plain; auto with pdcp. }
  set (b := rk_suspended (pr_ctl e) && _).
  assert (H0' : exists e1 ev1, (if b then (pr_set_suspended true true e, [RxResumeRequired]) else (e, [])) = (e1, ev1) /\
    rx_receives e (e1, ev1) /\ rk_pdu_buffer (pr_ctl e1) = rk_pdu_buffer (pr_ctl e) /\ rk_buffering (pr_ctl e1) = rk_buffering (pr_ctl e)).
  { destruct b; eexists _, _; (split; [reflexivity|]); (split; [|done]); apply rx_receives_plain; auto with pdcp. by eexists. }
  destruct H0' as (e1 & ev1 & -> & Hr1 & Eb1 & Ebuf1). clear b. pose proof (proj1 Hr1) as Hq1. cbn [fst] in Hq1.
  destruct (rx_quiet_base _ _ Hq1) as [Ebase Ecfg]. rewrite Ebuf1.
  destruct (rk_buffering (pr_ctl e)) eqn:Ebf.
  - destruct Hbuf as (l & Hl & Hm & Hall). rewrite Eb1. destruct (rb_try_push_spec buf _ l Hl) as (q & -> & Hq & Hqm). cbn [mbind option_bind].
    eexists. split; [reflexivity|]. split; [|done]. eapply (rx_receives_app e e1 ev1 (_, _)); [exact Hr1|].
    apply rx_receives_plain; [by eexists| |by destruct (_ <? _)..]. rewrite Ebase. cbn. exists (if Z.of_nat (length l) <? rb_max_size (rk_pdu_buffer (pr_ctl e)) then l ++ [buf] else l).
    split; [done|]. split; [cbn; congruence|]. destruct (_ <? _); [apply Forall_app; auto|done].
  - assert (Hb1 : buffer_ok (pr_base e1) (pr_ctl e1)) by (rewrite Ebase; exact (proj1 (proj2 Hr1))).
    assert (Hr2 : rx_receives e (e1, ev1 ++ [RxAddPdus 1 (buf_len buf)])).
    { apply (rx_receives_app e e1 ev1 (e1, [RxAddPdus 1 (buf_len buf)])); [done|]. apply rx_receives_plain; auto with pdcp. }
    assert (Hdrop : rx_receives e (e1, (ev1 ++ [RxAddPdus 1 (buf_len buf)]) ++ [RxAddDroppedPdus 1])).
    { apply (rx_receives_app e e1 _ (e1, [RxAddDroppedPdus 1])); [done|]. apply rx_receives_plain; auto with pdcp. }
    destruct (is_nil buf); [by eexists|]. destruct copy_ok; cbn [negb]; [|by eexists].
    destruct (is_srb (pr_base e1) || bool_decide (pdcp_pdu_get_dc (nth 0 buf 0) = dc_data)) eqn:Edc.
    + destruct (rx_data_pdu_spec e1 M buf) as (e2 & ev2 & -> & Hq2 & Eb2 & Ebuf2 & Hs2 & Hu2 & Hc2 & _);
        [by rewrite Ecfg|by apply (rx_core_quiet e)|by rewrite Ebase|].
      eexists. split; [reflexivity|]. split.
      * apply (rx_receives_app e e1 _ (e2, ev2)); [done|]. split_and!; try done. cbn. rewrite <- (proj1 (rx_quiet_base _ _ Hq2)).
        destruct Hb1 as (l & Hl). exists l. by rewrite Eb2, (proj1 (rx_quiet_base _ _ Hq2)).
      * cbn [fst]. intros _. by rewrite Eb2, Eb1, Ebuf2, Ebuf1.
    + apply orb_false_iff in Edc as [_ Edc]. unfold rx_handle_control_pdu. rewrite Edc. cbn [mbind option_bind].
      eexists. split; [reflexivity|]. split; [|done]. apply (rx_receives_app e e1 _ (e1, _)); [done|].
      apply rx_receives_plain; auto with pdcp; by destruct (pdcp_control_pdu_get_cpt _).
Qed.

Lemma rx_flush_spec copy_ok fuel : forall e M l,
  rx_cfg_ok (pr_cfg e) -> rx_core e M -> rk_buffering (pr_ctl e) = false ->
  rb_repr (rk_pdu_buffer (pr_ctl e)) l -> rb_max_size (rk_pdu_buffer (pr_ctl e)) = 2048 -> Forall (pdu_ok (pr_base e)) l ->
  (length l <= fuel)%nat ->
  exists r, rx_flush_loop fuel copy_ok e = Some r /\ rx_receives e r.
Proof.
  induction fuel as [|fuel IH]; intros e M l Hcfg Hcore Hbf Hl Hm Hall Hfuel; cbn [rx_flush_loop]; rewrite (rb_repr_empty _ _ Hl);
    assert (Hb : buffer_ok (pr_base e) (pr_ctl e)) by by exists l.
  { destruct l; [|cbn in Hfuel; lia]. eexists. split; [reflexivity|]. apply rx_receives_plain; auto with pdcp. }
  destruct l as [|buf l]. { eexists. split; [reflexivity|]. apply rx_receives_plain; auto with pdcp. }
  inversion Hall as [|? ? Hbuf Hall']; subst. rewrite (rb_top_spec _ _ Hl). cbn [head mbind option_bind].
  destruct (rb_pop_spec _ _ _ Hl) as (q & -> & Hq & Hqm). cbn [mbind option_bind].
  set (e1 := pr_set_pdu_buffer q e). assert (Hb1 : buffer_ok (pr_base e1) (pr_ctl e1)) by (exists l; cbn; split_and!; [done|congruence|done]).
  destruct (rx_handle_pdu_spec copy_ok e1 M buf) as ([e2 ev2] & -> & Hr2 & Hkeep); [done..|].
  destruct (Hkeep Hbf) as [Ebuf Ebf]. cbn [fst] in Ebuf, Ebf. cbn [mbind option_bind]. pose proof (proj1 Hr2) as Hq2. cbn [fst] in Hq2.
  destruct (rx_quiet_base _ _ Hq2) as [Ebase Ecfg].
  destruct (IH e2 M l) as ([e3 ev3] & -> & Hr3); [by rewrite Ecfg|by apply (rx_core_quiet e1)|done|by rewrite Ebuf|rewrite Ebuf; cbn; congruence|by rewrite Ebase|cbn in Hfuel; lia|].
  cbn [mbind option_bind]. eexists. split; [reflexivity|].
  apply (rx_receives_app e e1 [] (e3, ev2 ++ ev3)); [apply rx_receives_plain; [by eexists|done..]|].
  exact (rx_receives_app e1 e2 ev2 (e3, ev3) Hr2 Hr3).
Qed.

Lemma rx_end_buffering_spec copy_ok e M :
  rx_cfg_ok (pr_cfg e) -> rx_core e M -> buffer_ok (pr_base e) (pr_ctl e) ->
  exists r, rx_end_buffering copy_ok e = Some r /\ rx_receives e r.
Proof.
  intros Hcfg Hcore (l & Hl & Hm & Hall). unfold rx_end_buffering. cbn [pr_set_buffering pr_set_ctl pr_ctl rk_pdu_buffer].
  destruct (rb_repr_size _ _ Hl) as [Hsz _]. rewrite Hsz, Nat2Z.id.
  destruct (rx_flush_spec copy_ok (length l) (pr_set_buffering false e) M l) as ([e' ev] & E1 & Hr); [done..|].
  exists (e', ev). split; [exact E1|].
  apply (rx_receives_app e (pr_set_buffering false e) [] (e', ev)); [|done]. apply rx_receives_plain; [by eexists|by exists l|done..].
Qed.

(** ** Security *)
Lemma rx_apply_security_spec worker_idx i e :
  rx_static e -> crypto_ok e i -> 0 <= worker_idx < rc_max_nof_crypto_workers (pr_cfg e) ->
  exists st out ev, rx_apply_deciphering_and_integrity_check worker_idx (pi_buf i) (pi_count i) e = Some (st, out) /\
    rx_apply_security worker_idx i e = Some ev /\ rx_sdus ev = [] /\ rx_crypto_tasks ev = [] /\
    rx_ul_tasks ev = (if is_success st
      then [RxReorder (RxPduInfo (drop (Z.to_nat (pb_hdr_len_bytes (pr_base e))) out) (pi_count i) (bool_decide (st = sec_success)))]
      else [RxSecurityFailure st (pi_count i)]).
Proof.
  intros ((Hb & _) & (Hlen & Hpool) & _) (_ & Hsz) Hwk. destruct (hdr_len (pr_base e) Hb) as [Eh Hh]. pose proof (trailer_pos (pr_base e)) as Htr.
  assert (Hchk : exists st out, rx_apply_deciphering_and_integrity_check worker_idx (pi_buf i) (pi_count i) e = Some (st, out) /\
    (is_success st = true -> buf_len (pi_buf i) - trailer (pr_base e) <= buf_len out)).
  { unfold rx_apply_deciphering_and_integrity_check. rewrite (proj2 (Z.leb_gt _ _)) by lia.
    destruct (lookup_lt_is_Some_2 (rs_pool (pr_sec e)) (Z.to_nat worker_idx)) as [o Ho]; [lia|]. rewrite Ho. cbn [mbind option_bind].
    destruct o as [eng|].
    - destruct (decrypt_and_verify_integrity _ _ _ _) as [st out] eqn:Ed. exists st, out. split; [done|].
      rewrite Forall_lookup in Hpool. by apply (Hpool _ _ Ho eng eq_refl _ _ _ _ _ Ed).
    - destruct (is_srb (pr_base e)) eqn:Es.
      + assert (Et : trailer (pr_base e) = 4).
        { unfold trailer, pdcp_data_trailer_size, is_srb in *. apply bool_decide_eq_true in Es. by rewrite Es. }
        unfold sec_mac_len. destruct (Z.leb_spec (buf_len (pi_buf i)) 4); [by eexists _, _|].
        destruct (negb _); [by eexists _, _|]. eexists _, _. split; [reflexivity|]. intros _. rewrite Et. unfold buf_len in *. rewrite length_take. lia.
      + eexists _, _. split; [reflexivity|]. intros _. lia. }
  destruct Hchk as (st & out & Ec & Hlo). exists st, out. unfold rx_apply_security. rewrite Ec. cbn [mbind option_bind].
  destruct (is_success st) eqn:Est; cbn [negb].
  - specialize (Hlo eq_refl). rewrite <- Eh. rewrite (proj2 (Z.ltb_ge _ _)) by lia. eexists. by split_and!.
  - eexists. by split_and!.
Qed.

Lemma rx_configure_spec `{EngineMakerLaws} cfg integ ciph e :
  rx_static e -> sec_ok (pr_base e) cfg integ ->
  exists e', rx_configure_security make_engine cfg integ ciph e = Some e' /\ rx_static e' /\ exists sec, e' = pr_set_sec sec e.
Proof.
  intros (Hcfg & Hpool & Hbuf) (Hdom & Hinteg). unfold rx_configure_security.
  rewrite (bool_decide_true (sc_domain cfg = _)) by done. cbn [negb].
  assert (negb (is_srb (pr_base e)) && bool_decide (integ = integrity_smc_transition) = false) as ->.
  { destruct (is_srb (pr_base e)); [done|]. cbn. apply bool_decide_eq_false. tauto. }
  assert (bool_decide (integ = integrity_off) && is_srb (pr_base e) = false) as ->.
  { destruct (is_srb (pr_base e)); [|by rewrite andb_false_r]. rewrite andb_true_r. by apply bool_decide_eq_false. }
  assert (Hsame : exists e', Some e = Some e' /\ rx_static e' /\ exists sec, e' = pr_set_sec sec e).
  { exists e. split; [done|]. split; [done|]. exists (pr_sec e). by destruct e. }
  destruct (negb (bool_decide (integ = integrity_off)) && negb (bool_decide (is_Some (sc_k_128_int cfg)))) eqn:E1; [done|].
  destruct (negb (bool_decide (integ = integrity_off)) && negb (bool_decide (is_Some (sc_integ_algo cfg)))) eqn:E2; [done|].
  destruct (make_total cfg (rc_bearer_id (pr_cfg e)) (rc_direction (pr_cfg e)) integ ciph) as [eng Eeng].
  { destruct (decide (integ = integrity_off)) as [|Hi]; [by left|right]. rewrite (bool_decide_false (integ = integrity_off)) in E1, E2 by done.
    cbn [negb andb] in E1, E2. apply negb_false_iff in E1, E2. by apply bool_decide_eq_true in E1, E2. }
  rewrite Eeng. cbn [mbind option_bind]. eexists. split; [reflexivity|]. split; [|by eexists].
  split; [done|]. split; [|done]. split; [apply length_replicate|]. apply Forall_replicate. intros eng' [= <-].
  intros buf off count st out Ed Hst. pose proof (make_shrinks _ _ _ _ _ _ Eeng buf off count st out Ed Hst) as Hs.
  cbn [pr_set_sec pr_base pr_cfg] in *. unfold trailer, pdcp_data_trailer_size, sec_mac_len in *.
  change (pr_base (pr_set_sec _ e)) with (pr_base e). destruct (decide (pb_rb_type (pr_base e) = rb_srb)) as [|Hd]; [case_decide; lia|].
  assert (Es : is_srb (pr_base e) = false) by by apply bool_decide_eq_false. rewrite Es in Hinteg.
  destruct may_protect; [case_decide; lia|]. rewrite (proj2 Hinteg eq_refl) in Hs. by rewrite decide_True in Hs.
Qed.

(** ** Steps *)
Lemma count_ok_mono e e' c : pr_cfg e' = pr_cfg e -> deliv e <= deliv e' -> count_ok e c -> count_ok e' c.
Proof. unfold count_ok, pr_base. intros ->. lia. Qed.

Lemma tasks_mono e e' lc lt :
  pr_cfg e' = pr_cfg e -> deliv e <= deliv e' -> Forall (crypto_ok e) lc -> Forall (task_ok e) lt ->
  Forall (crypto_ok e') lc /\ Forall (task_ok e') lt.
Proof.
  intros Ecfg Hd Hc Ht. split; (eapply Forall_impl; [eassumption|]).
  - intros i [? ?]. split; [by eapply count_ok_mono|]. unfold pr_base in *. by rewrite Ecfg.
  - intros [i|]; cbn; [|done]. by apply count_ok_mono.
Qed.

Lemma rx_static_frame e e' : rx_static e -> rx_frame e e' -> rx_static e'.
Proof. intros Hs (E1 & E2 & E3 & _). unfold rx_static, pool_ok, pr_base in *. by rewrite E1, E2, E3. Qed.

(** Keeping the SDUs of a list of PDUs. *)
Definition rx_puts (ooo : bool) (l : list pdcp_rx_pdu_info) M : rx_map :=
  foldl (fun M i => <[pi_count i := RxSduInfo (if ooo then [] else pi_buf i) (pi_count i) (pi_integrity_verified i)]> M) M l.

(** What a step that is no reset does with SDUs. It puts [ran] through reordering and keeps [acc] of it: all, or nothing of what
    came too late or twice. From then on everything below the new RX_DELIV is delivered in the order of the COUNTs; without an
    expiry nothing is skipped. *)
Definition rx_moves (expires : bool) e M e' M' (ev : list pdcp_rx_event) (ran acc : list pdcp_rx_pdu_info) : Prop :=
  let M1 := rx_puts (rc_out_of_order_delivery (pr_cfg e)) acc M in
  (acc = ran /\ (forall x, x ∈ acc -> ~ rx_drops e M (pi_count x)) \/ acc = [] /\ forall x, x ∈ ran -> rx_drops e M (pi_count x)) /\
  pr_cfg e' = pr_cfg e /\ deliv e <= deliv e' /\ M' = keys_from (deliv e') M1 /\
  (expires = false -> forall k, deliv e <= k < deliv e' -> is_Some (M1 !! k)) /\
  (rc_header_compression (pr_cfg e) = false -> pr_rohc e = None -> pr_rohc e' = None /\
    rx_sdus ev = (if rc_out_of_order_delivery (pr_cfg e) then (fun i => (pi_buf i, pi_integrity_verified i)) <$> acc else [])
      ++ sdus_between M1 (deliv e) (deliv e')).

Lemma rx_moves_none b e M e' ev :
  rx_core e M -> pr_cfg e' = pr_cfg e -> deliv e' = deliv e -> (rc_header_compression (pr_cfg e) = false -> pr_rohc e = None -> pr_rohc e' = None) -> rx_sdus ev = [] ->
  rx_moves b e M e' M ev [] [].
Proof.
  intros Hc Ecfg Hd Hr Hs. unfold rx_moves. cbn [rx_puts foldl]. rewrite Hd, Hs. split_and!.
  - left. split; [done|]. by intros x ?%elem_of_nil.
  - done.
  - lia.
  - symmetry. apply keys_from_all. intros k. by apply (rx_core_keys e).
  - intros _ k Hk. lia.
  - intros Hh Hn. split; [auto|]. rewrite sdus_between_nil by lia. by destruct (rc_out_of_order_delivery _).
Qed.

(** The entity stays where it is in the window. *)
Definition rx_still e e' : Prop :=
  pr_cfg e' = pr_cfg e /\ pr_st e' = pr_st e /\ pr_window e' = pr_window e /\
  (rc_header_compression (pr_cfg e) = false -> pr_rohc e = None -> pr_rohc e' = None).

Lemma rx_still_inv e e' M : rx_still e e' -> pr_timer e' = pr_timer e -> rx_inv e M -> rx_inv e' M.
Proof.
  intros (E1 & E2 & E3 & _) Et (Hc & Hd & Ht). unfold rx_inv, rx_core, pr_base in *. rewrite Et, E1, E2, E3. done.
Qed.

Lemma step_still s M e' lc lt ev :
  sy_inv s M -> rx_still (sy_entity s) e' -> pr_timer e' = pr_timer (sy_entity s) -> rx_static e' ->
  rk_stopped (pr_ctl e') = rk_stopped (pr_ctl (sy_entity s)) ->
  Forall (crypto_ok (sy_entity s)) lc -> Forall (task_ok (sy_entity s)) lt -> rx_sdus ev = [] ->
  sy_inv (RxSys e' lc lt) M /\ rx_moves false (sy_entity s) M e' M ev [] [].
Proof.
  intros (Hst & Hinv & Hlive & _) Hs Ht Hst' Hstop Hlc Hlt Hev. pose proof Hs as (Ecfg & Est & _ & Hr). split.
  - split; [done|]. split; [by apply (rx_still_inv (sy_entity s))|]. cbn [sy_entity sy_crypto sy_tasks].
    split; [|apply (tasks_mono (sy_entity s)); [done|by rewrite Est|done..]]. rewrite Hstop. unfold rx_live. rewrite Ecfg, Est, Ht. done.
  - apply rx_moves_none; [apply Hinv|done|by rewrite Est|done|done].
Qed.

Lemma quiet_still e e' : rx_quiet e e' -> rx_still e e' /\ pr_timer e' = pr_timer e /\ rk_stopped (pr_ctl e') = rk_stopped (pr_ctl e).
Proof. intros (c & -> & Es). by split_and!. Qed.

Lemma step_receives s M r :
  sy_inv s M -> rx_receives (sy_entity s) r ->
  sy_inv (sy_after s r).1 M /\ rx_moves false (sy_entity s) M r.1 M r.2 [] [].
Proof.
  intros Hs (Hq & Hb & Hsd & Hu & Hc). destruct (quiet_still _ _ Hq) as (Hstill & Ht & Hstop).
  pose proof Hs as (Hst & _ & _ & Hlc & Hlt). unfold sy_after. cbn [fst]. apply step_still; try done.
  - destruct Hst as (Hcfg & Hpool & _). destruct Hq as (c & Eq & _). by rewrite Eq in Hb |- *.
  - by apply Forall_app.
  - by rewrite Hu, app_nil_r.
Qed.

Lemma rx_moves_weaken b e M e' M' ev ran acc : rx_moves false e M e' M' ev ran acc -> rx_moves b e M e' M' ev ran acc.
Proof. intros (? & ? & ? & ? & Hs & ?). unfold rx_moves. split_and!; auto. Qed.

Lemma forall_delete {A} (P : A -> Prop) n (l : list A) : Forall P l -> Forall P (delete n l).
Proof. intros Hl. rewrite delete_take_drop. apply Forall_app. split; [by apply Forall_take|by apply Forall_drop]. Qed.
Hint Resolve forall_delete : pdcp.

(** Tasks after events that hand over none *)
Lemma sy_after_none s e ev : no_tasks ev -> (sy_after s (e, ev)).1 = RxSys e (sy_crypto s) (sy_tasks s).
Proof. intros [Hc Hu]. unfold sy_after. cbn [fst snd]. by rewrite Hc, Hu, !app_nil_r. Qed.

Lemma step_reorder s M n x :
  sy_inv s M -> sy_tasks s !! n = Some (RxReorder x) ->
  exists r M' acc, rx_run_task (RxReorder x) (sy_entity s) = Some r /\
    sy_inv (sy_after (RxSys (sy_entity s) (sy_crypto s) (delete n (sy_tasks s))) r).1 M' /\
    rx_moves (rc_t_reordering (pr_cfg (sy_entity s)) =? 0) (sy_entity s) M r.1 M' r.2 [x] acc /\
    rx_frame (sy_entity s) r.1 /\ no_tasks r.2.
Proof.
  intros Hs Hn. pose proof Hs as (Hst & Hinv & Hlive & Hlc & Hlt). set (e := sy_entity s) in *.
  assert (Hx : count_ok e (pi_count x)) by (rewrite Forall_lookup in Hlt; exact (Hlt _ _ Hn)).
  assert (Hlt' : Forall (task_ok e) (delete n (sy_tasks s))) by auto with pdcp.
  destruct Hst as (Hcfg & Hst). pose proof Hcfg as (_ & Ht & _ & Hmax). unfold rx_run_task.
  set (m := if pi_integrity_verified x then _ else _).
  assert (Hm : rx_sdus [m] = [] /\ no_tasks [m]) by (unfold m; by destruct (pi_integrity_verified x)). destruct Hm as [Hm1 Hm2]. clearbody m.
  destruct (decide (rx_drops e M (pi_count x))) as [Hdrop|Hdrop].
  - rewrite (rx_reordering_drop x e M (proj1 Hinv) (proj1 (proj1 Hx)) Hdrop). cbn [mbind option_bind].
    eexists _, M, []. split; [reflexivity|]. assert (Hnt : no_tasks [m; RxAddDroppedPdus 1]) by by apply (no_tasks_app [m]).
    rewrite sy_after_none by done. cbn [fst snd sy_crypto sy_tasks].
    destruct (step_still s M e (sy_crypto s) (delete n (sy_tasks s)) [m; RxAddDroppedPdus 1]) as [Hi Hmv]; try done.
    split; [done|]. split; [|by split]. apply rx_moves_weaken. destruct Hmv as (_ & Hmv). split; [|exact Hmv]. right. split; [done|]. by intros ? ->%list_elem_of_singleton.
  - assert (Hh : 0 < half (pr_base e)) by (eapply half_pos; apply Hinv).
    assert (Hw : pb_window_size (pr_base e) = half (pr_base e)) by (apply pdcp_base_fields; apply Hinv).
    destruct Hx as (Hx1 & Hx2). unfold pr_base in Hh, Hw. rewrite Hw in Hmax.
    destruct (rx_reordering_accept x e M Hinv Ht Hdrop Hx2) as (e' & ev & d & -> & Hf & Hnt & Hnx & Hdl & Hinv' & Hd & Hgap & Hlive' & Hsd); [lia|].
    cbn [mbind option_bind]. eexists _, _, [x]. split; [reflexivity|]. pose proof Hf as (Ecfg & _ & Ectl & Hr).
    rewrite sy_after_none by by apply (no_tasks_app [m]). cbn [fst snd sy_crypto sy_tasks].
    split; [|split; [|split; [done|by apply (no_tasks_app [m])]]]; [|split_and!; cbn [rx_puts foldl]].
    + split; [eapply rx_static_frame; [split; eassumption|done]|]. split; [exact Hinv'|]. split; [done|].
      apply (tasks_mono e); try done. cbn [sy_entity]. rewrite Hdl. lia.
    + left. split; [done|]. by intros ? ->%list_elem_of_singleton.
    + done.
    + lia.
    + by rewrite Hdl.
    + intros Hz k Hk. rewrite Hz in Hgap. destruct Hgap as (_ & Hp & _). apply Hp. lia.
    + intros _ Hrn. split; [auto|]. rewrite Hdl. pose proof (rx_sdus_app [m] ev) as E0. rewrite Hm1, Hsd in E0 by done. exact E0.
Qed.

Lemma step_expiry s M :
  sy_inv s M -> pr_timer (sy_entity s) = true ->
  exists r M', rx_reordering_callback (sy_entity s) = Some r /\ sy_inv (sy_after s r).1 M' /\ rx_moves true (sy_entity s) M r.1 M' r.2 [] [] /\
    rx_frame (sy_entity s) r.1 /\ no_tasks r.2.
Proof.
  intros (Hst & Hinv & Hlive & Hlc & Hlt) Ht. set (e := sy_entity s) in *. unfold rx_reordering_callback. cbn [pr_set_timer pr_ctl].
  set (e0 := pr_set_timer false e). assert (Hc0 : rx_core e0 M) by apply Hinv. pose proof Hinv as (_ & HMd & Htm). specialize (Htm Ht).
  destruct (rk_stopped (pr_ctl e)) eqn:Estop.
  - eexists _, M. split; [reflexivity|]. rewrite sy_after_none by done. split; [|split; [apply rx_moves_none; done|done]].
    split; [exact Hst|]. split; [split; [exact Hc0|]; split; [exact HMd|done]|]. split; [cbn; congruence|]. by apply (tasks_mono e).
  - destruct (rx_expire_spec e0 M Hc0) as (e' & ev & d & -> & Hf & Hnt & Hn & Hdl & Hc' & HMd' & Hd & Hp & Hrun & Hsame & Hs).
    pose proof Hf as (Ecfg & _ & _ & Hr). cbn [pr_set_timer pr_cfg pr_st e0] in *.
    eexists _, (keys_from d M). split; [reflexivity|]. rewrite sy_after_none by by apply (no_tasks_app [_]).
    assert (Hlv : pr_timer e' = bool_decide (deliv e' < next e') /\ (pr_timer e' = true -> deliv e' < reord e')).
    { rewrite Hdl, Hn. destruct (decide (d < next e)) as [Hlt1|Hge].
      - destruct Hrun as [-> ->]; [done|lia|]. rewrite bool_decide_true by done. done.
      - destruct Hsame as [_ ->]; [left; lia|]. rewrite bool_decide_false by done. done. }
    split; [|split; [|split; [done|by apply (no_tasks_app [_])]]].
    + split; [by apply (rx_static_frame e0)|]. cbn [sy_entity sy_crypto sy_tasks]. split.
      * split; [done|]. rewrite Hdl, keys_from_lookup, decide_True by lia. split; [done|]. rewrite Ecfg. intros Htt. split; [lia|]. rewrite <- Hdl. by apply Hlv.
      * split; [intros _ _; apply Hlv|]. apply (tasks_mono e); try done. rewrite Hdl. lia.
    + unfold rx_moves. cbn [rx_puts foldl fst snd]. rewrite Hdl. split_and!; [left; split; [done|by intros x ?%elem_of_nil]|done|lia|done|done|].
      intros _ Hrn. split; [by apply Hr|]. change (rx_sdus (_ :: ev)) with (rx_sdus ev). rewrite Hs by done. by destruct (rc_out_of_order_delivery _).
Qed.

(** ** Suspension and re-establishment *)
Lemma keys_from_none e M d : rx_core e M -> next e <= d -> keys_from d M = ∅.
Proof.
  intros (_ & _ & _ & _ & _ & _ & HM) Hd. apply map_eq. intros k. rewrite keys_from_lookup, lookup_empty. case_decide; [|done].
  destruct (M !! k) as [x|] eqn:Ex; [|done]. destruct (HM k x Ex). lia.
Qed.

Lemma rx_discard_spec fuel : forall e M,
  win_holds (pr_window e) M -> (forall k, is_Some (M !! k) -> deliv e <= k < next e) -> 0 <= deliv e -> next e < 2 ^ 32 ->
  next e - deliv e <= Z.of_nat fuel ->
  exists e', rx_discard_loop fuel e = Some e' /\ rx_frame e e' /\ pr_rohc e' = pr_rohc e /\ pr_timer e' = pr_timer e /\
    pr_st e' = RxState (next e) (Z.max (deliv e) (next e)) (reord e) /\ win_cap (pr_window e') = win_cap (pr_window e) /\
    win_holds (pr_window e') ∅.
Proof.
  induction fuel as [|fuel IH]; intros e M Hw Hk Hd Hn Hfuel; cbn [rx_discard_loop].
  all: assert (Hend : next e <= deliv e -> win_holds (pr_window e) ∅) by
    (intros Hle; replace ∅ with M; [done|]; apply map_eq; intros k; rewrite lookup_empty; destruct (M !! k) eqn:Ek; [|done];
     destruct (Hk k); [by rewrite Ek|lia]).
  { rewrite (proj2 (Z.ltb_ge _ _)) by lia. exists e. rewrite Z.max_l by lia. split_and!; try done; [by destruct (pr_st e)|apply Hend; lia]. }
  destruct (Z.ltb_spec (deliv e) (next e)) as [Hlt|Hge].
  2: { exists e. rewrite Z.max_l by lia. split_and!; try done; [by destruct (pr_st e)|apply Hend; lia]. }
  assert (Eu : u32 (deliv e + 1) = deliv e + 1) by (rewrite u32_eq; lia).
  assert (Hone : exists w, (if has_sn (pr_window e) (deliv e) then w ← remove_sn (pr_window e) (deliv e); Some (pr_set_window w e) else Some e)
      = Some (pr_set_window w e) /\ win_holds w (delete (deliv e) M) /\ win_cap w = win_cap (pr_window e)).
  { rewrite (holds_has _ M) by done. case_bool_decide as Hb.
    - destruct (holds_remove (pr_window e) M (deliv e) Hw Hb) as (w & -> & ? & ?). by exists w.
    - exists (pr_window e). split; [by destruct e|]. split; [|done]. rewrite delete_id; [done|]. destruct (M !! deliv e) eqn:Em; [|done]. destruct Hb. by eexists. }
  destruct Hone as (w & -> & Hw1 & Hc1). cbn [mbind option_bind].
  set (e1 := pr_set_rx_deliv (u32 (deliv e + 1)) (pr_set_window w e)).
  assert (Hst1 : pr_st e1 = RxState (next e) (deliv e + 1) (reord e)) by (unfold e1, pr_set_rx_deliv; cbn; by rewrite Eu).
  destruct (IH e1 (delete (deliv e) M)) as (e2 & -> & Hf & Hr & Ht & Hst & Hcap & Hw2); rewrite ?Hst1; cbn [rx_deliv rx_next]; try done; try lia.
  - intros k [x Hx]. apply lookup_delete_Some in Hx as [Hne Hx]. destruct (Hk k); [by eexists|]. lia.
  - rewrite Hst1 in Hst. cbn [rx_deliv rx_next rx_reord] in Hst. exists e2. rewrite Hst, Hcap. split_and!; try done. f_equal. lia.
Qed.

(** Counters at zero and an empty window *)
Lemma rx_reset_inv e M : rx_core e M -> win_holds (pr_window e) ∅ -> pr_timer e = false ->
  rx_inv (pr_set_st pdcp_rx_state_init e) ∅ /\ rx_live (pr_set_st pdcp_rx_state_init e).
Proof.
  intros (Hb & _ & _ & _ & _ & Hc & _) Hw Ht. unfold rx_inv, rx_core, rx_live. cbn [pr_set_st pr_st pr_timer pr_window rx_deliv rx_next rx_reord pdcp_rx_state_init].
  rewrite Ht. split_and!; done.
Qed.

Lemma rx_suspend_spec e M :
  rx_static e -> rx_inv e M -> (rk_stopped (pr_ctl e) = false -> rx_live e) ->
  exists b e' ev M', rx_suspend e = Some (b, e', ev) /\ rx_static e' /\ rx_inv e' M' /\ no_tasks ev /\
    (rk_stopped (pr_ctl e') = false -> rx_live e') /\ pr_cfg e' = pr_cfg e.
Proof.
  intros Hst Hinv Hlive. unfold rx_suspend. destruct (_ || _); [by exists false, e, [], M|].
  set (e0 := pr_set_timer false e). assert (Hc0 : rx_core e0 M) by apply Hinv.
  destruct (rx_advance_spec (next e) false e0 M Hc0) as (e1 & ev & d & -> & Hf & Ht & Hn & Hst1 & Hc1 & Hd & Hno & _); [done|].
  cbn [mbind option_bind]. specialize (Hno eq_refl). cbn [e0 pr_set_timer pr_st pr_timer] in *.
  rewrite (keys_from_none e0 M d Hc0) in Hc1 by (cbn; lia).
  destruct (rx_reset_inv e1 ∅ Hc1) as [Hi Hl]; [apply Hc1|done|].
  eexists true, _, ev, ∅. split; [reflexivity|]. split; [|split_and!; try done; apply Hf].
  assert (Hs1 : rx_static e1) by by apply (rx_static_frame e0). destruct Hs1 as (Hs1 & Hs2 & Hs3). split; [done|]. split; [done|]. exact Hs3.
Qed.

(** Re-establishment, but for the security configuration at its end *)
Lemma rx_reestablish_spec `{EngineMakerLaws} rohc cfg e M :
  rx_static e -> rx_inv e M -> (rk_stopped (pr_ctl e) = false -> rx_live e) -> sec_ok (pr_base e) cfg (rs_integrity (pr_sec e)) ->
  exists e' ev M', rx_reestablish make_engine rohc cfg e = Some (e', ev) /\ rx_static e' /\ rx_inv e' M' /\ no_tasks ev /\
    (rk_stopped (pr_ctl e') = false -> rx_live e') /\ pr_cfg e' = pr_cfg e /\
    (is_srb (pr_base e) || is_um (pr_base e) = false -> rx_still e e' /\ ev = [] /\ M' = M).
Proof.
  intros Hst Hinv Hlive Hsec. unfold rx_reestablish. pose proof Hinv as ((Hb & Hd & Hn & Hr & Hw & Hcap & HM) & _).
  assert (Hdisc : exists e1 M1, (if is_srb (pr_base e) then rx_discard_rx_window e else Some e) = Some e1 /\ rx_frame e e1 /\
    pr_rohc e1 = pr_rohc e /\ rx_core e1 M1 /\ (is_srb (pr_base e) = true -> M1 = ∅) /\
    (is_srb (pr_base e) = false -> e1 = e /\ M1 = M)).
  { destruct (is_srb (pr_base e)); [|exists e, M; split_and!; try done; apply Hinv].
    destruct (rx_discard_spec (Z.to_nat (next e - deliv e)) e M Hw) as (e1 & E1 & Hf & Hrh & Ht & Hst1 & Hc1 & Hw1); [|lia..|].
    { intros k [x Hx]. by apply (HM k x). }
    exists e1, ∅. split_and!; try done. eapply (rx_core_frame e e1 M ∅); try done; lia. }
  destruct Hdisc as (e1 & M1 & -> & Hf1 & Hrh1 & Hc1 & Hsrb & Hdrb). cbn [mbind option_bind].
  assert (Eb1 : pr_base e1 = pr_base e) by (unfold pr_base; by rewrite (proj1 Hf1)).
  assert (Hadv : exists e2 M2 ev, (if is_srb (pr_base e) || is_um (pr_base e)
       then let e := pr_set_timer false e1 in if is_um (pr_base e1) then rx_advance_rx_window (next e) false e else Some (e, [])
       else Some (e1, [])) = Some (e2, ev) /\ rx_frame e e2 /\ no_tasks ev /\ rx_core e2 M2 /\
       (is_srb (pr_base e) || is_um (pr_base e) = true -> M2 = ∅ /\ pr_timer e2 = false) /\
       (is_srb (pr_base e) || is_um (pr_base e) = false -> e2 = e /\ M2 = M /\ ev = [])).
  { rewrite Eb1. destruct (is_srb (pr_base e) || is_um (pr_base e)) eqn:Esu.
    2: { apply orb_false_iff in Esu as [Es _]. destruct (Hdrb Es) as [-> ->]. exists e, M, []. by split_and!. }
    cbn zeta. set (e0 := pr_set_timer false e1). destruct (is_um (pr_base e)) eqn:Eum.
    - assert (Hc0 : rx_core e0 M1) by exact Hc1.
      destruct (rx_advance_spec (next e0) false e0 M1 Hc0) as (e2 & ev & d & -> & Hf & Ht & Hnt & Hst2 & Hc2 & Hd2 & Hno & _); [done|].
      specialize (Hno eq_refl). rewrite (keys_from_none e0 M1 d Hc0) in Hc2 by lia. exists e2, ∅, ev. split_and!; try done.
      by apply (rx_frame_trans e e0).
    - rewrite orb_false_r in Esu. rewrite (Hsrb Esu) in *. by exists e0, ∅, []. }
  destruct Hadv as (e2 & M2 & ev & E2 & Hf2 & Hnt & Hc2 & Hreset & Hkeep). cbn zeta in E2 |- *. rewrite Eb1 in E2. rewrite E2. cbn [mbind option_bind].
  set (e3 := rx_init_header_decompression rohc e2).
  assert (Hdec : exists o, e3 = pr_set_rohc o e2 /\ (rc_header_compression (pr_cfg e2) = false -> o = pr_rohc e2)).
  { unfold e3, rx_init_header_decompression. destruct (rc_header_compression (pr_cfg e2)); [by exists rohc|]. exists (pr_rohc e2). by destruct e2. }
  destruct Hdec as (o & -> & Ho). set (e4 := if _ || _ then _ else _).
  assert (Hst4 : rx_static e4 /\ pr_sec e4 = pr_sec e /\ pr_cfg e4 = pr_cfg e /\ exists M4, rx_inv e4 M4 /\ (rk_stopped (pr_ctl e4) = false -> rx_live e4) /\
    (is_srb (pr_base e) || is_um (pr_base e) = false -> e4 = pr_set_rohc o e /\ M4 = M)).
  { assert (Hs2 : rx_static e2) by by apply (rx_static_frame e). destruct Hf2 as (Ec2 & Es2 & Ect2 & _).
    unfold e4. destruct (is_srb (pr_base e) || is_um (pr_base e)).
    - destruct (Hreset eq_refl) as [-> Ht2]. split_and!; try done. exists ∅.
      destruct (rx_reset_inv (pr_set_rohc o e2) ∅) as [Hi Hl]; [exact Hc2|apply Hc2|done|]. done.
    - destruct (Hkeep eq_refl) as (-> & -> & ->). split_and!; try done. by exists M. }
  destruct Hst4 as (Hs4 & Es4 & Ec4 & M4 & Hi4 & Hl4 & Hk4). rewrite Es4.
  destruct (rx_configure_spec cfg (rs_integrity (pr_sec e)) (rs_ciphering (pr_sec e)) e4) as (e5 & -> & Hs5 & sec & ->).
  { done. } { unfold pr_base in *. by rewrite Ec4. }
  cbn [mbind option_bind]. eexists _, ev, M4. split; [reflexivity|]. split_and!; try done.
  intros Es. destruct (Hk4 Es) as [-> ->]. destruct (Hkeep Es) as (-> & _ & ->). split; [|done]. split; [done|]. split; [done|]. split; [done|]. intros Hh ?. cbn. by rewrite (Ho Hh).
Qed.

(** ** All steps *)

(** Inputs that may give SDUs up, and inputs that start the counters again *)
Definition rx_expires (cfg : pdcp_rx_config) (i : rx_input) : bool :=
  (rc_t_reordering cfg =? 0) || match i with RiExpiry => true | _ => false end.
Definition rx_resets (b : pdcp_base) (i : rx_input) : bool :=
  match i with RiSuspend => true | RiReestablish _ _ => is_srb b || is_um b | _ => false end.

Lemma rx_cfg_kept e e' : rx_still e e' -> pr_cfg e' = pr_cfg e. Proof. by intros []. Qed.

Lemma step_crypto s M worker_idx n i :
  sy_inv s M -> 0 <= worker_idx < rc_max_nof_crypto_workers (pr_cfg (sy_entity s)) -> sy_crypto s !! n = Some i ->
  let e := sy_entity s in
  exists ev, rx_apply_security worker_idx i e = Some ev /\
    sy_inv (sy_after (RxSys e (delete n (sy_crypto s)) (sy_tasks s)) (e, ev)).1 M /\ rx_moves false e M e M ev [] [].
Proof.
  intros Hs Hwk Hn e. pose proof Hs as (Hst & _ & _ & Hlc & Hlt).
  assert (Hi : crypto_ok e i) by (rewrite Forall_lookup in Hlc; exact (Hlc _ _ Hn)).
  destruct (rx_apply_security_spec worker_idx i e Hst Hi Hwk) as (st & out & ev & _ & -> & Hsd & Hc & Hu). exists ev. split; [done|].
  unfold sy_after. cbn [fst snd sy_crypto sy_tasks]. rewrite Hc, app_nil_r. apply step_still; try done; auto with pdcp.
  apply Forall_app. split; [done|]. rewrite Hu. destruct (is_success st); repeat constructor; apply Hi.
Qed.

(** Every input is handled, keeps the invariant and, unless it is a reset, moves SDUs as [rx_moves] says. *)
Lemma rx_step_spec `{EngineMakerLaws} s M i :
  sy_inv s M -> rx_allowed s i ->
  exists s' ev M', rx_step s i = Some (s', ev) /\ sy_inv s' M' /\ pr_cfg (sy_entity s') = pr_cfg (sy_entity s) /\
    (rx_resets (pr_base (sy_entity s)) i = false -> exists acc,
      rx_moves (rx_expires (pr_cfg (sy_entity s)) i) (sy_entity s) M (sy_entity s') M' ev (rx_ran s i) acc).
Proof.
  intros Hs Hal. pose proof Hs as (Hst & Hinv & Hlive & Hlc & Hlt). pose proof Hst as (Hcfg & Hpool & Hbuf). pose proof Hinv as (Hcore & _).
  set (e := sy_entity s) in *.
  assert (Hrecv : forall (o : option (entity * list pdcp_rx_event)) r, o = Some r -> rx_receives e r -> rx_ran s i = [] ->
    exists s' ev M', sy_after s <$> o = Some (s', ev) /\ sy_inv s' M' /\ pr_cfg (sy_entity s') = pr_cfg e /\
      (rx_resets (pr_base e) i = false -> exists acc, rx_moves (rx_expires (pr_cfg e) i) e M (sy_entity s') M' ev (rx_ran s i) acc)).
  { intros o r -> Hr ->. destruct (step_receives s M r Hs Hr) as [Hi Hm]. eexists _, _, M. split; [reflexivity|]. split; [exact Hi|].
    split; [apply rx_cfg_kept, quiet_still, Hr|]. intros _. exists []. by apply rx_moves_weaken. }
  assert (Hstill : forall e' lc lt ev, rx_still e e' -> pr_timer e' = pr_timer e -> rx_static e' -> rk_stopped (pr_ctl e') = rk_stopped (pr_ctl e) ->
    Forall (crypto_ok e) lc -> Forall (task_ok e) lt -> rx_sdus ev = [] -> rx_ran s i = [] ->
    exists s' ev' M', Some (RxSys e' lc lt, ev) = Some (s', ev') /\ sy_inv s' M' /\ pr_cfg (sy_entity s') = pr_cfg e /\
      (rx_resets (pr_base e) i = false -> exists acc, rx_moves (rx_expires (pr_cfg e) i) e M (sy_entity s') M' ev' (rx_ran s i) acc)).
  { intros e' lc lt ev Hsl ? ? ? ? ? ? ->. destruct (step_still s M e' lc lt ev) as [Hi Hm]; try done. eexists _, _, M. split; [reflexivity|].
    split; [done|]. split; [by apply rx_cfg_kept|]. intros _. exists []. by apply rx_moves_weaken. }
  destruct i as [copy_ok buf|worker_idx n|n|n|n| | |copy_ok| | |rohc cfg|cfg integ ciph|]; cbn [rx_step rx_allowed] in *; fold e in Hal |- *.
  - destruct (rx_handle_pdu_spec copy_ok e M buf) as (r & E1 & Hr & _); [done..|]. by eapply Hrecv.
  - destruct (sy_crypto s !! n) as [i|] eqn:En.
    + destruct (step_crypto s M worker_idx n i Hs Hal En) as (ev & E1 & Hi & Hm). fold e in E1. rewrite E1. eexists _, _, M.
      split; [reflexivity|]. split; [exact Hi|]. split; [done|]. intros _. exists []. by apply rx_moves_weaken.
    + destruct s as [e0 lc lt]. by apply Hstill.
  - apply Hstill; auto with pdcp; done.
  - destruct (sy_tasks s !! n) as [[x|st c]|] eqn:En.
    + destruct (step_reorder s M n x Hs En) as (r & M' & acc & E1 & Hi & Hm & _). fold e in E1. rewrite E1. eexists _, _, M'. split; [reflexivity|].
      split; [exact Hi|]. split; [apply Hm|]. intros _; exists acc. unfold rx_expires, rx_ran. by rewrite orb_false_r, En.
    + cbn [rx_run_task fmap option_fmap option_map]. unfold sy_after. cbn [fst snd sy_crypto sy_tasks].
      apply Hstill; auto with pdcp; try done; [by destruct st; rewrite app_nil_r|destruct st; rewrite app_nil_r; auto with pdcp|by destruct st|cbn; by rewrite En].
    + destruct s as [e0 lc lt]. apply Hstill; try done. cbn in En |- *. by rewrite En.
  - apply Hstill; auto with pdcp; done.
  - destruct (pr_timer e) eqn:Et; [|destruct s as [e0 lc lt]; by apply Hstill].
    destruct (step_expiry s M Hs Et) as (r & M' & E1 & Hi & Hm & _). fold e in E1. rewrite E1. eexists _, _, M'. split; [reflexivity|].
    split; [exact Hi|]. split; [apply Hm|]. intros _; exists []. unfold rx_expires. by rewrite orb_true_r.
  - apply (Hrecv (Some _) _ eq_refl); [|done]. apply rx_receives_plain; try done. by eexists.
  - destruct (rx_end_buffering_spec copy_ok e M) as (r & E1 & Hr); [done..|]. by eapply Hrecv.
  - destruct Hal as [Hlc0 Hlt0]. destruct (rx_suspend_spec e M Hst Hinv Hlive) as (b & e' & ev & M' & -> & Hst' & Hinv' & Hnt & Hl' & Ecfg).
    cbn [mbind option_bind]. eexists _, _, M'. split; [reflexivity|]. split; [|by split; [|]].
    change (sy_inv (sy_after s (e', ev)).1 M'). rewrite sy_after_none, Hlc0, Hlt0 by done. by split_and!.
  - apply (Hrecv (Some _) _ eq_refl); [|done]. unfold rx_resume. destruct (_ || _); apply rx_receives_plain; auto with pdcp. by eexists.
  - destruct Hal as (Hlc0 & Hlt0 & Hsec).
    destruct (rx_reestablish_spec rohc cfg e M Hst Hinv Hlive Hsec) as (e' & ev & M' & -> & Hst' & Hinv' & Hnt & Hl' & Ecfg & Hk).
    eexists _, _, M'. split; [reflexivity|]. split.
    + change (sy_inv (sy_after s (e', ev)).1 M'). rewrite sy_after_none, Hlc0, Hlt0 by done. by split_and!.
    + split; [done|]. cbn [rx_resets]. intros Hnr. destruct (Hk Hnr) as (Hsl & -> & ->). exists []. cbn [fst sy_after sy_entity].
      destruct Hsl as (? & Esl & ? & ?). apply rx_moves_none; try done. by rewrite Esl.
  - destruct (rx_configure_spec cfg integ ciph e Hst Hal) as (e' & -> & Hst' & sec & ->). cbn [mbind option_bind].
    unfold sy_after. cbn [fst snd rx_crypto_tasks rx_ul_tasks omap list_omap]. rewrite !app_nil_r. by apply Hstill.
  - unfold sy_after, rx_stop. cbn [fst snd rx_crypto_tasks rx_ul_tasks omap list_omap]. rewrite !app_nil_r.
    destruct (rk_stopped (pr_ctl e)) eqn:Estop; [by apply Hstill|]. eexists _, _, M. split; [reflexivity|]. split; [|split; [done|]].
    + split; [exact Hst|]. split; [|split; [done|by apply (tasks_mono e)]]. destruct Hinv as (? & ? & _). by split_and!.
    + intros _. exists []. by apply rx_moves_none.
Qed.
End steps.

(** The engines of [security_engine_impl] obey these laws. *)
#[export] Instance impl_maker_laws {I C} `{IntegrityLaws I, CipheringLaws C} make_integ make_cipher :
  EngineMakerLaws (E := security_engine_impl I C) (security_engine_new make_integ make_cipher).
Proof.
  split.
  - intros cfg id dir integ ciph Hk. unfold security_engine_new. destruct (decide (integ = integrity_off)); [by eexists|].
    destruct Hk as [|[[k ->] [a ->]]]; [done|]. by eexists.
  - intros cfg id dir integ ciph eng Eeng buf offset count st out Ed Hst.
    pose proof (impl_verify_length eng buf offset count st out Ed Hst) as Hl. unfold buf_len. unfold security_engine_new in Eeng. unfold sec_mac_len.
    destruct (decide (integ = integrity_off)); [injection Eeng as <-; cbn in Hl; lia|]. destruct (integ_eng eng); lia.
Qed.
