(* ===== verification/PdcpRxCorrect.v ===== *)
(** * Correctness of the PDCP receiver

    For every sequence of inputs, hostile PDUs included, and every schedule of the tasks: the receiver does not fail, and it
    delivers the SDUs of the PDUs that passed security in the order of their COUNTs, each at most once. *)
From S2P Require Import Prelude SduWindow CircularMap RingBuffer PdcpSn SecurityEngine PdcpBase PdcpRx PdcpRxFacts PdcpRxSteps.

Lemma rx_puts_app ooo l1 l2 M : rx_puts ooo (l1 ++ l2) M = rx_puts ooo l2 (rx_puts ooo l1 M).
Proof. apply foldl_app. Qed.

Lemma rx_puts_ne ooo l k : forall M, (forall x, x ∈ l -> pi_count x <> k) -> rx_puts ooo l M !! k = M !! k.
Proof.
  induction l as [|x l IH]; intros M Hl; [done|]. cbn [rx_puts foldl].
  change (foldl _ ?M0 l) with (rx_puts ooo l M0). rewrite IH by (intros y Hy; apply Hl; by right). apply lookup_insert_ne, Hl. by left.
Qed.

Lemma rx_puts_ext ooo l k : forall M1 M2, M1 !! k = M2 !! k -> rx_puts ooo l M1 !! k = rx_puts ooo l M2 !! k.
Proof.
  induction l as [|x l IH]; intros M1 M2 E; [done|]. cbn [rx_puts foldl]. apply IH. rewrite !lookup_insert. by case_decide.
Qed.

Lemma rx_puts_some ooo l k : forall M s, rx_puts ooo l M !! k = Some s ->
  M !! k = Some s \/ exists x, x ∈ l /\ pi_count x = k /\ s = RxSduInfo (if ooo then [] else pi_buf x) k (pi_integrity_verified x).
Proof.
  induction l as [|x l IH]; intros M s Hs; [by left|]. cbn [rx_puts foldl] in Hs.
  apply IH in Hs as [Hs|(y & Hy & ? & ?)]; [|right; exists y; split; [by right|done]].
  apply lookup_insert_Some in Hs as [[<- <-]|[_ Hs]]; [|by left]. right. exists x. split; [by left|done].
Qed.

Lemma rx_puts_in ooo l x M : x ∈ l -> is_Some (rx_puts ooo l M !! pi_count x).
Proof.
  intros Hx. assert (Hk : pi_count x ∈ pi_count <$> l) by by apply list_elem_of_fmap_2. clear Hx. revert M Hk. generalize (pi_count x) as k. intros k.
  induction l as [|y l IH]; intros M Hk; [by apply elem_of_nil in Hk|]. cbn [rx_puts foldl fmap list_fmap] in *.
  change (foldl _ ?M0 l) with (rx_puts ooo l M0). destruct (decide (k ∈ pi_count <$> l)) as [Hin|Hin]; [by apply IH|].
  apply elem_of_cons in Hk as [->|?]; [|done].
  rewrite rx_puts_ne; [|intros z Hz E; apply Hin; rewrite <- E; by apply list_elem_of_fmap_2]. rewrite lookup_insert_eq. by eexists.
Qed.

Lemma rx_puts_mono ooo l k M : is_Some (M !! k) -> is_Some (rx_puts ooo l M !! k).
Proof.
  intros Hk. destruct (decide (k ∈ pi_count <$> l)) as [Hin|Hin].
  - apply list_elem_of_fmap in Hin as (y & -> & Hy). by apply rx_puts_in.
  - rewrite rx_puts_ne; [done|]. intros y Hy E. apply Hin. rewrite <- E. by apply list_elem_of_fmap_2.
Qed.

(** SDUs that were delivered when they arrived leave nothing to deliver. *)
Lemma sdus_between_empty M a b : (forall k s, M !! k = Some s -> si_buf s = []) -> sdus_between M a b = [].
Proof.
  intros HM. unfold sdus_between. induction (seqZ a (b - a)) as [|k l IH]; [done|]. cbn [omap list_omap]. rewrite IH.
  destruct (M !! k) as [s|] eqn:E; [|done]. cbn. unfold pending_sdu. by rewrite (HM k s E).
Qed.

Section correct.
Context {E R W : Type} `{SecurityEngineRx E, RohcDecompressor R}.
Context `{SduWindowLaws pdcp_rx_sdu_info W pdcp_rx_sdu_info_init}
  `{!SduWindowClear pdcp_rx_sdu_info W} `{!SduWindowClearLaws pdcp_rx_sdu_info W}.
Context (make_engine : engine_maker E) (may_protect : bool) `{!EngineMakerLaws make_engine}.
Notation entity := (pdcp_entity_rx E R W).
Implicit Types (e : entity) (M G : rx_map).
Notation system := (@rx_system E R W).
Implicit Types s : system.
Notation deliv s := (rx_deliv (pr_st (sy_entity s))).
Notation ooo s := (rc_out_of_order_delivery (pr_cfg (sy_entity s))).

(** The entity after its construction *)
Definition rx_init (cfg : pdcp_rx_config) (win : W) (rohc : option R) : system := RxSys (pdcp_rx_new cfg win rohc) [] [].

(** A new window of the size that the constructor asks for *)
Definition new_window (b : pdcp_base) (win : W) : Prop :=
  win_inv win /\ win_cap win = pdcp_window_size_of_bits (pdcp_sn_size_value (pb_sn_size b)) /\ forall k, 0 <= k -> win_lookup win k = None.

Lemma rx_init_inv cfg win rohc : rx_cfg_ok cfg -> new_window (rc_base cfg) win -> sy_inv may_protect (rx_init cfg win rohc) ∅.
Proof.
  intros Hcfg (Hi & Hc & Hl). pose proof Hcfg as (Hb & Ht & Hn & Hm). destruct (pdcp_base_fields _ Hb) as (_ & Ew & _). rewrite Ew in Hc.
  pose proof (holds_empty win Hi Hl) as Hw. unfold rx_init, sy_inv, pdcp_rx_new. cbn [sy_entity sy_crypto sy_tasks].
  set (e := rx_init_header_decompression _ _).
  assert (He : exists o, e = pr_set_rohc o (PdcpRx cfg (RxSec (replicate (Z.to_nat (rc_max_nof_crypto_workers cfg)) None) integrity_off ciphering_off) None
       pdcp_rx_state_init win false (RxCtl false false false false (rb_new true 2048) false false))).
  { unfold e, rx_init_header_decompression. destruct (rc_header_compression _); by eexists. }
  destruct He as (o & ->). split; [|split_and!; try done].
  - split; [done|]. split; [split; [by cbn; rewrite length_replicate|]|].
    + by apply Forall_replicate.
    + exists []. cbn. destruct (rb_repr_new (T := list Z) true 2048) as [Hr Hsz]; [done|intros _; by exists 11|]. done.
Qed.

(** Runs *)
Lemma rx_run_spec l : forall s M,
  sy_inv may_protect s M -> rx_allowed_run make_engine may_protect s l ->
  exists s' ev ran M', rx_run make_engine s l = Some (s', ev, ran) /\ sy_inv may_protect s' M'.
Proof.
  induction l as [|i l IH]; intros s M Hs Hal; cbn [rx_run]; [by exists s, [], [], M|]. destruct Hal as [Hi Hal].
  destruct (rx_step_spec make_engine may_protect s M i Hs Hi) as (s1 & ev1 & M1 & E1 & Hs1 & _). rewrite E1. cbn [mbind option_bind].
  destruct (IH s1 M1 Hs1) as (s2 & ev2 & ran & M2 & -> & Hs2); [by eapply Hal|]. cbn [mbind option_bind]. by eexists _, _, _, M2.
Qed.

(** What a run without resets delivers, from a point where [G] holds what was accepted so far. *)
Definition run_delivers s s' (l : list (@rx_input R)) (ev : list pdcp_rx_event) (ran acc : list pdcp_rx_pdu_info) G : Prop :=
  let G' := rx_puts (ooo s) acc G in
  acc `sublist_of` ran /\ NoDup (pi_count <$> acc) /\ (forall x, x ∈ acc -> deliv s <= pi_count x /\ G !! pi_count x = None) /\
  deliv s <= deliv s' /\ (forall x, x ∈ ran -> pi_count x < deliv s' \/ is_Some (G' !! pi_count x)) /\
  rx_sdus ev = (if ooo s then (fun i => (pi_buf i, pi_integrity_verified i)) <$> acc else sdus_between G' (deliv s) (deliv s')) /\
  (Forall (fun i => rx_expires (pr_cfg (sy_entity s)) i = false) l -> forall k, deliv s <= k < deliv s' -> is_Some (G' !! k)).

Lemma run_delivers_nil s G : run_delivers s s [] [] [] [] G.
Proof.
  unfold run_delivers. cbn [rx_puts foldl fmap list_fmap]. rewrite sdus_between_nil by lia.
  split_and!; try done; [by apply NoDup_nil|by intros x ?%elem_of_nil|by intros x ?%elem_of_nil|by destruct (ooo s)|intros _ k ?; lia].
Qed.

(** One more step in front *)
Lemma run_delivers_cons s s1 s2 i l ev1 ev2 ran acc2 G M M1 acc1 :
  M = keys_from (deliv s) G -> (ooo s = true -> forall k x, G !! k = Some x -> si_buf x = []) ->
  rc_header_compression (pr_cfg (sy_entity s)) = false -> pr_rohc (sy_entity s) = None ->
  rx_moves (rx_expires (pr_cfg (sy_entity s)) i) (sy_entity s) M (sy_entity s1) M1 ev1 (rx_ran s i) acc1 ->
  run_delivers s1 s2 l ev2 ran acc2 (rx_puts (ooo s) acc1 G) ->
  run_delivers s s2 (i :: l) (ev1 ++ ev2) (rx_ran s i ++ ran) (acc1 ++ acc2) G.
Proof.
  intros HM HG Hhc Hrn (Hacc & Ecfg & Hd & HM1 & Hskip & Hsd) (Hsub & Hnd & Hnew & Hd2 & Hran & Hsd2 & Hskip2). destruct (Hsd Hhc Hrn) as [_ Hsd1].
  unfold run_delivers. rewrite Ecfg in *. rewrite rx_puts_app. set (G1 := rx_puts (ooo s) acc1 G) in *. set (G2 := rx_puts (ooo s) acc2 G1) in *.
  assert (Hlow : forall k, k < deliv s1 -> G2 !! k = G1 !! k).
  { intros k Hk. apply rx_puts_ne. intros x Hx. destruct (Hnew x Hx). lia. }
  assert (HMG : forall k, deliv s <= k -> rx_puts (ooo s) acc1 M !! k = G1 !! k).
  { intros k Hk. apply rx_puts_ext. rewrite HM, keys_from_lookup. by rewrite decide_True. }
  assert (Hnew1 : forall x, x ∈ acc1 -> deliv s <= pi_count x /\ G !! pi_count x = None).
  { intros x Hx. destruct Hacc as [[_ Hnd1]|[-> _]]; [|by apply elem_of_nil in Hx]. specialize (Hnd1 x Hx). unfold rx_drops in Hnd1.
    assert (deliv s <= pi_count x) by lia. split; [done|]. destruct (G !! pi_count x) eqn:EG; [|done]. destruct Hnd1. right.
    rewrite HM, keys_from_lookup, decide_True, EG by lia. by eexists. }
  assert (Hone : (length acc1 <= 1)%nat).
  { destruct Hacc as [[-> _]|[-> _]]; [|cbn; lia]. unfold rx_ran. destruct i; cbn; try lia. destruct (sy_tasks s !! n) as [[]|]; cbn; lia. }
  split_and!.
  - apply sublist_app; [|done]. destruct Hacc as [[-> _]|[-> _]]; [done|apply sublist_nil_l].
  - rewrite fmap_app. apply NoDup_app. split_and!; [|intros c Hc1 Hc2|done].
    + destruct acc1 as [|x [|y l1]]; [by apply NoDup_nil|by apply NoDup_singleton|cbn in Hone; lia].
    + apply list_elem_of_fmap in Hc1 as (x & -> & Hx), Hc2 as (y & Ey & Hy). destruct (Hnew y Hy) as [_ Hn].
      rewrite <- Ey in Hn. destruct (rx_puts_in (ooo s) acc1 x G Hx) as [z Hz]. unfold G1 in Hn. congruence.
  - intros x [Hx|Hx]%elem_of_app; [by apply Hnew1|]. destruct (Hnew x Hx) as [? Hn]. split; [lia|].
    destruct (G !! pi_count x) eqn:EG; [|done]. destruct (rx_puts_mono (ooo s) acc1 (pi_count x) G) as [z Hz]; [by eexists|].
    unfold G1 in Hn. congruence.
  - lia.
  - intros x [Hx|Hx]%elem_of_app; [|by apply Hran]. destruct Hacc as [[-> _]|[-> Hdr]]; [right; by apply rx_puts_mono, rx_puts_in|].
    destruct (Hdr x Hx) as [?|Hz]; [left; lia|]. right. apply rx_puts_mono, rx_puts_mono. rewrite HM, keys_from_lookup in Hz.
    by case_decide; [|destruct Hz].
  - rewrite rx_sdus_app, Hsd1, Hsd2. destruct (ooo s) eqn:Eo.
    + rewrite sdus_between_empty, app_nil_r; [by rewrite fmap_app|]. intros k x [Hx|(y & _ & _ & ->)]%rx_puts_some; [|done].
      rewrite HM, keys_from_lookup in Hx. case_decide; [|done]. by eapply HG.
    + cbn [app]. rewrite (sdus_between_app G2 (deliv s) (deliv s1) (deliv s2)) by lia. f_equal. apply sdus_between_ext.
      intros k Hk. rewrite Hlow by lia. apply HMG. lia.
  - intros Hall k Hk. inversion Hall as [|? ? Hi Hl]; subst. destruct (decide (k < deliv s1)); [|apply Hskip2; [done|lia]].
    rewrite Hlow by done. rewrite <- HMG by lia. apply Hskip; [done|lia].
Qed.

Lemma rx_run_delivers l : forall s M G,
  sy_inv may_protect s M -> rx_allowed_run make_engine may_protect s l ->
  Forall (fun i => rx_resets (pr_base (sy_entity s)) i = false) l ->
  M = keys_from (deliv s) G -> (ooo s = true -> forall k x, G !! k = Some x -> si_buf x = []) ->
  rc_header_compression (pr_cfg (sy_entity s)) = false -> pr_rohc (sy_entity s) = None ->
  exists s' ev ran acc, rx_run make_engine s l = Some (s', ev, ran) /\
    sy_inv may_protect s' (keys_from (deliv s') (rx_puts (ooo s) acc G)) /\ run_delivers s s' l ev ran acc G.
Proof.
  induction l as [|i l IH]; intros s M G Hs Hal Hres HM HG Hhc Hrn; cbn [rx_run].
  { exists s, [], [], []. split; [done|]. split; [cbn; by rewrite <- HM|apply run_delivers_nil]. }
  destruct Hal as [Hi Hal]. inversion Hres as [|? ? Hri Hrl]; subst x l0.
  destruct (rx_step_spec make_engine may_protect s M i Hs Hi) as (s1 & ev1 & M1 & E1 & Hs1 & Ecfg & Hmv). rewrite E1. cbn [mbind option_bind].
  destruct (Hmv Hri) as (acc1 & Hm). pose proof Hm as (_ & _ & Hd1 & EM1 & _ & Hrn1). destruct (Hrn1 Hhc Hrn) as [Hrn' _].
  destruct (IH s1 M1 (rx_puts (ooo s) acc1 G)) as (s2 & ev2 & ran & acc2 & -> & Hs2 & Hd2); rewrite ?Ecfg; try done.
  - by eapply Hal.
  - unfold pr_base. by rewrite Ecfg.
  - rewrite EM1. apply map_eq. intros k. rewrite !keys_from_lookup. case_decide; [|done]. apply rx_puts_ext.
    rewrite HM, keys_from_lookup. by rewrite decide_True by lia.
  - intros Ho k x [Hx|(y & _ & _ & ->)]%rx_puts_some; [by eapply HG|by rewrite Ho].
  - cbn [mbind option_bind]. rewrite Ecfg in Hs2. eexists s2, _, _, (acc1 ++ acc2). split; [reflexivity|]. rewrite rx_puts_app. split; [done|].
    by eapply run_delivers_cons.
Qed.

(** Inputs that are allowed in every state *)
Definition rx_allowed_always (cfg : pdcp_rx_config) (i : @rx_input R) : Prop :=
  match i with
  | RiPdu _ buf => pdu_ok may_protect (rc_base cfg) buf
  | RiCrypto worker_idx _ => 0 <= worker_idx < rc_max_nof_crypto_workers cfg
  | RiSuspend | RiReestablish _ _ => False
  | RiConfigure cfg' integ _ => sec_ok may_protect (rc_base cfg) cfg' integ
  | _ => True
  end.

Lemma rx_allowed_static l : forall s M,
  sy_inv may_protect s M -> Forall (rx_allowed_always (pr_cfg (sy_entity s))) l -> rx_allowed_run make_engine may_protect s l.
Proof.
  induction l as [|i l IH]; intros s M Hs Hl; [done|]. inversion Hl as [|? ? Hi Hl']; subst x l0.
  assert (Hal : rx_allowed may_protect s i) by by destruct i. split; [done|]. intros s' ev E1.
  destruct (rx_step_spec make_engine may_protect s M i Hs Hal) as (s1 & ev1 & M1 & E2 & Hs1 & Ecfg & _).
  rewrite E2 in E1. injection E1 as -> ->. apply (IH s' M1 Hs1). by rewrite Ecfg.
Qed.

Lemma rx_allowed_init cfg win rohc l :
  rx_cfg_ok cfg -> new_window (rc_base cfg) win -> Forall (rx_allowed_always cfg) l ->
  rx_allowed_run make_engine may_protect (rx_init cfg win rohc) l.
Proof.
  intros Hcfg Hw Hl. eapply rx_allowed_static; [by apply rx_init_inv|]. unfold rx_init, pdcp_rx_new, rx_init_header_decompression.
  cbn. by destruct (rc_header_compression cfg).
Qed.

(** ** Theorems *)

(** C16. The PDCP receiver is robust. Start it with a configuration whose hard COUNT limit keeps one window away from 2^32 and
    feed it any sequence of inputs: arbitrary octets from the air, any order of the tasks it hands to its executors and any
    loss of them, timer expiries, buffering, suspension, re-establishment and security configurations. As long as PDUs are not
    shorter than header and MAC where a MAC is taken off, and suspension and re-establishment wait for the tasks in flight, no
    assertion fails, no loop runs out of fuel, and the invariant holds: RX_DELIV <= RX_NEXT < 2^32, the window holds only SDUs
    between them and within one window size, never the one at RX_DELIV, and t-Reordering runs exactly while an SDU is missing. *)
Theorem pdcp_rx_robust cfg win rohc l :
  rx_cfg_ok cfg -> new_window (rc_base cfg) win -> rx_allowed_run make_engine may_protect (rx_init cfg win rohc) l ->
  exists s ev ran M, rx_run make_engine (rx_init cfg win rohc) l = Some (s, ev, ran) /\ sy_inv may_protect s M.
Proof. intros Hcfg Hw Hal. by eapply rx_run_spec; [apply rx_init_inv|]. Qed.

(** C8. The PDCP receiver delivers in order, at most once, and everything up to the first missing COUNT. Consider a run without
    header compression and without a reset of the counters, whose hard COUNT limit stays one window below 2^32, in which PDUs
    are not shorter than header and MAC where a MAC is taken off and suspension and re-establishment wait for the tasks in
    flight; the schedule of the tasks is arbitrary. Of the PDUs that reach reordering, the accepted ones
    [acc] are a subsequence without two equal COUNTs; each of the others came when its COUNT was accepted before or below
    RX_DELIV. In-order delivery hands up exactly the SDUs of the accepted PDUs below the final RX_DELIV, in the order of their
    COUNTs; the window holds exactly the rest. Out-of-order delivery hands up every accepted PDU when it comes. RX_DELIV always
    stands at a COUNT that was not accepted; unless t-Reordering expires (or is 0 ms), every COUNT below it was accepted, so it
    is the first that was not. And with a finite t-Reordering the timer runs exactly while RX_DELIV is below RX_NEXT, as long
    as the entity is not stopped. *)
Theorem pdcp_rx_delivery cfg win rohc l :
  rx_cfg_ok cfg -> new_window (rc_base cfg) win -> rc_header_compression cfg = false ->
  rx_allowed_run make_engine may_protect (rx_init cfg win rohc) l -> Forall (fun i => rx_resets (rc_base cfg) i = false) l ->
  exists s ev ran acc, rx_run make_engine (rx_init cfg win rohc) l = Some (s, ev, ran) /\
    let G := rx_puts (rc_out_of_order_delivery cfg) acc ∅ in
    acc `sublist_of` ran /\ NoDup (pi_count <$> acc) /\
    (forall x, x ∈ ran -> pi_count x < deliv s \/ is_Some (G !! pi_count x)) /\
    win_holds (pr_window (sy_entity s)) (keys_from (deliv s) G) /\
    rx_sdus ev = (if rc_out_of_order_delivery cfg then (fun i => (pi_buf i, pi_integrity_verified i)) <$> acc
                  else sdus_between G 0 (deliv s)) /\
    G !! deliv s = None /\
    (Forall (fun i => rx_expires cfg i = false) l -> forall k, 0 <= k < deliv s -> is_Some (G !! k)) /\
    (rk_stopped (pr_ctl (sy_entity s)) = false -> 0 < rc_t_reordering (pr_cfg (sy_entity s)) ->
       pr_timer (sy_entity s) = bool_decide (deliv s < rx_next (pr_st (sy_entity s)))).
Proof.
  intros Hcfg Hw Hhc Hal Hres. pose proof (rx_init_inv cfg win rohc Hcfg Hw) as Hs.
  assert (Ei : pr_cfg (sy_entity (rx_init cfg win rohc)) = cfg /\ pr_rohc (sy_entity (rx_init cfg win rohc)) = None /\ deliv (rx_init cfg win rohc) = 0).
  { unfold rx_init, pdcp_rx_new, rx_init_header_decompression. cbn. by rewrite Hhc. }
  destruct Ei as (Ecfg & Ern & Ed).
  destruct (rx_run_delivers l (rx_init cfg win rohc) ∅ ∅) as (s & ev & ran & acc & Erun & Hi & Hd); unfold pr_base; rewrite ?Ecfg, ?Ed; try done.
  unfold run_delivers in Hd. rewrite Ecfg, Ed in *. destruct Hd as (? & ? & _ & _ & ? & ? & ?).
  exists s, ev, ran, acc. split; [done|]. destruct Hi as (_ & ((_ & _ & _ & _ & Hwin & _) & Hgap & _) & Hlive & _).
  rewrite keys_from_lookup, decide_True in Hgap by lia. split_and!; done.
Qed.
End correct.

(** ** An instance *)
#[export] Instance rx_circular_window : SduWindow pdcp_rx_sdu_info (circular_map pdcp_rx_sdu_info) := circular_window pdcp_rx_sdu_info_init.
#[export] Instance rx_circular_laws : SduWindowLaws pdcp_rx_sdu_info (circular_map pdcp_rx_sdu_info) pdcp_rx_sdu_info_init :=
  circular_window_laws pdcp_rx_sdu_info_init.
#[export] Instance rx_circular_clear_laws : SduWindowClearLaws pdcp_rx_sdu_info (circular_map pdcp_rx_sdu_info) :=
  circular_window_clear_laws pdcp_rx_sdu_info_init.
#[export] Instance no_compression : RohcDecompressor unit := { decompress _ packet := (packet, [], tt) }.

#[export] Instance sample_maker_laws : EngineMakerLaws sample_maker := impl_maker_laws _ _.

Definition sample_window : circular_map pdcp_rx_sdu_info := CMap (replicate (Z.to_nat (2 ^ 11)) None) 0.
Definition sample_rx_cfg : pdcp_rx_config :=
  RxConfig (Base rb_drb mode_um 2 2048 pdcp_size12bits) 0 dir_uplink false false 50 pdcp_rx_default_max_count 2.

Lemma sample_rx_ok : rx_cfg_ok sample_rx_cfg /\ new_window (rc_base sample_rx_cfg) sample_window.
Proof.
  split; [split_and!; [reflexivity|vm_compute; congruence..]|]. destruct (circular_fresh pdcp_rx_sdu_info_init 11) as [Hi Hn]; [done|].
  by split_and!.
Qed.

(** Two PDUs that overtake each other, deciphered by two workers; their SDUs are delivered in order. *)
Definition sample_run : list (@rx_input unit) :=
  [RiPdu true [0x80; 1; 11]; RiPdu true [0x80; 0; 10]; RiCrypto 1 1; RiCrypto 0 0; RiTask 1; RiTask 0].

Lemma sample_run_allowed : Forall (rx_allowed_always false sample_rx_cfg) sample_run.
Proof.
  unfold sample_run. do 2 (apply Forall_cons_2; [right; vm_compute; congruence|]).
  do 2 (apply Forall_cons_2; [cbn; lia|]). do 2 (apply Forall_cons_2; [done|]). by apply Forall_nil_2.
Qed.

Lemma pdcp_rx_robust_witness :
  exists s ev ran M, rx_run sample_maker (rx_init sample_rx_cfg sample_window None) sample_run = Some (s, ev, ran) /\ sy_inv false s M.
Proof.
  apply (@pdcp_rx_robust _ _ _ _ _ _ _ _ _ sample_maker false sample_maker_laws sample_rx_cfg sample_window None sample_run); [apply sample_rx_ok..|].
  apply (@rx_allowed_init _ _ _ _ _ _ _ _ _ sample_maker false sample_maker_laws); [apply sample_rx_ok..|]. apply sample_run_allowed.
Defined.

Lemma pdcp_rx_delivery_witness :
  exists s ev ran acc, rx_run sample_maker (rx_init sample_rx_cfg sample_window None) sample_run = Some (s, ev, ran) /\
    let G := rx_puts false acc ∅ in
    acc `sublist_of` ran /\ NoDup (pi_count <$> acc) /\
    (forall x, x ∈ ran -> pi_count x < rx_deliv (pr_st (sy_entity s)) \/ is_Some (G !! pi_count x)) /\
    win_holds (pr_window (sy_entity s)) (keys_from (rx_deliv (pr_st (sy_entity s))) G) /\
    rx_sdus ev = sdus_between G 0 (rx_deliv (pr_st (sy_entity s))) /\
    G !! rx_deliv (pr_st (sy_entity s)) = None /\
    (Forall (fun i => rx_expires sample_rx_cfg i = false) sample_run -> forall k, 0 <= k < rx_deliv (pr_st (sy_entity s)) -> is_Some (G !! k)) /\
    (rk_stopped (pr_ctl (sy_entity s)) = false -> 0 < rc_t_reordering (pr_cfg (sy_entity s)) ->
       pr_timer (sy_entity s) = bool_decide (rx_deliv (pr_st (sy_entity s)) < rx_next (pr_st (sy_entity s)))).
Proof.
  apply (@pdcp_rx_delivery _ _ _ _ _ _ _ _ _ sample_maker false sample_maker_laws sample_rx_cfg sample_window None sample_run); [apply sample_rx_ok..|done| |by repeat constructor].
  apply (@rx_allowed_init _ _ _ _ _ _ _ _ _ sample_maker false sample_maker_laws); [apply sample_rx_ok..|]. apply sample_run_allowed.
Defined.

Example sample_run_delivers :
  (fun r => rx_sdus r.1.2) <$> rx_run sample_maker (rx_init sample_rx_cfg sample_window None) sample_run = Some [([10], false); ([11], false)].
Proof. vm_compute. reflexivity. Qed.

(** ** The default limit

    [pdcp_rx_config] takes its limits from [pdcp_custom_config_base], whose defaults are those of the transmitter. *)
Definition default_rx_cfg : pdcp_rx_config :=
  RxConfig (Base rb_drb mode_um 2 2048 pdcp_size12bits) 0 dir_uplink false false 50 pdcp_tx_default_max_count 2.

Definition stalling_run : list (@rx_input unit) := [RiPdu true [0x88; 0; 1]; RiCrypto 0 0; RiTask 0].

(** Advancing over gaps, for a window that may hold any COUNTs from RX_DELIV on. *)
Lemma rx_advance_all {E R W} `{RohcDecompressor R, SduWindowLaws pdcp_rx_sdu_info W pdcp_rx_sdu_info_init,
    !SduWindowClear pdcp_rx_sdu_info W, !SduWindowClearLaws pdcp_rx_sdu_info W} (e : pdcp_entity_rx E R W) M n d r :
  win_holds (pr_window e) M -> (forall k, is_Some (M !! k) -> d <= k) -> pr_st e = RxState n d r -> 0 <= d <= n -> n < 2 ^ 32 ->
  exists e' ev, rx_advance_rx_window n false e = Some (e', ev) /\ pr_cfg e' = pr_cfg e /\ pr_timer e' = pr_timer e /\ pr_st e' = RxState n n r /\
    rx_advance_rx_window n true e' = Some (e', []).
Proof.
  intros Hw Hk Est Hd Hn. unfold rx_advance_rx_window. rewrite Est. cbn [rx_next rx_deliv]. rewrite Z.ltb_irrefl.
  destruct (rx_advance_loop_spec (Z.to_nat (n - d)) n false e M Hw) as (e' & ev & d' & -> & Hf & Ht & _ & Hst & _ & _ & _ & Hno & _);
    rewrite ?Est; cbn [rx_deliv]; try done; try lia.
  rewrite Est in *. cbn [rx_deliv rx_next rx_reord] in *. rewrite Hno, Z.max_r in Hst by lia. eexists _, _. split; [reflexivity|].
  rewrite Hst. cbn [rx_next rx_deliv]. rewrite Z.ltb_irrefl, Z.sub_diag. split_and!; try done; [by apply Hf|].
  change (Z.to_nat 0) with O. unfold rx_advance_loop. rewrite Hst. cbn [rx_deliv]. by rewrite Z.ltb_irrefl.
Qed.

(** With the default hard limit one PDU stalls a bearer. In the initial state an SN of the upper half is taken for a COUNT of
    the previous HFN, which wraps to 2^32 - 1: the limit of the receiver, 0xd0000000, would refuse it, but the limit in use is
    0xfffffffe. Without integrity protection the PDU [0x88 0x00 0x01] therefore moves RX_NEXT to 0xfffff801 and starts
    t-Reordering; when the timer expires RX_DELIV follows, after a loop over all COUNTs, and from then on every PDU with an SN
    below 2049 has a COUNT below RX_DELIV and is dropped. *)
Theorem default_limit_stalls :
  exists s ev ran, rx_run sample_maker (rx_init default_rx_cfg sample_window None) stalling_run = Some (s, ev, ran) /\
    rx_next (pr_st (sy_entity s)) = 0xfffff801 /\ pr_timer (sy_entity s) = true /\
    exists s' ev', rx_step sample_maker s RiExpiry = Some (s', ev') /\ rx_deliv (pr_st (sy_entity s')) = 0xfffff801 /\
      forall sn, 0 <= sn < 2049 -> rx_rcvd_count sn (sy_entity s') < rx_deliv (pr_st (sy_entity s')).
Proof.
  set (x := RxSduInfo [1] 0xfffff800 false).
  destruct sample_rx_ok as [_ (Hi & Hc & Hl)]. pose proof (holds_empty sample_window Hi Hl) as Hw.
  destruct (holds_add_put sample_window ∅ 0xfffff800 x Hw) as (w1 & w & E1 & E2 & Hw' & _); [lia|apply residue_free_empty|].
  assert (Hrun : (fun r => let e := sy_entity r.1.1 in (pr_cfg e, pr_st e, pr_timer e, rk_stopped (pr_ctl e), pr_window e))
      <$> rx_run sample_maker (rx_init default_rx_cfg sample_window None) stalling_run =
    (a ← add_sn sample_window 0xfffff800; w ← win_put a.2 0xfffff800 x; Some (default_rx_cfg, RxState 0xfffff801 0 0xfffff801, true, false, w)))
    by (vm_compute; reflexivity).
  rewrite E1 in Hrun. cbn [mbind option_bind snd] in Hrun. rewrite E2 in Hrun. cbn [mbind option_bind] in Hrun.
  destruct (rx_run sample_maker (rx_init default_rx_cfg sample_window None) stalling_run) as [[[s ev] ran]|]; [|done].
  injection Hrun as Ecfg Est Etm Estop Ewin. exists s, ev, ran. rewrite Est, Etm. split_and!; [done..|].
  set (e := pr_set_timer false (sy_entity s)).
  destruct (rx_advance_all e (<[0xfffff800 := x]> ∅) 0xfffff801 0 0xfffff801) as (e1 & ev1 & E3 & Ecfg1 & Etm1 & Est1 & E4); [| |exact Est|lia|lia|].
  { unfold e. cbn [pr_set_timer pr_window]. by rewrite Ewin. }
  { intros k [y [[<- _]|[_ ?%lookup_empty_Some]]%lookup_insert_Some]; done. }
  assert (E5 : rx_step sample_maker s RiExpiry = Some (sy_after s (e1, RxAddReorderingTimeouts 1 :: ev1 ++ []))).
  { unfold rx_step, rx_reordering_callback. fold e. rewrite Etm. change (pr_ctl e) with (pr_ctl (sy_entity s)). rewrite Estop.
    unfold rx_handle_t_reordering_expire. change (pr_st e) with (pr_st (sy_entity s)). rewrite Est. cbn [rx_reord]. rewrite E3. cbn [mbind option_bind].
    rewrite Est1. cbn [rx_next]. rewrite E4. cbn [mbind option_bind]. rewrite Est1. cbn [rx_next rx_deliv]. by rewrite Z.ltb_irrefl. }
  eexists _, _. split; [exact E5|]. cbn [sy_after fst sy_entity]. rewrite Est1. cbn [rx_deliv]. split; [done|]. intros sn Hsn.
  unfold rx_rcvd_count, pr_base. rewrite Ecfg1, Est1. cbn [rx_deliv]. change (pr_cfg e) with (pr_cfg (sy_entity s)). rewrite Ecfg.
  destruct (count_from_sn_spec (rc_base default_rx_cfg) 4294965249 sn) as (c & Hin & Hmod & ->); [done|lia|change (half (rc_base default_rx_cfg)) with 2048; lia|].
  unfold in_window in Hin. change (half (rc_base default_rx_cfg)) with 2048 in *. rewrite u32_eq. lia.
Qed.
