(* ===== verification/PdcpTx.v ===== *)
(** * The transmitting side of a PDCP entity ([lib/pdcp/pdcp_entity_tx.h] and [.cpp])

    An SDU passes three stages: [tx_handle_sdu] gives it the next COUNT, puts it into the transmit window, writes the header
    and hands it to the crypto executor; [tx_apply_security] ciphers and protects it there and hands it to the UE executor;
    [tx_apply_reordering] restores the order of the COUNTs and passes PDUs to RLC. The notifications of RLC, status reports of
    the peer and the discard timer take SDUs out of the window. A task is an event that carries its data; a task that an
    executor drops is one that is never run. [None] is a failed assertion or a loop out of fuel.

    The window, the security engines and the compressor are interfaces; tokens, times of arrival, latency metrics, and counters
    for logging only are not modelled. *)
From S2P Require Import Prelude SduWindow CircularMap RingBuffer BitCodec PdcpSn SecurityEngine PdcpBase PdcpTxWindow.

(** [pdcp_tx_config]. [tc_header_compression]: it is configured, and with [rohc_type_t::rohc]. *)
Record pdcp_tx_config := TxConfig {
  tc_base : pdcp_base;
  tc_bearer_id : Z;
  tc_direction : security_direction;
  tc_header_compression : bool;
  tc_discard_timer : option Z;
  tc_status_report_required : bool;
  tc_max_count : pdcp_max_count;
  tc_test_mode : bool;
  tc_max_nof_crypto_workers : Z
}.

(** The enumerators of [pdcp_discard_timer] are durations in milliseconds, but for this one *)
Definition discard_timer_infinity : Z := -1.

Record pdcp_tx_state := TxState { tx_next : Z; tx_trans_crypto : Z; tx_reord_crypto : Z; tx_trans : Z; tx_next_ack : Z }.
Definition pdcp_tx_state_init : pdcp_tx_state := TxState 0 0 0 0 0.

Record pdcp_tx_buffer_info := TxBufferInfo { bi_is_retx : bool; bi_retx_id : Z; bi_count : Z; bi_buf : list Z }.

(** The tasks for the UE executor *)
Inductive pdcp_tx_task :=
| TxReorder (i : pdcp_tx_buffer_info)
| TxSecurityFailure (status : security_status) (count : Z).

(** What leaves the entity, in order: calls of the layers below and above, tasks, and metrics *)
Inductive pdcp_tx_event :=
| TxNewPdu (pdu : list Z) (is_retx : bool)
| TxDiscardPdu (sn : Z)
| TxProtocolFailure
| TxMaxCountReached
| TxResumeRequired
| TxExecCrypto (i : pdcp_tx_buffer_info)
| TxExecDl (t : pdcp_tx_task)
| TxAddPdus (n len : Z)
| TxAddSdus (n len : Z)
| TxAddLostSdus (n : Z)
| TxAddDiscardTimeouts (n : Z).

(** [rohc_compressor]: the packet (empty when compression fails) and the compressor afterwards *)
Class RohcCompressor (R : Type) := {
  compress : R -> list Z -> list Z * R;
  handle_feedback : R -> list Z -> bool * R
}.

(** What the environment grants to an SDU: the memory for a copy and for its header, and a place in the queue of the crypto
    executor *)
Record tx_grant := Grant { g_copy : bool; g_room : bool; g_exec : bool }.

Inductive early_drop_reason := zero_dbs | full_rlc_queue | full_window | no_drop.
#[export] Instance early_drop_reason_eq_dec : EqDecision early_drop_reason. Proof. solve_decision. Defined.

Section entity.
Context {E R W : Type} `{SecurityEngineTx E, RohcCompressor R, SduWindow pdcp_tx_window_element W,
  !SduWindowClear pdcp_tx_window_element W}.

(** The security engines, one per crypto worker ([None] before security is configured) *)
Record pdcp_tx_security := TxSec {
  ts_pool : list (option E);
  ts_integrity : integrity_enabled;
  ts_ciphering : ciphering_enabled
}.

Record pdcp_tx_control := TxCtl {
  tk_stopped : bool;
  tk_buffering : bool;
  tk_suspended : bool;
  tk_resume_requested : bool;
  tk_sdu_buffer : ring_buffer (list Z);
  tk_max_count_notified : bool;
  tk_max_count_overflow : bool
}.

(** The timers: the tick at which the discard timer expires, if it runs, and whether the crypto reordering timer runs *)
Record pdcp_entity_tx := PdcpTx {
  pt_cfg : pdcp_tx_config;
  pt_sec : pdcp_tx_security;
  pt_rohc : option R;
  pt_st : pdcp_tx_state;
  pt_window : pdcp_tx_window W;
  pt_discard_timer : option Z;
  pt_crypto_timer : bool;
  pt_retransmit_id : Z;
  pt_desired_buffer_size : Z;
  pt_ctl : pdcp_tx_control
}.
Implicit Types (e : pdcp_entity_tx) (i : pdcp_tx_buffer_info).

Definition pt_base e : pdcp_base := tc_base (pt_cfg e).

Definition pt_set_sec (s : pdcp_tx_security) e :=
  PdcpTx (pt_cfg e) s (pt_rohc e) (pt_st e) (pt_window e) (pt_discard_timer e) (pt_crypto_timer e) (pt_retransmit_id e) (pt_desired_buffer_size e) (pt_ctl e).
Definition pt_set_rohc (r : option R) e :=
  PdcpTx (pt_cfg e) (pt_sec e) r (pt_st e) (pt_window e) (pt_discard_timer e) (pt_crypto_timer e) (pt_retransmit_id e) (pt_desired_buffer_size e) (pt_ctl e).
Definition pt_set_st (s : pdcp_tx_state) e :=
  PdcpTx (pt_cfg e) (pt_sec e) (pt_rohc e) s (pt_window e) (pt_discard_timer e) (pt_crypto_timer e) (pt_retransmit_id e) (pt_desired_buffer_size e) (pt_ctl e).
Definition pt_set_window (w : pdcp_tx_window W) e :=
  PdcpTx (pt_cfg e) (pt_sec e) (pt_rohc e) (pt_st e) w (pt_discard_timer e) (pt_crypto_timer e) (pt_retransmit_id e) (pt_desired_buffer_size e) (pt_ctl e).
Definition pt_set_discard_timer (t : option Z) e :=
  PdcpTx (pt_cfg e) (pt_sec e) (pt_rohc e) (pt_st e) (pt_window e) t (pt_crypto_timer e) (pt_retransmit_id e) (pt_desired_buffer_size e) (pt_ctl e).
Definition pt_set_crypto_timer (t : bool) e :=
  PdcpTx (pt_cfg e) (pt_sec e) (pt_rohc e) (pt_st e) (pt_window e) (pt_discard_timer e) t (pt_retransmit_id e) (pt_desired_buffer_size e) (pt_ctl e).
Definition pt_set_retransmit_id (n : Z) e :=
  PdcpTx (pt_cfg e) (pt_sec e) (pt_rohc e) (pt_st e) (pt_window e) (pt_discard_timer e) (pt_crypto_timer e) n (pt_desired_buffer_size e) (pt_ctl e).
Definition pt_set_desired_buffer_size (n : Z) e :=
  PdcpTx (pt_cfg e) (pt_sec e) (pt_rohc e) (pt_st e) (pt_window e) (pt_discard_timer e) (pt_crypto_timer e) (pt_retransmit_id e) n (pt_ctl e).
Definition pt_set_ctl (c : pdcp_tx_control) e :=
  PdcpTx (pt_cfg e) (pt_sec e) (pt_rohc e) (pt_st e) (pt_window e) (pt_discard_timer e) (pt_crypto_timer e) (pt_retransmit_id e) (pt_desired_buffer_size e) c.

Definition pt_set_next (n : Z) e :=
  let s := pt_st e in pt_set_st (TxState n (tx_trans_crypto s) (tx_reord_crypto s) (tx_trans s) (tx_next_ack s)) e.
Definition pt_set_trans_crypto (n : Z) e :=
  let s := pt_st e in pt_set_st (TxState (tx_next s) n (tx_reord_crypto s) (tx_trans s) (tx_next_ack s)) e.
Definition pt_set_reord_crypto (n : Z) e :=
  let s := pt_st e in pt_set_st (TxState (tx_next s) (tx_trans_crypto s) n (tx_trans s) (tx_next_ack s)) e.
Definition pt_set_trans (n : Z) e :=
  let s := pt_st e in pt_set_st (TxState (tx_next s) (tx_trans_crypto s) (tx_reord_crypto s) n (tx_next_ack s)) e.
Definition pt_set_next_ack (n : Z) e :=
  let s := pt_st e in pt_set_st (TxState (tx_next s) (tx_trans_crypto s) (tx_reord_crypto s) (tx_trans s) n) e.

Definition pt_set_stopped (b : bool) e :=
  let c := pt_ctl e in
  pt_set_ctl (TxCtl b (tk_buffering c) (tk_suspended c) (tk_resume_requested c) (tk_sdu_buffer c) (tk_max_count_notified c) (tk_max_count_overflow c)) e.
Definition pt_set_buffering (b : bool) e :=
  let c := pt_ctl e in
  pt_set_ctl (TxCtl (tk_stopped c) b (tk_suspended c) (tk_resume_requested c) (tk_sdu_buffer c) (tk_max_count_notified c) (tk_max_count_overflow c)) e.
Definition pt_set_suspended (s r : bool) e :=
  let c := pt_ctl e in
  pt_set_ctl (TxCtl (tk_stopped c) (tk_buffering c) s r (tk_sdu_buffer c) (tk_max_count_notified c) (tk_max_count_overflow c)) e.
Definition pt_set_sdu_buffer (q : ring_buffer (list Z)) e :=
  let c := pt_ctl e in
  pt_set_ctl (TxCtl (tk_stopped c) (tk_buffering c) (tk_suspended c) (tk_resume_requested c) q (tk_max_count_notified c) (tk_max_count_overflow c)) e.
Definition pt_set_max_count (notified overflow : bool) e :=
  let c := pt_ctl e in
  pt_set_ctl (TxCtl (tk_stopped c) (tk_buffering c) (tk_suspended c) (tk_resume_requested c) (tk_sdu_buffer c) notified overflow) e.

(** *** Construction *)

(** [init_header_compression]; [rohc] is what the factory returns. *)
Definition tx_init_header_compression (rohc : option R) e : pdcp_entity_tx :=
  if tc_header_compression (pt_cfg e) then pt_set_rohc rohc e else e.

(** The constructor: null engines, an empty window, and a buffer of 2048 SDUs. An SRB with 18 bits, over UM or with header
    compression is a fatal error. *)
Definition pdcp_tx_new (cfg : pdcp_tx_config) (win : W) (rohc : option R) : option pdcp_entity_tx :=
  let b := tc_base cfg in
  if is_srb b && (negb (bool_decide (pb_sn_size b = pdcp_size12bits)) || is_um b || tc_header_compression cfg) then None else
  Some (tx_init_header_compression rohc
    (PdcpTx cfg (TxSec (replicate (Z.to_nat (tc_max_nof_crypto_workers cfg)) None) integrity_off ciphering_off) None
       pdcp_tx_state_init (pdcp_tx_window_new win (pb_rb_type b) (pb_sn_size b)) None false 0 0
       (TxCtl false false false false (rb_new true 2048) false false))).

(** *** To the layers below *)
Definition write_data_pdu_to_lower_layers (pdu : list Z) (is_retx : bool) : list pdcp_tx_event :=
  [TxAddPdus 1 (Z.of_nat (length pdu)); TxNewPdu pdu is_retx].
Definition write_control_pdu_to_lower_layers (buf : list Z) : list pdcp_tx_event :=
  [TxAddPdus 1 (Z.of_nat (length buf)); TxNewPdu buf false].

(** [get_pdu_size] *)
Definition tx_get_pdu_size (sdu : list Z) e : Z :=
  u32 (pdcp_data_header_size (pb_sn_size (pt_base e)) + Z.of_nat (length sdu) +
       (if decide (ts_integrity (pt_sec e) = integrity_off) then 0 else 4)).

(** *** Discarding *)

(** [compute_next_discard_timeout]; the ticks are 32-bit numbers. *)
Definition tx_compute_next_discard_timeout (now oldest : Z) e : option Z :=
  duration ← tc_discard_timer (pt_cfg e);
  if duration =? discard_timer_infinity then None else
  Some (u32 (Z.max (u32 (oldest + duration)) now - now)).

(** [discard_timer.set] and [run] *)
Definition tx_run_discard_timer (now timeout : Z) e := pt_set_discard_timer (Some (u32 (now + timeout))) e.

(** The loop of [stop_discard_timer] *)
Fixpoint tx_stop_loop (fuel : nat) (highest_count : Z) e : option pdcp_entity_tx :=
  let ack := tx_next_ack (pt_st e) in
  if ack <=? highest_count then
    match fuel with
    | O => None
    | S fuel =>
        e ← (if xw_has_sn (pt_window e) ack then w ← xw_remove_sdu (pt_window e) ack; Some (pt_set_window w e) else Some e);
        tx_stop_loop fuel highest_count (pt_set_next_ack (u32 (ack + 1)) e)
    end
  else Some e.

(** [stop_discard_timer] *)
Definition tx_stop_discard_timer (now highest_count : Z) e : option pdcp_entity_tx :=
  match tc_discard_timer (pt_cfg e) with
  | None => Some e
  | Some duration =>
      if (highest_count <? tx_next_ack (pt_st e)) || (tx_next (pt_st e) <=? highest_count) then Some e else
      if negb (xw_has_sn (pt_window e) (tx_next_ack (pt_st e))) then Some e else
      let e := pt_set_discard_timer None e in
      e ← tx_stop_loop (Z.to_nat (highest_count + 1 - tx_next_ack (pt_st e))) highest_count e;
      let e := pt_set_trans (Z.max (tx_trans (pt_st e)) (tx_next_ack (pt_st e))) e in
      if duration =? discard_timer_infinity then Some e else
      if negb (tx_next_ack (pt_st e) =? tx_next (pt_st e)) then
        x ← xw_get (pt_window e) (tx_next_ack (pt_st e));
        tick ← wi_tick_point_of_arrival (we_sdu_info x);
        timeout ← tx_compute_next_discard_timeout now tick e;
        Some (tx_run_discard_timer now timeout e)
      else Some e
  end.

(** The loop of [discard_pdu] *)
Fixpoint tx_ack_loop (fuel : nat) e : option pdcp_entity_tx :=
  let ack := tx_next_ack (pt_st e) in
  if (ack <? tx_next (pt_st e)) && negb (xw_has_sn (pt_window e) ack) then
    match fuel with
    | O => None
    | S fuel => tx_ack_loop fuel (pt_set_next_ack (u32 (ack + 1)) e)
    end
  else Some e.

(** [discard_pdu] *)
Definition tx_discard_pdu (count : Z) e : option (pdcp_entity_tx * list pdcp_tx_event) :=
  match tc_discard_timer (pt_cfg e) with
  | None => Some (e, [])
  | Some _ =>
      if (count <? tx_next_ack (pt_st e)) || (tx_next (pt_st e) <=? count) then Some (e, []) else
      if negb (xw_has_sn (pt_window e) count) then Some (e, []) else
      w ← xw_remove_sdu (pt_window e) count;
      let e := pt_set_window w e in
      e ← tx_ack_loop (Z.to_nat (tx_next (pt_st e) - tx_next_ack (pt_st e))) e;
      Some (pt_set_trans (Z.max (tx_trans (pt_st e)) (tx_next_ack (pt_st e))) e, [TxDiscardPdu (SN (pt_base e) count)])
  end.

(** The loop of [discard_callback] *)
Fixpoint tx_discard_loop (fuel : nat) (now oldest : Z) e : option (pdcp_entity_tx * list pdcp_tx_event) :=
  match fuel with
  | O => None
  | S fuel =>
      '(e, ev) ← tx_discard_pdu (tx_next_ack (pt_st e)) e;
      if negb (xw_has_sn (pt_window e) (tx_next_ack (pt_st e))) then Some (e, ev) else
      x ← xw_get (pt_window e) (tx_next_ack (pt_st e));
      tick ← wi_tick_point_of_arrival (we_sdu_info x);
      if negb (tick =? oldest) then
        timeout ← tx_compute_next_discard_timeout now oldest e;
        Some (tx_run_discard_timer now timeout e, ev)
      else if negb (tx_next_ack (pt_st e) =? tx_next (pt_st e)) then
        '(e, ev') ← tx_discard_loop fuel now oldest e; Some (e, ev ++ ev')
      else Some (e, ev)
  end.

(** [discard_callback]: the timer has expired and does not run any more *)
Definition tx_discard_callback (now : Z) e : option (pdcp_entity_tx * list pdcp_tx_event) :=
  let e := pt_set_discard_timer None e in
  if tk_stopped (pt_ctl e) then Some (e, []) else
  if negb (xw_has_sn (pt_window e) (tx_next_ack (pt_st e))) then Some (e, [TxAddDiscardTimeouts 1]) else
  x ← xw_get (pt_window e) (tx_next_ack (pt_st e));
  oldest ← wi_tick_point_of_arrival (we_sdu_info x);
  '(e, ev) ← tx_discard_loop (Z.to_nat (tx_next (pt_st e) - tx_next_ack (pt_st e))) now oldest e;
  Some (e, TxAddDiscardTimeouts 1 :: ev).

(** *** Notifications of the layers below *)

(** [notification_count_estimation] *)
Definition tx_notification_count_estimation (notification_sn : Z) e : Z :=
  let tx_lower := match tc_discard_timer (pt_cfg e) with Some _ => tx_next_ack (pt_st e) | None => tx_trans (pt_st e) end in
  count_from_sn (pt_base e) tx_lower notification_sn.

(** [handle_transmit_notification_impl] *)
Definition tx_handle_transmit_notification_impl (now notif_sn : Z) e : option pdcp_entity_tx :=
  if pdcp_sn_cardinality (pb_sn_size (pt_base e)) <=? notif_sn then Some e else
  let notif_count := tx_notification_count_estimation notif_sn e in
  if tx_trans_crypto (pt_st e) <=? notif_count then Some e else
  if notif_count <? tx_trans (pt_st e) then Some e else
  if tx_next (pt_st e) <=? notif_count then Some e else
  let e := pt_set_trans (u32 (notif_count + 1)) e in
  match tc_discard_timer (pt_cfg e) with
  | None => Some e
  | Some _ => if is_um (pt_base e) then tx_stop_discard_timer now notif_count e else Some e
  end.

Definition tx_handle_transmit_notification (now notif_sn : Z) e : option pdcp_entity_tx :=
  if tk_stopped (pt_ctl e) then Some e else tx_handle_transmit_notification_impl now notif_sn e.

(** [handle_delivery_notification_impl] *)
Definition tx_handle_delivery_notification_impl (now notif_sn : Z) e : option pdcp_entity_tx :=
  if pdcp_sn_cardinality (pb_sn_size (pt_base e)) <=? notif_sn then Some e else
  let notif_count := tx_notification_count_estimation notif_sn e in
  if tx_next (pt_st e) <=? notif_count then Some e else
  match tc_discard_timer (pt_cfg e) with
  | None => Some e
  | Some _ => if is_am (pt_base e) then tx_stop_discard_timer now notif_count e else Some e
  end.

Definition tx_handle_delivery_notification (now notif_sn : Z) e : option pdcp_entity_tx :=
  if tk_stopped (pt_ctl e) then Some e else tx_handle_delivery_notification_impl now notif_sn e.

(** [handle_retransmit_notification] and [handle_delivery_retransmitted_notification]; [is_retx] is for logging only. *)
Definition tx_handle_retransmit_notification (now notif_sn : Z) e : option pdcp_entity_tx :=
  if tk_stopped (pt_ctl e) then Some e else if is_srb (pt_base e) then Some e else if is_um (pt_base e) then Some e else
  tx_handle_transmit_notification_impl now notif_sn e.

Definition tx_handle_delivery_retransmitted_notification (now notif_sn : Z) e : option pdcp_entity_tx :=
  if tk_stopped (pt_ctl e) then Some e else if is_srb (pt_base e) then Some e else if is_um (pt_base e) then Some e else
  tx_handle_delivery_notification_impl now notif_sn e.

Definition tx_handle_desired_buffer_size_notification (desired_bs : Z) e : pdcp_entity_tx :=
  if tk_stopped (pt_ctl e) then e else pt_set_desired_buffer_size desired_bs e.

(** *** Handling SDUs *)

(** [check_early_drop] *)
Definition tx_check_early_drop (buf : list Z) e : early_drop_reason :=
  if pt_desired_buffer_size e =? 0 then zero_dbs else
  let pdu_size := tx_get_pdu_size buf e in
  let updated_buffer_size :=
    u32 (xw_get_pdu_bytes (pt_window e) (negb (bool_decide (ts_integrity (pt_sec e) = integrity_off))) + pdu_size) in
  if pt_desired_buffer_size e <? updated_buffer_size then full_rlc_queue else
  if pb_window_size (pt_base e) - 1 <=? u32 (tx_next (pt_st e) - tx_next_ack (pt_st e)) then full_window else no_drop.

(** [apply_header_compression] *)
Definition tx_apply_header_compression (buf : list Z) e : bool * list Z * pdcp_entity_tx * list pdcp_tx_event :=
  match pt_rohc e with
  | None => (true, buf, e, [])
  | Some r =>
      let '(buf, r) := compress r buf in
      let e := pt_set_rohc (Some r) e in
      match buf with
      | [] => (false, [], e, [TxAddLostSdus 1; TxProtocolFailure])
      | _ => (true, buf, e, [])
      end
  end.

(** Header compression and the header, as in [handle_sdu] and [retransmit_all_pdus]: [None] is the early return. *)
Definition tx_make_pdu (v : tx_grant) (count : Z) (buf : list Z) e : option (option (list Z) * pdcp_entity_tx * list pdcp_tx_event) :=
  let '(ok, buf, e, ev) := tx_apply_header_compression buf e in
  if negb ok then Some (None, e, ev) else
  '(ok, buf) ← prepend_data_pdu_header (pt_base e) (g_room v) (SN (pt_base e) count) buf;
  if negb (ok : bool) then Some (None, e, ev ++ [TxAddLostSdus 1; TxProtocolFailure]) else Some (Some buf, e, ev).

(** [crypto_executor.execute] *)
Definition tx_exec_crypto (v : tx_grant) (i : pdcp_tx_buffer_info) : list pdcp_tx_event :=
  if g_exec v then [TxExecCrypto i] else [TxAddLostSdus 1].

(** The COUNT limits of [handle_sdu]: whether the SDU is transmitted *)
Definition tx_check_max_count e : bool * pdcp_entity_tx * list pdcp_tx_event :=
  let max := tc_max_count (pt_cfg e) in
  let count := tx_next (pt_st e) in
  if max_hard max <=? count then
    if negb (tk_max_count_overflow (pt_ctl e))
    then (false, pt_set_max_count (tk_max_count_notified (pt_ctl e)) true e, [TxAddLostSdus 1; TxProtocolFailure])
    else (false, e, [])
  else if (max_notify max <=? count) && negb (tk_max_count_notified (pt_ctl e))
  then (true, pt_set_max_count true (tk_max_count_overflow (pt_ctl e)) e, [TxMaxCountReached])
  else (true, e, []).

(** The discard timer and the copy of the SDU, from "Wrap SDU with meta information" on: the information for the window, or
    [None] for the early return *)
Definition tx_wrap_sdu (v : tx_grant) (now : Z) (buf : list Z) e : option pdcp_tx_window_sdu_info * pdcp_entity_tx :=
  let count := tx_next (pt_st e) in
  match tc_discard_timer (pt_cfg e) with
  | None => (Some (TxSduInfo [] count None), e)
  | Some duration =>
      let finite := negb (duration =? discard_timer_infinity) in
      let e := if finite && bool_decide (pt_discard_timer e = None) then tx_run_discard_timer now duration e else e in
      let tick := if finite then Some now else None in
      if is_am (pt_base e) then
        if g_copy v then (Some (TxSduInfo buf count tick), e) else (None, e)
      else (Some (TxSduInfo [] count tick), e)
  end.

(** The rest of [handle_sdu], once the SDU is to be transmitted *)
Definition tx_transmit_sdu (v : tx_grant) (now : Z) (buf : list Z) e : option (pdcp_entity_tx * list pdcp_tx_event) :=
  let '(info, e) := tx_wrap_sdu v now buf e in
  match info with
  | None => Some (e, [TxAddLostSdus 1; TxProtocolFailure])
  | Some info =>
      w ← xw_add_sdu (pt_window e) info (Z.of_nat (length buf));
      let count := tx_next (pt_st e) in
      '(pdu, e, ev) ← tx_make_pdu v count buf (pt_set_window w e);
      match pdu with
      | None => Some (e, ev)
      | Some pdu =>
          Some (pt_set_next (u32 (count + 1)) e, ev ++ tx_exec_crypto v (TxBufferInfo false (pt_retransmit_id e) count pdu))
      end
  end.

(** [handle_sdu] *)
Definition tx_handle_sdu (v : tx_grant) (now : Z) (buf : list Z) e : option (pdcp_entity_tx * list pdcp_tx_event) :=
  let ev0 := [TxAddSdus 1 (Z.of_nat (length buf))] in
  if tk_stopped (pt_ctl e) then Some (e, ev0 ++ [TxAddLostSdus 1]) else
  let '(e, ev1) :=
    if tk_suspended (pt_ctl e) && negb (tk_resume_requested (pt_ctl e))
    then (pt_set_suspended true true e, [TxResumeRequired]) else (e, []) in
  if tk_buffering (pt_ctl e) then
    '(pushed, q) ← rb_try_push buf (tk_sdu_buffer (pt_ctl e));
    Some (pt_set_sdu_buffer q e, ev0 ++ ev1 ++ if (pushed : bool) then [] else [TxAddLostSdus 1])
  else if negb (is_srb (pt_base e)) && negb (bool_decide (tx_check_early_drop buf e = no_drop)) then
    Some (e, ev0 ++ ev1 ++ [TxAddLostSdus 1])
  else
    let '(go, e, ev2) := tx_check_max_count e in
    if negb go then Some (e, ev0 ++ ev1 ++ ev2) else
    '(e, ev3) ← tx_transmit_sdu v now buf e;
    Some (e, ev0 ++ ev1 ++ ev2 ++ ev3).

(** *** Security *)

(** [apply_ciphering_and_integrity_protection] on the worker [worker_idx]; [room]: there is memory for the MAC *)
Definition tx_apply_ciphering_and_integrity_protection (worker_idx : Z) (room : bool) (buf : list Z) (count : Z) e
  : option (security_status * list Z) :=
  if tc_max_nof_crypto_workers (pt_cfg e) <=? worker_idx then None else
  sec_engine ← ts_pool (pt_sec e) !! Z.to_nat worker_idx;
  match sec_engine with
  | None =>
      if is_srb (pt_base e) then
        if negb room then Some (buffer_failure, buf) else Some (sec_success_unprotected, buf ++ zero_mac)
      else Some (engine_failure, buf)
  | Some eng => Some (encrypt_and_protect_integrity room eng buf (pdcp_data_header_size (pb_sn_size (pt_base e))) count)
  end.

(** [apply_security] *)
Definition tx_apply_security (worker_idx : Z) (room : bool) i e : option (list pdcp_tx_event) :=
  '(status, buf) ← tx_apply_ciphering_and_integrity_protection worker_idx room (bi_buf i) (bi_count i) e;
  if negb (is_success status) then Some [TxExecDl (TxSecurityFailure status (bi_count i))] else
  Some [TxExecDl (TxReorder (TxBufferInfo (bi_is_retx i) (bi_retx_id i) (bi_count i) buf))].

(** [configure_security]; [make_engine] is [create_security_engine_tx]. *)
Definition tx_configure_security (make_engine : engine_maker E)
    (sec_cfg : sec_128_as_config) (integ : integrity_enabled) (ciph : ciphering_enabled) e : option pdcp_entity_tx :=
  if negb (bool_decide (sc_domain sec_cfg = if is_srb (pt_base e) then domain_rrc else domain_up)) then None else
  if bool_decide (integ = integrity_smc_transition) then None else
  if bool_decide (integ = integrity_off) && is_srb (pt_base e) then None else
  if negb (bool_decide (integ = integrity_off)) && negb (bool_decide (is_Some (sc_k_128_int sec_cfg))) then Some e else
  if negb (bool_decide (integ = integrity_off)) && negb (bool_decide (is_Some (sc_integ_algo sec_cfg))) then Some e else
  eng ← make_engine sec_cfg (tc_bearer_id (pt_cfg e)) (tc_direction (pt_cfg e)) integ ciph;
  Some (pt_set_sec (TxSec (replicate (Z.to_nat (tc_max_nof_crypto_workers (pt_cfg e))) (Some eng)) integ ciph) e).

(** *** Reordering *)

(** The loop that delivers PDUs up to the first that is missing, in [apply_reordering] and [crypto_reordering_timeout] *)
Fixpoint tx_deliver_loop (fuel : nat) (now count : Z) (is_retx : bool) e : option (pdcp_entity_tx * list pdcp_tx_event) :=
  if count <? tx_next (pt_st e) then
    match fuel with
    | O => None
    | S fuel =>
        if negb (xw_has_sn (pt_window e) count) then
          tx_deliver_loop fuel now (u32 (count + 1)) is_retx (pt_set_trans_crypto (u32 (count + 1)) e)
        else
          x ← xw_get (pt_window e) count;
          match we_pdu x with
          | [] => Some (e, [])
          | pdu =>
              w ← xw_put (pt_window e) count (set_pdu [] x);
              let e := pt_set_trans_crypto (u32 (count + 1)) (pt_set_window w e) in
              e ← (if tc_test_mode (pt_cfg e) then tx_handle_transmit_notification now (SN (pt_base e) count) e else Some e);
              '(e, ev) ← tx_deliver_loop fuel now (u32 (count + 1)) is_retx e;
              Some (e, write_data_pdu_to_lower_layers pdu is_retx ++ ev)
          end
    end
  else Some (e, []).
Definition tx_deliver_in_order (now : Z) (is_retx : bool) e : option (pdcp_entity_tx * list pdcp_tx_event) :=
  tx_deliver_loop (Z.to_nat (tx_next (pt_st e) - tx_trans_crypto (pt_st e))) now (tx_trans_crypto (pt_st e)) is_retx e.

(** [apply_reordering] *)
Definition tx_apply_reordering (now : Z) i e : option (pdcp_entity_tx * list pdcp_tx_event) :=
  if tk_stopped (pt_ctl e) then Some (e, []) else
  if negb (bi_retx_id i =? pt_retransmit_id e) then Some (e, []) else
  if bi_count i <? tx_next_ack (pt_st e) then Some (e, []) else
  if bi_count i <? tx_trans (pt_st e) then Some (e, []) else
  if negb (xw_has_sn (pt_window e) (bi_count i)) then Some (e, []) else
  x ← xw_get (pt_window e) (bi_count i);
  w ← xw_put (pt_window e) (bi_count i) (set_pdu (bi_buf i) x);
  '(e, ev) ← tx_deliver_in_order now (bi_is_retx i) (pt_set_window w e);
  let e := if pt_crypto_timer e && (tx_reord_crypto (pt_st e) <=? tx_trans_crypto (pt_st e)) then pt_set_crypto_timer false e else e in
  let e :=
    if negb (pt_crypto_timer e) && (tx_trans_crypto (pt_st e) <? tx_next (pt_st e))
    then pt_set_crypto_timer true (pt_set_reord_crypto (tx_next (pt_st e)) e) else e in
  Some (e, ev).

(** A task of the UE executor: every security failure is a protocol failure. *)
Definition tx_run_task (now : Z) (t : pdcp_tx_task) e : option (pdcp_entity_tx * list pdcp_tx_event) :=
  match t with
  | TxSecurityFailure _ _ => Some (e, [TxProtocolFailure])
  | TxReorder i => tx_apply_reordering now i e
  end.

(** The loop of [crypto_reordering_timeout] up to TX_REORD_CRYPTO *)
Fixpoint tx_timeout_loop (fuel : nat) e : option (pdcp_entity_tx * list pdcp_tx_event) :=
  let count := tx_trans_crypto (pt_st e) in
  if count <? tx_reord_crypto (pt_st e) then
    match fuel with
    | O => None
    | S fuel =>
        '(e, ev1) ←
          (if negb (xw_has_sn (pt_window e) count) then Some (e, []) else
           x ← xw_get (pt_window e) count;
           match we_pdu x with
           | [] => Some (e, [])
           | pdu =>
               w ← xw_put (pt_window e) count (set_pdu [] x);
               Some (pt_set_window w e, write_data_pdu_to_lower_layers pdu false)
           end);
        '(e, ev2) ← tx_timeout_loop fuel (pt_set_trans_crypto (u32 (count + 1)) e);
        Some (e, ev1 ++ ev2)
    end
  else Some (e, []).

(** [crypto_reordering_timeout]: the timer has expired and does not run any more *)
Definition tx_crypto_reordering_timeout (now : Z) e : option (pdcp_entity_tx * list pdcp_tx_event) :=
  let e := pt_set_crypto_timer false e in
  if tk_stopped (pt_ctl e) then Some (e, []) else
  '(e, ev1) ← tx_timeout_loop (Z.to_nat (tx_reord_crypto (pt_st e) - tx_trans_crypto (pt_st e))) e;
  '(e, ev2) ← tx_deliver_in_order now false e;
  let e :=
    if tx_trans_crypto (pt_st e) <? tx_next (pt_st e)
    then pt_set_crypto_timer true (pt_set_reord_crypto (tx_next (pt_st e)) e) else e in
  Some (e, ev1 ++ ev2).

(** *** Status reports *)

(** A header field of a control PDU; the flag of [unpack] is not looked at *)
Definition tx_unpack (n_bits : Z) (d : bit_decoder) : option (Z * bit_decoder) :=
  '(_, v, d) ← bit_unpack 32 n_bits d; Some (v, d).

(** The checks of the control PDU header, D/C, CPT and reserved bits: the decoder behind it, or [None] for the early return *)
Definition tx_control_header (cpt : pdcp_control_pdu_type) (buf : list Z) : option (option bit_decoder) :=
  '(dc, d) ← tx_unpack 1 (bit_decoder_new buf);
  if negb (dc =? pdcp_dc_to_number dc_control) then Some None else
  '(c, d) ← tx_unpack 3 d;
  if negb (c =? cpt_to_number cpt) then Some None else
  '(reserved, d) ← tx_unpack 4 d;
  if negb (reserved =? 0) then Some None else Some (Some d).

(** The loop over the COUNTs below FMC *)
Fixpoint tx_fmc_loop (fuel : nat) (count fmc : Z) e : option (pdcp_entity_tx * list pdcp_tx_event) :=
  if count <? fmc then
    match fuel with
    | O => None
    | S fuel =>
        '(e, ev1) ← tx_discard_pdu count e;
        '(e, ev2) ← tx_fmc_loop fuel (u32 (count + 1)) fmc e;
        Some (e, ev1 ++ ev2)
    end
  else Some (e, []).

(** The loop over the bitmap *)
Fixpoint tx_bitmap_loop (fuel : nat) (fmc : Z) (d : bit_decoder) e : option (pdcp_entity_tx * list pdcp_tx_event) :=
  '(ok, bit, d) ← bit_unpack 32 1 d;
  if negb (ok : bool) then Some (e, []) else
  match fuel with
  | O => None
  | S fuel =>
      let fmc := u32 (fmc + 1) in
      '(e, ev1) ← (if bit =? 1 then tx_discard_pdu fmc e else Some (e, []));
      '(e, ev2) ← tx_bitmap_loop fuel fmc d e;
      Some (e, ev1 ++ ev2)
  end.

(** The checks of FMC and the bitmap: whether to go on, and the failures that are notified *)
Definition tx_check_status_report (buf : list Z) (fmc : Z) e : bool * list pdcp_tx_event :=
  let tx_next := tx_next (pt_st e) in
  if tx_next <? fmc then (false, [TxProtocolFailure]) else
  let bitmap_length := u32 (Z.of_nat (length buf) - 5) in
  let ev := if (fmc =? tx_next) && negb (bitmap_length =? 0) then [TxProtocolFailure] else [] in
  let delta := u32 (u32 (tx_next - fmc) - 1) in
  let max_possible_bithlength := u32 (delta + 7) / 8 in
  if max_possible_bithlength <? bitmap_length then (false, ev ++ [TxProtocolFailure]) else
  if negb (bitmap_length =? 0) then
    let bitlength_without_padding := delta mod 8 in
    if negb (u8 (Z.shiftl (List.last buf 0) bitlength_without_padding) =? 0) then (false, ev ++ [TxProtocolFailure])
    else (true, ev)
  else (true, ev).

(** [handle_status_report]; [copy_ok]: there is memory for a copy of the PDU *)
Definition tx_handle_status_report (copy_ok : bool) (buf : list Z) e : option (pdcp_entity_tx * list pdcp_tx_event) :=
  if negb copy_ok then Some (e, []) else
  header ← tx_control_header status_report buf;
  match header with
  | None => Some (e, [])
  | Some d =>
      '(fmc, d) ← tx_unpack 32 d;
      let '(go, ev0) := tx_check_status_report buf fmc e in
      if negb go then Some (e, ev0) else
      let ack := tx_next_ack (pt_st e) in
      '(e, ev1) ← tx_fmc_loop (Z.to_nat (fmc - ack)) ack fmc e;
      '(e, ev2) ← tx_bitmap_loop (8 * length buf) fmc d e;
      Some (e, ev0 ++ ev1 ++ ev2)
  end.

(** [send_status_report]; [report] is what the receiving side compiles. *)
Definition tx_send_status_report (report : list Z) e : list pdcp_tx_event :=
  if tc_status_report_required (pt_cfg e) then write_control_pdu_to_lower_layers report else [].

(** *** Feedback of header compression *)

(** [consume_rohc_feedback] *)
Definition tx_consume_rohc_feedback (copy_ok : bool) (buf : list Z) e : option pdcp_entity_tx :=
  match pt_rohc e with
  | None => Some e
  | Some r =>
      if negb copy_ok then Some e else
      header ← tx_control_header interspersed_rohc_feedback buf;
      match header with
      | None => Some e
      | Some _ =>
          if bool_decide (buf = []) then None else
          let '(_, r) := handle_feedback r (drop 1 buf) in Some (pt_set_rohc (Some r) e)
      end
  end.

(** [forward_rohc_feedback]; [room]: there is memory for the header *)
Definition tx_forward_rohc_feedback (room : bool) (rohc_feedback : list Z) : list pdcp_tx_event :=
  let '(ok, buf) := prepend_control_pdu_header room interspersed_rohc_feedback rohc_feedback in
  if negb ok then [TxProtocolFailure] else write_control_pdu_to_lower_layers buf.

(** *** Retransmission *)

(** The loop of [retransmit_all_pdus]; [v count] is what the environment grants to the SDU of [count]. *)
Fixpoint tx_retransmit_loop (fuel : nat) (v : Z -> tx_grant) (count : Z) e : option (pdcp_entity_tx * list pdcp_tx_event) :=
  if count <? tx_next (pt_st e) then
    match fuel with
    | O => None
    | S fuel =>
        if xw_has_sn (pt_window e) count then
          x ← xw_get (pt_window e) count;
          if negb (g_copy (v count)) then Some (e, [TxAddLostSdus 1; TxProtocolFailure]) else
          '(pdu, e, ev) ← tx_make_pdu (v count) count (wi_sdu (we_sdu_info x)) e;
          match pdu with
          | None => Some (e, ev)
          | Some pdu =>
              let ev := ev ++ tx_exec_crypto (v count) (TxBufferInfo true (pt_retransmit_id e) count pdu) in
              '(e, ev') ← tx_retransmit_loop fuel v (u32 (count + 1)) e;
              Some (e, ev ++ ev')
          end
        else tx_retransmit_loop fuel v (u32 (count + 1)) e
    end
  else Some (e, []).

(** [retransmit_all_pdus]; the identifier has 16 bits. *)
Definition tx_retransmit_all_pdus (v : Z -> tx_grant) e : option (pdcp_entity_tx * list pdcp_tx_event) :=
  match tc_discard_timer (pt_cfg e) with
  | None => Some (e, [])
  | Some _ =>
      if negb (is_am (pt_base e)) then Some (e, []) else
      let ack := tx_next_ack (pt_st e) in
      let e := pt_set_trans_crypto ack (pt_set_trans ack e) in
      let e := pt_set_retransmit_id (u16 (pt_retransmit_id e + 1)) e in
      tx_retransmit_loop (Z.to_nat (tx_next (pt_st e) - ack)) v ack e
  end.

(** [data_recovery] *)
Definition tx_data_recovery (report : list Z) (v : Z -> tx_grant) e : option (pdcp_entity_tx * list pdcp_tx_event) :=
  if is_srb (pt_base e) || negb (is_am (pt_base e)) then None else
  let ev := if tc_status_report_required (pt_cfg e) then tx_send_status_report report e else [] in
  '(e, ev') ← tx_retransmit_all_pdus v e;
  Some (e, ev ++ ev').

(** *** Life cycle *)

(** [stop] *)
Definition tx_stop e : pdcp_entity_tx :=
  if tk_stopped (pt_ctl e) then e else
  let e := pt_set_window (xw_clear (pt_window e)) (pt_set_stopped true e) in
  let e := match tc_discard_timer (pt_cfg e) with Some _ => pt_set_discard_timer None e | None => e end in
  pt_set_crypto_timer false e.

Definition tx_begin_buffering e : pdcp_entity_tx := pt_set_buffering true e.

(** [end_buffering]; [v n] is what the environment grants to the SDU when [n] SDUs are left in the buffer. *)
Fixpoint tx_flush_loop (fuel : nat) (v : Z -> tx_grant) (now : Z) e : option (pdcp_entity_tx * list pdcp_tx_event) :=
  if rb_empty (tk_sdu_buffer (pt_ctl e)) then Some (e, []) else
  match fuel with
  | O => None
  | S fuel =>
      buf ← rb_top (tk_sdu_buffer (pt_ctl e));
      q ← rb_pop (tk_sdu_buffer (pt_ctl e));
      '(e, ev1) ← tx_handle_sdu (v (rb_size q)) now buf (pt_set_sdu_buffer q e);
      '(e, ev2) ← tx_flush_loop fuel v now e;
      Some (e, ev1 ++ ev2)
  end.
Definition tx_end_buffering (v : Z -> tx_grant) (now : Z) e : option (pdcp_entity_tx * list pdcp_tx_event) :=
  let e := pt_set_buffering false e in
  tx_flush_loop (Z.to_nat (rb_size (tk_sdu_buffer (pt_ctl e)))) v now e.

(** [suspend] *)
Definition tx_suspend e : bool * pdcp_entity_tx :=
  if tk_suspended (pt_ctl e) || negb (tk_buffering (pt_ctl e)) then (false, e) else
  let e := pt_set_window (xw_clear (pt_window e)) (pt_set_st pdcp_tx_state_init e) in
  let e := match tc_discard_timer (pt_cfg e) with Some _ => pt_set_discard_timer None e | None => e end in
  (true, pt_set_suspended true (tk_resume_requested (pt_ctl e)) e).

(** [resume] *)
Definition tx_resume e : bool * pdcp_entity_tx :=
  if negb (tk_suspended (pt_ctl e)) || negb (tk_buffering (pt_ctl e)) then (false, e)
  else (true, pt_set_suspended false false e).

(** [reset] *)
Definition tx_reset e : pdcp_entity_tx := pt_set_window (xw_clear (pt_window e)) (pt_set_st pdcp_tx_state_init e).

(** [reestablish] *)
Definition tx_reestablish (make_engine : engine_maker E)
    (rohc : option R) (v : Z -> tx_grant) (sec_cfg : sec_128_as_config) e : option (pdcp_entity_tx * list pdcp_tx_event) :=
  let b := pt_base e in
  let e := tx_init_header_compression rohc e in
  let e := if is_srb b || is_um b then tx_reset e else e in
  e ← tx_configure_security make_engine sec_cfg (ts_integrity (pt_sec e)) (ts_ciphering (pt_sec e)) e;
  if is_am b then tx_retransmit_all_pdus v e else Some (e, []).

(** [get_count] and [set_count] *)
Definition tx_get_count e : pdcp_count_info := CountInfo (SN (pt_base e) (tx_next (pt_st e))) (HFN (pt_base e) (tx_next (pt_st e))).
Definition tx_set_count (c : pdcp_count_info) e : pdcp_entity_tx :=
  let count := COUNT (pt_base e) (ci_hfn c) (ci_sn c) in
  pt_set_st (TxState count count count count count) e.
End entity.
Arguments pdcp_tx_security : clear implicits.
Arguments pdcp_entity_tx : clear implicits.
