(* ===== verification/PdcpTxFacts.v ===== *)
(** * The PDCP transmitter: invariant and discarding

    The invariant of the transmitter, against the map [M] of SDUs that its window holds and the list [S] of all SDUs that were
    given a COUNT: the SDU of COUNT [c] is element [c] of [S]. [prot c buf pdu] stands for "[pdu] is [buf], protected with
    COUNT [c]"; the theorems choose it. Then what the operations do that take SDUs out of the window. *)
From S2P Require Import Prelude SduWindow CircularMap RingBuffer PdcpSn SecurityEngine PdcpBase PdcpTxWindow PdcpTx.

(** The parts of what an operation emits *)
Definition tx_pdus (ev : list pdcp_tx_event) : list (list Z) := omap (fun v => match v with TxNewPdu p _ => Some p | _ => None end) ev.
Definition tx_crypto_tasks (ev : list pdcp_tx_event) : list pdcp_tx_buffer_info :=
  omap (fun v => match v with TxExecCrypto i => Some i | _ => None end) ev.
Definition tx_dl_tasks (ev : list pdcp_tx_event) : list pdcp_tx_task :=
  omap (fun v => match v with TxExecDl t => Some t | _ => None end) ev.
Definition tx_silent (ev : list pdcp_tx_event) : Prop := tx_pdus ev = [] /\ tx_crypto_tasks ev = [] /\ tx_dl_tasks ev = [].

Lemma tx_silent_app a b : tx_silent a -> tx_silent b -> tx_silent (a ++ b).
Proof.
  unfold tx_silent, tx_pdus, tx_crypto_tasks, tx_dl_tasks. intros (A1 & A2 & A3) (B1 & B2 & B3). by rewrite !omap_app, A1, A2, A3, B1, B2, B3.
Qed.
Lemma tx_silent_nil : tx_silent []. Proof. done. Qed.
#[export] Hint Resolve tx_silent_app tx_silent_nil : pdcp.

(** A configuration that the constructor takes, with a hard COUNT limit below 2^32 *)
Definition tx_cfg_ok (cfg : pdcp_tx_config) : Prop :=
  pdcp_base_ok (tc_base cfg) /\
  (is_srb (tc_base cfg) = true -> pb_sn_size (tc_base cfg) = pdcp_size12bits /\ is_um (tc_base cfg) = false /\ tc_header_compression cfg = false) /\
  max_hard (tc_max_count cfg) < 2 ^ 32 /\ 0 < tc_max_nof_crypto_workers cfg.

(** The discard timer is configured and finite. *)
Definition tx_finite (cfg : pdcp_tx_config) : bool :=
  match tc_discard_timer cfg with Some d => negb (d =? discard_timer_infinity) | None => false end.

Section facts.
Context {E R W : Type} `{SecurityEngineTx E, RohcCompressor R}.
Context `{SduWindowLaws pdcp_tx_window_element W pdcp_tx_window_element_init}
  `{!SduWindowClear pdcp_tx_window_element W} `{!SduWindowClearLaws pdcp_tx_window_element W}.
Context (prot : Z -> list Z -> list Z -> Prop).
Notation entity := (pdcp_entity_tx E R W).
Notation tx_map := (gmap Z pdcp_tx_window_element).
Implicit Types (e : entity) (M : tx_map) (S : list (list Z)) (cfg : pdcp_tx_config).
Notation next e := (tx_next (pt_st e)).
Notation ack e := (tx_next_ack (pt_st e)).
Notation trans e := (tx_trans (pt_st e)).
Notation tc e := (tx_trans_crypto (pt_st e)).
Notation reord e := (tx_reord_crypto (pt_st e)).

(** ** The data of COUNT [c]: before protection, the protected PDU, and the element of the window *)
Definition plain_ok cfg S (c : Z) (buf : list Z) : Prop :=
  let b := tc_base cfg in
  exists sdu, buf = pdcp_header_octets (pb_sn_size b) (is_srb b) (SN b c) ++ sdu /\
    (tc_header_compression cfg = false -> S !! Z.to_nat c = Some sdu).
Definition pdu_of cfg S (c : Z) (pdu : list Z) : Prop := exists buf, plain_ok cfg S c buf /\ prot c buf pdu.
Definition elem_ok cfg S (c : Z) (x : pdcp_tx_window_element) : Prop :=
  wi_count (we_sdu_info x) = c /\
  (tx_finite cfg = true -> is_Some (wi_tick_point_of_arrival (we_sdu_info x))) /\
  (we_pdu x = [] \/ pdu_of cfg S c (we_pdu x)) /\
  (is_am (tc_base cfg) = true -> tc_discard_timer cfg <> None -> S !! Z.to_nat c = Some (wi_sdu (we_sdu_info x))).

(** ** Invariant *)
Definition tx_core S e M : Prop :=
  let w := pt_window e in let b := pt_base e in
  tx_cfg_ok (pt_cfg e) /\ win_holds (xw_window w) M /\ xw_counted w M /\
  win_cap (xw_window w) = half b /\ xw_rb_type w = pb_rb_type b /\ xw_sn_size w = pb_sn_size b /\
  (0 <= ack e <= trans e /\ trans e <= next e /\ 0 <= tc e <= next e /\ 0 <= reord e <= next e) /\
  next e < 2 ^ 32 /\ next e - ack e <= half b /\ Z.of_nat (length S) = next e /\
  (pt_discard_timer e = None \/ tx_finite (pt_cfg e) = true) /\
  (forall k x, M !! k = Some x -> ack e <= k < next e /\ elem_ok (pt_cfg e) S k x).

(** With a finite discard timer there are no gaps. *)
Definition tx_full e M : Prop := tx_finite (pt_cfg e) = true -> forall c, ack e <= c < next e -> is_Some (M !! c).

(** What an operation leaves alone that only acknowledges or discards *)
Definition tx_frame e e' : Prop :=
  pt_cfg e' = pt_cfg e /\ pt_sec e' = pt_sec e /\ pt_rohc e' = pt_rohc e /\ pt_ctl e' = pt_ctl e /\
  pt_retransmit_id e' = pt_retransmit_id e /\ pt_desired_buffer_size e' = pt_desired_buffer_size e.

(** It only takes SDUs out of the window, and [tx_acks] leaves no gaps. *)
Definition tx_drops S e M e' M' : Prop :=
  tx_frame e e' /\ pt_crypto_timer e' = pt_crypto_timer e /\
  next e' = next e /\ tc e' = tc e /\ reord e' = reord e /\ ack e <= ack e' /\ M' ⊆ M /\ tx_core S e' M'.
Definition tx_acks S e M e' M' : Prop := tx_drops S e M e' M' /\ (tx_full e M -> tx_full e' M').

Lemma tx_frame_refl e : tx_frame e e. Proof. done. Qed.
Lemma tx_frame_trans e1 e2 e3 : tx_frame e1 e2 -> tx_frame e2 e3 -> tx_frame e1 e3.
Proof. intros (? & ? & ? & ? & ? & ?) (? & ? & ? & ? & ? & ?). split_and!; congruence. Qed.

Lemma tx_drops_refl S e M : tx_core S e M -> tx_drops S e M e M.
Proof. intros ?. unfold tx_drops. by split_and!. Qed.
Lemma tx_drops_trans S e1 M1 e2 M2 e3 M3 : tx_drops S e1 M1 e2 M2 -> tx_drops S e2 M2 e3 M3 -> tx_drops S e1 M1 e3 M3.
Proof.
  intros (F1 & C1 & N1 & T1 & R1 & A1 & H1' & K1) (F2 & C2 & N2 & T2 & R2 & A2 & H2' & K2).
  split; [by eapply tx_frame_trans|]. split_and!; try congruence; try done; [lia|by etrans].
Qed.
Lemma tx_acks_refl S e M : tx_core S e M -> tx_acks S e M e M.
Proof. split; [by apply tx_drops_refl|done]. Qed.
Lemma tx_acks_trans S e1 M1 e2 M2 e3 M3 : tx_acks S e1 M1 e2 M2 -> tx_acks S e2 M2 e3 M3 -> tx_acks S e1 M1 e3 M3.
Proof. intros [D1 L1] [D2 L2]. split; [exact (tx_drops_trans _ _ _ _ _ _ _ D1 D2)|auto]. Qed.
Hint Resolve tx_frame_refl tx_frame_trans tx_drops_refl tx_acks_refl : pdcp.

Lemma tx_drops_core S e M e' M' : tx_drops S e M e' M' -> tx_core S e' M'.
Proof. unfold tx_drops. tauto. Qed.
Lemma tx_acks_core S e M e' M' : tx_acks S e M e' M' -> tx_core S e' M'.
Proof. intros [Hd _]. by eapply tx_drops_core. Qed.

(** *** Changes of one part of the entity *)

(** The window, TX_NEXT_ACK, TX_TRANS and the discard timer change. *)
Lemma tx_core_shrink S e M e' M' :
  tx_core S e M -> tx_frame e e' -> next e' = next e -> tc e' = tc e -> reord e' = reord e ->
  win_holds (xw_window (pt_window e')) M' -> xw_counted (pt_window e') M' -> xw_same (pt_window e) (pt_window e') ->
  M' ⊆ M -> ack e <= ack e' -> ack e' <= trans e' <= next e -> (forall k, is_Some (M' !! k) -> ack e' <= k) ->
  (pt_discard_timer e' = None \/ tx_finite (pt_cfg e') = true) -> tx_core S e' M'.
Proof.
  intros (Hcfg & _ & _ & Hcap & Hrb & Hsn & Hst & Hn & Hlen & HS & _ & HM) (Ec & _) En Etc Er Hw Hct (Ecap & Erb & Esn) Hsub Hack Htr Hlo Ht.
  assert (Eb : pt_base e' = pt_base e) by (unfold pt_base; by rewrite Ec).
  unfold tx_core. rewrite Eb, Ec, En, Etc, Er in *. split_and!; try done; try congruence; try lia.
  intros k x Hk. destruct (HM k x) as [? ?]; [by eapply lookup_weaken|]. split; [|done]. split; [apply Hlo; by eexists|lia].
Qed.

(** *** [stop_discard_timer] *)
Lemma tx_stop_loop_spec S fuel hi e M :
  tx_core S e M -> (Z.to_nat (hi + 1 - ack e) <= fuel)%nat -> ack e <= hi + 1 -> hi < next e ->
  exists w, tx_stop_loop fuel hi e = Some (pt_set_next_ack (hi + 1) (pt_set_window w e)) /\
    xw_same (pt_window e) w /\ exists M', win_holds (xw_window w) M' /\ xw_counted w M' /\
    forall k x, M' !! k = Some x <-> M !! k = Some x /\ hi < k.
Proof.
  intros (_ & Hw & Hct & _ & _ & _ & Hst & Hn & _ & _ & _ & HM).
  assert (Hlo : forall k x, M !! k = Some x -> ack e <= k) by (intros k x Hk; by apply (HM k x)). clear HM.
  assert (H0' : 0 <= ack e) by apply Hst. clear Hst. revert e M Hw Hct H0' Hn Hlo.
  induction fuel as [|fuel IH]; intros e M Hw Hct H0' Hn Hlo Hf Hhi Hnx; cbn [tx_stop_loop].
  all: destruct (Z.leb_spec (ack e) hi) as [Hle|Hgt]; [try lia|].
  1,3: exists (pt_window e); assert (ack e = hi + 1) as <- by lia; split; [by destruct e as [? ? ? [] ? ? ? ? ? ?]|]; split; [done|];
      exists M; split_and!; try done; intros k x; split; [|tauto]; intros Hk; split; [done|]; specialize (Hlo k x Hk); lia.
  assert (Eu : u32 (ack e + 1) = ack e + 1) by (rewrite u32_eq; lia).
  assert (Hone : exists w, (if xw_has_sn (pt_window e) (ack e) then w ← xw_remove_sdu (pt_window e) (ack e); Some (pt_set_window w e) else Some e)
      = Some (pt_set_window w e) /\ win_holds (xw_window w) (delete (ack e) M) /\ xw_same (pt_window e) w /\ xw_counted w (delete (ack e) M)).
  { destruct (xw_remove_spec (pt_window e) M (ack e)) as (w & E1 & Hw1 & Hs1 & Hc1); [done|lia|]. exists w. rewrite E1.
    split; [|by auto]. unfold xw_remove_sdu in E1. destruct (xw_has_sn (pt_window e) (ack e)); [done|]. injection E1 as <-. by destruct e. }
  destruct Hone as (w & -> & Hw1 & Hs1 & Hc1). cbn [mbind option_bind]. rewrite Eu.
  destruct (IH (pt_set_next_ack (ack e + 1) (pt_set_window w e)) (delete (ack e) M)) as (w' & -> & Hs' & M' & Hw' & Hc' & HM'); try done; cbn in *; try lia.
  - intros k x [Hne Hk]%lookup_delete_Some. specialize (Hlo k x Hk). lia.
  - exists w'. split; [done|]. split; [destruct Hs1 as (? & ? & ?), Hs' as (? & ? & ?); split_and!; congruence|].
    exists M'. split_and!; try done. intros k x. rewrite HM', lookup_delete_Some. split; [tauto|]. intros [Hk Hk']. split_and!; [lia|done..].
Qed.

Lemma tx_timeout_total now tick e : tx_finite (pt_cfg e) = true -> exists t, tx_compute_next_discard_timeout now tick e = Some t.
Proof.
  unfold tx_finite, tx_compute_next_discard_timeout. destruct (tc_discard_timer _) as [d|]; [|done]. cbn [mbind option_bind].
  destruct (d =? discard_timer_infinity); [done|]. by eexists.
Qed.

Lemma tx_stop_spec S now hi e M :
  tx_core S e M -> tx_full e M ->
  exists e' M', tx_stop_discard_timer now hi e = Some e' /\ tx_acks S e M e' M' /\ (ack e <= hi < next e -> is_Some (M !! ack e) ->
    tc_discard_timer (pt_cfg e) <> None -> ack e' = hi + 1).
Proof.
  intros Hc Hfull. pose proof Hc as (Hcfg & Hw & _ & _ & _ & _ & Hst & Hn & Hcap & _ & Hdt & HM). unfold tx_stop_discard_timer.
  destruct (tc_discard_timer (pt_cfg e)) as [d|] eqn:Ed; [|exists e, M; split; [done|]; split; [auto with pdcp|done]].
  destruct (Z.ltb_spec hi (ack e)); [exists e, M; split; [done|]; split; [auto with pdcp|lia]|].
  destruct (Z.leb_spec (next e) hi); [exists e, M; split; [done|]; split; [auto with pdcp|lia]|]. cbn [orb].
  unfold xw_has_sn. rewrite (holds_has _ M) by (done || lia).
  case_bool_decide as Hhas; cbn [negb]; [|exists e, M; split; [done|]; split; [auto with pdcp|done]].
  destruct (tx_stop_loop_spec S (Z.to_nat (hi + 1 - ack (pt_set_discard_timer None e))) hi (pt_set_discard_timer None e) M)
    as (w & -> & Hs & M' & Hw' & Hct' & HM'); [|lia|cbn; lia|done|].
  { revert Hc. unfold tx_core. cbn. intros. split_and!; try tauto. }
  cbn [mbind option_bind]. set (e1 := pt_set_trans _ _).
  assert (Hsub : M' ⊆ M) by (apply map_subseteq_spec; intros k x Hk; by apply HM').
  assert (Hk : forall t, (t = None \/ tx_finite (pt_cfg e) = true) -> tx_acks S e M (pt_set_discard_timer t e1) M').
  { intros t Ht. cbn in Hs. assert (Hf : tx_frame e (pt_set_discard_timer t e1)) by done. split; [split; [done|]; do 4 (split; [done|]); split; [cbn; lia|]; split; [done|]|].
    - apply (tx_core_shrink S e M); try done; cbn; try lia. intros k [x Hk]. apply HM' in Hk. lia.
    - intros Hfl Hfin c Hcr. cbn in Hcr. destruct (Hfl Hfin c) as [x Hx]; [lia|]. exists x. apply HM'. split; [done|lia]. }
  assert (Hk0 : tx_acks S e M e1 M') by (apply (Hk None); by left).
  destruct (d =? discard_timer_infinity) eqn:Einf; [by exists e1, M'|].
  assert (Hfin : tx_finite (pt_cfg e) = true) by (unfold tx_finite; by rewrite Ed, Einf).
  destruct (Z.eqb_spec (ack e1) (next e1)) as [|Hne]; cbn [negb]; [by exists e1, M'|].
  cbn in Hne. destruct (Hfull Hfin (hi + 1)) as [x Hx]; [lia|].
  assert (Hx' : M' !! (hi + 1) = Some x) by (apply HM'; split; [done|lia]).
  assert (Hget : xw_get (pt_window e1) (ack e1) = Some x).
  { unfold xw_get. change (ack e1) with (hi + 1). change (pt_window e1) with w. rewrite (holds_get _ M') by (done || lia). done. }
  rewrite Hget. cbn [mbind option_bind]. destruct (proj2 (HM _ _ Hx)) as (_ & Htick & _). destruct (Htick Hfin) as [tick ->].
  cbn [mbind option_bind]. destruct (tx_timeout_total now tick e1 Hfin) as [t ->]. cbn [mbind option_bind]. eexists _, M'. split; [reflexivity|].
  split; [|done]. apply Hk. by right.
Qed.

(** *** [discard_pdu] *)
Lemma tx_ack_loop_spec fuel e M :
  win_holds (xw_window (pt_window e)) M -> 0 <= ack e <= next e -> next e < 2 ^ 32 -> (Z.to_nat (next e - ack e) <= fuel)%nat ->
  exists a, tx_ack_loop fuel e = Some (pt_set_next_ack a e) /\ ack e <= a <= next e /\
    (forall c, ack e <= c < a -> M !! c = None) /\ (a < next e -> is_Some (M !! a)).
Proof.
  revert e. induction fuel as [|fuel IH]; intros e Hw Ha Hn Hf; cbn [tx_ack_loop].
  all: destruct (Z.ltb_spec (ack e) (next e)) as [Hlt|]; cbn [andb]; [try lia|exists (ack e); split_and!; try lia; by destruct e as [? ? ? [] ? ? ? ? ? ?]].
  unfold xw_has_sn. rewrite (holds_has _ M) by (done || lia). case_bool_decide as Hk; cbn [negb].
  { exists (ack e). split_and!; try lia; [by destruct e as [? ? ? [] ? ? ? ? ? ?]|done]. }
  assert (Eu : u32 (ack e + 1) = ack e + 1) by (rewrite u32_eq; lia). rewrite Eu.
  destruct (IH (pt_set_next_ack (ack e + 1) e)) as (a & -> & Ha' & Hg & Hs); [done|cbn; lia..|]. cbn in Ha', Hg, Hs.
  exists a. split; [done|]. split; [lia|]. split; [|done]. intros c Hc. destruct (decide (c = ack e)) as [->|]; [|apply Hg; lia].
  destruct (M !! ack e) eqn:E'; [|done]. destruct Hk. by eexists.
Qed.

(** In the window, and gone when the discard timer is configured *)
Definition tx_forget cfg (c : Z) M : tx_map := match tc_discard_timer cfg with Some _ => delete c M | None => M end.

Lemma tx_discard_spec S count e M :
  tx_core S e M ->
  exists e' ev, tx_discard_pdu count e = Some (e', ev) /\ tx_drops S e M e' (tx_forget (pt_cfg e) count M) /\
    ((tx_finite (pt_cfg e) = true -> is_Some (M !! count) -> count <= ack e) -> tx_full e M -> tx_full e' (tx_forget (pt_cfg e) count M)) /\
    tx_silent ev /\
    ev = (if bool_decide (tc_discard_timer (pt_cfg e) <> None /\ is_Some (M !! count)) then [TxDiscardPdu (SN (pt_base e) count)] else []) /\
    (tc_discard_timer (pt_cfg e) <> None -> is_Some (M !! ack e) -> count = ack e -> ack e < ack e').
Proof.
  intros Hc. pose proof Hc as (_ & Hw & Hct & _ & _ & _ & Hst & Hn & _ & _ & Hdt & HM). unfold tx_discard_pdu, tx_forget.
  destruct (tc_discard_timer (pt_cfg e)) as [d|] eqn:Ed; [|exists e, []; rewrite bool_decide_false by (by intros []); split_and!; auto with pdcp; done].
  destruct (decide (is_Some (M !! count))) as [Hx|Hx].
  2: { exists e, []. rewrite bool_decide_false by (by intros []). split.
    - destruct (_ || _) eqn:Eor; [done|]. unfold xw_has_sn. rewrite (holds_has _ M), bool_decide_false by (done || lia). done.
    - destruct (M !! count) eqn:Em; [destruct Hx; by eexists|]. rewrite delete_id by done. split_and!; auto with pdcp; try done.
      intros _ Hs ->. by rewrite Em in Hs. }
  rewrite bool_decide_true by done. destruct Hx as [x Hx]. destruct (HM count x Hx) as [Hr _].
  rewrite (proj2 (Z.ltb_ge _ _)), (proj2 (Z.leb_gt _ _)) by lia. cbn [orb].
  unfold xw_has_sn. rewrite (holds_has _ M), bool_decide_true by (done || lia || by eexists). cbn [negb].
  destruct (xw_remove_spec (pt_window e) M count) as (w & -> & Hw1 & Hs1 & Hc1); [done|lia|]. cbn [mbind option_bind].
  destruct (tx_ack_loop_spec (Z.to_nat (next e - ack e)) (pt_set_window w e) (delete count M)) as (a & Eloop & Ha & Hg & Hs); cbn; try done; try lia.
  cbn in Eloop. change (next (pt_set_window w e)) with (next e). change (ack (pt_set_window w e)) with (ack e). rewrite Eloop.
  cbn [mbind option_bind]. cbn in Ha, Hg, Hs. eexists _, _. split; [reflexivity|].
  assert (Hlo : forall k, is_Some (delete count M !! k) -> a <= k).
  { intros k Hk. destruct (decide (a <= k)); [done|]. destruct (decide (ack e <= k)) as [|Hlt].
    - rewrite Hg in Hk by lia. by destruct Hk.
    - destruct Hk as [y [_ Hy]%lookup_delete_Some]. destruct (HM k y Hy); lia. }
  split; [|split; [|split; [done|split; [done|]]]].
  - split; [done|]. do 4 (split; [done|]). split; [cbn; lia|]. split; [apply delete_subseteq|].
    apply (tx_core_shrink S e M); try done; cbn; try lia; [by apply Hc1|apply delete_subseteq].
  - intros Hfin Hfl Hf c Hcr. cbn in Hcr. specialize (Hfin Hf (ex_intro _ x Hx)). assert (count = ack e) as -> by lia.
    rewrite lookup_delete_ne; [apply (Hfl Hf); lia|]. intros <-. destruct (decide (a = ack e)) as [->|]; [|lia].
    destruct Hs as [y Hy]; [lia|]. by rewrite lookup_delete_eq in Hy.
  - intros _ _ ->. cbn. destruct (decide (a = ack e)) as [->|]; [|lia]. destruct Hs as [y Hy]; [lia|]. by rewrite lookup_delete_eq in Hy.
Qed.

(** *** [discard_callback] *)
Lemma tx_acks_timer S e M t : tx_core S e M -> (t = None \/ tx_finite (pt_cfg e) = true) -> tx_acks S e M (pt_set_discard_timer t e) M.
Proof.
  intros (? & ? & ? & ? & ? & ? & ? & ? & ? & ? & _ & ?) Ht. split; [|done]. unfold tx_drops, tx_core. split_and!; try done; cbn; lia.
Qed.

Lemma tx_finite_some cfg : tx_finite cfg = true -> tc_discard_timer cfg <> None.
Proof. unfold tx_finite. by destruct (tc_discard_timer cfg). Qed.

Lemma tx_get_front S e M :
  tx_core S e M -> tx_full e M -> tx_finite (pt_cfg e) = true -> ack e < next e ->
  exists x tick, M !! ack e = Some x /\ xw_get (pt_window e) (ack e) = Some x /\ wi_tick_point_of_arrival (we_sdu_info x) = Some tick.
Proof.
  intros (_ & Hw & _ & _ & _ & _ & Hst & _ & _ & _ & _ & HM) Hfl Hf Hlt. destruct (Hfl Hf (ack e)) as [x Hx]; [lia|].
  destruct (proj2 (HM _ _ Hx)) as (_ & Htick & _). destruct (Htick Hf) as [tick Et]. exists x, tick. split; [done|]. split; [|done].
  unfold xw_get. by rewrite (holds_get _ M) by (done || lia).
Qed.

Lemma tx_front_out S e M : tx_core S e M -> next e <= ack e -> xw_has_sn (pt_window e) (ack e) = false.
Proof.
  intros (_ & Hw & _ & _ & _ & _ & Hst & _ & _ & _ & _ & HM) Hle. unfold xw_has_sn. rewrite (holds_has _ M) by (done || lia).
  apply bool_decide_false. intros [x Hx]. destruct (HM _ _ Hx). lia.
Qed.

Lemma tx_discard_loop_spec S now oldest fuel e M :
  tx_core S e M -> tx_full e M -> tx_finite (pt_cfg e) = true -> ack e < next e -> (Z.to_nat (next e - ack e) <= fuel)%nat ->
  exists e' ev M', tx_discard_loop fuel now oldest e = Some (e', ev) /\ tx_acks S e M e' M' /\ tx_silent ev.
Proof.
  revert e M. induction fuel as [|fuel IH]; intros e M Hc Hfl Hf Hlt Hfuel; cbn [tx_discard_loop]; [lia|].
  destruct (tx_get_front S e M) as (x & _ & Hx & _); [done..|].
  destruct (tx_discard_spec S (ack e) e M Hc) as (e1 & ev1 & -> & Hd1 & Hfl1 & Hq1 & _ & Hadv). cbn [mbind option_bind].
  assert (Hgt : ack e < ack e1) by (apply Hadv; [by apply tx_finite_some|by eexists|done]). clear Hadv.
  set (M1 := tx_forget _ _ _) in *. pose proof Hd1 as ((Ecfg & _) & _ & En & _ & _ & _ & _ & Hc1).
  assert (Hk1 : tx_acks S e M e1 M1) by (split; [done|apply Hfl1; lia]). assert (Hfl1' : tx_full e1 M1) by by apply Hk1.
  destruct (Z.lt_ge_cases (ack e1) (next e1)) as [Hlt1|Hge1].
  2: { rewrite (tx_front_out S e1 M1) by done. by exists e1, ev1, M1. }
  rewrite <- Ecfg in Hf. destruct (tx_get_front S e1 M1) as (x1 & tick & Hx1 & Hg1 & Ht1); [done..|].
  unfold xw_has_sn. rewrite (holds_has _ M1), bool_decide_true by (apply Hc1 || by eexists). cbn [negb]. rewrite Hg1. cbn [mbind option_bind].
  rewrite Ht1. cbn [mbind option_bind]. destruct (tick =? oldest); cbn [negb].
  - rewrite (proj2 (Z.eqb_neq _ _)) by lia. cbn [negb].
    destruct (IH e1 M1) as (e2 & ev2 & M2 & -> & Hk2 & Hq2); [done..|lia|]. eexists _, _, M2. split; [reflexivity|].
    split; [by eapply tx_acks_trans|auto with pdcp].
  - destruct (tx_timeout_total now oldest e1 Hf) as [t ->]. eexists _, _, M1. split; [reflexivity|]. split; [|done].
    eapply tx_acks_trans; [done|]. apply tx_acks_timer; [done|by right].
Qed.

Lemma tx_discard_callback_spec S now e M :
  tx_core S e M -> (tk_stopped (pt_ctl e) = false -> tx_full e M) -> pt_discard_timer e <> None ->
  exists e' ev M', tx_discard_callback now e = Some (e', ev) /\ tx_acks S e M e' M' /\ tx_silent ev.
Proof.
  intros Hc Hfl Hrun. pose proof Hc as (_ & _ & _ & _ & _ & _ & Hst & _ & _ & _ & Hdt & _). destruct Hdt as [|Hf]; [done|].
  assert (Hk0 : tx_acks S e M (pt_set_discard_timer None e) M) by (apply tx_acks_timer; auto).
  unfold tx_discard_callback. set (e0 := pt_set_discard_timer None e) in *. change (pt_ctl e0) with (pt_ctl e).
  destruct (tk_stopped (pt_ctl e)); [by exists e0, [], M|]. specialize (Hfl eq_refl).
  pose proof (tx_acks_core _ _ _ _ _ Hk0) as Hc0. destruct (Z.lt_ge_cases (ack e0) (next e0)) as [Hlt|Hge].
  2: { rewrite (tx_front_out S e0 M) by done. by exists e0, [TxAddDiscardTimeouts 1], M. }
  destruct (tx_get_front S e0 M) as (x & tick & Hx & Hg & Ht); [done..|].
  unfold xw_has_sn. rewrite (holds_has _ M), bool_decide_true by (apply Hc0 || by eexists). cbn [negb]. rewrite Hg. cbn [mbind option_bind].
  rewrite Ht. cbn [mbind option_bind].
  destruct (tx_discard_loop_spec S now tick (Z.to_nat (next e0 - ack e0)) e0 M) as (e1 & ev & M1 & -> & Hk1 & Hq1); [done..|].
  eexists _, _, M1. split; [reflexivity|]. split; [exact (tx_acks_trans _ _ _ _ _ _ _ Hk0 Hk1)|done].
Qed.

(** *** Notifications *)
(** TX_TRANS moves up inside of the window. *)
Lemma tx_acks_trans_up S e M n :
  tx_core S e M -> trans e <= n <= next e -> tx_acks S e M (pt_set_trans n e) M.
Proof.
  intros Hc Hn. pose proof Hc as (_ & Hw & Hct & _ & _ & _ & Hst & _ & _ & _ & Hdt & HM). split; [|done]. split; [done|]. do 4 (split; [done|]). split; [cbn; lia|]. split; [done|].
  apply (tx_core_shrink S e M); try done; cbn; try lia. intros k [x Hx]. by apply (HM k x).
Qed.

Lemma tx_transmit_notification_spec S now sn e M :
  tx_core S e M -> tx_full e M ->
  exists e' M', tx_handle_transmit_notification_impl now sn e = Some e' /\ tx_acks S e M e' M'.
Proof.
  intros Hc Hfl. unfold tx_handle_transmit_notification_impl. set (c := tx_notification_count_estimation sn e).
  destruct (Z.leb_spec (pdcp_sn_cardinality (pb_sn_size (pt_base e))) sn); [exists e, M; auto with pdcp|].
  destruct (Z.leb_spec (tc e) c); [exists e, M; auto with pdcp|]. destruct (Z.ltb_spec c (trans e)); [exists e, M; auto with pdcp|].
  destruct (Z.leb_spec (next e) c); [exists e, M; auto with pdcp|].
  pose proof Hc as (_ & _ & _ & _ & _ & _ & Hst & Hn & _). assert (Eu : u32 (c + 1) = c + 1) by (rewrite u32_eq; lia). rewrite Eu.
  assert (Hk : tx_acks S e M (pt_set_trans (c + 1) e) M) by (apply tx_acks_trans_up; [done|lia]).
  change (pt_cfg (pt_set_trans (c + 1) e)) with (pt_cfg e). change (pt_base (pt_set_trans (c + 1) e)) with (pt_base e).
  destruct (tc_discard_timer (pt_cfg e)); [|by exists (pt_set_trans (c + 1) e), M].
  destruct (is_um (pt_base e)); [|by exists (pt_set_trans (c + 1) e), M].
  destruct (tx_stop_spec S now c (pt_set_trans (c + 1) e) M) as (e' & M' & -> & Hk' & _); [by eapply tx_acks_core|done|].
  exists e', M'. split; [done|exact (tx_acks_trans _ _ _ _ _ _ _ Hk Hk')].
Qed.

Lemma tx_delivery_notification_spec S now sn e M :
  tx_core S e M -> tx_full e M ->
  exists e' M', tx_handle_delivery_notification_impl now sn e = Some e' /\ tx_acks S e M e' M'.
Proof.
  intros Hc Hfl. unfold tx_handle_delivery_notification_impl. destruct (_ <=? _); [exists e, M; auto with pdcp|].
  destruct (_ <=? _); [exists e, M; auto with pdcp|]. destruct (tc_discard_timer _); [|exists e, M; auto with pdcp].
  destruct (is_am _); [|exists e, M; auto with pdcp]. destruct (tx_stop_spec S now (tx_notification_count_estimation sn e) e M) as (e' & M' & -> & Hk & _); [done..|].
  by exists e', M'.
Qed.
End facts.
#[export] Hint Resolve tx_frame_refl tx_frame_trans tx_acks_refl : pdcp.
