(* ===== verification/PdcpTxOps.v ===== *)
(** * The PDCP transmitter: sending, taking SDUs, status reports and retransmission

    What the other operations do to the invariant of [PdcpTxFacts], and what they emit. *)
From Stdlib Require Import Sorted.
From S2P Require Import Prelude SduWindow CircularMap RingBuffer BitCodec PdcpSn SecurityEngine PdcpBase PdcpTxWindow PdcpTx PdcpTxFacts.

Section ops.
Context {E R W : Type} `{SecurityEngineTx E, RohcCompressor R}.
Context `{SduWindowLaws pdcp_tx_window_element W pdcp_tx_window_element_init}
  `{!SduWindowClear pdcp_tx_window_element W} `{!SduWindowClearLaws pdcp_tx_window_element W}.
Context (prot : Z -> list Z -> list Z -> Prop).
Notation entity := (pdcp_entity_tx E R W).
Notation tx_map := (gmap Z pdcp_tx_window_element).
Notation tx_core := (tx_core prot).
Notation tx_acks := (tx_acks prot).
Notation pdu_of := (pdu_of prot).
Notation elem_ok := (elem_ok prot).
Implicit Types (e : entity) (M : tx_map) (S : list (list Z)) (cfg : pdcp_tx_config).
Notation next e := (tx_next (pt_st e)).
Notation ack e := (tx_next_ack (pt_st e)).
Notation trans e := (tx_trans (pt_st e)).
Notation tc e := (tx_trans_crypto (pt_st e)).
Notation reord e := (tx_reord_crypto (pt_st e)).

(** ** Changes of one part *)

(** An element is replaced by one for the same SDU. *)
Lemma tx_core_put S e M c x y :
  tx_core S e M -> M !! c = Some x -> elem_ok (pt_cfg e) S c y -> we_sdu_length y = we_sdu_length x ->
  exists w, xw_put (pt_window e) c y = Some w /\ tx_core S (pt_set_window w e) (<[c := y]> M) /\
    (tx_full e M -> tx_full (pt_set_window w e) (<[c := y]> M)).
Proof.
  intros (Hcfg & Hw & Hct & Hcap & Hrb & Hsn & Hst & Hn & Hl & HS & Hdt & HM) Hx Hy El.
  destruct (xw_put_spec (pt_window e) M c x y Hw Hx) as (w & -> & Hw' & (E1 & E2 & E3) & Hct'). exists w. split; [done|]. split.
  - unfold PdcpTxFacts.tx_core. cbn. rewrite E1, E2, E3. change (pt_base (pt_set_window w e)) with (pt_base e).
    split_and!; try done; try lia; [by apply Hct'..|].
    intros k z. rewrite lookup_insert. case_decide as Ek; [|apply HM]. intros [= <-]. subst k. split; [by apply (HM c x)|done].
  - intros Hfl Hf k Hk. rewrite lookup_insert. case_decide; [by eexists|by apply (Hfl Hf)].
Qed.

(** TX_TRANS_CRYPTO, TX_REORD_CRYPTO and the reordering timer change. *)
Lemma tx_core_crypto S e M n r t :
  tx_core S e M -> 0 <= n <= next e -> 0 <= r <= next e ->
  tx_core S (pt_set_crypto_timer t (pt_set_reord_crypto r (pt_set_trans_crypto n e))) M.
Proof.
  intros (Hcfg & Hw & Hct & Hcap & Hrb & Hsn & Hst & Hn & Hl & HS & Hdt & HM) Hn' Hr'. unfold PdcpTxFacts.tx_core.
  split_and!; try done; try apply Hct; cbn; lia.
Qed.
Lemma tx_core_tc S e M n : tx_core S e M -> 0 <= n <= next e -> tx_core S (pt_set_trans_crypto n e) M.
Proof.
  intros Hc Hn. pose proof (tx_core_crypto S e M n (reord e) (pt_crypto_timer e) Hc Hn) as Hk. destruct e as [? ? ? [] ? ? ? ? ? ?]. apply Hk.
  unfold PdcpTxFacts.tx_core in Hc. cbn in *. lia.
Qed.
Lemma tx_core_reord S e M r t : tx_core S e M -> 0 <= r <= next e -> tx_core S (pt_set_crypto_timer t (pt_set_reord_crypto r e)) M.
Proof.
  intros Hc Hr. pose proof (tx_core_crypto S e M (tc e) r t Hc) as Hk. destruct e as [? ? ? [] ? ? ? ? ? ?]. apply Hk; [|done].
  unfold PdcpTxFacts.tx_core in Hc. cbn in *. lia.
Qed.
Lemma tx_core_timer S e M t : tx_core S e M -> tx_core S (pt_set_crypto_timer t e) M.
Proof.
  intros Hc. pose proof (tx_core_reord S e M (reord e) t Hc) as Hk. destruct e as [? ? ? [] ? ? ? ? ? ?]. apply Hk.
  unfold PdcpTxFacts.tx_core in Hc. cbn in *. lia.
Qed.

(** ** Sending PDUs *)

(** PDUs of the COUNTs [cs], in order, between the old and the new TX_TRANS_CRYPTO *)
Definition tx_sends S e e' (ev : list pdcp_tx_event) (cs : list Z) : Prop :=
  tx_frame e e' /\ next e' = next e /\ ack e <= ack e' /\ tc e <= tc e' /\ tx_crypto_tasks ev = [] /\ tx_dl_tasks ev = [] /\
  Forall2 (pdu_of (pt_cfg e) S) cs (tx_pdus ev) /\ StronglySorted Z.lt cs /\ Forall (fun c => tc e <= c < tc e') cs.

Lemma tx_sends_none S e e' : tx_frame e e' -> next e' = next e -> ack e <= ack e' -> tc e <= tc e' -> tx_sends S e e' [] [].
Proof. intros. split; [done|]. split_and!; try done; constructor. Qed.

Lemma sorted_app_lt (cs1 cs2 : list Z) m :
  StronglySorted Z.lt cs1 -> StronglySorted Z.lt cs2 -> Forall (fun c => c < m) cs1 -> Forall (fun c => m <= c) cs2 ->
  StronglySorted Z.lt (cs1 ++ cs2).
Proof.
  induction 1 as [|c cs1 Hs IH Hf]; [done|]. intros Hs2 [Hc H1']%Forall_cons H2'. cbn. constructor; [by apply IH|].
  apply Forall_app. split; [done|]. eapply Forall_impl; [exact H2'|]. cbn. lia.
Qed.

Lemma tx_sends_trans S e1 e2 e3 ev1 ev2 cs1 cs2 :
  tx_sends S e1 e2 ev1 cs1 -> tx_sends S e2 e3 ev2 cs2 -> tx_sends S e1 e3 (ev1 ++ ev2) (cs1 ++ cs2).
Proof.
  intros (F1 & N1 & A1 & T1 & C1 & D1 & P1 & S1 & B1) (F2 & N2 & A2 & T2 & C2 & D2 & P2 & S2 & B2).
  assert (Ec : pt_cfg e2 = pt_cfg e1) by apply F1. rewrite Ec in P2.
  split; [by eapply tx_frame_trans|]. unfold tx_pdus, tx_crypto_tasks, tx_dl_tasks in *. rewrite !omap_app, C1, C2, D1, D2.
  split_and!; try congruence; try lia; try reflexivity.
  - by apply Forall2_app.
  - apply (sorted_app_lt _ _ (tc e2)); [done..| |]; eapply Forall_impl; [exact B1| |exact B2|]; cbn; lia.
  - apply Forall_app. split; eapply Forall_impl; [exact B1| |exact B2|]; cbn; lia.
Qed.

Lemma tx_acks_sends S e M e' M' : tx_acks S e M e' M' -> tx_sends S e e' [] [].
Proof. intros [(Hf & _ & En & Et & _ & Ha & _) _]. apply tx_sends_none; (done || lia). Qed.

(** The PDU of one COUNT leaves the window. *)
Lemma tx_send_one S e M c x pdu retx :
  tx_core S e M -> M !! c = Some x -> we_pdu x = pdu -> pdu <> [] ->
  exists w M', xw_put (pt_window e) c (set_pdu [] x) = Some w /\ tx_core S (pt_set_window w e) M' /\
    (tx_full e M -> tx_full (pt_set_window w e) M') /\ pdu_of (pt_cfg e) S c pdu /\
    tx_pdus (write_data_pdu_to_lower_layers pdu retx) = [pdu].
Proof.
  intros Hc Hx Ep Hne. pose proof Hc as (_ & _ & _ & _ & _ & _ & _ & _ & _ & _ & _ & HM).
  destruct (HM c x Hx) as (_ & He1 & He2 & He3 & He4). destruct He3 as [|He3]; [congruence|]. rewrite Ep in He3.
  destruct (tx_core_put S e M c x (set_pdu [] x)) as (w & Ew & Hcw & Hfw); [done..| |done|].
  { split_and!; try done. by left. }
  by exists w, (<[c := set_pdu [] x]> M).
Qed.

Lemma tx_sends_one S e e' c pdu retx :
  tx_frame e e' -> next e' = next e -> ack e <= ack e' -> tc e <= c < tc e' -> pdu_of (pt_cfg e) S c pdu ->
  tx_sends S e e' (write_data_pdu_to_lower_layers pdu retx) [c].
Proof. intros. split; [done|]. split_and!; try done; try lia; repeat constructor; (done || lia). Qed.

Lemma tx_deliver_loop_spec S now retx fuel e M :
  tx_core S e M -> tx_full e M -> (Z.to_nat (next e - tc e) <= fuel)%nat ->
  exists e' ev M' cs, tx_deliver_loop fuel now (tc e) retx e = Some (e', ev) /\ tx_core S e' M' /\ tx_full e' M' /\ tx_sends S e e' ev cs.
Proof.
  revert e M. induction fuel as [|fuel IH]; intros e M Hc Hfl Hf; cbn [tx_deliver_loop].
  all: destruct (Z.ltb_spec (tc e) (next e)) as [Hlt|];
    [try lia|exists e, [], M, []; split_and!; try done; apply tx_sends_none; (done || lia)].
  pose proof Hc as (_ & Hw & _ & _ & _ & _ & Hst & Hn & _ & _ & _ & HM).
  assert (Eu : u32 (tc e + 1) = tc e + 1) by (rewrite u32_eq; lia). rewrite Eu.
  unfold xw_has_sn, xw_get. rewrite (holds_has _ M), (holds_get _ M) by (done || lia). case_bool_decide as Hhas; cbn [negb].
  2: { destruct (IH (pt_set_trans_crypto (tc e + 1) e) M) as (e' & ev & M' & cs & E1 & Hc' & Hfl' & Hs);
      [by apply tx_core_tc; [|lia]|done|cbn; lia|].
    exists e', ev, M', cs. split_and!; try done. apply (tx_sends_trans S e (pt_set_trans_crypto (tc e + 1) e) e' [] ev [] cs); [|done].
    apply tx_sends_none; try done; cbn; lia. }
  destruct Hhas as [x Hx]. rewrite Hx. cbn [mbind option_bind]. destruct (we_pdu x) as [|o pdu] eqn:Ep.
  { exists e, [], M, []. split_and!; try done. apply tx_sends_none; (done || lia). }
  destruct (tx_send_one S e M (tc e) x (o :: pdu) retx) as (w & M1 & Ew & Hc1 & Hfl1 & Hp & _); [done..|]. rewrite Ew.
  cbn [mbind option_bind]. set (e1 := pt_set_trans_crypto (tc e + 1) (pt_set_window w e)).
  assert (Hc1' : tx_core S e1 M1) by (apply tx_core_tc; [done|cbn; lia]). assert (Hfl1' : tx_full e1 M1) by (exact (Hfl1 Hfl)).
  assert (Ht : exists e2 M2, (if tc_test_mode (pt_cfg e1) then tx_handle_transmit_notification now (SN (pt_base e1) (tc e)) e1 else Some e1) = Some e2 /\
    tx_acks S e1 M1 e2 M2).
  { destruct (tc_test_mode _); [|exists e1, M1; split; [done|by apply tx_acks_refl]]. unfold tx_handle_transmit_notification.
    destruct (tk_stopped _); [exists e1, M1; split; [done|by apply tx_acks_refl]|]. by apply (tx_transmit_notification_spec prot S _ _ e1 M1). }
  destruct Ht as (e2 & M2 & -> & Hk). cbn [mbind option_bind]. pose proof Hk as [(Hf2 & _ & En2 & Et2 & _ & Ha2 & _ & Hc2) Hfl2]. cbn in En2, Et2, Ha2.
  destruct (IH e2 M2) as (e3 & ev & M3 & cs & E3 & Hc3 & Hfl3 & Hs); [done|by apply Hfl2|lia|]. rewrite Et2 in E3. rewrite E3.
  eexists e3, _, M3, (tc e :: cs). split; [reflexivity|]. split; [done|]. split; [done|].
  apply (tx_sends_trans S e e2 e3 _ ev [tc e] cs); [|done].
  apply tx_sends_one; try done; try lia.
Qed.

Lemma tx_deliver_spec S now retx e M :
  tx_core S e M -> tx_full e M ->
  exists e' ev M' cs, tx_deliver_in_order now retx e = Some (e', ev) /\ tx_core S e' M' /\ tx_full e' M' /\ tx_sends S e e' ev cs.
Proof. intros Hc Hfl. by apply (tx_deliver_loop_spec S now retx _ e M). Qed.

(** *** [apply_reordering] *)
Lemma tx_apply_reordering_spec S now i e M :
  tx_core S e M -> (tk_stopped (pt_ctl e) = false -> tx_full e M) -> pdu_of (pt_cfg e) S (bi_count i) (bi_buf i) ->
  exists e' ev M' cs, tx_apply_reordering now i e = Some (e', ev) /\ tx_core S e' M' /\
    (tk_stopped (pt_ctl e) = false -> tx_full e' M') /\ tx_sends S e e' ev cs.
Proof.
  intros Hc Hfl Hp. unfold tx_apply_reordering. set (c := bi_count i) in *.
  assert (Hno : exists e' ev M' cs, Some (e, []) = Some (e', ev) /\ tx_core S e' M' /\
    (tk_stopped (pt_ctl e) = false -> tx_full e' M') /\ tx_sends S e e' ev cs).
  { exists e, [], M, []. split_and!; try done. apply tx_sends_none; (done || lia). }
  destruct (tk_stopped (pt_ctl e)) eqn:Estop; [done|]. specialize (Hfl eq_refl).
  destruct (negb (bi_retx_id i =? pt_retransmit_id e)); [done|]. destruct (Z.ltb_spec c (ack e)); [done|].
  destruct (c <? trans e); [done|].
  pose proof Hc as (_ & Hw & _ & _ & _ & _ & Hst & Hn & _ & _ & _ & HM). unfold xw_has_sn, xw_get.
  rewrite (holds_has _ M), (holds_get _ M) by (done || lia). case_bool_decide as Hhas; cbn [negb]; [|done]. clear Hno.
  destruct Hhas as [x Hx]. rewrite Hx. cbn [mbind option_bind].
  destruct (HM c x Hx) as (_ & He1 & He2 & He3 & He4).
  destruct (tx_core_put S e M c x (set_pdu (bi_buf i) x)) as (w & -> & Hc1 & Hfl1); [done..| |done|].
  { split_and!; try done. by right. }
  cbn [mbind option_bind]. destruct (tx_deliver_spec S now (bi_is_retx i) _ _ Hc1 (Hfl1 Hfl)) as (e2 & ev & M2 & cs & -> & Hc2 & Hfl2 & Hs).
  cbn [mbind option_bind]. set (e3 := if _ && _ then _ else e2). set (e4 := if _ && _ then _ else e3).
  assert (Hc3 : tx_core S e3 M2 /\ pt_st e3 = pt_st e2 /\ tx_frame e2 e3).
  { unfold e3. destruct (_ && _); [|done]. split; [by apply tx_core_timer|done]. }
  destruct Hc3 as (Hc3 & Est3 & Hf3). clearbody e3.
  assert (Hc4 : tx_core S e4 M2 /\ ack e4 = ack e2 /\ next e4 = next e2 /\ tc e4 = tc e2 /\ tx_frame e3 e4).
  { unfold e4. rewrite Est3. destruct (negb (pt_crypto_timer e3) && (tc e2 <? next e2)); [|by rewrite Est3]. cbn. rewrite Est3. split; [|done].
    apply tx_core_reord; [done|]. rewrite Est3. pose proof Hc2 as (_ & _ & _ & _ & _ & _ & ? & _). lia. }
  destruct Hc4 as (Hc4 & Ea4 & En4 & Et4 & Hf4). eexists e4, _, M2, cs. split; [reflexivity|]. split; [done|]. split.
  - intros _ Hf k Hk. rewrite Ea4, En4 in Hk. apply Hfl2; [|done]. by rewrite <- (proj1 Hf3), <- (proj1 Hf4).
  - rewrite <- (app_nil_r ev), <- (app_nil_r cs). apply (tx_sends_trans S e e2); [exact Hs|]. apply tx_sends_none; [by eapply tx_frame_trans|done|lia..].
Qed.

(** *** [crypto_reordering_timeout] *)
Lemma tx_timeout_loop_spec S fuel e M :
  tx_core S e M -> tx_full e M -> (Z.to_nat (reord e - tc e) <= fuel)%nat ->
  exists e' ev M' cs, tx_timeout_loop fuel e = Some (e', ev) /\ tx_core S e' M' /\ tx_full e' M' /\ tx_sends S e e' ev cs.
Proof.
  revert e M. induction fuel as [|fuel IH]; intros e M Hc Hfl Hf; cbn [tx_timeout_loop].
  all: destruct (Z.ltb_spec (tc e) (reord e)) as [Hlt|];
    [try lia|exists e, [], M, []; split_and!; try done; apply tx_sends_none; (done || lia)].
  pose proof Hc as (_ & Hw & _ & _ & _ & _ & Hst & Hn & _ & _ & _ & HM).
  assert (Eu : u32 (tc e + 1) = tc e + 1) by (rewrite u32_eq; lia). rewrite Eu.
  match goal with |- context [mbind _ ?o] => set (one := o) end.
  assert (Hone : exists e1 ev1 M1 cs1, one = Some (e1, ev1) /\ tx_core S e1 M1 /\ tx_full e1 M1 /\ pt_st e1 = pt_st e /\
    tx_sends S e (pt_set_trans_crypto (tc e + 1) e1) ev1 cs1).
  { unfold one, xw_has_sn, xw_get. rewrite (holds_has _ M), (holds_get _ M) by (done || lia).
    assert (Hnone : tx_sends S e (pt_set_trans_crypto (tc e + 1) e) [] []) by (apply tx_sends_none; try done; cbn; lia).
    case_bool_decide as Hhas; cbn [negb]; [|by exists e, [], M, []].
    destruct Hhas as [x Hx]. rewrite Hx. cbn [mbind option_bind]. destruct (we_pdu x) as [|o pdu] eqn:Ep; [by exists e, [], M, []|].
    destruct (tx_send_one S e M (tc e) x (o :: pdu) false) as (w & M1 & -> & Hc1 & Hfl1 & Hp & _); [done..|].
    eexists _, _, M1, [tc e]. split; [reflexivity|]. split; [done|]. split; [by apply Hfl1|]. split; [done|].
    apply tx_sends_one; try done; cbn; lia. }
  destruct Hone as (e1 & ev1 & M1 & cs1 & -> & Hc1 & Hfl1 & Est1 & Hs1). cbn [mbind option_bind].
  destruct (IH (pt_set_trans_crypto (tc e + 1) e1) M1) as (e2 & ev2 & M2 & cs2 & E2 & Hc2 & Hfl2 & Hs2);
    [apply tx_core_tc; [done|rewrite Est1; lia]|done|cbn; rewrite Est1; lia|].
  rewrite E2. eexists e2, _, M2, (cs1 ++ cs2). split; [reflexivity|]. split; [done|]. split; [done|]. by eapply tx_sends_trans.
Qed.

Lemma tx_crypto_timeout_spec S now e M :
  tx_core S e M -> (tk_stopped (pt_ctl e) = false -> tx_full e M) ->
  exists e' ev M' cs, tx_crypto_reordering_timeout now e = Some (e', ev) /\ tx_core S e' M' /\
    (tk_stopped (pt_ctl e) = false -> tx_full e' M') /\ tx_sends S e e' ev cs.
Proof.
  intros Hc Hfl. unfold tx_crypto_reordering_timeout. set (e0 := pt_set_crypto_timer false e).
  assert (Hc0 : tx_core S e0 M) by by apply tx_core_timer. assert (Hs0 : tx_sends S e e0 [] []) by (apply tx_sends_none; try done; cbn; lia).
  change (pt_ctl e0) with (pt_ctl e). destruct (tk_stopped (pt_ctl e)); [by exists e0, [], M, []|]. specialize (Hfl eq_refl).
  destruct (tx_timeout_loop_spec S (Z.to_nat (reord e0 - tc e0)) e0 M) as (e1 & ev1 & M1 & cs1 & -> & Hc1 & Hfl1 & Hs1); [done..|].
  cbn [mbind option_bind]. destruct (tx_deliver_spec S now false e1 M1 Hc1 Hfl1) as (e2 & ev2 & M2 & cs2 & -> & Hc2 & Hfl2 & Hs2).
  cbn [mbind option_bind]. set (e3 := if tc e2 <? next e2 then _ else e2).
  assert (Hc3 : tx_core S e3 M2 /\ ack e3 = ack e2 /\ next e3 = next e2 /\ tc e3 = tc e2 /\ tx_frame e2 e3).
  { unfold e3. destruct (tc e2 <? next e2); [|done]. split; [|done]. apply tx_core_reord; [done|].
    pose proof Hc2 as (_ & _ & _ & _ & _ & _ & ? & _). lia. }
  destruct Hc3 as (Hc3 & Ea3 & En3 & Et3 & Hf3). eexists e3, _, M2, (cs1 ++ cs2). split; [reflexivity|]. split; [done|]. split.
  - intros _ Hf k Hk. rewrite Ea3, En3 in Hk. apply Hfl2; [|done]. by rewrite <- (proj1 Hf3).
  - pose proof (tx_sends_trans _ _ _ _ _ _ _ _ Hs0 (tx_sends_trans _ _ _ _ _ _ _ _ Hs1 Hs2)) as Hs. cbn [app] in Hs.
    rewrite <- (app_nil_r (ev1 ++ ev2)), <- (app_nil_r (cs1 ++ cs2)). apply (tx_sends_trans S e e2); [exact Hs|].
    apply tx_sends_none; [done|done|lia..].
Qed.

(** ** Taking SDUs *)
Definition info_ok cfg S (i : pdcp_tx_buffer_info) : Prop := 0 <= bi_count i /\ plain_ok cfg S (bi_count i) (bi_buf i).

Lemma plain_ok_mono cfg S S' c buf : S `prefix_of` S' -> plain_ok cfg S c buf -> plain_ok cfg S' c buf.
Proof. intros Hp (sdu & -> & Hs). exists sdu. split; [done|]. intros Hn. eapply prefix_lookup_Some; [by apply Hs|done]. Qed.
Lemma pdu_of_mono cfg S S' c p : S `prefix_of` S' -> pdu_of cfg S c p -> pdu_of cfg S' c p.
Proof. intros Hp (buf & Hb & Hq). exists buf. split; [by eapply plain_ok_mono|done]. Qed.
Lemma elem_ok_mono cfg S S' c x : S `prefix_of` S' -> elem_ok cfg S c x -> elem_ok cfg S' c x.
Proof.
  intros Hp (H1' & H2' & H3' & H4'). split_and!; try done.
  - destruct H3' as [|H3']; [by left|right; by eapply pdu_of_mono].
  - intros Ha Hd. eapply prefix_lookup_Some; [by apply H4'|done].
Qed.
Lemma info_ok_mono cfg S S' i : S `prefix_of` S' -> info_ok cfg S i -> info_ok cfg S' i.
Proof. intros Hp [? ?]. split; [done|by eapply plain_ok_mono]. Qed.

(** Header compression and the header *)
Lemma tx_make_pdu_spec v c buf e :
  tx_cfg_ok (pt_cfg e) -> 0 <= c < 2 ^ 32 ->
  exists o r ev, tx_make_pdu v c buf e = Some (o, pt_set_rohc r e, ev) /\ (pt_rohc e = None -> r = None) /\ tx_silent ev /\
    match o with
    | Some pdu => ev = [] /\ exists sdu, pdu = pdcp_header_octets (pb_sn_size (pt_base e)) (is_srb (pt_base e)) (SN (pt_base e) c) ++ sdu /\
        (pt_rohc e = None -> sdu = buf)
    | None => g_room v = false \/ exists r0, pt_rohc e = Some r0 /\ (compress r0 buf).1 = []
    end.
Proof.
  intros (Hb & Hsrb & _) Hc. unfold tx_make_pdu, tx_apply_header_compression.
  assert (Hpre : forall sdu, exists o, prepend_data_pdu_header (pt_base e) (g_room v) (SN (pt_base e) c) sdu = Some o /\
    (o.1 = true -> o.2 = pdcp_header_octets (pb_sn_size (pt_base e)) (is_srb (pt_base e)) (SN (pt_base e) c) ++ sdu) /\ (o.1 = false -> g_room v = false)).
  { intros sdu. pose proof (SN_range (pt_base e) c Hb Hc) as Hsn.
    destruct (prepend_octets (pt_base e) (SN (pt_base e) c) sdu Hb (fun Hs => proj1 (Hsrb Hs)) Hsn) as (Ep & _).
    destruct (g_room v); [rewrite Ep; by eexists|]. unfold prepend_data_pdu_header in *. cbn [negb] in *.
    destruct (is_srb _ && _); [done|]. by eexists. }
  destruct (pt_rohc e) as [r|] eqn:Er.
  - destruct (compress r buf) as [packet r'] eqn:Ecomp. destruct packet as [|o packet].
    { cbn [negb]. eexists None, (Some r'), _. split; [reflexivity|]. split_and!; try done. right. exists r. by rewrite Ecomp. }
    cbn [negb]. change (pt_base (pt_set_rohc (Some r') e)) with (pt_base e). destruct (Hpre (o :: packet)) as ((ok & pdu) & -> & H1' & H2').
    cbn [mbind option_bind fst snd] in *. destruct ok; cbn [negb].
    + eexists (Some pdu), (Some r'), _. split; [reflexivity|]. split_and!; try done. exists (o :: packet). by rewrite H1'.
    + eexists None, (Some r'), _. split; [reflexivity|]. split_and!; try done. left. by apply H2'.
  - cbn [negb]. assert (Ee : pt_set_rohc None e = e) by (destruct e; cbn in Er |- *; by rewrite Er).
    destruct (Hpre buf) as ((ok & pdu) & -> & H1' & H2'). cbn [mbind option_bind fst snd] in *. destruct ok; cbn [negb].
    + eexists (Some pdu), None, _. rewrite Ee. split; [reflexivity|]. split_and!; try done. exists buf. by rewrite H1'.
    + eexists None, None, _. rewrite Ee. split; [reflexivity|]. split_and!; try done. left. by apply H2'.
Qed.

Lemma tx_core_rohc S e M r : tx_core S e M -> tx_core S (pt_set_rohc r e) M. Proof. done. Qed.
Lemma tx_core_ctl S e M c : tx_core S e M -> tx_core S (pt_set_ctl c e) M. Proof. done. Qed.

(** The information for the window *)
Lemma tx_wrap_spec S v now buf e M :
  tx_core S e M ->
  exists o t, tx_wrap_sdu v now buf e = (o, pt_set_discard_timer t e) /\ tx_core S (pt_set_discard_timer t e) M /\
    match o with
    | Some i => wi_count i = next e /\ (tx_finite (pt_cfg e) = true -> is_Some (wi_tick_point_of_arrival i)) /\
        (is_am (pt_base e) = true -> tc_discard_timer (pt_cfg e) <> None -> wi_sdu i = buf)
    | None => g_copy v = false
    end.
Proof.
  intros Hc. unfold tx_wrap_sdu, tx_finite. pose proof Hc as (_ & _ & _ & _ & _ & _ & _ & _ & _ & _ & Hdt & _).
  assert (Ee : pt_set_discard_timer (pt_discard_timer e) e = e) by by destruct e.
  destruct (tc_discard_timer (pt_cfg e)) as [d|] eqn:Ed.
  2: { exists (Some (TxSduInfo [] (next e) None)), (pt_discard_timer e). rewrite Ee. by split_and!. }
  set (e1 := if _ && _ then _ else e).
  assert (Ht : exists t, e1 = pt_set_discard_timer t e /\ tx_core S (pt_set_discard_timer t e) M).
  { unfold e1. destruct (d =? discard_timer_infinity) eqn:Einf; cbn [negb andb]; [exists (pt_discard_timer e); by rewrite Ee|].
    case_bool_decide; [|exists (pt_discard_timer e); by rewrite Ee]. eexists. split; [reflexivity|].
    eapply tx_acks_core. apply tx_acks_timer; [done|]. right. unfold tx_finite. by rewrite Ed, Einf. }
  destruct Ht as (t & -> & Hct). change (pt_base (pt_set_discard_timer t e)) with (pt_base e).
  assert (Htick : negb (d =? discard_timer_infinity) = true -> is_Some (if negb (d =? discard_timer_infinity) then Some now else None))
    by (intros ->; by eexists).
  destruct (is_am (pt_base e)) eqn:Eam.
  - destruct (g_copy v) eqn:Ecp.
    + eexists (Some _), t. split; [reflexivity|]. by split_and!.
    + by exists None, t.
  - eexists (Some _), t. split; [reflexivity|]. by split_and!.
Qed.

(** The SDUs of [S'] beyond [S] were given COUNTs, and handed to the crypto executor or lost. *)
Definition tx_took S e S' e' (ev : list pdcp_tx_event) : Prop :=
  pt_cfg e' = pt_cfg e /\ pt_sec e' = pt_sec e /\ (pt_rohc e = None -> pt_rohc e' = None) /\ pt_retransmit_id e' = pt_retransmit_id e /\
  tk_stopped (pt_ctl e') = tk_stopped (pt_ctl e) /\ ack e' = ack e /\ tc e' = tc e /\ next e <= next e' /\
  S `prefix_of` S' /\ tx_pdus ev = [] /\ tx_dl_tasks ev = [] /\ Forall (info_ok (pt_cfg e) S') (tx_crypto_tasks ev).

Lemma tx_took_silent S e e' ev :
  pt_cfg e' = pt_cfg e -> pt_sec e' = pt_sec e -> (pt_rohc e = None -> pt_rohc e' = None) -> pt_retransmit_id e' = pt_retransmit_id e ->
  tk_stopped (pt_ctl e') = tk_stopped (pt_ctl e) -> pt_st e' = pt_st e -> tx_silent ev -> tx_took S e S e' ev.
Proof. intros ? ? ? ? ? Est (? & Ht & ?). unfold tx_took. rewrite Ht, Est. split_and!; try done; lia. Qed.

Lemma tx_took_trans S1 e1 S2 e2 S3 e3 ev1 ev2 : tx_took S1 e1 S2 e2 ev1 -> tx_took S2 e2 S3 e3 ev2 -> tx_took S1 e1 S3 e3 (ev1 ++ ev2).
Proof.
  intros (C1 & E1 & R1 & I1 & K1 & A1 & T1 & N1 & P1 & Q1 & D1 & F1) (C2 & E2 & R2 & I2 & K2 & A2 & T2 & N2 & P2 & Q2 & D2 & F2).
  unfold tx_took, tx_pdus, tx_dl_tasks, tx_crypto_tasks in *. rewrite !omap_app, Q1, Q2, D1, D2. split_and!; try congruence; try done; try lia; auto.
  - by etrans.
  - apply Forall_app. rewrite <- C1. split; [|done]. rewrite C1. eapply Forall_impl; [exact F1|]. intros i. by apply info_ok_mono.
Qed.

(** A new SDU in the window *)
Lemma tx_core_add S e M i buf :
  tx_core S e M -> next e + 1 < 2 ^ 32 -> next e - ack e < half (pt_base e) -> wi_count i = next e ->
  (tx_finite (pt_cfg e) = true -> is_Some (wi_tick_point_of_arrival i)) ->
  (is_am (pt_base e) = true -> tc_discard_timer (pt_cfg e) <> None -> wi_sdu i = buf) ->
  exists w M', xw_add_sdu (pt_window e) i (Z.of_nat (length buf)) = Some w /\
    tx_core (S ++ [buf]) (pt_set_next (next e + 1) (pt_set_window w e)) M' /\
    (tx_full e M -> tx_full (pt_set_next (next e + 1) (pt_set_window w e)) M').
Proof.
  intros (Hcfg & Hw & Hct & Hcap & Hrb & Hsn & Hst & Hn & Hl & HS & Hdt & HM) Hmax Hroom Ei Htick Hsdu.
  assert (Hnone : M !! next e = None) by (destruct (M !! next e) eqn:Ex; [destruct (HM _ _ Ex); lia|done]).
  destruct (xw_add_spec (pt_window e) M i (Z.of_nat (length buf)) Hw) as (w & -> & Hw' & (E1 & E2 & E3) & Hct'); [lia| |].
  { rewrite Ei. apply (residue_free_interval _ _ (ack e)); [|lia|done]. intros q [x Hx]. destruct (HM q x Hx). lia. }
  rewrite Ei in *. eexists w, _. split; [done|]. split.
  - unfold PdcpTxFacts.tx_core. cbn. rewrite E1, E2, E3. change (pt_base (pt_set_next _ _)) with (pt_base e).
    split_and!; try done; try lia; [by apply Hct'..|rewrite length_app; cbn; lia|].
    intros k x. rewrite lookup_insert. case_decide as Ek.
    + intros [= <-]. subst k. split; [lia|]. split; [done|]. split; [exact Htick|]. split; [by left|].
      intros Ha Hd. cbn. rewrite (Hsdu Ha Hd), lookup_app_r by lia. replace (Z.to_nat (next e) - length S)%nat with 0%nat by lia. done.
    + intros Hx. destruct (HM k x Hx) as [? He]. split; [lia|]. eapply elem_ok_mono; [by eexists|done].
  - intros Hfl Hf k Hk. cbn in Hk. rewrite lookup_insert. case_decide; [by eexists|]. apply (Hfl Hf). lia.
Qed.

Lemma tx_exec_silent v i : tx_pdus (tx_exec_crypto v i) = [] /\ tx_dl_tasks (tx_exec_crypto v i) = [] /\
  (tx_crypto_tasks (tx_exec_crypto v i) = [] \/ tx_crypto_tasks (tx_exec_crypto v i) = [i]).
Proof. unfold tx_exec_crypto. destruct (g_exec v); auto. Qed.

Lemma plain_ok_new S e M pdu buf :
  tx_core S e M -> (tc_header_compression (pt_cfg e) = false -> pt_rohc e = None) ->
  (exists sdu, pdu = pdcp_header_octets (pb_sn_size (pt_base e)) (is_srb (pt_base e)) (SN (pt_base e) (next e)) ++ sdu /\ (pt_rohc e = None -> sdu = buf)) ->
  plain_ok (pt_cfg e) (S ++ [buf]) (next e) pdu.
Proof.
  intros (_ & _ & _ & _ & _ & _ & _ & _ & _ & HS & _) Hr (sdu & -> & Hs). exists sdu. split; [done|]. intros Hh. rewrite Hs by auto.
  rewrite lookup_app_r by lia. replace (Z.to_nat (next e) - length S)%nat with 0%nat by lia. done.
Qed.

Lemma tx_transmit_spec S v now buf e M :
  tx_core S e M -> g_room v = true -> (forall (r : R) buf, (compress r buf).1 <> []) ->
  (tc_header_compression (pt_cfg e) = false -> pt_rohc e = None) ->
  next e + 1 < 2 ^ 32 -> next e - ack e < half (pt_base e) ->
  exists e' ev M' S', tx_transmit_sdu v now buf e = Some (e', ev) /\ tx_core S' e' M' /\ (tx_full e M -> tx_full e' M') /\
    tx_took S e S' e' ev /\ pt_ctl e' = pt_ctl e /\ (S' = S \/ S' = S ++ [buf]) /\ next e' <= next e + 1.
Proof.
  intros Hc Hg Hcomp Hr Hmax Hroom. unfold tx_transmit_sdu. destruct (tx_wrap_spec S v now buf e M Hc) as (o & t & -> & Hc0 & Hi).
  set (e0 := pt_set_discard_timer t e) in *. destruct o as [i|].
  2: { eexists e0, _, M, S. split; [reflexivity|]. do 2 (split; [done|]). split; [by apply tx_took_silent|]. split; [done|]. split; [by left|cbn; lia]. }
  destruct Hi as (Ei & Htick & Hsdu).
  destruct (tx_core_add S e0 M i buf Hc0 Hmax Hroom Ei Htick Hsdu) as (w & M' & -> & Hc1 & Hfl1). cbn [mbind option_bind].
  set (e1 := pt_set_window w e0) in *. pose proof Hc as (Hcfg & _ & _ & _ & _ & _ & Hst & _).
  destruct (tx_make_pdu_spec v (next e0) buf e1) as (o & r & ev & -> & Hrn & _ & Ho); [done|cbn; lia|]. destruct o as [pdu|].
  2: { destruct Ho as [Ho|(r0 & _ & Ho)]; [congruence|by destruct (Hcomp r0 buf)]. }
  destruct Ho as [-> Hpdu]. cbn [mbind option_bind app].
  assert (Eu : u32 (next e0 + 1) = next e + 1) by (cbn; rewrite u32_eq; lia). rewrite Eu.
  eexists _, _, M', (S ++ [buf]). split; [reflexivity|]. split; [exact Hc1|]. split; [exact Hfl1|].
  destruct (tx_exec_silent v (TxBufferInfo false (pt_retransmit_id (pt_set_rohc r e1)) (next e0) pdu)) as (Hq & Hd & Ht).
  split; [|split; [done|split; [by right|cbn; lia]]]. unfold tx_took. split_and!; try done; [cbn; lia|by eexists|].
  destruct Ht as [->| ->]; repeat constructor; [cbn; lia|]. by apply (plain_ok_new S e M).
Qed.

(** *** [handle_sdu] and [end_buffering] *)
Definition tx_buffered (c : pdcp_tx_control) (l : list (list Z)) : Prop := rb_repr (tk_sdu_buffer c) l /\ rb_max_size (tk_sdu_buffer c) = 2048.

(** The COUNTs that an SRB has left: it has no flow control of its own. *)
Definition tx_srb_room e (n : Z) : Prop := is_srb (pt_base e) = true -> next e - ack e + n <= half (pt_base e).

Lemma tx_check_max_spec S e M :
  tx_core S e M ->
  exists b c ev, tx_check_max_count e = (b, pt_set_ctl c e, ev) /\ tx_silent ev /\ tk_stopped c = tk_stopped (pt_ctl e) /\
    tk_buffering c = tk_buffering (pt_ctl e) /\ tk_sdu_buffer c = tk_sdu_buffer (pt_ctl e) /\ (b = true -> next e + 1 < 2 ^ 32).
Proof.
  intros ((_ & _ & Hh & _) & _). unfold tx_check_max_count.
  assert (Ee : e = pt_set_ctl (pt_ctl e) e) by by destruct e.
  destruct (Z.leb_spec (max_hard (tc_max_count (pt_cfg e))) (next e)).
  - destruct (negb _); [eexists false, _, _|exists false, (pt_ctl e), []]; [split; [reflexivity|]|rewrite <- Ee; split; [done|]]; by split_and!.
  - destruct (_ && _); [eexists true, _, _|exists true, (pt_ctl e), []]; [split; [reflexivity|]|rewrite <- Ee; split; [done|]]; split_and!; try done; lia.
Qed.

Lemma tx_drop_room buf e : tx_check_early_drop buf e = no_drop -> u32 (next e - ack e) < pb_window_size (pt_base e) - 1.
Proof.
  unfold tx_check_early_drop. destruct (_ =? 0); [done|]. destruct (_ <? _); [done|]. destruct (Z.leb_spec (pb_window_size (pt_base e) - 1) (u32 (next e - ack e))); done.
Qed.

Lemma tx_handle_sdu_spec S v now buf e M l :
  tx_core S e M -> (tk_stopped (pt_ctl e) = false -> tx_full e M) -> tx_buffered (pt_ctl e) l ->
  g_room v = true -> (forall (r : R) buf, (compress r buf).1 <> []) -> (tc_header_compression (pt_cfg e) = false -> pt_rohc e = None) ->
  tx_srb_room e 1 ->
  exists e' ev M' S' l', tx_handle_sdu v now buf e = Some (e', ev) /\ tx_core S' e' M' /\ (if tk_stopped (pt_ctl e) then M' = M else tx_full e' M') /\
    tx_took S e S' e' ev /\ tx_buffered (pt_ctl e') l' /\ tk_buffering (pt_ctl e') = tk_buffering (pt_ctl e) /\ next e' <= next e + 1 /\
    (if tk_buffering (pt_ctl e) then S' = S /\ (l' = l \/ l' = l ++ [buf]) else l' = l /\ (S' = S \/ S' = S ++ [buf])).
Proof.
  intros Hc Hfl Hbuf Hg Hcomp Hr Hsrb. unfold tx_handle_sdu. set (ev0 := [TxAddSdus 1 _]).
  assert (Hno : forall c ev, tx_silent ev -> tk_stopped c = tk_stopped (pt_ctl e) -> tk_buffering c = tk_buffering (pt_ctl e) ->
    tx_took S e S (pt_set_ctl c e) ev) by (intros; by apply tx_took_silent).
  destruct (tk_stopped (pt_ctl e)) eqn:Estop.
  { eexists e, _, M, S, l. split; [reflexivity|]. split; [done|]. split; [done|]. split; [by apply tx_took_silent|]. split; [done|]. split; [done|]. split; [lia|].
    destruct (tk_buffering _); auto. }
  specialize (Hfl eq_refl).
  set (r1 := if _ && _ then (pt_set_suspended true true e, [TxResumeRequired]) else (e, [])).
  assert (H1' : exists c ev1, r1 = (pt_set_ctl c e, ev1) /\ tx_silent ev1 /\ tk_stopped c = false /\ tk_buffering c = tk_buffering (pt_ctl e) /\
    tk_sdu_buffer c = tk_sdu_buffer (pt_ctl e)).
  { unfold r1. destruct (_ && _); [eexists _, _; split; [reflexivity|]; by split_and!|]. exists (pt_ctl e), []. by destruct e. }
  destruct H1' as (c1 & ev1 & -> & Hq1 & Es1 & Eb1 & El1). set (e1 := pt_set_ctl c1 e). change (pt_ctl e1) with c1.
  assert (Hl1 : tx_buffered c1 l) by (unfold tx_buffered; by rewrite El1).
  rewrite Eb1. destruct (tk_buffering (pt_ctl e)) eqn:Ebuf.
  { destruct Hl1 as [Hrep Hmax]. destruct (rb_try_push_spec buf _ l Hrep) as (q & -> & Hq & Hqm). cbn [mbind option_bind].
    eexists _, _, M, S, _. split; [reflexivity|]. do 2 (split; [done|]). split; [apply tx_took_silent; try done; [cbn; congruence|]|].
    { destruct (_ <? _); auto 6 with pdcp. }
    split; [split; [exact Hq|exact (eq_trans Hqm Hmax)]|]. split; [exact Eb1|]. split; [cbn; lia|]. split; [done|]. destruct (_ <? _); auto. }
  change (pt_base e1) with (pt_base e).
  assert (Hdrop : forall c ev, tx_silent ev -> tk_stopped c = false -> tk_buffering c = false -> tk_sdu_buffer c = tk_sdu_buffer (pt_ctl e) ->
    exists e' ev' M' S' l', Some (pt_set_ctl c e, ev) = Some (e', ev') /\ tx_core S' e' M' /\ tx_full e' M' /\
    tx_took S e S' e' ev' /\ tx_buffered (pt_ctl e') l' /\ tk_buffering (pt_ctl e') = false /\ next e' <= next e + 1 /\
    l' = l /\ (S' = S \/ S' = S ++ [buf])).
  { intros c ev Hq Es Eb El. eexists _, _, M, S, l. split; [reflexivity|]. do 2 (split; [done|]). split; [apply Hno; try done; congruence|].
    split; [unfold tx_buffered; cbn; by rewrite El|]. split; [done|]. split; [cbn; lia|]. auto. }
  destruct (negb (is_srb (pt_base e)) && negb (bool_decide (tx_check_early_drop buf e1 = no_drop))) eqn:Edrop.
  { apply Hdrop; auto 6 with pdcp. }
  destruct (tx_check_max_spec S e1 M) as (go & c2 & ev2 & -> & Hq2 & Es2 & Eb2 & El2 & Hmax); [done|].
  change (pt_set_ctl c2 e1) with (pt_set_ctl c2 e). cbn in Es2, Eb2, El2. destruct go; cbn [negb].
  2: { apply Hdrop; [auto 6 with pdcp|congruence..]. }
  specialize (Hmax eq_refl). set (e2 := pt_set_ctl c2 e).
  assert (Hroom : next e - ack e < half (pt_base e)).
  { apply andb_false_iff in Edrop as [Es|Ed]; [apply negb_false_iff in Es; specialize (Hsrb Es); lia|].
    apply negb_false_iff, bool_decide_eq_true in Ed. apply tx_drop_room in Ed. cbn in Ed.
    pose proof Hc as ((Hb & _) & _ & _ & _ & _ & _ & Hst & Hn & _). destruct (pdcp_base_fields _ Hb) as (Ew & _).
    change (pt_base e1) with (tc_base (pt_cfg e)) in Ed. rewrite Ew, u32_eq in Ed. unfold pt_base. lia. }
  destruct (tx_transmit_spec S v now buf e2 M) as (e3 & ev3 & M3 & S3 & -> & Hc3 & Hfl3 & Ht3 & Ectl & HS3 & Hn3); [done..|].
  cbn [mbind option_bind]. eexists e3, _, M3, S3, l. split; [reflexivity|]. split; [done|]. split; [by apply Hfl3|].
  split; [|rewrite Ectl; split; [unfold tx_buffered; cbn; by rewrite El2, El1|split; [cbn; congruence|done]]].
  replace (ev0 ++ ev1 ++ ev2 ++ ev3) with ((ev0 ++ ev1 ++ ev2) ++ ev3) by (by rewrite <- !app_assoc).
  apply (tx_took_trans S e S e2); [|exact Ht3]. apply Hno; [auto with pdcp|congruence..].
Qed.

Lemma tx_flush_spec fuel v now : forall S e M l,
  tx_core S e M -> (tk_stopped (pt_ctl e) = false -> tx_full e M) -> tx_buffered (pt_ctl e) l -> tk_buffering (pt_ctl e) = false ->
  (forall n, g_room (v n) = true) -> (forall (r : R) buf, (compress r buf).1 <> []) -> (tc_header_compression (pt_cfg e) = false -> pt_rohc e = None) ->
  tx_srb_room e (Z.of_nat (length l)) -> (length l <= fuel)%nat ->
  exists e' ev M' S', tx_flush_loop fuel v now e = Some (e', ev) /\ tx_core S' e' M' /\ (if tk_stopped (pt_ctl e) then M' = M else tx_full e' M') /\
    tx_took S e S' e' ev /\ tx_buffered (pt_ctl e') [] /\ tk_buffering (pt_ctl e') = false /\ exists taken, S' = S ++ taken /\ taken `sublist_of` l.
Proof.
  induction fuel as [|fuel IH]; intros S e M l Hc Hfl Hbuf Eb Hg Hcomp Hr Hsrb Hlen; cbn [tx_flush_loop]; pose proof Hbuf as [Hrep Hmax].
  all: rewrite (rb_repr_empty _ _ Hrep); destruct l as [|buf l]; [cbn|try (cbn in Hlen; lia)].
  1,2: exists e, [], M, S; do 2 (split; [done|]); split; [destruct (tk_stopped _); [done|by apply Hfl]|]; split; [by apply tx_took_silent|]; do 2 (split; [done|]); exists []; by rewrite app_nil_r.
  rewrite (rb_top_spec _ _ Hrep). cbn [head mbind option_bind bool_decide].
  destruct (rb_pop_spec _ _ _ Hrep) as (q & -> & Hq & Hqm). cbn [mbind option_bind].
  destruct (tx_handle_sdu_spec S (v (rb_size q)) now buf (pt_set_sdu_buffer q e) M l) as (e1 & ev1 & M1 & S1 & l1 & -> & Hc1 & Hfl1 & Ht1 & Hb1 & Eb1 & Hn1 & Hcase);
    try done; [split; [done|exact (eq_trans Hqm Hmax)]|intros Hs; specialize (Hsrb Hs); change (next e - ack e + 1 <= half (pt_base e)); cbn [length] in Hsrb; lia|].
  change (tk_buffering (pt_ctl (pt_set_sdu_buffer q e))) with (tk_buffering (pt_ctl e)) in Eb1, Hcase.
  change (tk_stopped (pt_ctl (pt_set_sdu_buffer q e))) with (tk_stopped (pt_ctl e)) in Hfl1. change (next (pt_set_sdu_buffer q e)) with (next e) in Hn1.
  rewrite Eb in Hcase. destruct Hcase as [-> HS1]. cbn [mbind option_bind].
  pose proof Ht1 as (Ec1 & _ & Hr1 & _ & Es1 & Ea1 & _). cbn in Ec1, Hr1, Es1, Ea1.
  destruct (IH S1 e1 M1 l) as (e2 & ev2 & M2 & S2 & -> & Hc2 & Hfl2 & Ht2 & Hb2 & Eb2 & taken & -> & Hsub); try done.
  - rewrite Es1. intros Hk. by rewrite Hk in Hfl1.
  - by rewrite Eb1.
  - rewrite Ec1. auto.
  - unfold tx_srb_room, pt_base. rewrite Ec1, Ea1. intros Hs. specialize (Hsrb Hs). unfold pt_base in Hsrb. cbn [length] in Hsrb. lia.
  - cbn in Hlen. lia.
  - eexists e2, _, M2, _. split; [reflexivity|]. split; [done|]. split; [rewrite Es1 in Hfl2; destruct (tk_stopped (pt_ctl e)); [congruence|done]|].
    split; [exact (tx_took_trans _ _ _ _ _ _ _ _ Ht1 Ht2)|]. do 2 (split; [done|]). destruct HS1 as [->| ->].
    + exists taken. split; [done|by apply sublist_cons].
    + exists (buf :: taken). rewrite <- app_assoc. split; [done|by apply sublist_skip].
Qed.

Lemma tx_end_buffering_spec S v now e M l :
  tx_core S e M -> (tk_stopped (pt_ctl e) = false -> tx_full e M) -> tx_buffered (pt_ctl e) l ->
  (forall n, g_room (v n) = true) -> (forall (r : R) buf, (compress r buf).1 <> []) -> (tc_header_compression (pt_cfg e) = false -> pt_rohc e = None) ->
  tx_srb_room e (Z.of_nat (length l)) ->
  exists e' ev M' S', tx_end_buffering v now e = Some (e', ev) /\ tx_core S' e' M' /\ (if tk_stopped (pt_ctl e) then M' = M else tx_full e' M') /\
    tx_took S e S' e' ev /\ tx_buffered (pt_ctl e') [] /\ tk_buffering (pt_ctl e') = false /\ exists taken, S' = S ++ taken /\ taken `sublist_of` l.
Proof.
  intros Hc Hfl Hbuf Hg Hcomp Hr Hsrb. unfold tx_end_buffering. set (e0 := pt_set_buffering false e).
  apply (tx_flush_spec _ v now S e0 M l); try done.
  change (tk_sdu_buffer (pt_ctl e0)) with (tk_sdu_buffer (pt_ctl e)). pose proof (rb_repr_size _ _ (proj1 Hbuf)) as [-> _]. lia.
Qed.

(** ** Retransmission *)

(** PDUs are handed to the crypto executor again; nothing else happens but header compression. *)
Definition tx_offers S e e' (ev : list pdcp_tx_event) : Prop :=
  (exists r, e' = pt_set_rohc r e /\ (pt_rohc e = None -> r = None)) /\
  tx_pdus ev = [] /\ tx_dl_tasks ev = [] /\ Forall (info_ok (pt_cfg e) S) (tx_crypto_tasks ev).

Lemma tx_offers_silent S e ev r : (pt_rohc e = None -> r = None) -> tx_silent ev -> tx_offers S e (pt_set_rohc r e) ev.
Proof. intros Hr (Hq & Ht & Hd). split; [by exists r|]. by rewrite Ht. Qed.
Lemma tx_offers_refl S e : tx_offers S e e [].
Proof. replace e with (pt_set_rohc (pt_rohc e) e) at 2 by (by destruct e). by apply tx_offers_silent. Qed.

Lemma tx_retransmit_loop_spec S v : forall fuel e M count,
  tx_core S e M -> is_am (pt_base e) = true -> tc_discard_timer (pt_cfg e) <> None ->
  (tc_header_compression (pt_cfg e) = false -> pt_rohc e = None) -> 0 <= count -> (Z.to_nat (next e - count) <= fuel)%nat ->
  exists e' ev, tx_retransmit_loop fuel v count e = Some (e', ev) /\ tx_offers S e e' ev.
Proof.
  induction fuel as [|fuel IH]; intros e M count Hc Ham Hd Hr H0' Hf; cbn [tx_retransmit_loop].
  all: destruct (Z.ltb_spec count (next e)) as [Hlt|]; [try lia|exists e, []; split; [done|apply tx_offers_refl]].
  pose proof Hc as (Hcfg & Hw & _ & _ & _ & _ & Hst & Hn & _ & _ & _ & HM).
  assert (Eu : u32 (count + 1) = count + 1) by (rewrite u32_eq; lia). rewrite Eu.
  unfold xw_has_sn, xw_get. rewrite (holds_has _ M), (holds_get _ M) by done. case_bool_decide as Hhas.
  2: { apply (IH e M); (done || lia). }
  destruct Hhas as [x Hx]. rewrite Hx. cbn [mbind option_bind].
  assert (Ee : pt_set_rohc (pt_rohc e) e = e) by (by destruct e).
  destruct (g_copy (v count)); cbn [negb]; [|exists e, [TxAddLostSdus 1; TxProtocolFailure]; split; [done|rewrite <- Ee at 2; by apply tx_offers_silent]].
  destruct (tx_make_pdu_spec (v count) count (wi_sdu (we_sdu_info x)) e Hcfg) as (o & r & ev & -> & Hrn & Hq & Ho); [lia|].
  cbn [mbind option_bind]. destruct o as [pdu|]; [|eexists _, _; split; [reflexivity|by apply tx_offers_silent]].
  destruct Ho as (-> & sdu & -> & Hsdu). cbn [app].
  destruct (IH (pt_set_rohc r e) M (count + 1)) as (e2 & ev2 & -> & (r2 & -> & Hr2) & Hq2 & Hd2 & Hi2); try done; [auto|lia|cbn; lia|].
  eexists _, _. split; [reflexivity|].
  destruct (tx_exec_silent (v count) (TxBufferInfo true (pt_retransmit_id (pt_set_rohc r e)) count
    (pdcp_header_octets (pb_sn_size (pt_base e)) (is_srb (pt_base e)) (SN (pt_base e) count) ++ sdu))) as (Hq1 & Hd1 & Ht1).
  split; [exists r2; split; [done|intros Hrr; by apply Hr2, Hrn]|]. unfold tx_pdus, tx_dl_tasks, tx_crypto_tasks in *.
  rewrite !omap_app, Hq1, Hd1, Hq2, Hd2. split; [done|]. split; [done|]. apply Forall_app. split; [|done].
  destruct Ht1 as [->| ->]; repeat constructor; [done|]. exists sdu. split; [done|]. intros Hh. rewrite Hsdu by auto.
  by apply (HM count x).
Qed.

Lemma tx_core_trans S e M n : tx_core S e M -> ack e <= n <= next e -> tx_core S (pt_set_trans n e) M.
Proof.
  intros (Hcfg & Hw & Hct & Hcap & Hrb & Hsn & Hst & Hn & Hl & HS & Hdt & HM) Hn'. unfold PdcpTxFacts.tx_core.
  split_and!; try done; try apply Hct; cbn; lia.
Qed.

(** Retransmission rewinds TX_TRANS and TX_TRANS_CRYPTO, and outdates the PDUs in flight. *)
Lemma tx_retransmit_spec S v e M :
  tx_core S e M -> (tc_header_compression (pt_cfg e) = false -> pt_rohc e = None) ->
  exists e1 e' ev, tx_retransmit_all_pdus v e = Some (e', ev) /\ tx_offers S e1 e' ev /\ tx_core S e1 M /\
    pt_cfg e1 = pt_cfg e /\ pt_sec e1 = pt_sec e /\ pt_rohc e1 = pt_rohc e /\ pt_ctl e1 = pt_ctl e /\ next e1 = next e /\ ack e1 = ack e /\
    pt_discard_timer e1 = pt_discard_timer e.
Proof.
  intros Hc Hr. unfold tx_retransmit_all_pdus.
  destruct (tc_discard_timer (pt_cfg e)) as [d|] eqn:Ed; [|exists e, e, []; split; [done|split; [apply tx_offers_refl|done]]].
  destruct (is_am (pt_base e)) eqn:Ea; cbn [negb]; [|exists e, e, []; split; [done|split; [apply tx_offers_refl|done]]].
  set (e1 := pt_set_retransmit_id _ _). pose proof Hc as (_ & _ & _ & _ & _ & _ & Hst & _).
  assert (Hc1 : tx_core S e1 M).
  { change (tx_core S (pt_set_trans_crypto (ack e) (pt_set_trans (ack e) e)) M). apply tx_core_tc; [|cbn; lia]. apply tx_core_trans; [done|lia]. }
  destruct (tx_retransmit_loop_spec S v (Z.to_nat (next e - ack e)) e1 M (ack e) Hc1) as (e2 & ev & E2 & Ho); try done.
  - change (pt_cfg e1) with (pt_cfg e). congruence.
  - lia.
  - change (next e1) with (next e). rewrite E2. exists e1, e2, ev. by split_and!.
Qed.

(** ** Life cycle *)

(** The window is emptied, and the counters start again or stay. *)
Lemma tx_core_clear S e M : tx_core S e M -> tx_core S (pt_set_window (xw_clear (pt_window e)) e) ∅.
Proof.
  intros (Hcfg & Hw & Hct & Hcap & Hrb & Hsn & Hst & Hn & Hl & HS & Hdt & HM).
  destruct (xw_clear_spec (pt_window e) M Hw) as (Hw' & (E1 & E2 & E3) & Hct'). unfold PdcpTxFacts.tx_core.
  cbn [pt_window pt_set_window]. rewrite E1, E2, E3. split_and!; try done; try apply Hct'; cbn; lia.
Qed.

Lemma tx_reset_spec S e M : tx_core S e M -> tx_core [] (tx_reset e) ∅ /\ tx_full (tx_reset e) ∅.
Proof.
  intros Hc. pose proof (tx_core_clear S e M Hc) as (Hcfg & Hw & Hct & Hcap & Hrb & Hsn & Hst & Hn & Hl & HS & Hdt & HM).
  split; [|intros _ c Hk; cbn in Hk; lia]. unfold PdcpTxFacts.tx_core. change (pt_base (tx_reset e)) with (pt_base e).
  pose proof Hcfg as (Hb & _). destruct (pdcp_base_fields _ Hb) as (_ & _ & _ & _ & Hhalf). cbn [pt_cfg pt_set_window] in Hhalf.
  split_and!; try done; try apply Hct; try (cbn; lia).
  cbn; unfold pt_base; destruct Hhalf as [[-> _]|[-> _]]; lia.
Qed.

(** ** Security *)

(** What an engine protects *)
Definition engine_prot (b : pdcp_base) (o : option E) : Prop := forall room buf count,
  match o with
  | None => is_srb b = true -> prot count buf (buf ++ zero_mac)
  | Some eng =>
      let r := encrypt_and_protect_integrity room eng buf (pdcp_data_header_size (pb_sn_size b)) count in
      is_success r.1 = true -> prot count buf r.2
  end.

Definition tx_pool_ok e : Prop :=
  length (ts_pool (pt_sec e)) = Z.to_nat (tc_max_nof_crypto_workers (pt_cfg e)) /\ Forall (engine_prot (pt_base e)) (ts_pool (pt_sec e)).

Lemma tx_apply_security_spec S worker_idx room i e :
  tx_pool_ok e -> 0 <= worker_idx < tc_max_nof_crypto_workers (pt_cfg e) -> info_ok (pt_cfg e) S i ->
  exists t, tx_apply_security worker_idx room i e = Some [TxExecDl t] /\
    match t with TxReorder j => bi_count j = bi_count i /\ pdu_of (pt_cfg e) S (bi_count i) (bi_buf j) | _ => True end.
Proof.
  intros [Hlen Hall] Hwk [_ Hp]. unfold tx_apply_security, tx_apply_ciphering_and_integrity_protection.
  rewrite (proj2 (Z.leb_gt _ _)) by lia.
  destruct (lookup_lt_is_Some_2 (ts_pool (pt_sec e)) (Z.to_nat worker_idx)) as [o Ho]; [lia|]. rewrite Ho. cbn [mbind option_bind].
  rewrite Forall_lookup in Hall. specialize (Hall _ _ Ho room (bi_buf i) (bi_count i)). destruct o as [eng|].
  - cbn zeta in Hall. unfold engine_prot in Hall. destruct (encrypt_and_protect_integrity room eng (bi_buf i) _ (bi_count i)) as [st out]. cbn [mbind option_bind fst snd] in *.
    destruct (is_success st) eqn:Est; cbn [negb]; [|by eexists]. eexists. split; [reflexivity|]. split; [done|]. exists (bi_buf i). auto.
  - destruct (is_srb (pt_base e)) eqn:Es; [|by eexists]. destruct (negb room); [by eexists|]. eexists. split; [reflexivity|].
    split; [done|]. exists (bi_buf i). auto.
Qed.

Lemma tx_configure_spec (make_engine : engine_maker E) sec_cfg integ ciph e :
  (forall o, make_engine sec_cfg (tc_bearer_id (pt_cfg e)) (tc_direction (pt_cfg e)) integ ciph = Some o -> engine_prot (pt_base e) (Some o)) ->
  (integ = integrity_off \/ is_Some (sc_k_128_int sec_cfg) /\ is_Some (sc_integ_algo sec_cfg) ->
   is_Some (make_engine sec_cfg (tc_bearer_id (pt_cfg e)) (tc_direction (pt_cfg e)) integ ciph)) ->
  sc_domain sec_cfg = (if is_srb (pt_base e) then domain_rrc else domain_up) -> integ <> integrity_smc_transition ->
  (is_srb (pt_base e) = true -> integ <> integrity_off) -> tx_pool_ok e ->
  exists sec, tx_configure_security make_engine sec_cfg integ ciph e = Some (pt_set_sec sec e) /\ tx_pool_ok (pt_set_sec sec e).
Proof.
  intros Hprot Htot Hdom Hsmc Hsrb Hpool. unfold tx_configure_security. rewrite (bool_decide_true _ Hdom), (bool_decide_false (integ = _) Hsmc). cbn [negb].
  assert (bool_decide (integ = integrity_off) && is_srb (pt_base e) = false) as ->.
  { destruct (is_srb (pt_base e)); [|by rewrite andb_false_r]. by rewrite bool_decide_false by auto. }
  assert (Ee : e = pt_set_sec (pt_sec e) e) by by destruct e.
  case_bool_decide as Hoff; cbn [negb andb].
  2: { case_bool_decide as Hk; cbn [negb]; [|by exists (pt_sec e); rewrite <- Ee].
       case_bool_decide as Ha; cbn [negb]; [|by exists (pt_sec e); rewrite <- Ee].
       destruct Htot as [eng Heng]; [by right|]. rewrite Heng. eexists. split; [reflexivity|]. split; [cbn; by rewrite length_replicate|].
       apply Forall_replicate. by apply Hprot. }
  destruct Htot as [eng Heng]; [by left|]. rewrite Heng. eexists. split; [reflexivity|]. split; [cbn; by rewrite length_replicate|].
  apply Forall_replicate. by apply Hprot.
Qed.
End ops.
