(* ===== verification/PdcpTxStatus.v ===== *)
(** * The PDCP transmitter: status reports of the peer

    A status report acknowledges all SDUs below its FMC, and those whose bit in the bitmap is set. *)
From S2P Require Import Prelude SduWindow CircularMap RingBuffer BitCodec PdcpSn SecurityEngine PdcpBase PdcpTxWindow PdcpTx PdcpTxFacts.

(** The COUNTs that the rest of the bitmap acknowledges; [fmc] is the COUNT before the first of them. *)
Definition acked_by (d : bit_decoder) (fmc k : Z) : Prop :=
  exists j, 0 <= j < dec_bits d /\ Z.testbit (dec_val d) (dec_bits d - 1 - j) = true /\ k = u32 (fmc + 1 + j).

Lemma dec_empty d : dec_ok d -> dec_bits d < 1 -> dec_rest d = [] /\ dec_bits d = 0.
Proof.
  intros (_ & Ho & Hne) Hb. unfold dec_bits in *. destruct (dec_rest d) as [|b rest]; cbn [length] in *; [|lia].
  split; [done|]. destruct (decide (dec_offset d = 0)) as [->|]; [done|]. by destruct Hne.
Qed.

(** One bit *)
Lemma unpack_bit d :
  dec_ok d ->
  if decide (1 <= dec_bits d) then exists d', bit_unpack 32 1 d = Some (true, Z.b2z (Z.testbit (dec_val d) (dec_bits d - 1)), d') /\
    dec_ok d' /\ dec_bits d' = dec_bits d - 1 /\ (forall i, 0 <= i < dec_bits d - 1 -> Z.testbit (dec_val d') i = Z.testbit (dec_val d) i)
  else exists d', bit_unpack 32 1 d = Some (false, 0, d').
Proof.
  intros Hd. destruct (decide _) as [Hb|Hb].
  - destruct (bit_unpack_spec 32 1 d Hd) as (d' & -> & Hd' & Hb' & Hv'); [lia..|]. exists d'. split; [|split_and!; try done].
    + do 3 f_equal. assert (Hr : 0 <= dec_val d < 2 * 2 ^ (dec_bits d - 1)).
      { rewrite <- Z.pow_succ_r by lia. replace (Z.succ (dec_bits d - 1)) with (dec_bits d) by lia. unfold dec_val. apply Z.mod_pos_bound. apply Z.pow_pos_nonneg; lia. }
      rewrite Z.testbit_spec' by lia. pose proof (Z.pow_pos_nonneg 2 (dec_bits d - 1)). set (p := 2 ^ (dec_bits d - 1)) in *.
      rewrite (Z.mod_small (dec_val d / p)); [done|]. split; [apply Z.div_pos; lia|apply Z.div_lt_upper_bound; lia].
    + intros i Hi. rewrite Hv'. apply Z.mod_pow2_bits_low; lia.
  - destruct (dec_empty d Hd) as [Er _]; [lia|]. exists d. destruct d as [rest o]. cbn in Er. by subst.
Qed.

(** *** The header of a control PDU *)
Lemma control_header_octet cpt b rest :
  is_byte b ->
  tx_control_header cpt (b :: rest) =
  Some (if (b / 128 =? 0) && (b / 16 mod 8 =? cpt_to_number cpt) && (b mod 16 =? 0) then Some (Dec rest 0) else None).
Proof.
  intros Hb. unfold is_byte in Hb. unfold tx_control_header, tx_unpack.
  assert (E1 : bit_unpack 32 1 (bit_decoder_new (b :: rest)) = Some (true, b / 128, Dec (b :: rest) 1)).
  { transitivity (Some (true, uint 32 (u64 (0 + Z.shiftr (Z.land b 128) 7)), Dec (b :: rest) 1)); [reflexivity|]. do 3 f_equal. unpack_arith; lia. }
  assert (E2 : bit_unpack 32 3 (Dec (b :: rest) 1) = Some (true, b / 16 mod 8, Dec (b :: rest) 4)).
  { transitivity (Some (true, uint 32 (u64 (0 + Z.shiftr (Z.land b 112) 4)), Dec (b :: rest) 4)); [reflexivity|]. do 3 f_equal. unpack_arith; lia. }
  assert (E3 : bit_unpack 32 4 (Dec (b :: rest) 4) = Some (true, b mod 16, Dec rest 0)).
  { transitivity (Some (true, uint 32 (u64 (0 + u64 (Z.shiftl (Z.land b 15) 0))), Dec rest 0)); [reflexivity|]. do 3 f_equal. unpack_arith; lia. }
  rewrite E1. cbn [mbind option_bind]. change (pdcp_dc_to_number dc_control) with 0. destruct (b / 128 =? 0); cbn [negb andb]; [|done].
  rewrite E2. cbn [mbind option_bind]. destruct (_ =? cpt_to_number cpt); cbn [negb andb]; [|done].
  rewrite E3. cbn [mbind option_bind]. by destruct (b mod 16 =? 0).
Qed.

Lemma unpack_count b1 b2 b3 b4 bm :
  bytes_ok (b1 :: b2 :: b3 :: b4 :: bm) -> tx_unpack 32 (Dec (b1 :: b2 :: b3 :: b4 :: bm) 0) = Some (be_val [b1; b2; b3; b4], Dec bm 0).
Proof.
  intros Hb. pose proof Hb as Hb0. set (d := Dec _ 0).
  assert (Hd : dec_ok d) by (split; [done|split; [cbn; lia|done]]).
  assert (Ebits : dec_bits d - 32 = 8 * Z.of_nat (length bm)) by (unfold dec_bits, d; cbn [dec_rest dec_offset length]; lia).
  destruct (bit_unpack_spec 32 32 d Hd) as (d' & E & _); [lia..|].
  assert (Ed' : exists v, bit_unpack 32 32 d = Some (true, v, Dec bm 0)) by (eexists; reflexivity).
  destruct Ed' as [v Ev]. unfold tx_unpack. rewrite Ev. cbn [mbind option_bind]. rewrite E in Ev. injection Ev as <- ->. do 2 f_equal.
  rewrite Ebits. change (b1 :: b2 :: b3 :: b4 :: bm) with ([b1; b2; b3; b4] ++ bm) in Hb. apply Forall_app in Hb as [Hb4 Hbm].
  pose proof (be_val_range _ Hbm) as Hr. unfold dec_val. subst d. cbn [dec_rest].
  assert (Ev : be_val (b1 :: b2 :: b3 :: b4 :: bm) = be_val [b1; b2; b3; b4] * 2 ^ (8 * Z.of_nat (length bm)) + be_val bm).
  { unfold be_val at 1. change (b1 :: b2 :: b3 :: b4 :: bm) with ([b1; b2; b3; b4] ++ bm). rewrite foldl_app. by rewrite foldl_be. }
  assert (Hlt : 0 <= be_val (b1 :: b2 :: b3 :: b4 :: bm) < 2 ^ dec_bits (Dec (b1 :: b2 :: b3 :: b4 :: bm) 0)).
  { unfold dec_bits. cbn [dec_rest dec_offset]. rewrite Z.sub_0_r. by apply be_val_range. }
  rewrite Z.mod_small by exact Hlt. rewrite Ev, Z.div_add_l, Z.div_small, Z.add_0_r by lia. done.
Qed.

(** What [tx_check_status_report] lets pass: FMC up to TX_NEXT, a bitmap that is not longer than needed for the COUNTs up to
    TX_NEXT, and a last octet without bits from position [(TX_NEXT - FMC - 1) mod 8] on. *)
Definition status_acceptable (next fmc : Z) (bm : list Z) : bool :=
  (fmc <=? next) && (Z.of_nat (length bm) <=? u32 (next - fmc + 6) / 8) &&
  (bool_decide (bm = []) || (u8 (List.last bm 0 * 2 ^ ((next - fmc - 1) mod 8)) =? 0)).

Section status.
Context {E R W : Type} `{SecurityEngineTx E, RohcCompressor R}.
Context `{SduWindowLaws pdcp_tx_window_element W pdcp_tx_window_element_init}
  `{!SduWindowClear pdcp_tx_window_element W} `{!SduWindowClearLaws pdcp_tx_window_element W}.
Context (prot : Z -> list Z -> list Z -> Prop).
Notation entity := (pdcp_entity_tx E R W).
Notation tx_map := (gmap Z pdcp_tx_window_element).
Notation tx_core := (tx_core prot).
Notation tx_drops := (tx_drops prot).
Implicit Types (e : entity) (M : tx_map) (S : list (list Z)) (cfg : pdcp_tx_config).
Notation next e := (tx_next (pt_st e)).
Notation ack e := (tx_next_ack (pt_st e)).

(** What remains of the window *)
Definition tx_remain cfg M M' (gone : Z -> Prop) : Prop :=
  tc_discard_timer cfg <> None -> forall k x, M' !! k = Some x <-> M !! k = Some x /\ ~ gone k.

Lemma tx_forget_remain cfg M c : tx_remain cfg M (tx_forget cfg c M) (fun k => k = c).
Proof.
  intros Hd k x. unfold tx_forget. destruct (tc_discard_timer cfg); [|done]. rewrite lookup_delete_Some. split; intros [? ?]; split; auto.
Qed.

Lemma tx_remain_trans cfg M1 M2 M3 (g1 g2 g3 : Z -> Prop) :
  tx_remain cfg M1 M2 g1 -> tx_remain cfg M2 M3 g2 -> (forall k, is_Some (M1 !! k) -> g3 k <-> g1 k \/ g2 k) -> tx_remain cfg M1 M3 g3.
Proof.
  intros H1' H2' Hg Hd k x. rewrite (H2' Hd), (H1' Hd). split.
  - intros [[Hx Hn1] Hn2]. split; [done|]. rewrite Hg by (by eexists). tauto.
  - intros [Hx Hn]. rewrite Hg in Hn by (by eexists). tauto.
Qed.
Lemma tx_remain_refl cfg M (g : Z -> Prop) : (forall k, is_Some (M !! k) -> ~ g k) -> tx_remain cfg M M g.
Proof. intros Hg _ k x. split; [|tauto]. intros Hx. split; [done|]. apply Hg. by eexists. Qed.

(** *** The COUNTs below FMC *)
Lemma tx_fmc_loop_spec S fmc : forall fuel c e M,
  tx_core S e M -> (tc_discard_timer (pt_cfg e) <> None -> forall k, is_Some (M !! k) -> c <= k) ->
  0 <= c -> fmc < 2 ^ 32 -> (Z.to_nat (fmc - c) <= fuel)%nat ->
  exists e' ev M', tx_fmc_loop fuel c fmc e = Some (e', ev) /\ tx_drops S e M e' M' /\ (tx_full e M -> tx_full e' M') /\ tx_silent ev /\
    tx_remain (pt_cfg e) M M' (fun k => k < fmc).
Proof.
  induction fuel as [|fuel IH]; intros c e M Hc Hlo H0' Hfmc Hf; cbn [tx_fmc_loop].
  all: destruct (Z.ltb_spec c fmc) as [Hlt|]; [try lia|exists e, [], M; split; [done|]; split; [by apply tx_drops_refl|]; do 2 (split; [done|]);
    intros Hd; apply (tx_remain_refl (pt_cfg e) M); [|done]; intros k Hk; specialize (Hlo Hd k Hk); lia].
  destruct (tx_discard_spec prot S c e M Hc) as (e1 & ev1 & -> & Hk1 & Hfl1 & Hq1 & _).
  assert (Hfront : tx_full e M -> tx_finite (pt_cfg e) = true -> is_Some (M !! c) -> c <= ack e).
  { intros Hs Hfin Hx. destruct (decide (c <= ack e)) as [|Hlt']; [done|].
    destruct Hx as [x Hx]. destruct Hc as (_ & _ & _ & _ & _ & _ & _ & _ & _ & _ & _ & HM). destruct (HM _ _ Hx) as [? _].
    apply (Hlo (tx_finite_some _ Hfin)). apply (Hs Hfin). lia. }
  cbn [mbind option_bind]. assert (Eu : u32 (c + 1) = c + 1) by (rewrite u32_eq; lia). rewrite Eu.
  pose proof Hk1 as ((Ec1 & _) & _ & _ & _ & _ & _ & Hsub & Hc1). pose proof (tx_forget_remain (pt_cfg e) M c) as Hr1.
  set (M1 := tx_forget _ _ _) in *.
  destruct (IH (c + 1) e1 M1 Hc1) as (e2 & ev2 & M2 & -> & Hk2 & Hs2 & Hq2 & Hr2); [|lia..|].
  { rewrite Ec1. intros Hd k [x Hx]. apply (Hr1 Hd) in Hx as [Hx Hne]. specialize (Hlo Hd k (ex_intro _ x Hx)). lia. }
  eexists e2, _, M2. split; [reflexivity|]. split; [exact (tx_drops_trans _ _ _ _ _ _ _ _ Hk1 Hk2)|].
  split; [intros Hs; exact (Hs2 (Hfl1 (Hfront Hs) Hs))|]. split; [auto with pdcp|].
  rewrite Ec1 in Hr2. intros Hd. refine (tx_remain_trans _ _ _ _ _ _ _ Hr1 Hr2 _ Hd). intros k Hk. specialize (Hlo Hd k Hk). lia.
Qed.

(** *** The bitmap *)
Lemma acked_by_step d d' fmc k :
  0 <= fmc -> 1 <= dec_bits d -> dec_bits d' = dec_bits d - 1 -> (forall i, 0 <= i < dec_bits d - 1 -> Z.testbit (dec_val d') i = Z.testbit (dec_val d) i) ->
  acked_by d fmc k <-> (Z.testbit (dec_val d) (dec_bits d - 1) = true /\ k = u32 (fmc + 1)) \/ acked_by d' (u32 (fmc + 1)) k.
Proof.
  intros Hfmc Hb Eb Hbits. unfold acked_by. rewrite Eb. split.
  - intros (j & Hj & Ht & ->). destruct (decide (j = 0)) as [->|].
    + left. rewrite Z.sub_0_r in Ht. by rewrite Z.add_0_r.
    + right. exists (j - 1). split; [lia|]. rewrite Hbits by lia. replace (dec_bits d - 1 - 1 - (j - 1)) with (dec_bits d - 1 - j) by lia.
      split; [done|]. rewrite <- (u32_add_u32 (fmc + 1)). f_equal. lia.
  - intros [[Ht ->]|(j & Hj & Ht & ->)].
    + exists 0. rewrite Z.sub_0_r, Z.add_0_r. split_and!; (done || lia).
    + exists (j + 1). rewrite Hbits in Ht by lia. replace (dec_bits d - 1 - 1 - j) with (dec_bits d - 1 - (j + 1)) in Ht by lia.
      split; [lia|]. split; [done|]. rewrite <- (Z.add_assoc (u32 _)), u32_add_u32. f_equal. lia.
Qed.

Lemma tx_bitmap_loop_spec S : forall fuel fmc d e M,
  tx_core S e M -> dec_ok d -> dec_bits d <= Z.of_nat fuel -> 0 <= fmc ->
  exists e' ev M', tx_bitmap_loop fuel fmc d e = Some (e', ev) /\ tx_drops S e M e' M' /\
    ((tx_finite (pt_cfg e) = true -> dec_bits d = 0) -> tx_full e M -> tx_full e' M') /\ tx_silent ev /\
    tx_remain (pt_cfg e) M M' (acked_by d fmc).
Proof.
  induction fuel as [|fuel IH]; intros fmc d e M Hc Hd Hf H0'; cbn [tx_bitmap_loop]; pose proof (unpack_bit d Hd) as Hbit.
  all: destruct (decide (1 <= dec_bits d)) as [Hb|Hb]; [try lia|destruct Hbit as (d' & ->); cbn [mbind option_bind negb]; exists e, [], M;
    split; [done|]; split; [by apply tx_drops_refl|]; do 2 (split; [done|]); apply tx_remain_refl; intros k _ (j & Hj & _); lia].
  destruct Hbit as (d' & -> & Hd' & Eb & Hbits). cbn [mbind option_bind negb].
  pose proof (uint_range 32 (fmc + 1) ltac:(lia)) as Hu. change (uint 32 (fmc + 1)) with (u32 (fmc + 1)) in Hu.
  set (one := if _ =? 1 then _ else Some (e, [])).
  assert (Hone : exists e1 ev1 M1, one = Some (e1, ev1) /\ tx_drops S e M e1 M1 /\ (tx_finite (pt_cfg e) = false -> tx_full e1 M1) /\ tx_silent ev1 /\
    tx_remain (pt_cfg e) M M1 (fun k => Z.testbit (dec_val d) (dec_bits d - 1) = true /\ k = u32 (fmc + 1))).
  { unfold one. destruct (Z.testbit (dec_val d) (dec_bits d - 1)); cbn [Z.b2z Z.eqb Pos.eqb].
    - destruct (tx_discard_spec prot S (u32 (fmc + 1)) e M Hc) as (e1 & ev1 & -> & Hk1 & _ & Hq1 & _).
      eexists e1, ev1, _. split; [done|]. split; [done|]. split; [intros Hi Hi'; rewrite (proj1 (proj1 Hk1)) in Hi'; congruence|]. split; [done|]. intros Hdt k x. rewrite (tx_forget_remain (pt_cfg e) M (u32 (fmc + 1)) Hdt k x). tauto.
    - exists e, [], M. split; [done|]. split; [by apply tx_drops_refl|]. split; [intros Hi Hi'; congruence|]. split; [done|]. apply tx_remain_refl. by intros k _ [? _]. }
  destruct Hone as (e1 & ev1 & M1 & -> & Hk1 & Hfl1 & Hq1 & Hr1). cbn [mbind option_bind].
  pose proof Hk1 as ((Ec1 & _) & _ & _ & _ & _ & _ & Hsub & Hc1).
  destruct (IH (u32 (fmc + 1)) d' e1 M1 Hc1) as (e2 & ev2 & M2 & -> & Hk2 & Hs2 & Hq2 & Hr2); [done|lia..|]. rewrite Ec1 in Hs2, Hr2.
  eexists e2, _, M2. split; [reflexivity|]. split; [exact (tx_drops_trans _ _ _ _ _ _ _ _ Hk1 Hk2)|]. split; [|split; [auto with pdcp|]].
  - intros Hfin _. destruct (tx_finite (pt_cfg e)) eqn:Ef; [specialize (Hfin eq_refl); lia|]. apply Hs2; [done|]. auto.
  - apply (tx_remain_trans _ _ _ _ _ _ _ Hr1 Hr2). intros k _. by apply acked_by_step.
Qed.

(** *** [handle_status_report] *)
Lemma last_cons_app {A} (l m : list A) (d : A) : m <> [] -> List.last (l ++ m) d = List.last m d.
Proof. intros Hm. induction l as [|x l IH]; [done|]. rewrite <- IH. cbn. destruct (l ++ m) eqn:El; [|done]. by apply app_eq_nil in El as [_ ?]. Qed.

Lemma tx_check_spec S e M hdr fmc bm :
  tx_core S e M -> length hdr = 5%nat -> 0 <= fmc < 2 ^ 32 -> Z.of_nat (length bm) < 2 ^ 32 ->
  exists ev, tx_check_status_report (hdr ++ bm) fmc e = (status_acceptable (next e) fmc bm, ev) /\ tx_silent ev /\
    (status_acceptable (next e) fmc bm = true -> ev = []) /\ (status_acceptable (next e) fmc bm = false -> TxProtocolFailure ∈ ev).
Proof.
  intros (_ & _ & _ & _ & _ & _ & Hst & Hn & _) Hh Hf Hbm. unfold tx_check_status_report, status_acceptable. rewrite length_app, Hh.
  assert (El : u32 (Z.of_nat (5 + length bm) - 5) = Z.of_nat (length bm)) by (rewrite u32_eq; lia). rewrite El. cbn zeta.
  destruct (Z.ltb_spec (next e) fmc) as [Hlt|Hle].
  { rewrite (proj2 (Z.leb_gt _ _)) by lia. eexists. split; [reflexivity|]. split; [done|]. split; [done|]. intros _. by left. }
  rewrite (proj2 (Z.leb_le fmc _)) by lia. cbn [andb].
  assert (Hbl : (Z.of_nat (length bm) =? 0) = bool_decide (bm = [])).
  { destruct bm; [done|]. cbn [length]. rewrite bool_decide_false by done. by apply Z.eqb_neq. }
  rewrite Hbl.
  assert (Emax : u32 (u32 (u32 (next e - fmc) - 1) + 7) / 8 = u32 (next e - fmc + 6) / 8).
  { rewrite u32_sub_u32, u32_add_u32. do 2 f_equal. lia. }
  set (ev0 := if _ && _ then [TxProtocolFailure] else []).
  assert (Hq0 : tx_silent ev0) by (unfold ev0; by destruct (_ && _)).
  rewrite Emax. destruct (Z.ltb_spec (u32 (next e - fmc + 6) / 8) (Z.of_nat (length bm))) as [Hlong|Hshort].
  { rewrite (proj2 (Z.leb_gt _ _)) by lia. cbn [andb]. eexists. split; [reflexivity|]. split; [auto with pdcp|]. split; [done|]. intros _.
    apply elem_of_app. right. by left. }
  rewrite (proj2 (Z.leb_le _ _)) by lia. cbn [andb].
  case_bool_decide as Hnil; cbn [negb orb].
  { exists ev0. split; [done|]. split; [done|]. split; [|done]. intros _. unfold ev0. by rewrite andb_false_r. }
  assert (Hpos : fmc < next e).
  { destruct (decide (fmc = next e)) as [->|]; [|lia]. replace (next e - next e + 6) with 6 in Hshort by lia.
    destruct bm; [done|]. cbn [length] in Hshort. change (u32 6 / 8) with 0 in Hshort. lia. }
  assert (Edelta : u32 (u32 (next e - fmc) - 1) = next e - fmc - 1) by (rewrite u32_sub_u32, u32_eq; lia). rewrite Edelta.
  rewrite last_cons_app, Z.shiftl_mul_pow2 by (done || lia).
  destruct (u8 _ =? 0); cbn [negb].
  - exists ev0. split; [done|]. split; [done|]. split; [|done]. intros _. unfold ev0. by rewrite (proj2 (Z.eqb_neq _ _)) by lia.
  - eexists. split; [reflexivity|]. split; [auto with pdcp|]. split; [done|]. intros _. apply elem_of_app. right. by left.
Qed.

(** Reports that are too short for their header and FMC *)
Lemma tx_check_short S e M buf fmc :
  tx_core S e M -> (length buf < 5)%nat -> 0 <= fmc < 2 ^ 32 -> exists ev, tx_check_status_report buf fmc e = (false, ev) /\ tx_silent ev.
Proof.
  intros (_ & _ & _ & _ & _ & _ & Hst & Hn & _) Hl Hf. unfold tx_check_status_report.
  destruct (next e <? fmc); [by eexists|]. set (ev0 := if _ && _ then [TxProtocolFailure] else []).
  assert (Hq0 : tx_silent ev0) by (unfold ev0; by destruct (_ && _)).
  pose proof (uint_range 32 (u32 (u32 (next e - fmc) - 1) + 7) ltac:(lia)) as Hr. change (uint 32 (u32 (u32 (next e - fmc) - 1) + 7)) with (u32 (u32 (u32 (next e - fmc) - 1) + 7)) in Hr.
  rewrite (proj2 (Z.ltb_lt _ (u32 (Z.of_nat (length buf) - 5)))); [eexists; split; [reflexivity|auto with pdcp]|].
  rewrite (u32_eq (_ - 5)). lia.
Qed.

Lemma tx_unpack_short rest : (length rest < 4)%nat -> exists v d, tx_unpack 32 (Dec rest 0) = Some (v, d) /\ 0 <= v < 2 ^ 32.
Proof.
  intros Hl. unfold tx_unpack. destruct rest as [|b1 [|b2 [|b3 [|b4 rest]]]]; cbn [length] in Hl; try lia.
  all: eexists _, _; split; [reflexivity|apply uint_range; lia].
Qed.

(** What a report does that is read as FMC and bitmap *)
Lemma tx_status_spec S fmc bm e M :
  tx_core S e M -> bytes_ok bm -> 0 <= fmc < 2 ^ 32 ->
  exists e' ev M', ('(e1, ev1) ← tx_fmc_loop (Z.to_nat (fmc - ack e)) (ack e) fmc e;
      '(e2, ev2) ← tx_bitmap_loop (8 * (5 + length bm)) fmc (Dec bm 0) e1; Some (e2, ev1 ++ ev2)) = Some (e', ev) /\
    tx_drops S e M e' M' /\ ((tx_finite (pt_cfg e) = true -> bm = []) -> tx_full e M -> tx_full e' M') /\ tx_silent ev /\
    tx_remain (pt_cfg e) M M' (fun k => k < fmc \/ acked_by (Dec bm 0) fmc k).
Proof.
  intros Hc Hb Hf. pose proof Hc as (_ & _ & _ & _ & _ & _ & Hst & _ & _ & _ & _ & HM).
  destruct (tx_fmc_loop_spec S fmc (Z.to_nat (fmc - ack e)) (ack e) e M Hc) as (e1 & ev1 & M1 & -> & Hk1 & Hs1 & Hq1 & Hr1); [|lia..|].
  { intros _ k [x Hx]. by apply (HM k x). }
  cbn [mbind option_bind]. pose proof Hk1 as ((Ec1 & _) & _ & _ & _ & _ & _ & _ & Hc1).
  assert (Hd : dec_ok (Dec bm 0)) by (split; [done|split; [cbn; lia|done]]).
  destruct (tx_bitmap_loop_spec S (8 * (5 + length bm)) fmc (Dec bm 0) e1 M1 Hc1 Hd) as (e2 & ev2 & M2 & -> & Hk2 & Hs2 & Hq2 & Hr2);
    [unfold dec_bits; cbn [dec_rest dec_offset]; lia|lia|].
  rewrite Ec1 in Hs2, Hr2. cbn [mbind option_bind]. eexists e2, _, M2. split; [reflexivity|]. split; [exact (tx_drops_trans _ _ _ _ _ _ _ _ Hk1 Hk2)|].
  split; [|split; [auto with pdcp|]].
  - intros Hfin Hs. apply Hs2; [|by apply Hs1]. intros Hf'. by rewrite (Hfin Hf').
  - by apply (tx_remain_trans _ _ _ _ _ _ _ Hr1 Hr2).
Qed.

(** Every status report is handled. *)
Lemma tx_handle_status_spec S copy_ok buf e M :
  tx_core S e M -> bytes_ok buf ->
  exists e' ev M', tx_handle_status_report copy_ok buf e = Some (e', ev) /\ tx_drops S e M e' M' /\ tx_silent ev /\
    ((tx_finite (pt_cfg e) = true -> (length buf <= 5)%nat) -> tx_full e M -> tx_full e' M').
Proof.
  intros Hc Hb. unfold tx_handle_status_report.
  assert (Hno : forall ev, tx_silent ev -> exists e' ev' M', Some (e, ev) = Some (e', ev') /\ tx_drops S e M e' M' /\ tx_silent ev' /\
    ((tx_finite (pt_cfg e) = true -> (length buf <= 5)%nat) -> tx_full e M -> tx_full e' M')).
  { intros ev Hq. exists e, ev, M. split; [done|]. split; [by apply tx_drops_refl|done]. }
  destruct copy_ok; cbn [negb]; [|by apply Hno].
  destruct buf as [|b rest].
  { change (tx_control_header status_report []) with (Some (Some (Dec [] 0))). cbn [mbind option_bind].
    change (tx_unpack 32 (Dec [] 0)) with (Some (0, Dec [] 0)). cbn [mbind option_bind].
    destruct (tx_check_short S e M [] 0 Hc) as (ev & -> & Hq); [cbn; lia|lia|]. by apply Hno. }
  pose proof Hb as [Hb0 Hrest]%Forall_cons. rewrite control_header_octet by done. cbn [mbind option_bind].
  destruct (_ && _); [|by apply Hno]. destruct (decide (length rest < 4)%nat) as [Hl|Hl].
  - destruct (tx_unpack_short rest Hl) as (v & d & -> & Hv). cbn [mbind option_bind].
    destruct (tx_check_short S e M (b :: rest) v Hc) as (ev & -> & Hq); [cbn; lia|done|]. by apply Hno.
  - destruct rest as [|b1 [|b2 [|b3 [|b4 bm]]]]; cbn [length] in Hl; try lia.
    rewrite unpack_count by done. cbn [mbind option_bind].
    assert (Hb4 : bytes_ok [b1; b2; b3; b4] /\ bytes_ok bm) by by apply Forall_app. destruct Hb4 as [Hb4 Hbm].
    pose proof (be_val_range _ Hb4) as Hv. cbn [length] in Hv. change (2 ^ (8 * Z.of_nat 4)) with (2 ^ 32) in Hv. set (fmc := be_val [b1; b2; b3; b4]) in *.
    destruct (tx_check_status_report (b :: b1 :: b2 :: b3 :: b4 :: bm) fmc e) as [go ev0] eqn:Echeck.
    assert (Hq0 : tx_silent ev0).
    { unfold tx_check_status_report in Echeck. destruct (_ <? fmc); [by injection Echeck as <- <-|]. destruct (_ && _), (_ <? _); try destruct (negb (_ =? 0)) in Echeck; try destruct (negb (_ =? 0)) in Echeck; by injection Echeck as <- <-. }
    destruct go; cbn [negb]; [|by apply Hno].
    destruct (tx_status_spec S fmc bm e M Hc Hbm Hv) as (e' & ev & M' & E1 & Hk & Hs & Hq & _).
    destruct (tx_fmc_loop _ _ fmc e) as [[e1 ev1]|]; cbn [mbind option_bind] in E1 |- *; [|done].
    change (8 * length (b :: b1 :: b2 :: b3 :: b4 :: bm))%nat with (8 * (5 + length bm))%nat.
    destruct (tx_bitmap_loop _ fmc _ e1) as [[e2 ev2]|]; cbn [mbind option_bind] in E1 |- *; [|done]. injection E1 as <- <-.
    eexists e2, _, M'. split; [reflexivity|]. split; [done|]. split; [auto with pdcp|].
    intros Hfin. apply Hs. intros Hf'. specialize (Hfin Hf'). cbn [length] in Hfin. destruct bm; [done|cbn [length] in Hfin; lia].
Qed.
End status.
