(* ===== verification/PdcpTxSteps.v ===== *)
(** * The PDCP transmitter with its tasks: steps and invariant

    The entity together with the tasks it has handed to its executors. Tasks run in any order, and any of them may be dropped,
    so every schedule of the crypto workers is covered. [tx_step_spec] says that each input keeps the invariant, which SDUs get
    a COUNT, and which PDUs go to RLC. *)
From Stdlib Require Import Sorted.
From S2P Require Import Prelude SduWindow CircularMap RingBuffer BitCodec PdcpSn SecurityEngine PdcpBase PdcpTxWindow PdcpTx PdcpTxFacts PdcpTxOps PdcpTxStatus.

Section steps.
Context {E R W : Type} `{SecurityEngineTx E, RohcCompressor R}.
Context `{SduWindowLaws pdcp_tx_window_element W pdcp_tx_window_element_init}
  `{!SduWindowClear pdcp_tx_window_element W} `{!SduWindowClearLaws pdcp_tx_window_element W}.
Context (make_engine : engine_maker E) (prot : Z -> list Z -> list Z -> Prop).
Notation entity := (pdcp_entity_tx E R W).
Notation tx_map := (gmap Z pdcp_tx_window_element).
Notation tx_core := (tx_core prot).
Notation tx_drops := (tx_drops prot).
Notation tx_acks := (tx_acks prot).
Notation tx_sends := (tx_sends prot).
Notation pdu_of := (pdu_of prot).
Notation tx_pool_ok := (tx_pool_ok prot).
Implicit Types (e : entity) (M : tx_map) (S l : list (list Z)) (cfg : pdcp_tx_config).
Notation next e := (tx_next (pt_st e)).
Notation ack e := (tx_next_ack (pt_st e)).
Notation tc e := (tx_trans_crypto (pt_st e)).

(** ** The entity and its tasks *)
Record tx_system := TxSys { tm_entity : entity; tm_crypto : list pdcp_tx_buffer_info; tm_tasks : list pdcp_tx_task }.
Implicit Types s : tx_system.

Inductive tx_input :=
| TiSdu (v : tx_grant) (now : Z) (buf : list Z)
| TiCrypto (worker_idx : Z) (room : bool) (n : nat)
| TiDropCrypto (n : nat)
| TiTask (now : Z) (n : nat)
| TiDropTask (n : nat)
| TiCryptoExpiry (now : Z)
| TiDiscardExpiry (now : Z)
| TiTransmit (now sn : Z)
| TiDelivery (now sn : Z)
| TiRetransmit (now sn : Z)
| TiDeliveryRetx (now sn : Z)
| TiDesiredBufferSize (bs : Z)
| TiStatusReport (copy_ok : bool) (buf : list Z)
| TiRohcFeedback (copy_ok : bool) (buf : list Z)
| TiForwardFeedback (room : bool) (feedback : list Z)
| TiSendReport (report : list Z)
| TiBeginBuffering
| TiEndBuffering (v : Z -> tx_grant) (now : Z)
| TiSuspend
| TiResume
| TiReestablish (rohc : option R) (v : Z -> tx_grant) (sec_cfg : sec_128_as_config)
| TiConfigure (sec_cfg : sec_128_as_config) (integ : integrity_enabled) (ciph : ciphering_enabled)
| TiDataRecovery (report : list Z) (v : Z -> tx_grant)
| TiStop.

(** The entity after an operation, and the tasks it has handed over *)
Definition tm_after s (r : entity * list pdcp_tx_event) : tx_system * list pdcp_tx_event :=
  (TxSys r.1 (tm_crypto s ++ tx_crypto_tasks r.2) (tm_tasks s ++ tx_dl_tasks r.2), r.2).
Definition tm_quiet s e : tx_system * list pdcp_tx_event := tm_after s (e, []).

Definition tx_step s (i : tx_input) : option (tx_system * list pdcp_tx_event) :=
  let e := tm_entity s in
  match i with
  | TiSdu v now buf => tm_after s <$> tx_handle_sdu v now buf e
  | TiCrypto worker_idx room n =>
      match tm_crypto s !! n with
      | None => Some (s, [])
      | Some i => ev ← tx_apply_security worker_idx room i e; Some (tm_after (TxSys e (delete n (tm_crypto s)) (tm_tasks s)) (e, ev))
      end
  | TiDropCrypto n => Some (TxSys e (delete n (tm_crypto s)) (tm_tasks s), [])
  | TiTask now n =>
      match tm_tasks s !! n with
      | None => Some (s, [])
      | Some t => tm_after (TxSys e (tm_crypto s) (delete n (tm_tasks s))) <$> tx_run_task now t e
      end
  | TiDropTask n => Some (TxSys e (tm_crypto s) (delete n (tm_tasks s)), [])
  | TiCryptoExpiry now => if pt_crypto_timer e then tm_after s <$> tx_crypto_reordering_timeout now e else Some (s, [])
  | TiDiscardExpiry now => if pt_discard_timer e then tm_after s <$> tx_discard_callback now e else Some (s, [])
  | TiTransmit now sn => tm_quiet s <$> tx_handle_transmit_notification now sn e
  | TiDelivery now sn => tm_quiet s <$> tx_handle_delivery_notification now sn e
  | TiRetransmit now sn => tm_quiet s <$> tx_handle_retransmit_notification now sn e
  | TiDeliveryRetx now sn => tm_quiet s <$> tx_handle_delivery_retransmitted_notification now sn e
  | TiDesiredBufferSize bs => Some (tm_quiet s (tx_handle_desired_buffer_size_notification bs e))
  | TiStatusReport copy_ok buf => tm_after s <$> tx_handle_status_report copy_ok buf e
  | TiRohcFeedback copy_ok buf => tm_quiet s <$> tx_consume_rohc_feedback copy_ok buf e
  | TiForwardFeedback room feedback => Some (tm_after s (e, tx_forward_rohc_feedback room feedback))
  | TiSendReport report => Some (tm_after s (e, tx_send_status_report report e))
  | TiBeginBuffering => Some (tm_quiet s (tx_begin_buffering e))
  | TiEndBuffering v now => tm_after s <$> tx_end_buffering v now e
  | TiSuspend => Some (tm_quiet s (tx_suspend e).2)
  | TiResume => Some (tm_quiet s (tx_resume e).2)
  | TiReestablish rohc v sec_cfg => tm_after s <$> tx_reestablish make_engine rohc v sec_cfg e
  | TiConfigure sec_cfg integ ciph => tm_quiet s <$> tx_configure_security make_engine sec_cfg integ ciph e
  | TiDataRecovery report v => tm_after s <$> tx_data_recovery report v e
  | TiStop => Some (tm_quiet s (tx_stop e))
  end.

Fixpoint tx_run s (ins : list tx_input) : option (tx_system * list pdcp_tx_event) :=
  match ins with
  | [] => Some (s, [])
  | i :: ins => '(s1, ev1) ← tx_step s i; '(s2, ev2) ← tx_run s1 ins; Some (s2, ev1 ++ ev2)
  end.

(** The SDUs that an input hands over *)
Definition tx_given (i : tx_input) : list (list Z) := match i with TiSdu _ _ buf => [buf] | _ => [] end.

(** ** What the environment guarantees *)
Definition tx_sec_ok (b : pdcp_base) (sec_cfg : sec_128_as_config) (integ : integrity_enabled) : Prop :=
  sc_domain sec_cfg = (if is_srb b then domain_rrc else domain_up) /\ integ <> integrity_smc_transition /\
  (is_srb b = true -> integ <> integrity_off).

(** There is memory for headers; the workers have their indices; an SRB is not used beyond its window; a bearer with a finite
    discard timer gets no report with a bitmap; the entity is suspended and re-established only when its tasks have finished;
    its security configurations are of its kind. *)
Definition tx_allowed s (i : tx_input) : Prop :=
  let e := tm_entity s in let b := pt_base e in
  match i with
  | TiSdu v _ _ => g_room v = true /\ tx_srb_room e 1
  | TiCrypto worker_idx _ _ => 0 <= worker_idx < tc_max_nof_crypto_workers (pt_cfg e)
  | TiStatusReport _ buf => bytes_ok buf /\ (tx_finite (pt_cfg e) = true -> (length buf <= 5)%nat)
  | TiRohcFeedback _ buf => bytes_ok buf /\ buf <> []
  | TiEndBuffering v _ => (forall n, g_room (v n) = true) /\ tx_srb_room e (rb_size (tk_sdu_buffer (pt_ctl e)))
  | TiSuspend => tm_crypto s = [] /\ tm_tasks s = []
  | TiReestablish _ _ sec_cfg => tm_crypto s = [] /\ tm_tasks s = [] /\ tx_sec_ok b sec_cfg (ts_integrity (pt_sec e))
  | TiConfigure sec_cfg integ _ => tx_sec_ok b sec_cfg integ
  | TiDataRecovery _ _ => is_srb b = false /\ is_am b = true
  | _ => True
  end.

Fixpoint tx_allowed_run s (ins : list tx_input) : Prop :=
  match ins with
  | [] => True
  | i :: ins => tx_allowed s i /\ forall s' ev, tx_step s i = Some (s', ev) -> tx_allowed_run s' ins
  end.

(** What is used of the parts that are not modelled: an engine can be made for a complete configuration, and it protects as
    [prot] says; the compressor does not fail. *)
Definition maker_total : Prop := forall sec_cfg id dir integ ciph,
  integ = integrity_off \/ is_Some (sc_k_128_int sec_cfg) /\ is_Some (sc_integ_algo sec_cfg) -> is_Some (make_engine sec_cfg id dir integ ciph).
Definition maker_prot (b : pdcp_base) : Prop := forall sec_cfg id dir integ ciph eng,
  make_engine sec_cfg id dir integ ciph = Some eng -> engine_prot prot b (Some eng).

(** ** Invariant *)
Definition tx_live e M : Prop := if tk_stopped (pt_ctl e) then M = ∅ else tx_full e M.
Definition tx_task_ok cfg S (t : pdcp_tx_task) : Prop := match t with TxReorder i => pdu_of cfg S (bi_count i) (bi_buf i) | _ => True end.
Definition tx_rohc_ok e : Prop := tc_header_compression (pt_cfg e) = false -> pt_rohc e = None.

Definition tm_inv s S M l : Prop :=
  let e := tm_entity s in
  tx_pool_ok e /\ tx_rohc_ok e /\ tx_buffered (pt_ctl e) l /\ (tk_buffering (pt_ctl e) = false -> l = []) /\
  tx_core S e M /\ tx_live e M /\ Forall (info_ok (pt_cfg e) S) (tm_crypto s) /\ Forall (tx_task_ok (pt_cfg e) S) (tm_tasks s).

(** ** Progress of a step *)

(** Inputs that start the counters again, that make new engines, that repeat PDUs, and that send control PDUs *)
Definition tx_resets (b : pdcp_base) (i : tx_input) : bool :=
  match i with TiSuspend => true | TiReestablish _ _ _ => is_srb b || is_um b | _ => false end.
Definition tx_makes (i : tx_input) : bool := match i with TiReestablish _ _ _ | TiConfigure _ _ _ => true | _ => false end.
Definition tx_rewinds (i : tx_input) : bool := match i with TiReestablish _ _ _ | TiDataRecovery _ _ => true | _ => false end.
Definition tx_controls cfg (i : tx_input) : bool :=
  match i with TiForwardFeedback _ _ | TiSendReport _ => true | TiDataRecovery _ _ => tc_status_report_required cfg | _ => false end.

(** The PDUs of a step are those of the COUNTs [cs]. *)
Definition tx_emits cfg S e e' ev (i : tx_input) : Prop :=
  tx_controls cfg i = false -> exists cs, Forall2 (pdu_of cfg S) cs (tx_pdus ev) /\
    (tx_rewinds i = false -> tc e <= tc e' /\ StronglySorted Z.lt cs /\ Forall (fun c => tc e <= c < tc e') cs).

Definition tx_progress S l e i S' l' e' ev : Prop :=
  S `prefix_of` S' /\ (S' ++ l') `sublist_of` (S ++ l ++ tx_given i) /\ tx_emits (pt_cfg e) S' e e' ev i.

Lemma tx_emits_none cfg S e e' ev i : tc e <= tc e' -> tx_pdus ev = [] -> tx_emits cfg S e e' ev i.
Proof. intros Ht Hp _. exists []. rewrite Hp. split; [constructor|]. intros _. split; [done|]. split; constructor. Qed.

(** The conclusion of [tx_step_spec] *)
Definition step_ok s S M l (i : tx_input) (r : option (tx_system * list pdcp_tx_event)) : Prop :=
  exists s' ev S' M' l', r = Some (s', ev) /\ tm_inv s' S' M' l' /\ pt_cfg (tm_entity s') = pt_cfg (tm_entity s) /\
    (tx_resets (pt_base (tm_entity s)) i = false -> tx_progress S l (tm_entity s) i S' l' (tm_entity s') ev).

Lemma progress_same S l e i e' ev :
  tc e <= tc e' -> tx_pdus ev = [] -> tx_progress S l e i S l e' ev.
Proof.
  intros Ht Hp. split; [done|]. split; [|by apply tx_emits_none]. rewrite app_assoc. by apply sublist_inserts_r.
Qed.

Lemma task_ok_mono cfg S S' t : S `prefix_of` S' -> tx_task_ok cfg S t -> tx_task_ok cfg S' t.
Proof. destruct t; [|done]. intros Hp. by apply pdu_of_mono. Qed.

Lemma tx_live_drops S e M e' M' :
  tx_drops S e M e' M' -> (tk_stopped (pt_ctl e) = false -> tx_full e M -> tx_full e' M') -> tx_live e M -> tx_live e' M'.
Proof.
  intros ((_ & _ & _ & Ectl & _) & _ & _ & _ & _ & _ & Hsub & _) Hfl. unfold tx_live. rewrite Ectl.
  destruct (tk_stopped (pt_ctl e)); [|auto]. intros ->. apply map_empty. intros k.
  destruct (M' !! k) eqn:Ek; [|done]. by eapply lookup_weaken in Hsub; [rewrite lookup_empty in Hsub|].
Qed.

Lemma forall_sublist {A} (P : A -> Prop) (xs ys : list A) : Forall P ys -> xs `sublist_of` ys -> Forall P xs.
Proof. rewrite !Forall_forall. intros Hf Hs x Hx. apply Hf. by eapply elem_of_sublist. Qed.

(** Only tasks go. *)
Lemma tm_inv_tasks s S M l lc lt :
  tm_inv s S M l -> lc `sublist_of` tm_crypto s -> lt `sublist_of` tm_tasks s -> tm_inv (TxSys (tm_entity s) lc lt) S M l.
Proof.
  intros (? & ? & ? & ? & ? & ? & Hcr & Hta) H1' H2'. split_and!; try done.
  - by eapply forall_sublist.
  - by eapply forall_sublist.
Qed.

Lemma tm_silent s S M l e' ev :
  tx_silent ev -> tm_inv (TxSys e' (tm_crypto s) (tm_tasks s)) S M l -> tm_inv (tm_after s (e', ev)).1 S M l.
Proof. intros (_ & Hc & Hd) Hi. unfold tm_after. cbn [fst snd]. by rewrite Hc, Hd, !app_nil_r. Qed.

(** The window shrinks. *)
Lemma tm_inv_drops s S M l e' M' :
  tm_inv s S M l -> tx_drops S (tm_entity s) M e' M' -> (tk_stopped (pt_ctl (tm_entity s)) = false -> tx_full (tm_entity s) M -> tx_full e' M') ->
  tm_inv (TxSys e' (tm_crypto s) (tm_tasks s)) S M' l.
Proof.
  intros (Hp & Hr & Hb & Hbl & Hc & Hl & Hcr & Hta) Hd Hfl. pose proof (tx_live_drops _ _ _ _ _ Hd Hfl Hl) as Hl'.
  destruct Hd as ((Ec & Es & Er & Ectl & _) & _ & _ & _ & _ & _ & _ & Hc').
  unfold tm_inv, PdcpTxOps.tx_pool_ok, tx_rohc_ok, pt_base in *. cbn [tm_entity tm_crypto tm_tasks]. rewrite Ec, Es, Er, Ectl. split_and!; (done || apply Hp).
Qed.

Lemma step_drops s S M l i e' ev M' :
  tm_inv s S M l -> tx_drops S (tm_entity s) M e' M' -> (tk_stopped (pt_ctl (tm_entity s)) = false -> tx_full (tm_entity s) M -> tx_full e' M') -> tx_silent ev ->
  step_ok s S M l i (Some (tm_after s (e', ev))).
Proof.
  intros Hi Hd Hfl Hq. eexists _, ev, S, M', l. split; [reflexivity|]. split; [apply tm_silent, tm_inv_drops with M; done|].
  pose proof Hd as ((Ec & _) & _ & _ & Et & _). split; [done|]. intros _. apply progress_same; [cbn; lia|apply Hq].
Qed.
Lemma step_acks s S M l i e' ev M' :
  tm_inv s S M l -> tx_acks S (tm_entity s) M e' M' -> tx_silent ev -> step_ok s S M l i (Some (tm_after s (e', ev))).
Proof. intros Hi [Hd Hfl] Hq. by eapply step_drops. Qed.

(** PDUs are sent. *)
Lemma step_sends s S M l i e' ev M' cs :
  tm_inv s S M l -> tx_core S e' M' -> (tk_stopped (pt_ctl (tm_entity s)) = false -> tx_full e' M') ->
  (tk_stopped (pt_ctl (tm_entity s)) = true -> M' = ∅) -> tx_sends S (tm_entity s) e' ev cs ->
  step_ok s S M l i (Some (tm_after s (e', ev))).
Proof.
  intros (Hp & Hr & Hb & Hbl & Hc & Hl & Hcr & Hta) Hc' Hfl Hem ((Ec & Es & Er & Ectl & _) & En & Ha & Ht & Htc & Htd & Hpdu & Hsort & Hrange).
  eexists _, ev, S, M', l. split; [reflexivity|]. split; [|split; [done|]].
  - unfold tm_after, tm_inv, tx_live, PdcpTxOps.tx_pool_ok, tx_rohc_ok, pt_base in *. cbn [fst snd tm_entity tm_crypto tm_tasks].
    rewrite Htc, Htd, !app_nil_r, Ec, Es, Er, Ectl. split_and!; try done; try apply Hp. destruct (tk_stopped _); auto.
  - intros _. split; [done|]. split; [rewrite app_assoc; by apply sublist_inserts_r|]. intros _. exists cs. cbn. by split_and!.
Qed.

(** SDUs are taken. *)
Lemma step_took s S M l i e' ev S' M' l' :
  tm_inv s S M l -> tx_core S' e' M' -> (tk_stopped (pt_ctl (tm_entity s)) = false -> tx_full e' M') ->
  (tk_stopped (pt_ctl (tm_entity s)) = true -> M' = ∅) -> tx_took S (tm_entity s) S' e' ev -> tx_buffered (pt_ctl e') l' ->
  (tk_buffering (pt_ctl e') = false -> l' = []) -> (S' ++ l') `sublist_of` (S ++ l ++ tx_given i) ->
  step_ok s S M l i (Some (tm_after s (e', ev))).
Proof.
  intros (Hp & Hr & Hb & Hbl & Hc & Hl & Hcr & Hta) Hc' Hfl Hem (Ec & Es & Er & _ & Estop & Ea & Et & En & Hpre & Hpd & Htd & Hinfo) Hb' Hbl' Hsub.
  eexists _, ev, S', M', l'. split; [reflexivity|]. split; [|split; [done|]].
  - unfold tm_after, tm_inv, tx_live, PdcpTxOps.tx_pool_ok, tx_rohc_ok, pt_base in *. cbn [fst snd tm_entity tm_crypto tm_tasks].
    rewrite Htd, !app_nil_r, Ec, Es, Estop. split_and!; try done; try apply Hp; [auto|destruct (tk_stopped _); auto| |].
    + apply Forall_app. split; [|done]. eapply Forall_impl; [exact Hcr|]. intros x. by apply info_ok_mono.
    + eapply Forall_impl; [exact Hta|]. intros x. by apply task_ok_mono.
  - intros _. split; [done|]. split; [done|]. apply tx_emits_none; [cbn; lia|done].
Qed.

(** Only the control part or the decompressor change. *)
Definition tx_plain_change e e' : Prop :=
  pt_cfg e' = pt_cfg e /\ pt_st e' = pt_st e /\ pt_window e' = pt_window e /\ pt_discard_timer e' = pt_discard_timer e /\
  tk_stopped (pt_ctl e') = tk_stopped (pt_ctl e) /\ tk_buffering (pt_ctl e') = tk_buffering (pt_ctl e) /\
  tk_sdu_buffer (pt_ctl e') = tk_sdu_buffer (pt_ctl e) /\ tx_pool_ok e' /\ tx_rohc_ok e'.

Lemma tx_core_change S e M e' : tx_plain_change e e' -> tx_core S e M -> tx_core S e' M.
Proof. intros (Ec & Es & Ew & Ed & _) Hc. unfold PdcpTxFacts.tx_core, pt_base in *. by rewrite Ec, Es, Ew, Ed. Qed.

Lemma step_plain s S M l i e' ev :
  tm_inv s S M l -> tx_plain_change (tm_entity s) e' -> tx_crypto_tasks ev = [] -> tx_dl_tasks ev = [] ->
  (tx_controls (pt_cfg (tm_entity s)) i = false -> tx_pdus ev = []) -> step_ok s S M l i (Some (tm_after s (e', ev))).
Proof.
  intros (Hp & Hr & Hb & Hbl & Hc & Hl & Hcr & Hta) Hch Htc Htd Hpd. pose proof Hch as (Ec & Es & Ew & Ed & Ek & Eb & El & Hp' & Hr').
  eexists _, ev, S, M, l. split; [reflexivity|]. split; [|split; [done|]].
  - unfold tm_after, tm_inv, tx_live, tx_buffered, PdcpTxFacts.tx_full in *. cbn [fst snd tm_entity tm_crypto tm_tasks].
    rewrite Htc, Htd, !app_nil_r, Ec, Es, Ek, Eb, El. split_and!; try done; try apply Hb. by apply (tx_core_change S (tm_entity s)).
  - intros _. split; [done|]. split; [rewrite app_assoc; by apply sublist_inserts_r|]. intros Hct. exists []. rewrite (Hpd Hct).
    split; [constructor|]. intros _. cbn. rewrite Es. split; [done|]. split; constructor.
Qed.

(** ** Inputs that start again *)
Lemma tm_inv_plain s S M l e' :
  tm_inv s S M l -> tx_plain_change (tm_entity s) e' -> tm_inv (TxSys e' (tm_crypto s) (tm_tasks s)) S M l.
Proof.
  intros (Hp & Hr & Hb & Hbl & Hc & Hl & Hcr & Hta) Hch. pose proof Hch as (Ec & Es & Ew & Ed & Ek & Eb & El & Hp' & Hr').
  unfold tm_inv, tx_live, tx_buffered, PdcpTxFacts.tx_full in *. cbn [tm_entity tm_crypto tm_tasks].
  rewrite Ec, Es, Ek, Eb, El. split_and!; try done; try apply Hb. by apply (tx_core_change S (tm_entity s)).
Qed.

Lemma tm_inv_reset s S M l :
  tm_inv s S M l -> tm_inv (TxSys (tx_reset (tm_entity s)) [] []) [] ∅ l.
Proof.
  intros (Hp & Hr & Hb & Hbl & Hc & _). destruct (tx_reset_spec prot S (tm_entity s) M Hc) as [Hc' Hf'].
  unfold tm_inv, tx_live. cbn [tm_entity tm_crypto tm_tasks]. split_and!; try done; try apply Hp; try apply Hb. by destruct (tk_stopped _).
Qed.

Lemma suspend_step s S M l : tm_inv s S M l -> tx_allowed s TiSuspend -> step_ok s S M l TiSuspend (tx_step s TiSuspend).
Proof.
  intros Hi (Hlc & Hlt). cbn [tx_step]. unfold tx_suspend. destruct (_ || _) eqn:Eb; cbn [snd].
  { apply step_plain; try done. unfold tx_plain_change. split_and!; try done; apply Hi. }
  pose proof (tm_inv_reset s S M l Hi) as (Hp & Hr & Hbf & Hbl & Hc & Hl & _). set (e1 := tx_reset (tm_entity s)) in *.
  set (e2 := match tc_discard_timer _ with Some _ => _ | None => _ end).
  assert (He2 : exists t, e2 = pt_set_discard_timer t e1 /\ (t = None \/ tx_finite (pt_cfg e1) = true)).
  { unfold e2. change (pt_set_window _ _) with e1. destruct (tc_discard_timer (pt_cfg e1)); [exists None; auto|].
    exists (pt_discard_timer e1). split; [by destruct e1|]. pose proof Hc as (_ & _ & _ & _ & _ & _ & _ & _ & _ & _ & ? & _). done. }
  destruct He2 as (t & -> & Ht). pose proof (tx_acks_timer prot [] e1 ∅ t Hc Ht) as [[_ [_ [_ [_ [_ [_ [_ Hc2]]]]]]] _].
  eexists _, _, [], ∅, l. split; [reflexivity|]. split; [|split; [done|intros [=]]].
  unfold tm_quiet, tm_after, tm_inv. cbn [fst snd tm_entity tm_crypto tm_tasks tx_crypto_tasks tx_dl_tasks omap list_omap]. rewrite Hlc, Hlt.
  split_and!; try done; apply Hp || apply Hbf.
Qed.

(** Retransmission *)
Lemma tm_inv_retransmit s S M l v :
  tm_inv s S M l ->
  exists e' ev, tx_retransmit_all_pdus v (tm_entity s) = Some (e', ev) /\ tx_pdus ev = [] /\ tx_dl_tasks ev = [] /\
    tm_inv (TxSys e' (tm_crypto s ++ tx_crypto_tasks ev) (tm_tasks s)) S M l /\ pt_cfg e' = pt_cfg (tm_entity s).
Proof.
  intros (Hp & Hr & Hb & Hbl & Hc & Hl & Hcr & Hta).
  destruct (tx_retransmit_spec prot S v (tm_entity s) M Hc Hr) as (e1 & e' & ev & -> & ((r & -> & Hrn) & Hpd & Htd & Hinfo) & Hc1 & Ec & Es & Er & Ectl & En & Ea & Ed).
  eexists _, ev. split; [reflexivity|]. split; [done|]. split; [done|]. split; [|done].
  unfold tm_inv, tx_live, PdcpTxOps.tx_pool_ok, tx_rohc_ok, pt_base in *. cbn [tm_entity tm_crypto tm_tasks pt_set_rohc pt_cfg pt_sec pt_ctl pt_rohc].
  rewrite Ec, Es, Ectl. rewrite Ec in Hinfo. split_and!; try done; try apply Hp.
  - intros Hh. apply Hrn. rewrite Er. auto.
  - destruct (tk_stopped _); [done|]. intros Hf k Hk. cbn in Hk. rewrite En, Ea in Hk. apply Hl; [by rewrite <- Ec|done].
  - by apply Forall_app.
Qed.

Lemma reestablish_step s S M l rohc v sec_cfg :
  maker_total -> maker_prot (pt_base (tm_entity s)) -> tm_inv s S M l -> tx_allowed s (TiReestablish rohc v sec_cfg) ->
  step_ok s S M l (TiReestablish rohc v sec_cfg) (tx_step s (TiReestablish rohc v sec_cfg)).
Proof.
  intros Htot Hprot Hi (Hlc & Hlt & Hdom & Hsmc & Hsrb). cbn [tx_step]. unfold tx_reestablish. set (b := pt_base (tm_entity s)).
  set (e1 := tx_init_header_compression rohc (tm_entity s)).
  assert (Hi1 : tm_inv (TxSys e1 [] []) S M l /\ pt_cfg e1 = pt_cfg (tm_entity s) /\ pt_sec e1 = pt_sec (tm_entity s)).
  { assert (Hch : tx_plain_change (tm_entity s) e1).
    { unfold e1, tx_init_header_compression. destruct (tc_header_compression _) eqn:Eh; unfold tx_plain_change; split_and!; try done; try apply Hi.
      unfold tx_rohc_ok. cbn. by rewrite Eh. }
    split; [|unfold e1, tx_init_header_compression; by destruct (tc_header_compression _)].
    pose proof (tm_inv_plain s S M l e1 Hi Hch) as Hi1. by rewrite Hlc, Hlt in Hi1. }
  destruct Hi1 as (Hi1 & Ec1 & Es1). set (e2 := if is_srb b || is_um b then tx_reset e1 else e1).
  assert (Hi2 : exists S2 M2, tm_inv (TxSys e2 [] []) S2 M2 l /\ pt_cfg e2 = pt_cfg e1 /\ pt_sec e2 = pt_sec e1 /\ (is_srb b || is_um b = false -> S2 = S)).
  { unfold e2. destruct (is_srb b || is_um b); [|by exists S, M]. exists [], ∅. split; [exact (tm_inv_reset _ _ _ _ Hi1)|done]. }
  destruct Hi2 as (S2 & M2 & Hi2 & Ec2 & Es2 & HS2).
  assert (Eb2 : pt_base e2 = b) by (unfold b, pt_base; congruence).
  destruct (tx_configure_spec prot make_engine sec_cfg (ts_integrity (pt_sec e2)) (ts_ciphering (pt_sec e2)) e2) as (sec & -> & Hpool).
  { intros eng Heng. rewrite Eb2. by eapply Hprot. } { apply Htot. } { by rewrite Eb2. } { by rewrite Es2, Es1. }
  { rewrite Eb2, Es2, Es1. done. } { apply Hi2. }
  cbn [mbind option_bind]. set (e3 := pt_set_sec sec e2).
  assert (Hi3 : tm_inv (TxSys e3 [] []) S2 M2 l).
  { apply (tm_inv_plain (TxSys e2 [] [])); [done|]. unfold tx_plain_change. split_and!; try done. apply Hi2. }
  assert (Hre : exists e4 ev, (if is_am b then tx_retransmit_all_pdus v e3 else Some (e3, [])) = Some (e4, ev) /\ tx_pdus ev = [] /\ tx_dl_tasks ev = [] /\
    tm_inv (TxSys e4 (tx_crypto_tasks ev) []) S2 M2 l /\ pt_cfg e4 = pt_cfg e3).
  { destruct (is_am b); [|by exists e3, []]. by apply (tm_inv_retransmit (TxSys e3 [] [])). }
  destruct Hre as (e4 & ev & -> & Hpd & Htd & Hi4 & Ec4).
  eexists _, ev, S2, M2, l. split; [reflexivity|]. unfold tm_after. cbn [fst snd]. rewrite Hlc, Hlt, Htd. split; [done|].
  assert (Ec : pt_cfg e4 = pt_cfg (tm_entity s)) by (rewrite Ec4; unfold e3; cbn; congruence).
  split; [done|]. intros Hres. rewrite (HS2 Hres). split; [done|]. split; [rewrite app_assoc; by apply sublist_inserts_r|].
  intros _. exists []. rewrite Hpd. split; [constructor|done].
Qed.

(** ** All steps *)

Lemma live_full s S M l : tm_inv s S M l -> tk_stopped (pt_ctl (tm_entity s)) = false -> tx_full (tm_entity s) M.
Proof. intros (_ & _ & _ & _ & _ & Hl & _) Hk. unfold tx_live in Hl. by rewrite Hk in Hl. Qed.
Lemma live_empty s S M l : tm_inv s S M l -> tk_stopped (pt_ctl (tm_entity s)) = true -> M = ∅.
Proof. intros (_ & _ & _ & _ & _ & Hl & _) Hk. unfold tx_live in Hl. by rewrite Hk in Hl. Qed.

(** A stopped entity does nothing on these inputs. *)
Lemma step_nothing s S M l i : tm_inv s S M l -> step_ok s S M l i (Some (tm_quiet s (tm_entity s))).
Proof. intros Hi. apply (step_acks s S M l i (tm_entity s) [] M); [done| |done]. apply tx_acks_refl, Hi. Qed.
Lemma step_same s S M l i : tm_inv s S M l -> step_ok s S M l i (Some (s, [])).
Proof.
  intros Hi. destruct (step_nothing s S M l i Hi) as (s' & ev & S' & M' & l' & E1 & Hr).
  exists s', ev, S', M', l'. split; [|exact Hr]. rewrite <- E1. unfold tm_quiet, tm_after. destruct s. cbn. by rewrite !app_nil_r.
Qed.

(** The notifications *)
Lemma step_notification s S M l i (op : option entity) :
  tm_inv s S M l ->
  (tk_stopped (pt_ctl (tm_entity s)) = true -> op = Some (tm_entity s)) ->
  (tk_stopped (pt_ctl (tm_entity s)) = false -> exists e' M', op = Some e' /\ tx_acks S (tm_entity s) M e' M') ->
  step_ok s S M l i (tm_quiet s <$> op).
Proof.
  intros Hi Hstop Hop. destruct (tk_stopped (pt_ctl (tm_entity s))).
  - rewrite Hstop by done. by apply step_nothing.
  - destruct Hop as (e' & M' & -> & Hk); [done|]. by apply (step_acks s S M l i e' [] M').
Qed.

Lemma tx_step_crypto s S M l worker_idx room n i :
  tm_inv s S M l -> 0 <= worker_idx < tc_max_nof_crypto_workers (pt_cfg (tm_entity s)) -> tm_crypto s !! n = Some i ->
  step_ok s S M l (TiCrypto worker_idx room n) (tx_step s (TiCrypto worker_idx room n)).
Proof.
  intros Hi Hwk Hn. cbn [tx_step]. rewrite Hn. pose proof Hi as (Hp & Hr & Hb & Hbl & Hc & Hl & Hcr & Hta).
  destruct (tx_apply_security_spec prot S worker_idx room i (tm_entity s) Hp Hwk) as (t & -> & Ht).
  { rewrite Forall_lookup in Hcr. exact (Hcr _ _ Hn). }
  cbn [mbind option_bind]. eexists _, _, S, M, l. split; [reflexivity|].
  unfold tm_after. cbn [fst snd tm_crypto tm_tasks tx_crypto_tasks tx_dl_tasks omap list_omap]. rewrite app_nil_r. split; [|split; [done|]].
  - unfold tm_inv. cbn [tm_entity tm_crypto tm_tasks]. split_and!; try done; try apply Hp; try apply Hb; [by apply Forall_delete|].
    apply Forall_app. split; [done|]. constructor; [|constructor]. destruct t as [j|]; [|done]. cbn. destruct Ht as [-> Ht]. done.
  - intros _. by apply progress_same; [cbn; lia|].
Qed.

Lemma step_task s S M l now n t :
  tm_inv s S M l -> tm_tasks s !! n = Some t -> step_ok s S M l (TiTask now n) (tx_step s (TiTask now n)).
Proof.
  intros Hi Hn. cbn [tx_step]. rewrite Hn. pose proof Hi as (_ & _ & _ & _ & Hc & _ & _ & Hta).
  assert (Ht : tx_task_ok (pt_cfg (tm_entity s)) S t) by (rewrite Forall_lookup in Hta; exact (Hta _ _ Hn)).
  pose proof (tm_inv_tasks s S M l (tm_crypto s) (delete n (tm_tasks s)) Hi ltac:(done) ltac:(apply sublist_delete)) as Hi0.
  set (s0 := TxSys _ _ _) in *. change (step_ok s0 S M l (TiTask now n) (tm_after s0 <$> tx_run_task now t (tm_entity s))). destruct t as [j|st c].
  - destruct (tx_apply_reordering_spec prot S now j (tm_entity s) M Hc (live_full _ _ _ _ Hi) Ht) as (e' & ev & M' & cs & E1 & Hc' & Hfl & Hs).
    cbn [tx_run_task]. rewrite E1. destruct (tk_stopped (pt_ctl (tm_entity s))) eqn:Ek.
    + unfold tx_apply_reordering in E1. rewrite Ek in E1. injection E1 as <- <-. by apply step_nothing.
    + apply (step_sends s0 S M l _ e' ev M' cs); try done; [auto|cbn; congruence].
  - cbn [tx_run_task fmap option_fmap option_map]. apply (step_acks s0 S M l _ _ _ M); [done| |done]. apply tx_acks_refl, Hi.
Qed.

Lemma tx_step_expiry s S M l now :
  tm_inv s S M l -> pt_crypto_timer (tm_entity s) = true -> step_ok s S M l (TiCryptoExpiry now) (tx_step s (TiCryptoExpiry now)).
Proof.
  intros Hi Et. cbn [tx_step]. rewrite Et. pose proof Hi as (_ & _ & _ & _ & Hc & _).
  destruct (tx_crypto_timeout_spec prot S now (tm_entity s) M Hc (live_full _ _ _ _ Hi)) as (e' & ev & M' & cs & E1 & Hc' & Hfl & Hs). rewrite E1.
  destruct (tk_stopped (pt_ctl (tm_entity s))) eqn:Ek.
  - unfold tx_crypto_reordering_timeout in E1. change (pt_ctl (pt_set_crypto_timer false (tm_entity s))) with (pt_ctl (tm_entity s)) in E1. rewrite Ek in E1. injection E1 as <- <-.
    apply (step_sends s S M l _ (pt_set_crypto_timer false (tm_entity s)) [] M cs);
      [done|by apply tx_core_timer|congruence|by intros _; apply (live_empty s S M l)|exact Hs].
  - apply (step_sends s S M l _ e' ev M' cs); try done; [auto|congruence].
Qed.

(** Control PDUs and the decompressor's feedback *)
Lemma step_feedback s S M l copy_ok buf :
  tm_inv s S M l -> bytes_ok buf -> buf <> [] -> step_ok s S M l (TiRohcFeedback copy_ok buf) (tx_step s (TiRohcFeedback copy_ok buf)).
Proof.
  intros Hi Hb Hne. cbn [tx_step]. unfold tx_consume_rohc_feedback. destruct (pt_rohc (tm_entity s)) as [r|] eqn:Er; [|by apply step_nothing].
  destruct copy_ok; cbn [negb]; [|by apply step_nothing]. destruct buf as [|b rest]; [done|].
  rewrite control_header_octet by (by apply Forall_cons in Hb as []). cbn [mbind option_bind].
  destruct (_ && _); [|by apply step_nothing]. rewrite bool_decide_false by done. destruct (handle_feedback r _) as [ok r'].
  apply (step_plain s S M l _ (pt_set_rohc (Some r') (tm_entity s)) []); try done. unfold tx_plain_change. split_and!; try done; try apply Hi.
  intros Hh. destruct Hi as (_ & Hr & _). specialize (Hr Hh). by rewrite Er in Hr.
Qed.

Lemma plain_refl s S M l : tm_inv s S M l -> tx_plain_change (tm_entity s) (tm_entity s).
Proof. intros Hi. unfold tx_plain_change. split_and!; try done; apply Hi. Qed.

Lemma recovery_step s S M l report v :
  tm_inv s S M l -> tx_allowed s (TiDataRecovery report v) ->
  step_ok s S M l (TiDataRecovery report v) (tx_step s (TiDataRecovery report v)).
Proof.
  intros Hi [Es Ea]. cbn [tx_step]. unfold tx_data_recovery. rewrite Es, Ea. cbn [negb orb].
  destruct (tm_inv_retransmit s S M l v Hi) as (e' & ev & -> & Hpd & Htd & Hi' & Ec). cbn [mbind option_bind].
  set (ev0 := if tc_status_report_required _ then _ else _). assert (Hq0 : tx_crypto_tasks ev0 = [] /\ tx_dl_tasks ev0 = []).
  { unfold ev0, tx_send_status_report. by destruct (tc_status_report_required _). }
  destruct Hq0 as [Hc0 Hd0]. eexists _, _, S, M, l. split; [reflexivity|]. unfold tm_after. cbn [fst snd].
  unfold tx_crypto_tasks, tx_dl_tasks in *. rewrite !omap_app, Hc0, Hd0, Htd, app_nil_r. cbn [app]. split; [exact Hi'|]. split; [done|].
  intros _. split; [done|]. split; [rewrite app_assoc; by apply sublist_inserts_r|]. intros Hct. cbn [tx_controls] in Hct. exists [].
  unfold ev0. rewrite Hct. cbn [app]. rewrite Hpd. split; [constructor|done].
Qed.

(** Taking SDUs *)
Lemma took_live s S M l e' M' :
  tm_inv s S M l -> (if tk_stopped (pt_ctl (tm_entity s)) then M' = M else tx_full e' M') ->
  (tk_stopped (pt_ctl (tm_entity s)) = false -> tx_full e' M') /\ (tk_stopped (pt_ctl (tm_entity s)) = true -> M' = ∅).
Proof. intros Hi Hfl. pose proof (live_empty s S M l Hi) as He. destruct (tk_stopped _); [|done]. split; [done|]. intros _. rewrite Hfl. auto. Qed.

Lemma sdu_step s S M l v now buf :
  (forall (r : R) buf, (compress r buf).1 <> []) -> tm_inv s S M l -> tx_allowed s (TiSdu v now buf) ->
  step_ok s S M l (TiSdu v now buf) (tx_step s (TiSdu v now buf)).
Proof.
  intros Hcomp Hi [Hg Hroom]. cbn [tx_step]. pose proof Hi as (Hp & Hr & Hb & Hbl & Hc & Hl & _).
  destruct (tx_handle_sdu_spec prot S v now buf (tm_entity s) M l Hc (live_full _ _ _ _ Hi) Hb Hg Hcomp Hr Hroom)
    as (e' & ev & M' & S' & l' & E1 & Hc' & Hfl & Ht & Hb' & Eb & _ & Hcase). rewrite E1.
  destruct (took_live s S M l e' M' Hi Hfl) as [Hfl1 Hfl2].
  apply (step_took s S M l _ e' ev S' M' l'); try done; [rewrite Eb|].
  - destruct (tk_buffering _); [done|]. destruct Hcase as [-> _]. auto.
  - cbn [tx_given]. destruct (tk_buffering (pt_ctl (tm_entity s))) eqn:Ebuf.
    + destruct Hcase as [-> [->| ->]]; [rewrite app_assoc; by apply sublist_inserts_r|done].
    + destruct Hcase as [-> [->| ->]]; [rewrite app_assoc; by apply sublist_inserts_r|]. rewrite (Hbl eq_refl), app_nil_r. done.
Qed.

Lemma end_buffering_step s S M l v now :
  (forall (r : R) buf, (compress r buf).1 <> []) -> tm_inv s S M l -> tx_allowed s (TiEndBuffering v now) ->
  step_ok s S M l (TiEndBuffering v now) (tx_step s (TiEndBuffering v now)).
Proof.
  intros Hcomp Hi [Hg Hroom]. cbn [tx_step]. pose proof Hi as (Hp & Hr & Hb & Hbl & Hc & Hl & _).
  pose proof (rb_repr_size _ _ (proj1 Hb)) as [Esz _]. rewrite Esz in Hroom.
  destruct (tx_end_buffering_spec prot S v now (tm_entity s) M l Hc (live_full _ _ _ _ Hi) Hb Hg Hcomp Hr Hroom)
    as (e' & ev & M' & S' & E1 & Hc' & Hfl & Ht & Hb' & Eb & taken & -> & Hsub). rewrite E1.
  destruct (took_live s S M l e' M' Hi Hfl) as [Hfl1 Hfl2].
  apply (step_took s S M l _ e' ev (S ++ taken) M' []); try done. cbn [tx_given]. rewrite !app_nil_r. by apply sublist_app.
Qed.

Lemma stop_step s S M l : tm_inv s S M l -> step_ok s S M l TiStop (tx_step s TiStop).
Proof.
  intros Hi. cbn [tx_step]. unfold tx_stop. destruct (tk_stopped (pt_ctl (tm_entity s))) eqn:Ek; [by apply step_nothing|].
  pose proof Hi as (Hp & Hr & Hb & Hbl & Hc & Hl & Hcr & Hta). set (e1 := pt_set_window _ _).
  assert (Hc1 : tx_core S e1 ∅) by (apply (tx_core_clear prot S (pt_set_stopped true (tm_entity s)) M); exact Hc).
  set (e2 := match tc_discard_timer _ with Some _ => _ | None => _ end).
  assert (He2 : exists t, e2 = pt_set_discard_timer t e1 /\ (t = None \/ tx_finite (pt_cfg e1) = true)).
  { unfold e2. destruct (tc_discard_timer (pt_cfg e1)); [exists None; auto|].
    exists (pt_discard_timer e1). split; [by destruct e1|]. pose proof Hc1 as (_ & _ & _ & _ & _ & _ & _ & _ & _ & _ & ? & _). done. }
  destruct He2 as (t & -> & Ht). pose proof (tx_acks_core _ _ _ _ _ _ (tx_acks_timer prot S e1 ∅ t Hc1 Ht)) as Hc2.
  eexists _, _, S, ∅, l. split; [reflexivity|]. unfold tm_quiet, tm_after. cbn [fst snd tx_crypto_tasks tx_dl_tasks omap list_omap]. rewrite !app_nil_r.
  split; [|split; [done|intros _; by apply progress_same]]. unfold tm_inv, tx_live. cbn [tm_entity tm_crypto tm_tasks].
  split_and!; try done; try apply Hp; apply Hb.
Qed.

(** Every input is handled, keeps the invariant and, unless it is a reset, makes progress as [tx_progress] says. *)
Lemma tx_step_spec s S M l i :
  (forall (r : R) buf, (compress r buf).1 <> []) -> (tx_makes i = true -> maker_total /\ maker_prot (pt_base (tm_entity s))) ->
  tm_inv s S M l -> tx_allowed s i -> step_ok s S M l i (tx_step s i).
Proof.
  intros Hcomp Hmake Hi Hal. pose proof Hi as (Hp & Hr & Hb & Hbl & Hc & Hl & _).
  assert (Hplain : tx_plain_change (tm_entity s) (tm_entity s)) by by eapply plain_refl.
  assert (Hctl : forall c, tk_stopped c = tk_stopped (pt_ctl (tm_entity s)) -> tk_buffering c = tk_buffering (pt_ctl (tm_entity s)) ->
    tk_sdu_buffer c = tk_sdu_buffer (pt_ctl (tm_entity s)) -> tx_plain_change (tm_entity s) (pt_set_ctl c (tm_entity s)))
    by (intros; unfold tx_plain_change; split_and!; try done; apply Hi).
  assert (Hrefl : exists e' M', Some (tm_entity s) = Some e' /\ tx_acks S (tm_entity s) M e' M')
    by (exists (tm_entity s), M; split; [done|by apply tx_acks_refl]).
  destruct i as [v now buf|worker_idx room n|n|now n|n|now|now|now sn|now sn|now sn|now sn|bs|copy_ok buf|copy_ok buf|room fb|report| |v now| | |rohc v sec_cfg|sec_cfg integ ciph|report v|].
  - by apply sdu_step.
  - destruct (tm_crypto s !! n) as [j|] eqn:En; [by apply (tx_step_crypto s S M l worker_idx room n j)|]. cbn [tx_step]. rewrite En. by apply step_same.
  - eexists _, [], S, M, l. split; [reflexivity|]. split; [apply tm_inv_tasks; [done|apply sublist_delete|done]|]. split; [done|]. intros _. by apply progress_same.
  - destruct (tm_tasks s !! n) as [t|] eqn:En; [by apply (step_task s S M l now n t)|]. cbn [tx_step]. rewrite En. by apply step_same.
  - eexists _, [], S, M, l. split; [reflexivity|]. split; [apply tm_inv_tasks; [done|done|apply sublist_delete]|]. split; [done|]. intros _. by apply progress_same.
  - destruct (pt_crypto_timer (tm_entity s)) eqn:Et; [by apply tx_step_expiry|]. cbn [tx_step]. rewrite Et. by apply step_same.
  - cbn [tx_step]. destruct (pt_discard_timer (tm_entity s)) eqn:Et; [|by apply step_same].
    destruct (tx_discard_callback_spec prot S now (tm_entity s) M Hc (live_full _ _ _ _ Hi)) as (e' & ev & M' & -> & Hk & Hq); [by rewrite Et|]. by apply (step_acks s S M l _ e' ev M').
  - apply step_notification; [done| |]; intros Hk; unfold tx_handle_transmit_notification; rewrite Hk; [done|].
    apply (tx_transmit_notification_spec prot S now sn (tm_entity s) M Hc). by apply (live_full s S M l).
  - apply step_notification; [done| |]; intros Hk; unfold tx_handle_delivery_notification; rewrite Hk; [done|].
    apply (tx_delivery_notification_spec prot S now sn (tm_entity s) M Hc). by apply (live_full s S M l).
  - apply step_notification; [done| |]; intros Hk; unfold tx_handle_retransmit_notification; rewrite Hk; [done|].
    destruct (is_srb _); [exact Hrefl|]. destruct (is_um _); [exact Hrefl|].
    apply (tx_transmit_notification_spec prot S now sn (tm_entity s) M Hc). by apply (live_full s S M l).
  - apply step_notification; [done| |]; intros Hk; unfold tx_handle_delivery_retransmitted_notification; rewrite Hk; [done|].
    destruct (is_srb _); [exact Hrefl|]. destruct (is_um _); [exact Hrefl|].
    apply (tx_delivery_notification_spec prot S now sn (tm_entity s) M Hc). by apply (live_full s S M l).
  - cbn [tx_step]. unfold tx_handle_desired_buffer_size_notification. destruct (tk_stopped _); by apply step_plain.
  - destruct Hal as [Hby Hfin]. cbn [tx_step]. destruct (tx_handle_status_spec prot S copy_ok buf (tm_entity s) M Hc Hby) as (e' & ev & M' & -> & Hd & Hq & Hfl).
    by apply (step_drops s S M l _ e' ev M'); [|done|intros _; apply Hfl|].
  - by apply step_feedback; [|apply Hal..].
  - apply step_plain; try done; unfold tx_forward_rohc_feedback; by destruct room.
  - apply step_plain; try done; unfold tx_send_status_report; by destruct (tc_status_report_required _).
  - apply (step_took s S M l _ (tx_begin_buffering (tm_entity s)) [] S M l); [done|done|by apply (live_full s S M l)|by apply (live_empty s S M l)|by apply tx_took_silent|done|done|].
    rewrite app_assoc. by apply sublist_inserts_r.
  - by apply end_buffering_step.
  - by apply suspend_step.
  - cbn [tx_step]. unfold tx_resume. destruct (_ || _); by apply step_plain.
  - destruct (Hmake eq_refl) as [Htot Hprot]. by apply reestablish_step.
  - destruct (Hmake eq_refl) as [Htot Hprot], Hal as (Hdom & Hsmc & Hsrb). cbn [tx_step].
    destruct (tx_configure_spec prot make_engine sec_cfg integ ciph (tm_entity s)) as (sec & -> & Hpool); try done; [intros eng; apply Hprot|apply Htot|].
    by apply step_plain.
  - by apply recovery_step.
  - by apply stop_step.
Qed.
End steps.
