(* ===== verification/PdcpTxCorrect.v ===== *)
(** * The PDCP transmitter: theorems

    Robustness, the stream of PDUs that a run produces, and the effect of a status report. *)
From Stdlib Require Import Sorted.
From S2P Require Import Prelude SduWindow CircularMap RingBuffer BitCodec PdcpSn SecurityEngine PdcpBase PdcpTxWindow PdcpTx PdcpTxFacts PdcpTxOps PdcpTxStatus PdcpTxSteps.

(** A new window of the size that the constructor asks for *)
Definition tx_new_window {W} `{SduWindowLaws pdcp_tx_window_element W pdcp_tx_window_element_init} (b : pdcp_base) (win : W) : Prop :=
  win_inv win /\ win_cap win = pdcp_window_size_of_bits (pdcp_sn_size_value (pb_sn_size b)) /\ forall k, 0 <= k -> win_lookup win k = None.

(** [pdu] is [buf] as it is protected with COUNT [c] by the engine [o]; [None] is the null engine of an SRB. *)
Definition tx_protected {E} `{SecurityEngineTx E} (b : pdcp_base) (o : option E) (c : Z) (buf pdu : list Z) : Prop :=
  match o with
  | None => is_srb b = true /\ pdu = buf ++ zero_mac
  | Some eng =>
      let r := encrypt_and_protect_integrity true eng buf (pdcp_data_header_size (pb_sn_size b)) c in
      is_success r.1 = true /\ pdu = r.2
  end.

Section correct.
Context {E R W : Type} `{SecurityEngineTx E, RohcCompressor R}.
Context `{SduWindowLaws pdcp_tx_window_element W pdcp_tx_window_element_init}
  `{!SduWindowClear pdcp_tx_window_element W} `{!SduWindowClearLaws pdcp_tx_window_element W}.
Context (make_engine : engine_maker E).
Context (compress_ok : forall (r : R) buf, (compress r buf).1 <> []).
Notation entity := (pdcp_entity_tx E R W).
Notation system := (@tx_system E R W).
Implicit Types (e : entity) (s : system) (S : list (list Z)).

(** ** The entity after its construction *)
Definition tx_initial (cfg : pdcp_tx_config) (win : W) (o : option R) (sec : pdcp_tx_security E) : entity :=
  PdcpTx cfg sec o pdcp_tx_state_init (pdcp_tx_window_new win (pb_rb_type (tc_base cfg)) (pb_sn_size (tc_base cfg))) None false 0 0
    (TxCtl false false false false (rb_new true 2048) false false).

Lemma tx_new_initial cfg win rohc :
  tx_cfg_ok cfg ->
  exists o, (tc_header_compression cfg = false -> o = None) /\
    pdcp_tx_new cfg win rohc = Some (tx_initial cfg win o (TxSec (replicate (Z.to_nat (tc_max_nof_crypto_workers cfg)) None) integrity_off ciphering_off)).
Proof.
  intros (_ & Hsrb & _). unfold pdcp_tx_new, tx_init_header_compression.
  assert (is_srb (tc_base cfg) && (negb (bool_decide (pb_sn_size (tc_base cfg) = pdcp_size12bits)) || is_um (tc_base cfg) || tc_header_compression cfg) = false) as ->.
  { destruct (is_srb (tc_base cfg)); [|done]. destruct (Hsrb eq_refl) as (-> & -> & ->). done. }
  cbn [pt_cfg]. destruct (tc_header_compression cfg); [by exists rohc|by exists None].
Qed.

Lemma tx_initial_inv prot cfg win o sec :
  tx_cfg_ok cfg -> tx_new_window (tc_base cfg) win -> (tc_header_compression cfg = false -> o = None) ->
  length (ts_pool sec) = Z.to_nat (tc_max_nof_crypto_workers cfg) -> Forall (engine_prot prot (tc_base cfg)) (ts_pool sec) ->
  tm_inv prot (TxSys (tx_initial cfg win o sec) [] []) [] ∅ [].
Proof.
  intros Hcfg (Hi & Hc & Hl) Ho Hlen Hpool. pose proof Hcfg as (Hb & _ & Hm & _).
  destruct (pdcp_base_fields _ Hb) as (_ & Ew & _ & _ & Hhalf). rewrite Ew in Hc.
  pose proof (holds_empty win Hi Hl) as Hw. destruct (rb_repr_new (T := list Z) true 2048) as [Hr Hsz]; [done|intros _; by exists 11|].
  unfold tm_inv, tx_live. cbn [tm_entity tm_crypto tm_tasks tx_initial pt_ctl tk_stopped]. split_and!; try done.
  - unfold PdcpTxFacts.tx_core, pt_base. cbn -[Z.pow pdcp_window_size_of_bits]. split_and!; try done; try lia; try by left.
  - intros _ c Hk. cbn in Hk. lia.
Qed.

(** ** Runs *)
Lemma tx_run_spec prot ins : forall s S M l,
  maker_total make_engine -> maker_prot make_engine prot (pt_base (tm_entity s)) -> tm_inv prot s S M l -> tx_allowed_run make_engine s ins ->
  exists s' ev S' M' l', tx_run make_engine s ins = Some (s', ev) /\ tm_inv prot s' S' M' l'.
Proof.
  induction ins as [|i ins IH]; intros s S M l Htot Hprot Hs Hal; cbn [tx_run]; [by exists s, [], S, M, l|]. destruct Hal as [Hi Hal].
  destruct (tx_step_spec make_engine prot s S M l i compress_ok) as (s1 & ev1 & S1 & M1 & l1 & E1 & Hs1 & Ec & _); [done..|].
  rewrite E1. cbn [mbind option_bind].
  destruct (IH s1 S1 M1 l1) as (s2 & ev2 & S2 & M2 & l2 & -> & Hs2); try done; [unfold pt_base in *; by rewrite Ec|by eapply Hal|].
  cbn [mbind option_bind]. by eexists _, _, _, _, _.
Qed.

(** Inputs of a stream: no reset, no PDU twice, no control PDU, the same keys *)
Definition tx_streams (cfg : pdcp_tx_config) (i : @tx_input R) : Prop :=
  tx_resets (tc_base cfg) i = false /\ tx_makes i = false /\ tx_rewinds i = false /\ tx_controls cfg i = false.

(** What such a run does to the SDUs: some of those given get the next COUNTs, and PDUs leave in the order of the COUNTs. *)
Lemma tx_run_stream prot ins : forall s S M l,
  tm_inv prot s S M l -> tx_allowed_run make_engine s ins -> Forall (tx_streams (pt_cfg (tm_entity s))) ins ->
  exists s' ev S' M' l' cs, tx_run make_engine s ins = Some (s', ev) /\ tm_inv prot s' S' M' l' /\
    pt_cfg (tm_entity s') = pt_cfg (tm_entity s) /\ S `prefix_of` S' /\ (S' ++ l') `sublist_of` (S ++ l ++ (ins ≫= tx_given)) /\
    tx_trans_crypto (pt_st (tm_entity s)) <= tx_trans_crypto (pt_st (tm_entity s')) /\
    Forall2 (pdu_of prot (pt_cfg (tm_entity s)) S') cs (tx_pdus ev) /\ StronglySorted Z.lt cs /\
    Forall (fun c => tx_trans_crypto (pt_st (tm_entity s)) <= c < tx_trans_crypto (pt_st (tm_entity s'))) cs.
Proof.
  induction ins as [|i ins IH]; intros s S M l Hs Hal Hst; cbn [tx_run].
  { exists s, [], S, M, l, []. cbn. rewrite app_nil_r. split_and!; try done; constructor. }
  destruct Hal as [Hi Hal]. apply Forall_cons in Hst as [(Hr & Hm & Hrw & Hct) Hst].
  destruct (tx_step_spec make_engine prot s S M l i compress_ok) as (s1 & ev1 & S1 & M1 & l1 & E1 & Hs1 & Ec & Hpr); [congruence|done..|].
  rewrite E1. cbn [mbind option_bind]. destruct (Hpr Hr) as (Hpre1 & Hsub1 & Hem1). destruct (Hem1 Hct) as (cs1 & Hf1 & Hgo1).
  destruct (Hgo1 Hrw) as (Hle1 & Hso1 & Hra1).
  destruct (IH s1 S1 M1 l1) as (s2 & ev2 & S2 & M2 & l2 & cs2 & -> & Hs2 & Ec2 & Hpre2 & Hsub2 & Hle2 & Hf2 & Hso2 & Hra2); [done|by eapply Hal|by rewrite Ec|].
  cbn [mbind option_bind]. eexists s2, _, S2, M2, l2, (cs1 ++ cs2). split; [reflexivity|]. rewrite Ec in *. split_and!; try done; try lia.
  - by etransitivity.
  - etransitivity; [exact Hsub2|]. cbn [mbind list_bind]. rewrite !app_assoc. apply sublist_app; [|done]. by rewrite <- !app_assoc.
  - unfold tx_pdus. rewrite omap_app. apply Forall2_app; [|done]. eapply Forall2_impl; [exact Hf1|]. intros c pdu. by apply pdu_of_mono.
  - apply (sorted_app_lt prot _ _ (tx_trans_crypto (pt_st (tm_entity s1)))); [done..| |]; eapply Forall_impl; [exact Hra1| |exact Hra2|]; cbn; lia.
  - apply Forall_app. split; eapply Forall_impl; [exact Hra1| |exact Hra2|]; cbn; lia.
Qed.

(** C17. The PDCP transmitter is robust. Construct it with a valid configuration whose hard COUNT limit is below 2^32 and feed it
    any sequence of inputs: SDUs, any order of the tasks it hands to its executors and any loss of them, timer expiries,
    notifications of RLC, status reports and feedback of the peer, buffering, suspension, re-establishment, data recovery and
    security configurations. As long as headers find memory and compression does not fail, reports carry no bitmap while the
    discard timer is finite, an SRB is not used beyond its window, and suspension and re-establishment wait for the tasks in
    flight, no assertion fails, no loop runs out of fuel, and the invariant holds: TX_NEXT_ACK <= TX_TRANS <= TX_NEXT < 2^32,
    the window has exact totals and holds only SDUs between TX_NEXT_ACK and TX_NEXT, within one window size, without gaps while
    a finite discard timer is configured, and the COUNT of every SDU is its place among the SDUs taken. *)
Theorem pdcp_tx_robust cfg win rohc e ins :
  tx_cfg_ok cfg -> tx_new_window (tc_base cfg) win -> maker_total make_engine ->
  pdcp_tx_new cfg win rohc = Some e -> tx_allowed_run make_engine (TxSys e [] []) ins ->
  exists s ev S M l, tx_run make_engine (TxSys e [] []) ins = Some (s, ev) /\ tm_inv (fun _ _ _ => True) s S M l.
Proof.
  intros Hcfg Hw Htot Hnew Hal. destruct (tx_new_initial cfg win rohc Hcfg) as (o & Ho & Hnew'). rewrite Hnew in Hnew'. injection Hnew' as ->.
  apply (tx_run_spec _ ins _ [] ∅ []); try done. apply tx_initial_inv; try done; cbn [ts_pool]; [by rewrite length_replicate|].
  by apply Forall_replicate.
Qed.

(** Inputs that are allowed in every state of a DRB *)
Definition tx_allowed_always (cfg : pdcp_tx_config) (i : @tx_input R) : Prop :=
  match i with
  | TiSdu v _ _ => g_room v = true
  | TiCrypto worker_idx _ _ => 0 <= worker_idx < tc_max_nof_crypto_workers cfg
  | TiStatusReport _ buf => bytes_ok buf /\ (tx_finite cfg = true -> (length buf <= 5)%nat)
  | TiRohcFeedback _ buf => bytes_ok buf /\ buf <> []
  | TiEndBuffering v _ => forall n, g_room (v n) = true
  | TiSuspend | TiReestablish _ _ _ | TiDataRecovery _ _ | TiConfigure _ _ _ => False
  | _ => True
  end.

Lemma tx_allowed_static prot ins : forall s S M l,
  tm_inv prot s S M l -> is_srb (pt_base (tm_entity s)) = false -> Forall (tx_allowed_always (pt_cfg (tm_entity s))) ins -> tx_allowed_run make_engine s ins.
Proof.
  induction ins as [|i ins IH]; intros s S M l Hs Hd Hl; [done|]. apply Forall_cons in Hl as [Hi Hl].
  assert (Hsrb : forall n, tx_srb_room (tm_entity s) n) by (intros n Hn; congruence).
  assert (Hal : tx_allowed s i) by (destruct i; try done; by split). split; [done|]. intros s' ev E1.
  destruct (tx_step_spec make_engine prot s S M l i compress_ok) as (s1 & ev1 & S1 & M1 & l1 & E2 & Hs1 & Ecfg & _); [by destruct i|done..|].
  rewrite E2 in E1. injection E1 as -> ->. apply (IH s' S1 M1 l1 Hs1); unfold pt_base; by rewrite Ecfg.
Qed.

(** ** Streams *)

(** The system after the construction and one security configuration that gave every worker the engine [o]; [None] is the null
    engine of an SRB without security. *)
Definition tx_ready (cfg : pdcp_tx_config) (win : W) (o : option E) (integ : integrity_enabled) (ciph : ciphering_enabled) : system :=
  TxSys (tx_initial cfg win None (TxSec (replicate (Z.to_nat (tc_max_nof_crypto_workers cfg)) o) integ ciph)) [] [].

Lemma protected_prot b o : SecurityTxLaws E -> engine_prot (tx_protected b o) b o.
Proof.
  intros Hlaws room buf count. unfold tx_protected. destruct o as [eng|]; [|done]. cbn zeta. intros Hs.
  by rewrite (protect_any_room room eng buf _ count Hs) in Hs |- *.
Qed.

Lemma tx_ready_inv cfg win o integ ciph :
  SecurityTxLaws E -> tx_cfg_ok cfg -> tx_new_window (tc_base cfg) win ->
  tm_inv (tx_protected (tc_base cfg) o) (tx_ready cfg win o integ ciph) [] ∅ [].
Proof.
  intros Hlaws Hcfg Hw. apply tx_initial_inv; try done; cbn [ts_pool]; [by rewrite length_replicate|].
  apply Forall_replicate. by apply protected_prot.
Qed.

(** The PDU of the SDU with COUNT [c]: header and SDU, protected with that COUNT *)
Definition sdu_pdu (b : pdcp_base) (o : option E) (S : list (list Z)) (c : Z) (pdu : list Z) : Prop :=
  exists sdu, S !! Z.to_nat c = Some sdu /\ tx_protected b o c (pdcp_header_octets (pb_sn_size b) (is_srb b) (SN b c) ++ sdu) pdu.

Lemma tx_ready_stream cfg win o integ ciph ins :
  SecurityTxLaws E -> tx_cfg_ok cfg -> tx_new_window (tc_base cfg) win -> tc_header_compression cfg = false ->
  tx_allowed_run make_engine (tx_ready cfg win o integ ciph) ins -> Forall (tx_streams cfg) ins ->
  exists s ev S cs, tx_run make_engine (tx_ready cfg win o integ ciph) ins = Some (s, ev) /\
    S `sublist_of` (ins ≫= tx_given) /\ Z.of_nat (length S) = tx_next (pt_st (tm_entity s)) /\
    StronglySorted Z.lt cs /\ Forall (fun c => 0 <= c < tx_next (pt_st (tm_entity s))) cs /\
    Forall2 (sdu_pdu (tc_base cfg) o S) cs (tx_pdus ev) /\ tx_next (pt_st (tm_entity s)) < 2 ^ 32.
Proof.
  intros Hlaws Hcfg Hw Hhc Hal Hst. pose proof (tx_ready_inv cfg win o integ ciph Hlaws Hcfg Hw) as Hs.
  destruct (tx_run_stream _ ins _ _ _ _ Hs Hal Hst) as (s & ev & S & M & l & cs & Erun & Hi & Ec & _ & Hsub & _ & Hpdu & Hso & Hra).
  exists s, ev, S, cs. destruct Hi as (_ & _ & _ & _ & (_ & _ & _ & _ & _ & _ & Hord & Hn & _ & HS & _) & _).
  split_and!; try done.
  - etransitivity; [|exact Hsub]. by apply sublist_inserts_r.
  - eapply Forall_impl; [exact Hra|]. cbn. lia.
  - eapply Forall2_impl; [exact Hpdu|]. intros c pdu (buf & (sdu & -> & HSc) & Hp). exists sdu. by split; [apply HSc|].
Qed.

(** C9. The stream of a PDCP transmitter. Take any run with one set of keys and without header compression, re-establishment,
    suspension, data recovery and control PDUs, in which headers find memory, reports carry no bitmap while the discard timer is
    finite and an SRB is not used beyond its window; the tasks run in any order, on any workers, and any of them may be lost. Some
    of the SDUs given, [S], in their order, get the COUNTs 0, 1, 2, ..., TX_NEXT - 1. Every PDU handed to RLC is the header with
    the SN of a COUNT [c] and the SDU of that COUNT, ciphered and protected with [c] under the keys; the COUNTs of the PDUs
    strictly increase, so that no COUNT is ever used for two PDUs. *)
Theorem pdcp_tx_stream cfg win o integ ciph ins :
  SecurityTxLaws E -> tx_cfg_ok cfg -> tx_new_window (tc_base cfg) win -> tc_header_compression cfg = false ->
  tx_allowed_run make_engine (tx_ready cfg win o integ ciph) ins -> Forall (tx_streams cfg) ins ->
  exists s ev S cs, tx_run make_engine (tx_ready cfg win o integ ciph) ins = Some (s, ev) /\
    S `sublist_of` (ins ≫= tx_given) /\ Z.of_nat (length S) = tx_next (pt_st (tm_entity s)) /\
    StronglySorted Z.lt cs /\ Forall (fun c => 0 <= c < tx_next (pt_st (tm_entity s))) cs /\
    Forall2 (sdu_pdu (tc_base cfg) o S) cs (tx_pdus ev).
Proof. intros. destruct (tx_ready_stream cfg win o integ ciph ins) as (s & ev & S & cs & ? & ? & ? & ? & ? & ? & _); [done..|]. by exists s, ev, S, cs. Qed.

End correct.

(** ** Status reports *)
Section status_exact.
Context {E R W : Type} `{SecurityEngineTx E, RohcCompressor R}.
Context `{SduWindowLaws pdcp_tx_window_element W pdcp_tx_window_element_init}
  `{!SduWindowClear pdcp_tx_window_element W} `{!SduWindowClearLaws pdcp_tx_window_element W}.
Notation entity := (pdcp_entity_tx E R W).

Lemma tx_report_exact prot S (e : entity) M b1 b2 b3 b4 bm :
  tx_core prot S e M -> bytes_ok (b1 :: b2 :: b3 :: b4 :: bm) -> Z.of_nat (length bm) < 2 ^ 32 -> tc_discard_timer (pt_cfg e) <> None ->
  let fmc := be_val [b1; b2; b3; b4] in
  exists e' ev, tx_handle_status_report true (0 :: b1 :: b2 :: b3 :: b4 :: bm) e = Some (e', ev) /\
    if status_acceptable (tx_next (pt_st e)) fmc bm then
      tx_next (pt_st e') = tx_next (pt_st e) /\ exists M', win_holds (xw_window (pt_window e')) M' /\
        forall k x, M' !! k = Some x <-> M !! k = Some x /\ ~ (k < fmc \/ acked_by (Dec bm 0) fmc k)
    else e' = e /\ TxProtocolFailure ∈ ev.
Proof.
  intros Hc Hb Hlen Hdt fmc. assert (Hb4 : bytes_ok [b1; b2; b3; b4] /\ bytes_ok bm) by by apply Forall_app. destruct Hb4 as [Hb4 Hbm].
  pose proof (be_val_range _ Hb4) as Hv. change (2 ^ (8 * Z.of_nat (length [b1; b2; b3; b4]))) with (2 ^ 32) in Hv. fold fmc in Hv.
  unfold tx_handle_status_report. cbn [negb]. rewrite control_header_octet by (unfold is_byte; lia). cbn [mbind option_bind].
  change ((0 / 128 =? 0) && (0 / 16 mod 8 =? cpt_to_number status_report) && (0 mod 16 =? 0)) with true. cbn iota.
  rewrite unpack_count by done. cbn [mbind option_bind]. fold fmc.
  destruct (tx_check_spec prot S e M [0; b1; b2; b3; b4] fmc bm Hc) as (ev0 & Echeck & _ & _ & Hfail); [done..|].
  cbn [app] in Echeck. rewrite Echeck. destruct (status_acceptable _ fmc bm); cbn [negb]; [|by exists e, ev0; auto].
  destruct (tx_status_spec prot S fmc bm e M Hc Hbm Hv) as (e' & ev & M' & E1 & Hk & _ & _ & Hr).
  destruct (tx_fmc_loop _ _ fmc e) as [[e1 ev1]|]; cbn [mbind option_bind] in E1 |- *; [|done].
  change (8 * length (0%Z :: b1 :: b2 :: b3 :: b4 :: bm))%nat with (8 * (5 + length bm))%nat.
  destruct (tx_bitmap_loop _ fmc _ e1) as [[e2 ev2]|]; cbn [mbind option_bind] in E1 |- *; [|done]. injection E1 as <- <-.
  eexists _, _. split; [reflexivity|]. destruct Hk as (_ & _ & En & _ & _ & _ & _ & (_ & Hw & _)). split; [done|].
  exists M'. split; [exact Hw|]. by apply Hr.
Qed.

(** C18. The effect of a status report on the transmitter. A report with FMC and bitmap is accepted if and only if FMC <= TX_NEXT,
    the bitmap is not longer than the SDUs after FMC need, and its last octet, shifted left by the number of bits that the
    SDUs after FMC leave in it, is zero. An accepted report takes exactly the SDUs below FMC and those whose bit is 1 out of the
    window, and never moves TX_NEXT; one that is not accepted changes nothing and is a protocol failure. *)
Theorem pdcp_status_report_exact prot S (e : entity) M b1 b2 b3 b4 bm :
  tx_core prot S e M -> bytes_ok (b1 :: b2 :: b3 :: b4 :: bm) -> Z.of_nat (length bm) < 2 ^ 32 -> tc_discard_timer (pt_cfg e) <> None ->
  let fmc := be_val [b1; b2; b3; b4] in
  exists e' ev, tx_handle_status_report true (0 :: b1 :: b2 :: b3 :: b4 :: bm) e = Some (e', ev) /\
    if status_acceptable (tx_next (pt_st e)) fmc bm then
      tx_next (pt_st e') = tx_next (pt_st e) /\ exists M', win_holds (xw_window (pt_window e')) M' /\
        forall k x, M' !! k = Some x <-> M !! k = Some x /\ ~ (k < fmc \/ acked_by (Dec bm 0) fmc k)
    else e' = e /\ TxProtocolFailure ∈ ev.
Proof. apply tx_report_exact. Qed.
End status_exact.

(** ** An instance *)
#[export] Instance octet_compression : RohcCompressor unit := { compress _ buf := (0 :: buf, tt); handle_feedback _ _ := (true, tt) }.
Lemma octet_compression_ok (r : unit) buf : (compress r buf).1 <> [].
Proof. done. Qed.

Definition sample_tx_window : circular_map pdcp_tx_window_element := CMap (replicate (Z.to_nat (2 ^ 11)) None) 0.
Definition sample_tx_cfg : pdcp_tx_config :=
  TxConfig (Base rb_drb mode_am 2 2048 pdcp_size12bits) 0 dir_downlink false (Some discard_timer_infinity) false pdcp_tx_default_max_count false 2.

Lemma sample_tx_ok : tx_cfg_ok sample_tx_cfg /\ tx_new_window (tc_base sample_tx_cfg) sample_tx_window.
Proof.
  split; [split_and!; [reflexivity|done|vm_compute; congruence..]|]. destruct (circular_fresh pdcp_tx_window_element_init 11) as [Hi Hn]; [done|].
  by split_and!.
Qed.

Definition sample_grant : tx_grant := Grant true true true.
(** Two SDUs whose crypto tasks finish in the opposite order *)
Definition sample_tx_run : list (@tx_input unit) :=
  [TiDesiredBufferSize 1000; TiSdu sample_grant 0 [10]; TiSdu sample_grant 0 [11]; TiCrypto 1 true 1; TiCrypto 0 true 0; TiTask 0 0; TiTask 0 0].

Abbreviation sample_tx_ready := (tx_ready sample_tx_cfg sample_tx_window (Some sample_engine) integrity_on ciphering_on).

Lemma sample_tx_inv : tm_inv (tx_protected (tc_base sample_tx_cfg) (Some sample_engine)) (sample_tx_ready : @tx_system _ unit _) [] ∅ [].
Proof. apply (tx_ready_inv sample_maker); [apply _|apply sample_tx_ok..]. Qed.

Lemma sample_tx_allowed : tx_allowed_run sample_maker sample_tx_ready sample_tx_run.
Proof.
  eapply tx_allowed_static; [apply octet_compression_ok|apply sample_tx_inv|done|]. unfold sample_tx_run.
  apply Forall_cons_2; [done|]. do 2 (apply Forall_cons_2; [done|]). do 2 (apply Forall_cons_2; [cbn; lia|]). by do 2 (apply Forall_cons_2; [done|]).
Qed.

Lemma sample_maker_total : maker_total sample_maker.
Proof.
  intros sec_cfg id dir integ ciph Hi. unfold sample_maker, security_engine_new. destruct (decide (integ = integrity_off)) as [|Hn]; [by eexists|].
  destruct Hi as [?|[[k Hk] [a Ha]]]; [done|]. rewrite Hk, Ha. by eexists.
Qed.

(** The entity as it is constructed and then configured is the one that [tx_ready] describes. *)
Definition sample_tx_new : pdcp_entity_tx (security_engine_impl integrity_engine_generic xor_cipher) unit (circular_map pdcp_tx_window_element) :=
  tx_initial sample_tx_cfg sample_tx_window None (TxSec (replicate 2 None) integrity_off ciphering_off).
Definition sample_configure : @tx_input unit :=
  TiConfigure (SecCfg domain_up (Some [1; 2; 3]) [77] (Some nia2) nea2) integrity_on ciphering_on.

Lemma sample_configured : tx_step sample_maker (TxSys sample_tx_new [] []) sample_configure = Some (sample_tx_ready, []).
Proof. reflexivity. Qed.

Lemma pdcp_tx_robust_witness :
  exists s ev S M l, tx_run sample_maker (TxSys sample_tx_new [] []) (sample_configure :: sample_tx_run) = Some (s, ev) /\
    tm_inv (fun _ _ _ => True) s S M l.
Proof.
  apply (pdcp_tx_robust sample_maker octet_compression_ok sample_tx_cfg sample_tx_window None sample_tx_new (sample_configure :: sample_tx_run));
    [apply sample_tx_ok..|apply sample_maker_total|reflexivity|].
  split; [by split_and!|]. intros s' ev E1. rewrite sample_configured in E1. injection E1 as <- <-. apply sample_tx_allowed.
Defined.

Lemma pdcp_tx_stream_witness :
  exists s ev S cs, tx_run sample_maker sample_tx_ready sample_tx_run = Some (s, ev) /\
    S `sublist_of` [[10]; [11]] /\ Z.of_nat (length S) = tx_next (pt_st (tm_entity s)) /\
    StronglySorted Z.lt cs /\ Forall (fun c => 0 <= c < tx_next (pt_st (tm_entity s))) cs /\
    Forall2 (sdu_pdu (tc_base sample_tx_cfg) (Some sample_engine) S) cs (tx_pdus ev).
Proof.
  apply (pdcp_tx_stream sample_maker octet_compression_ok sample_tx_cfg sample_tx_window (Some sample_engine) integrity_on ciphering_on sample_tx_run);
    [apply _|apply sample_tx_ok..|done|apply sample_tx_allowed|by repeat constructor].
Defined.

(** The run sends both PDUs, in order, although the second one was ready first. *)
Example sample_tx_run_sends :
  (fun r => (length <$> tx_pdus r.2, take 2 <$> tx_pdus r.2)) <$> tx_run sample_maker sample_tx_ready sample_tx_run =
  Some ([7%nat; 7%nat], [[0x80; 0]; [0x80; 1]]).
Proof. vm_compute. reflexivity. Qed.

Lemma pdcp_status_report_exact_witness :
  exists s ev (M : gmap Z pdcp_tx_window_element), tx_run sample_maker sample_tx_ready sample_tx_run = Some (s, ev) /\ tx_next (pt_st (tm_entity s)) = 2 /\
    exists e' ev', tx_handle_status_report true [0; 0; 0; 0; 0; 0x80] (tm_entity s) = Some (e', ev') /\
      if status_acceptable (tx_next (pt_st (tm_entity s))) (be_val [0; 0; 0; 0]) [0x80] then
        tx_next (pt_st e') = tx_next (pt_st (tm_entity s)) /\ exists M', win_holds (xw_window (pt_window e')) M' /\
          forall k x, M' !! k = Some x <-> M !! k = Some x /\ ~ (k < be_val [0; 0; 0; 0] \/ acked_by (Dec [0x80] 0) (be_val [0; 0; 0; 0]) k)
      else e' = tm_entity s /\ TxProtocolFailure ∈ ev'.
Proof.
  destruct (tx_run_stream sample_maker octet_compression_ok _ _ _ _ _ _ sample_tx_inv sample_tx_allowed) as (s & ev & S & M & l & cs & Erun & Hi & Ec & _);
    [by repeat constructor|].
  exists s, ev, M. split; [exact Erun|].
  assert (En : (fun r => tx_next (pt_st (tm_entity r.1))) <$> tx_run sample_maker sample_tx_ready sample_tx_run = Some 2) by (vm_compute; reflexivity).
  rewrite Erun in En. injection En as En. split; [exact En|].
  destruct Hi as (_ & _ & _ & _ & Hcore & _).
  apply (pdcp_status_report_exact _ S (tm_entity s) M 0 0 0 0 [0x80] Hcore); [repeat constructor; by vm_compute|done|by rewrite Ec].
Defined.

(** ** Runs of the PDCP transmitter that depart from what its comments or TS 38.323 ask for

    Each is computed on the model with the circular map and the sample engines. *)
Section runs.
Context (mode : pdcp_rlc_mode) (discard : option Z).
Definition findings_cfg : pdcp_tx_config :=
  TxConfig (Base rb_drb mode 2 2048 pdcp_size12bits) 0 dir_downlink false discard false pdcp_tx_default_max_count false 2.
Definition findings_run (ins : list (@tx_input unit)) :=
  tx_run sample_maker (tx_ready findings_cfg sample_tx_window (Some sample_engine) integrity_on ciphering_on) (TiDesiredBufferSize 1000 :: ins).
End runs.
Abbreviation give now buf := (TiSdu sample_grant now buf).
Definition new_keys : sec_128_as_config := SecCfg domain_up (Some [4; 5; 6]) [99] (Some nia2) nea2.
(** TX_NEXT_ACK, TX_NEXT and the expiry of the discard timer *)
Definition ack_next_timer (r : @tx_system (security_engine_impl integrity_engine_generic xor_cipher) unit (circular_map pdcp_tx_window_element) * list pdcp_tx_event) :=
  let e := tm_entity r.1 in (tx_next_ack (pt_st e), tx_next (pt_st e), pt_discard_timer e).

(** The discard timer is 100 ms. One SDU comes at 0 and one at 90. When the timer expires at 100 the first is discarded and the timer
    is restarted with a timeout of 0, computed from the arrival of the first, so the second is discarded 10 ms after its arrival. *)
Example discard_timer_too_early :
  ack_next_timer <$> findings_run mode_um (Some 100) [give 0 [1]; give 90 [2]; TiDiscardExpiry 100] = Some (1, 2, Some 100) /\
  ack_next_timer <$> findings_run mode_um (Some 100) [give 0 [1]; give 90 [2]; TiDiscardExpiry 100; TiDiscardExpiry 100] = Some (2, 2, None).
Proof. split; vm_compute; reflexivity. Qed.

(** Re-establishment of a UM bearer leaves the discard timer running: an SDU that comes at 95 is discarded when the timer started for
    an SDU of before the re-establishment expires at 100. *)
Example reset_keeps_discard_timer :
  ack_next_timer <$> findings_run mode_um (Some 100) [give 0 [1]; TiDropCrypto 0; TiReestablish None (fun _ => sample_grant) new_keys] = Some (0, 0, Some 100) /\
  ack_next_timer <$> findings_run mode_um (Some 100)
    [give 0 [1]; TiDropCrypto 0; TiReestablish None (fun _ => sample_grant) new_keys; give 95 [2]; TiDiscardExpiry 100] = Some (1, 1, None).
Proof. split; vm_compute; reflexivity. Qed.

(** Two SDUs; the PDU of the second waits in the window when the bearer is re-established with new keys. Both are processed again, but
    as soon as the first has its new PDU, the old PDU of the second is sent, and the new one never is. *)
Definition old_key_run : list (@tx_input unit) :=
  [give 0 [1]; give 0 [2]; TiCrypto 0 true 1; TiTask 0 0; TiDropCrypto 0; TiReestablish None (fun _ => sample_grant) new_keys;
   TiCrypto 0 true 0; TiTask 0 0; TiCrypto 0 true 0; TiTask 0 0].
Example reestablish_sends_old_key :
  exists s ev p0 p1, findings_run mode_am (Some discard_timer_infinity) old_key_run = Some (s, ev) /\ tx_pdus ev = [p0; p1] /\
    (exists eng, sample_maker new_keys 0 dir_downlink integrity_on ciphering_on = Some eng /\ p0 = (impl_encrypt_and_protect true eng [0x80; 0; 1] 2 0).2) /\
    p1 = (impl_encrypt_and_protect true sample_engine [0x80; 1; 2] 2 1).2 /\ tm_crypto s = [] /\ tm_tasks s = [].
Proof. eexists _, _, _, _. split; [vm_compute; reflexivity|]. split; [vm_compute; reflexivity|]. split; [|by vm_compute]. eexists. split; [reflexivity|by vm_compute]. Qed.

(** An SDU whose header finds no memory stays in the window under a COUNT that is used again: the next SDU fails an assertion. *)
Example lost_header_blocks_count :
  is_Some (findings_run mode_um None [TiSdu (Grant true false true) 0 [1]]) /\
  findings_run mode_um None [TiSdu (Grant true false true) 0 [1]; give 0 [2]] = None.
Proof. split; [eexists|]; vm_compute; reflexivity. Qed.

(** With a finite discard timer, a status report that acknowledges an SDU in the middle of the window makes the next delivery
    notification fail an assertion: it looks for the SDU after the last delivered one. *)
Example delivery_after_gap_fails :
  is_Some (findings_run mode_am (Some 100) [give 0 [1]; give 0 [2]; give 0 [3]; TiStatusReport true [0; 0; 0; 0; 0; 0x80]]) /\
  findings_run mode_am (Some 100) [give 0 [1]; give 0 [2]; give 0 [3]; TiStatusReport true [0; 0; 0; 0; 0; 0x80]; TiDelivery 10 0] = None.
Proof. split; [eexists|]; vm_compute; reflexivity. Qed.
