(* ===== verification/PdcpLink.v ===== *)
(** * A PDCP transmitter, a channel and a PDCP receiver

    The channel may lose, duplicate and reorder PDUs, as long as each arrives while its COUNT lies within one window of the
    receiver's RX_DELIV. *)
From Stdlib Require Import Sorted.
From S2P Require Import Prelude SduWindow CircularMap RingBuffer PdcpSn SecurityEngine PdcpBase PdcpRx PdcpRxFacts PdcpRxSteps PdcpRxCorrect PdcpTxWindow PdcpTx PdcpTxFacts PdcpTxOps PdcpTxSteps PdcpTxCorrect.

(** ** Lists at increasing positions *)

(** [xs] are the elements of [S] at the positions [ks]. *)
Abbreviation at_counts S ks xs := (Forall2 (fun k x => S !! Z.to_nat k = Some x) ks xs).

Lemma at_counts_sublist {A} (ks : list Z) : forall (S xs : list A) (m : Z),
  0 <= m -> StronglySorted Z.lt ks -> Forall (fun k => m <= k) ks -> at_counts S ks xs -> xs `sublist_of` drop (Z.to_nat m) S.
Proof.
  induction ks as [|k ks IH]; intros S xs m Hm Hs Hge Hat; inversion Hat as [|? x ? xs' Hx Hxs]; subst; [apply sublist_nil_l|].
  apply StronglySorted_inv in Hs as [Hs Hk]. apply Forall_cons in Hge as [Hkm _].
  assert (Hrest : xs' `sublist_of` drop (Z.to_nat (k + 1)) S).
  { apply IH; try done; [lia|]. eapply Forall_impl; [exact Hk|]. cbn. lia. }
  replace (Z.to_nat m) with (Z.to_nat k - (Z.to_nat k - Z.to_nat m))%nat by lia.
  transitivity (drop (Z.to_nat k) S).
  - rewrite (drop_S S x (Z.to_nat k) Hx). apply sublist_skip. by replace (Datatypes.S (Z.to_nat k)) with (Z.to_nat (k + 1)) by lia.
  - replace (drop (Z.to_nat k) S) with (drop (Z.to_nat k - Z.to_nat m) (drop (Z.to_nat m) S)) by (rewrite drop_drop; f_equal; lia).
    replace (Z.to_nat k - (Z.to_nat k - Z.to_nat m))%nat with (Z.to_nat m) by lia. apply sublist_drop.
Qed.

Lemma sublist_length_eq {A} (l1 l2 : list A) : l1 `sublist_of` l2 -> (length l2 <= length l1)%nat -> l1 = l2.
Proof.
  induction 1 as [|x l1 l2 Hs IH|x l1 l2 Hs IH]; cbn; [done|intros ?; f_equal; apply IH; lia|].
  apply sublist_length in Hs. lia.
Qed.

Lemma sdus_between_step M a d :
  a < d -> sdus_between M a d = match M !! a ≫= pending_sdu with Some x => [x] | None => [] end ++ sdus_between M (a + 1) d.
Proof.
  intros Ha. unfold sdus_between. rewrite seqZ_cons by lia. replace (Z.pred (d - a)) with (d - (a + 1)) by lia. rewrite Z.add_1_r.
  cbn [omap list_omap]. by destruct (M !! a ≫= pending_sdu).
Qed.

(** What the receiver delivers between two COUNTs, when its window holds SDUs of [S] at their COUNTs *)
Lemma sdus_between_at (S : list (list Z)) M d : (forall k s, M !! k = Some s -> S !! Z.to_nat k = Some (si_buf s)) -> forall n a, d - a = Z.of_nat n ->
  exists ks, StronglySorted Z.lt ks /\ Forall (fun k => a <= k) ks /\ at_counts S ks (fst <$> sdus_between M a d).
Proof.
  intros HM. induction n as [|n IH]; intros a Hn.
  { exists []. rewrite sdus_between_nil by lia. split_and!; constructor. }
  destruct (IH (a + 1)) as (ks & Hs & Hge & Hat); [lia|]. rewrite sdus_between_step by lia.
  destruct (M !! a) as [s|] eqn:Ea; cbn [mbind option_bind].
  2: { exists ks. split_and!; try done. eapply Forall_impl; [exact Hge|]. cbn. lia. }
  unfold pending_sdu. destruct (is_nil (si_buf s)); cbn [app].
  { exists ks. split_and!; try done. eapply Forall_impl; [exact Hge|]. cbn. lia. }
  exists (a :: ks). split_and!.
  - constructor; [done|]. eapply Forall_impl; [exact Hge|]. cbn. lia.
  - constructor; [lia|]. eapply Forall_impl; [exact Hge|]. cbn. lia.
  - cbn. constructor; [by apply HM|done].
Qed.

(** Without a gap and without empty SDUs it delivers all of them. *)
Lemma sdus_between_all (S : list (list Z)) M d : (forall k s, M !! k = Some s -> S !! Z.to_nat k = Some (si_buf s)) -> Forall (fun x => x <> []) S ->
  forall n a, d - a = Z.of_nat n -> 0 <= a -> (forall k, a <= k < d -> is_Some (M !! k)) ->
  fst <$> sdus_between M a d = take n (drop (Z.to_nat a) S).
Proof.
  intros HM Hne. induction n as [|n IH]; intros a Hn Ha Hall; [by rewrite sdus_between_nil by lia|].
  destruct (Hall a) as [s Es]; [lia|]. pose proof (HM a s Es) as HS. rewrite sdus_between_step, Es by lia. cbn [mbind option_bind].
  unfold pending_sdu. rewrite Forall_lookup in Hne. specialize (Hne _ _ HS). destruct (si_buf s) as [|x l] eqn:Eb; [done|]. cbn [is_nil app fmap list_fmap fst].
  rewrite (drop_S S (x :: l) (Z.to_nat a) HS). cbn [take]. f_equal.
  replace (Datatypes.S (Z.to_nat a)) with (Z.to_nat (a + 1)) by lia. apply IH; [lia..|]. intros k Hk. apply Hall. lia.
Qed.

(** ** The receiving end *)

(** The engine [o] recovers [sdu] from [pdu]; [None] is the null engine of an SRB. *)
Definition rx_recovers {E} `{SecurityEngineRx E} (b : pdcp_base) (o : option E) (c : Z) (sdu pdu : list Z) : Prop :=
  exists hdr, Z.of_nat (length hdr) = pdcp_data_header_size (pb_sn_size b) /\
    match o with
    | Some eng => let r := decrypt_and_verify_integrity eng pdu (pdcp_data_header_size (pb_sn_size b)) c in is_success r.1 = true /\ r.2 = hdr ++ sdu
    | None => is_srb b = true /\ pdu = (hdr ++ sdu) ++ zero_mac
    end.

Section receiver.
Context {E R W : Type} `{SecurityEngineRx E, RohcDecompressor R}.
Context `{SduWindowLaws pdcp_rx_sdu_info W pdcp_rx_sdu_info_init}
  `{!SduWindowClear pdcp_rx_sdu_info W} `{!SduWindowClearLaws pdcp_rx_sdu_info W}.
Context (make_engine : engine_maker E) (may_protect : bool) `{!EngineMakerLaws make_engine}.
Notation entity := (pdcp_entity_rx E R W).
Notation system := (@rx_system E R W).
Implicit Types (e : entity) (s : system) (M : rx_map).
Notation deliv s := (rx_deliv (pr_st (sy_entity s))).
Notation base s := (pr_base (sy_entity s)).

(** The SDUs that were sent, the PDUs that were sent with their COUNTs, and the engine of the receiver *)
Context (S : list (list Z)) (sent : Z -> list Z -> Prop) (o : option E).

(** Every PDU that was sent can be read and recovered. *)
Definition sent_ok (b : pdcp_base) : Prop := forall c pdu sn,
  sent c pdu -> read_data_pdu_header b pdu = Some sn -> 0 <= c < 2 ^ 32 /\ sn = SN b c /\ exists sdu, S !! Z.to_nat c = Some sdu /\ rx_recovers b o c sdu pdu.

(** What arrives: PDUs that were sent, while their COUNT is within one window of RX_DELIV, and control PDUs. The receiver keeps its
    keys and is neither suspended nor buffering. *)
Definition rx_fed_input s (i : @rx_input R) : Prop :=
  match i with
  | RiPdu _ buf =>
      (exists c, sent c buf /\ deliv s - half (base s) <= c < deliv s + half (base s)) \/
      is_srb (base s) = false /\ pdcp_pdu_get_dc (nth 0 buf 0) = dc_control
  | RiBeginBuffering | RiEndBuffering _ | RiSuspend | RiReestablish _ _ | RiConfigure _ _ _ => False
  | _ => True
  end.
Fixpoint rx_fed s (l : list (@rx_input R)) : Prop :=
  match l with
  | [] => True
  | i :: l => rx_fed_input s i /\ forall s' ev, rx_step make_engine s i = Some (s', ev) -> rx_fed s' l
  end.

Definition of_sent (x : pdcp_rx_pdu_info) : Prop := S !! Z.to_nat (pi_count x) = Some (pi_buf x).
Definition link_inv s : Prop :=
  rs_pool (pr_sec (sy_entity s)) = replicate (Z.to_nat (rc_max_nof_crypto_workers (pr_cfg (sy_entity s)))) o /\
  rk_buffering (pr_ctl (sy_entity s)) = false /\
  Forall (fun i => sent (pi_count i) (pi_buf i) /\ is_Some (read_data_pdu_header (base s) (pi_buf i))) (sy_crypto s) /\
  Forall (fun t => match t with RxReorder x => of_sent x | _ => True end) (sy_tasks s).

Lemma rx_handle_pdu_tasks copy_ok buf e e' ev i :
  rk_buffering (pr_ctl e) = false -> rx_handle_pdu copy_ok buf e = Some (e', ev) -> i ∈ rx_crypto_tasks ev ->
  (is_srb (pr_base e) = true \/ pdcp_pdu_get_dc (nth 0 buf 0) = dc_data) /\
  exists sn, read_data_pdu_header (pr_base e) buf = Some sn /\ i = RxPduInfo buf (rx_rcvd_count sn e) false.
Proof.
  intros Hb. unfold rx_handle_pdu. destruct (rk_stopped _); [by intros [= <- <-] ?%elem_of_nil|].
  set (r := if rk_suspended (pr_ctl e) && _ then _ else _).
  assert (Hr : exists e1 ev1, r = (e1, ev1) /\ rx_crypto_tasks ev1 = [] /\ rk_buffering (pr_ctl e1) = false /\ pr_base e1 = pr_base e /\ pr_st e1 = pr_st e).
  { unfold r. destruct (_ && _); by eexists _, _. }
  destruct Hr as (e1 & ev1 & -> & Hq & Hb1 & Eb & Est). rewrite Hb1.
  assert (Hno : forall l, rx_crypto_tasks l = [] -> i ∈ rx_crypto_tasks ((ev1 ++ [RxAddPdus 1 (buf_len buf)]) ++ l) -> False).
  { intros l Hl. rewrite !rx_crypto_tasks_app, Hq, Hl. by intros ?%elem_of_nil. }
  destruct (is_nil buf); [intros [= <- <-] Hi; by case (fun E => Hno _ E Hi)|].
  destruct (negb copy_ok); [intros [= <- <-] Hi; by case (fun E => Hno _ E Hi)|].
  destruct (is_srb (pr_base e1) || _) eqn:Ed.
  - rewrite Eb in Ed. unfold rx_handle_data_pdu. rewrite Eb. intros Hrun Hi. split.
    { apply orb_true_iff in Ed as [Ed|Ed]; [by left|right]. by apply bool_decide_eq_true in Ed. }
    destruct (_ <=? _) in Hrun; [injection Hrun as <- <-; by case (fun E => Hno _ E Hi)|].
    destruct (read_data_pdu_header (pr_base e) buf) as [sn|]; [|injection Hrun as <- <-; by case (fun E => Hno _ E Hi)].
    exists sn. split; [done|]. set (nt := (_ <? _) && _) in Hrun.
    assert (Hn : exists e2 ev2, (if nt then (pr_set_max_count true (rk_max_count_overflow (pr_ctl e1)) e1, [RxMaxCountReached]) else (e1, [])) = (e2, ev2) /\
      rx_crypto_tasks ev2 = []) by (destruct nt; by eexists _, _).
    destruct Hn as (e2 & ev2 & En & Hq2). rewrite En in Hrun.
    assert (Hno2 : forall l, rx_crypto_tasks l = [] -> rx_crypto_tasks ([RxAddDataPdus 1 (buf_len buf)] ++ ev2 ++ l) = []).
    { intros l Hl. rewrite !rx_crypto_tasks_app, Hq2, Hl. done. }
    destruct (_ <=? _) in Hrun.
    + destruct (negb _) in Hrun; injection Hrun as <- <-; [by case (fun E => Hno _ (Hno2 [RxProtocolFailure] E) Hi)|].
      destruct (Hno ([RxAddDataPdus 1 (buf_len buf)] ++ ev2)); [|done]. by rewrite rx_crypto_tasks_app, Hq2.
    + injection Hrun as <- <-. change (RxAddDataPdus ?n ?m :: ?l) with ([RxAddDataPdus n m] ++ l) in Hi.
      rewrite !rx_crypto_tasks_app, Hq, Hq2 in Hi. cbn in Hi. apply list_elem_of_singleton in Hi as ->.
      f_equal. unfold rx_rcvd_count. by rewrite Eb, Est.
  - unfold rx_handle_control_pdu. destruct (bool_decide _); [done|]. cbn [mbind option_bind]. intros [= <- <-] Hi.
    case (fun E => Hno _ E Hi). by destruct (pdcp_control_pdu_get_cpt _).
Qed.

Lemma sent_count b c sn lower pdu :
  pdcp_base_ok b -> sent_ok b -> sent c pdu -> read_data_pdu_header b pdu = Some sn -> 0 <= lower < 2 ^ 32 ->
  lower - half b <= c < lower + half b -> count_from_sn b lower sn = c.
Proof.
  intros Hb Hok Hs Hr Hl Hc. destruct (Hok c pdu sn Hs Hr) as (Hc32 & -> & _).
  destruct (count_from_sn_spec b lower (SN b c) Hb Hl (SN_range b c Hb Hc32)) as (c' & Hw & Em & ->).
  rewrite (in_window_unique (half b) lower c' c); [by apply uint_small|destruct (pdcp_base_fields b Hb) as (_ & _ & _ & _ & [[-> _]|[-> _]]); lia|done|done|].
  rewrite Em. by apply (pdcp_fields b c Hb Hc32).
Qed.

(** Steps of the receiver that do not touch its keys *)
Lemma link_keeps s e' ev :
  link_inv s -> pr_sec e' = pr_sec (sy_entity s) -> pr_cfg e' = pr_cfg (sy_entity s) -> rk_buffering (pr_ctl e') = false ->
  (forall i, i ∈ rx_crypto_tasks ev -> sent (pi_count i) (pi_buf i) /\ is_Some (read_data_pdu_header (base s) (pi_buf i))) ->
  (forall x, RxReorder x ∈ rx_ul_tasks ev -> of_sent x) -> link_inv (sy_after s (e', ev)).1.
Proof.
  intros (Hp & _ & Hc & Ht) Es Ec Hb Hci Hti. unfold link_inv, sy_after, pr_base in *. cbn [fst snd sy_entity sy_crypto sy_tasks]. rewrite Es, Ec.
  split_and!; try done; apply Forall_app; (split; [done|]); apply Forall_forall; [auto|]. intros [x|st c] Hx; [auto|done].
Qed.

Lemma link_inv_tasks s lc lt :
  link_inv s -> lc `sublist_of` sy_crypto s -> lt `sublist_of` sy_tasks s -> link_inv (RxSys (sy_entity s) lc lt).
Proof. intros (Hp & Hb & Hc & Ht) H1' H2'. split; [done|]. split; [done|]. split; by eapply forall_sublist. Qed.

Lemma link_pdu s M copy_ok buf s' ev :
  sent_ok (base s) -> sy_inv may_protect s M -> rx_allowed may_protect s (RiPdu copy_ok buf) -> rx_fed_input s (RiPdu copy_ok buf) -> link_inv s ->
  rx_step make_engine s (RiPdu copy_ok buf) = Some (s', ev) -> link_inv s'.
Proof.
  intros Hok (Hst & Hinv & _) Hal Hfed Hl E1. cbn [rx_step] in E1. pose proof Hst as (Hcfg & _ & Hbuf). pose proof Hinv as ((Hb & Hd & Hn & _) & _).
  destruct (rx_handle_pdu_spec make_engine may_protect copy_ok (sy_entity s) M buf Hcfg (proj1 Hinv) Hbuf Hal) as ([e' ev'] & Erun & (Hq & _ & _ & Hu & _) & Hkeep).
  destruct (Hkeep (proj1 (proj2 Hl))) as [_ Hbf]. rewrite Erun in E1. injection E1 as <- _. cbn [fst snd] in *. destruct Hq as (ctl & -> & _).
  apply link_keeps; try done; [|rewrite Hu; by intros x ?%elem_of_nil].
  intros i Hi. destruct (rx_handle_pdu_tasks copy_ok buf _ _ _ i (proj1 (proj2 Hl)) Erun Hi) as (Hdc & sn & Er & ->). cbn [pi_count pi_buf].
  destruct Hfed as [(c & Hs & Hw)|[Es Ed]]; [|destruct Hdc; congruence].
  unfold rx_rcvd_count. rewrite (sent_count _ c sn _ buf Hb Hok Hs Er) by (done || lia). by split; [|eexists].
Qed.

(** The engine recovers the SDU. *)
Lemma link_crypto s M worker_idx n i ev :
  sent_ok (base s) -> sy_inv may_protect s M -> link_inv s -> 0 <= worker_idx < rc_max_nof_crypto_workers (pr_cfg (sy_entity s)) ->
  sy_crypto s !! n = Some i -> rx_apply_security worker_idx i (sy_entity s) = Some ev -> forall x, RxReorder x ∈ rx_ul_tasks ev -> of_sent x.
Proof.
  intros Hok (Hst & Hinv & _ & Hlc & _) (Hpool & _ & Hc & _) Hwk Hn E1 x Hx. set (e := sy_entity s) in *.
  assert (Hci : crypto_ok may_protect e i) by (rewrite Forall_lookup in Hlc; exact (Hlc _ _ Hn)).
  rewrite Forall_lookup in Hc. destruct (Hc _ _ Hn) as [Hs [sn Er]].
  destruct (Hok _ _ _ Hs Er) as (_ & _ & sdu & HS & hdr & Hhdr & Hrec).
  destruct (rx_apply_security_spec make_engine may_protect worker_idx i e Hst Hci Hwk) as (st & out & ev' & Ec & Erun & _ & _ & Hu).
  rewrite E1 in Erun. injection Erun as <-. rewrite Hu in Hx. destruct (is_success st) eqn:Est; apply list_elem_of_singleton in Hx; [|done]. injection Hx as ->.
  unfold of_sent. cbn [pi_count pi_buf]. rewrite HS. f_equal.
  pose proof (proj1 Hinv) as (Hb & _). destruct (pdcp_base_fields _ Hb) as (_ & _ & _ & Eh & _).
  assert (Eout : out = hdr ++ sdu).
  { unfold rx_apply_deciphering_and_integrity_check in Ec. rewrite (proj2 (Z.leb_gt _ _)) in Ec by lia.
    rewrite Hpool, lookup_replicate_2 in Ec by lia. cbn [mbind option_bind] in Ec. destruct o as [eng|].
    - destruct Hrec as [_ <-]. by injection Ec as ->.
    - destruct Hrec as [Esrb Epdu]. unfold pr_base in *. rewrite Esrb in Ec. unfold sec_mac_len, buf_len in Ec. rewrite Epdu in Ec.
      destruct (_ <=? _) in Ec; [injection Ec as <- <-; done|].
      replace (length ((hdr ++ sdu) ++ zero_mac) - Z.to_nat 4)%nat with (length (hdr ++ sdu)) in Ec by (rewrite (length_app (hdr ++ sdu)); cbn; lia).
      rewrite drop_app_length, take_app_length, bool_decide_true in Ec by done. by injection Ec as _ <-. }
  rewrite Eout. replace (Z.to_nat (pb_hdr_len_bytes (pr_base e))) with (length hdr) by lia.
  by rewrite drop_app_length.
Qed.

Lemma link_step s M i s' ev :
  sent_ok (base s) -> sy_inv may_protect s M -> rx_allowed may_protect s i -> rx_fed_input s i -> link_inv s ->
  rx_step make_engine s i = Some (s', ev) -> link_inv s' /\ Forall of_sent (rx_ran s i).
Proof.
  intros Hok Hs Hal Hfed Hl E1. pose proof Hs as (Hst & Hinv & Hlive & _). pose proof Hl as (Hpool & Hbf & Hlc & Hlt).
  destruct i as [copy_ok buf|worker_idx n|n|n|n| | |copy_ok| | |rohc cfg|cfg integ ciph|]; try done; cbn [rx_ran].
  - split; [|done]. by eapply link_pdu.
  - split; [|done]. cbn [rx_step] in E1. destruct (sy_crypto s !! n) as [i|] eqn:En; [|by injection E1 as <- _].
    destruct (rx_apply_security worker_idx i (sy_entity s)) as [ev0|] eqn:Ea; [|done]. cbn [mbind option_bind] in E1. injection E1 as <- _.
    pose proof (link_crypto s M worker_idx n i ev0 Hok Hs Hl Hal En Ea) as Hul.
    apply (link_keeps (RxSys (sy_entity s) (delete n (sy_crypto s)) (sy_tasks s))); try done; [by apply link_inv_tasks; [|apply sublist_delete|]|].
    assert (Hi : crypto_ok may_protect (sy_entity s) i) by (destruct Hs as (_ & _ & _ & Hc & _); rewrite Forall_lookup in Hc; exact (Hc _ _ En)).
    destruct (rx_apply_security_spec make_engine may_protect worker_idx i (sy_entity s) Hst Hi Hal) as (st & out & ev' & _ & Erun & _ & Hc & _).
    rewrite Ea in Erun. injection Erun as <-. rewrite Hc. by intros j ?%elem_of_nil.
  - split; [|done]. injection E1 as <- _. by apply link_inv_tasks; [|apply sublist_delete|].
  - cbn [rx_step] in E1. pose proof (link_inv_tasks s (sy_crypto s) (delete n (sy_tasks s)) Hl ltac:(done) ltac:(apply sublist_delete)) as Hl0.
    destruct (sy_tasks s !! n) as [[x|st c]|] eqn:En; [| |by injection E1 as <- _].
    + destruct (step_reorder make_engine may_protect s M n x Hs En) as ([e' ev'] & M' & acc & Erun & _ & _ & (Ec & Es & Ectl & _) & [Hq1 Hq2]).
      rewrite Erun in E1. injection E1 as <- _. cbn [fst snd] in *. split.
      * apply (link_keeps (RxSys (sy_entity s) (sy_crypto s) (delete n (sy_tasks s)))); rewrite ?Hq1, ?Hq2; try done; [by rewrite Ectl| |]; by intros ? ?%elem_of_nil.
      * constructor; [|done]. rewrite Forall_lookup in Hlt. exact (Hlt _ _ En).
    + split; [|done]. injection E1 as <- _.
      apply (link_keeps (RxSys (sy_entity s) (sy_crypto s) (delete n (sy_tasks s)))); try done; destruct st; by intros ? ?%elem_of_nil.
  - split; [|done]. injection E1 as <- _. by apply link_inv_tasks; [| |apply sublist_delete].
  - split; [|done]. cbn [rx_step] in E1. destruct (pr_timer (sy_entity s)) eqn:Et; [|by injection E1 as <- _].
    destruct (step_expiry make_engine may_protect s M Hs Et) as ([e' ev'] & M' & Erun & _ & _ & (Ec & Es & Ectl & _) & [Hq1 Hq2]).
    rewrite Erun in E1. injection E1 as <- _. cbn [fst snd] in *. apply link_keeps; rewrite ?Hq1, ?Hq2; try done; [by rewrite Ectl| |]; by intros ? ?%elem_of_nil.
  - split; [|done]. injection E1 as <- _. unfold rx_resume. rewrite Hbf, orb_true_r. cbn [snd].
    apply (link_keeps s (sy_entity s) []); try done; by intros ? ?%elem_of_nil.
  - split; [|done]. injection E1 as <- _. 
    assert (Hstop : exists e', rx_stop (sy_entity s) = e' /\ pr_sec e' = pr_sec (sy_entity s) /\ pr_cfg e' = pr_cfg (sy_entity s) /\ rk_buffering (pr_ctl e') = false).
    { unfold rx_stop. by destruct (rk_stopped _); eexists. }
    destruct Hstop as (e' & -> & ? & ? & ?). apply (link_keeps s e' []); try done; by intros ? ?%elem_of_nil.
Qed.

Lemma link_run l : forall s M,
  sent_ok (base s) -> sy_inv may_protect s M -> rx_allowed_run make_engine may_protect s l -> rx_fed s l -> link_inv s ->
  exists s' ev ran, rx_run make_engine s l = Some (s', ev, ran) /\ Forall of_sent ran /\ Forall (fun i => rx_resets (base s) i = false) l.
Proof.
  induction l as [|i l IH]; intros s M Hok Hs Hal Hfed Hl; cbn [rx_run]; [by eexists _, _, _|]. destruct Hal as [Hi Hal], Hfed as [Hf Hfed].
  destruct (rx_step_spec make_engine may_protect s M i Hs Hi) as (s1 & ev1 & M1 & E1 & Hs1 & Ecfg & _).
  destruct (link_step s M i s1 ev1 Hok Hs Hi Hf Hl E1) as [Hl1 Hran1]. rewrite E1. cbn [mbind option_bind].
  assert (Eb : base s1 = base s) by (unfold pr_base; by rewrite Ecfg).
  destruct (IH s1 M1) as (s2 & ev2 & ran2 & -> & Hran2 & Hres); rewrite ?Eb; try done; [by eapply Hal|by eapply Hfed|].
  cbn [mbind option_bind]. eexists _, _, _. split; [reflexivity|]. split; [by apply Forall_app|]. rewrite Eb in Hres. constructor; [by destruct i|done].
Qed.

(** The receiver after its construction and one security configuration that gave every worker the engine [o] *)
Definition rx_ready (cfg : pdcp_rx_config) (win : W) (integ : integrity_enabled) (ciph : ciphering_enabled) : system :=
  RxSys (pr_set_sec (RxSec (replicate (Z.to_nat (rc_max_nof_crypto_workers cfg)) o) integ ciph) (pdcp_rx_new cfg win None)) [] [].

Definition pool_shrinks (b : pdcp_base) : Prop := forall eng, o = Some eng -> engine_shrinks (trailer may_protect b) eng.

Lemma rx_ready_cfg cfg win integ ciph :
  pr_cfg (sy_entity (rx_ready cfg win integ ciph)) = cfg /\ deliv (rx_ready cfg win integ ciph) = 0 /\
  pr_rohc (sy_entity (rx_ready cfg win integ ciph)) = None /\ rk_buffering (pr_ctl (sy_entity (rx_ready cfg win integ ciph))) = false.
Proof. unfold rx_ready, pdcp_rx_new, rx_init_header_decompression. cbn. by destruct (rc_header_compression cfg). Qed.

Lemma rx_ready_inv cfg win integ ciph :
  rx_cfg_ok cfg -> new_window (rc_base cfg) win -> pool_shrinks (rc_base cfg) ->
  sy_inv may_protect (rx_ready cfg win integ ciph) ∅ /\ link_inv (rx_ready cfg win integ ciph).
Proof.
  intros Hcfg Hw Hsh. destruct (rx_ready_cfg cfg win integ ciph) as (Ec & _ & _ & Hb).
  pose proof (rx_init_inv (E := E) may_protect cfg win (None : option R) Hcfg Hw) as ((Hs1 & _ & Hs3) & Hi & Hl & _).
  split; [|unfold link_inv; rewrite Ec; by split_and!]. split; [|by split_and!]. split; [exact Hs1|]. split; [|exact Hs3].
  unfold pool_ok, pr_base. rewrite Ec. cbn. rewrite length_replicate. split; [done|]. apply Forall_replicate. done.
Qed.

(** What the receiver delivers of what was sent *)
Lemma link_delivers cfg win integ ciph l :
  rx_cfg_ok cfg -> new_window (rc_base cfg) win -> pool_shrinks (rc_base cfg) -> rc_header_compression cfg = false -> sent_ok (rc_base cfg) ->
  rx_allowed_run make_engine may_protect (rx_ready cfg win integ ciph) l -> rx_fed (rx_ready cfg win integ ciph) l ->
  exists s ev ran ks, rx_run make_engine (rx_ready cfg win integ ciph) l = Some (s, ev, ran) /\
    NoDup ks /\ Forall (fun k => 0 <= k) ks /\ at_counts S ks (fst <$> rx_sdus ev) /\
    (rc_out_of_order_delivery cfg = false -> StronglySorted Z.lt ks /\
      (Forall (fun i => rx_expires cfg i = false) l -> Forall (fun x => x <> []) S -> fst <$> rx_sdus ev = take (Z.to_nat (deliv s)) S)).
Proof.
  intros Hcfg Hw Hsh Hhc Hok Hal Hfed. destruct (rx_ready_inv cfg win integ ciph Hcfg Hw Hsh) as [Hs Hl].
  destruct (rx_ready_cfg cfg win integ ciph) as (Ec & Ed & Ern & _). set (s0 := rx_ready cfg win integ ciph) in *.
  assert (Eb : base s0 = rc_base cfg) by (unfold pr_base; by rewrite Ec).
  destruct (link_run l s0 ∅) as (s & ev & ran & Erun & Hran & Hres); rewrite ?Eb; try done.
  destruct (rx_run_delivers make_engine may_protect l s0 ∅ ∅) as (s' & ev' & ran' & acc & Erun' & _ & Hd); rewrite ?Ec, ?Ed; try done.
  rewrite Erun in Erun'. injection Erun' as <- <- <-. unfold run_delivers in Hd. rewrite Ec, Ed in Hd.
  destruct Hd as (Hsub & Hnd & Hnew & Hle & _ & Hsd & Hall).
  assert (Hacc : forall x, x ∈ acc -> of_sent x) by (rewrite Forall_forall in Hran; intros x Hx; apply Hran; by eapply elem_of_sublist).
  exists s, ev, ran. destruct (rc_out_of_order_delivery cfg) eqn:Eo.
  - exists (pi_count <$> acc). split_and!; try done.
    + apply Forall_fmap, Forall_forall. intros x Hx. by apply (Hnew x Hx).
    + rewrite Hsd. rewrite <- list_fmap_compose. apply Forall2_fmap_2, Forall_Forall2_diag, Forall_forall. intros x Hx. by apply Hacc.
  - set (G := rx_puts false acc ∅) in *.
    assert (HG : forall k y, G !! k = Some y -> S !! Z.to_nat k = Some (si_buf y)).
    { intros k y [Hy|(x & Hx & <- & ->)]%rx_puts_some; [done|]. by apply Hacc. }
    destruct (sdus_between_at S G (deliv s) HG (Z.to_nat (deliv s)) 0) as (ks & Hso & Hge & Hat); [lia|]. rewrite <- Hsd in Hat.
    exists ks. split_and!; try done.
    + clear -Hso. induction Hso as [|k ks Hs IH Hf]; constructor; [|done]. rewrite Forall_forall in Hf. intros Hk. specialize (Hf k Hk). lia.
    + intros _. split; [done|]. intros Hexp Hne. rewrite Hsd. rewrite (sdus_between_all S G (deliv s) HG Hne (Z.to_nat (deliv s)) 0); [done|lia..|]. by apply Hall.
Qed.
End receiver.

(** ** Both ends *)

(** The engines of the two ends have the same keys; [None]: both are the null engine of an SRB. *)
Definition engines_pair {E E'} `{SecurityEngineTx E, SecurityEngineRx E'} (b : pdcp_base) (otx : option E) (orx : option E') : Prop :=
  match otx, orx with
  | Some tx, Some rx => SecurityPair E E' tx rx
  | None, None => is_srb b = true
  | _, _ => False
  end.

Lemma sdu_pdu_recovers {E E'} `{SecurityEngineTx E, SecurityEngineRx E'} b (otx : option E) (orx : option E') S c pdu sn :
  pdcp_base_ok b -> (is_srb b = true -> pb_sn_size b = pdcp_size12bits) -> engines_pair b otx orx -> 0 <= c < 2 ^ 32 ->
  sdu_pdu b otx S c pdu -> read_data_pdu_header b pdu = Some sn ->
  sn = SN b c /\ exists sdu, S !! Z.to_nat c = Some sdu /\ rx_recovers b orx c sdu pdu.
Proof.
  intros Hb Hsrb Hpair Hc (sdu & HS & Hpdu) Hr. pose proof (SN_range b c Hb Hc) as Hsn.
  destruct (prepend_octets b (SN b c) sdu Hb Hsrb Hsn) as (_ & _ & Hlen). set (hdr := pdcp_header_octets _ _ _) in *.
  destruct (pdcp_base_fields b Hb) as (_ & _ & _ & Eh & Ehalf).
  assert (Hh2 : 2 <= pb_hdr_len_bytes b) by (rewrite Eh; unfold pdcp_data_header_size; destruct (decide _); lia).
  assert (Hprefix : take (length hdr) pdu = hdr -> sn = SN b c).
  { intros Ht. pose proof (take_drop (length hdr) pdu) as Esplit. rewrite Ht in Esplit.
    assert (Hne : drop (length hdr) pdu <> []).
    { intros E0. unfold read_data_pdu_header in Hr. rewrite (proj2 (Z.leb_le (Z.of_nat (length pdu)) _)) in Hr; [done|].
      rewrite <- Esplit, E0, app_nil_r. lia. }
    pose proof (read_octets b (SN b c) _ Hb Hsrb Hsn Hne) as E1. fold hdr in E1. rewrite Esplit in E1. congruence. }
  unfold tx_protected in Hpdu. destruct otx as [tx|], orx as [rx|]; try done; cbn [engines_pair] in Hpair.
  - destruct Hpdu as [_ ->]. assert (Hne : hdr ++ sdu <> []) by (destruct hdr; [cbn in Hlen; lia|done]).
    assert (Ho : 0 <= pdcp_data_header_size (pb_sn_size b) <= Z.of_nat (length (hdr ++ sdu))) by (rewrite length_app; lia).
    pose proof (protect_header (tx := tx) (rx := rx) _ _ c Hne Ho) as Hh. pose proof (unprotect (tx := tx) (rx := rx) _ _ c Hne Ho) as Hu.
    pose proof (protect_ok (tx := tx) (rx := rx) _ _ c Hne Ho) as Hok.
    replace (Z.to_nat (pdcp_data_header_size (pb_sn_size b))) with (length hdr) in Hh by lia. rewrite take_app_length in Hh.
    split; [by apply Hprefix|]. exists sdu. split; [done|]. exists hdr. split; [lia|]. cbn [rx_recovers]. by rewrite Hu.
  - destruct Hpdu as [_ ->]. split; [apply Hprefix; by rewrite <- app_assoc, take_app_length|]. exists sdu. split; [done|].
    exists hdr. split; [lia|done].
Qed.

Section link.
Context {E R W : Type} `{SecurityEngineTx E, RohcCompressor R}.
Context `{SduWindowLaws pdcp_tx_window_element W pdcp_tx_window_element_init}
  `{!SduWindowClear pdcp_tx_window_element W} `{!SduWindowClearLaws pdcp_tx_window_element W}.
Context {E' R' W' : Type} `{SecurityEngineRx E', RohcDecompressor R'}.
Context `{SduWindowLaws pdcp_rx_sdu_info W' pdcp_rx_sdu_info_init}
  `{!SduWindowClear pdcp_rx_sdu_info W'} `{!SduWindowClearLaws pdcp_rx_sdu_info W'}.
Context (make_tx : engine_maker E) (make_rx : engine_maker E') (may_protect : bool) `{!EngineMakerLaws make_rx}.
Context (compress_ok : forall (r : R) buf, (compress r buf).1 <> []).

(** [pdu] was sent, with the SDU of COUNT [c]. *)
Definition was_sent (b : pdcp_base) (otx : option E) (S : list (list Z)) (ev : list pdcp_tx_event) (c : Z) (pdu : list Z) : Prop :=
  pdu ∈ tx_pdus ev /\ 0 <= c /\ sdu_pdu b otx S c pdu.

(** C2. From end to end, PDCP delivers what was handed over, unchanged, in order and at most once. Take any run of a transmitter
    and, at the other end, any run of a receiver with the same configuration and keys; tasks run in any order at both ends and
    any of them may be lost. The channel may lose, duplicate and reorder PDUs and mix in control PDUs, as long as a PDU arrives
    while its COUNT is within one window of RX_DELIV. The transmitter runs without header compression, re-establishment,
    suspension, data recovery and control PDUs, headers find memory, reports carry no bitmap while its discard timer is finite
    and an SRB is not used beyond its window; the receiver runs without header compression, its hard COUNT limit stays one window
    below 2^32, and it is suspended or re-established only without tasks in flight. Then the receiver delivers only SDUs that were handed to the transmitter,
    octet for octet, no COUNT twice; with in-order delivery in the order in which they were handed over; and as long as
    t-Reordering does not expire, exactly the first RX_DELIV of the SDUs that got a COUNT. *)
Theorem pdcp_link_correct tcfg twin otx ti tc rcfg rwin orx ri rc ins :
  SecurityTxLaws E -> tx_cfg_ok tcfg -> tx_new_window (tc_base tcfg) twin -> tc_header_compression tcfg = false ->
  rx_cfg_ok rcfg -> new_window (rc_base rcfg) rwin -> rc_header_compression rcfg = false -> rc_base rcfg = tc_base tcfg ->
  engines_pair (tc_base tcfg) otx orx -> pool_shrinks may_protect orx (rc_base rcfg) ->
  tx_allowed_run make_tx (tx_ready tcfg twin otx ti tc) ins -> Forall (tx_streams tcfg) ins ->
  exists st evt S, tx_run make_tx (tx_ready tcfg twin otx ti tc) ins = Some (st, evt) /\
    S `sublist_of` (ins ≫= tx_given) /\ Z.of_nat (length S) = tx_next (pt_st (tm_entity st)) /\
    (forall pdu, pdu ∈ tx_pdus evt -> exists c, was_sent (tc_base tcfg) otx S evt c pdu) /\
    forall l, rx_allowed_run make_rx may_protect (rx_ready orx rcfg rwin ri rc) l ->
      rx_fed make_rx (was_sent (tc_base tcfg) otx S evt) (rx_ready orx rcfg rwin ri rc) l ->
      exists sr evr ran ks, rx_run make_rx (rx_ready orx rcfg rwin ri rc : @rx_system E' R' W') l = Some (sr, evr, ran) /\
        NoDup ks /\ at_counts S ks (fst <$> rx_sdus evr) /\
        (rc_out_of_order_delivery rcfg = false -> (fst <$> rx_sdus evr) `sublist_of` (ins ≫= tx_given) /\
          (Forall (fun i => rx_expires rcfg i = false) l -> Forall (fun x => x <> []) (ins ≫= tx_given) ->
             fst <$> rx_sdus evr = take (Z.to_nat (rx_deliv (pr_st (sy_entity sr)))) S)).
Proof.
  intros Hlaws Htc Htw Hth Hrc Hrw Hrh Eb Hpair Hsh Hta Hts.
  destruct (tx_ready_stream make_tx compress_ok tcfg twin otx ti tc ins Hlaws Htc Htw Hth Hta Hts) as (st & evt & S & cs & Erun & Hsub & HS & _ & Hcs & Hpdu & Hnext).
  exists st, evt, S. split; [done|]. split; [done|]. split; [done|]. split.
  { intros pdu Hp. destruct (list_elem_of_lookup_1 _ _ Hp) as [n Hn]. destruct (Forall2_lookup_r _ _ _ _ _ Hpdu Hn) as (c & Hc & Hs). exists c.
    rewrite Forall_lookup in Hcs. split_and!; [done| |done]. by apply (Hcs n). }
  intros l Hra Hfed. pose proof Htc as (Hb & Hsrb & _).
  assert (Hok : sent_ok S (was_sent (tc_base tcfg) otx S evt) orx (rc_base rcfg)).
  { rewrite Eb. intros c pdu sn (_ & Hc & Hp) Hr. assert (Hc32 : 0 <= c < 2 ^ 32).
    { destruct Hp as (sdu & Hl & _). apply lookup_lt_Some in Hl. lia. }
    split; [done|]. apply (sdu_pdu_recovers (tc_base tcfg) otx orx S c pdu sn Hb); try done. by intros ?; apply Hsrb. }
  destruct (link_delivers make_rx may_protect S (was_sent (tc_base tcfg) otx S evt) orx rcfg rwin ri rc l Hrc Hrw Hsh Hrh Hok Hra Hfed) as (sr & evr & ran & ks & Er & Hnd & Hge & Hat & Hin).
  exists sr, evr, ran, ks. split; [done|]. split; [done|]. split; [done|]. intros Ho. destruct (Hin Ho) as [Hso Htake]. split.
  - transitivity S; [|done]. exact (at_counts_sublist ks S _ 0 ltac:(lia) Hso Hge Hat).
  - intros Hexp Hne. apply Htake; [done|]. by eapply forall_sublist.
Qed.
End link.

(** ** An instance *)
Definition link_rx_cfg : pdcp_rx_config := RxConfig (tc_base sample_tx_cfg) 0 dir_downlink false false 50 pdcp_rx_default_max_count 2.
Lemma link_rx_ok : rx_cfg_ok link_rx_cfg /\ new_window (rc_base link_rx_cfg) sample_window.
Proof. split; [split_and!; [reflexivity|vm_compute; congruence..]|]. apply sample_rx_ok. Qed.

Lemma sample_engine_shrinks : pool_shrinks true (Some sample_engine) (rc_base link_rx_cfg).
Proof.
  intros eng [= <-] buf offset count st out Ed Hst. pose proof (impl_verify_length sample_engine buf offset count st out Ed Hst) as Hl.
  change (trailer true (rc_base link_rx_cfg)) with 4. unfold buf_len. cbn [integ_eng sample_engine] in Hl. lia.
Qed.

(** Checks that the PDUs of a run arrive in time, when their COUNTs are those of the list. *)
Fixpoint fed_check {E R W} `{SecurityEngineRx E, RohcDecompressor R, SduWindow pdcp_rx_sdu_info W, !SduWindowClear pdcp_rx_sdu_info W}
    (make : engine_maker E) (s : @rx_system E R W) (l : list (@rx_input R)) (cs : list Z) : bool :=
  match l with
  | [] => true
  | i :: l =>
      let '(ok, cs) :=
        match i with
        | RiPdu _ _ =>
            let d := rx_deliv (pr_st (sy_entity s)) in let h := half (pr_base (sy_entity s)) in
            match cs with c :: cs => ((d - h <=? c) && (c <? d + h), cs) | [] => (false, []) end
        | RiBeginBuffering | RiEndBuffering _ | RiSuspend | RiReestablish _ _ | RiConfigure _ _ _ => (false, cs)
        | _ => (true, cs)
        end in
      ok && match rx_step make s i with Some (s', _) => fed_check make s' l cs | None => true end
  end.
Definition pdus_of {R} (l : list (@rx_input R)) : list (list Z) := omap (fun i => match i with RiPdu _ buf => Some buf | _ => None end) l.

Lemma fed_check_fed {E R W} `{SecurityEngineRx E, RohcDecompressor R, SduWindow pdcp_rx_sdu_info W, !SduWindowClear pdcp_rx_sdu_info W}
    (make : engine_maker E) (sent : Z -> list Z -> Prop) (l : list (@rx_input R)) : forall (s : @rx_system E R W) cs,
  fed_check make s l cs = true -> Forall2 sent cs (pdus_of l) -> rx_fed make sent s l.
Proof.
  induction l as [|i l IH]; intros s cs Hf Hs; [done|]. cbn [fed_check] in Hf. set (p := match i with RiPdu _ _ => _ | _ => _ end) in Hf.
  destruct p as [ok cs'] eqn:Ep. apply andb_true_iff in Hf as [-> Hf].
  assert (Hi : rx_fed_input sent s i /\ Forall2 sent cs' (pdus_of l)).
  { unfold p in Ep. destruct i; try done; try (injection Ep as <-; by split).
    destruct cs as [|c cs0]; [done|]. injection Ep as Ew <-. apply andb_true_iff in Ew as [?%Z.leb_le ?%Z.ltb_lt].
    cbn in Hs. apply Forall2_cons in Hs as [Hs Hs']. split; [|done]. left. by exists c. }
  split; [apply Hi|]. intros s' ev E1. rewrite E1 in Hf. by eapply IH; [|apply Hi].
Qed.

Definition sample_evs : list pdcp_tx_event := match tx_run sample_maker sample_tx_ready sample_tx_run with Some (_, ev) => ev | None => [] end.
Definition sample_pdu (n : nat) : list Z := nth n (tx_pdus sample_evs) [].

(** The channel swaps the two PDUs and repeats one. *)
Definition sample_link_run : list (@rx_input unit) :=
  [RiPdu true (sample_pdu 1); RiPdu true (sample_pdu 0); RiPdu true (sample_pdu 1);
   RiCrypto 1 2; RiCrypto 0 0; RiCrypto 0 0; RiTask 2; RiTask 0; RiTask 0].
Abbreviation sample_rx_ready := (rx_ready (Some sample_engine) link_rx_cfg sample_window integrity_on ciphering_on : @rx_system _ unit _).

Lemma sample_link_allowed : rx_allowed_run sample_maker true sample_rx_ready sample_link_run.
Proof.
  eapply (rx_allowed_static sample_maker true); [apply (rx_ready_inv true [] (fun _ _ => False)); [apply link_rx_ok..|apply sample_engine_shrinks]|].
  unfold sample_link_run. do 3 (apply Forall_cons_2; [right; vm_compute; congruence|]). do 3 (apply Forall_cons_2; [cbn; lia|]). by do 3 (apply Forall_cons_2; [done|]).
Qed.

Lemma sample_link_fed S :
  (forall n, (n < 2)%nat -> was_sent (tc_base sample_tx_cfg) (Some sample_engine) S sample_evs (Z.of_nat n) (sample_pdu n)) ->
  rx_fed sample_maker (was_sent (tc_base sample_tx_cfg) (Some sample_engine) S sample_evs) sample_rx_ready sample_link_run.
Proof.
  intros Hs. apply (fed_check_fed _ _ _ _ [1; 0; 1]); [vm_compute; reflexivity|].
  constructor; [apply (Hs 1%nat); lia|]. constructor; [apply (Hs 0%nat); lia|]. constructor; [apply (Hs 1%nat); lia|constructor].
Qed.

Lemma sample_was_sent n : (n < 2)%nat ->
  was_sent (tc_base sample_tx_cfg) (Some sample_engine) [[10]; [11]] sample_evs (Z.of_nat n) (sample_pdu n).
Proof.
  intros Hn. assert (Hlen : length (tx_pdus sample_evs) = 2%nat) by (vm_compute; reflexivity).
  split; [unfold sample_pdu; apply list_elem_of_In, nth_In; lia|]. split; [lia|].
  destruct n as [|[|n]]; [exists [10]|exists [11]|lia]; (split; [done|]); (split; vm_compute; reflexivity).
Qed.

Lemma pdcp_link_correct_witness :
  exists st evt S, tx_run sample_maker sample_tx_ready sample_tx_run = Some (st, evt) /\
    S `sublist_of` [[10]; [11]] /\ Z.of_nat (length S) = tx_next (pt_st (tm_entity st)) /\
    (forall pdu, pdu ∈ tx_pdus evt -> exists c, was_sent (tc_base sample_tx_cfg) (Some sample_engine) S evt c pdu) /\
    exists sr evr ran ks, rx_run sample_maker sample_rx_ready sample_link_run = Some (sr, evr, ran) /\
      NoDup ks /\ at_counts S ks (fst <$> rx_sdus evr) /\ (fst <$> rx_sdus evr) `sublist_of` [[10]; [11]] /\
      fst <$> rx_sdus evr = take (Z.to_nat (rx_deliv (pr_st (sy_entity sr)))) S.
Proof.
  destruct (pdcp_link_correct sample_maker sample_maker true octet_compression_ok sample_tx_cfg sample_tx_window (Some sample_engine) integrity_on ciphering_on
    link_rx_cfg sample_window (Some sample_engine) integrity_on ciphering_on sample_tx_run) as (st & evt & S & Erun & Hsub & Hlen & Hsent & Hrx);
    [apply _|apply sample_tx_ok|apply sample_tx_ok|done|apply link_rx_ok|apply link_rx_ok|done|done|apply impl_security_pair|apply sample_engine_shrinks|apply sample_tx_allowed|by repeat constructor|].
  exists st, evt, S. split; [exact Erun|]. split; [exact Hsub|]. split; [exact Hlen|]. split; [exact Hsent|].
  assert (En : (fun r => tx_next (pt_st (tm_entity r.1))) <$> tx_run sample_maker sample_tx_ready sample_tx_run = Some 2) by (vm_compute; reflexivity).
  assert (Eev : sample_evs = evt) by (unfold sample_evs; by rewrite Erun).
  assert (ES : S = [[10]; [11]]).
  { rewrite Erun in En. injection En as En. apply sublist_length_eq; [exact Hsub|]. cbn. lia. }
  subst S evt. destruct (Hrx sample_link_run) as (sr & evr & ran & ks & Er & Hnd & Hat & Hin);
    [apply sample_link_allowed|apply sample_link_fed, sample_was_sent|].
  destruct (Hin eq_refl) as [H1' H2']. exists sr, evr, ran, ks. split; [exact Er|]. split; [exact Hnd|]. split; [exact Hat|]. split; [exact H1'|].
  apply H2'; [by repeat constructor|by repeat constructor].
Defined.

Example sample_link_delivers :
  (fun r => fst <$> rx_sdus r.1.2) <$> rx_run sample_maker sample_rx_ready sample_link_run = Some [[10]; [11]].
Proof. vm_compute. reflexivity. Qed.
