(* ===== verification/PdcpStatusLink.v ===== *)
(** * The status report of a PDCP receiver at the transmitter of its peer

    What [compile_status_report] writes, and what [handle_status_report] makes of it. *)
From S2P Require Import Prelude SduWindow CircularMap BitCodec PdcpSn SecurityEngine PdcpBase PdcpRx PdcpRxFacts PdcpTxWindow PdcpTx PdcpTxFacts PdcpTxStatus PdcpTxSteps PdcpTxCorrect PdcpRxSteps PdcpRxCorrect PdcpLink.

(** ** Bits as a number *)
Definition bit_fields (bs : list bool) : list (Z * Z) := (fun b => (Z.b2z b, 1)) <$> bs.
Definition bits_val (bs : list bool) : Z := fields_val (bit_fields bs).

Lemma bits_val_snoc bs b : bits_val (bs ++ [b]) = 2 * bits_val bs + Z.b2z b.
Proof. unfold bits_val, fields_val, bit_fields. rewrite fmap_app, foldl_app. cbn. lia. Qed.

Lemma bit_fields_ok bs : Forall field_ok (bit_fields bs) /\ fields_bits (bit_fields bs) = Z.of_nat (length bs).
Proof.
  induction bs as [|b bs [IH1 IH2]]; [done|]. change (bit_fields (b :: bs)) with ((Z.b2z b, 1) :: bit_fields bs). split.
  - constructor; [|done]. unfold field_ok. cbn. destruct b; cbn; lia.
  - change (fields_bits ((Z.b2z b, 1) :: bit_fields bs)) with (1 + fields_bits (bit_fields bs)). cbn [length]. lia.
Qed.

Lemma bits_val_range bs : 0 <= bits_val bs < 2 ^ Z.of_nat (length bs).
Proof. destruct (bit_fields_ok bs) as [Hf <-]. exact (proj2 (foldl_fields 0 _ Hf)). Qed.

Lemma bits_val_testbit bs : forall j, 0 <= j < Z.of_nat (length bs) ->
  Z.testbit (bits_val bs) (Z.of_nat (length bs) - 1 - j) = nth (Z.to_nat j) bs false.
Proof.
  induction bs as [|b bs IH] using rev_ind; intros j Hj; [cbn in Hj; lia|]. rewrite length_app in *. cbn [length] in *. rewrite bits_val_snoc.
  destruct (decide (j = Z.of_nat (length bs))) as [->|].
  - rewrite app_nth2 by lia. replace (Z.to_nat _ - length bs)%nat with 0%nat by lia. cbn [nth].
    replace (Z.of_nat (length bs + 1) - 1 - Z.of_nat (length bs)) with 0 by lia. apply Z.testbit_0_r.
  - rewrite app_nth1 by lia. rewrite <- IH by lia.
    replace (Z.of_nat (length bs + 1) - 1 - j) with (Z.succ (Z.of_nat (length bs) - 1 - j)) by lia. rewrite Z.testbit_succ_r; [done|lia].
Qed.

(** ** What the report says *)

(** The number of bits of the bitmap, and the bitmap *)
Definition report_bits (deliv next : Z) : Z := Z.max 0 (Z.min ((pdcp_control_pdu_max_size - 5) * 8) (next - deliv - 1)).
Definition report_map (M : rx_map) (c n : Z) : list bool := (fun k => bool_decide (is_Some (M !! k))) <$> seqZ c n.

Lemma pack_ignore_fields v n fs enc enc' :
  pack_fields ((v, n) :: fs) enc = Some (true, enc') -> exists enc1, pack_ignore v n enc = Some enc1 /\ pack_fields fs enc1 = Some (true, enc').
Proof.
  cbn [pack_fields]. unfold pack_ignore. destruct (bit_pack v n enc) as [[ok enc1]|]; [|done]. cbn [mbind option_bind].
  destruct ok; [|done]. intros Hp. by exists enc1.
Qed.

Definition report_fields (deliv : Z) (bits : list bool) : list (Z * Z) := (0, 1) :: (0, 3) :: (0, 4) :: (deliv, 32) :: bit_fields bits.

Lemma report_fields_ok d bits :
  0 <= d < 2 ^ 32 -> Forall field_ok (report_fields d bits) /\ fields_bits (report_fields d bits) = 40 + Z.of_nat (length bits) /\
    fields_val (report_fields d bits) = d * 2 ^ Z.of_nat (length bits) + bits_val bits.
Proof.
  intros Hd. destruct (bit_fields_ok bits) as [Hf Hb]. unfold report_fields. split_and!.
  - unfold field_ok. repeat (constructor; [cbn [fst snd]; lia|]). exact Hf.
  - unfold fields_bits in *. cbn [foldr snd]. lia.
  - unfold fields_val. cbn [foldl fst snd]. match goal with |- foldl _ ?a _ = _ => replace a with d by lia end.
    destruct (foldl_fields d _ Hf) as [-> _]. by rewrite Hb.
Qed.

Lemma split_be h bm v k :
  bytes_ok bm -> 8 * Z.of_nat (length bm) = k -> be_val (h ++ bm) = v -> be_val h = v / 2 ^ k /\ be_val bm = v mod 2 ^ k.
Proof.
  intros Hb <- <-. unfold be_val at 2 4. rewrite foldl_app, foldl_be. change (foldl _ 0 h) with (be_val h).
  pose proof (be_val_range bm Hb) as Hr. set (p := 2 ^ (8 * Z.of_nat (length bm))) in *. split.
  - rewrite Z.div_add_l by lia. rewrite (Z.div_small (be_val bm)) by lia. lia.
  - rewrite Z.add_comm, Z.mod_add by lia. by rewrite Z.mod_small.
Qed.

(** Five octets for the header and FMC, and the bits with zeros behind them *)
Lemma report_octets d v n bs pad :
  bytes_ok bs -> 0 <= d < 2 ^ 32 -> 0 <= v < 2 ^ n -> 0 <= n -> 0 <= pad -> 8 * Z.of_nat (length bs) = 40 + n + pad ->
  be_val bs = (d * 2 ^ n + v) * 2 ^ pad ->
  exists b1 b2 b3 b4 bm, bs = 0 :: b1 :: b2 :: b3 :: b4 :: bm /\ be_val [b1; b2; b3; b4] = d /\ be_val bm = v * 2 ^ pad.
Proof.
  intros Hby Hd Hv Hn Hpad Hlen Hval.
  destruct bs as [|b0 [|b1 [|b2 [|b3 [|b4 bm]]]]]; cbn [length] in Hlen; try lia.
  change (b0 :: b1 :: b2 :: b3 :: b4 :: bm) with ([b0; b1; b2; b3; b4] ++ bm) in Hval, Hby. apply Forall_app in Hby as [Hb5 Hbm].
  assert (Hpp : 0 < 2 ^ pad) by (apply Z.pow_pos_nonneg; lia). assert (Hpn : 0 < 2 ^ n) by (apply Z.pow_pos_nonneg; lia).
  destruct (split_be [b0; b1; b2; b3; b4] bm _ (n + pad) Hbm ltac:(lia) Hval) as [Hh Ht].
  rewrite Z.pow_add_r, Z.mul_add_distr_r in Hh, Ht by lia.
  assert (Hsmall : 0 <= v * 2 ^ pad < 2 ^ n * 2 ^ pad) by nia.
  rewrite <- Z.mul_assoc, Z.div_add_l, (Z.div_small (v * _)), Z.add_0_r in Hh by lia.
  rewrite <- Z.mul_assoc, Z.add_comm, Z.mod_add, Z.mod_small in Ht by lia.
  apply Forall_cons in Hb5 as [Hb0 Hb4]. rewrite be_val_cons in Hh. pose proof (be_val_range _ Hb4) as Hr4. cbn [length] in Hh, Hr4.
  change (2 ^ (8 * Z.of_nat 4)) with (2 ^ 32) in Hh, Hr4. unfold is_byte in Hb0. assert (b0 = 0) by nia. subst b0.
  exists b1, b2, b3, b4, bm. split; [done|]. split; [lia|done].
Qed.

Section report.
Context {E R W : Type} `{SecurityEngineRx E, RohcDecompressor R}.
Context `{SduWindowLaws pdcp_rx_sdu_info W pdcp_rx_sdu_info_init}.
Notation entity := (pdcp_entity_rx E R W).
Implicit Types (e : entity) (M : rx_map).
Notation deliv e := (rx_deliv (pr_st e)).
Notation next e := (rx_next (pr_st e)).

Lemma bitmap_loop_fields w M : win_holds w M -> forall fuel c bitmap_end enc enc',
  0 <= c -> bitmap_end < 2 ^ 32 -> (Z.to_nat (bitmap_end - c) <= fuel)%nat ->
  pack_fields (bit_fields (report_map M c (bitmap_end - c))) enc = Some (true, enc') -> rx_bitmap_loop fuel c bitmap_end w enc = Some enc'.
Proof.
  intros Hw. induction fuel as [|fuel IH]; intros c bitmap_end enc enc' Hc He Hf Hp; cbn [rx_bitmap_loop].
  all: destruct (Z.ltb_spec c bitmap_end); [try lia|unfold report_map in Hp; rewrite seqZ_nil in Hp by lia; cbn in Hp; congruence].
  unfold report_map in Hp. rewrite seqZ_cons in Hp by lia. cbn [bit_fields fmap list_fmap] in Hp.
  apply pack_ignore_fields in Hp as (enc1 & E1 & Hp). rewrite (holds_has _ M) by done.
  replace (if bool_decide (is_Some (M !! c)) then 1 else 0) with (Z.b2z (bool_decide (is_Some (M !! c)))) by by destruct (bool_decide _).
  rewrite E1. cbn [mbind option_bind]. assert (Eu : u32 (c + 1) = c + 1) by (rewrite u32_eq; lia). rewrite Eu.
  apply IH; [lia..|]. replace (bitmap_end - (c + 1)) with (Z.pred (bitmap_end - c)) by lia. rewrite Z.add_1_r. exact Hp.
Qed.

Lemma rx_report_fields room e M enc :
  rx_core e M -> deliv e + 1 < 2 ^ 32 ->
  pack_fields (report_fields (deliv e) (report_map M (deliv e + 1) (report_bits (deliv e) (next e)))) (bit_encoder_new room) = Some (true, enc) ->
  rx_compile_status_report room e = Some (enc_bytes enc).
Proof.
  intros (_ & Hd & Hn & _ & Hw & _ & _) Hd1 Epack. unfold report_fields in Epack.
  apply pack_ignore_fields in Epack as (x1 & E1 & Epack). apply pack_ignore_fields in Epack as (x2 & E2 & Epack).
  apply pack_ignore_fields in Epack as (x3 & E3 & Epack). apply pack_ignore_fields in Epack as (x4 & E4 & Epack).
  unfold rx_compile_status_report. change (pdcp_dc_to_number dc_control) with 0. change (cpt_to_number status_report) with 0.
  do 4 (apply bind_Some; eexists; split; [eassumption|]). cbv beta.
  assert (Eb : u32 (deliv e + 1) = deliv e + 1) by (rewrite u32_eq; lia). rewrite Eb. cbn zeta. clear E1 E2 E3 E4 Eb x1 x2 x3.
  set (n := report_bits (deliv e) (next e)) in *. set (bitmap_end := if _ && _ then _ else _).
  assert (Eend : (bitmap_end = deliv e + 1 + n \/ n = 0 /\ bitmap_end <= deliv e + 1) /\ bitmap_end < 2 ^ 32).
  { unfold bitmap_end, n, report_bits, pdcp_control_pdu_max_size. destruct (Z.ltb_spec (deliv e + 1) (next e)); cbn [andb]; [|lia].
    assert (Eu : u32 (next e - (deliv e + 1)) = next e - (deliv e + 1)) by (rewrite u32_eq; lia). rewrite Eu.
    destruct (Z.ltb_spec ((9000 - 5) * 8) (next e - (deliv e + 1))); [rewrite u32_eq|]; lia. }
  clearbody bitmap_end n. destruct Eend as [Eend He].
  apply bind_Some. exists enc. split; [|done]. apply (bitmap_loop_fields (pr_window e) M Hw); [lia|lia|done|].
  destruct Eend as [->|[En Hend]].
  - by replace (deliv e + 1 + n - (deliv e + 1)) with n by lia.
  - unfold report_map in Epack |- *. rewrite seqZ_nil in Epack by lia. by rewrite seqZ_nil by lia.
Qed.

(** The octets of the report *)
Lemma rx_report_spec room e M :
  rx_core e M -> deliv e + 1 < 2 ^ 32 -> pdcp_control_pdu_max_size <= Z.of_nat room ->
  let n := report_bits (deliv e) (next e) in
  exists b1 b2 b3 b4 bm, rx_compile_status_report room e = Some (0 :: b1 :: b2 :: b3 :: b4 :: bm) /\ bytes_ok (b1 :: b2 :: b3 :: b4 :: bm) /\
    be_val [b1; b2; b3; b4] = deliv e /\ Z.of_nat (length bm) = (n + 7) / 8 /\
    be_val bm = bits_val (report_map M (deliv e + 1) n) * 2 ^ (8 * Z.of_nat (length bm) - n).
Proof.
  intros Hcore Hd1 Hroom n. pose proof Hcore as (_ & Hd & Hn & _). unfold pdcp_control_pdu_max_size in Hroom.
  set (bits := report_map M (deliv e + 1) n). assert (Hlen : Z.of_nat (length bits) = n).
  { unfold bits, report_map. rewrite length_fmap, length_seqZ. unfold n, report_bits. lia. }
  assert (Hn0 : 0 <= n <= 71960) by (unfold n, report_bits, pdcp_control_pdu_max_size; lia).
  destruct (report_fields_ok (deliv e) bits) as (Hfs & Hbits & Hfv); [lia|]. rewrite Hlen in Hbits, Hfv.
  destruct (pack_fields_spec _ (bit_encoder_new room) Hfs) as (enc & Epack & (Hby & Ho & Hmod & _) & Hval & Hnb).
  { split; [constructor|]. cbn. split; [lia|]. split; [done|]. lia. }
  { rewrite Hbits. change (enc_nof_bits (bit_encoder_new room)) with 0. change (enc_nof_bytes (bit_encoder_new room)) with 0.
    change (enc_room (bit_encoder_new room)) with room. lia. }
  rewrite (rx_report_fields room e M enc Hcore Hd1 Epack). clear Epack. rewrite Hbits in Hnb. rewrite Hfv in Hval.
  change (enc_nof_bits (bit_encoder_new room)) with 0 in Hnb. change (enc_val (bit_encoder_new room)) with 0 in Hval.
  assert (Hbytes : Z.of_nat (length (enc_bytes enc)) = 5 + (n + 7) / 8 /\ enc_pad enc = 8 * ((n + 7) / 8) - n).
  { unfold enc_nof_bits, enc_nof_bytes in Hnb. unfold enc_pad. destruct (Z.eqb_spec (enc_offset enc) 0) as [->|]; lia. }
  destruct Hbytes as [Hbytes Hpad].
  assert (Hv : be_val (enc_bytes enc) = (deliv e * 2 ^ n + bits_val bits) * 2 ^ enc_pad enc).
  { rewrite Z.mul_0_l, Z.add_0_l in Hval. rewrite <- Hval. unfold enc_val.
    pose proof (Z.div_mod (be_val (enc_bytes enc)) (2 ^ enc_pad enc)) as Hdm. rewrite Hmod in Hdm. rewrite Hdm at 1; [lia|].
    apply Z.pow_nonzero; [lia|]. rewrite Hpad. lia. }
  pose proof (bits_val_range bits) as Hbv. rewrite Hlen in Hbv.
  destruct (report_octets (deliv e) (bits_val bits) n (enc_bytes enc) (enc_pad enc)) as (b1 & b2 & b3 & b4 & bm & Eb & Efmc & Ebm); [done|lia..|done|].
  rewrite Eb in Hbytes, Hby |- *. cbn [length] in Hbytes. exists b1, b2, b3, b4, bm. split; [done|]. split; [by apply Forall_cons in Hby as []|].
  split; [done|]. split; [lia|]. rewrite Ebm. f_equal. f_equal. lia.
Qed.
End report.

(** ** How the transmitter reads it *)

(** The bits of the bitmap that are 1 name the SDUs that were received. *)
Lemma report_acked M d n bm k :
  bytes_ok bm -> 0 <= d -> 0 <= n -> d + n < 2 ^ 32 -> n <= 8 * Z.of_nat (length bm) ->
  be_val bm = bits_val (report_map M (d + 1) n) * 2 ^ (8 * Z.of_nat (length bm) - n) ->
  acked_by (Dec bm 0) d k <-> d < k <= d + n /\ is_Some (M !! k).
Proof.
  intros Hb Hd Hn Hdn Hlen Hv. set (bits := report_map M (d + 1) n) in *.
  assert (Hlb : Z.of_nat (length bits) = n) by (unfold bits, report_map; rewrite length_fmap, length_seqZ; lia).
  set (pad := 8 * Z.of_nat (length bm) - n) in *. assert (Ebits : dec_bits (Dec bm 0) = n + pad) by (unfold dec_bits; cbn [dec_rest dec_offset]; lia).
  assert (Eval : dec_val (Dec bm 0) = bits_val bits * 2 ^ pad).
  { unfold dec_val. rewrite Ebits. cbn [dec_rest]. rewrite Hv. apply Z.mod_small. pose proof (be_val_range bm Hb) as Hr. rewrite Hv in Hr.
    by replace (n + pad) with (8 * Z.of_nat (length bm)) by lia. }
  assert (Hbit : forall j, 0 <= j < n -> Z.testbit (dec_val (Dec bm 0)) (dec_bits (Dec bm 0) - 1 - j) = bool_decide (is_Some (M !! (d + 1 + j)))).
  { intros j Hj. rewrite Eval, Ebits. rewrite Z.mul_pow2_bits by lia. replace (n + pad - 1 - j - pad) with (n - 1 - j) by lia.
    rewrite <- Hlb, bits_val_testbit by lia. apply nth_lookup_Some. unfold bits, report_map. rewrite list_lookup_fmap, lookup_seqZ_lt by lia.
    cbn. by rewrite Z2Nat.id by lia. }
  unfold acked_by. split.
  - intros (j & Hj & Ht & ->). assert (Hjn : j < n).
    { destruct (decide (j < n)); [done|]. rewrite Eval, Ebits in Ht. rewrite Z.mul_pow2_bits_low in Ht by lia. done. }
    rewrite Hbit in Ht by lia. apply bool_decide_eq_true in Ht. rewrite u32_eq, Z.mod_small by lia. split; [lia|done].
  - intros [Hk Hs]. exists (k - d - 1). split; [lia|]. rewrite Hbit by lia. split.
    + apply bool_decide_eq_true. by replace (d + 1 + (k - d - 1)) with k by lia.
    + rewrite u32_eq. lia.
Qed.

(** The check of the last octet *)
Lemma tail_zero v pad s : 0 <= pad -> 0 <= s < 8 -> Z.odd v = true -> (v * 2 ^ pad * 2 ^ s) mod 256 = 0 <-> 8 <= pad + s.
Proof.
  intros Hp Hs Hodd. rewrite <- Z.mul_assoc, <- Z.pow_add_r by lia. change 256 with (2 ^ 8). split; intros Hz.
  - destruct (decide (8 <= pad + s)); [done|]. assert (Hbit : Z.testbit ((v * 2 ^ (pad + s)) mod 2 ^ 8) (pad + s) = false) by (rewrite Hz; apply Z.bits_0).
    rewrite Z.mod_pow2_bits_low, Z.mul_pow2_bits, Z.sub_diag, Z.bit0_odd in Hbit by lia. congruence.
  - replace (pad + s) with (pad + s - 8 + 8) by lia. rewrite Z.pow_add_r, Z.mul_assoc by lia. apply Z.mod_mul. lia.
Qed.

Lemma last_be bm : bytes_ok bm -> bm <> [] -> List.last bm 0 = be_val bm mod 256.
Proof.
  intros Hb Hne. destruct (exists_last Hne) as (l & x & ->). apply Forall_app in Hb as [_ Hx]. apply Forall_cons in Hx as [Hx _]. unfold is_byte in Hx.
  rewrite last_last, be_val_snoc. rewrite Z.add_comm, Z.mul_comm, Z.mod_add, Z.mod_small by lia. done.
Qed.

Lemma report_acceptable M d n bm tx_next :
  bytes_ok bm -> 0 <= d -> 0 <= n -> d + n < tx_next \/ n = 0 /\ d <= tx_next -> tx_next - d <= 2 ^ 31 -> Z.of_nat (length bm) = (n + 7) / 8 ->
  be_val bm = bits_val (report_map M (d + 1) n) * 2 ^ (8 * Z.of_nat (length bm) - n) -> (0 < n -> is_Some (M !! (d + n))) ->
  status_acceptable tx_next d bm = bool_decide (n = 0 \/ (n - 1) mod 8 < (tx_next - d - 1) mod 8).
Proof.
  intros Hb Hd Hn Hnext Hwin Hlen Hv Hlast. unfold status_acceptable. rewrite (proj2 (Z.leb_le d tx_next)) by lia.
  assert (Eu : u32 (tx_next - d + 6) = tx_next - d + 6) by (rewrite u32_eq; lia). rewrite Eu.
  rewrite (proj2 (Z.leb_le _ _)) by lia. cbn [andb].
  destruct (decide (n = 0)) as [->|Hn0].
  { change ((0 + 7) / 8) with 0 in Hlen. destruct bm; [|cbn [length] in Hlen; lia]. rewrite !bool_decide_true by (done || by left). done. }
  assert (Hne : bm <> []) by (intros ->; cbn [length] in Hlen; lia). rewrite (bool_decide_false (bm = [])) by done. cbn [orb].
  rewrite (last_be bm Hb Hne), Hv. set (pad := 8 * Z.of_nat (length bm) - n). set (s := (tx_next - d - 1) mod 8).
  set (v := bits_val _). assert (Hodd : Z.odd v = true).
  { rewrite <- Z.bit0_odd. unfold v. set (bits := report_map M (d + 1) n).
    assert (Hlb : Z.of_nat (length bits) = n) by (unfold bits, report_map; rewrite length_fmap, length_seqZ; lia).
    replace 0 with (Z.of_nat (length bits) - 1 - (n - 1)) by lia. rewrite bits_val_testbit by lia. apply nth_lookup_Some.
    unfold bits, report_map. rewrite list_lookup_fmap, lookup_seqZ_lt by lia. cbn [fmap option_fmap option_map]. f_equal. apply bool_decide_eq_true.
    rewrite Z2Nat.id by lia. replace (d + 1 + (n - 1)) with (d + n) by lia. apply Hlast. lia. }
  rewrite u8_eq. rewrite Z.mul_mod_idemp_l by lia. pose proof (tail_zero v pad s ltac:(lia) ltac:(unfold s; lia) Hodd) as Hz.
  apply eq_true_iff_eq. rewrite Z.eqb_eq, bool_decide_eq_true, Hz. unfold s. split; intros; lia.
Qed.

Section exchange.
Context {E R W : Type} `{SecurityEngineTx E, RohcCompressor R}.
Context `{SduWindowLaws pdcp_tx_window_element W pdcp_tx_window_element_init}
  `{!SduWindowClear pdcp_tx_window_element W} `{!SduWindowClearLaws pdcp_tx_window_element W}.
Context {E' R' W' : Type} `{SecurityEngineRx E', RohcDecompressor R'}.
Context `{SduWindowLaws pdcp_rx_sdu_info W' pdcp_rx_sdu_info_init}.

(** C10. What a status report of the peer's receiver does to the transmitter. Let the receiver have all SDUs below RX_DELIV and those
    in its window, and let the transmitter be at most one window ahead of RX_DELIV. The report has one bit for each SDU after
    RX_DELIV up to the highest received (as many as fit into 9000 octets). The transmitter accepts it if and only if there is
    no bit, or the bits in the last octet of the bitmap are fewer or as many as those that the SDUs up to TX_NEXT would leave
    there; it then keeps exactly the SDUs that the receiver does not have, and otherwise it discards nothing and notifies a
    protocol failure. So a report of a receiver that has got everything up to TX_NEXT but RX_DELIV itself is refused whenever
    the number of its bits is a multiple of 8, and a receiver that lacks the last SDUs is refused depending on the numbers. *)
Theorem pdcp_status_exchange prot S (er : pdcp_entity_rx E' R' W') Mr (et : pdcp_entity_tx E R W) Mt room :
  let d := rx_deliv (pr_st er) in let rx_next := rx_next (pr_st er) in let tx_next := tx_next (pt_st et) in
  let n := report_bits d rx_next in
  rx_core er Mr -> tx_core prot S et Mt -> tc_discard_timer (pt_cfg et) <> None -> pdcp_control_pdu_max_size <= Z.of_nat room ->
  rx_next <= tx_next -> tx_next - d <= 2 ^ 31 -> d + 1 < 2 ^ 32 -> (0 < n -> is_Some (Mr !! (d + n))) ->
  exists report et' ev, rx_compile_status_report room er = Some report /\ tx_handle_status_report true report et = Some (et', ev) /\
    if bool_decide (n = 0 \/ (n - 1) mod 8 < (tx_next - d - 1) mod 8) then
      exists Mt', win_holds (xw_window (pt_window et')) Mt' /\
        forall k x, Mt' !! k = Some x <-> Mt !! k = Some x /\ d <= k /\ ~ (d < k <= d + n /\ is_Some (Mr !! k))
    else et' = et /\ TxProtocolFailure ∈ ev.
Proof.
  intros d rn tn n Hr Ht Hdt Hroom Hnext Hwin Hd1 Hlast. pose proof Hr as (_ & Hd & Hrn & _). fold d rn in Hd, Hrn.
  destruct (rx_report_spec room er Mr Hr Hd1 Hroom) as (b1 & b2 & b3 & b4 & bm & Erep & Hb & Hfmc & Hlen & Hv). fold d rn n in Erep, Hb, Hfmc, Hlen, Hv.
  assert (Hb4 : bytes_ok [b1; b2; b3; b4] /\ bytes_ok bm) by by apply Forall_app. destruct Hb4 as [_ Hbm].
  assert (Hn : 0 <= n <= 71960 /\ (d + n < rn \/ n = 0)) by (unfold n, report_bits, pdcp_control_pdu_max_size; lia).
  destruct (tx_report_exact prot S et Mt b1 b2 b3 b4 bm Ht Hb ltac:(lia) Hdt) as (et' & ev & Erun & Hres). rewrite Hfmc in Hres. fold tn in Hres.
  rewrite (report_acceptable Mr d n bm tn Hbm) in Hres; try done; [|lia..].
  exists (0 :: b1 :: b2 :: b3 :: b4 :: bm), et', ev. split; [done|]. split; [done|]. case_bool_decide; [|done].
  destruct Hres as (_ & Mt' & Hw & HM). exists Mt'. split; [done|]. intros k x. rewrite HM, (report_acked Mr d n bm k Hbm); [|lia..|done].
  split; intros [Hx Hno]; (split; [done|]); [|intros [?|?]; [lia|tauto]]. split; [|tauto]. destruct (decide (d <= k)); [done|]. destruct Hno. left. lia.
Qed.
End exchange.

(** Everything up to TX_NEXT = 9 was received but COUNT 0: the bitmap of 8 ones is refused. With one SDU less it is accepted. *)
Example full_octet_refused : status_acceptable 9 0 [0xff] = false /\ status_acceptable 8 0 [0xfe] = true.
Proof. by vm_compute. Qed.

(** *** An instance: the receiver has got COUNT 1 only. *)
Definition gap_rx_run : list (@rx_input unit) := [RiPdu true (sample_pdu 1); RiCrypto 0 0; RiTask 0].

Lemma pdcp_status_exchange_witness :
  exists s1 ev1 ran1 (M1 : rx_map) s2 ev2 (M2 : gmap Z pdcp_tx_window_element),
    rx_run sample_maker sample_rx_ready gap_rx_run = Some (s1, ev1, ran1) /\ tx_run sample_maker sample_tx_ready sample_tx_run = Some (s2, ev2) /\
    let er := sy_entity s1 in let et := tm_entity s2 in
    let d := rx_deliv (pr_st er) in let n := report_bits d (rx_next (pr_st er)) in let tn := tx_next (pt_st et) in
    exists report et' ev, rx_compile_status_report (Z.to_nat 9000) er = Some report /\ tx_handle_status_report true report et = Some (et', ev) /\
      if bool_decide (n = 0 \/ (n - 1) mod 8 < (tn - d - 1) mod 8) then
        exists Mt', win_holds (xw_window (pt_window et')) Mt' /\
          forall k x, Mt' !! k = Some x <-> M2 !! k = Some x /\ d <= k /\ ~ (d < k <= d + n /\ is_Some (M1 !! k))
      else et' = et /\ TxProtocolFailure ∈ ev.
Proof.
  assert (Hi : sy_inv true sample_rx_ready ∅).
  { apply (rx_ready_inv true [] (fun _ _ => False)); [apply link_rx_ok..|apply sample_engine_shrinks]. }
  destruct (rx_run_spec sample_maker true gap_rx_run _ _ Hi) as (s1 & ev1 & ran1 & M1 & Er1 & Hi1).
  { eapply (rx_allowed_static sample_maker true); [exact Hi|]. apply Forall_cons_2; [right; vm_compute; congruence|].
    apply Forall_cons_2; [cbn; lia|]. by apply Forall_cons_2. }
  destruct (tx_run_stream sample_maker octet_compression_ok _ _ _ _ _ _ sample_tx_inv sample_tx_allowed) as (s2 & ev2 & S & M2 & l & cs & Er2 & Hi2 & Ec & _);
    [by repeat constructor|].
  assert (Hc1 : rx_core (sy_entity s1) M1) by apply Hi1. destruct Hi2 as (_ & _ & _ & _ & Hc2 & _).
  assert (E1 : (fun r => (rx_deliv (pr_st (sy_entity r.1.1)), rx_next (pr_st (sy_entity r.1.1)), has_sn (pr_window (sy_entity r.1.1)) 1))
    <$> rx_run sample_maker sample_rx_ready gap_rx_run = Some (0, 2, true)) by (vm_compute; reflexivity).
  assert (E2 : (fun r => tx_next (pt_st (tm_entity r.1))) <$> tx_run sample_maker sample_tx_ready sample_tx_run = Some 2) by (vm_compute; reflexivity).
  rewrite Er1 in E1. rewrite Er2 in E2. injection E1 as Ed En Ehas. injection E2 as Et. cbn [fst snd] in *.
  exists s1, ev1, ran1, M1, s2, ev2, M2. split; [exact Er1|]. split; [exact Er2|].
  assert (Hroom : pdcp_control_pdu_max_size <= Z.of_nat (Z.to_nat 9000)) by (rewrite Z2Nat.id; unfold pdcp_control_pdu_max_size; lia).
  revert Hroom. generalize (Z.to_nat 9000) as room. intros room Hroom.
  apply (pdcp_status_exchange (tx_protected (tc_base sample_tx_cfg) (Some sample_engine)) S (sy_entity s1) M1 (tm_entity s2) M2 room);
    [exact Hc1|exact Hc2|by rewrite Ec|exact Hroom|rewrite En, Et; lia|rewrite Ed, Et; lia|rewrite Ed; lia|].
  intros _. rewrite Ed, En. change (0 + report_bits 0 2) with 1. destruct Hc1 as (_ & _ & _ & _ & Hw & _).
  change (has_sn (pr_window (sy_entity s1)) 1 = true) in Ehas. rewrite (holds_has _ M1) in Ehas by done. by apply bool_decide_eq_true in Ehas.
Defined.
