(* ===== verification/BitFields.v ===== *)
(** * Sequences of fields in the bit codec

    What a chain of [pack_ok &= encoder.pack(..)] leaves behind, in terms of the fields packed so far, whatever memory there
    is ([packed]); and the decoder at the level of octets. The packers of GTP-U, PDU session and NR-U headers are proved with
    these lemmas. *)
From S2P Require Import Prelude BitCodec.

(** [pack_ok &= encoder.pack(val, n_bits)] *)
Definition pack_and (val n_bits : Z) (s : bool * bit_encoder) : option (bool * bit_encoder) :=
  '(ok, e) ← bit_pack val n_bits s.2; Some (s.1 && ok, e).

Definition pack_bytes_and (bs : list Z) (s : bool * bit_encoder) : option (bool * bit_encoder) :=
  '(ok, e) ← pack_bytes bs s.2; Some (s.1 && ok, e).

Definition z_len (l : list Z) : Z := Z.of_nat (length l).

(** Octets as fields. *)
Definition octets (bs : list Z) : list (Z * Z) := map (fun b => (b, 8)) bs.

(** ** Fields *)
Lemma fields_bits_app a b : fields_bits (a ++ b) = fields_bits a + fields_bits b.
Proof. induction a as [|f a IH]; [done|]. unfold fields_bits in *. cbn. lia. Qed.

Lemma fields_val_app a b : Forall field_ok b -> fields_val (a ++ b) = fields_val a * 2 ^ fields_bits b + fields_val b.
Proof. intros Hb. unfold fields_val at 1. rewrite foldl_app. by apply foldl_fields. Qed.

Lemma fields_bits_1 v n : fields_bits [(v, n)] = n.
Proof. unfold fields_bits. cbn. lia. Qed.

Lemma fields_val_1 v n : fields_val [(v, n)] = v.
Proof. done. Qed.

Lemma octets_app a b : octets (a ++ b) = octets a ++ octets b.
Proof. apply map_app. Qed.

Lemma octets_ok bs : bytes_ok bs -> Forall field_ok (octets bs).
Proof. intros Hb. apply Forall_map. eapply Forall_impl; [exact Hb|]. intros b Hr. unfold field_ok, is_byte in *. cbn. lia. Qed.

Lemma octets_bits bs : fields_bits (octets bs) = 8 * Z.of_nat (length bs).
Proof. induction bs as [|b bs IH]; [done|]. unfold fields_bits in *. cbn [octets map foldr snd length] in *. unfold octets in IH. lia. Qed.

Lemma octets_val bs : fields_val (octets bs) = be_val bs.
Proof.
  unfold fields_val, be_val, octets. generalize 0. induction bs as [|b bs IH]; intros a; [done|].
  cbn [map foldl fst snd]. rewrite IH. f_equal. change (2 ^ 8) with 256. lia.
Qed.

Lemma be_val_inj a b : bytes_ok a -> bytes_ok b -> length a = length b -> be_val a = be_val b -> a = b.
Proof.
  revert b. induction a as [|x a IH]; intros [|y b] Ha Hb Hl E; try done.
  apply Forall_cons in Ha as [Hx Ha], Hb as [Hy Hb]. injection Hl as Hl. rewrite !be_val_cons, <- Hl in E.
  pose proof (be_val_range a Ha) as Ra. pose proof (be_val_range b Hb) as Rb. rewrite <- Hl in Rb.
  assert (x = y) by nia. subst y. f_equal. apply IH; [done..|lia].
Qed.

(** ** Packing, whatever memory there is *)

(** The bytes a pack of [n] bits at offset [o] needs. *)
Definition needed (o n : Z) : Z := (o + n + 7) / 8 - (if o =? 0 then 0 else 1).

Lemma pack_loop_short fuel : forall val n e,
  0 <= enc_offset e < 8 -> 0 <= n <= Z.of_nat fuel -> Z.of_nat (enc_room e) < needed (enc_offset e) n ->
  exists e', pack_loop fuel val n e = Some (false, e') /\ 0 <= enc_offset e' < 8.
Proof.
  unfold needed. induction fuel as [|fuel IH]; intros val n e Ho Hn Hroom.
  { replace n with 0 in * by lia. destruct (Z.eqb_spec (enc_offset e) 0); lia. }
  cbn [pack_loop]. destruct (Z.ltb_spec 0 n); [|destruct (Z.eqb_spec (enc_offset e) 0); lia].
  destruct (Z.eqb_spec (enc_offset e) 0) as [E0|E0].
  - unfold enc_append_byte. destruct (enc_room e) as [|room] eqn:Er; cbn [negb]; [by exists e|].
    cbn [enc_offset]. destruct (Z.ltb_spec n (8 - enc_offset e)); [lia|].
    destruct (IH (if n <? 64 then Z.land val (Z.shiftl 1 n - 1) else val) (n - (8 - enc_offset e))
      (enc_set_offset 0 (enc_back_add (Z.shiftr (if n <? 64 then Z.land val (Z.shiftl 1 n - 1) else val) (n - 8 + enc_offset e))
         (Enc (enc_bytes e ++ [0]) (enc_offset e) room)))) as (e' & E' & Hoff); cbn; [lia|lia|lia|by exists e'].
  - cbn [negb]. destruct (Z.ltb_spec n (8 - enc_offset e)); [lia|].
    destruct (IH (if n <? 64 then Z.land val (Z.shiftl 1 n - 1) else val) (n - (8 - enc_offset e))
      (enc_set_offset 0 (enc_back_add (Z.shiftr (if n <? 64 then Z.land val (Z.shiftl 1 n - 1) else val) (n - 8 + enc_offset e)) e)))
      as (e' & E' & Hoff); cbn; [lia|lia|lia|by exists e'].
Qed.

Lemma pack_loop_total fuel : forall val n e,
  0 <= enc_offset e < 8 -> 0 <= n <= Z.of_nat fuel ->
  exists ok e', pack_loop fuel val n e = Some (ok, e') /\ 0 <= enc_offset e' < 8.
Proof.
  induction fuel as [|fuel IH]; intros val n e Ho Hn; cbn [pack_loop]; (destruct (Z.ltb_spec 0 n); [try lia|by eauto]).
  assert (Ha : exists ok e1, (if enc_offset e =? 0 then enc_append_byte 0 e else (true, e)) = (ok, e1) /\ enc_offset e1 = enc_offset e).
  { destruct (enc_offset e =? 0); [|by eauto]. unfold enc_append_byte. destruct (enc_room e); by eauto. }
  destruct Ha as (ok & e1 & -> & E1). destruct ok; cbn [negb]; [|eexists _, _; split; [done|lia]]. rewrite !E1.
  destruct (Z.ltb_spec n (8 - enc_offset e)); apply IH; cbn; try rewrite E1; lia.
Qed.

(** After packing the fields [fs], with [total] bytes of memory from the start: either all went in, or they do not fit. *)
Definition packed (total : Z) (fs : list (Z * Z)) (s : bool * bit_encoder) : Prop :=
  Forall field_ok fs /\ 0 <= enc_offset s.2 < 8 /\
  if s.1 then enc_ok s.2 /\ enc_val s.2 = fields_val fs /\ enc_nof_bits s.2 = fields_bits fs /\
              enc_nof_bytes s.2 + Z.of_nat (enc_room s.2) = total
  else 8 * total < fields_bits fs.

Lemma enc_bytes_bits e : enc_ok e -> enc_nof_bytes e = (enc_nof_bits e + 7) / 8.
Proof. intros (_ & ? & _ & _). unfold enc_nof_bits. destruct (Z.eqb_spec (enc_offset e) 0); lia. Qed.

Lemma packed_start bs room : bytes_ok bs -> packed (Z.of_nat (length bs) + Z.of_nat room) (octets bs) (true, Enc bs 0 room).
Proof.
  intros Hb. split; [by apply octets_ok|]. split; [cbn; lia|]. cbn [fst snd].
  split; [split; [done|]; split; [cbn; lia|]; split; [apply Z.mod_1_r|done]|].
  rewrite octets_val, octets_bits. unfold enc_val, enc_nof_bits, enc_nof_bytes, enc_pad.
  cbn [enc_bytes enc_offset enc_room]. change ((8 - 0) mod 8) with 0. rewrite Z.div_1_r. cbn [Z.eqb]. split_and!; lia.
Qed.

Lemma pack_and_packed t fs v n s :
  packed t fs s -> 0 <= n <= 64 -> 0 <= v < 2 ^ n ->
  exists s', pack_and v n s = Some s' /\ packed t (fs ++ [(v, n)]) s'.
Proof.
  intros (Hf & Ho & Hs) Hn Hv. destruct s as [ok e]. cbn [fst snd] in *.
  assert (Hfv : field_ok (v, n)) by (split; cbn; lia).
  assert (Hf' : Forall field_ok (fs ++ [(v, n)])) by (apply Forall_app_2; [done|by constructor]).
  assert (Eb : fields_bits (fs ++ [(v, n)]) = fields_bits fs + n) by by rewrite fields_bits_app, fields_bits_1.
  unfold pack_and, bit_pack. cbn [fst snd]. rewrite (proj2 (Z.ltb_ge _ _)) by lia. destruct ok.
  - destruct Hs as (He & Hval & Hbits & Htot).
    assert (Hneed : bytes_needed e n = needed (enc_offset e) n).
    { unfold bytes_needed, needed, enc_nof_bits. destruct (Z.eqb_spec (enc_offset e) 0); lia. }
    destruct (Z.le_gt_cases (bytes_needed e n) (Z.of_nat (enc_room e))) as [Hfit|Hshort].
    + assert (2 ^ n <= 2 ^ 64) by (apply Z.pow_le_mono_r; lia).
      destruct (pack_loop_spec (Z.to_nat n) v n e) as (e' & -> & He' & Hv' & Hb' & Hr'); [done|lia|lia|lia|done|].
      eexists. split; [reflexivity|]. split; [done|]. cbn [fst snd andb]. split; [by destruct He' as (_ & ? & _)|].
      split; [done|]. rewrite Hv', Hb', Eb, fields_val_app by (by constructor).
      rewrite fields_val_1, fields_bits_1, Z.mod_small, Hval by lia. split; [done|]. split; [lia|].
      rewrite (enc_bytes_bits e') by done. rewrite Hb'.
      unfold bytes_needed in Hr'. lia.
    + destruct (pack_loop_short (Z.to_nat n) v n e) as (e' & -> & Ho'); [done|lia|lia|].
      eexists. split; [reflexivity|]. split; [done|]. split; [done|]. cbn [fst snd andb]. rewrite Eb, <- Hbits.
      unfold bytes_needed in Hshort. lia.
  - destruct (pack_loop_total (Z.to_nat n) v n e) as (ok & e' & -> & Ho'); [done|lia|].
    eexists. split; [reflexivity|]. split; [done|]. split; [done|]. cbn [fst andb]. lia.
Qed.

Lemma append_bytes_app bs : forall l o room,
  enc_append_bytes bs (Enc l o room) =
    if (length bs <=? room)%nat then (true, Enc (l ++ bs) o (room - length bs))
    else (false, Enc (l ++ take room bs) o 0).
Proof.
  induction bs as [|b bs IH]; intros l o room; cbn [enc_append_bytes].
  { cbn. by rewrite app_nil_r, Nat.sub_0_r. }
  destruct room as [|room]; [cbn; by rewrite app_nil_r|]. change (enc_append_byte b (Enc l o (S room))) with (true, Enc (l ++ [b]) o room).
  cbn iota beta. rewrite IH, <- !app_assoc. cbn [length Nat.leb Nat.sub take app]. done.
Qed.

Lemma pack_each_total bs : forall e, 0 <= enc_offset e < 8 -> exists ok e', pack_each bs e = Some (ok, e') /\ 0 <= enc_offset e' < 8.
Proof.
  induction bs as [|b bs IH]; intros e Ho; cbn [pack_each]; [by eauto|]. unfold bit_pack. cbn [Z.ltb Z.compare].
  destruct (pack_loop_total (Z.to_nat 8) b 8 e) as (ok & e' & E & Ho'); [done|lia|]. unfold bit_pack. cbn [Z.ltb Z.compare Pos.compare Pos.compare_cont].
  rewrite E. cbn [mbind option_bind]. destruct ok; [by apply IH|by eauto].
Qed.

(** Whole octets, at the start of an octet. *)
Lemma pack_bytes_packed t fs bs s :
  packed t fs s -> bytes_ok bs -> fields_bits fs mod 8 = 0 ->
  exists s', pack_bytes_and bs s = Some s' /\ packed t (fs ++ octets bs) s'.
Proof.
  intros (Hf & Ho & Hs) Hb Hm. destruct s as [ok e]. cbn [fst snd] in *.
  assert (Hf' : Forall field_ok (fs ++ octets bs)) by (apply Forall_app_2; [done|by apply octets_ok]).
  assert (Eb : fields_bits (fs ++ octets bs) = fields_bits fs + 8 * Z.of_nat (length bs)) by by rewrite fields_bits_app, octets_bits.
  unfold pack_bytes_and, pack_bytes. cbn [fst snd]. destruct bs as [|b bs].
  { eexists. split; [reflexivity|]. rewrite app_nil_r. cbn [mbind option_bind]. rewrite andb_true_r. done. }
  set (l := b :: bs) in *. destruct ok.
  - destruct Hs as (He & Hval & Hbits & Htot).
    assert (E0 : enc_offset e = 0) by (unfold enc_nof_bits in Hbits; destruct (Z.eqb_spec (enc_offset e) 0); lia).
    rewrite E0. cbn [Z.eqb]. destruct e as [eb o room]. cbn [enc_offset] in E0. subst o. rewrite append_bytes_app.
    cbn [mbind option_bind]. destruct (Nat.leb_spec (length l) room) as [Hfit|Hshort]; cbn [andb].
    + eexists. split; [reflexivity|]. split; [done|]. cbn [fst snd enc_offset]. split; [lia|].
      destruct He as (Hby & _). unfold enc_val, enc_nof_bits, enc_nof_bytes, enc_pad in *. cbn [enc_bytes enc_offset enc_room Z.eqb] in *.
      change ((8 - 0) mod 8) with 0 in *. rewrite Z.div_1_r in *.
      split; [split; [by apply Forall_app_2|]; split; [cbn; lia|]; split; [apply Z.mod_1_r|done]|].
      rewrite fields_val_app, octets_val, octets_bits, Eb, length_app by by apply octets_ok.
      split; [unfold be_val at 1; rewrite foldl_app, foldl_be; fold (be_val eb); lia|]. split; lia.
    + eexists. split; [reflexivity|]. split; [done|]. cbn [fst snd enc_offset]. split; [lia|]. rewrite Eb, <- Hbits, <- Htot.
      unfold enc_nof_bits, enc_nof_bytes. cbn [enc_bytes enc_offset enc_room Z.eqb]. lia.
  - assert (Ht : exists ok e', (if enc_offset e =? 0 then Some (enc_append_bytes l e) else pack_each l e) = Some (ok, e') /\ 0 <= enc_offset e' < 8).
    { destruct (Z.eqb_spec (enc_offset e) 0) as [E0|]; [|by apply pack_each_total]. destruct e as [eb o room]. rewrite append_bytes_app.
      destruct (length l <=? room)%nat; eauto. }
    destruct Ht as (ok & e' & -> & Ho'). eexists. split; [reflexivity|]. split; [done|]. split; [done|]. cbn [fst snd andb].
    rewrite Eb. lia.
Qed.

(** Fields of whole octets, read off the encoder. *)
Lemma packed_octets t fs s bs :
  packed t fs s -> s.1 = true -> bytes_ok bs -> fields_bits fs = 8 * Z.of_nat (length bs) -> fields_val fs = be_val bs ->
  enc_bytes s.2 = bs.
Proof.
  intros (Hf & Ho & Hs) Hok Hb Hbits Hval. rewrite Hok in Hs. destruct Hs as (He & Hv & Hn & _).
  pose proof (enc_bytes_bits _ He) as Hl. destruct He as (Hby & _). unfold enc_val, enc_pad, enc_nof_bits in *.
  assert (E0 : enc_offset s.2 = 0) by (destruct (Z.eqb_spec (enc_offset s.2) 0); lia).
  rewrite E0 in *. cbn [Z.eqb] in *. change ((8 - 0) mod 8) with 0 in *. rewrite Z.div_1_r in Hv. unfold enc_nof_bytes in *.
  apply be_val_inj; [done|done|lia|lia].
Qed.

Lemma packed_fits t fs s : packed t fs s -> s.1 = bool_decide (fields_bits fs <= 8 * t).
Proof.
  intros (_ & Ho & Hs). destruct (s.1).
  - destruct Hs as (He & _ & Hb & Ht). rewrite bool_decide_true; [done|]. rewrite (enc_bytes_bits _ He) in Ht. lia.
  - rewrite bool_decide_false; [done|lia].
Qed.

(** ** Unpacking at the level of octets *)
Lemma unpack_in_octet w n b rest o :
  is_byte b -> 0 <= o -> 0 < n -> o + n <= 8 -> n <= w -> 8 <= w <= 64 ->
  bit_unpack w n (Dec (b :: rest) o) =
    Some (true, b mod 2 ^ (8 - o) / 2 ^ (8 - o - n), if o + n =? 8 then Dec rest 0 else Dec (b :: rest) (o + n)).
Proof.
  intros Hb Ho Hn Hon Hw Hw8. unfold bit_unpack. rewrite (proj2 (Z.ltb_ge _ _)) by lia.
  destruct (Z.to_nat n) as [|fuel] eqn:Ef; [lia|]. cbn [unpack_loop dec_rest dec_offset]. rewrite (proj2 (Z.ltb_lt 0 n)) by lia.
  assert (Hp : 0 < 2 ^ (8 - o)) by (apply pow2_pos; lia). pose proof (Z.mod_pos_bound b (2 ^ (8 - o)) Hp) as Hr.
  assert (2 ^ (8 - o) <= 2 ^ 8) by (apply Z.pow_le_mono_r; lia). assert (2 ^ 8 <= 2 ^ w) by (apply Z.pow_le_mono_r; lia).
  assert (2 ^ w <= 2 ^ 64) by (apply Z.pow_le_mono_r; lia).
  destruct (Z.ltb_spec n (8 - o)) as [Hlt|Hge].
  - rewrite (proj2 (Z.eqb_neq _ _)) by lia. rewrite mask_high, Z.add_0_l by lia.
    assert (Hp2 : 0 < 2 ^ (8 - o - n)) by (apply pow2_pos; lia).
    assert (0 <= b mod 2 ^ (8 - o) / 2 ^ (8 - o - n) <= b mod 2 ^ (8 - o)).
    { split; [apply Z.div_pos; lia|]. apply Z.div_le_upper_bound; nia. }
    unfold u64. rewrite (uint_small 64) by lia. destruct fuel; cbn [unpack_loop Z.ltb Z.compare mbind option_bind]; by rewrite uint_small by lia.
  - replace n with (8 - o) by lia. replace (o + (8 - o)) with 8 by lia. rewrite Z.eqb_refl, mask_low, Z.sub_diag by lia.
    replace (8 - o - 8 + o) with 0 by lia. rewrite Z.shiftl_0_r, Z.add_0_l, Z.div_1_r. unfold u64. rewrite (uint_small 64 (b mod _)), (uint_small 64 (b mod _)) by lia.
    destruct fuel; cbn [unpack_loop Z.ltb Z.compare mbind option_bind]; by rewrite uint_small by lia.
Qed.

(** Whole octets from the start of an octet. *)
Lemma unpack_loop_octets bs : forall fuel acc rest,
  bytes_ok bs -> (8 * length bs <= fuel)%nat -> (length bs <= 8)%nat ->
  0 <= acc <= 2 ^ 64 - 2 ^ (8 * Z.of_nat (length bs)) ->
  unpack_loop fuel acc (8 * Z.of_nat (length bs)) (Dec (bs ++ rest) 0) = Some (true, acc + be_val bs, Dec rest 0).
Proof.
  induction bs as [|b bs IH]; intros fuel acc rest Hb Hf Hl Ha.
  { cbn. rewrite Z.add_0_r. by destruct fuel. }
  apply Forall_cons in Hb as [Hb0 Hb]. cbn [length] in *. destruct fuel as [|fuel]; [lia|].
  cbn [unpack_loop app dec_rest dec_offset]. rewrite (proj2 (Z.ltb_lt 0 _)), (proj2 (Z.ltb_ge _ (8 - 0))) by lia.
  rewrite mask_low by lia. replace (8 * Z.of_nat (S (length bs)) - 8 + 0) with (8 * Z.of_nat (length bs)) by lia.
  replace (8 * Z.of_nat (S (length bs)) - (8 - 0)) with (8 * Z.of_nat (length bs)) by lia.
  pose proof (pow2_pos (8 * Z.of_nat (length bs)) ltac:(lia)) as Hp.
  replace (8 * Z.of_nat (S (length bs))) with (8 + 8 * Z.of_nat (length bs)) in Ha by lia. rewrite Z.pow_add_r in Ha by lia.
  change (2 ^ 8) with 256 in Ha. unfold is_byte in Hb0. change (2 ^ (8 - 0)) with 256. rewrite (Z.mod_small b) by lia.
  rewrite Z.shiftl_mul_pow2 by lia. unfold u64. rewrite (uint_small 64 (b * _)), (uint_small 64) by nia.
  rewrite IH; [|done|lia|lia|nia]. rewrite be_val_cons. f_equal. f_equal. f_equal. lia.
Qed.

Lemma unpack_aligned_octets w bs rest :
  bytes_ok bs -> 8 * Z.of_nat (length bs) <= w -> w <= 64 ->
  bit_unpack w (8 * Z.of_nat (length bs)) (Dec (bs ++ rest) 0) = Some (true, be_val bs, Dec rest 0).
Proof.
  intros Hb Hw Hw64. unfold bit_unpack. rewrite (proj2 (Z.ltb_ge _ _)) by lia. pose proof (be_val_range bs Hb) as Hr.
  assert (2 ^ (8 * Z.of_nat (length bs)) <= 2 ^ w) by (apply Z.pow_le_mono_r; lia).
  assert (2 ^ w <= 2 ^ 64) by (apply Z.pow_le_mono_r; lia).
  rewrite unpack_loop_octets; [|done|lia|lia|lia]. cbn [mbind option_bind]. rewrite Z.add_0_l. by rewrite uint_small by lia.
Qed.

Lemma be_val_app a b : be_val (a ++ b) = be_val a * 2 ^ (8 * Z.of_nat (length b)) + be_val b.
Proof. unfold be_val at 1. rewrite foldl_app. apply foldl_be. Qed.

Ltac octet_list := repeat (apply Forall_cons_2; [assumption|]); first [assumption|apply Forall_nil_2].

(** Concrete lists of octets, and of structures of them. *)
Ltac octets_ok :=
  repeat match goal with
  | |- _ /\ _ => split
  | |- Forall _ [] => apply Forall_nil_2
  | |- Forall _ (_ :: _) => apply Forall_cons_2
  | |- is_byte _ => unfold is_byte
  | |- _ => progress cbn
  end; cbn; first [done | lia | vm_compute; congruence].

(** ** Fields that fill octets *)

(** [n] octets, the most significant first. *)
Fixpoint be (n : nat) (v : Z) : list Z := match n with O => [] | S n => be n (v / 256) ++ [v mod 256] end.

Lemma be_length n v : length (be n v) = n.
Proof. revert v. induction n as [|n IH]; intros v; [done|]. cbn [be]. rewrite length_app, IH. cbn. lia. Qed.

Lemma be_ok n v : bytes_ok (be n v).
Proof. revert v. induction n as [|n IH]; intros v; [constructor|]. cbn [be]. apply Forall_app_2; [done|]. constructor; [unfold is_byte; lia|constructor]. Qed.

Lemma be_val_be n v : 0 <= v < 2 ^ (8 * Z.of_nat n) -> be_val (be n v) = v.
Proof.
  revert v. induction n as [|n IH]; intros v Hv; [cbn in *; lia|]. cbn [be]. rewrite be_val_snoc.
  replace (8 * Z.of_nat (S n)) with (8 * Z.of_nat n + 8) in Hv by lia. rewrite Z.pow_add_r in Hv by lia. change (2 ^ 8) with 256 in Hv.
  rewrite IH; [lia|]. split; [apply Z.div_pos; lia|apply Z.div_lt_upper_bound; lia].
Qed.

Definition same (fs : list (Z * Z)) (bs : list Z) : Prop :=
  Forall field_ok fs /\ bytes_ok bs /\ fields_bits fs = 8 * Z.of_nat (length bs) /\ fields_val fs = be_val bs.

Lemma same_app f1 f2 b1 b2 : same f1 b1 -> same f2 b2 -> same (f1 ++ f2) (b1 ++ b2).
Proof.
  intros (? & ? & Eb1 & Ev1) (? & ? & Eb2 & Ev2). split; [by apply Forall_app_2|]. split; [by apply Forall_app_2|].
  rewrite fields_bits_app, fields_val_app, be_val_app, length_app by done. rewrite Eb2, Ev1, Ev2. split; [lia|done].
Qed.

Lemma same_nil : same [] []. Proof. split; [constructor|]. split; [constructor|done]. Qed.

Lemma same_octets bs : bytes_ok bs -> same (octets bs) bs.
Proof. intros. split; [by apply octets_ok|]. split; [done|]. split; [apply octets_bits|apply octets_val]. Qed.

Lemma same_be n v : (n <= 8)%nat -> 0 <= v < 2 ^ (8 * Z.of_nat n) -> same [(v, 8 * Z.of_nat n)] (be n v).
Proof.
  intros Hn Hv. split; [constructor; [split; cbn; lia|done]|]. split; [apply be_ok|]. rewrite fields_bits_1, be_length. split; [done|].
  rewrite fields_val_1. symmetry. by apply be_val_be.
Qed.

Lemma same_octet v : is_byte v -> same [(v, 8)] [v].
Proof. intros Hv. apply (same_octets [v]). by constructor. Qed.

(** Later fields do not help a pack that already failed. *)
Lemma packed_more t fs gs s : packed t fs s -> s.1 = false -> Forall field_ok gs -> packed t (fs ++ gs) s.
Proof.
  intros (Hf & Ho & Hs) Hok Hg. rewrite Hok in Hs. split; [by apply Forall_app_2|]. split; [done|]. rewrite Hok, fields_bits_app.
  pose proof (fields_bits_nonneg gs Hg). lia.
Qed.

(** The outcome of a chain of packs that fill octets. *)
Lemma packed_result t fs bs s :
  packed t fs s -> same fs bs ->
  s.1 = bool_decide (Z.of_nat (length bs) <= t) /\ (s.1 = true -> enc_bytes s.2 = bs).
Proof.
  intros Hp (_ & Hb & Eb & Ev). split.
  - rewrite (packed_fits _ _ _ Hp), Eb. apply bool_decide_ext. lia.
  - intros Hok. by apply (packed_octets t fs).
Qed.

(** Stepping through a chain of packs that ends in [Q]. *)
Definition runs_to {A} (o : option A) (Q : A -> Prop) : Prop := exists r, o = Some r /\ Q r.

Lemma runs_to_ret {A} (x : A) (Q : A -> Prop) : Q x -> runs_to (Some x) Q.
Proof. by exists x. Qed.

Lemma runs_to_bind {A B} (o : option A) (k : A -> option B) P Q :
  runs_to o P -> (forall x, P x -> runs_to (k x) Q) -> runs_to (o ≫= k) Q.
Proof. intros (x & -> & Hx) Hk. by apply Hk. Qed.

Lemma pack_run t fs v n s :
  packed t fs s -> 0 <= n <= 64 -> 0 <= v < 2 ^ n -> runs_to (pack_and v n s) (packed t (fs ++ [(v, n)])).
Proof. intros. by apply pack_and_packed. Qed.

Lemma pack_bytes_run t fs bs s :
  packed t fs s -> bytes_ok bs -> fields_bits fs mod 8 = 0 -> runs_to (pack_bytes_and bs s) (packed t (fs ++ octets bs)).
Proof. intros. by apply pack_bytes_packed. Qed.

(** [pack_step H]: [H] is what was packed before and after the step. *)
Ltac pack_step H :=
  eapply runs_to_bind; [apply (pack_run _ _ _ _ _ H); [lia|try assumption; try (norm_pow; lia)]|];
  clear H; let s := fresh "s" in intros s H; cbn beta.
