(* ===== verification/BitIo.v ===== *)
(** * Writers and readers of bit fields that stop at the first failure

    The packers of the extension header containers are sequences of [VERIFY_WRITE(encoder.pack(..))] and
    [VERIFY_READ(decoder.unpack(..))], which return [false] at the first failure. A [writer] transforms the encoder, a [reader]
    the decoder; the outer [None] is a failed assertion, the inner one the [false]. [adds] says which fields a writer packs,
    [yields] what a reader makes of them; both are compositional, so a round trip is proved field by field. *)
From S2P Require Import Prelude BitCodec BitFields.

Definition writer : Type := bit_encoder -> option (option bit_encoder).
Definition reader (A : Type) : Type := bit_decoder -> option (option (A * bit_decoder)).

Definition is_some {A} (o : option A) : bool := match o with Some _ => true | None => false end.
Definition z_bit (b : bool) : Z := if b then 1 else 0.

(** ** Writers *)
Definition w_skip : writer := fun e => Some (Some e).

(** [VERIFY_WRITE(encoder.pack(v, n))] *)
Definition w_pack (v n : Z) : writer := fun e => '(ok, e) ← bit_pack v n e; Some (if ok : bool then Some e else None).

Definition w_seq (a b : writer) : writer :=
  fun e => r ← a e; match r with Some e => b e | None => Some None end.

Definition w_when (c : bool) (a : writer) : writer := if c then a else w_skip.

Definition w_some {A} (o : option A) (f : A -> writer) : writer := match o with Some x => f x | None => w_skip end.

Fixpoint w_each {A} (f : A -> writer) (l : list A) : writer :=
  match l with [] => w_skip | x :: l => w_seq (f x) (w_each f l) end.

(** ** Readers *)
Definition r_ret {A} (x : A) : reader A := fun d => Some (Some (x, d)).
Definition r_fail {A} : reader A := fun _ => Some None.

(** [VERIFY_READ(decoder.unpack(x, n))] into an integer of [width] bits *)
Definition r_unpack (width n : Z) : reader Z :=
  fun d => '(ok, v, d) ← bit_unpack width n d; Some (if ok : bool then Some (v, d) else None).

(** [decoder.unpack(x, n)], its result ignored *)
Definition r_unpack_any (width n : Z) : reader Z := fun d => '(_, v, d) ← bit_unpack width n d; Some (Some (v, d)).

Definition r_bind {A B} (m : reader A) (k : A -> reader B) : reader B :=
  fun d => r ← m d; match r with Some (x, d) => k x d | None => Some None end.

Declare Scope bitio_scope.
Delimit Scope bitio_scope with bitio.
Notation "a >>> b" := (w_seq a b) (at level 60, right associativity) : bitio_scope.
Notation "x <~ m ; k" := (r_bind m (fun x => k)) (at level 20, m at level 100, k at level 200, right associativity) : bitio_scope.
Open Scope bitio_scope.

(** Into a [bool] *)
Definition r_flag : reader bool := b <~ r_unpack 8 1; r_ret (negb (b =? 0)).
Definition r_flag_any : reader bool := b <~ r_unpack_any 8 1; r_ret (negb (b =? 0)).

Definition r_when {A} (c : bool) (m : reader A) : reader (option A) := if c then x <~ m; r_ret (Some x) else r_ret None.

(** [if (x != 0) return false] *)
Definition r_check (c : bool) : reader unit := if c then r_ret tt else r_fail.

Fixpoint r_times {A} (n : nat) (m : reader A) : reader (list A) :=
  match n with O => r_ret [] | S n => x <~ m; l <~ r_times n m; r_ret (x :: l) end.

(** [while (((out_buf.length() - start_len) + 2) % 4) { VERIFY_WRITE(out_buf.append(0x0)); }] *)
Fixpoint pad_loop (fuel : nat) (start_len : Z) (e : bit_encoder) : option (option bit_encoder) :=
  if (enc_nof_bytes e - start_len + 2) mod 4 =? 0 then Some (Some e) else
  match fuel with
  | O => None
  | S fuel => let '(ok, e) := enc_append_byte 0 e in if ok then pad_loop fuel start_len e else Some None
  end.

Definition w_pad (start_len : Z) : writer := pad_loop 3 start_len.

Definition flag_field (b : bool) : Z * Z := (z_bit b, 1).

(** The outcome of packing [fs]. *)
Definition outcome (t : Z) (fs : list (Z * Z)) (r : option bit_encoder) : Prop :=
  match r with Some e => packed t fs (true, e) | None => 8 * t < fields_bits fs end.

Definition adds (m : writer) (fs : list (Z * Z)) : Prop :=
  Forall field_ok fs /\
  forall t gs e, packed t gs (true, e) -> exists r, m e = Some r /\ outcome t (gs ++ fs) r.

Lemma adds_skip : adds w_skip [].
Proof. split; [done|]. intros t gs e Hp. exists (Some e). by rewrite app_nil_r. Qed.

Lemma adds_pack v n : 0 <= n <= 64 -> 0 <= v < 2 ^ n -> adds (w_pack v n) [(v, n)].
Proof.
  intros Hn Hv. split; [constructor; [split; cbn; lia|done]|]. intros t gs e Hp.
  destruct (pack_and_packed t gs v n _ Hp Hn Hv) as ([ok e'] & E & Hp'). unfold pack_and, w_pack in *. cbn [fst snd] in *.
  destruct (bit_pack v n e) as [[ok' e'']|]; [|done]. cbn [mbind option_bind andb] in *. injection E as -> ->. eexists. split; [reflexivity|].
  destruct ok; [done|]. by destruct Hp' as (_ & _ & ?).
Qed.

Lemma adds_flag b : adds (w_pack (z_bit b) 1) [flag_field b].
Proof. apply adds_pack; [lia|by destruct b]. Qed.

Lemma adds_seq a b fs gs : adds a fs -> adds b gs -> adds (a >>> b) (fs ++ gs).
Proof.
  intros [Hf Ha] [Hg Hb]. split; [by apply Forall_app_2|]. intros t hs e Hp.
  destruct (Ha t hs e Hp) as (r & E & Ho). unfold w_seq. rewrite E. cbn [mbind option_bind]. destruct r as [e'|].
  - destruct (Hb t _ e' Ho) as (r & E' & Ho'). exists r. by rewrite app_assoc.
  - exists None. split; [done|]. cbn in *. rewrite app_assoc, fields_bits_app. pose proof (fields_bits_nonneg gs Hg). lia.
Qed.

Lemma adds_when (c : bool) m fs : (c = true -> adds m fs) -> adds (w_when c m) (if c then fs else []).
Proof. destruct c; [auto|]. intros _. apply adds_skip. Qed.

Lemma adds_some {A} (o : option A) f (g : A -> list (Z * Z)) :
  (forall x, o = Some x -> adds (f x) (g x)) -> adds (w_some o f) (from_option g [] o).
Proof. destruct o as [x|]; intros H; [by apply H|apply adds_skip]. Qed.

Lemma adds_each {A} (f : A -> writer) (g : A -> list (Z * Z)) l :
  Forall (fun x => adds (f x) (g x)) l -> adds (w_each f l) (concat (map g l)).
Proof.
  induction l as [|x l IH]; intros H; [apply adds_skip|]. apply Forall_cons in H as [Hx H]. cbn. apply adds_seq; auto.
Qed.

(** ** What a reader makes of fields *)
Definition yields {A} (m : reader A) (fs : list (Z * Z)) (x : A) : Prop :=
  forall d gs tail, reads d (fs ++ gs) tail -> exists d', m d = Some (Some (x, d')) /\ reads d' gs tail.

Lemma yields_ret {A} (x : A) : yields (r_ret x) [] x.
Proof. intros d gs tail Hr. by exists d. Qed.

Lemma yields_bind {A B} (m : reader A) (k : A -> reader B) fs gs x y :
  yields m fs x -> yields (k x) gs y -> yields (r_bind m k) (fs ++ gs) y.
Proof.
  intros Hm Hk d hs tail Hr. rewrite <- app_assoc in Hr. destruct (Hm d _ tail Hr) as (d1 & E1 & Hr1).
  destruct (Hk d1 hs tail Hr1) as (d2 & E2 & Hr2). exists d2. unfold r_bind. by rewrite E1.
Qed.

Lemma yields_unpack w n v : n <= w -> yields (r_unpack w n) [(v, n)] v.
Proof. intros Hw d gs tail Hr. destruct (unpack_reads w v n gs d tail Hr Hw) as (d' & E & Hr'). exists d'. unfold r_unpack. by rewrite E. Qed.

Lemma yields_unpack_any w n v : n <= w -> yields (r_unpack_any w n) [(v, n)] v.
Proof. intros Hw d gs tail Hr. destruct (unpack_reads w v n gs d tail Hr Hw) as (d' & E & Hr'). exists d'. unfold r_unpack_any. by rewrite E. Qed.

Lemma yields_flag b : yields r_flag [flag_field b] b.
Proof.
  replace b with (negb (z_bit b =? 0)) at 2 by by destruct b.
  eapply (yields_bind _ _ [flag_field b] []); [by apply yields_unpack|apply yields_ret].
Qed.

Lemma yields_flag_any b : yields r_flag_any [flag_field b] b.
Proof.
  replace b with (negb (z_bit b =? 0)) at 2 by by destruct b.
  eapply (yields_bind _ _ [flag_field b] []); [by apply yields_unpack_any|apply yields_ret].
Qed.

Lemma yields_map {A B} (m : reader A) (f : A -> B) fs x : yields m fs x -> yields (x <~ m; r_ret (f x)) fs (f x).
Proof. intros Hm. rewrite <- (app_nil_r fs). eapply yields_bind; [exact Hm|apply yields_ret]. Qed.

Lemma yields_when {A} (c : bool) (m : reader A) fs x :
  (c = true -> yields m fs x) -> yields (r_when c m) (if c then fs else []) (if c then Some x else None).
Proof. destruct c; intros H; [by apply (yields_map m Some), H|apply yields_ret]. Qed.

Lemma yields_some {A} (o : option A) (m : reader A) (g : A -> list (Z * Z)) :
  (forall x, o = Some x -> yields m (g x) x) -> yields (r_when (is_some o) m) (from_option g [] o) o.
Proof. destruct o as [x|]; intros H; [by apply (yields_map m Some), H|apply yields_ret]. Qed.

Lemma yields_check : yields (r_check true) [] tt.
Proof. apply yields_ret. Qed.

Lemma yields_times {A} (m : reader A) (g : A -> list (Z * Z)) l n :
  n = length l -> Forall (fun x => yields m (g x) x) l -> yields (r_times n m) (concat (map g l)) l.
Proof.
  intros ->. induction l as [|x l IH]; intros H; [apply yields_ret|]. apply Forall_cons in H as [Hx H]. cbn [length r_times map concat].
  eapply yields_bind; [exact Hx|]. rewrite <- (app_nil_r (concat (map g l))). eapply yields_bind; [by apply IH|apply yields_ret].
Qed.

(** ** Readers do not fail an assertion *)
Definition total {A} (m : reader A) : Prop :=
  forall d, dec_ok d -> exists r, m d = Some r /\ match r with Some (_, d') => dec_ok d' | None => True end.

Lemma unpack_loop_ok fuel : forall acc n d ok acc' d',
  dec_ok d -> unpack_loop fuel acc n d = Some (ok, acc', d') -> dec_ok d'.
Proof.
  induction fuel as [|fuel IH]; intros acc n [bs o] ok acc' d' Hd E; cbn [unpack_loop] in E.
  { destruct (0 <? n); [done|]. by injection E as <- <- <-. }
  destruct (Z.ltb_spec 0 n); [|by injection E as <- <- <-]. cbn [dec_rest dec_offset] in E.
  destruct bs as [|b bs]; [by injection E as <- <- <-|]. destruct Hd as (Hb & Ho & Hne). cbn [dec_rest dec_offset] in *.
  destruct (Z.ltb_spec n (8 - o)); apply IH in E; try done.
  - split; [done|]. split; [cbn; lia|done].
  - apply Forall_cons in Hb as [_ Hb]. split; [done|]. split; [cbn; lia|done].
Qed.

Lemma bit_unpack_total_ok width n d :
  dec_ok d -> 0 <= n <= width -> width <= 64 -> exists ok v d', bit_unpack width n d = Some (ok, v, d') /\ dec_ok d'.
Proof.
  intros Hd Hn Hw. unfold bit_unpack. rewrite (proj2 (Z.ltb_ge _ _)) by lia.
  destruct (Z.leb_spec n (dec_bits d)).
  - destruct (unpack_loop_spec (Z.to_nat n) 0 n d) as (d' & -> & ? & _); [done|lia|lia|done| |by eexists _, _, _].
    assert (2 ^ n <= 2 ^ 64) by (apply Z.pow_le_mono_r; lia). pose proof (pow2_pos n). lia.
  - destruct (BitCodec.unpack_loop_short (Z.to_nat n) 0 n d) as (acc & d' & E & _); [done|lia|lia|]. rewrite E.
    eexists _, _, _. split; [reflexivity|]. by eapply unpack_loop_ok.
Qed.

Lemma total_ret {A} (x : A) : total (r_ret x).
Proof. intros d Hd. by exists (Some (x, d)). Qed.

Lemma total_fail {A} : total (r_fail (A := A)).
Proof. intros d Hd. by exists None. Qed.

Lemma total_bind {A B} (m : reader A) (k : A -> reader B) : total m -> (forall x, total (k x)) -> total (r_bind m k).
Proof.
  intros Hm Hk d Hd. destruct (Hm d Hd) as (r & E & Hr). unfold r_bind. rewrite E. cbn [mbind option_bind].
  destruct r as [[x d']|]; [by apply Hk|by exists None].
Qed.

Lemma total_unpack w n : 0 <= n <= w -> w <= 64 -> total (r_unpack w n).
Proof.
  intros Hn Hw d Hd. destruct (bit_unpack_total_ok w n d Hd Hn Hw) as (ok & v & d' & E & Hd'). unfold r_unpack. rewrite E.
  eexists. split; [reflexivity|]. by destruct ok.
Qed.

Lemma total_unpack_any w n : 0 <= n <= w -> w <= 64 -> total (r_unpack_any w n).
Proof.
  intros Hn Hw d Hd. destruct (bit_unpack_total_ok w n d Hd Hn Hw) as (ok & v & d' & E & Hd'). unfold r_unpack_any. rewrite E.
  by eexists.
Qed.

Lemma total_flag : total r_flag.
Proof. apply total_bind; [apply total_unpack; lia|intros; apply total_ret]. Qed.

Lemma total_flag_any : total r_flag_any.
Proof. apply total_bind; [apply total_unpack_any; lia|intros; apply total_ret]. Qed.

Lemma total_when {A} c (m : reader A) : total m -> total (r_when c m).
Proof. intros Hm. destruct c; [|apply total_ret]. apply total_bind; [done|intros; apply total_ret]. Qed.

Lemma total_check c : total (r_check c).
Proof. destruct c; [apply total_ret|apply total_fail]. Qed.

Lemma total_times {A} n (m : reader A) : total m -> total (r_times n m).
Proof.
  intros Hm. induction n as [|n IH]; [apply total_ret|]. cbn. apply total_bind; [done|]. intros x. apply total_bind; [done|intros; apply total_ret].
Qed.

#[export] Hint Resolve total_ret total_fail total_flag total_flag_any total_check : bitio.
Ltac solve_total :=
  repeat match goal with
  | |- total (r_bind _ _) => apply total_bind; [|intros ?]
  | |- total (r_when _ _) => apply total_when
  | |- total (r_times _ _) => apply total_times
  | |- total (r_unpack _ _) => apply total_unpack; lia
  | |- total (r_unpack_any _ _) => apply total_unpack_any; lia
  | |- total (if ?b then _ else _) => destruct b
  | |- _ => solve [auto with bitio]
  end.

Lemma total_run {A} (m : reader A) bs : total m -> bytes_ok bs -> exists r, m (bit_decoder_new bs) = Some r.
Proof. intros Hm Hb. destruct (Hm (bit_decoder_new bs)) as (r & E & _); [|by exists r]. split; [done|]. split; [cbn; lia|done]. Qed.

(** ** Padding *)
Lemma append_packed t fs e :
  packed t fs (true, e) -> fields_bits fs mod 8 = 0 ->
  let '(ok, e') := enc_append_byte 0 e in packed t (fs ++ [(0, 8)]) (ok, e').
Proof.
  intros Hp Hm. destruct (pack_bytes_packed t fs [0] _ Hp) as (s' & E & Hp'); [octets_ok|done|].
  unfold pack_bytes_and, pack_bytes in E. cbn [fst snd] in E. destruct Hp as (_ & Ho & (He & _ & Hb & _)). cbn [fst snd] in *.
  assert (E0 : enc_offset e = 0) by (unfold enc_nof_bits in Hb; destruct (Z.eqb_spec (enc_offset e) 0); lia). rewrite E0 in E.
  cbn [Z.eqb mbind option_bind enc_append_bytes] in E. destruct (enc_append_byte 0 e) as [[] e']; by injection E as <-.
Qed.

Lemma packed_bytes t fs e : packed t fs (true, e) -> enc_nof_bytes e = (fields_bits fs + 7) / 8.
Proof. intros (_ & _ & (He & _ & Hb & _)). cbn [fst snd] in *. by rewrite (enc_bytes_bits _ He), Hb. Qed.

Lemma pad_loop_spec fuel : forall t fs e,
  packed t fs (true, e) -> fields_bits fs mod 8 = 0 -> (- (fields_bits fs / 8 + 2)) mod 4 <= Z.of_nat fuel ->
  exists r, pad_loop fuel 0 e = Some r /\ outcome t (fs ++ octets (replicate (Z.to_nat ((- (fields_bits fs / 8 + 2)) mod 4)) 0)) r.
Proof.
  induction fuel as [|fuel IH]; intros t fs e Hp Hm Hf; cbn [pad_loop]; rewrite (packed_bytes _ _ _ Hp);
    replace ((fields_bits fs + 7) / 8) with (fields_bits fs / 8) by lia.
  - destruct (Z.eqb_spec ((fields_bits fs / 8 - 0 + 2) mod 4) 0); [|lia]. exists (Some e). split; [done|].
    replace ((- (fields_bits fs / 8 + 2)) mod 4) with 0 by lia. cbn. by rewrite app_nil_r.
  - destruct (Z.eqb_spec ((fields_bits fs / 8 - 0 + 2) mod 4) 0) as [E0|E0].
    + exists (Some e). split; [done|]. replace ((- (fields_bits fs / 8 + 2)) mod 4) with 0 by lia. cbn. by rewrite app_nil_r.
    + pose proof (append_packed t fs e Hp Hm) as Ha. destruct (enc_append_byte 0 e) as [ok e'].
      assert (Eb : fields_bits (fs ++ [(0, 8)]) = fields_bits fs + 8) by by rewrite fields_bits_app, fields_bits_1.
      set (k := (- (fields_bits fs / 8 + 2)) mod 4) in *.
      assert (Ek : (- (fields_bits (fs ++ [(0, 8)]) / 8 + 2)) mod 4 = k - 1) by (rewrite Eb; unfold k; lia).
      replace (Z.to_nat k) with (S (Z.to_nat (k - 1))) by lia. destruct ok.
      * destruct (IH t _ e' Ha) as (r & -> & Ho); [lia|lia|]. exists r. split; [done|]. rewrite Ek, <- app_assoc in Ho. done.
      * exists None. split; [done|]. destruct Ha as (_ & _ & Ha). cbn [fst outcome] in *. rewrite fields_bits_app, octets_bits, length_replicate. lia.
Qed.

(** [fs] and the padding that makes a container of it. *)
Definition pad_octets (fs : list (Z * Z)) : list Z := replicate (Z.to_nat ((- (fields_bits fs / 8 + 2)) mod 4)) 0.

(** Fields that are not read are a longer tail. *)
Lemma reads_prefix d fs gs tail : reads d (fs ++ gs) tail -> reads d fs (fields_bits gs + tail).
Proof.
  intros (Hd & Hf & Ht & Hb & Hv). apply Forall_app in Hf as [Hf Hg]. pose proof (fields_bits_nonneg gs Hg) as Hn.
  split; [done|]. split; [done|]. split; [lia|]. rewrite fields_bits_app in Hb. split; [lia|].
  rewrite fields_val_app in Hv by done. destruct (foldl_fields 0 gs Hg) as [_ Hr].
  rewrite Z.add_comm, Z.pow_add_r, <- Z.div_div, Hv by (try apply Z.pow_nonzero; try apply pow2_pos; lia).
  rewrite Z.div_add_l, Z.div_small by lia. lia.
Qed.

(** A packer of a container: it starts on an empty buffer, and ends with the padding. *)
Lemma container_written m fs room :
  adds m fs -> fields_bits fs mod 8 = 0 ->
  exists r, (m >>> w_pad 0) (bit_encoder_new room) = Some r /\
    match r with
    | Some e => bytes_ok (enc_bytes e) /\ z_len (enc_bytes e) = fields_bits fs / 8 + (- (fields_bits fs / 8 + 2)) mod 4 /\
                (z_len (enc_bytes e) + 2) mod 4 = 0 /\ z_len (enc_bytes e) <= Z.of_nat room /\
                reads (bit_decoder_new (enc_bytes e)) fs (8 * ((- (fields_bits fs / 8 + 2)) mod 4))
    | None => Z.of_nat room < fields_bits fs / 8 + (- (fields_bits fs / 8 + 2)) mod 4
    end.
Proof.
  intros [Hf Hm] H8. destruct (Hm (Z.of_nat room) [] (bit_encoder_new room)) as (r & E & Ho); [apply (packed_start [] room); constructor|].
  unfold w_seq, w_pad. rewrite E. cbn [mbind option_bind app] in *. set (k := (- (fields_bits fs / 8 + 2)) mod 4).
  assert (Hz : bytes_ok (replicate (Z.to_nat k) 0)) by by apply Forall_replicate.
  destruct r as [e|]; [|exists None; split; [done|]; cbn in Ho; lia].
  destruct (pad_loop_spec 3 _ fs e Ho H8) as (r & -> & Hr); [lia|]. fold k in Hr. exists r. split; [done|].
  assert (Eb : fields_bits (fs ++ octets (replicate (Z.to_nat k) 0)) = fields_bits fs + 8 * k).
  { rewrite fields_bits_app, octets_bits, length_replicate. lia. }
  destruct r as [e'|]; cbn [outcome] in Hr; [|rewrite Eb in Hr; lia].
  pose proof (packed_bytes _ _ _ Hr) as Hlen. pose proof Hr as (Hf' & Hoff & (He & Hv & Hn & Ht)). cbn [fst snd] in *.
  unfold enc_nof_bytes, z_len in *. rewrite Eb in Hlen. split; [apply He|]. split; [lia|]. split; [lia|]. split; [lia|].
  pose proof (packed_reads e' _ [] He Hf' Hv Hn ltac:(constructor)) as Hrd. rewrite app_nil_r in Hrd.
  assert (Epad : enc_pad e' = 0) by (unfold enc_pad, enc_nof_bits, enc_nof_bytes in *; rewrite Eb in Hn; destruct (Z.eqb_spec (enc_offset e') 0); lia).
  rewrite Epad in Hrd. by apply reads_prefix in Hrd; rewrite ?octets_bits, ?length_replicate in Hrd; replace (8 * k) with (8 * Z.of_nat (Z.to_nat k) + (0 + 8 * Z.of_nat (length (@nil Z)))) by (cbn; lia).
Qed.
