(* ===== verification/Nru.v ===== *)
(** * Containers of GTP-U extension headers: NR-U frames ([lib/nru/nru_packing.cpp]) and PDCP PDU numbers
    ([lib/gtpu/extension_header])

    Each packer fills an empty buffer, whose length becomes a multiple of four less two; each unpacker reads a container
    into a fresh structure. [ContainerCodec] is what the tunnels use of them, [ContainerLaws] what they rely on. *)
From S2P Require Import Prelude BitCodec BitFields BitIo.

(** ** Interface *)

(** A container that fits an extension header: its length in words is an octet. *)
Definition container_ok (c : list Z) : Prop := bytes_ok c /\ (z_len c + 2) mod 4 = 0 /\ z_len c <= 250.

(** The inner [None] is [false]; the first argument of [cc_pack] is the memory there is. *)
Class ContainerCodec (A : Type) := {
  cc_pack : nat -> A -> option (option (list Z));
  cc_unpack : list Z -> option (option A)
}.

Class ContainerLaws (A : Type) `{ContainerCodec A} := {
  cc_ok : A -> Prop;
  cc_read : A -> A;
  cc_size : A -> Z;
  cc_pack_spec : forall room x, cc_ok x -> exists r, cc_pack room x = Some r /\
    match r with
    | Some c => container_ok c /\ z_len c = cc_size x /\ cc_unpack c = Some (Some (cc_read x))
    | None => Z.of_nat room < cc_size x
    end;
  cc_size_bound : forall x, cc_ok x -> cc_size x <= 250;
  cc_unpack_total : forall c, bytes_ok c -> exists r, cc_unpack c = Some r
}.

(** The buffer after a packer that started on an empty one *)
Definition run_writer (w : writer) (room : nat) : option (option (list Z)) :=
  r ← w (bit_encoder_new room); Some (match r with Some e => Some (enc_bytes e) | None => None end).

Definition run_reader {A} (m : reader A) (c : list Z) : option (option A) :=
  r ← m (bit_decoder_new c); Some (match r with Some (x, _) => Some x | None => None end).

(** [container.empty()] and [(container.length() + 2) % 4 != 0] *)
Definition nru_run_reader {A} (m : reader A) (c : list Z) : option (option A) :=
  if z_len c =? 0 then Some None else if negb ((z_len c + 2) mod 4 =? 0) then Some None else run_reader m c.

(** [nru_packing::get_pdu_type] *)
Definition nru_get_pdu_type (c : list Z) : option Z := match c with [] => None | b :: _ => Some (Z.shiftr b 4) end.

(** ** DL user data *)
Definition nru_max_nof_pdcp_sn_discard_blocks : Z := 16.
Definition nru_max_nof_lost_nru_sn_ranges : Z := 2.
Definition nru_dl_user_data_type : Z := 0.
Definition nru_dl_data_delivery_status_type : Z := 1.

Record nru_pdcp_sn_discard_block := DiscardBlock { pdcp_sn_start : Z; block_size : Z }.
Record nru_lost_nru_sn_range := LostRange { nru_sn_start : Z; nru_sn_end : Z }.

Record nru_dl_user_data := DlUserData {
  report_polling : bool;
  request_out_of_seq_report : bool;
  report_delivered : bool;
  user_data_existence_flag : bool;
  assist_info_report_polling_flag : bool;
  retransmission_flag : bool;
  nru_sn : Z;
  dl_discard_pdcp_sn : option Z;
  discard_blocks : option (list nru_pdcp_sn_discard_block);
  dl_report_pdcp_sn : Z
}.

(** The discard blocks that are written: none for an empty list *)
Definition written_blocks (m : nru_dl_user_data) : option (list nru_pdcp_sn_discard_block) :=
  match discard_blocks m with Some (b :: l) => Some (b :: l) | _ => None end.

(** [nru_packing::pack] of DL user data *)
Definition nru_write_dl_user_data (m : nru_dl_user_data) : writer :=
  w_pack nru_dl_user_data_type 4 >>>
  w_pack 0 1 >>>
  w_pack (z_bit (is_some (written_blocks m))) 1 >>>
  w_pack (z_bit (is_some (dl_discard_pdcp_sn m))) 1 >>>
  w_pack (z_bit (report_polling m)) 1 >>>
  w_pack 0 3 >>>
  w_pack (z_bit (request_out_of_seq_report m)) 1 >>>
  w_pack (z_bit (report_delivered m)) 1 >>>
  w_pack (z_bit (user_data_existence_flag m)) 1 >>>
  w_pack (z_bit (assist_info_report_polling_flag m)) 1 >>>
  w_pack (z_bit (retransmission_flag m)) 1 >>>
  w_pack (nru_sn m) 24 >>>
  w_some (dl_discard_pdcp_sn m) (fun sn => w_pack sn 24) >>>
  w_some (written_blocks m) (fun l =>
    w_pack (Z.of_nat (length l)) 8 >>>
    w_each (fun b => w_pack (pdcp_sn_start b) 24 >>> w_pack (block_size b) 8) l) >>>
  w_when (report_delivered m) (w_pack (dl_report_pdcp_sn m) 24).

Definition nru_pack_dl_user_data (room : nat) (m : nru_dl_user_data) : option (option (list Z)) :=
  run_writer (nru_write_dl_user_data m >>> w_pad 0) room.

Definition read_discard_block : reader nru_pdcp_sn_discard_block :=
  s <~ r_unpack 32 24; n <~ r_unpack 8 8; r_ret (DiscardBlock s n).

(** [nru_packing::unpack] of DL user data *)
Definition nru_read_dl_user_data : reader nru_dl_user_data :=
  pdu_type <~ r_unpack 8 4;
  _ <~ r_check (pdu_type =? nru_dl_user_data_type);
  spare <~ r_unpack 8 1;
  _ <~ r_check (spare =? 0);
  dl_discard_blocks <~ r_flag;
  dl_flush <~ r_flag;
  polling <~ r_flag;
  spare <~ r_unpack 8 3;
  _ <~ r_check (spare =? 0);
  out_of_seq <~ r_flag_any;
  delivered <~ r_flag_any;
  existence <~ r_flag_any;
  assist <~ r_flag_any;
  retx <~ r_flag;
  sn <~ r_unpack 32 24;
  discard_sn <~ r_when dl_flush (r_unpack 32 24);
  blocks <~ r_when dl_discard_blocks (
    n <~ r_unpack 8 8;
    _ <~ r_check (n <=? nru_max_nof_pdcp_sn_discard_blocks);
    r_times (Z.to_nat n) read_discard_block);
  report <~ r_when delivered (r_unpack 32 24);
  r_ret (DlUserData polling out_of_seq delivered existence assist retx sn discard_sn blocks (default 0 report)).

Definition nru_unpack_dl_user_data (c : list Z) : option (option nru_dl_user_data) := nru_run_reader nru_read_dl_user_data c.

(** ** DL data delivery status *)
Record nru_dl_data_delivery_status := Ddds {
  final_frame_ind : bool;
  desired_buffer_size_for_drb : Z;
  desired_data_rate : option Z;
  lost_nru_sn_ranges : option (list nru_lost_nru_sn_range);
  highest_delivered_pdcp_sn : option Z;
  highest_transmitted_pdcp_sn : option Z;
  cause_value : option Z;
  highest_delivered_retransmitted_pdcp_sn : option Z;
  highest_retransmitted_pdcp_sn : option Z
}.

Definition nru_write_ddds (m : nru_dl_data_delivery_status) : writer :=
  w_pack nru_dl_data_delivery_status_type 4 >>>
  w_pack (z_bit (is_some (highest_transmitted_pdcp_sn m))) 1 >>>
  w_pack (z_bit (is_some (highest_delivered_pdcp_sn m))) 1 >>>
  w_pack (z_bit (final_frame_ind m)) 1 >>>
  w_pack (z_bit (is_some (lost_nru_sn_ranges m))) 1 >>>
  w_pack 0 4 >>>
  w_pack (z_bit (is_some (desired_data_rate m))) 1 >>>
  w_pack (z_bit (is_some (highest_retransmitted_pdcp_sn m))) 1 >>>
  w_pack (z_bit (is_some (highest_delivered_retransmitted_pdcp_sn m))) 1 >>>
  w_pack (z_bit (is_some (cause_value m))) 1 >>>
  w_pack (desired_buffer_size_for_drb m) 32 >>>
  w_some (desired_data_rate m) (fun v => w_pack v 32) >>>
  w_some (lost_nru_sn_ranges m) (fun l =>
    w_pack (Z.of_nat (length l)) 8 >>>
    w_each (fun r => w_pack (nru_sn_start r) 24 >>> w_pack (nru_sn_end r) 24) l) >>>
  w_some (highest_delivered_pdcp_sn m) (fun v => w_pack v 24) >>>
  w_some (highest_transmitted_pdcp_sn m) (fun v => w_pack v 24) >>>
  w_some (cause_value m) (fun v => w_pack v 8) >>>
  w_some (highest_delivered_retransmitted_pdcp_sn m) (fun v => w_pack v 24) >>>
  w_some (highest_retransmitted_pdcp_sn m) (fun v => w_pack v 24).

Definition nru_pack_ddds (room : nat) (m : nru_dl_data_delivery_status) : option (option (list Z)) :=
  run_writer (nru_write_ddds m >>> w_pad 0) room.

Definition read_lost_range : reader nru_lost_nru_sn_range :=
  s <~ r_unpack 32 24; e <~ r_unpack 32 24; r_ret (LostRange s e).

Definition nru_read_ddds : reader nru_dl_data_delivery_status :=
  pdu_type <~ r_unpack 8 4;
  _ <~ r_check (pdu_type =? nru_dl_data_delivery_status_type);
  transmitted_ind <~ r_flag;
  delivered_ind <~ r_flag;
  final <~ r_flag;
  lost_report <~ r_flag;
  spare <~ r_unpack 8 4;
  _ <~ r_check (spare =? 0);
  rate_ind <~ r_flag;
  retransmitted_ind <~ r_flag;
  delivered_retransmitted_ind <~ r_flag;
  cause_report <~ r_flag;
  size <~ r_unpack 32 32;
  rate <~ r_when rate_ind (r_unpack 32 32);
  ranges <~ r_when lost_report (
    n <~ r_unpack 8 8;
    _ <~ r_check (n <=? nru_max_nof_lost_nru_sn_ranges);
    r_times (Z.to_nat n) read_lost_range);
  delivered <~ r_when delivered_ind (r_unpack 32 24);
  transmitted <~ r_when transmitted_ind (r_unpack 32 24);
  cause <~ r_when cause_report (r_unpack 32 8);
  delivered_retx <~ r_when delivered_retransmitted_ind (r_unpack 32 24);
  retx <~ r_when retransmitted_ind (r_unpack 32 24);
  r_ret (Ddds final size rate ranges delivered transmitted cause delivered_retx retx).

Definition nru_unpack_ddds (c : list Z) : option (option nru_dl_data_delivery_status) := nru_run_reader nru_read_ddds c.

(** ** PDCP PDU numbers, of 12 bits and of 18 bits *)
Definition write_pdcp_pdu_number (n : Z) : writer :=
  if 0xfff <? n then fun _ => Some None else w_pack 0 4 >>> w_pack n 12.
Definition pack_pdcp_pdu_number (room : nat) (n : Z) : option (option (list Z)) := run_writer (write_pdcp_pdu_number n) room.

Definition read_pdcp_pdu_number : reader Z :=
  spare <~ r_unpack 8 4; _ <~ r_check (spare =? 0); r_unpack 32 12.
Definition unpack_pdcp_pdu_number (c : list Z) : option (option Z) :=
  if z_len c =? 0 then Some None else if negb (z_len c =? 2) then Some None else run_reader read_pdcp_pdu_number c.

Definition write_long_pdcp_pdu_number (n : Z) : writer :=
  if 0x3ffff <? n then fun _ => Some None else w_pack 0 6 >>> w_pack n 18 >>> w_pack 0 24.
Definition pack_long_pdcp_pdu_number (room : nat) (n : Z) : option (option (list Z)) := run_writer (write_long_pdcp_pdu_number n) room.

Definition read_long_pdcp_pdu_number : reader Z :=
  spare <~ r_unpack 32 6; _ <~ r_check (spare =? 0); n <~ r_unpack 32 18; spare <~ r_unpack 32 24; _ <~ r_check (spare =? 0); r_ret n.
Definition unpack_long_pdcp_pdu_number (c : list Z) : option (option Z) :=
  if z_len c =? 0 then Some None else if negb (z_len c =? 6) then Some None else run_reader read_long_pdcp_pdu_number c.

(** ** The containers survive the round trip

    The fields of each container, and the instances of [ContainerLaws]. *)
(** *** From fields to containers *)
Definition padded_size (fs : list (Z * Z)) : Z := fields_bits fs / 8 + (- (fields_bits fs / 8 + 2)) mod 4.

Lemma run_reader_yields {A} (m : reader A) fs (x : A) c tail :
  yields m fs x -> reads (bit_decoder_new c) fs tail -> run_reader m c = Some (Some x).
Proof.
  intros Hm Hr. destruct (Hm (bit_decoder_new c) [] tail) as (d' & E & _); [by rewrite app_nil_r|]. unfold run_reader. by rewrite E.
Qed.

Lemma run_reader_total {A} (m : reader A) c : total m -> bytes_ok c -> exists r, run_reader m c = Some r.
Proof. intros Hm Hc. destruct (total_run m c Hm Hc) as (r & E). unfold run_reader. rewrite E. by eexists. Qed.

Lemma nru_reader_total {A} (m : reader A) c : total m -> bytes_ok c -> exists r, nru_run_reader m c = Some r.
Proof.
  intros Hm Hc. unfold nru_run_reader. destruct (_ =? 0); [by eexists|]. destruct (negb _); [by eexists|]. by apply run_reader_total.
Qed.

(** A padded container of the fields [fs] is read back as [x]. *)
Lemma nru_container {A} (w : writer) (m : reader A) fs (x : A) room :
  adds w fs -> yields m fs x -> fields_bits fs mod 8 = 0 -> padded_size fs <= 250 ->
  exists r, run_writer (w >>> w_pad 0) room = Some r /\
    match r with
    | Some c => container_ok c /\ z_len c = padded_size fs /\ nru_run_reader m c = Some (Some x)
    | None => Z.of_nat room < padded_size fs
    end.
Proof.
  intros Hw Hm H8 Hsz. destruct (container_written w fs room Hw H8) as (r & E & Hr). unfold run_writer. rewrite E. cbn [mbind option_bind].
  eexists. split; [reflexivity|]. unfold padded_size in *. destruct r as [e|]; [|exact Hr].
  destruct Hr as (Hb & Hl & Hmod & _ & Hrd). split; [split_and!; [done|done|lia]|]. split; [done|]. unfold nru_run_reader.
  destruct (Z.eqb_spec (z_len (enc_bytes e)) 0) as [E0|]; [rewrite E0 in Hmod; done|]. rewrite Hmod. cbn [Z.eqb negb].
  by eapply run_reader_yields.
Qed.

Lemma fields_bits_concat {A} (g : A -> list (Z * Z)) k l :
  (forall x, fields_bits (g x) = k) -> fields_bits (concat (map g l)) = k * Z.of_nat (length l).
Proof. intros Hg. induction l as [|x l IH]; cbn [map concat length]; [by rewrite Z.mul_0_r|]. rewrite fields_bits_app, IH, Hg. lia. Qed.

(** *** DL user data *)
Definition is_24 (x : Z) : Prop := 0 <= x < 2 ^ 24.
Definition block_fields (b : nru_pdcp_sn_discard_block) : list (Z * Z) := [(pdcp_sn_start b, 24)] ++ [(block_size b, 8)].
Definition blocks_fields (l : list nru_pdcp_sn_discard_block) : list (Z * Z) :=
  [(Z.of_nat (length l), 8)] ++ concat (map block_fields l).

Definition dud_fields (m : nru_dl_user_data) : list (Z * Z) :=
  [(nru_dl_user_data_type, 4)] ++ [(0, 1)] ++ [flag_field (is_some (written_blocks m))] ++ [flag_field (is_some (dl_discard_pdcp_sn m))] ++
  [flag_field (report_polling m)] ++ [(0, 3)] ++ [flag_field (request_out_of_seq_report m)] ++ [flag_field (report_delivered m)] ++
  [flag_field (user_data_existence_flag m)] ++ [flag_field (assist_info_report_polling_flag m)] ++ [flag_field (retransmission_flag m)] ++
  [(nru_sn m, 24)] ++ from_option (fun sn => [(sn, 24)]) [] (dl_discard_pdcp_sn m) ++ from_option blocks_fields [] (written_blocks m) ++
  (if report_delivered m then [(dl_report_pdcp_sn m, 24)] else []).

Definition block_ok (b : nru_pdcp_sn_discard_block) : Prop := is_24 (pdcp_sn_start b) /\ is_byte (block_size b).
Definition dud_ok (m : nru_dl_user_data) : Prop :=
  is_24 (nru_sn m) /\ from_option is_24 True (dl_discard_pdcp_sn m) /\
  from_option (fun l => Forall block_ok l /\ Z.of_nat (length l) <= nru_max_nof_pdcp_sn_discard_blocks) True (discard_blocks m) /\
  is_24 (dl_report_pdcp_sn m).

(** What the receiver gets: an empty list of blocks is not sent, the reported SN only if it is asked for. *)
Definition dud_read (m : nru_dl_user_data) : nru_dl_user_data :=
  DlUserData (report_polling m) (request_out_of_seq_report m) (report_delivered m) (user_data_existence_flag m)
    (assist_info_report_polling_flag m) (retransmission_flag m) (nru_sn m) (dl_discard_pdcp_sn m) (written_blocks m)
    (if report_delivered m then dl_report_pdcp_sn m else 0).

Lemma written_ok m l :
  dud_ok m -> written_blocks m = Some l -> Forall block_ok l /\ Z.of_nat (length l) <= nru_max_nof_pdcp_sn_discard_blocks.
Proof.
  intros (_ & _ & Hb & _) E. unfold written_blocks in E. destruct (discard_blocks m) as [[|b bs]|]; try done. by injection E as <-.
Qed.

Lemma adds_blocks l : Forall block_ok l -> Z.of_nat (length l) <= nru_max_nof_pdcp_sn_discard_blocks ->
  adds (w_pack (Z.of_nat (length l)) 8 >>> w_each (fun b => w_pack (pdcp_sn_start b) 24 >>> w_pack (block_size b) 8) l) (blocks_fields l).
Proof.
  unfold nru_max_nof_pdcp_sn_discard_blocks. intros Hl Hn. apply adds_seq; [apply adds_pack; lia|]. apply adds_each.
  eapply Forall_impl; [exact Hl|]. intros b [Hs Hb]. apply adds_seq; apply adds_pack; (lia || done).
Qed.

Lemma yields_blocks l : Forall block_ok l -> Z.of_nat (length l) <= nru_max_nof_pdcp_sn_discard_blocks ->
  yields (n <~ r_unpack 8 8; _ <~ r_check (n <=? nru_max_nof_pdcp_sn_discard_blocks); r_times (Z.to_nat n) read_discard_block) (blocks_fields l) l.
Proof.
  intros Hl Hn. eapply yields_bind; [by apply yields_unpack|]. rewrite (proj2 (Z.leb_le _ _)) by done.
  change (concat (map block_fields l)) with ([] ++ concat (map block_fields l)). eapply yields_bind; [apply yields_check|].
  apply yields_times; [lia|]. eapply Forall_impl; [exact Hl|]. intros [s n] _. eapply yields_bind; [by apply yields_unpack|].
  apply (yields_map (r_unpack 8 8) (DiscardBlock s)). by apply yields_unpack.
Qed.

Lemma adds_dud m : dud_ok m -> adds (nru_write_dl_user_data m) (dud_fields m).
Proof.
  intros Hok. pose proof (written_ok m) as Hw. pose proof Hok as (Hsn & Hd & Hb & Hr).
  unfold nru_write_dl_user_data, dud_fields.
  repeat match goal with |- adds (w_pack (z_bit _) 1 >>> _) _ => apply adds_seq; [apply adds_flag|] | |- adds (w_pack _ _ >>> _) _ => apply adds_seq; [apply adds_pack; (lia || done)|] end.
  apply adds_seq; [apply adds_some; intros sn E; rewrite E in Hd; apply adds_pack; [lia|exact Hd]|].
  apply adds_seq; [apply adds_some; intros l E; destruct (Hw l Hok E); by apply adds_blocks|].
  apply adds_when. intros _. apply adds_pack; [lia|exact Hr].
Qed.

(** One field after the other. *)
Ltac yield_step :=
  match goal with
  | |- yields (r_bind (r_check _) _) ?fs _ => eapply (yields_bind _ _ [] fs); [exact yields_check|]
  | |- yields (r_bind r_flag _) _ _ => eapply yields_bind; [apply yields_flag|]
  | |- yields (r_bind r_flag_any _) _ _ => eapply yields_bind; [apply yields_flag_any|]
  | |- yields (r_bind (r_unpack _ _) _) _ _ => eapply yields_bind; [apply yields_unpack; lia|]
  | |- yields (r_bind (r_unpack_any _ _) _) _ _ => eapply yields_bind; [apply yields_unpack_any; lia|]
  end; cbn beta.

Lemma yields_dud m : dud_ok m -> yields nru_read_dl_user_data (dud_fields m) (dud_read m).
Proof.
  intros Hok. unfold nru_read_dl_user_data, dud_fields. do 15 yield_step.
  eapply yields_bind; [apply yields_some; intros sn _; by apply yields_unpack|].
  eapply yields_bind; [apply yields_some; intros l E; destruct (written_ok m l Hok E); by apply yields_blocks|].
  assert (E : dud_read m = DlUserData (report_polling m) (request_out_of_seq_report m) (report_delivered m) (user_data_existence_flag m)
    (assist_info_report_polling_flag m) (retransmission_flag m) (nru_sn m) (dl_discard_pdcp_sn m) (written_blocks m)
    (default 0 (if report_delivered m then Some (dl_report_pdcp_sn m) else None))) by by unfold dud_read; destruct (report_delivered m).
  rewrite E. apply (yields_map (r_when (report_delivered m) (r_unpack 32 24))
    (fun r => DlUserData _ _ _ _ _ _ _ _ _ (default 0 r))). apply yields_when. intros _. by apply yields_unpack.
Qed.

Lemma dud_size m : dud_ok m -> fields_bits (dud_fields m) mod 8 = 0 /\ 0 <= padded_size (dud_fields m) <= 250.
Proof.
  intros Hok. assert (Hw : forall l, written_blocks m = Some l -> 0 <= Z.of_nat (length l) <= 16).
  { intros l E. destruct (written_ok m l Hok E) as [_ Hn]. unfold nru_max_nof_pdcp_sn_discard_blocks in Hn. lia. }
  assert (Hb : exists k, fields_bits (dud_fields m) = 8 * k /\ 0 <= k <= 80).
  { unfold dud_fields, flag_field. rewrite !fields_bits_app, !fields_bits_1.
    assert (H1 : fields_bits (from_option (fun sn => [(sn, 24)]) [] (dl_discard_pdcp_sn m)) = 24 * (if is_some (dl_discard_pdcp_sn m) then 1 else 0)).
    { by destruct (dl_discard_pdcp_sn m). }
    assert (H2 : fields_bits (if report_delivered m then [(dl_report_pdcp_sn m, 24)] else []) = 24 * (if report_delivered m then 1 else 0)).
    { by destruct (report_delivered m). }
    assert (H3 : exists n, fields_bits (from_option blocks_fields [] (written_blocks m)) = 8 * n /\ 0 <= n <= 65).
    { destruct (written_blocks m) as [l|]; [|by exists 0]. specialize (Hw l eq_refl). exists (1 + 4 * Z.of_nat (length l)). cbn [from_option].
      unfold blocks_fields. rewrite fields_bits_app, fields_bits_1, (fields_bits_concat _ 32) by done. lia. }
    destruct H3 as (n & -> & Hn). rewrite H1, H2. destruct (is_some (dl_discard_pdcp_sn m)), (report_delivered m);
      [exists (n + 11)|exists (n + 8)|exists (n + 8)|exists (n + 5)]; lia. }
  destruct Hb as (k & E & Hk). unfold padded_size. rewrite E. lia.
Qed.

Lemma dud_roundtrip room m : dud_ok m -> exists r, nru_pack_dl_user_data room m = Some r /\
  match r with
  | Some c => container_ok c /\ z_len c = padded_size (dud_fields m) /\ nru_unpack_dl_user_data c = Some (Some (dud_read m))
  | None => Z.of_nat room < padded_size (dud_fields m)
  end.
Proof.
  intros Hok. destruct (dud_size m Hok) as [H8 Hsz]. apply nru_container; [by apply adds_dud|by apply yields_dud|done|lia].
Qed.

Lemma total_dud : total nru_read_dl_user_data.
Proof. unfold nru_read_dl_user_data, read_discard_block. solve_total. Qed.

#[export] Instance dud_codec : ContainerCodec nru_dl_user_data := {
  cc_pack := nru_pack_dl_user_data;
  cc_unpack := nru_unpack_dl_user_data
}.

#[export] Instance dud_laws : ContainerLaws nru_dl_user_data := {
  cc_ok := dud_ok;
  cc_read := dud_read;
  cc_size m := padded_size (dud_fields m);
  cc_pack_spec := dud_roundtrip;
  cc_size_bound m H := proj2 (proj2 (dud_size m H));
  cc_unpack_total := fun c => nru_reader_total nru_read_dl_user_data c total_dud
}.

(** *** DL data delivery status *)
Definition is_32 (x : Z) : Prop := 0 <= x < 2 ^ 32.
Definition range_fields (r : nru_lost_nru_sn_range) : list (Z * Z) := [(nru_sn_start r, 24)] ++ [(nru_sn_end r, 24)].
Definition ranges_fields (l : list nru_lost_nru_sn_range) : list (Z * Z) := [(Z.of_nat (length l), 8)] ++ concat (map range_fields l).
Definition opt_field (n : Z) (o : option Z) : list (Z * Z) := from_option (fun v => [(v, n)]) [] o.

Definition ddds_fields (m : nru_dl_data_delivery_status) : list (Z * Z) :=
  [(nru_dl_data_delivery_status_type, 4)] ++ [flag_field (is_some (highest_transmitted_pdcp_sn m))] ++
  [flag_field (is_some (highest_delivered_pdcp_sn m))] ++ [flag_field (final_frame_ind m)] ++ [flag_field (is_some (lost_nru_sn_ranges m))] ++
  [(0, 4)] ++ [flag_field (is_some (desired_data_rate m))] ++ [flag_field (is_some (highest_retransmitted_pdcp_sn m))] ++
  [flag_field (is_some (highest_delivered_retransmitted_pdcp_sn m))] ++ [flag_field (is_some (cause_value m))] ++
  [(desired_buffer_size_for_drb m, 32)] ++ opt_field 32 (desired_data_rate m) ++ from_option ranges_fields [] (lost_nru_sn_ranges m) ++
  opt_field 24 (highest_delivered_pdcp_sn m) ++ opt_field 24 (highest_transmitted_pdcp_sn m) ++ opt_field 8 (cause_value m) ++
  opt_field 24 (highest_delivered_retransmitted_pdcp_sn m) ++ opt_field 24 (highest_retransmitted_pdcp_sn m).

Definition range_ok (r : nru_lost_nru_sn_range) : Prop := is_24 (nru_sn_start r) /\ is_24 (nru_sn_end r).
Definition ddds_ok (m : nru_dl_data_delivery_status) : Prop :=
  is_32 (desired_buffer_size_for_drb m) /\ from_option is_32 True (desired_data_rate m) /\
  from_option (fun l => Forall range_ok l /\ Z.of_nat (length l) <= nru_max_nof_lost_nru_sn_ranges) True (lost_nru_sn_ranges m) /\
  from_option is_24 True (highest_delivered_pdcp_sn m) /\ from_option is_24 True (highest_transmitted_pdcp_sn m) /\
  from_option is_byte True (cause_value m) /\ from_option is_24 True (highest_delivered_retransmitted_pdcp_sn m) /\
  from_option is_24 True (highest_retransmitted_pdcp_sn m).

Lemma adds_ranges l : Forall range_ok l -> Z.of_nat (length l) <= nru_max_nof_lost_nru_sn_ranges ->
  adds (w_pack (Z.of_nat (length l)) 8 >>> w_each (fun r => w_pack (nru_sn_start r) 24 >>> w_pack (nru_sn_end r) 24) l) (ranges_fields l).
Proof.
  unfold nru_max_nof_lost_nru_sn_ranges. intros Hl Hn. apply adds_seq; [apply adds_pack; lia|]. apply adds_each.
  eapply Forall_impl; [exact Hl|]. intros r [Hs He]. apply adds_seq; apply adds_pack; (lia || done).
Qed.

Lemma yields_ranges l : Z.of_nat (length l) <= nru_max_nof_lost_nru_sn_ranges ->
  yields (n <~ r_unpack 8 8; _ <~ r_check (n <=? nru_max_nof_lost_nru_sn_ranges); r_times (Z.to_nat n) read_lost_range) (ranges_fields l) l.
Proof.
  intros Hn. eapply yields_bind; [by apply yields_unpack|]. rewrite (proj2 (Z.leb_le _ _)) by done.
  yield_step. apply yields_times; [lia|]. apply Forall_forall. intros [s n] _. eapply yields_bind; [by apply yields_unpack|].
  apply (yields_map (r_unpack 32 24) (LostRange s)). by apply yields_unpack.
Qed.

Lemma adds_opt n o (P : Z -> Prop) : (forall x, P x -> 0 <= x < 2 ^ n) -> 0 <= n <= 64 -> from_option P True o ->
  adds (w_some o (fun v => w_pack v n)) (opt_field n o).
Proof. intros HP Hn Ho. apply adds_some. intros v ->. apply adds_pack; [done|by apply HP]. Qed.

Lemma yields_opt w n o : n <= w -> yields (r_when (is_some o) (r_unpack w n)) (opt_field n o) o.
Proof. intros Hn. apply yields_some. intros v _. by apply yields_unpack. Qed.

Lemma opt_bits n o : 0 <= n -> fields_bits (opt_field n o) = n * z_bit (is_some o).
Proof. intros Hn. destruct o; cbn [opt_field from_option is_some z_bit]; [rewrite fields_bits_1|change (fields_bits []) with 0]; lia. Qed.

Lemma adds_ddds m : ddds_ok m -> adds (nru_write_ddds m) (ddds_fields m).
Proof.
  intros (Hs & Hr & Hl & Hd & Ht & Hc & Hdr & Hrt). unfold nru_write_ddds, ddds_fields.
  repeat match goal with |- adds (w_pack (z_bit _) 1 >>> _) _ => apply adds_seq; [apply adds_flag|] | |- adds (w_pack _ _ >>> _) _ => apply adds_seq; [apply adds_pack; (lia || done)|] end.
  apply adds_seq; [by apply (adds_opt 32 _ is_32)|].
  apply adds_seq; [apply adds_some; intros l E; rewrite E in Hl; destruct Hl; by apply adds_ranges|].
  apply adds_seq; [by apply (adds_opt 24 _ is_24)|]. apply adds_seq; [by apply (adds_opt 24 _ is_24)|].
  apply adds_seq; [by apply (adds_opt 8 _ is_byte)|]. apply adds_seq; [by apply (adds_opt 24 _ is_24)|]. by apply (adds_opt 24 _ is_24).
Qed.

Lemma yields_ddds m : ddds_ok m -> yields nru_read_ddds (ddds_fields m) m.
Proof.
  intros (_ & _ & Hl & _). unfold nru_read_ddds, ddds_fields. do 13 yield_step.
  eapply yields_bind; [by apply yields_opt|].
  eapply yields_bind; [apply yields_some; intros l E; rewrite E in Hl; destruct Hl; by apply yields_ranges|].
  do 4 (eapply yields_bind; [by apply yields_opt|]).
  destruct m as [fin size rate ranges del trans cause dretx retx]. apply (yields_map _ (Ddds fin size rate ranges del trans cause dretx)). by apply yields_opt.
Qed.

Lemma ddds_size m : ddds_ok m -> fields_bits (ddds_fields m) mod 8 = 0 /\ 0 <= padded_size (ddds_fields m) <= 250.
Proof.
  intros (_ & _ & Hl & _).
  assert (Hb : exists k, fields_bits (ddds_fields m) = 8 * k /\ 0 <= k <= 80).
  { unfold ddds_fields, flag_field. rewrite !fields_bits_app, !fields_bits_1, !opt_bits by lia.
    assert (H3 : exists n, fields_bits (from_option ranges_fields [] (lost_nru_sn_ranges m)) = 8 * n /\ 0 <= n <= 13).
    { destruct (lost_nru_sn_ranges m) as [l|]; [|by exists 0]. destruct Hl as [_ Hn]. unfold nru_max_nof_lost_nru_sn_ranges in Hn.
      exists (1 + 6 * Z.of_nat (length l)). cbn [from_option].
      unfold ranges_fields. rewrite fields_bits_app, fields_bits_1, (fields_bits_concat _ 48) by done. lia. }
    destruct H3 as (n & -> & Hn). assert (Hz : forall b, 0 <= z_bit b <= 1) by (intros []; cbn; lia).
    pose proof (Hz (is_some (desired_data_rate m))). pose proof (Hz (is_some (highest_delivered_pdcp_sn m))).
    pose proof (Hz (is_some (highest_transmitted_pdcp_sn m))). pose proof (Hz (is_some (cause_value m))).
    pose proof (Hz (is_some (highest_delivered_retransmitted_pdcp_sn m))). pose proof (Hz (is_some (highest_retransmitted_pdcp_sn m))).
    exists (6 + 4 * z_bit (is_some (desired_data_rate m)) + n + 3 * z_bit (is_some (highest_delivered_pdcp_sn m)) +
      3 * z_bit (is_some (highest_transmitted_pdcp_sn m)) + z_bit (is_some (cause_value m)) +
      3 * z_bit (is_some (highest_delivered_retransmitted_pdcp_sn m)) + 3 * z_bit (is_some (highest_retransmitted_pdcp_sn m))). lia. }
  destruct Hb as (k & E & Hk). unfold padded_size. rewrite E. lia.
Qed.

Lemma ddds_roundtrip room m : ddds_ok m -> exists r, nru_pack_ddds room m = Some r /\
  match r with
  | Some c => container_ok c /\ z_len c = padded_size (ddds_fields m) /\ nru_unpack_ddds c = Some (Some m)
  | None => Z.of_nat room < padded_size (ddds_fields m)
  end.
Proof.
  intros Hok. destruct (ddds_size m Hok) as [H8 Hsz]. apply nru_container; [by apply adds_ddds|by apply yields_ddds|done|lia].
Qed.

Lemma total_ddds : total nru_read_ddds.
Proof. unfold nru_read_ddds, read_lost_range. solve_total. Qed.

#[export] Instance ddds_codec : ContainerCodec nru_dl_data_delivery_status := {
  cc_pack := nru_pack_ddds;
  cc_unpack := nru_unpack_ddds
}.

#[export] Instance ddds_laws : ContainerLaws nru_dl_data_delivery_status := {
  cc_ok := ddds_ok;
  cc_read m := m;
  cc_size m := padded_size (ddds_fields m);
  cc_pack_spec := ddds_roundtrip;
  cc_size_bound m H := proj2 (proj2 (ddds_size m H));
  cc_unpack_total := fun c => nru_reader_total nru_read_ddds c total_ddds
}.

(** *** PDCP PDU numbers *)

(** A container that needs no padding. *)
Lemma exact_container {A} (w : writer) (m : reader A) fs (x : A) room :
  adds w fs -> yields m fs x -> fields_bits fs mod 8 = 0 -> (fields_bits fs / 8 + 2) mod 4 = 0 -> fields_bits fs / 8 <= 250 ->
  exists r, run_writer w room = Some r /\
    match r with
    | Some c => container_ok c /\ z_len c = fields_bits fs / 8 /\ run_reader m c = Some (Some x)
    | None => Z.of_nat room < fields_bits fs / 8
    end.
Proof.
  intros Hw Hm H8 H4 Hsz. assert (E0 : (- (fields_bits fs / 8 + 2)) mod 4 = 0) by lia.
  destruct (container_written w fs room Hw H8) as (r & E & Hr). rewrite E0, Z.add_0_r in Hr. unfold w_seq in E.
  destruct Hw as [Hf Hw]. destruct (Hw (Z.of_nat room) [] (bit_encoder_new room)) as (r0 & E1 & Ho); [apply (packed_start [] room); constructor|].
  rewrite E1 in E. cbn [mbind option_bind app] in *. unfold run_writer. rewrite E1. cbn [mbind option_bind]. eexists. split; [reflexivity|].
  destruct r0 as [e|]; [|injection E as <-; exact Hr].
  unfold w_pad, pad_loop in E. rewrite (packed_bytes _ _ _ Ho), (proj2 (Z.eqb_eq _ 0)) in E by lia. injection E as <-.
  destruct Hr as (Hb & Hl & Hmod & _ & Hrd). split; [split_and!; [done|done|lia]|]. split; [done|]. by eapply run_reader_yields.
Qed.

Definition sn_fields (long : bool) (n : Z) : list (Z * Z) :=
  if long then [(0, 6)] ++ [(n, 18)] ++ [(0, 24)] else [(0, 4)] ++ [(n, 12)].
Definition pack_sn (long : bool) := if long then pack_long_pdcp_pdu_number else pack_pdcp_pdu_number.
Definition unpack_sn (long : bool) := if long then unpack_long_pdcp_pdu_number else unpack_pdcp_pdu_number.
Definition sn_limit (long : bool) : Z := if long then 0x3ffff else 0xfff.
Definition sn_size (long : bool) : Z := if long then 6 else 2.

Lemma sn_roundtrip long room n : 0 <= n -> exists r, pack_sn long room n = Some r /\
  match r with
  | Some c => n <= sn_limit long /\ container_ok c /\ z_len c = sn_size long /\ unpack_sn long c = Some (Some n)
  | None => sn_limit long < n \/ Z.of_nat room < sn_size long
  end.
Proof.
  intros Hn. destruct (Z.leb_spec n (sn_limit long)) as [Hle|Hgt].
  - assert (Hc : exists r, pack_sn long room n = Some r /\
      match r with
      | Some c => container_ok c /\ z_len c = fields_bits (sn_fields long n) / 8 /\
                  run_reader (if long then read_long_pdcp_pdu_number else read_pdcp_pdu_number) c = Some (Some n)
      | None => Z.of_nat room < fields_bits (sn_fields long n) / 8
      end).
    { destruct long; unfold pack_sn, sn_limit in *.
      - unfold pack_long_pdcp_pdu_number, write_long_pdcp_pdu_number. rewrite (proj2 (Z.ltb_ge _ _)) by lia.
        apply exact_container; [| |done..].
        + repeat apply adds_seq; apply adds_pack; norm_pow; lia.
        + unfold read_long_pdcp_pdu_number, sn_fields. yield_step. yield_step. yield_step.
          rewrite <- (app_nil_r [(0, 24)]). yield_step. eapply (yields_bind _ _ [] []); [exact yields_check|apply yields_ret].
      - unfold pack_pdcp_pdu_number, write_pdcp_pdu_number. rewrite (proj2 (Z.ltb_ge _ _)) by lia.
        apply exact_container; [| |done..].
        + repeat apply adds_seq; apply adds_pack; norm_pow; lia.
        + unfold read_pdcp_pdu_number, sn_fields. yield_step. yield_step. by apply yields_unpack. }
    destruct Hc as (r & E & Hr). exists r. split; [done|]. destruct r as [c|].
    + destruct Hr as (Hok & Hl & Hrd). split; [done|]. split; [done|].
      assert (Hl' : z_len c = sn_size long) by (rewrite Hl; by destruct long). split; [done|].
      destruct long; unfold unpack_sn, unpack_long_pdcp_pdu_number, unpack_pdcp_pdu_number; rewrite Hl'; exact Hrd.
    + right. destruct long; exact Hr.
  - exists None. split; [|by left]. destruct long; unfold pack_sn, sn_limit, pack_long_pdcp_pdu_number, pack_pdcp_pdu_number,
      run_writer, write_long_pdcp_pdu_number, write_pdcp_pdu_number in *; by rewrite (proj2 (Z.ltb_lt _ _)) by lia.
Qed.

Lemma unpack_sn_total long c : bytes_ok c -> exists r, unpack_sn long c = Some r.
Proof.
  intros Hc. destruct long; unfold unpack_sn, unpack_long_pdcp_pdu_number, unpack_pdcp_pdu_number.
  all: destruct (_ =? 0); [by eexists|]; destruct (negb _); [by eexists|]; apply run_reader_total; [|done].
  - unfold read_long_pdcp_pdu_number. solve_total.
  - unfold read_pdcp_pdu_number. solve_total.
Qed.
