(* ===== verification/Psup.v ===== *)
(** * PDU session information frames ([lib/psup/psup_packing.cpp])

    The container by which the core network tells the QoS flow of a downlink packet. Neither the packer nor the unpacker looks
    at the results of the bit codec. *)
From S2P Require Import Prelude BitCodec BitFields BitIo Nru.

Definition dl_pdu_session_information_type : Z := 0.
Definition ul_pdu_session_information_type : Z := 1.

Record psup_dl_pdu_session_information := DlSession {
  rqi : bool;
  qos_flow_id : Z;
  ppi : option Z;
  dl_sending_time_stamp : option Z;
  dl_qfi_sn : option Z
}.

(** [psup_packing::unpack] *)
Definition psup_read : reader psup_dl_pdu_session_information :=
  pdu_type <~ r_unpack_any 8 4;
  _ <~ r_check (pdu_type =? dl_pdu_session_information_type);
  qmp <~ r_flag_any;
  snp <~ r_flag_any;
  _ <~ r_unpack_any 8 2;
  ppp <~ r_flag_any;
  rqi <~ r_flag_any;
  qfi <~ r_unpack_any 8 6;
  ppi <~ r_when ppp (p <~ r_unpack_any 8 3; _ <~ r_unpack_any 8 5; r_ret p);
  ts <~ r_when qmp (r_unpack_any 64 64);
  sn <~ r_when snp (r_unpack_any 32 24);
  r_ret (DlSession rqi qfi ppi ts sn).

Definition psup_unpack (c : list Z) : option (option psup_dl_pdu_session_information) := run_reader psup_read c.

(** [encoder.pack(v, n)], its result ignored *)
Definition w_pack_any (v n : Z) : writer := fun e => '(_, e) ← bit_pack v n e; Some (Some e).

(** [psup_packing::pack], for one or the other way to pack a field *)
Definition psup_write_with (pk : Z -> Z -> writer) (m : psup_dl_pdu_session_information) : writer :=
  pk dl_pdu_session_information_type 4 >>>
  pk (z_bit (is_some (dl_sending_time_stamp m))) 1 >>>
  pk (z_bit (is_some (dl_qfi_sn m))) 1 >>>
  pk 0 2 >>>
  pk (z_bit (is_some (ppi m))) 1 >>>
  pk (z_bit (rqi m)) 1 >>>
  pk (qos_flow_id m) 6 >>>
  w_some (ppi m) (fun p => pk p 3 >>> pk 0 5) >>>
  w_some (dl_sending_time_stamp m) (fun t => pk t 64) >>>
  w_some (dl_qfi_sn m) (fun n => pk n 24).

Definition psup_write : psup_dl_pdu_session_information -> writer := psup_write_with w_pack_any.
Definition psup_pack (room : nat) (m : psup_dl_pdu_session_information) : option (option (list Z)) :=
  run_writer (psup_write m >>> w_pad 0) room.

(** ** With enough memory it makes no difference that results are ignored *)
Definition lax (m m' : writer) : Prop := forall e e', m e = Some (Some e') -> m' e = Some (Some e').

Lemma lax_pack v n : lax (w_pack v n) (w_pack_any v n).
Proof.
  intros e e'. unfold w_pack, w_pack_any. destruct (bit_pack v n e) as [[ok e1]|]; [|done]. cbn. by destruct ok.
Qed.
Lemma lax_refl m : lax m m. Proof. by intros e e'. Qed.
Lemma lax_seq a b a' b' : lax a a' -> lax b b' -> lax (a >>> b) (a' >>> b').
Proof.
  intros Ha Hb e e'. unfold w_seq. destruct (a e) as [[e1|]|] eqn:E; try done. cbn [mbind option_bind]. intros E'.
  rewrite (Ha _ _ E). cbn. by apply Hb.
Qed.
Lemma lax_some {A} (o : option A) f f' : (forall x, lax (f x) (f' x)) -> lax (w_some o f) (w_some o f').
Proof. intros Hf. destruct o; [apply Hf|apply lax_refl]. Qed.

Lemma lax_psup m : lax (psup_write_with w_pack m >>> w_pad 0) (psup_write m >>> w_pad 0).
Proof.
  apply lax_seq; [|apply lax_refl]. unfold psup_write, psup_write_with.
  repeat first [apply lax_seq; [first [apply lax_pack|apply lax_some; intros ?]|] | apply lax_some; intros ? | apply lax_pack].
Qed.

(** ** Round trip *)
Definition psup_ok (m : psup_dl_pdu_session_information) : Prop :=
  0 <= qos_flow_id m < 64 /\ from_option (fun p => 0 <= p < 8) True (ppi m) /\
  from_option (fun t => 0 <= t < 2 ^ 64) True (dl_sending_time_stamp m) /\ from_option is_24 True (dl_qfi_sn m).

Definition psup_fields (m : psup_dl_pdu_session_information) : list (Z * Z) :=
  [(dl_pdu_session_information_type, 4)] ++ [flag_field (is_some (dl_sending_time_stamp m))] ++ [flag_field (is_some (dl_qfi_sn m))] ++
  [(0, 2)] ++ [flag_field (is_some (ppi m))] ++ [flag_field (rqi m)] ++ [(qos_flow_id m, 6)] ++
  from_option (fun p => [(p, 3)] ++ [(0, 5)]) [] (ppi m) ++ opt_field 64 (dl_sending_time_stamp m) ++ opt_field 24 (dl_qfi_sn m).

Lemma adds_psup m : psup_ok m -> adds (psup_write_with w_pack m) (psup_fields m).
Proof.
  intros (Hq & Hp & Ht & Hs). unfold psup_write_with, psup_fields.
  do 7 (apply adds_seq; [first [apply adds_flag|apply adds_pack; (lia || done)]|]).
  apply adds_seq; [|apply adds_seq].
  - apply adds_some. intros p E. rewrite E in Hp. cbn in Hp. apply adds_seq; apply adds_pack; norm_pow; lia.
  - by apply (adds_opt 64 _ (fun t => 0 <= t < 2 ^ 64)).
  - by apply (adds_opt 24 _ is_24).
Qed.

Lemma yields_opt_any w n o : n <= w -> yields (r_when (is_some o) (r_unpack_any w n)) (opt_field n o) o.
Proof. intros Hn. apply yields_some. intros v _. by apply yields_unpack_any. Qed.

Lemma yields_psup m : yields psup_read (psup_fields m) m.
Proof.
  unfold psup_read, psup_fields. do 8 yield_step.
  eapply yields_bind; [apply yields_some; intros p _|].
  { eapply yields_bind; [by apply yields_unpack_any|]. eapply (yields_map (r_unpack_any 8 5) (fun _ => p)). by apply yields_unpack_any. }
  eapply yields_bind; [by apply yields_opt_any|]. destruct m as [r q p t n]. apply (yields_map _ (DlSession r q p t)). by apply yields_opt_any.
Qed.

Lemma psup_size m : fields_bits (psup_fields m) mod 8 = 0 /\ 0 <= padded_size (psup_fields m) <= 18.
Proof.
  unfold padded_size, psup_fields, flag_field. rewrite !fields_bits_app, !fields_bits_1, !opt_bits by lia.
  assert (E : fields_bits (from_option (fun p => [(p, 3)] ++ [(0, 5)]) [] (ppi m)) = 8 * z_bit (is_some (ppi m))) by by destruct (ppi m).
  rewrite E. destruct (is_some (ppi m)), (is_some (dl_sending_time_stamp m)), (is_some (dl_qfi_sn m)); cbn [z_bit]; lia.
Qed.

Lemma psup_pack_spec room m : psup_ok m -> padded_size (psup_fields m) <= Z.of_nat room ->
  exists c, psup_pack room m = Some (Some c) /\ container_ok c /\ z_len c = padded_size (psup_fields m) /\ run_reader psup_read c = Some (Some m).
Proof.
  intros Hok Hroom. destruct (psup_size m) as [H8 Hsz].
  destruct (container_written _ _ room (adds_psup m Hok) H8) as (r & E & Hr). fold (padded_size (psup_fields m)) in Hr.
  destruct r as [e|]; [|unfold padded_size in *; lia]. apply lax_psup in E. exists (enc_bytes e). unfold psup_pack, run_writer. rewrite E. split; [done|].
  destruct Hr as (Hb & Hl & Hmod & _ & Hrd). split; [split_and!; [done|done|unfold padded_size in *; lia]|]. split; [done|].
  eapply run_reader_yields; [apply yields_psup|done].
Qed.

Lemma psup_unpack_total c : bytes_ok c -> exists r, psup_unpack c = Some r.
Proof. apply run_reader_total. unfold psup_read. solve_total. Qed.

(** A container that is not there reads as the first QoS flow. *)
Example psup_empty_accepted : psup_unpack [] = Some (Some (DlSession false 0 None None None)).
Proof. reflexivity. Qed.

(** What ran out of memory is a success all the same, when the length happens to be right. *)
Example psup_pack_unnoticed :
  psup_pack 2 (DlSession false 5 (Some 3) None None) = Some (Some [0; 0x85]).
Proof. vm_compute. reflexivity. Qed.
