(* ===== verification/GtpuPdu.v ===== *)
(** * GTP-U PDUs ([lib/gtpu/gtpu_pdu.h] and [.cpp])

    Writing and dissecting the header of TS 29.281 with its extension headers, and the information elements of the path
    management messages. Enumerations that the code casts from an octet are [Z] with named values. A failed assertion is
    [None]; an error that the code reports is [false] or an inner [None]. The memory that a header's buffer can still get is
    an argument, so is whether the pool lets it be prepended. *)
From S2P Require Import Prelude BitCodec BitFields BitIo.

(** ** Constants *)
Definition GTPU_BASE_HEADER_LEN : Z := 8.
Definition GTPU_EXTENDED_HEADER_LEN : Z := 12.
Definition GTPU_FLAGS_VERSION_V1 : Z := 1.
Definition GTPU_FLAGS_GTP_PROTOCOL : Z := 1.
Definition GTPU_MSG_ECHO_REQUEST : Z := 1.
Definition GTPU_MSG_ECHO_RESPONSE : Z := 2.
Definition GTPU_MSG_ERROR_INDICATION : Z := 26.
Definition GTPU_MSG_SUPPORTED_EXTENSION_HEADERS_NOTIFICATION : Z := 31.
Definition GTPU_MSG_END_MARKER : Z := 254.
Definition GTPU_MSG_DATA_PDU : Z := 255.
Definition GTPU_MAX_NUM_HEADER_EXTENSIONS : nat := 10.
Definition GTPU_SN_MOD : Z := 65536.
Definition GTPU_RX_WINDOW_SIZE : Z := 32768.
Definition GTPU_PATH_MANAGEMENT_TEID : Z := 0.

(** [gtpu_extension_header_type] *)
Definition no_more_extension_headers : Z := 0x00.
Definition reserved_0 : Z := 0x01.
Definition reserved_1 : Z := 0x02.
Definition long_pdcp_pdu_number : Z := 0x03.
Definition service_class_indicator : Z := 0x20.
Definition udp_port : Z := 0x40.
Definition ran_container : Z := 0x81.
Definition long_pdcp_pdu_number_legacy : Z := 0x82.
Definition xw_ran_container : Z := 0x83.
Definition nr_ran_container : Z := 0x84.
Definition pdu_session_container : Z := 0x85.
Definition pdcp_pdu_number : Z := 0xc0.
Definition reserved_2 : Z := 0xc1.
Definition reserved_3 : Z := 0xc2.

(** [gtpu_comprehension], the two values that require it *)
Definition required_at_endpoint_not_intermediate_node : Z := 2.
Definition required_at_endpoint_and_intermediate_node : Z := 3.

(** [gtpu_information_element_type] *)
Definition ie_recovery : Z := 14.
Definition ie_tunnel_endpoint_identifier_data_i : Z := 16.
Definition ie_gsn_address : Z := 133.
Definition ie_private_extension : Z := 255.

(** ** Data *)
Record gtpu_extension_header := ExtHdr { extension_header_type : Z; container : list Z }.

Record gtpu_flags := Flags { version : Z; protocol_type : Z; ext_hdr : bool; f_seq_number : bool; f_n_pdu : bool }.

Record gtpu_header := GtpuHdr {
  flags : gtpu_flags;
  message_type : Z;
  hdr_length : Z;
  teid : Z;
  seq_number : Z;
  n_pdu : Z;
  next_ext_hdr_type : Z;
  ext_list : list gtpu_extension_header
}.

(** [gtpu_dissected_pdu]; [test_mode] is the base class's. *)
Record gtpu_dissected_pdu := Dissected { dp_buf : list Z; dp_hdr : gtpu_header; dp_hdr_len : Z; dp_test_mode : bool }.

Definition gtpu_header_init : gtpu_header := GtpuHdr (Flags 1 0 false false false) 0 0 0 0 0 no_more_extension_headers [].

(** [gtpu_ie_gtpu_peer_address]: the variant of the two address types *)
Inductive gtpu_peer_address := Ipv4 (addr : list Z) | Ipv6 (addr : list Z).

(** [gtpu_msg_error_indication] *)
Record gtpu_msg_error_indication := ErrInd { ei_teid_i : Z; ei_peer_address : gtpu_peer_address }.

(** ** Checks *)
Definition gtpu_supported_flags_check (h : gtpu_header) : bool :=
  if negb (version (flags h) =? GTPU_FLAGS_VERSION_V1) then false else
  if negb (protocol_type (flags h) =? GTPU_FLAGS_GTP_PROTOCOL) then false else
  if f_n_pdu (flags h) then false else true.

Definition gtpu_supported_msg_type_check (h : gtpu_header) : bool :=
  if negb (message_type h =? GTPU_MSG_DATA_PDU) && negb (message_type h =? GTPU_MSG_ECHO_REQUEST) &&
     negb (message_type h =? GTPU_MSG_ECHO_RESPONSE) && negb (message_type h =? GTPU_MSG_ERROR_INDICATION) &&
     negb (message_type h =? GTPU_MSG_END_MARKER)
  then false else true.

Definition gtpu_extension_header_comprehension_check (type : Z) : bool :=
  if existsb (Z.eqb type) [no_more_extension_headers; long_pdcp_pdu_number; long_pdcp_pdu_number_legacy; nr_ran_container;
                           pdu_session_container; pdcp_pdu_number]
  then true
  else if existsb (Z.eqb type) [reserved_0; reserved_1; reserved_2; reserved_3] then false
  else
    let comp := u8 (Z.shiftr type 6) in
    negb (comp =? required_at_endpoint_not_intermediate_node) && negb (comp =? required_at_endpoint_and_intermediate_node).

(** ** Writing *)


(** [gtpu_get_length]: a [uint16_t] sum *)
Definition gtpu_get_length (h : gtpu_header) (sdu : list Z) : Z :=
  let len := u16 (z_len sdu) in
  let len := if negb (bool_decide (ext_list h = [])) || f_seq_number (flags h) || f_n_pdu (flags h) then u16 (len + 4) else len in
  foldl (fun len ext => u16 (u16 (len + 2) + z_len (container ext))) len (ext_list h).

(** [gtpu_write_ext_header]: the payload's length is a [uint8_t]. *)
Definition gtpu_write_ext_header (ext : gtpu_extension_header) (next : Z) (s : bool * bit_encoder) : option (bool * bit_encoder) :=
  let payload := u8 (1 + z_len (container ext) + 1) in
  if negb (payload mod 4 =? 0) then None else
  let len := payload / 4 in
  s ← pack_and len 8 s;
  s ← pack_bytes_and (container ext) s;
  pack_and next 8 s.

(** The loop over the extension headers: it stops at the first failure. *)
Fixpoint gtpu_write_ext_headers (l : list gtpu_extension_header) (s : bool * bit_encoder) : option (bool * bit_encoder) :=
  match l with
  | [] => Some s
  | ext :: l =>
      if negb s.1 then Some s else
      let next := match l with [] => no_more_extension_headers | ext' :: _ => extension_header_type ext' end in
      s ← gtpu_write_ext_header ext next s;
      gtpu_write_ext_headers l s
  end.

(** The mandatory part of the header and the optional one *)
Definition gtpu_pack_base_header (h : gtpu_header) (pdu : list Z) (s : bool * bit_encoder) : option (bool * bit_encoder) :=
  s ← pack_and (version (flags h)) 3 s;
  s ← pack_and (protocol_type (flags h)) 1 s;
  s ← pack_and 0 1 s;
  s ← pack_and (if bool_decide (ext_list h = []) then 0 else 1) 1 s;
  s ← pack_and (z_bit (f_seq_number (flags h))) 1 s;
  s ← pack_and (z_bit (f_n_pdu (flags h))) 1 s;
  s ← pack_and (message_type h) 8 s;
  s ← pack_and (gtpu_get_length h pdu) 16 s;
  pack_and (teid h) 32 s.

Definition gtpu_pack_optional_header (h : gtpu_header) (s : bool * bit_encoder) : option (bool * bit_encoder) :=
  if negb (bool_decide (ext_list h = [])) || f_seq_number (flags h) || f_n_pdu (flags h) then
    s ← pack_and (seq_number h) 16 s;
    s ← pack_and (n_pdu h) 8 s;
    pack_and (match ext_list h with [] => no_more_extension_headers | ext :: _ => extension_header_type ext end) 8 s
  else Some s.

(** [gtpu_write_header]: whether it succeeded, and the PDU. [room] is the memory for the header, [prepend_ok] tells whether
    [pdu.prepend] succeeds. *)
Definition gtpu_write_header (room : nat) (prepend_ok : bool) (pdu : list Z) (h : gtpu_header) : option (bool * list Z) :=
  if negb (gtpu_supported_flags_check h) then Some (false, pdu) else
  if negb (gtpu_supported_msg_type_check h) then Some (false, pdu) else
  s ← gtpu_pack_base_header h pdu (true, bit_encoder_new room);
  s ← gtpu_pack_optional_header h s;
  if negb s.1 then Some (false, pdu) else
  s ← gtpu_write_ext_headers (ext_list h) s;
  if negb s.1 then Some (false, pdu) else
  if negb prepend_ok then Some (false, pdu) else Some (true, enc_bytes s.2 ++ pdu).

(** *** Information elements, appended to the PDU *)
Definition enc_at (pdu : list Z) (room : nat) : bool * bit_encoder := (true, Enc pdu 0 room).
Definition enc_result (s : bool * bit_encoder) : bool * list Z := (s.1, enc_bytes s.2).

Definition gtpu_write_ie_recovery (room : nat) (pdu : list Z) (restart_counter : Z) : option (bool * list Z) :=
  s ← pack_and ie_recovery 8 (enc_at pdu room);
  s ← pack_and restart_counter 8 s;
  Some (enc_result s).

Fixpoint pack_octets (bs : list Z) (s : bool * bit_encoder) : option (bool * bit_encoder) :=
  match bs with
  | [] => Some s
  | b :: bs => s ← pack_and b 8 s; pack_octets bs s
  end.

Definition gtpu_write_ie_private_extension (room : nat) (pdu : list Z) (extension_identifier : Z) (extension_value : list Z)
  : option (bool * list Z) :=
  s ← pack_and ie_private_extension 8 (enc_at pdu room);
  s ← pack_and (u16 (z_len extension_value + 2)) 16 s;
  s ← pack_and extension_identifier 16 s;
  s ← pack_octets extension_value s;
  Some (enc_result s).

Definition gtpu_write_ie_teid_i (room : nat) (pdu : list Z) (teid_i : Z) : option (bool * list Z) :=
  s ← pack_and ie_tunnel_endpoint_identifier_data_i 8 (enc_at pdu room);
  s ← pack_and teid_i 32 s;
  Some (enc_result s).

Definition gtpu_write_ie_gtpu_peer_address (room : nat) (pdu : list Z) (a : gtpu_peer_address) : option (bool * list Z) :=
  s ← pack_and ie_gsn_address 8 (enc_at pdu room);
  let '(len, addr) := match a with Ipv4 addr => (4, addr) | Ipv6 addr => (16, addr) end in
  s ← pack_and len 16 s;
  s ← pack_bytes_and addr s;
  Some (enc_result s).

(** ** Reading *)

(** [decoder.unpack] into a [bool] *)
Definition unpack_flag (d : bit_decoder) : option (bool * bool * bit_decoder) :=
  '(ok, v, d) ← bit_unpack 8 1 d; Some (ok, negb (v =? 0), d).

(** [bit_decoder::nof_bytes], for a decoder of [buf] *)
Definition dec_nof_bytes (buf : list Z) (d : bit_decoder) : Z :=
  z_len buf - z_len (dec_rest d) + (if dec_offset d =? 0 then 0 else 1).

(** [gtpu_read_teid]: the loop from the most significant octet down *)
Fixpoint read_teid_loop (i : nat) (acc : Z) (l : list Z) : option Z :=
  match i with
  | O => Some acc
  | S i => match l with
           | [] => None
           | b :: l => read_teid_loop i (u32 (Z.lor acc (Z.shiftl b (8 * Z.of_nat i)))) l
           end
  end.

Definition gtpu_read_teid (pdu : list Z) : option (option Z) :=
  if z_len pdu <? GTPU_BASE_HEADER_LEN then Some None else t ← read_teid_loop 4 0 (drop 4 pdu); Some (Some t).

(** [gtpu_unpack_ext_header_type] *)
Definition gtpu_unpack_ext_header_type (d : bit_decoder) : option (Z * bit_decoder) :=
  '(_, tmp, d) ← bit_unpack 8 8 d; Some (tmp, d).

(** [gtpu_read_ext_header]: the container and the type of the next extension header; reads past the end go unnoticed. *)
Definition gtpu_read_ext_header (d : bit_decoder) : option (list Z * Z * bit_decoder) :=
  '(_, len, d) ← bit_unpack 8 8 d;
  let payload := u16 (len * 4 - 2) in
  '(c, d) ← unpack_aligned_bytes payload d;
  '(next, d) ← gtpu_unpack_ext_header_type d;
  Some (c, next, d).

(** The loop over the extension headers; the fuel is the room in the list, plus one for the header that exceeds it. *)
Fixpoint gtpu_read_ext_headers (fuel : nat) (type : Z) (l : list gtpu_extension_header) (d : bit_decoder)
  : option (option (list gtpu_extension_header * bit_decoder)) :=
  match fuel with
  | O => None
  | S fuel =>
      if negb (gtpu_extension_header_comprehension_check type) then Some None else
      '(c, next, d) ← gtpu_read_ext_header d;
      if (length l <? GTPU_MAX_NUM_HEADER_EXTENSIONS)%nat then
        let l := l ++ [ExtHdr type c] in
        if next =? no_more_extension_headers then Some (Some (l, d)) else gtpu_read_ext_headers fuel next l d
      else Some None
  end.

(** The first octet *)
Definition gtpu_unpack_flags (d : bit_decoder) : option (gtpu_flags * bit_decoder) :=
  '(_, v, d) ← bit_unpack 8 3 d;
  '(_, pt, d) ← bit_unpack 8 1 d;
  '(_, spare, d) ← bit_unpack 8 1 d;
  '(_, e, d) ← unpack_flag d;
  '(_, s, d) ← unpack_flag d;
  '(_, pn, d) ← unpack_flag d;
  Some (Flags v pt e s pn, d).

(** The optional fields: sequence number, N-PDU number and the type of the first extension header; the inner [None] is a
    dissection that fails. *)
Definition gtpu_unpack_optional (buf : list Z) (f : gtpu_flags) (d : bit_decoder) : option (option (Z * Z * Z * bit_decoder)) :=
  if ext_hdr f || f_seq_number f || f_n_pdu f then
    if z_len buf <? GTPU_EXTENDED_HEADER_LEN then Some None else
    '(_, sn, d) ← bit_unpack 16 16 d;
    '(_, np, d) ← bit_unpack 8 8 d;
    '(type, d) ← gtpu_unpack_ext_header_type d;
    if negb (gtpu_extension_header_comprehension_check type) then Some None else Some (Some (sn, np, type, d))
  else Some (Some (0, 0, no_more_extension_headers, d)).

(** [gtpu_dissect_pdu]: the inner [None] is [false]; what a failed call leaves in its output is not used. *)
Definition gtpu_dissect_pdu (raw_pdu : list Z) : option (option gtpu_dissected_pdu) :=
  if z_len raw_pdu <? GTPU_BASE_HEADER_LEN then Some None else
  '(f, d) ← gtpu_unpack_flags (bit_decoder_new raw_pdu);
  let hdr mt len teid sn np type l := GtpuHdr f mt len teid sn np type l in
  if negb (gtpu_supported_flags_check (hdr 0 0 0 0 0 0 [])) then Some None else
  '(_, mt, d) ← bit_unpack 8 8 d;
  '(_, len, d) ← bit_unpack 16 16 d;
  '(_, teid, d) ← bit_unpack 32 32 d;
  let expected_length := u16 (z_len raw_pdu - GTPU_BASE_HEADER_LEN) in
  if negb (len =? expected_length) then Some None else
  opt ← gtpu_unpack_optional raw_pdu f d;
  match opt with
  | None => Some None
  | Some (sn, np, type, d) =>
      let done l d := Some (Some (Dissected raw_pdu (hdr mt len teid sn np type l) (dec_nof_bytes raw_pdu d) false)) in
      if ext_hdr f then
        if type =? no_more_extension_headers then Some None else
        exts ← gtpu_read_ext_headers (S GTPU_MAX_NUM_HEADER_EXTENSIONS) type [] d;
        match exts with None => Some None | Some (l, d) => done l d end
      else done [] d
  end.

(** [gtpu_extract_msg]; [trim_head] asserts that the header is not longer than the buffer. *)
Definition gtpu_extract_msg (p : gtpu_dissected_pdu) : option (list Z) :=
  if z_len (dp_buf p) <? dp_hdr_len p then None else Some (drop (Z.to_nat (dp_hdr_len p)) (dp_buf p)).

(** *** Error indications *)
Definition gtpu_read_ie_type (d : bit_decoder) : option (bool * Z * bit_decoder) := bit_unpack 8 8 d.
Definition gtpu_read_ie_teid_i (d : bit_decoder) : option (bool * Z * bit_decoder) := bit_unpack 32 32 d.

(** [gtpu_read_ie_gtpu_peer_address]; the inner [None] is [false]. *)
Definition gtpu_read_ie_gtpu_peer_address (d : bit_decoder) : option (option (gtpu_peer_address * bit_decoder)) :=
  '(ok, len, d) ← bit_unpack 16 16 d;
  if negb (ok : bool) then Some None else
  if len =? 4 then
    '(ok, a, d) ← unpack_bytes 4 d; Some (if ok : bool then Some (Ipv4 a, d) else None)
  else if len =? 16 then
    '(ok, a, d) ← unpack_bytes 16 d; Some (if ok : bool then Some (Ipv6 a, d) else None)
  else Some None.

Definition gtpu_read_msg_error_indication (pdu : list Z) : option (option gtpu_msg_error_indication) :=
  '(ok1, type, d) ← gtpu_read_ie_type (bit_decoder_new pdu);
  if negb (type =? ie_tunnel_endpoint_identifier_data_i) then Some None else
  '(ok2, t, d) ← gtpu_read_ie_teid_i d;
  '(ok3, type, d) ← gtpu_read_ie_type d;
  if negb (type =? ie_gsn_address) then Some None else
  a ← gtpu_read_ie_gtpu_peer_address d;
  Some (match a with Some (a, _) => if ok1 && ok2 && ok3 : bool then Some (ErrInd t a) else None | None => None end).
