(* ===== verification/GtpuPduCorrect.v ===== *)
(** * What GTP-U headers look like on the wire

    The octets [gtpu_write_header] prepends, and [gtpu_parse], a reader of octets that [gtpu_dissect_pdu] is proved equal to.
    The properties of the PDU follow from the two. *)
From S2P Require Import Prelude BitCodec BitFields BitIo GtpuPdu.

(** ** Writing *)

(** The values the fields of a header can have. *)
Definition ext_ok (x : gtpu_extension_header) : Prop :=
  is_byte (extension_header_type x) /\ bytes_ok (container x) /\ (z_len (container x) + 2) mod 4 = 0.

Definition header_ok (h : gtpu_header) : Prop :=
  is_byte (message_type h) /\ 0 <= teid h < 2 ^ 32 /\ 0 <= seq_number h < 2 ^ 16 /\ is_byte (n_pdu h) /\ Forall ext_ok (ext_list h).

Definition first_type (l : list gtpu_extension_header) : Z :=
  match l with [] => no_more_extension_headers | x :: _ => extension_header_type x end.

Fixpoint exts_octets (l : list gtpu_extension_header) : list Z :=
  match l with
  | [] => []
  | x :: l => [u8 (1 + z_len (container x) + 1) / 4] ++ container x ++ [first_type l] ++ exts_octets l
  end.

Definition has_optional (h : gtpu_header) : bool :=
  negb (bool_decide (ext_list h = [])) || f_seq_number (flags h) || f_n_pdu (flags h).

Definition flags_octet (h : gtpu_header) : Z :=
  32 * version (flags h) + 16 * protocol_type (flags h) + 4 * z_bit (negb (bool_decide (ext_list h = []))) +
  2 * z_bit (f_seq_number (flags h)) + z_bit (f_n_pdu (flags h)).

Definition header_octets (h : gtpu_header) (pdu : list Z) : list Z :=
  [flags_octet h] ++ [message_type h] ++ be 2 (gtpu_get_length h pdu) ++ be 4 (teid h) ++
  (if has_optional h then be 2 (seq_number h) ++ [n_pdu h] ++ [first_type (ext_list h)] else []) ++ exts_octets (ext_list h).

Lemma first_type_ok l : Forall ext_ok l -> is_byte (first_type l).
Proof. destruct l as [|x l]; [done|]. by intros [[? _] _]%Forall_cons. Qed.

Lemma u16_range x : 0 <= u16 x < 2 ^ 16.
Proof. by apply uint_range. Qed.

Lemma gtpu_length_range h pdu : 0 <= gtpu_get_length h pdu < 2 ^ 16.
Proof.
  assert (Hf : forall l z, 0 <= z < 2 ^ 16 -> 0 <= foldl (fun len ext => u16 (u16 (len + 2) + z_len (container ext))) z l < 2 ^ 16).
  { induction l as [|x l IH]; intros z Hz; cbn [foldl]; [done|]. apply IH, u16_range. }
  unfold gtpu_get_length. apply Hf. destruct (negb _ || _ || _); apply u16_range.
Qed.

(** The extension headers as fields. *)
Lemma exts_octets_ok l : Forall ext_ok l -> bytes_ok (exts_octets l).
Proof.
  induction l as [|x l IH]; intros Hl; [constructor|]. apply Forall_cons in Hl as [(? & Hc & _) Hl]. cbn [exts_octets].
  constructor; [unfold is_byte; rewrite u8_eq; lia|]. apply Forall_app_2; [done|]. constructor; [by apply first_type_ok|by apply IH].
Qed.

Lemma exts_octets_cons x l :
  exts_octets (x :: l) = ([u8 (1 + z_len (container x) + 1) / 4] ++ container x ++ [first_type l]) ++ exts_octets l.
Proof. cbn [exts_octets]. by rewrite <- !app_assoc. Qed.

Lemma write_exts_packed l : forall t fs bs s,
  packed t fs s -> same fs bs -> Forall ext_ok l ->
  runs_to (gtpu_write_ext_headers l s) (fun s' => exists fs', packed t fs' s' /\ same fs' (bs ++ exts_octets l)).
Proof.
  induction l as [|x l IH]; intros t fs bs s Hp Hs Hl; cbn [gtpu_write_ext_headers].
  { apply runs_to_ret. exists fs. cbn. by rewrite app_nil_r. }
  pose proof Hl as Hl0. apply Forall_cons in Hl as [(Ht & Hc & Hm) Hl]. rewrite exts_octets_cons, app_assoc.
  assert (Hr : is_byte (u8 (1 + z_len (container x) + 1) / 4)) by (unfold is_byte; rewrite u8_eq; lia).
  assert (Hn : is_byte (first_type l)) by by apply first_type_ok.
  assert (Hx := same_app _ _ _ _ Hs (same_app _ _ _ _ (same_octet _ Hr) (same_app _ _ _ _ (same_octets _ Hc) (same_octet _ Hn)))).
  destruct (s.1) eqn:Eok; cbn [negb].
  - change (match l with [] => no_more_extension_headers | ext' :: _ => extension_header_type ext' end) with (first_type l).
    apply runs_to_bind with (P := packed t (fs ++ [(u8 (1 + z_len (container x) + 1) / 4, 8)] ++ octets (container x) ++ [(first_type l, 8)])).
    + unfold gtpu_write_ext_header. rewrite (proj2 (Z.eqb_eq (u8 _ mod 4) 0)) by (rewrite u8_eq; lia). cbn [negb]. pack_step Hp.
      eapply runs_to_bind; [apply (pack_bytes_run _ _ _ _ Hp Hc)|].
      { rewrite fields_bits_app, fields_bits_1. destruct Hs as (_ & _ & -> & _). lia. }
      clear Hp. intros s1 Hp. cbn beta. rewrite <- !app_assoc in Hp. apply (pack_run _ _ (first_type l) 8) in Hp; [|lia|exact Hn].
      by rewrite <- !app_assoc in Hp.
    + intros s' Hp'. by apply (IH t _ _ s' Hp').
  - rewrite <- app_assoc, <- exts_octets_cons. apply runs_to_ret. exists (fs ++ octets (exts_octets (x :: l))).
    pose proof (exts_octets_ok _ Hl0) as Ho. split; [|apply same_app; [done|by apply same_octets]].
    apply packed_more; [done|done|by apply octets_ok].
Qed.

(** The fixed part. *)
Definition flag_fields (h : gtpu_header) : list (Z * Z) :=
  [(version (flags h), 3); (protocol_type (flags h), 1); (0, 1); (z_bit (negb (bool_decide (ext_list h = []))), 1);
   (z_bit (f_seq_number (flags h)), 1); (z_bit (f_n_pdu (flags h)), 1)].

Lemma z_bit_range b : 0 <= z_bit b < 2 ^ 1.
Proof. by destruct b. Qed.

Lemma same_flags h : 0 <= version (flags h) < 2 ^ 3 -> 0 <= protocol_type (flags h) < 2 ^ 1 -> same (flag_fields h) [flags_octet h].
Proof.
  unfold flag_fields, flags_octet. generalize (version (flags h)), (protocol_type (flags h)). intros v p Hv Hp.
  pose proof (z_bit_range (negb (bool_decide (ext_list h = [])))) as He. revert He. generalize (z_bit (negb (bool_decide (ext_list h = [])))).
  pose proof (z_bit_range (f_seq_number (flags h))) as Hs. revert Hs. generalize (z_bit (f_seq_number (flags h))).
  pose proof (z_bit_range (f_n_pdu (flags h))) as Hn. revert Hn. generalize (z_bit (f_n_pdu (flags h))). intros n Hn s Hs e He.
  change (2 ^ 3) with 8 in *. change (2 ^ 1) with 2 in *.
  split; [repeat (apply Forall_cons; split; [split; cbn [fst snd]; norm_pow; lia|]); constructor|].
  split; [constructor; [unfold is_byte; lia|constructor]|]. split; [done|].
  unfold fields_val, be_val. cbn [foldl fst snd]. norm_pow. lia.
Qed.

Lemma write_base_packed h pdu s t :
  packed t [] s -> header_ok h -> 0 <= version (flags h) < 2 ^ 3 -> 0 <= protocol_type (flags h) < 2 ^ 1 ->
  runs_to (gtpu_pack_base_header h pdu s) (fun s' => exists fs, packed t fs s' /\
    same fs ([flags_octet h] ++ [message_type h] ++ be 2 (gtpu_get_length h pdu) ++ be 4 (teid h))).
Proof.
  intros Hp (Hmt & Ht & _) Hv Hpt. pose proof (gtpu_length_range h pdu) as Hlen. pose proof (same_flags h Hv Hpt) as Hfl. unfold gtpu_pack_base_header.
  assert (Ee : (if bool_decide (ext_list h = []) then 0 else 1) = z_bit (negb (bool_decide (ext_list h = [])))) by by case_bool_decide.
  rewrite Ee. pose proof (z_bit_range (negb (bool_decide (ext_list h = [])))) as He.
  pose proof (z_bit_range (f_seq_number (flags h))) as Hsq. pose proof (z_bit_range (f_n_pdu (flags h))) as Hpn.
  do 8 pack_step Hp.
  destruct (pack_run _ _ (teid h) 32 _ Hp) as (s' & E & Hp'); [lia|exact Ht|]. exists s'. split; [exact E|]. eexists. split; [exact Hp'|].
  exact (same_app (flag_fields h) _ _ _ Hfl (same_app _ _ _ _ (same_octet _ Hmt)
    (same_app _ _ _ _ (same_be 2 _ ltac:(lia) Hlen) (same_be 4 _ ltac:(lia) Ht)))).
Qed.

Lemma write_optional_packed h s t fs bs :
  packed t fs s -> same fs bs -> header_ok h ->
  runs_to (gtpu_pack_optional_header h s) (fun s' => exists fs', packed t fs' s' /\
    same fs' (bs ++ if has_optional h then be 2 (seq_number h) ++ [n_pdu h] ++ [first_type (ext_list h)] else [])).
Proof.
  intros Hp Hs (_ & _ & Hsn & Hnp & Hx). unfold gtpu_pack_optional_header. fold (has_optional h). destruct (has_optional h).
  - change (match ext_list h with [] => no_more_extension_headers | ext :: _ => extension_header_type ext end) with (first_type (ext_list h)).
    pose proof (first_type_ok _ Hx) as Hft. pack_step Hp. pack_step Hp.
    destruct (pack_run _ _ (first_type (ext_list h)) 8 _ Hp) as (s' & E & Hp'); [lia|exact Hft|].
    exists s'. split; [exact E|]. eexists. split; [exact Hp'|]. rewrite <- !app_assoc.
    exact (same_app _ _ _ _ Hs (same_app _ _ _ _ (same_be 2 _ ltac:(lia) Hsn) (same_app _ _ _ _ (same_octet _ Hnp) (same_octet _ Hft)))).
  - apply runs_to_ret. exists fs. by rewrite app_nil_r.
Qed.

(** [gtpu_write_header], as a function of octets: it prepends exactly the header, or it changes nothing. *)
Lemma write_header_spec room prepend_ok pdu h :
  header_ok h ->
  gtpu_write_header room prepend_ok pdu h = Some (
    if gtpu_supported_flags_check h && gtpu_supported_msg_type_check h &&
       (length (header_octets h pdu) <=? room)%nat && prepend_ok
    then (true, header_octets h pdu ++ pdu) else (false, pdu)).
Proof.
  intros Hok. pose proof Hok as (Hmt & Ht & Hsn & Hnp & Hx). unfold gtpu_write_header.
  destruct (gtpu_supported_flags_check h) eqn:Efl; cbn [negb andb]; [|done].
  destruct (gtpu_supported_msg_type_check h); cbn [negb andb]; [|done].
  unfold gtpu_supported_flags_check in Efl.
  destruct (Z.eqb_spec (version (flags h)) GTPU_FLAGS_VERSION_V1) as [Ev|]; cbn [negb] in Efl; [|done].
  destruct (Z.eqb_spec (protocol_type (flags h)) GTPU_FLAGS_GTP_PROTOCOL) as [Ep|]; cbn [negb] in Efl; [|done].
  destruct (write_base_packed h pdu (true, bit_encoder_new room) (Z.of_nat room)) as (s1 & -> & f1 & Hp1 & Hs1);
    [apply (packed_start [] room); constructor|done|by rewrite Ev|by rewrite Ep|]. cbn [mbind option_bind].
  destruct (write_optional_packed h s1 _ f1 _ Hp1 Hs1 Hok) as (s2 & -> & f2 & Hp2 & Hs2). cbn [mbind option_bind].
  destruct (write_exts_packed (ext_list h) _ f2 _ s2 Hp2 Hs2 Hx) as (s3 & E3 & f3 & Hp3 & Hs3).
  rewrite <- !app_assoc in Hs3. fold (header_octets h pdu) in Hs3. destruct (packed_result _ _ _ _ Hp3 Hs3) as [Eok Eb].
  assert (Hfit : s3.1 = (length (header_octets h pdu) <=? room)%nat).
  { rewrite Eok. destruct (Nat.leb_spec (length (header_octets h pdu)) room); [apply bool_decide_true|apply bool_decide_false]; lia. }
  destruct (s2.1) eqn:E2; cbn [negb].
  - rewrite E3. cbn [mbind option_bind]. rewrite <- Hfit. destruct (s3.1); cbn [negb andb]; [|done].
    destruct prepend_ok; cbn [negb]; [|done]. by rewrite Eb.
  - assert (E3' : s3 = s2) by (destruct (ext_list h); cbn [gtpu_write_ext_headers] in E3; rewrite ?E2 in E3; cbn [negb] in E3; congruence).
    rewrite <- Hfit, E3', E2. done.
Qed.

(** ** Reading *)

(** An extension header without its type: the container, the type of the next one, and what follows. A container that is not
    there in full is empty, a type that is not there is 0. *)
Definition parse_ext (l : list Z) : list Z * Z * list Z :=
  match l with
  | [] => ([], 0, [])
  | n :: l =>
      let p := Z.to_nat (u16 (n * 4 - 2)) in
      if (p <=? length l)%nat then (take p l, hd 0 (drop p l), tl (drop p l)) else ([], hd 0 l, tl l)
  end.

Fixpoint parse_exts (fuel : nat) (type : Z) (acc : list gtpu_extension_header) (l : list Z)
  : option (list gtpu_extension_header * list Z) :=
  match fuel with
  | O => None
  | S fuel =>
      if negb (gtpu_extension_header_comprehension_check type) then None else
      let '(c, next, l) := parse_ext l in
      if (GTPU_MAX_NUM_HEADER_EXTENSIONS <=? length acc)%nat then None else
      let acc := acc ++ [ExtHdr type c] in
      if next =? no_more_extension_headers then Some (acc, l) else parse_exts fuel next acc l
  end.

Definition octet_flags (b : Z) : gtpu_flags :=
  Flags (b / 32) (b / 16 mod 2) (b / 4 mod 2 =? 1) (b / 2 mod 2 =? 1) (b mod 2 =? 1).

(** The optional fields and the extension headers *)
Definition parse_tail (f : gtpu_flags) (l : list Z) : option (Z * Z * Z * list gtpu_extension_header * list Z) :=
  if ext_hdr f || f_seq_number f || f_n_pdu f then
    match l with
    | s1 :: s0 :: np :: type :: l =>
        if negb (gtpu_extension_header_comprehension_check type) then None else
        if ext_hdr f then
          if type =? no_more_extension_headers then None else
          '(exts, l) ← parse_exts (S GTPU_MAX_NUM_HEADER_EXTENSIONS) type [] l;
          Some (be_val [s1; s0], np, type, exts, l)
        else Some (be_val [s1; s0], np, type, [], l)
    | _ => None
    end
  else Some (0, 0, no_more_extension_headers, [], l).

(** A GTP-U PDU, octet by octet *)
Definition parse_octets (raw : list Z) (b mt : Z) (len t l : list Z) : option gtpu_dissected_pdu :=
  if negb ((b / 32 =? 1) && (b / 16 mod 2 =? 1) && (b mod 2 =? 0)) then None else
  if negb (be_val len =? u16 (z_len l)) then None else
  '(sn, np, type, exts, rest) ← parse_tail (octet_flags b) l;
  Some (Dissected raw (GtpuHdr (octet_flags b) mt (be_val len) (be_val t) sn np type exts) (z_len raw - z_len rest) false).

Definition gtpu_parse (raw : list Z) : option gtpu_dissected_pdu :=
  match raw with
  | b :: mt :: l1 :: l0 :: t3 :: t2 :: t1 :: t0 :: l => parse_octets raw b mt [l1; l0] [t3; t2; t1; t0] l
  | _ => None
  end.

Lemma unpack_octet b l : is_byte b -> bit_unpack 8 8 (Dec (b :: l) 0) = Some (true, b, Dec l 0).
Proof. intros Hb. change b with (be_val [b]) at 2. apply (unpack_aligned_octets 8 [b]); [by constructor|done|done]. Qed.

Lemma unpack_octet_nil : bit_unpack 8 8 (Dec [] 0) = Some (false, 0, Dec [] 0).
Proof. done. Qed.

Lemma unpack_octet_hd l : bytes_ok l -> exists ok, bit_unpack 8 8 (Dec l 0) = Some (ok, hd 0 l, Dec (tl l) 0).
Proof. intros Hl. destruct l as [|b l]; [by exists false|]. apply Forall_cons in Hl as [Hb _]. exists true. by apply unpack_octet. Qed.

Lemma read_ext_spec l :
  bytes_ok l -> gtpu_read_ext_header (Dec l 0) = let '(c, next, l) := parse_ext l in Some (c, next, Dec l 0).
Proof.
  intros Hl. unfold gtpu_read_ext_header, gtpu_unpack_ext_header_type. destruct l as [|n l].
  { rewrite unpack_octet_nil. reflexivity. }
  apply Forall_cons in Hl as [Hn Hl]. rewrite unpack_octet by done. cbn [mbind option_bind parse_ext].
  set (p := u16 (n * 4 - 2)). assert (Hp : 0 < p < 65536) by (unfold p; rewrite u16_eq; unfold is_byte in Hn; lia).
  unfold unpack_aligned_bytes, align_bytes. cbn [dec_offset Z.eqb negb mbind option_bind dec_rest].
  rewrite (proj2 (Z.eqb_neq p 0)) by lia. destruct (Nat.leb_spec (Z.to_nat p) (length l)) as [Hle|Hgt].
  - rewrite (proj2 (Z.ltb_ge _ _)) by lia. cbn [mbind option_bind].
    destruct (unpack_octet_hd (drop (Z.to_nat p) l)) as (ok & ->); [by apply Forall_drop|]. done.
  - rewrite (proj2 (Z.ltb_lt _ _)) by lia. cbn [mbind option_bind]. by destruct (unpack_octet_hd l) as (ok & ->).
Qed.

Lemma parse_ext_ok l : bytes_ok l -> let '(c, next, r) := parse_ext l in
  bytes_ok c /\ is_byte next /\ bytes_ok r /\ (length r <= length l)%nat.
Proof.
  assert (Hhd : forall l, bytes_ok l -> is_byte (hd 0 l) /\ bytes_ok (tl l)) by (intros [|b m] Hm; [done|by apply Forall_cons in Hm]).
  assert (Htl : forall m : list Z, (length (tl m) <= length m)%nat) by (intros [|b m]; cbn; lia).
  intros Hl. unfold parse_ext. destruct l as [|n l]; [done|]. apply Forall_cons in Hl as [Hn Hl].
  destruct (Nat.leb_spec (Z.to_nat (u16 (n * 4 - 2))) (length l)) as [Hle|Hgt].
  - destruct (Hhd (drop (Z.to_nat (u16 (n * 4 - 2))) l)) as [? ?]; [by apply Forall_drop|]. split_and!; [by apply Forall_take|done..|].
    etrans; [apply Htl|]. rewrite length_drop. cbn. lia.
  - destruct (Hhd l Hl) as [? ?]. split_and!; [constructor|done..|]. etrans; [apply Htl|]. cbn. lia.
Qed.

Lemma read_exts_spec fuel : forall type acc l,
  bytes_ok l -> (GTPU_MAX_NUM_HEADER_EXTENSIONS < length acc + fuel)%nat -> (length acc <= GTPU_MAX_NUM_HEADER_EXTENSIONS)%nat ->
  gtpu_read_ext_headers fuel type acc (Dec l 0) =
    Some ('(exts, r) ← parse_exts fuel type acc l; Some (exts, Dec r 0)).
Proof.
  induction fuel as [|fuel IH]; intros type acc l Hl Hf Ha; cbn [gtpu_read_ext_headers parse_exts]; [lia|].
  destruct (gtpu_extension_header_comprehension_check type); cbn [negb]; [|done].
  rewrite read_ext_spec by done. pose proof (parse_ext_ok l Hl) as Hok. destruct (parse_ext l) as [[c next] r].
  destruct Hok as (_ & _ & Hr & _). cbn [mbind option_bind].
  destruct (Nat.ltb_spec (length acc) GTPU_MAX_NUM_HEADER_EXTENSIONS).
  - rewrite (proj2 (Nat.leb_gt _ _)) by lia. destruct (next =? no_more_extension_headers); [done|].
    apply IH; [done| |]; rewrite length_app; cbn [length]; lia.
  - by rewrite (proj2 (Nat.leb_le _ _)) by lia.
Qed.

Lemma unpack_part w n b rest o o' :
  is_byte b -> o' = o + n -> 0 <= o -> 0 < n -> o' < 8 -> n <= w -> 8 <= w <= 64 ->
  bit_unpack w n (Dec (b :: rest) o) = Some (true, b mod 2 ^ (8 - o) / 2 ^ (8 - o'), Dec (b :: rest) o').
Proof. intros Hb -> ? ? ? ? ?. rewrite unpack_in_octet by (done || lia). by rewrite (proj2 (Z.eqb_neq _ _)), Z.sub_add_distr by lia. Qed.

Lemma unpack_last w n b rest o :
  is_byte b -> o + n = 8 -> 0 <= o -> 0 < n -> n <= w -> 8 <= w <= 64 ->
  bit_unpack w n (Dec (b :: rest) o) = Some (true, b mod 2 ^ n, Dec rest 0).
Proof.
  intros Hb Ho ? ? ? ?. rewrite unpack_in_octet by (done || lia). rewrite Ho. cbn [Z.eqb Pos.eqb].
  replace (8 - o - n) with 0 by lia. replace (8 - o) with n by lia. by rewrite Z.div_1_r.
Qed.

Lemma unpack_flags_spec b l : is_byte b -> gtpu_unpack_flags (Dec (b :: l) 0) = Some (octet_flags b, Dec l 0).
Proof.
  intros Hb. unfold gtpu_unpack_flags, unpack_flag, bit_decoder_new.
  rewrite (unpack_part 8 3 b l 0 3) by (done || lia). cbn [mbind option_bind].
  rewrite (unpack_part 8 1 b l 3 4) by (done || lia). cbn [mbind option_bind].
  rewrite (unpack_part 8 1 b l 4 5) by (done || lia). cbn [mbind option_bind].
  rewrite (unpack_part 8 1 b l 5 6) by (done || lia). cbn [mbind option_bind].
  rewrite (unpack_part 8 1 b l 6 7) by (done || lia). cbn [mbind option_bind].
  rewrite (unpack_last 8 1 b l 7) by (done || lia). cbn [mbind option_bind].
  unfold octet_flags. f_equal. f_equal. unfold is_byte in Hb. norm_pow. f_equal.
  all: rewrite ?Z.div_1_r; try lia.
  all: match goal with |- negb (?x =? 0) = (?y =? 1) => destruct (Z.eqb_spec x 0), (Z.eqb_spec y 1); cbn; try done; lia end.
Qed.

Lemma unpack_octets2 a b l : is_byte a -> is_byte b -> bit_unpack 16 16 (Dec (a :: b :: l) 0) = Some (true, be_val [a; b], Dec l 0).
Proof. intros. apply (unpack_aligned_octets 16 [a; b]); [octet_list|done|done]. Qed.

Lemma unpack_octets4 a b c d l :
  is_byte a -> is_byte b -> is_byte c -> is_byte d ->
  bit_unpack 32 32 (Dec (a :: b :: c :: d :: l) 0) = Some (true, be_val [a; b; c; d], Dec l 0).
Proof. intros. apply (unpack_aligned_octets 32 [a; b; c; d]); [octet_list|done|done]. Qed.

(** The optional fields and the extension headers, as [gtpu_dissect_pdu] reads them. *)
Lemma dissect_tail raw f l :
  bytes_ok l -> z_len raw = 8 + z_len l ->
  (opt ← gtpu_unpack_optional raw f (Dec l 0);
   match opt with
   | None => Some None
   | Some (sn, np, type, d) =>
       if ext_hdr f then
         if type =? no_more_extension_headers then Some None else
         exts ← gtpu_read_ext_headers (S GTPU_MAX_NUM_HEADER_EXTENSIONS) type [] d;
         match exts with None => Some None | Some (l, d) => Some (Some (sn, np, type, l, d)) end
       else Some (Some (sn, np, type, [], d))
   end) = Some ('(sn, np, type, exts, r) ← parse_tail f l; Some (sn, np, type, exts, Dec r 0)).
Proof.
  intros Hl Elen. unfold gtpu_unpack_optional, parse_tail, gtpu_unpack_ext_header_type, GTPU_EXTENDED_HEADER_LEN.
  destruct (ext_hdr f || f_seq_number f || f_n_pdu f) eqn:Eopt.
  2: { apply orb_false_iff in Eopt as [Eopt _]. apply orb_false_iff in Eopt as [-> _]. reflexivity. }
  destruct l as [|s1 [|s0 [|np [|type l]]]];
    try (by rewrite (proj2 (Z.ltb_lt _ _)) by (unfold z_len in *; cbn [length] in *; lia)).
  rewrite (proj2 (Z.ltb_ge _ _)) by (unfold z_len in *; cbn [length] in *; lia).
  apply Forall_cons in Hl as [H1 Hl]. apply Forall_cons in Hl as [H2 Hl]. apply Forall_cons in Hl as [H3 Hl]. apply Forall_cons in Hl as [H4 Hl].
  rewrite unpack_octets2 by done. cbn [mbind option_bind]. rewrite unpack_octet by done. cbn [mbind option_bind].
  rewrite unpack_octet by done. cbn [mbind option_bind].
  destruct (gtpu_extension_header_comprehension_check type); cbn [negb]; [|done]. destruct (ext_hdr f); [|done].
  cbn [mbind option_bind]. destruct (type =? no_more_extension_headers); [done|].
  rewrite read_exts_spec by (done || (unfold GTPU_MAX_NUM_HEADER_EXTENSIONS; cbn [length]; lia)). cbn [mbind option_bind].
  by destruct (parse_exts _ type [] l) as [[exts r]|].
Qed.

(** [gtpu_dissect_pdu] is [gtpu_parse]: it ends without a failed assertion on any octets. *)
Lemma dissect_parse raw : bytes_ok raw -> gtpu_dissect_pdu raw = Some (gtpu_parse raw).
Proof.
  intros Hraw. unfold gtpu_dissect_pdu, GTPU_BASE_HEADER_LEN.
  destruct raw as [|b [|mt [|l1 [|l0 [|t3 [|t2 [|t1 [|t0 l]]]]]]]]; try (by rewrite (proj2 (Z.ltb_lt _ _)) by (unfold z_len; cbn; lia)).
  rewrite (proj2 (Z.ltb_ge _ _)) by (unfold z_len; cbn [length]; lia).
  set (raw := b :: mt :: l1 :: l0 :: t3 :: t2 :: t1 :: t0 :: l).
  assert (Elen : z_len raw = 8 + z_len l) by (unfold raw, z_len; cbn [length]; lia).
  repeat match goal with H : Forall _ (_ :: _) |- _ => apply Forall_cons in H as [? H] end.
  unfold bit_decoder_new. rewrite (unpack_flags_spec b (mt :: l1 :: l0 :: t3 :: t2 :: t1 :: t0 :: l) ltac:(done) : gtpu_unpack_flags (Dec raw 0) = _).
  cbn [mbind option_bind].
  assert (Efl : gtpu_supported_flags_check (GtpuHdr (octet_flags b) 0 0 0 0 0 0 []) = (b / 32 =? 1) && (b / 16 mod 2 =? 1) && (b mod 2 =? 0)).
  { unfold gtpu_supported_flags_check, GTPU_FLAGS_VERSION_V1, GTPU_FLAGS_GTP_PROTOCOL. cbn [flags octet_flags version protocol_type f_n_pdu].
    destruct (b / 32 =? 1); cbn [negb andb]; [|done]. destruct (b / 16 mod 2 =? 1); cbn [negb andb]; [|done].
    destruct (Z.eqb_spec (b mod 2) 1), (Z.eqb_spec (b mod 2) 0); try done; lia. }
  rewrite Efl. change (gtpu_parse raw) with (parse_octets raw b mt [l1; l0] [t3; t2; t1; t0] l). unfold parse_octets. destruct (_ && _ && _); cbn [negb]; [|done].
  rewrite unpack_octet by done. cbn [mbind option_bind]. rewrite unpack_octets2 by done. cbn [mbind option_bind].
  rewrite unpack_octets4 by done. cbn [mbind option_bind]. rewrite Elen. replace (8 + z_len l - 8) with (z_len l) by lia.
  destruct (be_val [l1; l0] =? u16 (z_len l)); cbn [negb]; [|done].
  pose proof (dissect_tail raw (octet_flags b) l) as Ht. specialize (Ht ltac:(done) Elen).
  destruct (gtpu_unpack_optional raw (octet_flags b) (Dec l 0)) as [[[[[sn np] type] d]|]|]; cbn [mbind option_bind] in Ht |- *; [| |done].
  - destruct (ext_hdr (octet_flags b)).
    + destruct (type =? no_more_extension_headers).
      { destruct (parse_tail (octet_flags b) l) as [[[[[? ?] ?] ?] ?]|]; [done|]. reflexivity. }
      destruct (gtpu_read_ext_headers _ type [] d) as [[[exts d']|]|]; cbn [mbind option_bind] in *; [| |done].
      * destruct (parse_tail (octet_flags b) l) as [[[[[sn' np'] type'] exts'] r]|]; [|done]. cbn [mbind option_bind] in *.
        injection Ht as -> -> -> -> ->. unfold dec_nof_bytes. cbn [dec_rest dec_offset Z.eqb]. by rewrite Elen, Z.add_0_r.
      * destruct (parse_tail (octet_flags b) l) as [[[[[? ?] ?] ?] ?]|]; [done|]. reflexivity.
    + destruct (parse_tail (octet_flags b) l) as [[[[[sn' np'] type'] exts'] r]|]; [|done]. cbn [mbind option_bind] in *.
      injection Ht as -> -> -> <- ->. unfold dec_nof_bytes. cbn [dec_rest dec_offset Z.eqb]. by rewrite Elen, Z.add_0_r.
  - destruct (parse_tail (octet_flags b) l) as [[[[[? ?] ?] ?] ?]|]; [done|]. reflexivity.
Qed.

(** ** The GTP-U PDU: what is written can be read, and reading is safe *)
(** *** Reading never leaves the PDU *)
Definition suffix_of (r l : list Z) : Prop := exists pre, l = pre ++ r.

Lemma suffix_refl l : suffix_of l l. Proof. by exists []. Qed.
Lemma suffix_cons x r l : suffix_of r l -> suffix_of r (x :: l).
Proof. intros [pre ->]. by exists (x :: pre). Qed.
Lemma suffix_trans a b c : suffix_of a b -> suffix_of b c -> suffix_of a c.
Proof. intros [p ->] [q ->]. exists (q ++ p). by rewrite app_assoc. Qed.
Lemma suffix_drop n l : suffix_of (drop n l) l.
Proof. exists (take n l). by rewrite take_drop. Qed.
Lemma suffix_tl (l : list Z) : suffix_of (tl l) l.
Proof. destruct l as [|x l]; [apply suffix_refl|by exists [x]]. Qed.
#[local] Hint Resolve suffix_refl suffix_cons suffix_drop suffix_tl : core.

Lemma parse_ext_suffix l : suffix_of (parse_ext l).2 l.
Proof.
  unfold parse_ext. destruct l as [|n l]; [done|]. destruct (_ <=? _)%nat; cbn [snd]; apply suffix_cons; [|done].
  eapply suffix_trans; [apply suffix_tl|apply suffix_drop].
Qed.

Lemma parse_exts_suffix fuel : forall type acc l exts r,
  parse_exts fuel type acc l = Some (exts, r) ->
  suffix_of r l /\ (length acc <= length exts <= GTPU_MAX_NUM_HEADER_EXTENSIONS)%nat.
Proof.
  induction fuel as [|fuel IH]; intros type acc l exts r E; cbn [parse_exts] in E; [done|].
  destruct (gtpu_extension_header_comprehension_check type); cbn [negb] in E; [|done].
  pose proof (parse_ext_suffix l) as Hs. destruct (parse_ext l) as [[c next] m]. cbn [snd] in Hs.
  destruct (Nat.leb_spec GTPU_MAX_NUM_HEADER_EXTENSIONS (length acc)); [done|].
  destruct (next =? no_more_extension_headers).
  - injection E as <- <-. rewrite length_app. cbn [length]. split; [done|lia].
  - apply IH in E as [Hr Hl]. rewrite length_app in Hl. cbn [length] in Hl. split; [by eapply suffix_trans|lia].
Qed.

Lemma parse_tail_suffix f l sn np type exts r :
  parse_tail f l = Some (sn, np, type, exts, r) -> suffix_of r l /\ (length exts <= GTPU_MAX_NUM_HEADER_EXTENSIONS)%nat.
Proof.
  unfold parse_tail. intros E. destruct (_ || _ || _).
  2: { injection E as <- <- <- <- <-. split; [done|cbn; lia]. }
  destruct l as [|s1 [|s0 [|np' [|t l]]]]; try done. destruct (gtpu_extension_header_comprehension_check t); cbn [negb] in E; [|done].
  destruct (ext_hdr f).
  - destruct (t =? no_more_extension_headers); [done|]. destruct (parse_exts _ t [] l) as [[exts' r']|] eqn:Ep; [|done].
    injection E as <- <- <- <- <-. apply parse_exts_suffix in Ep as [Hr Hl]. split; [by repeat apply suffix_cons|lia].
  - injection E as <- <- <- <- <-. split; [by repeat apply suffix_cons|cbn; lia].
Qed.

Lemma extract_suffix raw h pre r b : raw = pre ++ r -> gtpu_extract_msg (Dissected raw h (z_len raw - z_len r) b) = Some r.
Proof.
  intros ->. unfold gtpu_extract_msg. cbn [dp_buf dp_hdr_len]. unfold z_len. rewrite length_app.
  rewrite (proj2 (Z.ltb_ge _ _)) by lia. replace (Z.to_nat _) with (length pre) by lia. by rewrite drop_app_length.
Qed.

Lemma lor_octet acc b k : 0 <= k -> acc mod 2 ^ (k + 8) = 0 -> is_byte b -> Z.lor acc (Z.shiftl b k) = acc + b * 2 ^ k.
Proof.
  intros Hk Ha Hb. unfold is_byte in Hb. pose proof (pow2_pos k Hk). rewrite Z.shiftl_mul_pow2 by done. apply (lor_disj (k + 8)); [lia|done|].
  rewrite Z.pow_add_r by lia. change (2 ^ 8) with 256. nia.
Qed.

(** The TEID the demultiplexer reads is the one of the header. *)
Lemma read_teid_spec b mt l1 l0 t3 t2 t1 t0 l :
  bytes_ok [t3; t2; t1; t0] -> gtpu_read_teid (b :: mt :: l1 :: l0 :: t3 :: t2 :: t1 :: t0 :: l) = Some (Some (be_val [t3; t2; t1; t0])).
Proof.
  intros Hb. unfold gtpu_read_teid, GTPU_BASE_HEADER_LEN. rewrite (proj2 (Z.ltb_ge _ _)) by (unfold z_len; cbn [length]; lia).
  repeat match goal with H : Forall _ (_ :: _) |- _ => apply Forall_cons in H as [? H] end. unfold is_byte in *.
  cbn [drop read_teid_loop mbind option_bind]. repeat f_equal.
  change (8 * Z.of_nat 3) with 24. change (8 * Z.of_nat 2) with 16. change (8 * Z.of_nat 1) with 8. change (8 * Z.of_nat 0) with 0.
  rewrite !u32_eq. rewrite Z.lor_0_l, (Z.shiftl_mul_pow2 t3) by lia. norm_pow. rewrite (Z.mod_small (t3 * _)) by lia.
  rewrite (lor_octet _ t2 16) by (try lia; norm_pow; unfold is_byte; lia). norm_pow. rewrite (Z.mod_small (_ + t2 * _)) by lia.
  rewrite (lor_octet _ t1 8) by (try lia; norm_pow; unfold is_byte; lia). norm_pow. rewrite (Z.mod_small (_ + t1 * _)) by lia.
  rewrite (lor_octet _ t0 0) by (try lia; norm_pow; unfold is_byte; lia). norm_pow. rewrite (Z.mod_small (_ + t0 * _)) by lia.
  unfold be_val. cbn [foldl]. lia.
Qed.

Lemma dissect_safe raw :
  bytes_ok raw ->
  exists r, gtpu_dissect_pdu raw = Some r /\
    match r with
    | None => True
    | Some p =>
        dp_buf p = raw /\ 8 <= dp_hdr_len p <= z_len raw /\ (length (ext_list (dp_hdr p)) <= 10)%nat /\
        gtpu_extract_msg p = Some (drop (Z.to_nat (dp_hdr_len p)) raw) /\
        gtpu_read_teid raw = Some (Some (teid (dp_hdr p)))
    end.
Proof.
  intros Hraw. exists (gtpu_parse raw). split; [by apply dissect_parse|].
  destruct raw as [|b [|mt [|l1 [|l0 [|t3 [|t2 [|t1 [|t0 l]]]]]]]]; try done. cbn [gtpu_parse].
  set (raw := b :: _) in *. unfold parse_octets. destruct (_ && _ && _); cbn [negb]; [|done].
  destruct (be_val [l1; l0] =? _); cbn [negb]; [|done].
  destruct (parse_tail (octet_flags b) l) as [[[[[sn np] type] exts] r]|] eqn:Et; cbn [mbind option_bind]; [|done].
  apply parse_tail_suffix in Et as [[pre ->] Hx]. cbn [dp_buf dp_hdr dp_hdr_len ext_list teid].
  assert (Eraw : raw = (b :: mt :: l1 :: l0 :: t3 :: t2 :: t1 :: t0 :: pre) ++ r) by done.
  split; [done|]. split; [rewrite Eraw; unfold z_len; rewrite length_app; cbn [length]; lia|]. split; [exact Hx|]. split.
  - rewrite (extract_suffix raw _ _ r _ Eraw). rewrite Eraw. unfold z_len. rewrite length_app.
    replace (Z.to_nat _) with (length (b :: mt :: l1 :: l0 :: t3 :: t2 :: t1 :: t0 :: pre)) by lia. by rewrite drop_app_length.
  - unfold raw in Hraw. repeat match goal with H : Forall _ (_ :: _) |- _ => apply Forall_cons in H as [? H] end. apply read_teid_spec. octet_list.
Qed.

(** C29. Dissecting any octets ends without a failed assertion. If it succeeds, the header is inside of the PDU, there are at
    most ten extension headers, taking the message out of the PDU is safe and gives what follows the header, and the TEID is
    the one by which the demultiplexer routed the PDU. *)
Theorem gtpu_dissect_safe raw :
  bytes_ok raw ->
  exists r, gtpu_dissect_pdu raw = Some r /\
    match r with
    | None => True
    | Some p =>
        dp_buf p = raw /\ 8 <= dp_hdr_len p <= z_len raw /\ (length (ext_list (dp_hdr p)) <= 10)%nat /\
        gtpu_extract_msg p = Some (drop (Z.to_nat (dp_hdr_len p)) raw) /\
        gtpu_read_teid raw = Some (Some (teid (dp_hdr p)))
    end.
Proof. apply dissect_safe. Qed.

Lemma gtpu_dissect_safe_witness :
  exists r, gtpu_dissect_pdu [0x34; 255; 0; 8; 0; 0; 0; 1; 0; 0; 0; 0x85; 1; 0; 5; 0] = Some r /\
    match r with
    | None => True
    | Some p =>
        dp_buf p = [0x34; 255; 0; 8; 0; 0; 0; 1; 0; 0; 0; 0x85; 1; 0; 5; 0] /\
        8 <= dp_hdr_len p <= z_len [0x34; 255; 0; 8; 0; 0; 0; 1; 0; 0; 0; 0x85; 1; 0; 5; 0] /\ (length (ext_list (dp_hdr p)) <= 10)%nat /\
        gtpu_extract_msg p = Some (drop (Z.to_nat (dp_hdr_len p)) [0x34; 255; 0; 8; 0; 0; 0; 1; 0; 0; 0; 0x85; 1; 0; 5; 0]) /\
        gtpu_read_teid [0x34; 255; 0; 8; 0; 0; 0; 1; 0; 0; 0; 0x85; 1; 0; 5; 0] = Some (Some (teid (dp_hdr p)))
    end.
Proof. apply gtpu_dissect_safe. octets_ok. Defined.

(** *** What is written can be read *)

(** An extension header that the format can carry and a receiver comprehends. *)
Definition ext_wire_ok (x : gtpu_extension_header) : Prop :=
  ext_ok x /\ z_len (container x) <= 250 /\ extension_header_type x <> no_more_extension_headers /\
  gtpu_extension_header_comprehension_check (extension_header_type x) = true.

Lemma parse_ext_written x l rest :
  ext_wire_ok x -> is_byte (first_type l) ->
  parse_ext (exts_octets (x :: l) ++ rest) = (container x, first_type l, exts_octets l ++ rest).
Proof.
  intros ((_ & _ & Hm) & Hlen & _ & _) Hn. cbn [exts_octets parse_ext app].
  set (n := z_len (container x)) in *. assert (0 <= n) by (unfold n, z_len; lia).
  assert (Ep : Z.to_nat (u16 (u8 (1 + n + 1) / 4 * 4 - 2)) = length (container x)).
  { rewrite u8_eq, u16_eq. rewrite (Z.mod_small (1 + n + 1)) by lia. replace ((1 + n + 1) / 4 * 4 - 2) with n by lia.
    rewrite Z.mod_small by lia. unfold n, z_len. lia. }
  rewrite Ep, <- app_assoc. rewrite (proj2 (Nat.leb_le _ _)) by (rewrite length_app; lia).
  by rewrite take_app_length, drop_app_length.
Qed.

Lemma parse_exts_written l : forall fuel acc rest,
  l <> [] -> Forall ext_wire_ok l -> (length acc + length l <= GTPU_MAX_NUM_HEADER_EXTENSIONS)%nat -> (length l <= fuel)%nat ->
  parse_exts fuel (first_type l) acc (exts_octets l ++ rest) = Some (acc ++ l, rest).
Proof.
  induction l as [|x l IH]; intros fuel acc rest Hne Hl Ha Hf; [done|]. cbn [length] in *.
  destruct fuel as [|fuel]; [lia|]. apply Forall_cons in Hl as [Hx Hl]. cbn [parse_exts first_type].
  pose proof Hx as (_ & _ & _ & ->). cbn [negb].
  assert (Hn : is_byte (first_type l)) by (apply first_type_ok; eapply Forall_impl; [exact Hl|]; by intros y [? _]).
  rewrite parse_ext_written by done. rewrite (proj2 (Nat.leb_gt _ _)) by lia.
  assert (Ex : ExtHdr (extension_header_type x) (container x) = x) by by destruct x. rewrite Ex. destruct l as [|y l].
  - done.
  - pose proof Hl as Hy. apply Forall_cons in Hy as [(_ & _ & Hy & _) _].
    rewrite (proj2 (Z.eqb_neq (first_type (y :: l)) _)) by exact Hy.
    rewrite (IH fuel (acc ++ [x]) rest); [by rewrite <- app_assoc|done|done|rewrite length_app; cbn [length] in *; lia|cbn [length] in *; lia].
Qed.

(** The length field is the number of octets after the mandatory part. *)
Definition optional_octets (h : gtpu_header) : list Z :=
  if has_optional h then be 2 (seq_number h) ++ [n_pdu h] ++ [first_type (ext_list h)] else [].

Lemma optional_octets_ok h : header_ok h -> bytes_ok (optional_octets h).
Proof.
  intros (_ & _ & Hsn & Hnp & Hx). unfold optional_octets. destruct (has_optional h); [|constructor].
  apply Forall_app_2; [apply be_ok|]. pose proof (first_type_ok _ Hx). octet_list.
Qed.

Lemma flags_octet_ok h : gtpu_supported_flags_check h = true -> is_byte (flags_octet h).
Proof.
  intros Hfl. unfold flags_octet, is_byte, gtpu_supported_flags_check in *.
  destruct (Z.eqb_spec (version (flags h)) GTPU_FLAGS_VERSION_V1) as [->|]; cbn [negb] in Hfl; [|done].
  destruct (Z.eqb_spec (protocol_type (flags h)) GTPU_FLAGS_GTP_PROTOCOL) as [->|]; cbn [negb] in Hfl; [|done].
  destruct (negb _), (f_seq_number _), (f_n_pdu _); vm_compute; split; congruence.
Qed.

Lemma header_octets_ok h sdu : header_ok h -> gtpu_supported_flags_check h = true -> bytes_ok (header_octets h sdu).
Proof.
  intros Hok Hfl. pose proof (flags_octet_ok h Hfl). pose proof Hok as (Hmt & _ & _ & _ & Hx). unfold header_octets. fold (optional_octets h).
  apply Forall_cons_2; [done|]. apply Forall_cons_2; [done|]. cbn [app].
  apply Forall_app_2; [apply be_ok|]. apply Forall_app_2; [apply be_ok|].
  apply Forall_app_2; [by apply optional_octets_ok|by apply exts_octets_ok].
Qed.

Lemma u16_add x y : u16 (u16 x + y) = u16 (x + y).
Proof. rewrite !u16_eq. apply Zplus_mod_idemp_l. Qed.

Lemma get_length_spec h pdu : gtpu_get_length h pdu = u16 (z_len (optional_octets h ++ exts_octets (ext_list h) ++ pdu)).
Proof.
  assert (Hf : forall l z, foldl (fun len ext => u16 (u16 (len + 2) + z_len (container ext))) (u16 z) l = u16 (z + z_len (exts_octets l))).
  { induction l as [|x l IH]; intros z; cbn [foldl exts_octets]; [by rewrite Z.add_0_r|].
    rewrite (u16_add z 2), (u16_add (z + 2)), IH. f_equal. unfold z_len. rewrite !length_app. cbn [length]. lia. }
  unfold gtpu_get_length, optional_octets. fold (has_optional h).
  assert (E : (if has_optional h then u16 (u16 (z_len pdu) + 4) else u16 (z_len pdu)) = u16 (z_len pdu + if has_optional h then 4 else 0)).
  { destruct (has_optional h); [apply u16_add|by rewrite Z.add_0_r]. }
  rewrite E, Hf. f_equal. unfold z_len. rewrite !length_app. destruct (has_optional h); rewrite ?length_app, ?be_length; cbn [length]; lia.
Qed.

(** What a receiver sees of the header of a PDU. *)
Definition sent_header (h : gtpu_header) (pdu : list Z) : gtpu_header :=
  GtpuHdr (Flags 1 1 (negb (bool_decide (ext_list h = []))) (f_seq_number (flags h)) false) (message_type h) (gtpu_get_length h pdu) (teid h)
    (if has_optional h then seq_number h else 0) (if has_optional h then n_pdu h else 0) (first_type (ext_list h)) (ext_list h).

Lemma flags_written h :
  gtpu_supported_flags_check h = true ->
  octet_flags (flags_octet h) = flags (sent_header h []) /\
  (flags_octet h / 32 =? 1) && (flags_octet h / 16 mod 2 =? 1) && (flags_octet h mod 2 =? 0) = true.
Proof.
  unfold gtpu_supported_flags_check, octet_flags, flags_octet, sent_header. cbn [flags]. intros Hc.
  destruct (Z.eqb_spec (version (flags h)) GTPU_FLAGS_VERSION_V1) as [->|]; cbn [negb] in Hc; [|done].
  destruct (Z.eqb_spec (protocol_type (flags h)) GTPU_FLAGS_GTP_PROTOCOL) as [->|]; cbn [negb] in Hc; [|done].
  destruct (f_n_pdu (flags h)); [done|].
  destruct (negb (bool_decide (ext_list h = []))), (f_seq_number (flags h)); split; reflexivity.
Qed.

Lemma parse_tail_written h rest :
  gtpu_supported_flags_check h = true -> header_ok h -> Forall ext_wire_ok (ext_list h) -> (length (ext_list h) <= 10)%nat ->
  parse_tail (octet_flags (flags_octet h)) (optional_octets h ++ exts_octets (ext_list h) ++ rest) =
    Some (seq_number (sent_header h []), n_pdu (sent_header h []), first_type (ext_list h), ext_list h, rest).
Proof.
  intros Hc (_ & _ & Hsn & Hnp & _) Hx Hlen. destruct (flags_written h Hc) as [-> _]. unfold parse_tail, sent_header, optional_octets.
  assert (Hpn : f_n_pdu (flags h) = false).
  { unfold gtpu_supported_flags_check in Hc. destruct (negb _); [done|]. destruct (negb _); [done|]. by destruct (f_n_pdu (flags h)). }
  cbn [flags ext_hdr f_seq_number f_n_pdu seq_number n_pdu]. assert (Eo : has_optional h = negb (bool_decide (ext_list h = [])) || f_seq_number (flags h) || false).
  { unfold has_optional. by rewrite Hpn. }
  rewrite <- Eo. destruct (has_optional h) eqn:Eho.
  - assert (Ebe : be 2 (seq_number h) = [seq_number h / 256 mod 256; seq_number h mod 256]) by done.
    rewrite Ebe. cbn [app]. assert (Esn : be_val [seq_number h / 256 mod 256; seq_number h mod 256] = seq_number h).
    { rewrite <- Ebe. apply be_val_be. exact Hsn. }
    rewrite Esn. case_bool_decide as El; cbn [negb].
    + rewrite El. done.
    + assert (Hf : gtpu_extension_header_comprehension_check (first_type (ext_list h)) = true /\ first_type (ext_list h) <> no_more_extension_headers).
      { destruct (ext_list h) as [|x l]; [done|]. apply Forall_cons in Hx as [(_ & _ & ? & ?) _]. done. }
      destruct Hf as [-> Hf]. cbn [negb]. rewrite (proj2 (Z.eqb_neq _ _)) by done.
      rewrite parse_exts_written; [done|done|done|exact Hlen|]. unfold GTPU_MAX_NUM_HEADER_EXTENSIONS. lia.
  - unfold has_optional in Eho. apply orb_false_iff in Eho as [Eho _]. apply orb_false_iff in Eho as [Eho _].
    apply negb_false_iff, bool_decide_eq_true in Eho. rewrite Eho. done.
Qed.

(** The PDU that is written, and what a receiver makes of it. *)
Lemma written_dissects h sdu :
  header_ok h -> bytes_ok sdu -> gtpu_supported_flags_check h = true -> Forall ext_wire_ok (ext_list h) ->
  (length (ext_list h) <= 10)%nat ->
  let pdu := header_octets h sdu ++ sdu in
  let p := Dissected pdu (sent_header h sdu) (z_len pdu - z_len sdu) false in
  bytes_ok pdu /\ gtpu_dissect_pdu pdu = Some (Some p) /\ gtpu_extract_msg p = Some sdu.
Proof.
  intros Hok Hsdu Hfl Hx Hlen pdu p.
  pose proof Hok as (Hmt1 & Ht & Hsn & Hnp & Hxo). pose proof (gtpu_length_range h sdu) as Hlr.
  set (tail := optional_octets h ++ exts_octets (ext_list h) ++ sdu).
  assert (Epdu : header_octets h sdu ++ sdu = flags_octet h :: message_type h :: be 2 (gtpu_get_length h sdu) ++ be 4 (teid h) ++ tail).
  { unfold header_octets, tail, optional_octets. rewrite <- !app_assoc. done. }
  assert (Hbytes : bytes_ok (header_octets h sdu ++ sdu)) by (apply Forall_app_2; [by apply header_octets_ok|done]).
  split; [done|]. unfold p, pdu. rewrite dissect_parse by done. clear p pdu.
  assert (Eparse : gtpu_parse (header_octets h sdu ++ sdu) =
    Some (Dissected (header_octets h sdu ++ sdu) (sent_header h sdu) (z_len (header_octets h sdu ++ sdu) - z_len sdu) false)).
  { set (raw := header_octets h sdu ++ sdu) in *.
    change (be 2 (gtpu_get_length h sdu)) with [gtpu_get_length h sdu / 256 mod 256; gtpu_get_length h sdu mod 256] in Epdu.
    change (be 4 (teid h)) with [teid h / 256 / 256 / 256 mod 256; teid h / 256 / 256 mod 256; teid h / 256 mod 256; teid h mod 256] in Epdu.
    cbn [app] in Epdu. rewrite Epdu at 1. cbn [gtpu_parse]. rewrite <- Epdu. unfold parse_octets.
    destruct (flags_written h Hfl) as [Efl ->]. cbn [negb].
    change [gtpu_get_length h sdu / 256 mod 256; gtpu_get_length h sdu mod 256] with (be 2 (gtpu_get_length h sdu)).
    change [teid h / 256 / 256 / 256 mod 256; teid h / 256 / 256 mod 256; teid h / 256 mod 256; teid h mod 256] with (be 4 (teid h)).
    rewrite (be_val_be 2), (be_val_be 4) by done. rewrite get_length_spec at 1. fold tail. rewrite Z.eqb_refl. cbn [negb].
    unfold tail. rewrite parse_tail_written by done. cbn [mbind option_bind]. rewrite Efl. done. }
  rewrite Eparse. split; [reflexivity|]. by apply (extract_suffix _ _ (header_octets h sdu)).
Qed.

(** C28. A GTP-U header survives the round trip: for a supported header whose extension headers fit the format, if there is
    memory for it, [gtpu_write_header] prepends it to the SDU, and dissecting the PDU gives back the header, with the length
    that belongs to it, all extension headers in order, and the SDU unchanged. *)
Theorem gtpu_header_roundtrip h sdu room :
  header_ok h -> bytes_ok sdu -> gtpu_supported_flags_check h = true -> gtpu_supported_msg_type_check h = true ->
  Forall ext_wire_ok (ext_list h) -> (length (ext_list h) <= 10)%nat -> (length (header_octets h sdu) <= room)%nat ->
  exists pdu p, gtpu_write_header room true sdu h = Some (true, pdu) /\ gtpu_dissect_pdu pdu = Some (Some p) /\
    dp_buf p = pdu /\ dp_hdr p = sent_header h sdu /\ gtpu_extract_msg p = Some sdu.
Proof.
  intros Hok Hsdu Hfl Hmt Hx Hlen Hroom. rewrite write_header_spec, Hfl, Hmt, (proj2 (Nat.leb_le _ _)) by done. cbn [andb].
  destruct (written_dissects h sdu) as (_ & Ed & Ex); [done..|]. eexists _, _. split; [reflexivity|]. split; [exact Ed|]. done.
Qed.

Definition sample_header : gtpu_header :=
  GtpuHdr (Flags 1 1 true true false) GTPU_MSG_DATA_PDU 0 0x12345678 7 0 pdu_session_container
    [ExtHdr pdu_session_container [0; 5]; ExtHdr pdcp_pdu_number [1; 2]].

Lemma gtpu_header_roundtrip_witness :
  exists pdu p, gtpu_write_header 30 true [1; 2; 3] sample_header = Some (true, pdu) /\ gtpu_dissect_pdu pdu = Some (Some p) /\
    dp_buf p = pdu /\ dp_hdr p = sent_header sample_header [1; 2; 3] /\ gtpu_extract_msg p = Some [1; 2; 3].
Proof.
  apply gtpu_header_roundtrip; [|octets_ok|reflexivity|reflexivity| |cbn; lia|cbn; lia].
  - unfold header_ok, ext_ok, sample_header. cbn [message_type teid seq_number n_pdu ext_list container extension_header_type]. octets_ok.
  - unfold ext_wire_ok, ext_ok, sample_header. cbn [ext_list container extension_header_type]. octets_ok.
Defined.
