(* ===== verification/GtpuTunnels.v ===== *)
(** * GTP-U tunnels ([lib/gtpu/gtpu_tunnel_*])

    The entities between a bearer and the demultiplexer: [gtpu_tunnel_base_rx] dissects a PDU and hands it to the handler of
    the kind of tunnel. F1-U tunnels (NR-U) carry PDCP PDUs with NR-U frames between CU-UP and DU, Xn-U tunnels PDCP SDUs
    with their sequence numbers between nodes, NG-U tunnels packets with their QoS flow; the receiving side of NG-U has a
    state and a file of its own. What is sent is the result, [None] inside of it where nothing is sent. *)
From S2P Require Import Prelude BitCodec BitFields BitIo Nru GtpuPdu GtpuPduCorrect.

Inductive gtpu_logical_interface := f1u_cu_up | f1u_du | ngu | xnu | lif_invalid.

(** The memory there is: for the container of an extension header, for the header, whether the header can be prepended, a
    buffer copied and a chain created. *)
Record gtpu_memory := Mem { mm_ext : nat; mm_hdr : nat; mm_prepend : bool; mm_copy : bool; mm_chain : bool }.

(** The header the transmitters fill in; its length is computed when it is written. *)
Definition gtpu_data_header (peer_teid : Z) (next : Z) (exts : list gtpu_extension_header) (len : Z) : gtpu_header :=
  GtpuHdr (Flags GTPU_FLAGS_VERSION_V1 GTPU_FLAGS_GTP_PROTOCOL true false false) GTPU_MSG_DATA_PDU len peer_teid 0 0 next exts.

(** Writing the header and sending the PDU *)
Definition write_and_send (mem : gtpu_memory) (buf : list Z) (hdr : gtpu_header) : option (option (list Z)) :=
  '(write_ok, buf) ← gtpu_write_header (mm_hdr mem) (mm_prepend mem) buf hdr;
  Some (if write_ok : bool then Some buf else None).

(** [gtpu_tunnel_base_rx::handle_pdu], up to the call of the handler of the subclass *)
Definition gtpu_base_handle_pdu (test_mode : bool) (buf : list Z) : option (option gtpu_dissected_pdu) :=
  if test_mode then Some (Some (Dissected buf gtpu_header_init 0 true)) else gtpu_dissect_pdu buf.

(** ** F1-U

    The messages; no code fills the assistance information of an uplink message, which is left out. *)
Record nru_dl_message := DlMessage { dm_t_pdu : list Z; dm_dl_user_data : nru_dl_user_data }.
Record nru_ul_message := UlMessage { um_t_pdu : option (list Z); um_data_delivery_status : option nru_dl_data_delivery_status }.

Inductive nru_message := NruDl (m : nru_dl_message) | NruUl (m : nru_ul_message).

(** [gtpu_tunnel_nru_tx_impl::handle_sdu] for a downlink message *)
Definition nru_tx_handle_dl (mem : gtpu_memory) (peer_teid : Z) (m : nru_dl_message) : option (option (list Z)) :=
  ext ← nru_pack_dl_user_data (mm_ext mem) (dm_dl_user_data m);
  match ext with
  | None => Some None
  | Some ext_buf => write_and_send mem (dm_t_pdu m) (gtpu_data_header peer_teid nr_ran_container [ExtHdr nr_ran_container ext_buf] 0)
  end.

(** The extension headers of an uplink message; the inner [None] is a container that could not be packed. *)
Definition nru_ul_extensions (mem : gtpu_memory) (m : nru_ul_message) : option (option (list gtpu_extension_header)) :=
  match um_data_delivery_status m with
  | None => Some (Some [])
  | Some dds =>
      ext ← nru_pack_ddds (mm_ext mem) dds;
      Some (match ext with Some ext_buf => Some [ExtHdr nr_ran_container ext_buf] | None => None end)
  end.

(** [gtpu_tunnel_nru_tx_impl::handle_sdu] for an uplink message *)
Definition nru_tx_handle_ul (mem : gtpu_memory) (peer_teid : Z) (m : nru_ul_message) : option (option (list Z)) :=
  exts ← nru_ul_extensions mem m;
  match exts with
  | None => Some None
  | Some exts =>
      let next := match exts with [] => no_more_extension_headers | _ => nr_ran_container end in
      match um_t_pdu m with
      | Some t_pdu => if negb (mm_copy mem) then Some None else write_and_send mem t_pdu (gtpu_data_header peer_teid next exts 0)
      | None => write_and_send mem [] (gtpu_data_header peer_teid next exts 0)
      end
  end.

(** The first NR RAN container *)
Fixpoint find_container (type : Z) (l : list gtpu_extension_header) : option (list Z) :=
  match l with
  | [] => None
  | x :: l => if extension_header_type x =? type then Some (container x) else find_container type l
  end.

(** [gtpu_tunnel_nru_rx_impl::handle_pdu]; [chain_ok] tells whether a buffer chain can be created. *)
Definition nru_rx_handle_pdu (lif : gtpu_logical_interface) (chain_ok : bool) (pdu : gtpu_dissected_pdu) : option (option nru_message) :=
  let nr_ran := find_container nr_ran_container (ext_list (dp_hdr pdu)) in
  match lif with
  | f1u_du =>
      match nr_ran with
      | None => Some None
      | Some c =>
          dud ← nru_unpack_dl_user_data c;
          match dud with
          | None => Some None
          | Some dud => t_pdu ← gtpu_extract_msg pdu; Some (Some (NruDl (DlMessage t_pdu dud)))
          end
      end
  | f1u_cu_up =>
      dds ← match nr_ran with
            | None => Some (Some None)
            | Some c => d ← nru_unpack_ddds c; Some (match d with Some d => Some (Some d) | None => None end)
            end;
      match dds with
      | None => Some None
      | Some dds =>
          buf ← gtpu_extract_msg pdu;
          if negb chain_ok then Some None else
          Some (Some (NruUl (UlMessage (match buf with [] => None | _ => Some buf end) dds)))
      end
  | _ => Some None
  end.

Definition nru_rx_handle (lif : gtpu_logical_interface) (chain_ok : bool) (buf : list Z) : option (option nru_message) :=
  p ← gtpu_base_handle_pdu false buf;
  match p with None => Some None | Some p => nru_rx_handle_pdu lif chain_ok p end.

(** ** Xn-U *)
Inductive gtpu_pdcp_sn_size := sn_12bits | sn_18bits.
Definition is_long (s : gtpu_pdcp_sn_size) : bool := match s with sn_12bits => false | sn_18bits => true end.

(** [gtpu_tunnel_pdcp_tx_impl]: [cfg_pdcp_pdu_number_extension_type] and [handle_sdu] *)
Definition pdcp_number_extension_type (s : gtpu_pdcp_sn_size) : Z :=
  match s with sn_12bits => GtpuPdu.pdcp_pdu_number | sn_18bits => long_pdcp_pdu_number end.

Definition pdcp_tx_handle_sdu (stopped : bool) (mem : gtpu_memory) (peer_teid : Z) (s : gtpu_pdcp_sn_size) (buf : list Z)
    (pdcp_pdu_number : Z) : option (option (list Z)) :=
  if stopped then Some None else
  let type := pdcp_number_extension_type s in
  ext ← (if type =? GtpuPdu.pdcp_pdu_number then pack_pdcp_pdu_number (mm_ext mem) pdcp_pdu_number
         else pack_long_pdcp_pdu_number (mm_ext mem) pdcp_pdu_number);
  match ext with
  | None => Some None
  | Some ext_buf => write_and_send mem buf (gtpu_data_header peer_teid type [ExtHdr type ext_buf] (u16 (z_len buf + 4 + 4)))
  end.

(** The loop over the extension headers of [gtpu_tunnel_pdcp_rx_impl::handle_pdu]: the first number of the configured size *)
Fixpoint find_pdcp_number (s : gtpu_pdcp_sn_size) (l : list gtpu_extension_header) (found : option Z) : option (option Z) :=
  match l with
  | [] => Some found
  | x :: l =>
      let type := extension_header_type x in
      let read unpack := match found with
                         | Some n => find_pdcp_number s l found
                         | None => n ← unpack (container x); find_pdcp_number s l n
                         end in
      if type =? GtpuPdu.pdcp_pdu_number then
        match s with sn_12bits => read unpack_pdcp_pdu_number | sn_18bits => find_pdcp_number s l found end
      else if (type =? long_pdcp_pdu_number) || (type =? long_pdcp_pdu_number_legacy) then
        match s with sn_18bits => read unpack_long_pdcp_pdu_number | sn_12bits => find_pdcp_number s l found end
      else find_pdcp_number s l found
  end.

(** [gtpu_tunnel_pdcp_rx_impl::handle_pdu]: the SDU and its PDCP number *)
Definition pdcp_rx_handle_pdu (stopped : bool) (s : gtpu_pdcp_sn_size) (pdu : gtpu_dissected_pdu) : option (option (list Z * Z)) :=
  if stopped then Some None else
  n ← find_pdcp_number s (ext_list (dp_hdr pdu)) None;
  match n with
  | None => Some None
  | Some n => rx_sdu ← gtpu_extract_msg pdu; Some (Some (rx_sdu, n))
  end.

Definition pdcp_rx_handle (stopped : bool) (s : gtpu_pdcp_sn_size) (buf : list Z) : option (option (list Z * Z)) :=
  p ← gtpu_base_handle_pdu false buf;
  match p with None => Some None | Some p => pdcp_rx_handle_pdu stopped s p end.

(** ** NG-U, transmitting side *)

(** The PDU session container that [gtpu_tunnel_psup_tx_impl::handle_sdu] packs by hand *)
Definition psup_tx_container (room : nat) (qfi : Z) : option (bool * bit_encoder) :=
  s ← pack_and 1 4 (true, bit_encoder_new room);
  s ← pack_and 0 4 s;
  s ← pack_and 0 1 s;
  pack_and qfi 7 s.

Definition psup_tx_handle_sdu (stopped : bool) (mem : gtpu_memory) (peer_teid : Z) (buf : list Z) (qfi : Z) : option (option (list Z)) :=
  if stopped then Some None else
  s ← psup_tx_container (mm_ext mem) qfi;
  if negb s.1 then Some None else
  write_and_send mem buf (gtpu_data_header peer_teid pdu_session_container [ExtHdr pdu_session_container (enc_bytes s.2)] (u16 (z_len buf + 4 + 4))).

(** ** Tunnels from end to end

    What one end of an F1-U or Xn-U tunnel sends, the other end delivers; the receiving ends survive any octets. *)
(** Memory that is enough for one extension header. *)
Definition enough_memory (mem : gtpu_memory) : Prop :=
  (250 <= mm_ext mem)%nat /\ (264 <= mm_hdr mem)%nat /\ mm_prepend mem = true /\ mm_copy mem = true.

Definition is_teid (t : Z) : Prop := 0 <= t < 2 ^ 32.

(** An extension header made of a container. *)
Lemma container_wire_ok type c :
  container_ok c -> is_byte type -> type <> no_more_extension_headers -> gtpu_extension_header_comprehension_check type = true ->
  ext_wire_ok (ExtHdr type c).
Proof. intros (Hb & Hm & Hl) Ht Hne Hc. by split_and!. Qed.

Lemma header_octets_length teid next exts len buf :
  Forall ext_wire_ok exts -> (length exts <= 1)%nat -> (length (header_octets (gtpu_data_header teid next exts len) buf) <= 264)%nat.
Proof.
  intros Hx Hl. unfold header_octets. rewrite !length_app, !be_length. cbn [length].
  assert (Ho : (length (if has_optional (gtpu_data_header teid next exts len) then be 2 (seq_number (gtpu_data_header teid next exts len)) ++
    [n_pdu (gtpu_data_header teid next exts len)] ++ [first_type (ext_list (gtpu_data_header teid next exts len))] else []) <= 4)%nat).
  { destruct (has_optional _); cbn; lia. }
  assert (He : (length (exts_octets exts) <= 252)%nat).
  { destruct exts as [|x [|y l]]; cbn [length] in Hl; [cbn; lia| |lia]. apply Forall_cons in Hx as [(_ & Hc & _) _].
    cbn [exts_octets]. rewrite !length_app. unfold z_len in Hc. cbn [length]. lia. }
  cbn [ext_list gtpu_data_header] in *. lia.
Qed.

(** Every PDU that is sent is dissected into its extension headers and its payload. *)
Lemma sent_dissects mem peer next exts len buf :
  is_teid peer -> bytes_ok buf -> Forall ext_wire_ok exts -> (length exts <= 1)%nat ->
  exists r, write_and_send mem buf (gtpu_data_header peer next exts len) = Some r /\ (enough_memory mem -> is_Some r) /\
    match r with
    | None => True
    | Some pdu => exists p, bytes_ok pdu /\ gtpu_dissect_pdu pdu = Some (Some p) /\ gtpu_extract_msg p = Some buf /\
        ext_list (dp_hdr p) = exts /\ teid (dp_hdr p) = peer /\ f_seq_number (flags (dp_hdr p)) = false /\ dp_test_mode p = false
    end.
Proof.
  intros Ht Hb Hx Hl. set (h := gtpu_data_header peer next exts len).
  assert (Hok : header_ok h).
  { split; [done|]. split; [exact Ht|]. split; [cbn; lia|]. split; [done|]. eapply Forall_impl; [exact Hx|]. by intros x [? _]. }
  unfold write_and_send. rewrite write_header_spec by done. cbn [gtpu_supported_flags_check gtpu_supported_msg_type_check h gtpu_data_header flags version
    protocol_type f_n_pdu message_type]. cbn [Z.eqb negb andb GTPU_FLAGS_VERSION_V1 GTPU_FLAGS_GTP_PROTOCOL GTPU_MSG_DATA_PDU Pos.eqb].
  fold h. pose proof (header_octets_length peer next exts len buf Hx Hl) as Hsz. fold h in Hsz.
  destruct (Nat.leb_spec (length (header_octets h buf)) (mm_hdr mem)) as [Hfit|Hshort]; cbn [andb mbind option_bind].
  - destruct (mm_prepend mem) eqn:Ep; cbn [mbind option_bind].
    + eexists. split; [reflexivity|]. split; [by eexists|].
      destruct (written_dissects h buf) as (Hby & Ed & Ex); [done..|cbn; lia|]. eexists. split; [exact Hby|]. split; [exact Ed|]. split; [exact Ex|]. done.
    + eexists. split; [reflexivity|]. split; [|done]. intros (_ & _ & E & _). congruence.
  - eexists. split; [reflexivity|]. split; [|done]. intros (_ & E & _). lia.
Qed.

(** *** F1-U *)

(** The message a transmitter is given: by the CU-UP (downlink) or by the DU (uplink). *)
Definition nru_tx_handle (mem : gtpu_memory) (peer : Z) (m : nru_message) : option (option (list Z)) :=
  match m with NruDl m => nru_tx_handle_dl mem peer m | NruUl m => nru_tx_handle_ul mem peer m end.

Definition nru_peer (m : nru_message) : gtpu_logical_interface := match m with NruDl _ => f1u_du | NruUl _ => f1u_cu_up end.

(** What the other end delivers: an empty payload is none, and see [dud_read]. *)
Definition nru_read (m : nru_message) : nru_message :=
  match m with
  | NruDl m => NruDl (DlMessage (dm_t_pdu m) (dud_read (dm_dl_user_data m)))
  | NruUl m => NruUl (UlMessage (match um_t_pdu m with Some [] => None | t => t end) (um_data_delivery_status m))
  end.

Definition nru_message_ok (m : nru_message) : Prop :=
  match m with
  | NruDl m => bytes_ok (dm_t_pdu m) /\ dud_ok (dm_dl_user_data m)
  | NruUl m => bytes_ok (default [] (um_t_pdu m)) /\ from_option ddds_ok True (um_data_delivery_status m)
  end.

Lemma nr_ran_wire_ok c : container_ok c -> ext_wire_ok (ExtHdr nr_ran_container c).
Proof. intros Hc. by apply container_wire_ok. Qed.

(** The container of any instance of the interface. *)
Lemma codec_sent `{ContainerLaws A} mem (x : A) : cc_ok x ->
  exists r, cc_pack (mm_ext mem) x = Some r /\ (enough_memory mem -> is_Some r) /\
    forall c, r = Some c -> ext_wire_ok (ExtHdr nr_ran_container c) /\ cc_unpack c = Some (Some (cc_read x)).
Proof.
  intros Hx. destruct (cc_pack_spec (mm_ext mem) x Hx) as (r & E & Hr). exists r. split; [done|]. split.
  - intros (Hm & _). destruct r as [c|]; [by eexists|]. pose proof (cc_size_bound x Hx). lia.
  - intros c ->. destruct Hr as (Hc & _ & Hu). split; [by apply nr_ran_wire_ok|done].
Qed.

(** What a tunnel promises: sending never fails an assertion and succeeds with enough memory; [reads] holds of what is sent. *)
Definition sends (mem : gtpu_memory) (o : option (option (list Z))) (P : list Z -> Prop) : Prop :=
  exists r, o = Some r /\ (enough_memory mem -> is_Some r) /\ forall pdu, r = Some pdu -> P pdu.

Lemma sends_none mem P : ~ enough_memory mem -> sends mem (Some None) P.
Proof. intros Hm. by exists None. Qed.

Lemma sends_weaken mem o P Q : sends mem o P -> (forall pdu, P pdu -> Q pdu) -> sends mem o Q.
Proof. intros (r & E & Hm & Hp) HQ. exists r. split; [done|]. split; [done|]. intros pdu Er. by apply HQ, Hp. Qed.

(** A PDU with these extension headers and this payload. *)
Definition carries (exts : list gtpu_extension_header) (buf : list Z) (peer : Z) (pdu : list Z) : Prop :=
  exists p, bytes_ok pdu /\ gtpu_dissect_pdu pdu = Some (Some p) /\ gtpu_extract_msg p = Some buf /\ ext_list (dp_hdr p) = exts /\
    teid (dp_hdr p) = peer /\ f_seq_number (flags (dp_hdr p)) = false /\ dp_test_mode p = false.

Lemma sends_data mem peer next exts len buf :
  is_teid peer -> bytes_ok buf -> Forall ext_wire_ok exts -> (length exts <= 1)%nat ->
  sends mem (write_and_send mem buf (gtpu_data_header peer next exts len)) (carries exts buf peer).
Proof.
  intros Ht Hb Hx Hl. destruct (sent_dissects mem peer next exts len buf Ht Hb Hx Hl) as (r & E & Hm & Hr).
  exists r. split; [done|]. split; [done|]. by intros pdu ->.
Qed.

(** The TEID by which the peer's demultiplexer routes it. *)
Lemma carries_teid exts buf peer pdu : carries exts buf peer pdu -> gtpu_read_teid pdu = Some (Some peer).
Proof.
  intros (p & Hb & Ed & _ & _ & Ht & _). destruct (dissect_safe pdu Hb) as (r & E & Hr). rewrite Ed in E. injection E as <-.
  destruct Hr as (_ & _ & _ & _ & E). by rewrite E, Ht.
Qed.

Lemma nru_dl_carried c m peer pdu chain :
  nru_unpack_dl_user_data c = Some (Some (dud_read (dm_dl_user_data m))) ->
  carries [ExtHdr nr_ran_container c] (dm_t_pdu m) peer pdu ->
  nru_rx_handle f1u_du chain pdu = Some (Some (nru_read (NruDl m))).
Proof.
  intros Hu (p & _ & Ed & Ex & El & _). unfold nru_rx_handle, gtpu_base_handle_pdu. rewrite Ed. cbn [mbind option_bind].
  unfold nru_rx_handle_pdu. rewrite El. cbn [find_container extension_header_type container]. rewrite Z.eqb_refl, Hu. cbn [mbind option_bind].
  by rewrite Ex.
Qed.

Lemma nru_ul_carried exts m peer pdu buf :
  match um_data_delivery_status m with
  | None => exts = []
  | Some d => exists c, exts = [ExtHdr nr_ran_container c] /\ nru_unpack_ddds c = Some (Some d)
  end ->
  buf = default [] (um_t_pdu m) -> carries exts buf peer pdu ->
  nru_rx_handle f1u_cu_up true pdu = Some (Some (nru_read (NruUl m))).
Proof.
  intros Hd -> (p & _ & Ed & Ex & El & _). unfold nru_rx_handle, gtpu_base_handle_pdu. rewrite Ed. cbn [mbind option_bind].
  unfold nru_rx_handle_pdu. rewrite El. destruct m as [t_pdu dds]. cbn [um_data_delivery_status um_t_pdu nru_read] in *.
  destruct dds as [d|].
  - destruct Hd as (c & -> & Hu). cbn [find_container extension_header_type container]. rewrite Z.eqb_refl, Hu. cbn [mbind option_bind].
    rewrite Ex. by destruct t_pdu as [[|]|].
  - subst exts. cbn [find_container mbind option_bind]. rewrite Ex. by destruct t_pdu as [[|]|].
Qed.

Lemma f1u_link mem peer m :
  is_teid peer -> nru_message_ok m ->
  sends mem (nru_tx_handle mem peer m) (fun pdu =>
    gtpu_read_teid pdu = Some (Some peer) /\ nru_rx_handle (nru_peer m) true pdu = Some (Some (nru_read m))).
Proof.
  intros Ht Hm. destruct m as [m|m].
  - destruct Hm as [Hb Hd]. pose proof (codec_sent mem (dm_dl_user_data m)) as Hs. destruct (Hs Hd) as (r & E & Hen & Hr).
    cbn [nru_tx_handle]. unfold nru_tx_handle_dl. change (nru_pack_dl_user_data (mm_ext mem) (dm_dl_user_data m)) with (cc_pack (mm_ext mem) (dm_dl_user_data m)).
    rewrite E. cbn [mbind option_bind]. destruct r as [c|]; [|apply sends_none; intros H; destruct (Hen H); done].
    destruct (Hr c eq_refl) as [Hx Hu]. eapply sends_weaken; [apply sends_data; [done|done|by apply Forall_singleton|done]|].
    intros pdu Hc. split; [by eapply carries_teid|by eapply nru_dl_carried].
  - destruct Hm as [Hb Hd]. cbn [nru_tx_handle]. unfold nru_tx_handle_ul, nru_ul_extensions.
    assert (Hsend : forall exts, Forall ext_wire_ok exts -> (length exts <= 1)%nat ->
      match um_data_delivery_status m with
      | None => exts = []
      | Some d => exists c, exts = [ExtHdr nr_ran_container c] /\ nru_unpack_ddds c = Some (Some d)
      end -> forall next,
      sends mem (match um_t_pdu m with
                 | Some t_pdu => if negb (mm_copy mem) then Some None else write_and_send mem t_pdu (gtpu_data_header peer next exts 0)
                 | None => write_and_send mem [] (gtpu_data_header peer next exts 0)
                 end) (fun pdu => gtpu_read_teid pdu = Some (Some peer) /\ nru_rx_handle f1u_cu_up true pdu = Some (Some (nru_read (NruUl m))))).
    { intros exts Hx Hl Hdd next. destruct (um_t_pdu m) as [t_pdu|] eqn:Et; rewrite ?Et in Hb; cbn in Hb.
      - destruct (mm_copy mem) eqn:Ec; cbn [negb]; [|apply sends_none; intros (_ & _ & _ & ?); congruence].
        eapply sends_weaken; [by apply sends_data|]. intros pdu Hc. split; [by eapply carries_teid|].
        eapply nru_ul_carried; [exact Hdd| |exact Hc]. by rewrite Et.
      - eapply sends_weaken; [by apply sends_data|]. intros pdu Hc. split; [by eapply carries_teid|].
        eapply nru_ul_carried; [exact Hdd| |exact Hc]. by rewrite Et. }
    destruct (um_data_delivery_status m) as [d|].
    + pose proof (codec_sent mem d) as Hs. destruct (Hs Hd) as (r & E & Hen & Hr). change (nru_pack_ddds (mm_ext mem) d) with (cc_pack (mm_ext mem) d).
      rewrite E. cbn [mbind option_bind]. destruct r as [c|]; [|apply sends_none; intros H; destruct (Hen H); done].
      destruct (Hr c eq_refl) as [Hx Hu]. apply Hsend; [by apply Forall_singleton|done|]. by exists c.
    + cbn [mbind option_bind]. apply Hsend; [apply Forall_nil_2|cbn; lia|done].
Qed.

(** F1-U from end to end: whatever memory there is, the transmitter of either end does not fail an assertion; with enough
    memory it sends a PDU; and the PDU it sends is routed to the peer's tunnel and delivered there as the message that was
    handed over: the PDCP PDU unchanged, with its NR-U frame, field by field. *)
Theorem f1u_link_correct mem peer m :
  is_teid peer -> nru_message_ok m ->
  sends mem (nru_tx_handle mem peer m) (fun pdu =>
    gtpu_read_teid pdu = Some (Some peer) /\ nru_rx_handle (nru_peer m) true pdu = Some (Some (nru_read m))).
Proof. apply f1u_link. Qed.

Definition sample_memory : gtpu_memory := Mem 250 264 true true true.
Definition sample_dud : nru_dl_user_data :=
  DlUserData true false true false false true 0x010203 (Some 7) (Some [DiscardBlock 9 2; DiscardBlock 20 1]) 5.

Lemma f1u_link_correct_witness :
  sends sample_memory (nru_tx_handle sample_memory 7 (NruDl (DlMessage [1; 2; 3] sample_dud))) (fun pdu =>
    gtpu_read_teid pdu = Some (Some 7) /\
    nru_rx_handle f1u_du true pdu = Some (Some (nru_read (NruDl (DlMessage [1; 2; 3] sample_dud))))).
Proof.
  apply (f1u_link_correct sample_memory 7 (NruDl (DlMessage [1; 2; 3] sample_dud))); [unfold is_teid; lia|].
  split; [octets_ok|]. unfold dud_ok, is_24, block_ok, sample_dud, is_24. octets_ok.
Defined.

(** *** Xn-U *)

(** Xn-U from end to end: with enough memory, and a PDCP number that fits the configured size, the transmitter sends a PDU,
    and the receiver configured with the same size delivers the SDU under the same PDCP number. A number that does not fit is
    not sent. *)
Theorem xnu_link_correct mem peer s buf n :
  is_teid peer -> bytes_ok buf -> 0 <= n ->
  exists r, pdcp_tx_handle_sdu false mem peer s buf n = Some r /\
    (enough_memory mem -> n <= sn_limit (is_long s) -> is_Some r) /\
    match r with
    | None => True
    | Some pdu => n <= sn_limit (is_long s) /\ gtpu_read_teid pdu = Some (Some peer) /\ pdcp_rx_handle false s pdu = Some (Some (buf, n))
    end.
Proof.
  intros Ht Hb Hn. unfold pdcp_tx_handle_sdu. set (type := pdcp_number_extension_type s).
  assert (E1 : (if type =? GtpuPdu.pdcp_pdu_number then pack_pdcp_pdu_number (mm_ext mem) n else pack_long_pdcp_pdu_number (mm_ext mem) n)
    = pack_sn (is_long s) (mm_ext mem) n) by by destruct s.
  rewrite E1. destruct (sn_roundtrip (is_long s) (mm_ext mem) n Hn) as (r & -> & Hr). cbn [mbind option_bind]. destruct r as [c|].
  2: { exists None. split; [done|]. split; [|done]. intros (Hm & _) Hl. destruct Hr as [|Hr]; [lia|]. destruct s; unfold sn_size in Hr; cbn in Hr; lia. }
  destruct Hr as (Hl & Hc & _ & Hu).
  assert (Hx : ext_wire_ok (ExtHdr type c)) by (apply container_wire_ok; by destruct s).
  destruct (sends_data mem peer type [ExtHdr type c] (u16 (z_len buf + 4 + 4)) buf Ht Hb) as (r & -> & Hen & Hsent);
    [by apply Forall_singleton|done|]. exists r. split; [done|]. split; [auto|]. destruct r as [pdu|]; [|done].
  pose proof (Hsent pdu eq_refl) as Hcar. split; [done|]. split; [by eapply carries_teid|].
  destruct Hcar as (p & _ & Ed & Ex & El & _). unfold pdcp_rx_handle, gtpu_base_handle_pdu. rewrite Ed. cbn [mbind option_bind].
  unfold pdcp_rx_handle_pdu. rewrite El. cbn [find_pdcp_number extension_header_type container].
  assert (Ef : find_pdcp_number s [ExtHdr type c] None = Some (Some n)).
  { cbn [find_pdcp_number extension_header_type container]. destruct s; cbn in Hu |- *; by rewrite Hu. }
  cbn [find_pdcp_number extension_header_type container] in Ef. rewrite Ef. cbn [mbind option_bind]. by rewrite Ex.
Qed.

Lemma xnu_link_correct_witness :
  exists r, pdcp_tx_handle_sdu false sample_memory 9 sn_18bits [5; 6] 0x3abcd = Some r /\
    (enough_memory sample_memory -> 0x3abcd <= sn_limit true -> is_Some r) /\
    match r with
    | None => True
    | Some pdu => 0x3abcd <= sn_limit true /\ gtpu_read_teid pdu = Some (Some 9) /\
                  pdcp_rx_handle false sn_18bits pdu = Some (Some ([5; 6], 0x3abcd))
    end.
Proof. apply (xnu_link_correct sample_memory 9 sn_18bits [5; 6] 0x3abcd); [unfold is_teid; lia|octets_ok|lia]. Defined.

(** *** NG-U, transmitting side *)
Lemma psup_container_spec room qfi : 0 <= qfi < 128 ->
  runs_to (psup_tx_container room qfi) (fun s => s.1 = bool_decide (2 <= Z.of_nat room) /\ (s.1 = true -> enc_bytes s.2 = [16; qfi])).
Proof.
  intros Hq. unfold psup_tx_container. pose proof (packed_start [] room ltac:(constructor)) as Hp. do 3 pack_step Hp.
  destruct (pack_run _ _ qfi 7 _ Hp) as (s' & E & Hp'); [lia|norm_pow; lia|]. exists s'. split; [exact E|].
  assert (Hs : same [(1, 4); (0, 4); (0, 1); (qfi, 7)] [16; qfi]).
  { split; [repeat (apply Forall_cons_2; [split; cbn [fst snd]; norm_pow; lia|]); apply Forall_nil_2|].
    split; [repeat (apply Forall_cons_2; [unfold is_byte; lia|]); apply Forall_nil_2|]. split; [done|].
    unfold fields_val, be_val. cbn [foldl fst snd]. norm_pow. lia. }
  destruct (packed_result _ _ _ _ Hp' Hs) as [H1 H2]. split; [|done]. rewrite H1. apply bool_decide_ext. cbn. lia.
Qed.

(** The NG-U transmitter sends the SDU unchanged, to the TEID of the peer, with one PDU session container that holds the
    uplink frame type and the QoS flow; with enough memory it does send. *)
Theorem psup_tx_exact mem peer buf qfi :
  is_teid peer -> bytes_ok buf -> 0 <= qfi < 64 ->
  sends mem (psup_tx_handle_sdu false mem peer buf qfi) (fun pdu =>
    carries [ExtHdr pdu_session_container [16; qfi]] buf peer pdu /\ gtpu_read_teid pdu = Some (Some peer)).
Proof.
  intros Ht Hb Hq. unfold psup_tx_handle_sdu. destruct (psup_container_spec (mm_ext mem) qfi ltac:(lia)) as (s & -> & Hok & Heq).
  cbn [mbind option_bind]. destruct (s.1); cbn [negb].
  - rewrite Heq by done. assert (Hx : ext_wire_ok (ExtHdr pdu_session_container [16; qfi])).
    { apply container_wire_ok; [|done..]. split_and!; [|done|done]. repeat (apply Forall_cons_2; [unfold is_byte; lia|]); apply Forall_nil_2. }
    eapply sends_weaken; [apply sends_data; [done|done|by apply Forall_singleton|done]|]. intros pdu Hc. split; [done|by eapply carries_teid].
  - apply sends_none. intros (Hm & _). symmetry in Hok. apply bool_decide_eq_false in Hok. lia.
Qed.

Lemma psup_tx_exact_witness :
  sends sample_memory (psup_tx_handle_sdu false sample_memory 3 [1; 2] 9) (fun pdu =>
    carries [ExtHdr pdu_session_container [16; 9]] [1; 2] 3 pdu /\ gtpu_read_teid pdu = Some (Some 3)).
Proof. apply (psup_tx_exact sample_memory 3 [1; 2] 9); [unfold is_teid; lia|octets_ok|lia]. Defined.

(** *** Any octets *)
Lemma parse_exts_containers fuel : forall type acc l exts r,
  bytes_ok l -> Forall (fun x => bytes_ok (container x)) acc -> parse_exts fuel type acc l = Some (exts, r) ->
  Forall (fun x => bytes_ok (container x)) exts.
Proof.
  induction fuel as [|fuel IH]; intros type acc l exts r Hl Ha E; cbn [parse_exts] in E; [done|].
  destruct (gtpu_extension_header_comprehension_check type); cbn [negb] in E; [|done].
  pose proof (parse_ext_ok l Hl) as Hok. destruct (parse_ext l) as [[c next] m]. destruct Hok as (Hc & _ & Hm & _).
  destruct (GTPU_MAX_NUM_HEADER_EXTENSIONS <=? length acc)%nat; [done|].
  assert (Ha' : Forall (fun x => bytes_ok (container x)) (acc ++ [ExtHdr type c])) by (apply Forall_app_2; [done|by apply Forall_singleton]).
  destruct (next =? no_more_extension_headers); [by injection E as <- <-|by eapply IH].
Qed.

(** What a receiver may rely on. *)
Definition dissected_ok (p : gtpu_dissected_pdu) : Prop :=
  bytes_ok (dp_buf p) /\ Forall (fun x => bytes_ok (container x)) (ext_list (dp_hdr p)) /\
  (exists msg, gtpu_extract_msg p = Some msg /\ bytes_ok msg) /\ 0 <= seq_number (dp_hdr p) < 65536.

Lemma dissect_ok raw : bytes_ok raw -> exists r, gtpu_dissect_pdu raw = Some r /\ from_option dissected_ok True r.
Proof.
  intros Hraw. destruct (dissect_safe raw Hraw) as (r & E & Hr). exists r. split; [done|]. destruct r as [p|]; [|done].
  destruct Hr as (Eb & _ & _ & Ex & _). split; [by rewrite Eb|]. clear Eb.
  assert (Hs : Forall (fun x => bytes_ok (container x)) (ext_list (dp_hdr p)) /\ 0 <= seq_number (dp_hdr p) < 65536).
  2: { destruct Hs as [Hc Hs]. split; [done|]. split; [eexists; split; [exact Ex|by apply Forall_drop]|done]. }
  clear Ex. rewrite dissect_parse in E by done. injection E as E.
  destruct raw as [|b [|mt [|l1 [|l0 [|t3 [|t2 [|t1 [|t0 l]]]]]]]]; try done. cbn [gtpu_parse] in E. unfold parse_octets in E.
  destruct (negb (_ && _ && _)); [done|]. destruct (negb _); [done|].
  repeat match goal with H : Forall _ (_ :: _) |- _ => apply Forall_cons in H as [? H] end.
  unfold parse_tail in E. destruct (_ || _ || _); [|injection E as <-; cbn; split; [constructor|lia]].
  destruct l as [|s1 [|s0 [|np [|type l]]]]; try done.
  repeat match goal with H : Forall _ (_ :: _) |- _ => apply Forall_cons in H as [? H] end.
  assert (Hsn : 0 <= be_val [s1; s0] < 65536) by (unfold be_val, is_byte in *; cbn [foldl]; lia).
  destruct (negb _); [done|]. destruct (ext_hdr _); [|injection E as <-; split; [constructor|exact Hsn]].
  destruct (type =? _); [done|]. destruct (parse_exts _ type [] l) as [[exts m]|] eqn:Ep; [|done]. injection E as <-. cbn [dp_hdr ext_list seq_number].
  split; [|exact Hsn]. eapply parse_exts_containers; [exact Hraw| |exact Ep]. constructor.
Qed.

Lemma base_handle_ok test_mode buf :
  bytes_ok buf -> exists r, gtpu_base_handle_pdu test_mode buf = Some r /\ from_option dissected_ok True r.
Proof.
  intros Hb. destruct test_mode; [|by apply dissect_ok]. eexists. split; [reflexivity|]. split; [done|]. split; [constructor|].
  split; [|cbn; lia]. exists buf. split; [|done]. unfold gtpu_extract_msg, z_len. cbn [dp_buf dp_hdr_len]. by rewrite (proj2 (Z.ltb_ge _ _)) by lia.
Qed.

Lemma find_container_ok type l c : Forall (fun x => bytes_ok (container x)) l -> find_container type l = Some c -> bytes_ok c.
Proof.
  induction l as [|x l IH]; intros Hl E; [done|]. apply Forall_cons in Hl as [Hx Hl]. cbn in E.
  destruct (_ =? _); [by injection E as <-|by apply IH].
Qed.

Lemma find_number_total s l : forall found, Forall (fun x => bytes_ok (container x)) l -> exists r, find_pdcp_number s l found = Some r.
Proof.
  induction l as [|x l IH]; intros found Hl; [by eexists|]. apply Forall_cons in Hl as [Hx Hl]. cbn [find_pdcp_number].
  destruct (unpack_sn_total false (container x) Hx) as (r1 & E1). destruct (unpack_sn_total true (container x) Hx) as (r2 & E2).
  unfold unpack_sn in *. rewrite E1, E2. cbn [mbind option_bind].
  destruct s; repeat case_match; by apply IH.
Qed.

(** No octets from the network make an F1-U or Xn-U receiver fail an assertion: it drops the PDU or delivers a message. *)
Theorem tunnel_rx_safe lif chain stopped s buf :
  bytes_ok buf -> (exists r, nru_rx_handle lif chain buf = Some r) /\ (exists r, pdcp_rx_handle stopped s buf = Some r).
Proof.
  intros Hb. destruct (base_handle_ok false buf Hb) as (r & E & Hr). unfold nru_rx_handle, pdcp_rx_handle. rewrite E. cbn [mbind option_bind].
  destruct r as [p|]; [|split; by eexists]. destruct Hr as (_ & Hc & (msg & Ex & _) & _). split.
  - unfold nru_rx_handle_pdu. destruct lif; try by eexists.
    + destruct (find_container nr_ran_container _) as [c|] eqn:Ef; cbn [mbind option_bind].
      * destruct (cc_unpack_total (A := nru_dl_data_delivery_status) c) as (d & Ed); [by eapply find_container_ok|]. cbn in Ed. rewrite Ed.
        cbn [mbind option_bind]. destruct d; [|by eexists]. rewrite Ex. cbn [mbind option_bind]. destruct chain; by eexists.
      * rewrite Ex. cbn [mbind option_bind]. destruct chain; by eexists.
    + destruct (find_container nr_ran_container _) as [c|] eqn:Ef; [|by eexists].
      destruct (cc_unpack_total (A := nru_dl_user_data) c) as (d & Ed); [by eapply find_container_ok|]. cbn in Ed. rewrite Ed.
      cbn [mbind option_bind]. destruct d; [|by eexists]. rewrite Ex. by eexists.
  - unfold pdcp_rx_handle_pdu. destruct stopped; [by eexists|]. destruct (find_number_total s _ None Hc) as (n & ->). cbn [mbind option_bind].
    destruct n; [|by eexists]. rewrite Ex. by eexists.
Qed.

Lemma tunnel_rx_safe_witness :
  (exists r, nru_rx_handle f1u_du true [0x34; 255; 0; 6; 0; 0; 0; 1; 0; 0; 0; 0x84; 200; 1] = Some r) /\
  (exists r, pdcp_rx_handle false sn_12bits [0x34; 255; 0; 6; 0; 0; 0; 1; 0; 0; 0; 0x84; 200; 1] = Some r).
Proof. apply (tunnel_rx_safe f1u_du true false sn_12bits [0x34; 255; 0; 6; 0; 0; 0; 1; 0; 0; 0; 0x84; 200; 1]). octets_ok. Defined.
