(* ===== verification/GtpuPsupRx.v ===== *)
(** * The receiving side of an NG-U tunnel ([lib/gtpu/gtpu_tunnel_psup_rx_impl.h])

    Packets from the core network, put back into the order of their GTP-U sequence numbers if t-Reordering is configured. The
    state is created by the first PDU with a sequence number. What is delivered to SDAP are pairs of a packet and its QoS flow.
    The rate limiter's answer is an input; the callback of the timer is an operation of its own, for it may run late. *)
From S2P Require Import Prelude SduWindow CircularMap BitCodec BitFields BitIo Nru Psup GtpuPdu GtpuTunnels.

(** [gtpu_rx_state] *)
Record gtpu_rx_state := GtpuRxState { g_rx_next : Z; g_rx_deliv : Z; g_rx_reord : Z }.
Definition gtpu_rx_state_init (init_sn : Z) : gtpu_rx_state := GtpuRxState init_sn init_sn init_sn.

Record gtpu_rx_sdu_info := GtpuSduInfo { g_sdu : list Z; g_qos_flow_id : Z; g_sn : option Z }.
Definition qos_flow_id_invalid : Z := 64.
Definition gtpu_rx_sdu_info_init : gtpu_rx_sdu_info := GtpuSduInfo [] qos_flow_id_invalid None.

(** [gtpu_tunnel_psup_rx_config], what the handlers use of it *)
Record psup_rx_config := PsupRxConfig { t_reordering : Z; ignore_ue_ambr : bool; psup_test_mode : bool }.

Definition g_rx_mod_base (sn : Z) (st : gtpu_rx_state) : Z := (sn - g_rx_deliv st) mod GTPU_SN_MOD.
Definition g_inside_rx_window (sn : Z) (st : gtpu_rx_state) : bool := g_rx_mod_base sn st <? GTPU_RX_WINDOW_SIZE.

(** The first PDU session container that can be unpacked; others are ignored. *)
Fixpoint find_session (l : list gtpu_extension_header) (info : option psup_dl_pdu_session_information)
  : option (option psup_dl_pdu_session_information) :=
  match l with
  | [] => Some info
  | x :: l =>
      if extension_header_type x =? pdu_session_container then
        match info with
        | Some _ => find_session l info
        | None => i ← psup_unpack (container x); find_session l i
        end
      else find_session l info
  end.

Section entity.
Context {W : Type} `{SduWindow gtpu_rx_sdu_info W}.

Record gtpu_psup_rx := PsupRx {
  g_cfg : psup_rx_config;
  g_stopped : bool;
  g_state : option gtpu_rx_state;
  g_window : W;
  g_timer : bool
}.
Implicit Types e : gtpu_psup_rx.

(** The constructor *)
Definition psup_rx_new (cfg : psup_rx_config) (w : W) : gtpu_psup_rx := PsupRx cfg false None w false.

Definition g_set_st (st : gtpu_rx_state) e := PsupRx (g_cfg e) (g_stopped e) (Some st) (g_window e) (g_timer e).
Definition g_set_window (w : W) e := PsupRx (g_cfg e) (g_stopped e) (g_state e) w (g_timer e).
Definition g_set_timer (t : bool) e := PsupRx (g_cfg e) (g_stopped e) (g_state e) (g_window e) t.

(** [stop] *)
Definition psup_rx_stop e := if g_stopped e then e else PsupRx (g_cfg e) true (g_state e) (g_window e) false.

Definition delivery (i : gtpu_rx_sdu_info) : list Z * Z := (g_sdu i, g_qos_flow_id i).

(** The loops that move RX_DELIV up to [stop]: of [deliver_all_consecutive_sdus], which ends at a gap, and of
    [handle_t_reordering_expire], which passes over it. *)
Fixpoint psup_advance_loop (fuel : nat) (stop : Z) (stop_on_gap : bool) (deliv : Z) (w : W) : option (Z * W * list (list Z * Z)) :=
  if deliv =? stop then Some (deliv, w, []) else
  match fuel with
  | O => None
  | S fuel =>
      if has_sn w deliv then
        i ← win_get w deliv;
        w ← remove_sn w deliv;
        '(d, w, out) ← psup_advance_loop fuel stop stop_on_gap (u16 (deliv + 1)) w;
        Some (d, w, delivery i :: out)
      else if stop_on_gap then Some (deliv, w, [])
      else psup_advance_loop fuel stop stop_on_gap (u16 (deliv + 1)) w
  end.

Definition psup_fuel : nat := Z.to_nat GTPU_SN_MOD.

Definition g_set_deliv (d : Z) (st : gtpu_rx_state) : gtpu_rx_state := GtpuRxState (g_rx_next st) d (g_rx_reord st).
Definition g_set_next (n : Z) (st : gtpu_rx_state) : gtpu_rx_state := GtpuRxState n (g_rx_deliv st) (g_rx_reord st).
Definition g_set_reord (r : Z) (st : gtpu_rx_state) : gtpu_rx_state := GtpuRxState (g_rx_next st) (g_rx_deliv st) r.

Definition psup_deliver_all_consecutive_sdus e : option (gtpu_psup_rx * list (list Z * Z)) :=
  match g_state e with
  | None => Some (e, [])
  | Some st =>
      '(d, w, out) ← psup_advance_loop psup_fuel (g_rx_next st) true (g_rx_deliv st) (g_window e);
      Some (g_set_st (g_set_deliv d st) (g_set_window w e), out)
  end.

(** [handle_t_reordering_expire] *)
Definition psup_handle_t_reordering_expire e : option (gtpu_psup_rx * list (list Z * Z)) :=
  match g_state e with
  | None => Some (e, [])
  | Some st =>
      if g_timer e then Some (e, []) else
      if negb (g_inside_rx_window (g_rx_reord st) st) then Some (e, []) else
      '(d, w, out1) ← psup_advance_loop psup_fuel (g_rx_reord st) false (g_rx_deliv st) (g_window e);
      let e := g_set_st (g_set_deliv d st) (g_set_window w e) in
      '(e, out2) ← psup_deliver_all_consecutive_sdus e;
      match g_state e with
      | None => None
      | Some st =>
          if g_rx_mod_base (g_rx_deliv st) st <? g_rx_mod_base (g_rx_next st) st then
            if t_reordering (g_cfg e) =? 0 then Some (e, out1 ++ out2)
            else Some (g_set_timer true (g_set_st (g_set_reord (g_rx_next st) st) e), out1 ++ out2)
          else Some (e, out1 ++ out2)
      end
  end.

(** The end of [handle_pdu], from stopping the timer on; with t-Reordering 0 a PDU does not get there. *)
Definition psup_update_timer e : option (gtpu_psup_rx * list (list Z * Z)) :=
  match g_state e with
  | None => None
  | Some st =>
      let e := if g_timer e && negb (g_inside_rx_window (g_rx_reord st) st) then g_set_timer false e else e in
      if t_reordering (g_cfg e) =? 0 then psup_handle_t_reordering_expire (g_set_st (g_set_reord (g_rx_next st) st) e)
      else if negb (g_timer e) && (g_rx_mod_base (g_rx_deliv st) st <? g_rx_mod_base (g_rx_next st) st) then
        Some (g_set_timer true (g_set_st (g_set_reord (g_rx_next st) st) e), [])
      else Some (e, [])
  end.

(** [handle_pdu], from the initialisation of the state on: a packet with its sequence number *)
Definition psup_reorder (sn : Z) (rx_sdu : list Z) (qfi : Z) e : option (gtpu_psup_rx * list (list Z * Z)) :=
  let st := default (gtpu_rx_state_init sn) (g_state e) in
  let e := g_set_st st e in
  if negb (g_inside_rx_window sn st) then Some (e, [(rx_sdu, qfi)]) else
  if g_rx_mod_base sn st <? g_rx_mod_base (g_rx_deliv st) st then Some (e, [(rx_sdu, qfi)]) else
  if has_sn (g_window e) sn then Some (e, []) else
  '(_, w) ← add_sn (g_window e) sn;
  w ← win_put w sn (GtpuSduInfo rx_sdu qfi (Some sn));
  let st := if g_rx_mod_base (g_rx_next st) st <=? g_rx_mod_base sn st then g_set_next (u16 (sn + 1)) st else st in
  let e := g_set_st st (g_set_window w e) in
  '(e, out1) ← (if g_rx_mod_base sn st =? g_rx_mod_base (g_rx_deliv st) st then psup_deliver_all_consecutive_sdus e else Some (e, []));
  '(e, out2) ← psup_update_timer e;
  Some (e, out1 ++ out2).

(** [handle_pdu] of a dissected PDU; [ambr_ok] is the answer of the rate limiter. *)
Definition psup_rx_handle_pdu (ambr_ok : bool) (pdu : gtpu_dissected_pdu) e : option (gtpu_psup_rx * list (list Z * Z)) :=
  if g_stopped e then Some (e, []) else
  if negb (ignore_ue_ambr (g_cfg e)) && negb ambr_ok then Some (e, []) else
  if dp_test_mode pdu then Some (e, [(dp_buf pdu, 1)]) else
  info ← find_session (ext_list (dp_hdr pdu)) None;
  match info with
  | None => Some (e, [])
  | Some info =>
      rx_sdu ← gtpu_extract_msg pdu;
      if negb (f_seq_number (flags (dp_hdr pdu))) || (t_reordering (g_cfg e) =? 0) then Some (e, [(rx_sdu, qos_flow_id info)])
      else psup_reorder (seq_number (dp_hdr pdu)) rx_sdu (qos_flow_id info) e
  end.

(** [gtpu_tunnel_base_rx::handle_pdu] with this handler *)
Definition psup_rx_handle (ambr_ok : bool) (buf : list Z) e : option (gtpu_psup_rx * list (list Z * Z)) :=
  p ← gtpu_base_handle_pdu (psup_test_mode (g_cfg e)) buf;
  match p with None => Some (e, []) | Some p => psup_rx_handle_pdu ambr_ok p e end.

(** What can happen to the entity: a PDU, the expiry of the timer, the callback (which may come after the timer was started
    again), the end. *)
Inductive psup_input := PsupPdu (ambr_ok : bool) (buf : list Z) | PsupTimeout | PsupCallback | PsupStop.

Definition psup_step (i : psup_input) e : option (gtpu_psup_rx * list (list Z * Z)) :=
  match i with
  | PsupPdu ambr_ok buf => psup_rx_handle ambr_ok buf e
  | PsupTimeout => Some (g_set_timer false e, [])
  | PsupCallback => psup_handle_t_reordering_expire e
  | PsupStop => Some (psup_rx_stop e, [])
  end.

Fixpoint psup_run (l : list psup_input) e : option (gtpu_psup_rx * list (list Z * Z)) :=
  match l with
  | [] => Some (e, [])
  | i :: l => '(e, out1) ← psup_step i e; '(e, out2) ← psup_run l e; Some (e, out1 ++ out2)
  end.
End entity.

Arguments gtpu_psup_rx : clear implicits.
