(* ===== verification/GtpuPsupRxFacts.v ===== *)
(** * Facts about the NG-U receiver

    Sequence numbers are 16 bits wide; the lemmas number packets without a bound. [D] is the number of the packet at RX_DELIV,
    and a packet in the window has the number from [D] on that has its sequence number. *)
From S2P Require Import Prelude SduWindow CircularMap RlcRxBase BitCodec BitFields BitIo Nru Psup GtpuPdu GtpuPduCorrect.
From S2P Require Import GtpuTunnels GtpuPsupRx.

Notation packet := (list Z * Z)%type.
Notation psup_map := (gmap Z gtpu_rx_sdu_info).
Notation sn_of n := (n mod GTPU_SN_MOD).
Implicit Types M : psup_map.

Lemma sn_mod_eq : GTPU_SN_MOD = 65536. Proof. reflexivity. Qed.
Lemma rx_window_size_eq : GTPU_RX_WINDOW_SIZE = 32768. Proof. reflexivity. Qed.

Lemma sn_ne a b : a < b < a + 65536 -> sn_of a <> sn_of b.
Proof. rewrite sn_mod_eq. lia. Qed.

Lemma sn_range n : 0 <= sn_of n < 65536.
Proof. rewrite sn_mod_eq. lia. Qed.

Lemma sn_succ n : u16 (sn_of n + 1) = sn_of (n + 1).
Proof. rewrite u16_eq, sn_mod_eq. lia. Qed.

Lemma psup_fuel_eq : Z.of_nat psup_fuel = 65536.
Proof. unfold psup_fuel. rewrite Z2Nat.id by (rewrite sn_mod_eq; lia). apply sn_mod_eq. Qed.

(** One step of a computation that may fail; unlike rewriting with the result it does not make the kernel run the loops. *)
Lemma bind_run {A B} {k : A -> option B} {o x} : o = Some x -> o ≫= k = k x.
Proof. by intros ->. Qed.

(** The packets numbered from [a] to [b] that are there, in order *)
Definition packets_between M (a b : Z) : list packet := omap (fun n => delivery <$> M !! sn_of n) (seqZ a (b - a)).

Lemma packets_between_nil M a b : b <= a -> packets_between M a b = [].
Proof. intros Hab. unfold packets_between. by rewrite seqZ_nil by lia. Qed.

Lemma packets_between_cons M a b :
  a < b -> packets_between M a b = option_list (delivery <$> M !! sn_of a) ++ packets_between M (a + 1) b.
Proof.
  intros Hab. unfold packets_between. rewrite (seqZ_cons a) by lia. cbn [omap list_omap].
  replace (Z.succ a) with (a + 1) by lia. replace (Z.pred (b - a)) with (b - (a + 1)) by lia. by destruct (delivery <$> M !! sn_of a).
Qed.

Lemma packets_between_app M a b c : a <= b <= c -> packets_between M a c = packets_between M a b ++ packets_between M b c.
Proof.
  intros Habc. unfold packets_between. rewrite <- omap_app. f_equal.
  replace (c - a) with (b - a + (c - b)) by lia. rewrite seqZ_app by lia. f_equal. f_equal. lia.
Qed.

Lemma omap_seqZ_ext {A} (f g : Z -> option A) a b : (forall n, a <= n < b -> f n = g n) -> omap f (seqZ a (b - a)) = omap g (seqZ a (b - a)).
Proof.
  intros Hk. apply list_omap_ext, Forall2_same_length_lookup_2; [done|]. intros i x y Hx Hy.
  rewrite Hx in Hy. injection Hy as <-. apply lookup_seqZ in Hx as [-> Hi]. apply Hk. lia.
Qed.

Lemma packets_between_ext M1 M2 a b : (forall n, a <= n < b -> M1 !! sn_of n = M2 !! sn_of n) -> packets_between M1 a b = packets_between M2 a b.
Proof. intros Hk. apply omap_seqZ_ext. intros n Hn. by rewrite Hk. Qed.

(** The number of the packet that has this sequence number, from [D] on *)
Definition number (D sn : Z) : Z := D + rel GTPU_SN_MOD D sn.

Lemma number_range D sn : D <= number D sn < D + 65536.
Proof. unfold number. pose proof (rel_range GTPU_SN_MOD D sn). rewrite sn_mod_eq in *. lia. Qed.

Lemma number_sn D sn : 0 <= sn < 65536 -> sn_of (number D sn) = sn.
Proof. intros Hs. unfold number, rel. rewrite sn_mod_eq. lia. Qed.

Lemma number_of D n : D <= n < D + 65536 -> number D (sn_of n) = n.
Proof. intros Hn. unfold number, rel. rewrite sn_mod_eq. lia. Qed.

Lemma number_rel D n : D <= n < D + 65536 -> rel GTPU_SN_MOD (sn_of D) (sn_of n) = n - D.
Proof. intros Hn. unfold rel. rewrite sn_mod_eq. lia. Qed.

Lemma number_inj D a b : 0 <= a < 65536 -> 0 <= b < 65536 -> number D a = number D b -> a = b.
Proof. intros Ha Hb E. rewrite <- (number_sn D a), <- (number_sn D b) by done. by rewrite E. Qed.

Lemma number_move D D' sn : D <= D' -> D' <= number D sn -> number D' sn = number D sn.
Proof. unfold number, rel. rewrite sn_mod_eq. intros. lia. Qed.

(** The packets from [D'] on *)
Definition packets_from (D D' : Z) M : psup_map := filter (fun x => D' <= number D x.1) M.

Lemma packets_from_lookup D D' M k : packets_from D D' M !! k = if decide (D' <= number D k) then M !! k else None.
Proof.
  unfold packets_from. case_decide as Hd.
  - destruct (M !! k) as [x|] eqn:E; [by apply map_lookup_filter_Some|apply map_lookup_filter_None; by left].
  - apply map_lookup_filter_None. right. intros x _. cbn. lia.
Qed.

Lemma packets_from_all D D' M : D' <= D -> packets_from D D' M = M.
Proof. intros HD. apply map_eq. intros k. rewrite packets_from_lookup. pose proof (number_range D k). by rewrite decide_True by lia. Qed.

(** The keys are sequence numbers. *)
Definition keys_ok M : Prop := forall k, is_Some (M !! k) -> 0 <= k < 65536.

(** Taking the packet at [D] out, or there is none *)
Lemma packets_from_step D D' M : keys_ok M -> D + 1 <= D' <= D + 65536 -> packets_from (D + 1) D' (delete (sn_of D) M) = packets_from D D' M.
Proof.
  intros Hk HD. apply map_eq. intros k. rewrite !packets_from_lookup, lookup_delete.
  assert (Hsn : number D (sn_of D) = D) by (apply number_of; lia).
  destruct (decide (sn_of D = k)) as [<-|Hne].
  - rewrite Hsn. rewrite (decide_False (P := D' <= D)) by lia. by case_decide.
  - destruct (M !! k) as [x|] eqn:Ek; [|by repeat case_decide].
    assert (Hr : 0 <= k < 65536) by (apply Hk; by rewrite Ek).
    assert (Hlt : D + 1 <= number D k).
    { pose proof (number_range D k). destruct (decide (number D k = D)) as [E|]; [|lia].
      destruct Hne. apply (number_inj D); [apply sn_range|done|congruence]. }
    rewrite (number_move D (D + 1)) by lia. done.
Qed.

Lemma keys_ok_delete M k : keys_ok M -> keys_ok (delete k M).
Proof. intros Hk q [x Hq]. apply Hk. rewrite lookup_delete in Hq. case_decide; [done|by eexists]. Qed.

Lemma keys_ok_from D D' M : keys_ok M -> keys_ok (packets_from D D' M).
Proof. intros Hk q [x Hq]. apply Hk. rewrite packets_from_lookup in Hq. case_decide; [by eexists|done]. Qed.

Lemma packets_from_from D D1 D2 M : keys_ok M -> D <= D1 <= D2 -> packets_from D1 D2 (packets_from D D1 M) = packets_from D D2 M.
Proof.
  intros Hk HD. apply map_eq. intros k. rewrite !packets_from_lookup. destruct (decide (D1 <= number D k)) as [Hn|Hn].
  - by rewrite (number_move D D1) by lia.
  - rewrite (decide_False (P := D2 <= number D k)) by lia. by case_decide.
Qed.

Lemma packets_from_at D D' M n : D' <= n -> D <= n < D + 65536 -> packets_from D D' M !! sn_of n = M !! sn_of n.
Proof. intros Hn HD. by rewrite packets_from_lookup, number_of, decide_True by lia. Qed.

Lemma packets_from_some D D1 D2 M n :
  D <= D1 <= D2 -> D2 <= D + 65536 -> D1 <= n < D2 -> is_Some (packets_from D D1 M !! sn_of n) -> is_Some (M !! sn_of n).
Proof. intros ? ? ? Hs. by rewrite packets_from_at in Hs by lia. Qed.

Lemma packets_between_from D D1 D2 M :
  D <= D1 <= D2 -> D2 <= D + 65536 -> packets_between M D D1 ++ packets_between (packets_from D D1 M) D1 D2 = packets_between M D D2.
Proof.
  intros HD H2. rewrite (packets_between_app M D D1 D2) by done. f_equal. apply packets_between_ext.
  intros n Hn. apply packets_from_at; lia.
Qed.

Section facts.
Context {W : Type} `{SduWindowLaws gtpu_rx_sdu_info W gtpu_rx_sdu_info_init}
  `{!SduWindowClear gtpu_rx_sdu_info W} `{!SduWindowClearLaws gtpu_rx_sdu_info W}.
Notation entity := (gtpu_psup_rx W).
Implicit Types e : entity.

(** What delivering up to [stop] does *)
Definition delivers (gap : bool) (D S D' : Z) M (out : list packet) : Prop :=
  D <= D' <= S /\ out = packets_between M D D' /\ (gap = false -> D' = S) /\
  (gap = true -> (forall n, D <= n < D' -> is_Some (M !! sn_of n)) /\ (D' < S -> M !! sn_of D' = None)).

Lemma psup_advance_loop_spec fuel : forall gap D S w M,
  win_holds w M -> keys_ok M -> D <= S < D + 65536 -> S - D <= Z.of_nat fuel ->
  exists D' w' out, psup_advance_loop fuel (sn_of S) gap (sn_of D) w = Some (sn_of D', w', out) /\ delivers gap D S D' M out /\
    win_holds w' (packets_from D D' M) /\ win_cap w' = win_cap w.
Proof.
  induction fuel as [|fuel IH]; intros gap D S w M Hw Hk HS Hf; cbn [psup_advance_loop].
  { assert (S = D) as -> by lia. rewrite Z.eqb_refl. exists D, w, []. rewrite packets_from_all by lia. split; [done|]. split; [|done].
    split; [lia|]. rewrite packets_between_nil by lia. split; [done|]. split; [done|]. intros _. split; [intros; lia|lia]. }
  destruct (Z.eqb_spec (sn_of D) (sn_of S)) as [E|Hne].
  { assert (S = D) as -> by (destruct (decide (S = D)); [done|]; destruct (sn_ne D S); [lia|done]). exists D, w, []. rewrite packets_from_all by lia. split; [done|]. split; [|done].
    split; [lia|]. rewrite packets_between_nil by lia. split; [done|]. split; [done|]. intros _. split; [intros; lia|lia]. }
  assert (D <> S) by congruence. assert (Hr : 0 <= sn_of D) by apply sn_range. rewrite sn_succ.
  rewrite (holds_has w M), (holds_get w M) by done. destruct (M !! sn_of D) as [i|] eqn:Ei.
  - rewrite bool_decide_true by by eexists. cbn [mbind option_bind].
    destruct (holds_remove w M (sn_of D) Hw) as (w1 & -> & Hw1 & Hc1); [by rewrite Ei|]. cbn [mbind option_bind].
    destruct (IH gap (D + 1) S w1 (delete (sn_of D) M)) as (D' & w' & out & -> & (HD' & -> & Hno & Hgap) & Hw' & Hc'); [done|by apply keys_ok_delete|lia|lia|].
    cbn [mbind option_bind]. assert (Hlow : forall n, D + 1 <= n < S -> delete (sn_of D) M !! sn_of n = M !! sn_of n).
    { intros n Hn. apply lookup_delete_ne, sn_ne. lia. }
    eexists D', w', _. split; [reflexivity|]. rewrite packets_from_step in Hw' by (done || lia). split; [|split; [done|congruence]].
    split; [lia|]. split; [rewrite (packets_between_cons M) by lia; rewrite Ei; cbn; f_equal; apply packets_between_ext; intros n Hn; apply Hlow; lia|].
    split; [done|]. intros Hg. destruct (Hgap Hg) as [Hin Hend]. split.
    + intros n Hn. destruct (decide (n = D)) as [->|]; [by rewrite Ei|]. rewrite <- Hlow by lia. apply Hin. lia.
    + intros Hlt. rewrite <- Hlow by lia. by apply Hend.
  - rewrite bool_decide_false by by intros []. destruct gap.
    { exists D, w, []. rewrite packets_from_all by lia. split; [done|]. split; [|done]. split; [lia|]. rewrite packets_between_nil by lia.
      split; [done|]. split; [done|]. intros _. split; [intros; lia|done]. }
    destruct (IH false (D + 1) S w M) as (D' & w' & out & -> & (HD' & -> & Hno & _) & Hw' & Hc'); [done..|lia|lia|].
    rewrite <- (delete_id M (sn_of D) Ei) in Hw'. rewrite packets_from_step in Hw' by (done || lia).
    exists D', w', (packets_between M (D + 1) D'). split; [done|]. split; [|done]. split; [lia|]. rewrite (packets_between_cons M D) by lia.
    rewrite Ei. by split_and!.
Qed.

(** The state, with the numbers [D] of RX_DELIV and [N] of RX_NEXT: the window holds packets between them, not the first. *)
Definition rx_numbers (D N : Z) (st : gtpu_rx_state) (timer : bool) M : Prop :=
  g_rx_deliv st = sn_of D /\ g_rx_next st = sn_of N /\ D <= N <= D + 32768 /\ 0 <= g_rx_reord st < 65536 /\
  (timer = true -> exists R, g_rx_reord st = sn_of R /\ D <= R <= N) /\
  forall k i, M !! k = Some i -> 0 <= k < 65536 /\ number D k < N /\ g_sn i = Some k.

Definition psup_inv (D : Z) e M : Prop :=
  win_holds (g_window e) M /\ win_cap (g_window e) = 32768 /\ (t_reordering (g_cfg e) = 0 -> g_state e = None) /\
  match g_state e with
  | None => M = ∅ /\ g_timer e = false
  | Some st => M !! sn_of D = None /\ exists N, rx_numbers D N st (g_timer e) M
  end.

Lemma rx_numbers_keys D N st t M : rx_numbers D N st t M -> keys_ok M.
Proof. intros (_ & _ & _ & _ & _ & Hk) k [i Hi]. by apply (Hk k i). Qed.

(** What the receiver does with its window leaves a state of this kind. *)
Lemma delivered_numbers D N D' st M out :
  rx_numbers D N st false M -> delivers true D N D' M out ->
  rx_numbers D' N (g_set_deliv (sn_of D') st) false (packets_from D D' M) /\ packets_from D D' M !! sn_of D' = None.
Proof.
  intros (Ed & En & HN & Hr & _ & Hk) (HD' & _ & _ & Hgap). destruct (Hgap eq_refl) as [_ Hend]. split.
  - split; [done|]. split; [done|]. split; [lia|]. split; [done|]. split; [done|]. intros k i Hi. rewrite packets_from_lookup in Hi. case_decide; [|done].
    destruct (Hk k i Hi) as (? & ? & ?). by rewrite (number_move D) by lia.
  - destruct (packets_from D D' M !! sn_of D') as [i|] eqn:Ei; [|done]. rewrite packets_from_at in Ei by lia.
    destruct (decide (D' < N)); [by rewrite Hend in Ei|]. destruct (Hk _ _ Ei) as (_ & Hlt & _). rewrite number_of in Hlt by lia. lia.
Qed.

(** Delivering nothing, where the first packet is missing *)
Lemma delivers_none D N M : D <= N -> M !! sn_of D = None -> delivers true D N D M [].
Proof. intros HN Hn. split; [lia|]. rewrite packets_between_nil by lia. split; [done|]. split; [done|]. intros _. split; [intros; lia|done]. Qed.

Lemma deliver_consecutive_spec e D N st M :
  win_holds (g_window e) M -> g_state e = Some st -> rx_numbers D N st false M ->
  exists D' w' out, psup_deliver_all_consecutive_sdus e = Some (g_set_st (g_set_deliv (sn_of D') st) (g_set_window w' e), out) /\
    delivers true D N D' M out /\ win_holds w' (packets_from D D' M) /\ win_cap w' = win_cap (g_window e).
Proof.
  intros Hw Est Hn. pose proof (rx_numbers_keys _ _ _ _ _ Hn) as Hk. destruct Hn as (Ed & En & HN & _).
  unfold psup_deliver_all_consecutive_sdus. rewrite Est, Ed, En.
  destruct (psup_advance_loop_spec psup_fuel true D N (g_window e) M Hw Hk) as (D' & w' & out & -> & ?); [lia|rewrite psup_fuel_eq; lia|].
  by exists D', w', out.
Qed.

(** Positions in the window, as the code compares them *)
Lemma base_of D N st t M n : rx_numbers D N st t M -> D <= n < D + 65536 -> g_rx_mod_base (sn_of n) st = n - D.
Proof. intros (Ed & _) Hn. unfold g_rx_mod_base. rewrite Ed. by apply number_rel. Qed.

Lemma base_sn D N st t M sn : rx_numbers D N st t M -> 0 <= sn < 65536 -> g_rx_mod_base sn st = number D sn - D.
Proof. intros Hn Hs. rewrite <- (number_sn D sn) at 1 by done. pose proof (number_range D sn). by eapply base_of. Qed.

Lemma base_next D N st t M : rx_numbers D N st t M -> g_rx_mod_base (g_rx_next st) st = N - D.
Proof. intros Hn. pose proof Hn as (_ & -> & HN & _). eapply base_of; [exact Hn|lia]. Qed.

Lemma base_deliv D N st t M : rx_numbers D N st t M -> g_rx_mod_base (g_rx_deliv st) st = 0.
Proof. intros Hn. pose proof Hn as (-> & _). rewrite (base_of D N st t M) by (done || lia). lia. Qed.

(** [reorder] and the callback differ in when they start the timer; the state after it: *)
Lemma numbers_restart D N st t M : rx_numbers D N st t M -> rx_numbers D N (g_set_reord (g_rx_next st) st) true M.
Proof.
  intros (Ed & En & HN & Hr & Ht & Hk). split; [done|]. split; [done|]. split; [done|].
  split; [cbn [g_rx_reord g_set_reord]; rewrite En; apply sn_range|]. split; [|done]. intros _. exists N. split; [done|lia].
Qed.

Lemma numbers_timer D N st t M : rx_numbers D N st t M -> rx_numbers D N st false M.
Proof. intros (Ed & En & HN & Hr & Ht & Hk). split; [done|]. split; [done|]. split; [done|]. split; [done|]. by split. Qed.

(** ** The callback of the timer *)

(** A callback that comes so late that RX_DELIV has passed RX_REORD by more than the window would take RX_REORD for a
    sequence number ahead. *)
Definition psup_allowed_callback e : Prop :=
  match g_state e with
  | None => True
  | Some st =>
      g_timer e = false -> g_inside_rx_window (g_rx_reord st) st = true -> g_rx_mod_base (g_rx_reord st) st <= g_rx_mod_base (g_rx_next st) st
  end.

(** What a callback does not skip: the timer runs, or RX_REORD is no longer in the window. *)
Definition callback_acts e : bool :=
  match g_state e with None => false | Some st => negb (g_timer e) && g_inside_rx_window (g_rx_reord st) st end.

(** What it does then *)
Definition expired (D D' : Z) e M e' : Prop :=
  match g_state e, g_state e' with
  | Some st, Some st' =>
      let R := number D (g_rx_reord st) in
      R <= D' /\ (forall n, R <= n < D' -> is_Some (M !! sn_of n)) /\ g_rx_next st' = g_rx_next st /\ g_rx_deliv st' = sn_of D' /\
      g_timer e' = negb (g_rx_deliv st' =? g_rx_next st') /\ (g_timer e' = true -> g_rx_reord st' = g_rx_next st')
  | _, _ => False
  end.

Definition same_config e e' : Prop := g_cfg e' = g_cfg e /\ g_stopped e' = g_stopped e /\ (is_Some (g_state e) -> is_Some (g_state e')).

Lemma same_config_refl e : same_config e e. Proof. done. Qed.

Lemma expire_spec e D M :
  psup_inv D e M -> psup_allowed_callback e ->
  exists D' e' out, psup_handle_t_reordering_expire e = Some (e', out) /\ psup_inv D' e' (packets_from D D' M) /\ D <= D' <= D + 32768 /\
    out = packets_between M D D' /\ same_config e e' /\ (if callback_acts e then expired D D' e M e' else e' = e /\ D' = D).
Proof.
  intros Hinv Hal. pose proof Hinv as (Hw & Hc & Hcfg & Hst). unfold psup_handle_t_reordering_expire, callback_acts, psup_allowed_callback in *.
  assert (Hskip : exists D' e' out, Some (e, []) = Some (e', out) /\ psup_inv D' e' (packets_from D D' M) /\ D <= D' <= D + 32768 /\
    out = packets_between M D D' /\ same_config e e' /\ e' = e /\ D' = D).
  { exists D, e, []. rewrite packets_from_all, packets_between_nil by lia. split_and!; try done; lia. }
  destruct (g_state e) as [st|] eqn:Est; [|exact Hskip]. destruct Hst as (Hnone & N & Hn).
  destruct (g_timer e) eqn:Et; cbn [negb andb]; [exact Hskip|].
  destruct (g_inside_rx_window (g_rx_reord st) st) eqn:Ein; cbn [negb]; [|exact Hskip].
  specialize (Hal eq_refl eq_refl). pose proof Hn as (Ed & En & HN & Hr & _). pose proof (rx_numbers_keys _ _ _ _ _ Hn) as Hk.
  rewrite (base_next _ _ _ _ _ Hn), (base_sn _ _ _ _ _ _ Hn Hr) in Hal. set (R := number D (g_rx_reord st)) in *.
  assert (ER : g_rx_reord st = sn_of R) by (unfold R; by rewrite number_sn). pose proof (number_range D (g_rx_reord st)) as HR. fold R in HR.
  rewrite Ed, ER. destruct (psup_advance_loop_spec psup_fuel false D R (g_window e) M Hw Hk) as (D1 & w1 & out1 & E1 & Hd1 & Hw1 & Hc1);
    [lia|rewrite psup_fuel_eq; lia|]. rewrite (bind_run E1). clear E1. cbv beta iota.
  destruct Hd1 as (_ & -> & HD1 & _). specialize (HD1 eq_refl) as ->.
  set (M1 := packets_from D R M) in *. set (st1 := g_set_deliv (sn_of R) st).
  assert (Hn1 : rx_numbers R N st1 false M1).
  { split; [done|]. split; [done|]. split; [lia|]. split; [done|]. split; [done|]. intros k i Hi. unfold M1 in Hi. rewrite packets_from_lookup in Hi.
    case_decide; [|done]. destruct Hn as (_ & _ & _ & _ & _ & Hki). destruct (Hki k i Hi) as (? & ? & ?). by rewrite (number_move D) by lia. }
  destruct (deliver_consecutive_spec (g_set_st st1 (g_set_window w1 e)) R N st1 M1) as (D' & w' & out2 & E2 & Hd2 & Hw2 & Hc2); [done..|].
  rewrite (bind_run E2). clear E2. cbv beta iota. set (e1 := g_set_st (g_set_deliv (sn_of D') st1) _). cbn [g_state e1 g_set_st].
  destruct (delivered_numbers _ _ _ _ _ _ Hn1 Hd2) as [Hn2 Hnone2]. set (st2 := g_set_deliv (sn_of D') st1) in *.
  destruct Hd2 as (HD' & -> & _ & Hgap). destruct (Hgap eq_refl) as [Hsome _].
  unfold M1 in Hn2, Hnone2, Hw2. rewrite packets_from_from in Hn2, Hnone2, Hw2 by (done || lia).
  assert (Hout : packets_between M D R ++ packets_between M1 R D' = packets_between M D D') by (apply packets_between_from; lia). rewrite Hout.
  assert (Hsome' : forall n, R <= n < D' -> is_Some (M !! sn_of n)).
  { intros n Hnn. apply (packets_from_some D R D'); [lia|lia|done|by apply Hsome]. }
  rewrite (base_deliv _ _ _ _ _ Hn2), (base_next _ _ _ _ _ Hn2).
  assert (Edn : g_rx_deliv st2 =? g_rx_next st2 = bool_decide (D' = N)).
  { cbn [st2 st1 g_set_deliv g_rx_deliv g_rx_next]. rewrite En. destruct (Z.eqb_spec (sn_of D') (sn_of N)) as [E|Hne]; symmetry.
    - apply bool_decide_eq_true. destruct (decide (D' = N)); [done|]. destruct (sn_ne D' N); [lia|done].
    - apply bool_decide_eq_false. congruence. }
  assert (Hcfg0 : t_reordering (g_cfg e) =? 0 = false).
  { apply Z.eqb_neq. intros E. specialize (Hcfg E). congruence. }
  change (g_cfg e1) with (g_cfg e). rewrite Hcfg0. destruct (Z.ltb_spec 0 (N - D')) as [Hlt|Hge].
  - exists D', (g_set_timer true (g_set_st (g_set_reord (g_rx_next st2) st2) e1)), (packets_between M D D'). split; [done|]. split.
    { split; [exact Hw2|]. split; [exact (eq_trans Hc2 (eq_trans Hc1 Hc))|]. split; [intros E; by destruct (proj1 (Z.eqb_neq _ _) Hcfg0)|]. split; [done|].
      exists N. exact (numbers_restart _ _ _ _ _ Hn2). }
    split; [lia|]. split; [done|]. split; [by split_and!|]. unfold expired. rewrite Est. cbn [g_set_timer g_set_st g_state g_timer]. fold R.
    split; [lia|]. split; [done|]. split; [done|]. split; [done|]. split; [|done].
    change (g_rx_deliv (g_set_reord _ st2)) with (g_rx_deliv st2). change (g_rx_next (g_set_reord _ st2)) with (g_rx_next st2).
    rewrite Edn, bool_decide_false by lia. done.
  - exists D', e1, (packets_between M D D'). split; [done|]. split.
    { split; [exact Hw2|]. split; [exact (eq_trans Hc2 (eq_trans Hc1 Hc))|]. split; [intros E; by destruct (proj1 (Z.eqb_neq _ _) Hcfg0)|]. split; [done|].
      exists N. change (g_timer e1) with (g_timer e). by rewrite Et. }
    split; [lia|]. split; [done|]. split; [by split_and!|]. unfold expired. rewrite Est. cbn [e1 g_set_st g_state]. fold R st2.
    split; [lia|]. split; [done|]. split; [done|]. split; [done|]. rewrite Edn, bool_decide_true by lia.
    change (g_timer e1) with (g_timer e). rewrite Et. done.
Qed.

(** ** A PDU *)

(** The end of [handle_pdu]: it stops the timer if RX_REORD was passed, and starts it if a packet is missing. *)
Lemma update_timer_spec e D N st M t :
  win_holds (g_window e) M -> win_cap (g_window e) = 32768 -> t_reordering (g_cfg e) <> 0 ->
  g_state e = Some st -> g_timer e = t -> rx_numbers D N st false M -> M !! sn_of D = None ->
  (t = true -> exists R, g_rx_reord st = sn_of R /\ D - 32768 <= R <= N) ->
  exists e', psup_update_timer e = Some (e', []) /\ psup_inv D e' M /\ same_config e e' /\ is_Some (g_state e').
Proof.
  intros Hw Hc Hcfg Est Et Hn Hnone Ht. unfold psup_update_timer. rewrite Est, Et. cbv zeta.
  set (stop := t && negb (g_inside_rx_window (g_rx_reord st) st)). set (e1 := if stop then _ else _).
  assert (He1 : g_window e1 = g_window e /\ g_cfg e1 = g_cfg e /\ g_state e1 = Some st /\ g_stopped e1 = g_stopped e /\
    g_timer e1 = if stop then false else t) by (unfold e1; by destruct stop).
  destruct He1 as (Ew1 & Ec1 & Es1 & Esp1 & Etm). rewrite Ec1, (proj2 (Z.eqb_neq _ _) Hcfg).
  rewrite (base_deliv _ _ _ _ _ Hn), (base_next _ _ _ _ _ Hn). destruct (_ && (0 <? N - D)) eqn:Estart.
  - eexists. split; [reflexivity|]. split; [|split; [by split_and!|by eexists]]. split; [cbn; by rewrite Ew1|]. split; [cbn; by rewrite Ew1|].
    split; [cbn; by rewrite Ec1|]. split; [done|]. exists N. exact (numbers_restart _ _ _ _ _ Hn).
  - exists e1. split; [done|]. split; [|split; [by split_and!|by rewrite Es1]]. split; [by rewrite Ew1|]. split; [by rewrite Ew1|].
    split; [by rewrite Ec1|]. rewrite Es1. split; [done|]. exists N. pose proof Hn as (Ed & En & HN & Hr & _ & Hk).
    split; [done|]. split; [done|]. split; [done|]. split; [done|]. split; [|done]. rewrite Etm. destruct stop eqn:Estop; [done|].
    intros ->. destruct (Ht eq_refl) as (R & ER & HR). exists R. split; [done|]. split; [|lia].
    unfold stop in Estop. cbn [andb] in Estop. apply negb_false_iff in Estop. unfold g_inside_rx_window in Estop.
    rewrite (base_sn _ _ _ _ _ _ Hn Hr), ER in Estop. rewrite rx_window_size_eq in Estop. clear - Estop HR HN.
    unfold number, rel in Estop. rewrite sn_mod_eq in Estop. lia.
Qed.

(** Adding a packet to those in the window *)
Lemma numbers_add D N st t M sn i :
  rx_numbers D N st t M -> 0 <= sn < 65536 -> number D sn < D + 32768 -> g_sn i = Some sn ->
  rx_numbers D (Z.max N (number D sn + 1))
    (if g_rx_mod_base (g_rx_next st) st <=? g_rx_mod_base sn st then g_set_next (u16 (sn + 1)) st else st) t (<[sn := i]> M).
Proof.
  intros Hn Hs Hlt Hi. rewrite (base_next _ _ _ _ _ Hn), (base_sn _ _ _ _ _ _ Hn Hs). pose proof (number_range D sn) as Hr.
  pose proof Hn as (Ed & En & HN & Hro & Ht & Hk).
  assert (Hk' : forall k j, <[sn := i]> M !! k = Some j -> 0 <= k < 65536 /\ number D k < Z.max N (number D sn + 1) /\ g_sn j = Some k).
  { intros k j [[<- <-]|[_ Hj]]%lookup_insert_Some; [split_and!; [lia..|done]|]. destruct (Hk k j Hj) as (? & ? & ?). split_and!; [lia..|done]. }
  assert (Ht' : t = true -> exists R, g_rx_reord st = sn_of R /\ D <= R <= Z.max N (number D sn + 1)).
  { intros Et. destruct (Ht Et) as (R & ER & HR). exists R. split; [done|lia]. }
  destruct (Z.leb_spec (N - D) (number D sn - D)).
  - split; [done|]. split; [cbn; rewrite <- (number_sn D sn) at 1 by done; rewrite sn_succ; by rewrite Z.max_r by lia|]. split; [lia|]. done.
  - split; [done|]. split; [by rewrite Z.max_l by lia|]. split; [lia|]. done.
Qed.

(** A free place in the window *)
Lemma residue_free_number D w M sn :
  win_cap w = 32768 -> (forall k, is_Some (M !! k) -> 0 <= k < 65536 /\ number D k < D + 32768) ->
  0 <= sn < 65536 -> number D sn < D + 32768 -> M !! sn = None -> residue_free w M sn.
Proof.
  intros Hc Hk Hs Hlt Hn q Hq E. rewrite Hc in E. destruct (Hk q Hq) as [Hr Hql].
  assert (q = sn) as ->; [|rewrite Hn in Hq; by destruct Hq]. clear Hk Hq Hn Hc. unfold number, rel in *. rewrite sn_mod_eq in *. lia.
Qed.

(** What [handle_pdu] makes of a packet with a sequence number *)
Inductive reordered (D : Z) e M (sn : Z) (p : packet) e' (out : list packet) : Prop :=
  | outside_window : D + 32768 <= number D sn -> out = [p] -> psup_inv D e' M -> reordered D e M sn p e' out
  | duplicate : number D sn < D + 32768 -> is_Some (M !! sn) -> out = [] -> psup_inv D e' M -> reordered D e M sn p e' out
  | accepted D' : number D sn < D + 32768 -> M !! sn = None -> D <= D' <= D + 32768 ->
      let M' := <[sn := GtpuSduInfo p.1 p.2 (Some sn)]> M in
      out = packets_between M' D D' -> (forall n, D <= n < D' -> is_Some (M' !! sn_of n)) ->
      psup_inv D' e' (packets_from D D' M') -> reordered D e M sn p e' out.

Lemma reorder_spec e D M st sn rx_sdu qfi :
  psup_inv D e M -> g_state e = Some st -> 0 <= sn < 65536 ->
  exists e' out, psup_reorder sn rx_sdu qfi e = Some (e', out) /\ reordered D e M sn (rx_sdu, qfi) e' out /\ same_config e e' /\ is_Some (g_state e').
Proof.
  intros Hinv Est Hs. pose proof Hinv as (Hw & Hc & Hcfg & Hst). rewrite Est in Hst. destruct Hst as (Hnone & N & Hn).
  assert (Hcfg' : t_reordering (g_cfg e) <> 0) by (intros E; specialize (Hcfg E); congruence).
  assert (Eset : g_set_st st e = e) by (unfold g_set_st; rewrite <- Est; by destruct e).
  unfold psup_reorder. cbv zeta. rewrite Est. cbn [default from_option]. unfold id. rewrite Eset. unfold g_inside_rx_window.
  rewrite (base_sn _ _ _ _ _ _ Hn Hs), (base_deliv _ _ _ _ _ Hn). rewrite rx_window_size_eq. pose proof (number_range D sn) as Hrange.
  destruct (Z.ltb_spec (number D sn - D) 32768) as [Hin|Hout]; cbn [negb].
  2: { eexists _, _. split; [reflexivity|]. split; [apply outside_window; [lia|done|done]|]. split; [done|by eexists]. }
  rewrite (proj2 (Z.ltb_ge (number D sn - D) 0)) by lia. rewrite (holds_has _ M) by (done || lia).
  destruct (M !! sn) as [x|] eqn:Ex.
  { rewrite bool_decide_true by by eexists. eexists _, _. split; [reflexivity|]. split; [apply duplicate; [lia|by eexists|done|done]|]. split; [done|by eexists]. }
  rewrite bool_decide_false by by intros []. set (i := GtpuSduInfo rx_sdu qfi (Some sn)).
  pose proof Hn as (Ed & En & HN & Hr & Ht & Hk).
  destruct (holds_add_put (g_window e) M sn i Hw) as (w1 & w2 & E1 & E2 & Hw2 & Hc2); [lia| |].
  { apply (residue_free_number D); try done; try lia. intros k [j Hj]. destruct (Hk k j Hj) as (? & ? & ?). split; [done|lia]. }
  rewrite (bind_run E1). cbv beta iota. rewrite (bind_run E2). clear E1 E2.
  pose proof (numbers_add D N st (g_timer e) M sn i Hn Hs ltac:(lia) eq_refl) as Hn1. rewrite (base_sn _ _ _ _ _ _ Hn Hs) in Hn1.
  set (st1 := if _ <=? _ then _ else st) in *. set (N1 := Z.max N (number D sn + 1)) in *. set (M1 := <[sn := i]> M) in *.
  rewrite (base_sn _ _ _ _ _ _ Hn1 Hs), (base_deliv _ _ _ _ _ Hn1).
  set (e1 := g_set_st st1 (g_set_window w2 e)).
  assert (Hdel : exists D' w' out, (if number D sn - D =? 0 then psup_deliver_all_consecutive_sdus e1 else Some (e1, [])) =
      Some (g_set_st (g_set_deliv (sn_of D') st1) (g_set_window w' e1), out) /\
      delivers true D N1 D' M1 out /\ win_holds w' (packets_from D D' M1) /\ win_cap w' = win_cap (g_window e)).
  { destruct (Z.eqb_spec (number D sn - D) 0) as [E0|Hne].
    - destruct (deliver_consecutive_spec e1 D N1 st1 M1) as (D' & w' & out & ? & ? & ? & ?);
        [done|done|exact (numbers_timer _ _ _ _ _ Hn1)|]. exists D', w', out. split_and!; try done. by etrans.
    - exists D, w2, []. rewrite packets_from_all by lia. pose proof Hn1 as (Ed1 & _ & HN1 & _). split.
      { f_equal. f_equal. unfold e1. rewrite <- Ed1. by destruct st1. }
      split; [|done]. apply delivers_none; [lia|]. unfold M1. rewrite lookup_insert_ne; [done|]. intros E. rewrite E, number_of in Hne by lia. lia. }
  destruct Hdel as (D' & w' & out & E1 & Hd & Hw' & Hc'). rewrite (bind_run E1). clear E1. cbv beta iota. set (e2 := g_set_st _ _).
  pose proof (numbers_timer _ _ _ _ _ Hn1) as Hn1'. destruct (delivered_numbers _ _ _ _ _ _ Hn1' Hd) as [Hn2 Hnone2].
  destruct Hd as (HD' & -> & _ & Hgap). destruct (Hgap eq_refl) as [Hsome _]. pose proof Hn1 as (_ & _ & HN1 & _ & Ht1 & _).
  destruct (update_timer_spec e2 D' N1 (g_set_deliv (sn_of D') st1) (packets_from D D' M1) (g_timer e)) as (e3 & E3 & Hinv3 & Hsc & Hsome3);
    [exact Hw'|by rewrite <- Hc|exact Hcfg'|done|done|exact Hn2|exact Hnone2| |].
  { intros Et. destruct (Ht1 Et) as (R & ER & HR). exists R. split; [done|lia]. }
  rewrite (bind_run E3). cbv beta iota. rewrite app_nil_r. eexists e3, _. split; [reflexivity|]. split; [|split; [|exact Hsome3]].
  2: { destruct Hsc as (Hs1 & Hs2 & _). split; [exact Hs1|]. split; [exact Hs2|done]. }
  apply (accepted _ _ _ _ _ _ _ D'); [lia|done|lia|done|exact Hsome|exact Hinv3].
Qed.
End facts.
