(* ===== verification/GtpuPsupRxCorrect.v ===== *)
(** * Correctness of the NG-U receiver

    Whatever arrives, and however late the callback of the timer runs: the receiver does not fail, and it delivers what it
    puts in order once, in the order of the sequence numbers. *)
From S2P Require Import Prelude SduWindow CircularMap RlcRxBase BitCodec BitFields BitIo Nru Psup GtpuPdu GtpuPduCorrect.
From S2P Require Import GtpuTunnels GtpuPsupRx GtpuPsupRxFacts.

(** [c] consists of [a] and [b], each in its order. *)
Inductive interleaving {A} : list A -> list A -> list A -> Prop :=
  | il_nil : interleaving [] [] []
  | il_left x a b c : interleaving a b c -> interleaving (x :: a) b (x :: c)
  | il_right x a b c : interleaving a b c -> interleaving a (x :: b) (x :: c).

Lemma il_app {A} (a1 b1 c1 a2 b2 c2 : list A) : interleaving a1 b1 c1 -> interleaving a2 b2 c2 -> interleaving (a1 ++ a2) (b1 ++ b2) (c1 ++ c2).
Proof. induction 1; intros Hi; cbn; [done|constructor; auto..]. Qed.
Lemma il_lefts {A} (a : list A) : interleaving a [] a.
Proof. induction a; by constructor. Qed.
Lemma il_rights {A} (b : list A) : interleaving [] b b.
Proof. induction b; by constructor. Qed.

(** ** What a PDU carries *)

(** The packet with its QoS flow, and its sequence number if it is to be put in order *)
Definition psup_carries (cfg : psup_rx_config) (ambr_ok : bool) (buf : list Z) : option (packet * option Z) :=
  if negb (ignore_ue_ambr cfg) && negb ambr_ok then None else
  if psup_test_mode cfg then Some ((buf, 1), None) else
  p ← default None (gtpu_dissect_pdu buf);
  info ← default None (find_session (ext_list (dp_hdr p)) None);
  sdu ← gtpu_extract_msg p;
  Some ((sdu, qos_flow_id info),
        if f_seq_number (flags (dp_hdr p)) && negb (t_reordering cfg =? 0) then Some (seq_number (dp_hdr p)) else None).

Lemma find_session_total l : forall info, Forall (fun x => bytes_ok (container x)) l -> exists r, find_session l info = Some r.
Proof.
  induction l as [|x l IH]; intros info Hl; [by eexists|]. apply Forall_cons in Hl as [Hx Hl]. cbn [find_session].
  destruct (psup_unpack_total (container x) Hx) as (r & ->). cbn [mbind option_bind]. destruct (_ =? _), info; by apply IH.
Qed.

Lemma dissect_test_mode raw p : bytes_ok raw -> gtpu_dissect_pdu raw = Some (Some p) -> dp_test_mode p = false.
Proof.
  intros Hraw E. rewrite dissect_parse in E by done. injection E as E.
  destruct raw as [|b [|mt [|l1 [|l0 [|t3 [|t2 [|t1 [|t0 l]]]]]]]]; try done. cbn [gtpu_parse] in E. unfold parse_octets in E.
  destruct (negb (_ && _ && _)); [done|]. destruct (negb _); [done|]. destruct (parse_tail _ _) as [[[[[sn np] type] exts] r]|]; [|done].
  by injection E as <-.
Qed.

Section correct.
Context {W : Type} `{SduWindowLaws gtpu_rx_sdu_info W gtpu_rx_sdu_info_init}
  `{!SduWindowClear gtpu_rx_sdu_info W} `{!SduWindowClearLaws gtpu_rx_sdu_info W}.
Notation entity := (gtpu_psup_rx W).
Implicit Types e : entity.
Implicit Types M : psup_map.

Lemma handle_carries e ambr_ok buf : bytes_ok buf ->
  match psup_carries (g_cfg e) ambr_ok buf with Some (_, Some sn) => 0 <= sn < 65536 /\ t_reordering (g_cfg e) <> 0 | _ => True end /\
  psup_rx_handle ambr_ok buf e =
    if g_stopped e then Some (e, []) else
    match psup_carries (g_cfg e) ambr_ok buf with
    | None => Some (e, [])
    | Some (p, None) => Some (e, [p])
    | Some (p, Some sn) => psup_reorder sn p.1 p.2 e
    end.
Proof.
  intros Hb. unfold psup_rx_handle, psup_carries, psup_rx_handle_pdu. destruct (psup_test_mode (g_cfg e)) eqn:Et; cbn [gtpu_base_handle_pdu].
  { cbn [mbind option_bind dp_test_mode dp_buf]. destruct (_ && _); split; done. }
  destruct (dissect_ok buf Hb) as (r & Ed & Hr). pose proof (dissect_test_mode buf) as Etm. rewrite Ed in *. cbn [mbind option_bind default from_option]. unfold id.
  destruct r as [p|]; cbn [mbind option_bind].
  2: { destruct (_ && _), (g_stopped e); split; done. }
  destruct Hr as (_ & Hc & (sdu & Ex & _) & Hs). rewrite (Etm p Hb eq_refl), Ex. destruct (_ && _); [by destruct (g_stopped e)|].
  destruct (find_session_total (ext_list (dp_hdr p)) None Hc) as (info & ->). cbn [mbind option_bind default from_option]. unfold id.
  destruct info as [info|]; cbn [mbind option_bind]; [|by destruct (g_stopped e)].
  destruct (f_seq_number _); cbn [negb orb andb].
  - destruct (Z.eqb_spec (t_reordering (g_cfg e)) 0); cbn [negb]; (split; [done|by destruct (g_stopped e)]).
  - split; [done|by destruct (g_stopped e)].
Qed.

(** ** What a run takes and passes on *)

(** A PDU that is handed up at once: without a sequence number to restore, or with one outside of the window *)
Definition psup_direct (i : psup_input) e : list packet :=
  match i with
  | PsupPdu ambr_ok buf =>
      if g_stopped e then [] else
      match psup_carries (g_cfg e) ambr_ok buf with
      | None => []
      | Some (p, None) => [p]
      | Some (p, Some sn) => if g_inside_rx_window sn (default (gtpu_rx_state_init sn) (g_state e)) then [] else [p]
      end
  | _ => []
  end.

(** A PDU that is put in order: neither of these, and not there already *)
Definition psup_taken (i : psup_input) e : list (Z * packet) :=
  match i with
  | PsupPdu ambr_ok buf =>
      if g_stopped e then [] else
      match psup_carries (g_cfg e) ambr_ok buf with
      | Some (p, Some sn) =>
          if g_inside_rx_window sn (default (gtpu_rx_state_init sn) (g_state e)) && negb (has_sn (g_window e) sn) then [(sn, p)] else []
      | _ => []
      end
  | _ => []
  end.

(** What happens in the steps of a run, one after the other *)
Fixpoint psup_log {A} (f : psup_input -> entity -> list A) (l : list psup_input) e : list A :=
  match l with
  | [] => []
  | i :: l => f i e ++ match psup_step i e with Some (e, _) => psup_log f l e | None => [] end
  end.

(** The octets of PDUs are octets; the callback is not later than [psup_allowed_callback] says. *)
Definition psup_allowed (i : psup_input) e : Prop :=
  match i with PsupPdu _ buf => bytes_ok buf | PsupCallback => psup_allowed_callback e | _ => True end.

Fixpoint psup_allowed_run (l : list psup_input) e : Prop :=
  match l with
  | [] => True
  | i :: l => psup_allowed i e /\ forall e' out, psup_step i e = Some (e', out) -> psup_allowed_run l e'
  end.

(** The packets with their numbers: of those from [D] on the window holds exactly the ones in [G]. *)
Notation numbered := (gmap Z packet).
Implicit Types G : numbered.
Definition psup_view (D : Z) (G : numbered) M : Prop :=
  (forall n, D <= n < D + 65536 -> delivery <$> M !! sn_of n = G !! n) /\ (forall n, is_Some (G !! n) -> n < D + 32768).

Lemma view_empty D : psup_view D ∅ ∅.
Proof. split; [intros n _; by rewrite !lookup_empty|]. intros n [x Hx]. by rewrite lookup_empty in Hx. Qed.

Lemma view_insert D G M sn p : psup_view D G M -> 0 <= sn < 65536 -> number D sn < D + 32768 ->
  psup_view D (<[number D sn := p]> G) (<[sn := GtpuSduInfo p.1 p.2 (Some sn)]> M).
Proof.
  intros [HG Hlt] Hs Hn. split.
  - intros n Hr. rewrite !lookup_insert. destruct (decide (number D sn = n)) as [<-|Hne].
    + rewrite number_sn, decide_True by done. by destruct p.
    + rewrite decide_False; [by apply HG|]. intros E. destruct Hne. rewrite E. by apply number_of.
  - intros n [x Hx]. apply lookup_insert_Some in Hx as [[<- _]|[_ Hx]]; [done|]. apply Hlt. by eexists.
Qed.

Lemma view_move D D' G M : psup_view D G M -> D <= D' <= D + 32768 -> psup_view D' G (packets_from D D' M).
Proof.
  intros [HG Hlt] HD. split; [|intros n Hn; specialize (Hlt n Hn); lia]. intros n Hn. destruct (decide (n < D + 65536)) as [Hl|Hl].
  - rewrite packets_from_at by lia. apply HG. lia.
  - assert (E : sn_of n = sn_of (n - 65536)) by (rewrite sn_mod_eq; lia).
    rewrite E, packets_from_lookup, number_of, decide_False by lia. destruct (G !! n) eqn:Eg; [|done].
    assert (n < D + 32768) by (apply Hlt; by eexists). lia.
Qed.

Lemma view_between D D' G M : psup_view D G M -> D' <= D + 65536 -> packets_between M D D' = omap (G !!.) (seqZ D (D' - D)).
Proof. intros [HG _] HD. apply omap_seqZ_ext. intros n Hn. apply HG. lia. Qed.

(** From one moment to another the packets [acc] were taken and those with numbers from [D] to [D'] left in order. *)
Record advance (D D' : Z) (G G' : numbered) (acc : list (Z * packet)) (ord : list packet) : Prop := Advance {
  adv_le : D <= D';
  adv_old : forall n, n < D -> G' !! n = G !! n;
  adv_out : ord = omap (G' !!.) (seqZ D (D' - D));
  adv_acc : (prod_map (fun n => sn_of n) id <$> map_to_list G') ≡ₚ acc ++ (prod_map (fun n => sn_of n) id <$> map_to_list G);
}.

Lemma advance_refl D G : advance D D G G [] [].
Proof. split; [lia|done| |done]. by rewrite Z.sub_diag. Qed.

Lemma advance_trans D1 D2 D3 G1 G2 G3 a1 a2 o1 o2 : advance D1 D2 G1 G2 a1 o1 -> advance D2 D3 G2 G3 a2 o2 -> advance D1 D3 G1 G3 (a1 ++ a2) (o1 ++ o2).
Proof.
  intros [Hle1 Hold1 -> Hacc1] [Hle2 Hold2 -> Hacc2]. split; [lia| | |].
  - intros n Hn. rewrite Hold2, Hold1 by lia. done.
  - replace (D3 - D1) with ((D2 - D1) + (D3 - D2)) by lia. rewrite seqZ_app, omap_app by lia.
    replace (D1 + (D2 - D1)) with D2 by lia. f_equal. apply omap_seqZ_ext. intros n Hn. by rewrite Hold2 by lia.
  - rewrite Hacc2, Hacc1, !app_assoc. by rewrite (Permutation_app_comm a2 a1).
Qed.

Lemma advance_insert D D' G M sn p ord :
  psup_view D G M -> M !! sn = None -> 0 <= sn < 65536 -> number D sn < D + 32768 -> D <= D' <= D + 32768 ->
  ord = packets_between (<[sn := GtpuSduInfo p.1 p.2 (Some sn)]> M) D D' -> advance D D' G (<[number D sn := p]> G) [(sn, p)] ord.
Proof.
  intros Hv Hn Hs Hlt HD ->. pose proof (view_insert D G M sn p Hv Hs Hlt) as Hv1. pose proof (number_range D sn). split; [lia| | |].
  - intros n Hl. apply lookup_insert_ne. lia.
  - apply (view_between D D' _ _ Hv1). lia.
  - rewrite map_to_list_insert; [cbn; by rewrite number_sn|]. destruct Hv as [HG _]. rewrite <- HG by lia. by rewrite number_sn, Hn.
Qed.

(** ** Steps *)

Definition is_callback (i : psup_input) : bool := match i with PsupCallback => true | _ => false end.

(** What a step or a run does from a state with these numbers *)
Definition moves (callback : bool) (D : Z) G (taken : list (Z * packet)) (direct : list packet) e' (out : list packet) : Prop :=
  exists D' M' G' ord, psup_inv D' e' M' /\ psup_view D' G' M' /\ is_Some (g_state e') /\ advance D D' G G' taken ord /\
    interleaving direct ord out /\ (callback = false -> forall n, D <= n < D' -> is_Some (G' !! n)).

Lemma moves_nothing b D G M out e' : psup_inv D e' M -> psup_view D G M -> is_Some (g_state e') -> moves b D G [] out e' out.
Proof.
  intros Hi Hv Hs. exists D, M, G, []. split_and!; [done..|apply advance_refl|apply il_lefts|]. intros _ n Hn. lia.
Qed.

Lemma inv_timer D e M : psup_inv D e M -> psup_inv D (g_set_timer false e) M.
Proof.
  intros (Hw & Hc & Hcfg & Hst). split; [done|]. split; [done|]. split; [done|]. cbn [g_state g_timer g_set_timer].
  destruct (g_state e) as [st|]; [|by destruct Hst]. destruct Hst as (Hn & N & Hnum). split; [done|]. exists N.
  exact (numbers_timer _ _ _ _ _ Hnum).
Qed.

Lemma inv_stop D e M : psup_inv D e M -> psup_inv D (psup_rx_stop e) M.
Proof. intros Hi. unfold psup_rx_stop. destruct (g_stopped e); [done|]. exact (inv_timer D e M Hi). Qed.

Lemma inside_number D e M st sn :
  psup_inv D e M -> g_state e = Some st -> 0 <= sn < 65536 -> g_inside_rx_window sn st = (number D sn <? D + 32768).
Proof.
  intros (_ & _ & _ & Hst) Est Hs. rewrite Est in Hst. destruct Hst as (_ & N & Hn). unfold g_inside_rx_window.
  rewrite (base_sn _ _ _ _ _ _ Hn Hs), rx_window_size_eq. apply Bool.eq_iff_eq_true. rewrite !Z.ltb_lt. lia.
Qed.

Lemma pdu_moves D e M G st sn (p : packet) :
  psup_inv D e M -> psup_view D G M -> g_state e = Some st -> 0 <= sn < 65536 ->
  exists e' out, psup_reorder sn p.1 p.2 e = Some (e', out) /\
    moves false D G (if g_inside_rx_window sn st && negb (has_sn (g_window e) sn) then [(sn, p)] else [])
      (if g_inside_rx_window sn st then [] else [p]) e' out.
Proof.
  intros Hi Hv Est Hs. destruct (reorder_spec e D M st sn p.1 p.2 Hi Est Hs) as (e' & out & E & Hr & _ & Hst').
  exists e', out. split; [done|]. rewrite (inside_number D e M st sn Hi Est Hs). pose proof Hi as (Hw & _).
  rewrite (holds_has _ M) by (done || lia). destruct Hr as [Hout -> Hi'|Hin Hsome -> Hi'|D' Hin Hnone HD Mp -> Hskip Hi'].
  - rewrite (proj2 (Z.ltb_ge _ _)) by lia. cbn [andb]. rewrite <- surjective_pairing. by eapply moves_nothing.
  - rewrite (proj2 (Z.ltb_lt _ _)) by lia. rewrite bool_decide_true by done. cbn [andb negb]. by eapply moves_nothing.
  - rewrite (proj2 (Z.ltb_lt _ _)) by lia. rewrite Hnone, bool_decide_false by by intros []. cbn [andb negb fst snd] in *.
    pose proof (view_insert D G M sn p Hv Hs Hin) as Hv1.
    exists D', (packets_from D D' Mp), (<[number D sn := p]> G), (packets_between Mp D D').
    split; [done|]. split; [by apply view_move|]. split; [done|]. split; [by eapply advance_insert|]. split; [apply il_rights|].
    intros _ n Hn. destruct Hv1 as [HG _]. rewrite <- HG by lia. apply fmap_is_Some. by apply Hskip.
Qed.

Lemma step_some i e D M G :
  psup_inv D e M -> psup_view D G M -> is_Some (g_state e) -> psup_allowed i e ->
  exists e' out, psup_step i e = Some (e', out) /\ moves (is_callback i) D G (psup_taken i e) (psup_direct i e) e' out.
Proof.
  intros Hi Hv [st Est] Hal. destruct i as [ambr_ok buf| | |]; cbn [psup_step is_callback psup_taken psup_direct psup_allowed] in *.
  - destruct (handle_carries e ambr_ok buf Hal) as [Hsn ->]. destruct (g_stopped e).
    { eexists _, _. split; [reflexivity|]. eapply moves_nothing; [done|done|by eexists]. }
    destruct (psup_carries _ _ _) as [[p [sn|]]|].
    + destruct Hsn as [Hsn _]. rewrite Est. cbn [default from_option]. unfold id. by apply (pdu_moves D e M).
    + eexists _, _. split; [reflexivity|]. eapply moves_nothing; [done|done|by eexists].
    + eexists _, _. split; [reflexivity|]. eapply moves_nothing; [done|done|by eexists].
  - eexists _, _. split; [reflexivity|]. eapply moves_nothing; [by apply inv_timer|done|by eexists].
  - destruct (expire_spec e D M Hi Hal) as (D' & e' & out & E & Hi' & HD & -> & (_ & _ & Hst') & _). eexists _, _. split; [exact E|].
    exists D', (packets_from D D' M), G, (packets_between M D D'). split; [done|]. split; [by apply view_move|].
    split; [apply Hst'; by eexists|]. split; [|split; [apply il_rights|done]].
    split; [lia|done| |done]. apply (view_between D D' _ _ Hv). lia.
  - eexists _, _. split; [reflexivity|]. eapply moves_nothing; [by apply inv_stop|done|].
    unfold psup_rx_stop. destruct (g_stopped e); by eexists.
Qed.

Lemma moves_cons b1 b2 D G t1 d1 e1 o1 t2 d2 e2 o2 :
  moves b1 D G t1 d1 e1 o1 ->
  (forall D1 M1 G1, psup_inv D1 e1 M1 -> psup_view D1 G1 M1 -> is_Some (g_state e1) -> moves b2 D1 G1 t2 d2 e2 o2) ->
  moves (b1 || b2) D G (t1 ++ t2) (d1 ++ d2) e2 (o1 ++ o2).
Proof.
  intros (D1 & M1 & G1 & ord1 & Hi1 & Hv1 & Hs1 & Ha1 & Hl1 & Hc1) Hrest.
  destruct (Hrest D1 M1 G1 Hi1 Hv1 Hs1) as (D2 & M2 & G2 & ord2 & Hi2 & Hv2 & Hs2 & Ha2 & Hl2 & Hc2).
  exists D2, M2, G2, (ord1 ++ ord2). split_and!; [done..|by eapply advance_trans|by apply il_app|].
  intros [Hb1 Hb2]%orb_false_iff n Hn. destruct (decide (n < D1)); [|apply Hc2; [done|lia]].
  rewrite (adv_old _ _ _ _ _ _ Ha2) by done. apply Hc1; [done|lia].
Qed.

Lemma run_some l : forall e D M G,
  psup_inv D e M -> psup_view D G M -> is_Some (g_state e) -> psup_allowed_run l e ->
  exists e' out, psup_run l e = Some (e', out) /\ moves (existsb is_callback l) D G (psup_log psup_taken l e) (psup_log psup_direct l e) e' out.
Proof.
  induction l as [|i l IH]; intros e D M G Hi Hv Hs Hal; cbn [psup_run psup_log existsb].
  { eexists _, _. split; [reflexivity|]. by eapply moves_nothing. }
  destruct Hal as [Hal Hrest]. destruct (step_some i e D M G Hi Hv Hs Hal) as (e1 & o1 & E1 & Hm1). rewrite (bind_run E1), E1. cbv beta iota.
  pose proof Hm1 as (D1 & M1 & G1 & _ & Hi1 & Hv1 & Hs1 & _). destruct (IH e1 D1 M1 G1 Hi1 Hv1 Hs1 (Hrest e1 o1 E1)) as (e2 & o2 & E2 & _).
  rewrite (bind_run E2). cbv beta iota. eexists _, _. split; [reflexivity|]. eapply moves_cons; [exact Hm1|].
  intros D3 M3 G3 Hi3 Hv3 Hs3. destruct (IH e1 D3 M3 G3 Hi3 Hv3 Hs3 (Hrest e1 o1 E1)) as (e2' & o2' & E2' & Hm2).
  rewrite E2 in E2'. by injection E2' as <- <-.
Qed.

(** ** Before the first sequence number *)
Definition psup_start (sn : Z) e : entity := g_set_st (gtpu_rx_state_init sn) e.

Definition psup_numbered (i : psup_input) e : option Z :=
  match i with
  | PsupPdu ambr_ok buf => if g_stopped e then None else match psup_carries (g_cfg e) ambr_ok buf with Some (_, o) => o | None => None end
  | _ => None
  end.

Lemma start_inv D e sn : psup_inv D e ∅ -> g_state e = None -> t_reordering (g_cfg e) <> 0 -> 0 <= sn < 65536 -> psup_inv sn (psup_start sn e) ∅.
Proof.
  intros (Hw & Hc & _ & Hst) Est Hcfg Hs. rewrite Est in Hst. destruct Hst as [_ Ht]. split; [done|]. split; [done|]. split; [done|]. split; [done|].
  exists sn. assert (Esn : sn_of sn = sn) by (rewrite sn_mod_eq; lia). split; [by rewrite Esn|]. split; [by rewrite Esn|]. split; [lia|]. split; [done|].
  cbn [psup_start g_set_st g_timer]. rewrite Ht. split; [done|]. intros k x Hx. by rewrite lookup_empty in Hx.
Qed.

Lemma step_none i e D :
  psup_inv D e ∅ -> g_state e = None -> psup_allowed i e ->
  match psup_numbered i e with
  | Some sn => psup_inv sn (psup_start sn e) ∅ /\ psup_allowed i (psup_start sn e) /\ psup_step i e = psup_step i (psup_start sn e) /\
      psup_taken i e = psup_taken i (psup_start sn e) /\ psup_direct i e = psup_direct i (psup_start sn e)
  | None => exists e', psup_step i e = Some (e', psup_direct i e) /\ g_state e' = None /\ psup_inv D e' ∅ /\ psup_taken i e = []
  end.
Proof.
  intros Hi Est Hal. destruct i as [ambr_ok buf| | |]; cbn [psup_numbered psup_step psup_taken psup_direct psup_allowed] in *.
  - destruct (handle_carries e ambr_ok buf Hal) as [Hsn ->]. destruct (g_stopped e) eqn:Esp; [by exists e|].
    destruct (psup_carries _ _ _) as [[p [sn|]]|] eqn:Ec; [|by exists e..]. destruct Hsn as [Hsn Hcfg].
    split; [by eapply start_inv|]. split; [done|]. destruct (handle_carries (psup_start sn e) ambr_ok buf Hal) as [_ ->].
    cbn [psup_start g_set_st g_stopped g_cfg g_state g_window]. rewrite Esp, Ec, Est. cbn [default from_option]. unfold id. split; [|done].
    unfold psup_reorder. cbv zeta. by rewrite Est.
  - eexists. split; [reflexivity|]. split; [done|]. split; [by apply inv_timer|done].
  - exists e. split; [|done]. unfold psup_handle_t_reordering_expire. by rewrite Est.
  - eexists. split; [reflexivity|]. split; [unfold psup_rx_stop; by destruct (g_stopped e)|]. split; [by apply inv_stop|done].
Qed.

Lemma moves_direct b D G t d d0 e' o : moves b D G t d e' o -> moves b D G t (d0 ++ d) e' (d0 ++ o).
Proof.
  intros (D1 & M1 & G1 & ord & Hi & Hv & Hs & Ha & Hl & Hc). exists D1, M1, G1, ord. split_and!; try done.
  change ord with ([] ++ ord). apply il_app; [apply il_lefts|done].
Qed.

Lemma run_none l : forall e D,
  psup_inv D e ∅ -> g_state e = None -> psup_allowed_run l e ->
  exists e' out, psup_run l e = Some (e', out) /\
    ((exists D0, moves (existsb is_callback l) D0 ∅ (psup_log psup_taken l e) (psup_log psup_direct l e) e' out) \/
     (psup_inv D e' ∅ /\ g_state e' = None /\ psup_log psup_taken l e = [] /\ psup_log psup_direct l e = out)).
Proof.
  induction l as [|i l IH]; intros e D Hi Est Hal; cbn [psup_run]; [exists e, []; split; [done|by right]|].
  destruct Hal as [Hal Hrest]. pose proof (step_none i e D Hi Est Hal) as Hstep. destruct (psup_numbered i e) as [sn|].
  - destruct Hstep as (Hi' & Hal' & Es & Et & Ed). destruct (run_some (i :: l) (psup_start sn e) sn ∅ ∅ Hi' (view_empty sn)) as (e' & out & E & Hm).
    { by eexists. } { split; [done|]. by rewrite <- Es. }
    cbn [psup_run psup_log] in E, Hm |- *. rewrite Es, Et, Ed. exists e', out. split; [exact E|]. left. by exists sn.
  - destruct Hstep as (e1 & E1 & Est1 & Hi1 & Et). destruct (IH e1 D Hi1 Est1 (Hrest _ _ E1)) as (e' & out & E & Hm).
    cbn [psup_log existsb]. rewrite (bind_run E1), E1, Et. cbv beta iota. rewrite (bind_run E). cbv beta iota. eexists _, _. split; [reflexivity|].
    assert (Ecb : is_callback i || existsb is_callback l = existsb is_callback l \/ is_callback i = true) by (destruct (is_callback i); [by right|by left]).
    destruct Hm as [[D0 Hm]|(Hi2 & Est2 & Et2 & Ed2)]; [left; exists D0|right; rewrite Et2, Ed2; by split_and!].
    apply moves_direct. destruct Ecb as [->| ->]; [done|]. destruct Hm as (D1 & M1 & G1 & ord & ? & ? & ? & ? & ? & _).
    by exists D1, M1, G1, ord.
Qed.

(** A new window *)
Definition psup_new_window (w : W) : Prop :=
  win_inv w /\ win_cap w = GTPU_RX_WINDOW_SIZE /\ forall k, 0 <= k -> win_lookup w k = None.

Lemma psup_new_inv cfg w : psup_new_window w -> psup_inv 0 (psup_rx_new cfg w) ∅.
Proof. intros (Hi & Hc & Hl). split; [by apply holds_empty|]. by split. Qed.

(** The callback is in time if it runs right when the timer expires. *)
Lemma prompt_callback_allowed D e M : psup_inv D e M -> g_timer e = true -> psup_allowed_callback (g_set_timer false e).
Proof.
  intros (_ & _ & _ & Hst) Ht. unfold psup_allowed_callback. cbn [g_state g_set_timer]. destruct (g_state e) as [st|]; [|done].
  destruct Hst as (_ & N & Hn). intros _ _. rewrite (base_next _ _ _ _ _ Hn). pose proof Hn as (_ & _ & HN & _ & HR & _).
  destruct (HR Ht) as (R & -> & HRN). rewrite (base_of _ _ _ _ _ _ Hn) by lia. lia.
Qed.

(** The same as a program *)
Definition psup_allowedb (i : psup_input) e : bool :=
  match i with
  | PsupPdu _ buf => forallb (fun b => (0 <=? b) && (b <? 256)) buf
  | PsupCallback =>
      match g_state e with
      | None => true
      | Some st => g_timer e || negb (g_inside_rx_window (g_rx_reord st) st) || (g_rx_mod_base (g_rx_reord st) st <=? g_rx_mod_base (g_rx_next st) st)
      end
  | _ => true
  end.

Fixpoint psup_allowedb_run (l : list psup_input) e : bool :=
  match l with
  | [] => true
  | i :: l => psup_allowedb i e && match psup_step i e with Some (e, _) => psup_allowedb_run l e | None => true end
  end.

Lemma allowedb_run l : forall e, psup_allowedb_run l e = true -> psup_allowed_run l e.
Proof.
  induction l as [|i l IH]; intros e Hb; [done|]. cbn [psup_allowedb_run psup_allowed_run] in *. apply andb_true_iff in Hb as [Hi Hl]. split.
  - destruct i as [ambr_ok buf| | |]; cbn [psup_allowed psup_allowedb] in *; [|done| |done].
    + apply Forall_forall. intros b Hin. rewrite forallb_forall in Hi. specialize (Hi b (proj1 (list_elem_of_In _ _) Hin)). unfold is_byte. lia.
    + unfold psup_allowed_callback. destruct (g_state e); [|done]. intros Ht Hin. rewrite Ht, Hin in Hi. cbn in Hi. lia.
  - intros e' out E. rewrite E in Hl. by apply IH.
Qed.

(** ** Theorems *)

(** C13. The NG-U receiver loses nothing and keeps the order. Start it with any configuration, and feed it any sequence of
    octets, timer expiries, callbacks, and the end of the tunnel. Only a callback that comes too late is excluded: one that finds
    the timer stopped, and RX_REORD in the window again but beyond RX_NEXT. The receiver does not fail, its invariant holds, and
    what it delivers is an interleaving of two sequences: the packets handed up at once, and packets in the order of numbers
    whose low 16 bits are their sequence numbers. The numbered packets are exactly those it took; the ones below RX_DELIV are
    delivered, each once, the window holds the others. Without a callback no number is passed over. *)
Theorem psup_rx_delivery cfg w l :
  psup_new_window w -> psup_allowed_run l (psup_rx_new cfg w) ->
  exists e out D0 D M G, psup_run l (psup_rx_new cfg w) = Some (e, out) /\ psup_inv D e M /\ D0 <= D /\
    interleaving (psup_log psup_direct l (psup_rx_new cfg w)) (omap (G !!.) (seqZ D0 (D - D0))) out /\
    (prod_map (fun n => sn_of n) id <$> map_to_list G) ≡ₚ psup_log psup_taken l (psup_rx_new cfg w) /\
    (forall n, is_Some (G !! n) -> D0 <= n < D + 32768) /\
    (forall n, D <= n < D + 32768 -> delivery <$> M !! sn_of n = G !! n) /\
    (existsb is_callback l = false -> forall n, D0 <= n < D -> is_Some (G !! n)).
Proof.
  intros Hw Hal. destruct (run_none l (psup_rx_new cfg w) 0 (psup_new_inv cfg w Hw) eq_refl Hal) as (e & out & E & Hm). exists e, out.
  destruct Hm as [(D0 & D & M & G & ord & Hi & [Hv Hlt] & _ & [Hle Hold -> Hacc] & Hl & Hc)|(Hi & _ & Et & Ed)].
  - exists D0, D, M, G. rewrite map_to_list_empty in Hacc. cbn [fmap list_fmap] in Hacc. rewrite app_nil_r in Hacc.
    split_and!; [done..| | |done].
    + intros n Hn. specialize (Hlt n Hn). split; [|done]. destruct (decide (n < D0)); [|lia]. rewrite Hold, lookup_empty in Hn by done. by destruct Hn.
    + intros n Hn. apply Hv. lia.
  - exists 0, 0, ∅, ∅. rewrite Et, Ed, map_to_list_empty. split_and!; [done..|apply il_lefts|done| | |].
    + intros n [x Hx]. by rewrite lookup_empty in Hx.
    + intros n Hn. by rewrite !lookup_empty.
    + intros _ n Hn. lia.
Qed.

(** C30. What the callback of t-Reordering delivers if it finds the timer stopped and RX_REORD in the window, not beyond RX_NEXT:
    in order, every packet in the window with a number below RX_REORD, and those after it up to the first one missing; the
    window keeps the rest, and the timer is started again exactly if one is missing. A callback that finds the timer running or
    RX_REORD outside of the window delivers nothing, changes nothing and does not start the timer. *)
Theorem psup_expiry_exact D e M :
  psup_inv D e M -> psup_allowed_callback e ->
  exists D' e', psup_handle_t_reordering_expire e = Some (e', packets_between M D D') /\ psup_inv D' e' (packets_from D D' M) /\
    D <= D' <= D + 32768 /\ if callback_acts e then expired D D' e M e' else e' = e /\ D' = D.
Proof.
  intros Hi Hal. destruct (expire_spec e D M Hi Hal) as (D' & e' & out & E & Hi' & HD & -> & _ & Hx). by exists D', e'.
Qed.
End correct.

(** ** Samples *)
#[export] Instance psup_circular_window : SduWindow gtpu_rx_sdu_info (circular_map gtpu_rx_sdu_info) := circular_window gtpu_rx_sdu_info_init.
#[export] Instance psup_circular_laws : SduWindowLaws gtpu_rx_sdu_info (circular_map gtpu_rx_sdu_info) gtpu_rx_sdu_info_init :=
  circular_window_laws gtpu_rx_sdu_info_init.
#[export] Instance psup_circular_clear_laws : SduWindowClearLaws gtpu_rx_sdu_info (circular_map gtpu_rx_sdu_info) :=
  circular_window_clear_laws gtpu_rx_sdu_info_init.

Definition sample_psup_window : circular_map gtpu_rx_sdu_info := CMap (replicate (Z.to_nat (2 ^ 15)) None) 0.
Definition sample_psup_cfg : psup_rx_config := PsupRxConfig 100 true false.
Notation sample_psup := (psup_rx_new sample_psup_cfg sample_psup_window).

Lemma sample_psup_window_new : psup_new_window sample_psup_window.
Proof. destruct (circular_fresh gtpu_rx_sdu_info_init 15) as [Hi Hn]; [done|]. by split_and!. Qed.

(** A PDU with a sequence number, for QoS flow 5 *)
Definition sample_gpdu (sn x : Z) : list Z := [0x36; 255; 0; 9; 0; 0; 0; 1; sn / 256; sn mod 256; 0; 0x85; 1; 0; 5; 0; x].

(** One packet overtakes another, a third is lost: it takes two expiries, see [passed_timer_runs]. *)
Definition sample_psup_run : list psup_input :=
  [PsupPdu true (sample_gpdu 0 10); PsupPdu true (sample_gpdu 2 12); PsupPdu true (sample_gpdu 1 11); PsupPdu true (sample_gpdu 4 14);
   PsupTimeout; PsupCallback; PsupTimeout; PsupCallback].

Example sample_psup_run_delivers : snd <$> psup_run sample_psup_run sample_psup = Some [([10], 5); ([11], 5); ([12], 5); ([14], 5)].
Proof. vm_compute. reflexivity. Qed.

Lemma sample_psup_run_allowed : psup_allowed_run sample_psup_run sample_psup.
Proof. apply allowedb_run. vm_compute. reflexivity. Qed.

Lemma psup_rx_delivery_witness :
  exists e out D0 D M G, psup_run sample_psup_run sample_psup = Some (e, out) /\ psup_inv D e M /\ D0 <= D /\
    interleaving (psup_log psup_direct sample_psup_run sample_psup) (omap (G !!.) (seqZ D0 (D - D0))) out /\
    (prod_map (fun n => sn_of n) id <$> map_to_list G) ≡ₚ psup_log psup_taken sample_psup_run sample_psup /\
    (forall n, is_Some (G !! n) -> D0 <= n < D + 32768) /\
    (forall n, D <= n < D + 32768 -> delivery <$> M !! sn_of n = G !! n) /\
    (existsb is_callback sample_psup_run = false -> forall n, D0 <= n < D -> is_Some (G !! n)).
Proof. apply (psup_rx_delivery sample_psup_cfg sample_psup_window sample_psup_run); [apply sample_psup_window_new|apply sample_psup_run_allowed]. Defined.

(** Packet 3 is missing, packet 4 waits. *)
Definition sample_waiting (w : circular_map gtpu_rx_sdu_info) : gtpu_psup_rx (circular_map gtpu_rx_sdu_info) :=
  PsupRx sample_psup_cfg false (Some (GtpuRxState 5 3 5)) w false.
Definition sample_waiting_map : psup_map := {[4 := GtpuSduInfo [14] 5 (Some 4)]}.

Lemma sample_waiting_inv : exists w, psup_inv 3 (sample_waiting w) sample_waiting_map.
Proof.
  destruct sample_psup_window_new as (Hi & Hc & Hl). pose proof (holds_empty sample_psup_window Hi Hl) as Hw.
  destruct (holds_add_put sample_psup_window ∅ 4 (GtpuSduInfo [14] 5 (Some 4)) Hw) as (_ & w & _ & _ & Hw' & Hc'); [lia|apply residue_free_empty|].
  exists w. split; [exact Hw'|]. split; [exact (eq_trans Hc' Hc)|]. split; [done|]. split; [done|]. exists 5. split; [done|]. split; [done|].
  split; [lia|]. split; [cbn; lia|]. split; [done|]. intros k i Hk. unfold sample_waiting_map in Hk. apply lookup_singleton_Some in Hk as [<- <-]. split; [lia|]. split; [reflexivity|reflexivity].
Qed.

Lemma psup_expiry_exact_witness :
  exists w D' e', psup_handle_t_reordering_expire (sample_waiting w) = Some (e', packets_between sample_waiting_map 3 D') /\
    psup_inv D' e' (packets_from 3 D' sample_waiting_map) /\ 3 <= D' <= 3 + 32768 /\
    if callback_acts (sample_waiting w) then expired 3 D' (sample_waiting w) sample_waiting_map e' else e' = sample_waiting w /\ D' = 3.
Proof.
  destruct sample_waiting_inv as [w Hw]. exists w. apply psup_expiry_exact; [exact Hw|]. intros _ _. by vm_compute.
Defined.

(** ** Where the timer does not help

    A packet in the last place of the window starts t-Reordering with RX_REORD one past the window: its expiry is skipped, and
    the timer is not started again. *)
Example edge_expiry_skipped :
  (fun r => (g_state r.1, g_timer r.1, r.2)) <$>
    psup_run [PsupPdu true (sample_gpdu 0 10); PsupPdu true (sample_gpdu 32768 11); PsupTimeout; PsupCallback] sample_psup =
  Some (Some (GtpuRxState 32769 1 32769), false, [([10], 5)]).
Proof. vm_compute. reflexivity. Qed.

(** Once the missing packet 1 has come nothing is missing, but RX_DELIV is at RX_REORD and not past it, and the timer keeps running: the
    gap before packet 4 does not start it, and its expiry delivers nothing. *)
Example passed_timer_runs :
  (fun r => (g_state r.1, g_timer r.1, snd <$> psup_run [PsupTimeout; PsupCallback] r.1)) <$> psup_run (take 4 sample_psup_run) sample_psup =
  Some (Some (GtpuRxState 5 3 3), true, Some []).
Proof. vm_compute. reflexivity. Qed.

(** A callback that is not in time: RX_REORD = 10 was passed by more than half of the sequence numbers and looks as if it were
    ahead, so RX_DELIV overtakes RX_NEXT. *)
Example stale_callback :
  (fun r => g_state r.1) <$> psup_handle_t_reordering_expire (g_set_st (GtpuRxState 4 4 10) sample_psup) =
    Some (Some (GtpuRxState 4 10 4)).
Proof. vm_compute. reflexivity. Qed.
