(* ===== verification/GtpuTeidPool.v ===== *)
(** * The pool of TEIDs ([lib/gtpu/gtpu_teid_pool_impl.h])

    TEIDs of the tunnels of one interface, handed out round robin. The time is an input. [None] is an access outside of the
    vector, or a search that never ends: its counter has 16 bits.

    The theorem relates the pool to the set of TEIDs in use; it holds of pools of up to 2^16 TEIDs. Larger ones, the default of
    the CU-UP among them, hang once the first 2^16 TEIDs are in use ([large_teid_pool_hangs]). *)
From S2P Require Import Prelude.

Definition GTPU_TEID_MIN : Z := 1.

Record teid_pool_item := TeidItem { is_allocated : bool; linger_timestamp : Z }.

Record gtpu_teid_pool := TeidPool {
  next_teid_idx : Z;
  nof_teids : Z;
  max_nof_teids : Z;
  teid_pool : list teid_pool_item;
  teid_release_linger_time : Z
}.
Implicit Types p : gtpu_teid_pool.

(** The constructor *)
Definition teid_pool_new (max linger_time : Z) : gtpu_teid_pool :=
  TeidPool 0 0 max (replicate (Z.to_nat max) (TeidItem false 0)) linger_time.

Definition full_no_lock p : bool := max_nof_teids p <=? nof_teids p.

(** An element of the vector *)
Definition pool_at p (idx : Z) : option teid_pool_item := teid_pool p !! Z.to_nat idx.
Definition pool_set (idx : Z) (x : teid_pool_item) p : gtpu_teid_pool :=
  TeidPool (next_teid_idx p) (nof_teids p) (max_nof_teids p) (<[Z.to_nat idx := x]> (teid_pool p)) (teid_release_linger_time p).

(** The search of [request_teid]: the index found, the inner [None] if the loop ends without one *)
Fixpoint find_free_teid (fuel : nat) (n : Z) p : option (option Z) :=
  if max_nof_teids p <=? n then Some None else
  match fuel with
  | O => None
  | S fuel =>
      let tmp_idx := u16 (u32 (next_teid_idx p + n) mod max_nof_teids p) in
      x ← pool_at p tmp_idx;
      if is_allocated x then find_free_teid fuel (u16 (n + 1)) p else Some (Some tmp_idx)
  end.

(** After 2^16 steps the counter is back where it was. *)
Definition teid_fuel : nat := Z.to_nat 65536.

(** [request_teid]; the inner [None] is the error. *)
Definition request_teid p : option (option Z * gtpu_teid_pool) :=
  if full_no_lock p then Some (None, p) else
  found ← find_free_teid teid_fuel 0 p;
  match found with
  | None => Some (None, p)
  | Some idx =>
      x ← pool_at p idx;
      let p := pool_set idx (TeidItem true (linger_timestamp x)) p in
      Some (Some (u32 (idx + GTPU_TEID_MIN)),
            TeidPool (u32 (idx + 1) mod max_nof_teids p) (u32 (nof_teids p + 1)) (max_nof_teids p) (teid_pool p) (teid_release_linger_time p))
  end.

Definition teid_idx (teid : Z) : Z := u32 (teid - GTPU_TEID_MIN).

(** [release_teid] at the time [now] *)
Definition release_teid (now teid : Z) p : option (bool * gtpu_teid_pool) :=
  x ← pool_at p (teid_idx teid);
  if negb (is_allocated x) then Some (false, p) else
  let p := pool_set (teid_idx teid) (TeidItem false (now + teid_release_linger_time p)) p in
  Some (true, TeidPool (next_teid_idx p) (u32 (nof_teids p - 1)) (max_nof_teids p) (teid_pool p) (teid_release_linger_time p)).

Definition is_teid_lingering (now teid : Z) p : option bool :=
  x ← pool_at p (teid_idx teid); Some (now <? linger_timestamp x).

(** ** The TEIDs in use *)

Definition in_use p (teid : Z) : Prop :=
  GTPU_TEID_MIN <= teid /\ exists x, pool_at p (teid - GTPU_TEID_MIN) = Some x /\ is_allocated x = true.

Definition count_allocated (l : list teid_pool_item) : Z := Z.of_nat (length (filter (fun x => is_allocated x = true) l)).

Record teid_pool_ok p : Prop := {
  tp_size : 0 < max_nof_teids p < 2 ^ 32;
  tp_length : Z.of_nat (length (teid_pool p)) = max_nof_teids p;
  tp_next : 0 <= next_teid_idx p < max_nof_teids p;
  tp_count : nof_teids p = count_allocated (teid_pool p);
}.

Lemma count_range l : 0 <= count_allocated l <= Z.of_nat (length l).
Proof. unfold count_allocated. pose proof (length_filter (fun x => is_allocated x = true) l). lia. Qed.

Lemma count_cons x l : count_allocated (x :: l) = Z.b2z (is_allocated x) + count_allocated l.
Proof. unfold count_allocated. rewrite filter_cons. by destruct (is_allocated x); case_decide; cbn; try lia. Qed.

Lemma count_insert l i x y : l !! i = Some x ->
  count_allocated (<[i := y]> l) = count_allocated l - Z.b2z (is_allocated x) + Z.b2z (is_allocated y).
Proof.
  revert i. induction l as [|z l IH]; intros [|i] Hi; [done|done| |]; cbn in Hi.
  - injection Hi as ->. change (<[0%nat := y]> (x :: l)) with (y :: l). rewrite !count_cons. lia.
  - change (<[S i := y]> (z :: l)) with (z :: <[i := y]> l). rewrite !count_cons, (IH i Hi). lia.
Qed.

(** Some TEID is free unless the count says otherwise. *)
Lemma count_free l : count_allocated l < Z.of_nat (length l) -> exists i x, l !! i = Some x /\ is_allocated x = false.
Proof.
  induction l as [|x l IH]; intros Hc; [by vm_compute in Hc|]. destruct (is_allocated x) eqn:Ex; [|by exists 0%nat, x].
  rewrite count_cons, Ex in Hc. cbn [Z.b2z length] in Hc. destruct IH as (i & y & ? & ?); [lia|by exists (S i), y].
Qed.

Lemma pool_at_some p idx : teid_pool_ok p -> 0 <= idx < max_nof_teids p -> exists x, pool_at p idx = Some x.
Proof.
  intros Hp Hi. unfold pool_at. destruct (teid_pool p !! Z.to_nat idx) eqn:E; [by eexists|]. apply lookup_ge_None in E.
  pose proof (tp_length p Hp). lia.
Qed.

(** The search, started at [n] *)
Lemma find_free_spec fuel : forall p n k,
  teid_pool_ok p -> max_nof_teids p <= 65536 -> 0 <= n <= k -> k < max_nof_teids p -> k - n < Z.of_nat fuel ->
  (exists x, pool_at p ((next_teid_idx p + k) mod max_nof_teids p) = Some x /\ is_allocated x = false) ->
  exists idx x, find_free_teid fuel n p = Some (Some idx) /\ 0 <= idx < max_nof_teids p /\ pool_at p idx = Some x /\ is_allocated x = false.
Proof.
  induction fuel as [|fuel IH]; intros p n k Hp Hmax Hn Hk Hf Hfree; [lia|]. cbn [find_free_teid].
  rewrite (proj2 (Z.leb_gt _ _)) by lia. pose proof (tp_next p Hp) as Hnext. pose proof (tp_size p Hp) as Hsize.
  assert (Ei : u16 (u32 (next_teid_idx p + n) mod max_nof_teids p) = (next_teid_idx p + n) mod max_nof_teids p).
  { rewrite u32_eq, (Z.mod_small (next_teid_idx p + n)) by lia. rewrite u16_eq. apply Z.mod_small.
    pose proof (Z.mod_pos_bound (next_teid_idx p + n) (max_nof_teids p)). lia. }
  rewrite Ei. set (idx := (next_teid_idx p + n) mod max_nof_teids p).
  assert (Hi : 0 <= idx < max_nof_teids p) by (apply Z.mod_pos_bound; lia).
  destruct (pool_at_some p idx Hp Hi) as (x & Ex). rewrite Ex. cbn [mbind option_bind].
  destruct (is_allocated x) eqn:Ea; [|by exists idx, x].
  assert (Hne : n <> k) by (intros ->; destruct Hfree as (y & Ey & Hy); fold idx in Ey; congruence).
  assert (Eu : u16 (n + 1) = n + 1) by (rewrite u16_eq; apply Z.mod_small; lia). rewrite Eu.
  apply (IH p (n + 1) k); try done; lia.
Qed.

Lemma request_free p :
  teid_pool_ok p -> max_nof_teids p <= 65536 -> full_no_lock p = false ->
  exists idx x, find_free_teid teid_fuel 0 p = Some (Some idx) /\ 0 <= idx < max_nof_teids p /\ pool_at p idx = Some x /\ is_allocated x = false.
Proof.
  intros Hp Hmax Hfull. apply Z.leb_gt in Hfull. pose proof (tp_count p Hp) as Hc. pose proof (tp_length p Hp) as Hl. pose proof (tp_next p Hp).
  pose proof (tp_size p Hp). destruct (count_free (teid_pool p)) as (i & x & Ei & Ex); [lia|]. pose proof (lookup_lt_Some _ _ _ Ei) as Hi.
  set (k := (Z.of_nat i - next_teid_idx p) mod max_nof_teids p).
  assert (Hk : 0 <= k < max_nof_teids p) by (apply Z.mod_pos_bound; lia).
  apply (find_free_spec teid_fuel p 0 k); try done; try lia.
  - unfold teid_fuel. lia.
  - exists x. split; [|done]. unfold pool_at, k. rewrite Zplus_mod_idemp_r.
    replace (next_teid_idx p + (Z.of_nat i - next_teid_idx p)) with (Z.of_nat i) by lia. rewrite Z.mod_small by lia. by rewrite Nat2Z.id.
Qed.

Lemma count_full l : count_allocated l = Z.of_nat (length l) -> Forall (fun x => is_allocated x = true) l.
Proof.
  induction l as [|x l IH]; intros Hc; [constructor|]. rewrite count_cons in Hc. pose proof (count_range l). cbn [length] in Hc.
  destruct (is_allocated x) eqn:Ex; cbn [Z.b2z] in Hc; [|lia]. constructor; [done|]. apply IH. lia.
Qed.

(** Changing one element *)
Lemma pool_set_ok p idx x y next nof :
  teid_pool_ok p -> pool_at p idx = Some x -> 0 <= next < max_nof_teids p ->
  nof = nof_teids p - Z.b2z (is_allocated x) + Z.b2z (is_allocated y) ->
  teid_pool_ok (TeidPool next nof (max_nof_teids p) (teid_pool (pool_set idx y p)) (teid_release_linger_time p)).
Proof.
  intros Hp Hx Hnext ->. split; cbn [max_nof_teids next_teid_idx nof_teids teid_pool pool_set]; [by apply tp_size| |done|].
  - rewrite length_insert. by apply tp_length.
  - rewrite (count_insert _ _ x) by done. by rewrite (tp_count p Hp).
Qed.

Lemma pool_set_at p idx y q :
  0 <= idx -> 0 <= q -> is_Some (pool_at p idx) -> pool_at (pool_set idx y p) q = if decide (q = idx) then Some y else pool_at p q.
Proof.
  intros Hi Hq [x Hx]. unfold pool_at, pool_set. cbn [teid_pool]. case_decide as Heq.
  - subst q. apply list_lookup_insert_eq. by eapply lookup_lt_Some.
  - apply list_lookup_insert_ne. lia.
Qed.

(** The pool holds the TEIDs of the set [S]. *)
Definition holds_teids p (S : gset Z) : Prop := forall t, t ∈ S <-> in_use p t.

Lemma in_use_at p idx t x :
  pool_at p idx = Some x -> 0 <= idx -> t = idx + GTPU_TEID_MIN -> in_use p t <-> is_allocated x = true.
Proof.
  intros Hx Hi ->. unfold in_use. replace (idx + GTPU_TEID_MIN - GTPU_TEID_MIN) with idx by lia. split.
  - intros [_ (y & Hy & Ha)]. congruence.
  - intros Ha. split; [unfold GTPU_TEID_MIN; lia|]. by exists x.
Qed.

Lemma in_use_set p idx y next nof max linger t :
  0 <= idx -> is_Some (pool_at p idx) ->
  in_use (TeidPool next nof max (teid_pool (pool_set idx y p)) linger) t <->
    if decide (t = idx + GTPU_TEID_MIN) then is_allocated y = true else in_use p t.
Proof.
  intros Hi Hs. unfold in_use. assert (Ep : forall q, pool_at (TeidPool next nof max (teid_pool (pool_set idx y p)) linger) q = pool_at (pool_set idx y p) q) by done.
  case_decide as Ht.
  - subst t. rewrite Ep. replace (idx + GTPU_TEID_MIN - GTPU_TEID_MIN) with idx by lia. rewrite pool_set_at, decide_True by done. split.
    + intros [_ (x & Hx & Ha)]. by injection Hx as <-.
    + intros Ha. split; [unfold GTPU_TEID_MIN; lia|]. by exists y.
  - split; intros [Hge (x & Hx & Ha)]; (split; [done|]); exists x; (split; [|done]); rewrite Ep, pool_set_at, decide_False in * by (done || lia); done.
Qed.

Lemma request_spec p S :
  teid_pool_ok p -> max_nof_teids p <= 65536 -> holds_teids p S ->
  exists r p', request_teid p = Some (r, p') /\ teid_pool_ok p' /\ max_nof_teids p' = max_nof_teids p /\
    match r with
    | Some t => 1 <= t <= max_nof_teids p /\ t ∉ S /\ holds_teids p' ({[t]} ∪ S)
    | None => holds_teids p' S /\ forall t, 1 <= t <= max_nof_teids p -> t ∈ S
    end.
Proof.
  intros Hp Hmax HS. pose proof (tp_length p Hp) as Hl. pose proof (count_range (teid_pool p)) as Hc. rewrite <- (tp_count p Hp) in Hc.
  unfold request_teid. destruct (full_no_lock p) eqn:Efull.
  { exists None, p. split; [done|]. split; [done|]. split; [done|]. split; [done|]. intros t Ht. apply Z.leb_le in Efull. apply HS.
    destruct (pool_at_some p (t - GTPU_TEID_MIN) Hp) as (x & Ex); [unfold GTPU_TEID_MIN; lia|].
    split; [unfold GTPU_TEID_MIN; lia|]. exists x. split; [done|].
    assert (Hall : Forall (fun x => is_allocated x = true) (teid_pool p)) by (apply count_full; rewrite <- (tp_count p Hp); lia).
    by eapply Forall_lookup_1 in Hall. }
  destruct (request_free p Hp Hmax Efull) as (idx & x & -> & Hi & Hx & Ha). cbn [mbind option_bind]. rewrite Hx. cbn [mbind option_bind].
  pose proof (tp_size p Hp). assert (Et : u32 (idx + GTPU_TEID_MIN) = idx + GTPU_TEID_MIN) by (unfold GTPU_TEID_MIN; rewrite u32_eq; lia).
  rewrite Et. eexists _, _. split; [reflexivity|]. apply Z.leb_gt in Efull. split; [|split; [done|]].
  - apply (pool_set_ok p idx x); [done|done|apply Z.mod_pos_bound; cbn; lia|]. rewrite Ha. cbn [Z.b2z is_allocated nof_teids pool_set]. rewrite u32_eq. lia.
  - split; [unfold GTPU_TEID_MIN; lia|]. split.
    + intros Hin%HS. rewrite (in_use_at p idx _ x) in Hin by (done || lia). congruence.
    + intros t. rewrite in_use_set by (by eexists || lia). rewrite elem_of_union, elem_of_singleton. case_decide; [naive_solver|]. rewrite (HS t). naive_solver.
Qed.

Lemma release_spec p S now teid :
  teid_pool_ok p -> holds_teids p S -> 1 <= teid <= max_nof_teids p ->
  exists p', release_teid now teid p = Some (bool_decide (teid ∈ S), p') /\ teid_pool_ok p' /\ max_nof_teids p' = max_nof_teids p /\ holds_teids p' (S ∖ {[teid]}).
Proof.
  intros Hp HS Ht. pose proof (tp_size p Hp). pose proof (tp_next p Hp) as Hnext. pose proof (tp_length p Hp) as Hl.
  pose proof (count_range (teid_pool p)) as Hc. unfold release_teid, teid_idx.
  assert (Ei : u32 (teid - GTPU_TEID_MIN) = teid - GTPU_TEID_MIN) by (unfold GTPU_TEID_MIN; rewrite u32_eq; lia). rewrite Ei.
  set (idx := teid - GTPU_TEID_MIN). assert (Hi : 0 <= idx < max_nof_teids p) by (unfold idx, GTPU_TEID_MIN; lia).
  assert (Ht' : teid = idx + GTPU_TEID_MIN) by (unfold idx; lia).
  destruct (pool_at_some p idx Hp Hi) as (x & Hx). rewrite Hx. cbn [mbind option_bind].
  pose proof (in_use_at p idx teid x Hx ltac:(lia) Ht') as Hin. destruct (is_allocated x) eqn:Ea; cbn [negb].
  - assert (HinS : teid ∈ S) by (by apply HS, Hin). rewrite bool_decide_true by done. eexists. split; [reflexivity|]. split; [|split; [done|]].
    + assert (Hpos : 1 <= nof_teids p).
      { rewrite (tp_count p Hp). pose proof (count_insert (teid_pool p) (Z.to_nat idx) x (TeidItem false 0) Hx) as E.
        pose proof (count_range (<[Z.to_nat idx := TeidItem false 0]> (teid_pool p))). rewrite Ea in E. cbn [Z.b2z is_allocated] in E. lia. }
      rewrite (tp_count p Hp) in Hpos. apply (pool_set_ok p idx x); [done|done|done|]. rewrite Ea. cbn [Z.b2z is_allocated nof_teids pool_set].
      rewrite (tp_count p Hp), u32_eq. lia.
    + intros t. rewrite in_use_set by (by eexists || lia). rewrite elem_of_difference, elem_of_singleton. case_decide; [naive_solver|]. rewrite (HS t). naive_solver.
  - assert (HnS : teid ∉ S) by (intros HinS%HS; by apply Hin in HinS). rewrite bool_decide_false by done. exists p. split; [done|]. split; [done|].
    split; [done|]. intros t. rewrite elem_of_difference, elem_of_singleton, <- (HS t). split; [naive_solver|]. intros H1. split; [done|congruence].
Qed.

(** ** Runs *)
Inductive teid_op := TeidRequest | TeidRelease (now teid : Z).
Inductive teid_result := TeidGranted (r : option Z) | TeidReleased (b : bool).

Definition teid_step (o : teid_op) p : option (teid_result * gtpu_teid_pool) :=
  match o with
  | TeidRequest => '(r, p) ← request_teid p; Some (TeidGranted r, p)
  | TeidRelease now teid => '(b, p) ← release_teid now teid p; Some (TeidReleased b, p)
  end.

Fixpoint teid_run (l : list teid_op) p : option (list teid_result * gtpu_teid_pool) :=
  match l with
  | [] => Some ([], p)
  | o :: l => '(r, p) ← teid_step o p; '(rs, p) ← teid_run l p; Some (r :: rs, p)
  end.

(** What the pool promises: a set of TEIDs, at most [max] of them. *)
Inductive teid_spec (max : Z) : gset Z -> list teid_op -> list teid_result -> gset Z -> Prop :=
  | ts_nil S : teid_spec max S [] [] S
  | ts_granted S t l rs S' : 1 <= t <= max -> t ∉ S -> teid_spec max ({[t]} ∪ S) l rs S' ->
      teid_spec max S (TeidRequest :: l) (TeidGranted (Some t) :: rs) S'
  | ts_refused S l rs S' : (forall t, 1 <= t <= max -> t ∈ S) -> teid_spec max S l rs S' ->
      teid_spec max S (TeidRequest :: l) (TeidGranted None :: rs) S'
  | ts_released S now t l rs S' : teid_spec max (S ∖ {[t]}) l rs S' ->
      teid_spec max S (TeidRelease now t :: l) (TeidReleased (bool_decide (t ∈ S)) :: rs) S'.

Definition teid_op_ok (max : Z) (o : teid_op) : Prop := match o with TeidRequest => True | TeidRelease _ t => 1 <= t <= max end.

Lemma teid_new_ok max linger : 0 < max < 2 ^ 32 -> teid_pool_ok (teid_pool_new max linger) /\ holds_teids (teid_pool_new max linger) ∅.
Proof.
  intros Hm. split.
  - split; cbn; [done|rewrite length_replicate; lia|lia|]. unfold count_allocated. by induction (Z.to_nat max).
  - intros t. split; [set_solver|]. intros [_ (x & Hx & Ha)]. unfold pool_at in Hx. cbn in Hx. apply lookup_replicate in Hx as [-> _]. done.
Qed.

Lemma teid_run_spec l : forall p S,
  teid_pool_ok p -> max_nof_teids p <= 65536 -> holds_teids p S -> Forall (teid_op_ok (max_nof_teids p)) l ->
  exists rs p' S', teid_run l p = Some (rs, p') /\ teid_pool_ok p' /\ holds_teids p' S' /\ teid_spec (max_nof_teids p) S l rs S'.
Proof.
  induction l as [|o l IH]; intros p S Hp Hmax HS Hl; cbn [teid_run]; [exists [], p, S; split_and!; [done..|constructor]|].
  apply Forall_cons in Hl as [Ho Hl]. destruct o as [|now t]; cbn [teid_step].
  - destruct (request_spec p S Hp Hmax HS) as (r & p1 & -> & Hp1 & Em & Hr). cbn [mbind option_bind].
    assert (Hnext : exists S1, holds_teids p1 S1 /\ forall rs S', teid_spec (max_nof_teids p) S1 l rs S' ->
      teid_spec (max_nof_teids p) S (TeidRequest :: l) (TeidGranted r :: rs) S').
    { destruct r as [t|]; [exists ({[t]} ∪ S)|exists S]; (split; [by apply Hr|]); intros rs S' Hs; [by apply ts_granted; try apply Hr|by apply ts_refused; try apply Hr]. }
    destruct Hnext as (S1 & HS1 & Hspec). destruct (IH p1 S1) as (rs & p2 & S2 & -> & Hp2 & HS2 & Hs); rewrite ?Em; try done.
    cbn [mbind option_bind]. eexists _, _, S2. split_and!; [reflexivity|done..|]. apply Hspec. by rewrite <- Em.
  - destruct (release_spec p S now t Hp HS Ho) as (p1 & -> & Hp1 & Em & HS1). cbn [mbind option_bind].
    destruct (IH p1 (S ∖ {[t]})) as (rs & p2 & S2 & -> & Hp2 & HS2 & Hs); rewrite ?Em; try done.
    cbn [mbind option_bind]. eexists _, _, S2. split_and!; [reflexivity|done..|]. apply ts_released. by rewrite <- Em.
Qed.

(** C27. A pool of up to 2^16 TEIDs implements a set: for every sequence of requests and releases, no call fails or runs
    forever, a request hands out a TEID from 1 to the size of the pool that is not in use, and is refused only if all of them
    are; a release succeeds exactly if the TEID is in use. *)
Theorem teid_pool_refines_set max linger l :
  0 < max <= 65536 -> Forall (teid_op_ok max) l ->
  exists rs p S, teid_run l (teid_pool_new max linger) = Some (rs, p) /\ teid_pool_ok p /\ holds_teids p S /\ teid_spec max ∅ l rs S.
Proof.
  intros Hm Hl. destruct (teid_new_ok max linger) as [Hp HS]; [lia|]. apply (teid_run_spec l (teid_pool_new max linger) ∅ Hp); [cbn; lia|done|done].
Qed.

Lemma teid_pool_refines_set_witness :
  exists rs p S, teid_run [TeidRequest; TeidRequest; TeidRequest; TeidRelease 5 1; TeidRelease 6 1; TeidRequest] (teid_pool_new 2 100) = Some (rs, p) /\
    teid_pool_ok p /\ holds_teids p S /\
    teid_spec 2 ∅ [TeidRequest; TeidRequest; TeidRequest; TeidRelease 5 1; TeidRelease 6 1; TeidRequest] rs S.
Proof. apply (teid_pool_refines_set 2 100); [lia|]. repeat (apply Forall_cons_2; [cbn; lia|]). apply Forall_nil_2. Defined.

(** ** Larger pools *)

Lemma find_hangs fuel : forall n p,
  65536 < max_nof_teids p -> 0 <= n < 65536 ->
  (forall idx, 0 <= idx < 65536 -> exists x, pool_at p idx = Some x /\ is_allocated x = true) -> find_free_teid fuel n p = None.
Proof.
  induction fuel as [|fuel IH]; intros n p Hm Hn Hall; cbn [find_free_teid]; rewrite (proj2 (Z.leb_gt _ _)) by lia; [done|].
  destruct (Hall (u16 (u32 (next_teid_idx p + n) mod max_nof_teids p))) as (x & -> & Hx); [rewrite u16_eq; lia|]. cbn [mbind option_bind].
  rewrite Hx. apply IH; [done|rewrite u16_eq; lia|done].
Qed.

(** The pool after [k] requests *)
Definition used_pool (max linger : Z) (k : nat) : gtpu_teid_pool :=
  TeidPool (Z.of_nat k) (Z.of_nat k) max (replicate k (TeidItem true 0) ++ replicate (Z.to_nat max - k) (TeidItem false 0)) linger.

Lemma used_pool_request max linger k :
  Z.of_nat k < 65536 -> 65536 < max < 2 ^ 32 ->
  request_teid (used_pool max linger k) = Some (Some (Z.of_nat k + 1), used_pool max linger (S k)).
Proof.
  intros Hk Hm. unfold request_teid. unfold full_no_lock at 1. cbn [max_nof_teids nof_teids used_pool]. rewrite (proj2 (Z.leb_gt _ _)) by lia.
  assert (Hat : pool_at (used_pool max linger k) (Z.of_nat k) = Some (TeidItem false 0)).
  { unfold pool_at, used_pool. cbn [teid_pool]. rewrite Nat2Z.id. rewrite lookup_app_r by by rewrite length_replicate.
    rewrite length_replicate, Nat.sub_diag. apply lookup_replicate. split; [done|lia]. }
  assert (Hfind : find_free_teid teid_fuel 0 (used_pool max linger k) = Some (Some (Z.of_nat k))).
  { unfold teid_fuel. destruct (Z.to_nat 65536) as [|fuel] eqn:Ef; [lia|]. cbn [find_free_teid]. cbn [max_nof_teids next_teid_idx used_pool].
    rewrite (proj2 (Z.leb_gt _ _)) by lia.
    assert (Ei : u16 (u32 (Z.of_nat k + 0) mod max) = Z.of_nat k).
    { rewrite Z.add_0_r, u32_eq, (Z.mod_small (Z.of_nat k) 4294967296) by lia. rewrite (Z.mod_small (Z.of_nat k) max) by lia. rewrite u16_eq. apply Z.mod_small. lia. }
    rewrite Ei. fold (used_pool max linger k). rewrite Hat. done. }
  fold (used_pool max linger k). rewrite Hfind. cbn [mbind option_bind]. rewrite Hat. cbn [mbind option_bind].
  f_equal. f_equal; [f_equal; unfold GTPU_TEID_MIN; rewrite u32_eq; lia|]. unfold used_pool, pool_set. cbn [max_nof_teids nof_teids teid_pool teid_release_linger_time].
  f_equal; [rewrite u32_eq, (Z.mod_small (Z.of_nat k + 1) 4294967296) by lia; rewrite Z.mod_small by lia; lia|rewrite u32_eq; lia|].
  rewrite replicate_S_end, <- app_assoc. rewrite Nat2Z.id. rewrite insert_app_r_alt by by rewrite length_replicate.
  rewrite length_replicate, Nat.sub_diag. by replace (Z.to_nat max - k)%nat with (S (Z.to_nat max - S k)) by lia.
Qed.

Lemma used_pool_run max linger n : forall k, Z.of_nat k + Z.of_nat n <= 65536 -> 65536 < max < 2 ^ 32 ->
  exists rs, teid_run (replicate n TeidRequest) (used_pool max linger k) = Some (rs, used_pool max linger (k + n)).
Proof.
  induction n as [|n IH]; intros k Hk Hm; cbn [replicate teid_run]; [exists []; by rewrite Nat.add_0_r|].
  cbn [teid_step]. rewrite used_pool_request by lia. cbn [mbind option_bind]. destruct (IH (S k)) as (rs & E); [lia|done|].
  rewrite E. cbn [mbind option_bind]. exists (TeidGranted (Some (Z.of_nat k + 1)) :: rs). by replace (k + S n)%nat with (S k + n)%nat by lia.
Qed.

(** C39. A larger pool, such as that of the CU-UP with its default of 16384 UEs with 256 sessions each, hands out 2^16 TEIDs and
    then never returns from the next request: TEIDs above 2^16 are never tried, the counter of the search wraps, and the
    mutex of the pool stays locked. *)
Theorem large_teid_pool_hangs max linger :
  65536 < max < 2 ^ 32 ->
  exists rs p, teid_run (replicate (Z.to_nat 65536) TeidRequest) (teid_pool_new max linger) = Some (rs, p) /\ nof_teids p = 65536 /\
    full_no_lock p = false /\ (forall fuel, find_free_teid fuel 0 p = None) /\ request_teid p = None.
Proof.
  intros Hm. destruct (used_pool_run max linger (Z.to_nat 65536) 0) as (rs & E); [lia|done|].
  assert (E0 : used_pool max linger 0 = teid_pool_new max linger) by (unfold used_pool, teid_pool_new; by rewrite Nat.sub_0_r).
  rewrite E0, Nat.add_0_l in E. set (p := used_pool max linger (Z.to_nat 65536)) in *. exists rs, p. split; [exact E|].
  assert (Hnof : nof_teids p = 65536) by (unfold p, used_pool; cbn [nof_teids]; lia).
  assert (Hfull : full_no_lock p = false) by (unfold full_no_lock; rewrite Hnof; apply Z.leb_gt; by destruct Hm).
  assert (Hh : forall fuel, find_free_teid fuel 0 p = None).
  { intros fuel. apply find_hangs; [by destruct Hm|lia|]. intros idx Hi. exists (TeidItem true 0). split; [|done]. unfold pool_at, p, used_pool.
    cbn [teid_pool]. rewrite lookup_app_l by (rewrite length_replicate; lia). apply lookup_replicate. split; [done|lia]. }
  split; [done|]. split; [done|]. split; [exact Hh|]. unfold request_teid. by rewrite Hfull, Hh.
Qed.

Lemma large_teid_pool_hangs_witness :
  exists rs p, teid_run (replicate (Z.to_nat 65536) TeidRequest) (teid_pool_new (16384 * 256) 100) = Some (rs, p) /\ nof_teids p = 65536 /\
    full_no_lock p = false /\ (forall fuel, find_free_teid fuel 0 p = None) /\ request_teid p = None.
Proof. apply large_teid_pool_hangs. lia. Defined.

(** ** A TEID that was never in the pool

    [is_teid_lingering] trusts its argument; the demultiplexer passes TEIDs from the network. *)
Lemma foreign_teid_outside p now teid :
  teid_pool_ok p -> 0 <= teid < 2 ^ 32 -> is_teid_lingering now teid p = None <-> teid = 0 \/ max_nof_teids p < teid.
Proof.
  intros Hp Ht. pose proof (tp_length p Hp) as Hl. pose proof (tp_size p Hp) as Hs. unfold is_teid_lingering, teid_idx.
  assert (E : is_Some (pool_at p (u32 (teid - GTPU_TEID_MIN))) <-> 1 <= teid <= max_nof_teids p).
  { unfold pool_at. rewrite lookup_lt_is_Some. unfold GTPU_TEID_MIN. rewrite u32_eq. lia. }
  destruct (pool_at p (u32 (teid - GTPU_TEID_MIN))) as [x|]; cbn [mbind option_bind].
  - assert (1 <= teid <= max_nof_teids p) by (apply E; by eexists). split; [done|lia].
  - split; [|done]. intros _. destruct (decide (1 <= teid <= max_nof_teids p)) as [Hin|]; [|lia]. apply E in Hin. by destruct Hin.
Qed.
