(* ===== verification/GtpuPathMgmt.v ===== *)
(** * Path management ([lib/gtpu/gtpu_echo_tx_impl.h], [gtpu_echo_rx_impl.h])

    Messages for TEID 0: echo requests and their responses, and the error indications that the demultiplexer sends for TEIDs it
    does not know. What one end sends, the other understands. *)
From S2P Require Import Prelude BitCodec BitFields BitIo Nru GtpuPdu GtpuPduCorrect GtpuTunnels.

(** The header that all of them fill in *)
Definition path_header (msg_type sn : Z) : gtpu_header :=
  GtpuHdr (Flags GTPU_FLAGS_VERSION_V1 GTPU_FLAGS_GTP_PROTOCOL false true false) msg_type 0 GTPU_PATH_MANAGEMENT_TEID sn 0
    no_more_extension_headers [].

(** ** Echo *)

(** [gtpu_echo_tx::send_echo_request] with its counter: the PDU, if one is sent, and the counter after it *)
Definition send_echo_request (mem : gtpu_memory) (sn_next : Z) : option (option (list Z) * Z) :=
  pdu ← write_and_send mem [] (path_header GTPU_MSG_ECHO_REQUEST (u16 sn_next));
  Some (pdu, match pdu with Some _ => u32 (sn_next + 1) | None => sn_next end).

Definition send_echo_response (mem : gtpu_memory) (sn : Z) : option (option (list Z)) :=
  '(write_ok, buf) ← gtpu_write_ie_recovery (mm_ext mem) [] 0;
  if negb (write_ok : bool) then Some None else write_and_send mem buf (path_header GTPU_MSG_ECHO_RESPONSE sn).

(** What [gtpu_echo_rx::handle_pdu] makes of a PDU *)
Inductive path_event := SendEchoResponse (sn : Z) | HandleEchoResponse (sn : Z) | ErrorIndication (m : gtpu_msg_error_indication) | Discarded.

Definition echo_rx_handle_pdu (pdu : gtpu_dissected_pdu) : option path_event :=
  if negb (teid (dp_hdr pdu) =? GTPU_PATH_MANAGEMENT_TEID) then Some Discarded else
  if negb (f_seq_number (flags (dp_hdr pdu))) then Some Discarded else
  let type := message_type (dp_hdr pdu) in
  if type =? GTPU_MSG_ECHO_REQUEST then Some (SendEchoResponse (seq_number (dp_hdr pdu)))
  else if type =? GTPU_MSG_ECHO_RESPONSE then Some (HandleEchoResponse (seq_number (dp_hdr pdu)))
  else if type =? GTPU_MSG_SUPPORTED_EXTENSION_HEADERS_NOTIFICATION then Some Discarded
  else if type =? GTPU_MSG_ERROR_INDICATION then
    msg ← gtpu_extract_msg pdu;
    ei ← gtpu_read_msg_error_indication msg;
    Some (match ei with Some m => ErrorIndication m | None => Discarded end)
  else Some Discarded.

Definition echo_rx_handle (buf : list Z) : option path_event :=
  p ← gtpu_base_handle_pdu false buf;
  match p with None => Some Discarded | Some p => echo_rx_handle_pdu p end.

(** ** Error indications *)

(** [gtpu_demux_impl::send_error_indication] once it is not stopped: the PDU, if one is sent, and the sequence number after it *)
Definition send_error_indication (mem : gtpu_memory) (ei_peer_addr : gtpu_peer_address) (teid ei_sn_next : Z) : option (option (list Z) * Z) :=
  '(ok, buf) ← gtpu_write_ie_teid_i (mm_ext mem) [] teid;
  if negb (ok : bool) then Some (None, ei_sn_next) else
  '(ok, buf) ← gtpu_write_ie_gtpu_peer_address (mm_ext mem) buf ei_peer_addr;
  if negb (ok : bool) then Some (None, ei_sn_next) else
  pdu ← write_and_send mem buf (path_header GTPU_MSG_ERROR_INDICATION ei_sn_next);
  Some (pdu, u16 (ei_sn_next + 1)).

(** ** What is sent *)

(** A PDU of path management *)
Definition path_pdu (msg_type sn : Z) (msg pdu : list Z) : Prop :=
  exists p, bytes_ok pdu /\ gtpu_dissect_pdu pdu = Some (Some p) /\ gtpu_extract_msg p = Some msg /\ teid (dp_hdr p) = 0 /\
    f_seq_number (flags (dp_hdr p)) = true /\ seq_number (dp_hdr p) = sn /\ message_type (dp_hdr p) = msg_type.

Lemma sends_path mem msg_type sn msg :
  msg_type = GTPU_MSG_ECHO_REQUEST \/ msg_type = GTPU_MSG_ECHO_RESPONSE \/ msg_type = GTPU_MSG_ERROR_INDICATION ->
  0 <= sn < 65536 -> bytes_ok msg -> sends mem (write_and_send mem msg (path_header msg_type sn)) (path_pdu msg_type sn msg).
Proof.
  intros Ht Hs Hb. set (h := path_header msg_type sn).
  assert (Hok : header_ok h) by (unfold header_ok, h; cbn; destruct Ht as [->|[->| ->]]; octets_ok).
  assert (Hmt : gtpu_supported_msg_type_check h = true) by (unfold gtpu_supported_msg_type_check; cbn; destruct Ht as [->|[->| ->]]; done).
  assert (Hlen : length (header_octets h msg) = 12%nat).
  { unfold header_octets. cbn [ext_list h path_header has_optional flags f_seq_number f_n_pdu]. rewrite !length_app, !be_length. done. }
  unfold write_and_send. rewrite write_header_spec, Hmt, Hlen by done. change (gtpu_supported_flags_check h) with true. cbn [andb].
  destruct (Nat.leb_spec 12 (mm_hdr mem)); cbn [andb mbind option_bind].
  - destruct (mm_prepend mem) eqn:Ep; cbn [mbind option_bind]; [|apply sends_none; intros (_ & _ & ? & _); congruence].
    destruct (written_dissects h msg) as (Hby & Ed & Ex); [done|done|done|apply Forall_nil_2|cbn; lia|].
    eexists. split; [reflexivity|]. split; [by eexists|]. intros pdu [= <-]. eexists. split; [exact Hby|]. split; [exact Ed|]. split; [exact Ex|]. done.
  - apply sends_none. intros (_ & ? & _). lia.
Qed.

(** Information elements *)
Lemma ie_recovery_spec room pdu c : bytes_ok pdu -> is_byte c ->
  runs_to (gtpu_write_ie_recovery room pdu c) (fun r => r.1 = bool_decide (2 <= Z.of_nat room) /\ (r.1 = true -> r.2 = pdu ++ [14; c])).
Proof.
  intros Hb Hc. unfold gtpu_write_ie_recovery, enc_at, ie_recovery. pose proof (packed_start pdu room Hb) as Hp. unfold is_byte in Hc. do 2 pack_step Hp.
  apply runs_to_ret. destruct (packed_result _ _ (pdu ++ [14; c]) _ Hp) as [H1 H2].
  - rewrite <- app_assoc. apply same_app; [by apply same_octets|]. apply (same_app [(14, 8)] [(c, 8)] [14] [c]); by apply same_octet.
  - split; [|done]. unfold enc_result. cbn [fst snd]. rewrite H1. apply bool_decide_ext. rewrite length_app. cbn. lia.
Qed.

Lemma ie_teid_spec room pdu t : bytes_ok pdu -> 0 <= t < 2 ^ 32 ->
  runs_to (gtpu_write_ie_teid_i room pdu t) (fun r => r.1 = bool_decide (5 <= Z.of_nat room) /\ (r.1 = true -> r.2 = pdu ++ 16 :: be 4 t)).
Proof.
  intros Hb Ht. unfold gtpu_write_ie_teid_i, enc_at, ie_tunnel_endpoint_identifier_data_i. pose proof (packed_start pdu room Hb) as Hp. do 2 pack_step Hp.
  apply runs_to_ret. destruct (packed_result _ _ (pdu ++ 16 :: be 4 t) _ Hp) as [H1 H2].
  - rewrite <- app_assoc. apply same_app; [by apply same_octets|]. apply (same_app [(16, 8)] [(t, 32)] [16] (be 4 t)); [by apply same_octet|].
    by apply (same_be 4 t); [lia|].
  - split; [|done]. unfold enc_result. cbn [fst snd]. rewrite H1. apply bool_decide_ext. rewrite length_app. cbn [length]. rewrite be_length. lia.
Qed.

Definition address_octets (a : gtpu_peer_address) : list Z := match a with Ipv4 l | Ipv6 l => l end.
Definition address_ok (a : gtpu_peer_address) : Prop :=
  bytes_ok (address_octets a) /\ length (address_octets a) = match a with Ipv4 _ => 4%nat | Ipv6 _ => 16%nat end.

Lemma ie_address_spec room pdu a : bytes_ok pdu -> address_ok a ->
  runs_to (gtpu_write_ie_gtpu_peer_address room pdu a) (fun r =>
    r.1 = bool_decide (3 + z_len (address_octets a) <= Z.of_nat room) /\
    (r.1 = true -> r.2 = pdu ++ 133 :: be 2 (z_len (address_octets a)) ++ address_octets a)).
Proof.
  intros Hb [Ha Hl]. unfold gtpu_write_ie_gtpu_peer_address, enc_at, ie_gsn_address. pose proof (packed_start pdu room Hb) as Hp.
  assert (Ea : match a with Ipv4 addr => (4, addr) | Ipv6 addr => (16, addr) end = (z_len (address_octets a), address_octets a)).
  { unfold z_len. rewrite Hl. by destruct a. }
  rewrite Ea. clear Ea. set (n := z_len (address_octets a)). assert (Hn : 0 <= n < 65536) by (unfold n, z_len; rewrite Hl; destruct a; lia).
  do 2 pack_step Hp. eapply runs_to_bind; [apply (pack_bytes_run _ _ _ _ Hp Ha)|].
  { rewrite !fields_bits_app, octets_bits. cbn [fields_bits fold_right fst snd]. unfold fields_bits. cbn. lia. }
  clear Hp. intros s1 Hp. apply runs_to_ret. destruct (packed_result _ _ (pdu ++ 133 :: be 2 n ++ address_octets a) _ Hp) as [H1 H2].
  - rewrite <- !app_assoc. apply same_app; [by apply same_octets|]. apply (same_app [(133, 8)] ([(n, 16)] ++ octets (address_octets a)) [133]); [by apply same_octet|].
    apply same_app; [|by apply same_octets]. by apply (same_be 2 n); [lia|].
  - split; [|done]. unfold enc_result. cbn [fst snd]. rewrite H1. apply bool_decide_ext. rewrite length_app. cbn [length]. rewrite length_app, be_length.
    fold (z_len (address_octets a)). unfold n, z_len. lia.
Qed.

Lemma unpack_octet_list n bs rest : length bs = n -> (0 < n)%nat -> unpack_bytes n (Dec (bs ++ rest) 0) = Some (true, bs, Dec rest 0).
Proof.
  intros Hl Hn. unfold unpack_bytes. cbn [dec_rest dec_offset]. rewrite (proj2 (Nat.eqb_neq _ _)) by lia.
  rewrite (proj2 (Nat.ltb_ge _ _)) by (rewrite length_app; lia). cbn [Z.eqb]. subst n. by rewrite take_app_length, drop_app_length.
Qed.

Lemma read_error_indication_spec t a :
  0 <= t < 2 ^ 32 -> address_ok a ->
  gtpu_read_msg_error_indication (16 :: be 4 t ++ 133 :: be 2 (z_len (address_octets a)) ++ address_octets a) = Some (Some (ErrInd t a)).
Proof.
  intros Ht [Ha Hl]. set (n := z_len (address_octets a)). assert (Hn : 0 <= n < 65536) by (unfold n, z_len; rewrite Hl; destruct a; lia).
  unfold gtpu_read_msg_error_indication, gtpu_read_ie_type, gtpu_read_ie_teid_i, bit_decoder_new. rewrite unpack_octet by (unfold is_byte; lia).
  cbn [mbind option_bind]. rewrite Z.eqb_refl. cbn [negb].
  pose proof (unpack_aligned_octets 32 (be 4 t) (133 :: be 2 n ++ address_octets a) (be_ok 4 t)) as E1. rewrite be_length, be_val_be in E1 by done.
  change (8 * Z.of_nat 4) with 32 in E1. rewrite E1 by lia. cbn [mbind option_bind]. rewrite unpack_octet by (unfold is_byte; lia).
  cbn [mbind option_bind]. rewrite Z.eqb_refl. cbn [negb]. unfold gtpu_read_ie_gtpu_peer_address.
  pose proof (unpack_aligned_octets 16 (be 2 n) (address_octets a) (be_ok 2 n)) as E2. rewrite be_length, be_val_be in E2 by done.
  change (8 * Z.of_nat 2) with 16 in E2. rewrite E2 by lia. cbn [mbind option_bind negb].
  assert (Ebytes : unpack_bytes (length (address_octets a)) (Dec (address_octets a) 0) = Some (true, address_octets a, Dec [] 0)).
  { rewrite <- (app_nil_r (address_octets a)) at 2. apply unpack_octet_list; [done|]. rewrite Hl. destruct a; lia. }
  unfold n, z_len. rewrite Hl in *. destruct a as [l|l]; cbn [Z.of_nat Z.eqb Pos.of_succ_nat Pos.succ Pos.eqb address_octets] in *;
    rewrite Ebytes; done.
Qed.

(** A PDU of path management at the other end *)
Lemma path_received msg_type sn msg pdu :
  path_pdu msg_type sn msg pdu ->
  gtpu_read_teid pdu = Some (Some 0) /\
  echo_rx_handle pdu =
    if msg_type =? GTPU_MSG_ECHO_REQUEST then Some (SendEchoResponse sn)
    else if msg_type =? GTPU_MSG_ECHO_RESPONSE then Some (HandleEchoResponse sn)
    else if msg_type =? GTPU_MSG_SUPPORTED_EXTENSION_HEADERS_NOTIFICATION then Some Discarded
    else if msg_type =? GTPU_MSG_ERROR_INDICATION then
      ei ← gtpu_read_msg_error_indication msg; Some (match ei with Some m => ErrorIndication m | None => Discarded end)
    else Some Discarded.
Proof.
  intros (p & Hb & Ed & Ex & Ht & Hf & Hs & Hm). split.
  - destruct (dissect_safe pdu Hb) as (r & E & Hr). rewrite Ed in E. injection E as <-. destruct Hr as (_ & _ & _ & _ & ->). by rewrite Ht.
  - unfold echo_rx_handle, gtpu_base_handle_pdu. rewrite Ed. cbn [mbind option_bind]. unfold echo_rx_handle_pdu. rewrite Ht, Hf, Hs, Hm, Ex.
    change (0 =? GTPU_PATH_MANAGEMENT_TEID) with true. by cbn [negb mbind option_bind].
Qed.

(** Echo from end to end: the request carries the low 16 bits of the counter, the counter moves on only if the request is
    sent, the peer answers with the sequence number of the request, and its answer is taken for the response to it. With
    enough memory both are sent. *)
Theorem echo_link_correct mem mem' sn_next :
  0 <= sn_next < 2 ^ 32 ->
  exists r n, send_echo_request mem sn_next = Some (r, n) /\ (enough_memory mem -> is_Some r) /\
    match r with
    | None => n = sn_next
    | Some pdu =>
        n = u32 (sn_next + 1) /\ gtpu_read_teid pdu = Some (Some 0) /\ echo_rx_handle pdu = Some (SendEchoResponse (u16 sn_next)) /\
        sends mem' (send_echo_response mem' (u16 sn_next)) (fun pdu' =>
          gtpu_read_teid pdu' = Some (Some 0) /\ echo_rx_handle pdu' = Some (HandleEchoResponse (u16 sn_next)))
    end.
Proof.
  intros Hn. assert (Hs : 0 <= u16 sn_next < 65536) by (rewrite u16_eq; lia). unfold send_echo_request.
  destruct (sends_path mem GTPU_MSG_ECHO_REQUEST (u16 sn_next) []) as (r & -> & Hen & Hp); [by left|done|constructor|]. cbn [mbind option_bind].
  eexists r, _. split; [reflexivity|]. split; [done|]. destruct r as [pdu|]; [|done]. split; [done|].
  destruct (path_received _ _ _ _ (Hp pdu eq_refl)) as [Et Er]. split; [done|]. split; [exact Er|]. unfold send_echo_response.
  destruct (ie_recovery_spec (mm_ext mem') [] 0) as ([ok buf] & -> & Hok & Hbuf); [constructor|unfold is_byte; lia|]. cbn [mbind option_bind fst snd] in *.
  destruct ok; cbn [negb].
  - rewrite Hbuf by done. eapply sends_weaken; [apply sends_path; [by right; left|done|octets_ok]|].
    intros pdu' Hp'. exact (path_received _ _ _ _ Hp').
  - apply sends_none. intros (Hm & _). symmetry in Hok. apply bool_decide_eq_false in Hok. lia.
Qed.

Lemma echo_link_correct_witness :
  exists r n, send_echo_request sample_memory 65537 = Some (r, n) /\ (enough_memory sample_memory -> is_Some r) /\
    match r with
    | None => n = 65537
    | Some pdu =>
        n = u32 (65537 + 1) /\ gtpu_read_teid pdu = Some (Some 0) /\ echo_rx_handle pdu = Some (SendEchoResponse (u16 65537)) /\
        sends sample_memory (send_echo_response sample_memory (u16 65537)) (fun pdu' =>
          gtpu_read_teid pdu' = Some (Some 0) /\ echo_rx_handle pdu' = Some (HandleEchoResponse (u16 65537)))
    end.
Proof. apply (echo_link_correct sample_memory sample_memory 65537). lia. Defined.

(** An error indication names the TEID and the address, and moves the sequence number. *)
Lemma error_indication_carried mem a t sn :
  address_ok a -> 0 <= t < 2 ^ 32 -> 0 <= sn < 65536 ->
  exists r sn', send_error_indication mem a t sn = Some (r, sn') /\ 0 <= sn' < 65536 /\ (enough_memory mem -> is_Some r) /\
    forall pdu, r = Some pdu -> gtpu_read_teid pdu = Some (Some 0) /\ echo_rx_handle pdu = Some (ErrorIndication (ErrInd t a)).
Proof.
  intros Ha Ht Hs. unfold send_error_indication.
  assert (Hl : z_len (address_octets a) <= 16) by (destruct Ha as [_ Hl]; unfold z_len; rewrite Hl; destruct a; lia).
  destruct (ie_teid_spec (mm_ext mem) [] t) as ([ok buf] & -> & Hok & Hbuf); [constructor|done|]. cbn [mbind option_bind fst snd] in *.
  destruct ok; cbn [negb].
  2: { exists None, sn. split; [done|]. split; [done|]. split; [|done]. intros (Hm & _). symmetry in Hok. apply bool_decide_eq_false in Hok. lia. }
  rewrite Hbuf by done. assert (Hb1 : bytes_ok ([] ++ 16 :: be 4 t)) by (apply Forall_cons_2; [unfold is_byte; lia|apply be_ok]).
  destruct (ie_address_spec (mm_ext mem) ([] ++ 16 :: be 4 t) a Hb1 Ha) as ([ok2 buf2] & -> & Hok2 & Hbuf2). cbn [mbind option_bind fst snd] in *.
  destruct ok2; cbn [negb].
  2: { exists None, sn. split; [done|]. split; [done|]. split; [|done]. intros (Hm & _). symmetry in Hok2. apply bool_decide_eq_false in Hok2. lia. }
  rewrite Hbuf2 by done. set (msg := ([] ++ 16 :: be 4 t) ++ _).
  assert (Hmsg : bytes_ok msg) by (apply Forall_app_2; [done|]; apply Forall_cons_2; [unfold is_byte; lia|]; apply Forall_app_2; [apply be_ok|by destruct Ha]).
  destruct (sends_path mem GTPU_MSG_ERROR_INDICATION sn msg) as (r & -> & Hen & Hp); [by right; right|done|done|]. cbn [mbind option_bind].
  exists r, (u16 (sn + 1)). split; [done|]. split; [rewrite u16_eq; lia|]. split; [done|]. intros pdu ->.
  destruct (path_received _ _ _ _ (Hp pdu eq_refl)) as [Et Er]. split; [done|]. rewrite Er. unfold msg. cbn [app].
  cbn [app]. by rewrite read_error_indication_spec.
Qed.

(** ** Any octets *)
Lemma read_error_indication_total msg : bytes_ok msg -> exists r, gtpu_read_msg_error_indication msg = Some r.
Proof.
  intros Hb. unfold gtpu_read_msg_error_indication, gtpu_read_ie_type, gtpu_read_ie_teid_i.
  assert (Hd : dec_ok (bit_decoder_new msg)) by by repeat split.
  destruct (bit_unpack_total_ok 8 8 _ Hd) as (ok1 & v1 & d1 & -> & Hd1); [lia|lia|]. cbn [mbind option_bind]. destruct (negb (v1 =? _)); [by eexists|].
  destruct (bit_unpack_total_ok 32 32 _ Hd1) as (ok2 & v2 & d2 & -> & Hd2); [lia|lia|]. cbn [mbind option_bind].
  destruct (bit_unpack_total_ok 8 8 _ Hd2) as (ok3 & v3 & d3 & -> & Hd3); [lia|lia|]. cbn [mbind option_bind]. destruct (negb (v3 =? _)); [by eexists|].
  unfold gtpu_read_ie_gtpu_peer_address. destruct (bit_unpack_total_ok 16 16 _ Hd3) as (ok4 & v4 & d4 & -> & Hd4); [lia|lia|]. cbn [mbind option_bind].
  destruct ok4; cbn [negb]; [|by eexists].
  assert (Hbytes : forall n, exists ok a d, unpack_bytes n d4 = Some (ok, a, d)).
  { intros n. unfold unpack_bytes. destruct (n =? 0)%nat; [by eauto|]. destruct (_ <? n)%nat; [by eauto|]. destruct (_ =? 0); [by eauto|].
    clear - Hd4. revert d4 Hd4. induction n as [|n IH]; intros d4 Hd4; cbn [unpack_each]; [by eauto|].
    destruct (bit_unpack_total_ok 8 8 _ Hd4) as (ok & v & d & -> & Hd); [lia|lia|]. cbn [mbind option_bind]. destruct ok; cbn [negb]; [|by eauto].
    destruct (IH d Hd) as (ok' & a & d' & ->). cbn [mbind option_bind]. by eauto. }
  destruct (v4 =? 4); [destruct (Hbytes 4%nat) as (ok & a & d & ->)|destruct (v4 =? 16); [destruct (Hbytes 16%nat) as (ok & a & d & ->)|]];
    cbn [mbind option_bind]; by eexists.
Qed.

Lemma echo_rx_safe buf : bytes_ok buf -> exists r, echo_rx_handle buf = Some r.
Proof.
  intros Hb. unfold echo_rx_handle. destruct (base_handle_ok false buf Hb) as (r & -> & Hr). cbn [mbind option_bind].
  destruct r as [p|]; [|by eexists]. destruct Hr as (_ & _ & (msg & Ex & Hm) & _). unfold echo_rx_handle_pdu. rewrite Ex.
  destruct (read_error_indication_total msg Hm) as (ei & Eei). cbn [mbind option_bind]. rewrite Eei. cbn [mbind option_bind].
  repeat case_match; by eexists.
Qed.
