(* ===== verification/GtpuDemux.v ===== *)
(** * The demultiplexer ([lib/gtpu/gtpu_demux_impl.cpp])

    The PDUs of one socket go to the queues of the tunnels, by the TEID in their header; the executor of a tunnel takes them out
    again. Between the two the tunnel may be removed, and its TEID given to another one. A PDU for a TEID that is not known is
    answered with an error indication.

    Inputs are the answer of the queue ([try_push]), of the rate limiter and of [teid_linger_checker] ([None] if asking it is
    undefined), the choice of a TEID in test mode, and the moment at which a queue is served. *)
From S2P Require Import Prelude BitCodec BitFields BitIo Nru GtpuPdu GtpuPduCorrect GtpuTunnels.
From S2P Require Import GtpuPathMgmt GtpuTeidPool.

(** [gtpu_demux_tunnel_ctx_t]: the queue, by its number in the order of creation, and the tunnel *)
Record demux_tunnel_ctx := TunnelCtx { batched_queue : nat; tunnel : Z }.

Record gtpu_demux := Demux {
  dx_test_mode : bool;
  dx_stopped : bool;
  teid_to_tunnel : gmap Z demux_tunnel_ctx;
  dx_queues : list (Z * list (list Z));  (* the TEID of which the queue's dispatch function knows, and the PDUs in it *)
  test_teids : list Z;
  tx_upper : option gtpu_peer_address;
  ei_sn_next : Z
}.
Implicit Types d : gtpu_demux.

Definition demux_new (test_mode : bool) : gtpu_demux := Demux test_mode false ∅ [] [] None 0.

Definition dx_set_tunnels (m : gmap Z demux_tunnel_ctx) d : gtpu_demux :=
  Demux (dx_test_mode d) (dx_stopped d) m (dx_queues d) (test_teids d) (tx_upper d) (ei_sn_next d).
Definition dx_set_queues (q : list (Z * list (list Z))) d : gtpu_demux :=
  Demux (dx_test_mode d) (dx_stopped d) (teid_to_tunnel d) q (test_teids d) (tx_upper d) (ei_sn_next d).
Definition dx_set_ei_sn (sn : Z) d : gtpu_demux :=
  Demux (dx_test_mode d) (dx_stopped d) (teid_to_tunnel d) (dx_queues d) (test_teids d) (tx_upper d) sn.

Definition demux_stop d : gtpu_demux :=
  Demux (dx_test_mode d) true (teid_to_tunnel d) (dx_queues d) (test_teids d) (tx_upper d) (ei_sn_next d).

(** [add_tunnel]: whether there was no tunnel with this TEID *)
Definition demux_add_tunnel (teid tunnel : Z) d : bool * gtpu_demux :=
  match teid_to_tunnel d !! teid with
  | Some _ => (false, d)
  | None =>
      (true, dx_set_tunnels (<[teid := TunnelCtx (length (dx_queues d)) tunnel]> (teid_to_tunnel d)) (dx_set_queues (dx_queues d ++ [(teid, [])]) d))
  end.

Definition demux_remove_tunnel (teid : Z) d : bool * gtpu_demux :=
  match teid_to_tunnel d !! teid with
  | None => (false, d)
  | Some _ => (true, dx_set_tunnels (delete teid (teid_to_tunnel d)) d)
  end.

(** [apply_test_teids]; an empty vector is a reported error. *)
Definition demux_apply_test_teids (teids : list Z) d : option gtpu_demux :=
  match teids with
  | [] => None
  | _ => Some (Demux (dx_test_mode d) (dx_stopped d) (teid_to_tunnel d) (dx_queues d) teids (tx_upper d) (ei_sn_next d))
  end.

(** [set_error_indication_tx]; [None] is an address that [inet_pton] does not know. *)
Definition demux_set_error_indication_tx (local_addr : option gtpu_peer_address) d : gtpu_demux :=
  Demux (dx_test_mode d) (dx_stopped d) (teid_to_tunnel d) (dx_queues d) (test_teids d) local_addr (ei_sn_next d).

Inductive demux_event :=
  | DxQueued (q : nat) (pdu : list Z)
  | DxForwarded (q : nat) (tunnel : Z) (pdu : list Z)
  | DxDiscarded (q : nat) (pdu : list Z)
  | DxErrorIndication (pdu : list Z).

(** [handle_pdu] *)
Definition demux_handle_pdu (mem : gtpu_memory) (pick : nat) (room : bool) (lingering : Z -> option bool) (pdu : list Z) d
  : option (gtpu_demux * list demux_event) :=
  if dx_stopped d then Some (d, []) else
  read ← (if dx_test_mode d then Some (Some 0) else gtpu_read_teid pdu);
  match read with
  | None => Some (d, [])
  | Some read_teid =>
      teid ← (if dx_test_mode d then test_teids d !! pick else Some read_teid);
      match teid_to_tunnel d !! teid with
      | None =>
          match tx_upper d with
          | Some addr =>
              if negb (teid =? 0) then
                lingers ← lingering teid;
                if negb (lingers : bool) then
                  '(err, sn) ← send_error_indication mem addr read_teid (ei_sn_next d);
                  Some (dx_set_ei_sn sn d, match err with Some buf => [DxErrorIndication buf] | None => [] end)
                else Some (d, [])
              else Some (d, [])
          | None => Some (d, [])
          end
      | Some ctx =>
          if room then
            '(qteid, l) ← dx_queues d !! batched_queue ctx;
            Some (dx_set_queues (<[batched_queue ctx := (qteid, l ++ [pdu])]> (dx_queues d)) d, [DxQueued (batched_queue ctx) pdu])
          else Some (d, [])
      end
  end.

(** The dispatch function of a queue and [handle_pdu_impl], for the next PDU of the queue *)
Definition demux_dispatch (q : nat) (limiter_ok : bool) d : option (gtpu_demux * list demux_event) :=
  match dx_queues d !! q with
  | Some (teid, pdu :: l) =>
      let d := dx_set_queues (<[q := (teid, l)]> (dx_queues d)) d in
      if dx_stopped d then Some (d, [DxDiscarded q pdu]) else
      if negb limiter_ok then Some (d, [DxDiscarded q pdu]) else
      match teid_to_tunnel d !! teid with
      | None => Some (d, [DxDiscarded q pdu])
      | Some ctx => Some (d, [DxForwarded q (tunnel ctx) pdu])
      end
  | _ => Some (d, [])
  end.

(** ** Runs *)
Inductive demux_input :=
  | DiAdd (teid tunnel : Z) | DiRemove (teid : Z) | DiTestTeids (teids : list Z) | DiErrorTx (addr : option gtpu_peer_address) | DiStop
  | DiPdu (mem : gtpu_memory) (pick : nat) (room : bool) (lingering : Z -> option bool) (pdu : list Z)
  | DiDispatch (q : nat) (limiter_ok : bool).

Definition demux_step (i : demux_input) d : option (gtpu_demux * list demux_event) :=
  match i with
  | DiAdd teid t => Some ((demux_add_tunnel teid t d).2, [])
  | DiRemove teid => Some ((demux_remove_tunnel teid d).2, [])
  | DiTestTeids teids => d ← demux_apply_test_teids teids d; Some (d, [])
  | DiErrorTx addr => Some (demux_set_error_indication_tx addr d, [])
  | DiStop => Some (demux_stop d, [])
  | DiPdu mem pick room lingering pdu => demux_handle_pdu mem pick room lingering pdu d
  | DiDispatch q limiter_ok => demux_dispatch q limiter_ok d
  end.

Fixpoint demux_run (l : list demux_input) d : option (gtpu_demux * list demux_event) :=
  match l with
  | [] => Some (d, [])
  | i :: l => '(d, ev1) ← demux_step i d; '(d, ev2) ← demux_run l d; Some (d, ev1 ++ ev2)
  end.

(** ** Correctness *)







Lemma read_teid_total pdu : bytes_ok pdu -> gtpu_read_teid pdu = Some None \/ exists t, gtpu_read_teid pdu = Some (Some t) /\ 0 <= t < 2 ^ 32.
Proof.
  intros Hb. destruct pdu as [|b [|mt [|l1 [|l0 [|t3 [|t2 [|t1 [|t0 l]]]]]]]]; try (by left). right.
  repeat match goal with H : Forall _ (_ :: _) |- _ => apply Forall_cons in H as [? H] end.
  assert (Ht : bytes_ok [t3; t2; t1; t0]) by octet_list. eexists. split; [by apply read_teid_spec|]. by apply (be_val_range _ Ht).
Qed.













(** Two tunnels, one of which is removed before its PDU is taken out of the queue, and a PDU for a TEID that is not known *)
Definition sample_demux_pdu (teid x : Z) : list Z := [0x30; 255; 0; 1; 0; 0; 0; teid; x].
Definition sample_demux_run : list demux_input :=
  let pdu teid x := DiPdu sample_memory 0 true (fun _ => Some false) (sample_demux_pdu teid x) in
  [DiErrorTx (Some (Ipv4 [127; 0; 0; 1])); DiAdd 1 101; DiAdd 2 102; pdu 2 20; pdu 1 10; pdu 2 21; DiDispatch 0 true; DiDispatch 1 true;
   DiRemove 2; DiDispatch 1 true; pdu 2 22].


Example sample_demux_events :
  snd <$> demux_run sample_demux_run (demux_new false) =
  Some [DxQueued 1 (sample_demux_pdu 2 20); DxQueued 0 (sample_demux_pdu 1 10); DxQueued 1 (sample_demux_pdu 2 21);
        DxForwarded 0 101 (sample_demux_pdu 1 10); DxForwarded 1 102 (sample_demux_pdu 2 20); DxDiscarded 1 (sample_demux_pdu 2 21);
        DxErrorIndication [0x32; 26; 0; 16; 0; 0; 0; 0; 0; 0; 0; 0; 16; 0; 0; 0; 2; 133; 0; 4; 127; 0; 0; 1]].
Proof. vm_compute. reflexivity. Qed.

(** C40. With the pool of TEIDs as [teid_linger_checker], as in the CU-UP, any PDU from the network that names a TEID above the
    size of the pool makes the demultiplexer read outside of the pool's vector. *)
Theorem demux_foreign_teid_undefined d p mem pick room now pdu teid addr :
  teid_pool_ok p -> dx_test_mode d = false -> dx_stopped d = false -> tx_upper d = Some addr -> teid_to_tunnel d !! teid = None ->
  bytes_ok pdu -> gtpu_read_teid pdu = Some (Some teid) -> max_nof_teids p < teid ->
  demux_handle_pdu mem pick room (fun teid => is_teid_lingering now teid p) pdu d = None.
Proof.
  intros Hp Hm Hs Ha Ht Hb Er Hlt. unfold demux_handle_pdu. rewrite Hs, Hm, Er. cbn [mbind option_bind]. rewrite Ht, Ha.
  pose proof (tp_size p Hp). rewrite (proj2 (Z.eqb_neq _ _)) by lia. cbn [negb].
  destruct (read_teid_total pdu Hb) as [E|(t & E & Hr)]; rewrite Er in E; [done|]. injection E as <-.
  rewrite (proj2 (foreign_teid_outside p now teid Hp Hr)) by (by right). done.
Qed.

Lemma demux_foreign_teid_undefined_witness :
  demux_handle_pdu sample_memory 0 true (fun teid => is_teid_lingering 0 teid (teid_pool_new 3 100)) (sample_demux_pdu 9 1)
    (demux_set_error_indication_tx (Some (Ipv4 [127; 0; 0; 1])) (demux_new false)) = None.
Proof.
  apply (demux_foreign_teid_undefined _ _ _ _ _ _ _ 9 (Ipv4 [127; 0; 0; 1])); [apply (teid_new_ok 3 100); lia|done|done|done|done|unfold sample_demux_pdu; octets_ok|done|cbn; lia].
Defined.
