(* ===== verification/F1u.v ===== *)
(** * F1-U bearers ([lib/f1u/cu_up/f1u_bearer_impl.cpp], [lib/f1u/du/f1u_bearer_impl.cpp])

    One bearer at the CU-UP, below PDCP, and one at the DU, above RLC. Downwards go PDCP PDUs and the SNs that PDCP discarded, in
    blocks; upwards PDCP PDUs and the delivery status, from what RLC reported. Both sides hold back what they need not send at
    once until a timer expires. A message that a queue or an executor refuses is an input that does not happen; whether the
    executor of PDCP takes a notification is an input. *)
From S2P Require Import Prelude RingBuffer BitCodec BitFields BitIo Nru GtpuPdu GtpuTunnels.

Definition unset_pdcp_sn : Z := 0xffffffff.

(** ** CU-UP *)

(** What [rx_delivery_notifier] is told *)
Inductive dl_notification :=
  | DesiredBufferSize (n : Z) | Transmitted (sn : Z) | Delivered (sn : Z) | Retransmitted (sn : Z) | DeliveredRetransmitted (sn : Z).

Inductive cu_event :=
  | CuNewPdu (m : nru_dl_message)      (* tx_pdu_notifier *)
  | CuNewSdu (sdu : list Z)            (* rx_sdu_notifier *)
  | CuNotify (n : dl_notification)
  | CuRestartInactivity.               (* ue_inactivity_timer.run *)

Record f1u_cu_bearer := CuBearer {
  cb_stopped : bool;
  cb_timer : bool;                     (* dl_notif_timer runs *)
  cb_notif_transmitted : Z;
  cb_notif_delivered : Z;
  cb_discard_blocks : list nru_pdcp_sn_discard_block
}.
Implicit Types b : f1u_cu_bearer.

Definition cu_bearer_new : f1u_cu_bearer := CuBearer false false unset_pdcp_sn unset_pdcp_sn [].

Definition cb_set_timer (t : bool) b := CuBearer (cb_stopped b) t (cb_notif_transmitted b) (cb_notif_delivered b) (cb_discard_blocks b).
Definition cb_set_blocks (l : list nru_pdcp_sn_discard_block) b :=
  CuBearer (cb_stopped b) (cb_timer b) (cb_notif_transmitted b) (cb_notif_delivered b) l.

Definition cu_stop b : f1u_cu_bearer :=
  if cb_stopped b then b else CuBearer true false (cb_notif_transmitted b) (cb_notif_delivered b) (cb_discard_blocks b).

(** A message as it is created: [nru_dl_message msg = {}] *)
Definition dl_user_data_init (is_retx : bool) (blocks : option (list nru_pdcp_sn_discard_block)) : nru_dl_user_data :=
  DlUserData false false false false false is_retx 0 None blocks 0.

(** [fill_discard_blocks]: what the message gets *)
Definition cu_fill_discard_blocks b : option (list nru_pdcp_sn_discard_block) * f1u_cu_bearer :=
  match cb_discard_blocks b with
  | [] => (None, b)
  | l => (Some l, cb_set_blocks [] b)
  end.

Definition cu_flush_discard_blocks b : f1u_cu_bearer * list cu_event :=
  let '(blocks, b) := cu_fill_discard_blocks b in
  let b := cb_set_timer false b in
  match blocks with
  | Some l => (b, [CuNewPdu (DlMessage [] (dl_user_data_init false (Some l)))])
  | None => (b, [])
  end.

Definition cu_handle_sdu (sdu : list Z) (is_retx : bool) b : f1u_cu_bearer * list cu_event :=
  if cb_stopped b then (b, []) else
  let '(blocks, b) := cu_fill_discard_blocks b in
  (cb_set_timer false b, [CuNewPdu (DlMessage sdu (dl_user_data_init is_retx blocks))]).

Definition nru_max_discard_block_size : Z := 255.
Definition blocks_full (l : list nru_pdcp_sn_discard_block) : bool := Z.of_nat (length l) =? nru_max_nof_pdcp_sn_discard_blocks.

Definition cu_discard_sdu (pdcp_sn : Z) b : f1u_cu_bearer * list cu_event :=
  let b := cb_set_timer true b in
  match last (cb_discard_blocks b) with
  | None => (cb_set_blocks [DiscardBlock pdcp_sn 1] b, [])
  | Some last_block =>
      let blocks := cb_discard_blocks b in
      if (u32 (pdcp_sn_start last_block + block_size last_block) =? pdcp_sn) && (block_size last_block <? nru_max_discard_block_size) then
        (cb_set_blocks (<[Nat.pred (length blocks) := DiscardBlock (pdcp_sn_start last_block) (u8 (block_size last_block + 1))]> blocks) b, [])
      else if blocks_full blocks then (b, [])
      else
        let b := cb_set_blocks (blocks ++ [DiscardBlock pdcp_sn 1]) b in
        if blocks_full (cb_discard_blocks b) then cu_flush_discard_blocks b else (b, [])
  end.

(** [on_expired_dl_notif_timer] *)
Definition cu_on_expired_dl_notif_timer b : f1u_cu_bearer * list cu_event :=
  if cb_stopped b then (b, []) else cu_flush_discard_blocks b.

(** [dl_exec.defer] of a notification *)
Definition cu_defer (defer_ok : dl_notification -> bool) (n : dl_notification) : list cu_event := if defer_ok n then [CuNotify n] else [].

(** The parts of [handle_pdu_impl] *)
Definition cu_handle_transmitted (defer_ok : dl_notification -> bool) (sn : option Z) b : f1u_cu_bearer * list cu_event :=
  match sn with
  | Some sn =>
      if sn =? cb_notif_transmitted b then (b, []) else
      (CuBearer (cb_stopped b) (cb_timer b) sn (cb_notif_delivered b) (cb_discard_blocks b), CuRestartInactivity :: cu_defer defer_ok (Transmitted sn))
  | None => (b, [])
  end.

Definition cu_handle_delivered (defer_ok : dl_notification -> bool) (sn : option Z) b : f1u_cu_bearer * list cu_event :=
  match sn with
  | Some sn =>
      if sn =? cb_notif_delivered b then (b, []) else
      (CuBearer (cb_stopped b) (cb_timer b) (cb_notif_transmitted b) sn (cb_discard_blocks b), cu_defer defer_ok (Delivered sn))
  | None => (b, [])
  end.

Definition cu_handle_status (defer_ok : dl_notification -> bool) (s : nru_dl_data_delivery_status) b : f1u_cu_bearer * list cu_event :=
  let ev1 := cu_defer defer_ok (DesiredBufferSize (desired_buffer_size_for_drb s)) in
  let '(b, ev2) := cu_handle_transmitted defer_ok (highest_transmitted_pdcp_sn s) b in
  let '(b, ev3) := cu_handle_delivered defer_ok (highest_delivered_pdcp_sn s) b in
  let ev4 := match highest_retransmitted_pdcp_sn s with Some sn => cu_defer defer_ok (Retransmitted sn) | None => [] end in
  let ev5 := match highest_delivered_retransmitted_pdcp_sn s with Some sn => cu_defer defer_ok (DeliveredRetransmitted sn) | None => [] end in
  (b, ev1 ++ ev2 ++ ev3 ++ ev4 ++ ev5).

Definition cu_handle_pdu_impl (defer_ok : dl_notification -> bool) (m : nru_ul_message) b : f1u_cu_bearer * list cu_event :=
  if cb_stopped b then (b, []) else
  let ev1 := match um_t_pdu m with Some (x :: l) => [CuRestartInactivity; CuNewSdu (x :: l)] | _ => [] end in
  match um_data_delivery_status m with
  | Some s => let '(b, ev2) := cu_handle_status defer_ok s b in (b, ev1 ++ ev2)
  | None => (b, ev1)
  end.

(** ** DU *)

Inductive du_event :=
  | DuNewPdu (m : nru_ul_message)                     (* tx_pdu_notifier *)
  | DuDiscard (pdcp_sn_start block_size : Z)          (* rx_sdu_notifier *)
  | DuNewSdu (sdu : list Z) (is_retx : bool).

(** What RLC stored last, and what was reported last *)
Record du_counters := DuCounters {
  dc_desired_buffer_size : Z;
  dc_transmitted : Z;
  dc_delivered : Z;
  dc_retransmitted : Z;
  dc_delivered_retransmitted : Z
}.

Record f1u_du_bearer := DuBearer {
  db_stopped : bool;
  db_buffering : bool;
  db_ul_buffer : ring_buffer nru_ul_message;
  db_timer : bool;                                    (* ul_notif_timer runs *)
  db_cur : du_counters;
  db_notif : du_counters
}.
Implicit Types d : f1u_du_bearer.

(** The constructor; [ul_buffer] is an empty buffer of [ul_buffer_size]. *)
Definition du_bearer_new (buffer_ul_on_startup : bool) (ul_buffer : ring_buffer nru_ul_message) (rlc_queue_bytes_limit : Z) : f1u_du_bearer :=
  DuBearer false buffer_ul_on_startup ul_buffer true
    (DuCounters rlc_queue_bytes_limit unset_pdcp_sn unset_pdcp_sn unset_pdcp_sn unset_pdcp_sn)
    (DuCounters 0 unset_pdcp_sn unset_pdcp_sn unset_pdcp_sn unset_pdcp_sn).

Definition db_set_cur (c : du_counters) d := DuBearer (db_stopped d) (db_buffering d) (db_ul_buffer d) (db_timer d) c (db_notif d).
Definition db_set_notif (c : du_counters) d := DuBearer (db_stopped d) (db_buffering d) (db_ul_buffer d) (db_timer d) (db_cur d) c.
Definition db_set_timer (t : bool) d := DuBearer (db_stopped d) (db_buffering d) (db_ul_buffer d) t (db_cur d) (db_notif d).
Definition db_set_buffer (buffering : bool) (q : ring_buffer nru_ul_message) d := DuBearer (db_stopped d) buffering q (db_timer d) (db_cur d) (db_notif d).

(** The notifications from RLC *)
Definition du_handle_transmit_notification (sn desired_buf_size : Z) d : f1u_du_bearer :=
  let c := db_cur d in db_set_cur (DuCounters desired_buf_size sn (dc_delivered c) (dc_retransmitted c) (dc_delivered_retransmitted c)) d.
Definition du_handle_delivery_notification (sn : Z) d : f1u_du_bearer :=
  let c := db_cur d in db_set_cur (DuCounters (dc_desired_buffer_size c) (dc_transmitted c) sn (dc_retransmitted c) (dc_delivered_retransmitted c)) d.
Definition du_handle_retransmit_notification (sn : Z) d : f1u_du_bearer :=
  let c := db_cur d in db_set_cur (DuCounters (dc_desired_buffer_size c) (dc_transmitted c) (dc_delivered c) sn (dc_delivered_retransmitted c)) d.
Definition du_handle_delivery_retransmitted_notification (sn : Z) d : f1u_du_bearer :=
  let c := db_cur d in db_set_cur (DuCounters (dc_desired_buffer_size c) (dc_transmitted c) (dc_delivered c) (dc_retransmitted c) sn) d.

(** [fill_highest_transmitted_pdcp_sn] and [fill_highest_delivered_pdcp_sn]: reported whenever it is set *)
Definition du_fill_set (cur notif : Z) : bool * option Z * Z :=
  if cur =? unset_pdcp_sn then (false, None, notif) else
  if negb (cur =? notif) then (true, Some cur, cur) else (false, Some cur, notif).

(** [fill_highest_retransmitted_pdcp_sn] and [fill_highest_delivered_retransmitted_pdcp_sn]: reported when it has changed *)
Definition du_fill_changed (cur notif : Z) : bool * option Z * Z :=
  if negb (cur =? notif) then (true, Some cur, cur) else (false, None, notif).

(** [fill_data_delivery_status]: whether a value is fresh, and the status *)
Definition du_fill_data_delivery_status d : bool * nru_dl_data_delivery_status * f1u_du_bearer :=
  let c := db_cur d in let n := db_notif d in
  let f1 := negb (dc_desired_buffer_size c =? dc_desired_buffer_size n) in
  let '(f2, transmitted, n2) := du_fill_set (dc_transmitted c) (dc_transmitted n) in
  let '(f3, delivered, n3) := du_fill_set (dc_delivered c) (dc_delivered n) in
  let '(f4, retransmitted, n4) := du_fill_changed (dc_retransmitted c) (dc_retransmitted n) in
  let '(f5, delivered_retransmitted, n5) := du_fill_changed (dc_delivered_retransmitted c) (dc_delivered_retransmitted n) in
  (f1 || f2 || f3 || f4 || f5,
   Ddds false (dc_desired_buffer_size c) None None delivered transmitted None delivered_retransmitted retransmitted,
   db_set_timer true (db_set_notif (DuCounters (dc_desired_buffer_size c) n2 n3 n4 n5) d)).

(** [handle_sdu] *)
Definition du_handle_sdu (sdu : list Z) d : option (f1u_du_bearer * list du_event) :=
  let '(_, status, d) := du_fill_data_delivery_status d in
  let msg := UlMessage (Some sdu) (Some status) in
  if db_buffering d then
    '(_, q) ← rb_try_push msg (db_ul_buffer d); Some (db_set_buffer true q d, [])
  else Some (d, [DuNewPdu msg]).

Definition du_send_data_delivery_status (force : bool) d : f1u_du_bearer * list du_event :=
  let '(fresh, status, d) := du_fill_data_delivery_status d in
  if negb fresh && negb force then (d, []) else (d, [DuNewPdu (UlMessage None (Some status))]).

(** [on_expired_ul_notif_timer] *)
Definition du_on_expired_ul_notif_timer d : f1u_du_bearer * list du_event := du_send_data_delivery_status false d.

(** [handle_pdu_impl] *)
Definition du_handle_pdu_impl (m : nru_dl_message) d : f1u_du_bearer * list du_event :=
  let '(d, ev1) := if report_polling (dm_dl_user_data m) then du_send_data_delivery_status true d else (d, []) in
  let ev2 := match discard_blocks (dm_dl_user_data m) with
             | Some l => map (fun x => DuDiscard (pdcp_sn_start x) (block_size x)) l
             | None => []
             end in
  let ev3 := match dm_t_pdu m with [] => [] | sdu => [DuNewSdu sdu (retransmission_flag (dm_dl_user_data m))] end in
  (d, ev1 ++ ev2 ++ ev3).

(** The loop of [flush_ul_buffer] *)
Fixpoint du_flush_loop (fuel : nat) (q : ring_buffer nru_ul_message) : option (ring_buffer nru_ul_message * list du_event) :=
  if rb_empty q then Some (q, []) else
  match fuel with
  | O => None
  | S fuel =>
      m ← rb_top q;
      q ← rb_pop q;
      '(q, ev) ← du_flush_loop fuel q;
      Some (q, DuNewPdu m :: ev)
  end.

Definition du_flush_ul_buffer d : option (f1u_du_bearer * list du_event) :=
  if negb (db_buffering d) then Some (d, []) else
  '(q, ev) ← du_flush_loop (Z.to_nat (rb_size (db_ul_buffer d))) (db_ul_buffer d);
  Some (db_set_buffer false q d, ev).

Definition du_stop d : f1u_du_bearer :=
  DuBearer true (db_buffering d) (db_ul_buffer d) (if db_stopped d then db_timer d else false) (db_cur d) (db_notif d).
