(* ===== verification/F1uCorrect.v ===== *)
(** * F1-U bearers from end to end

    Downwards: what RLC is asked to discard is what PDCP discarded, and the SDUs arrive in order. Upwards: the SDUs arrive in
    order, PDCP is told only what RLC reported, and after an expiry of the notification timer it was told the latest of it. *)
From S2P Require Import Prelude RingBuffer BitCodec BitFields BitIo Nru GtpuPdu GtpuPduCorrect GtpuTunnels F1u.

Implicit Types (b : f1u_cu_bearer) (d : f1u_du_bearer).

(** ** Runs *)
Inductive cu_input :=
  | CiSdu (sdu : list Z) (is_retx : bool) | CiDiscard (pdcp_sn : Z) | CiTimer | CiStop
  | CiPdu (defer_ok : dl_notification -> bool) (m : nru_ul_message).

Definition cu_step (i : cu_input) b : f1u_cu_bearer * list cu_event :=
  match i with
  | CiSdu sdu is_retx => cu_handle_sdu sdu is_retx b
  | CiDiscard sn => cu_discard_sdu sn b
  | CiTimer => cu_on_expired_dl_notif_timer b
  | CiStop => (cu_stop b, [])
  | CiPdu defer_ok m => cu_handle_pdu_impl defer_ok m b
  end.

Fixpoint cu_run (l : list cu_input) b : f1u_cu_bearer * list cu_event :=
  match l with
  | [] => (b, [])
  | i :: l => let '(b, ev1) := cu_step i b in let '(b, ev2) := cu_run l b in (b, ev1 ++ ev2)
  end.

Inductive du_input :=
  | DuSdu (sdu : list Z) | DuTransmitted (sn desired_buf_size : Z) | DuDelivered (sn : Z) | DuRetransmitted (sn : Z)
  | DuDeliveredRetransmitted (sn : Z) | DuTimer | DuPdu (m : nru_dl_message) | DuFlush | DuStop.

Definition du_step (i : du_input) d : option (f1u_du_bearer * list du_event) :=
  match i with
  | DuSdu sdu => du_handle_sdu sdu d
  | DuTransmitted sn size => Some (du_handle_transmit_notification sn size d, [])
  | DuDelivered sn => Some (du_handle_delivery_notification sn d, [])
  | DuRetransmitted sn => Some (du_handle_retransmit_notification sn d, [])
  | DuDeliveredRetransmitted sn => Some (du_handle_delivery_retransmitted_notification sn d, [])
  | DuTimer => Some (du_on_expired_ul_notif_timer d)
  | DuPdu m => Some (du_handle_pdu_impl m d)
  | DuFlush => du_flush_ul_buffer d
  | DuStop => Some (du_stop d, [])
  end.

Fixpoint du_run (l : list du_input) d : option (f1u_du_bearer * list du_event) :=
  match l with
  | [] => Some (d, [])
  | i :: l => '(d, ev1) ← du_step i d; '(d, ev2) ← du_run l d; Some (d, ev1 ++ ev2)
  end.

(** ** Downwards *)

Lemma cu_run_app l1 l2 b : cu_run (l1 ++ l2) b = let '(b, ev1) := cu_run l1 b in let '(b, ev2) := cu_run l2 b in (b, ev1 ++ ev2).
Proof.
  revert b. induction l1 as [|i l1 IH]; intros b; cbn [app cu_run]; [by destruct (cu_run l2 b)|].
  destruct (cu_step i b) as [b1 ev1]. rewrite IH. destruct (cu_run l1 b1) as [b2 ev2]. destruct (cu_run l2 b2) as [b3 ev3]. by rewrite app_assoc.
Qed.


Definition sent_dl (ev : list cu_event) : list nru_dl_message := omap (fun x => match x with CuNewPdu m => Some m | _ => None end) ev.

(** The SNs of discard blocks *)
Definition block_sns (x : nru_pdcp_sn_discard_block) : list Z := seqZ (pdcp_sn_start x) (block_size x).
Definition blocks_sns (l : list nru_pdcp_sn_discard_block) : list Z := concat (map block_sns l).
Definition message_sns (m : nru_dl_message) : list Z := blocks_sns (default [] (discard_blocks (dm_dl_user_data m))).

Definition message_sdu (m : nru_dl_message) : option (list Z * bool) :=
  match dm_t_pdu m with [] => None | sdu => Some (sdu, retransmission_flag (dm_dl_user_data m)) end.

(** What PDCP hands over: the SNs it discards, and its PDUs until the bearer is stopped *)
Definition cu_discards (l : list cu_input) : list Z := omap (fun i => match i with CiDiscard sn => Some sn | _ => None end) l.
Fixpoint cu_sdus (l : list cu_input) : list (list Z * bool) :=
  match l with
  | [] => []
  | CiSdu (x :: sdu) is_retx :: l => (x :: sdu, is_retx) :: cu_sdus l
  | CiStop :: _ => []
  | _ :: l => cu_sdus l
  end.

Definition cu_input_ok (i : cu_input) : Prop :=
  match i with CiSdu sdu _ => bytes_ok sdu | CiDiscard sn => is_24 sn | _ => True end.

Definition block_wf (x : nru_pdcp_sn_discard_block) : Prop := is_24 (pdcp_sn_start x) /\ 1 <= block_size x <= 255.

(** A bearer between operations: less blocks than a message takes. *)
Definition cu_ok b : Prop := Forall block_wf (cb_discard_blocks b) /\ Z.of_nat (length (cb_discard_blocks b)) < 16.

(** A message that the format carries as it is *)
Definition dl_message_ok (m : nru_dl_message) : Prop := nru_message_ok (NruDl m) /\ nru_read (NruDl m) = NruDl m /\ report_polling (dm_dl_user_data m) = false.

Lemma blocks_sns_app a c : blocks_sns (a ++ c) = blocks_sns a ++ blocks_sns c.
Proof. unfold blocks_sns. by rewrite map_app, concat_app. Qed.

Lemma dl_message_fits sdu is_retx blocks :
  bytes_ok sdu -> Forall block_wf blocks -> Z.of_nat (length blocks) <= 16 -> blocks <> [] ->
  dl_message_ok (DlMessage sdu (dl_user_data_init is_retx (Some blocks))).
Proof.
  intros Hs Hb Hl Hne. split; [|split; [|done]].
  - split; [done|]. unfold dud_ok, is_24, dl_user_data_init. cbn [nru_sn dl_discard_pdcp_sn discard_blocks dl_report_pdcp_sn from_option dm_dl_user_data].
    split; [lia|]. split; [done|]. split; [|lia]. split; [|done]. eapply Forall_impl; [exact Hb|]. intros x [H1 H2]. split; [done|unfold is_byte; lia].
  - cbn. unfold dud_read, written_blocks. cbn. by destruct blocks.
Qed.

Lemma dl_message_plain sdu is_retx : bytes_ok sdu -> dl_message_ok (DlMessage sdu (dl_user_data_init is_retx None)).
Proof.
  intros Hs. split; [|split; [|done]]; [|done]. split; [done|]. unfold dud_ok, is_24, dl_user_data_init. cbn. split; [lia|]. split; [done|]. split; [done|lia].
Qed.

(** What an operation sends, and what is left *)
Definition cu_sends b b' (ev : list cu_event) (sns : list Z) (sdus : list (list Z * bool)) : Prop :=
  cu_ok b' /\ Forall dl_message_ok (sent_dl ev) /\ omap message_sdu (sent_dl ev) = sdus /\
  concat (map message_sns (sent_dl ev)) ++ blocks_sns (cb_discard_blocks b') = blocks_sns (cb_discard_blocks b) ++ sns.

Lemma flush_sends b sns blocks :
  Forall block_wf (cb_discard_blocks b) -> Z.of_nat (length (cb_discard_blocks b)) <= 16 -> blocks_sns (cb_discard_blocks b) = blocks ++ sns ->
  let '(b', ev) := cu_flush_discard_blocks b in
  cb_stopped b' = cb_stopped b /\ cu_ok b' /\ Forall dl_message_ok (sent_dl ev) /\ omap message_sdu (sent_dl ev) = [] /\
  concat (map message_sns (sent_dl ev)) ++ blocks_sns (cb_discard_blocks b') = blocks ++ sns.
Proof.
  intros Hb Hl E. unfold cu_flush_discard_blocks, cu_fill_discard_blocks. destruct (cb_discard_blocks b) as [|x l] eqn:Eb; cbn.
  - split; [done|]. split; [split; cbn; rewrite Eb; [constructor|cbn; lia]|]. rewrite Eb. by split_and!.
  - split; [done|]. split; [split; [constructor|cbn; lia]|]. split; [|split; [done|by rewrite !app_nil_r]].
    apply Forall_singleton. by apply dl_message_fits; [constructor| | |].
Qed.

Lemma discard_sends sn b : cu_ok b -> is_24 sn ->
  let '(b', ev) := cu_discard_sdu sn b in cb_stopped b' = cb_stopped b /\ cu_sends b b' ev [sn] [].
Proof.
  intros [Hb Hl] Hs. unfold cu_discard_sdu, cu_sends. cbn [cb_discard_blocks cb_set_timer cb_stopped].
  destruct (last (cb_discard_blocks b)) as [x|] eqn:Elast.
  2: { apply last_None in Elast. rewrite Elast. cbn. split; [done|]. split; [|by split_and!].
       split; [apply Forall_singleton; split; [done|cbn; lia]|cbn; lia]. }
  apply last_Some in Elast as [l El]. rewrite El in *. apply Forall_app in Hb as [Hb Hx]. apply Forall_singleton in Hx as [Hx1 Hx2].
  rewrite length_app in Hl. cbn [length] in Hl. unfold is_24 in *.
  destruct (_ && _) eqn:Eext.
  - apply andb_true_iff in Eext as [E1 E2]. apply Z.eqb_eq in E1. apply Z.ltb_lt in E2. unfold nru_max_discard_block_size in E2.
    rewrite u32_eq, Z.mod_small in E1 by lia. assert (Eu : u8 (block_size x + 1) = block_size x + 1) by (rewrite u8_eq; lia). rewrite Eu.
    cbn [cb_discard_blocks cb_set_blocks cb_stopped]. split; [done|].
    assert (Ei : <[Nat.pred (length (l ++ [x])) := DiscardBlock (pdcp_sn_start x) (block_size x + 1)]> (l ++ [x]) =
      l ++ [DiscardBlock (pdcp_sn_start x) (block_size x + 1)]).
    { rewrite length_app. cbn [length]. replace (Nat.pred (length l + 1)) with (length l + 0)%nat by lia. by rewrite insert_app_r. }
    rewrite Ei. split; [split|split; [constructor|split; [done|]]]; cbn [cb_discard_blocks cb_set_blocks].
    + apply Forall_app_2; [done|]. apply Forall_singleton. split; cbn; [done|lia].
    + rewrite length_app. cbn. lia.
    + cbn [sent_dl omap list_omap map concat app]. rewrite !blocks_sns_app, <- app_assoc. f_equal. cbn [blocks_sns map concat block_sns pdcp_sn_start block_size].
      rewrite !app_nil_r. unfold block_sns. cbn [pdcp_sn_start block_size]. rewrite seqZ_app by lia. by rewrite E1.
  - unfold blocks_full. cbn [cb_discard_blocks cb_set_blocks]. rewrite (proj2 (Z.eqb_neq (Z.of_nat (length (l ++ [x]))) _)).
    2: { rewrite length_app. cbn [length]. unfold nru_max_nof_pdcp_sn_discard_blocks. lia. }
    assert (Hwf : Forall block_wf ((l ++ [x]) ++ [DiscardBlock sn 1])).
    { apply Forall_app_2; [apply Forall_app_2; [done|by apply Forall_singleton]|]. apply Forall_singleton. split; cbn; [done|lia]. }
    assert (Esn : blocks_sns ((l ++ [x]) ++ [DiscardBlock sn 1]) = blocks_sns (l ++ [x]) ++ [sn]) by (rewrite blocks_sns_app; done).
    destruct (Z.eqb_spec (Z.of_nat (length ((l ++ [x]) ++ [DiscardBlock sn 1]))) nru_max_nof_pdcp_sn_discard_blocks) as [Efull|Hne].
    + pose proof (flush_sends (cb_set_blocks ((l ++ [x]) ++ [DiscardBlock sn 1]) (cb_set_timer true b)) [sn] (blocks_sns (l ++ [x]))) as Hf.
      cbn [cb_discard_blocks cb_set_blocks] in Hf. specialize (Hf Hwf). unfold nru_max_nof_pdcp_sn_discard_blocks in Efull. specialize (Hf ltac:(lia) Esn).
      destruct (cu_flush_discard_blocks _) as [b' ev]. destruct Hf as (? & ? & ? & ? & ?). by split_and!.
    + cbn [cb_discard_blocks cb_set_blocks cb_stopped sent_dl omap list_omap map concat app]. split; [done|]. split; [split|split; [constructor|done]]; [done|].
      unfold nru_max_nof_pdcp_sn_discard_blocks in Hne. cbn [cb_discard_blocks cb_set_blocks]. rewrite !length_app in *. cbn [length] in *. lia.
Qed.

Lemma sdu_sends sdu is_retx b : cu_ok b -> bytes_ok sdu -> cb_stopped b = false ->
  let '(b', ev) := cu_handle_sdu sdu is_retx b in
  cb_stopped b' = false /\ cu_sends b b' ev [] (option_list (match sdu with [] => None | s => Some (s, is_retx) end)).
Proof.
  intros [Hb Hl] Hs Hst. unfold cu_handle_sdu, cu_fill_discard_blocks, cu_sends. rewrite Hst. destruct (cb_discard_blocks b) as [|x l] eqn:Eb.
  - cbn. split; [done|]. split; [split; cbn; rewrite Eb; [constructor|cbn; lia]|]. split; [apply Forall_singleton; by apply dl_message_plain|].
    split; [by destruct sdu|]. by rewrite Eb.
  - cbn. split; [done|]. split; [split; [constructor|cbn; lia]|]. split; [apply Forall_singleton; apply dl_message_fits; [done|done|lia|done]|].
    split; [by destruct sdu|]. by rewrite !app_nil_r.
Qed.

Lemma sends_nothing b b' ev sns : cu_ok b -> cb_discard_blocks b' = cb_discard_blocks b -> sent_dl ev = [] -> sns = [] -> cu_sends b b' ev sns [].
Proof. intros Hb Eb Es ->. unfold cu_sends, cu_ok. rewrite Eb, Es, app_nil_r. split; [exact Hb|]. by split_and!. Qed.

Lemma sent_dl_app a c : sent_dl (a ++ c) = sent_dl a ++ sent_dl c. Proof. apply omap_app. Qed.

Lemma cu_defer_quiet defer_ok n : sent_dl (cu_defer defer_ok n) = [].
Proof. unfold cu_defer. by destruct (defer_ok n). Qed.

Lemma cu_status_quiet defer_ok s b :
  let '(b', ev) := cu_handle_status defer_ok s b in cb_stopped b' = cb_stopped b /\ cb_discard_blocks b' = cb_discard_blocks b /\ sent_dl ev = [].
Proof.
  unfold cu_handle_status, cu_handle_transmitted, cu_handle_delivered. destruct s as [ff ds dr lost del tra cause delr retx]. cbn.
  destruct tra as [tra|]; [destruct (tra =? cb_notif_transmitted b)|]; cbn;
    (destruct del as [del|]; [destruct (del =? cb_notif_delivered b)|]; cbn); (split; [done|]; split; [done|]);
    rewrite ?sent_dl_app; cbn; rewrite ?sent_dl_app, ?cu_defer_quiet; destruct retx, delr; rewrite ?cu_defer_quiet; done.
Qed.

Lemma cu_pdu_quiet defer_ok m b :
  let '(b', ev) := cu_handle_pdu_impl defer_ok m b in cb_stopped b' = cb_stopped b /\ cb_discard_blocks b' = cb_discard_blocks b /\ sent_dl ev = [].
Proof.
  unfold cu_handle_pdu_impl. destruct (cb_stopped b) eqn:Est; [done|].
  assert (E1 : sent_dl (match um_t_pdu m with Some (x :: l) => [CuRestartInactivity; CuNewSdu (x :: l)] | _ => [] end) = []) by (by destruct (um_t_pdu m) as [[]|]).
  destruct (um_data_delivery_status m) as [s|]; [|done]. pose proof (cu_status_quiet defer_ok s b) as Hs. rewrite Est in Hs.
  destruct (cu_handle_status defer_ok s b) as [b' ev]. destruct Hs as (? & ? & E2). split; [done|]. split; [done|]. by rewrite sent_dl_app, E1, E2.
Qed.

Definition is_stop (i : cu_input) : bool := match i with CiStop => true | _ => false end.

Lemma cu_step_sends i b : cu_ok b -> cu_input_ok i ->
  let '(b', ev) := cu_step i b in
  cb_stopped b' = cb_stopped b || is_stop i /\ cu_sends b b' ev (cu_discards [i]) (if cb_stopped b then [] else cu_sdus [i]).
Proof.
  intros Hb Hi. destruct i as [sdu is_retx|sn| | |defer_ok m]; cbn [cu_step cu_input_ok is_stop cu_discards omap list_omap cu_sdus] in *; rewrite ?orb_false_r.
  - destruct (cb_stopped b) eqn:Est.
    + unfold cu_handle_sdu. rewrite Est. split; [done|]. by apply sends_nothing.
    + pose proof (sdu_sends sdu is_retx b Hb Hi Est) as Hs. destruct (cu_handle_sdu sdu is_retx b) as [b' ev]. destruct Hs as [? Hs].
      split; [done|]. by destruct sdu.
  - pose proof (discard_sends sn b Hb Hi) as Hs. destruct (cu_discard_sdu sn b) as [b' ev]. destruct Hs as [? Hs]. split; [done|].
    by destruct (cb_stopped b).
  - unfold cu_on_expired_dl_notif_timer. destruct (cb_stopped b) eqn:Est; [split; [done|]; by apply sends_nothing|].
    pose proof (flush_sends b [] (blocks_sns (cb_discard_blocks b))) as Hf. destruct Hb as [Hb Hl]. specialize (Hf Hb ltac:(lia) (eq_sym (app_nil_r _))).
    destruct (cu_flush_discard_blocks b) as [b' ev]. destruct Hf as (E & ? & ? & ? & ?). split; [by rewrite E|]. by split_and!.
  - assert (Est : cb_stopped (cu_stop b) = cb_stopped b || true) by (unfold cu_stop; destruct (cb_stopped b) eqn:Est; [done|done]).
    split; [done|]. destruct (cb_stopped b) eqn:Eb; (apply sends_nothing; [done| |done|done]); unfold cu_stop; by rewrite Eb.
  - pose proof (cu_pdu_quiet defer_ok m b) as Hq. destruct (cu_handle_pdu_impl defer_ok m b) as [b' ev]. destruct Hq as (? & ? & ?).
    split; [done|]. destruct (cb_stopped b); by apply sends_nothing.
Qed.

Lemma cu_sdus_cons i l : cu_sdus (i :: l) = cu_sdus [i] ++ (if is_stop i then [] else cu_sdus l).
Proof. by destruct i as [[|x sdu] is_retx|sn| | |defer_ok m]. Qed.

Lemma cu_run_sends l : forall b, cu_ok b -> Forall cu_input_ok l ->
  let '(b', ev) := cu_run l b in cu_sends b b' ev (cu_discards l) (if cb_stopped b then [] else cu_sdus l).
Proof.
  induction l as [|i l IH]; intros b Hb Hl; cbn [cu_run].
  { destruct (cb_stopped b); by apply sends_nothing. }
  apply Forall_cons in Hl as [Hi Hl]. pose proof (cu_step_sends i b Hb Hi) as Hs. destruct (cu_step i b) as [b1 ev1].
  destruct Hs as (Est & Hb1 & Hm1 & Hd1 & Hn1). specialize (IH b1 Hb1 Hl). destruct (cu_run l b1) as [b2 ev2]. destruct IH as (Hb2 & Hm2 & Hd2 & Hn2).
  split; [done|]. rewrite sent_dl_app, map_app, concat_app, omap_app. split; [by apply Forall_app_2|]. split.
  - rewrite Hd1, Hd2, Est, (cu_sdus_cons i l). destruct (cb_stopped b); [done|]. cbn [orb]. destruct (is_stop i); by rewrite ?app_nil_r.
  - rewrite <- app_assoc, Hn2, app_assoc, Hn1, <- app_assoc. f_equal. by destruct i.
Qed.

(** What the DU's bearer tells RLC *)
Definition du_discarded (ev : list du_event) : list Z := concat (map (fun x => match x with DuDiscard s n => seqZ s n | _ => [] end) ev).
Definition du_sdus (ev : list du_event) : list (list Z * bool) := omap (fun x => match x with DuNewSdu sdu is_retx => Some (sdu, is_retx) | _ => None end) ev.

Lemma du_discards_blocks l : concat (map (fun x => match x with DuDiscard s n => seqZ s n | _ => [] end) (map (fun x => DuDiscard (pdcp_sn_start x) (block_size x)) l)) = blocks_sns l.
Proof. unfold blocks_sns. by rewrite map_map. Qed.

Lemma du_receives d ms : Forall dl_message_ok ms ->
  exists ev, du_run (map DuPdu ms) d = Some (d, ev) /\ du_discarded ev = concat (map message_sns ms) /\ du_sdus ev = omap message_sdu ms.
Proof.
  induction ms as [|m ms IH]; intros Hm; [by exists []|]. apply Forall_cons in Hm as [(_ & _ & Hp) Hm]. destruct (IH Hm) as (ev & E & Hd & Hs).
  cbn [map du_run du_step]. unfold du_handle_pdu_impl. rewrite Hp. cbn [mbind option_bind]. rewrite E. cbn [mbind option_bind app].
  eexists. split; [reflexivity|]. unfold du_discarded, du_sdus in *. rewrite !map_app, !concat_app, !omap_app, Hd, Hs. split.
  - cbn [map concat]. assert (Em : message_sns m = match discard_blocks (dm_dl_user_data m) with Some bl => blocks_sns bl | None => [] end).
    { unfold message_sns. by destruct (discard_blocks _). }
    rewrite Em. destruct (discard_blocks (dm_dl_user_data m)) as [bl|]; rewrite ?du_discards_blocks; destruct (dm_t_pdu m); cbn; by rewrite ?app_nil_r.
  - assert (E1 : omap (fun x => match x with DuNewSdu sdu is_retx => Some (sdu, is_retx) | _ => None end)
      (match discard_blocks (dm_dl_user_data m) with Some l => map (fun x => DuDiscard (pdcp_sn_start x) (block_size x)) l | None => [] end) = []).
    { destruct (discard_blocks (dm_dl_user_data m)) as [bl|]; [|done]. clear. induction bl as [|x bl IH]; [done|exact IH]. }
    rewrite E1. cbn [omap list_omap app]. unfold message_sdu at 2. destruct (dm_t_pdu m); done.
Qed.

(** C11. The downlink of F1-U from end to end. For every sequence of PDUs, discarded SNs, timer expiries and uplink messages at
    the CU-UP, before and after it is stopped: every message it sends can be carried by the tunnel and arrives unchanged; and a
    DU bearer that receives these messages hands the PDUs to RLC that PDCP handed over until then, in order, with their
    retransmission flag, and asks it to discard exactly the SNs that PDCP discarded, in order, up to the ones the CU-UP still
    holds; no discarded SN is lost for want of room. *)
Theorem f1u_downlink_correct l mem peer d :
  Forall cu_input_ok l -> is_teid peer ->
  let '(b, ev) := cu_run l cu_bearer_new in
  Forall (fun m => sends mem (nru_tx_handle mem peer (NruDl m)) (fun pdu =>
    gtpu_read_teid pdu = Some (Some peer) /\ nru_rx_handle f1u_du true pdu = Some (Some (NruDl m)))) (sent_dl ev) /\
  exists ev', du_run (map DuPdu (sent_dl ev)) d = Some (d, ev') /\ du_sdus ev' = cu_sdus l /\
    du_discarded ev' ++ blocks_sns (cb_discard_blocks b) = cu_discards l.
Proof.
  intros Hl Hp. assert (Hb : cu_ok cu_bearer_new) by (split; [constructor|cbn; lia]). pose proof (cu_run_sends l cu_bearer_new Hb Hl) as Hr.
  destruct (cu_run l cu_bearer_new) as [b ev]. destruct Hr as (_ & Hm & Hs & Hn). split.
  - eapply Forall_impl; [exact Hm|]. intros m (Hok & Er & _). eapply sends_weaken; [by apply f1u_link|].
    intros pdu [Ht Hx]. cbn [nru_peer] in Hx. by rewrite Er in Hx.
  - destruct (du_receives d _ Hm) as (ev' & E & Hd & Hsd). exists ev'. split; [done|]. split; [by rewrite Hsd, Hs|]. by rewrite Hd, Hn.
Qed.

Lemma f1u_downlink_correct_witness :
  let l := [CiDiscard 5; CiDiscard 6; CiSdu [1; 2] false; CiDiscard 9; CiTimer; CiSdu [3] true; CiDiscard 20; CiStop; CiSdu [4] false] in
  let '(b, ev) := cu_run l cu_bearer_new in
  length (sent_dl ev) = 3%nat /\
  exists ev', du_run (map DuPdu (sent_dl ev)) (du_bearer_new false (rb_new false 16) 100) = Some (du_bearer_new false (rb_new false 16) 100, ev') /\
    du_sdus ev' = [([1; 2], false); ([3], true)] /\ du_discarded ev' ++ blocks_sns (cb_discard_blocks b) = [5; 6; 9; 20].
Proof.
  intros l. pose proof (f1u_downlink_correct l sample_memory 7 (du_bearer_new false (rb_new false 16) 100)) as H.
  assert (Hl : Forall cu_input_ok l) by (subst l; repeat constructor; unfold is_24; cbn; lia). specialize (H Hl ltac:(unfold is_teid; lia)).
  vm_compute (cu_run l cu_bearer_new) in H |- *. destruct H as [_ H]. split; [reflexivity|exact H].
Defined.
