(* ===== verification/F1uUplink.v ===== *)
(** * The uplink of F1-U from end to end

    A DU bearer that does not buffer, and the CU-UP bearer that gets its messages: [f1u_sync] relates the two after every message. *)
From S2P Require Import Prelude RingBuffer BitCodec BitFields BitIo Nru GtpuPdu GtpuPduCorrect GtpuTunnels F1u F1uCorrect.

Implicit Types (b : f1u_cu_bearer) (d : f1u_du_bearer).

Definition sent_ul (ev : list du_event) : list nru_ul_message := omap (fun x => match x with DuNewPdu m => Some m | _ => None end) ev.

(** A message after the tunnel: an empty payload is none. *)
Definition ul_read (m : nru_ul_message) : nru_ul_message := UlMessage (match um_t_pdu m with Some [] => None | t => t end) (um_data_delivery_status m).

(** The CU-UP handles messages; the executor of PDCP takes every notification. *)
Definition take_all (n : dl_notification) : bool := true.
Definition cu_receive (ms : list nru_ul_message) b : f1u_cu_bearer * list cu_event := cu_run (map (fun m => CiPdu take_all (ul_read m)) ms) b.

Definition cu_new_sdus (ev : list cu_event) : list (list Z) := omap (fun x => match x with CuNewSdu sdu => Some sdu | _ => None end) ev.
Definition notifications (ev : list cu_event) : list dl_notification := omap (fun x => match x with CuNotify n => Some n | _ => None end) ev.

(** The last notification of one kind *)
Definition told (kind : dl_notification -> option Z) (ev : list cu_event) : option Z := last (omap kind (notifications ev)).
Definition kind_size (n : dl_notification) : option Z := match n with DesiredBufferSize v => Some v | _ => None end.
Definition kind_transmitted (n : dl_notification) : option Z := match n with Transmitted v => Some v | _ => None end.
Definition kind_delivered (n : dl_notification) : option Z := match n with Delivered v => Some v | _ => None end.
Definition kind_retransmitted (n : dl_notification) : option Z := match n with Retransmitted v => Some v | _ => None end.
Definition kind_delivered_retransmitted (n : dl_notification) : option Z := match n with DeliveredRetransmitted v => Some v | _ => None end.

Lemma told_app kind a c : told kind (a ++ c) = match told kind c with Some v => Some v | None => told kind a end.
Proof. unfold told, notifications. by rewrite !omap_app, last_app. Qed.

Lemma told_skip kind a s c : notifications s = [] -> told kind (a ++ s ++ c) = told kind (a ++ c).
Proof. unfold told, notifications. intros E. by rewrite !omap_app, E. Qed.

(** A counter's value, if it has one *)
Definition set_value (v : Z) : option Z := if v =? unset_pdcp_sn then None else Some v.

(** A counter of RLC: not set, or an SN *)
Definition counter_ok (cur notif : Z) : Prop :=
  (cur = unset_pdcp_sn \/ is_24 cur) /\ (notif = unset_pdcp_sn \/ is_24 notif) /\ (cur = unset_pdcp_sn -> notif = unset_pdcp_sn).

Record du_counters_ok d : Prop := {
  dco_size : 0 <= dc_desired_buffer_size (db_cur d) < 2 ^ 32;
  dco_transmitted : counter_ok (dc_transmitted (db_cur d)) (dc_transmitted (db_notif d));
  dco_delivered : counter_ok (dc_delivered (db_cur d)) (dc_delivered (db_notif d));
  dco_retransmitted : counter_ok (dc_retransmitted (db_cur d)) (dc_retransmitted (db_notif d));
  dco_delivered_retransmitted : counter_ok (dc_delivered_retransmitted (db_cur d)) (dc_delivered_retransmitted (db_notif d));
}.

(** What the CU-UP passed on is what the DU reported. *)
Record f1u_sync b d (ev : list cu_event) : Prop := {
  fs_running : cb_stopped b = false;
  fs_transmitted : cb_notif_transmitted b = dc_transmitted (db_notif d);
  fs_delivered : cb_notif_delivered b = dc_delivered (db_notif d);
  fs_told_size : told kind_size ev = Some (dc_desired_buffer_size (db_notif d)) \/ told kind_size ev = None /\ dc_desired_buffer_size (db_notif d) = 0;
  fs_told_transmitted : told kind_transmitted ev = set_value (dc_transmitted (db_notif d));
  fs_told_delivered : told kind_delivered ev = set_value (dc_delivered (db_notif d));
  fs_told_retransmitted : told kind_retransmitted ev = set_value (dc_retransmitted (db_notif d));
  fs_told_delivered_retransmitted : told kind_delivered_retransmitted ev = set_value (dc_delivered_retransmitted (db_notif d));
}.

(** ** One report *)

Lemma fill_set_spec cur notif : counter_ok cur notif ->
  exists (fresh : bool) (n' : Z), du_fill_set cur notif = (fresh, set_value cur, n') /\ n' = cur /\ fresh = negb (cur =? notif).
Proof.
  intros (Hc & Hn & Hu). unfold du_fill_set, set_value. destruct (Z.eqb_spec cur unset_pdcp_sn) as [->|Hne].
  - rewrite (Hu eq_refl), Z.eqb_refl. eexists _, _; split_and!; reflexivity.
  - destruct (Z.eqb_spec cur notif) as [->|]; cbn [negb]; eexists _, _; split_and!; reflexivity.
Qed.

Lemma fill_changed_spec cur notif : counter_ok cur notif ->
  exists (fresh : bool) (n' : Z), du_fill_changed cur notif = (fresh, (if fresh then set_value cur else None), n') /\ n' = cur /\ fresh = negb (cur =? notif).
Proof.
  intros (Hc & Hn & Hu). unfold du_fill_changed, set_value. destruct (Z.eqb_spec cur notif) as [->|Hne]; cbn [negb]; [exists false, notif; by split_and!|].
  exists true, cur. split; [|done].
  rewrite (proj2 (Z.eqb_neq cur _)); [done|]. intros E. apply Hne. by rewrite E, Hu.
Qed.

(** The report, in one piece: everything that RLC stored is reported from now on. *)
Definition report_of d : nru_dl_data_delivery_status :=
  let c := db_cur d in let n := db_notif d in
  Ddds false (dc_desired_buffer_size c) None None (set_value (dc_delivered c)) (set_value (dc_transmitted c)) None
    (if negb (dc_delivered_retransmitted c =? dc_delivered_retransmitted n) then set_value (dc_delivered_retransmitted c) else None)
    (if negb (dc_retransmitted c =? dc_retransmitted n) then set_value (dc_retransmitted c) else None).

Definition du_reported d : f1u_du_bearer := db_set_timer true (db_set_notif (db_cur d) d).

Lemma counters_eta c : DuCounters (dc_desired_buffer_size c) (dc_transmitted c) (dc_delivered c) (dc_retransmitted c) (dc_delivered_retransmitted c) = c.
Proof. by destruct c. Qed.

Lemma fill_status_spec d : du_counters_ok d ->
  exists fresh, du_fill_data_delivery_status d = (fresh, report_of d, du_reported d) /\ (fresh = false -> db_notif d = db_cur d).
Proof.
  intros [H1 H2 H3 H4 H5]. unfold du_fill_data_delivery_status.
  destruct (fill_set_spec _ _ H2) as (f2 & n2 & -> & -> & E2). destruct (fill_set_spec _ _ H3) as (f3 & n3 & -> & -> & E3).
  destruct (fill_changed_spec _ _ H4) as (f4 & n4 & -> & -> & E4). destruct (fill_changed_spec _ _ H5) as (f5 & n5 & -> & -> & E5).
  eexists. split.
  { rewrite counters_eta. unfold report_of, du_reported. rewrite E4, E5. reflexivity. }
  intros Hf. subst f2 f3 f4 f5. repeat apply orb_false_iff in Hf as [Hf ?].
  repeat match goal with H : negb (_ =? _) = false |- _ => apply negb_false_iff, Z.eqb_eq in H end.
  destruct (db_cur d), (db_notif d). cbn in *. congruence.
Qed.

Lemma counters_reported d : du_counters_ok d -> du_counters_ok (du_reported d).
Proof. intros [H1 H2 H3 H4 H5]. split; cbn; [done|destruct H2|destruct H3|destruct H4|destruct H5]; by split_and!. Qed.

Lemma report_ok d : du_counters_ok d -> ddds_ok (report_of d).
Proof.
  intros [H1 H2 H3 H4 H5].
  assert (Hv : forall cur notif, counter_ok cur notif -> from_option is_24 True (set_value cur)).
  { intros cur notif ([->|Hc] & _); [done|]. unfold set_value. by destruct (cur =? unset_pdcp_sn). }
  unfold ddds_ok, report_of. cbn. split_and!; try done; try lia; try (by eapply Hv);
    destruct (negb _); try done; by eapply Hv.
Qed.

(** ** One report at the CU-UP *)

(** A notification of a value that RLC has stored *)
Definition current d (n : dl_notification) : Prop :=
  let c := db_cur d in
  match n with
  | DesiredBufferSize v => dc_desired_buffer_size c = v
  | Transmitted v => set_value (dc_transmitted c) = Some v
  | Delivered v => set_value (dc_delivered c) = Some v
  | Retransmitted v => set_value (dc_retransmitted c) = Some v
  | DeliveredRetransmitted v => set_value (dc_delivered_retransmitted c) = Some v
  end.

Definition changed (cur notif : Z) : bool := negb (cur =? notif).

Lemma changed_cases cur notif : counter_ok cur notif ->
  changed cur notif = false /\ cur = notif \/ changed cur notif = true /\ cur <> notif /\ set_value cur = Some cur.
Proof.
  intros (_ & _ & Hu). unfold changed, set_value. destruct (Z.eqb_spec cur notif) as [->|Hne]; [by left|]. right. split_and!; [done|done|].
  rewrite (proj2 (Z.eqb_neq cur _)); [done|]. intros E. apply Hne. by rewrite E, Hu.
Qed.

Lemma transmitted_spec c b : counter_ok c (cb_notif_transmitted b) ->
  cu_handle_transmitted take_all (set_value c) b =
  (CuBearer (cb_stopped b) (cb_timer b) c (cb_notif_delivered b) (cb_discard_blocks b),
   if changed c (cb_notif_transmitted b) then [CuRestartInactivity; CuNotify (Transmitted c)] else []).
Proof.
  intros Hc. unfold cu_handle_transmitted, cu_defer, take_all. destruct (changed_cases _ _ Hc) as [[-> ->]|(-> & Hne & ->)].
  - unfold set_value. destruct (_ =? unset_pdcp_sn); rewrite ?Z.eqb_refl; by destruct b.
  - by rewrite (proj2 (Z.eqb_neq _ _) Hne).
Qed.

Lemma delivered_spec c b : counter_ok c (cb_notif_delivered b) ->
  cu_handle_delivered take_all (set_value c) b =
  (CuBearer (cb_stopped b) (cb_timer b) (cb_notif_transmitted b) c (cb_discard_blocks b),
   if changed c (cb_notif_delivered b) then [CuNotify (Delivered c)] else []).
Proof.
  intros Hc. unfold cu_handle_delivered, cu_defer, take_all. destruct (changed_cases _ _ Hc) as [[-> ->]|(-> & Hne & ->)].
  - unfold set_value. destruct (_ =? unset_pdcp_sn); rewrite ?Z.eqb_refl; by destruct b.
  - by rewrite (proj2 (Z.eqb_neq _ _) Hne).
Qed.

Lemma changed_notified (k : Z -> dl_notification) c n : counter_ok c n ->
  match (if negb (c =? n) then set_value c else None) with Some sn => cu_defer take_all (k sn) | None => [] end =
  if changed c n then [CuNotify (k c)] else [].
Proof.
  intros Hc. unfold cu_defer, take_all. fold (changed c n). destruct (changed_cases _ _ Hc) as [[-> ->]|(-> & Hne & ->)]; done.
Qed.

(** All that the CU-UP tells PDCP of a report *)
Definition notified d : list cu_event :=
  let c := db_cur d in let n := db_notif d in
  [CuNotify (DesiredBufferSize (dc_desired_buffer_size c))] ++
  (if changed (dc_transmitted c) (dc_transmitted n) then [CuRestartInactivity; CuNotify (Transmitted (dc_transmitted c))] else []) ++
  (if changed (dc_delivered c) (dc_delivered n) then [CuNotify (Delivered (dc_delivered c))] else []) ++
  (if changed (dc_retransmitted c) (dc_retransmitted n) then [CuNotify (Retransmitted (dc_retransmitted c))] else []) ++
  (if changed (dc_delivered_retransmitted c) (dc_delivered_retransmitted n) then [CuNotify (DeliveredRetransmitted (dc_delivered_retransmitted c))] else []).

Lemma status_spec b d ev : f1u_sync b d ev -> du_counters_ok d ->
  cu_handle_status take_all (report_of d) b =
  (CuBearer (cb_stopped b) (cb_timer b) (dc_transmitted (db_cur d)) (dc_delivered (db_cur d)) (cb_discard_blocks b), notified d).
Proof.
  intros [_ Ht Hd _ _ _ _ _] [_ H2 H3 H4 H5]. unfold cu_handle_status, report_of.
  cbn [desired_buffer_size_for_drb highest_transmitted_pdcp_sn highest_delivered_pdcp_sn highest_retransmitted_pdcp_sn highest_delivered_retransmitted_pdcp_sn].
  rewrite transmitted_spec by (by rewrite Ht). rewrite delivered_spec by (cbn; by rewrite Hd). cbn [cb_notif_delivered cb_stopped cb_timer cb_notif_transmitted cb_discard_blocks].
  rewrite Ht, Hd, !changed_notified by done. done.
Qed.

Lemma told_other kind (f : bool) ev : told kind ev = None -> told kind (if f then ev else []) = None.
Proof. by destruct f. Qed.

Lemma told_counter kind (k : Z -> dl_notification) pre c n ev0 : counter_ok c n ->
  (forall v, told kind (pre ++ [CuNotify (k v)]) = Some v) -> told kind ev0 = set_value n ->
  match told kind (if changed c n then pre ++ [CuNotify (k c)] else []) with Some v => Some v | None => told kind ev0 end = set_value c.
Proof. intros Hc Hk E. destruct (changed_cases _ _ Hc) as [[-> ->]|(-> & Hne & ->)]; [done|by rewrite Hk]. Qed.

(** What is said of the other kinds does not matter. *)
Ltac drop_others :=
  unfold notified; rewrite !told_app;
  repeat match goal with |- context [told ?k (if ?f then ?l else [])] => rewrite (told_other k f l) by reflexivity end.

Lemma notified_sync b d ev : f1u_sync b d ev -> du_counters_ok d ->
  f1u_sync (CuBearer (cb_stopped b) (cb_timer b) (dc_transmitted (db_cur d)) (dc_delivered (db_cur d)) (cb_discard_blocks b)) (du_reported d) (ev ++ notified d).
Proof.
  intros [H0 _ _ _ Ht Hd Hr Hdr] [_ H2 H3 H4 H5]. split; cbn [cb_stopped cb_notif_transmitted cb_notif_delivered du_reported db_notif db_set_timer db_set_notif]; try done.
  - left. by drop_others.
  - drop_others. pose proof (told_counter kind_transmitted Transmitted [CuRestartInactivity] _ _ ev H2 ltac:(done) Ht) as E. cbn [app] in E.
    rewrite <- E. by destruct (changed _ _).
  - drop_others. pose proof (told_counter kind_delivered Delivered [] _ _ ev H3 ltac:(done) Hd) as E. cbn [app] in E.
    rewrite <- E. by destruct (changed _ _).
  - drop_others. pose proof (told_counter kind_retransmitted Retransmitted [] _ _ ev H4 ltac:(done) Hr) as E. cbn [app] in E.
    rewrite <- E. by destruct (changed _ _).
  - drop_others. pose proof (told_counter kind_delivered_retransmitted DeliveredRetransmitted [] _ _ ev H5 ltac:(done) Hdr) as E. cbn [app] in E.
    rewrite <- E. by destruct (changed _ _).
Qed.

Lemma notified_current d : du_counters_ok d -> Forall (current d) (notifications (notified d)).
Proof.
  intros [_ H2 H3 H4 H5]. unfold notified, notifications. rewrite !omap_app. repeat apply Forall_app_2.
  - by apply Forall_singleton.
  - destruct (changed_cases _ _ H2) as [[-> _]|(-> & _ & E)]; [constructor|]. by apply Forall_singleton.
  - destruct (changed_cases _ _ H3) as [[-> _]|(-> & _ & E)]; [constructor|]. by apply Forall_singleton.
  - destruct (changed_cases _ _ H4) as [[-> _]|(-> & _ & E)]; [constructor|]. by apply Forall_singleton.
  - destruct (changed_cases _ _ H5) as [[-> _]|(-> & _ & E)]; [constructor|]. by apply Forall_singleton.
Qed.

Lemma notified_no_sdu d : cu_new_sdus (notified d) = [].
Proof. unfold notified, cu_new_sdus. rewrite !omap_app. by repeat destruct (changed _ _). Qed.

(** ** Runs *)

Definition du_input_ok (i : du_input) : Prop :=
  match i with
  | DuSdu sdu => bytes_ok sdu
  | DuTransmitted sn size => is_24 sn /\ is_32 size
  | DuDelivered sn | DuRetransmitted sn | DuDeliveredRetransmitted sn => is_24 sn
  | _ => True
  end.

(** What RLC stores, and the SDUs it hands over *)
Definition stored (i : du_input) : list dl_notification :=
  match i with
  | DuTransmitted sn size => [DesiredBufferSize size; Transmitted sn]
  | DuDelivered sn => [Delivered sn]
  | DuRetransmitted sn => [Retransmitted sn]
  | DuDeliveredRetransmitted sn => [DeliveredRetransmitted sn]
  | _ => []
  end.

Definition handed_over (i : du_input) : list (list Z) := match i with DuSdu (x :: sdu) => [x :: sdu] | _ => [] end.

(** The latest value of each kind *)
Definition latest (kind : dl_notification -> option Z) (S : list dl_notification) : option Z := last (omap kind S).

Record stores (S : list dl_notification) d : Prop := {
  st_size : latest kind_size S = Some (dc_desired_buffer_size (db_cur d));
  st_transmitted : latest kind_transmitted S = set_value (dc_transmitted (db_cur d));
  st_delivered : latest kind_delivered S = set_value (dc_delivered (db_cur d));
  st_retransmitted : latest kind_retransmitted S = set_value (dc_retransmitted (db_cur d));
  st_delivered_retransmitted : latest kind_delivered_retransmitted S = set_value (dc_delivered_retransmitted (db_cur d));
}.

Record f1u_inv (S : list dl_notification) b d (ev : list cu_event) : Prop := {
  fi_direct : db_buffering d = false;
  fi_counters : du_counters_ok d;
  fi_sync : f1u_sync b d ev;
  fi_stores : stores S d;
  fi_told : Forall (.∈ S) (notifications ev);
}.

Lemma latest_app kind a c : latest kind (a ++ c) = match latest kind c with Some v => Some v | None => latest kind a end.
Proof. unfold latest. by rewrite omap_app, last_app. Qed.

Lemma latest_in kind (k : Z -> dl_notification) S v : (forall n w, kind n = Some w -> n = k w) -> latest kind S = Some v -> k v ∈ S.
Proof.
  intros Hk E. apply last_Some in E as [l E]. assert (Hin : v ∈ omap kind S) by (rewrite E; apply elem_of_app; right; left).
  apply list_elem_of_omap in Hin as (n & Hn & En). by rewrite <- (Hk n v En).
Qed.

Lemma current_known S d n : stores S d -> current d n -> n ∈ S.
Proof.
  intros [H1 H2 H3 H4 H5] Hn. destruct n as [v|v|v|v|v]; cbn in Hn.
  - subst v. eapply (latest_in kind_size); [|done]. by intros [] w [= ->].
  - rewrite Hn in H2. eapply (latest_in kind_transmitted); [|done]. by intros [] w [= ->].
  - rewrite Hn in H3. eapply (latest_in kind_delivered); [|done]. by intros [] w [= ->].
  - rewrite Hn in H4. eapply (latest_in kind_retransmitted); [|done]. by intros [] w [= ->].
  - rewrite Hn in H5. eapply (latest_in kind_delivered_retransmitted); [|done]. by intros [] w [= ->].
Qed.

Lemma stores_reported S d : stores S d -> stores S (du_reported d).
Proof. by intros [? ? ? ? ?]. Qed.

Lemma report_received S b d ev t : f1u_inv S b d ev -> bytes_ok (default [] t) ->
  nru_message_ok (NruUl (UlMessage t (Some (report_of d)))) /\
  let '(b', ev') := cu_receive [UlMessage t (Some (report_of d))] b in
  f1u_inv S b' (du_reported d) (ev ++ ev') /\ cu_new_sdus ev' = match t with Some (x :: l) => [x :: l] | _ => [] end.
Proof.
  intros [H1 H2 H3 H4 H5] Ht. split; [split; [done|by apply report_ok]|].
  unfold cu_receive. cbn [map cu_run cu_step]. unfold cu_handle_pdu_impl. rewrite (fs_running _ _ _ H3).
  cbn [ul_read um_t_pdu um_data_delivery_status]. rewrite (status_spec _ _ _ H3 H2).
  match goal with |- context [?s ++ notified d] => set (sdu := s) end.
  assert (Hq : notifications sdu = []) by (subst sdu; by destruct t as [[|x l]|]).
  assert (Hs : cu_new_sdus sdu = match t with Some (x :: l) => [x :: l] | _ => [] end) by (subst sdu; by destruct t as [[|x l]|]).
  rewrite app_nil_r. split.
  - split; [done|by apply counters_reported| |by apply stores_reported|].
    + destruct (notified_sync b d ev H3 H2) as [G0 G1 G2 G3 G4 G5 G6 G7]. split; rewrite ?told_skip by done; done.
    + unfold notifications in *. rewrite !omap_app, Hq. cbn [app]. apply Forall_app_2; [done|].
      eapply Forall_impl; [by apply notified_current|]. intros n Hn. by eapply current_known.
  - unfold cu_new_sdus in *. rewrite omap_app, Hs. fold (cu_new_sdus (notified d)). by rewrite notified_no_sdu, app_nil_r.
Qed.

Lemma silent_inv S b d ev : f1u_inv S b d ev -> db_notif d = db_cur d -> f1u_inv S b (du_reported d) ev.
Proof.
  intros [H1 H2 H3 H4 H5] E. split; [done|by apply counters_reported| |by apply stores_reported|done].
  destruct H3 as [G0 G1 G2 G3 G4 G5 G6 G7]. rewrite E in *. by split.
Qed.

(** A step of the DU, and the CU-UP that gets what it sends *)
Definition f1u_step_ok (S : list dl_notification) (i : du_input) b d (ev : list cu_event) : Prop :=
  exists d' e, du_step i d = Some (d', e) /\ Forall (fun m => nru_message_ok (NruUl m)) (sent_ul e) /\
  (i = DuTimer -> db_notif d' = db_cur d') /\
  let '(b', ev') := cu_receive (sent_ul e) b in f1u_inv (S ++ stored i) b' d' (ev ++ ev') /\ cu_new_sdus ev' = handed_over i.

Lemma status_sent S b d ev force : f1u_inv S b d ev ->
  exists e, du_send_data_delivery_status force d = (du_reported d, e) /\ Forall (fun m => nru_message_ok (NruUl m)) (sent_ul e) /\
  let '(b', ev') := cu_receive (sent_ul e) b in f1u_inv S b' (du_reported d) (ev ++ ev') /\ cu_new_sdus ev' = [].
Proof.
  intros Hi. unfold du_send_data_delivery_status. destruct (fill_status_spec d (fi_counters _ _ _ _ Hi)) as (fresh & -> & Hf).
  destruct (negb fresh && negb force) eqn:E.
  - apply andb_true_iff in E as [E _]. apply negb_true_iff in E. exists []. split; [done|]. split; [constructor|].
    cbn. rewrite app_nil_r. split; [|done]. apply silent_inv; [done|by apply Hf].
  - eexists. split; [reflexivity|]. destruct (report_received S b d ev None Hi) as [Hm Hr]; [constructor|]. split; [by apply Forall_singleton|]. exact Hr.
Qed.

Lemma stored_inv S b d ev i d' : f1u_inv S b d ev -> du_step i d = Some (d', []) -> handed_over i = [] -> i <> DuTimer ->
  db_buffering d' = false -> db_notif d' = db_notif d -> du_counters_ok d' -> stores (S ++ stored i) d' -> f1u_step_ok S i b d ev.
Proof.
  intros [H1 H2 H3 H4 H5] Es Eh Ht Hb En Hc Hk. exists d', []. split; [done|]. split; [constructor|]. split; [done|]. cbn. rewrite app_nil_r. split; [|done].
  split; [done|done| |done|].
  - destruct H3. rewrite <- En in *. by split.
  - eapply Forall_impl; [exact H5|]. intros n Hn. apply elem_of_app. by left.
Qed.

Lemma counter_stored cur notif sn : counter_ok cur notif -> is_24 sn -> counter_ok sn notif.
Proof.
  intros (_ & Hn & _) Hs. split; [by right|]. split; [done|]. intros ->. unfold is_24, unset_pdcp_sn in Hs. lia.
Qed.

Lemma set_value_sn sn : is_24 sn -> set_value sn = Some sn.
Proof. unfold set_value, is_24, unset_pdcp_sn. destruct (Z.eqb_spec sn 0xffffffff); [lia|done]. Qed.

Lemma du_step_ok S i b d ev : f1u_inv S b d ev -> du_input_ok i -> f1u_step_ok S i b d ev.
Proof.
  intros Hi Hok. pose proof (fi_direct _ _ _ _ Hi) as Hdir. pose proof (fi_counters _ _ _ _ Hi) as [H1 H2 H3 H4 H5]. pose proof (fi_stores _ _ _ _ Hi) as [S1 S2 S3 S4 S5].
  destruct i as [sdu|sn size|sn|sn|sn| |m| |]; cbn [du_input_ok] in Hok.
  - unfold f1u_step_ok. cbn [du_step]. unfold du_handle_sdu.
    destruct (fill_status_spec d (fi_counters _ _ _ _ Hi)) as (fresh & -> & _). cbn [db_buffering du_reported db_set_timer db_set_notif]. rewrite Hdir.
    eexists _, _. split; [reflexivity|]. destruct (report_received S b d ev (Some sdu) Hi Hok) as [Hm Hr]. cbn [sent_ul omap list_omap].
    split; [by apply Forall_singleton|]. split; [done|]. destruct (cu_receive _ b) as [b' ev']. cbn [stored]. rewrite app_nil_r. destruct Hr as [? ->]. split; [done|]. by destruct sdu.
  - destruct Hok as [Hs Hz]. eapply stored_inv; [done|reflexivity|done|done|done|done| |].
    + split; cbn; [exact Hz|by eapply counter_stored|done|done|done].
    + split; rewrite latest_app; cbn; rewrite ?set_value_sn by done; done.
  - eapply stored_inv; [done|reflexivity|done|done|done|done| |].
    + split; cbn; [done|done|by eapply counter_stored|done|done].
    + split; rewrite latest_app; cbn; rewrite ?set_value_sn by done; done.
  - eapply stored_inv; [done|reflexivity|done|done|done|done| |].
    + split; cbn; [done|done|done|by eapply counter_stored|done].
    + split; rewrite latest_app; cbn; rewrite ?set_value_sn by done; done.
  - eapply stored_inv; [done|reflexivity|done|done|done|done| |].
    + split; cbn; [done|done|done|done|by eapply counter_stored].
    + split; rewrite latest_app; cbn; rewrite ?set_value_sn by done; done.
  - destruct (status_sent S b d ev false Hi) as (e & E & Hm & Hr). exists (du_reported d), e. split; [cbn [du_step]; unfold du_on_expired_ul_notif_timer; by rewrite E|].
    split; [done|]. split; [done|]. destruct (cu_receive _ b) as [b' ev']. cbn [stored handed_over]. by rewrite app_nil_r.
  - unfold f1u_step_ok. cbn [du_step]. unfold du_handle_pdu_impl.
    set (rest := _ ++ match dm_t_pdu m with [] => [] | _ => _ end).
    assert (Hq : sent_ul rest = []).
    { subst rest. unfold sent_ul. rewrite omap_app. assert (Hl : forall l, omap (fun x => match x with DuNewPdu m => Some m | _ => None end) (map (fun x => DuDiscard (pdcp_sn_start x) (block_size x)) l) = [])
        by (induction l; done).
      by destruct (dm_t_pdu m), (discard_blocks _); rewrite ?Hl. }
    destruct (report_polling _).
    + destruct (status_sent S b d ev true Hi) as (e & -> & Hm & Hr). eexists _, _. split; [reflexivity|].
      assert (Ee : sent_ul (e ++ rest) = sent_ul e) by (unfold sent_ul in *; by rewrite omap_app, Hq, app_nil_r).
      rewrite Ee. split; [done|]. split; [done|]. destruct (cu_receive _ b) as [b' ev']. cbn [stored handed_over]. by rewrite app_nil_r.
    + eexists _, _. split; [reflexivity|]. cbn [app]. rewrite Hq. split; [constructor|]. split; [done|]. cbn. by rewrite !app_nil_r.
  - eapply stored_inv; [done|cbn [du_step]; unfold du_flush_ul_buffer; by rewrite Hdir|done|done|done|done|done|cbn [stored]; by rewrite app_nil_r].
  - eapply stored_inv; [done|reflexivity|done|done|done|done|done|cbn [stored]; by rewrite app_nil_r].
Qed.

Lemma du_run_ok l : forall S b d ev, f1u_inv S b d ev -> Forall du_input_ok l ->
  exists d' e, du_run l d = Some (d', e) /\ Forall (fun m => nru_message_ok (NruUl m)) (sent_ul e) /\
  (last l = Some DuTimer -> db_notif d' = db_cur d') /\
  let '(b', ev') := cu_receive (sent_ul e) b in
  f1u_inv (S ++ concat (map stored l)) b' d' (ev ++ ev') /\ cu_new_sdus ev' = concat (map handed_over l).
Proof.
  induction l as [|i l IH]; intros S b d ev Hi Hl.
  { exists d, []. split; [done|]. split; [constructor|]. split; [done|]. cbn. by rewrite !app_nil_r. }
  apply Forall_cons in Hl as [Hok Hl]. destruct (du_step_ok S i b d ev Hi Hok) as (d1 & e1 & E1 & Hm1 & Ht1 & Hr1).
  destruct (cu_receive (sent_ul e1) b) as [b1 ev1] eqn:Er1. destruct Hr1 as [Hi1 Hs1].
  destruct (IH _ _ _ _ Hi1 Hl) as (d2 & e2 & E2 & Hm2 & Ht2 & Hr2).
  exists d2, (e1 ++ e2). cbn [du_run]. rewrite E1. cbn [mbind option_bind]. rewrite E2. split; [done|].
  assert (Ea : sent_ul (e1 ++ e2) = sent_ul e1 ++ sent_ul e2) by apply omap_app. rewrite Ea.
  split; [by apply Forall_app_2|]. split.
  - destruct l as [|j l]; [|exact Ht2]. cbn [last]. intros [= ->]. cbn in E2. injection E2 as <- <-. by apply Ht1.
  - unfold cu_receive in *. rewrite map_app, cu_run_app, Er1. destruct (cu_run _ b1) as [b2 ev2]. destruct Hr2 as [Hi2 Hs2].
    cbn [map concat]. rewrite !app_assoc in *. split; [done|]. unfold cu_new_sdus in *. by rewrite omap_app, Hs1, Hs2.
Qed.

Lemma new_inv q limit : is_32 limit -> f1u_inv [DesiredBufferSize limit] cu_bearer_new (du_bearer_new false q limit) [].
Proof.
  intros Hl. split; [done| | | |constructor].
  - assert (Hc : counter_ok unset_pdcp_sn unset_pdcp_sn) by (split_and!; [by left|by left|done]). by split.
  - split; try done. by right.
  - by split.
Qed.

(** C12. The uplink of F1-U from end to end, for a DU that does not buffer. For every sequence of SDUs and notifications from RLC,
    timer expiries and downlink messages: no operation fails; every message is carried by the tunnel and arrives unchanged; and a
    CU-UP bearer that gets all of these messages, in order, and whose PDCP executor refuses no notification ([take_all]) delivers
    the SDUs that RLC handed over, in order, and tells PDCP nothing but values that RLC stored (or the initial buffer size).
    When the last input is an expiry of the timer, PDCP has been told the latest value of every kind; only a desired buffer size
    of 0 that was never preceded by another need not be told. *)
Theorem f1u_uplink_correct l q limit mem peer :
  Forall du_input_ok l -> is_32 limit -> is_teid peer ->
  exists d e, du_run l (du_bearer_new false q limit) = Some (d, e) /\
  Forall (fun m => sends mem (nru_tx_handle mem peer (NruUl m)) (fun pdu =>
    gtpu_read_teid pdu = Some (Some peer) /\ nru_rx_handle f1u_cu_up true pdu = Some (Some (NruUl (ul_read m))))) (sent_ul e) /\
  let '(b, ev) := cu_receive (sent_ul e) cu_bearer_new in
  let values := DesiredBufferSize limit :: concat (map stored l) in
  cu_new_sdus ev = concat (map handed_over l) /\ Forall (.∈ values) (notifications ev) /\
  (last l = Some DuTimer ->
    told kind_transmitted ev = latest kind_transmitted values /\ told kind_delivered ev = latest kind_delivered values /\
    told kind_retransmitted ev = latest kind_retransmitted values /\
    told kind_delivered_retransmitted ev = latest kind_delivered_retransmitted values /\
    (told kind_size ev = latest kind_size values \/ told kind_size ev = None /\ latest kind_size values = Some 0)).
Proof.
  intros Hl Hq Hp. destruct (du_run_ok l _ _ _ _ (new_inv q limit Hq) Hl) as (d & e & E & Hm & Ht & Hr). exists d, e. split; [done|]. split.
  { eapply Forall_impl; [exact Hm|]. intros m Hok. apply f1u_link; [done|exact Hok]. }
  destruct (cu_receive _ _) as [b ev]. cbn [app] in Hr. destruct Hr as [[_ _ [_ _ _ G1 G2 G3 G4 G5] [S1 S2 S3 S4 S5] Hn] Hs].
  split; [done|]. split; [done|]. intros Hlast. specialize (Ht Hlast). rewrite Ht in *. rewrite S2, S3, S4, S5. split; [done|]. split; [done|]. split; [done|]. split; [done|].
  rewrite S1. destruct G1 as [G1|[G1 G0]]; [by left|right]. by rewrite G0.
Qed.

Lemma f1u_uplink_correct_witness :
  let l := [DuTransmitted 3 500; DuSdu [1; 2]; DuDelivered 2; DuTransmitted 4 400; DuRetransmitted 1; DuTimer; DuTimer; DuSdu [3]; DuDelivered 4; DuTimer] in
  exists d e, du_run l (du_bearer_new false (rb_new false 16) 1000) = Some (d, e) /\ length (sent_ul e) = 4%nat /\
    let '(b, ev) := cu_receive (sent_ul e) cu_bearer_new in
    cu_new_sdus ev = [[1; 2]; [3]] /\ told kind_transmitted ev = Some 4 /\ told kind_delivered ev = Some 4 /\ told kind_size ev = Some 400.
Proof.
  intros l. destruct (f1u_uplink_correct l (rb_new false 16) 1000 sample_memory 7) as (d & e & E & _ & H).
  - repeat constructor; unfold is_24, is_32; cbn; lia.
  - unfold is_32. lia.
  - unfold is_teid. lia.
  - exists d, e. split; [done|]. vm_compute in E. injection E as <- <-. split; [done|]. revert H. destruct (cu_receive _ _) as [b ev] eqn:Ec. intros (Hs & _ & Hlast).
    specialize (Hlast eq_refl) as (H1 & H2 & _ & _ & H3). split; [exact Hs|]. split; [exact H1|]. split; [exact H2|]. destruct H3 as [H3|[_ H3]]; [exact H3|discriminate H3].
Defined.

(** ** Buffering *)

Lemma flush_loop_exact ms : forall q, rb_repr q ms ->
  exists q', du_flush_loop (length ms) q = Some (q', map DuNewPdu ms) /\ rb_repr q' [] /\ rb_max_size q' = rb_max_size q.
Proof.
  induction ms as [|m ms IH]; intros q Hq; cbn [length du_flush_loop]; rewrite (rb_repr_empty _ _ Hq); [by exists q|].
  destruct (rb_pop_spec _ _ _ Hq) as (q1 & Ep & Hq1 & Hm1). rewrite (rb_top_spec _ _ Hq), Ep. cbn [head mbind option_bind].
  destruct (IH q1 Hq1) as (q' & -> & Hq' & Hm'). cbn [mbind option_bind map]. exists q'. by rewrite <- Hm1.
Qed.

(** A flush sends what was buffered, in order, and ends the buffering. *)
Lemma flush_exact d ms : db_buffering d = true -> rb_repr (db_ul_buffer d) ms ->
  exists q, du_flush_ul_buffer d = Some (db_set_buffer false q d, map DuNewPdu ms) /\ rb_repr q [].
Proof.
  intros Hb Hq. unfold du_flush_ul_buffer. rewrite Hb. cbn [negb]. destruct (rb_repr_size _ _ Hq) as [-> _]. rewrite Nat2Z.id.
  destruct (flush_loop_exact ms _ Hq) as (q & -> & Hq' & _). by exists q.
Qed.

(** A PDU is buffered, or dropped when there is no room; it is not sent. *)
Lemma sdu_buffered d ms sdu : db_buffering d = true -> rb_repr (db_ul_buffer d) ms ->
  exists d' status, du_handle_sdu sdu d = Some (d', []) /\ db_buffering d' = true /\
    rb_repr (db_ul_buffer d') (if Z.of_nat (length ms) <? rb_max_size (db_ul_buffer d) then ms ++ [UlMessage (Some sdu) (Some status)] else ms).
Proof.
  intros Hb Hq. unfold du_handle_sdu. destruct (du_fill_data_delivery_status d) as [[f status] d1] eqn:E.
  assert (E1 : db_buffering d1 = true /\ db_ul_buffer d1 = db_ul_buffer d).
  { unfold du_fill_data_delivery_status in E. destruct (du_fill_set _ _) as [[? ?] ?]. destruct (du_fill_set _ _) as [[? ?] ?].
    destruct (du_fill_changed _ _) as [[? ?] ?]. destruct (du_fill_changed _ _) as [[? ?] ?]. by injection E as <- <- <-. }
  destruct E1 as [-> ->]. destruct (rb_try_push_spec (UlMessage (Some sdu) (Some status)) _ _ Hq) as (q & -> & Hq' & _).
  cbn [mbind option_bind]. by exists (db_set_buffer true q d1), status.
Qed.

(** ** Runs that depart from the intention *)

(** While a DU buffers, the timer still sends a status, which overtakes the buffered PDUs: after the flush the older status of a
    buffered PDU takes back what PDCP was told. *)
Example stale_report_after_flush :
  let l := [DuTransmitted 1 500; DuSdu [1]; DuTransmitted 2 400; DuTimer; DuFlush; DuTimer] in
  exists d e, du_run l (du_bearer_new true (rb_new false 16) 1000) = Some (d, e) /\
    let ev := snd (cu_receive (sent_ul e) cu_bearer_new) in
    latest kind_transmitted (concat (map stored l)) = Some 2 /\ told kind_transmitted ev = Some 1 /\ told kind_size ev = Some 500.
Proof. eexists _, _. by split. Qed.

(** A buffered PDU that finds the buffer full takes the report of a retransmission with it: no later status has it. *)
Example report_lost_with_pdu :
  let l := [DuSdu [1]; DuRetransmitted 3; DuSdu [2]; DuFlush; DuTimer; DuSdu [3]; DuTimer] in
  exists d e, du_run l (du_bearer_new true (rb_new false 1) 1000) = Some (d, e) /\
    told kind_retransmitted (snd (cu_receive (sent_ul e) cu_bearer_new)) = None.
Proof. eexists _, _. by split. Qed.

(** A notification that the executor of PDCP refuses is not repeated with the next status: the SN counts as notified. *)
Example refused_notification_lost :
  let status := Ddds false 100 None None None (Some 7) None None None in
  let l := [CiPdu (fun _ => false) (UlMessage None (Some status)); CiPdu take_all (UlMessage None (Some status))] in
  told kind_transmitted (snd (cu_run l cu_bearer_new)) = None.
Proof. reflexivity. Qed.

(** A stopped CU-UP bearer still starts its timer, and still sends, when PDCP discards. *)
Example discard_after_stop :
  cb_timer (fst (cu_run [CiStop; CiDiscard 5] cu_bearer_new)) = true /\
  length (sent_dl (snd (cu_run (CiStop :: map (fun n => CiDiscard (2 * Z.of_nat n)) (seq 0 16)) cu_bearer_new))) = 1%nat.
Proof. by split. Qed.

(** A stopped DU bearer starts its timer again with the next SDU, and then reports. *)
Example stopped_du_reports :
  exists d e, du_run [DuStop; DuSdu [1]; DuDelivered 4; DuTimer] (du_bearer_new false (rb_new false 16) 1000) = Some (d, e) /\
    db_timer d = true /\ length (sent_ul e) = 2%nat.
Proof. eexists _, _. by split. Qed.
