(* ===== verification/Sdap.v ===== *)
(** * SDAP ([lib/sdap])

    The entity of a PDU session maps QoS flows to data radio bearers: SDUs of a flow go to the PDCP entity of its bearer, PDUs of
    a bearer go up under its flow. It keeps the mapping twice, once for each direction. The abstract specification is a list of
    flows, each with one bearer and each bearer with one flow; the entity refines it. *)
From S2P Require Import Prelude.

(** [sdap_entity_tx_impl] and [sdap_entity_rx_impl]; the notifier of a bearer's PDCP entity is known by a number. *)
Record sdap_entity_tx_impl := SdapTx { tx_qfi : Z; tx_drb_id : Z; tx_pdu_notifier : Z }.
Record sdap_entity_rx_impl := SdapRx { rx_qfi : Z; rx_drb_id : Z }.

Inductive sdap_event :=
  | SdapNewPdu (pdu_notifier : Z) (pdu : list Z)
  | SdapNewSdu (sdu : list Z) (qfi : Z).

Definition sdap_tx_handle_sdu (sdu : list Z) (tx : sdap_entity_tx_impl) : sdap_event := SdapNewPdu (tx_pdu_notifier tx) sdu.
Definition sdap_rx_handle_pdu (pdu : list Z) (rx : sdap_entity_rx_impl) : sdap_event := SdapNewSdu pdu (rx_qfi rx).

(** [sdap_entity_impl] *)
Record sdap_entity := Sdap { tx_map : gmap Z sdap_entity_tx_impl; rx_map : gmap Z sdap_entity_rx_impl }.
Implicit Types e : sdap_entity.

Definition sdap_new : sdap_entity := Sdap ∅ ∅.

Definition sdap_handle_sdu (sdu : list Z) (qos_flow_id : Z) e : list sdap_event :=
  match tx_map e !! qos_flow_id with
  | None => []
  | Some tx => [sdap_tx_handle_sdu sdu tx]
  end.

(** [get_sdap_rx_pdu_handler], and a PDU given to the handler: [None] is the assertion that the bearer is mapped. *)
Definition get_sdap_rx_pdu_handler (drb_id : Z) e : option sdap_entity_rx_impl := rx_map e !! drb_id.
Definition sdap_handle_pdu (pdu : list Z) (drb_id : Z) e : option (list sdap_event) :=
  rx ← get_sdap_rx_pdu_handler drb_id e; Some [sdap_rx_handle_pdu pdu rx].

Definition is_mapped (qfi : Z) e : bool := match tx_map e !! qfi with Some _ => true | None => false end.

Definition add_mapping (qfi drb_id tx_pdu_notifier : Z) e : sdap_entity :=
  if is_mapped qfi e then e else
  match rx_map e !! drb_id with
  | Some _ => e
  | None => Sdap (<[qfi := SdapTx qfi drb_id tx_pdu_notifier]> (tx_map e)) (<[drb_id := SdapRx qfi drb_id]> (rx_map e))
  end.

(** The loop erases every entry of the bearer, in the order of the hash table, which does not matter. *)
Definition remove_mapping (drb_id : Z) e : sdap_entity :=
  Sdap (filter (fun x => tx_drb_id (snd x) <> drb_id) (tx_map e)) (delete drb_id (rx_map e)).

Inductive sdap_input :=
  | SiSdu (sdu : list Z) (qfi : Z) | SiPdu (pdu : list Z) (drb_id : Z)
  | SiAdd (qfi drb_id tx_pdu_notifier : Z) | SiRemove (drb_id : Z).

Definition sdap_step (i : sdap_input) e : option (sdap_entity * list sdap_event) :=
  match i with
  | SiSdu sdu qfi => Some (e, sdap_handle_sdu sdu qfi e)
  | SiPdu pdu drb => ev ← sdap_handle_pdu pdu drb e; Some (e, ev)
  | SiAdd qfi drb n => Some (add_mapping qfi drb n e, [])
  | SiRemove drb => Some (remove_mapping drb e, [])
  end.

Fixpoint sdap_run (l : list sdap_input) e : option (sdap_entity * list sdap_event) :=
  match l with
  | [] => Some (e, [])
  | i :: l => '(e, ev1) ← sdap_step i e; '(e, ev2) ← sdap_run l e; Some (e, ev1 ++ ev2)
  end.

(** ** The specification *)

Record flow := Flow { fl_qfi : Z; fl_drb : Z; fl_notifier : Z }.
Implicit Types f : flow.
#[export] Instance flow_eq_dec : EqDecision flow. Proof. solve_decision. Defined.

Definition flow_of_qfi (qfi : Z) (s : list flow) : option flow := find (fun f => fl_qfi f =? qfi) s.
Definition flow_of_drb (drb : Z) (s : list flow) : option flow := find (fun f => fl_drb f =? drb) s.

Definition spec_step (i : sdap_input) (s : list flow) : option (list flow * list sdap_event) :=
  match i with
  | SiSdu sdu qfi => Some (s, match flow_of_qfi qfi s with Some f => [SdapNewPdu (fl_notifier f) sdu] | None => [] end)
  | SiPdu pdu drb => f ← flow_of_drb drb s; Some (s, [SdapNewSdu pdu (fl_qfi f)])
  | SiAdd qfi drb n => Some (match flow_of_qfi qfi s, flow_of_drb drb s with None, None => Flow qfi drb n :: s | _, _ => s end, [])
  | SiRemove drb => Some (filter (fun f => fl_drb f <> drb) s, [])
  end.

Fixpoint spec_run (l : list sdap_input) (s : list flow) : option (list flow * list sdap_event) :=
  match l with
  | [] => Some (s, [])
  | i :: l => '(s, ev1) ← spec_step i s; '(s, ev2) ← spec_run l s; Some (s, ev1 ++ ev2)
  end.

(** One bearer for each flow, one flow for each bearer *)
Definition one_to_one (s : list flow) : Prop := NoDup (map fl_qfi s) /\ NoDup (map fl_drb s).

(** ** Refinement *)

Definition tx_of (f : flow) : sdap_entity_tx_impl := SdapTx (fl_qfi f) (fl_drb f) (fl_notifier f).
Definition rx_of (f : flow) : sdap_entity_rx_impl := SdapRx (fl_qfi f) (fl_drb f).

Record sdap_repr e (s : list flow) : Prop := {
  sr_unique : one_to_one s;
  sr_tx : forall qfi, tx_map e !! qfi = tx_of <$> flow_of_qfi qfi s;
  sr_rx : forall drb, rx_map e !! drb = rx_of <$> flow_of_drb drb s;
}.

(** Searching a list by a key *)
Section find_key.
Context (key : flow -> Z).
Implicit Types (k : Z) (s : list flow).

Lemma find_key_some k s f : find (fun f => key f =? k) s = Some f -> f ∈ s /\ key f = k.
Proof. intros E. apply find_some in E as [Hin E]. split; [by apply list_elem_of_In|by apply Z.eqb_eq]. Qed.

Lemma find_key_none k s : find (fun f => key f =? k) s = None -> k ∉ map key s.
Proof.
  intros E Hin. apply list_elem_of_fmap in Hin as (f & -> & Hf). apply list_elem_of_In in Hf. pose proof (find_none _ _ E f Hf) as H.
  cbn in H. by rewrite Z.eqb_refl in H.
Qed.

Lemma find_key_in k s f : NoDup (map key s) -> f ∈ s -> key f = k -> find (fun f => key f =? k) s = Some f.
Proof.
  intros Hn Hin <-. induction s as [|g s IH]; [by apply not_elem_of_nil in Hin|]. cbn [find]. cbn [map] in Hn. apply NoDup_cons in Hn as [Hg Hn].
  apply elem_of_cons in Hin as [->|Hin]; [by rewrite Z.eqb_refl|]. destruct (Z.eqb_spec (key g) (key f)) as [E|]; [|by apply IH].
  exfalso. apply Hg. rewrite E. apply list_elem_of_fmap. by exists f.
Qed.

Lemma find_key_filter (P : flow -> Prop) `{!forall f, Decision (P f)} k s : NoDup (map key s) ->
  find (fun f => key f =? k) (filter P s) = f ← find (fun f => key f =? k) s; if decide (P f) then Some f else None.
Proof.
  induction s as [|g s IH]; intros Hn; [done|]. cbn [map] in Hn. apply NoDup_cons in Hn as [Hg Hn]. specialize (IH Hn).
  rewrite filter_cons. cbn [find]. destruct (Z.eqb_spec (key g) k) as [<-|Hne].
  - cbn [mbind option_bind]. destruct (decide (P g)); cbn [find]; [by rewrite Z.eqb_refl|]. rewrite IH.
    destruct (find _ s) as [f|] eqn:E; [|done]. apply find_key_some in E as [Hf E]. exfalso. apply Hg. rewrite <- E. apply list_elem_of_fmap. by exists f.
  - destruct (decide (P g)); cbn [find]; [rewrite (proj2 (Z.eqb_neq _ _) Hne)|]; exact IH.
Qed.
End find_key.

Lemma nodup_filter_map (key : flow -> Z) (P : flow -> Prop) `{!forall f, Decision (P f)} s : NoDup (map key s) -> NoDup (map key (filter P s)).
Proof.
  induction s as [|g s IH]; [done|]. cbn [map]. intros Hn. apply NoDup_cons in Hn as [Hg Hn]. rewrite filter_cons.
  destruct (decide (P g)); [|by apply IH]. cbn [map]. apply NoDup_cons. split; [|by apply IH]. intros Hin. apply Hg.
  apply list_elem_of_fmap in Hin as (f & -> & Hf). apply list_elem_of_filter in Hf as [_ Hf]. apply list_elem_of_fmap. by exists f.
Qed.

Lemma sdap_repr_add e s qfi drb n : sdap_repr e s -> flow_of_qfi qfi s = None -> flow_of_drb drb s = None ->
  sdap_repr (Sdap (<[qfi := SdapTx qfi drb n]> (tx_map e)) (<[drb := SdapRx qfi drb]> (rx_map e))) (Flow qfi drb n :: s).
Proof.
  intros [[Hq Hd] Ht Hr] Eq Ed. split.
  - split; cbn [map fl_qfi fl_drb]; apply NoDup_cons; (split; [|done]); [exact (find_key_none fl_qfi _ _ Eq)|exact (find_key_none fl_drb _ _ Ed)].
  - intros q. cbn [tx_map]. unfold flow_of_qfi in *. cbn [find fl_qfi]. destruct (Z.eqb_spec qfi q) as [->|]; [by rewrite lookup_insert_eq|].
    by rewrite lookup_insert_ne.
  - intros d. cbn [rx_map]. unfold flow_of_drb in *. cbn [find fl_drb]. destruct (Z.eqb_spec drb d) as [->|]; [by rewrite lookup_insert_eq|].
    by rewrite lookup_insert_ne.
Qed.

Lemma sdap_repr_remove e s drb : sdap_repr e s -> sdap_repr (remove_mapping drb e) (filter (fun f => fl_drb f <> drb) s).
Proof.
  intros [[Hq Hd] Ht Hr]. split.
  - split; by apply nodup_filter_map.
  - intros q. cbn [remove_mapping tx_map]. rewrite map_lookup_filter, Ht. unfold flow_of_qfi. rewrite (find_key_filter fl_qfi) by done.
    destruct (find _ s) as [f|]; [|done]. cbn. by case_guard.
  - intros d. cbn [remove_mapping rx_map]. unfold flow_of_drb in *. rewrite (find_key_filter fl_drb) by done.
    destruct (decide (drb = d)) as [->|Hne].
    + rewrite lookup_delete_eq. destruct (find _ s) as [f|] eqn:E; [|done]. apply find_key_some in E as [_ E]. cbn.
      by destruct (decide (fl_drb f <> d)).
    + rewrite lookup_delete_ne, Hr by done. destruct (find _ s) as [f|] eqn:E; [|done]. apply find_key_some in E as [_ E]. cbn.
      destruct (decide (fl_drb f <> drb)) as [|H]; [done|]. exfalso. apply H. congruence.
Qed.

Lemma sdap_step_refines i e s : sdap_repr e s ->
  match spec_step i s with
  | Some (s', ev) => exists e', sdap_step i e = Some (e', ev) /\ sdap_repr e' s'
  | None => sdap_step i e = None
  end.
Proof.
  intros Hr. pose proof Hr as [_ Htx Hrx]. destruct i as [sdu qfi|pdu drb|qfi drb n|drb]; cbn [spec_step sdap_step].
  - exists e. split; [|done]. unfold sdap_handle_sdu. rewrite Htx. by destruct (flow_of_qfi qfi s).
  - unfold sdap_handle_pdu, get_sdap_rx_pdu_handler. rewrite Hrx. destruct (flow_of_drb drb s); [|done]. by exists e.
  - eexists. split; [reflexivity|]. unfold add_mapping, is_mapped. rewrite Htx, Hrx. destruct (flow_of_qfi qfi s) eqn:Eq; [done|]. cbn.
    destruct (flow_of_drb drb s) eqn:Ed; [done|]. cbn. by apply sdap_repr_add.
  - eexists. split; [reflexivity|]. by apply sdap_repr_remove.
Qed.

Lemma sdap_run_refines l : forall e s, sdap_repr e s ->
  match spec_run l s with
  | Some (s', ev) => exists e', sdap_run l e = Some (e', ev) /\ sdap_repr e' s'
  | None => sdap_run l e = None
  end.
Proof.
  induction l as [|i l IH]; intros e s Hr; cbn [spec_run sdap_run]; [by exists e|]. pose proof (sdap_step_refines i e s Hr) as Hs.
  destruct (spec_step i s) as [[s1 ev1]|]; [|by rewrite Hs]. destruct Hs as (e1 & -> & Hr1). cbn [mbind option_bind]. specialize (IH e1 s1 Hr1).
  destruct (spec_run l s1) as [[s2 ev2]|]; [|by rewrite IH]. destruct IH as (e2 & -> & Hr2). by exists e2.
Qed.

Lemma sdap_repr_new : sdap_repr sdap_new [].
Proof. split; [split; constructor|done|done]. Qed.

(** C26. For every sequence of SDUs, PDUs, added and removed mappings, the entity behaves as the list of flows does in which every
    flow has one bearer and every bearer one flow: SDUs of a flow go to its bearer or nowhere, PDUs of a bearer go up under its
    flow, and the two tables never disagree; only a PDU of a bearer that has no flow fails the assertion. *)
Theorem sdap_refines_flows l :
  match spec_run l [] with
  | Some (s, ev) => one_to_one s /\ exists e, sdap_run l sdap_new = Some (e, ev) /\
      (forall qfi, tx_map e !! qfi = tx_of <$> flow_of_qfi qfi s) /\ (forall drb, rx_map e !! drb = rx_of <$> flow_of_drb drb s)
  | None => sdap_run l sdap_new = None
  end.
Proof.
  pose proof (sdap_run_refines l sdap_new [] sdap_repr_new) as H. destruct (spec_run l []) as [[s ev]|]; [|exact H].
  destruct H as (e & E & [Hu Ht Hr]). split; [done|]. by exists e.
Qed.

Example sdap_sample :
  snd <$> sdap_run [SiAdd 1 4 40; SiAdd 1 5 50; SiAdd 2 4 41; SiAdd 2 5 50; SiSdu [7] 2; SiSdu [8] 3; SiPdu [9] 4; SiRemove 4; SiSdu [6] 1; SiAdd 3 4 42; SiPdu [5] 4] sdap_new =
  Some [SdapNewPdu 50 [7]; SdapNewSdu [9] 1; SdapNewSdu [5] 3].
Proof. reflexivity. Qed.
